(* ===== verification/_CoqProject ===== *)
-Q . S2P
Prelude.v
Cxx.v
Str.v
Column.v
Debug.v
Aggregate.v
Condition.v
Config.v
Generators.v
ScanGenerator.v
Average.v
Sql.v
Io.v
Output.v
User.v
Generate.v
Emitted.v
MfQuery.v
Query.v
Scans.v
Having.v
Compile.v
Program.v
UnicodeTables.v
Unicode.v
Cursor.v
Tokenizer.v
Tokens.v
ParserBase.v
ParserLaws.v
Json.v
UriParser.v
UriRead.v
UriConnection.v
ExprBase.v
ExprParser.v
ExprEnds.v
ExprVisit.v
ExprEcho.v
MyVal.v
ArtResultSet.v
Fields.v
MetaData.v
ArtMetadata.v
RsMetadata.v
PsMetadata.v
ResultSet.v
ResultBind.v
ParamBind.v
Warnings.v
PsResultSet.v
PsRead.v
PreparedStatement.v
BoundValues.v
Client.v
Calls.v
Statement.v
ConnectionOptions.v
Uri.v
Connection.v
ConnectionInit.v
Driver.v
Server.v
OpenConnection.v
Statements.v
Sessions.v
Connector.v
Prepared.v
SqlStr.v
ForeignKeys.v
TypeInfo.v
DatabaseMetaData.v
MetaTables.v
MetaAnswers.v
Catalog.v
Memory.v
CStr.v
CStrings.v
Parsers.v
Correctness.v
