(* ===== verification/Prelude.v ===== *)
(** * Verification of the MF/EMF query generator

    The program (src/main.cpp, src/generate.cpp, src/lib/) reads a query with
    grouping variables, asks the database for the columns of the table and writes
    a C++ program (result.h, result.cpp) that answers the query.  It uses the
    result sets of the bundled database connector (src/mysqlconnector/jdbc/).
    This library models both as executable functions and proves what they do, and the
    parsers of the connector's other driver (src/mysqlconnector/cdk/parser/).

    ** The model

    - A [std::string] is a [list ascii] ([str]); [int], [int64_t] and [size_t]
      are [Z] with the conversions of this file, a signed overflow being
      [Undefined].  A computation is an [outcome]: [Ok], [Throw], [Undefined]
      (undefined behaviour) or [Diverged] (out of fuel).
    - [Cxx] models the parts of the C++ library the program uses and the process
      state: [M A] is a state monad over [world] (standard streams, files, and
      the trace [w_db] of the calls on the connector).
    - Objects of the connector are records; their methods are in [Cursor.Method],
      a state monad over the members.
    - Loops follow the source.  Those over a container are structural; those
      bounded by arithmetic take fuel, [explode_fuel s = 2 * length s + 3] for
      [explode] and the length of the text elsewhere, and the theorems about them
      show that the result is never [Diverged].  [str_replace] recurses without a
      bound in the source: [str_replace_all] and [char_replace_agrees] give the fuel
      that suffices, one more than the number of replacements; [negative_length]
      does so for [substring].  The getters of a prepared result call each other two
      deep at most ([getters_return]).

    ** The files, from the source's files

    - Str: lib/str.cpp (the functions on std::string).
    - Memory, CStr, CStrings: the functions of lib/str.cpp on [char*], over a heap
      of blocks of bytes ([Memory]: [malloc], [free], [strlen], C strings), each
      equal to a short program on strings; their properties.
    - Debug: lib/debug.cpp.
    - Column, Aggregate, Condition, Average: lib/objects/column, aggregate,
      condition and conditions, average.
    - Config, Generators, ScanGenerator: lib/config.h, helpers.cpp,
      structures.cpp, query.cpp, objects/scan_generator.cpp: the emitted text.
    - Sql, Io: lib/objects/sql.cpp over the interface [Connector]; lib/io.cpp.
    - Output, User, Generate: lib/output.cpp ([parse_query]), lib/user.cpp and
      main.cpp, generate.cpp.
    - Emitted: what the emitted text does when it runs, written from the text the
      generators print (look-up helpers, preliminary scan, MF and EMF scans,
      updates, such-that guards, final filter).  A position is an [int] ([vfind]
      narrows it); erasing the first entry moves the iterator before the vector and
      is [Undefined], a later one moves it to the entry before.
    - MfQuery, Query: what the scans compute, for constant conditions and for
      conditions that read the results of earlier variables; the answer of a query.
    - Scans: syntax trees of the emitted scans with their printer and execution
      ([scans_printed_and_run]: the generator prints what [run_scans] executes).
    - Compile, Program: that the compiler does not fail on well-formed queries, and the
      text of both files it writes, printed from the parts of the query by functions
      that do not parse ([header_text], [program_text]).
    - Having: the having clause as a C++ expression (words, an operator stack,
      evaluation in [int] and [int64_t], assignments), the final loop with it and
      the printing of the result: [run_query], [run_main].
    - UnicodeTables, Unicode: the letter-case tables and the UTF-8 functions of
      jdbc/driver/mysql_util.cpp, and the label maps of the result sets.
    - Cursor: the abstract cursor (a position from 0 to n + 1 and what each move
      does to it) and the interface [CursorOver] that result sets promise.
    - MyVal, ArtResultSet: jdbc/driver/mysql_art_resultset.cpp.
    - ResultSet: jdbc/driver/mysql_resultset.cpp over the C API ([CResult]), whose
      stored results satisfy [StoredResult]; [in_memory] is an instance.
    - Fields: the column types, the character sets and the BIT numbers of
      jdbc/driver/mysql_util.{h,cpp}.
    - MetaData, RsMetadata, PsMetadata, ArtMetadata: the abstract class of
      cppconn/resultset_metadata.h with its laws and its three implementations,
      mysql_resultset_metadata, mysql_ps_resultset_metadata, mysql_art_rset_metadata.
    - ResultBind, PsResultSet, PsRead: the buffers of mysql_resultbind.cpp and the
      result set of mysql_ps_resultset.cpp over the statements of the C API
      ([CStatement], stored results [StoredStatement], instance [in_memory_stmt]);
      what its getters return.
    - ParamBind, PreparedStatement: jdbc/driver/mysql_prepared_statement.cpp, the
      parameters with the heap objects they own, and the statement over the C API
      ([CPrepared]).  BoundValues gives its setters an abstract specification, a list
      of values ([spec_setter]); Client is the server's side: what is read from the
      bound buffers, the laws of a client on which every call succeeds
      ([PreparedClient]) and the calls of lib/objects/sql.cpp on a statement; Calls
      has all public methods as calls, with what every sequence of them keeps.
    - Warnings: jdbc/driver/mysql_warning.cpp.
    - Statement: jdbc/driver/mysql_statement.cpp over the C API ([CConnection]).
    - ConnectionOptions, Connection, ConnectionInit: jdbc/driver/mysql_connection.cpp,
      the option tables, the session and [init]; the C API is [COptions], [CSession].
    - Server, OpenConnection: the laws of a server on which every call succeeds, with a
      log of what it is told ([Server], [Accepting], instance [memory_server]); what
      statements and connections tell it.
    - Driver: jdbc/driver/mysql_driver.cpp and mysql_parameter_metadata.cpp.
    - SqlStr, ForeignKeys, TypeInfo, DatabaseMetaData, MetaTables, MetaAnswers:
      jdbc/driver/mysql_metadata.cpp: searching in texts (cppconn/sqlstring.h), the
      foreign keys that SHOW CREATE TABLE prints, the table of types, keys and indexes,
      tables, columns and privileges, and the answers that do not depend on the data.
      DatabaseMetaData ends with what their queries give on a server ([Server]).
    - Uri: jdbc/driver/mysql_uri.cpp.
    - Tokenizer, Tokens: cdk/parser/tokenizer.{h,cc}; the grammar of tokens ([shape],
      [lexed]), what the tokenizer returns for every input, and the text of given tokens.
    - ParserBase, ParserLaws: the templates of cdk/parser/parser.h over a log of the calls
      on the client's processor, which may be null at every part ([p_accept]); that they
      end, and that a client that takes everything stands for all others ([sim]).
    - Json: cdk/parser/json_parser.{h,cc}; documents ([json]), their texts and the visit
      of a client; integers at the bounds of their types.
    - ExprBase, ExprParser: cdk/parser/expr_parser.{h,cc}: keywords, operators, stored
      expressions, the grammar and the parsers of texts.  ExprEnds is a logic of its
      methods ([runs]) for termination and undefinedness; ExprVisit has abstract
      expressions ([expr]) with their text and tree; ExprEcho reads the texts back.
    - UriParser, UriRead, UriConnection: cdk/parser/uri_parser.{h,cc}; the parts of
      a connection string ([connection]) with their text and calls, and a logic of methods
      that only go forward, for termination.

    ** The theorems

    - Compile, Query and Having hold the two main developments: a well-formed
      query file compiles without an error, and the emitted program, its having
      clause included, answers the query ([query_answered]): for every grouping
      variable and key it computes the aggregates of exactly the rows with that
      key that satisfy the variable's condition, and prints the accepted keys.
    - Correctness states the properties of the generator: the command line
      ([compiles_query]: the two files that are written are the printed texts of the
      query), the emitted query ([emf_scan_result], [result_filtered], [uniques_are_keys], [vfind_least]),
      the input formats ([query_file_parsed], [clause_parsed],
      [aggregate_roundtrip]), the database calls ([statement_calls],
      [generated_rows]) and the string library.
    - CStrings states those of the C string functions: they compute what the
      functions on std::string compute ([char_replace_agrees],
      [char_search_agrees]), every access is inside a live block, and blocks are
      freed once ([concat_joins], [concat_all_frees], [reverse_twice]).
    - Connector states those of the connector: both result sets refine the cursor
      ([art_follows_cursor], [rs_follows_cursor]), values and labels are found
      ([art_reads_current_row], [columns_are_read], [labels_ignore_case]), and
      addresses are taken apart ([address_parsed]).
    - Prepared states those of prepared results and of metadata: the cursor
      ([ps_follows_cursor]), numbers and times read back ([ps_integer_read],
      [integer_buffers], [timestamps_read_back]), types and their names
      ([type_names_read]), columns outside of a result ([metadata_of_result]).
    - Statements states those of prepared statements: the server receives the values
      that were set ([parameters_received], and [arguments_received] for the calls the
      program makes), long data arrives ([long_data_arrives]), whatever is called the
      statement frees what it allocated ([statement_frees]), incomplete and closed
      statements are refused ([refused_before_server], [closed_statement_refuses]).
      The loop that sends a string is given [2^14] turns, which is enough for every
      string that is not longer than [LONGEST].
    - Sessions states those of connections and statements: what opening one tells the
      server ([connection_opened]), the rows of a query ([query_rows_read]), the
      answers of an update are passed ([update_results_drained]), warnings in order
      ([warnings_in_order]), savepoints ([savepoints_sent]), pings
      ([reconnect_put_back]) and closed connections ([closed_connection_refuses]).
    - Catalog states those of the metadata of a database: foreign keys and privileges are
      read back from what the server prints ([imported_keys_read], [grants_read]), and
      the types that are listed ([type_info_agrees]).
    - Parsers states those of the parsers of the X DevAPI: tokens cover the input
      ([tokens_cover_input]), documents, connection strings and expressions are reported
      as they are written ([json_reported], [uri_reported], [expression_reported]), every
      input comes to an end ([json_returns], [uri_returns], [expressions_end]; a parser over
      [n] tokens or characters has fuel [S n], which is enough because every turn consumes
      one; [parse] calls itself at most twelve times before it takes a token and has
      [12 * S n]), what a client does not want
      is still checked ([json_parts_skipped]), and integers at their bounds
      ([json_integers]).
    - Some theorems state what the code does where it does not do what it means
      to: [explode_throws_on_short_rest], [trim_leading],
      [aggregate_of_underscored_column], [quoted_values_ignore_operator],
      [first_entry_never_matches], [emf_constant_condition],
      [long_integers_truncated], [relative_before_first_skips_row],
      [having_equals_assigns], [text_read_past_buffer], [forward_end_keeps_row],
      [too_long_never_sent], [later_counts_lost], [refused_by_server_recorded],
      [tls_flags_ignored], [later_rules_reported], [backslash_never_ends],
      [named_objects_query], [json_integers], [first_dot_lost],
      [priority_wraps], [message_not_converted], [escaped_undefined],
      [unbalanced_accepted], [signs_in_pct], [is_false_is_true],
      [grouped_to_the_right], [tilde_ends_expression], [position_refused],
      [least_integer_refused], [undefined_expressions].

    ** Not modelled

    Memory management of objects that are only allocated and freed (the values of
    prepared statements are modelled with their heap), tracing in the connector, the
    versions that its build defines, the wrappers that forward to the client library (behind
    [Connector], [CResult], [CStatement], [CPrepared], [CConnection], [CSession]),
    [strtonum], the formats of floating values, and the rest of its other driver: the
    sessions, the network and the protocol messages of the X DevAPI and CDK with protobuf
    and yassl, which the program does not use.  Of emitted programs only those that
    compile: members with the names of columns that the table has.  In the emitted program: columns of
    floating-point type, and having clauses with operators of C++ other than the
    arithmetic, comparison and logical ones ([having_stmt] is [None] for them).

    This file holds what all others share: byte strings and their literals,
    outcomes, machine integers, sizes and the tactics. *)

From Stdlib Require Export String Ascii ZArith Lia.
From stdpp Require Export base list strings gmap.

#[export] Set Warnings "-clear-no-such-hyp".

#[global] Open Scope Z_scope.
#[global] Open Scope list_scope.

(** ** Byte strings

    A [std::string] is a list of bytes.  C++ string literals are written as
    Rocq strings and decoded by [lit]: [\n], [\t], [\r] and [\\] are the C
    escapes, and [\q] stands for the C escape of the double quote. *)

Abbreviation str := (list ascii).

Fixpoint lit (s : string) : str :=
  match s with
  | EmptyString => []
  | String "\" (String "n" r) => "010"%char :: lit r
  | String "\" (String "t" r) => "009"%char :: lit r
  | String "\" (String "r" r) => "013"%char :: lit r
  | String "\" (String "q" r) => "034"%char :: lit r
  | String "\" (String "\" r) => "\"%char :: lit r
  | String c r => c :: lit r
  end.
Arguments lit : simpl never.

(** Expands the literals of a goal into their bytes. *)
Ltac lits :=
  repeat match goal with
  | |- context [lit ?s] => let b := eval vm_compute in (lit s) in change (lit s) with b
  end.
#[warning="-uniform-inheritance"] Coercion lit : string >-> list.

(** ** Outcomes of C++ code

    A computation returns a value, throws, runs into undefined behaviour or
    (for a function whose recursion is not bounded in the source) exhausts
    the fuel it was given. *)

Inductive exn :=
| OutOfRange                 (** [std::out_of_range] *)
| InvalidArgument            (** [std::invalid_argument] *)
| StdException               (** a bare [std::exception] *)
| CMessage (msg : str)       (** [throw "literal"] *)
| SqlError (msg : str)       (** [sql::SQLException] *)
| InvalidInstance (msg : str)        (** [sql::InvalidInstanceException] *)
| SqlInvalidArgument (msg : str)     (** [sql::InvalidArgumentException] *)
| MethodNotImplemented (msg : str)   (** [sql::MethodNotImplementedException] *)
| NonScrollable (msg : str)          (** [sql::NonScrollableException] *)
| BadAlloc                           (** [std::bad_alloc] *)
| UnsupportedOption (msg option : str)   (** [sql::SQLUnsupportedOptionException] *)
| ParseError (seen ahead : list Z) (pos : nat) (msg : list Z)  (** [parser::Error_base] *)
| UnexpectedError (seen ahead : list Z) (pos : nat) (expected : str) (msg : list Z)
    (** [Unexpected_error] of cdk/parser/uri_parser.cc *)
| InvalidCharError (seen ahead : list Z) (pos : nat) (c : ascii)
    (** [Error_invalid_char] of cdk/parser/uri_parser.cc *)
| ConversionError (inp : list Z)         (** [parser::Numeric_conversion_error] *)
| ConversionPartial (inp : list Z)       (** [parser::Numeric_conversion_partial] *)
| GenericError (descr : str).            (** [cdk::Generic_error], of [throw_error] *)

Inductive outcome (A : Type) : Type :=
| Ok (a : A)
| Throw (e : exn)
| Undefined
| Diverged.
Arguments Ok {A} a.
Arguments Throw {A} e.
Arguments Undefined {A}.
Arguments Diverged {A}.

#[export] Instance exn_eq_dec : EqDecision exn.
Proof. solve_decision. Defined.
#[export] Instance outcome_eq_dec {A} `{EqDecision A} : EqDecision (outcome A).
Proof. solve_decision. Defined.

#[export] Instance outcome_ret : MRet outcome := @Ok.
#[export] Instance outcome_bind : MBind outcome := fun A B f m =>
  match m with
  | Ok a => f a
  | Throw e => Throw e
  | Undefined => Undefined
  | Diverged => Diverged
  end.
#[export] Instance outcome_fmap : FMap outcome := fun A B f m =>
  match m with
  | Ok a => Ok (f a)
  | Throw e => Throw e
  | Undefined => Undefined
  | Diverged => Diverged
  end.

Definition is_ok {A} (m : outcome A) : bool :=
  match m with Ok _ => true | _ => false end.

(** Dereferencing a pointer that may be null. *)
Definition deref {A} (p : option A) : outcome A :=
  match p with Some a => Ok a | None => Undefined end.

(** Indexing a built-in array: out of range is undefined. *)
Definition arr_at {A} (l : list A) (i : Z) : outcome A :=
  if decide (0 <= i < Z.of_nat (length l)) then
    match l !! Z.to_nat i with Some a => Ok a | None => Undefined end
  else Undefined.

(** [vector::at]: out of range throws. *)
Definition vec_at {A} (l : list A) (i : Z) : outcome A :=
  if decide (0 <= i < Z.of_nat (length l)) then
    match l !! Z.to_nat i with Some a => Ok a | None => Undefined end
  else Throw OutOfRange.

(** ** Machine integers *)

Definition npos : Z := 2 ^ 64 - 1.
Definition INT_MIN : Z := - 2 ^ 31.
Definition INT_MAX : Z := 2 ^ 31 - 1.
Definition to_size_t (z : Z) : Z := z mod 2 ^ 64.
Definition to_int (z : Z) : Z := (z + 2 ^ 31) mod 2 ^ 32 - 2 ^ 31.
Definition to_int64 (z : Z) : Z := (z + 2 ^ 63) mod 2 ^ 64 - 2 ^ 63.
Definition in_int (z : Z) : bool := (INT_MIN <=? z) && (z <=? INT_MAX).
Definition in_int64 (z : Z) : bool := (- 2 ^ 63 <=? z) && (z <=? 2 ^ 63 - 1).

Lemma to_size_t_small z : 0 <= z < 2 ^ 64 -> to_size_t z = z.
Proof. intros. unfold to_size_t. by apply Z.mod_small. Qed.

Lemma to_size_t_neg z : - 2 ^ 64 <= z < 0 -> to_size_t z = z + 2 ^ 64.
Proof.
  intros. unfold to_size_t. symmetry. apply Z.mod_unique with (q := -1); lia.
Qed.

Lemma to_int_small z : INT_MIN <= z <= INT_MAX -> to_int z = z.
Proof. unfold INT_MIN, INT_MAX, to_int. intros. rewrite Z.mod_small; lia. Qed.

Lemma to_int64_small z : - 2 ^ 63 <= z < 2 ^ 63 -> to_int64 z = z.
Proof. unfold to_int64. intros. rewrite Z.mod_small; lia. Qed.

Lemma to_int64_npos : to_int64 npos = -1.
Proof. reflexivity. Qed.

Lemma in_int_spec z : in_int z = true <-> INT_MIN <= z <= INT_MAX.
Proof. unfold in_int. rewrite andb_true_iff. lia. Qed.

(** ** Sizes of strings *)

Definition size (s : str) : Z := Z.of_nat (length s).

Lemma size_nonneg s : 0 <= size s.
Proof. unfold size. lia. Qed.
Lemma size_nil : size [] = 0.
Proof. reflexivity. Qed.
Lemma size_cons c s : size (c :: s) = size s + 1.
Proof. unfold size. simpl. lia. Qed.
Lemma size_app s t : size (s ++ t) = size s + size t.
Proof. unfold size. rewrite length_app. lia. Qed.
Lemma size_zero s : size s = 0 <-> s = [].
Proof. unfold size. destruct s; simpl; split; intros; try done; lia. Qed.

Create Rewrite HintDb size.
Create HintDb size_facts.
#[export] Hint Rewrite size_nil size_cons size_app : size.
#[export] Hint Resolve size_nonneg : size_facts.

(** Normalises sizes and leaves an arithmetic goal to [lia]. *)
Ltac size_lia :=
  autorewrite with size in *;
  repeat match goal with
  | |- context [size ?s] =>
      lazymatch goal with
      | _ : 0 <= size s |- _ => fail
      | _ => pose proof (size_nonneg s)
      end
  | _ : context [size ?s] |- _ =>
      lazymatch goal with
      | _ : 0 <= size s |- _ => fail
      | _ => pose proof (size_nonneg s)
      end
  end; unfold npos, INT_MIN, INT_MAX in *; lia.

(** ** Case analysis on boolean tests of [Z] *)

Ltac z_cases :=
  repeat match goal with
  | |- context [Z.ltb ?a ?b] => destruct (Z.ltb_spec a b)
  | |- context [Z.leb ?a ?b] => destruct (Z.leb_spec a b)
  | |- context [Z.gtb ?a ?b] => rewrite (Z.gtb_ltb a b)
  | |- context [Z.geb ?a ?b] => rewrite (Z.geb_leb a b)
  | |- context [Z.eqb ?a ?b] => destruct (Z.eqb_spec a b)
  end.

(** Proves a [Forall] over a literal list, each member by [tac]. *)
Ltac forall_list tac :=
  repeat (apply Forall_cons; split; [tac|]); apply Forall_nil, I.

(** Inverts a successful bind in a hypothesis, one step at a time. *)
Lemma bind_Ok {A B} (m : outcome A) (f : A -> outcome B) b :
  (m ≫= f) = Ok b <-> exists a, m = Ok a /\ f a = Ok b.
Proof. destruct m; simpl; naive_solver. Qed.

Lemma obind_Ok {A B} (a : A) (f : A -> outcome B) : (Ok a ≫= f) = f a.
Proof. done. Qed.

Ltac inv_ok :=
  repeat match goal with
  | H : (_ ≫= _) = Ok _ |- _ => apply bind_Ok in H; destruct H as (? & ? & ?)
  | H : Ok _ = Ok _ |- _ => injection H as H; subst
  | H : Throw _ = Ok _ |- _ => discriminate H
  | H : Undefined = Ok _ |- _ => discriminate H
  | H : Diverged = Ok _ |- _ => discriminate H
  end.
