(* ===== verification/Cxx.v ===== *)
(** * The C++ standard library used by the program

    [std::string] operations, number parsing, and the state a process sees:
    its standard streams, the files it can open and the calls it has made on
    the database connector.  Effects are a state monad [M] over [world] with
    the outcomes of [Prelude]. *)

From S2P Require Import Prelude.

(** ** std::string *)

(** [s.at(i)] with the [size_t] index [i]. *)
Definition str_at (s : str) (i : Z) : outcome ascii := vec_at s i.

(** [s[i]]: index [size()] reads the terminating NUL, beyond is undefined. *)
Definition str_idx (s : str) (i : Z) : outcome ascii :=
  if decide (0 <= i < size s) then
    match s !! Z.to_nat i with Some c => Ok c | None => Undefined end
  else if decide (i = size s) then Ok "000"%char
  else Undefined.

(** [s.substr(pos, n)]; [pos] and [n] are [size_t] values. *)
Definition substr (s : str) (pos n : Z) : outcome str :=
  if decide (pos <= size s) then
    Ok (take (Z.to_nat (Z.min n (size s - pos))) (drop (Z.to_nat pos) s))
  else Throw OutOfRange.

Definition substr_from (s : str) (pos : Z) : outcome str := substr s pos npos.

Fixpoint starts_with (pat s : str) : bool :=
  match pat, s with
  | [], _ => true
  | p :: pat', c :: s' => bool_decide (p = c) && starts_with pat' s'
  | _ :: _, [] => false
  end.

(** The index of the first occurrence of [pat] in [s]. *)
Fixpoint find_nat (pat s : str) : option nat :=
  if starts_with pat s then Some 0%nat else
  match s with
  | [] => None
  | _ :: s' => S <$> find_nat pat s'
  end.

(** [s.find(pat)], as a [size_t]. *)
Definition find (s pat : str) : Z :=
  match find_nat pat s with Some i => Z.of_nat i | None => npos end.
Definition find_char (s : str) (c : ascii) : Z := find s [c].
Definition contains (s pat : str) : bool := bool_decide (find s pat <> npos).

(** [a.compare(b) == 0] *)
Definition str_eqb (a b : str) : bool := bool_decide (a = b).

(** [s.c_str()]: what a C function reads of it. *)
Fixpoint c_str (s : str) : str :=
  match s with
  | [] => []
  | c :: s' => if bool_decide (c = "000"%char) then [] else c :: c_str s'
  end.

(** ** Reading decimal numbers: [atoi] and [std::stoi] *)

Definition isspace (c : ascii) : bool :=
  let n := nat_of_ascii c in
  Nat.eqb n 32 || (Nat.leb 9 n && Nat.leb n 13).

Definition isdigit (c : ascii) : bool :=
  let n := nat_of_ascii c in Nat.leb 48 n && Nat.leb n 57.

Definition digit_val (c : ascii) : Z := Z.of_nat (nat_of_ascii c) - 48.

Fixpoint drop_spaces (s : str) : str :=
  match s with
  | c :: s' => if isspace c then drop_spaces s' else s
  | [] => []
  end.

Fixpoint digits_val (acc : Z) (s : str) : Z :=
  match s with
  | c :: s' => if isdigit c then digits_val (10 * acc + digit_val c) s' else acc
  | [] => acc
  end.

(** The number a decimal [strtol] reads at the start of [s], [None] when
    there are no digits. *)
Definition scan_int (s : str) : option Z :=
  let unsigned t :=
    match t with
    | c :: _ => if isdigit c then Some (digits_val 0 t) else None
    | [] => None
    end in
  match drop_spaces s with
  | "-"%char :: t => Z.opp <$> unsigned t
  | "+"%char :: t => unsigned t
  | t => unsigned t
  end.

(** [atoi]: an unrepresentable value is undefined behaviour. *)
Definition atoi (s : str) : outcome Z :=
  match scan_int (c_str s) with
  | None => Ok 0
  | Some v => if in_int v then Ok v else Undefined
  end.

Definition stoi (s : str) : outcome Z :=
  match scan_int (c_str s) with
  | None => Throw InvalidArgument
  | Some v => if in_int v then Ok v else Throw OutOfRange
  end.

(** ** The process state *)

(** The values bound to the parameters of a prepared statement; a double is
    carried by its 64-bit representation. *)
Inductive sqlval :=
| SqlString (s : str)
| SqlInt (z : Z)
| SqlInt64 (z : Z)
| SqlDouble (bits : Z)
| SqlUInt64 (z : Z).

(** The calls made on the database connector, in order. *)
Inductive db_call :=
| DbConnect (location user password : str)
| DbSetSchema (schema : str)
| DbCreateStatement
| DbPrepareStatement (query : str)
| DbSetParam (index : Z) (v : sqlval)
| DbExecute
| DbExecuteQuery
| DbStatementExecute (query : str)
| DbStatementExecuteQuery (query : str)
| DbDeleteStatement
| DbDeleteResultSet
| DbDeleteConnection.

#[export] Instance sqlval_eq_dec : EqDecision sqlval.
Proof. solve_decision. Defined.
#[export] Instance db_call_eq_dec : EqDecision db_call.
Proof. solve_decision. Defined.

(** [w_stdin] is the unread input and [w_cin_good] whether [cin] has none of
    its error bits set; [w_writable] says which paths can be opened for
    writing. *)
Record world := World {
  w_stdin : str;
  w_cin_good : bool;
  w_stdout : str;
  w_stderr : str;
  w_files : gmap (list ascii) (list ascii);
  w_writable : str -> bool;
  w_db : list db_call;
}.

Definition set_stdin (i : str) (good : bool) (w : world) : world :=
  World i good (w_stdout w) (w_stderr w) (w_files w) (w_writable w) (w_db w).
Definition add_stdout (s : str) (w : world) : world :=
  World (w_stdin w) (w_cin_good w) (w_stdout w ++ s) (w_stderr w) (w_files w)
    (w_writable w) (w_db w).
Definition add_stderr (s : str) (w : world) : world :=
  World (w_stdin w) (w_cin_good w) (w_stdout w) (w_stderr w ++ s) (w_files w)
    (w_writable w) (w_db w).
Definition set_files (f : gmap (list ascii) (list ascii)) (w : world) : world :=
  World (w_stdin w) (w_cin_good w) (w_stdout w) (w_stderr w) f (w_writable w) (w_db w).
Definition add_db (c : db_call) (w : world) : world :=
  World (w_stdin w) (w_cin_good w) (w_stdout w) (w_stderr w) (w_files w)
    (w_writable w) (w_db w ++ [c]).

(** ** The effect monad *)

Definition M (A : Type) : Type := world -> outcome A * world.

#[export] Instance M_ret : MRet M := fun A a w => (Ok a, w).
#[export] Instance M_bind : MBind M := fun A B f m w =>
  match m w with
  | (Ok a, w') => f a w'
  | (Throw e, w') => (Throw e, w')
  | (Undefined, w') => (Undefined, w')
  | (Diverged, w') => (Diverged, w')
  end.

Definition lift {A} (o : outcome A) : M A := fun w => (o, w).
Definition modify (f : world -> world) : M unit := fun w => (Ok tt, f w).
Definition get_world : M world := fun w => (Ok w, w).
Definition cout (s : str) : M unit := modify (add_stdout s).
Definition cerr (s : str) : M unit := modify (add_stderr s).

(** ** Input streams *)

(** [std::getline(stream, s)] on a stream with unread bytes [s]: the line,
    the rest, and whether the stream is still good. *)
Fixpoint split_line (s : str) : str * str * bool :=
  match s with
  | [] => ([], [], false)
  | c :: s' =>
      if bool_decide (c = "010"%char) then ([], s', true)
      else let '(l, r, g) := split_line s' in (c :: l, r, g)
  end.

(** [getline(cin, s)] for a string that was empty. *)
Definition cin_getline : M str := fun w =>
  if w_cin_good w then
    let '(l, r, g) := split_line (w_stdin w) in (Ok l, set_stdin r g w)
  else (Ok [], w).

(** [cin.getline(buffer, n)], the NUL-terminated string left in the buffer.
    At most [n - 1] bytes are stored; a longer line sets the fail bit.
    [room] is the number of bytes that may still be stored. *)
Fixpoint buffer_line (room : nat) (s : str) : str * str * bool :=
  match s with
  | [] => ([], [], false)
  | c :: s' =>
      if bool_decide (c = "010"%char) then ([], s', true)
      else match room with
           | O => ([], s, false)
           | S room' => let '(l, r, g) := buffer_line room' s' in (c :: l, r, g)
           end
  end.

Definition cin_getline_buffer (n : nat) : M str := fun w =>
  if w_cin_good w then
    let '(l, r, g) := buffer_line (n - 1) (w_stdin w) in (Ok (c_str l), set_stdin r g w)
  else (Ok [], w).

(** ** Lemmas: strings *)

Lemma starts_with_spec pat s :
  starts_with pat s = true <-> exists rest, s = pat ++ rest.
Proof.
  revert s. induction pat as [|p pat IH]; intros [|c s]; simpl.
  - split; [by exists []|done].
  - split; [by exists (c :: s)|done].
  - split; [done|]. intros [? [=]].
  - rewrite andb_true_iff, bool_decide_eq_true, IH. split.
    + intros [-> [r ->]]. by exists r.
    + intros [r [= -> ->]]. split; [done|by exists r].
Qed.

Lemma starts_with_app pat rest : starts_with pat (pat ++ rest) = true.
Proof. apply starts_with_spec. by exists rest. Qed.

Lemma find_nat_unfold pat s :
  find_nat pat s =
    if starts_with pat s then Some 0%nat else
    match s with [] => None | _ :: s' => S <$> find_nat pat s' end.
Proof. by destruct s. Qed.

(** [find] returns the least position at which the pattern occurs. *)
Lemma find_nat_Some pat s i :
  find_nat pat s = Some i <->
  (exists rest, drop i s = pat ++ rest) /\ (i <= length s)%nat /\
  forall j, (j < i)%nat -> starts_with pat (drop j s) = false.
Proof.
  revert i. induction s as [|c s IH]; intros i; rewrite find_nat_unfold;
    destruct (starts_with pat _) eqn:E.
  - split.
    + intros [= <-]. apply starts_with_spec in E. repeat split; [done|lia|lia].
    + intros (_ & Hi & _). simpl in Hi. f_equal. lia.
  - split; [done|]. intros ((r & Hr) & Hi & _). simpl in Hi.
    rewrite drop_nil in Hr.
    assert (starts_with pat [] = true) by (apply starts_with_spec; by exists r).
    congruence.
  - split.
    + intros [= <-]. apply starts_with_spec in E. repeat split; [done|lia|lia].
    + intros (_ & _ & Hj). destruct i; [done|]. specialize (Hj 0%nat). simpl in Hj.
      rewrite E in Hj. discriminate Hj. lia.
  - destruct i as [|i].
    + split.
      * destruct (find_nat pat s); done.
      * intros ((r & Hr) & _). simpl in Hr.
        assert (starts_with pat (c :: s) = true)
          by (apply starts_with_spec; by exists r). congruence.
    + transitivity (find_nat pat s = Some i).
      { destruct (find_nat pat s); simpl; split; congruence. }
      rewrite IH. simpl. split.
      * intros (? & ? & Hj). repeat split; [done|lia|].
        intros [|j] ?; simpl; [done|]. apply Hj. lia.
      * intros (? & ? & Hj). repeat split; [done|lia|].
        intros j ?. apply (Hj (S j)). lia.
Qed.

Lemma find_nat_None pat s :
  find_nat pat s = None <-> forall i, starts_with pat (drop i s) = false.
Proof.
  induction s as [|c s IH]; rewrite find_nat_unfold;
    destruct (starts_with pat _) eqn:E.
  - split; [done|]. intros H. specialize (H 0%nat). simpl in H. congruence.
  - split; [|done]. intros _ i. by rewrite drop_nil.
  - split; [done|]. intros H. specialize (H 0%nat). simpl in H. congruence.
  - transitivity (find_nat pat s = None).
    { destruct (find_nat pat s); simpl; split; congruence. }
    rewrite IH. split.
    + intros H [|i]; simpl; auto.
    + intros H i. apply (H (S i)).
Qed.

Lemma find_nat_lt pat s i : find_nat pat s = Some i ->
  (i + length pat <= length s)%nat.
Proof.
  intros ((r & Hr) & Hi & _)%find_nat_Some.
  apply (f_equal length) in Hr. rewrite length_drop, length_app in Hr. lia.
Qed.

Lemma find_nat_app_first pat a b :
  (forall j, (j < length a)%nat -> starts_with pat (drop j (a ++ pat ++ b)) = false) ->
  find_nat pat (a ++ pat ++ b) = Some (length a).
Proof.
  intros H. apply find_nat_Some. rewrite drop_app_length. repeat split.
  - by exists b.
  - rewrite length_app. lia.
  - done.
Qed.

Lemma find_char_None c s : find_nat [c] s = None <-> c ∉ s.
Proof.
  induction s as [|x s IH]; rewrite find_nat_unfold; simpl.
  - split; [intros _ H; by apply elem_of_nil in H|done].
  - rewrite andb_true_r. case_bool_decide as Heq.
    + subst. split; [done|]. intros H. destruct H. apply elem_of_cons. by left.
    + rewrite elem_of_cons. destruct (find_nat [c] s) eqn:E; simpl.
      * split; [done|]. intros H.
        assert (c ∉ s) by tauto. by apply IH in H0.
      * split; [|done]. intros _ [?|?]; [done|]. by apply IH in H.
Qed.

Lemma find_char_app c a b : c ∉ a -> find_nat [c] (a ++ c :: b) = Some (length a).
Proof.
  induction a as [|x a IH]; intros Hn; rewrite find_nat_unfold; simpl.
  - by rewrite bool_decide_true.
  - apply not_elem_of_cons in Hn as [Hx Hn]. rewrite bool_decide_false by done.
    simpl. by rewrite IH.
Qed.

Lemma find_range s pat :
  size s < npos -> (find s pat = npos /\ find_nat pat s = None) \/
  (0 <= find s pat /\ find s pat + size pat <= size s).
Proof.
  unfold find, size. intros. destruct (find_nat pat s) as [i|] eqn:E; [right|by left].
  apply find_nat_lt in E. lia.
Qed.

Lemma substr_ok s pos n :
  0 <= pos <= size s ->
  substr s pos n = Ok (take (Z.to_nat (Z.min n (size s - pos))) (drop (Z.to_nat pos) s)).
Proof. intros. unfold substr. by rewrite decide_True by lia. Qed.

Lemma substr_throw s pos n : size s < pos -> substr s pos n = Throw OutOfRange.
Proof. intros. unfold substr. by rewrite decide_False by lia. Qed.

Lemma substr_app_l a b : substr (a ++ b) 0 (size a) = Ok a.
Proof.
  rewrite substr_ok by size_lia. f_equal. rewrite drop_0.
  replace (Z.to_nat (Z.min _ _)) with (length a).
  - by rewrite take_app_length.
  - unfold size. rewrite length_app. lia.
Qed.

Lemma substr_mid a b c : substr (a ++ b ++ c) (size a) (size b) = Ok b.
Proof.
  rewrite substr_ok by size_lia. f_equal.
  replace (Z.to_nat (size a)) with (length a) by (unfold size; lia).
  rewrite drop_app_length.
  replace (Z.to_nat _) with (length b) by (unfold size; rewrite !length_app; lia).
  by rewrite take_app_length.
Qed.

Lemma substr_from_app a b : size b <= npos -> substr_from (a ++ b) (size a) = Ok b.
Proof.
  intros. unfold substr_from. rewrite substr_ok by size_lia. f_equal.
  replace (Z.to_nat (size a)) with (length a) by (unfold size; lia).
  rewrite drop_app_length, take_ge; [done|].
  rewrite size_app. unfold size in *. lia.
Qed.

Lemma c_str_no_nul s : "000"%char ∉ s -> c_str s = s.
Proof.
  induction s as [|c s IH]; intros H; simpl; [done|].
  apply not_elem_of_cons in H as [? ?].
  rewrite bool_decide_false by done. by rewrite IH.
Qed.

(** ** Lemmas: the monad *)

Lemma M_bind_lift {A B} (o : outcome A) (f : A -> M B) w :
  (lift o ≫= f) w =
  match o with
  | Ok a => f a w
  | Throw e => (Throw e, w)
  | Undefined => (Undefined, w)
  | Diverged => (Diverged, w)
  end.
Proof. by destruct o. Qed.

Lemma M_bind_ok {A B} (m : M A) (f : A -> M B) w a w' :
  m w = (Ok a, w') -> (m ≫= f) w = f a w'.
Proof. unfold mbind, M_bind. by intros ->. Qed.

Lemma M_bind_throw {A B} (m : M A) (f : A -> M B) w e w' :
  m w = (Throw e, w') -> (m ≫= f) w = (Throw e, w').
Proof. unfold mbind, M_bind. by intros ->. Qed.

Arguments M_bind_ok {A B m f w a w'} _.
Arguments M_bind_throw {A B m f w e w'} _.

Lemma M_bind_undefined {A B} (m : M A) (f : A -> M B) w w' :
  m w = (Undefined, w') -> (m ≫= f) w = (Undefined, w').
Proof. unfold mbind, M_bind. by intros ->. Qed.

Lemma M_bind_assoc {A B C} (m : M A) (f : A -> M B) (g : B -> M C) w :
  ((m ≫= f) ≫= g) w = (m ≫= fun a => f a ≫= g) w.
Proof. unfold mbind, M_bind. destruct (m w) as [[] ?]; done. Qed.

(** Reading one character of a string that is being scanned. *)
Lemma str_idx_mid a c b : str_idx (a ++ c :: b) (size a) = Ok c.
Proof.
  unfold str_idx. rewrite decide_True by size_lia.
  replace (Z.to_nat (size a)) with (length a) by (unfold size; lia).
  by rewrite list_lookup_middle.
Qed.

Lemma str_idx_end s : str_idx s (size s) = Ok "000"%char.
Proof. unfold str_idx. rewrite decide_False by lia. by rewrite decide_True. Qed.

Lemma str_at_mid a c b : str_at (a ++ c :: b) (size a) = Ok c.
Proof.
  unfold str_at, vec_at. change (Z.of_nat (length ?s)) with (size s).
  rewrite decide_True by size_lia.
  replace (Z.to_nat (size a)) with (length a) by (unfold size; lia).
  by rewrite list_lookup_middle.
Qed.

Lemma substr_prefix a b n : size a = n -> substr (a ++ b) 0 n = Ok a.
Proof. intros <-. apply substr_app_l. Qed.

Lemma substr_from_drop s n :
  0 <= n <= size s -> size s <= npos -> substr_from s n = Ok (drop (Z.to_nat n) s).
Proof.
  intros. unfold substr_from. rewrite substr_ok by lia. f_equal.
  rewrite take_ge; [done|]. rewrite length_drop. unfold size in *. lia.
Qed.

Lemma starts_with_take pat s :
  starts_with pat s = bool_decide (take (length pat) s = pat).
Proof.
  revert s. induction pat as [|p pat IH]; intros [|c s]; simpl; try done.
  rewrite IH, <- bool_decide_and. apply bool_decide_ext. split.
  - by intros [-> ->].
  - intros H. injection H as -> H. by rewrite H.
Qed.

(** Whether a pattern occurs at a position does not depend on the text after
    the window it is compared with. *)
Lemma starts_with_window pat a b :
  (length pat <= length a)%nat -> starts_with pat (a ++ b) = starts_with pat a.
Proof. intros. rewrite !starts_with_take. by rewrite take_app_le by done. Qed.

(** ** A small logic for effectful code

    [ensures m P]: in every world [m] returns a value that satisfies [P] and
    leaves the files alone (it may print, read its input and call the
    connector). *)

Definition quiet (w w' : world) : Prop :=
  w_files w' = w_files w /\ w_writable w' = w_writable w.

#[export] Instance quiet_preorder : PreOrder quiet.
Proof. split; [by intros w|]. intros w1 w2 w3 [H1 H2] [H3 H4]. split; congruence. Qed.

Definition ensures {A} (m : M A) (P : A -> Prop) : Prop :=
  forall w, exists a w', m w = (Ok a, w') /\ P a /\ quiet w w'.

Lemma ensures_bind {A B} (m : M A) (f : A -> M B) P Q :
  ensures m P -> (forall a, P a -> ensures (f a) Q) -> ensures (m ≫= f) Q.
Proof.
  intros Hm Hf w. destruct (Hm w) as (a & w1 & E & Ha & Hq).
  destruct (Hf a Ha w1) as (b & w2 & E2 & Hb & Hq2).
  exists b, w2. rewrite (M_bind_ok E). split; [done|]. split; [done|].
  by transitivity w1.
Qed.

Lemma ensures_ret {A} (a : A) (P : A -> Prop) : P a -> ensures (mret a) P.
Proof. intros Ha w. by exists a, w. Qed.

Lemma ensures_lift {A} (o : outcome A) a (P : A -> Prop) :
  o = Ok a -> P a -> ensures (lift o) P.
Proof. intros -> Ha w. by exists a, w. Qed.

Lemma ensures_cout s (P : unit -> Prop) : P tt -> ensures (cout s) P.
Proof. intros H w. by exists tt, (add_stdout s w). Qed.

Lemma ensures_mono {A} (m : M A) (P Q : A -> Prop) :
  ensures m P -> (forall a, P a -> Q a) -> ensures m Q.
Proof.
  intros Hm HPQ w. destruct (Hm w) as (a & w' & ? & ? & ?). exists a, w'. auto.
Qed.

(** A computation with a known result that does not touch the world. *)
Lemma ensures_pure {A} (m : M A) a (P : A -> Prop) :
  (forall w, m w = (Ok a, w)) -> P a -> ensures m P.
Proof. intros Hm Ha w. exists a, w. rewrite Hm. done. Qed.

Lemma ensures_mapM {A B} (f : A -> M B) (R : A -> B -> Prop) l :
  Forall (fun x => ensures (f x) (R x)) l -> ensures (mapM f l) (Forall2 R l).
Proof.
  induction 1 as [|x l Hx _ IH]; simpl.
  - apply ensures_ret. constructor.
  - eapply ensures_bind; [exact Hx|]. intros b Hb.
    eapply ensures_bind; [exact IH|]. intros k Hk.
    apply ensures_ret. by constructor.
Qed.
