(* ===== verification/Str.v ===== *)
(** * lib/str.cpp: the string library (its [std::string] part)

    Splitting, trimming, replacing, searching and number printing, as the
    program uses them.  Indices are [size_t] or [int] values with their
    conversions written out; the parts of a split are collected in order. *)

From S2P Require Import Prelude Cxx.

(** ** Definitions *)

Definition is_blank (c : ascii) : bool :=
  bool_decide (c = "010"%char) || bool_decide (c = "013"%char) || bool_decide (c = " "%char).

(** The two loops of [trim]; [fuel] bounds the number of iterations. *)
Fixpoint trim_start (fuel : nat) (s : str) (start end_ : Z) : outcome Z :=
  match fuel with
  | O => Diverged
  | S fuel' =>
      c ← str_idx s start;
      if is_blank c && (start <=? end_) then trim_start fuel' s (start + 1) end_
      else Ok start
  end.

Fixpoint trim_end (fuel : nat) (s : str) (start end_ : Z) : outcome Z :=
  match fuel with
  | O => Diverged
  | S fuel' =>
      c ← str_idx s end_;
      if is_blank c && (end_ >? start) then trim_end fuel' s start (end_ - 1)
      else Ok end_
  end.

Definition trim_warning : str := "Warning: trim() is returning an empty string\n".

Definition trim (s : str) : M str :=
  start ← lift (trim_start (S (length s)) s 0 (size s));
  end_ ← lift (trim_end (S (length s)) s start (size s));
  if end_ - start =? 0 then _ ← cout trim_warning; mret []
  else lift (substr s start (end_ - start)).

(** The loop of [explode]; it stops at the end of the scan with the text that
    is left, or returns early ([None]). *)
Fixpoint explode_loop (fuel : nat) (quan subj : str) (slength i : Z) (out : list str)
    : outcome (list str * option str) :=
  match fuel with
  | O => Diverged
  | S fuel' =>
      if i <? to_size_t (slength - size quan) then
        piece ← substr subj i (size quan);
        if str_eqb quan piece then
          pre ← substr subj 0 i;
          if i + size quan <=? size subj then
            subj' ← substr_from subj (i + size quan);
            explode_loop fuel' quan subj' (size subj') 1 (out ++ [pre])
          else Ok (out ++ [pre], None)
        else explode_loop fuel' quan subj slength (i + 1) out
      else Ok (out, Some subj)
  end.

Definition explode_fuel (s : str) : nat := 2 * length s + 3.

(** Appends the text left after the scan unless it is blank. *)
Definition push_rest (out : list str) (rest : str) : M (list str) :=
  t ← trim rest;
  mret (if 0 <? size t then out ++ [rest] else out).

(** [explode]; [None] is the null pointer. *)
Definition explode (quan subject : str) : M (option (list str)) :=
  if (size subject =? 0) || (size quan =? 0) then
    _ ← cerr "Gave an empty string into explode\n";
    mret None
  else
    r ← lift (explode_loop (explode_fuel subject) quan subject (size subject) 0 []);
    match r with
    | (out, None) => mret (Some out)
    | (out, Some subj) => l ← push_rest out subj; mret (Some l)
    end.

Fixpoint c_explode_loop (fuel : nat) (quan : ascii) (subj : str) (slength i : Z)
    (out : list str) : outcome (list str * str) :=
  match fuel with
  | O => Diverged
  | S fuel' =>
      if i <? to_size_t (slength - 1) then
        c ← str_at subj i;
        if bool_decide (quan = c) then
          pre ← substr subj 0 i;
          subj' ← substr_from subj (i + 1);
          c_explode_loop fuel' quan subj' (size subj') 1 (out ++ [pre])
        else c_explode_loop fuel' quan subj slength (i + 1) out
      else Ok (out, subj)
  end.

Definition c_explode (quan : ascii) (subject : str) : M (list str) :=
  r ← lift (c_explode_loop (explode_fuel subject) quan subject (size subject) 0 []);
  let '(out, subj) := r in
  push_rest out subj.

(** [split]: once, at the first occurrence; [find] is narrowed to [int]. *)
Definition split (quan : ascii) (subject : str) : outcome (list str) :=
  let index := to_int (find_char subject quan) in
  a ← substr subject 0 (to_size_t index);
  b ← substr_from subject (to_size_t (index + 1));
  Ok [a; b].

(** [ssplit] pushes into a vector whose pointer is never initialised. *)
Definition ssplit (quan subject : str) : outcome (list str) :=
  let index := to_int (find subject quan) in
  a ← substr subject 0 (to_size_t index);
  deref None.

Definition getLast (s : str) : outcome ascii := str_idx s (to_size_t (size s - 1)).

Fixpoint strcompsub_loop (n : nat) (str1 str2 : str) (index i : Z) : outcome bool :=
  match n with
  | O => Ok true
  | S n' =>
      a ← str_idx str1 (i - index);
      b ← str_idx str2 i;
      if bool_decide (a <> b) then Ok false
      else strcompsub_loop n' str1 str2 index (i + 1)
  end.

(** For an [index] inside a string [len + index] does not wrap around. *)
Definition strcompsub (str1 str2 : str) (index len : Z) : outcome bool :=
  if bool_decide (len <> size str1) then Ok false
  else strcompsub_loop (Z.to_nat len) str1 str2 index index.

(** [strpos_m]: the first position at which one of the candidates occurs. *)
Fixpoint strpos_m_inner (haystack : str) (comps : list str) (i : Z) : outcome bool :=
  match comps with
  | [] => Ok false
  | comp :: comps' =>
      h ← str_idx haystack i;
      c ← str_idx comp 0;
      if bool_decide (h = c) then
        piece ← substr haystack i (size comp);
        if str_eqb piece comp then Ok true else strpos_m_inner haystack comps' i
      else strpos_m_inner haystack comps' i
  end.

Fixpoint strpos_m_loop (n : nat) (haystack : str) (comps : list str) (i : Z) : outcome Z :=
  match n with
  | O => Ok (-1)
  | S n' =>
      found ← strpos_m_inner haystack comps i;
      if (found : bool) then Ok (to_int i) else strpos_m_loop n' haystack comps (i + 1)
  end.

Definition strpos_m (haystack : str) (comps : list str) : outcome Z :=
  strpos_m_loop (length haystack) haystack comps 0.

Fixpoint count_loop (n : nat) (haystack needle : str) (i c : Z) : outcome Z :=
  match n with
  | O => Ok c
  | S n' =>
      h ← str_idx haystack i;
      d ← str_idx needle 0;
      m ← (if bool_decide (h = d) then strcompsub needle haystack i (size needle)
           else Ok false);
      count_loop n' haystack needle (i + 1) (if (m : bool) then c + 1 else c)
  end.

Definition count (haystack needle : str) : outcome Z :=
  if (size haystack =? 0) || (size needle >? size haystack) then Ok (-1)
  else count_loop (S (length haystack - length needle)) haystack needle 0 0.

Fixpoint indexOfChar_loop (n : nat) (haystack : str) (needle : ascii) (i : Z) : outcome Z :=
  match n with
  | O => Ok (-1)
  | S n' =>
      h ← str_idx haystack i;
      if bool_decide (h = needle) then Ok (to_int i)
      else indexOfChar_loop n' haystack needle (i + 1)
  end.

Definition indexOfChar (haystack : str) (needle : ascii) : outcome Z :=
  indexOfChar_loop (length haystack) haystack needle 0.

(** [str_replace] recurses on its own result; [fuel] bounds the depth. *)
Fixpoint str_replace (fuel : nat) (search replace subject : str) : outcome str :=
  match fuel with
  | O => Diverged
  | S fuel' =>
      let start := find subject search in
      if start =? npos then Ok subject
      else
        first_chunk ← substr subject 0 start;
        if start + size search <? size subject then
          rest ← substr_from subject (start + size search);
          str_replace fuel' search replace (first_chunk ++ replace ++ rest)
        else str_replace fuel' search replace (first_chunk ++ replace)
  end.

(** [to_cstr]: the bytes of the zeroed buffer, its terminator included. *)
Fixpoint to_cstr_loop (n : nat) (s : str) (i : Z) : outcome str :=
  match n with
  | O => Ok []
  | S n' => c ← str_at s i; r ← to_cstr_loop n' s (i + 1); Ok (c :: r)
  end.

Definition to_cstr (s : str) : outcome str :=
  out ← to_cstr_loop (length s) s 0; Ok (out ++ ["000"%char]).

Definition digits : list str := ["0":str; "1":str; "2":str; "3":str; "4":str;
  "5":str; "6":str; "7":str; "8":str; "9":str].

(** [itoa] and [ltos] at the width of [int] and [int64_t]: negating the least
    value overflows. *)
Fixpoint print_dec (fits : Z -> bool) (fuel : nat) (i : Z) : outcome str :=
  match fuel with
  | O => Diverged
  | S fuel' =>
      if i <? 0 then
        if fits (i * -1) then t ← print_dec fits fuel' (i * -1); Ok ("-" ++ t)
        else Undefined
      else if i >=? 10 then
        t ← print_dec fits fuel' (Z.quot i 10);
        d ← arr_at digits (Z.rem i 10);
        Ok (t ++ d)
      else arr_at digits i
  end.

Definition itoa (i : Z) : outcome str := print_dec in_int 12 i.
Definition ltos (i : Z) : outcome str := print_dec in_int64 21 i.

(** Examples at concrete inputs. *)
Example itoa_2018 : itoa 2018 = Ok ("2018" : str).
Proof. reflexivity. Qed.
Example itoa_neg : itoa (-70) = Ok ("-70" : str).
Proof. reflexivity. Qed.

(** ** [trim] *)

Fixpoint ltrim (s : str) : str :=
  match s with
  | c :: s' => if is_blank c then ltrim s' else s
  | [] => []
  end.

Lemma size_ltrim s : size (ltrim s) <= size s.
Proof. induction s as [|c s IH]; simpl; [lia|]. destruct (is_blank c); size_lia. Qed.

Lemma ltrim_drop s : drop (Z.to_nat (size s - size (ltrim s))) s = ltrim s.
Proof.
  induction s as [|c s IH]; simpl; [done|]. pose proof (size_ltrim s).
  destruct (is_blank c).
  - rewrite size_cons.
    replace (Z.to_nat _) with (S (Z.to_nat (size s - size (ltrim s)))) by lia.
    done.
  - by rewrite Z.sub_diag.
Qed.

Lemma trim_start_spec fuel pre rest :
  (length rest < fuel)%nat ->
  trim_start fuel (pre ++ rest) (size pre) (size (pre ++ rest)) =
    Ok (size (pre ++ rest) - size (ltrim rest)).
Proof.
  revert pre fuel. induction rest as [|c rest IH]; intros pre fuel Hf;
    (destruct fuel as [|fuel]; [simpl in Hf; lia|]); simpl.
  - rewrite app_nil_r, str_idx_end. simpl. f_equal. size_lia.
  - rewrite str_idx_mid. simpl. destruct (is_blank c); simpl.
    + rewrite (proj2 (Z.leb_le _ _)) by size_lia.
      replace (pre ++ c :: rest) with ((pre ++ [c]) ++ rest) by by rewrite <- app_assoc.
      replace (size pre + 1) with (size (pre ++ [c])) by size_lia.
      apply IH. simpl in Hf. lia.
    + f_equal. size_lia.
Qed.

Lemma trim_end_spec fuel s start :
  (0 < fuel)%nat -> trim_end fuel s start (size s) = Ok (size s).
Proof. destruct fuel; [lia|]. intros _. simpl. by rewrite str_idx_end. Qed.

(** [trim] drops the leading blanks only: the scan from the end starts on the
    terminating NUL and stops there. *)
Lemma trim_run s w :
  trim s w = (Ok (ltrim s), if decide (ltrim s = []) then add_stdout trim_warning w else w).
Proof.
  unfold trim. pose proof (trim_start_spec (S (length s)) [] s) as Hs.
  simpl app in Hs. rewrite size_nil in Hs. pose proof (size_ltrim s).
  rewrite M_bind_lift, Hs by lia.
  rewrite M_bind_lift, trim_end_spec by lia.
  replace (size s - (size s - size (ltrim s))) with (size (ltrim s)) by lia.
  destruct (Z.eqb_spec (size (ltrim s)) 0) as [Hz|Hz].
  - apply size_zero in Hz. rewrite Hz. by rewrite decide_True.
  - rewrite decide_False by (by rewrite <- size_zero).
    unfold lift. f_equal. rewrite substr_ok by size_lia. f_equal.
    rewrite ltrim_drop, take_ge; [done|]. unfold size in *. lia.
Qed.

Definition blank_rest (s : str) (w : world) : world :=
  if decide (ltrim s = []) then add_stdout trim_warning w else w.

Lemma push_rest_run out rest w :
  push_rest out rest w =
    (Ok (if decide (ltrim rest = []) then out else out ++ [rest]), blank_rest rest w).
Proof.
  unfold push_rest. rewrite (M_bind_ok (trim_run rest w)).
  unfold blank_rest, mret, M_ret. f_equal. f_equal.
  destruct (decide (ltrim rest = [])) as [->|Hn]; [done|].
  rewrite (proj2 (Z.ltb_lt _ _)); [done|].
  pose proof (size_nonneg (ltrim rest)). rewrite <- size_zero in Hn. lia.
Qed.

(** ** Splitting *)

(** The text whose pieces are [l] followed by [last]. *)
Fixpoint join (sep : str) (l : list str) (last : str) : str :=
  match l with
  | [] => last
  | x :: l' => x ++ sep ++ join sep l' last
  end.

Lemma join_snoc sep l x last : join sep (l ++ [x]) last = join sep l (x ++ sep ++ last).
Proof. induction l as [|y l IH]; simpl; [done|]. by rewrite IH. Qed.

Section c_explode.
Context (quan : ascii).

(** One step of the scan. *)
Lemma c_explode_step fuel pre c rest out :
  rest <> [] -> size (pre ++ c :: rest) < 2 ^ 64 ->
  c_explode_loop (S fuel) quan (pre ++ c :: rest) (size (pre ++ c :: rest)) (size pre) out =
    if decide (quan = c) then c_explode_loop fuel quan rest (size rest) 1 (out ++ [pre])
    else c_explode_loop fuel quan (pre ++ c :: rest) (size (pre ++ c :: rest)) (size pre + 1) out.
Proof.
  intros Hr Hb. simpl c_explode_loop at 1.
  assert (size rest <> 0) by (by rewrite size_zero).
  rewrite to_size_t_small by size_lia.
  rewrite (proj2 (Z.ltb_lt _ _)) by size_lia.
  rewrite str_at_mid. simpl. case_bool_decide; [|by rewrite decide_False].
  rewrite decide_True by done. rewrite substr_app_l. simpl.
  replace (pre ++ c :: rest) with ((pre ++ [c]) ++ rest) by by rewrite <- app_assoc.
  replace (size pre + 1) with (size (pre ++ [c])) by size_lia.
  rewrite substr_from_app by size_lia. done.
Qed.

(** The scan stops at the last character. *)
Lemma c_explode_stop fuel subj i out :
  subj <> [] -> size subj < 2 ^ 64 -> size subj - 1 <= i ->
  c_explode_loop (S fuel) quan subj (size subj) i out = Ok (out, subj).
Proof.
  intros Hs Hb Hi. simpl. rewrite <- size_zero in Hs.
  rewrite to_size_t_small by size_lia.
  by rewrite (proj2 (Z.ltb_ge _ _)) by size_lia.
Qed.

(** Whatever the text, the pieces and the rest reassemble it, and the scan
    terminates within the fuel. *)
Lemma c_explode_loop_sound fuel pre rest out :
  pre ++ rest <> [] -> size (pre ++ rest) < 2 ^ 64 ->
  (2 * length (pre ++ rest) < fuel + length pre)%nat ->
  exists l last,
    c_explode_loop fuel quan (pre ++ rest) (size (pre ++ rest)) (size pre) out =
      Ok (out ++ l, last) /\
    pre ++ rest = join [quan] l last /\ last <> [].
Proof.
  revert pre rest out. induction fuel as [|fuel IH]; intros pre rest out Hn Hb Hf.
  { rewrite length_app in Hf. lia. }
  destruct rest as [|c [|c' rest]].
  - rewrite !app_nil_r in *. exists [], pre.
    by rewrite c_explode_stop, app_nil_r by (done || size_lia).
  - exists [], (pre ++ [c]).
    by rewrite c_explode_stop, app_nil_r by (done || size_lia).
  - rewrite c_explode_step by done.
    rewrite length_app in Hf. simpl in Hf. destruct (decide (quan = c)) as [<-|Hc].
    + destruct (IH [c'] rest (out ++ [pre])) as (l & last & E & J & ?);
        [done|size_lia|simpl; lia|].
      exists (pre :: l), last. rewrite <- app_assoc in E. simpl in E, J |- *.
      rewrite <- J. split; [|done]. exact E.
    + destruct (IH (pre ++ [c]) (c' :: rest) out) as (l & last & E & J & ?);
        rewrite <- ?app_assoc; [done|by rewrite <- ?app_assoc in *| |].
      { rewrite !length_app. simpl. lia. }
      exists l, last. rewrite <- app_assoc in E, J. simpl in E, J |- *.
      rewrite <- E. split; [|done].
      by replace (size (pre ++ [c])) with (size pre + 1) by size_lia.
Qed.
End c_explode.

Section c_explode_run.
Context (quan : ascii).

(** Scanning over a piece up to its delimiter. *)
Lemma c_explode_scan fuel pre item tail out :
  quan ∉ item -> tail <> [] -> size (pre ++ item ++ quan :: tail) < 2 ^ 64 ->
  c_explode_loop (S (length item) + fuel) quan (pre ++ item ++ quan :: tail)
    (size (pre ++ item ++ quan :: tail)) (size pre) out =
  c_explode_loop fuel quan tail (size tail) 1 (out ++ [pre ++ item]).
Proof.
  revert pre. induction item as [|c item IH]; intros pre Hq Ht Hb; simpl app in *.
  - rewrite app_nil_r. simpl Nat.add. rewrite c_explode_step by done.
    by rewrite decide_True.
  - apply not_elem_of_cons in Hq as [Hc Hq].
    replace (S (length (c :: item)) + fuel)%nat
      with (S (S (length item) + fuel)) by done.
    rewrite c_explode_step; [|by destruct item|done].
    rewrite decide_False by done.
    replace (pre ++ c :: item ++ quan :: tail)
      with ((pre ++ [c]) ++ item ++ quan :: tail) in * by by rewrite <- app_assoc.
    replace (size pre + 1) with (size (pre ++ [c])) by size_lia.
    rewrite IH by done. by rewrite <- app_assoc.
Qed.

(** Scanning a text without delimiter. *)
Lemma c_explode_last fuel pre last out :
  quan ∉ last -> pre ++ last <> [] -> size (pre ++ last) < 2 ^ 64 ->
  c_explode_loop (S (length last) + fuel) quan (pre ++ last) (size (pre ++ last))
    (size pre) out = Ok (out, pre ++ last).
Proof.
  revert pre fuel. induction last as [|c last IH]; intros pre fuel Hq Hn Hb.
  { rewrite app_nil_r in *. simpl Nat.add. apply c_explode_stop; [done|done|lia]. }
  apply not_elem_of_cons in Hq as [Hc Hq]. destruct last as [|c' last].
  { simpl Nat.add. apply c_explode_stop; [done|done|size_lia]. }
  replace (S (length (c :: c' :: last)) + fuel)%nat
    with (S (S (length (c' :: last)) + fuel)) by done.
  rewrite c_explode_step, decide_False by done.
  replace (pre ++ c :: c' :: last) with ((pre ++ [c]) ++ c' :: last) in *
    by by rewrite <- app_assoc.
  replace (size pre + 1) with (size (pre ++ [c])) by size_lia.
  by apply IH.
Qed.

(** Splitting what was joined: pieces after the first are not empty. *)
Lemma c_explode_loop_join fuel c items last out :
  Forall (fun x => x <> [] /\ quan ∉ drop 1 x) items ->
  last <> [] -> quan ∉ drop 1 last ->
  size (join [quan] items last) < 2 ^ 64 ->
  (length (join [quan] items last) + length items + 1 <= fuel)%nat ->
  c = 1 ->
  c_explode_loop fuel quan (join [quan] items last) (size (join [quan] items last)) c out =
    Ok (out ++ items, last).
Proof.
  intros Hi Hl Hql Hb Hf ->. revert fuel out Hb Hf.
  induction Hi as [|x items [Hx Hqx] _ IH]; intros fuel out Hb Hf; simpl in *.
  - destruct last as [|c last]; [done|]. simpl in *. rewrite drop_0 in Hql.
    pose proof (c_explode_last (fuel - S (length last)) [c] last out Hql) as E.
    replace (S (length last) + (fuel - S (length last)))%nat with fuel in E by lia.
    rewrite app_nil_r. by apply E.
  - destruct x as [|c x]; [done|]. simpl in *. rewrite drop_0 in Hqx.
    rewrite length_app in Hf. simpl in Hf.
    pose proof (c_explode_scan (fuel - S (length x)) [c] x (join [quan] items last) out Hqx)
      as E.
    replace (S (length x) + (fuel - S (length x)))%nat with fuel in E by lia.
    simpl in E. change (size [c]) with 1 in E. rewrite E; [|by destruct items as [|[]]|done].
    rewrite IH; [by rewrite <- app_assoc|size_lia|lia].
Qed.
End c_explode_run.

(** [c_explode] inverts [join] when the first piece has no delimiter, the later
    ones are not empty and have none after their first character, and the last
    is not blank. *)
Lemma c_explode_join quan x items last w :
  quan ∉ x ->
  Forall (fun y => y <> [] /\ quan ∉ drop 1 y) items ->
  quan ∉ drop 1 last -> ltrim last <> [] ->
  size (join [quan] (x :: items) last) < 2 ^ 64 ->
  c_explode quan (join [quan] (x :: items) last) w = (Ok (x :: items ++ [last]), w).
Proof.
  intros Hx Hi Hql Hl Hb. assert (last <> []) by (by intros ->).
  unfold c_explode. rewrite M_bind_lift.
  assert (join [quan] items last <> []) by (by destruct items as [|[]]).
  simpl join in *. set (tail := join [quan] items last) in *.
  pose proof (c_explode_scan quan (explode_fuel (x ++ [quan] ++ tail) - S (length x))
    [] x tail [] Hx) as E.
  simpl app in E. change (size []) with 0 in E.
  replace (S (length x) + _)%nat with (explode_fuel (x ++ quan :: tail)) in E.
  2:{ unfold explode_fuel. rewrite length_app. simpl. lia. }
  simpl app. rewrite E by done. unfold tail.
  rewrite c_explode_loop_join; try done.
  - rewrite push_rest_run. unfold blank_rest. by rewrite !decide_False by done.
  - fold tail; size_lia.
  - unfold explode_fuel. rewrite length_app. simpl. fold tail.
    assert (length items <= length tail)%nat; [|lia].
    unfold tail. clear -Hi. induction Hi as [|y ? [? _]]; simpl; [lia|].
    destruct y; [done|]. rewrite !length_app. simpl. lia.
Qed.

(** A text with no delimiter is its own only piece. *)
Lemma c_explode_single quan s w :
  quan ∉ s -> ltrim s <> [] -> size s < 2 ^ 64 -> c_explode quan s w = (Ok [s], w).
Proof.
  intros Hq Hl Hb. assert (s <> []) by (by intros ->).
  unfold c_explode. rewrite M_bind_lift.
  pose proof (c_explode_last quan (explode_fuel s - S (length s)) [] s [] Hq) as E.
  simpl app in E. change (size []) with 0 in E.
  replace (S (length s) + _)%nat with (explode_fuel s) in E
    by (unfold explode_fuel; lia).
  rewrite E by done. rewrite push_rest_run. unfold blank_rest.
  by rewrite !decide_False by done.
Qed.

Lemma c_explode_empty quan w : c_explode quan [] w = (Throw OutOfRange, w).
Proof. reflexivity. Qed.

(** Every non-empty text is split, and the pieces reassemble it up to a blank
    last piece. *)
Lemma c_explode_sound quan s w :
  s <> [] -> size s < 2 ^ 64 ->
  exists l last, s = join [quan] l last /\ last <> [] /\
    c_explode quan s w =
      (Ok (if decide (ltrim last = []) then l else l ++ [last]), blank_rest last w).
Proof.
  intros Hs Hb.
  destruct (c_explode_loop_sound quan (explode_fuel s) [] s []) as (l & last & E & J & Hn);
    [done|done|unfold explode_fuel; simpl; lia|].
  exists l, last. split; [done|]. split; [done|].
  unfold c_explode. rewrite M_bind_lift. simpl app in E. rewrite size_nil in E.
  rewrite E. apply push_rest_run.
Qed.

Section explode.
Context (quan : str) (Hquan : quan <> []).

Lemma size_quan : 0 < size quan.
Proof using Hquan. rewrite <- size_zero in Hquan. pose proof (size_nonneg quan). lia. Qed.

(** One step of the scan, while the window is inside the text. *)
Lemma explode_step fuel pre rest out :
  size quan < size rest -> size (pre ++ rest) < 2 ^ 63 ->
  explode_loop (S fuel) quan (pre ++ rest) (size (pre ++ rest)) (size pre) out =
    if starts_with quan rest then
      explode_loop fuel quan (drop (length quan) rest)
        (size (drop (length quan) rest)) 1 (out ++ [pre])
    else explode_loop fuel quan (pre ++ rest) (size (pre ++ rest)) (size pre + 1) out.
Proof using Hquan.
  intros Hr Hb. pose proof size_quan. simpl explode_loop at 1.
  rewrite to_size_t_small by size_lia.
  rewrite (proj2 (Z.ltb_lt _ _)) by size_lia.
  rewrite (substr_ok (pre ++ rest) (size pre)) by size_lia. simpl.
  replace (Z.to_nat (size pre)) with (length pre) by (unfold size; lia).
  rewrite drop_app_length, starts_with_take.
  replace (Z.to_nat _) with (length quan) by (unfold size in *; rewrite length_app in *; lia).
  unfold str_eqb. replace (bool_decide (quan = take (length quan) rest))
    with (bool_decide (take (length quan) rest = quan)) by (by apply bool_decide_ext).
  case_bool_decide; [|done].
  rewrite substr_app_l. simpl.
  rewrite (proj2 (Z.leb_le _ _)) by size_lia.
  rewrite substr_from_drop by size_lia. simpl.
  replace (Z.to_nat (size pre + size quan)) with (length pre + length quan)%nat
    by (unfold size; lia).
  by rewrite drop_app_add.
Qed.

(** The scan stops when at most the size of the delimiter is left. *)
Lemma explode_stop fuel subj i out :
  size quan <= size subj -> size subj < 2 ^ 63 -> size subj - size quan <= i ->
  explode_loop (S fuel) quan subj (size subj) i out = Ok (out, Some subj).
Proof using Hquan.
  intros Hs Hb Hi. pose proof size_quan. simpl.
  rewrite to_size_t_small by size_lia.
  by rewrite (proj2 (Z.ltb_ge _ _)) by size_lia.
Qed.

(** A text shorter than the delimiter: the bound wraps around and the scan
    runs off the end. *)
Lemma explode_short fuel subj i out :
  size subj < size quan < 2 ^ 63 -> 0 <= i <= size subj + 1 ->
  (length subj + 1 < fuel + Z.to_nat i)%nat ->
  explode_loop fuel quan subj (size subj) i out = Throw OutOfRange.
Proof using Hquan.
  revert i. induction fuel as [|fuel IH]; intros i Hs Hi Hf.
  { unfold size in *. lia. }
  simpl. rewrite to_size_t_neg by size_lia.
  rewrite (proj2 (Z.ltb_lt _ _)) by size_lia.
  destruct (decide (i = size subj + 1)) as [->|Hne].
  { by rewrite (substr_throw subj (size subj + 1)) by lia. }
  rewrite (substr_ok subj i) by lia. simpl. unfold str_eqb. rewrite bool_decide_false.
  - apply IH; [done|lia|lia].
  - intros Heq. apply (f_equal length) in Heq.
    rewrite length_take in Heq. unfold size in *. lia.
Qed.

(** The scan ends with pieces that reassemble the text, or runs off the end
    because the last piece is shorter than the delimiter. *)
Lemma explode_loop_sound fuel pre rest out :
  size (pre ++ rest) < 2 ^ 63 -> size quan < 2 ^ 63 ->
  (2 * length (pre ++ rest) + 1 < fuel + length pre)%nat ->
  explode_loop fuel quan (pre ++ rest) (size (pre ++ rest)) (size pre) out = Throw OutOfRange
  \/ exists l last,
    explode_loop fuel quan (pre ++ rest) (size (pre ++ rest)) (size pre) out =
      Ok (out ++ l, Some last) /\
    pre ++ rest = join quan l last /\ size quan <= size last.
Proof using Hquan.
  revert pre rest out. induction fuel as [|fuel IH]; intros pre rest out Hb Hq Hf.
  { rewrite length_app in Hf. lia. }
  pose proof size_quan as Hpos.
  destruct (Z.lt_ge_cases (size (pre ++ rest)) (size quan)) as [Hs|Hs].
  { left. apply explode_short; [lia|size_lia|].
    rewrite length_app in *. unfold size. lia. }
  destruct (Z.le_gt_cases (size rest) (size quan)) as [Hr|Hr].
  { right. exists [], (pre ++ rest). by rewrite explode_stop, app_nil_r by size_lia. }
  rewrite explode_step by done. rewrite length_app in Hf.
  destruct (starts_with quan rest) eqn:Hw.
  - apply starts_with_spec in Hw as [tail ->]. rewrite drop_app_length.
    rewrite length_app in Hf. destruct tail as [|c tail]; [size_lia|].
    destruct (IH [c] tail (out ++ [pre])) as [Ht|(l & last & E & J & ?)];
      [size_lia|done|simpl in *; unfold size in *; lia| |].
    + left. exact Ht.
    + right. exists (pre :: l), last. rewrite <- app_assoc in E. simpl in E, J |- *.
      rewrite <- J. split; [|done]. exact E.
  - destruct rest as [|c rest]; [size_lia|].
    replace (pre ++ c :: rest) with ((pre ++ [c]) ++ rest) in * by by rewrite <- app_assoc.
    replace (size pre + 1) with (size (pre ++ [c])) by size_lia.
    apply IH; [done|done|]. rewrite !length_app in *. simpl in *. lia.
Qed.

(** A piece ends at the first occurrence of the delimiter. *)
Definition ends_piece (k : nat) (x : str) : Prop :=
  forall j, (k <= j < length x)%nat -> starts_with quan (drop j (x ++ quan)) = false.

Lemma explode_scan fuel pre x tail out :
  (forall j, (j < length x)%nat -> starts_with quan (drop j (x ++ quan)) = false) ->
  tail <> [] -> size (pre ++ x ++ quan ++ tail) < 2 ^ 63 ->
  explode_loop (S (length x) + fuel) quan (pre ++ x ++ quan ++ tail)
    (size (pre ++ x ++ quan ++ tail)) (size pre) out =
  explode_loop fuel quan tail (size tail) 1 (out ++ [pre ++ x]).
Proof using Hquan.
  revert pre. induction x as [|c x IH]; intros pre Hx Ht Hb; simpl app in *;
    rewrite <- size_zero in Ht.
  - simpl Nat.add. rewrite explode_step by size_lia.
    by rewrite starts_with_app, drop_app_length, app_nil_r.
  - replace (S (length (c :: x)) + fuel)%nat with (S (S (length x) + fuel)) by done.
    rewrite explode_step by size_lia.
    pose proof (Hx 0%nat ltac:(simpl; lia)) as H0. simpl drop in H0.
    replace (c :: x ++ quan ++ tail) with ((c :: x ++ quan) ++ tail)
      by (simpl; by rewrite <- app_assoc).
    rewrite starts_with_window, H0 by (simpl; rewrite length_app; lia).
    replace (pre ++ (c :: x ++ quan) ++ tail) with ((pre ++ [c]) ++ x ++ quan ++ tail)
      by (rewrite <- !app_assoc; simpl; by rewrite <- app_assoc).
    replace (size pre + 1) with (size (pre ++ [c])) by size_lia.
    rewrite IH; [by rewrite <- app_assoc| |by rewrite <- size_zero|size_lia].
    intros j Hj. apply (Hx (S j)). simpl. lia.
Qed.

Lemma explode_last fuel pre last out :
  (forall j, (j + length quan < length last)%nat ->
     starts_with quan (drop j last) = false) ->
  size quan <= size (pre ++ last) -> size (pre ++ last) < 2 ^ 63 ->
  explode_loop (S (length last) + fuel) quan (pre ++ last) (size (pre ++ last))
    (size pre) out = Ok (out, Some (pre ++ last)).
Proof using Hquan.
  revert pre. induction last as [|c last IH]; intros pre Hj Hq Hb.
  { apply explode_stop; [done|done|size_lia]. }
  replace (S (length (c :: last)) + fuel)%nat with (S (S (length last) + fuel)) by done.
  destruct (Z.le_gt_cases (size (c :: last)) (size quan)) as [Hr|Hr].
  { apply explode_stop; [done|done|size_lia]. }
  rewrite explode_step by done.
  pose proof (Hj 0%nat ltac:(unfold size in Hr; simpl in *; lia)) as H0. simpl in H0.
  rewrite H0.
  replace (pre ++ c :: last) with ((pre ++ [c]) ++ last) in * by by rewrite <- app_assoc.
  replace (size pre + 1) with (size (pre ++ [c])) by size_lia.
  apply IH; [|done|done]. intros j ?. apply (Hj (S j)). simpl. lia.
Qed.
End explode.

(** [explode] on two non-empty arguments. *)
Lemma explode_unfold quan s w :
  quan <> [] -> s <> [] ->
  explode quan s w =
    match explode_loop (explode_fuel s) quan s (size s) 0 [] with
    | Ok (out, None) => (Ok (Some out), w)
    | Ok (out, Some rest) =>
        (Ok (Some (if decide (ltrim rest = []) then out else out ++ [rest])),
         blank_rest rest w)
    | Throw e => (Throw e, w)
    | Undefined => (Undefined, w)
    | Diverged => (Diverged, w)
    end.
Proof.
  intros Hq Hs. rewrite <- size_zero in Hq, Hs. unfold explode.
  rewrite (proj2 (Z.eqb_neq (size s) 0)), (proj2 (Z.eqb_neq (size quan) 0)) by done.
  change (false || false) with false. cbv iota. rewrite M_bind_lift.
  destruct (explode_loop _ _ _ _ _ _) as [[out [rest|]]| | |]; try done.
  by rewrite (M_bind_ok (push_rest_run _ _ _)).
Qed.

(** A piece in which the delimiter does not occur, nor straddles its end. *)
Definition sep_free (quan x : str) : Prop :=
  forall j, (j < length x)%nat -> starts_with quan (drop j (x ++ quan)) = false.

(** A piece without the first character of the delimiter. *)
Lemma sep_free_head q quan x : q ∉ x -> sep_free (q :: quan) x.
Proof.
  intros Hq j Hj. destruct (drop j (x ++ q :: quan)) as [|c r] eqn:E; [done|].
  simpl. rewrite bool_decide_false; [done|]. intros ->.
  rewrite drop_app_le in E by lia.
  destruct (drop j x) as [|d r'] eqn:Ex.
  { apply (f_equal length) in Ex. rewrite length_drop in Ex. simpl in Ex. lia. }
  simpl in E. injection E as -> _. apply Hq.
  rewrite <- (take_drop j x), Ex. apply elem_of_app. right. apply elem_of_cons. by left.
Qed.

Section explode_run.
Context (quan : str) (Hquan : quan <> []).

Lemma explode_loop_join fuel items last out :
  Forall (fun x => x <> [] /\ sep_free quan (drop 1 x)) items ->
  (forall j, starts_with quan (drop (S j) last) = false) ->
  size quan <= size last -> size (join quan items last) < 2 ^ 63 ->
  (length (join quan items last) + length items + 1 <= fuel)%nat ->
  explode_loop fuel quan (join quan items last) (size (join quan items last)) 1 out =
    Ok (out ++ items, Some last).
Proof using Hquan.
  intros Hi Hj Hq Hb Hf. revert fuel out Hb Hf.
  pose proof (size_quan quan Hquan) as Hpos.
  induction Hi as [|x items [Hx Hqx] _ IH]; intros fuel out Hb Hf; simpl in *.
  - destruct last as [|c last]; [size_lia|]. simpl in *.
    pose proof (explode_last quan Hquan (fuel - S (length last)) [c] last out) as E.
    replace (S (length last) + (fuel - S (length last)))%nat with fuel in E by lia.
    rewrite app_nil_r. apply E; [|done|done]. intros j _. apply Hj.
  - destruct x as [|c x]; [done|]. simpl in *. rewrite drop_0 in Hqx.
    rewrite !length_app in Hf. simpl in Hf.
    assert (join quan items last <> []).
    { destruct items as [|[|??] ?]; simpl; [by intros ->; rewrite size_nil in Hq; lia| |done].
      by destruct quan. }
    pose proof (explode_scan quan Hquan (fuel - S (length x)) [c] x (join quan items last)
      out Hqx) as E.
    replace (S (length x) + (fuel - S (length x)))%nat with fuel in E by lia.
    simpl in E. change (size [c]) with 1 in E. rewrite E by done.
    rewrite IH; [by rewrite <- app_assoc|size_lia|].
    destruct quan; [done|]. simpl in Hf. lia.
Qed.
End explode_run.

(** [explode] inverts [join] when no piece contains the delimiter, the pieces
    after the first are not empty and the last one is neither blank nor shorter
    than the delimiter. *)
Lemma explode_join quan x items last w :
  quan <> [] -> sep_free quan x ->
  Forall (fun y => y <> [] /\ sep_free quan (drop 1 y)) items ->
  (forall j, starts_with quan (drop (S j) last) = false) ->
  size quan <= size last -> ltrim last <> [] ->
  size (join quan (x :: items) last) < 2 ^ 63 ->
  explode quan (join quan (x :: items) last) w = (Ok (Some (x :: items ++ [last])), w).
Proof.
  intros Hquan Hx Hi Hj Hq Hl Hb. simpl join in *.
  rewrite explode_unfold; [|done|by destruct x, quan].
  set (tail := join quan items last) in *.
  assert (tail <> []).
  { unfold tail. destruct items as [|[|??] ?]; simpl; [by intros ->| |done].
    by destruct quan. }
  pose proof (explode_scan quan Hquan (explode_fuel (x ++ quan ++ tail) - S (length x))
    [] x tail [] Hx) as E.
  simpl app in E. change (size []) with 0 in E.
  replace (S (length x) + _)%nat with (explode_fuel (x ++ quan ++ tail)) in E.
  2:{ unfold explode_fuel. rewrite !length_app. lia. }
  rewrite E by done. unfold tail.
  rewrite explode_loop_join; try done.
  - unfold blank_rest. by rewrite !decide_False by done.
  - fold tail. size_lia.
  - fold tail. unfold explode_fuel. rewrite !length_app.
    assert (length items <= length tail)%nat; [|lia].
    unfold tail. clear -Hi. induction Hi as [|y ? [? _]]; simpl; [lia|].
    destruct y; [done|]. rewrite !length_app. simpl. lia.
Qed.

Lemma explode_single quan s w :
  quan <> [] -> find_nat quan s = None -> size quan <= size s -> ltrim s <> [] ->
  size s < 2 ^ 63 -> explode quan s w = (Ok (Some [s]), w).
Proof.
  intros Hquan Hn Hq Hl Hb. rewrite explode_unfold; [|done|by intros ->].
  pose proof (explode_last quan Hquan (explode_fuel s - S (length s)) [] s []) as E.
  simpl app in E. change (size []) with 0 in E.
  replace (S (length s) + _)%nat with (explode_fuel s) in E
    by (unfold explode_fuel; lia).
  rewrite E; [|intros; by apply find_nat_None|done|done]. unfold blank_rest.
  by rewrite !decide_False by done.
Qed.

(** A last piece shorter than the delimiter makes [explode] throw. *)
Lemma explode_short_last quan x last w :
  quan <> [] -> sep_free quan x -> last <> [] -> size last < size quan ->
  size (x ++ quan ++ last) < 2 ^ 63 ->
  explode quan (x ++ quan ++ last) w = (Throw OutOfRange, w).
Proof.
  intros Hquan Hx Hl Hq Hb. rewrite explode_unfold; [|done|by destruct x, quan].
  pose proof (explode_scan quan Hquan (explode_fuel (x ++ quan ++ last) - S (length x))
    [] x last [] Hx Hl) as E.
  simpl app in E. change (size []) with 0 in E.
  replace (S (length x) + _)%nat with (explode_fuel (x ++ quan ++ last)) in E.
  2:{ unfold explode_fuel. rewrite !length_app. lia. }
  rewrite E by done. rewrite explode_short; [done|done|size_lia|size_lia|].
  unfold explode_fuel. rewrite !length_app. lia.
Qed.

(** [explode] on any text: null for an empty argument, else it throws
    [std::out_of_range] or returns pieces that reassemble the text up to a
    blank last piece.  It always terminates. *)
Lemma explode_sound quan s w :
  quan <> [] -> s <> [] -> size s < 2 ^ 63 -> size quan < 2 ^ 63 ->
  explode quan s w = (Throw OutOfRange, w) \/
  exists l last, s = join quan l last /\ size quan <= size last /\
    explode quan s w =
      (Ok (Some (if decide (ltrim last = []) then l else l ++ [last])), blank_rest last w).
Proof.
  intros Hquan Hs Hb Hq. rewrite explode_unfold by done.
  destruct (explode_loop_sound quan Hquan (explode_fuel s) [] s []) as [E|(l & last & E & J & ?)];
    [done|done|unfold explode_fuel; simpl; lia| |].
  - left. simpl app in E. rewrite size_nil in E. by rewrite E.
  - right. exists l, last. split; [done|]. split; [done|].
    simpl app in E. rewrite size_nil in E. by rewrite E.
Qed.

(** ** Number printing *)

Definition all_digits (s : str) : Prop := Forall (fun c => isdigit c = true) s.

Lemma digits_val_snoc acc s d :
  all_digits s -> isdigit d = true ->
  digits_val acc (s ++ [d]) = 10 * digits_val acc s + digit_val d.
Proof.
  intros Hs Hd. revert acc. induction Hs as [|c s Hc _ IH]; intros acc; simpl.
  - by rewrite Hd.
  - by rewrite Hc, IH.
Qed.

Lemma arr_at_digits i :
  0 <= i < 10 -> exists d, arr_at digits i = Ok [d] /\ isdigit d = true /\ digit_val d = i.
Proof.
  intros Hi.
  assert (i = 0 \/ i = 1 \/ i = 2 \/ i = 3 \/ i = 4 \/ i = 5 \/ i = 6 \/ i = 7 \/ i = 8 \/ i = 9)
    as Hc by lia.
  repeat destruct Hc as [->|Hc]; try subst i; eexists; repeat split; reflexivity.
Qed.

Lemma print_dec_pos fits fuel i :
  0 <= i < 10 ^ Z.of_nat fuel -> (0 < fuel)%nat ->
  exists t, print_dec fits fuel i = Ok t /\ all_digits t /\ t <> [] /\ digits_val 0 t = i.
Proof.
  revert i. induction fuel as [|fuel IH]; intros i Hi Hf; [lia|]. simpl print_dec.
  rewrite (proj2 (Z.ltb_ge _ _)), Z.geb_leb by lia.
  destruct (Z.leb_spec 10 i) as [H10|H10].
  - rewrite Z.quot_div_nonneg, Z.rem_mod_nonneg by lia.
    rewrite Nat2Z.inj_succ, Z.pow_succ_r in Hi by lia.
    assert (0 < i / 10) by (apply Z.div_str_pos; lia).
    destruct (IH (i / 10)) as (t & -> & Ht & Hn & Hv).
    { split; [lia|]. apply Z.div_lt_upper_bound; lia. }
    { destruct fuel; [|lia]. simpl in Hi. lia. }
    destruct (arr_at_digits (i mod 10)) as (d & -> & Hd & Hdv); [by apply Z.mod_pos_bound|].
    exists (t ++ [d]). simpl. split; [done|]. split; [|split].
    + apply Forall_app. split; [done|by repeat constructor].
    + by destruct t.
    + rewrite digits_val_snoc by done. rewrite Hv, Hdv.
      rewrite (Z.div_mod i 10) at 3 by lia. done.
  - destruct (arr_at_digits i) as (d & -> & Hd & Hdv); [lia|].
    exists [d]. split; [done|]. split; [by repeat constructor|]. split; [done|].
    simpl. by rewrite Hd.
Qed.

Lemma print_dec_neg fits fuel i :
  i < 0 ->
  print_dec fits (S fuel) i =
    if fits (i * -1) then t ← print_dec fits fuel (i * -1); Ok ("-" ++ t) else Undefined.
Proof. intros. simpl. by rewrite (proj2 (Z.ltb_lt _ _)) by done. Qed.

Lemma isdigit_not_space c : isdigit c = true -> isspace c = false.
Proof.
  unfold isdigit, isspace. rewrite andb_true_iff, !Nat.leb_le, orb_false_iff,
    andb_false_iff, Nat.eqb_neq, !Nat.leb_gt. lia.
Qed.

Lemma scan_int_digits t :
  all_digits t -> t <> [] -> scan_int t = Some (digits_val 0 t).
Proof.
  intros Ht Hn. destruct t as [|c t]; [done|]. inversion Ht as [|? ? Hc _]; subst.
  unfold scan_int. simpl. rewrite (isdigit_not_space c Hc).
  destruct c as [[] [] [] [] [] [] [] []]; try discriminate Hc; reflexivity.
Qed.

Lemma scan_int_minus_digits t :
  all_digits t -> t <> [] -> scan_int ("-" ++ t) = Some (- digits_val 0 t).
Proof.
  intros Ht Hn. destruct t as [|c t]; [done|]. inversion Ht as [|? ? Hc _]; subst.
  change (scan_int _) with (Z.opp <$> (if isdigit c then Some (digits_val 0 (c :: t)) else None)).
  by rewrite Hc.
Qed.

(** The text of a number: digits after an optional sign. *)
Definition is_number (t : str) : Prop :=
  t <> [] /\ (all_digits t \/ exists d, t = "-" ++ d /\ all_digits d /\ d <> []).

Lemma digit_size z d : arr_at digits z = Ok d -> size d = 1.
Proof.
  unfold arr_at. case_decide as Hz; [|done].
  destruct (digits !! Z.to_nat z) eqn:E; [|done]. intros [= <-].
  apply list_elem_of_lookup_2 in E. unfold digits in E.
  repeat (apply elem_of_cons in E as [->|E]; [done|]). by apply elem_of_nil in E.
Qed.

Lemma print_dec_size fits fuel i t :
  print_dec fits fuel i = Ok t -> size t <= Z.of_nat fuel.
Proof.
  revert i t. induction fuel as [|fuel IH]; intros i t; [done|].
  cbn [print_dec]. intros H. destruct (i <? 0).
  - destruct (fits (i * -1)); inv_ok. apply IH in H.
    change (lit "-" ++ x) with ("-"%char :: x). size_lia.
  - destruct (i >=? 10).
    + inv_ok. apply IH in H. apply digit_size in H0. size_lia.
    + apply digit_size in H. lia.
Qed.

(** [itoa] on every [int] but the least: a decimal text that reads back. *)
Lemma itoa_decimal i :
  INT_MIN < i <= INT_MAX ->
  exists t, itoa i = Ok t /\ is_number t /\ scan_int t = Some i.
Proof.
  unfold INT_MIN, INT_MAX. intros Hi. unfold itoa.
  destruct (Z.lt_ge_cases i 0) as [Hn|Hp].
  - destruct (print_dec_pos in_int 11 (i * -1)) as (t & E & Ht & Hne & Hv); [lia|lia|].
    exists ("-" ++ t). split; [|split].
    + rewrite print_dec_neg by lia.
      rewrite (proj2 (in_int_spec _)) by (unfold INT_MIN, INT_MAX; lia). by rewrite E.
    + split; [done|]. right. by exists t.
    + rewrite scan_int_minus_digits by done. rewrite Hv. f_equal. lia.
  - destruct (print_dec_pos in_int 12 i) as (t & E & Ht & Hne & Hv); [lia|lia|].
    exists t. split; [done|]. split; [split; [done|by left]|].
    rewrite scan_int_digits by done. by rewrite Hv.
Qed.

(** Negating the least [int] overflows. *)
Lemma itoa_INT_MIN : itoa INT_MIN = Undefined.
Proof. reflexivity. Qed.

(** ** Searching *)

(** The first position at which one of [comps] occurs. *)
Fixpoint first_match (comps : list str) (s : str) : option nat :=
  match s with
  | [] => None
  | _ :: s' => if existsb (fun c => starts_with c s) comps then Some 0%nat
               else S <$> first_match comps s'
  end.

Lemma first_match_cons comps c s :
  first_match comps (c :: s) =
    if existsb (fun x => starts_with x (c :: s)) comps then Some 0%nat
    else S <$> first_match comps s.
Proof. done. Qed.

Lemma strpos_m_inner_spec pre c rest comps :
  Forall (fun x => x <> []) comps ->
  strpos_m_inner (pre ++ c :: rest) comps (size pre) =
    Ok (existsb (fun x => starts_with x (c :: rest)) comps).
Proof.
  induction 1 as [|x comps Hx _ IH]; [done|]. destruct x as [|d x]; [done|].
  cbn [strpos_m_inner existsb]. rewrite str_idx_mid. simpl.
  change (str_idx (d :: x) 0) with (@Ok ascii d). simpl.
  destruct (decide (c = d)) as [->|Hne].
  - rewrite !bool_decide_true by done. rewrite substr_ok by size_lia. simpl.
    replace (Z.to_nat (size pre)) with (length pre) by (unfold size; lia).
    rewrite drop_app_length. unfold str_eqb.
    rewrite starts_with_take. replace (bool_decide (take _ (d :: rest) = d :: x))
      with (bool_decide (take (length x) rest = x)).
    { case_bool_decide; [done|]. by rewrite IH. }
    apply bool_decide_ext.
    assert (take (Z.to_nat (size (d :: x) `min` (size (pre ++ d :: rest) - size pre)))
      (d :: rest) = take (length (d :: x)) (d :: rest)) as ->.
    { rewrite size_app, Z.add_simpl_l. unfold size.
      rewrite <- Nat2Z.inj_min, Nat2Z.id. by rewrite <- take_take, firstn_all. }
    simpl. split; [by intros ->|]. intros H. by injection H.
  - by rewrite bool_decide_false, IH, bool_decide_false by congruence.
Qed.

Lemma strpos_m_loop_spec comps pre rest :
  Forall (fun x => x <> []) comps -> size (pre ++ rest) <= INT_MAX ->
  strpos_m_loop (length rest) (pre ++ rest) comps (size pre) =
    Ok (match first_match comps rest with Some i => size pre + Z.of_nat i | None => -1 end).
Proof.
  intros Hc. revert pre. induction rest as [|c rest IH]; intros pre Hb; [done|].
  cbn [strpos_m_loop length first_match]. rewrite strpos_m_inner_spec by done. simpl.
  destruct (existsb _ _).
  - rewrite to_int_small by size_lia. f_equal. lia.
  - replace (pre ++ c :: rest) with ((pre ++ [c]) ++ rest) in * by by rewrite <- app_assoc.
    replace (size pre + 1) with (size (pre ++ [c])) by size_lia.
    rewrite IH by done. f_equal. destruct (first_match comps rest); simpl; [size_lia|done].
Qed.

(** [strpos_m] is the first position at which a candidate occurs, or [-1]. *)
Lemma strpos_m_spec haystack comps :
  Forall (fun x => x <> []) comps -> size haystack <= INT_MAX ->
  strpos_m haystack comps =
    Ok (match first_match comps haystack with Some i => Z.of_nat i | None => -1 end).
Proof. intros Hc Hb. exact (strpos_m_loop_spec comps [] haystack Hc Hb). Qed.

Lemma first_match_skip comps a b :
  Forall (fun x => match x with [] => False | c :: _ => c ∉ a end) comps ->
  first_match comps (a ++ b) = (fun i => length a + i)%nat <$> first_match comps b.
Proof.
  intros Hc. induction a as [|c a IH]; simpl.
  { destruct (first_match comps b); done. }
  replace (existsb _ comps) with false.
  - rewrite IH.
    + destruct (first_match comps b); done.
    + eapply Forall_impl; [exact Hc|]. intros [|d x]; [done|]. simpl.
      rewrite not_elem_of_cons. tauto.
  - symmetry. clear IH. induction Hc as [|x comps Hx _ IH]; [done|]. simpl.
    destruct x as [|d x]; [done|]. simpl. apply not_elem_of_cons in Hx as [Hd _].
    by rewrite bool_decide_false.
Qed.

Lemma strcompsub_loop_spec a pre rest :
  (length a <= length rest)%nat ->
  forall a0, strcompsub_loop (length a) (a0 ++ a) (pre ++ rest) (size pre - size a0) (size pre) =
    Ok (starts_with a rest).
Proof.
  revert pre rest. induction a as [|c a IH]; intros pre rest Hl a0; [done|].
  destruct rest as [|d rest]; [simpl in Hl; lia|].
  cbn [strcompsub_loop length starts_with].
  replace (size pre - (size pre - size a0)) with (size a0) by lia.
  rewrite !str_idx_mid. simpl. destruct (decide (c = d)) as [->|Hne].
  - rewrite bool_decide_false, bool_decide_true by (done || by intros H; apply H).
    replace (a0 ++ d :: a) with ((a0 ++ [d]) ++ a) by by rewrite <- app_assoc.
    replace (pre ++ d :: rest) with ((pre ++ [d]) ++ rest) by by rewrite <- app_assoc.
    replace (size pre - size a0) with (size (pre ++ [d]) - size (a0 ++ [d])) by size_lia.
    replace (size pre + 1) with (size (pre ++ [d])) by size_lia.
    rewrite IH by (simpl in Hl; lia). done.
  - by rewrite bool_decide_true, bool_decide_false.
Qed.

Lemma strcompsub_spec a pre rest :
  (length a <= length rest)%nat ->
  strcompsub a (pre ++ rest) (size pre) (size a) = Ok (starts_with a rest).
Proof.
  intros Hl. unfold strcompsub. rewrite bool_decide_false by (intros H; by apply H).
  replace (Z.to_nat (size a)) with (length a) by (unfold size; lia).
  pose proof (strcompsub_loop_spec a pre rest Hl []) as E.
  rewrite size_nil, Z.sub_0_r in E. exact E.
Qed.

(** The number of positions at which a pattern occurs. *)
Fixpoint occurrences (needle s : str) : Z :=
  (if starts_with needle s then 1 else 0) +
  match s with [] => 0 | _ :: s' => occurrences needle s' end.

Lemma occurrences_nonneg needle s : 0 <= occurrences needle s.
Proof. induction s as [|c s IH]; simpl; destruct (starts_with _ _); lia. Qed.

Lemma occurrences_short needle s :
  (length s < length needle)%nat -> occurrences needle s = 0.
Proof.
  induction s as [|c s IH]; simpl; intros Hl.
  - destruct needle; simpl in *; [lia|done].
  - destruct (starts_with needle (c :: s)) eqn:E.
    + apply starts_with_spec in E as [r E]. apply (f_equal length) in E.
      rewrite length_app in E. simpl in *. lia.
    + rewrite IH by lia. done.
Qed.

Lemma count_loop_spec needle pre rest acc :
  needle <> [] -> (length needle <= length rest)%nat ->
  count_loop (S (length rest - length needle)) (pre ++ rest) needle (size pre) acc =
    Ok (acc + occurrences needle rest).
Proof.
  intros Hn. destruct needle as [|d needle]; [done|].
  revert pre acc. induction rest as [|c rest IH]; intros pre acc Hl; [simpl in Hl; lia|].
  cbn [count_loop]. rewrite str_idx_mid. rewrite obind_Ok.
  change (str_idx (d :: needle) 0) with (@Ok ascii d). rewrite obind_Ok.
  replace (if bool_decide (c = d) then _ else _)
    with (@Ok bool (starts_with (d :: needle) (c :: rest))).
  2:{ destruct (decide (c = d)) as [->|Hne].
      - rewrite bool_decide_true by done. symmetry. by apply strcompsub_spec.
      - simpl. by rewrite bool_decide_false, bool_decide_false by congruence. }
  rewrite obind_Ok. cbn [occurrences].
  destruct (length (c :: rest) - length (d :: needle))%nat as [|k] eqn:Ek.
  - rewrite (occurrences_short _ rest) by (simpl in *; lia). cbn [count_loop].
    f_equal. destruct (starts_with _ _); lia.
  - replace k with (length rest - length (d :: needle))%nat by (simpl in *; lia).
    replace (pre ++ c :: rest) with ((pre ++ [c]) ++ rest) by by rewrite <- app_assoc.
    replace (size pre + 1) with (size (pre ++ [c])) by size_lia.
    rewrite IH by (simpl in *; lia). f_equal. destruct (starts_with _ _); lia.
Qed.

(** [count] counts the (possibly overlapping) occurrences of a pattern; it is
    [-1] when the text is empty or shorter than the pattern. *)
Lemma count_spec haystack needle :
  needle <> [] ->
  count haystack needle =
    Ok (if (size haystack =? 0) || (size needle >? size haystack) then -1
        else occurrences needle haystack).
Proof.
  intros Hn. unfold count. destruct (_ || _) eqn:E; [done|].
  apply orb_false_iff in E as [_ E]. rewrite Z.gtb_ltb, Z.ltb_ge in E.
  apply (count_loop_spec needle [] haystack 0 Hn). unfold size in E. lia.
Qed.

Lemma occurrences_char c s : (0 <? occurrences [c] s) = bool_decide (c ∈ s).
Proof.
  induction s as [|d s IH].
  - done.
  - simpl. pose proof (occurrences_nonneg [c] s). destruct (decide (c = d)) as [->|Hne].
    + rewrite !bool_decide_true; [|apply elem_of_cons; by left|done]. simpl.
      apply Z.ltb_lt. lia.
    + rewrite (bool_decide_false (c = d)) by done. simpl. rewrite Z.add_0_l, IH.
      apply bool_decide_ext. rewrite elem_of_cons. naive_solver.
Qed.

(** ** Replacing *)

(** Every occurrence of one character replaced by a text. *)
Fixpoint replace_char (c : ascii) (r : str) (s : str) : str :=
  match s with
  | [] => []
  | x :: s' => (if bool_decide (x = c) then r else [x]) ++ replace_char c r s'
  end.

Lemma replace_char_app c r a b :
  replace_char c r (a ++ b) = replace_char c r a ++ replace_char c r b.
Proof. induction a as [|x a IH]; simpl; [done|]. by rewrite IH, app_assoc. Qed.

Lemma replace_char_cons c r b : replace_char c r (c :: b) = r ++ replace_char c r b.
Proof. simpl. by rewrite bool_decide_true. Qed.

Lemma replace_char_none c r s : c ∉ s -> replace_char c r s = s.
Proof.
  induction s as [|x s IH]; intros H; [done|]. apply not_elem_of_cons in H as [? ?].
  simpl. rewrite bool_decide_false by done. simpl. by rewrite IH.
Qed.

Lemma split_at_char (c : ascii) (s : str) :
  c ∈ s -> exists a b, s = a ++ c :: b /\ c ∉ a.
Proof.
  induction s as [|x s IH]; intros H; [by apply elem_of_nil in H|].
  destruct (decide (x = c)) as [->|Hne].
  - exists [], s. split; [done|apply not_elem_of_nil].
  - apply elem_of_cons in H as [?|H]; [done|].
    destruct (IH H) as (a & b & -> & ?). exists (x :: a), b.
    split; [done|]. apply not_elem_of_cons. naive_solver.
Qed.

Lemma occurrences_app_cons c a b :
  c ∉ a -> occurrences [c] (a ++ c :: b) = 1 + occurrences [c] b.
Proof.
  induction a as [|x a IH]; intros H; simpl.
  - by rewrite bool_decide_true.
  - apply not_elem_of_cons in H as [? ?]. rewrite bool_decide_false, IH by done. done.
Qed.

(** Replacing a character by a text without it replaces every occurrence; one
    unit of fuel per occurrence is enough. *)
Lemma str_replace_char fuel c r pre s :
  c ∉ pre -> c ∉ r -> size pre + size (replace_char c r s) + size s < npos ->
  (Z.to_nat (occurrences [c] s) < fuel)%nat ->
  str_replace fuel [c] r (pre ++ s) = Ok (pre ++ replace_char c r s).
Proof.
  revert pre s. induction fuel as [|fuel IH]; intros pre s Hpre Hr Hb Hf; [lia|].
  cbn [str_replace]. unfold find. destruct (decide (c ∈ s)) as [Hin|Hnin].
  - apply split_at_char in Hin as (a & b & -> & Ha).
    rewrite occurrences_app_cons in Hf by done.
    rewrite replace_char_app, replace_char_cons, (replace_char_none c r a) in * by done.
    rewrite app_assoc, find_char_app by (rewrite elem_of_app; tauto).
    change (Z.of_nat (length ?x)) with (size x).
    rewrite (proj2 (Z.eqb_neq _ _)) by size_lia. rewrite substr_app_l. simpl mbind.
    pose proof (occurrences_nonneg [c] b).
    destruct (Z.ltb_spec (size (pre ++ a) + size [c]) (size ((pre ++ a) ++ c :: b))) as [Hlt|Hge].
    + replace ((pre ++ a) ++ c :: b) with (((pre ++ a) ++ [c]) ++ b) by by rewrite <- app_assoc.
      rewrite <- size_app, substr_from_app by size_lia. simpl mbind.
      rewrite !app_assoc, IH; [by rewrite <- !app_assoc| |done|size_lia|lia].
      rewrite !elem_of_app. tauto.
    + assert (b = []) as -> by (rewrite <- size_zero; size_lia).
      rewrite <- (app_nil_r ((pre ++ a) ++ r)), IH; [by rewrite <- !app_assoc| |done| |].
      * rewrite !elem_of_app. tauto.
      * unfold replace_char. simpl. size_lia.
      * simpl. simpl in Hf. lia.
  - assert (find_nat [c] (pre ++ s) = None) as ->.
    { apply find_char_None. rewrite elem_of_app. tauto. }
    rewrite Z.eqb_refl. by rewrite replace_char_none.
Qed.

Lemma to_cstr_loop_spec pre rest :
  to_cstr_loop (length rest) (pre ++ rest) (size pre) = Ok rest.
Proof.
  revert pre. induction rest as [|c rest IH]; intros pre; [done|].
  cbn [to_cstr_loop length]. rewrite str_at_mid. simpl mbind.
  replace (pre ++ c :: rest) with ((pre ++ [c]) ++ rest) by by rewrite <- app_assoc.
  replace (size pre + 1) with (size (pre ++ [c])) by size_lia.
  by rewrite IH.
Qed.

(** [to_cstr] copies the bytes and terminates them. *)
Lemma to_cstr_spec s : to_cstr s = Ok (s ++ ["000"%char]).
Proof. unfold to_cstr. by rewrite (to_cstr_loop_spec [] s : to_cstr_loop (length s) s 0 = Ok s). Qed.

(** [split] at a character that occurs. *)
Lemma split_spec c a b :
  c ∉ a -> size (a ++ c :: b) <= INT_MAX -> split c (a ++ c :: b) = Ok [a; b].
Proof.
  intros Ha Hb. unfold split, find_char, find. rewrite find_char_app by done.
  change (Z.of_nat (length a)) with (size a).
  rewrite to_int_small, !to_size_t_small by size_lia.
  rewrite substr_app_l. simpl mbind.
  replace (a ++ c :: b) with ((a ++ [c]) ++ b) by by rewrite <- app_assoc.
  replace (size a + 1) with (size (a ++ [c])) by size_lia.
  rewrite substr_from_app by size_lia. done.
Qed.

(** [split] at a character that does not occur: both parts are the whole text. *)
Lemma split_absent c s : c ∉ s -> size s <= INT_MAX -> split c s = Ok [s; s].
Proof.
  intros Hc Hb. unfold split, find_char, find.
  rewrite (proj2 (find_char_None c s)) by done.
  change (to_size_t (to_int npos)) with npos. change (to_size_t (to_int npos + 1)) with 0.
  unfold substr_from. rewrite substr_ok by size_lia. simpl mbind.
  rewrite drop_0, take_ge; [done|]. unfold size, npos, INT_MAX in *. lia.
Qed.

(** ** Lists written with a separator *)

Fixpoint intercalate (sep : str) (l : list str) : str :=
  match l with
  | [] => []
  | [x] => x
  | x :: l' => x ++ sep ++ intercalate sep l'
  end.

Lemma intercalate_cons sep x y l :
  intercalate sep (x :: y :: l) = x ++ sep ++ intercalate sep (y :: l).
Proof. done. Qed.

Lemma intercalate_join sep l x : intercalate sep (l ++ [x]) = join sep l x.
Proof.
  induction l as [|y l IH]; [done|]. simpl app. destruct l as [|z l]; [done|].
  simpl app in *. rewrite intercalate_cons. cbn [join]. rewrite IH. done.
Qed.

(** Members that a separator starting with [c] keeps apart; the last one is
    not blank and at least as long as the separator. *)
Definition separable (sep : str) (c : ascii) (l : list str) : Prop :=
  Forall (fun x => x <> [] /\ c ∉ x) l /\
  exists x, last l = Some x /\ ltrim x <> [] /\ size sep <= size x.

Lemma starts_with_absent c q s : c ∉ s -> starts_with (c :: q) s = false.
Proof.
  destruct s as [|d s]; [done|]. intros H. apply not_elem_of_cons in H as [H _].
  simpl. by rewrite bool_decide_false.
Qed.

Lemma notin_drop (c : ascii) n s : c ∉ s -> c ∉ drop n s.
Proof. intros H Hin. apply H. rewrite <- (take_drop n s). set_solver. Qed.

(** [explode] reads back a list written with its separator. *)
Lemma explode_intercalate c q l w :
  separable (c :: q) c l -> size (intercalate (c :: q) l) < 2 ^ 63 ->
  explode (c :: q) (intercalate (c :: q) l) w = (Ok (Some l), w).
Proof.
  intros [Hl (x & Hx & Hb & Hs)] Hsz. apply last_Some in Hx as [l' ->].
  rewrite intercalate_join in *. apply Forall_app in Hl as [Hl Hx].
  apply Forall_singleton in Hx as [Hx Hcx]. destruct l' as [|y l'].
  - apply explode_single; [done| |done|done|done].
    apply find_nat_None. intros i. by apply starts_with_absent, notin_drop.
  - apply Forall_cons in Hl as [[Hy Hcy] Hl]. simpl app.
    apply explode_join; [done|by apply sep_free_head| | |done|done|done].
    + eapply Forall_impl; [exact Hl|]. intros z [Hz Hcz]. split; [done|].
      by apply sep_free_head, notin_drop.
    + intros j. by apply starts_with_absent, notin_drop.
Qed.

Lemma digits_val_app acc t c s :
  all_digits t -> isdigit c = false -> digits_val acc (t ++ c :: s) = digits_val acc t.
Proof.
  intros Ht Hc. revert acc. induction Ht as [|d t Hd _ IH]; intros acc; simpl.
  - by rewrite Hc.
  - by rewrite Hd.
Qed.

(** Text after the digits is not read. *)
Lemma scan_int_app t c s :
  is_number t -> isdigit c = false -> scan_int (t ++ c :: s) = scan_int t.
Proof.
  intros [Hn [Ht|(d & -> & Ht & Hd)]] Hc.
  - rewrite (scan_int_digits t) by done. destruct t as [|e t]; [done|].
    inversion Ht as [|? ? He Ht']; subst. rewrite <- (digits_val_app 0 _ c s) by done.
    unfold scan_int. simpl. rewrite (isdigit_not_space e He).
    destruct e as [[] [] [] [] [] [] [] []]; try discriminate He; reflexivity.
  - rewrite scan_int_minus_digits by done. destruct d as [|e d]; [done|].
    inversion Ht as [|? ? He Ht']; subst. rewrite <- (digits_val_app 0 _ c s) by done.
    change (scan_int _) with
      (Z.opp <$> (if isdigit e then Some (digits_val 0 ((e :: d) ++ c :: s)) else None)).
    by rewrite He.
Qed.
