(* ===== verification/Column.v ===== *)
(** * lib/objects/column.{h,cpp}: table columns and their types

    The two enumerations share one [int] numbering (SQL types 1-20, C++ types
    21-27), which is why the conversions take an [int]. *)

From S2P Require Import Prelude Cxx.

(** ** enum SQLType, enum CCppType *)

Definition SQL_CHAR : Z := 1.
Definition SQL_VARCHAR : Z := 2.
Definition SQL_TEXT : Z := 3.
Definition SQL_BLOB : Z := 4.
Definition SQL_ENUM : Z := 5.
Definition SQL_SET : Z := 6.
Definition SQL_INT : Z := 7.
Definition SQL_UINT : Z := 8.
Definition SQL_FLOAT : Z := 9.
Definition SQL_DOUBLE : Z := 10.
Definition SQL_DECIMAL : Z := 11.
Definition SQL_DATE : Z := 12.
Definition SQL_DATETIME : Z := 13.
Definition SQL_TIMESTAMP : Z := 14.
Definition SQL_TIME : Z := 15.
Definition SQL_YEAR : Z := 16.
Definition SQL_NUMERIC : Z := 17.
Definition SQL_MONEY : Z := 18.
Definition SQL_REAL : Z := 19.
Definition SQL_BOOL : Z := 20.

Definition CPP_STRING : Z := 21.
Definition CPP_INT64 : Z := 22.
Definition CPP_FLOAT : Z := 23.
Definition CPP_DOUBLE : Z := 24.
Definition CPP_DATE : Z := 25.
Definition CPP_RAW : Z := 26.
Definition CPP_VECTOR : Z := 27.

(** A [switch] on an [int] whose cases all leave it. *)
Fixpoint switch {A} (v : Z) (cases : list (list Z * A)) (default : A) : A :=
  match cases with
  | [] => default
  | (labels, a) :: cases' =>
      if existsb (Z.eqb v) labels then a else switch v cases' default
  end.

(** ** The conversions *)

(** [Column::getOutCppType] *)
Definition getOutCppType (type : Z) : str :=
  switch type
    [ ([SQL_CHAR; SQL_VARCHAR; SQL_TEXT; SQL_DECIMAL; SQL_NUMERIC; SQL_MONEY;
        SQL_REAL; CPP_STRING], "string" : str);
      ([SQL_BLOB], "uint8_t[10000]" : str);
      ([SQL_ENUM; SQL_SET], "vector<string>" : str);
      ([CPP_INT64; SQL_YEAR; SQL_INT; SQL_TIMESTAMP; SQL_UINT], "int64_t" : str);
      ([CPP_FLOAT; SQL_FLOAT], "float" : str);
      ([CPP_DOUBLE; SQL_DOUBLE], "double" : str);
      ([SQL_DATE; SQL_DATETIME; SQL_TIME], "Date" : str) ]
    [].

(** [Column::getCppType] *)
Definition getCppType (type : Z) : Z :=
  switch type
    [ ([SQL_CHAR; SQL_VARCHAR; SQL_TEXT; SQL_DECIMAL; SQL_NUMERIC; SQL_MONEY;
        SQL_REAL], CPP_STRING);
      ([SQL_BLOB], CPP_RAW);
      ([SQL_ENUM; SQL_SET], CPP_VECTOR);
      ([SQL_YEAR; SQL_INT; SQL_TIMESTAMP; SQL_UINT], CPP_INT64);
      ([SQL_FLOAT], CPP_FLOAT);
      ([SQL_DOUBLE], CPP_DOUBLE);
      ([SQL_DATE; SQL_DATETIME; SQL_TIME], CPP_DATE) ]
    CPP_INT64.

(** An [if]/[else if] chain of substring tests. *)
Fixpoint first_contained (s : str) (tests : list (str * Z)) (default : Z) : Z :=
  match tests with
  | [] => default
  | (pat, v) :: tests' => if contains s pat then v else first_contained s tests' default
  end.

(** [Column::getType] *)
Definition getType (type : str) : Z :=
  first_contained type
    [ ("varchar" : str, SQL_VARCHAR); ("char" : str, SQL_CHAR); ("text" : str, SQL_TEXT);
      ("enum" : str, SQL_ENUM); ("set" : str, SQL_SET); ("unsigned" : str, SQL_UINT);
      ("int" : str, SQL_INT); ("float" : str, SQL_FLOAT); ("double" : str, SQL_DOUBLE);
      ("decimal" : str, SQL_DECIMAL); ("datetime" : str, SQL_DATETIME);
      ("timestamp" : str, SQL_TIMESTAMP); ("time" : str, SQL_TIME);
      ("date" : str, SQL_DATE); ("year" : str, SQL_YEAR); ("blob" : str, SQL_BLOB);
      ("numeric" : str, SQL_NUMERIC); ("money" : str, SQL_MONEY); ("real" : str, SQL_REAL) ]
    SQL_BOOL.

(** ** class Column *)

Record Column := MkColumn { col_type : Z; col_ctype : Z; col_name : str }.

#[export] Instance Column_eq_dec : EqDecision Column.
Proof. solve_decision. Defined.

(** [Column::Column(string, int)] and [Column::Column(string, string)] *)
Definition Column_of_type (name : str) (type : Z) : Column :=
  MkColumn type (getCppType type) name.
Definition Column_of_sql (name type : str) : Column :=
  MkColumn (getType type) (getCppType (getType type)) name.

Definition isColumn (col : str) (columns : list Column) : bool :=
  existsb (fun c => str_eqb col (col_name c)) columns.

Definition hasColumn (col : str) (columns : list Column) : bool :=
  existsb (fun c => contains col (col_name c)) columns.

(** The first column whose name occurs in (equals) the text: the inner loops
    of the generators, which leave the type unset when there is none. *)
Definition column_in (s : str) (columns : list Column) : option Column :=
  List.find (fun c => contains s (col_name c)) columns.
Definition column_named (s : str) (columns : list Column) : option Column :=
  List.find (fun c => str_eqb s (col_name c)) columns.

(** ** Facts *)

Lemma first_contained_range s tests default lo hi :
  Forall (fun t => lo <= t.2 <= hi) tests -> lo <= default <= hi ->
  lo <= first_contained s tests default <= hi.
Proof.
  induction 1 as [|[pat v] tests Hv _ IH]; simpl; [done|]. intros Hd.
  destruct (contains s pat); auto.
Qed.

Lemma getType_range s : SQL_CHAR <= getType s <= SQL_BOOL.
Proof.
  apply first_contained_range; [|by compute].
  repeat constructor; simpl; by compute.
Qed.

(** Case analysis on a number in a small range. *)
Lemma sql_type_cases (P : Z -> Prop) :
  Forall P (seqZ 1 20) -> forall t, SQL_CHAR <= t <= SQL_BOOL -> P t.
Proof.
  intros HP t Ht. rewrite Forall_forall in HP. apply HP, elem_of_seqZ.
  unfold SQL_CHAR, SQL_BOOL in Ht. lia.
Qed.

(** The C++ type of a SQL type, as [switch] in the helper generator sees it,
    is one of [CCppType], and its spelling agrees with the spelling computed
    from the SQL type for every supported type. *)
Definition helper_type (t : Z) : bool :=
  existsb (Z.eqb t) [CPP_STRING; CPP_INT64; CPP_FLOAT; CPP_DOUBLE].

Lemma getCppType_sql t :
  SQL_CHAR <= t <= SQL_BOOL -> CPP_STRING <= getCppType t <= CPP_VECTOR.
Proof.
  revert t. apply sql_type_cases. repeat constructor; by compute.
Qed.

Lemma getOutCppType_agree t :
  SQL_CHAR <= t <= SQL_BOOL -> t <> SQL_BOOL -> helper_type (getCppType t) = true ->
  getOutCppType (getCppType t) = getOutCppType t /\ getOutCppType t <> [].
Proof.
  intros Ht. revert t Ht.
  apply (sql_type_cases (fun t => t <> SQL_BOOL -> helper_type (getCppType t) = true ->
    getOutCppType (getCppType t) = getOutCppType t /\ getOutCppType t <> [])).
  let l := eval vm_compute in (seqZ 1 20) in change (seqZ 1 20) with l.
  forall_list ltac:(intros H1 H2; vm_compute in H1, H2; first [done | split; by vm_compute]).
Qed.

Lemma isColumn_spec s columns :
  isColumn s columns = true <-> exists c, c ∈ columns /\ col_name c = s.
Proof.
  unfold isColumn. rewrite existsb_exists. unfold str_eqb.
  split; intros (c & Hc & E); exists c.
  - apply bool_decide_eq_true in E. by rewrite list_elem_of_In.
  - rewrite <- list_elem_of_In. split; [done|]. by apply bool_decide_eq_true.
Qed.

Lemma contains_refl s : size s < npos -> contains s s = true.
Proof.
  intros Hs. unfold contains, find. rewrite find_nat_unfold.
  replace (starts_with s s) with true.
  - by rewrite bool_decide_true.
  - symmetry. apply starts_with_spec. exists []. by rewrite app_nil_r.
Qed.

(** A column of the table is always found by the substring test too. *)
Lemma isColumn_hasColumn s columns :
  size s < npos -> isColumn s columns = true -> hasColumn s columns = true.
Proof.
  intros Hs (c & Hc & E)%isColumn_spec. unfold hasColumn. apply existsb_exists.
  exists c. rewrite <- list_elem_of_In. split; [done|]. rewrite E. by apply contains_refl.
Qed.
