(* ===== verification/Debug.v ===== *)
(** * lib/debug.cpp: printing vectors

    Called only from commented-out code.  The null pointer is [None]; the
    elements of the second vector are pointers to live columns. *)

From S2P Require Import Prelude Cxx Str Column.

(** [cout << n] of an [int]. *)
Definition show_int (n : Z) : outcome str := print_dec (fun _ => true) 12 n.

(** The loop of both functions: a line for every element, numbered by an [int]
    counter that overflows behind [INT_MAX]. *)
Fixpoint print_lines {A} (text : A -> outcome str) (counter : Z) (l : list A) : M unit :=
  match l with
  | [] => mret tt
  | a :: l' =>
      n ← lift (show_int counter);
      t ← lift (text a);
      _ ← cout ("[" ++ n ++ "]:" ++ t ++ "\n");
      if counter =? INT_MAX then lift Undefined else print_lines text (counter + 1) l'
  end.

Definition print_vector {A} (text : A -> outcome str) (vec : option (list A)) : M unit :=
  match vec with
  | None => cout "nullptr\n"
  | Some l => print_lines text 0 l
  end.

Definition print_strings : option (list str) -> M unit := print_vector Ok.

Definition column_text (c : Column) : outcome str :=
  t ← show_int (col_type c);
  u ← show_int (col_ctype c);
  Ok ("Name:" ++ col_name c ++ " Type:" ++ t ++ " CType:" ++ u).

Definition print_columns : option (list Column) -> M unit := print_vector column_text.

Example print_strings_two :
  (print_strings (Some ["a" : str; "b" : str]) (World [] true [] [] ∅ (fun _ => true) [])).2 =
    World [] true "[0]:a\n[1]:b\n" [] ∅ (fun _ => true) [].
Proof. by vm_compute. Qed.

(** Printing changes the standard output only, and ends on a vector that an [int]
    can number. *)
Lemma print_lines_ends {A} (text : A -> outcome str) counter l w :
  0 <= counter -> counter + Z.of_nat (length l) <= INT_MAX ->
  (forall a, exists t, text a = Ok t) ->
  exists out, print_lines text counter l w = (Ok tt, add_stdout out w).
Proof.
  intros Hc Hl Ht. revert counter w Hc Hl. induction l as [|a l IH]; intros counter w Hc Hl.
  { exists []. destruct w. unfold add_stdout. simpl. by rewrite app_nil_r. }
  cbn [print_lines length] in *. destruct (Ht a) as [t Et].
  destruct (print_dec_pos (fun _ => true) 12 counter) as (n & En & _); [unfold INT_MAX in *; lia|lia|].
  unfold show_int. rewrite M_bind_lift, En, M_bind_lift, Et.
  set (line := "[" ++ n ++ "]:" ++ t ++ "\n"). destruct (Z.eqb_spec counter INT_MAX); [lia|].
  destruct (IH (counter + 1) (add_stdout line w)) as [out Eo]; [lia|lia|].
  exists (line ++ out). rewrite (M_bind_ok (eq_refl : cout line w = (Ok tt, add_stdout line w))), Eo.
  unfold add_stdout. simpl w_stdout. by rewrite <- (app_assoc (w_stdout w) line out).
Qed.
