(* ===== verification/Aggregate.v ===== *)
(** * lib/objects/aggregate.{h,cpp}: aggregate functions of a query

    An aggregate is written [group_func_column], or [func_column] for group 0
    (the rows of the group itself). *)

From S2P Require Import Prelude Cxx Str.

(** ** class Aggregate *)

Record Aggregate := MkAggregate { agg_group : Z; agg_func : str; agg_column : str }.

#[export] Instance Aggregate_eq_dec : EqDecision Aggregate.
Proof. solve_decision. Defined.

(** [Aggregate::Aggregate] *)
Definition Aggregate_new (aggr : str) : M Aggregate :=
  data ← c_explode "_" aggr;
  lift (if bool_decide (length data = 3%nat) then
          g ← vec_at data 0;
          group ← atoi g;
          func ← vec_at data 1;
          column ← vec_at data 2;
          Ok (MkAggregate group func column)
        else
          func ← vec_at data 0;
          column ← vec_at data 1;
          Ok (MkAggregate 0 func column)).

Definition toESQL (a : Aggregate) : outcome str :=
  g ← itoa (agg_group a);
  Ok (agg_func a ++ "(" ++ g ++ ("." ++ agg_column a ++ ")")).

Definition toSQL (a : Aggregate) : str := agg_func a ++ "(" ++ agg_column a ++ ")".

Definition toString (a : Aggregate) : outcome str :=
  g ← (if bool_decide (agg_group a <> 0) then t ← itoa (agg_group a); Ok (t ++ "_")
       else Ok []);
  Ok (g ++ (agg_func a ++ "_" ++ agg_column a)).

Definition toABSVar (a : Aggregate) : outcome str :=
  g ← (if bool_decide (agg_group a <> 0) then t ← itoa (agg_group a); Ok ("_" ++ t)
       else Ok []);
  Ok ((agg_func a ++ "_" ++ agg_column a) ++ g).

Definition toVar (a : Aggregate) : str := agg_func a ++ "_" ++ agg_column a.

Definition equals (a : Aggregate) (aggr : str) : outcome bool :=
  s ← toString a; Ok (str_eqb s aggr).

(** [Aggregate::isAggregate]: the text, up to its first NUL, has an
    underscore. *)
Definition isAggregate (aggr : str) : outcome bool :=
  c ← count (c_str aggr) "_"; Ok (c >? 0).

(** The spellings the generators accept for a function. *)
Definition func_is (a : Aggregate) (lower upper : str) : bool :=
  str_eqb (agg_func a) lower || str_eqb (agg_func a) upper.

(** ** Facts *)

Lemma number_not_in (c : ascii) (t : str) :
  isdigit c = false -> c <> "-"%char -> is_number t -> c ∉ t.
Proof.
  intros Hd Hm [_ Ht].
  assert (Hall : forall d : str, all_digits d -> c ∉ d).
  { intros d H Hin. unfold all_digits in H. rewrite Forall_forall in H.
    apply H in Hin. congruence. }
  destruct Ht as [Ht|(d & -> & Ht & _)]; [by apply Hall|].
  apply not_elem_of_cons. split; [done|by apply Hall].
Qed.

(** A well-formed aggregate: its parts can be told apart when it is printed. *)
Record wf_aggregate (a : Aggregate) : Prop := {
  wf_group : INT_MIN < agg_group a <= INT_MAX;
  wf_func : agg_func a <> [];
  wf_func_sep : "_"%char ∉ agg_func a;
  wf_column : ltrim (agg_column a) <> [];
  wf_column_sep : "_"%char ∉ agg_column a;
  wf_size : size (agg_func a) + size (agg_column a) < 2 ^ 32;
}.

Lemma itoa_size i t : itoa i = Ok t -> size t <= 12.
Proof. apply print_dec_size. Qed.

Lemma number_no_nul t : is_number t -> c_str t = t.
Proof. intros H. apply c_str_no_nul. by apply number_not_in. Qed.

Lemma atoi_itoa i : INT_MIN < i <= INT_MAX ->
  exists t, itoa i = Ok t /\ is_number t /\ size t <= 12 /\ atoi t = Ok i /\ stoi t = Ok i.
Proof.
  intros Hi. destruct (itoa_decimal i Hi) as (t & Et & Hn & Hs).
  exists t. split; [done|]. split; [done|]. split; [by eapply itoa_size|]. unfold atoi, stoi.
  rewrite number_no_nul, Hs, (proj2 (in_int_spec i)) by (done || lia). done.
Qed.

Lemma drop1_notin (c : ascii) (s : str) : c ∉ s -> c ∉ drop 1 s.
Proof. destruct s as [|d s]; simpl; [done|]. rewrite drop_0, not_elem_of_cons. tauto. Qed.

(** Printing an aggregate and parsing it back is the identity. *)
Lemma Aggregate_roundtrip a w :
  wf_aggregate a ->
  exists t, toString a = Ok t /\ Aggregate_new t w = (Ok a, w).
Proof.
  intros [Hg Hf Hfs Hc Hcs Hb]. destruct a as [g f c]; simpl in *. unfold toString. simpl.
  destruct (decide (g = 0)) as [->|Hne].
  - rewrite bool_decide_false by (intros H; by apply H). rewrite obind_Ok.
    exists (f ++ "_" ++ c). split; [done|]. unfold Aggregate_new.
    change (f ++ "_" ++ c) with (join ["_"%char] [f] c).
    rewrite (@M_bind_ok _ _ _ _ _ [f; c] w); [done|].
    apply (c_explode_join "_" f [] c);
      [done|constructor|by apply drop1_notin|done|simpl join; size_lia].
  - rewrite bool_decide_true by done.
    destruct (atoi_itoa g Hg) as (t & -> & Hn & Hst & Ha & _). rewrite obind_Ok, obind_Ok.
    pose proof Hn as Hsep. apply (number_not_in "_") in Hsep; [|done|done].
    exists (t ++ "_" ++ f ++ "_" ++ c). rewrite <- app_assoc. split; [done|].
    unfold Aggregate_new.
    change (t ++ "_" ++ f ++ "_" ++ c) with (join ["_"%char] [t; f] c).
    rewrite (@M_bind_ok _ _ _ _ _ [t; f; c] w).
    + unfold lift. simpl. by rewrite Ha.
    + apply (c_explode_join "_" t [f] c); [done| |by apply drop1_notin|done|].
      * repeat constructor; [done|by apply drop1_notin].
      * simpl join. size_lia.
Qed.

(** A text with a single piece is not an aggregate: the constructor throws. *)
Lemma Aggregate_new_single s w :
  "_"%char ∉ s -> ltrim s <> [] -> size s < 2 ^ 64 ->
  Aggregate_new s w = (Throw OutOfRange, w).
Proof.
  intros Hs Hl Hb. unfold Aggregate_new.
  rewrite (@M_bind_ok _ _ _ _ _ [s] w) by (by apply c_explode_single). done.
Qed.

(** A column name with an underscore makes four pieces: the group number is
    taken for the function and the function for the column. *)
Lemma Aggregate_new_four g f c1 c2 w :
  "_"%char ∉ g -> f <> [] -> "_"%char ∉ f -> c1 <> [] -> "_"%char ∉ c1 ->
  ltrim c2 <> [] -> "_"%char ∉ c2 ->
  size g + size f + size c1 + size c2 < 2 ^ 32 ->
  Aggregate_new (join "_" [g; f; c1] c2) w = (Ok (MkAggregate 0 g f), w).
Proof.
  intros. unfold Aggregate_new.
  rewrite (@M_bind_ok _ _ _ _ _ [g; f; c1; c2] w); [done|].
  apply (c_explode_join "_" g [f; c1] c2); [done| |by apply drop1_notin|done|].
  - repeat constructor; try done; by apply drop1_notin.
  - simpl join. size_lia.
Qed.

(** [isAggregate] tests for an underscore (before the first NUL). *)
Lemma isAggregate_spec s : isAggregate s = Ok (bool_decide ("_"%char ∈ c_str s)).
Proof.
  unfold isAggregate. change (lit "_") with ["_"%char]. rewrite count_spec by done.
  rewrite obind_Ok. f_equal. rewrite <- occurrences_char.
  destruct (c_str s) as [|c t]; [done|].
  rewrite (proj2 (Z.eqb_neq _ _)) by size_lia.
  replace (Z.gtb (size ["_"%char]) (size (c :: t))) with false.
  - simpl orb. cbv iota. by rewrite Z.gtb_ltb.
  - symmetry. rewrite Z.gtb_ltb. apply Z.ltb_ge. change (size ["_"%char]) with 1. size_lia.
Qed.

(** A printed aggregate is recognised as one. *)
Lemma isAggregate_toString a t :
  wf_aggregate a -> "000"%char ∉ agg_func a -> "000"%char ∉ agg_column a ->
  toString a = Ok t -> isAggregate t = Ok true.
Proof.
  intros [Hg _ _ _ _ _] Hf Hc Ht. rewrite isAggregate_spec. f_equal. apply bool_decide_eq_true.
  assert (("000"%char ∉ t) /\ ("_"%char ∈ t)) as [Hn Hin]; [|by rewrite c_str_no_nul].
  unfold toString in Ht. change (lit "_") with ["_"%char] in Ht.
  assert (Hfc : "000"%char ∉ agg_func a ++ ["_"%char] ++ agg_column a).
  { rewrite !elem_of_app, elem_of_cons. set_solver. }
  assert (Hin : "_"%char ∈ agg_func a ++ ["_"%char] ++ agg_column a) by set_solver.
  destruct (decide (agg_group a = 0)) as [E|E].
  - rewrite bool_decide_false in Ht by (intros H; by apply H). by injection Ht as <-.
  - rewrite bool_decide_true in Ht by done.
    destruct (atoi_itoa (agg_group a) Hg) as (u & Eu & Hn & _). rewrite Eu in Ht.
    injection Ht as <-. apply (number_not_in "000") in Hn; [|done|done]. set_solver.
Qed.

Lemma app_sep_inj (c : ascii) (a a' b b' : str) :
  c ∉ a -> c ∉ a' -> a ++ c :: b = a' ++ c :: b' -> a = a' /\ b = b'.
Proof.
  revert a'. induction a as [|x a IH]; intros [|x' a'] Ha Ha' E; simpl in E.
  - by injection E.
  - injection E as -> _. apply not_elem_of_cons in Ha' as [? _]. done.
  - injection E as <- _. apply not_elem_of_cons in Ha as [? _]. done.
  - injection E as -> E. apply not_elem_of_cons in Ha as [_ Ha].
    apply not_elem_of_cons in Ha' as [_ Ha'].
    destruct (IH a' Ha Ha' E) as [-> ->]. done.
Qed.

Lemma itoa_inj i j t : INT_MIN < i <= INT_MAX -> INT_MIN < j <= INT_MAX ->
  itoa i = Ok t -> itoa j = Ok t -> i = j.
Proof.
  intros Hi Hj Ei Ej.
  destruct (atoi_itoa i Hi) as (? & Ei' & _ & _ & Ai & _).
  destruct (atoi_itoa j Hj) as (? & Ej' & _ & _ & Aj & _). congruence.
Qed.

(** The member names of [struct mf_structure] are pairwise distinct. *)
Lemma toABSVar_inj a b t :
  wf_aggregate a -> wf_aggregate b -> toABSVar a = Ok t -> toABSVar b = Ok t -> a = b.
Proof.
  intros [Hga _ Hfa _ Hca _] [Hgb _ Hfb _ Hcb _].
  destruct a as [g f c], b as [g' f' c']; simpl in *.
  unfold toABSVar; simpl. change (lit "_") with ["_"%char].
  destruct (atoi_itoa g Hga) as (n & En & Hn & _), (atoi_itoa g' Hgb) as (n' & En' & Hn' & _).
  pose proof (number_not_in "_" n eq_refl ltac:(done) Hn).
  pose proof (number_not_in "_" n' eq_refl ltac:(done) Hn').
  destruct (decide (g = 0)) as [->|Eg], (decide (g' = 0)) as [->|Eg'];
    repeat (rewrite bool_decide_false by (intros E; by apply E));
    rewrite ?(bool_decide_true (g <> 0)), ?(bool_decide_true (g' <> 0)), ?En, ?En' by done;
    rewrite ?obind_Ok, ?app_nil_r; intros E1 E2; injection E1 as <-; injection E2 as E;
    repeat rewrite app_nil_r in E.
  - apply app_sep_inj in E as [-> ->]; done.
  - rewrite <- !app_assoc in E. simpl in E. apply app_sep_inj in E as [_ E]; [|done|done].
    exfalso. apply Hca. rewrite <- E. set_solver.
  - rewrite <- !app_assoc in E. simpl in E. apply app_sep_inj in E as [_ E]; [|done|done].
    exfalso. apply Hcb. rewrite E. set_solver.
  - rewrite <- !app_assoc in E. apply app_sep_inj in E as [-> E]; [|done|done].
    simpl in E. apply app_sep_inj in E as [-> ->]; [|done|done].
    f_equal. by apply (itoa_inj g g' n).
Qed.
