(* ===== verification/Condition.v ===== *)
(** * lib/objects/condition.{h,cpp} and conditions.{h,cpp}: such-that clauses

    A [Condition] is one comparison [group.column OP value]; a [Conditions]
    object is a sequence of comparisons with the operators between them.
    [Condition_toCpp] and [Conditions_toCpp] print them as C++ expressions. *)

From S2P Require Import Prelude Cxx Str Column Aggregate.

(** ** class Condition *)

Record Condition := MkCondition {
  cond_group : Z; cond_column : str; cond_exp : str; cond_value : str
}.

#[export] Instance Condition_eq_dec : EqDecision Condition.
Proof. solve_decision. Defined.

(** The prefix of a condition: the text before the first dot is its group. *)
Definition Condition_group (cond : str) : outcome (Z * str) :=
  if bool_decide (find_char cond "." <> npos) then
    s ← split "." cond;
    s0 ← vec_at s 0;
    group ← stoi s0;
    tmp ← vec_at s 1;
    Ok (group, tmp)
  else Ok (0, cond).

(** [Condition::Condition] *)
Definition Condition_new (cond : str) : M Condition :=
  gt ← lift (Condition_group cond);
  let '(group, tmp) := gt in
  index ← lift (strpos_m tmp ["=" : str; "<" : str; ">" : str; "!" : str]);
  column ← lift (substr tmp 0 (to_size_t index));
  if index =? -1 then
    _ ← cout ("Given the condition of " ++ cond ++ "\n");
    lift (Throw (CMessage "Error, invalid Condition"))
  else
    index2 ← lift (strpos_m tmp ["<=" : str; ">=" : str; "!=" : str; "<>" : str]);
    et ← lift (if index =? index2 then
                 exp ← substr tmp (to_size_t index) 2;
                 let exp := if str_eqb exp "<>" then "!=" : str else exp in
                 tmp' ← substr_from tmp (to_size_t (index + 2));
                 Ok (exp, tmp')
               else
                 exp ← substr tmp (to_size_t index) 1;
                 tmp' ← substr_from tmp (to_size_t (index + 1));
                 Ok (exp, tmp'));
    let '(exp, rest) := et in
    value ← lift (str_replace (S (length rest)) "'" "\q" rest);
    mret (MkCondition group column exp value).

(** The comparison of an expression with a value: a string literal (told by
    its quote) is compared with [compare]. *)
Definition comparison (c : Condition) (value : str) : str :=
  if contains (cond_value c) "\q" then ".compare(" ++ value ++ ") == 0"
  else if negb (str_eqb (cond_exp c) "=") then " " ++ cond_exp c ++ " " ++ value
  else " == " ++ value.

(** The left-hand side [var->column], with [.value()] for an average. *)
Definition left_side (c : Condition) (var : str) : str :=
  var ++ "->" ++ cond_column c ++
  (if contains (cond_column c) "avg" then ".value()" : str else []).

(** [Condition::toCpp]; [NULL_EXPR_FALSE] is defined in config.h. *)
Definition Condition_toCpp (c : Condition) (var var2 : str) (select_columns : list str)
    (columns : list Column) : M str :=
  agg ← (if isColumn (cond_value c) columns then mret false
         else lift (isAggregate (cond_value c)));
  if isColumn (cond_value c) columns then
    mret (left_side c var ++ comparison c (var2 ++ "->" ++ cond_value c))
  else if (agg : bool) then
    tmp ← Aggregate_new (cond_value c);
    let vfind_arg := concat (map (fun jt => "," ++ var ++ "->" ++ jt) select_columns) in
    g ← lift (itoa (agg_group tmp));
    let pos := "vfind" ++ g ++ "(data" ++ g ++ vfind_arg ++ ")" in
    let val := "data" ++ g ++ "->at(" ++ pos ++ ")->" ++ toVar tmp ++
      (if contains (cond_value c) "avg" then ".value()" : str else []) in
    mret ("(" ++ pos ++ " > 0 && " ++ left_side c var ++ comparison c val ++ ")")
  else if hasColumn (cond_value c) columns then
    mret (left_side c var ++ comparison c (var2 ++ "->" ++ cond_value c))
  else
    mret (left_side c var ++ comparison c (cond_value c)).

(** ** class Conditions *)

Record Conditions := MkConditions { conds : list Condition; ops : list str }.

#[export] Instance Conditions_eq_dec : EqDecision Conditions.
Proof. solve_decision. Defined.

(** The loop of the constructor: comparisons at even positions, operators at
    odd ones. *)
Fixpoint Conditions_loop (args : list str) (i : Z) (cs : Conditions) : M Conditions :=
  match args with
  | [] => mret cs
  | a :: args' =>
      if Z.rem i 2 =? 0 then
        c ← Condition_new a;
        Conditions_loop args' (i + 1) (MkConditions (conds cs ++ [c]) (ops cs))
      else Conditions_loop args' (i + 1) (MkConditions (conds cs) (ops cs ++ [a]))
  end.

(** [Conditions::Conditions] *)
Definition Conditions_new (s : str) : M Conditions :=
  if bool_decide (find_char s " " = npos) then
    c ← Condition_new s; mret (MkConditions [c] [])
  else
    args ← c_explode " " s;
    Conditions_loop args 0 (MkConditions [] []).

(** [Conditions::toCpp] *)
Fixpoint Conditions_toCpp_loop (cs : Conditions) (n : nat) (i : Z) (var var2 : str)
    (select_columns : list str) (columns : list Column) (out : str) : M str :=
  match n with
  | O => mret out
  | S n' =>
      op ← lift (vec_at (ops cs) (i - 1));
      c ← lift (vec_at (conds cs) i);
      t ← Condition_toCpp c var var2 select_columns columns;
      Conditions_toCpp_loop cs n' (i + 1) var var2 select_columns columns
        (out ++ " " ++ op ++ " " ++ t)
  end.

Definition Conditions_toCpp (cs : Conditions) (var var2 : str) (select_columns : list str)
    (columns : list Column) : M str :=
  c ← lift (vec_at (conds cs) 0);
  out ← Condition_toCpp c var var2 select_columns columns;
  Conditions_toCpp_loop cs (length (conds cs) - 1) 1 var var2 select_columns columns out.

(** [cout << n] of a [size_t]. *)
Definition show_size (n : Z) : outcome str := print_dec (fun _ => true) 21 n.

(** [Conditions::getConditions]; [None] is the null pointer. *)
Definition getConditions (cond : option (list str)) : M (option (list Conditions)) :=
  match cond with
  | None => mret None
  | Some [] => mret None
  | Some l =>
      _ ← (if bool_decide (length l = 1%nat) then
             c ← lift (vec_at l 0); cout ("First cond: " ++ c ++ "\n")
           else
             n ← lift (show_size (Z.of_nat (length l))); cout ("Cond size is " ++ n ++ "\n"));
      out ← mapM Conditions_new l;
      mret (Some out)
  end.

(** ** Parsing a comparison *)

Definition cmp_ops : list str :=
  ["=" : str; "<" : str; ">" : str; "<=" : str; ">=" : str; "!=" : str; "<>" : str].

Definition is_cmp_char (c : ascii) : bool :=
  existsb (fun d => bool_decide (c = d)) ["="%char; "<"%char; ">"%char; "!"%char].

(** A comparison as it is written; [None] is a comparison without group. *)
Record comparison_text := {
  ct_group : option Z; ct_column : str; ct_op : str; ct_value : str
}.

Record wf_comparison (t : comparison_text) : Prop := {
  wfc_group : match ct_group t with
              | Some g => INT_MIN < g <= INT_MAX
              | None => "."%char ∉ ct_value t
              end;
  wfc_column : Forall (fun c => is_cmp_char c = false /\ c <> "."%char) (ct_column t);
  wfc_op : ct_op t ∈ cmp_ops;
  wfc_value : match ct_value t with
              | [] => True
              | c :: _ => c <> "="%char /\ c <> ">"%char
              end;
  wfc_size : size (ct_column t) + size (ct_value t) < 2 ^ 30;
}.

Definition show_comparison (t : comparison_text) : outcome str :=
  g ← match ct_group t with Some g => s ← itoa g; Ok (s ++ ["."%char]) | None => Ok [] end;
  Ok (g ++ ct_column t ++ ct_op t ++ ct_value t).

(** What the constructor makes of it: ["<>"] becomes ["!="], single quotes
    become double quotes. *)
Definition meaning (t : comparison_text) : Condition :=
  MkCondition (default 0 (ct_group t)) (ct_column t)
    (if str_eqb (ct_op t) "<>" then "!=" : str else ct_op t)
    (replace_char "'" "\q" (ct_value t)).

Lemma occurrences_le c s : occurrences [c] s <= size s.
Proof.
  induction s as [|d s IH]; [done|]. rewrite size_cons. cbn [occurrences].
  destruct (starts_with _ _); lia.
Qed.

Lemma size_replace_char c d s : size (replace_char c [d] s) = size s.
Proof.
  induction s as [|x s IH]; [done|]. simpl. rewrite size_app, size_cons, IH.
  destruct (bool_decide _); change (size [?x]) with 1; lia.
Qed.

Lemma str_replace_quotes s :
  size s < 2 ^ 32 ->
  str_replace (S (length s)) "'" "\q" s = Ok (replace_char "'" "\q" s).
Proof.
  intros Hs. change (lit "'") with ["'"%char]. change (lit "\q") with ["034"%char].
  apply (str_replace_char _ "'" ["034"%char] []).
  - apply not_elem_of_nil.
  - intros H. by apply list_elem_of_singleton in H.
  - rewrite size_replace_char, size_nil. unfold npos. lia.
  - pose proof (occurrences_le "'" s). unfold size in *. lia.
Qed.

Section comparison.
Context (col op val : str).
Context (Hcol : Forall (fun c => is_cmp_char c = false /\ c <> "."%char) col).
Context (Hop : op ∈ cmp_ops).
Context (Hval : match val with [] => True | c :: _ => c <> "="%char /\ c <> ">"%char end).
Context (Hsize : size col + size val < 2 ^ 30).

Local Lemma not_in_col c : is_cmp_char c = true -> c ∉ col.
Proof using Hcol.
  intros Hc Hin. rewrite Forall_forall in Hcol. destruct (Hcol c Hin). congruence.
Qed.

Local Lemma op_cases (P : str -> Prop) : Forall P cmp_ops -> P op.
Proof using Hop. rewrite Forall_forall. auto. Qed.

Local Lemma op_size : 1 <= size op <= 2.
Proof using Hop. apply (op_cases (fun o => 1 <= size o <= 2)). repeat constructor; by compute. Qed.

Lemma index_spec :
  strpos_m (col ++ op ++ val) ["=" : str; "<" : str; ">" : str; "!" : str] = Ok (size col).
Proof using Hcol Hop Hsize.
  pose proof op_size. rewrite strpos_m_spec; [|by repeat constructor|size_lia].
  rewrite first_match_skip by (repeat constructor; by apply not_in_col).
  replace (first_match _ (op ++ val)) with (Some 0%nat).
  { simpl. rewrite Nat.add_0_r. done. }
  symmetry. apply (op_cases (fun o => first_match _ (o ++ val) = Some 0%nat)).
  repeat constructor.
Qed.

Lemma index2_spec :
  exists i, strpos_m (col ++ op ++ val) ["<=" : str; ">=" : str; "!=" : str; "<>" : str] = Ok i
  /\ (size col =? i) = (size op =? 2).
Proof using Hcol Hop Hval Hsize.
  pose proof op_size. rewrite strpos_m_spec; [|by repeat constructor|size_lia].
  rewrite first_match_skip by (repeat constructor; by apply not_in_col).
  eexists. split; [reflexivity|].
  assert (Hm : match first_match ["<=" : str; ">=" : str; "!=" : str; "<>" : str] (op ++ val)
    with Some O => size op = 2 | _ => size op = 1 end).
  { clear -Hop Hval. revert Hval. apply (op_cases (fun o => match val with [] => True | c :: _ => _ end ->
      match first_match _ (o ++ val) with Some O => size o = 2 | _ => size o = 1 end)).
    destruct val as [|c v]; [repeat constructor|].
    assert (Hne : c <> "="%char /\ c <> ">"%char ->
      bool_decide ("="%char = c) = false /\ bool_decide (">"%char = c) = false)
      by (intros [? ?]; split; by apply bool_decide_false).
    unfold cmp_ops. forall_list ltac:(intros [H1 H2]%Hne; lits; cbn [app];
      rewrite first_match_cons; generalize (first_match
        [["<"%char; "="%char]; [">"%char; "="%char]; ["!"%char; "="%char]; ["<"%char; ">"%char]]);
      intros f; cbn; rewrite ?H1, ?H2; cbn; by destruct (f _)). }
  destruct (first_match _ _) as [[|k]|]; simpl.
  - rewrite Nat.add_0_r, Hm. by rewrite !Z.eqb_refl.
  - rewrite Hm, (proj2 (Z.eqb_neq _ _)) by (unfold size; lia). done.
  - rewrite Hm, (proj2 (Z.eqb_neq _ _)) by size_lia. done.
Qed.
End comparison.

(** The constructor from the position of the operator on. *)
Lemma Condition_body col op val g cond w :
  Forall (fun c => is_cmp_char c = false /\ c <> "."%char) col -> op ∈ cmp_ops ->
  match val with [] => True | c :: _ => c <> "="%char /\ c <> ">"%char end ->
  size col + size val < 2 ^ 30 ->
  Condition_group cond = Ok (g, col ++ op ++ val) ->
  Condition_new cond w =
    (Ok (MkCondition g col (if str_eqb op "<>" then "!=" : str else op)
           (replace_char "'" "\q" val)), w).
Proof.
  intros Hcol Hop Hval Hsize Hg. pose proof (op_size op Hop) as Hos.
  unfold Condition_new. rewrite M_bind_lift, Hg. cbv beta iota.
  rewrite M_bind_lift, index_spec by done. cbv beta iota.
  rewrite (to_size_t_small (size col)) by size_lia.
  rewrite M_bind_lift, substr_app_l. cbv beta iota.
  rewrite (proj2 (Z.eqb_neq (size col) (-1))) by size_lia.
  destruct (index2_spec col op val Hcol Hop Hval Hsize) as (i & Ei & Hi).
  rewrite M_bind_lift, Ei. cbv beta iota. rewrite Hi.
  replace (if size op =? 2 then _ else _) with
    (@Ok (str * str) (if str_eqb op "<>" then "!=" : str else op, val)).
  - rewrite M_bind_lift. cbv beta iota. rewrite M_bind_lift, str_replace_quotes; [done|size_lia].
  - assert (E1 : substr (col ++ op ++ val) (size col) (size op) = Ok op) by apply substr_mid.
    assert (E2 : substr_from (col ++ op ++ val) (size col + size op) = Ok val).
    { rewrite app_assoc, <- size_app. apply substr_from_app. size_lia. }
    assert (size op = 2 \/ size op = 1) as [Hl|Hl] by lia; rewrite Hl in E1, E2 |- *.
    + rewrite (to_size_t_small (size col + 2)) by size_lia.
      change (2 =? 2) with true. cbv iota. by rewrite E1, obind_Ok, E2.
    + rewrite (to_size_t_small (size col + 1)) by size_lia.
      change (1 =? 2) with false. cbv iota. rewrite E1, obind_Ok, E2, obind_Ok.
      unfold str_eqb. rewrite bool_decide_false; [done|]. by intros ->.
Qed.

Lemma notin_dot_op op : op ∈ cmp_ops -> "."%char ∉ op.
Proof.
  intros Hop. apply (op_cases op Hop (fun o => "."%char ∉ o)).
  unfold cmp_ops. forall_list ltac:(lits; set_solver).
Qed.

Lemma Condition_group_show t s :
  wf_comparison t -> show_comparison t = Ok s ->
  Condition_group s = Ok (default 0 (ct_group t), ct_column t ++ ct_op t ++ ct_value t).
Proof.
  intros [Hg Hcol Hop _ Hsize] Hs. unfold show_comparison in Hs.
  pose proof (op_size _ Hop). unfold Condition_group.
  assert (Hcd : "."%char ∉ ct_column t).
  { intros Hin. rewrite Forall_forall in Hcol. by destruct (Hcol _ Hin). }
  destruct (ct_group t) as [g|].
  - destruct (atoi_itoa g Hg) as (n & En & Hn & Hns & _ & Hst).
    rewrite En, !obind_Ok in Hs. injection Hs as <-. rewrite <- app_assoc.
    set (rest := ct_column t ++ ct_op t ++ ct_value t).
    assert (size rest < 2 ^ 30 + 2) by (unfold rest; size_lia).
    change (["."%char] ++ rest) with ("."%char :: rest). pose proof (number_not_in "." n eq_refl ltac:(done) Hn) as Hd.
    change (lit ".") with ["."%char].
    unfold find_char. rewrite bool_decide_true.
    2:{ unfold find. rewrite find_char_app by done. unfold npos, size in *. lia. }
    rewrite split_spec by (done || size_lia). simpl. by rewrite Hst.
  - rewrite obind_Ok in Hs. injection Hs as <-. unfold find_char.
    rewrite bool_decide_false; [done|]. intros Hf. apply Hf. unfold find.
    rewrite (proj2 (find_char_None _ _)); [done|].
    pose proof (notin_dot_op _ Hop). set_solver.
Qed.

(** The constructor reads back every well-formed comparison. *)
Lemma Condition_new_show t s w :
  wf_comparison t -> show_comparison t = Ok s ->
  Condition_new s w = (Ok (meaning t), w).
Proof.
  intros Hwf Hs. pose proof (Condition_group_show t s Hwf Hs) as Hg.
  destruct Hwf. by eapply Condition_body.
Qed.

(** ** Parsing a clause *)

(** The pieces of [op1 c1 op2 c2 ...]. *)
Definition clause_pieces (rest : list (str * str)) : list str :=
  concat (map (fun p => [p.1; p.2]) rest).

(** The text of a clause: comparisons and operators separated by spaces. *)
Definition clause_text (s0 : str) (rest : list (str * str)) : str :=
  s0 ++ concat (map (fun p => " " ++ p.1 ++ " " ++ p.2) rest).

Definition word (s : str) : Prop := (" "%char ∉ s) /\ ltrim s <> [].

(** The comparison a text stands for. *)
Definition denotes (t : comparison_text) (s : str) : Prop :=
  wf_comparison t /\ show_comparison t = Ok s.

Lemma clause_text_join s0 rest op s :
  clause_text s0 (rest ++ [(op, s)]) = join " " (s0 :: clause_pieces rest ++ [op]) s.
Proof.
  unfold clause_text, clause_pieces. simpl. f_equal.
  induction rest as [|[o t] rest IH]; simpl.
  - by rewrite app_nil_r.
  - rewrite IH. by rewrite <- !app_assoc.
Qed.

Lemma ltrim_not_nil s : ltrim s <> [] -> s <> [].
Proof. by intros H ->. Qed.

Lemma Conditions_loop_pairs rest ts i cs w :
  Z.rem i 2 = 1 -> 0 <= i ->
  Forall2 (fun p t => denotes t p.2) rest ts ->
  Conditions_loop (clause_pieces rest) i cs w =
    (Ok (MkConditions (conds cs ++ map meaning ts) (ops cs ++ map fst rest)), w).
Proof.
  intros Hi Hp Hr. revert i cs Hi Hp.
  induction Hr as [|[op s] t rest ts [Hwf Hs] _ IH]; intros i cs Hi Hp.
  - simpl. rewrite !app_nil_r. by destruct cs.
  - change (clause_pieces ((op, s) :: rest)) with (op :: s :: clause_pieces rest).
    cbn [Conditions_loop]. rewrite Hi. change (1 =? 0) with false. cbv iota.
    assert (He : Z.rem (i + 1) 2 = 0 /\ Z.rem (i + 1 + 1) 2 = 1).
    { rewrite !Z.rem_mod_nonneg in * by lia.
      split; [|replace (i + 1 + 1) with (i + 1 * 2) by lia; by rewrite Z_mod_plus_full].
      rewrite Z.add_mod, Hi by lia. done. }
    destruct He as [E1 E2]. rewrite E1. change (0 =? 0) with true. cbv iota.
    rewrite (M_bind_ok (Condition_new_show t s w Hwf Hs)).
    rewrite IH by (done || lia). simpl. by rewrite <- !app_assoc.
Qed.

(** [Conditions] reads back a clause of space-separated comparisons. *)
Lemma Conditions_new_show s0 t0 rest ts w :
  denotes t0 s0 -> word s0 ->
  Forall2 (fun p t => denotes t p.2) rest ts ->
  Forall (fun p => word p.1 /\ word p.2) rest ->
  size (clause_text s0 rest) < 2 ^ 63 ->
  Conditions_new (clause_text s0 rest) w =
    (Ok (MkConditions (map meaning (t0 :: ts)) (map fst rest)), w).
Proof.
  intros [Hwf Hs] [Hsp Hl] Hr Hw Hb. unfold Conditions_new.
  destruct rest as [|[op s] rest _] using rev_ind.
  - inversion Hr; subst. unfold clause_text in *. simpl in *. rewrite app_nil_r in *.
    rewrite bool_decide_true.
    + by rewrite (M_bind_ok (Condition_new_show t0 s0 w Hwf Hs)).
    + unfold find_char, find. by rewrite (proj2 (find_char_None _ _)).
  - rewrite bool_decide_false.
    2:{ unfold find_char, find, clause_text. rewrite map_app, concat_app. simpl.
        rewrite app_nil_r. destruct (find_nat _ _) as [k|] eqn:E.
        - apply find_nat_lt in E. unfold clause_text in Hb.
          rewrite map_app, concat_app in Hb. simpl in Hb. rewrite app_nil_r in Hb.
          unfold size, npos in *. simpl in *. lia.
        - intros _. apply find_char_None in E. apply E. change (lit " ") with [" "%char].
          set_solver. }
    rewrite clause_text_join in *. apply Forall_app in Hw as [Hw Hop].
    apply Forall_singleton in Hop as [[Hops Hopl] [Hss Hsl]].
    rewrite (@M_bind_ok _ _ _ _ _ (s0 :: (clause_pieces rest ++ [op]) ++ [s]) w).
    2:{ apply c_explode_join; [done| |by apply drop1_notin|done|].
        2:{ change (lit " ") with [" "%char] in Hb. lia. }
        apply Forall_app. split.
        - clear -Hw. induction Hw as [|[o t] rest [[Ho Ho'] [Ht Ht']] _ IH]; [constructor|].
          simpl in *. repeat (apply Forall_cons; split; [|try done]);
            by (split; [by apply ltrim_not_nil|by apply drop1_notin]).
        - repeat constructor; [by apply ltrim_not_nil|by apply drop1_notin]. }
    cbn [Conditions_loop]. change (Z.rem 0 2 =? 0) with true. cbv iota.
    rewrite (M_bind_ok (Condition_new_show t0 s0 w Hwf Hs)).
    rewrite <- app_assoc. simpl app.
    replace (clause_pieces rest ++ [op; s]) with (clause_pieces (rest ++ [(op, s)])).
    + by rewrite (Conditions_loop_pairs _ ts).
    + unfold clause_pieces. by rewrite map_app, concat_app.
Qed.
