(* ===== verification/Config.v ===== *)
(** * lib/config.h: the compiled-in configuration, and loops shared by the
    generators *)

From S2P Require Import Prelude Cxx.

Definition TABLE : str := "test".
Definition DATABASE : str := "CS562".
Definition MYSQL_LOCATION : str := "tcp://127.0.0.1:3306".
Definition MYSQL_USERNAME : str := "root".
Definition MYSQL_PASSWORD : str := "password".

(** The values of [i] in [for(int i = 0; i <= n; i++)]. *)
Definition upto (n : Z) : list Z := seqZ 0 (n + 1).

(** [out += f(x)] for each element in turn. *)
Fixpoint append_each {A} (f : A -> outcome str) (l : list A) : outcome str :=
  match l with
  | [] => Ok []
  | x :: l' => t ← f x; r ← append_each f l'; Ok (t ++ r)
  end.

Fixpoint append_eachM {A} (f : A -> M str) (l : list A) : M str :=
  match l with
  | [] => mret []
  | x :: l' => t ← f x; r ← append_eachM f l'; mret (t ++ r)
  end.

Lemma upto_elem n i : i ∈ upto n <-> 0 <= i <= n.
Proof. unfold upto. rewrite elem_of_seqZ. lia. Qed.

Lemma append_each_ok {A} (f : A -> outcome str) (g : A -> str) l :
  Forall (fun x => f x = Ok (g x)) l -> append_each f l = Ok (concat (map g l)).
Proof. induction 1 as [|x l Hx _ IH]; simpl; [done|]. by rewrite Hx, obind_Ok, IH. Qed.

Lemma append_each_app {A} (f : A -> outcome str) l1 l2 :
  append_each f (l1 ++ l2) = (a ← append_each f l1; b ← append_each f l2; Ok (a ++ b)).
Proof.
  induction l1 as [|x l1 IH]; simpl.
  - by destruct (append_each f l2).
  - rewrite IH. destruct (f x); simpl; try done.
    destruct (append_each f l1); simpl; try done.
    destruct (append_each f l2); simpl; try done. by rewrite app_assoc.
Qed.

Lemma append_each_total {A} (f : A -> outcome str) l :
  Forall (fun x => exists t, f x = Ok t) l -> exists t, append_each f l = Ok t.
Proof.
  induction 1 as [|x l [t Ht] _ [r Hr]]; simpl; [by exists []|].
  rewrite Ht, obind_Ok, Hr, obind_Ok. by exists (t ++ r).
Qed.

Lemma ensures_append_eachM {A} (f : A -> M str) l :
  Forall (fun x => ensures (f x) (fun _ => True)) l ->
  ensures (append_eachM f l) (fun _ => True).
Proof.
  induction 1 as [|x l Hx _ IH]; simpl.
  - by apply ensures_ret.
  - eapply ensures_bind; [exact Hx|]. intros t _.
    eapply ensures_bind; [exact IH|]. intros r _. by apply ensures_ret.
Qed.
