(* ===== verification/Generators.v ===== *)
(** * lib/helpers.cpp, lib/structures.cpp, lib/query.cpp: text generators

    The parts of the emitted program that do not depend on the scans: the
    look-up helpers, the structures, the result printer and the data
    retrieval.  C++ string concatenation is [++]; the emitted text is kept
    character for character. *)

From S2P Require Import Prelude Cxx Str Config Column Aggregate.

(** ** lib/helpers.cpp *)

(** [struct ct]: [type] stays uninitialised ([None]) when no column name
    occurs in the attribute. *)
Record ct := MkCt { ct_name : str; ct_type : option Z }.

Definition get_ct (select_columns : list str) (columns : list Column) : list ct :=
  map (fun s => MkCt s (col_ctype <$> column_in s columns)) select_columns.

Definition unsupported : exn :=
  CMessage "Date, Raw, and Vector C++ types are not supported!".

(** The [switch] on the type of an attribute: the equality test between two
    expressions of that type. *)
Definition ct_equals (type : Z) (string_test number_test : str) : outcome str :=
  if type =? CPP_STRING then Ok string_test
  else if (type =? CPP_INT64) || (type =? CPP_FLOAT) || (type =? CPP_DOUBLE) then
    Ok number_test
  else if (type =? CPP_DATE) || (type =? CPP_RAW) || (type =? CPP_VECTOR) then
    Throw unsupported
  else Ok [].

(** The inner loop: the parameters of [vfind] and its test. *)
Fixpoint vfind_parts (cols : list ct) (first : bool) (arg comp : str) : outcome (str * str) :=
  match cols with
  | [] => Ok (arg, comp)
  | c :: cols' =>
      type ← deref (ct_type c);
      t ← ct_equals type
            (ct_name c ++ ".compare((*it)->" ++ ct_name c ++ ") == 0")
            (ct_name c ++ " == " ++ "(*it)->" ++ ct_name c);
      vfind_parts cols' false
        (arg ++ ", " ++ getOutCppType type ++ " " ++ ct_name c)
        ((if first then comp else comp ++ " && ") ++ t)
  end.

(** One [vfind] function. *)
Definition vfind_text (cols : list ct) (i : Z) : outcome str :=
  n ← itoa i;
  p ← vfind_parts cols true [] [];
  let '(vfind_arg, vfind_comp) := p in
  Ok ("int vfind" ++ n ++ "(vector<struct group" ++ n ++ "*>* data " ++
      vfind_arg ++ "){\n" ++
      "\t size_t index = 0;\n" ++
      "\tfor(vector<struct group" ++ n ++
      "*>::iterator it = data->begin(); it != data->end(); it++){\n" ++
      "\t\tif(" ++ vfind_comp ++ "){\n" ++
      "\t\t\treturn index;\n" ++
      "\t\t}\n" ++
      "\t\tindex++;\n" ++
      "\t}\n" ++
      "\t return -1;\n" ++
      "}\n").

(** The test of [is_unique]. *)
Fixpoint unique_test (cols : list ct) (first : bool) : outcome str :=
  match cols with
  | [] => Ok []
  | c :: cols' =>
      type ← deref (ct_type c);
      t ← ct_equals type
            ("entry->" ++ ct_name c ++ ".compare((*it)->" ++ ct_name c ++ ") == 0")
            ("entry->" ++ ct_name c ++ " == " ++ "(*it)->" ++ ct_name c);
      r ← unique_test cols' false;
      Ok ((if first then [] else " && " : str) ++ t ++ r)
  end.

Definition get_helpers (no_grouping_vars : Z) (grouping_attr : list str)
    (columns : list Column) : outcome str :=
  let cols := get_ct grouping_attr columns in
  vfinds ← append_each (vfind_text cols) (upto no_grouping_vars);
  test ← unique_test cols true;
  Ok (vfinds ++
      "bool is_unique(vector<struct sales*>* data,struct sales* entry){\n" ++
      "\tfor(vector<struct sales*>::iterator it = data->begin();it != data->end();it++){\n" ++
      "\t\tif(" ++ test ++
      "){\n" ++
      "\t\t\treturn false;\n" ++
      "\t\t}\n" ++
      "\t}\n" ++
      "\treturn true;\n" ++
      "}\n" ++
      "vector<struct sales*>* get_uniques(vector<struct sales*>* data){\n" ++
      "\tvector<struct sales*>* out = new vector<struct sales*>();\n" ++
      "\tfor(vector<struct sales*>::iterator it = data->begin();it != data->end();it++){\n" ++
      "\t\tif(is_unique(out,*it)){\n" ++
      "\t\t\tout->push_back(*it);\n" ++
      "\t\t}\n" ++
      "\t}\n" ++
      "\treturn out;\n" ++
      "}\n").

(** ** lib/structures.cpp *)

Definition create_output_printer (select_attribute : list str) (columns : list Column)
    : M str :=
  let head := concat (map (fun a => a ++ "|") select_attribute) in
  body ← append_eachM (fun name =>
    agg ← lift (isAggregate name);
    if (agg : bool) then
      tmp ← Aggregate_new name;
      v ← lift (toABSVar tmp);
      mret ("<<" ++ "(*it)->" ++ v ++ "<<\q|\q")
    else mret ("<<" ++ "(*it)->" ++ name ++ "<<\q|\q")) select_attribute;
  mret ("void print_mf_structure(vector<struct mf_structure*>* mf_struct){\n" ++
        "\tcout<<\q|" ++
        head ++
        "\q<<endl;\n" ++
        "\tfor(auto it = mf_struct->begin(); it != mf_struct->end(); it++){\n" ++
        "\t\tcout<<\q|\q" ++
        body ++
        "<<endl;\n" ++
        "\t}\n" ++
        "}\n").

(** The C++ type of the first matching column, empty when there is none. *)
Definition type_of (c : option Column) : str :=
  match c with Some c => getOutCppType (col_type c) | None => [] end.

Definition create_structures (select_attribute : list str) (columns : list Column) : M str :=
  fields ← append_eachM (fun name =>
    let type := type_of (column_in name columns) in
    agg ← lift (isAggregate name);
    if (agg : bool) then
      tmp ← Aggregate_new name;
      v ← lift (toABSVar tmp);
      let type := if str_eqb type "string" then "int64_t" : str else type in
      mret ("\t" ++ type ++ " " ++ v ++ ";\n")
    else mret ("\t" ++ type ++ " " ++ name ++ ";\n")) select_attribute;
  mret ("struct mf_structure {\n" ++ fields ++ "};\n" ++
        "struct sales{\n" ++
        concat (map (fun c => "\t" ++ getOutCppType (col_type c) ++ " " ++ col_name c ++ ";\n")
                  columns) ++
        "};\n").

Definition group_member (columns : list Column) (a : Aggregate) : str :=
  let type := type_of (column_in (agg_column a) columns) in
  let type := if str_eqb (agg_func a) "count" then "int64_t" : str else type in
  if func_is a "avg" "AVG" then "\tAverage<" ++ type ++ "> " ++ toVar a ++ ";\n"
  else "\t" ++ type ++ " " ++ toVar a ++ ";\n".

Definition create_grouping_var_structs (no : Z) (columns : list Column)
    (select_columns : list str) (all_aggregates : list Aggregate) : outcome str :=
  append_each (fun i =>
    n ← itoa i;
    Ok ("struct group" ++ n ++ "{\n" ++
        concat (map (fun name =>
          "\t" ++ type_of (column_named name columns) ++ " " ++ name ++ ";\n") select_columns) ++
        concat (map (group_member columns)
          (List.filter (fun a => agg_group a =? i) all_aggregates)) ++
        "};\n")) (upto no).

(** ** lib/query.cpp *)

Definition get_sql_res_function (type : Z) : str :=
  switch type
    [ ([CPP_DATE; CPP_STRING], "getString" : str);
      ([CPP_INT64], "getInt" : str);
      ([CPP_FLOAT], "getFloat" : str);
      ([CPP_DOUBLE], "getDouble" : str) ]
    ("getString" : str).

Definition data_retrieval (columns : list Column) (where_ : str) : str :=
  "\tSQLConn* conn = new SQLConn(\q" ++ DATABASE ++ "\q);\n" ++
  "\tres = conn->fetch(\qSELECT * FROM " ++ TABLE ++
  " WHERE " ++ where_ ++
  "\q);\n" ++
  "\tvector<struct sales*>* data = new vector<struct sales*>();\n" ++
  "\twhile(res->next()){\n" ++
  "\t\tstruct sales* entry = (struct sales*)calloc(1,sizeof(struct sales));\n" ++
  concat (map (fun c => "\t\tentry->" ++ col_name c ++ " = res->" ++
    get_sql_res_function (col_ctype c) ++ "(\q" ++ col_name c ++ "\q);\n") columns) ++
  "\t\tdata->push_back(entry);\n" ++
  "\t}\n" ++
  "\tdelete res;\n".
