(* ===== verification/ScanGenerator.v ===== *)
(** * lib/objects/scan_generator.{h,cpp}: the scans of the emitted program

    The preliminary scan builds the groups, one scan per grouping variable
    computes its aggregates (MF: the position of a row is looked up; EMF: every
    group meets every row), and the last one fills and filters the result. *)

From S2P Require Import Prelude Cxx Str Config Column Aggregate Condition.

Record Scan_Generator := MkScan_Generator {
  no_grouping_vars : Z;
  sg_columns : list Column;
  sg_select_columns : list str;
  select_aggregates : list Aggregate;
  all_aggregates : list Aggregate;
  select_conditions : option (list Conditions);
  having : str;
  grouping_attr : list str;
  emf : bool;
}.

(** [parse_having] *)
Definition having_token (g : Scan_Generator) (t : str) : M str :=
  agg ← lift (isAggregate t);
  if (agg : bool) then
    tmp ← Aggregate_new t;
    n ← lift (itoa (agg_group tmp));
    mret ("data" ++ n ++ "->at(pos)->" ++ toVar tmp ++
          (if func_is tmp "avg" "AVG" then ".value()" : str else []))
  else if isColumn t (sg_columns g) then mret ("data->" ++ t)
  else mret (t : str).

Fixpoint having_loop (g : Scan_Generator) (expl : list str) (first : bool) : M str :=
  match expl with
  | [] => mret []
  | t :: expl' =>
      a ← having_token g t;
      r ← having_loop g expl' false;
      mret ((if first then [] else " " : str) ++ a ++ r)
  end.

Definition parse_having (g : Scan_Generator) : M str :=
  if size (having g) <? 1 then mret ("true" : str)
  else
    expl ← c_explode " " (having g);
    having_loop g expl true.

Definition get_selection_cond (g : Scan_Generator) (group : Z) : M str :=
  if group =? 0 then mret ("true" : str)
  else
    l ← lift (deref (select_conditions g));
    c ← lift (vec_at l (to_size_t (group - 1)));
    Conditions_toCpp c "(*it)" "(*xt)" (grouping_attr g) (sg_columns g).

(** [out.at(group).push_back(a)] *)
Definition push_group (out : list (list Aggregate)) (a : Aggregate)
    : outcome (list (list Aggregate)) :=
  let i := to_size_t (agg_group a) in
  l ← vec_at out i;
  Ok (<[Z.to_nat i := l ++ [a]]> out).

Fixpoint push_groups (out : list (list Aggregate)) (l : list Aggregate)
    : outcome (list (list Aggregate)) :=
  match l with
  | [] => Ok out
  | a :: l' => out' ← push_group out a; push_groups out' l'
  end.

Definition group_aggregates (g : Scan_Generator) : outcome (list (list Aggregate)) :=
  push_groups (map (fun _ => []) (upto (no_grouping_vars g))) (all_aggregates g).

Definition prelim_scan (g : Scan_Generator) : outcome str :=
  decls ← append_each (fun i =>
    n ← itoa i;
    Ok ("\tvector<struct group" ++ n ++ "*>* data" ++ n ++
        " = new vector<struct group" ++ n ++ "*>();\n")) (upto (no_grouping_vars g));
  groups ← append_each (fun i =>
    n ← itoa i;
    let type := "struct group" ++ n in
    let var := "entry" ++ n in
    Ok ("\t\t" ++ type ++ "* " ++ var ++ " = (" ++ type ++ "*)calloc(1,sizeof(" ++
        type ++ "));\n" ++
        concat (map (fun c => "\t\t" ++ var ++ "->" ++ c ++ " = " ++ "(*it)->" ++ c ++ ";\n")
                  (sg_select_columns g)) ++
        "\t\tdata" ++ n ++ "->push_back(" ++ var ++ ");\n")) (upto (no_grouping_vars g));
  Ok ("\tvector<struct sales*>* uniques = get_uniques(data);\n" ++
      decls ++
      "\tfor(vector<struct sales*>::iterator it = uniques->begin();it != uniques->end();it++){\n" ++
      "\t\tstruct mf_structure* entry = (struct mf_structure*)calloc(1,sizeof(struct mf_structure));\n" ++
      concat (map (fun c => "\t\tentry->" ++ c ++ " = " ++ "(*it)->" ++ c ++ ";\n")
                (sg_select_columns g)) ++
      "\t\tmf_struct->push_back(entry);\n" ++
      groups ++
      "\t}\n").

(** The statement that updates an aggregate with the row [var]. *)
Definition update_text (var : str) (a : Aggregate) : outcome str :=
  n ← itoa (agg_group a);
  let name := "data" ++ n in
  let field := toVar a in
  Ok (if func_is a "avg" "AVG" then
        "\t\t\t" ++ name ++ "->at(pos)->" ++ field ++ ".add(" ++ var ++ "->" ++
        agg_column a ++ ");\n"
      else if func_is a "sum" "SUM" then
        "\t\t\t" ++ name ++ "->at(pos)->" ++ field ++ " += " ++ var ++ "->" ++
        agg_column a ++ ";\n"
      else if func_is a "count" "COUNT" then
        "\t\t\t" ++ name ++ "->at(pos)->" ++ field ++ " += 1;\n"
      else if func_is a "min" "MIN" then
        "\t\t\tif(" ++ name ++ "->at(pos)->" ++ field ++ "> " ++ var ++ "->" ++
        agg_column a ++ "){\n" ++
        "\t\t\t\t" ++ name ++ "->at(pos)->" ++ field ++ " = " ++ var ++ "->" ++
        agg_column a ++ ";\n" ++
        "\t\t\t}\n"
      else if func_is a "max" "MAX" then
        "\t\t\tif(" ++ name ++ "->at(pos)->" ++ field ++ "< " ++ var ++ "->" ++
        agg_column a ++ "){\n" ++
        "\t\t\t\t" ++ name ++ "->at(pos)->" ++ field ++ " = " ++ var ++ "->" ++
        agg_column a ++ ";\n" ++
        "\t\t\t}\n"
      else []).

(** The scans number the groups by position. *)
Fixpoint scan_groups (scan : Z -> list Aggregate -> M str) (i : Z)
    (groups : list (list Aggregate)) : M str :=
  match groups with
  | [] => mret []
  | xt :: groups' =>
      t ← scan i xt;
      r ← scan_groups scan (i + 1) groups';
      mret (t ++ r)
  end.

Definition aggregate_scan (g : Scan_Generator) : M str :=
  groups ← lift (group_aggregates g);
  scan_groups (fun i xt =>
    cond ← get_selection_cond g i;
    n ← lift (itoa i);
    updates ← lift (append_each (update_text "(*it)") xt);
    mret ("\tfor(auto it = data->begin(); it != data->end();it++){\n" ++
          "\t\tsize_t pos;\n" ++
          "\t\tif(" ++ cond ++ "){\n" ++
          "\t\t\tpos = vfind" ++ n ++ "(data" ++ n ++
          concat (map (fun a => ",(*it)->" ++ a) (grouping_attr g)) ++
          ");\n" ++
          updates ++
          "\t\t}\n" ++
          "\t}\n")) 0 groups.

Definition emf_aggregate_scan (g : Scan_Generator) : M str :=
  groups ← lift (group_aggregates g);
  scan_groups (fun i xt =>
    cond ← get_selection_cond g i;
    updates ← lift (append_each (update_text "(*xt)") xt);
    mret ("\tfor(auto it = uniques->begin();it != uniques->end();it++)\n" ++
          "\t\tfor(auto xt = data->begin(); xt != data->end();xt++){\n" ++
          "\t\tif(" ++ cond ++ "){\n" ++
          "\t\t\tsize_t pos = it - uniques->begin();\n" ++
          updates ++
          "\t\t}\n" ++
          "\t}\n")) 0 groups.

Definition fill_mfstruct (g : Scan_Generator) : M str :=
  let vfind_arg := concat (map (fun a => ",(*it)->" ++ a) (grouping_attr g)) in
  cond ← parse_having g;
  fields ← lift (append_each (fun a =>
    group ← itoa (agg_group a);
    v ← toABSVar a;
    Ok ("\t\t(*it)->" ++ v ++ " = data" ++ group ++ "->at(pos)->" ++ toVar a ++
        (if func_is a "avg" "AVG" then ".value()" : str else []) ++ ";\n"))
    (select_aggregates g));
  mret ("\tfor(auto it = mf_struct->begin();it != mf_struct->end(); it++){\n" ++
        "\t\tint pos = vfind0(data0" ++ vfind_arg ++ ");\n" ++
        "\t\tif(!(" ++ cond ++ ")" ++
        "){\n" ++
        "\t\t\tmf_struct->erase(it);\n" ++
        "\t\t\tit--;\n" ++
        "\t\t\tcontinue;\n" ++
        "\t\t}\n" ++
        "\t\tif(pos == -1){\n" ++
        "\t\t\tmf_struct->erase(it);\n" ++
        "\t\t\tit--;\n" ++
        "\t\t\tcontinue;\n" ++
        "\t\t}\n" ++
        fields ++
        "\t}\n").

Definition generate (g : Scan_Generator) : M str :=
  a ← lift (prelim_scan g);
  b ← (if emf g then emf_aggregate_scan g else aggregate_scan g);
  c ← fill_mfstruct g;
  mret (a ++ b ++ c).

(** ** Facts: grouping the aggregates *)

(** The aggregates of one grouping variable, in their order. *)
Definition of_group (i : Z) (l : list Aggregate) : list Aggregate :=
  List.filter (fun a => agg_group a =? i) l.

Lemma push_groups_spec out l :
  Forall (fun a => 0 <= agg_group a < Z.of_nat (length out)) l ->
  Z.of_nat (length out) < 2 ^ 64 ->
  push_groups out l = Ok (imap (fun i x => x ++ of_group (Z.of_nat i) l) out).
Proof.
  intros Hl Hb. revert out Hl Hb. induction l as [|a l IH]; intros out Hl Hb; simpl.
  - f_equal. apply list_eq. intros i. rewrite list_lookup_imap.
    destruct (out !! i); simpl; [by rewrite app_nil_r|done].
  - apply Forall_cons in Hl as [Ha Hl]. unfold push_group, vec_at.
    rewrite to_size_t_small by lia. rewrite decide_True by lia.
    destruct (lookup_lt_is_Some_2 out (Z.to_nat (agg_group a))) as [x Hx]; [lia|].
    rewrite Hx, !obind_Ok, IH by (rewrite ?length_insert; done).
    f_equal. apply list_eq. intros i. rewrite !list_lookup_imap.
    rewrite list_lookup_insert. case_decide as Hi.
    + destruct Hi as [<- Hi]. rewrite Hx. simpl. rewrite Z2Nat.id, Z.eqb_refl by lia.
      by rewrite <- app_assoc.
    + destruct (out !! i) as [y|] eqn:Ey; simpl; [|done].
      rewrite (proj2 (Z.eqb_neq _ _)); [done|]. intros E. apply Hi.
      split; [lia|]. apply lookup_lt_Some in Ey. lia.
Qed.

Lemma imap_const {A B} (f : nat -> B) (l : list A) :
  imap (fun i _ => f i) l = map f (seq 0 (length l)).
Proof.
  apply list_eq. intros i. rewrite list_lookup_imap, list_lookup_fmap.
  destruct (decide (i < length l)%nat) as [Hi|Hi].
  - destruct (lookup_lt_is_Some_2 l i Hi) as [x ->].
    rewrite lookup_seq_lt by done. done.
  - rewrite lookup_ge_None_2, lookup_seq_ge by lia. done.
Qed.

Lemma length_upto n : 0 <= n -> length (upto n) = Z.to_nat (n + 1).
Proof. intros. unfold upto. by rewrite length_seqZ. Qed.

(** The aggregates are partitioned by their grouping variable, 0 included,
    without changing their order. *)
Lemma group_aggregates_spec g :
  0 <= no_grouping_vars g < 2 ^ 31 ->
  Forall (fun a => 0 <= agg_group a <= no_grouping_vars g) (all_aggregates g) ->
  group_aggregates g =
    Ok (map (fun i => of_group i (all_aggregates g)) (upto (no_grouping_vars g))).
Proof.
  intros Hn Hl. unfold group_aggregates.
  assert (Hlen : length (map (fun _ : Z => @nil Aggregate) (upto (no_grouping_vars g))) =
    Z.to_nat (no_grouping_vars g + 1)) by (rewrite length_map; apply length_upto; lia).
  rewrite push_groups_spec.
  - f_equal. apply list_eq. intros i. rewrite list_lookup_imap, !list_lookup_fmap.
    unfold upto. destruct (decide (i < Z.to_nat (no_grouping_vars g + 1))%nat) as [Hi|Hi].
    + rewrite lookup_seqZ_lt by lia. simpl. by rewrite Z.add_0_l.
    + rewrite lookup_seqZ_ge by lia. done.
  - eapply Forall_impl; [exact Hl|]. simpl. intros a Ha. lia.
  - lia.
Qed.

Lemma push_groups_throws out l :
  Exists (fun a => INT_MIN <= agg_group a <= INT_MAX /\
                   ~ (0 <= agg_group a < Z.of_nat (length out))) l ->
  Forall (fun a => INT_MIN <= agg_group a <= INT_MAX) l ->
  Z.of_nat (length out) <= 2 ^ 31 ->
  push_groups out l = Throw OutOfRange.
Proof.
  revert out. induction l as [|a l IH]; intros out He Ha Hb; [by apply Exists_nil in He|].
  apply Forall_cons in Ha as [Hr Ha]. simpl. unfold push_group, vec_at.
  destruct (decide (0 <= agg_group a < Z.of_nat (length out))) as [Hin|Hout].
  - rewrite to_size_t_small by (unfold INT_MAX in *; lia). rewrite decide_True by done.
    destruct (lookup_lt_is_Some_2 out (Z.to_nat (agg_group a))) as [x Hx]; [lia|].
    rewrite Hx, !obind_Ok. apply IH; rewrite ?length_insert; [|done|done].
    apply Exists_cons in He as [[_ He]|He]; [done|done].
  - rewrite decide_False; [done|]. unfold INT_MIN, INT_MAX in *.
    destruct (Z.lt_ge_cases (agg_group a) 0).
    + rewrite to_size_t_neg by lia. lia.
    + rewrite to_size_t_small by lia. lia.
Qed.

(** An aggregate of a grouping variable that does not exist makes the
    generator throw. *)
Lemma group_aggregates_throws g :
  0 <= no_grouping_vars g < 2 ^ 31 - 1 ->
  Forall (fun a => INT_MIN <= agg_group a <= INT_MAX) (all_aggregates g) ->
  Exists (fun a => agg_group a < 0 \/ no_grouping_vars g < agg_group a) (all_aggregates g) ->
  group_aggregates g = Throw OutOfRange.
Proof.
  intros Hn Hl He. unfold group_aggregates. apply push_groups_throws; [|done|].
  - rewrite length_map, length_upto by lia. rewrite Forall_forall in Hl.
    rewrite Exists_exists in He |- *. destruct He as (a & Ha & Hr). exists a.
    split; [done|]. split; [by apply Hl|]. lia.
  - rewrite length_map, length_upto by lia. lia.
Qed.
