(* ===== verification/Average.v ===== *)
(** * lib/objects/average.{h,tcc}: running averages

    The template is modelled over an interface of the arithmetic of its
    parameter; [int64_t] is the instance the emitted programs use for integer
    columns. *)

From S2P Require Import Prelude.

(** What [Average] needs of [T]: zero, [+=] and division by an [int]. *)
Class Arith (T : Type) := {
  t_zero : T;
  t_add : T -> T -> outcome T;
  t_div : T -> Z -> outcome T;
}.

Record Average (T : Type) := MkAverage { avg_count : Z; avg_sum : T }.
Arguments MkAverage {T}.
Arguments avg_count {T}.
Arguments avg_sum {T}.

Section average.
Context {T : Type} `{Arith T}.

(** [Average<T>::Average()] *)
Definition Average_new : Average T := MkAverage 0 t_zero.

(** [Average<T>::add]: the sum is updated before the counter. *)
Definition add (a : Average T) (val : T) : outcome (Average T) :=
  sum ← t_add (avg_sum a) val;
  if in_int (avg_count a + 1) then Ok (MkAverage (avg_count a + 1) sum) else Undefined.

(** [Average<T>::value] *)
Definition value (a : Average T) : outcome T :=
  if avg_count a =? 0 then Ok t_zero else t_div (avg_sum a) (avg_count a).

Fixpoint add_all (a : Average T) (vals : list T) : outcome (Average T) :=
  match vals with
  | [] => Ok a
  | v :: vals' => a' ← add a v; add_all a' vals'
  end.
End average.

(** [int64_t]: signed overflow is undefined, division truncates. *)
#[export] Instance int64_arith : Arith Z := {|
  t_zero := 0;
  t_add a b := if in_int64 (a + b) then Ok (a + b) else Undefined;
  t_div a n := if n =? 0 then Undefined else Ok (Z.quot a n);
|}.

Definition sum_list (l : list Z) : Z := fold_right Z.add 0 l.

(** Every partial sum, from [s] on, fits in [int64_t]. *)
Fixpoint partial_sums_fit (s : Z) (l : list Z) : bool :=
  match l with
  | [] => true
  | v :: l' => in_int64 (s + v) && partial_sums_fit (s + v) l'
  end.

Lemma add_all_spec n s vals :
  0 <= n -> n + Z.of_nat (length vals) <= INT_MAX ->
  add_all (T := Z) (MkAverage n s) vals =
    if partial_sums_fit s vals
    then Ok (MkAverage (n + Z.of_nat (length vals)) (s + sum_list vals))
    else Undefined.
Proof.
  revert n s. induction vals as [|v vals IH]; intros n s Hn Hl; simpl.
  - by rewrite !Z.add_0_r.
  - unfold add. simpl. destruct (in_int64 (s + v)); simpl; [|done].
    simpl in Hl. rewrite (proj2 (in_int_spec (n + 1))) by (unfold INT_MIN, INT_MAX in *; lia).
    rewrite obind_Ok, IH by lia. destruct (partial_sums_fit _ _); [|done].
    f_equal. f_equal; lia.
Qed.

(** The average of a list: the sum divided by the number of values, truncated
    towards zero; 0 without values. *)
Lemma average_spec vals :
  Z.of_nat (length vals) <= INT_MAX -> partial_sums_fit 0 vals = true ->
  (a ← add_all Average_new vals; value a) =
    Ok (if decide (vals = []) then 0 else Z.quot (sum_list vals) (Z.of_nat (length vals))).
Proof.
  intros Hl Hf. unfold Average_new. change (@t_zero Z _) with 0.
  rewrite add_all_spec, Hf by (simpl; lia).
  rewrite obind_Ok. unfold value. cbn [avg_count avg_sum t_div t_zero int64_arith].
  destruct vals as [|v vals]; [done|].
  rewrite (proj2 (Z.eqb_neq _ _)) by (simpl; lia).
  rewrite decide_False by done. done.
Qed.
