(* ===== verification/Sql.v ===== *)
(** * lib/objects/sql.{h,cpp}: the connection wrapper

    [SQLConn] drives the database connector.  The connector (and the server
    behind it) is an interface: a class that answers each call from the calls
    made before it.  Every call is recorded in [w_db]. *)

From S2P Require Import Prelude Cxx Config.

(** What the connector promises: [db_answer past call] is the outcome of
    [call] after [past], with the rows of a query; [db_getString] reads a
    column of a row. *)
Class Connector := {
  db_row : Type;
  db_answer : list db_call -> db_call -> outcome (list db_row);
  db_getString : db_row -> str -> outcome str;
}.

Section sql.
Context `{Connector}.

Definition perform (c : db_call) : M (list db_row) := fun w =>
  (db_answer (w_db w) c, add_db c w).

Record SQLConn := MkSQLConn { database : str }.

(** [update_database]: an empty name keeps the current database. *)
Definition update_database (conn : SQLConn) (name : str) : M SQLConn :=
  let conn := if 0 <? size name then MkSQLConn name else conn in
  _ ← perform (DbSetSchema (database conn));
  mret conn.

(** [SQLConn::SQLConn()] and [SQLConn::SQLConn(string)] *)
Definition SQLConn_default : M SQLConn :=
  _ ← perform (DbConnect MYSQL_LOCATION MYSQL_USERNAME MYSQL_PASSWORD);
  mret (MkSQLConn []).

Definition SQLConn_new (name : str) : M SQLConn :=
  _ ← perform (DbConnect MYSQL_LOCATION MYSQL_USERNAME MYSQL_PASSWORD);
  update_database (MkSQLConn []) name.

(** [SQLConn::~SQLConn] *)
Definition SQLConn_delete (conn : SQLConn) : M unit :=
  _ ← perform DbDeleteConnection; mret tt.

(** The [switch] on the letters of [types]: each known letter consumes one
    variadic argument of its type (a missing or mistyped argument is
    undefined behaviour), an unknown one consumes none. *)
Fixpoint bind_params (types : str) (i : Z) (args : list sqlval) : M unit :=
  match types with
  | [] => mret tt
  | t :: types' =>
      if bool_decide (t = "s"%char) then
        match args with
        | SqlString s :: args' =>
            _ ← perform (DbSetParam i (SqlString s)); bind_params types' (i + 1) args'
        | _ => lift Undefined
        end
      else if bool_decide (t = "i"%char) then
        match args with
        | SqlInt z :: args' =>
            _ ← perform (DbSetParam i (SqlInt z)); bind_params types' (i + 1) args'
        | _ => lift Undefined
        end
      else if bool_decide (t = "l"%char) then
        match args with
        | SqlInt64 z :: args' =>
            _ ← perform (DbSetParam i (SqlInt64 z)); bind_params types' (i + 1) args'
        | _ => lift Undefined
        end
      else if bool_decide (t = "d"%char) then
        match args with
        | SqlDouble d :: args' =>
            _ ← perform (DbSetParam i (SqlDouble d)); bind_params types' (i + 1) args'
        | _ => lift Undefined
        end
      else if bool_decide (t = "u"%char) then
        match args with
        | SqlUInt64 z :: args' =>
            _ ← perform (DbSetParam i (SqlUInt64 z)); bind_params types' (i + 1) args'
        | _ => lift Undefined
        end
      else
        _ ← cerr "Unknown type given to execute\n";
        bind_params types' (i + 1) args
  end.

(** [execute] and [fetch], with and without parameters. *)
Definition execute_params (conn : SQLConn) (types query : str) (args : list sqlval)
    : M unit :=
  _ ← perform (DbPrepareStatement query);
  _ ← bind_params types 1 args;
  _ ← perform DbExecute;
  _ ← perform DbDeleteStatement;
  mret tt.

Definition execute (conn : SQLConn) (query : str) : M unit :=
  _ ← perform DbCreateStatement;
  _ ← perform (DbStatementExecute query);
  _ ← perform DbDeleteStatement;
  mret tt.

Definition fetch_params (conn : SQLConn) (types query : str) (args : list sqlval)
    : M (list db_row) :=
  _ ← perform (DbPrepareStatement query);
  _ ← bind_params types 1 args;
  res ← perform DbExecuteQuery;
  _ ← perform DbDeleteStatement;
  mret res.

Definition fetch (conn : SQLConn) (query : str) : M (list db_row) :=
  _ ← perform DbCreateStatement;
  res ← perform (DbStatementExecuteQuery query);
  _ ← perform DbDeleteStatement;
  mret res.

(** ** Facts *)

(** A connector on which every call succeeds. *)
Definition reliable : Prop :=
  forall past c, exists rows, db_answer past c = Ok rows.

Definition add_dbs (cs : list db_call) (w : world) : world :=
  World (w_stdin w) (w_cin_good w) (w_stdout w) (w_stderr w) (w_files w)
    (w_writable w) (w_db w ++ cs).

Lemma add_dbs_app cs1 cs2 w : add_dbs cs2 (add_dbs cs1 w) = add_dbs (cs1 ++ cs2) w.
Proof using. unfold add_dbs. simpl. by rewrite app_assoc. Qed.

Lemma add_dbs_nil w : add_dbs [] w = w.
Proof using. unfold add_dbs. rewrite app_nil_r. by destruct w. Qed.

Lemma perform_ok c w (Hr : reliable) :
  exists rows, perform c w = (Ok rows, add_dbs [c] w).
Proof using. unfold perform. destruct (Hr (w_db w) c) as [rows ->]. by exists rows. Qed.

(** The letter of a value. *)
Definition type_letter (v : sqlval) : ascii :=
  match v with
  | SqlString _ => "s" | SqlInt _ => "i" | SqlInt64 _ => "l"
  | SqlDouble _ => "d" | SqlUInt64 _ => "u"
  end%char.

(** The calls that bind [args] from parameter [i] on. *)
Fixpoint bind_calls (i : Z) (args : list sqlval) : list db_call :=
  match args with
  | [] => []
  | v :: args' => DbSetParam i v :: bind_calls (i + 1) args'
  end.

Lemma bind_params_ok i args w (Hr : reliable) :
  bind_params (map type_letter args) i args w = (Ok tt, add_dbs (bind_calls i args) w).
Proof using.
  revert i w. induction args as [|v args IH]; intros i w.
  - simpl. by rewrite add_dbs_nil.
  - destruct (perform_ok (DbSetParam i v) w Hr) as [rows E].
    transitivity ((_ ← perform (DbSetParam i v);
                   bind_params (map type_letter args) (i + 1) args) w).
    { by destruct v. }
    rewrite (M_bind_ok E), IH, add_dbs_app. done.
Qed.

(** A prepared statement with one letter per argument is prepared, bound in
    order from parameter 1, executed once and deleted. *)
Lemma execute_params_calls conn query args w (Hr : reliable) :
  execute_params conn (map type_letter args) query args w =
    (Ok tt, add_dbs (DbPrepareStatement query ::
                     bind_calls 1 args ++ [DbExecute; DbDeleteStatement]) w).
Proof using.
  unfold execute_params.
  destruct (perform_ok (DbPrepareStatement query) w Hr) as [? E].
  rewrite (M_bind_ok E), (M_bind_ok (bind_params_ok _ _ _ Hr)).
  destruct (perform_ok DbExecute (add_dbs (bind_calls 1 args)
    (add_dbs [DbPrepareStatement query] w)) Hr) as [? E1].
  rewrite (M_bind_ok E1).
  destruct (perform_ok DbDeleteStatement (add_dbs [DbExecute] (add_dbs (bind_calls 1 args)
    (add_dbs [DbPrepareStatement query] w))) Hr) as [? E2].
  rewrite (M_bind_ok E2), !add_dbs_app. unfold mret, M_ret.
  by rewrite <- ?app_assoc.
Qed.

(** An argument whose type is not the one announced is undefined behaviour,
    whatever was bound before. *)
Lemma bind_params_mismatch i args v v' types w (Hr : reliable) :
  type_letter v <> type_letter v' ->
  (bind_params (map type_letter args ++ type_letter v :: types) i (args ++ [v']) w).1 = Undefined.
Proof using.
  intros Hv. revert i w. induction args as [|u args IH]; intros i w; simpl app.
  - by destruct v, v'.
  - destruct (perform_ok (DbSetParam i u) w Hr) as [rows E].
    transitivity (((_ ← perform (DbSetParam i u);
      bind_params (map type_letter args ++ type_letter v :: types) (i + 1) (args ++ [v'])) w).1).
    { by destruct u. }
    by rewrite (M_bind_ok E), IH.
Qed.
End sql.
