(* ===== verification/Io.v ===== *)
(** * lib/io.cpp: reading and writing files

    A file is opened by the C string of its path.  Opening an absent file for
    reading fails; writing to a path that cannot be opened does nothing. *)

From S2P Require Import Prelude Cxx Str.

(** [ofstream] output: truncating or appending. *)
Definition write_stream (append : bool) (loc data : str) : M unit := fun w =>
  let path := c_str loc in
  if w_writable w path then
    let old := if append then default [] (w_files w !! path) else [] in
    (Ok tt, set_files (<[path := old ++ data]> (w_files w)) w)
  else (Ok tt, w).

(** [unlink]: removes the file when the path can be written. *)
Definition unlink (path : str) : M unit := fun w =>
  if w_writable w path then (Ok tt, set_files (delete path (w_files w)) w)
  else (Ok tt, w).

Definition append_to_file (dir filename data : str) : M unit :=
  write_stream true (dir ++ filename) data.

Definition write_to_file (dir filename data : str) : M unit :=
  let loc := dir ++ filename in
  tmp ← lift (to_cstr loc);
  _ ← unlink (c_str tmp);
  write_stream false loc data.

(** The [while(!file.eof())] loop; [fuel] bounds the number of lines.  The
    flag of [split_line] is false once the end of the file was met. *)
Fixpoint read_loop (fuel : nat) (rest out : str) : outcome str :=
  match fuel with
  | O => Diverged
  | S fuel' =>
      let '(tmp, rest', good) := split_line rest in
      let out := out ++ tmp ++ ["010"%char] in
      if good then read_loop fuel' rest' out else Ok out
  end.

Definition read_from_file (dir filename : str) : M str := fun w =>
  match w_files w !! c_str (dir ++ filename) with
  | None => (Throw StdException, w)
  | Some content => (read_loop (S (length content)) content [], w)
  end.

(** ** Facts *)

Lemma split_line_spec s :
  match split_line s with
  | (l, r, true) => s = l ++ "010"%char :: r
  | (l, r, false) => s = l /\ r = []
  end.
Proof.
  induction s as [|c s IH]; simpl; [done|]. case_bool_decide as Hc.
  - by subst.
  - destruct (split_line s) as [[l r] []]; simpl.
    + by rewrite IH at 1.
    + by destruct IH as [-> ->].
Qed.

Lemma read_loop_spec fuel s out :
  (length s < fuel)%nat -> read_loop fuel s out = Ok (out ++ s ++ ["010"%char]).
Proof.
  revert s out. induction fuel as [|fuel IH]; intros s out Hf; [lia|]. simpl.
  pose proof (split_line_spec s) as Hs. destruct (split_line s) as [[l r] []].
  - subst s. rewrite length_app in Hf. simpl in Hf. rewrite IH by lia.
    by rewrite <- !app_assoc.
  - by destruct Hs as [-> ->].
Qed.

(** A file reads as its contents and one more newline. *)
Lemma read_from_file_spec dir filename w :
  read_from_file dir filename w =
    match w_files w !! c_str (dir ++ filename) with
    | None => (Throw StdException, w)
    | Some content => (Ok (content ++ ["010"%char]), w)
    end.
Proof.
  unfold read_from_file. destruct (w_files w !! _); [|done].
  by rewrite read_loop_spec by lia.
Qed.

Lemma c_str_idem s : c_str (c_str s) = c_str s.
Proof.
  induction s as [|c s IH]; simpl; [done|]. case_bool_decide; simpl; [done|].
  by rewrite bool_decide_false, IH.
Qed.

Lemma c_str_app_nul s : c_str (s ++ ["000"%char]) = c_str s.
Proof. induction s as [|c s IH]; simpl; [done|]. by rewrite IH. Qed.

Lemma write_to_file_spec dir filename data w :
  w_writable w (c_str (dir ++ filename)) = true ->
  write_to_file dir filename data w =
    (Ok tt, set_files (<[c_str (dir ++ filename) := data]> (w_files w)) w).
Proof.
  intros Hw. unfold write_to_file. rewrite M_bind_lift, to_cstr_spec.
  unfold mbind, M_bind, unlink, write_stream. rewrite c_str_app_nul, Hw. simpl.
  rewrite Hw. f_equal. unfold set_files. simpl. f_equal. apply insert_delete_eq.
Qed.

(** What was written is read back, with the extra newline. *)
Lemma write_read dir filename data w :
  w_writable w (c_str (dir ++ filename)) = true ->
  exists w', write_to_file dir filename data w = (Ok tt, w') /\
    read_from_file dir filename w' = (Ok (data ++ ["010"%char]), w').
Proof.
  intros Hw. eexists. split; [by apply write_to_file_spec|].
  rewrite read_from_file_spec. simpl. by rewrite lookup_insert_eq.
Qed.
