(* ===== verification/Output.v ===== *)
(** * lib/output.cpp: compiling a query

    [parse_query] reads the columns of the table, builds the aggregates and
    conditions, and writes the two files of the emitted program. *)

From S2P Require Import Prelude Cxx Str Config Column Aggregate Condition.
From S2P Require Import Generators ScanGenerator Sql Io.

Definition OUTPUT_FILE : str := "./result.cpp".
Definition OUTPUT_FILE_HEADER_LOCATION : str := "./result.h".
Definition OUTPUT_FILE_HEADER_START : str :=
  "#ifndef _RESULT_H_\n" ++
  "#define _RESULT_H_ \n" ++
  "#include <string>\n" ++
  "#include <vector>\n" ++
  "#include <cstdint>\n" ++
  "#include <map>\n" ++
  "#include <cppconn/resultset.h>\n" ++
  "#include \qlib/str.h\q\n" ++
  "#include \qlib/objects/average.h\q\n" ++
  "#include \qlib/objects/sql.h\q\n".
Definition OUTPUT_FILE_HEADER_END : str := "#endif".

Section output.
Context `{Connector}.

Definition columns_query : str :=
  "SELECT * FROM `COLUMNS` WHERE `TABLE_NAME` = '" ++ TABLE ++
  "' AND `TABLE_SCHEMA` = '" ++ DATABASE ++ "'".

Definition getColumns : M (list Column) :=
  conn ← SQLConn_new "information_schema";
  res ← fetch conn columns_query;
  columns ← lift (mapM (fun row =>
    name ← db_getString row "COLUMN_NAME";
    type ← db_getString row "DATA_TYPE";
    Ok (Column_of_sql name type)) res);
  _ ← SQLConn_delete conn;
  _ ← perform DbDeleteResultSet;
  mret columns.

Definition getAllAggregates (f_vect : list str) : M (list Aggregate) :=
  mapM Aggregate_new f_vect.

(** The aggregates of the select list and its other members. *)
Fixpoint getSelectAggregates (select_attribute : list str)
    : M (list Aggregate * list str) :=
  match select_attribute with
  | [] => mret ([], [])
  | s :: rest =>
      agg ← lift (isAggregate s);
      if (agg : bool) then
        a ← Aggregate_new s;
        r ← getSelectAggregates rest;
        mret (a :: r.1, r.2)
      else
        r ← getSelectAggregates rest;
        mret (r.1, s :: r.2)
  end.

(** [parse_query]; a vector pointer may be null ([None]). *)
Definition parse_query (select_attribute : option (list str)) (where_ : str)
    (no_grouping_vars : Z) (grouping_attr f_vect select_cond_vect : option (list str))
    (having : str) (emf : bool) : M unit :=
  columns ← getColumns;
  f_vect ← lift (deref f_vect);
  all_aggregates ← getAllAggregates f_vect;
  select_attribute ← lift (deref select_attribute);
  sel ← getSelectAggregates select_attribute;
  let '(select_aggregates, select_columns) := sel in
  select_conditions ← getConditions select_cond_vect;
  structures ← create_structures select_attribute columns;
  groups ← lift (create_grouping_var_structs no_grouping_vars columns select_columns
                   all_aggregates);
  let header := OUTPUT_FILE_HEADER_START ++ structures ++ groups ++ OUTPUT_FILE_HEADER_END in
  grouping_attr ← lift (deref grouping_attr);
  helpers ← lift (get_helpers no_grouping_vars grouping_attr columns);
  printer ← create_output_printer select_attribute columns;
  scans ← generate (MkScan_Generator no_grouping_vars columns select_columns
                      select_aggregates all_aggregates select_conditions having
                      grouping_attr emf);
  let program :=
    "#include \qresult.h\q\n" ++
    "using namespace std;\n\n" ++
    helpers ++ printer ++
    "int main(){\n" ++
    "\tsql::ResultSet* res;\n" ++
    "\tvector<struct mf_structure*>* mf_struct = new vector<struct mf_structure*>();\n" ++
    data_retrieval columns where_ ++
    scans ++
    "\tprint_mf_structure(mf_struct);\n" ++
    "\treturn 0;\n" ++
    "}\n" in
  _ ← write_to_file [] OUTPUT_FILE_HEADER_LOCATION header;
  write_to_file [] OUTPUT_FILE program.
End output.
