(* ===== verification/User.v ===== *)
(** * lib/user.cpp and main.cpp: reading a query and the command line *)

From S2P Require Import Prelude Cxx Str Aggregate Sql Io Output.

(** The section headings; the sigma is two bytes of UTF-8. *)
Definition part0 : str := "SELECT ATTRIBUTE(S):".
Definition part1 : str := "WHERE(W):".
Definition part2 : str := "NUMBER OF GROUPING VARIABLES(n):".
Definition part3 : str := "GROUPING ATTRIBUTES(V):".
Definition part4 : str := "F-VECT([F]):".
Definition part5 : str := "SELECT CONDITION-VECT([σ]):".
Definition part6 : str := "HAVING_CONDITION(G):".
Definition parts : list str := [part0; part1; part2; part3; part4; part5; part6].

(** The fields of a query as [parse_query] takes them. *)
Record query := MkQuery {
  q_select : option (list str);
  q_where : str;
  q_groups : Z;
  q_grouping : option (list str);
  q_f_vect : option (list str);
  q_conditions : option (list str);
  q_having : str;
}.

#[export] Instance query_eq_dec : EqDecision query.
Proof. solve_decision. Defined.

(** The prompt of the [i]th such-that clause, and the loop that reads them. *)
Fixpoint read_conditions (n : nat) (i : Z) : M (list str) :=
  match n with
  | O => mret []
  | S n' =>
      k ← lift (itoa (i + 1));
      _ ← cout ("SELECT CONDITION FOR " ++ k ++ "\n");
      c ← cin_getline_buffer 500;
      r ← read_conditions n' (i + 1);
      mret (c :: r)
  end.

(** The dialogue of [parse_user_input]. *)
Definition read_user_query : M query :=
  _ ← cout (part0 ++ "\n"); s ← cin_getline;
  _ ← cout (part1 ++ "\n"); where_ ← cin_getline;
  _ ← cout (part2 ++ "\n"); n ← cin_getline;
  no_grouping_vars ← lift (stoi n);
  _ ← cout (part3 ++ "\n"); v ← cin_getline;
  _ ← cout (part4 ++ "\n"); f ← cin_getline;
  _ ← cout (part5 ++ "\n");
  select_cond_vect ← read_conditions (Z.to_nat no_grouping_vars) 0;
  _ ← cout (part6 ++ "\n"); having ← cin_getline;
  select_attribute ← explode ", " s;
  grouping_attr ← explode ", " v;
  f_vect ← explode ", " f;
  mret (MkQuery select_attribute where_ no_grouping_vars grouping_attr f_vect
          (Some select_cond_vect) having).

(** [data.substr(index + len + 1, next - (index + len + 2))]: the section
    between two headings.  The positions are [int64_t] (a missing heading is
    -1), the arguments wrap around as [size_t]. *)
Definition section_text (data : str) (index len next : Z) : outcome str :=
  substr data (to_size_t (index + len + 1)) (to_size_t (next - (index + len + 2))).

(** The text processing of [parse_file_input]. *)
Definition parse_file_text (data : str) : M query :=
  let index k := to_int64 (find data k) in
  let index1 := index part0 in
  let index2 := index part1 in
  let index3 := index part2 in
  let index4 := index part3 in
  let index5 := index part4 in
  let index6 := index part5 in
  let index7 := index part6 in
  s ← lift (section_text data index1 (size part0) index2);
  where_ ← lift (section_text data index2 (size part1) index3);
  n ← lift (substr data (to_size_t (index3 + size part2))
              (to_size_t (index4 - (index3 + size part2))));
  n ← trim n;
  no_grouping_vars ← lift (atoi n);
  v ← lift (section_text data index4 (size part3) index5);
  f ← lift (section_text data index5 (size part4) index6);
  svc ← lift (if no_grouping_vars >? 0 then section_text data index6 (size part5) index7
              else Ok []);
  having ← lift (substr_from data (to_size_t (index7 + size part6 + 1)));
  select_attribute ← explode ", " s;
  grouping_attr ← explode ", " v;
  f_vect ← explode ", " f;
  select_cond_vect ← explode "\n" svc;
  mret (MkQuery select_attribute where_ no_grouping_vars grouping_attr f_vect
          select_cond_vect having).

Section user.
Context `{Connector}.

Definition run_query (q : query) (emf : bool) : M unit :=
  parse_query (q_select q) (q_where q) (q_groups q) (q_grouping q) (q_f_vect q)
    (q_conditions q) (q_having q) emf.

Definition parse_user_input (emf : bool) : M unit :=
  q ← read_user_query; run_query q emf.

Definition parse_file_input (file : str) (emf : bool) : M unit :=
  data ← read_from_file file [];
  q ← parse_file_text data;
  run_query q emf.

(** main.cpp: what the command line asks for ([argv] without the program
    name), and [main]. *)
Inductive command :=
| FromUser (emf : bool)
| FromFile (file : str) (emf : bool)
| InvalidInput.

Definition command_line (args : list str) : command :=
  match args with
  | [] => FromUser false
  | [a] => if str_eqb a "-emf" then FromUser true else FromFile a false
  | a :: b :: _ =>
      if str_eqb a "-emf" then FromFile b true
      else if str_eqb b "-emf" then FromFile a true
      else InvalidInput
  end.

Definition main (args : list str) : M Z :=
  _ ← match command_line args with
      | FromUser emf => parse_user_input emf
      | FromFile file emf => parse_file_input file emf
      | InvalidInput => cout "Invalid input\n"
      end;
  mret 0.
End user.

(** ** The query file format

    Headings end with a colon, so a heading is found at the end of the segment
    it closes. *)

Lemma find_nat_colon p s rest :
  ":"%char ∉ p -> ":"%char ∉ s ->
  find_nat (p ++ [":"%char]) (s ++ ":"%char :: rest) =
    if decide (p `suffix_of` s) then Some (length s - length p)%nat
    else (fun k => length s + 1 + k)%nat <$> find_nat (p ++ [":"%char]) rest.
Proof.
  intros Hp. induction s as [|c s IH]; intros Hs; rewrite find_nat_unfold.
  - destruct p as [|d p]; [by rewrite decide_True by apply suffix_nil|].
    apply not_elem_of_cons in Hp as [Hd Hp]. simpl.
    rewrite bool_decide_false by done. simpl.
    rewrite decide_False by (by intros ?%suffix_nil_inv).
    destruct (find_nat _ rest); done.
  - apply not_elem_of_cons in Hs as [Hc Hs]. simpl app.
    destruct (starts_with _ _) eqn:E.
    + apply starts_with_spec in E as [r E]. rewrite <- app_assoc in E. simpl in E.
      apply (Aggregate.app_sep_inj ":" (c :: s) p) in E as [<- _];
        [|by apply not_elem_of_cons|done].
      rewrite decide_True by done. by rewrite Nat.sub_diag.
    + rewrite IH by done. destruct (decide (p `suffix_of` s)) as [Hsuf|Hns].
      * rewrite decide_True by by apply suffix_cons_r.
        apply suffix_length in Hsuf. simpl. f_equal. lia.
      * rewrite decide_False.
        -- destruct (find_nat _ rest); done.
        -- intros [k Ek]. destruct k as [|d k]; simpl in Ek;
             [subst p|injection Ek as _ Ek; apply Hns; by exists k].
           apply not_true_iff_false in E. apply E, starts_with_spec. exists rest.
           simpl. by rewrite <- app_assoc.
Qed.

(** A text made of segments, each a body and the heading that closes it. *)
Fixpoint segments (segs : list (str * str)) (tail : str) : str :=
  match segs with
  | [] => tail
  | (x, p) :: segs' => (x ++ p) ++ ":"%char :: segments segs' tail
  end.

Lemma segments_app a b tail : segments (a ++ b) tail = segments a (segments b tail).
Proof. induction a as [|[x p] a IH]; simpl; [done|]. by rewrite IH. Qed.

(** Two headings are told apart by their last three characters. *)
Definition last3 (p : str) : str := drop (length p - 3) p.

Lemma not_suffix_last3 p x q :
  (3 <= length p)%nat -> (3 <= length q)%nat -> last3 p <> last3 q ->
  ~ p `suffix_of` x ++ q.
Proof.
  intros Hp Hq Hne [k E]. apply Hne. unfold last3.
  apply (f_equal (fun s => drop (length s - 3) s)) in E.
  rewrite !length_app in E. rewrite !drop_app_ge in E by lia.
  replace (length x + length q - 3 - length x)%nat with (length q - 3)%nat in E by lia.
  replace (length k + length p - 3 - length k)%nat with (length p - 3)%nat in E by lia.
  done.
Qed.

Lemma find_heading before x p after tail :
  Forall (fun s => (":"%char ∉ s.1 ++ s.2) /\ (3 <= length s.2)%nat /\ last3 p <> last3 s.2) before ->
  ":"%char ∉ x ++ p -> (3 <= length p)%nat ->
  find_nat (p ++ [":"%char]) (segments (before ++ (x, p) :: after) tail) =
    Some (length (segments before []) + length x)%nat.
Proof.
  intros Hb Hx Hp. induction Hb as [|[y q] before (Hy & Hq & Hne) _ IH]; cbn [segments app].
  - rewrite find_nat_colon by (done || set_solver).
    rewrite decide_True by by exists x. rewrite length_app. f_equal. simpl. lia.
  - simpl in Hy, Hq, Hne. rewrite find_nat_colon by (done || set_solver).
    rewrite decide_False by by apply not_suffix_last3.
    rewrite IH. cbn [fmap option_fmap option_map]. f_equal. rewrite !length_app. simpl. lia.
Qed.

(** The section between two headings. *)
Lemma section_text_spec a p text b :
  size (a ++ p ++ "010"%char :: text ++ "010"%char :: b) < 2 ^ 62 ->
  section_text (a ++ p ++ "010"%char :: text ++ "010"%char :: b) (size a) (size p)
    (size a + size p + size text + 2) = Ok text.
Proof.
  intros Hb. unfold section_text.
  rewrite (to_size_t_small (size a + size p + 1)) by size_lia.
  replace (size a + size p + size text + 2 - (size a + size p + 2)) with (size text) by lia.
  rewrite to_size_t_small by size_lia.
  replace (a ++ p ++ "010"%char :: text ++ "010"%char :: b)
    with ((a ++ p ++ ["010"%char]) ++ text ++ "010"%char :: b)
    by by rewrite <- !app_assoc.
  replace (size a + size p + 1) with (size (a ++ p ++ ["010"%char])) by size_lia.
  apply substr_mid.
Qed.

Definition headings_ok (segs : list (str * str)) : Prop :=
  Forall (fun s => (":"%char ∉ s.1 ++ s.2) /\ (3 <= length s.2)%nat) segs /\
  NoDup (map (fun s => last3 s.2) segs).

Lemma find_segment before x p after tail :
  headings_ok (before ++ (x, p) :: after) ->
  size (segments (before ++ (x, p) :: after) tail) < 2 ^ 62 ->
  to_int64 (find (segments (before ++ (x, p) :: after) tail) (p ++ [":"%char])) =
    size (segments before []) + size x.
Proof.
  intros [Hf Hn] Hb. apply Forall_app in Hf as [Hbf Hf].
  apply Forall_cons in Hf as [[Hx Hp] _].
  unfold find. rewrite find_heading; [|clear Hb|done|done].
  - rewrite to_int64_small; [unfold size; lia|].
    rewrite segments_app in Hb. simpl in Hb.
    assert (Hs : forall t, size (segments before t) = size (segments before []) + size t).
    { intros t. clear. induction before as [|[y q] before IH]; simpl; [done|].
      rewrite !size_app, !size_cons, IH. lia. }
    rewrite Hs, !size_app in Hb. unfold size in *; lia.
  - rewrite map_app, map_cons in Hn. apply NoDup_app in Hn as (_ & Hn & _).
    rewrite Forall_forall in Hbf |- *. intros s Hs. destruct (Hbf s Hs) as [H1 H2].
    split; [done|]. split; [done|]. intros E.
    apply (Hn (last3 s.2)); [|rewrite <- E; apply elem_of_cons; by left].
    apply list_elem_of_fmap. by exists s.
Qed.

Lemma segments_split before x p rest tail :
  segments (before ++ (x, p) :: rest) tail =
    (segments before [] ++ x) ++ (p ++ [":"%char]) ++ segments rest tail.
Proof.
  induction before as [|[y q] before IH]; simpl.
  - by rewrite <- !app_assoc.
  - rewrite IH. by rewrite <- !app_assoc.
Qed.

(** The text between a heading and the next, as [parse_file_text] cuts it. *)
Lemma section_between before x p text q after tail :
  let segs := before ++ (x, p) :: ("010"%char :: text ++ ["010"%char], q) :: after in
  let data := segments segs tail in
  headings_ok segs -> size data < 2 ^ 62 ->
  section_text data (to_int64 (find data (p ++ [":"%char]))) (size (p ++ [":"%char]))
    (to_int64 (find data (q ++ [":"%char]))) = Ok text.
Proof.
  intros segs data Hok Hb. unfold data, segs in *.
  rewrite find_segment by done.
  set (y := "010"%char :: text ++ ["010"%char]) in *.
  replace (before ++ (x, p) :: (y, q) :: after)
    with ((before ++ [(x, p)]) ++ (y, q) :: after) in * by by rewrite <- app_assoc.
  rewrite find_segment by done.
  replace ((before ++ [(x, p)]) ++ (y, q) :: after)
    with (before ++ (x, p) :: (y, q) :: after) in * by by rewrite <- app_assoc.
  rewrite !segments_split in *. simpl segments in *. rewrite ?app_nil_r in *. unfold y in *.
  replace ("010"%char :: ((text ++ ["010"%char]) ++ q) ++ ":"%char :: segments after tail)
    with ("010"%char :: text ++ "010"%char :: q ++ ":"%char :: segments after tail) in *
    by (simpl; by rewrite <- !app_assoc).
  replace (size (segments before []) + size x) with (size (segments before [] ++ x)) by size_lia.
  replace (_ + size ("010"%char :: text ++ ["010"%char])) with
    (size (segments before [] ++ x) + size (p ++ [":"%char]) + size text + 2) by size_lia.
  by apply section_text_spec.
Qed.

(** The same text with the newlines around it. *)
Lemma body_between before x p y q after tail :
  let segs := before ++ (x, p) :: (y, q) :: after in
  let data := segments segs tail in
  headings_ok segs -> size data < 2 ^ 62 ->
  let index := to_int64 (find data (p ++ [":"%char])) in
  substr data (to_size_t (index + size (p ++ [":"%char])))
    (to_size_t (to_int64 (find data (q ++ [":"%char])) - (index + size (p ++ [":"%char])))) = Ok y.
Proof.
  intros segs data Hok Hb index. unfold index, data, segs in *.
  rewrite find_segment by done.
  replace (before ++ (x, p) :: (y, q) :: after)
    with ((before ++ [(x, p)]) ++ (y, q) :: after) in * by by rewrite <- app_assoc.
  rewrite find_segment by done.
  replace ((before ++ [(x, p)]) ++ (y, q) :: after)
    with (before ++ (x, p) :: (y, q) :: after) in * by by rewrite <- app_assoc.
  rewrite !segments_split in *. simpl segments in *. rewrite ?app_nil_r in *.
  set (a := segments before [] ++ x) in *. set (p' := p ++ [":"%char]) in *.
  replace (size (segments before []) + size x) with (size a) by (unfold a; size_lia).
  replace (size (a ++ p') + size y - (size a + size p')) with (size y) by size_lia.
  rewrite <- !app_assoc in *. rewrite !to_size_t_small by size_lia.
  rewrite <- size_app, app_assoc. apply substr_mid.
Qed.

Lemma text_after before x p text :
  headings_ok (before ++ [(x, p)]) ->
  let data := segments (before ++ [(x, p)]) ("010"%char :: text) in
  size data < 2 ^ 62 ->
  substr_from data (to_size_t (to_int64 (find data (p ++ [":"%char])) +
    size (p ++ [":"%char]) + 1)) = Ok text.
Proof.
  intros Hok data Hb. unfold data in *. rewrite find_segment by done.
  rewrite segments_split in *. simpl segments in *.
  set (a := segments before [] ++ x) in *. set (p' := p ++ [":"%char]) in *.
  replace (size (segments before []) + size x) with (size a) by (unfold a; size_lia).
  rewrite to_size_t_small by size_lia.
  replace (a ++ p' ++ "010"%char :: text) with ((a ++ p' ++ ["010"%char]) ++ text)
    by by rewrite <- !app_assoc.
  replace (size a + size p' + 1) with (size (a ++ p' ++ ["010"%char])) by size_lia.
  apply substr_from_app. size_lia.
Qed.

(** A query as its author writes it: at least one grouping variable, lists
    written with their separators. *)
Record query_file := {
  f_select : list str;
  f_where : str;
  f_groups : Z;
  f_grouping : list str;
  f_aggregates : list str;
  f_conditions : list str;
  f_having : str;
}.

Definition commas (l : list str) : str := intercalate ", " l.
Definition lines (l : list str) : str := intercalate "\n" l.

Definition line_body (text : str) : str := "010"%char :: text ++ ["010"%char].

(** The segments of the file, [n] being the number of grouping variables as it
    is printed. *)
Definition file_segments (q : query_file) (n : str) : list (str * str) :=
  [ ([], "SELECT ATTRIBUTE(S)" : str);
    (line_body (commas (f_select q)), "WHERE(W)" : str);
    (line_body (f_where q), "NUMBER OF GROUPING VARIABLES(n)" : str);
    (line_body n, "GROUPING ATTRIBUTES(V)" : str);
    (line_body (commas (f_grouping q)), "F-VECT([F])" : str);
    (line_body (commas (f_aggregates q)), "SELECT CONDITION-VECT([σ])" : str);
    (line_body (lines (f_conditions q)), "HAVING_CONDITION(G)" : str) ].

Definition file_text (q : query_file) (n : str) : str :=
  segments (file_segments q n) ("010"%char :: f_having q).

Definition plain (s : str) : Prop := ":"%char ∉ s.

Record wf_query (q : query_file) (n : str) : Prop := {
  wfq_number : itoa (f_groups q) = Ok n;
  wfq_groups : 0 < f_groups q <= INT_MAX;
  wfq_select : separable ", " "," (f_select q) /\ Forall plain (f_select q);
  wfq_where : plain (f_where q);
  wfq_grouping : separable ", " "," (f_grouping q) /\ Forall plain (f_grouping q);
  wfq_aggregates : separable ", " "," (f_aggregates q) /\ Forall plain (f_aggregates q);
  wfq_conditions : separable "\n" "010" (f_conditions q) /\ Forall plain (f_conditions q);
  wfq_size : size (file_text q n) < 2 ^ 62;
}.

Lemma plain_intercalate sep l : plain sep -> Forall plain l -> plain (intercalate sep l).
Proof.
  intros Hs Hl. induction Hl as [|x l Hx Hl IH]; [apply not_elem_of_nil|].
  destruct l as [|y l]; [done|]. rewrite intercalate_cons. unfold plain in *. set_solver.
Qed.

Lemma plain_body s : plain s -> plain (line_body s).
Proof. unfold plain, line_body. intros H. set_solver. Qed.

Lemma file_segments_ok q n : wf_query q n -> headings_ok (file_segments q n).
Proof.
  intros [Hn Hg [_ Hs] Hw [_ Hgr] [_ Ha] [_ Hc] _].
  assert (Hnum : plain n).
  { destruct (itoa_decimal (f_groups q)) as (t & Et & Ht & _);
      [unfold INT_MIN, INT_MAX in *; lia|].
    rewrite Hn in Et. injection Et as <-. by apply (number_not_in ":"). }
  assert (Hcomma : plain ", ") by (unfold plain; lits; set_solver).
  assert (Hnl : plain "\n") by (unfold plain; lits; set_solver).
  split.
  - unfold file_segments. forall_list ltac:(split; [|simpl snd; lits; simpl; lia]; simpl fst; simpl snd;
      rewrite elem_of_app; intros [Hin|Hin];
      [revert Hin; first [apply not_elem_of_nil
                         |apply plain_body; first [done|by apply plain_intercalate]]
      |revert Hin; lits; set_solver]).
  - unfold file_segments. cbn [map snd]. apply (bool_decide_unpack _). by vm_compute.
Qed.

Lemma trim_number n w :
  is_number n -> trim (line_body n) w = (Ok (n ++ ["010"%char]), w).
Proof.
  intros Hn. rewrite trim_run. unfold line_body.
  assert (E : ltrim ("010"%char :: n ++ ["010"%char]) = n ++ ["010"%char]).
  { destruct Hn as [Hne Hn]. destruct n as [|c n]; [done|]. simpl.
    replace (is_blank c) with false; [done|].
    destruct Hn as [Hd|(d & [= -> _] & _)]; [|done].
    inversion Hd as [|? ? Hc _]; subst.
    destruct c as [[] [] [] [] [] [] [] []]; try discriminate Hc; reflexivity. }
  rewrite E. by destruct n.
Qed.

Lemma atoi_number_nl n i :
  itoa i = Ok n -> INT_MIN < i <= INT_MAX -> atoi (n ++ ["010"%char]) = Ok i.
Proof.
  intros Hn Hi. destruct (itoa_decimal i Hi) as (t & Et & Ht & Hs).
  rewrite Hn in Et. injection Et as <-. unfold atoi.
  rewrite c_str_no_nul by (pose proof (number_not_in "000" n eq_refl ltac:(done) Ht); set_solver).
  rewrite scan_int_app, Hs, (proj2 (in_int_spec i)) by (done || lia). done.
Qed.

(** The sections of a query file, as [parse_file_text] cuts them. *)
Section query_sections.
Context (q : query_file) (n : str) (Hwf : wf_query q n).

Local Abbreviation data := (file_text q n).
Local Abbreviation pos p := (to_int64 (find data p)).

Local Lemma data_size : size data < 2 ^ 62.
Proof using Hwf. apply Hwf. Qed.

Lemma section_select :
  section_text data (pos part0) (size part0) (pos part1) = Ok (commas (f_select q)).
Proof using Hwf.
  exact (section_between [] _ _ _ _ _ _ (file_segments_ok q n Hwf) data_size).
Qed.

Lemma section_where :
  section_text data (pos part1) (size part1) (pos part2) = Ok (f_where q).
Proof using Hwf.
  exact (section_between (take 1 (file_segments q n)) _ _ _ _ _ _
    (file_segments_ok q n Hwf) data_size).
Qed.

Lemma section_number :
  substr data (to_size_t (pos part2 + size part2))
    (to_size_t (pos part3 - (pos part2 + size part2))) = Ok (line_body n).
Proof using Hwf.
  exact (body_between (take 2 (file_segments q n)) _ _ _ _ _ _
    (file_segments_ok q n Hwf) data_size).
Qed.

Lemma section_grouping :
  section_text data (pos part3) (size part3) (pos part4) = Ok (commas (f_grouping q)).
Proof using Hwf.
  exact (section_between (take 3 (file_segments q n)) _ _ _ _ _ _
    (file_segments_ok q n Hwf) data_size).
Qed.

Lemma section_aggregates :
  section_text data (pos part4) (size part4) (pos part5) = Ok (commas (f_aggregates q)).
Proof using Hwf.
  exact (section_between (take 4 (file_segments q n)) _ _ _ _ _ _
    (file_segments_ok q n Hwf) data_size).
Qed.

Lemma section_conditions :
  section_text data (pos part5) (size part5) (pos part6) = Ok (lines (f_conditions q)).
Proof using Hwf.
  exact (section_between (take 5 (file_segments q n)) _ _ _ _ _ _
    (file_segments_ok q n Hwf) data_size).
Qed.

Lemma section_having :
  substr_from data (to_size_t (pos part6 + size part6 + 1)) = Ok (f_having q).
Proof using Hwf.
  exact (text_after (take 6 (file_segments q n)) _ _ _
    (file_segments_ok q n Hwf) data_size).
Qed.

Lemma list_sizes :
  Forall (fun l => size l < 2 ^ 63)
    [commas (f_select q); commas (f_grouping q); commas (f_aggregates q);
     lines (f_conditions q)].
Proof using Hwf.
  pose proof data_size as Hb. unfold file_text, file_segments, line_body in Hb.
  cbn [segments] in Hb. forall_list ltac:(size_lia).
Qed.
End query_sections.

(** Reading a well-formed query file gives back its fields. *)
Lemma parse_file_text_ok q n w :
  wf_query q n ->
  parse_file_text (file_text q n) w =
    (Ok (MkQuery (Some (f_select q)) (f_where q) (f_groups q) (Some (f_grouping q))
           (Some (f_aggregates q)) (Some (f_conditions q)) (f_having q)), w).
Proof.
  intros Hwf. pose proof (list_sizes q n Hwf) as Hsz.
  rewrite !Forall_cons in Hsz. destruct Hsz as (Z1 & Z2 & Z3 & Z4 & _).
  pose proof (wfq_groups q n Hwf) as Hg. pose proof (wfq_number q n Hwf) as Hn.
  destruct (itoa_decimal (f_groups q)) as (t & Et & Ht & _);
    [unfold INT_MIN, INT_MAX in *; lia|].
  rewrite Hn in Et. injection Et as <-.
  unfold parse_file_text. cbv zeta.
  rewrite M_bind_lift, section_select by done. cbv iota beta.
  rewrite M_bind_lift, section_where by done. cbv iota beta.
  rewrite M_bind_lift, section_number by done. cbv iota beta.
  rewrite (M_bind_ok (trim_number n w Ht)).
  rewrite M_bind_lift, (atoi_number_nl n (f_groups q)) by (done || unfold INT_MIN, INT_MAX in *; lia).
  cbv iota beta.
  rewrite M_bind_lift, section_grouping by done. cbv iota beta.
  rewrite M_bind_lift, section_aggregates by done. cbv iota beta.
  rewrite Z.gtb_ltb, (proj2 (Z.ltb_lt _ _)) by lia.
  rewrite M_bind_lift, section_conditions by done. cbv iota beta.
  rewrite M_bind_lift, section_having by done. cbv iota beta.
  destruct (wfq_select q n Hwf) as [Hs _], (wfq_grouping q n Hwf) as [Hgr _],
    (wfq_aggregates q n Hwf) as [Ha _], (wfq_conditions q n Hwf) as [Hc _].
  rewrite (M_bind_ok (explode_intercalate "," [" "%char] _ w Hs Z1)).
  rewrite (M_bind_ok (explode_intercalate "," [" "%char] _ w Hgr Z2)).
  rewrite (M_bind_ok (explode_intercalate "," [" "%char] _ w Ha Z3)).
  rewrite (M_bind_ok (explode_intercalate "010" [] _ w Hc Z4)).
  done.
Qed.
