(* ===== verification/Generate.v ===== *)
(** * generate.cpp: filling the table with random rows

    [rand()] is a stream of non-negative numbers given to the program. *)

From S2P Require Import Prelude Cxx Config Sql.

(** The words of a text: the name tables are written as one text each. *)
Fixpoint words_aux (s : str) (w : str) : list str :=
  match s with
  | [] => if decide (w = []) then [] else [w]
  | c :: s' =>
      if bool_decide (c = " "%char) || bool_decide (c = "010"%char) then
        (if decide (w = []) then [] else [w]) ++ words_aux s' []
      else words_aux s' (w ++ [c])
  end.
Definition words (s : str) : list str := words_aux s [].

Definition customers : list str := words
  "JAMES JOHN ROBERT MICHAEL WILLIAM DAVID RICHARD CHARLES JOSEPH THOMAS CHRISTOPHER DANIEL 
   PAUL MARK DONALD GEORGE KENNETH STEVEN EDWARD BRIAN RONALD ANTHONY KEVIN JASON MATTHEW GARY 
   TIMOTHY JOSE LARRY JEFFREY FRANK SCOTT ERIC STEPHEN ANDREW RAYMOND GREGORY JOSHUA JERRY 
   DENNIS WALTER PATRICK PETER HAROLD DOUGLAS HENRY CARL ARTHUR RYAN ROGER JOE JUAN JACK 
   ALBERT JONATHAN JUSTIN TERRY GERALD KEITH SAMUEL WILLIE RALPH LAWRENCE NICHOLAS ROY 
   BENJAMIN BRUCE BRANDON ADAM HARRY FRED WAYNE BILLY STEVE LOUIS JEREMY AARON RANDY HOWARD 
   EUGENE CARLOS RUSSELL BOBBY VICTOR MARTIN ERNEST PHILLIP TODD JESSE CRAIG ALAN SHAWN 
   CLARENCE SEAN PHILIP CHRIS JOHNNY EARL JIMMY ANTONIO DANNY BRYAN TONY LUIS MIKE STANLEY 
   LEONARD NATHAN DALE MANUEL RODNEY CURTIS NORMAN ALLEN MARVIN VINCENT GLENN JEFFERY TRAVIS 
   JEFF CHAD JACOB LEE MELVIN ALFRED KYLE FRANCIS BRADLEY JESUS HERBERT FREDERICK RAY JOEL 
   EDWIN DON EDDIE RICKY TROY RANDALL BARRY ALEXANDER BERNARD MARIO LEROY FRANCISCO MARCUS 
   MICHEAL THEODORE CLIFFORD MIGUEL OSCAR JAY JIM TOM CALVIN ALEX JON RONNIE BILL LLOYD TOMMY 
   LEON DEREK WARREN DARRELL JEROME FLOYD LEO ALVIN TIM WESLEY GORDON DEAN GREG JORGE DUSTIN 
   PEDRO DERRICK DAN LEWIS ZACHARY COREY HERMAN MAURICE VERNON ROBERTO CLYDE GLEN HECTOR SHANE 
   RICARDO SAM RICK LESTER BRENT RAMON CHARLIE TYLER GILBERT GENE MARC REGINALD RUBEN BRETT 
   ANGEL NATHANIEL RAFAEL LESLIE EDGAR MILTON RAUL BEN CHESTER CECIL DUANE FRANKLIN ANDRE 
   ELMER BRAD GABRIEL RON MITCHELL ROLAND ARNOLD HARVEY JARED ADRIAN KARL CORY CLAUDE ERIK 
   DARRYL JAMIE NEIL JESSIE CHRISTIAN JAVIER FERNANDO CLINTON TED MATHEW TYRONE DARREN LONNIE 
   LANCE CODY JULIO KELLY KURT ALLAN NELSON GUY CLAYTON HUGH MAX DWAYNE DWIGHT ARMANDO FELIX 
   JIMMIE EVERETT JORDAN IAN WALLACE KEN BOB JAIME CASEY ALFREDO ALBERTO DAVE IVAN JOHNNIE 
   SIDNEY BYRON JULIAN ISAAC MORRIS CLIFTON WILLARD DARYL ROSS VIRGIL ANDY MARSHALL SALVADOR 
   PERRY KIRK SERGIO MARION TRACY SETH KENT TERRANCE RENE EDUARDO TERRENCE ENRIQUE FREDDIE 
   WADE AUSTIN STUART FREDRICK ARTURO ALEJANDRO JACKIE JOEY NICK LUTHER WENDELL JEREMIAH EVAN 
   JULIUS DANA DONNIE OTIS SHANNON TREVOR OLIVER LUKE HOMER GERARD DOUG KENNY HUBERT ANGELO 
   SHAUN LYLE MATT LYNN ALFONSO ORLANDO REX CARLTON ERNESTO CAMERON NEAL PABLO LORENZO OMAR 
   WILBUR BLAKE GRANT HORACE RODERICK KERRY ABRAHAM WILLIS RICKEY JEAN IRA ANDRES CESAR 
   JOHNATHAN MALCOLM RUDOLPH DAMON KELVIN RUDY PRESTON ALTON ARCHIE MARCO WM PETE RANDOLPH 
   GARRY GEOFFREY JONATHON FELIPE BENNIE GERARDO ED DOMINIC ROBIN LOREN DELBERT COLIN 
   GUILLERMO EARNEST LUCAS BENNY NOEL SPENCER RODOLFO MYRON EDMUND GARRETT SALVATORE CEDRIC 
   LOWELL GREGG SHERMAN WILSON DEVIN SYLVESTER KIM ROOSEVELT ISRAEL JERMAINE FORREST WILBERT 
   LELAND SIMON GUADALUPE CLARK IRVING CARROLL BRYANT OWEN RUFUS WOODROW SAMMY KRISTOPHER MACK 
   LEVI MARCOS GUSTAVO JAKE LIONEL MARTY TAYLOR ELLIS DALLAS".

Definition products : list str := words
  "A B C D E F G H I J K L M N O P".

Definition states : list str := words
  "AK AL AZ AR CA CO CT DE FL GA HI ID IL IN IA KS KY LA ME MD MA MI MN MS MO MT NE NV NH NJ 
   NM NY NC ND OH OK OR PA RI SC SD TN TX UT VT VA WA WV WI WY".

(** One row as it is drawn: seven calls of [rand()]. *)
Record entry := MkEntry {
  e_customer : str; e_product : str; e_day : Z; e_month : Z; e_year : Z;
  e_state : str; e_quant : Z
}.

Section generate.
Context `{Connector}.
(** The [k]-th number drawn. *)
Context (rand : nat -> Z).

Definition draw (k : nat) : outcome entry :=
  customer ← arr_at customers (Z.rem (rand k) 424);
  product ← arr_at products (Z.rem (rand (k + 1)) 16);
  state ← arr_at states (Z.rem (rand (k + 5)) 50);
  Ok (MkEntry customer product
        (Z.rem (rand (k + 2)) 28 + 1) (Z.rem (rand (k + 3)) 12 + 1)
        (1996 + Z.rem (rand (k + 4)) 22) state (Z.rem (rand (k + 6)) 1000 + 1)).

Definition insert_stmt : str :=
  "INSERT INTO `" ++ TABLE ++
  "` (cust,prod,day,month,year,state,quant) VALUES (?,?,?,?,?,?,?)".

Definition entry_args (e : entry) : list sqlval :=
  [SqlString (e_customer e); SqlString (e_product e); SqlInt (e_day e); SqlInt (e_month e);
   SqlInt (e_year e); SqlString (e_state e); SqlInt (e_quant e)].

(** The insertion loop; [n] rows are left, [k] numbers were drawn. *)
Fixpoint insert_loop (conn : SQLConn) (n k : nat) : M unit :=
  match n with
  | O => mret tt
  | S n' =>
      e ← lift (draw k);
      _ ← execute_params conn "ssiiisi" insert_stmt (entry_args e);
      insert_loop conn n' (k + 7)
  end.

(** [main]; [argv] without the program name. *)
Definition generate_main (args : list str) : M Z :=
  entries ← lift (match args with [a] => atoi a | _ => Ok 3000 end);
  conn ← SQLConn_new DATABASE;
  _ ← insert_loop conn (Z.to_nat entries) 0;
  _ ← SQLConn_delete conn;
  mret 0.

(** ** Facts *)

Definition entry_ok (e : entry) : Prop :=
  e_customer e ∈ customers /\ e_product e ∈ products /\ e_state e ∈ states /\
  1 <= e_day e <= 28 /\ 1 <= e_month e <= 12 /\ 1996 <= e_year e <= 2017 /\
  1 <= e_quant e <= 1000.

Lemma arr_at_rem (l : list str) r n :
  0 <= r -> Z.of_nat (length l) = n -> 0 < n ->
  exists x, arr_at l (Z.rem r n) = Ok x /\ x ∈ l.
Proof using.
  intros Hr Hl Hn. pose proof (Z.rem_bound_pos r n Hr Hn) as Hb. unfold arr_at.
  rewrite decide_True by lia.
  destruct (lookup_lt_is_Some_2 l (Z.to_nat (Z.rem r n))) as [x Hx]; [lia|].
  rewrite Hx. exists x. split; [done|]. by apply list_elem_of_lookup_2 in Hx.
Qed.

Lemma table_sizes :
  length customers = 424%nat /\ length products = 16%nat /\ length states = 50%nat.
Proof using. vm_compute. done. Qed.

(** Every drawn row is in range. *)
Lemma draw_ok k : (forall i, 0 <= rand i) -> exists e, draw k = Ok e /\ entry_ok e.
Proof using.
  intros Hr. pose proof table_sizes as (Hc & Hp & Hs).
  destruct (arr_at_rem customers (rand k) 424 (Hr k)) as (c & Ec & Hic); [lia|lia|].
  destruct (arr_at_rem products (rand (k + 1)) 16 (Hr _)) as (p & Ep & Hip); [lia|lia|].
  destruct (arr_at_rem states (rand (k + 5)) 50 (Hr _)) as (s & Es & His); [lia|lia|].
  unfold draw. rewrite Ec, obind_Ok, Ep, obind_Ok, Es, obind_Ok.
  eexists. split; [done|]. unfold entry_ok. cbn [e_customer e_product e_day e_month e_year e_state e_quant].
  pose proof (Z.rem_bound_pos (rand (k + 2)) 28 (Hr _) eq_refl).
  pose proof (Z.rem_bound_pos (rand (k + 3)) 12 (Hr _) eq_refl).
  pose proof (Z.rem_bound_pos (rand (k + 4)) 22 (Hr _) eq_refl).
  pose proof (Z.rem_bound_pos (rand (k + 6)) 1000 (Hr _) eq_refl).
  split; [exact Hic|]. split; [exact Hip|]. split; [exact His|]. lia.
Qed.

(** The calls that insert one row. *)
Definition insert_calls (e : entry) : list db_call :=
  DbPrepareStatement insert_stmt :: bind_calls 1 (entry_args e) ++
  [DbExecute; DbDeleteStatement].

Lemma insert_loop_ok conn n k w :
  reliable -> (forall i, 0 <= rand i) ->
  exists es, length es = n /\ Forall entry_ok es /\
    insert_loop conn n k w = (Ok tt, add_dbs (concat (map insert_calls es)) w).
Proof using.
  intros Hrel Hr. revert k w. induction n as [|n IH]; intros k w.
  - exists []. split; [done|]. split; [constructor|]. simpl. by rewrite add_dbs_nil.
  - destruct (draw_ok k Hr) as (e & Ee & He). simpl. rewrite M_bind_lift, Ee.
    rewrite (M_bind_ok (execute_params_calls conn insert_stmt (entry_args e) w Hrel)).
    destruct (IH (k + 7)%nat (add_dbs (insert_calls e) w)) as (es & Hl & Hes & E).
    exists (e :: es). split; [simpl; by rewrite Hl|]. split; [by constructor|].
    fold (insert_calls e). rewrite E, add_dbs_app. done.
Qed.
End generate.
