(* ===== verification/Emitted.v ===== *)
(** * The emitted program: what the generated text computes

    The generators print C++ source.  This file gives that source its meaning
    on a table whose columns are strings and 64-bit integers: the helpers
    [vfind], [is_unique] and [get_uniques] (lib/helpers.cpp), the scans and the
    final filter (lib/objects/scan_generator.cpp), the conditions
    (lib/objects/condition.cpp) and the printer (lib/structures.cpp).  The
    statements of the scans are kept as syntax, printed back by
    [print_update]. *)

From S2P Require Import Prelude Cxx Str Config Column Aggregate Condition.
From S2P Require Import ScanGenerator Average.

(** ** Rows and groups *)

Inductive cell := CInt (z : Z) | CStr (s : str).

#[export] Instance cell_eq_dec : EqDecision cell.
Proof. solve_decision. Defined.

(** [struct sales]: the members by name. *)
Abbreviation row := (gmap (list ascii) cell).

(** [struct groupN], allocated by [calloc]: the copied select columns, the
    integer members (0 when absent) and the averages (all zero when absent). *)
Record group_entry := MkEntry {
  e_cells : row;
  e_num : gmap (list ascii) Z;
  e_avg : gmap (list ascii) (Average Z);
}.

Definition num_of (e : group_entry) (field : str) : Z := default 0 (e_num e !! field).
Definition avg_of (e : group_entry) (field : str) : Average Z :=
  default Average_new (e_avg e !! field).

(** [data0], [data1], ... *)
Abbreviation store := (list (list group_entry)).

Definition int_cell (x : row) (c : str) : outcome Z :=
  match x !! c with Some (CInt z) => Ok z | _ => Undefined end.

(** The loops of the emitted program. *)
Fixpoint fold_ok {S A} (f : S -> A -> outcome S) (s : S) (l : list A) : outcome S :=
  match l with
  | [] => Ok s
  | a :: l' => s' ← f s a; fold_ok f s' l'
  end.

(** ** lib/helpers.cpp: the emitted helpers *)

(** The test of the grouping attributes, member by member. *)
Definition same_key (attrs : list str) (x y : row) : bool :=
  forallb (fun a => bool_decide (x !! a = y !! a)) attrs.

(** [vfindN]: the index of the first entry with the given key, or -1. *)
Fixpoint vfind_loop (attrs : list str) (data : list group_entry) (key : row) (index : Z) : Z :=
  match data with
  | [] => -1
  | e :: data' =>
      if same_key attrs key (e_cells e) then index
      else vfind_loop attrs data' key (index + 1)
  end.

(** Its result is an [int]: the index, a [size_t], is narrowed. *)
Definition vfind (attrs : list str) (data : list group_entry) (key : row) : Z :=
  to_int (vfind_loop attrs data key 0).

Definition is_unique (attrs : list str) (data : list row) (entry : row) : bool :=
  negb (existsb (same_key attrs entry) data).

Fixpoint get_uniques_loop (attrs : list str) (data out : list row) : list row :=
  match data with
  | [] => out
  | x :: data' =>
      get_uniques_loop attrs data' (if is_unique attrs out x then out ++ [x] else out)
  end.

Definition get_uniques (attrs : list str) (data : list row) : list row :=
  get_uniques_loop attrs data [].

(** ** The preliminary scan *)

(** [entry->c = ( *it)->c] for every select column.  The program compiles only when each of
    them is a column of the table, a member of both structures: every row has all columns,
    and the structures declare a column with one C++ type ([column_types_agree] in
    Correctness.v), so the assignment keeps the value.  A name that is not a column, whose
    program the compiler rejects, is left out of the copy. *)
Definition copy_columns (cols : list str) (x : row) : row :=
  list_to_map (omap (fun c => pair c <$> x !! c) cols).

(** The first element of [mf_struct] and of each [dataN] for every unique. *)
Definition new_entry (cols : list str) (x : row) : group_entry :=
  MkEntry (copy_columns cols x) ∅ ∅.

Definition run_prelim (n : Z) (cols : list str) (uniques : list row) : list row * store :=
  (map (copy_columns cols) uniques,
   map (fun _ => map (new_entry cols) uniques) (upto n)).

(** ** The update statements *)

Inductive update :=
| AverageAdd (group : Z) (field column : str)
| AddAssign (group : Z) (field column : str)
| Increment (group : Z) (field : str)
| KeepMin (group : Z) (field column : str)
| KeepMax (group : Z) (field column : str).

Definition update_group (u : update) : Z :=
  match u with
  | AverageAdd g _ _ | AddAssign g _ _ | Increment g _ | KeepMin g _ _ | KeepMax g _ _ => g
  end.

(** The statement emitted for an aggregate; nothing for an unknown function. *)
Definition update_of (a : Aggregate) : option update :=
  let g := agg_group a in
  let field := toVar a in
  let column := agg_column a in
  if func_is a "avg" "AVG" then Some (AverageAdd g field column)
  else if func_is a "sum" "SUM" then Some (AddAssign g field column)
  else if func_is a "count" "COUNT" then Some (Increment g field)
  else if func_is a "min" "MIN" then Some (KeepMin g field column)
  else if func_is a "max" "MAX" then Some (KeepMax g field column)
  else None.

(** A statement as C++ text, [var] being the row. *)
Definition print_update (var : str) (u : update) : outcome str :=
  n ← itoa (update_group u);
  let at_ field := "data" ++ n ++ "->at(pos)->" ++ field in
  let keep op field column :=
    "\t\t\tif(" ++ at_ field ++ op ++ " " ++ var ++ "->" ++ column ++ "){\n" ++
    "\t\t\t\t" ++ at_ field ++ " = " ++ var ++ "->" ++ column ++ ";\n" ++
    "\t\t\t}\n" in
  Ok match u with
     | AverageAdd _ field column =>
         "\t\t\t" ++ at_ field ++ ".add(" ++ var ++ "->" ++ column ++ ");\n"
     | AddAssign _ field column =>
         "\t\t\t" ++ at_ field ++ " += " ++ var ++ "->" ++ column ++ ";\n"
     | Increment _ field => "\t\t\t" ++ at_ field ++ " += 1;\n"
     | KeepMin _ field column => keep (">" : str) field column
     | KeepMax _ field column => keep ("<" : str) field column
     end.

Definition set_num (e : group_entry) (field : str) (z : Z) : group_entry :=
  MkEntry (e_cells e) (<[field := z]> (e_num e)) (e_avg e).

Definition add_num (e : group_entry) (field : str) (z : Z) : outcome group_entry :=
  if in_int64 (num_of e field + z) then Ok (set_num e field (num_of e field + z))
  else Undefined.

(** The effect of a statement on the entry [data->at(pos)], for the row [x]. *)
Definition apply_update (u : update) (x : row) (e : group_entry) : outcome group_entry :=
  match u with
  | AverageAdd _ field column =>
      v ← int_cell x column;
      a ← add (avg_of e field) v;
      Ok (MkEntry (e_cells e) (e_num e) (<[field := a]> (e_avg e)))
  | AddAssign _ field column => v ← int_cell x column; add_num e field v
  | Increment _ field => add_num e field 1
  | KeepMin _ field column =>
      v ← int_cell x column;
      Ok (if num_of e field >? v then set_num e field v else e)
  | KeepMax _ field column =>
      v ← int_cell x column;
      Ok (if num_of e field <? v then set_num e field v else e)
  end.

(** [dataN->at(pos)] updated in place; [pos] is a [size_t]. *)
Definition at_entry (st : store) (g pos : Z) (f : group_entry -> outcome group_entry)
    : outcome store :=
  objs ← deref (st !! Z.to_nat g);
  e ← vec_at objs (to_size_t pos);
  e' ← f e;
  Ok (<[Z.to_nat g := <[Z.to_nat (to_size_t pos) := e']> objs]> st).

Definition run_updates (us : list update) (x : row) (pos : Z) (st : store) : outcome store :=
  fold_ok (fun st u => at_entry st (update_group u) pos (apply_update u x)) st us.

(** ** The scans *)

(** A condition sees the store, the row [*it] and, in an EMF scan, the row
    [*xt] ([None] where no such variable is declared). *)
Abbreviation guard := (store -> row -> option row -> outcome bool).

(** The scan of grouping variable [i] of an MF query: one pass over the table;
    the condition is evaluated on the row itself. *)
Definition run_mf_scan (attrs : list str) (data : list row) (i : Z) (cond : guard)
    (us : list update) (st : store) : outcome store :=
  fold_ok (fun st x =>
    b ← cond st x None;
    if (b : bool) then
      objs ← deref (st !! Z.to_nat i);
      run_updates us x (vfind attrs objs x) st
    else Ok st) st data.

(** The scan of an EMF query: every row against every unique, at the position
    of the unique. *)
Fixpoint run_emf_scan_from (uniques data : list row) (cond : guard) (us : list update)
    (pos : Z) (st : store) : outcome store :=
  match uniques with
  | [] => Ok st
  | it :: uniques' =>
      st' ← fold_ok (fun st xt =>
        b ← cond st it (Some xt);
        if (b : bool) then run_updates us xt pos st else Ok st) st data;
      run_emf_scan_from uniques' data cond us (pos + 1) st'
  end.

Definition run_emf_scan (uniques data : list row) (cond : guard) (us : list update)
    (st : store) : outcome store :=
  run_emf_scan_from uniques data cond us 0 st.

(** ** Filling and filtering the result *)

(** The loop over [mf_struct], the elements already kept reversed in [before].  A rejected
    element is erased ([erase(it); it--; continue], and [it++] of the loop).  The iterators
    of the library's vector are pointers: after the erasure [it] points to the element
    behind the erased one, and stepping back and forward again reaches it.  At the first
    position the step back leaves the array, which is undefined for a pointer.  That the
    standard also calls the use of an erased position invalid is not modelled. *)
Fixpoint run_fill {R : Type} (keep : row -> outcome bool) (fill : row -> outcome R)
    (before : list R) (entries : list row) : outcome (list R) :=
  match entries with
  | [] => Ok (rev before)
  | e :: entries' =>
      k ← keep e;
      if (k : bool) then r ← fill e; run_fill keep fill (r :: before) entries'
      else match before with
           | [] => Undefined
           | _ => run_fill keep fill before entries'
           end
  end.

(** The value of an aggregate at [pos]. *)
Definition aggregate_value (st : store) (pos : Z) (a : Aggregate) : outcome Z :=
  objs ← deref (st !! Z.to_nat (agg_group a));
  e ← vec_at objs (to_size_t pos);
  if func_is a "avg" "AVG" then value (avg_of e (toVar a)) else Ok (num_of e (toVar a)).

(** The member of [mf_structure] an aggregate is assigned to. *)
Definition fill_entry (st : store) (aggs : list Aggregate) (pos : Z) (e : row) : outcome row :=
  fold_ok (fun e a =>
    v ← aggregate_value st pos a;
    name ← toABSVar a;
    Ok (<[name := CInt v]> e)) e aggs.

(** The loop emitted by [fill_mfstruct]; [having] is the meaning of the having
    text at a position. *)
Definition run_fill_mfstruct (attrs : list str) (having : store -> Z -> outcome bool)
    (aggs : list Aggregate) (st : store) (mf : list row) : outcome (list row) :=
  data0 ← deref (st !! 0%nat);
  run_fill (fun e =>
      let pos := vfind attrs data0 e in
      h ← having st pos;
      Ok (h && negb (pos =? -1)))
    (fun e => fill_entry st aggs (vfind attrs data0 e) e) [] mf.

(** ** Conditions *)

Fixpoint str_ltb (a b : str) : bool :=
  match a, b with
  | _, [] => false
  | [], _ :: _ => true
  | c :: a', d :: b' =>
      let m := nat_of_ascii c in
      let n := nat_of_ascii d in
      Nat.ltb m n || (Nat.eqb m n && str_ltb a' b')
  end.

(** The operators of C++ on two numbers, and on two strings; other operator
    texts and mixed operands do not compile. *)
Definition compare_with (op : str) (lt eq : bool) : outcome bool :=
  if str_eqb op "=" then Ok eq
  else if str_eqb op "!=" then Ok (negb eq)
  else if str_eqb op "<" then Ok lt
  else if str_eqb op "<=" then Ok (lt || eq)
  else if str_eqb op ">" then Ok (negb (lt || eq))
  else if str_eqb op ">=" then Ok (negb lt)
  else Undefined.

Definition compare_cells (op : str) (a b : cell) : outcome bool :=
  match a, b with
  | CInt x, CInt y => compare_with op (x <? y) (x =? y)
  | CStr x, CStr y => compare_with op (str_ltb x y) (str_eqb x y)
  | _, _ => Undefined
  end.

(** A chain of decimal literals behind a sign, added to [acc] in 64 bits, as in
    [month-1].  Literals that begin with 0 (octal) are left out. *)
Fixpoint add_literals (sign : Z) (digits : str) (s : str) (acc : Z) : outcome Z :=
  let total :=
    match digits with
    | [] => Undefined
    | d :: rest =>
        let z := acc + sign * digits_val 0 digits in
        if (negb (bool_decide (d = "0"%char)) || bool_decide (rest = [])) && in_int64 z
        then Ok z else Undefined
    end in
  match s with
  | [] => total
  | c :: s' =>
      if isdigit c then add_literals sign (digits ++ [c]) s' acc
      else if bool_decide (c = "+"%char) then z ← total; add_literals 1 [] s' z
      else if bool_decide (c = "-"%char) then z ← total; add_literals (-1) [] s' z
      else Undefined
  end.

(** A literal: quoted text, or a decimal number. *)
Definition literal (s : str) : outcome cell :=
  match s with
  | "034"%char :: s' =>
      let n := (length s' - 1)%nat in
      if str_eqb (drop n s') "\q" then Ok (CStr (take n s')) else Undefined
  | "-"%char :: s' => z ← add_literals (-1) [] s' 0; Ok (CInt z)
  | _ => z ← add_literals 1 [] s 0; Ok (CInt z)
  end.

(** The name in front of the first [+] or [-], and the rest. *)
Fixpoint split_sign (s : str) : str * str :=
  match s with
  | [] => ([], [])
  | c :: s' =>
      if bool_decide (c = "+"%char) || bool_decide (c = "-"%char) then ([], s)
      else let '(name, rest) := split_sign s' in (c :: name, rest)
  end.

(** [var-><value>]: a member, with literals added to it. *)
Definition column_value (value : str) (x : row) : outcome cell :=
  let '(name, rest) := split_sign value in
  v ← deref (x !! name);
  match rest with
  | [] => Ok v
  | c :: s =>
      match v with
      | CInt z => z ← add_literals (if bool_decide (c = "+"%char) then 1 else -1) [] s z; Ok (CInt z)
      | CStr _ => Undefined
      end
  end.

(** The condition [2.month=month+1] of src/test/example4. *)
Example month_after : column_value "month+1" {[ ("month" : str) := CInt 11 ]} = Ok (CInt 12).
Proof. by vm_compute. Qed.

(** The emitted comparison: [compare(value) == 0] as soon as the value has a
    quote, whatever the operator. *)
Definition compare_text (quoted : bool) (op : str) (a b : cell) : outcome bool :=
  if quoted then
    match a, b with
    | CStr x, CStr y => Ok (str_eqb x y)
    | _, _ => Undefined
    end
  else compare_cells op a b.

Definition eval_comparison (c : Condition) (a b : cell) : outcome bool :=
  compare_text (contains (cond_value c) "\q") (cond_exp c) a b.

(** What [Condition_toCpp] emits: a member of [*it] compared with a member of
    [*xt], with an aggregate of a variable or with copied text. *)
Inductive rhs :=
| RColumn (value : str)
| RAggregate (group : Z) (field : str) (avg : bool)
| RText (value : str).

Record ctest := CTest {
  t_column : str; t_avg : bool;
  t_quoted : bool; t_op : str;
  t_right : rhs;
}.

Definition condition_right (columns : list Column) (c : Condition) : outcome rhs :=
  agg ← (if isColumn (cond_value c) columns then Ok false else isAggregate (cond_value c));
  if isColumn (cond_value c) columns then Ok (RColumn (cond_value c))
  else if (agg : bool) then
    tmp ← (Aggregate_new (cond_value c) (World [] true [] [] ∅ (fun _ => true) [])).1;
    Ok (RAggregate (agg_group tmp) (toVar tmp) (contains (cond_value c) "avg"))
  else if hasColumn (cond_value c) columns then Ok (RColumn (cond_value c))
  else Ok (RText (cond_value c)).

Definition condition_test (columns : list Column) (c : Condition) : outcome ctest :=
  r ← condition_right columns c;
  Ok (CTest (cond_column c) (contains (cond_column c) "avg")
        (contains (cond_value c) "\q") (cond_exp c) r).

(** Its text. *)
Definition print_right (t : ctest) (value : str) : str :=
  if t_quoted t then ".compare(" ++ value ++ ") == 0"
  else if negb (str_eqb (t_op t) "=") then " " ++ t_op t ++ " " ++ value
  else " == " ++ value.

Definition print_test (attrs : list str) (var var2 : str) (t : ctest) : outcome str :=
  let left := var ++ "->" ++ t_column t ++ (if t_avg t then ".value()" : str else []) in
  match t_right t with
  | RColumn v => Ok (left ++ print_right t (var2 ++ "->" ++ v))
  | RAggregate group field avg =>
      g ← itoa group;
      let pos := "vfind" ++ g ++ "(data" ++ g ++ concat (map (fun a => "," ++ var ++ "->" ++ a) attrs) ++ ")" in
      Ok ("(" ++ pos ++ " > 0 && " ++ left ++
          print_right t ("data" ++ g ++ "->at(" ++ pos ++ ")->" ++ field ++
                         (if avg then ".value()" : str else [])) ++ ")")
  | RText v => Ok (left ++ print_right t v)
  end.

(** Its meaning on the rows [*it] and [*xt].  A left column with "avg" in its
    name is followed by [.value()], which no member of a row has. *)
Definition eval_test (attrs : list str) (t : ctest) : guard := fun st it xt =>
  left ← deref (it !! t_column t);
  left ← (if t_avg t then Undefined else Ok left);
  match t_right t with
  | RColumn v => xt ← deref xt; r ← column_value v xt; compare_text (t_quoted t) (t_op t) left r
  | RAggregate group field avg =>
      objs ← deref (st !! Z.to_nat group);
      let pos := vfind attrs objs it in
      if pos >? 0 then
        e ← vec_at objs (to_size_t pos);
        r ← (if avg then value (avg_of e field) else Ok (num_of e field));
        compare_text (t_quoted t) (t_op t) left (CInt r)
      else Ok false
  | RText v => r ← literal v; compare_text (t_quoted t) (t_op t) left r
  end.

Definition eval_condition (attrs : list str) (columns : list Column) (c : Condition)
    : guard := fun st it xt =>
  t ← condition_test columns c; eval_test attrs t st it xt.

(** Conditions joined by C++ operators: [and] binds tighter than [or], both
    stop at the first operand that decides. *)
Definition is_and (op : str) : bool := str_eqb op "&&" || str_eqb op "and".
Definition is_or (op : str) : bool := str_eqb op "||" || str_eqb op "or".

Section boolean.
Context {A : Type}.

(** The conjunctions of a disjunction; [None] for another operator. *)
Fixpoint disjuncts (c : A) (rest : list (str * A)) : option (list (list A)) :=
  match rest with
  | [] => Some [[c]]
  | (op, d) :: rest' =>
      l ← disjuncts d rest';
      if is_and op then
        match l with run :: l' => Some ((c :: run) :: l') | [] => None end
      else if is_or op then Some ([c] :: l)
      else None
  end.

Fixpoint all_of (f : A -> outcome bool) (l : list A) : outcome bool :=
  match l with
  | [] => Ok true
  | c :: l' => b ← f c; if (b : bool) then all_of f l' else Ok false
  end.

Fixpoint any_of (f : list A -> outcome bool) (l : list (list A)) : outcome bool :=
  match l with
  | [] => Ok false
  | c :: l' => b ← f c; if (b : bool) then Ok true else any_of f l'
  end.
End boolean.

(** What [Conditions::toCpp] emits: tests joined by the words of the query. *)
Record cguard := CGuard { g_first : ctest; g_others : list (str * ctest) }.

Fixpoint other_tests (columns : list Column) (ops : list str) (l : list Condition) {struct l}
    : outcome (list (str * ctest)) :=
  match l with
  | [] => Ok []
  | c :: l' =>
      match ops with
      | [] => Throw OutOfRange
      | op :: ops' =>
          t ← condition_test columns c;
          r ← other_tests columns ops' l';
          Ok ((op, t) :: r)
      end
  end.

Definition conditions_guard (columns : list Column) (cs : Conditions) : outcome cguard :=
  match conds cs with
  | [] => Throw OutOfRange
  | c :: rest =>
      t ← condition_test columns c;
      l ← other_tests columns (ops cs) rest;
      Ok (CGuard t l)
  end.

Definition print_guard (attrs : list str) (var var2 : str) (gd : cguard) : outcome str :=
  t ← print_test attrs var var2 (g_first gd);
  r ← append_each (fun p => t ← print_test attrs var var2 p.2; Ok (" " ++ p.1 ++ " " ++ t)) (g_others gd);
  Ok (t ++ r).

Definition eval_guard (attrs : list str) (gd : cguard) : guard := fun st it xt =>
  l ← deref (disjuncts (g_first gd) (g_others gd));
  any_of (all_of (fun t => eval_test attrs t st it xt)) l.

(** The meaning of [Conditions::toCpp]. *)
Definition eval_conditions (attrs : list str) (columns : list Column) (cs : Conditions)
    : guard := fun st it xt =>
  gd ← conditions_guard columns cs; eval_guard attrs gd st it xt.

(** ** The whole emitted [main] *)

(** The condition of grouping variable [i]; 0 has none. *)
Definition guard_of (g : Scan_Generator) (i : Z) : guard := fun st it xt =>
  if i =? 0 then Ok true
  else
    l ← deref (select_conditions g);
    c ← vec_at l (to_size_t (i - 1));
    eval_conditions (grouping_attr g) (sg_columns g) c st it xt.

(** The scans numbered like [groups]. *)
Fixpoint run_scans (g : Scan_Generator) (uniques data : list row) (i : Z)
    (groups : list (list Aggregate)) (st : store) : outcome store :=
  match groups with
  | [] => Ok st
  | xt :: groups' =>
      let us := omap update_of xt in
      st' ← (if emf g then run_emf_scan uniques data (guard_of g i) us st
             else run_mf_scan (grouping_attr g) data i (guard_of g i) us st);
      run_scans g uniques data (i + 1) groups' st'
  end.

(** What the program emitted by [generate] leaves in [mf_struct]. *)
Definition run_generated (g : Scan_Generator) (having : store -> Z -> outcome bool)
    (data : list row) : outcome (list row) :=
  let uniques := get_uniques (grouping_attr g) data in
  let '(mf, st) := run_prelim (no_grouping_vars g) (sg_select_columns g) uniques in
  groups ← group_aggregates g;
  st ← run_scans g uniques data 0 groups st;
  run_fill_mfstruct (grouping_attr g) having (select_aggregates g) st mf.

(** ** A run on a small table *)

Example sales : list row :=
  [ {[ ("cust" : str) := CStr "Bloom"; ("quant" : str) := CInt 10 ]};
    {[ ("cust" : str) := CStr "Sam"; ("quant" : str) := CInt 7 ]};
    {[ ("cust" : str) := CStr "Bloom"; ("quant" : str) := CInt 4 ]} ].

Example sales_columns : list Column :=
  [Column_of_sql "cust" "varchar"; Column_of_sql "quant" "int"].

Example sample_generator (emf : bool) : Scan_Generator :=
  MkScan_Generator 1 sales_columns ["cust" : str]
    [MkAggregate 0 "sum" "quant"; MkAggregate 1 "min" "quant"]
    [MkAggregate 0 "sum" "quant"; MkAggregate 1 "min" "quant"]
    (Some [MkConditions [MkCondition 1 "cust" "=" "\qBloom\q"] []]) [] ["cust" : str] emf.

Definition cells_of (cols : list str) (x : row) : list (option cell) := map (x !!.) cols.

Example sample_run_mf :
  (map (cells_of ["cust" : str; "sum_quant" : str; "min_quant_1" : str]) <$>
     run_generated (sample_generator false) (fun _ _ => Ok true) sales) =
  Ok [ [Some (CStr "Bloom"); Some (CInt 14); Some (CInt 0)];
       [Some (CStr "Sam"); Some (CInt 7); Some (CInt 0)] ].
Proof. vm_compute. reflexivity. Qed.

(** In an EMF query grouping variable 0 ranges over the whole table. *)
Example sample_run_emf :
  (map (cells_of ["cust" : str; "sum_quant" : str; "min_quant_1" : str]) <$>
     run_generated (sample_generator true) (fun _ _ => Ok true) sales) =
  Ok [ [Some (CStr "Bloom"); Some (CInt 21); Some (CInt 0)];
       [Some (CStr "Sam"); Some (CInt 21); Some (CInt 0)] ].
Proof. vm_compute. reflexivity. Qed.

(** ** Facts: the syntax of updates *)

(** The scans print exactly the statements of [update_of]. *)
Lemma update_text_print var a t :
  itoa (agg_group a) = Ok t ->
  update_text var a =
    match update_of a with Some u => print_update var u | None => Ok [] end.
Proof.
  intros Ht. unfold update_text, update_of. rewrite Ht, obind_Ok.
  destruct (func_is a "avg" "AVG"), (func_is a "sum" "SUM"), (func_is a "count" "COUNT"),
    (func_is a "min" "MIN"), (func_is a "max" "MAX");
    unfold print_update; simpl update_group; rewrite ?Ht, ?obind_Ok;
    cbv zeta; rewrite <- ?app_assoc; reflexivity.
Qed.

Lemma updates_of_group i l :
  Forall (fun u => update_group u = i) (omap update_of (of_group i l)).
Proof.
  rewrite Forall_forall. intros u Hu. apply list_elem_of_omap in Hu as (a & Ha & Hu).
  unfold of_group in Ha. apply list_elem_of_In, filter_In in Ha as [_ Ha%Z.eqb_eq].
  unfold update_of in Hu.
  repeat match goal with H : (if ?b then _ else _) = Some _ |- _ => destruct b end;
    by inversion Hu; subst.
Qed.

(** ** Facts: keys *)

Section keys.
Context (attrs : list str).
Local Abbreviation same := (same_key attrs).

Lemma same_key_spec x y :
  same x y = true <-> forall a, a ∈ attrs -> x !! a = y !! a.
Proof using.
  unfold same_key. rewrite forallb_forall. split.
  - intros H a Ha. apply list_elem_of_In, H in Ha. by apply bool_decide_eq_true in Ha.
  - intros H a Ha. apply bool_decide_eq_true, H. by apply list_elem_of_In.
Qed.

Lemma same_key_refl x : same x x = true.
Proof using. by apply same_key_spec. Qed.
Lemma same_key_sym x y : same x y = same y x.
Proof using.
  apply eq_true_iff_eq. rewrite !same_key_spec. by split; intros H a Ha; rewrite H.
Qed.
Lemma same_key_trans x y z : same x y = true -> same y z = true -> same x z = true.
Proof using.
  rewrite !same_key_spec. intros H1 H2 a Ha. by rewrite H1, H2.
Qed.

#[global] Instance same_key_equiv : Equivalence (fun x y => same x y = true).
Proof using.
  split; [exact same_key_refl| |exact same_key_trans].
  intros x y H. by rewrite same_key_sym.
Qed.

(** Keys are pairwise different. *)
Definition distinct_keys (l : list row) : Prop :=
  forall i j x y, l !! i = Some x -> l !! j = Some y -> same x y = true -> i = j.

Lemma distinct_keys_snoc l x :
  distinct_keys l -> is_unique attrs l x = true -> distinct_keys (l ++ [x]).
Proof using.
  intros Hl Hx i j y z Hi Hj Hs. unfold is_unique in Hx. apply negb_true_iff in Hx.
  assert (Hno : forall k y', l !! k = Some y' -> same x y' = false).
  { intros k y' Hk. destruct (same x y') eqn:E; [|done].
    assert (existsb (same x) l = true); [|congruence].
    apply existsb_exists. exists y'. split; [|done].
    by apply list_elem_of_lookup_2, list_elem_of_In in Hk. }
  rewrite lookup_app in Hi, Hj.
  destruct (l !! i) as [y'|] eqn:Ei, (l !! j) as [z'|] eqn:Ej; simplify_eq.
  - by eapply Hl.
  - apply list_lookup_singleton_Some in Hj as [_ <-].
    rewrite same_key_sym, (Hno i) in Hs by done. done.
  - apply list_lookup_singleton_Some in Hi as [_ <-]. by rewrite (Hno j) in Hs.
  - apply list_lookup_singleton_Some in Hi as [Hi _], Hj as [Hj _].
    apply lookup_ge_None in Ei, Ej. lia.
Qed.

Lemma get_uniques_loop_spec data out :
  distinct_keys out ->
  let r := get_uniques_loop attrs data out in
  distinct_keys r /\ out `prefix_of` r /\ (forall x, x ∈ r -> x ∈ out \/ x ∈ data) /\
  (forall x, x ∈ out \/ x ∈ data -> exists y, y ∈ r /\ same x y = true).
Proof using.
  revert out. induction data as [|x data IH]; intros out Ho; simpl.
  - split; [done|]. split; [done|]. split; [by left|].
    intros x [H|H]; [|by apply not_elem_of_nil in H]. exists x. split; [done|].
    apply same_key_refl.
  - destruct (is_unique attrs out x) eqn:Hu.
    + destruct (IH (out ++ [x])) as (Hd & Hp & Hin & Hc); [by apply distinct_keys_snoc|].
      split; [done|]. split; [by etrans; [apply prefix_app_r|]|].
      split; [intros y Hy%Hin; set_solver|]. intros y Hy. apply Hc. set_solver.
    + destruct (IH out Ho) as (Hd & Hp & Hin & Hc).
      split; [done|]. split; [done|]. split; [intros y Hy%Hin; set_solver|].
      intros y [Hy|Hy]; [by apply Hc; left|].
      apply elem_of_cons in Hy as [->|Hy]; [|by apply Hc; right].
      unfold is_unique in Hu. apply negb_false_iff, existsb_exists in Hu as (z & Hz & Hs).
      apply list_elem_of_In in Hz. destruct (Hc z) as (y & Hy & Hs'); [by left|].
      exists y. split; [done|]. by eapply same_key_trans.
Qed.
End keys.

Lemma get_uniques_spec attrs data :
  distinct_keys attrs (get_uniques attrs data) /\
  (forall x, x ∈ get_uniques attrs data -> x ∈ data) /\
  (forall x, x ∈ data -> exists y, y ∈ get_uniques attrs data /\ same_key attrs x y = true).
Proof.
  destruct (get_uniques_loop_spec attrs data []) as (Hd & _ & Hin & Hc); [done|].
  split; [done|]. split.
  - intros x Hx. apply Hin in Hx as [Hx|Hx]; [by apply not_elem_of_nil in Hx|done].
  - intros x Hx. apply Hc. by right.
Qed.

(** [vfind] returns the least index with the key, or -1. *)
Lemma vfind_loop_spec attrs data key index :
  (vfind_loop attrs data key index = -1 /\
     forall e, e ∈ data -> same_key attrs key (e_cells e) = false) \/
  exists k e, vfind_loop attrs data key index = index + Z.of_nat k /\ data !! k = Some e /\
    same_key attrs key (e_cells e) = true /\
    forall j e', (j < k)%nat -> data !! j = Some e' -> same_key attrs key (e_cells e') = false.
Proof.
  revert index. induction data as [|e data IH]; intros index; simpl.
  - left. split; [done|]. intros e He. by apply not_elem_of_nil in He.
  - destruct (same_key attrs key (e_cells e)) eqn:E.
    + right. exists 0%nat, e. split; [lia|]. split; [done|]. split; [done|]. intros j e' Hj. lia.
    + destruct (IH (index + 1)) as [[Hv Hn]|(k & e' & Hv & Hk & Hs & Hlt)].
      * left. split; [done|]. intros e' He. apply elem_of_cons in He as [->|He]; auto.
      * right. exists (S k), e'. split; [lia|]. split; [done|]. split; [done|].
        intros [|j] e'' Hj Hl; simpl in Hl; [by simplify_eq|]. apply (Hlt j); [lia|done].
Qed.

(** An index below [2 ^ 31] survives the narrowing to [int]. *)
Lemma vfind_narrow attrs data key :
  Z.of_nat (length data) <= 2 ^ 31 -> vfind attrs data key = vfind_loop attrs data key 0.
Proof.
  intros Hb. apply to_int_small.
  destruct (vfind_loop_spec attrs data key 0) as [[-> _]|(k & e & -> & Hk%lookup_lt_Some & _)];
    unfold INT_MIN, INT_MAX; lia.
Qed.

Lemma vfind_distinct attrs data key k e :
  Z.of_nat (length data) <= 2 ^ 31 ->
  distinct_keys attrs (map e_cells data) -> data !! k = Some e ->
  same_key attrs key (e_cells e) = true -> vfind attrs data key = Z.of_nat k.
Proof.
  intros Hb Hd Hk Hs. rewrite vfind_narrow by done.
  destruct (vfind_loop_spec attrs data key 0) as [[_ Hn]|(j & e' & -> & Hj & Hs' & _)].
  - rewrite (Hn e) in Hs; [done|]. by apply list_elem_of_lookup_2 in Hk.
  - rewrite Z.add_0_l. f_equal. apply (Hd j k (e_cells e') (e_cells e)).
    + by rewrite list_lookup_fmap, Hj.
    + by rewrite list_lookup_fmap, Hk.
    + eapply same_key_trans; [|exact Hs]. by rewrite same_key_sym.
Qed.

Lemma lookup_copy_columns cols x a : a ∈ cols -> copy_columns cols x !! a = x !! a.
Proof.
  intros Ha. unfold copy_columns. destruct (x !! a) as [v|] eqn:E.
  - apply elem_of_list_to_map_1'.
    + intros y Hy. apply list_elem_of_omap in Hy as (c & _ & Hc).
      destruct (x !! c) eqn:Ec; simpl in Hc; by simplify_eq.
    + apply list_elem_of_omap. exists a. split; [done|]. by rewrite E.
  - apply not_elem_of_list_to_map_1. intros Hin. apply list_elem_of_fmap in Hin as ([c v] & Hc & Hv).
    simpl in Hc. subst c. apply list_elem_of_omap in Hv as (c & _ & Hc).
    destruct (x !! c) eqn:Ec; simpl in Hc; by simplify_eq.
Qed.

Lemma same_key_copy attrs cols x y :
  attrs ⊆ cols -> same_key attrs x (copy_columns cols y) = same_key attrs x y.
Proof.
  intros Ha. apply eq_true_iff_eq. rewrite !same_key_spec.
  split; intros H a Hin; rewrite H by done; [|symmetry]; apply lookup_copy_columns; set_solver.
Qed.

(** ** Facts: updates of one entry *)

Definition entry_updates (us : list update) (e : group_entry) (x : row) : outcome group_entry :=
  fold_ok (fun e u => apply_update u x e) e us.

Lemma fold_ok_cons {S A} (f : S -> A -> outcome S) s a l r :
  fold_ok f s (a :: l) = Ok r <-> exists s', f s a = Ok s' /\ fold_ok f s' l = Ok r.
Proof. simpl. apply bind_Ok. Qed.

(** A property of the state that every step preserves. *)
Lemma fold_ok_invariant {S A} (f : S -> A -> outcome S) (P : S -> Prop) l s r :
  (forall s a s', a ∈ l -> P s -> f s a = Ok s' -> P s') ->
  P s -> fold_ok f s l = Ok r -> P r.
Proof.
  revert s. induction l as [|a l IH]; intros s Hf Hs; [by intros [= <-]|].
  intros (s' & E & Hr)%fold_ok_cons. apply (IH s'); [|by eapply Hf; [left| |]|done].
  intros s1 b s2 Hb. apply Hf. by right.
Qed.

Lemma apply_update_cells u x e e' : apply_update u x e = Ok e' -> e_cells e' = e_cells e.
Proof.
  destruct u; simpl; unfold add_num; intros H;
    repeat (case_match; simplify_eq/=); inv_ok; repeat (case_match; simplify_eq/=); done.
Qed.

Lemma entry_updates_cells us x e e' : entry_updates us e x = Ok e' -> e_cells e' = e_cells e.
Proof.
  apply (fold_ok_invariant _ (fun r => e_cells r = e_cells e)); [|done].
  intros s u s' _ Hs Hu. rewrite <- Hs. by eapply apply_update_cells.
Qed.

(** ** Facts: routing rows to entries *)

(** The entry [e] after the rows that are meant for it. *)
Definition routed (us : list update) (sel : row -> bool) (data : list row)
    (e e' : group_entry) : Prop :=
  fold_ok (entry_updates us) e (List.filter sel data) = Ok e'.

Section routing.
Context (i : nat) (us : list update).
Context (Hus : Forall (fun u => update_group u = Z.of_nat i) us).

Lemma at_entry_spec (k : nat) (f : group_entry -> outcome group_entry) st objs e :
  st !! i = Some objs -> objs !! k = Some e -> Z.of_nat (length objs) < 2 ^ 64 ->
  at_entry st (Z.of_nat i) (Z.of_nat k) f =
    (e' ← f e; Ok (<[i := <[k := e']> objs]> st)).
Proof using.
  intros Hst Hk Hb. pose proof (lookup_lt_Some _ _ _ Hk) as Hlt.
  unfold at_entry, vec_at. rewrite to_size_t_small by lia.
  rewrite !Nat2Z.id, Hst. simpl. by rewrite decide_True, Hk by lia.
Qed.

Lemma run_updates_at x (k : nat) st objs e :
  st !! i = Some objs -> objs !! k = Some e -> Z.of_nat (length objs) < 2 ^ 64 ->
  run_updates us x (Z.of_nat k) st =
    (e' ← entry_updates us e x; Ok (<[i := <[k := e']> objs]> st)).
Proof using Hus.
  intros Hst Hk Hb. unfold run_updates, entry_updates.
  revert st objs e Hst Hk Hb. induction Hus as [|u l Hu Hl IH]; intros st objs e Hst Hk Hb; simpl;
    [|specialize (IH Hl)].
  - by rewrite (list_insert_id objs), (list_insert_id st).
  - pose proof (lookup_lt_Some _ _ _ Hk) as Hlt. pose proof (lookup_lt_Some _ _ _ Hst) as Hlt'.
    rewrite Hu, (at_entry_spec k _ st objs e) by done.
    destruct (apply_update u x e) as [e1| | |]; simpl; [|done..].
    rewrite (IH _ (<[k := e1]> objs) e1); [|by apply list_lookup_insert_eq|
      by apply list_lookup_insert_eq|by rewrite length_insert].
    destruct (fold_ok _ e1 l); simpl; [|done..].
    by rewrite !list_insert_insert_eq.
Qed.

(** Stores that differ from [st0] in the entries of group [i] only. *)
Definition frame (st0 st : store) : Prop :=
  length st = length st0 /\ forall j, j <> i -> st !! j = st0 !! j.

Lemma frame_insert st0 st objs : frame st0 st -> frame st0 (<[i := objs]> st).
Proof using.
  intros [Hl Hf]. split; [by rewrite length_insert|]. intros j Hj.
  by rewrite list_lookup_insert_ne by done; apply Hf.
Qed.

Lemma routed_step sel x data (objs objs' : list group_entry) (k : nat) e e1 e' :
  objs !! k = Some e -> objs' !! k = Some e' -> length objs = length objs' ->
  (forall j f, j <> k -> objs !! j = Some f -> sel j f x = false) ->
  sel k e x = true -> entry_updates us e x = Ok e1 ->
  fold_ok (entry_updates us) e1 (List.filter (sel k e) data) = Ok e' ->
  (forall j f g, objs !! j = Some f -> e_cells g = e_cells f -> sel j g = sel j f) ->
  (forall j f f', objs !! j = Some f -> objs' !! j = Some f' ->
     routed us (sel j f) (x :: data) f f') ->
  forall j f f', <[k := e1]> objs !! j = Some f -> objs' !! j = Some f' ->
    routed us (sel j f) data f f'.
Proof using.
  intros Hk Hk' Hlen Hne Hsel He1 Hrest Hcells Hall j f f' Hj Hj'.
  destruct (decide (j = k)) as [->|Hjk].
  - rewrite list_lookup_insert_eq in Hj by (by eapply lookup_lt_Some).
    simplify_eq. unfold routed. rewrite (Hcells k e f); [done|done|].
    by eapply entry_updates_cells.
  - rewrite list_lookup_insert_ne in Hj by done. specialize (Hall j f f' Hj Hj').
    unfold routed in *. simpl in Hall. by rewrite (Hne j f) in Hall.
Qed.

(** An update keeps the keys of the entries. *)
Lemma insert_same_cells k (e e1 : group_entry) (objs : list group_entry) :
  objs !! k = Some e -> e_cells e1 = e_cells e ->
  map e_cells (<[k := e1]> objs) = map e_cells objs.
Proof using.
  intros Hk He. rewrite list_fmap_insert. apply list_insert_id. by rewrite list_lookup_fmap, Hk, He.
Qed.

Lemma lookup_same_cells (objs objs' : list group_entry) j f :
  map e_cells objs' = map e_cells objs -> objs !! j = Some f ->
  exists f', objs' !! j = Some f' /\ e_cells f' = e_cells f.
Proof using.
  intros Hm Hj. assert (H : map e_cells objs' !! j = Some (e_cells f))
    by by rewrite Hm, list_lookup_fmap, Hj.
  apply list_lookup_fmap_Some in H as (f' & Hf & Hj'). by exists f'.
Qed.

(** Entries of different keys do not both match a row. *)
Lemma distinct_no_match attrs (objs : list group_entry) x k e j f :
  distinct_keys attrs (map e_cells objs) -> objs !! k = Some e -> objs !! j = Some f -> j <> k ->
  same_key attrs x (e_cells e) = true -> same_key attrs x (e_cells f) = false.
Proof using.
  intros Hd Hk Hf Hj Hs. apply not_true_iff_false. intros Hsf.
  apply Hj, (Hd j k (e_cells f) (e_cells e)).
  - by rewrite list_lookup_fmap, Hf.
  - by rewrite list_lookup_fmap, Hk.
  - eapply same_key_trans; [|exact Hs]. by rewrite same_key_sym.
Qed.

(** One pass of an MF scan: every row that passes the condition updates the
    entry of its key. *)
Lemma run_mf_scan_routes (attrs : list str) (cond : guard) (p : row -> bool)
    (data : list row) (st0 st : store) (objs objs' : list group_entry) :
  (forall (st' : store) (x : row), frame st0 st' -> x ∈ data -> cond st' x None = Ok (p x)) ->
  frame st0 st -> st !! i = Some objs -> Z.of_nat (length objs) <= 2 ^ 31 ->
  distinct_keys attrs (map e_cells objs) ->
  (forall x, x ∈ data -> exists k e, objs !! k = Some e /\ same_key attrs x (e_cells e) = true) ->
  length objs = length objs' ->
  (forall j e e', objs !! j = Some e -> objs' !! j = Some e' ->
     routed us (fun x => p x && same_key attrs x (e_cells e)) data e e') ->
  run_mf_scan attrs data (Z.of_nat i) cond us st = Ok (<[i := objs']> st).
Proof using Hus.
  unfold run_mf_scan. rewrite Nat2Z.id. revert st objs.
  induction data as [|x data IH]; intros st objs Hcond Hfr Hst Hb Hd Hin Hlen Hall.
  - simpl. f_equal. symmetry. apply list_insert_id. rewrite Hst. f_equal.
    apply list_eq_same_length with (n := length objs); [done|done|].
    intros j e e' _ Hj Hj'. specialize (Hall j e e' Hj Hj'). by inversion Hall.
  - simpl. rewrite Hcond, obind_Ok by (done || by left).
    assert (Hcond' : forall st' y, frame st0 st' -> y ∈ data -> cond st' y None = Ok (p y))
      by (intros; apply Hcond; [done|by right]).
    destruct (p x) eqn:Hp.
    + destruct (Hin x) as (k & e & Hk & Hs); [by left|].
      destruct (lookup_lt_is_Some_2 objs' k) as [e' Hk'];
        [by rewrite <- Hlen; eapply lookup_lt_Some|].
      pose proof (Hall k e e' Hk Hk') as He. unfold routed in He. simpl in He.
      rewrite Hp, Hs in He. simpl in He. apply bind_Ok in He as (e1 & He1 & Hrest).
      rewrite Hst. simpl.
      rewrite (vfind_distinct _ _ _ k e) by done.
      rewrite (run_updates_at x k st objs e), He1 by (done || lia). simpl.
      assert (Hc1 : map e_cells (<[k := e1]> objs) = map e_cells objs)
        by exact (insert_same_cells k e e1 objs Hk (entry_updates_cells _ _ _ _ He1)).
      rewrite (IH _ (<[k := e1]> objs)).
      * by rewrite list_insert_insert_eq.
      * done.
      * by apply frame_insert.
      * apply list_lookup_insert_eq. by eapply lookup_lt_Some.
      * by rewrite length_insert.
      * by rewrite Hc1.
      * intros y Hy. destruct (Hin y) as (j & f & Hj & Hsj); [by right|].
        destruct (lookup_same_cells _ _ j f Hc1 Hj) as (f' & Hj' & Hf').
        exists j, f'. by rewrite Hf'.
      * by rewrite length_insert.
      * eapply (routed_step (fun _ g y => p y && same_key attrs y (e_cells g)));
          [exact Hk|exact Hk'|done| | |exact He1|exact Hrest| |exact Hall].
        -- intros j f Hj Hf. rewrite Hp. simpl.
           exact (distinct_no_match attrs objs x k e j f Hd Hk Hf Hj Hs).
        -- by rewrite Hp, Hs.
        -- intros j f g _ Hg. by rewrite Hg.
    + apply (IH st objs); try done.
      * intros y Hy. apply Hin. by right.
      * intros j e e' Hj Hj'. specialize (Hall j e e' Hj Hj'). unfold routed in *.
        simpl in Hall. by rewrite Hp in Hall.
Qed.

(** The rows of an EMF scan at one position. *)
Lemma emf_rows_route (cond : guard) (p : row -> bool) (it : row) (data : list row)
    (st0 st : store) (objs : list group_entry) (k : nat) e e' :
  (forall (st' : store) (x : row), frame st0 st' -> x ∈ data ->
     cond st' it (Some x) = Ok (p x)) ->
  frame st0 st -> st !! i = Some objs -> objs !! k = Some e ->
  Z.of_nat (length objs) < 2 ^ 63 -> routed us p data e e' ->
  fold_ok (fun st xt =>
    b ← cond st it (Some xt);
    if (b : bool) then run_updates us xt (Z.of_nat k) st else Ok st) st data =
  Ok (<[i := <[k := e']> objs]> st).
Proof using Hus.
  revert st objs e. induction data as [|x data IH]; intros st objs e Hcond Hfr Hst Hk Hb He.
  - inversion He; subst. simpl. by rewrite (list_insert_id objs), (list_insert_id st).
  - simpl. rewrite Hcond, obind_Ok by (done || by left).
    assert (Hcond' : forall st' y, frame st0 st' -> y ∈ data -> cond st' it (Some y) = Ok (p y))
      by (intros; apply Hcond; [done|by right]).
    unfold routed in He. simpl in He. destruct (p x); [|by apply (IH st objs e)].
    apply bind_Ok in He as (e1 & He1 & Hrest).
    rewrite (run_updates_at x k st objs e), He1, !obind_Ok by (done || lia).
    rewrite (IH _ (<[k := e1]> objs) e1); [by rewrite !list_insert_insert_eq|done| | | | |done].
    + by apply frame_insert.
    + apply list_lookup_insert_eq. by eapply lookup_lt_Some.
    + apply list_lookup_insert_eq. by eapply lookup_lt_Some.
    + by rewrite length_insert.
Qed.

(** An EMF scan: the entry of a unique takes every row that the condition
    relates to it. *)
Lemma run_emf_scan_routes (cond : guard) (p : row -> row -> bool) (uniques data : list row)
    (st0 st : store) (objs objs' : list group_entry) (pos : nat) :
  (forall (st' : store) (it x : row), frame st0 st' -> it ∈ uniques -> x ∈ data ->
     cond st' it (Some x) = Ok (p it x)) ->
  frame st0 st -> st !! i = Some objs -> Z.of_nat (length objs) < 2 ^ 63 ->
  (pos + length uniques = length objs)%nat -> length objs = length objs' ->
  take pos objs = take pos objs' ->
  (forall j u e e', uniques !! j = Some u -> objs !! (pos + j)%nat = Some e ->
     objs' !! (pos + j)%nat = Some e' -> routed us (p u) data e e') ->
  run_emf_scan_from uniques data cond us (Z.of_nat pos) st = Ok (<[i := objs']> st).
Proof using Hus.
  revert pos st objs. induction uniques as [|u uniques IH];
    intros pos st objs Hcond Hfr Hst Hb Hpos Hlen Htake Hall; simpl in Hpos.
  - simpl. f_equal. symmetry. apply list_insert_id. rewrite Hst. f_equal.
    rewrite !take_ge in Htake by lia. done.
  - destruct (lookup_lt_is_Some_2 objs pos) as [e Hk]; [lia|].
    destruct (lookup_lt_is_Some_2 objs' pos) as [e' Hk']; [lia|].
    assert (He : routed us (p u) data e e')
      by (apply (Hall 0%nat); rewrite ?Nat.add_0_r; done).
    simpl. rewrite (emf_rows_route cond (p u) u data st0 st objs pos e e');
      [|intros; apply Hcond; [done|by left|done]|done..].
    rewrite obind_Ok. replace (Z.of_nat pos + 1) with (Z.of_nat (S pos)) by lia.
    rewrite (IH (S pos) _ (<[pos := e']> objs)).
    + by rewrite list_insert_insert_eq.
    + intros. apply Hcond; [done|by right|done].
    + by apply frame_insert.
    + apply list_lookup_insert_eq. by eapply lookup_lt_Some.
    + by rewrite length_insert.
    + rewrite length_insert. lia.
    + by rewrite length_insert.
    + rewrite (take_S_r _ _ e') by (apply list_lookup_insert_eq; by eapply lookup_lt_Some).
      rewrite (take_S_r objs' _ e') by done. by rewrite take_insert_ge, Htake by lia.
    + intros j v f f' Hv Hf Hf'. rewrite list_lookup_insert_ne in Hf by lia.
      apply (Hall (S j)); [done|by rewrite <- Nat.add_succ_comm|by rewrite <- Nat.add_succ_comm].
Qed.
End routing.
