(* ===== verification/MfQuery.v ===== *)
(** * What an MF or EMF query computes

    The routing of rows to entries (Emitted) combined with the values of the
    update statements: after the scans, the entry of a group holds the sum,
    count, average, minimum and maximum of the rows meant for it.  Minimum and
    maximum start from the zero of [calloc]. *)

From S2P Require Import Prelude Cxx Str Config Column Aggregate Condition.
From S2P Require Import ScanGenerator Average Emitted.

(** ** The value of one field *)

Definition update_field (u : update) : str :=
  match u with
  | AverageAdd _ f _ | AddAssign _ f _ | Increment _ f | KeepMin _ f _ | KeepMax _ f _ => f
  end.

(** The value a statement reads from a row (1 for a counter). *)
Definition update_value (u : update) (x : row) : outcome Z :=
  match u with
  | AverageAdd _ _ c | AddAssign _ _ c | KeepMin _ _ c | KeepMax _ _ c => int_cell x c
  | Increment _ _ => Ok 1
  end.

(** What a statement makes of the field, for the values of the rows. *)
Definition update_result (u : update) (e : group_entry) (vals : list Z) : Prop :=
  match u with
  | AverageAdd _ f _ =>
      avg_of e f = MkAverage (Z.of_nat (length vals)) (sum_list vals)
  | AddAssign _ f _ => num_of e f = sum_list vals
  | Increment _ f => num_of e f = Z.of_nat (length vals)
  | KeepMin _ f _ => num_of e f = fold_right Z.min 0 vals
  | KeepMax _ f _ => num_of e f = fold_right Z.max 0 vals
  end.

Definition field_state (e : group_entry) (f : str) : Z * Average Z := (num_of e f, avg_of e f).

Lemma num_of_set e f z g : num_of (set_num e f z) g = if decide (f = g) then z else num_of e g.
Proof.
  unfold num_of, set_num. simpl. case_decide as H.
  - subst. by rewrite lookup_insert_eq.
  - by rewrite lookup_insert_ne.
Qed.

Lemma apply_update_other u x e e' f :
  apply_update u x e = Ok e' -> f <> update_field u -> field_state e' f = field_state e f.
Proof.
  intros H Hf. unfold field_state.
  assert (Hset : forall c z, f <> c ->
    (num_of (set_num e c z) f, avg_of (set_num e c z) f) = (num_of e f, avg_of e f)).
  { intros c z Hc. by rewrite num_of_set, decide_False. }
  destruct u as [g c col|g c col|g c|g c col|g c col]; simpl in *;
    unfold add_num in *; inv_ok; repeat (case_match; simplify_eq/=); try done;
    try by apply Hset.
  unfold num_of, avg_of. simpl. by rewrite lookup_insert_ne.
Qed.

Lemma entry_updates_other us x e e' f :
  f ∉ map update_field us -> entry_updates us e x = Ok e' -> field_state e' f = field_state e f.
Proof.
  intros Hf. apply (fold_ok_invariant _ (fun r => field_state r f = field_state e f)); [|done].
  intros s v s' Hv Hs Ha. rewrite <- Hs. eapply apply_update_other; [exact Ha|].
  intros ->. apply Hf, list_elem_of_fmap. by exists v.
Qed.

Lemma fold_ok_app {S A} (f : S -> A -> outcome S) l1 l2 s :
  fold_ok f s (l1 ++ l2) = (s' ← fold_ok f s l1; fold_ok f s' l2).
Proof.
  revert s. induction l1 as [|a l1 IH]; intros s; [done|]. simpl.
  destruct (f s a); simpl; [apply IH|done..].
Qed.

(** Only the statement of the field matters for the field. *)
Lemma entry_updates_field us u x e e' :
  NoDup (map update_field us) -> u ∈ us -> entry_updates us e x = Ok e' ->
  exists e1 e2, field_state e1 (update_field u) = field_state e (update_field u) /\
    apply_update u x e1 = Ok e2 /\
    field_state e' (update_field u) = field_state e2 (update_field u).
Proof.
  intros Hn Hu He. apply list_elem_of_split in Hu as (l1 & l2 & ->).
  rewrite map_app, map_cons in Hn. apply NoDup_app in Hn as (_ & Hd & Hn2).
  apply NoDup_cons in Hn2 as [Hnu _].
  unfold entry_updates in He. rewrite fold_ok_app in He. apply bind_Ok in He as (e1 & He1 & He).
  apply fold_ok_cons in He as (e2 & He2 & He). exists e1, e2. split; [|split; [done|]].
  - apply (entry_updates_other l1 x); [|done]. intros Hin. apply (Hd _ Hin). by left.
  - by apply (entry_updates_other l2 x).
Qed.

Lemma fold_right_snoc (op : Z -> Z -> Z) z l v :
  (forall a b c, op a (op b c) = op (op a b) c) -> (forall a b, op a b = op b a) ->
  fold_right op z (l ++ [v]) = op (fold_right op z l) v.
Proof.
  intros Ha Hc. induction l as [|a l IH]; simpl; [by apply Hc|]. by rewrite IH, Ha.
Qed.

Lemma sum_list_snoc l v : sum_list (l ++ [v]) = sum_list l + v.
Proof. apply fold_right_snoc; intros; lia. Qed.
Lemma min_snoc l v : fold_right Z.min 0 (l ++ [v]) = Z.min (fold_right Z.min 0 l) v.
Proof. apply fold_right_snoc; intros; lia. Qed.
Lemma max_snoc l v : fold_right Z.max 0 (l ++ [v]) = Z.max (fold_right Z.max 0 l) v.
Proof. apply fold_right_snoc; intros; lia. Qed.

(** One row more: the result extends to the value read from the row. *)
Lemma update_result_step us u x e e' vals :
  NoDup (map update_field us) -> u ∈ us -> update_result u e vals ->
  entry_updates us e x = Ok e' ->
  exists v, update_value u x = Ok v /\ update_result u e' (vals ++ [v]).
Proof.
  intros Hn Hu Hr He.
  destruct (entry_updates_field us u x e e' Hn Hu He) as (e1 & e2 & H1 & Ha & H2).
  unfold field_state in H1, H2. injection H1 as Hn1 Ha1. injection H2 as Hn2 Ha2.
  destruct u as [g f col|g f col|g f|g f col|g f col]; simpl in *.
  - apply bind_Ok in Ha as (v & Hv & Ha). apply bind_Ok in Ha as (a & Hadd & [= <-]).
    exists v. split; [done|]. rewrite Ha2. unfold avg_of at 1. simpl.
    rewrite lookup_insert_eq. simpl. rewrite Ha1, Hr in Hadd. unfold add in Hadd. simpl in Hadd.
    destruct (in_int64 _); [|done]. destruct (in_int _); [|done]. injection Hadd as <-.
    rewrite length_app, sum_list_snoc. simpl. f_equal; lia.
  - apply bind_Ok in Ha as (v & Hv & Ha). exists v. split; [done|].
    rewrite sum_list_snoc, Hn2, <- Hr, <- Hn1. unfold add_num in Ha.
    destruct (in_int64 _); [|done]. injection Ha as <-.
    by rewrite num_of_set, decide_True.
  - exists 1. split; [done|]. rewrite length_app, Hn2. unfold add_num in Ha.
    destruct (in_int64 _); [|done]. injection Ha as <-.
    rewrite num_of_set, decide_True by done. simpl. lia.
  - apply bind_Ok in Ha as (v & Hv & [= <-]). exists v. split; [done|].
    rewrite min_snoc, Hn2, <- Hr, <- Hn1.
    rewrite Z.gtb_ltb. destruct (Z.ltb_spec v (num_of e1 f));
      rewrite ?num_of_set, ?decide_True by done; lia.
  - apply bind_Ok in Ha as (v & Hv & [= <-]). exists v. split; [done|].
    rewrite max_snoc, Hn2, <- Hr, <- Hn1.
    destruct (Z.ltb_spec (num_of e1 f) v);
      rewrite ?num_of_set, ?decide_True by done; lia.
Qed.

(** The result over a list of rows. *)
Lemma update_result_rows us u xs e e' vals :
  NoDup (map update_field us) -> u ∈ us -> update_result u e vals ->
  fold_ok (entry_updates us) e xs = Ok e' ->
  exists vs, mapM (update_value u) xs = Ok vs /\ update_result u e' (vals ++ vs).
Proof.
  intros Hn Hu. revert e vals. induction xs as [|x xs IH]; intros e vals Hr He.
  - injection He as <-. exists []. by rewrite app_nil_r.
  - apply fold_ok_cons in He as (e1 & He1 & He).
    destruct (update_result_step us u x e e1 vals Hn Hu Hr He1) as (v & Hv & Hr1).
    destruct (IH e1 (vals ++ [v]) Hr1 He) as (vs & Hvs & Hr2).
    exists (v :: vs). split; [by simpl; rewrite Hv, obind_Ok, Hvs|].
    by rewrite <- app_assoc in Hr2.
Qed.

Lemma update_result_new u cols x : update_result u (new_entry cols x) [].
Proof.
  destruct u; simpl; unfold num_of, avg_of, new_entry; simpl; by rewrite lookup_empty.
Qed.

(** ** No overflow *)

(** Every member stays within [n] steps of size [B]. *)
Definition within (B n : Z) (e : group_entry) : Prop :=
  forall f, Z.abs (num_of e f) <= n * B /\ Z.abs (avg_sum (avg_of e f)) <= n * B /\
            0 <= avg_count (avg_of e f) <= n.

(** The row has an integer of size at most [B] where a statement reads one. *)
Definition row_ok (B : Z) (us : list update) (x : row) : Prop :=
  forall u, u ∈ us -> exists v, update_value u x = Ok v /\ Z.abs v <= B.

Lemma within_set B n e f z :
  0 <= B -> within B n e -> Z.abs z <= (n + 1) * B -> within B (n + 1) (set_num e f z).
Proof.
  intros HB He Hz g. destruct (He g) as (H1 & H2 & H3). rewrite num_of_set.
  unfold avg_of in *. simpl. split; [case_decide; lia|]. split; lia.
Qed.

Lemma within_mono B n m e : 0 <= B -> n <= m -> within B n e -> within B m e.
Proof. intros HB Hnm He f. destruct (He f) as (H1 & H2 & H3). nia. Qed.

Lemma in_int64_abs z : Z.abs z < 2 ^ 63 -> in_int64 z = true.
Proof. unfold in_int64. intros. apply andb_true_iff. lia. Qed.

Lemma apply_update_within B n u x e v :
  1 <= B -> 0 <= n -> (n + 1) * B < 2 ^ 63 -> n < INT_MAX ->
  within B n e -> update_value u x = Ok v -> Z.abs v <= B ->
  exists e', apply_update u x e = Ok e' /\ within B (n + 1) e'.
Proof.
  intros HB Hn Hb Hi He Hv Hvb.
  assert (Hadd : forall f w, Z.abs w <= B -> exists e', add_num e f w = Ok e' /\ within B (n + 1) e').
  { intros f w Hw. destruct (He f) as (H1 & _). unfold add_num.
    rewrite in_int64_abs by lia. eexists. split; [done|]. apply within_set; [lia|done|lia]. }
  assert (Hk : forall (b : bool) f, exists e', Ok (if b then set_num e f v else e) = Ok e' /\ within B (n + 1) e').
  { intros b f. eexists. split; [done|]. destruct b; [apply within_set; [lia|done|lia]|].
    apply (within_mono B n); [lia|lia|done]. }
  destruct u as [g f col|g f col|g f|g f col|g f col]; simpl in *; try rewrite Hv, obind_Ok.
  - destruct (He f) as (H1 & H2 & H3). unfold add. simpl.
    rewrite in_int64_abs by lia. rewrite obind_Ok.
    rewrite (proj2 (in_int_spec _)) by (unfold INT_MIN, INT_MAX in *; lia).
    rewrite obind_Ok. eexists. split; [done|]. intros h. destruct (He h) as (H4 & H5 & H6).
    unfold num_of, avg_of in *. simpl. split; [lia|].
    destruct (decide (f = h)) as [->|Hne].
    + rewrite lookup_insert_eq. simpl. lia.
    + rewrite lookup_insert_ne by done. split; lia.
  - by apply Hadd.
  - apply Hadd. lia.
  - apply Hk.
  - apply Hk.
Qed.

Lemma entry_updates_within B n us x e :
  1 <= B -> 0 <= n -> (n + Z.of_nat (length us)) * B < 2 ^ 63 ->
  n + Z.of_nat (length us) <= INT_MAX -> within B n e -> row_ok B us x ->
  exists e', entry_updates us e x = Ok e' /\ within B (n + Z.of_nat (length us)) e'.
Proof.
  intros HB. revert n e. induction us as [|u us IH]; intros n e Hn Hb Hi He Hx.
  - exists e. split; [done|]. by rewrite Z.add_0_r.
  - simpl length in *. destruct (Hx u) as (v & Hv & Hvb); [by left|].
    destruct (apply_update_within B n u x e v) as (e1 & E1 & He1); [done..|nia|lia|done|done|done|].
    destruct (IH (n + 1) e1) as (e' & E' & He'); [lia|nia|lia|done| |].
    + intros w Hw. apply Hx. by right.
    + exists e'. split; [unfold entry_updates in *; simpl; by rewrite E1|].
      by replace (n + Z.of_nat (S (length us))) with (n + 1 + Z.of_nat (length us)) by lia.
Qed.

(** Enough room for every update of a scan over the whole table. *)
Record room (B : Z) (us : list update) (data : list row) : Prop := {
  room_pos : 1 <= B;
  room_sum : Z.of_nat (length data) * Z.of_nat (length us) * B < 2 ^ 63;
  room_count : Z.of_nat (length data) * Z.of_nat (length us) <= INT_MAX;
  room_rows : Forall (row_ok B us) data;
}.

Lemma rows_within B n us xs e :
  1 <= B -> 0 <= n -> (n + Z.of_nat (length xs) * Z.of_nat (length us)) * B < 2 ^ 63 ->
  n + Z.of_nat (length xs) * Z.of_nat (length us) <= INT_MAX -> within B n e ->
  Forall (row_ok B us) xs ->
  exists e', fold_ok (entry_updates us) e xs = Ok e'.
Proof.
  intros HB. revert n e. induction xs as [|x xs IH]; intros n e Hn Hb Hi He Hx; [by exists e|].
  apply Forall_cons in Hx as [Hx Hxs]. simpl length in *.
  replace (n + Z.of_nat (S (length xs)) * Z.of_nat (length us))
    with (n + Z.of_nat (length us) + Z.of_nat (length xs) * Z.of_nat (length us)) in * by lia.
  assert (0 <= Z.of_nat (length xs) * Z.of_nat (length us)) by lia.
  destruct (entry_updates_within B n us x e) as (e1 & E1 & He1);
    [done|done| |lia|done|done|].
  { eapply Z.le_lt_trans; [|exact Hb]. apply Z.mul_le_mono_nonneg_r; lia. }
  destruct (IH (n + Z.of_nat (length us)) e1) as (e' & E'); [lia|done|done|done|done|].
  exists e'. simpl. by rewrite E1.
Qed.

Lemma new_entry_within B n cols x : 0 <= B -> 0 <= n -> within B n (new_entry cols x).
Proof.
  intros HB Hn f. unfold num_of, avg_of, new_entry. simpl. rewrite !lookup_empty. simpl. nia.
Qed.

Lemma length_filter_le {A} (f : A -> bool) l : (length (List.filter f l) <= length l)%nat.
Proof. induction l as [|a l IH]; simpl; [lia|]. destruct (f a); simpl; lia. Qed.

(** A fresh entry takes any selection of the rows. *)
Lemma routed_exists B us data sel cols x :
  room B us data -> exists e', routed us sel data (new_entry cols x) e'.
Proof.
  intros [HB Hs Hc Hr]. pose proof (length_filter_le sel data) as Hl.
  assert (Hm : Z.of_nat (length (List.filter sel data)) * Z.of_nat (length us) <=
    Z.of_nat (length data) * Z.of_nat (length us)) by (apply Z.mul_le_mono_nonneg_r; lia).
  apply (rows_within B 0); [done|lia| |lia|apply new_entry_within; lia|].
  { eapply Z.le_lt_trans; [|exact Hs]. apply Z.mul_le_mono_nonneg_r; lia. }
  rewrite Forall_forall in Hr |- *. intros y Hy. apply Hr.
  apply list_elem_of_In, filter_In in Hy as [Hy _]. by apply list_elem_of_In.
Qed.

Lemma pick_list {A B} (R : A -> B -> Prop) l :
  (forall a, a ∈ l -> exists b, R a b) -> exists k, Forall2 R l k.
Proof.
  induction l as [|a l IH]; intros H; [by exists []|].
  destruct (H a) as [b Hb]; [by left|]. destruct IH as [k Hk]; [intros; apply H; by right|].
  exists (b :: k). by constructor.
Qed.

(** ** The scans *)

(** An entry that holds the results of every update over the rows [xs]. *)
Definition holds (us : list update) (xs : list row) (e : group_entry) : Prop :=
  forall u, u ∈ us -> exists vals, mapM (update_value u) xs = Ok vals /\ update_result u e vals.

Lemma routed_holds us sel data cols x e :
  NoDup (map update_field us) -> routed us sel data (new_entry cols x) e ->
  holds us (List.filter sel data) e.
Proof.
  intros Hn He u Hu.
  destruct (update_result_rows us u _ _ e [] Hn Hu (update_result_new u cols x) He)
    as (vs & Hvs & Hr). by exists vs.
Qed.

Lemma routed_cells us sel data e e' : routed us sel data e e' -> e_cells e' = e_cells e.
Proof.
  apply (fold_ok_invariant _ (fun r => e_cells r = e_cells e)); [|done].
  intros s x s' _ Hs Hx. rewrite <- Hs. by eapply entry_updates_cells.
Qed.

Lemma length_uniques_loop (attrs : list str) (d out : list row) :
  (length (get_uniques_loop attrs d out) <= length out + length d)%nat.
Proof.
  revert out. induction d as [|x d IH]; intros out; simpl; [lia|].
  destruct (is_unique _ _ _); [|etrans; [apply IH|lia]].
  etrans; [apply IH|]. rewrite length_app. simpl. lia.
Qed.

Section scans.
Context (i : nat) (us : list update) (attrs cols : list str) (data : list row).
Context (Hus : Forall (fun u => update_group u = Z.of_nat i) us).
Context (Hfields : NoDup (map update_field us)).
Context (Hcols : attrs ⊆ cols).
Context (B : Z) (Hroom : room B us data).
Context (Hdata : Z.of_nat (length data) < 2 ^ 63).

Local Abbreviation uniques := (get_uniques attrs data).
Local Abbreviation objs := (map (new_entry cols) uniques).

Local Lemma objs_bound : Z.of_nat (length objs) < 2 ^ 63.
Proof using Hdata.
  rewrite length_map. pose proof (length_uniques_loop attrs data []). simpl in *.
  unfold get_uniques. lia.
Qed.

Local Lemma objs_lookup k e :
  objs !! k = Some e -> exists u, uniques !! k = Some u /\ e = new_entry cols u.
Proof using. intros (u & -> & Hu)%list_lookup_fmap_Some. by exists u. Qed.

Lemma mf_scan_holds (cond : guard) (p : row -> bool) (st : store) :
  Z.of_nat (length uniques) <= 2 ^ 31 -> st !! i = Some objs ->
  (forall (st' : store) (x : row), frame i st st' -> x ∈ data -> cond st' x None = Ok (p x)) ->
  exists objs',
    run_mf_scan attrs data (Z.of_nat i) cond us st = Ok (<[i := objs']> st) /\
    Forall2 (fun u e => e_cells e = copy_columns cols u /\
      holds us (List.filter (fun x => p x && same_key attrs x u) data) e) uniques objs'.
Proof using Hus Hfields Hcols Hroom.
  intros Hkeys Hst Hcond.
  destruct (pick_list (fun u e => routed us (fun x => p x && same_key attrs x u) data
    (new_entry cols u) e) uniques) as [objs' Ho].
  { intros u _. by apply (routed_exists B). }
  exists objs'. split.
  - destruct (get_uniques_spec attrs data) as (Hd & _ & Hin).
    apply (run_mf_scan_routes i us Hus attrs cond p data st st objs objs');
      [done|done|done|by rewrite length_map| | | |].
    + intros j k x y Hj Hk Hs. rewrite !list_lookup_fmap in Hj, Hk.
      destruct (uniques !! j) as [u|] eqn:Ej, (uniques !! k) as [v|] eqn:Ek; simplify_eq/=.
      apply (Hd j k u v); [done|done|].
      rewrite same_key_copy, same_key_sym, same_key_copy, same_key_sym in Hs by done. done.
    + intros x Hx. destruct (Hin x Hx) as (y & Hy & Hs).
      apply list_elem_of_lookup in Hy as [k Hk]. exists k, (new_entry cols y).
      split; [by rewrite list_lookup_fmap, Hk|]. simpl. by rewrite same_key_copy.
    + rewrite length_map. by eapply Forall2_length.
    + intros j e e' Hj He'. apply objs_lookup in Hj as (u & Hu & ->).
      pose proof (Forall2_lookup_lr _ _ _ _ _ _ Ho Hu He') as Hr.
      unfold routed in *. simpl. erewrite filter_ext; [exact Hr|].
      intros x. simpl. by rewrite (same_key_copy attrs cols x u Hcols).
  - eapply Forall2_impl; [exact Ho|]. intros u e He.
    exact (conj (routed_cells _ _ _ _ _ He) (routed_holds _ _ _ _ _ _ Hfields He)).
Qed.

Lemma emf_scan_holds (cond : guard) (p : row -> row -> bool) (st : store) :
  st !! i = Some objs ->
  (forall (st' : store) (u x : row), frame i st st' -> u ∈ uniques -> x ∈ data ->
     cond st' u (Some x) = Ok (p u x)) ->
  exists objs',
    run_emf_scan uniques data cond us st = Ok (<[i := objs']> st) /\
    Forall2 (fun u e => e_cells e = copy_columns cols u /\
      holds us (List.filter (p u) data) e) uniques objs'.
Proof using Hus Hfields Hroom Hdata.
  intros Hst Hcond.
  destruct (pick_list (fun u e => routed us (p u) data (new_entry cols u) e) uniques)
    as [objs' Ho]; [intros u _; by apply (routed_exists B)|].
  exists objs'. split.
  - apply (run_emf_scan_routes i us Hus cond p uniques data st st objs objs' 0);
      [done|done|done|apply objs_bound| | |done|].
    + by rewrite length_map.
    + rewrite length_map. by eapply Forall2_length.
    + intros j u e e' Hu He He'. simpl in He, He'.
      apply objs_lookup in He as (v & Hv & ->). simplify_eq.
      by apply (Forall2_lookup_lr _ _ _ _ _ _ Ho Hu He').
  - eapply Forall2_impl; [exact Ho|]. intros u e He.
    exact (conj (routed_cells _ _ _ _ _ He) (routed_holds _ _ _ _ _ _ Hfields He)).
Qed.
End scans.

(** ** The updates of a query *)

Definition update_list (l : list Aggregate) : list update := omap update_of l.

(** The hypotheses of one scan, for each grouping variable. *)
Definition scan_ok (B : Z) (data : list row) (l : list Aggregate) (i : Z) : Prop :=
  NoDup (map update_field (update_list (of_group i l))) /\
  room B (update_list (of_group i l)) data.

(** ** Filling and filtering *)

Section fill.
Context {R : Type} (keep : row -> outcome bool) (fill : row -> outcome R).
Context (k : row -> bool) (r : row -> R).

Lemma run_fill_from before entries :
  before <> [] ->
  Forall (fun e => keep e = Ok (k e) /\ (k e = true -> fill e = Ok (r e))) entries ->
  run_fill keep fill before entries = Ok (rev before ++ map r (List.filter k entries)).
Proof using.
  intros Hb He. revert before Hb. induction He as [|e entries [Hk Hf] _ IH]; intros before Hb.
  - simpl. by rewrite app_nil_r.
  - simpl. rewrite Hk, obind_Ok. destruct (k e).
    + rewrite (Hf eq_refl), obind_Ok, IH by done. simpl. by rewrite <- app_assoc.
    + destruct before as [|b before]; [done|]. by apply IH.
Qed.

(** The rejected rows are removed, unless the first one is: then the loop
    steps before the beginning of the vector. *)
Lemma run_fill_spec entries :
  Forall (fun e => keep e = Ok (k e) /\ (k e = true -> fill e = Ok (r e))) entries ->
  run_fill keep fill [] entries =
    match entries with
    | e :: _ => if k e then Ok (map r (List.filter k entries)) else Undefined
    | [] => Ok []
    end.
Proof using.
  intros He. destruct He as [|e entries [Hk Hf] He]; [done|].
  simpl. rewrite Hk, obind_Ok. destruct (k e); [|done].
  rewrite (Hf eq_refl), obind_Ok. by rewrite run_fill_from.
Qed.
End fill.

(** ** Conditions *)

(** A condition whose value is neither a column nor an aggregate looks at the
    row [*it] only. *)
Lemma eval_condition_constant attrs columns c st st' it xt xt' :
  isColumn (cond_value c) columns = false -> hasColumn (cond_value c) columns = false ->
  isAggregate (cond_value c) = Ok false ->
  eval_condition attrs columns c st it xt = eval_condition attrs columns c st' it xt'.
Proof.
  intros H1 H2 H3. unfold eval_condition, condition_test, condition_right. by rewrite H1, H2, H3.
Qed.

(** A quoted value is compared for equality whatever the operator. *)
Lemma eval_comparison_quoted c op a b :
  contains (cond_value c) "\q" = true ->
  eval_comparison (MkCondition (cond_group c) (cond_column c) op (cond_value c)) a b =
  eval_comparison c a b.
Proof. intros H. unfold eval_comparison. simpl. by rewrite H. Qed.

(** A condition on an aggregate of a grouping variable is false for the rows of
    the first group. *)
Lemma eval_condition_first_group attrs columns c a st objs e it v xt :
  isColumn (cond_value c) columns = false -> isAggregate (cond_value c) = Ok true ->
  contains (cond_column c) "avg" = false -> it !! cond_column c = Some v ->
  (forall w, Aggregate_new (cond_value c) w = (Ok a, w)) ->
  st !! Z.to_nat (agg_group a) = Some objs -> objs !! 0%nat = Some e ->
  same_key attrs it (e_cells e) = true ->
  eval_condition attrs columns c st it xt = Ok false.
Proof.
  intros H1 H2 H3 H4 H5 H6 H7 H8. unfold eval_condition, condition_test, condition_right.
  rewrite H1, H2, obind_Ok, H5. unfold eval_test. simpl. rewrite H4, H3. simpl.
  rewrite H6. simpl. destruct objs as [|e' objs]; [done|]. injection H7 as ->.
  unfold vfind. simpl. by rewrite H8.
Qed.
