(* ===== verification/Query.v ===== *)
(** * What the emitted program answers

    The scans of all grouping variables in order, MF or EMF, where the condition
    of a variable may refer to the aggregates of earlier variables, and the whole
    emitted [main]. *)

From S2P Require Import Prelude Cxx Str Config Column Aggregate Condition.
From S2P Require Import ScanGenerator Average Emitted MfQuery.

Definition holds_true (o : outcome bool) : bool := match o with Ok b => b | _ => false end.

Lemma holds_true_ok o : is_ok o = true -> o = Ok (holds_true o).
Proof. by destruct o. Qed.

(** ** Conditions that refer to earlier grouping variables *)

(** An aggregate on the right of the condition belongs to a variable before [i]. *)
Definition refers_below (i : Z) (c : Condition) : bool :=
  match isAggregate (cond_value c),
        (Aggregate_new (cond_value c) (World [] true [] [] ∅ (fun _ => true) [])).1 with
  | Ok true, Ok a => (0 <=? agg_group a) && (agg_group a <? i)
  | _, _ => true
  end.

Definition refers_back (g : Scan_Generator) : Prop :=
  forall i l cs c, select_conditions g = Some l -> 1 <= i ->
    l !! Z.to_nat (i - 1) = Some cs -> c ∈ conds cs -> refers_below i c = true.

(** Stores that agree on the variables before [i]. *)
Definition agree_below (i : Z) (st st' : store) : Prop :=
  forall j, 0 <= j < i -> st !! Z.to_nat j = st' !! Z.to_nat j.

Definition test_below (i : Z) (t : ctest) : bool :=
  match t_right t with RAggregate group _ _ => (0 <=? group) && (group <? i) | _ => true end.

Lemma condition_test_below columns i c t :
  refers_below i c = true -> condition_test columns c = Ok t -> test_below i t = true.
Proof.
  unfold condition_test, condition_right, refers_below. intros Hc Ht.
  destruct (isColumn _ _); [by simplify_eq/=|].
  destruct (isAggregate _) as [[]| | |]; [| |done..]; rewrite obind_Ok in Ht.
  - destruct (Aggregate_new _ _).1 as [a| | |]; [|done..]. by simplify_eq/=.
  - destruct (hasColumn _ _); by simplify_eq/=.
Qed.

Lemma eval_test_below attrs i t st st' it xt :
  test_below i t = true -> agree_below i st st' ->
  eval_test attrs t st it xt = eval_test attrs t st' it xt.
Proof.
  intros Ht Hst. unfold eval_test, test_below in *. destruct (t_right t); [done| |done].
  by rewrite Hst by lia.
Qed.

(** The conditions a disjunction is made of. *)
Lemma disjuncts_sub {A} (c : A) rest l run d :
  disjuncts c rest = Some l -> run ∈ l -> d ∈ run -> d = c \/ d ∈ map snd rest.
Proof.
  revert c l run. induction rest as [|[op e] rest IH]; intros c l run H Hrun Hd; simpl in *.
  - injection H as <-. apply list_elem_of_singleton in Hrun as ->. left.
    by apply list_elem_of_singleton in Hd.
  - destruct (disjuncts e rest) as [k|] eqn:E; [|done]. simpl in H.
    assert (IH' : forall run, run ∈ k -> d ∈ run -> d ∈ e :: map snd rest).
    { intros r Hr Hdr. apply elem_of_cons. by apply (IH e k r). }
    destruct (is_and op); [|destruct (is_or op); [|done]].
    + destruct k as [|r k]; [done|]. injection H as <-.
      apply elem_of_cons in Hrun as [->|Hrun].
      * apply elem_of_cons in Hd as [->|Hd]; [by left|right].
        apply (IH' r); [by left|done].
      * right. apply (IH' run); [by right|done].
    + injection H as <-. apply elem_of_cons in Hrun as [->|Hrun].
      * left. by apply list_elem_of_singleton in Hd.
      * right. by apply (IH' run).
Qed.

Lemma all_of_ext {A} (f h : A -> outcome bool) l :
  (forall c, c ∈ l -> f c = h c) -> all_of f l = all_of h l.
Proof.
  induction l as [|c l IH]; intros H; [done|]. simpl. rewrite H by by left.
  destruct (h c) as [[]| | |]; simpl; [|done..]. apply IH. intros d Hd. apply H. by right.
Qed.

Lemma any_of_ext {A} (f h : list A -> outcome bool) l :
  (forall c, c ∈ l -> f c = h c) -> any_of f l = any_of h l.
Proof.
  induction l as [|c l IH]; intros H; [done|]. simpl. rewrite H by by left.
  destruct (h c) as [[]| | |]; simpl; [done| |done..]. apply IH. intros d Hd. apply H. by right.
Qed.

Lemma other_tests_below columns i ops l r :
  (forall c, c ∈ l -> refers_below i c = true) -> other_tests columns ops l = Ok r ->
  forall t, t ∈ map snd r -> test_below i t = true.
Proof.
  revert ops r. induction l as [|c l IH]; intros ops r Hl Hr t Ht; simpl in Hr.
  { injection Hr as <-. by apply elem_of_nil in Ht. }
  destruct ops as [|op ops]; [done|]. apply bind_Ok in Hr as (u & Hu & Hr).
  apply bind_Ok in Hr as (r' & Hr' & [= <-]). simpl in Ht. apply elem_of_cons in Ht as [->|Ht].
  - apply (condition_test_below columns i c); [apply Hl; by left|done].
  - apply (IH ops r'); [|done|done]. intros d Hd. apply Hl. by right.
Qed.

Lemma eval_conditions_below attrs columns i cs st st' it xt :
  (forall c, c ∈ conds cs -> refers_below i c = true) -> agree_below i st st' ->
  eval_conditions attrs columns cs st it xt = eval_conditions attrs columns cs st' it xt.
Proof.
  intros Hc Hst. unfold eval_conditions, conditions_guard. destruct (conds cs) as [|c rest]; [done|].
  destruct (condition_test columns c) as [t| | |] eqn:Et; [|done..]. rewrite !obind_Ok.
  destruct (other_tests columns (ops cs) rest) as [r| | |] eqn:Er; [|done..]. rewrite !obind_Ok.
  unfold eval_guard. simpl. destruct (disjuncts t r) as [l|] eqn:E; [|done]. cbn [deref].
  rewrite !obind_Ok. apply any_of_ext. intros run Hrun. apply all_of_ext. intros u Hu.
  apply (eval_test_below attrs i); [|done].
  destruct (disjuncts_sub _ _ _ _ _ E Hrun Hu) as [->|Hin].
  - apply (condition_test_below columns i c); [apply Hc; by left|done].
  - apply (other_tests_below columns i (ops cs) rest r); [|done|done]. intros d Hd. apply Hc. by right.
Qed.

Lemma guard_below g i st st' it xt :
  refers_back g -> 0 <= i < 2 ^ 63 -> agree_below i st st' ->
  guard_of g i st it xt = guard_of g i st' it xt.
Proof.
  intros Hg Hi Hst. unfold guard_of. destruct (Z.eqb_spec i 0); [done|].
  destruct (select_conditions g) as [l|] eqn:El; [|done]. cbn [deref]. rewrite !obind_Ok.
  unfold vec_at. rewrite to_size_t_small by lia. case_decide; [|done].
  destruct (l !! Z.to_nat (i - 1)) as [cs|] eqn:Ecs; [|done]. rewrite !obind_Ok.
  apply (eval_conditions_below _ _ i); [|done]. intros c Hc. by apply (Hg i l cs c El); [lia| |].
Qed.

(** ** The scans of a query *)

Section query.
Context (g : Scan_Generator) (data : list row) (B : Z).
Local Abbreviation attrs := (grouping_attr g).
Local Abbreviation cols := (sg_select_columns g).
Local Abbreviation aggs := (all_aggregates g).
Local Abbreviation n := (no_grouping_vars g).
Local Abbreviation uniques := (get_uniques attrs data).

(** The rows that variable [i] selects for the key of [u]: an MF condition looks
    at the row itself, which must have the key; an EMF condition relates any row
    of the table to the row of the key. *)
Definition selects (st : store) (i : Z) (u x : row) : bool :=
  if emf g then holds_true (guard_of g i st u (Some x))
  else holds_true (guard_of g i st x None) && same_key attrs x u.

(** Every variable has one entry per key. *)
Definition shaped (st : store) : Prop :=
  forall j, 0 <= j <= n -> exists objs, st !! Z.to_nat j = Some objs /\
    map e_cells objs = map (copy_columns cols) uniques.

(** The conditions compile and can be evaluated. *)
Definition guards_total : Prop :=
  forall i st it x, 0 <= i <= n -> shaped st -> it ∈ data -> x ∈ data ->
    is_ok (guard_of g i st it (if emf g then Some x else None)) = true.

(** They depend on the entries of earlier variables only. *)
Definition looks_back : Prop :=
  forall i st st' it x, 0 <= i <= n -> it ∈ data -> x ∈ data -> agree_below i st st' ->
    let xt := if emf g then Some x else None in
    guard_of g i st it xt = guard_of g i st' it xt.

(** The entries of variable [i] hold the aggregates of the rows it selects. *)
Definition group_ok (sel : store) (st : store) (i : Z) : Prop :=
  exists objs, st !! Z.to_nat i = Some objs /\
    Forall2 (fun u e => e_cells e = copy_columns cols u /\
      holds (update_list (of_group i aggs)) (List.filter (selects sel i u) data) e) uniques objs.

Lemma refers_looks_back : 0 <= n < 2 ^ 31 -> refers_back g -> looks_back.
Proof using.
  intros Hn Hg i st st' it x Hi _ _ Ha. apply guard_below; [done|lia|done].
Qed.

Context (Hcols : attrs ⊆ cols) (Hdata : Z.of_nat (length data) < 2 ^ 63).
Context (Hkeys : Z.of_nat (length uniques) <= 2 ^ 31).
Context (Hn : 0 <= n < 2 ^ 31) (Hback : looks_back) (Htotal : guards_total).
Context (Hok : forall i, 0 <= i <= n -> scan_ok B data aggs i).

Lemma filter_below sel sel' i u :
  0 <= i <= n -> u ∈ data -> agree_below i sel sel' ->
  List.filter (selects sel i u) data = List.filter (selects sel' i u) data.
Proof using Hback.
  intros Hi Hu Ha. apply filter_ext_in. intros x Hx%list_elem_of_In. unfold selects.
  assert (Hx' := Hback i sel sel' x x Hi Hx Hx Ha).
  assert (Hux := Hback i sel sel' u x Hi Hu Hx Ha).
  destruct (emf g); simpl in *; congruence.
Qed.

Lemma group_ok_below sel sel' st i :
  0 <= i <= n -> agree_below i sel sel' -> group_ok sel st i -> group_ok sel' st i.
Proof using Hback.
  intros Hi Ha (objs & Ho & Hf). exists objs. split; [done|].
  destruct (get_uniques_spec attrs data) as (_ & Hin & _).
  apply Forall2_same_length_lookup. split; [by eapply Forall2_length|].
  intros k u e Hu He. destruct (Forall2_lookup_lr _ _ _ _ _ _ Hf Hu He) as [Hc Hh].
  split; [done|]. rewrite <- (filter_below sel sel' i u); [done|done| |done].
  by eapply Hin, list_elem_of_lookup_2.
Qed.

(** One scan, of either kind. *)
Lemma scan_group i st :
  0 <= i <= n -> shaped st -> st !! Z.to_nat i = Some (map (new_entry cols) uniques) ->
  exists objs,
    (if emf g then run_emf_scan uniques data (guard_of g i) (update_list (of_group i aggs)) st
     else run_mf_scan attrs data i (guard_of g i) (update_list (of_group i aggs)) st) =
      Ok (<[Z.to_nat i := objs]> st) /\
    Forall2 (fun u e => e_cells e = copy_columns cols u /\
      holds (update_list (of_group i aggs)) (List.filter (selects st i u) data) e) uniques objs.
Proof using Hcols Hdata Hkeys Hn Hback Htotal Hok.
  intros Hi Hsh Hst. destruct (Hok i Hi) as [Hf Hr].
  destruct (get_uniques_spec attrs data) as (_ & Hin & _).
  assert (Hus : Forall (fun u => update_group u = Z.of_nat (Z.to_nat i))
    (update_list (of_group i aggs))) by (rewrite Z2Nat.id by lia; apply updates_of_group).
  assert (Hfr : forall st', frame (Z.to_nat i) st st' -> agree_below i st' st).
  { intros st' [_ Hj] j Hlt. apply Hj. lia. }
  assert (Hg : forall st' it x, frame (Z.to_nat i) st st' -> it ∈ data -> x ∈ data ->
    let xt := if emf g then Some x else None in
    guard_of g i st' it xt = Ok (holds_true (guard_of g i st it xt))).
  { intros st' it x Hst' Hit Hx. simpl. rewrite (Hback i st' st it x) by auto.
    by apply holds_true_ok, Htotal. }
  unfold selects. destruct (emf g) eqn:Hemf.
  - destruct (emf_scan_holds (Z.to_nat i) (update_list (of_group i aggs)) attrs cols data Hus Hf
      B Hr Hdata (guard_of g i) (fun u x => holds_true (guard_of g i st u (Some x))) st Hst)
      as (objs & E & Ho); [|by exists objs].
    intros st' u x Hst' Hu Hx. apply (Hg st' u x); auto.
  - destruct (mf_scan_holds (Z.to_nat i) (update_list (of_group i aggs)) attrs cols data Hus Hf
      Hcols B Hr (guard_of g i) (fun x => holds_true (guard_of g i st x None)) st Hkeys Hst)
      as (objs & E & Ho).
    + intros st' x Hst' Hx. by apply (Hg st' x x).
    + exists objs. by rewrite Z2Nat.id in E by lia.
Qed.

Lemma shaped_insert st i objs :
  0 <= i -> shaped st -> (Z.to_nat i < length st)%nat ->
  map e_cells objs = map (copy_columns cols) uniques -> shaped (<[Z.to_nat i := objs]> st).
Proof using.
  intros Hi Hsh Hlt Ho j Hj. destruct (decide (j = i)) as [->|Hne].
  - exists objs. split; [by apply list_lookup_insert_eq|done].
  - rewrite list_lookup_insert_ne by lia. by apply Hsh.
Qed.

Lemma group_cells (P : row -> group_entry -> Prop) objs l :
  Forall2 (fun u e => e_cells e = copy_columns cols u /\ P u e) l objs ->
  map e_cells objs = map (copy_columns cols) l.
Proof using. induction 1 as [|u e l objs [Hc _] _ IH]; simpl; congruence. Qed.

(** The scans from variable [i] on. *)
Lemma run_scans_from (k : nat) (i : Z) (st : store) :
  0 <= i -> i + Z.of_nat k = n + 1 -> shaped st ->
  (forall j, i <= j <= n -> st !! Z.to_nat j = Some (map (new_entry cols) uniques)) ->
  exists st',
    run_scans g uniques data i (map (fun j => of_group j aggs) (seqZ i (Z.of_nat k))) st = Ok st' /\
    shaped st' /\ agree_below i st' st /\ forall j, i <= j <= n -> group_ok st' st' j.
Proof using Hcols Hdata Hkeys Hn Hback Htotal Hok.
  revert i st. induction k as [|k IH]; intros i st Hi Hk Hsh Hst.
  - exists st. split; [done|]. split; [done|]. split; [done|]. intros j Hj. lia.
  - rewrite seqZ_cons by lia. replace (Z.pred (Z.of_nat (S k))) with (Z.of_nat k) by lia.
    replace (Z.succ i) with (i + 1) by lia. cbn [map run_scans].
    destruct (scan_group i st) as (objs & E & Ho); [lia|done|apply Hst; lia|].
    unfold update_list in E. rewrite E, obind_Ok.
    assert (Hlt : (Z.to_nat i < length st)%nat) by (eapply lookup_lt_Some, Hst; lia).
    destruct (IH (i + 1) (<[Z.to_nat i := objs]> st)) as (st' & E' & Hsh' & Hag & Hg); [lia|lia| | |].
    { apply shaped_insert; [lia|done|done|]. exact (group_cells _ _ _ Ho). }
    { intros j Hj. rewrite list_lookup_insert_ne by lia. apply Hst. lia. }
    assert (Hag' : agree_below i st' st).
    { intros j Hj. rewrite Hag by lia. apply list_lookup_insert_ne. lia. }
    exists st'. split; [exact E'|]. split; [done|]. split; [done|].
    intros j Hj. destruct (decide (j = i)) as [->|Hne]; [|apply Hg; lia].
    apply (group_ok_below st st'); [lia|intros j' Hj'; symmetry; by apply Hag'|].
    exists objs. split; [|done]. rewrite Hag by lia. by apply list_lookup_insert_eq.
Qed.

(** Every scan of the query, from the entries of the preliminary scan. *)
Lemma run_query_scans :
  Forall (fun a => 0 <= agg_group a <= n) aggs ->
  exists groups st',
    group_aggregates g = Ok groups /\
    run_scans g uniques data 0 groups (run_prelim n cols uniques).2 = Ok st' /\
    shaped st' /\ forall i, 0 <= i <= n -> group_ok st' st' i.
Proof using Hcols Hdata Hkeys Hn Hback Htotal Hok.
  intros Ha.
  assert (Hst : forall j, 0 <= j <= n ->
    (run_prelim n cols uniques).2 !! Z.to_nat j = Some (map (new_entry cols) uniques)).
  { intros j Hj. unfold run_prelim, upto. simpl.
    by rewrite list_lookup_fmap, lookup_seqZ_lt by lia. }
  destruct (run_scans_from (Z.to_nat (n + 1)) 0 (run_prelim n cols uniques).2)
    as (st' & E & Hsh & _ & Hg); [lia|lia| |exact Hst|].
  { intros j Hj. eexists. split; [by apply Hst|]. rewrite map_map. by apply map_ext. }
  exists (map (fun j => of_group j aggs) (upto n)), st'.
  split; [by apply group_aggregates_spec|]. split; [|by split].
  unfold upto. by rewrite Z2Nat.id in E by lia.
Qed.
End query.

(** ** The answer *)

(** The value of an aggregate over the values read from its rows; minimum and
    maximum start from the 0 of [calloc], averages truncate. *)
Definition answer (u : update) (vals : list Z) : Z :=
  match u with
  | AverageAdd _ _ _ =>
      if decide (vals = []) then 0 else Z.quot (sum_list vals) (Z.of_nat (length vals))
  | AddAssign _ _ _ => sum_list vals
  | Increment _ _ => Z.of_nat (length vals)
  | KeepMin _ _ _ => fold_right Z.min 0 vals
  | KeepMax _ _ _ => fold_right Z.max 0 vals
  end.

(** An aggregate of the query over a list of rows. *)
Definition answer_of (a : Aggregate) (xs : list row) : outcome Z :=
  match update_of a with
  | Some u => vals ← mapM (update_value u) xs; Ok (answer u vals)
  | None => Undefined
  end.

Lemma func_is_avg a u :
  update_of a = Some u ->
  func_is a "avg" "AVG" = match u with AverageAdd _ _ _ => true | _ => false end.
Proof.
  unfold update_of. intros H. destruct (func_is a "avg" "AVG"); [by injection H as <-|].
  repeat match goal with H : (if ?b then _ else _) = Some _ |- _ => destruct b end;
    by inversion H; subst.
Qed.

Lemma update_of_field a u : update_of a = Some u -> update_field u = toVar a.
Proof.
  unfold update_of. intros H.
  repeat match goal with H : (if ?b then _ else _) = Some _ |- _ => destruct b end;
    by inversion H; subst.
Qed.

(** What is read from an entry that holds the results. *)
Lemma read_answer a u us xs e :
  update_of a = Some u -> u ∈ us -> holds us xs e ->
  exists z, answer_of a xs = Ok z /\
    (if func_is a "avg" "AVG" then value (avg_of e (toVar a)) else Ok (num_of e (toVar a))) = Ok z.
Proof.
  intros Hu Hin He. destruct (He u Hin) as (vals & Hv & Hr). exists (answer u vals).
  unfold answer_of. rewrite Hu, Hv, obind_Ok, (func_is_avg a u Hu), <- (update_of_field a u Hu).
  split; [done|]. destruct u; simpl in *; try by rewrite Hr.
  rewrite Hr. unfold value. cbn [avg_count avg_sum t_div t_zero int64_arith].
  destruct vals as [|v vals]; [done|].
  rewrite (proj2 (Z.eqb_neq _ _)) by (simpl; lia). by rewrite decide_False.
Qed.

Section answers.
Context (g : Scan_Generator) (data : list row).
Local Abbreviation attrs := (grouping_attr g).
Local Abbreviation cols := (sg_select_columns g).
Local Abbreviation n := (no_grouping_vars g).
Local Abbreviation uniques := (get_uniques attrs data).

(** The selected aggregates are computed by the scans, and their members of
    [mf_structure] can be named. *)
Definition selects_computed : Prop :=
  Forall (fun a => a ∈ all_aggregates g /\ is_Some (update_of a) /\ is_ok (toABSVar a) = true)
    (select_aggregates g).

(** The row of the key of [u] with the value of every selected aggregate. *)
Definition answer_row (st : store) (u : row) : outcome row :=
  fold_ok (fun e a =>
    z ← answer_of a (List.filter (selects g st (agg_group a) u) data);
    name ← toABSVar a;
    Ok (<[name := CInt z]> e)) (copy_columns cols u) (select_aggregates g).

Lemma of_group_updates a u :
  a ∈ all_aggregates g -> update_of a = Some u ->
  u ∈ update_list (of_group (agg_group a) (all_aggregates g)).
Proof using.
  intros Ha Hu. apply list_elem_of_omap. exists a. split; [|done].
  apply list_elem_of_In, filter_In. split; [by apply list_elem_of_In|apply Z.eqb_refl].
Qed.

(** The position of a key. *)
Definition position (u : row) : Z := vfind attrs (map (new_entry cols) uniques) u.

Lemma distinct_copies : attrs ⊆ cols -> distinct_keys attrs (map (copy_columns cols) uniques).
Proof using.
  intros Hc. destruct (get_uniques_spec attrs data) as (Hd & _).
  intros j k x y Hj Hk Hs. rewrite !list_lookup_fmap in Hj, Hk.
  destruct (uniques !! j) as [u|] eqn:Ej, (uniques !! k) as [v|] eqn:Ek; simplify_eq/=.
  apply (Hd j k u v); [done|done|].
  by rewrite same_key_copy, same_key_sym, same_key_copy, same_key_sym in Hs by done.
Qed.

(** Keys are found at their index, in any variable. *)
Lemma vfind_unique objs u k x :
  Z.of_nat (length uniques) <= 2 ^ 31 ->
  attrs ⊆ cols -> map e_cells objs = map (copy_columns cols) uniques -> uniques !! k = Some u ->
  same_key attrs x u = true -> vfind attrs objs x = Z.of_nat k.
Proof using.
  intros Hb Hc Ho Hk Hx.
  assert (He : map e_cells objs !! k = Some (copy_columns cols u))
    by by rewrite Ho, list_lookup_fmap, Hk.
  apply list_lookup_fmap_Some in He as (e & He & Hke).
  assert (Hl : length objs = length uniques)
    by (apply (f_equal (@length _)) in Ho; by rewrite !length_map in Ho).
  apply (vfind_distinct _ _ _ k e); [by rewrite Hl|rewrite Ho; by apply distinct_copies|done|].
  by rewrite <- He, same_key_copy.
Qed.

Context (Hdata : Z.of_nat (length data) < 2 ^ 63) (Hsel : selects_computed).
Context (Hgroups : Forall (fun a => 0 <= agg_group a <= n) (all_aggregates g)).

Lemma unique_index k u : uniques !! k = Some u -> Z.of_nat k < 2 ^ 63.
Proof using Hdata.
  intros Hk%lookup_lt_Some. pose proof (length_uniques_loop attrs data []).
  unfold get_uniques in Hk. simpl in *. lia.
Qed.

(** Filling the row of a key reads the answers. *)
Lemma fill_entry_answer st u k :
  (forall i, 0 <= i <= n -> group_ok g data st st i) -> uniques !! k = Some u ->
  exists r, answer_row st u = Ok r /\
    fill_entry st (select_aggregates g) (Z.of_nat k) (copy_columns cols u) = Ok r.
Proof using Hdata Hsel Hgroups.
  intros Hok Hk. unfold answer_row, fill_entry. generalize (copy_columns cols u).
  unfold selects_computed in Hsel. pose proof (unique_index k u Hk) as Hlt. clear Hdata.
  induction (select_aggregates g) as [|a l IH]; intros e; [by exists e|].
  apply Forall_cons in Hsel as [(Ha & [up Hup] & Hname) Hl].
  destruct (toABSVar a) as [name| | |] eqn:En; [|done..].
  rewrite Forall_forall in Hgroups. destruct (Hok (agg_group a)) as (objs & Ho & Hf); [by apply Hgroups|].
  destruct (Forall2_lookup_l _ _ _ _ _ Hf Hk) as (o & Hko & _ & Hh).
  destruct (read_answer a up _ _ o Hup (of_group_updates a up Ha Hup) Hh) as (z & Hz & Hread).
  assert (Hval : aggregate_value st (Z.of_nat k) a = Ok z).
  { unfold aggregate_value. rewrite Ho. cbn [deref]. rewrite obind_Ok. unfold vec_at.
    rewrite to_size_t_small by lia. pose proof (lookup_lt_Some _ _ _ Hko).
    by rewrite decide_True, Nat2Z.id, Hko, obind_Ok by lia. }
  simpl. rewrite Hz, Hval, En, !obind_Ok. by apply IH.
Qed.


(** The having condition can be evaluated at every key, on the results of the
    scans. *)
Definition having_total (having : store -> Z -> outcome bool) : Prop :=
  forall st k u, shaped g data st -> (forall i, 0 <= i <= n -> group_ok g data st st i) ->
    uniques !! k = Some u -> is_ok (having st (Z.of_nat k)) = true.

(** The keys that the having condition accepts. *)
Definition accepted (having : store -> Z -> outcome bool) (st : store) (u : row) : bool :=
  holds_true (having st (position u)).
End answers.

(** The final loop over rows that come from the keys. *)
Lemma run_fill_keys {A R : Type} (keep : row -> outcome bool) (fill : row -> outcome R)
    (to_row : A -> row) (k : A -> bool) (r : A -> outcome R) before entries :
  before <> [] ->
  Forall (fun a => keep (to_row a) = Ok (k a) /\ exists x, fill (to_row a) = Ok x /\ r a = Ok x)
    entries ->
  run_fill keep fill before (map to_row entries) =
    (l ← mapM r (List.filter k entries); Ok (rev before ++ l)).
Proof.
  intros Hb He. revert before Hb.
  induction He as [|a entries (Hk & x & Hf & Hr) _ IH]; intros before Hb; simpl.
  - by rewrite app_nil_r.
  - rewrite Hk, obind_Ok. destruct (k a).
    + rewrite Hf, obind_Ok, IH by done. simpl. rewrite Hr, obind_Ok.
      destruct (mapM r (List.filter k entries)); simpl; [|done..]. by rewrite <- app_assoc.
    + destruct before; [done|]. by apply IH.
Qed.

Lemma run_fill_all {A R : Type} (keep : row -> outcome bool) (fill : row -> outcome R)
    (to_row : A -> row) (k : A -> bool) (r : A -> outcome R) entries :
  Forall (fun a => keep (to_row a) = Ok (k a) /\ exists x, fill (to_row a) = Ok x /\ r a = Ok x)
    entries ->
  run_fill keep fill [] (map to_row entries) =
    match entries with
    | a :: _ => if k a then mapM r (List.filter k entries) else Undefined
    | [] => Ok []
    end.
Proof.
  intros He. destruct He as [|a entries (Hk & x & Hf & Hr) He]; [done|]. simpl.
  rewrite Hk, obind_Ok. destruct (k a); [|done]. rewrite Hf, obind_Ok.
  rewrite (run_fill_keys _ _ _ k r) by done. simpl. by rewrite Hr.
Qed.

Section whole.
Context (g : Scan_Generator) (data : list row) (B : Z) (having : store -> Z -> outcome bool).
Local Abbreviation attrs := (grouping_attr g).
Local Abbreviation cols := (sg_select_columns g).
Local Abbreviation n := (no_grouping_vars g).
Local Abbreviation uniques := (get_uniques attrs data).
Context (Hcols : attrs ⊆ cols) (Hdata : Z.of_nat (length data) < 2 ^ 63).
Context (Hkeys : Z.of_nat (length uniques) <= 2 ^ 31).
Context (Hn : 0 <= n < 2 ^ 31) (Hback : looks_back g data) (Htotal : guards_total g data).
Context (Hok : forall i, 0 <= i <= n -> scan_ok B data (all_aggregates g) i).
Context (Hgroups : Forall (fun a => 0 <= agg_group a <= n) (all_aggregates g)).
Context (Hsel : selects_computed g) (Hhaving : having_total g data having).

(** The emitted program answers the query: the accepted keys, in the order of
    their first rows, with the value of every selected aggregate over the rows
    its variable selects. *)
Lemma run_generated_answers :
  exists st, (forall i, 0 <= i <= n -> group_ok g data st st i) /\
    run_generated g having data =
      match uniques with
      | u :: _ =>
          if accepted g data having st u
          then mapM (answer_row g data st) (List.filter (accepted g data having st) uniques)
          else Undefined
      | [] => Ok []
      end.
Proof using Hcols Hdata Hkeys Hn Hback Htotal Hok Hgroups Hsel Hhaving.
  destruct (run_query_scans g data B Hcols Hdata Hkeys Hn Hback Htotal Hok Hgroups)
    as (groups & st & Eg & Es & Hsh & Hg).
  exists st. split; [done|]. unfold run_generated. simpl in *. rewrite Eg, obind_Ok, Es, obind_Ok.
  destruct (Hsh 0) as (objs & Ho & Hcells); [lia|]. change (Z.to_nat 0) with 0%nat in Ho.
  unfold run_fill_mfstruct. rewrite Ho. cbn [deref]. rewrite obind_Ok.
  apply run_fill_all. rewrite Forall_forall. intros u Hu.
  apply list_elem_of_lookup in Hu as [k Hk].
  assert (Hpos : vfind attrs objs (copy_columns cols u) = Z.of_nat k).
  { apply (vfind_unique g data objs u k); [done|done|done|done|].
    rewrite same_key_sym, same_key_copy by done. apply same_key_refl. }
  assert (Hpos' : position g data u = Z.of_nat k).
  { apply (vfind_unique g data _ u k); [done|done| |done|apply same_key_refl]. by rewrite map_map. }
  rewrite Hpos. split.
  - unfold accepted. rewrite Hpos', (holds_true_ok _ (Hhaving st k u Hsh Hg Hk)), obind_Ok. simpl.
    rewrite (proj2 (Z.eqb_neq _ _)) by lia. by rewrite andb_true_r.
  - destruct (fill_entry_answer g data Hdata Hsel Hgroups st u k Hg Hk) as (r & Hr & Hf).
    by exists r.
Qed.
End whole.
