(* ===== verification/Scans.v ===== *)
(** * The scans: their text and their meaning

    A scan of the emitted program is a syntax tree ([scan]: a guard and update
    statements) with a printer and an execution.  [aggregate_scan] and
    [emf_aggregate_scan] print exactly the trees of the query, and [run_scans]
    executes them. *)

From S2P Require Import Prelude Cxx Str Config Column Aggregate Condition.
From S2P Require Import ScanGenerator Average Emitted.

(** ** Computations whose result does not depend on the world *)

Definition emits {A} (m : M A) (o : outcome A) : Prop := forall w, (m w).1 = o.

Lemma emits_ret {A} (a : A) : emits (mret a) (Ok a).
Proof. by intros w. Qed.

Lemma emits_lift {A} (o : outcome A) : emits (lift o) o.
Proof. by intros w. Qed.

Lemma emits_bind {A B} (m : M A) (f : A -> M B) o k :
  emits m o -> (forall a, o = Ok a -> emits (f a) (k a)) -> emits (m ≫= f) (o ≫= k).
Proof.
  intros Hm Hf w. specialize (Hm w). unfold mbind at 1, M_bind.
  destruct (m w) as [[a| | |] w'] eqn:E; simpl in Hm; subst o; [|done..]. by apply Hf.
Qed.

Lemma emits_lift_ok {A B} (a : A) (f : A -> M B) o : emits (f a) o -> emits (lift (Ok a) ≫= f) o.
Proof. intros Hf w. rewrite M_bind_lift. apply Hf. Qed.

Lemma emits_eq {A} (m : M A) o o' : emits m o -> o = o' -> emits m o'.
Proof. by intros ? <-. Qed.

Lemma emits_c_explode quan s :
  emits (c_explode quan s) (c_explode quan s (World [] true [] [] ∅ (fun _ => true) [])).1.
Proof.
  intros w. unfold c_explode. rewrite !M_bind_lift.
  destruct (c_explode_loop _ _ _ _ _ _) as [[out subj]| | |]; [|done..]. by rewrite !push_rest_run.
Qed.

Lemma emits_aggregate s :
  emits (Aggregate_new s) (Aggregate_new s (World [] true [] [] ∅ (fun _ => true) [])).1.
Proof.
  intros w. unfold Aggregate_new, mbind, M_bind. pose proof (emits_c_explode "_" s w) as E.
  destruct (c_explode "_" s w) as [r w1], (c_explode "_" s (World _ _ _ _ _ _ _)) as [r2 w2].
  simpl in E. subst r2. by destruct r.
Qed.

(** ** Conditions *)

Lemma emits_condition c var var2 attrs columns :
  emits (Condition_toCpp c var var2 attrs columns)
    (t ← condition_test columns c; print_test attrs var var2 t).
Proof.
  unfold Condition_toCpp, condition_test, condition_right.
  destruct (isColumn (cond_value c) columns) eqn:Ec.
  { eapply emits_eq; [apply emits_bind; [apply emits_ret|intros a _; apply emits_ret]|].
    simpl. unfold print_test, left_side, comparison, print_right. simpl. by rewrite <- !app_assoc. }
  destruct (isAggregate (cond_value c)) as [[]| | |]; [| |by intros w..];
    rewrite !obind_Ok; apply emits_lift_ok.
  - eapply emits_eq.
    + apply emits_bind; [apply emits_aggregate|]. intros tmp _.
      apply emits_bind; [apply emits_lift|]. intros n _. apply emits_ret.
    + destruct (Aggregate_new _ _).1 as [tmp| | |]; [|done..]. rewrite !obind_Ok.
      unfold print_test. simpl. destruct (itoa (agg_group tmp)) as [n| | |]; [|done..].
      rewrite !obind_Ok. unfold left_side, comparison, print_right. simpl.
      by destruct (contains (cond_value c) "\q"), (negb (str_eqb (cond_exp c) "=")); rewrite <- ?app_assoc.
  - destruct (hasColumn _ _); (eapply emits_eq; [apply emits_ret|]);
      unfold left_side, comparison, print_test, print_right; rewrite !obind_Ok;
      cbn [t_right t_quoted t_op t_column t_avg]; by rewrite <- ?app_assoc.
Qed.

Lemma emits_each {A} (f : A -> M str) (k : A -> outcome str) l :
  (forall a, a ∈ l -> emits (f a) (k a)) -> emits (append_eachM f l) (append_each k l).
Proof.
  induction l as [|a l IH]; intros Hf; [apply emits_ret|]. cbn [append_eachM append_each].
  apply emits_bind; [apply Hf; by left|]. intros t _.
  apply emits_bind; [apply IH; intros b Hb; apply Hf; by right|]. intros r _. apply emits_ret.
Qed.

(** The rest of a condition: the words of the query and the tests. *)
Definition print_others (attrs : list str) (var var2 : str) (l : list (str * ctest)) : outcome str :=
  append_each (fun p => t ← print_test attrs var var2 p.2; Ok (" " ++ p.1 ++ " " ++ t)) l.

Lemma emits_conditions_loop cs var var2 attrs columns pre pre_ops l rest_ops r out :
  conds cs = pre ++ l -> ops cs = pre_ops ++ rest_ops -> length pre = S (length pre_ops) ->
  other_tests columns rest_ops l = Ok r ->
  emits (Conditions_toCpp_loop cs (length l) (Z.of_nat (length pre)) var var2 attrs columns out)
    (t ← print_others attrs var var2 r; Ok (out ++ t)).
Proof.
  revert pre pre_ops rest_ops r out. induction l as [|c l IH]; intros pre pre_ops rest_ops r out Hc Ho Hl Hr.
  { injection Hr as <-. simpl. rewrite app_nil_r. apply emits_ret. }
  destruct rest_ops as [|op rest_ops]; [done|]. simpl in Hr.
  apply bind_Ok in Hr as (t & Ht & Hr). apply bind_Ok in Hr as (r' & Hr & [= <-]).
  cbn [length Conditions_toCpp_loop].
  assert (Eo : vec_at (ops cs) (Z.of_nat (length pre) - 1) = Ok op).
  { unfold vec_at. rewrite Ho, length_app. simpl. rewrite decide_True by lia.
    replace (Z.to_nat _) with (length pre_ops) by lia. by rewrite list_lookup_middle. }
  assert (Ec : vec_at (conds cs) (Z.of_nat (length pre)) = Ok c).
  { unfold vec_at. rewrite Hc, length_app. simpl. rewrite decide_True by lia.
    rewrite Nat2Z.id. by rewrite list_lookup_middle. }
  rewrite Eo, Ec. apply emits_lift_ok, emits_lift_ok.
  eapply emits_eq.
  - apply emits_bind; [apply emits_condition|]. intros x _.
    replace (Z.of_nat (length pre) + 1) with (Z.of_nat (length (pre ++ [c])))
      by (rewrite length_app; simpl; lia).
    apply (IH (pre ++ [c]) (pre_ops ++ [op]) rest_ops r'); [by rewrite Hc, <- app_assoc|
      by rewrite Ho, <- app_assoc|rewrite !length_app; simpl; lia|done].
  - rewrite Ht, obind_Ok. unfold print_others. simpl.
    destruct (print_test attrs var var2 t) as [x| | |]; [|done..]. rewrite !obind_Ok.
    destruct (append_each _ r') as [y| | |]; [|done..]. rewrite !obind_Ok.
    f_equal. rewrite <- !app_assoc. simpl. by rewrite <- !app_assoc.
Qed.

Lemma emits_conditions cs var var2 attrs columns gd :
  conditions_guard columns cs = Ok gd ->
  emits (Conditions_toCpp cs var var2 attrs columns) (print_guard attrs var var2 gd).
Proof.
  unfold conditions_guard, Conditions_toCpp. destruct (conds cs) as [|c rest] eqn:Ec; [done|].
  intros H. apply bind_Ok in H as (t & Ht & H). apply bind_Ok in H as (r & Hr & [= <-]).
  change (vec_at (c :: rest) 0) with (@Ok Condition c). apply emits_lift_ok.
  unfold print_guard. cbn [g_first g_others]. fold (print_others attrs var var2 r).
  eapply emits_eq.
  - apply emits_bind; [apply emits_condition|]. intros x _. simpl. rewrite Nat.sub_0_r.
    apply (emits_conditions_loop cs var var2 attrs columns [c] [] rest (ops cs) r); done.
  - by rewrite Ht, obind_Ok.
Qed.

(** ** Scans *)

(** Grouping variable 0 has no guard; its text is [true]. *)
Record scan := Scan { s_index : Z; s_guard : option cguard; s_updates : list update }.

Definition print_scan_guard (attrs : list str) (s : scan) : outcome str :=
  match s_guard s with
  | None => Ok ("true" : str)
  | Some gd => print_guard attrs "(*it)" "(*xt)" gd
  end.

Definition print_mf_scan (attrs : list str) (s : scan) : outcome str :=
  cond ← print_scan_guard attrs s;
  n ← itoa (s_index s);
  updates ← append_each (print_update "(*it)") (s_updates s);
  Ok ("\tfor(auto it = data->begin(); it != data->end();it++){\n" ++
      "\t\tsize_t pos;\n" ++
      "\t\tif(" ++ cond ++ "){\n" ++
      "\t\t\tpos = vfind" ++ n ++ "(data" ++ n ++
      concat (map (fun a => ",(*it)->" ++ a) attrs) ++ ");\n" ++
      updates ++
      "\t\t}\n" ++
      "\t}\n").

Definition print_emf_scan (attrs : list str) (s : scan) : outcome str :=
  cond ← print_scan_guard attrs s;
  updates ← append_each (print_update "(*xt)") (s_updates s);
  Ok ("\tfor(auto it = uniques->begin();it != uniques->end();it++)\n" ++
      "\t\tfor(auto xt = data->begin(); xt != data->end();xt++){\n" ++
      "\t\tif(" ++ cond ++ "){\n" ++
      "\t\t\tsize_t pos = it - uniques->begin();\n" ++
      updates ++
      "\t\t}\n" ++
      "\t}\n").

Definition scan_condition (attrs : list str) (s : scan) : guard := fun st it xt =>
  match s_guard s with None => Ok true | Some gd => eval_guard attrs gd st it xt end.

Definition exec_scan (is_emf : bool) (attrs : list str) (uniques data : list row) (st : store)
    (s : scan) : outcome store :=
  if is_emf then run_emf_scan uniques data (scan_condition attrs s) (s_updates s) st
  else run_mf_scan attrs data (s_index s) (scan_condition attrs s) (s_updates s) st.

(** The scan of grouping variable [i] with the aggregates [xt]. *)
Definition scan_of (g : Scan_Generator) (i : Z) (xt : list Aggregate) : outcome scan :=
  gd ← (if i =? 0 then Ok None
        else l ← deref (select_conditions g);
             c ← vec_at l (to_size_t (i - 1));
             gd ← conditions_guard (sg_columns g) c;
             Ok (Some gd));
  Ok (Scan i gd (omap update_of xt)).

Fixpoint scans_from (g : Scan_Generator) (i : Z) (groups : list (list Aggregate)) : outcome (list scan) :=
  match groups with
  | [] => Ok []
  | xt :: groups' => s ← scan_of g i xt; l ← scans_from g (i + 1) groups'; Ok (s :: l)
  end.

Definition scans_of (g : Scan_Generator) : outcome (list scan) :=
  groups ← group_aggregates g; scans_from g 0 groups.

(** The text that the generator prints for the scans. *)
Definition print_scan (g : Scan_Generator) (s : scan) : outcome str :=
  if emf g then print_emf_scan (grouping_attr g) s else print_mf_scan (grouping_attr g) s.
Definition scan_text (g : Scan_Generator) : M str :=
  if emf g then emf_aggregate_scan g else aggregate_scan g.

(** *** The text *)

Lemma emits_scan_guard g i xt s :
  scan_of g i xt = Ok s -> emits (get_selection_cond g i) (print_scan_guard (grouping_attr g) s).
Proof.
  unfold scan_of, get_selection_cond, print_scan_guard. destruct (Z.eqb_spec i 0).
  { intros [= <-]. apply emits_ret. }
  intros H. apply bind_Ok in H as (o & H & [= <-]). apply bind_Ok in H as (l & Hl & H).
  apply bind_Ok in H as (c & Hc & H). apply bind_Ok in H as (gd & Hgd & [= <-]).
  rewrite Hl. apply emits_lift_ok. rewrite Hc. apply emits_lift_ok. simpl. by apply (emits_conditions c _ _ _ (sg_columns g)).
Qed.

(** Unknown functions print nothing. *)
Lemma print_updates var l :
  Forall (fun a => is_ok (itoa (agg_group a)) = true) l ->
  append_each (update_text var) l = append_each (print_update var) (omap update_of l).
Proof.
  induction 1 as [|a l Ha _ IH]; [done|]. cbn [append_each].
  destruct (itoa (agg_group a)) as [n| | |] eqn:En; [|done..].
  rewrite (update_text_print var a n En), IH.
  change (omap update_of (a :: l))
    with (match update_of a with Some u => u :: omap update_of l | None => omap update_of l end).
  destruct (update_of a) as [u|]; [done|]. rewrite obind_Ok.
  by destruct (append_each _ (omap update_of l)).
Qed.

Definition printable (l : list Aggregate) : Prop := Forall (fun a => is_ok (itoa (agg_group a)) = true) l.

Lemma emits_mf_scan g i xt s :
  scan_of g i xt = Ok s -> printable xt ->
  emits (cond ← get_selection_cond g i;
         n ← lift (itoa i);
         updates ← lift (append_each (update_text "(*it)") xt);
         mret ("\tfor(auto it = data->begin(); it != data->end();it++){\n" ++
               "\t\tsize_t pos;\n" ++
               "\t\tif(" ++ cond ++ "){\n" ++
               "\t\t\tpos = vfind" ++ n ++ "(data" ++ n ++
               concat (map (fun a => ",(*it)->" ++ a) (grouping_attr g)) ++ ");\n" ++
               updates ++
               "\t\t}\n" ++
               "\t}\n")) (print_mf_scan (grouping_attr g) s).
Proof.
  intros Hs Hxt. assert (Hi : s_index s = i /\ s_updates s = omap update_of xt)
    by (unfold scan_of in Hs; apply bind_Ok in Hs as (gd & _ & [= <-]); done).
  destruct Hi as [Hi Hu]. unfold print_mf_scan. rewrite Hi, Hu, <- print_updates by done.
  apply emits_bind; [by apply (emits_scan_guard g i xt)|]. intros cond _.
  apply emits_bind; [apply emits_lift|]. intros n _.
  apply emits_bind; [apply emits_lift|]. intros updates _. apply emits_ret.
Qed.

Lemma emits_emf_scan g i xt s :
  scan_of g i xt = Ok s -> printable xt ->
  emits (cond ← get_selection_cond g i;
         updates ← lift (append_each (update_text "(*xt)") xt);
         mret ("\tfor(auto it = uniques->begin();it != uniques->end();it++)\n" ++
               "\t\tfor(auto xt = data->begin(); xt != data->end();xt++){\n" ++
               "\t\tif(" ++ cond ++ "){\n" ++
               "\t\t\tsize_t pos = it - uniques->begin();\n" ++
               updates ++
               "\t\t}\n" ++
               "\t}\n")) (print_emf_scan (grouping_attr g) s).
Proof.
  intros Hs Hxt. assert (Hu : s_updates s = omap update_of xt)
    by (unfold scan_of in Hs; apply bind_Ok in Hs as (gd & _ & [= <-]); done).
  unfold print_emf_scan. rewrite Hu, <- print_updates by done.
  apply emits_bind; [by apply (emits_scan_guard g i xt)|]. intros cond _.
  apply emits_bind; [apply emits_lift|]. intros updates _. apply emits_ret.
Qed.

Lemma emits_scan_groups g (f : Z -> list Aggregate -> M str) i groups l :
  scans_from g i groups = Ok l -> Forall printable groups ->
  (forall i xt s, scan_of g i xt = Ok s -> printable xt -> emits (f i xt) (print_scan g s)) ->
  emits (scan_groups f i groups) (append_each (print_scan g) l).
Proof.
  intros Hl Hp Hf. revert i l Hl. induction Hp as [|xt groups Hxt _ IH]; intros i l Hl.
  { injection Hl as <-. apply emits_ret. }
  simpl in Hl. apply bind_Ok in Hl as (s & Hs & Hl). apply bind_Ok in Hl as (l' & Hl & [= <-]).
  cbn [scan_groups append_each]. apply emits_bind; [by apply Hf|]. intros t _.
  apply emits_bind; [by apply IH|]. intros r _. apply emits_ret.
Qed.

Lemma groups_printable g groups :
  0 <= no_grouping_vars g < 2 ^ 31 ->
  Forall (fun a => 0 <= agg_group a <= no_grouping_vars g) (all_aggregates g) ->
  group_aggregates g = Ok groups -> Forall printable groups.
Proof.
  intros Hn Ha Hg. rewrite group_aggregates_spec in Hg by done. injection Hg as <-.
  apply Forall_map, Forall_true. intros i. unfold printable, of_group. rewrite Forall_forall in *.
  intros a Hin%list_elem_of_In. apply filter_In in Hin as [Hin%list_elem_of_In _].
  specialize (Ha a Hin). destruct (itoa_decimal (agg_group a)) as (t & -> & _); [|done].
  unfold INT_MIN, INT_MAX. lia.
Qed.

Lemma emits_scans g l :
  0 <= no_grouping_vars g < 2 ^ 31 ->
  Forall (fun a => 0 <= agg_group a <= no_grouping_vars g) (all_aggregates g) ->
  scans_of g = Ok l -> emits (scan_text g) (append_each (print_scan g) l).
Proof.
  intros Hn Ha Hl. unfold scans_of in Hl. apply bind_Ok in Hl as (groups & Hg & Hl).
  pose proof (groups_printable g groups Hn Ha Hg) as Hp.
  unfold scan_text, emf_aggregate_scan, aggregate_scan. rewrite Hg.
  destruct (emf g) eqn:Ee; apply emits_lift_ok; apply (emits_scan_groups g _ _ _ _ Hl Hp);
    intros i xt s Hs Hxt; unfold print_scan; rewrite Ee.
  - by apply (emits_emf_scan g i xt).
  - by apply (emits_mf_scan g i xt).
Qed.

(** *** The meaning *)

Lemma fold_ok_ext {S A : Type} (f h : S -> A -> outcome S) (s : S) (l : list A) :
  (forall s a, f s a = h s a) -> fold_ok f s l = fold_ok h s l.
Proof.
  intros H. revert s. induction l as [|a l IH]; intros s; [done|]. simpl. rewrite H.
  destruct (h s a); simpl; [apply IH|done..].
Qed.

Lemma run_mf_scan_ext (attrs : list str) (data : list row) (i : Z) (c d : guard) (us : list update) (st : store) :
  (forall st it xt, c st it xt = d st it xt) ->
  run_mf_scan attrs data i c us st = run_mf_scan attrs data i d us st.
Proof. intros H. apply fold_ok_ext. intros s x. by rewrite H. Qed.

Lemma run_emf_scan_ext (uniques data : list row) (c d : guard) (us : list update) (st : store) :
  (forall st it xt, c st it xt = d st it xt) ->
  run_emf_scan uniques data c us st = run_emf_scan uniques data d us st.
Proof.
  intros H. unfold run_emf_scan. generalize 0. revert st.
  induction uniques as [|u uniques IH]; intros st z; [done|]. cbn [run_emf_scan_from].
  rewrite (fold_ok_ext _ (fun st xt => b ← d st u (Some xt);
    if (b : bool) then run_updates us xt z st else Ok st)) by (intros s x; by rewrite H).
  destruct (fold_ok _ st data); simpl; [apply IH|done..].
Qed.

Lemma scan_condition_of g i xt s st it xt' :
  scan_of g i xt = Ok s -> scan_condition (grouping_attr g) s st it xt' = guard_of g i st it xt'.
Proof.
  unfold scan_of, scan_condition, guard_of. destruct (Z.eqb_spec i 0); [by intros [= <-]|].
  intros H. apply bind_Ok in H as (o & H & [= <-]). apply bind_Ok in H as (l & Hl & H).
  apply bind_Ok in H as (c & Hc & H). apply bind_Ok in H as (gd & Hgd & [= <-]).
  rewrite Hl, obind_Ok, Hc, obind_Ok. unfold eval_conditions. by rewrite Hgd.
Qed.

Lemma exec_scans_from g uniques data i groups l st :
  scans_from g i groups = Ok l ->
  run_scans g uniques data i groups st =
    fold_ok (exec_scan (emf g) (grouping_attr g) uniques data) st l.
Proof.
  revert i l st. induction groups as [|xt groups IH]; intros i l st Hl; [by injection Hl as <-|].
  simpl in Hl. apply bind_Ok in Hl as (s & Hs & Hl). apply bind_Ok in Hl as (l' & Hl & [= <-]).
  cbn [run_scans fold_ok].
  assert (Hi : s_index s = i /\ s_updates s = omap update_of xt)
    by (unfold scan_of in Hs; apply bind_Ok in Hs as (gd & _ & [= <-]); done).
  destruct Hi as [Hi Hu].
  assert (Eex : exec_scan (emf g) (grouping_attr g) uniques data st s =
    if emf g then run_emf_scan uniques data (scan_condition (grouping_attr g) s) (omap update_of xt) st
    else run_mf_scan (grouping_attr g) data i (scan_condition (grouping_attr g) s) (omap update_of xt) st)
    by (unfold exec_scan; by rewrite Hi, Hu).
  rewrite Eex. assert (Hg : forall st it xt', guard_of g i st it xt' = scan_condition (grouping_attr g) s st it xt')
    by (intros; symmetry; by apply (scan_condition_of g i xt)).
  destruct (emf g); [rewrite (run_emf_scan_ext _ _ _ _ _ _ Hg)|rewrite (run_mf_scan_ext _ _ _ _ _ _ _ Hg)].
  - destruct (run_emf_scan _ _ _ _ _); [|done..]. rewrite !obind_Ok. by apply (IH (i + 1)).
  - destruct (run_mf_scan _ _ _ _ _ _); [|done..]. rewrite !obind_Ok. by apply (IH (i + 1)).
Qed.

Lemma exec_scans g uniques data l st :
  scans_of g = Ok l ->
  (groups ← group_aggregates g; run_scans g uniques data 0 groups st) =
    fold_ok (exec_scan (emf g) (grouping_attr g) uniques data) st l.
Proof.
  unfold scans_of. intros Hl. apply bind_Ok in Hl as (groups & -> & Hl). rewrite obind_Ok.
  by apply exec_scans_from.
Qed.
