(* ===== verification/Having.v ===== *)
(** * The having clause of the emitted program

    [parse_having] copies the words of the clause into the C++ condition of the
    final loop: an aggregate becomes the member it is stored in, the other words
    stay what they are, so the meaning of the clause is that of a C++ expression
    over 64-bit members and [int] literals.  A [=] is an assignment. *)

From S2P Require Import Prelude Cxx Str Column Aggregate Average ScanGenerator Emitted MfQuery Query.

(** ** Expressions *)

Inductive binop := BOr | BAnd | BEq | BNe | BLt | BLe | BGt | BGe | BAdd | BSub | BMul | BDiv | BMod.

(** The precedence of a binary operator; a prefix operator has 7. *)
Definition level (o : binop) : nat :=
  match o with
  | BOr => 1 | BAnd => 2 | BEq | BNe => 3 | BLt | BLe | BGt | BGe => 4 | BAdd | BSub => 5
  | BMul | BDiv | BMod => 6
  end%nat.

(** [HField group field avg] is [data<group>->at(pos)-><field>], with a call of
    [value()] for an average. *)
Inductive hexpr :=
| HNum (z : Z)
| HField (group : Z) (field : str) (avg : bool)
| HNot (e : hexpr)
| HNeg (e : hexpr)
| HBin (o : binop) (a b : hexpr).

(** The condition of the loop: an expression, or assignments to members. *)
Inductive hstmt :=
| Test (e : hexpr)
| Assign (group : Z) (field : str) (s : hstmt).

Inductive token :=
| TNum (z : Z)
| TField (group : Z) (field : str) (avg : bool)
| TBin (o : binop)
| TNot | TOpen | TClose | TAssign.

#[export] Instance binop_eq_dec : EqDecision binop.
Proof. solve_decision. Defined.
#[export] Instance token_eq_dec : EqDecision token.
Proof. solve_decision. Defined.
#[export] Instance hexpr_eq_dec : EqDecision hexpr.
Proof. solve_decision. Defined.
#[export] Instance hstmt_eq_dec : EqDecision hstmt.
Proof. solve_decision. Defined.

(** ** Reading the words of the clause *)

(** The words of C++ that mean a token; the first of each is the one printed. *)
Definition spellings : list (string * token) :=
  [ ("or", TBin BOr); ("||", TBin BOr); ("and", TBin BAnd); ("&&", TBin BAnd);
    ("==", TBin BEq); ("!=", TBin BNe);
    ("<", TBin BLt); ("<=", TBin BLe); (">", TBin BGt); (">=", TBin BGe);
    ("+", TBin BAdd); ("-", TBin BSub); ("*", TBin BMul); ("/", TBin BDiv); ("%", TBin BMod);
    ("!", TNot); ("not", TNot); ("(", TOpen); (")", TClose); ("=", TAssign);
    ("true", TNum 1); ("false", TNum 0) ]%string.

Fixpoint spelled (t : str) (l : list (string * token)) : option token :=
  match l with
  | [] => None
  | (s, tok) :: l' => if str_eqb t (lit s) then Some tok else spelled t l'
  end.

(** A decimal literal: no leading zero (which makes it octal), and in range. *)
Definition decimal (t : str) : option Z :=
  match t with
  | [] => None
  | c :: t' =>
      let z := digits_val 0 t in
      if forallb isdigit t && (bool_decide (t' = []) || negb (bool_decide (c = "0"%char))) && in_int64 z
      then Some z else None
  end.

(** The token of a word that [parse_having] copies; [None] outside the modelled
    part of C++. *)
Definition raw_token (t : str) : option token :=
  match spelled t spellings with Some tok => Some tok | None => TNum <$> decimal t end.

Definition same_aggregate (a b : Aggregate) : bool := bool_decide (a = b).

(** The token that [having_token] emits for a word.  Only the members of
    computed aggregates exist; [data-><column>] does not compile. *)
Definition token_of (g : Scan_Generator) (t : str) : outcome (option token) :=
  agg ← isAggregate t;
  if (agg : bool) then
    tmp ← (Aggregate_new t (World [] true [] [] ∅ (fun _ => true) [])).1;
    Ok (if existsb (same_aggregate tmp) (all_aggregates g)
        then Some (TField (agg_group tmp) (toVar tmp) (func_is tmp "avg" "AVG")) else None)
  else if isColumn t (sg_columns g) then Ok None
  else Ok (raw_token t).

Fixpoint tokens_of (g : Scan_Generator) (l : list str) : outcome (option (list token)) :=
  match l with
  | [] => Ok (Some [])
  | t :: l' =>
      tok ← token_of g t;
      toks ← tokens_of g l';
      Ok (match tok, toks with Some a, Some b => Some (a :: b) | _, _ => None end)
  end.

(** The words of the condition, as [parse_having] splits the clause. *)
Definition having_words (g : Scan_Generator) : outcome (list str) :=
  if size (having g) <? 1 then Ok ["true" : str]
  else (c_explode " " (having g) (World [] true [] [] ∅ (fun _ => true) [])).1.

(** ** Parsing: an operator stack *)

Inductive item := SBin (o : binop) | SNot | SNeg | SOpen.

Definition item_level (i : item) : option nat :=
  match i with SBin o => Some (level o) | SNot | SNeg => Some 7%nat | SOpen => None end.

Definition apply_item (i : item) (vals : list hexpr) : option (list hexpr) :=
  match i, vals with
  | SBin o, b :: a :: vals' => Some (HBin o a b :: vals')
  | SNot, a :: vals' => Some (HNot a :: vals')
  | SNeg, a :: vals' => Some (HNeg a :: vals')
  | _, _ => None
  end.

(** Applies the operators on the stack that bind at least as tight as [l]. *)
Fixpoint reduce (l : nat) (ops : list item) (vals : list hexpr)
    : option (list item * list hexpr) :=
  match ops with
  | [] => Some (ops, vals)
  | i :: ops' =>
      match item_level i with
      | Some m => if (l <=? m)%nat then v ← apply_item i vals; reduce l ops' v else Some (ops, vals)
      | None => Some (ops, vals)
      end
  end.

(** [operand] says that an operand is expected next. *)
Fixpoint parse (operand : bool) (ts : list token) (ops : list item) (vals : list hexpr)
    : option hexpr :=
  match ts with
  | [] =>
      if operand then None
      else '(ops, vals) ← reduce 0 ops vals;
           match ops, vals with [], [e] => Some e | _, _ => None end
  | t :: ts' =>
      if operand then
        match t with
        | TNum z => parse false ts' ops (HNum z :: vals)
        | TField n f a => parse false ts' ops (HField n f a :: vals)
        | TOpen => parse true ts' (SOpen :: ops) vals
        | TNot => parse true ts' (SNot :: ops) vals
        | TBin BSub => parse true ts' (SNeg :: ops) vals
        | _ => None
        end
      else
        match t with
        | TBin o => '(ops, vals) ← reduce (level o) ops vals; parse true ts' (SBin o :: ops) vals
        | TClose =>
            '(ops, vals) ← reduce 0 ops vals;
            match ops with SOpen :: ops' => parse false ts' ops' vals | _ => None end
        | _ => None
        end
  end.

(** Assignments bind weakest and to the right; only a member can be assigned. *)
Fixpoint parse_stmt (ts : list token) : option hstmt :=
  match ts with
  | TField n f false :: TAssign :: ts' => Assign n f <$> parse_stmt ts'
  | _ => Test <$> parse true ts [] []
  end.

(** What the emitted condition is; [None] when it does not compile or is not
    modelled. *)
Definition having_stmt (g : Scan_Generator) : outcome (option hstmt) :=
  l ← having_words g;
  ts ← tokens_of g l;
  Ok (ts ≫= parse_stmt).

(** ** Evaluation *)

(** A value of type [int] or [int64_t]. *)
Record num := Num { wide : bool; val : Z }.

Definition fit (w : bool) (z : Z) : outcome num :=
  if (if w then in_int64 z else in_int z) then Ok (Num w z) else Undefined.

Definition truth (v : num) : bool := negb (val v =? 0).
Definition of_bool (b : bool) : num := Num false (Z.b2z b).

(** [data<group>->at(pos)] *)
Definition entry_at (st : store) (pos group : Z) : outcome group_entry :=
  objs ← deref (st !! Z.to_nat group); vec_at objs (to_size_t pos).

(** The operators that evaluate both operands, in the wider of their types. *)
Definition arith (o : binop) (x y : num) : outcome num :=
  let w := wide x || wide y in
  let a := val x in
  let b := val y in
  match o with
  | BAdd => fit w (a + b)
  | BSub => fit w (a - b)
  | BMul => fit w (a * b)
  | BDiv => if b =? 0 then Undefined else fit w (Z.quot a b)
  | BMod => if b =? 0 then Undefined else _ ← fit w (Z.quot a b); fit w (Z.rem a b)
  | BEq => Ok (of_bool (a =? b))
  | BNe => Ok (of_bool (negb (a =? b)))
  | BLt => Ok (of_bool (a <? b))
  | BLe => Ok (of_bool (a <=? b))
  | BGt => Ok (of_bool (b <? a))
  | BGe => Ok (of_bool (b <=? a))
  | BOr => Ok (of_bool (truth x || truth y))
  | BAnd => Ok (of_bool (truth x && truth y))
  end.

Fixpoint eval (st : store) (pos : Z) (e : hexpr) : outcome num :=
  match e with
  | HNum z => Ok (Num (negb (in_int z)) z)
  | HField n f avg =>
      x ← entry_at st pos n;
      v ← (if avg then value (avg_of x f) else Ok (num_of x f));
      Ok (Num true v)
  | HNot a => x ← eval st pos a; Ok (of_bool (negb (truth x)))
  | HNeg a => x ← eval st pos a; fit (wide x) (- val x)
  | HBin BOr a b => x ← eval st pos a; if truth x then Ok (of_bool true)
                   else y ← eval st pos b; Ok (of_bool (truth y))
  | HBin BAnd a b => x ← eval st pos a; if truth x then y ← eval st pos b; Ok (of_bool (truth y))
                    else Ok (of_bool false)
  | HBin o a b => x ← eval st pos a; y ← eval st pos b; arith o x y
  end.

(** The condition and the entries it leaves. *)
Fixpoint run_stmt (st : store) (pos : Z) (s : hstmt) : outcome (num * store) :=
  match s with
  | Test e => v ← eval st pos e; Ok (v, st)
  | Assign n f s' =>
      '(v, st) ← run_stmt st pos s';
      objs ← deref (st !! Z.to_nat n);
      x ← vec_at objs (to_size_t pos);
      Ok (Num true (val v),
          <[Z.to_nat n := <[Z.to_nat (to_size_t pos) := set_num x f (val v)]> objs]> st)
  end.

(** ** The final loop with the condition of the clause *)

Fixpoint run_fill_clause (attrs : list str) (s : hstmt) (aggs : list Aggregate) (st : store)
    (before entries : list row) : outcome (list row) :=
  match entries with
  | [] => Ok (rev before)
  | e :: entries' =>
      data0 ← deref (st !! 0%nat);
      let pos := vfind attrs data0 e in
      '(v, st) ← run_stmt st pos s;
      if truth v && negb (pos =? -1) then
        r ← fill_entry st aggs pos e;
        run_fill_clause attrs s aggs st (r :: before) entries'
      else match before with
           | [] => Undefined
           | _ => run_fill_clause attrs s aggs st before entries'
           end
  end.

(** The whole emitted program. *)
Definition run_program (g : Scan_Generator) (s : hstmt) (data : list row) : outcome (list row) :=
  let uniques := get_uniques (grouping_attr g) data in
  let '(mf, st) := run_prelim (no_grouping_vars g) (sg_select_columns g) uniques in
  groups ← group_aggregates g;
  st ← run_scans g uniques data 0 groups st;
  _ ← deref (st !! 0%nat);
  run_fill_clause (grouping_attr g) s (select_aggregates g) st [] mf.

(** The program emitted for a query, its clause included; undefined when the
    clause does not compile (or is not modelled). *)
Definition run_query (g : Scan_Generator) (data : list row) : outcome (list row) :=
  s ← having_stmt g;
  s ← deref s;
  run_program g s data.

(** ** Printing the result *)

Definition cell_text (c : cell) : outcome str :=
  match c with CInt z => ltos z | CStr s => Ok s end.

(** The member printed for a selected attribute. *)
Definition printed_member (name : str) : outcome str :=
  agg ← isAggregate name;
  if (agg : bool) then
    tmp ← (Aggregate_new name (World [] true [] [] ∅ (fun _ => true) [])).1; toABSVar tmp
  else Ok name.

Fixpoint print_cells (select_attribute : list str) (x : row) : outcome str :=
  match select_attribute with
  | [] => Ok ("\n" : str)
  | name :: l =>
      m ← printed_member name;
      c ← deref (x !! m);
      t ← cell_text c;
      r ← print_cells l x;
      Ok (t ++ "|" ++ r)
  end.

(** The emitted [print_mf_structure]: a line of names and a line per row. *)
Definition print_mf_structure (select_attribute : list str) (rows : list row) : outcome str :=
  lines ← mapM (print_cells select_attribute) rows;
  Ok ("|" ++ concat (map (fun n => n ++ "|") select_attribute) ++ "\n" ++
      concat (map (fun l => "|" ++ l) lines)).

(** The emitted [main] on the rows of the table: what it prints. *)
Definition run_main (g : Scan_Generator) (select_attribute : list str) (data : list row)
    : outcome str :=
  rows ← run_query g data;
  print_mf_structure select_attribute rows.

(** ** Writing an expression *)

Definition expr_level (e : hexpr) : nat :=
  match e with HNum _ | HField _ _ _ => 8 | HNot _ | HNeg _ => 7 | HBin o _ _ => level o end%nat.

(** The tokens of an expression in a context of the given precedence. *)
Fixpoint show (l : nat) (e : hexpr) : list token :=
  let body :=
    match e with
    | HNum z => [TNum z]
    | HField n f avg => [TField n f avg]
    | HNot a => TNot :: show 7 a
    | HNeg a => TBin BSub :: show 7 a
    | HBin o a b => show (level o) a ++ TBin o :: show (S (level o)) b
    end in
  if (expr_level e <? l)%nat then TOpen :: body ++ [TClose] else body.

(** No operator on the stack binds its right operand tighter than [l]. *)
Definition loose (ops : list item) (l : nat) : Prop :=
  forall m vals, (l <= m <= 6)%nat -> reduce m ops vals = Some (ops, vals).

(** Reading the tokens leaves an operand that later operators reduce to [e]. *)
Definition reads_as (ts : list token) (l : nat) (e : hexpr) : Prop :=
  exists pend vs,
    (forall rest ops vals, loose ops l ->
       parse true (ts ++ rest) ops vals = parse false rest (pend ++ ops) (vs ++ vals)) /\
    (forall m ops vals, (m <= l)%nat ->
       reduce m (pend ++ ops) (vs ++ vals) = reduce m ops (e :: vals)).

Lemma loose_weaken ops l l' : loose ops l -> (l <= l')%nat -> loose ops l'.
Proof. intros H Hl m vals Hm. apply H. lia. Qed.

Lemma loose_open ops l : loose (SOpen :: ops) l.
Proof. done. Qed.

Lemma loose_bin o ops : loose (SBin o :: ops) (S (level o)).
Proof. intros m vals Hm. simpl. by rewrite (proj2 (Nat.leb_gt _ _)) by lia. Qed.

Lemma loose_prefix i ops : loose (i :: ops) 7.
Proof. intros m vals Hm. lia. Qed.

Lemma reads_atom t e l :
  (forall ts ops vals, parse true (t :: ts) ops vals = parse false ts ops (e :: vals)) ->
  reads_as [t] l e.
Proof. intros Ht. exists [], [e]. split; [intros; apply Ht|done]. Qed.

(** Parentheses make an operand of any precedence. *)
Lemma reads_parens ts e l l' : reads_as ts l e -> reads_as (TOpen :: ts ++ [TClose]) l' e.
Proof.
  intros (pend & vs & Hp & Hr). exists [], [e]. split; [|done]. intros rest ops vals _.
  change (parse true ((TOpen :: ts ++ [TClose]) ++ rest) ops vals)
    with (parse true ((ts ++ [TClose]) ++ rest) (SOpen :: ops) vals).
  rewrite <- app_assoc, Hp by apply loose_open. cbn [app parse]. by rewrite Hr by lia.
Qed.

Lemma reads_prefix i t f ts a l :
  (forall rest ops vals, parse true (t :: rest) ops vals = parse true rest (i :: ops) vals) ->
  item_level i = Some 7%nat -> (forall vals, apply_item i (a :: vals) = Some (f a :: vals)) ->
  (l <= 7)%nat -> reads_as ts 7 a -> reads_as (t :: ts) l (f a).
Proof.
  intros Ht Hi Hf Hl (pend & vs & Hp & Hr). exists (pend ++ [i]), vs. split.
  - intros rest ops vals _. cbn [app]. rewrite Ht, Hp by apply loose_prefix. by rewrite <- app_assoc.
  - intros m ops vals Hm. rewrite <- app_assoc, Hr by lia. cbn [app reduce].
    rewrite Hi, (proj2 (Nat.leb_le _ _)) by lia. by rewrite Hf.
Qed.

Lemma reads_bin o ta tb a b l :
  (l <= level o)%nat -> reads_as ta (level o) a -> reads_as tb (S (level o)) b ->
  reads_as (ta ++ TBin o :: tb) l (HBin o a b).
Proof.
  intros Hl (pa & va & Pa & Ra) (pb & vb & Pb & Rb). exists (pb ++ [SBin o]), (vb ++ [a]).
  assert (Hlevel : (level o <= 6)%nat) by (destruct o; simpl; lia). split.
  - intros rest ops vals Hops. rewrite <- app_assoc, Pa by by eapply loose_weaken.
    cbn [app parse]. rewrite Ra by lia. rewrite (Hops (level o)) by lia. simpl.
    rewrite Pb by apply loose_bin. by rewrite <- !app_assoc.
  - intros m ops vals Hm. rewrite <- !app_assoc, Rb by lia. cbn [app reduce item_level].
    by rewrite (proj2 (Nat.leb_le _ _)) by lia.
Qed.

Lemma show_reads e l : (l <= 8)%nat -> reads_as (show l e) l e.
Proof.
  revert l. induction e as [z|n f avg|a IH|a IH|o a IHa b IHb]; intros l Hl.
  - simpl. destruct (Nat.ltb_spec 8 l); [lia|]. by apply reads_atom.
  - simpl. destruct (Nat.ltb_spec 8 l); [lia|]. by apply reads_atom.
  - assert (H : forall l', (l' <= 7)%nat -> reads_as (TNot :: show 7 a) l' (HNot a))
      by (intros l' Hl'; apply (reads_prefix SNot TNot HNot); [done..|by apply IH; lia]).
    cbn [show expr_level]. destruct (Nat.ltb_spec 7 l); [apply (reads_parens _ _ 7)|]; by apply H.
  - assert (H : forall l', (l' <= 7)%nat -> reads_as (TBin BSub :: show 7 a) l' (HNeg a))
      by (intros l' Hl'; apply (reads_prefix SNeg (TBin BSub) HNeg); [done..|by apply IH; lia]).
    cbn [show expr_level]. destruct (Nat.ltb_spec 7 l); [apply (reads_parens _ _ 7)|]; by apply H.
  - assert (Hlevel : (level o <= 6)%nat) by (destruct o; simpl; lia).
    assert (H : forall l', (l' <= level o)%nat ->
        reads_as (show (level o) a ++ TBin o :: show (S (level o)) b) l' (HBin o a b))
      by (intros l' Hl'; apply reads_bin; [done|apply IHa; lia|apply IHb; lia]).
    cbn [show expr_level]. destruct (Nat.ltb_spec (level o) l); [apply (reads_parens _ _ (level o))|];
      by apply H.
Qed.

(** Parsing what was written gives the expression back. *)
Lemma parse_show e : parse true (show 0 e) [] [] = Some e.
Proof.
  destruct (show_reads e 0 ltac:(lia)) as (pend & vs & Hp & Hr).
  assert (Hops : loose [] 0) by done.
  specialize (Hp [] [] [] Hops). rewrite app_nil_r in Hp. rewrite Hp.
  cbn [parse]. by rewrite Hr.
Qed.

(** ** Words *)

Definition bin_word (o : binop) : str :=
  match o with
  | BOr => "or" | BAnd => "and" | BEq => "==" | BNe => "!=" | BLt => "<" | BLe => "<="
  | BGt => ">" | BGe => ">=" | BAdd => "+" | BSub => "-" | BMul => "*" | BDiv => "/" | BMod => "%"
  end%string.

(** A word of the clause for a token. *)
Definition written (t : token) : outcome str :=
  match t with
  | TNum z => ltos z
  | TField n f _ => if bool_decide (n <> 0) then t ← itoa n; Ok (t ++ "_" ++ f) else Ok f
  | TBin o => Ok (bin_word o)
  | TNot => Ok ("!" : str)
  | TOpen => Ok ("(" : str)
  | TClose => Ok (")" : str)
  | TAssign => Ok ("=" : str)
  end.

(** The words of a clause, between single spaces. *)
Definition unwords (l : list str) : str :=
  intercalate " " l.

(** A token that can be written: a literal in range, a computed aggregate whose
    parts can be told apart, an operator that is not the name of a column. *)
Definition writable (g : Scan_Generator) (t : token) : Prop :=
  match t with
  | TField n f avg => exists a, a ∈ all_aggregates g /\ wf_aggregate a /\
      agg_group a = n /\ toVar a = f /\ avg = func_is a "avg" "AVG" /\
      ("000"%char ∉ toVar a) /\ (" "%char ∉ toVar a)
  | _ =>
      (match t with TNum z => 0 <= z < 2 ^ 63 | _ => True end) /\
      forall w, written t = Ok w -> isColumn w (sg_columns g) = false
  end.

Record clean (w : str) : Prop := {
  clean_nil : w <> [];
  clean_space : " "%char ∉ w;
  clean_blank : ltrim w <> [];
  clean_size : size w < 2 ^ 34;
}.

Lemma ltrim_solid (c : ascii) (w : str) : c ∈ w -> is_blank c = false -> ltrim w <> [].
Proof.
  intros Hc Hb. induction w as [|d w IH]; [by apply elem_of_nil in Hc|]. simpl.
  apply elem_of_cons in Hc as [<-|Hc]; [by rewrite Hb|]. destruct (is_blank d); [by apply IH|done].
Qed.

(** A printed number has no leading zero. *)
Lemma print_dec_head fits fuel i t :
  0 < i -> print_dec fits fuel i = Ok t -> exists c t', t = c :: t' /\ c <> "0"%char.
Proof.
  revert i t. induction fuel as [|fuel IH]; intros i t Hi; [done|]. cbn [print_dec].
  destruct (Z.ltb_spec i 0); [lia|]. rewrite Z.geb_leb. destruct (Z.leb_spec 10 i).
  - intros H'. inv_ok. destruct (IH (Z.quot i 10) x) as (c & t' & -> & Hc); [|done|by exists c, (t' ++ x0)].
    rewrite Z.quot_div_nonneg by lia. apply Z.div_str_pos. lia.
  - assert (Hd : i = 1 \/ i = 2 \/ i = 3 \/ i = 4 \/ i = 5 \/ i = 6 \/ i = 7 \/ i = 8 \/ i = 9) by lia.
    intros H'. repeat (destruct Hd as [->|Hd]; [injection H' as <-; by eexists _, _|]).
    subst. injection H' as <-. by eexists _, _.
Qed.

Lemma spelled_digits c t : isdigit c = true -> spelled (c :: t) spellings = None.
Proof.
  intros Hc. assert (H : forallb (fun p => match lit p.1 with d :: _ => negb (isdigit d) | [] => false end)
    spellings = true) by by vm_compute.
  revert H. generalize spellings. induction l as [|[s tok] l IH]; [done|].
  cbn [forallb spelled fst]. intros [Hs Hl]%andb_true_iff. rewrite IH by done.
  unfold str_eqb. rewrite bool_decide_false; [done|]. intros E. rewrite <- E in Hs.
  by rewrite Hc in Hs.
Qed.

Lemma number_word z :
  0 <= z < 2 ^ 63 -> exists w, ltos z = Ok w /\ clean w /\ is_number w /\ raw_token w = Some (TNum z).
Proof.
  intros Hz. destruct (print_dec_pos in_int64 21 z) as (w & Ew & Hd & Hne & Hv); [lia|lia|].
  exists w. split; [done|]. assert (Hnum : is_number w) by (split; [done|by left]).
  destruct w as [|c t]; [done|]. destruct (proj1 (Forall_cons _ _ _) Hd) as [Hc Ht].
  assert (Hblank : is_blank c = false) by (by destruct c as [[] [] [] [] [] [] [] []]).
  split; [|split; [done|]].
  - constructor; [done|by apply number_not_in|by apply (ltrim_solid c); [apply elem_of_cons; left|]|].
    pose proof (print_dec_size _ _ _ _ Ew). lia.
  - unfold raw_token. rewrite spelled_digits by done. unfold decimal.
    assert (Hall : forallb isdigit (c :: t) = true)
      by (apply forallb_forall; intros d Hin; unfold all_digits in Hd; rewrite Forall_forall in Hd;
          by apply Hd, list_elem_of_In).
    rewrite Hall. cbn [andb]. unfold in_int64.
    destruct (decide (z = 0)) as [->|Hpos].
    { vm_compute in Ew. injection Ew as <- <-. done. }
    destruct (print_dec_head in_int64 21 z (c :: t) ltac:(lia) Ew) as (c' & t' & [= <- <-] & Hc0).
    rewrite (bool_decide_false (c = _)) by done. rewrite orb_true_r. cbn [andb].
    by rewrite Hv, (proj2 (Z.leb_le _ _)), (proj2 (Z.leb_le _ _)) by lia.
Qed.

(** The C++ text that [parse_having] prints for a token. *)
Definition emitted (t : token) : outcome str :=
  match t with
  | TField n f avg =>
      n ← itoa n; Ok ("data" ++ n ++ "->at(pos)->" ++ f ++ (if avg then ".value()" : str else []))
  | _ => written t
  end.

(** A word of the clause is printed as, and read back as, its token. *)
Record prints (g : Scan_Generator) (t : token) (s : str) : Prop := {
  prints_clean : clean s;
  prints_token : token_of g s = Ok (Some t);
  prints_text : exists x, emitted t = Ok x /\ forall w, having_token g s w = (Ok x, w);
}.

(** Words that are copied. *)
Lemma prints_raw g t s :
  clean s -> isAggregate s = Ok false -> isColumn s (sg_columns g) = false ->
  raw_token s = Some t -> emitted t = Ok s -> prints g t s.
Proof.
  intros Hc Ha Hcol Hr He. constructor; [done| |].
  - unfold token_of. by rewrite Ha, obind_Ok, Hcol, Hr.
  - exists s. split; [done|]. intros w. unfold having_token. by rewrite Ha, M_bind_lift, Hcol.
Qed.

Lemma operator_word g t w :
  written t = Ok w -> isColumn w (sg_columns g) = false ->
  match t with TNum _ | TField _ _ _ => False | _ => True end ->
  prints g t w.
Proof.
  intros Hw Hcol Ht.
  assert (Hop : w <> [] /\ (forallb (fun c => negb (is_blank c)) w = true) /\ size w < 2 ^ 34 /\
    isAggregate w = Ok false /\ raw_token w = Some t).
  { destruct t as [z|n f a|o| | | |]; [done|done|destruct o|..]; injection Hw as <-;
      repeat split; by vm_compute. }
  destruct Hop as (Hne & Hb & Hs & Ha & Hr). apply prints_raw; [|done..|by destruct t].
  - rewrite forallb_forall in Hb. constructor; [done| | |done].
    + intros Hin%list_elem_of_In. by apply Hb in Hin.
    + destruct w as [|c w]; [done|]. apply (ltrim_solid c); [apply elem_of_cons; by left|].
      by apply negb_true_iff, Hb; left.
Qed.

Lemma field_word g a t :
  a ∈ all_aggregates g -> wf_aggregate a -> ("000"%char ∉ toVar a) -> (" "%char ∉ toVar a) ->
  t = TField (agg_group a) (toVar a) (func_is a "avg" "AVG") ->
  exists w, written t = Ok w /\ prints g t w.
Proof.
  intros Ha Hwf Hnul Hsp ->.
  destruct (Aggregate_roundtrip a (World [] true [] [] ∅ (fun _ => true) []) Hwf) as (w & Ew & En).
  assert (Enw : forall w1, Aggregate_new w w1 = (Ok a, w1)).
  { intros w1. destruct (Aggregate_roundtrip a w1 Hwf) as (w2 & Ew2 & En2). congruence. }
  assert (Eword : written (TField (agg_group a) (toVar a) (func_is a "avg" "AVG")) = Ok w).
  { unfold written. unfold toString in Ew. destruct (bool_decide (agg_group a <> 0)); [|done].
    destruct (itoa (agg_group a)); [|done..]. simpl in *. by rewrite <- app_assoc in Ew. }
  exists w. split; [done|].
  assert (Hparts : exists p, w = p ++ toVar a /\ (" "%char ∉ p) /\ size p < 2 ^ 33).
  { unfold written in Eword. destruct (bool_decide _).
    - destruct (atoi_itoa (agg_group a) (wf_group a Hwf)) as (t & Et & Hn & Hst & _).
      rewrite Et in Eword. injection Eword as <-. exists (t ++ "_"). rewrite <- app_assoc.
      split; [done|]. split; [|rewrite size_app; change (size "_") with 1; lia].
      rewrite elem_of_app. intros [Hin|Hin]; [by apply (number_not_in " ") in Hn|].
      apply elem_of_cons in Hin as [?|Hin]; [done|by apply elem_of_nil in Hin].
    - injection Eword as <-. exists []. split; [done|]. split; [apply not_elem_of_nil|by vm_compute]. }
  destruct Hparts as (p & -> & Hp & Hps).
  assert (Hu : "_"%char ∈ p ++ toVar a).
  { apply elem_of_app. right. unfold toVar. apply elem_of_app. right. apply elem_of_app. left.
    apply elem_of_cons. by left. }
  assert (Hagg : isAggregate (p ++ toVar a) = Ok true)
    by (apply (isAggregate_toString a _ Hwf); [by intros Hin; apply Hnul; unfold toVar; rewrite !elem_of_app; auto..|done]).
  constructor.
  - constructor.
    + intros E. rewrite E in Hu. by apply elem_of_nil in Hu.
    + rewrite elem_of_app. tauto.
    + by apply (ltrim_solid "_").
    + pose proof (wf_size a Hwf) as Hsz. unfold toVar. rewrite !size_app. change (size "_") with 1. lia.
  - unfold token_of.
    rewrite Hagg, obind_Ok, En. cbn [fst]. rewrite obind_Ok.
    replace (existsb (same_aggregate a) (all_aggregates g)) with true; [done|].
    symmetry. apply existsb_exists. exists a. split; [by apply list_elem_of_In|]. by apply bool_decide_eq_true.
  - assert (Hg : INT_MIN < agg_group a <= INT_MAX) by apply (wf_group a Hwf).
    destruct (atoi_itoa _ Hg) as (t & Et & _). eexists. split; [simpl; by rewrite Et|]. intros w.
    unfold having_token. rewrite Hagg, M_bind_lift, (M_bind_ok (Enw w)), Et, M_bind_lift. done.
Qed.

Lemma token_word g t :
  writable g t -> exists w, written t = Ok w /\ prints g t w.
Proof.
  intros Ht. destruct t as [z|n f avg|o| | | |].
  1: { destruct Ht as [Hz Hcol]. destruct (number_word z Hz) as (w & Ew & Hc & Hn & Hr). exists w.
       split; [done|]. apply prints_raw; [done| |by apply Hcol|done|done].
       rewrite isAggregate_spec, number_no_nul by done.
       by rewrite bool_decide_false by by apply number_not_in. }
  1: { destruct Ht as (a & Ha & Hwf & <- & <- & -> & Hnul & Hsp). by apply (field_word g a). }
  all: destruct Ht as [_ Hcol]; eexists; split; [done|]; apply operator_word; [done|by apply Hcol|done].
Qed.

Lemma tokens_words g ts :
  Forall (writable g) ts ->
  exists ws, mapM written ts = Ok ws /\ Forall clean ws /\ tokens_of g ws = Ok (Some ts) /\
    exists xs, mapM emitted ts = Ok xs /\ Forall2 (fun s x => forall w, having_token g s w = (Ok x, w)) ws xs.
Proof.
  induction 1 as [|t ts Ht _ (ws & Ew & Hc & Et & xs & Ex & Hx)]; [exists []; split_and!; [done|done|done|by exists []]|].
  destruct (token_word g t Ht) as (w & E & [Hw Htok (x & Exx & Hxx)]). exists (w :: ws).
  simpl. rewrite E, Ew. split; [done|]. split; [by constructor|]. simpl. rewrite Htok, Et.
  split; [done|]. exists (x :: xs). rewrite Exx, Ex. split; [done|by constructor].
Qed.

(** Splitting at the single spaces gives the words back. *)
Lemma words_split ws w :
  ws <> [] -> Forall clean ws -> size (unwords ws) < 2 ^ 64 ->
  c_explode " " (unwords ws) w = (Ok ws, w).
Proof.
  intros Hne Hc Hs. destruct (exists_last Hne) as (l & x & ->). unfold unwords in *.
  rewrite intercalate_join in *. apply Forall_app in Hc as [Hl Hx].
  apply Forall_singleton in Hx as [Hn Hsp Hb Hsz]. change (lit " ") with [" "%char] in *.
  destruct Hl as [|y l [Hyn Hysp Hyb Hysz] Hl]; [simpl; apply c_explode_single; [done|done|lia]|].
  apply c_explode_join; [done| |by apply drop1_notin|done|done].
  eapply Forall_impl; [exact Hl|]. intros z [Hzn Hzsp _ _]. split; [done|by apply drop1_notin].
Qed.

Lemma show_no_assign e l : TAssign ∉ show l e.
Proof.
  revert l. induction e as [z|n f a|e IH|e IH|o a IHa b IHb]; intros l; simpl;
    case_match; simpl; rewrite ?elem_of_cons, ?elem_of_app, ?elem_of_cons, ?elem_of_nil; naive_solver.
Qed.

Lemma parse_stmt_test ts : TAssign ∉ ts -> parse_stmt ts = Test <$> parse true ts [] [].
Proof.
  intros Hts. destruct ts as [|[z|n f []|o| | | |] [|[] ts]]; try done.
  destruct Hts. rewrite !elem_of_cons. tauto.
Qed.

(** ** The clause that is printed is the clause that is read *)

Lemma having_loop_words g ws xs w :
  ws <> [] -> Forall2 (fun s x => forall w, having_token g s w = (Ok x, w)) ws xs ->
  having_loop g ws true w = (Ok (unwords xs), w).
Proof.
  intros Hne Hx. assert (Hrest : forall ws xs,
    Forall2 (fun s x => forall w, having_token g s w = (Ok x, w)) ws xs ->
    having_loop g ws false w = (Ok (List.concat (map (fun x => " " ++ x) xs)), w)).
  { induction 1 as [|s x ws' xs' Hs _ IH]; [done|]. cbn [having_loop].
    by rewrite (M_bind_ok (Hs w)), (M_bind_ok IH). }
  destruct Hx as [|s x ws xs Hs Hx]; [done|]. cbn [having_loop].
  rewrite (M_bind_ok (Hs w)), (M_bind_ok (Hrest _ _ Hx)). unfold mret, M_ret. do 2 f_equal. simpl.
  clear Hs Hx Hrest. revert x. induction xs as [|y xs IH]; intros x; [simpl; by rewrite app_nil_r|].
  unfold unwords in *. by rewrite intercalate_cons, <- IH.
Qed.

(** A clause written from an expression means that expression. *)
Lemma clause_read g e ws :
  Forall (writable g) (show 0 e) -> mapM written (show 0 e) = Ok ws -> having g = unwords ws ->
  size (having g) < 2 ^ 64 ->
  having_stmt g = Ok (Some (Test e)) /\
  exists xs, mapM emitted (show 0 e) = Ok xs /\ forall w, parse_having g w = (Ok (unwords xs), w).
Proof.
  intros Hok Hws Hg Hs. destruct (tokens_words g (show 0 e) Hok) as (ws' & Ew & Hc & Et & xs & Ex & Hx).
  rewrite Ew in Hws. injection Hws as ->. unfold having_stmt, having_words.
  assert (Hne : ws <> []).
  { intros ->. destruct (show 0 e) eqn:E; [|simpl in Ew; inv_ok; done].
    pose proof (parse_show e) as Hp. by rewrite E in Hp. }
  assert (Hsize : 0 < size (having g)).
  { rewrite Hg. destruct ws as [|x ws]; [done|]. apply Forall_cons in Hc as [[Hxn _ _ _] _].
    pose proof (size_nonneg x). assert (size x <> 0) by by rewrite size_zero.
    unfold unwords. destruct ws as [|y ws]; [simpl; lia|]. rewrite intercalate_cons, size_app.
    pose proof (size_nonneg (" " ++ intercalate " " (y :: ws))). lia. }
  destruct (Z.ltb_spec (size (having g)) 1); [lia|].
  rewrite Hg in *. split.
  - rewrite (words_split ws _ Hne Hc Hs). cbn [fst]. rewrite obind_Ok, Et, obind_Ok.
    simpl. by rewrite (parse_stmt_test _ (show_no_assign e 0)), parse_show.
  - exists xs. split; [done|]. intros w. unfold parse_having. rewrite Hg.
    destruct (Z.ltb_spec (size (unwords ws)) 1); [lia|].
    rewrite (M_bind_ok (words_split ws w Hne Hc Hs)). by apply having_loop_words.
Qed.

(** ** The loop with a clause that only tests *)

(** The condition that the clause denotes. *)
Definition clause_holds (e : hexpr) (st : store) (pos : Z) : outcome bool :=
  v ← eval st pos e; Ok (truth v).

Lemma clause_holds_eq e st pos : clause_holds e st pos = (v ← eval st pos e; Ok (truth v)).
Proof. done. Qed.

Lemma fill_clause_test attrs e aggs st before entries data0 :
  st !! 0%nat = Some data0 ->
  run_fill_clause attrs (Test e) aggs st before entries =
    run_fill (fun x => let pos := vfind attrs data0 x in
                       h ← clause_holds e st pos; Ok (h && negb (pos =? -1)))
      (fun x => fill_entry st aggs (vfind attrs data0 x) x) before entries.
Proof.
  intros Hst. revert before. induction entries as [|x entries IH]; intros before; [done|].
  cbn [run_fill_clause run_fill]. rewrite Hst. cbn [deref]. rewrite obind_Ok. cbn [run_stmt].
  cbv zeta. rewrite (clause_holds_eq e st (vfind attrs data0 x)).
  destruct (eval st (vfind attrs data0 x) e) as [v| | |]; simpl; [|done..].
  destruct (truth v && _).
  - destruct (fill_entry st aggs _ x); simpl; [|done..]. apply IH.
  - destruct before; [done|apply IH].
Qed.

(** The emitted program with a clause that only tests is the program of
    [Emitted] with the condition that the clause denotes. *)
Lemma run_program_test g e data :
  run_program g (Test e) data = run_generated g (clause_holds e) data.
Proof.
  unfold run_program, run_generated. destruct (run_prelim _ _ _) as [mf st].
  destruct (group_aggregates g) as [groups| | |]; [|done..]. rewrite !obind_Ok.
  destruct (run_scans g _ data 0 groups st) as [st'| | |]; [|done..]. rewrite !obind_Ok.
  unfold run_fill_mfstruct. destruct (st' !! 0%nat) as [data0|] eqn:E.
  - by apply fill_clause_test.
  - done.
Qed.

(** The query with its clause, in one step. *)
Lemma run_query_test g e data :
  having_stmt g = Ok (Some (Test e)) -> run_query g data = run_generated g (clause_holds e) data.
Proof. intros Hg. unfold run_query. rewrite Hg. apply run_program_test. Qed.

(** ** Clauses that cannot fail *)

(** An expression of comparisons and connectives over members of the query's
    variables, without arithmetic and averages. *)
Fixpoint tests_only (n : Z) (e : hexpr) : bool :=
  match e with
  | HNum _ => true
  | HField group _ avg => negb avg && (0 <=? group) && (group <=? n)
  | HNot a => tests_only n a
  | HNeg _ => false
  | HBin (BAdd | BSub | BMul | BDiv | BMod) _ _ => false
  | HBin _ a b => tests_only n a && tests_only n b
  end.

Lemma entry_at_shaped g data st k u group :
  Z.of_nat (length data) < 2 ^ 63 -> shaped g data st -> 0 <= group <= no_grouping_vars g ->
  get_uniques (grouping_attr g) data !! k = Some u ->
  exists x, entry_at st (Z.of_nat k) group = Ok x.
Proof.
  intros Hd Hsh Hgr Hk. pose proof (unique_index g data Hd k u Hk).
  destruct (Hsh group Hgr) as (objs & Ho & Hc). unfold entry_at. rewrite Ho. simpl.
  apply (f_equal (@length _)) in Hc. rewrite !length_map in Hc.
  apply lookup_lt_Some in Hk. destruct (lookup_lt_is_Some_2 objs k) as [x Hx]; [lia|].
  exists x. unfold vec_at. rewrite to_size_t_small by lia. by rewrite decide_True, Nat2Z.id, Hx by lia.
Qed.

Lemma tests_total g data e :
  Z.of_nat (length data) < 2 ^ 63 -> tests_only (no_grouping_vars g) e = true ->
  having_total g data (clause_holds e).
Proof.
  intros Hd He st k u Hsh _ Hk. rewrite clause_holds_eq.
  assert (H : exists v, eval st (Z.of_nat k) e = Ok v).
  { induction e as [z|group f avg|a IH|a IH|o a IHa b IHb]; simpl in *; [by eexists| | |done|].
    - apply andb_true_iff in He as [[Hav%negb_true_iff Hl]%andb_true_iff Hr]. subst.
      destruct (entry_at_shaped g data st k u group) as [x ->]; [done|done|lia|done|]. by eexists.
    - destruct (IH He) as [v ->]. by eexists.
    - assert (Hab : tests_only (no_grouping_vars g) a = true /\ tests_only (no_grouping_vars g) b = true)
        by (apply andb_true_iff; by destruct o).
      destruct Hab as [Ha Hb]. destruct (IHa Ha) as [v ->], (IHb Hb) as [w ->].
      destruct o; try discriminate He; simpl; try (destruct (truth v)); by eexists. }
  destruct H as [v ->]. done.
Qed.

(** ** Assignments *)

Lemma assign_overwrites st pos n f e v x :
  0 <= pos < 2 ^ 64 -> eval st pos e = Ok v -> entry_at st pos n = Ok x ->
  exists st' x', run_stmt st pos (Assign n f (Test e)) = Ok (Num true (val v), st') /\
    entry_at st' pos n = Ok x' /\ num_of x' f = val v.
Proof.
  intros Hpos Hv Hx. cbn [run_stmt]. rewrite Hv, obind_Ok. cbn [mbind outcome_bind].
  unfold entry_at in *. destruct (st !! Z.to_nat n) as [objs|] eqn:En; [|done].
  cbn [deref mbind outcome_bind] in *. rewrite Hx. eexists _, _. split; [done|].
  apply lookup_lt_Some in En as Hlt. rewrite list_lookup_insert_eq by done. cbn [deref].
  cbn [mbind outcome_bind]. unfold vec_at in *. rewrite to_size_t_small in * by done.
  destruct (decide (0 <= pos < Z.of_nat (length objs))) as [Hr|]; [|done].
  rewrite length_insert, decide_True by done. rewrite list_lookup_insert_eq by lia.
  split; [done|]. unfold num_of, set_num. simpl. by rewrite lookup_insert_eq.
Qed.
