(* ===== verification/Compile.v ===== *)
(** * Compiling a well-formed query succeeds

    Every stage of [parse_query] returns on a well-formed query.  The proof goes
    through [ensures]: each generator returns and touches no file until the last two
    writes ([writes_outputs]).  What is written is the subject of [Program]. *)

From S2P Require Import Prelude Cxx Str Config Column Aggregate Condition.
From S2P Require Import Generators ScanGenerator Sql Io Output User.

(** ** Texts the parts accept *)

(** The text of an aggregate. *)
Definition agg_text (s : str) (a : Aggregate) : Prop :=
  wf_aggregate a /\ toString a = Ok s.

(** A token that is not taken for an aggregate, or is the text of one. *)
Definition token_ok (s : str) : Prop :=
  isAggregate s = Ok false \/ exists a, agg_text s a.

(** A comparison that can be printed: its value is a column or a token. *)
Definition printable (columns : list Column) (c : Condition) : Prop :=
  isColumn (cond_value c) columns = true \/ token_ok (cond_value c).

Definition clause_ok (columns : list Column) (cs : Conditions) : Prop :=
  conds cs <> [] /\ (length (conds cs) <= S (length (ops cs)))%nat /\
  Z.of_nat (length (conds cs)) < 2 ^ 31 /\ Forall (printable columns) (conds cs).

(** A grouping attribute of a type the helpers support. *)
Definition attribute_ok (columns : list Column) (s : str) : Prop :=
  exists c, column_in s columns = Some c /\ helper_type (col_ctype c) = true.

Lemma ensures_Aggregate_new s a :
  agg_text s a -> ensures (Aggregate_new s) (fun x => x = a).
Proof.
  intros [Hwf Ht]. eapply ensures_pure; [|reflexivity]. intros w.
  destruct (Aggregate_roundtrip a w Hwf) as (t & Et & E). congruence.
Qed.

Lemma itoa_total i : INT_MIN < i <= INT_MAX -> exists t, itoa i = Ok t.
Proof. intros H. destruct (itoa_decimal i H) as (t & -> & _). by exists t. Qed.

Lemma agg_itoa s a : agg_text s a -> exists t, itoa (agg_group a) = Ok t.
Proof. intros [[Hg _ _ _ _ _] _]. by apply itoa_total. Qed.

Lemma toABSVar_total a : INT_MIN < agg_group a <= INT_MAX -> exists t, toABSVar a = Ok t.
Proof.
  intros H. unfold toABSVar. destruct (itoa_total _ H) as [t ->].
  case_bool_decide; eexists; reflexivity.
Qed.

Lemma isAggregate_total s : exists b, isAggregate s = Ok b.
Proof. rewrite isAggregate_spec. by eexists. Qed.

Lemma column_in_isColumn s columns :
  isColumn s columns = true -> size s < npos -> exists c, column_in s columns = Some c.
Proof.
  intros Hc Hs. pose proof (isColumn_hasColumn s columns Hs Hc) as Hh.
  unfold hasColumn in Hh. unfold column_in.
  destruct (List.find _ columns) as [c|] eqn:E; [by exists c|].
  apply existsb_exists in Hh as (c & Hin & Hc').
  by rewrite (List.find_none _ _ E c Hin) in Hc'.
Qed.

(** ** The conditions *)

Lemma ensures_Condition_toCpp columns c var var2 sel :
  printable columns c -> ensures (Condition_toCpp c var var2 sel columns) (fun _ => True).
Proof.
  intros Hp. unfold Condition_toCpp. destruct (isColumn (cond_value c) columns) eqn:Ec.
  - eapply ensures_bind; [by apply (ensures_ret false (fun _ => True))|]. intros ? _.
    by apply ensures_ret.
  - destruct Hp as [?|[Hn|[a Ha]]]; [congruence| |].
    + eapply ensures_bind; [by apply (ensures_lift _ false (fun b => b = false))|].
      intros ? ->. destruct (hasColumn _ _); by apply ensures_ret.
    + destruct (isAggregate_total (cond_value c)) as [b Hb].
      eapply ensures_bind; [by apply (ensures_lift _ b (fun _ => True))|]. intros [] _.
      * eapply ensures_bind; [by apply ensures_Aggregate_new|]. intros ? ->.
        destruct (agg_itoa _ a Ha) as [t Et].
        eapply ensures_bind; [by apply (ensures_lift _ t (fun _ => True))|]. intros ? _.
        by apply ensures_ret.
      * destruct (hasColumn _ _); by apply ensures_ret.
Qed.

Lemma vec_at_ok {A} (l : list A) i :
  0 <= i < Z.of_nat (length l) -> exists x, vec_at l i = Ok x /\ x ∈ l.
Proof.
  intros Hi. unfold vec_at. rewrite decide_True by done.
  destruct (lookup_lt_is_Some_2 l (Z.to_nat i)) as [x Hx]; [lia|].
  rewrite Hx. exists x. split; [done|]. by apply list_elem_of_lookup_2 in Hx.
Qed.

Lemma ensures_Conditions_toCpp columns cs var var2 sel :
  clause_ok columns cs -> ensures (Conditions_toCpp cs var var2 sel columns) (fun _ => True).
Proof.
  intros (Hne & Hlen & Hb & Hp). unfold Conditions_toCpp.
  rewrite Forall_forall in Hp.
  destruct (vec_at_ok (conds cs) 0) as (c & Ec & Hc); [destruct (conds cs); simpl; [done|lia]|].
  eapply ensures_bind; [by apply (ensures_lift _ c (fun x => x ∈ conds cs))|]. intros c' Hc'.
  assert (Hloop : forall n i out, 1 <= i -> i + Z.of_nat n <= Z.of_nat (length (conds cs)) ->
    ensures (Conditions_toCpp_loop cs n i var var2 sel columns out) (fun _ => True)).
  { induction n as [|n IH]; intros i out H1 H2; simpl; [by apply ensures_ret|].
    destruct (vec_at_ok (ops cs) (i - 1)) as (o & Eo & _); [lia|].
    eapply ensures_bind; [by apply (ensures_lift _ o (fun _ => True))|]. intros o' _.
    destruct (vec_at_ok (conds cs) i) as (d & Ed & Hd); [lia|].
    eapply ensures_bind; [by apply (ensures_lift _ d (fun x => x ∈ conds cs))|]. intros d' Hd'.
    eapply ensures_bind; [by apply ensures_Condition_toCpp, Hp|]. intros t _.
    apply IH; lia. }
  eapply ensures_bind; [by apply ensures_Condition_toCpp, Hp|]. intros out _.
  apply Hloop; [done|]. destruct (conds cs); [done|]. simpl. lia.
Qed.

(** ** The helpers and structures *)

Lemma ct_equals_total t a b : helper_type t = true -> exists s, ct_equals t a b = Ok s.
Proof.
  unfold helper_type, ct_equals. cbn [existsb]. intros H.
  destruct (t =? CPP_STRING); [by eexists|].
  destruct (t =? CPP_INT64); [by eexists|]. destruct (t =? CPP_FLOAT); [by eexists|].
  destruct (t =? CPP_DOUBLE); [by eexists|]. done.
Qed.

Section helpers.
Context (columns : list Column) (attrs : list str).
Context (Hattrs : Forall (attribute_ok columns) attrs).

Lemma get_ct_types :
  Forall (fun c => exists t, ct_type c = Some t /\ helper_type t = true) (get_ct attrs columns).
Proof using Hattrs.
  unfold get_ct. apply Forall_map. eapply Forall_impl; [exact Hattrs|].
  intros s (c & Hc & Ht). simpl. rewrite Hc. simpl. by exists (col_ctype c).
Qed.

Lemma vfind_parts_total cols first arg comp :
  Forall (fun c => exists t, ct_type c = Some t /\ helper_type t = true) cols ->
  exists p, vfind_parts cols first arg comp = Ok p.
Proof using.
  intros Hc. revert first arg comp.
  induction Hc as [|c cols (t & Ht & Hh) _ IH]; intros first arg comp; simpl; [by eexists|].
  rewrite Ht. simpl. edestruct (ct_equals_total t) as [s ->]; [done|]. apply IH.
Qed.

Lemma unique_test_total cols first :
  Forall (fun c => exists t, ct_type c = Some t /\ helper_type t = true) cols ->
  exists s, unique_test cols first = Ok s.
Proof using.
  intros Hc. revert first.
  induction Hc as [|c cols (t & Ht & Hh) _ IH]; intros first; simpl; [by eexists|].
  rewrite Ht. simpl. edestruct (ct_equals_total t) as [s ->]; [done|].
  rewrite obind_Ok. destruct (IH false) as [r ->]. by eexists.
Qed.

Lemma get_helpers_total n :
  n < INT_MAX -> exists t, get_helpers n attrs columns = Ok t.
Proof using Hattrs.
  intros Hn. unfold get_helpers. pose proof get_ct_types as Hc.
  destruct (append_each_total (vfind_text (get_ct attrs columns)) (upto n)) as [vf ->].
  - rewrite Forall_forall. intros i Hi%upto_elem. unfold vfind_text.
    destruct (itoa_total i) as [t ->]; [unfold INT_MIN, INT_MAX in *; lia|]. rewrite obind_Ok.
    destruct (vfind_parts_total _ true [] [] Hc) as [[p1 p2] ->]. by eexists.
  - rewrite obind_Ok. destruct (unique_test_total _ true Hc) as [t ->]. by eexists.
Qed.
End helpers.

Lemma ensures_token_M {A} s (f : Aggregate -> M A) (g : M A) :
  token_ok s ->
  (forall a, agg_text s a -> ensures (f a) (fun _ => True)) ->
  ensures g (fun _ => True) ->
  ensures (agg ← lift (isAggregate s);
           if (agg : bool) then tmp ← Aggregate_new s; f tmp else g) (fun _ => True).
Proof.
  intros [Hn|[a Ha]] Hf Hg.
  - eapply ensures_bind; [by apply (ensures_lift _ false (fun b => b = false))|]. by intros ? ->.
  - destruct (isAggregate_total s) as [b Hb].
    eapply ensures_bind; [by apply (ensures_lift _ b (fun _ => True))|]. intros [] _; [|done].
    eapply ensures_bind; [by apply ensures_Aggregate_new|]. intros ? ->. by apply Hf.
Qed.

Lemma ensures_ABSVar s a (f : str -> M str) :
  agg_text s a -> (forall v, ensures (f v) (fun _ => True)) ->
  ensures (v ← lift (toABSVar a); f v) (fun _ => True).
Proof.
  intros [[Hg _ _ _ _ _] _] Hf. destruct (toABSVar_total a Hg) as [v Ev].
  eapply ensures_bind; [by apply (ensures_lift _ v (fun _ => True))|]. auto.
Qed.

Lemma ensures_create_output_printer sel columns :
  Forall token_ok sel -> ensures (create_output_printer sel columns) (fun _ => True).
Proof.
  intros Hs. unfold create_output_printer.
  eapply ensures_bind; [|intros t _; by apply ensures_ret].
  apply ensures_append_eachM. eapply Forall_impl; [exact Hs|]. intros s Hok.
  apply ensures_token_M; [done| |by apply ensures_ret].
  intros a Ha. eapply ensures_ABSVar; [exact Ha|]. intros v. by apply ensures_ret.
Qed.

Lemma ensures_create_structures sel columns :
  Forall token_ok sel -> ensures (create_structures sel columns) (fun _ => True).
Proof.
  intros Hs. unfold create_structures.
  eapply ensures_bind; [|intros t _; by apply ensures_ret].
  apply ensures_append_eachM. eapply Forall_impl; [exact Hs|]. intros s Hok. cbv zeta.
  apply ensures_token_M; [done| |by apply ensures_ret].
  intros a Ha. eapply ensures_ABSVar; [exact Ha|]. intros v. by apply ensures_ret.
Qed.

Lemma create_groups_total n columns sel aggs :
  n < INT_MAX -> exists t, create_grouping_var_structs n columns sel aggs = Ok t.
Proof.
  intros Hn. apply append_each_total. rewrite Forall_forall. intros i Hi%upto_elem.
  destruct (itoa_total i) as [t ->]; [unfold INT_MIN, INT_MAX in *; lia|]. by eexists.
Qed.

Lemma ensures_getSelectAggregates sel :
  Forall token_ok sel ->
  ensures (getSelectAggregates sel)
    (fun r => Forall (fun a => INT_MIN < agg_group a <= INT_MAX) r.1).
Proof.
  induction 1 as [|s sel Hs _ IH]; simpl; [by apply ensures_ret|].
  destruct Hs as [Hn|[a Ha]].
  - eapply ensures_bind; [by apply (ensures_lift _ false (fun b => b = false))|]. intros ? ->.
    eapply ensures_bind; [exact IH|]. intros r Hr. by apply ensures_ret.
  - destruct (isAggregate_total s) as [b Hb].
    eapply ensures_bind; [by apply (ensures_lift _ b (fun _ => True))|]. intros [] _.
    + eapply ensures_bind; [by apply ensures_Aggregate_new|]. intros ? ->.
      eapply ensures_bind; [exact IH|]. intros r Hr. apply ensures_ret. simpl.
      constructor; [|done]. by destruct Ha as [[? _ _ _ _ _] _].
    + eapply ensures_bind; [exact IH|]. intros r Hr. by apply ensures_ret.
Qed.

(** ** The scans *)

Definition group_ok (a : Aggregate) : Prop := INT_MIN < agg_group a <= INT_MAX.

Lemma update_text_total var a : group_ok a -> exists t, update_text var a = Ok t.
Proof. intros H. unfold update_text. destruct (itoa_total _ H) as [t ->]. by eexists. Qed.

Lemma updates_total var l : Forall group_ok l -> exists t, append_each (update_text var) l = Ok t.
Proof.
  intros Hl. apply append_each_total. eapply Forall_impl; [exact Hl|].
  intros a. apply update_text_total.
Qed.

Lemma ensures_some {A} (o : outcome A) (P : A -> Prop) :
  (exists a, o = Ok a /\ P a) -> ensures (lift o) P.
Proof. intros (a & E & Ha). by apply (ensures_lift _ a). Qed.

Lemma ensures_any {A} (o : outcome A) :
  (exists a, o = Ok a) -> ensures (lift o) (fun _ => True).
Proof. intros [a E]. by apply (ensures_lift _ a). Qed.

(** The members of a generator from which every text can be printed. *)
Record wf_generator (g : Scan_Generator) : Prop := {
  wfg_number : 0 <= no_grouping_vars g < INT_MAX;
  wfg_all : Forall (fun a => 0 <= agg_group a <= no_grouping_vars g) (all_aggregates g);
  wfg_select : Forall group_ok (select_aggregates g);
  wfg_clauses : 0 < no_grouping_vars g ->
    exists l, select_conditions g = Some l /\ no_grouping_vars g <= Z.of_nat (length l) /\
      Forall (clause_ok (sg_columns g)) l;
  wfg_having : size (having g) < 2 ^ 64 /\
    forall l last, having g = join [" "%char] l last -> Forall token_ok (l ++ [last]);
}.

Section scans.
Context (g : Scan_Generator) (Hwf : wf_generator g).

Local Lemma itoa_group i : 0 <= i <= no_grouping_vars g -> exists t, itoa i = Ok t.
Proof using Hwf.
  intros Hi. apply itoa_total. pose proof (wfg_number g Hwf).
  unfold INT_MIN, INT_MAX in *. lia.
Qed.

Lemma prelim_scan_total : exists t, prelim_scan g = Ok t.
Proof using Hwf.
  unfold prelim_scan.
  edestruct (append_each_total (A:=Z)) as [d ->].
  { rewrite Forall_forall. intros i Hi%upto_elem. destruct (itoa_group i Hi) as [t ->].
    by eexists. }
  edestruct (append_each_total (A:=Z)) as [e ->].
  { rewrite Forall_forall. intros i Hi%upto_elem. destruct (itoa_group i Hi) as [t ->].
    by eexists. }
  rewrite !obind_Ok. by eexists.
Qed.

Lemma ensures_selection_cond i :
  0 <= i <= no_grouping_vars g -> ensures (get_selection_cond g i) (fun _ => True).
Proof using Hwf.
  intros Hi. unfold get_selection_cond. destruct (Z.eqb_spec i 0); [by apply ensures_ret|].
  destruct (wfg_clauses g Hwf) as (l & El & Hl & Hc); [lia|]. rewrite El.
  pose proof (wfg_number g Hwf). rewrite Forall_forall in Hc.
  eapply ensures_bind; [by apply (ensures_lift _ l (fun x => x = l))|]. intros ? ->.
  rewrite to_size_t_small by (unfold INT_MAX in *; lia).
  eapply ensures_bind; [apply (ensures_some _ (fun c => c ∈ l)), vec_at_ok; lia|].
  intros c Hin. by apply ensures_Conditions_toCpp, Hc.
Qed.

Lemma ensures_scan_groups scan i (groups : list (list Aggregate)) :
  (forall j xt, i <= j < i + Z.of_nat (length groups) -> xt ∈ groups ->
     ensures (scan j xt) (fun _ => True)) ->
  ensures (scan_groups scan i groups) (fun _ => True).
Proof using.
  clear Hwf. revert i. induction groups as [|xt groups IH]; intros i Hs; simpl; [by apply ensures_ret|].
  eapply ensures_bind; [apply Hs; [simpl; lia|set_solver]|]. intros t _.
  eapply ensures_bind; [|intros r _; by apply ensures_ret].
  apply IH. intros j y Hj Hy. apply Hs; [simpl; lia|set_solver].
Qed.

(** A scan whose body prints on every group of the partition. *)
Lemma ensures_grouped_scan scan :
  (forall i xt, 0 <= i <= no_grouping_vars g -> Forall group_ok xt ->
     ensures (scan i xt) (fun _ => True)) ->
  ensures (groups ← lift (group_aggregates g); scan_groups scan 0 groups) (fun _ => True).
Proof using Hwf.
  intros Hs. pose proof (wfg_number g Hwf) as Hn. pose proof (wfg_all g Hwf) as Ha.
  rewrite group_aggregates_spec by (done || unfold INT_MAX in *; lia).
  eapply ensures_bind; [exact (ensures_lift _ _ (eq _) eq_refl eq_refl)|]. intros groups <-.
  apply ensures_scan_groups. intros j xt Hj Hxt.
  rewrite length_map, length_upto in Hj by lia.
  apply Hs; [lia|]. apply list_elem_of_fmap in Hxt as (k & -> & _).
  unfold of_group. rewrite Forall_forall in Ha |- *. intros a Hin.
  apply list_elem_of_In, filter_In in Hin as [Hin _]. apply list_elem_of_In in Hin.
  specialize (Ha a Hin). unfold group_ok, INT_MIN, INT_MAX in *. lia.
Qed.

Lemma ensures_aggregate_scan : ensures (aggregate_scan g) (fun _ => True).
Proof using Hwf.
  apply ensures_grouped_scan. intros i xt Hi Hx.
  eapply ensures_bind; [by apply ensures_selection_cond|]. intros cond _.
  eapply ensures_bind; [by apply ensures_any, itoa_group|]. intros n _.
  eapply ensures_bind; [by apply ensures_any, updates_total|]. intros u _.
  by apply ensures_ret.
Qed.

Lemma ensures_emf_aggregate_scan : ensures (emf_aggregate_scan g) (fun _ => True).
Proof using Hwf.
  apply ensures_grouped_scan. intros i xt Hi Hx.
  eapply ensures_bind; [by apply ensures_selection_cond|]. intros cond _.
  eapply ensures_bind; [by apply ensures_any, updates_total|]. intros u _.
  by apply ensures_ret.
Qed.

Lemma ensures_having_loop l first :
  Forall token_ok l -> ensures (having_loop g l first) (fun _ => True).
Proof using.
  intros Hl. revert first. induction Hl as [|t l Ht _ IH]; intros first; simpl.
  - by apply ensures_ret.
  - eapply (ensures_bind _ _ (fun _ => True)).
    + apply ensures_token_M; [done| |destruct (isColumn _ _); by apply ensures_ret].
      intros a Ha. destruct (agg_itoa _ a Ha) as [n En].
      eapply ensures_bind; [by apply (ensures_lift _ n (fun _ => True))|]. intros ? _.
      by apply ensures_ret.
    + intros a _. eapply ensures_bind; [apply IH|]. intros r _. by apply ensures_ret.
Qed.

Lemma ensures_parse_having : ensures (parse_having g) (fun _ => True).
Proof using Hwf.
  unfold parse_having. destruct (Z.ltb_spec (size (having g)) 1) as [H|H];
    [by apply ensures_ret|].
  destruct (wfg_having g Hwf) as [Hb Ht].
  eapply (ensures_bind _ _ (Forall token_ok)).
  - intros w. destruct (c_explode_sound " " (having g) w) as (l & last & E & _ & ->);
      [intros E; rewrite E in H; done|done|].
    eexists _, _. split; [done|]. specialize (Ht l last E). split.
    + destruct (decide (ltrim last = [])); [|done]. by apply Forall_app in Ht as [? _].
    + unfold blank_rest. by destruct (decide (ltrim last = [])).
  - intros l Hl. by apply ensures_having_loop.
Qed.

Lemma ensures_fill_mfstruct : ensures (fill_mfstruct g) (fun _ => True).
Proof using Hwf.
  unfold fill_mfstruct. cbv zeta.
  eapply ensures_bind; [apply ensures_parse_having|]. intros cond _.
  eapply ensures_bind; [|intros f _; by apply ensures_ret].
  apply ensures_any, append_each_total. eapply Forall_impl; [apply Hwf|].
  intros a Ha. destruct (itoa_total _ Ha) as [t ->]. rewrite obind_Ok.
  destruct (toABSVar_total a Ha) as [v ->]. by eexists.
Qed.

Lemma ensures_generate : ensures (generate g) (fun _ => True).
Proof using Hwf.
  unfold generate.
  eapply ensures_bind; [by apply ensures_any, prelim_scan_total|]. intros a _.
  eapply (ensures_bind _ _ (fun _ => True)).
  - destruct (emf g); [apply ensures_emf_aggregate_scan|apply ensures_aggregate_scan].
  - intros b _. eapply ensures_bind; [apply ensures_fill_mfstruct|]. intros c _.
    by apply ensures_ret.
Qed.
End scans.

(** ** The whole compilation *)

(** A such-that clause as it is written. *)
Inductive clause_source (s : str) : Conditions -> Prop :=
| ClauseSource s0 t0 rest ts :
    s = clause_text s0 rest ->
    denotes t0 s0 -> word s0 ->
    Forall2 (fun p t => denotes t p.2) rest ts ->
    Forall (fun p => word p.1 /\ word p.2) rest ->
    size s < 2 ^ 63 ->
    clause_source s (MkConditions (map meaning (t0 :: ts)) (map fst rest)).

Lemma ensures_clause s cs : clause_source s cs -> ensures (Conditions_new s) (fun x => x = cs).
Proof.
  intros Hs. destruct Hs as [s0 t0 rest ts -> Ht Hw Hr Hrw Hb].
  eapply ensures_pure; [|done]. intros w. by apply Conditions_new_show.
Qed.

Lemma show_size_total n : 0 <= n < 10 ^ 20 -> exists t, show_size n = Ok t.
Proof.
  intros H. destruct (print_dec_pos (fun _ => true) 21 n) as (t & E & _); [lia|lia|].
  by exists t.
Qed.

Lemma Forall2_eq_r {A B} (R : A -> B -> Prop) l k k' :
  (forall a b b', R a b -> R a b' -> b = b') -> Forall2 R l k -> Forall2 R l k' -> k = k'.
Proof.
  intros HR H. revert k'. induction H as [|a b l k Hab _ IH]; intros k' H'.
  - by inversion H'.
  - inversion H' as [|? b' ? k'' Hab' Hk]; subst. f_equal; [by eapply HR|by apply IH].
Qed.

Lemma ensures_getConditions l css :
  Forall2 clause_source l css -> l <> [] -> Z.of_nat (length l) < 10 ^ 20 ->
  ensures (getConditions (Some l)) (fun r => r = Some css).
Proof.
  intros Hl Hne Hb. destruct l as [|s l]; [done|]. unfold getConditions.
  eapply (ensures_bind _ _ (fun _ => True)).
  - case_bool_decide as H1.
    + destruct (vec_at_ok (s :: l) 0) as (c & Ec & _); [simpl; lia|].
      eapply ensures_bind; [by apply (ensures_lift _ c (fun _ => True))|]. intros ? _.
      by apply ensures_cout.
    + eapply ensures_bind; [apply ensures_any, show_size_total; lia|]. intros n _.
      by apply ensures_cout.
  - intros _ _.
    eapply (ensures_bind _ _ (fun r => r = css)); [|intros ? ->; by apply ensures_ret].
    clear Hne Hb. induction Hl as [|x cs l' css' Hx _ IH]; simpl; [by apply ensures_ret|].
    eapply ensures_bind; [by apply ensures_clause|]. intros ? ->.
    eapply ensures_bind; [exact IH|]. intros ? ->. by apply ensures_ret.
Qed.

Lemma ensures_getAllAggregates l aggs :
  Forall2 agg_text l aggs -> ensures (getAllAggregates l) (fun r => r = aggs).
Proof.
  intros Hl. unfold getAllAggregates.
  induction Hl as [|x a l aggs Hx _ IH]; simpl; [by apply ensures_ret|].
  eapply ensures_bind; [by apply ensures_Aggregate_new|]. intros ? ->.
  eapply ensures_bind; [exact IH|]. intros ? ->. by apply ensures_ret.
Qed.

Section compile.
Context `{Connector}.

(** Every call succeeds, and the information schema describes the table by
    the names and types [cols]. *)
Definition describes (cols : list (str * str)) : Prop :=
  forall past rows, db_answer past (DbStatementExecuteQuery columns_query) = Ok rows ->
    Forall2 (fun row c => db_getString row "COLUMN_NAME" = Ok c.1 /\
                          db_getString row "DATA_TYPE" = Ok c.2) rows cols.

Definition columns_of (cols : list (str * str)) : list Column :=
  map (fun c => Column_of_sql c.1 c.2) cols.

Lemma ensures_perform c :
  reliable -> ensures (perform c) (fun rows => exists past, db_answer past c = Ok rows).
Proof using.
  intros Hr w. destruct (perform_ok c w Hr) as [rows E]. exists rows, (add_dbs [c] w).
  split; [done|]. split; [|done]. exists (w_db w).
  unfold perform in E. by injection E.
Qed.

Lemma ensures_performs {A} c (m : M A) (P : A -> Prop) :
  reliable -> ensures m P -> ensures (_ ← perform c; m) P.
Proof using.
  intros Hr Hm. eapply ensures_bind; [by apply ensures_perform|]. by intros _ _.
Qed.

Lemma ensures_getColumns cols :
  reliable -> describes cols -> ensures getColumns (fun r => r = columns_of cols).
Proof using.
  intros Hr Hd. unfold getColumns.
  eapply (ensures_bind _ _ (fun _ => True)).
  { apply ensures_performs; [done|]. unfold update_database. apply ensures_performs; [done|].
    by apply ensures_ret. }
  intros conn _. eapply (ensures_bind _ _ (fun rows => exists past,
    db_answer past (DbStatementExecuteQuery columns_query) = Ok rows)).
  { apply ensures_performs; [done|].
    eapply ensures_bind; [by apply ensures_perform|]. intros rows Hrows.
    apply ensures_performs; [done|]. by apply ensures_ret. }
  intros rows [past Hrows]. apply Hd in Hrows.
  eapply (ensures_bind _ _ (fun r => r = columns_of cols)).
  { apply (ensures_lift _ (columns_of cols)); [|done].
    clear Hd. induction Hrows as [|row c rows cols' [H1 H2] _ IH]; simpl; [done|].
    by rewrite H1, obind_Ok, H2, !obind_Ok, IH. }
  intros ? ->. unfold SQLConn_delete.
  eapply (ensures_bind _ _ (fun _ => True)).
  { apply ensures_performs; [done|]. by apply ensures_ret. }
  intros _ _. apply ensures_performs; [done|]. by apply ensures_ret.
Qed.

(** A query that can be compiled for a table. *)
Record wf_compile (q : query_file) (columns : list Column) : Prop := {
  wfk_groups : 0 < f_groups q < INT_MAX;
  wfk_select : Forall token_ok (f_select q);
  wfk_grouping : Forall (attribute_ok columns) (f_grouping q);
  wfk_aggregates : exists aggs, Forall2 agg_text (f_aggregates q) aggs /\
    Forall (fun a => 0 <= agg_group a <= f_groups q) aggs;
  wfk_conditions : exists css, Forall2 clause_source (f_conditions q) css /\
    f_groups q <= Z.of_nat (length css) < 10 ^ 20 /\ Forall (clause_ok columns) css;
  wfk_having : size (f_having q) < 2 ^ 64 /\
    forall l last, f_having q = join [" "%char] l last -> Forall token_ok (l ++ [last]);
}.

Definition query_of (q : query_file) : query :=
  MkQuery (Some (f_select q)) (f_where q) (f_groups q) (Some (f_grouping q))
    (Some (f_aggregates q)) (Some (f_conditions q)) (f_having q).

(** The two files of the emitted program. *)
Definition outputs (header program : str) (w : world) : gmap str str :=
  <[OUTPUT_FILE := program]> (<[OUTPUT_FILE_HEADER_LOCATION := header]> (w_files w)).

Definition can_write (w : world) : Prop :=
  w_writable w OUTPUT_FILE = true /\ w_writable w OUTPUT_FILE_HEADER_LOCATION = true.

(** The computation returns [a] and leaves exactly these two files. *)
Definition writes_outputs (header program : str) {A} (m : M A) (a : A) : Prop :=
  forall w, can_write w -> exists w', m w = (Ok a, w') /\ w_files w' = outputs header program w.

Lemma writes_after {A B} header program (m : M A) (f : A -> M B) P b :
  ensures m P -> (forall a, P a -> writes_outputs header program (f a) b) ->
  writes_outputs header program (m ≫= f) b.
Proof using.
  intros Hm Hf w Hw. destruct (Hm w) as (a & w1 & E & Ha & Hfl & Hwr).
  destruct (Hf a Ha w1) as (w2 & E2 & Ho).
  { unfold can_write in *. by rewrite Hwr. }
  exists w2. rewrite (M_bind_ok E). split; [done|].
  rewrite Ho. unfold outputs. by rewrite Hfl.
Qed.

Lemma write_outputs header program :
  writes_outputs header program
    (_ ← write_to_file [] OUTPUT_FILE_HEADER_LOCATION header; write_to_file [] OUTPUT_FILE program) tt.
Proof using.
  intros w [Hp Hh]. eexists.
  rewrite (M_bind_ok (write_to_file_spec [] OUTPUT_FILE_HEADER_LOCATION header w Hh)).
  rewrite write_to_file_spec by exact Hp. done.
Qed.
End compile.
