(* ===== verification/Program.v ===== *)
(** * The program that a query is compiled to

    The parts of a query file are read ([reads]) and printed ([header_text],
    [program_text]) by functions that do not parse: structures from typed members,
    helpers from typed keys, the scans from the syntax trees that [Scans] executes, the
    final loop from the selected aggregates and the words of the having clause.  The
    generators write exactly these two texts. *)

From S2P Require Import Prelude Cxx Str Config Column Aggregate Condition.
From S2P Require Import Generators ScanGenerator Sql Io Output User Compile.
From S2P Require Import Average Emitted MfQuery Query Scans Having.

(** ** The parts of a query *)

(** A word of the query: the text of an aggregate, or a name. *)
Record Item := MkItem { i_text : str; i_aggregate : option Aggregate }.

Definition reads_item (s : str) (x : Item) : Prop :=
  i_text x = s /\
  match i_aggregate x with
  | Some a => agg_text s a /\ isAggregate s = Ok true
  | None => isAggregate s = Ok false
  end.

Record parts := MkParts {
  p_select : list Item;
  p_aggregates : list Aggregate;
  p_clauses : list Conditions;
  p_words : list Item;
}.

Definition selected_aggregates (l : list Item) : list Aggregate := omap i_aggregate l.
Definition attribute_names (l : list Item) : list str :=
  omap (fun x => match i_aggregate x with Some _ => None | None => Some (i_text x) end) l.

(** The generator of the query's scans, the one that [query_answered] and
    [scans_printed_and_run] are about. *)
Definition generator (q : query_file) (columns : list Column) (p : parts) (emf : bool) : Scan_Generator :=
  MkScan_Generator (f_groups q) columns (attribute_names (p_select p)) (selected_aggregates (p_select p))
    (p_aggregates p) (Some (p_clauses p)) (f_having q) (f_grouping q) emf.

(** The parts are those that the file writes. *)
Record reads (q : query_file) (columns : list Column) (p : parts) (emf : bool) : Prop := {
  reads_select : Forall2 reads_item (f_select q) (p_select p);
  reads_aggregates : Forall2 agg_text (f_aggregates q) (p_aggregates p);
  reads_clauses : Forall2 clause_source (f_conditions q) (p_clauses p);
  reads_having : exists ws, having_words (generator q columns p emf) = Ok ws /\
    Forall2 reads_item ws (p_words p);
}.

(** ** The header *)

(** A number in decimal. *)
Definition number (i : Z) : str := match itoa i with Ok t => t | _ => [] end.

(** The member of [mf_structure] that holds an aggregate. *)
Definition result_member (a : Aggregate) : str :=
  toVar a ++ (if agg_group a =? 0 then [] else "_" ++ number (agg_group a)).

Definition item_member (x : Item) : str :=
  match i_aggregate x with Some a => result_member a | None => i_text x end.

Definition item_type (columns : list Column) (x : Item) : str :=
  let t := type_of (column_in (i_text x) columns) in
  match i_aggregate x with
  | Some _ => if str_eqb t "string" then "int64_t" else t
  | None => t
  end.

(** The type of the member that accumulates an aggregate. *)
Definition accumulator_type (columns : list Column) (a : Aggregate) : str :=
  let t := if str_eqb (agg_func a) "count" then "int64_t" : str
           else type_of (column_in (agg_column a) columns) in
  if func_is a "avg" "AVG" then "Average<" ++ t ++ ">" else t.

(** A structure with its members, a type and a name each. *)
Definition struct_text (name : str) (members : list (str * str)) : str :=
  "struct " ++ name ++ "{\n" ++
  concat (map (fun m => "\t" ++ m.1 ++ " " ++ m.2 ++ ";\n") members) ++ "};\n".

Definition group_members (columns : list Column) (p : parts) (i : Z) : list (str * str) :=
  map (fun n => (type_of (column_named n columns), n)) (attribute_names (p_select p)) ++
  map (fun a => (accumulator_type columns a, toVar a)) (of_group i (p_aggregates p)).

Definition header_text (q : query_file) (columns : list Column) (p : parts) : str :=
  OUTPUT_FILE_HEADER_START ++
  struct_text "mf_structure " (map (fun x => (item_type columns x, item_member x)) (p_select p)) ++
  struct_text "sales" (map (fun c => (getOutCppType (col_type c), col_name c)) columns) ++
  concat (map (fun i => struct_text ("group" ++ number i) (group_members columns p i))
            (upto (f_groups q))) ++
  OUTPUT_FILE_HEADER_END.

(** ** The helpers *)

(** A grouping attribute and the type it is compared with. *)
Definition key_type (columns : list Column) (s : str) : Z :=
  match column_in s columns with Some c => col_ctype c | None => 0 end.

Definition equal_text (type : Z) (a b : str) : str :=
  if type =? CPP_STRING then a ++ ".compare(" ++ b ++ ") == 0" else a ++ " == " ++ b.

(** The test that two keys are equal. *)
Definition key_test (columns : list Column) (var : str) (attrs : list str) : str :=
  intercalate " && "
    (map (fun s => equal_text (key_type columns s) (var ++ s) ("(*it)->" ++ s)) attrs).

Definition vfind_function (columns : list Column) (attrs : list str) (i : Z) : str :=
  let group := "struct group" ++ number i in
  "int vfind" ++ number i ++ "(vector<" ++ group ++ "*>* data " ++
  concat (map (fun s => ", " ++ getOutCppType (key_type columns s) ++ " " ++ s) attrs) ++ "){\n" ++
  "\t size_t index = 0;\n" ++
  "\tfor(vector<" ++ group ++ "*>::iterator it = data->begin(); it != data->end(); it++){\n" ++
  "\t\tif(" ++ key_test columns [] attrs ++ "){\n" ++
  "\t\t\treturn index;\n" ++
  "\t\t}\n" ++
  "\t\tindex++;\n" ++
  "\t}\n" ++
  "\t return -1;\n" ++
  "}\n".

Definition unique_functions (columns : list Column) (attrs : list str) : str :=
  "bool is_unique(vector<struct sales*>* data,struct sales* entry){\n" ++
  "\tfor(vector<struct sales*>::iterator it = data->begin();it != data->end();it++){\n" ++
  "\t\tif(" ++ key_test columns "entry->" attrs ++ "){\n" ++
  "\t\t\treturn false;\n" ++
  "\t\t}\n" ++
  "\t}\n" ++
  "\treturn true;\n" ++
  "}\n" ++
  "vector<struct sales*>* get_uniques(vector<struct sales*>* data){\n" ++
  "\tvector<struct sales*>* out = new vector<struct sales*>();\n" ++
  "\tfor(vector<struct sales*>::iterator it = data->begin();it != data->end();it++){\n" ++
  "\t\tif(is_unique(out,*it)){\n" ++
  "\t\t\tout->push_back(*it);\n" ++
  "\t\t}\n" ++
  "\t}\n" ++
  "\treturn out;\n" ++
  "}\n".

(** The function that prints the result. *)
Definition printer_text (p : parts) : str :=
  "void print_mf_structure(vector<struct mf_structure*>* mf_struct){\n" ++
  "\tcout<<\q|" ++ concat (map (fun x => i_text x ++ "|") (p_select p)) ++ "\q<<endl;\n" ++
  "\tfor(auto it = mf_struct->begin(); it != mf_struct->end(); it++){\n" ++
  "\t\tcout<<\q|\q" ++
  concat (map (fun x => "<<" ++ "(*it)->" ++ item_member x ++ "<<\q|\q") (p_select p)) ++
  "<<endl;\n" ++
  "\t}\n" ++
  "}\n".

(** ** The main function *)

(** Copying the selected columns of the row [*it]. *)
Definition copies (var : str) (names : list str) : str :=
  concat (map (fun c => "\t\t" ++ var ++ "->" ++ c ++ " = " ++ "(*it)->" ++ c ++ ";\n") names).

(** The vector of a grouping variable, and its entry for a key. *)
Definition vector_text (i : Z) : str :=
  let n := number i in
  "\tvector<struct group" ++ n ++ "*>* data" ++ n ++ " = new vector<struct group" ++ n ++ "*>();\n".

Definition entry_text (names : list str) (i : Z) : str :=
  let n := number i in
  "\t\tstruct group" ++ n ++ "* entry" ++ n ++ " = (struct group" ++ n ++
  "*)calloc(1,sizeof(struct group" ++ n ++ "));\n" ++
  copies ("entry" ++ n) names ++
  "\t\tdata" ++ n ++ "->push_back(entry" ++ n ++ ");\n".

Definition prelim_text (q : query_file) (p : parts) : str :=
  "\tvector<struct sales*>* uniques = get_uniques(data);\n" ++
  concat (map vector_text (upto (f_groups q))) ++
  "\tfor(vector<struct sales*>::iterator it = uniques->begin();it != uniques->end();it++){\n" ++
  "\t\tstruct mf_structure* entry = (struct mf_structure*)calloc(1,sizeof(struct mf_structure));\n" ++
  copies "entry" (attribute_names (p_select p)) ++
  "\t\tmf_struct->push_back(entry);\n" ++
  concat (map (entry_text (attribute_names (p_select p))) (upto (f_groups q))) ++
  "\t}\n".

(** The value of an aggregate at the position [pos]. *)
Definition value_text (a : Aggregate) : str :=
  "data" ++ number (agg_group a) ++ "->at(pos)->" ++ toVar a ++
  (if func_is a "avg" "AVG" then ".value()" : str else []).

(** A word of the having clause. *)
Definition word_text (columns : list Column) (x : Item) : str :=
  match i_aggregate x with
  | Some a => value_text a
  | None => if isColumn (i_text x) columns then "data->" ++ i_text x else i_text x
  end.

Definition having_text (q : query_file) (columns : list Column) (p : parts) : str :=
  if size (f_having q) <? 1 then "true" else unwords (map (word_text columns) (p_words p)).

Definition fill_text (q : query_file) (columns : list Column) (p : parts) : str :=
  "\tfor(auto it = mf_struct->begin();it != mf_struct->end(); it++){\n" ++
  "\t\tint pos = vfind0(data0" ++ concat (map (fun a => ",(*it)->" ++ a) (f_grouping q)) ++ ");\n" ++
  "\t\tif(!(" ++ having_text q columns p ++ ")){\n" ++
  "\t\t\tmf_struct->erase(it);\n" ++
  "\t\t\tit--;\n" ++
  "\t\t\tcontinue;\n" ++
  "\t\t}\n" ++
  "\t\tif(pos == -1){\n" ++
  "\t\t\tmf_struct->erase(it);\n" ++
  "\t\t\tit--;\n" ++
  "\t\t\tcontinue;\n" ++
  "\t\t}\n" ++
  concat (map (fun a => "\t\t(*it)->" ++ result_member a ++ " = " ++ value_text a ++ ";\n")
    (selected_aggregates (p_select p))) ++
  "\t}\n".

Definition program_text (q : query_file) (columns : list Column) (p : parts) (scans : str) : str :=
  "#include \qresult.h\q\n" ++
  "using namespace std;\n\n" ++
  concat (map (vfind_function columns (f_grouping q)) (upto (f_groups q))) ++
  unique_functions columns (f_grouping q) ++
  printer_text p ++
  "int main(){\n" ++
  "\tsql::ResultSet* res;\n" ++
  "\tvector<struct mf_structure*>* mf_struct = new vector<struct mf_structure*>();\n" ++
  data_retrieval columns (f_where q) ++
  prelim_text q p ++ scans ++ fill_text q columns p ++
  "\tprint_mf_structure(mf_struct);\n" ++
  "\treturn 0;\n" ++
  "}\n".

(** ** The generators write these texts *)

Lemma itoa_number i : INT_MIN < i <= INT_MAX -> itoa i = Ok (number i).
Proof. intros H. unfold number. by destruct (itoa_total i H) as [t ->]. Qed.

Lemma upto_number n i : n < INT_MAX -> i ∈ upto n -> itoa i = Ok (number i).
Proof. intros Hn Hi%upto_elem. apply itoa_number. unfold INT_MIN, INT_MAX in *. lia. Qed.

Lemma toABSVar_member a : INT_MIN < agg_group a <= INT_MAX -> toABSVar a = Ok (result_member a).
Proof.
  intros Ha. unfold toABSVar, result_member, toVar. rewrite (itoa_number _ Ha).
  case_bool_decide as H; [rewrite (proj2 (Z.eqb_neq _ _)) by done|]; [done|].
  by rewrite (proj2 (Z.eqb_eq _ _)) by lia.
Qed.

Lemma append_each_texts {A} (f : A -> outcome str) (g : A -> str) l :
  (forall x, x ∈ l -> f x = Ok (g x)) -> append_each f l = Ok (concat (map g l)).
Proof. intros H. apply append_each_ok. by apply Forall_forall. Qed.

Lemma emits_then {A B} (m : M A) (f : A -> M B) a o :
  emits m (Ok a) -> emits (f a) o -> emits (m ≫= f) o.
Proof.
  intros Hm Hf. eapply emits_eq; [apply (emits_bind m f (Ok a) (fun _ => o) Hm)|apply obind_Ok].
  by intros ? [= <-].
Qed.

Lemma emits_texts {A B} (R : A -> B -> Prop) (f : A -> M str) (g : B -> str) l k :
  (forall a b, R a b -> emits (f a) (Ok (g b))) -> Forall2 R l k ->
  emits (append_eachM f l) (Ok (concat (map g k))).
Proof.
  intros Hf. induction 1 as [|a b l k Hab _ IH]; [apply emits_ret|]. cbn [append_eachM map concat].
  eapply emits_then; [by apply Hf|]. eapply emits_then; [exact IH|]. apply emits_ret.
Qed.

(** A generator that returns, and whose value is known, returns that value. *)
Lemma ensures_emits {A} (m : M A) a :
  ensures m (fun _ => True) -> emits m (Ok a) -> ensures m (fun x => x = a).
Proof.
  intros Hm Ha w. destruct (Hm w) as (x & w' & E & _ & Hq). exists x, w'.
  specialize (Ha w). rewrite E in Ha. by injection Ha as ->.
Qed.

Lemma emits_text s a : agg_text s a -> emits (Aggregate_new s) (Ok a).
Proof.
  intros [Hwf Ht] w. destruct (Aggregate_roundtrip a w Hwf) as (t & Et & E).
  rewrite Ht in Et. injection Et as <-. by rewrite E.
Qed.

Lemma emits_item {A} s x (f : Aggregate -> M A) (g : M A) o :
  reads_item s x ->
  (forall a, i_aggregate x = Some a -> INT_MIN < agg_group a <= INT_MAX -> emits (f a) o) ->
  (i_aggregate x = None -> emits g o) ->
  emits (agg ← lift (isAggregate s); if (agg : bool) then tmp ← Aggregate_new s; f tmp else g) o.
Proof.
  intros [_ Hx] Hf Hg. destruct (i_aggregate x) as [a|].
  - destruct Hx as [Ha ->]. apply emits_lift_ok. eapply emits_then; [by apply emits_text|].
    apply Hf; [done|]. destruct Ha as [Hwf _]. by destruct Hwf.
  - rewrite Hx. apply emits_lift_ok. by apply Hg.
Qed.

Lemma token_item s : token_ok s -> exists x, reads_item s x.
Proof.
  intros Hs. destruct (isAggregate_total s) as [[] Hb]; [|by exists (MkItem s None)].
  destruct Hs as [?|[a Ha]]; [congruence|]. by exists (MkItem s (Some a)).
Qed.

Lemma token_items l : Forall token_ok l -> exists k, Forall2 reads_item l k.
Proof.
  induction 1 as [|s l Hs _ [k Hk]]; [by exists []|].
  destruct (token_item s Hs) as [x Hx]. exists (x :: k). by constructor.
Qed.

(** *** The header *)

Lemma items_text {A} (f : Item -> A) (g : str -> A) l k :
  (forall s x, reads_item s x -> g s = f x) -> Forall2 reads_item l k -> map g l = map f k.
Proof. intros H. induction 1 as [|s x l k Hx _ IH]; [done|]. simpl. by rewrite IH, (H s x). Qed.

Lemma emits_structures sel columns items :
  Forall2 reads_item sel items ->
  emits (create_structures sel columns)
    (Ok (struct_text "mf_structure " (map (fun x => (item_type columns x, item_member x)) items) ++
         struct_text "sales" (map (fun c => (getOutCppType (col_type c), col_name c)) columns))).
Proof.
  intros Hi. unfold create_structures. eapply emits_then.
  - apply (emits_texts reads_item _ (fun x => "\t" ++ item_type columns x ++ " " ++ item_member x ++ ";\n")
      sel items); [|done].
    intros s x Hx. pose proof Hx as [Hs _]. cbv zeta. unfold item_type, item_member. rewrite Hs.
    apply (emits_item s x); [done| |].
    + intros a -> Ha. rewrite (toABSVar_member a Ha). apply emits_lift_ok. apply emits_ret.
    + intros ->. apply emits_ret.
  - eapply emits_eq; [apply emits_ret|]. f_equal. unfold struct_text. rewrite !map_map. cbn [fst snd].
    by rewrite <- !app_assoc.
Qed.

Lemma group_structs n columns p :
  n < INT_MAX ->
  create_grouping_var_structs n columns (attribute_names (p_select p)) (p_aggregates p) =
    Ok (concat (map (fun i => struct_text ("group" ++ number i) (group_members columns p i)) (upto n))).
Proof.
  intros Hn. unfold create_grouping_var_structs. apply append_each_texts. intros i Hi.
  rewrite (upto_number n) by done. rewrite obind_Ok. f_equal.
  unfold struct_text, group_members, of_group. rewrite map_app, !map_map, concat_app. cbn [fst snd].
  rewrite (map_ext (group_member columns)
    (fun a => "\t" ++ accumulator_type columns a ++ " " ++ toVar a ++ ";\n")); [by rewrite <- !app_assoc|].
  intros a. unfold group_member, accumulator_type. cbv zeta. destruct (func_is a "avg" "AVG"); [|done].
  by rewrite <- !app_assoc.
Qed.

(** *** The helpers *)

Lemma ct_equals_text t a s :
  helper_type t = true ->
  ct_equals t (a ++ ".compare((*it)->" ++ s ++ ") == 0") (a ++ " == " ++ "(*it)->" ++ s) =
    Ok (equal_text t a ("(*it)->" ++ s)).
Proof.
  unfold helper_type, ct_equals, equal_text. cbn [existsb]. intros H.
  destruct (t =? CPP_STRING); [done|]. destruct (t =? CPP_INT64); [done|].
  destruct (t =? CPP_FLOAT); [done|]. by destruct (t =? CPP_DOUBLE).
Qed.

Lemma intercalate_first sep x l :
  intercalate sep (x :: l) = x ++ concat (map (fun y => sep ++ y) l).
Proof.
  revert x. induction l as [|y l IH]; intros x; [simpl; by rewrite app_nil_r|].
  rewrite intercalate_cons, IH. simpl. by rewrite <- !app_assoc.
Qed.

Section keys.
Context (columns : list Column).

(** The tests behind the first one. *)
Definition more_tests (var : str) (attrs : list str) : str :=
  concat (map (fun s => " && " ++ equal_text (key_type columns s) (var ++ s) ("(*it)->" ++ s)) attrs).

Lemma key_test_first var s attrs :
  key_test columns var (s :: attrs) =
    equal_text (key_type columns s) (var ++ s) ("(*it)->" ++ s) ++ more_tests var attrs.
Proof using. unfold key_test. cbn [map]. by rewrite intercalate_first, map_map. Qed.

Lemma get_ct_cons s attrs :
  attribute_ok columns s ->
  get_ct (s :: attrs) columns = MkCt s (Some (key_type columns s)) :: get_ct attrs columns /\
  helper_type (key_type columns s) = true.
Proof using. intros (c & Hc & Ht). unfold get_ct, key_type. simpl. by rewrite Hc. Qed.

Lemma vfind_parts_text attrs arg comp :
  Forall (attribute_ok columns) attrs ->
  vfind_parts (get_ct attrs columns) false arg comp =
    Ok (arg ++ concat (map (fun s => ", " ++ getOutCppType (key_type columns s) ++ " " ++ s) attrs),
        comp ++ more_tests [] attrs).
Proof using.
  intros Ha. revert arg comp. induction Ha as [|s attrs Hs _ IH]; intros arg comp.
  { unfold more_tests. simpl. by rewrite !app_nil_r. }
  destruct (get_ct_cons s attrs Hs) as [-> Ht]. cbn [vfind_parts ct_type ct_name deref].
  rewrite obind_Ok, (ct_equals_text _ s s Ht), obind_Ok, IH.
  unfold more_tests. cbn [map concat]. by rewrite <- !app_assoc.
Qed.

Lemma vfind_text_function attrs i :
  Forall (attribute_ok columns) attrs -> itoa i = Ok (number i) ->
  vfind_text (get_ct attrs columns) i = Ok (vfind_function columns attrs i).
Proof using.
  intros Ha Hi. unfold vfind_text. rewrite Hi, obind_Ok.
  assert (E : vfind_parts (get_ct attrs columns) true [] [] =
    Ok (concat (map (fun s => ", " ++ getOutCppType (key_type columns s) ++ " " ++ s) attrs),
        key_test columns [] attrs)).
  { destruct Ha as [|s attrs Hs Ha]; [done|]. rewrite key_test_first.
    destruct (get_ct_cons s attrs Hs) as [-> Ht]. cbn [vfind_parts ct_type ct_name deref].
    rewrite obind_Ok, (ct_equals_text _ s s Ht), obind_Ok.
    by rewrite (vfind_parts_text _ _ _ Ha). }
  rewrite E, obind_Ok. unfold vfind_function. by rewrite <- ?app_assoc.
Qed.

Lemma unique_test_text attrs :
  Forall (attribute_ok columns) attrs ->
  unique_test (get_ct attrs columns) false = Ok (more_tests "entry->" attrs) /\
  unique_test (get_ct attrs columns) true = Ok (key_test columns "entry->" attrs).
Proof using.
  induction 1 as [|s attrs Hs _ [IH _]]; [done|]. rewrite key_test_first.
  destruct (get_ct_cons s attrs Hs) as [-> Ht]. cbn [unique_test ct_type ct_name deref].
  rewrite !obind_Ok. pose proof (ct_equals_text _ ("entry->" ++ s) s Ht) as E.
  rewrite <- !app_assoc in E. rewrite E, !obind_Ok, IH, !obind_Ok.
  split; [|done]. unfold more_tests. cbn [map concat]. by rewrite <- !app_assoc.
Qed.

Lemma helpers_text n attrs :
  n < INT_MAX -> Forall (attribute_ok columns) attrs ->
  get_helpers n attrs columns =
    Ok (concat (map (vfind_function columns attrs) (upto n)) ++ unique_functions columns attrs).
Proof using.
  intros Hn Ha. unfold get_helpers. cbv zeta.
  rewrite (append_each_texts _ (vfind_function columns attrs)).
  - destruct (unique_test_text attrs Ha) as [_ ->]. rewrite !obind_Ok. done.
  - intros i Hi. apply vfind_text_function; [done|]. by apply (upto_number n).
Qed.
End keys.

Lemma emits_printer sel columns p :
  Forall2 reads_item sel (p_select p) ->
  emits (create_output_printer sel columns) (Ok (printer_text p)).
Proof.
  intros Hi. unfold create_output_printer. cbv zeta. eapply emits_then.
  - apply (emits_texts reads_item _ (fun x => "<<" ++ "(*it)->" ++ item_member x ++ "<<\q|\q") sel
      (p_select p)); [|done].
    intros s x Hx. unfold item_member. apply (emits_item s x); [done| |].
    + intros a -> Ha. rewrite (toABSVar_member a Ha). apply emits_lift_ok. apply emits_ret.
    + destruct Hx as [-> _]. intros ->. apply emits_ret.
  - rewrite (items_text (fun x => i_text x ++ "|") (fun a => a ++ "|") sel (p_select p));
      [|by intros s x [-> _]|done]. apply emits_ret.
Qed.

(** *** The scans *)

Lemma condition_test_total columns c : Compile.printable columns c -> exists t, condition_test columns c = Ok t.
Proof.
  intros Hp. unfold condition_test, condition_right.
  destruct (isColumn (cond_value c) columns) eqn:Ec; [rewrite obind_Ok; by eexists|].
  destruct Hp as [?|Ht]; [congruence|].
  destruct (isAggregate_total (cond_value c)) as [[] Hb]; rewrite Hb, obind_Ok.
  - destruct Ht as [?|[a Ha]]; [congruence|]. rewrite (emits_text _ a Ha), !obind_Ok. by eexists.
  - destruct (hasColumn _ _); rewrite ?obind_Ok; by eexists.
Qed.

Lemma other_tests_total columns ops l :
  (length l <= length ops)%nat -> Forall (Compile.printable columns) l -> exists r, other_tests columns ops l = Ok r.
Proof.
  intros Hlen Hl. revert ops Hlen. induction Hl as [|c l Hc _ IH]; intros ops Hlen; [by exists []|].
  destruct ops as [|op ops]; simpl in Hlen; [lia|]. simpl.
  destruct (condition_test_total columns c Hc) as [t ->]. destruct (IH ops) as [r ->]; [lia|].
  rewrite !obind_Ok. by eexists.
Qed.

Lemma conditions_guard_total columns cs : clause_ok columns cs -> exists gd, conditions_guard columns cs = Ok gd.
Proof.
  intros (Hne & Hlen & _ & Hp). unfold conditions_guard. destruct (conds cs) as [|c rest]; [done|].
  apply Forall_cons in Hp as [Hc Hp]. simpl in Hlen.
  destruct (condition_test_total columns c Hc) as [t ->].
  destruct (other_tests_total columns (ops cs) rest) as [r ->]; [lia|done|]. rewrite !obind_Ok. by eexists.
Qed.

Section generator.
Context (g : Scan_Generator) (Hwf : wf_generator g).

Lemma scan_of_total i xt : 0 <= i <= no_grouping_vars g -> exists s, scan_of g i xt = Ok s.
Proof using Hwf.
  intros Hi. unfold scan_of. destruct (Z.eqb_spec i 0); [by eexists|].
  destruct (wfg_clauses g Hwf) as (l & -> & Hl & Hc); [lia|]. cbn [deref]. rewrite obind_Ok.
  pose proof (wfg_number g Hwf). rewrite to_size_t_small by (unfold INT_MAX in *; lia).
  destruct (vec_at_ok l (i - 1)) as (c & -> & Hin); [lia|].
  rewrite Forall_forall in Hc. rewrite obind_Ok. destruct (conditions_guard_total _ c (Hc c Hin)) as [gd ->].
  rewrite !obind_Ok. by eexists.
Qed.

Lemma scans_from_total i groups :
  0 <= i -> i + Z.of_nat (length groups) <= no_grouping_vars g + 1 -> exists l, scans_from g i groups = Ok l.
Proof using Hwf.
  revert i. induction groups as [|xt groups IH]; intros i H0 H1; [by exists []|]. simpl in H1. cbn [scans_from].
  destruct (scan_of_total i xt) as [s ->]; [lia|]. destruct (IH (i + 1)) as [l ->]; [lia|lia|].
  rewrite !obind_Ok. by eexists.
Qed.

Lemma scans_of_total : exists l, scans_of g = Ok l.
Proof using Hwf.
  pose proof (wfg_number g Hwf) as Hn. unfold scans_of.
  rewrite group_aggregates_spec by (apply Hwf || unfold INT_MAX in *; lia). rewrite obind_Ok.
  apply scans_from_total; [lia|]. rewrite length_map, length_upto by lia. lia.
Qed.

(** The trees of the scans, and their text. *)
Lemma scans_printed :
  exists scans text, scans_of g = Ok scans /\ append_each (print_scan g) scans = Ok text /\
    ensures (scan_text g) (fun x => x = text).
Proof using Hwf.
  destruct scans_of_total as [scans Hs]. exists scans. pose proof (wfg_number g Hwf) as Hn.
  assert (He : emits (scan_text g) (append_each (print_scan g) scans))
    by (apply emits_scans; [unfold INT_MAX in *; lia|by destruct Hwf|done]).
  assert (Hen : ensures (scan_text g) (fun _ => True)).
  { unfold scan_text. destruct (emf g); [by apply ensures_emf_aggregate_scan|by apply ensures_aggregate_scan]. }
  destruct (Hen (World [] true [] [] ∅ (fun _ => true) [])) as (t & w' & E & _). exists t. split; [done|].
  assert (Et : append_each (print_scan g) scans = Ok t) by (rewrite <- (He (World [] true [] [] ∅ (fun _ => true) [])); by rewrite E).
  split; [done|]. apply ensures_emits; [done|]. by rewrite <- Et.
Qed.
End generator.

(** *** The main function *)

Section whole.
Context (q : query_file) (columns : list Column) (p : parts) (emf : bool).
Local Abbreviation g := (generator q columns p emf).
Context (Hn : 0 <= f_groups q < INT_MAX) (Hreads : reads q columns p emf).

Lemma prelim_printed : prelim_scan g = Ok (prelim_text q p).
Proof using Hn.
  unfold prelim_scan. rewrite (append_each_texts _ (entry_text (attribute_names (p_select p)))).
  - rewrite (append_each_texts _ vector_text); [by rewrite !obind_Ok|].
    intros i Hi. by rewrite (upto_number (f_groups q)) by (done || lia).
  - intros i Hi. rewrite (upto_number (f_groups q)) by (done || lia). rewrite obind_Ok.
    unfold entry_text, copies. cbv zeta. by rewrite <- !app_assoc.
Qed.

Lemma emits_word s x : reads_item s x -> emits (having_token g s) (Ok (word_text columns x)).
Proof using.
  intros Hx. unfold having_token, word_text, value_text. apply (emits_item s x); [done| |].
  - intros a -> Ha. rewrite (itoa_number _ Ha). apply emits_lift_ok. apply emits_ret.
  - destruct Hx as [-> _]. intros ->. cbn [sg_columns generator].
    destruct (isColumn s columns); apply emits_ret.
Qed.

Lemma emits_words ws xs first :
  Forall2 reads_item ws xs ->
  emits (having_loop g ws first)
    (Ok (if first then unwords (map (word_text columns) xs)
         else concat (map (fun x => " " ++ word_text columns x) xs))).
Proof using.
  intros Hx. revert first. induction Hx as [|s x ws xs Hs _ IH]; intros first.
  { destruct first; apply emits_ret. }
  cbn [having_loop]. eapply emits_then; [by apply emits_word|]. eapply emits_then; [apply IH|].
  eapply emits_eq; [apply emits_ret|]. f_equal. destruct first.
  - unfold unwords. cbn [map]. by rewrite intercalate_first, map_map.
  - done.
Qed.

Lemma emits_having : emits (parse_having g) (Ok (having_text q columns p)).
Proof using Hreads.
  destruct Hreads as [_ _ _ (ws & Hws & Hx)]. unfold parse_having, having_text, having_words in *.
  cbn [having generator] in *. destruct (size (f_having q) <? 1); [apply emits_ret|].
  eapply emits_then; [|by apply (emits_words ws (p_words p) true)].
  eapply emits_eq; [apply emits_c_explode|done].
Qed.

Lemma emits_fill :
  Forall (fun a => INT_MIN < agg_group a <= INT_MAX) (selected_aggregates (p_select p)) ->
  emits (fill_mfstruct g) (Ok (fill_text q columns p)).
Proof using Hreads.
  intros Ha. unfold fill_mfstruct. cbv zeta. eapply emits_then; [apply emits_having|].
  cbn [select_aggregates generator].
  rewrite (append_each_texts _ (fun a => "\t\t(*it)->" ++ result_member a ++ " = " ++ value_text a ++ ";\n")).
  - apply emits_lift_ok. eapply emits_eq; [apply emits_ret|]. done.
  - intros a Hin. rewrite Forall_forall in Ha. specialize (Ha a Hin).
    rewrite (itoa_number _ Ha), obind_Ok, (toABSVar_member a Ha), obind_Ok. unfold value_text.
    by rewrite <- !app_assoc.
Qed.

(** The whole main function: the scans of [g] between the preliminary scan and the final
    loop. *)
Lemma generate_printed :
  wf_generator g ->
  exists scans text, scans_of g = Ok scans /\ append_each (print_scan g) scans = Ok text /\
    ensures (generate g) (fun x => x = prelim_text q p ++ text ++ fill_text q columns p).
Proof using Hn Hreads.
  intros Hwf. destruct (scans_printed g Hwf) as (scans & text & Hs & Ht & He).
  exists scans, text. split; [done|]. split; [done|]. unfold generate. rewrite prelim_printed.
  eapply ensures_bind; [exact (ensures_lift _ _ (eq _) eq_refl eq_refl)|]. intros ? <-.
  eapply ensures_bind; [exact He|]. intros ? ->.
  eapply ensures_bind.
  - apply ensures_emits; [by apply ensures_fill_mfstruct|]. apply emits_fill. apply Hwf.
  - intros ? ->. by apply ensures_ret.
Qed.
End whole.

Lemma emits_selected l k :
  Forall2 reads_item l k -> emits (getSelectAggregates l) (Ok (selected_aggregates k, attribute_names k)).
Proof.
  induction 1 as [|s x l k Hx _ IH]; [apply emits_ret|]. cbn [getSelectAggregates].
  apply (emits_item s x); [done| |].
  - intros a E _. eapply emits_then; [exact IH|]. eapply emits_eq; [apply emits_ret|].
    unfold selected_aggregates, attribute_names. cbn [omap list_omap]. by rewrite E.
  - intros E. eapply emits_then; [exact IH|]. eapply emits_eq; [apply emits_ret|].
    unfold selected_aggregates, attribute_names. cbn [omap list_omap]. rewrite E. by destruct Hx as [-> _].
Qed.

Section compile.
Context `{Connector}.

(** The scans of the query and the text of the whole program. *)
Definition compiled (q : query_file) (columns : list Column) (emf : bool) (p : parts)
    (scans : list scan) (program : str) : Prop :=
  reads q columns p emf /\ scans_of (generator q columns p emf) = Ok scans /\
  exists text, append_each (print_scan (generator q columns p emf)) scans = Ok text /\
    program = program_text q columns p text.

Lemma words_read q columns sel aggs css emf :
  wf_compile q columns ->
  exists ws xs, having_words (generator q columns (MkParts sel aggs css []) emf) = Ok ws /\
    Forall2 reads_item ws xs.
Proof using.
  intros [_ _ _ _ _ [Hb Ht]]. unfold having_words. cbn [ScanGenerator.having generator].
  destruct (Z.ltb_spec (size (f_having q)) 1) as [Hs|Hs].
  { exists ["true" : str], [MkItem "true" None]. split; [done|]. repeat constructor. }
  set (w := World _ _ _ _ _ _ _).
  destruct (c_explode_sound " " (f_having q) w) as (l & last & E & _ & ->); [intros E; by rewrite E in Hs|done|].
  specialize (Ht l last E).
  assert (Hw : Forall token_ok (if decide (ltrim last = []) then l else l ++ [last])).
  { destruct (decide (ltrim last = [])); [|done]. by apply Forall_app in Ht as [? _]. }
  destruct (token_items _ Hw) as [xs Hx]. by exists (if decide (ltrim last = []) then l else l ++ [last]), xs.
Qed.

Lemma run_query_writes q cols emf :
  reliable -> describes cols -> wf_compile q (columns_of cols) ->
  exists p scans program, compiled q (columns_of cols) emf p scans program /\
    writes_outputs (header_text q (columns_of cols) p) program (User.run_query (query_of q) emf) tt.
Proof using.
  intros Hr Hd Hwf. pose proof Hwf as [Hg Hs Hgr (aggs & Ha & Hag) (css & Hc & Hcn & Hcc) Hh].
  destruct (token_items _ Hs) as [sel Hsel].
  destruct (words_read q (columns_of cols) sel aggs css emf Hwf) as (ws & xs & Hws & Hxs).
  set (p := MkParts sel aggs css xs).
  assert (Hreads : reads q (columns_of cols) p emf) by (split; [done..|by exists ws]).
  assert (Hsa : ensures (getSelectAggregates (f_select q)) (fun r => r = (selected_aggregates sel, attribute_names sel))).
  { apply ensures_emits; [|by apply emits_selected].
    eapply ensures_mono; [by apply ensures_getSelectAggregates|done]. }
  assert (Hgen : wf_generator (generator q (columns_of cols) p emf)).
  { destruct (ensures_getSelectAggregates (f_select q) Hs (World [] true [] [] ∅ (fun _ => true) []))
      as (r & w1 & E1 & Hok & _).
    pose proof (emits_selected _ _ Hsel (World [] true [] [] ∅ (fun _ => true) [])) as E2.
    rewrite E1 in E2. injection E2 as ->.
    split; simpl; [lia|done|done| |done]. intros _. exists css. repeat split; [lia|done]. }
  destruct (generate_printed q (columns_of cols) p emf ltac:(lia) Hreads Hgen)
    as (scans & text & Hsc & Htext & Hens).
  exists p, scans, (program_text q (columns_of cols) p text).
  split; [split; [done|]; split; [done|]; by exists text|].
  unfold User.run_query, query_of, parse_query.
  cbn [q_select q_where q_groups q_grouping q_f_vect q_conditions q_having deref].
  eapply writes_after; [by apply ensures_getColumns|]. intros ? ->.
  eapply writes_after; [exact (ensures_lift _ _ (eq _) eq_refl eq_refl)|]. intros ? <-.
  eapply writes_after; [by apply ensures_getAllAggregates|]. intros ? ->.
  eapply writes_after; [exact (ensures_lift _ _ (eq _) eq_refl eq_refl)|]. intros ? <-.
  eapply writes_after; [exact Hsa|]. intros ? ->.
  pose proof (Forall2_length _ _ _ Hc) as Hlen.
  eapply writes_after; [apply ensures_getConditions; [done| |lia]|].
  { intros E. rewrite E in Hlen. simpl in Hlen. lia. }
  intros ? ->.
  eapply writes_after; [apply ensures_emits; [by apply ensures_create_structures|by apply emits_structures]|].
  intros ? ->.
  change (attribute_names sel) with (attribute_names (p_select p)). change aggs with (p_aggregates p).
  rewrite (group_structs _ _ p) by lia.
  eapply writes_after; [exact (ensures_lift _ _ (eq _) eq_refl eq_refl)|]. intros ? <-.
  eapply writes_after; [exact (ensures_lift _ _ (eq _) eq_refl eq_refl)|]. intros ? <-.
  rewrite helpers_text by (done || lia).
  eapply writes_after; [exact (ensures_lift _ _ (eq _) eq_refl eq_refl)|]. intros ? <-.
  eapply writes_after; [apply ensures_emits; [by apply ensures_create_output_printer|by apply (emits_printer _ _ p)]|].
  intros ? ->. eapply writes_after; [exact Hens|]. intros ? ->.
  unfold header_text, program_text. rewrite <- !app_assoc. apply write_outputs.
Qed.

(** A query file of the documented format is compiled: the command returns 0, and the only
    files it touches are the two of the program that prints the parts of the query. *)
Lemma main_compiles q n cols args file emf (content : str) :
  reliable -> describes cols -> wf_query q n -> wf_compile q (columns_of cols) ->
  content ++ ["010"%char] = file_text q n -> command_line args = FromFile file emf ->
  forall w, w_files w !! c_str file = Some content -> can_write w ->
  exists p scans program w', compiled q (columns_of cols) emf p scans program /\
    main args w = (Ok 0, w') /\
    w_files w' = outputs (header_text q (columns_of cols) p) program w.
Proof using.
  intros Hr Hd Hq Hk Hfile Hargs w Hin Hw. unfold main. rewrite Hargs.
  unfold parse_file_input.
  assert (Hread : read_from_file file [] w = (Ok (file_text q n), w)).
  { rewrite read_from_file_spec, app_nil_r, Hin. by rewrite Hfile. }
  destruct (run_query_writes q cols emf Hr Hd Hk) as (p & scans & program & Hc & Hrun).
  destruct (Hrun w Hw) as (w' & E & Ho). exists p, scans, program, w'. split; [done|]. split; [|done].
  rewrite M_bind_assoc, (M_bind_ok Hread).
  rewrite M_bind_assoc, (M_bind_ok (parse_file_text_ok q n w Hq)).
  by rewrite (M_bind_ok E).
Qed.
End compile.
