(* ===== verification/UnicodeTables.v ===== *)
(** * mysqlconnector jdbc/driver/mysql_util.cpp: the letter-case tables

    One table per plane of 256 code points: the upper-case form, the lower-case
    form and the sort key of each, as the driver has them. *)

From S2P Require Import Prelude.

(** [MY_UNICASE_INFO] *)
Record unicase := MkUnicase { uc_toupper : Z; uc_tolower : Z; uc_sort : Z }.

Definition plane00 : list unicase := [
  MkUnicase 0x0000 0x0000 0x0000; MkUnicase 0x0001 0x0001 0x0001;
  MkUnicase 0x0002 0x0002 0x0002; MkUnicase 0x0003 0x0003 0x0003;
  MkUnicase 0x0004 0x0004 0x0004; MkUnicase 0x0005 0x0005 0x0005;
  MkUnicase 0x0006 0x0006 0x0006; MkUnicase 0x0007 0x0007 0x0007;
  MkUnicase 0x0008 0x0008 0x0008; MkUnicase 0x0009 0x0009 0x0009;
  MkUnicase 0x000A 0x000A 0x000A; MkUnicase 0x000B 0x000B 0x000B;
  MkUnicase 0x000C 0x000C 0x000C; MkUnicase 0x000D 0x000D 0x000D;
  MkUnicase 0x000E 0x000E 0x000E; MkUnicase 0x000F 0x000F 0x000F;
  MkUnicase 0x0010 0x0010 0x0010; MkUnicase 0x0011 0x0011 0x0011;
  MkUnicase 0x0012 0x0012 0x0012; MkUnicase 0x0013 0x0013 0x0013;
  MkUnicase 0x0014 0x0014 0x0014; MkUnicase 0x0015 0x0015 0x0015;
  MkUnicase 0x0016 0x0016 0x0016; MkUnicase 0x0017 0x0017 0x0017;
  MkUnicase 0x0018 0x0018 0x0018; MkUnicase 0x0019 0x0019 0x0019;
  MkUnicase 0x001A 0x001A 0x001A; MkUnicase 0x001B 0x001B 0x001B;
  MkUnicase 0x001C 0x001C 0x001C; MkUnicase 0x001D 0x001D 0x001D;
  MkUnicase 0x001E 0x001E 0x001E; MkUnicase 0x001F 0x001F 0x001F;
  MkUnicase 0x0020 0x0020 0x0020; MkUnicase 0x0021 0x0021 0x0021;
  MkUnicase 0x0022 0x0022 0x0022; MkUnicase 0x0023 0x0023 0x0023;
  MkUnicase 0x0024 0x0024 0x0024; MkUnicase 0x0025 0x0025 0x0025;
  MkUnicase 0x0026 0x0026 0x0026; MkUnicase 0x0027 0x0027 0x0027;
  MkUnicase 0x0028 0x0028 0x0028; MkUnicase 0x0029 0x0029 0x0029;
  MkUnicase 0x002A 0x002A 0x002A; MkUnicase 0x002B 0x002B 0x002B;
  MkUnicase 0x002C 0x002C 0x002C; MkUnicase 0x002D 0x002D 0x002D;
  MkUnicase 0x002E 0x002E 0x002E; MkUnicase 0x002F 0x002F 0x002F;
  MkUnicase 0x0030 0x0030 0x0030; MkUnicase 0x0031 0x0031 0x0031;
  MkUnicase 0x0032 0x0032 0x0032; MkUnicase 0x0033 0x0033 0x0033;
  MkUnicase 0x0034 0x0034 0x0034; MkUnicase 0x0035 0x0035 0x0035;
  MkUnicase 0x0036 0x0036 0x0036; MkUnicase 0x0037 0x0037 0x0037;
  MkUnicase 0x0038 0x0038 0x0038; MkUnicase 0x0039 0x0039 0x0039;
  MkUnicase 0x003A 0x003A 0x003A; MkUnicase 0x003B 0x003B 0x003B;
  MkUnicase 0x003C 0x003C 0x003C; MkUnicase 0x003D 0x003D 0x003D;
  MkUnicase 0x003E 0x003E 0x003E; MkUnicase 0x003F 0x003F 0x003F;
  MkUnicase 0x0040 0x0040 0x0040; MkUnicase 0x0041 0x0061 0x0041;
  MkUnicase 0x0042 0x0062 0x0042; MkUnicase 0x0043 0x0063 0x0043;
  MkUnicase 0x0044 0x0064 0x0044; MkUnicase 0x0045 0x0065 0x0045;
  MkUnicase 0x0046 0x0066 0x0046; MkUnicase 0x0047 0x0067 0x0047;
  MkUnicase 0x0048 0x0068 0x0048; MkUnicase 0x0049 0x0069 0x0049;
  MkUnicase 0x004A 0x006A 0x004A; MkUnicase 0x004B 0x006B 0x004B;
  MkUnicase 0x004C 0x006C 0x004C; MkUnicase 0x004D 0x006D 0x004D;
  MkUnicase 0x004E 0x006E 0x004E; MkUnicase 0x004F 0x006F 0x004F;
  MkUnicase 0x0050 0x0070 0x0050; MkUnicase 0x0051 0x0071 0x0051;
  MkUnicase 0x0052 0x0072 0x0052; MkUnicase 0x0053 0x0073 0x0053;
  MkUnicase 0x0054 0x0074 0x0054; MkUnicase 0x0055 0x0075 0x0055;
  MkUnicase 0x0056 0x0076 0x0056; MkUnicase 0x0057 0x0077 0x0057;
  MkUnicase 0x0058 0x0078 0x0058; MkUnicase 0x0059 0x0079 0x0059;
  MkUnicase 0x005A 0x007A 0x005A; MkUnicase 0x005B 0x005B 0x005B;
  MkUnicase 0x005C 0x005C 0x005C; MkUnicase 0x005D 0x005D 0x005D;
  MkUnicase 0x005E 0x005E 0x005E; MkUnicase 0x005F 0x005F 0x005F;
  MkUnicase 0x0060 0x0060 0x0060; MkUnicase 0x0041 0x0061 0x0041;
  MkUnicase 0x0042 0x0062 0x0042; MkUnicase 0x0043 0x0063 0x0043;
  MkUnicase 0x0044 0x0064 0x0044; MkUnicase 0x0045 0x0065 0x0045;
  MkUnicase 0x0046 0x0066 0x0046; MkUnicase 0x0047 0x0067 0x0047;
  MkUnicase 0x0048 0x0068 0x0048; MkUnicase 0x0049 0x0069 0x0049;
  MkUnicase 0x004A 0x006A 0x004A; MkUnicase 0x004B 0x006B 0x004B;
  MkUnicase 0x004C 0x006C 0x004C; MkUnicase 0x004D 0x006D 0x004D;
  MkUnicase 0x004E 0x006E 0x004E; MkUnicase 0x004F 0x006F 0x004F;
  MkUnicase 0x0050 0x0070 0x0050; MkUnicase 0x0051 0x0071 0x0051;
  MkUnicase 0x0052 0x0072 0x0052; MkUnicase 0x0053 0x0073 0x0053;
  MkUnicase 0x0054 0x0074 0x0054; MkUnicase 0x0055 0x0075 0x0055;
  MkUnicase 0x0056 0x0076 0x0056; MkUnicase 0x0057 0x0077 0x0057;
  MkUnicase 0x0058 0x0078 0x0058; MkUnicase 0x0059 0x0079 0x0059;
  MkUnicase 0x005A 0x007A 0x005A; MkUnicase 0x007B 0x007B 0x007B;
  MkUnicase 0x007C 0x007C 0x007C; MkUnicase 0x007D 0x007D 0x007D;
  MkUnicase 0x007E 0x007E 0x007E; MkUnicase 0x007F 0x007F 0x007F;
  MkUnicase 0x0080 0x0080 0x0080; MkUnicase 0x0081 0x0081 0x0081;
  MkUnicase 0x0082 0x0082 0x0082; MkUnicase 0x0083 0x0083 0x0083;
  MkUnicase 0x0084 0x0084 0x0084; MkUnicase 0x0085 0x0085 0x0085;
  MkUnicase 0x0086 0x0086 0x0086; MkUnicase 0x0087 0x0087 0x0087;
  MkUnicase 0x0088 0x0088 0x0088; MkUnicase 0x0089 0x0089 0x0089;
  MkUnicase 0x008A 0x008A 0x008A; MkUnicase 0x008B 0x008B 0x008B;
  MkUnicase 0x008C 0x008C 0x008C; MkUnicase 0x008D 0x008D 0x008D;
  MkUnicase 0x008E 0x008E 0x008E; MkUnicase 0x008F 0x008F 0x008F;
  MkUnicase 0x0090 0x0090 0x0090; MkUnicase 0x0091 0x0091 0x0091;
  MkUnicase 0x0092 0x0092 0x0092; MkUnicase 0x0093 0x0093 0x0093;
  MkUnicase 0x0094 0x0094 0x0094; MkUnicase 0x0095 0x0095 0x0095;
  MkUnicase 0x0096 0x0096 0x0096; MkUnicase 0x0097 0x0097 0x0097;
  MkUnicase 0x0098 0x0098 0x0098; MkUnicase 0x0099 0x0099 0x0099;
  MkUnicase 0x009A 0x009A 0x009A; MkUnicase 0x009B 0x009B 0x009B;
  MkUnicase 0x009C 0x009C 0x009C; MkUnicase 0x009D 0x009D 0x009D;
  MkUnicase 0x009E 0x009E 0x009E; MkUnicase 0x009F 0x009F 0x009F;
  MkUnicase 0x00A0 0x00A0 0x00A0; MkUnicase 0x00A1 0x00A1 0x00A1;
  MkUnicase 0x00A2 0x00A2 0x00A2; MkUnicase 0x00A3 0x00A3 0x00A3;
  MkUnicase 0x00A4 0x00A4 0x00A4; MkUnicase 0x00A5 0x00A5 0x00A5;
  MkUnicase 0x00A6 0x00A6 0x00A6; MkUnicase 0x00A7 0x00A7 0x00A7;
  MkUnicase 0x00A8 0x00A8 0x00A8; MkUnicase 0x00A9 0x00A9 0x00A9;
  MkUnicase 0x00AA 0x00AA 0x00AA; MkUnicase 0x00AB 0x00AB 0x00AB;
  MkUnicase 0x00AC 0x00AC 0x00AC; MkUnicase 0x00AD 0x00AD 0x00AD;
  MkUnicase 0x00AE 0x00AE 0x00AE; MkUnicase 0x00AF 0x00AF 0x00AF;
  MkUnicase 0x00B0 0x00B0 0x00B0; MkUnicase 0x00B1 0x00B1 0x00B1;
  MkUnicase 0x00B2 0x00B2 0x00B2; MkUnicase 0x00B3 0x00B3 0x00B3;
  MkUnicase 0x00B4 0x00B4 0x00B4; MkUnicase 0x039C 0x00B5 0x039C;
  MkUnicase 0x00B6 0x00B6 0x00B6; MkUnicase 0x00B7 0x00B7 0x00B7;
  MkUnicase 0x00B8 0x00B8 0x00B8; MkUnicase 0x00B9 0x00B9 0x00B9;
  MkUnicase 0x00BA 0x00BA 0x00BA; MkUnicase 0x00BB 0x00BB 0x00BB;
  MkUnicase 0x00BC 0x00BC 0x00BC; MkUnicase 0x00BD 0x00BD 0x00BD;
  MkUnicase 0x00BE 0x00BE 0x00BE; MkUnicase 0x00BF 0x00BF 0x00BF;
  MkUnicase 0x00C0 0x00E0 0x0041; MkUnicase 0x00C1 0x00E1 0x0041;
  MkUnicase 0x00C2 0x00E2 0x0041; MkUnicase 0x00C3 0x00E3 0x0041;
  MkUnicase 0x00C4 0x00E4 0x0041; MkUnicase 0x00C5 0x00E5 0x0041;
  MkUnicase 0x00C6 0x00E6 0x00C6; MkUnicase 0x00C7 0x00E7 0x0043;
  MkUnicase 0x00C8 0x00E8 0x0045; MkUnicase 0x00C9 0x00E9 0x0045;
  MkUnicase 0x00CA 0x00EA 0x0045; MkUnicase 0x00CB 0x00EB 0x0045;
  MkUnicase 0x00CC 0x00EC 0x0049; MkUnicase 0x00CD 0x00ED 0x0049;
  MkUnicase 0x00CE 0x00EE 0x0049; MkUnicase 0x00CF 0x00EF 0x0049;
  MkUnicase 0x00D0 0x00F0 0x00D0; MkUnicase 0x00D1 0x00F1 0x004E;
  MkUnicase 0x00D2 0x00F2 0x004F; MkUnicase 0x00D3 0x00F3 0x004F;
  MkUnicase 0x00D4 0x00F4 0x004F; MkUnicase 0x00D5 0x00F5 0x004F;
  MkUnicase 0x00D6 0x00F6 0x004F; MkUnicase 0x00D7 0x00D7 0x00D7;
  MkUnicase 0x00D8 0x00F8 0x00D8; MkUnicase 0x00D9 0x00F9 0x0055;
  MkUnicase 0x00DA 0x00FA 0x0055; MkUnicase 0x00DB 0x00FB 0x0055;
  MkUnicase 0x00DC 0x00FC 0x0055; MkUnicase 0x00DD 0x00FD 0x0059;
  MkUnicase 0x00DE 0x00FE 0x00DE; MkUnicase 0x00DF 0x00DF 0x00DF;
  MkUnicase 0x00C0 0x00E0 0x0041; MkUnicase 0x00C1 0x00E1 0x0041;
  MkUnicase 0x00C2 0x00E2 0x0041; MkUnicase 0x00C3 0x00E3 0x0041;
  MkUnicase 0x00C4 0x00E4 0x0041; MkUnicase 0x00C5 0x00E5 0x0041;
  MkUnicase 0x00C6 0x00E6 0x00C6; MkUnicase 0x00C7 0x00E7 0x0043;
  MkUnicase 0x00C8 0x00E8 0x0045; MkUnicase 0x00C9 0x00E9 0x0045;
  MkUnicase 0x00CA 0x00EA 0x0045; MkUnicase 0x00CB 0x00EB 0x0045;
  MkUnicase 0x00CC 0x00EC 0x0049; MkUnicase 0x00CD 0x00ED 0x0049;
  MkUnicase 0x00CE 0x00EE 0x0049; MkUnicase 0x00CF 0x00EF 0x0049;
  MkUnicase 0x00D0 0x00F0 0x00D0; MkUnicase 0x00D1 0x00F1 0x004E;
  MkUnicase 0x00D2 0x00F2 0x004F; MkUnicase 0x00D3 0x00F3 0x004F;
  MkUnicase 0x00D4 0x00F4 0x004F; MkUnicase 0x00D5 0x00F5 0x004F;
  MkUnicase 0x00D6 0x00F6 0x004F; MkUnicase 0x00F7 0x00F7 0x00F7;
  MkUnicase 0x00D8 0x00F8 0x00D8; MkUnicase 0x00D9 0x00F9 0x0055;
  MkUnicase 0x00DA 0x00FA 0x0055; MkUnicase 0x00DB 0x00FB 0x0055;
  MkUnicase 0x00DC 0x00FC 0x0055; MkUnicase 0x00DD 0x00FD 0x0059;
  MkUnicase 0x00DE 0x00FE 0x00DE; MkUnicase 0x0178 0x00FF 0x0059].

Definition plane01 : list unicase := [
  MkUnicase 0x0100 0x0101 0x0041; MkUnicase 0x0100 0x0101 0x0041;
  MkUnicase 0x0102 0x0103 0x0041; MkUnicase 0x0102 0x0103 0x0041;
  MkUnicase 0x0104 0x0105 0x0041; MkUnicase 0x0104 0x0105 0x0041;
  MkUnicase 0x0106 0x0107 0x0043; MkUnicase 0x0106 0x0107 0x0043;
  MkUnicase 0x0108 0x0109 0x0043; MkUnicase 0x0108 0x0109 0x0043;
  MkUnicase 0x010A 0x010B 0x0043; MkUnicase 0x010A 0x010B 0x0043;
  MkUnicase 0x010C 0x010D 0x0043; MkUnicase 0x010C 0x010D 0x0043;
  MkUnicase 0x010E 0x010F 0x0044; MkUnicase 0x010E 0x010F 0x0044;
  MkUnicase 0x0110 0x0111 0x0110; MkUnicase 0x0110 0x0111 0x0110;
  MkUnicase 0x0112 0x0113 0x0045; MkUnicase 0x0112 0x0113 0x0045;
  MkUnicase 0x0114 0x0115 0x0045; MkUnicase 0x0114 0x0115 0x0045;
  MkUnicase 0x0116 0x0117 0x0045; MkUnicase 0x0116 0x0117 0x0045;
  MkUnicase 0x0118 0x0119 0x0045; MkUnicase 0x0118 0x0119 0x0045;
  MkUnicase 0x011A 0x011B 0x0045; MkUnicase 0x011A 0x011B 0x0045;
  MkUnicase 0x011C 0x011D 0x0047; MkUnicase 0x011C 0x011D 0x0047;
  MkUnicase 0x011E 0x011F 0x0047; MkUnicase 0x011E 0x011F 0x0047;
  MkUnicase 0x0120 0x0121 0x0047; MkUnicase 0x0120 0x0121 0x0047;
  MkUnicase 0x0122 0x0123 0x0047; MkUnicase 0x0122 0x0123 0x0047;
  MkUnicase 0x0124 0x0125 0x0048; MkUnicase 0x0124 0x0125 0x0048;
  MkUnicase 0x0126 0x0127 0x0126; MkUnicase 0x0126 0x0127 0x0126;
  MkUnicase 0x0128 0x0129 0x0049; MkUnicase 0x0128 0x0129 0x0049;
  MkUnicase 0x012A 0x012B 0x0049; MkUnicase 0x012A 0x012B 0x0049;
  MkUnicase 0x012C 0x012D 0x0049; MkUnicase 0x012C 0x012D 0x0049;
  MkUnicase 0x012E 0x012F 0x0049; MkUnicase 0x012E 0x012F 0x0049;
  MkUnicase 0x0130 0x0069 0x0049; MkUnicase 0x0049 0x0131 0x0049;
  MkUnicase 0x0132 0x0133 0x0132; MkUnicase 0x0132 0x0133 0x0132;
  MkUnicase 0x0134 0x0135 0x004A; MkUnicase 0x0134 0x0135 0x004A;
  MkUnicase 0x0136 0x0137 0x004B; MkUnicase 0x0136 0x0137 0x004B;
  MkUnicase 0x0138 0x0138 0x0138; MkUnicase 0x0139 0x013A 0x004C;
  MkUnicase 0x0139 0x013A 0x004C; MkUnicase 0x013B 0x013C 0x004C;
  MkUnicase 0x013B 0x013C 0x004C; MkUnicase 0x013D 0x013E 0x004C;
  MkUnicase 0x013D 0x013E 0x004C; MkUnicase 0x013F 0x0140 0x013F;
  MkUnicase 0x013F 0x0140 0x013F; MkUnicase 0x0141 0x0142 0x0141;
  MkUnicase 0x0141 0x0142 0x0141; MkUnicase 0x0143 0x0144 0x004E;
  MkUnicase 0x0143 0x0144 0x004E; MkUnicase 0x0145 0x0146 0x004E;
  MkUnicase 0x0145 0x0146 0x004E; MkUnicase 0x0147 0x0148 0x004E;
  MkUnicase 0x0147 0x0148 0x004E; MkUnicase 0x0149 0x0149 0x0149;
  MkUnicase 0x014A 0x014B 0x014A; MkUnicase 0x014A 0x014B 0x014A;
  MkUnicase 0x014C 0x014D 0x004F; MkUnicase 0x014C 0x014D 0x004F;
  MkUnicase 0x014E 0x014F 0x004F; MkUnicase 0x014E 0x014F 0x004F;
  MkUnicase 0x0150 0x0151 0x004F; MkUnicase 0x0150 0x0151 0x004F;
  MkUnicase 0x0152 0x0153 0x0152; MkUnicase 0x0152 0x0153 0x0152;
  MkUnicase 0x0154 0x0155 0x0052; MkUnicase 0x0154 0x0155 0x0052;
  MkUnicase 0x0156 0x0157 0x0052; MkUnicase 0x0156 0x0157 0x0052;
  MkUnicase 0x0158 0x0159 0x0052; MkUnicase 0x0158 0x0159 0x0052;
  MkUnicase 0x015A 0x015B 0x0053; MkUnicase 0x015A 0x015B 0x0053;
  MkUnicase 0x015C 0x015D 0x0053; MkUnicase 0x015C 0x015D 0x0053;
  MkUnicase 0x015E 0x015F 0x0053; MkUnicase 0x015E 0x015F 0x0053;
  MkUnicase 0x0160 0x0161 0x0053; MkUnicase 0x0160 0x0161 0x0053;
  MkUnicase 0x0162 0x0163 0x0054; MkUnicase 0x0162 0x0163 0x0054;
  MkUnicase 0x0164 0x0165 0x0054; MkUnicase 0x0164 0x0165 0x0054;
  MkUnicase 0x0166 0x0167 0x0166; MkUnicase 0x0166 0x0167 0x0166;
  MkUnicase 0x0168 0x0169 0x0055; MkUnicase 0x0168 0x0169 0x0055;
  MkUnicase 0x016A 0x016B 0x0055; MkUnicase 0x016A 0x016B 0x0055;
  MkUnicase 0x016C 0x016D 0x0055; MkUnicase 0x016C 0x016D 0x0055;
  MkUnicase 0x016E 0x016F 0x0055; MkUnicase 0x016E 0x016F 0x0055;
  MkUnicase 0x0170 0x0171 0x0055; MkUnicase 0x0170 0x0171 0x0055;
  MkUnicase 0x0172 0x0173 0x0055; MkUnicase 0x0172 0x0173 0x0055;
  MkUnicase 0x0174 0x0175 0x0057; MkUnicase 0x0174 0x0175 0x0057;
  MkUnicase 0x0176 0x0177 0x0059; MkUnicase 0x0176 0x0177 0x0059;
  MkUnicase 0x0178 0x00FF 0x0059; MkUnicase 0x0179 0x017A 0x005A;
  MkUnicase 0x0179 0x017A 0x005A; MkUnicase 0x017B 0x017C 0x005A;
  MkUnicase 0x017B 0x017C 0x005A; MkUnicase 0x017D 0x017E 0x005A;
  MkUnicase 0x017D 0x017E 0x005A; MkUnicase 0x0053 0x017F 0x0053;
  MkUnicase 0x0180 0x0180 0x0180; MkUnicase 0x0181 0x0253 0x0181;
  MkUnicase 0x0182 0x0183 0x0182; MkUnicase 0x0182 0x0183 0x0182;
  MkUnicase 0x0184 0x0185 0x0184; MkUnicase 0x0184 0x0185 0x0184;
  MkUnicase 0x0186 0x0254 0x0186; MkUnicase 0x0187 0x0188 0x0187;
  MkUnicase 0x0187 0x0188 0x0187; MkUnicase 0x0189 0x0256 0x0189;
  MkUnicase 0x018A 0x0257 0x018A; MkUnicase 0x018B 0x018C 0x018B;
  MkUnicase 0x018B 0x018C 0x018B; MkUnicase 0x018D 0x018D 0x018D;
  MkUnicase 0x018E 0x01DD 0x018E; MkUnicase 0x018F 0x0259 0x018F;
  MkUnicase 0x0190 0x025B 0x0190; MkUnicase 0x0191 0x0192 0x0191;
  MkUnicase 0x0191 0x0192 0x0191; MkUnicase 0x0193 0x0260 0x0193;
  MkUnicase 0x0194 0x0263 0x0194; MkUnicase 0x01F6 0x0195 0x01F6;
  MkUnicase 0x0196 0x0269 0x0196; MkUnicase 0x0197 0x0268 0x0197;
  MkUnicase 0x0198 0x0199 0x0198; MkUnicase 0x0198 0x0199 0x0198;
  MkUnicase 0x019A 0x019A 0x019A; MkUnicase 0x019B 0x019B 0x019B;
  MkUnicase 0x019C 0x026F 0x019C; MkUnicase 0x019D 0x0272 0x019D;
  MkUnicase 0x019E 0x019E 0x019E; MkUnicase 0x019F 0x0275 0x019F;
  MkUnicase 0x01A0 0x01A1 0x004F; MkUnicase 0x01A0 0x01A1 0x004F;
  MkUnicase 0x01A2 0x01A3 0x01A2; MkUnicase 0x01A2 0x01A3 0x01A2;
  MkUnicase 0x01A4 0x01A5 0x01A4; MkUnicase 0x01A4 0x01A5 0x01A4;
  MkUnicase 0x01A6 0x0280 0x01A6; MkUnicase 0x01A7 0x01A8 0x01A7;
  MkUnicase 0x01A7 0x01A8 0x01A7; MkUnicase 0x01A9 0x0283 0x01A9;
  MkUnicase 0x01AA 0x01AA 0x01AA; MkUnicase 0x01AB 0x01AB 0x01AB;
  MkUnicase 0x01AC 0x01AD 0x01AC; MkUnicase 0x01AC 0x01AD 0x01AC;
  MkUnicase 0x01AE 0x0288 0x01AE; MkUnicase 0x01AF 0x01B0 0x0055;
  MkUnicase 0x01AF 0x01B0 0x0055; MkUnicase 0x01B1 0x028A 0x01B1;
  MkUnicase 0x01B2 0x028B 0x01B2; MkUnicase 0x01B3 0x01B4 0x01B3;
  MkUnicase 0x01B3 0x01B4 0x01B3; MkUnicase 0x01B5 0x01B6 0x01B5;
  MkUnicase 0x01B5 0x01B6 0x01B5; MkUnicase 0x01B7 0x0292 0x01B7;
  MkUnicase 0x01B8 0x01B9 0x01B8; MkUnicase 0x01B8 0x01B9 0x01B8;
  MkUnicase 0x01BA 0x01BA 0x01BA; MkUnicase 0x01BB 0x01BB 0x01BB;
  MkUnicase 0x01BC 0x01BD 0x01BC; MkUnicase 0x01BC 0x01BD 0x01BC;
  MkUnicase 0x01BE 0x01BE 0x01BE; MkUnicase 0x01F7 0x01BF 0x01F7;
  MkUnicase 0x01C0 0x01C0 0x01C0; MkUnicase 0x01C1 0x01C1 0x01C1;
  MkUnicase 0x01C2 0x01C2 0x01C2; MkUnicase 0x01C3 0x01C3 0x01C3;
  MkUnicase 0x01C4 0x01C6 0x01C4; MkUnicase 0x01C4 0x01C6 0x01C4;
  MkUnicase 0x01C4 0x01C6 0x01C4; MkUnicase 0x01C7 0x01C9 0x01C7;
  MkUnicase 0x01C7 0x01C9 0x01C7; MkUnicase 0x01C7 0x01C9 0x01C7;
  MkUnicase 0x01CA 0x01CC 0x01CA; MkUnicase 0x01CA 0x01CC 0x01CA;
  MkUnicase 0x01CA 0x01CC 0x01CA; MkUnicase 0x01CD 0x01CE 0x0041;
  MkUnicase 0x01CD 0x01CE 0x0041; MkUnicase 0x01CF 0x01D0 0x0049;
  MkUnicase 0x01CF 0x01D0 0x0049; MkUnicase 0x01D1 0x01D2 0x004F;
  MkUnicase 0x01D1 0x01D2 0x004F; MkUnicase 0x01D3 0x01D4 0x0055;
  MkUnicase 0x01D3 0x01D4 0x0055; MkUnicase 0x01D5 0x01D6 0x0055;
  MkUnicase 0x01D5 0x01D6 0x0055; MkUnicase 0x01D7 0x01D8 0x0055;
  MkUnicase 0x01D7 0x01D8 0x0055; MkUnicase 0x01D9 0x01DA 0x0055;
  MkUnicase 0x01D9 0x01DA 0x0055; MkUnicase 0x01DB 0x01DC 0x0055;
  MkUnicase 0x01DB 0x01DC 0x0055; MkUnicase 0x018E 0x01DD 0x018E;
  MkUnicase 0x01DE 0x01DF 0x0041; MkUnicase 0x01DE 0x01DF 0x0041;
  MkUnicase 0x01E0 0x01E1 0x0041; MkUnicase 0x01E0 0x01E1 0x0041;
  MkUnicase 0x01E2 0x01E3 0x00C6; MkUnicase 0x01E2 0x01E3 0x00C6;
  MkUnicase 0x01E4 0x01E5 0x01E4; MkUnicase 0x01E4 0x01E5 0x01E4;
  MkUnicase 0x01E6 0x01E7 0x0047; MkUnicase 0x01E6 0x01E7 0x0047;
  MkUnicase 0x01E8 0x01E9 0x004B; MkUnicase 0x01E8 0x01E9 0x004B;
  MkUnicase 0x01EA 0x01EB 0x004F; MkUnicase 0x01EA 0x01EB 0x004F;
  MkUnicase 0x01EC 0x01ED 0x004F; MkUnicase 0x01EC 0x01ED 0x004F;
  MkUnicase 0x01EE 0x01EF 0x01B7; MkUnicase 0x01EE 0x01EF 0x01B7;
  MkUnicase 0x01F0 0x01F0 0x004A; MkUnicase 0x01F1 0x01F3 0x01F1;
  MkUnicase 0x01F1 0x01F3 0x01F1; MkUnicase 0x01F1 0x01F3 0x01F1;
  MkUnicase 0x01F4 0x01F5 0x0047; MkUnicase 0x01F4 0x01F5 0x0047;
  MkUnicase 0x01F6 0x0195 0x01F6; MkUnicase 0x01F7 0x01BF 0x01F7;
  MkUnicase 0x01F8 0x01F9 0x004E; MkUnicase 0x01F8 0x01F9 0x004E;
  MkUnicase 0x01FA 0x01FB 0x0041; MkUnicase 0x01FA 0x01FB 0x0041;
  MkUnicase 0x01FC 0x01FD 0x00C6; MkUnicase 0x01FC 0x01FD 0x00C6;
  MkUnicase 0x01FE 0x01FF 0x00D8; MkUnicase 0x01FE 0x01FF 0x00D8].

Definition plane02 : list unicase := [
  MkUnicase 0x0200 0x0201 0x0041; MkUnicase 0x0200 0x0201 0x0041;
  MkUnicase 0x0202 0x0203 0x0041; MkUnicase 0x0202 0x0203 0x0041;
  MkUnicase 0x0204 0x0205 0x0045; MkUnicase 0x0204 0x0205 0x0045;
  MkUnicase 0x0206 0x0207 0x0045; MkUnicase 0x0206 0x0207 0x0045;
  MkUnicase 0x0208 0x0209 0x0049; MkUnicase 0x0208 0x0209 0x0049;
  MkUnicase 0x020A 0x020B 0x0049; MkUnicase 0x020A 0x020B 0x0049;
  MkUnicase 0x020C 0x020D 0x004F; MkUnicase 0x020C 0x020D 0x004F;
  MkUnicase 0x020E 0x020F 0x004F; MkUnicase 0x020E 0x020F 0x004F;
  MkUnicase 0x0210 0x0211 0x0052; MkUnicase 0x0210 0x0211 0x0052;
  MkUnicase 0x0212 0x0213 0x0052; MkUnicase 0x0212 0x0213 0x0052;
  MkUnicase 0x0214 0x0215 0x0055; MkUnicase 0x0214 0x0215 0x0055;
  MkUnicase 0x0216 0x0217 0x0055; MkUnicase 0x0216 0x0217 0x0055;
  MkUnicase 0x0218 0x0219 0x0053; MkUnicase 0x0218 0x0219 0x0053;
  MkUnicase 0x021A 0x021B 0x0054; MkUnicase 0x021A 0x021B 0x0054;
  MkUnicase 0x021C 0x021D 0x021C; MkUnicase 0x021C 0x021D 0x021C;
  MkUnicase 0x021E 0x021F 0x0048; MkUnicase 0x021E 0x021F 0x0048;
  MkUnicase 0x0220 0x0220 0x0220; MkUnicase 0x0221 0x0221 0x0221;
  MkUnicase 0x0222 0x0223 0x0222; MkUnicase 0x0222 0x0223 0x0222;
  MkUnicase 0x0224 0x0225 0x0224; MkUnicase 0x0224 0x0225 0x0224;
  MkUnicase 0x0226 0x0227 0x0041; MkUnicase 0x0226 0x0227 0x0041;
  MkUnicase 0x0228 0x0229 0x0045; MkUnicase 0x0228 0x0229 0x0045;
  MkUnicase 0x022A 0x022B 0x004F; MkUnicase 0x022A 0x022B 0x004F;
  MkUnicase 0x022C 0x022D 0x004F; MkUnicase 0x022C 0x022D 0x004F;
  MkUnicase 0x022E 0x022F 0x004F; MkUnicase 0x022E 0x022F 0x004F;
  MkUnicase 0x0230 0x0231 0x004F; MkUnicase 0x0230 0x0231 0x004F;
  MkUnicase 0x0232 0x0233 0x0059; MkUnicase 0x0232 0x0233 0x0059;
  MkUnicase 0x0234 0x0234 0x0234; MkUnicase 0x0235 0x0235 0x0235;
  MkUnicase 0x0236 0x0236 0x0236; MkUnicase 0x0237 0x0237 0x0237;
  MkUnicase 0x0238 0x0238 0x0238; MkUnicase 0x0239 0x0239 0x0239;
  MkUnicase 0x023A 0x023A 0x023A; MkUnicase 0x023B 0x023B 0x023B;
  MkUnicase 0x023C 0x023C 0x023C; MkUnicase 0x023D 0x023D 0x023D;
  MkUnicase 0x023E 0x023E 0x023E; MkUnicase 0x023F 0x023F 0x023F;
  MkUnicase 0x0240 0x0240 0x0240; MkUnicase 0x0241 0x0241 0x0241;
  MkUnicase 0x0242 0x0242 0x0242; MkUnicase 0x0243 0x0243 0x0243;
  MkUnicase 0x0244 0x0244 0x0244; MkUnicase 0x0245 0x0245 0x0245;
  MkUnicase 0x0246 0x0246 0x0246; MkUnicase 0x0247 0x0247 0x0247;
  MkUnicase 0x0248 0x0248 0x0248; MkUnicase 0x0249 0x0249 0x0249;
  MkUnicase 0x024A 0x024A 0x024A; MkUnicase 0x024B 0x024B 0x024B;
  MkUnicase 0x024C 0x024C 0x024C; MkUnicase 0x024D 0x024D 0x024D;
  MkUnicase 0x024E 0x024E 0x024E; MkUnicase 0x024F 0x024F 0x024F;
  MkUnicase 0x0250 0x0250 0x0250; MkUnicase 0x0251 0x0251 0x0251;
  MkUnicase 0x0252 0x0252 0x0252; MkUnicase 0x0181 0x0253 0x0181;
  MkUnicase 0x0186 0x0254 0x0186; MkUnicase 0x0255 0x0255 0x0255;
  MkUnicase 0x0189 0x0256 0x0189; MkUnicase 0x018A 0x0257 0x018A;
  MkUnicase 0x0258 0x0258 0x0258; MkUnicase 0x018F 0x0259 0x018F;
  MkUnicase 0x025A 0x025A 0x025A; MkUnicase 0x0190 0x025B 0x0190;
  MkUnicase 0x025C 0x025C 0x025C; MkUnicase 0x025D 0x025D 0x025D;
  MkUnicase 0x025E 0x025E 0x025E; MkUnicase 0x025F 0x025F 0x025F;
  MkUnicase 0x0193 0x0260 0x0193; MkUnicase 0x0261 0x0261 0x0261;
  MkUnicase 0x0262 0x0262 0x0262; MkUnicase 0x0194 0x0263 0x0194;
  MkUnicase 0x0264 0x0264 0x0264; MkUnicase 0x0265 0x0265 0x0265;
  MkUnicase 0x0266 0x0266 0x0266; MkUnicase 0x0267 0x0267 0x0267;
  MkUnicase 0x0197 0x0268 0x0197; MkUnicase 0x0196 0x0269 0x0196;
  MkUnicase 0x026A 0x026A 0x026A; MkUnicase 0x026B 0x026B 0x026B;
  MkUnicase 0x026C 0x026C 0x026C; MkUnicase 0x026D 0x026D 0x026D;
  MkUnicase 0x026E 0x026E 0x026E; MkUnicase 0x019C 0x026F 0x019C;
  MkUnicase 0x0270 0x0270 0x0270; MkUnicase 0x0271 0x0271 0x0271;
  MkUnicase 0x019D 0x0272 0x019D; MkUnicase 0x0273 0x0273 0x0273;
  MkUnicase 0x0274 0x0274 0x0274; MkUnicase 0x019F 0x0275 0x019F;
  MkUnicase 0x0276 0x0276 0x0276; MkUnicase 0x0277 0x0277 0x0277;
  MkUnicase 0x0278 0x0278 0x0278; MkUnicase 0x0279 0x0279 0x0279;
  MkUnicase 0x027A 0x027A 0x027A; MkUnicase 0x027B 0x027B 0x027B;
  MkUnicase 0x027C 0x027C 0x027C; MkUnicase 0x027D 0x027D 0x027D;
  MkUnicase 0x027E 0x027E 0x027E; MkUnicase 0x027F 0x027F 0x027F;
  MkUnicase 0x01A6 0x0280 0x01A6; MkUnicase 0x0281 0x0281 0x0281;
  MkUnicase 0x0282 0x0282 0x0282; MkUnicase 0x01A9 0x0283 0x01A9;
  MkUnicase 0x0284 0x0284 0x0284; MkUnicase 0x0285 0x0285 0x0285;
  MkUnicase 0x0286 0x0286 0x0286; MkUnicase 0x0287 0x0287 0x0287;
  MkUnicase 0x01AE 0x0288 0x01AE; MkUnicase 0x0289 0x0289 0x0289;
  MkUnicase 0x01B1 0x028A 0x01B1; MkUnicase 0x01B2 0x028B 0x01B2;
  MkUnicase 0x028C 0x028C 0x028C; MkUnicase 0x028D 0x028D 0x028D;
  MkUnicase 0x028E 0x028E 0x028E; MkUnicase 0x028F 0x028F 0x028F;
  MkUnicase 0x0290 0x0290 0x0290; MkUnicase 0x0291 0x0291 0x0291;
  MkUnicase 0x01B7 0x0292 0x01B7; MkUnicase 0x0293 0x0293 0x0293;
  MkUnicase 0x0294 0x0294 0x0294; MkUnicase 0x0295 0x0295 0x0295;
  MkUnicase 0x0296 0x0296 0x0296; MkUnicase 0x0297 0x0297 0x0297;
  MkUnicase 0x0298 0x0298 0x0298; MkUnicase 0x0299 0x0299 0x0299;
  MkUnicase 0x029A 0x029A 0x029A; MkUnicase 0x029B 0x029B 0x029B;
  MkUnicase 0x029C 0x029C 0x029C; MkUnicase 0x029D 0x029D 0x029D;
  MkUnicase 0x029E 0x029E 0x029E; MkUnicase 0x029F 0x029F 0x029F;
  MkUnicase 0x02A0 0x02A0 0x02A0; MkUnicase 0x02A1 0x02A1 0x02A1;
  MkUnicase 0x02A2 0x02A2 0x02A2; MkUnicase 0x02A3 0x02A3 0x02A3;
  MkUnicase 0x02A4 0x02A4 0x02A4; MkUnicase 0x02A5 0x02A5 0x02A5;
  MkUnicase 0x02A6 0x02A6 0x02A6; MkUnicase 0x02A7 0x02A7 0x02A7;
  MkUnicase 0x02A8 0x02A8 0x02A8; MkUnicase 0x02A9 0x02A9 0x02A9;
  MkUnicase 0x02AA 0x02AA 0x02AA; MkUnicase 0x02AB 0x02AB 0x02AB;
  MkUnicase 0x02AC 0x02AC 0x02AC; MkUnicase 0x02AD 0x02AD 0x02AD;
  MkUnicase 0x02AE 0x02AE 0x02AE; MkUnicase 0x02AF 0x02AF 0x02AF;
  MkUnicase 0x02B0 0x02B0 0x02B0; MkUnicase 0x02B1 0x02B1 0x02B1;
  MkUnicase 0x02B2 0x02B2 0x02B2; MkUnicase 0x02B3 0x02B3 0x02B3;
  MkUnicase 0x02B4 0x02B4 0x02B4; MkUnicase 0x02B5 0x02B5 0x02B5;
  MkUnicase 0x02B6 0x02B6 0x02B6; MkUnicase 0x02B7 0x02B7 0x02B7;
  MkUnicase 0x02B8 0x02B8 0x02B8; MkUnicase 0x02B9 0x02B9 0x02B9;
  MkUnicase 0x02BA 0x02BA 0x02BA; MkUnicase 0x02BB 0x02BB 0x02BB;
  MkUnicase 0x02BC 0x02BC 0x02BC; MkUnicase 0x02BD 0x02BD 0x02BD;
  MkUnicase 0x02BE 0x02BE 0x02BE; MkUnicase 0x02BF 0x02BF 0x02BF;
  MkUnicase 0x02C0 0x02C0 0x02C0; MkUnicase 0x02C1 0x02C1 0x02C1;
  MkUnicase 0x02C2 0x02C2 0x02C2; MkUnicase 0x02C3 0x02C3 0x02C3;
  MkUnicase 0x02C4 0x02C4 0x02C4; MkUnicase 0x02C5 0x02C5 0x02C5;
  MkUnicase 0x02C6 0x02C6 0x02C6; MkUnicase 0x02C7 0x02C7 0x02C7;
  MkUnicase 0x02C8 0x02C8 0x02C8; MkUnicase 0x02C9 0x02C9 0x02C9;
  MkUnicase 0x02CA 0x02CA 0x02CA; MkUnicase 0x02CB 0x02CB 0x02CB;
  MkUnicase 0x02CC 0x02CC 0x02CC; MkUnicase 0x02CD 0x02CD 0x02CD;
  MkUnicase 0x02CE 0x02CE 0x02CE; MkUnicase 0x02CF 0x02CF 0x02CF;
  MkUnicase 0x02D0 0x02D0 0x02D0; MkUnicase 0x02D1 0x02D1 0x02D1;
  MkUnicase 0x02D2 0x02D2 0x02D2; MkUnicase 0x02D3 0x02D3 0x02D3;
  MkUnicase 0x02D4 0x02D4 0x02D4; MkUnicase 0x02D5 0x02D5 0x02D5;
  MkUnicase 0x02D6 0x02D6 0x02D6; MkUnicase 0x02D7 0x02D7 0x02D7;
  MkUnicase 0x02D8 0x02D8 0x02D8; MkUnicase 0x02D9 0x02D9 0x02D9;
  MkUnicase 0x02DA 0x02DA 0x02DA; MkUnicase 0x02DB 0x02DB 0x02DB;
  MkUnicase 0x02DC 0x02DC 0x02DC; MkUnicase 0x02DD 0x02DD 0x02DD;
  MkUnicase 0x02DE 0x02DE 0x02DE; MkUnicase 0x02DF 0x02DF 0x02DF;
  MkUnicase 0x02E0 0x02E0 0x02E0; MkUnicase 0x02E1 0x02E1 0x02E1;
  MkUnicase 0x02E2 0x02E2 0x02E2; MkUnicase 0x02E3 0x02E3 0x02E3;
  MkUnicase 0x02E4 0x02E4 0x02E4; MkUnicase 0x02E5 0x02E5 0x02E5;
  MkUnicase 0x02E6 0x02E6 0x02E6; MkUnicase 0x02E7 0x02E7 0x02E7;
  MkUnicase 0x02E8 0x02E8 0x02E8; MkUnicase 0x02E9 0x02E9 0x02E9;
  MkUnicase 0x02EA 0x02EA 0x02EA; MkUnicase 0x02EB 0x02EB 0x02EB;
  MkUnicase 0x02EC 0x02EC 0x02EC; MkUnicase 0x02ED 0x02ED 0x02ED;
  MkUnicase 0x02EE 0x02EE 0x02EE; MkUnicase 0x02EF 0x02EF 0x02EF;
  MkUnicase 0x02F0 0x02F0 0x02F0; MkUnicase 0x02F1 0x02F1 0x02F1;
  MkUnicase 0x02F2 0x02F2 0x02F2; MkUnicase 0x02F3 0x02F3 0x02F3;
  MkUnicase 0x02F4 0x02F4 0x02F4; MkUnicase 0x02F5 0x02F5 0x02F5;
  MkUnicase 0x02F6 0x02F6 0x02F6; MkUnicase 0x02F7 0x02F7 0x02F7;
  MkUnicase 0x02F8 0x02F8 0x02F8; MkUnicase 0x02F9 0x02F9 0x02F9;
  MkUnicase 0x02FA 0x02FA 0x02FA; MkUnicase 0x02FB 0x02FB 0x02FB;
  MkUnicase 0x02FC 0x02FC 0x02FC; MkUnicase 0x02FD 0x02FD 0x02FD;
  MkUnicase 0x02FE 0x02FE 0x02FE; MkUnicase 0x02FF 0x02FF 0x02FF].

Definition plane03 : list unicase := [
  MkUnicase 0x0300 0x0300 0x0300; MkUnicase 0x0301 0x0301 0x0301;
  MkUnicase 0x0302 0x0302 0x0302; MkUnicase 0x0303 0x0303 0x0303;
  MkUnicase 0x0304 0x0304 0x0304; MkUnicase 0x0305 0x0305 0x0305;
  MkUnicase 0x0306 0x0306 0x0306; MkUnicase 0x0307 0x0307 0x0307;
  MkUnicase 0x0308 0x0308 0x0308; MkUnicase 0x0309 0x0309 0x0309;
  MkUnicase 0x030A 0x030A 0x030A; MkUnicase 0x030B 0x030B 0x030B;
  MkUnicase 0x030C 0x030C 0x030C; MkUnicase 0x030D 0x030D 0x030D;
  MkUnicase 0x030E 0x030E 0x030E; MkUnicase 0x030F 0x030F 0x030F;
  MkUnicase 0x0310 0x0310 0x0310; MkUnicase 0x0311 0x0311 0x0311;
  MkUnicase 0x0312 0x0312 0x0312; MkUnicase 0x0313 0x0313 0x0313;
  MkUnicase 0x0314 0x0314 0x0314; MkUnicase 0x0315 0x0315 0x0315;
  MkUnicase 0x0316 0x0316 0x0316; MkUnicase 0x0317 0x0317 0x0317;
  MkUnicase 0x0318 0x0318 0x0318; MkUnicase 0x0319 0x0319 0x0319;
  MkUnicase 0x031A 0x031A 0x031A; MkUnicase 0x031B 0x031B 0x031B;
  MkUnicase 0x031C 0x031C 0x031C; MkUnicase 0x031D 0x031D 0x031D;
  MkUnicase 0x031E 0x031E 0x031E; MkUnicase 0x031F 0x031F 0x031F;
  MkUnicase 0x0320 0x0320 0x0320; MkUnicase 0x0321 0x0321 0x0321;
  MkUnicase 0x0322 0x0322 0x0322; MkUnicase 0x0323 0x0323 0x0323;
  MkUnicase 0x0324 0x0324 0x0324; MkUnicase 0x0325 0x0325 0x0325;
  MkUnicase 0x0326 0x0326 0x0326; MkUnicase 0x0327 0x0327 0x0327;
  MkUnicase 0x0328 0x0328 0x0328; MkUnicase 0x0329 0x0329 0x0329;
  MkUnicase 0x032A 0x032A 0x032A; MkUnicase 0x032B 0x032B 0x032B;
  MkUnicase 0x032C 0x032C 0x032C; MkUnicase 0x032D 0x032D 0x032D;
  MkUnicase 0x032E 0x032E 0x032E; MkUnicase 0x032F 0x032F 0x032F;
  MkUnicase 0x0330 0x0330 0x0330; MkUnicase 0x0331 0x0331 0x0331;
  MkUnicase 0x0332 0x0332 0x0332; MkUnicase 0x0333 0x0333 0x0333;
  MkUnicase 0x0334 0x0334 0x0334; MkUnicase 0x0335 0x0335 0x0335;
  MkUnicase 0x0336 0x0336 0x0336; MkUnicase 0x0337 0x0337 0x0337;
  MkUnicase 0x0338 0x0338 0x0338; MkUnicase 0x0339 0x0339 0x0339;
  MkUnicase 0x033A 0x033A 0x033A; MkUnicase 0x033B 0x033B 0x033B;
  MkUnicase 0x033C 0x033C 0x033C; MkUnicase 0x033D 0x033D 0x033D;
  MkUnicase 0x033E 0x033E 0x033E; MkUnicase 0x033F 0x033F 0x033F;
  MkUnicase 0x0340 0x0340 0x0340; MkUnicase 0x0341 0x0341 0x0341;
  MkUnicase 0x0342 0x0342 0x0342; MkUnicase 0x0343 0x0343 0x0343;
  MkUnicase 0x0344 0x0344 0x0344; MkUnicase 0x0399 0x0345 0x0399;
  MkUnicase 0x0346 0x0346 0x0346; MkUnicase 0x0347 0x0347 0x0347;
  MkUnicase 0x0348 0x0348 0x0348; MkUnicase 0x0349 0x0349 0x0349;
  MkUnicase 0x034A 0x034A 0x034A; MkUnicase 0x034B 0x034B 0x034B;
  MkUnicase 0x034C 0x034C 0x034C; MkUnicase 0x034D 0x034D 0x034D;
  MkUnicase 0x034E 0x034E 0x034E; MkUnicase 0x034F 0x034F 0x034F;
  MkUnicase 0x0350 0x0350 0x0350; MkUnicase 0x0351 0x0351 0x0351;
  MkUnicase 0x0352 0x0352 0x0352; MkUnicase 0x0353 0x0353 0x0353;
  MkUnicase 0x0354 0x0354 0x0354; MkUnicase 0x0355 0x0355 0x0355;
  MkUnicase 0x0356 0x0356 0x0356; MkUnicase 0x0357 0x0357 0x0357;
  MkUnicase 0x0358 0x0358 0x0358; MkUnicase 0x0359 0x0359 0x0359;
  MkUnicase 0x035A 0x035A 0x035A; MkUnicase 0x035B 0x035B 0x035B;
  MkUnicase 0x035C 0x035C 0x035C; MkUnicase 0x035D 0x035D 0x035D;
  MkUnicase 0x035E 0x035E 0x035E; MkUnicase 0x035F 0x035F 0x035F;
  MkUnicase 0x0360 0x0360 0x0360; MkUnicase 0x0361 0x0361 0x0361;
  MkUnicase 0x0362 0x0362 0x0362; MkUnicase 0x0363 0x0363 0x0363;
  MkUnicase 0x0364 0x0364 0x0364; MkUnicase 0x0365 0x0365 0x0365;
  MkUnicase 0x0366 0x0366 0x0366; MkUnicase 0x0367 0x0367 0x0367;
  MkUnicase 0x0368 0x0368 0x0368; MkUnicase 0x0369 0x0369 0x0369;
  MkUnicase 0x036A 0x036A 0x036A; MkUnicase 0x036B 0x036B 0x036B;
  MkUnicase 0x036C 0x036C 0x036C; MkUnicase 0x036D 0x036D 0x036D;
  MkUnicase 0x036E 0x036E 0x036E; MkUnicase 0x036F 0x036F 0x036F;
  MkUnicase 0x0370 0x0370 0x0370; MkUnicase 0x0371 0x0371 0x0371;
  MkUnicase 0x0372 0x0372 0x0372; MkUnicase 0x0373 0x0373 0x0373;
  MkUnicase 0x0374 0x0374 0x0374; MkUnicase 0x0375 0x0375 0x0375;
  MkUnicase 0x0376 0x0376 0x0376; MkUnicase 0x0377 0x0377 0x0377;
  MkUnicase 0x0378 0x0378 0x0378; MkUnicase 0x0379 0x0379 0x0379;
  MkUnicase 0x037A 0x037A 0x037A; MkUnicase 0x037B 0x037B 0x037B;
  MkUnicase 0x037C 0x037C 0x037C; MkUnicase 0x037D 0x037D 0x037D;
  MkUnicase 0x037E 0x037E 0x037E; MkUnicase 0x037F 0x037F 0x037F;
  MkUnicase 0x0380 0x0380 0x0380; MkUnicase 0x0381 0x0381 0x0381;
  MkUnicase 0x0382 0x0382 0x0382; MkUnicase 0x0383 0x0383 0x0383;
  MkUnicase 0x0384 0x0384 0x0384; MkUnicase 0x0385 0x0385 0x0385;
  MkUnicase 0x0386 0x03AC 0x0391; MkUnicase 0x0387 0x0387 0x0387;
  MkUnicase 0x0388 0x03AD 0x0395; MkUnicase 0x0389 0x03AE 0x0397;
  MkUnicase 0x038A 0x03AF 0x0399; MkUnicase 0x038B 0x038B 0x038B;
  MkUnicase 0x038C 0x03CC 0x039F; MkUnicase 0x038D 0x038D 0x038D;
  MkUnicase 0x038E 0x03CD 0x03A5; MkUnicase 0x038F 0x03CE 0x03A9;
  MkUnicase 0x0390 0x0390 0x0399; MkUnicase 0x0391 0x03B1 0x0391;
  MkUnicase 0x0392 0x03B2 0x0392; MkUnicase 0x0393 0x03B3 0x0393;
  MkUnicase 0x0394 0x03B4 0x0394; MkUnicase 0x0395 0x03B5 0x0395;
  MkUnicase 0x0396 0x03B6 0x0396; MkUnicase 0x0397 0x03B7 0x0397;
  MkUnicase 0x0398 0x03B8 0x0398; MkUnicase 0x0399 0x03B9 0x0399;
  MkUnicase 0x039A 0x03BA 0x039A; MkUnicase 0x039B 0x03BB 0x039B;
  MkUnicase 0x039C 0x03BC 0x039C; MkUnicase 0x039D 0x03BD 0x039D;
  MkUnicase 0x039E 0x03BE 0x039E; MkUnicase 0x039F 0x03BF 0x039F;
  MkUnicase 0x03A0 0x03C0 0x03A0; MkUnicase 0x03A1 0x03C1 0x03A1;
  MkUnicase 0x03A2 0x03A2 0x03A2; MkUnicase 0x03A3 0x03C3 0x03A3;
  MkUnicase 0x03A4 0x03C4 0x03A4; MkUnicase 0x03A5 0x03C5 0x03A5;
  MkUnicase 0x03A6 0x03C6 0x03A6; MkUnicase 0x03A7 0x03C7 0x03A7;
  MkUnicase 0x03A8 0x03C8 0x03A8; MkUnicase 0x03A9 0x03C9 0x03A9;
  MkUnicase 0x03AA 0x03CA 0x0399; MkUnicase 0x03AB 0x03CB 0x03A5;
  MkUnicase 0x0386 0x03AC 0x0391; MkUnicase 0x0388 0x03AD 0x0395;
  MkUnicase 0x0389 0x03AE 0x0397; MkUnicase 0x038A 0x03AF 0x0399;
  MkUnicase 0x03B0 0x03B0 0x03A5; MkUnicase 0x0391 0x03B1 0x0391;
  MkUnicase 0x0392 0x03B2 0x0392; MkUnicase 0x0393 0x03B3 0x0393;
  MkUnicase 0x0394 0x03B4 0x0394; MkUnicase 0x0395 0x03B5 0x0395;
  MkUnicase 0x0396 0x03B6 0x0396; MkUnicase 0x0397 0x03B7 0x0397;
  MkUnicase 0x0398 0x03B8 0x0398; MkUnicase 0x0399 0x03B9 0x0399;
  MkUnicase 0x039A 0x03BA 0x039A; MkUnicase 0x039B 0x03BB 0x039B;
  MkUnicase 0x039C 0x03BC 0x039C; MkUnicase 0x039D 0x03BD 0x039D;
  MkUnicase 0x039E 0x03BE 0x039E; MkUnicase 0x039F 0x03BF 0x039F;
  MkUnicase 0x03A0 0x03C0 0x03A0; MkUnicase 0x03A1 0x03C1 0x03A1;
  MkUnicase 0x03A3 0x03C2 0x03A3; MkUnicase 0x03A3 0x03C3 0x03A3;
  MkUnicase 0x03A4 0x03C4 0x03A4; MkUnicase 0x03A5 0x03C5 0x03A5;
  MkUnicase 0x03A6 0x03C6 0x03A6; MkUnicase 0x03A7 0x03C7 0x03A7;
  MkUnicase 0x03A8 0x03C8 0x03A8; MkUnicase 0x03A9 0x03C9 0x03A9;
  MkUnicase 0x03AA 0x03CA 0x0399; MkUnicase 0x03AB 0x03CB 0x03A5;
  MkUnicase 0x038C 0x03CC 0x039F; MkUnicase 0x038E 0x03CD 0x03A5;
  MkUnicase 0x038F 0x03CE 0x03A9; MkUnicase 0x03CF 0x03CF 0x03CF;
  MkUnicase 0x0392 0x03D0 0x0392; MkUnicase 0x0398 0x03D1 0x0398;
  MkUnicase 0x03D2 0x03D2 0x03D2; MkUnicase 0x03D3 0x03D3 0x03D2;
  MkUnicase 0x03D4 0x03D4 0x03D2; MkUnicase 0x03A6 0x03D5 0x03A6;
  MkUnicase 0x03A0 0x03D6 0x03A0; MkUnicase 0x03D7 0x03D7 0x03D7;
  MkUnicase 0x03D8 0x03D8 0x03D8; MkUnicase 0x03D9 0x03D9 0x03D9;
  MkUnicase 0x03DA 0x03DB 0x03DA; MkUnicase 0x03DA 0x03DB 0x03DA;
  MkUnicase 0x03DC 0x03DD 0x03DC; MkUnicase 0x03DC 0x03DD 0x03DC;
  MkUnicase 0x03DE 0x03DF 0x03DE; MkUnicase 0x03DE 0x03DF 0x03DE;
  MkUnicase 0x03E0 0x03E1 0x03E0; MkUnicase 0x03E0 0x03E1 0x03E0;
  MkUnicase 0x03E2 0x03E3 0x03E2; MkUnicase 0x03E2 0x03E3 0x03E2;
  MkUnicase 0x03E4 0x03E5 0x03E4; MkUnicase 0x03E4 0x03E5 0x03E4;
  MkUnicase 0x03E6 0x03E7 0x03E6; MkUnicase 0x03E6 0x03E7 0x03E6;
  MkUnicase 0x03E8 0x03E9 0x03E8; MkUnicase 0x03E8 0x03E9 0x03E8;
  MkUnicase 0x03EA 0x03EB 0x03EA; MkUnicase 0x03EA 0x03EB 0x03EA;
  MkUnicase 0x03EC 0x03ED 0x03EC; MkUnicase 0x03EC 0x03ED 0x03EC;
  MkUnicase 0x03EE 0x03EF 0x03EE; MkUnicase 0x03EE 0x03EF 0x03EE;
  MkUnicase 0x039A 0x03F0 0x039A; MkUnicase 0x03A1 0x03F1 0x03A1;
  MkUnicase 0x03A3 0x03F2 0x03A3; MkUnicase 0x03F3 0x03F3 0x03F3;
  MkUnicase 0x03F4 0x03F4 0x03F4; MkUnicase 0x03F5 0x03F5 0x03F5;
  MkUnicase 0x03F6 0x03F6 0x03F6; MkUnicase 0x03F7 0x03F7 0x03F7;
  MkUnicase 0x03F8 0x03F8 0x03F8; MkUnicase 0x03F9 0x03F9 0x03F9;
  MkUnicase 0x03FA 0x03FA 0x03FA; MkUnicase 0x03FB 0x03FB 0x03FB;
  MkUnicase 0x03FC 0x03FC 0x03FC; MkUnicase 0x03FD 0x03FD 0x03FD;
  MkUnicase 0x03FE 0x03FE 0x03FE; MkUnicase 0x03FF 0x03FF 0x03FF].

Definition plane04 : list unicase := [
  MkUnicase 0x0400 0x0450 0x0415; MkUnicase 0x0401 0x0451 0x0415;
  MkUnicase 0x0402 0x0452 0x0402; MkUnicase 0x0403 0x0453 0x0413;
  MkUnicase 0x0404 0x0454 0x0404; MkUnicase 0x0405 0x0455 0x0405;
  MkUnicase 0x0406 0x0456 0x0406; MkUnicase 0x0407 0x0457 0x0406;
  MkUnicase 0x0408 0x0458 0x0408; MkUnicase 0x0409 0x0459 0x0409;
  MkUnicase 0x040A 0x045A 0x040A; MkUnicase 0x040B 0x045B 0x040B;
  MkUnicase 0x040C 0x045C 0x041A; MkUnicase 0x040D 0x045D 0x0418;
  MkUnicase 0x040E 0x045E 0x0423; MkUnicase 0x040F 0x045F 0x040F;
  MkUnicase 0x0410 0x0430 0x0410; MkUnicase 0x0411 0x0431 0x0411;
  MkUnicase 0x0412 0x0432 0x0412; MkUnicase 0x0413 0x0433 0x0413;
  MkUnicase 0x0414 0x0434 0x0414; MkUnicase 0x0415 0x0435 0x0415;
  MkUnicase 0x0416 0x0436 0x0416; MkUnicase 0x0417 0x0437 0x0417;
  MkUnicase 0x0418 0x0438 0x0418; MkUnicase 0x0419 0x0439 0x0419;
  MkUnicase 0x041A 0x043A 0x041A; MkUnicase 0x041B 0x043B 0x041B;
  MkUnicase 0x041C 0x043C 0x041C; MkUnicase 0x041D 0x043D 0x041D;
  MkUnicase 0x041E 0x043E 0x041E; MkUnicase 0x041F 0x043F 0x041F;
  MkUnicase 0x0420 0x0440 0x0420; MkUnicase 0x0421 0x0441 0x0421;
  MkUnicase 0x0422 0x0442 0x0422; MkUnicase 0x0423 0x0443 0x0423;
  MkUnicase 0x0424 0x0444 0x0424; MkUnicase 0x0425 0x0445 0x0425;
  MkUnicase 0x0426 0x0446 0x0426; MkUnicase 0x0427 0x0447 0x0427;
  MkUnicase 0x0428 0x0448 0x0428; MkUnicase 0x0429 0x0449 0x0429;
  MkUnicase 0x042A 0x044A 0x042A; MkUnicase 0x042B 0x044B 0x042B;
  MkUnicase 0x042C 0x044C 0x042C; MkUnicase 0x042D 0x044D 0x042D;
  MkUnicase 0x042E 0x044E 0x042E; MkUnicase 0x042F 0x044F 0x042F;
  MkUnicase 0x0410 0x0430 0x0410; MkUnicase 0x0411 0x0431 0x0411;
  MkUnicase 0x0412 0x0432 0x0412; MkUnicase 0x0413 0x0433 0x0413;
  MkUnicase 0x0414 0x0434 0x0414; MkUnicase 0x0415 0x0435 0x0415;
  MkUnicase 0x0416 0x0436 0x0416; MkUnicase 0x0417 0x0437 0x0417;
  MkUnicase 0x0418 0x0438 0x0418; MkUnicase 0x0419 0x0439 0x0419;
  MkUnicase 0x041A 0x043A 0x041A; MkUnicase 0x041B 0x043B 0x041B;
  MkUnicase 0x041C 0x043C 0x041C; MkUnicase 0x041D 0x043D 0x041D;
  MkUnicase 0x041E 0x043E 0x041E; MkUnicase 0x041F 0x043F 0x041F;
  MkUnicase 0x0420 0x0440 0x0420; MkUnicase 0x0421 0x0441 0x0421;
  MkUnicase 0x0422 0x0442 0x0422; MkUnicase 0x0423 0x0443 0x0423;
  MkUnicase 0x0424 0x0444 0x0424; MkUnicase 0x0425 0x0445 0x0425;
  MkUnicase 0x0426 0x0446 0x0426; MkUnicase 0x0427 0x0447 0x0427;
  MkUnicase 0x0428 0x0448 0x0428; MkUnicase 0x0429 0x0449 0x0429;
  MkUnicase 0x042A 0x044A 0x042A; MkUnicase 0x042B 0x044B 0x042B;
  MkUnicase 0x042C 0x044C 0x042C; MkUnicase 0x042D 0x044D 0x042D;
  MkUnicase 0x042E 0x044E 0x042E; MkUnicase 0x042F 0x044F 0x042F;
  MkUnicase 0x0400 0x0450 0x0415; MkUnicase 0x0401 0x0451 0x0415;
  MkUnicase 0x0402 0x0452 0x0402; MkUnicase 0x0403 0x0453 0x0413;
  MkUnicase 0x0404 0x0454 0x0404; MkUnicase 0x0405 0x0455 0x0405;
  MkUnicase 0x0406 0x0456 0x0406; MkUnicase 0x0407 0x0457 0x0406;
  MkUnicase 0x0408 0x0458 0x0408; MkUnicase 0x0409 0x0459 0x0409;
  MkUnicase 0x040A 0x045A 0x040A; MkUnicase 0x040B 0x045B 0x040B;
  MkUnicase 0x040C 0x045C 0x041A; MkUnicase 0x040D 0x045D 0x0418;
  MkUnicase 0x040E 0x045E 0x0423; MkUnicase 0x040F 0x045F 0x040F;
  MkUnicase 0x0460 0x0461 0x0460; MkUnicase 0x0460 0x0461 0x0460;
  MkUnicase 0x0462 0x0463 0x0462; MkUnicase 0x0462 0x0463 0x0462;
  MkUnicase 0x0464 0x0465 0x0464; MkUnicase 0x0464 0x0465 0x0464;
  MkUnicase 0x0466 0x0467 0x0466; MkUnicase 0x0466 0x0467 0x0466;
  MkUnicase 0x0468 0x0469 0x0468; MkUnicase 0x0468 0x0469 0x0468;
  MkUnicase 0x046A 0x046B 0x046A; MkUnicase 0x046A 0x046B 0x046A;
  MkUnicase 0x046C 0x046D 0x046C; MkUnicase 0x046C 0x046D 0x046C;
  MkUnicase 0x046E 0x046F 0x046E; MkUnicase 0x046E 0x046F 0x046E;
  MkUnicase 0x0470 0x0471 0x0470; MkUnicase 0x0470 0x0471 0x0470;
  MkUnicase 0x0472 0x0473 0x0472; MkUnicase 0x0472 0x0473 0x0472;
  MkUnicase 0x0474 0x0475 0x0474; MkUnicase 0x0474 0x0475 0x0474;
  MkUnicase 0x0476 0x0477 0x0474; MkUnicase 0x0476 0x0477 0x0474;
  MkUnicase 0x0478 0x0479 0x0478; MkUnicase 0x0478 0x0479 0x0478;
  MkUnicase 0x047A 0x047B 0x047A; MkUnicase 0x047A 0x047B 0x047A;
  MkUnicase 0x047C 0x047D 0x047C; MkUnicase 0x047C 0x047D 0x047C;
  MkUnicase 0x047E 0x047F 0x047E; MkUnicase 0x047E 0x047F 0x047E;
  MkUnicase 0x0480 0x0481 0x0480; MkUnicase 0x0480 0x0481 0x0480;
  MkUnicase 0x0482 0x0482 0x0482; MkUnicase 0x0483 0x0483 0x0483;
  MkUnicase 0x0484 0x0484 0x0484; MkUnicase 0x0485 0x0485 0x0485;
  MkUnicase 0x0486 0x0486 0x0486; MkUnicase 0x0487 0x0487 0x0487;
  MkUnicase 0x0488 0x0488 0x0488; MkUnicase 0x0489 0x0489 0x0489;
  MkUnicase 0x048A 0x048A 0x048A; MkUnicase 0x048B 0x048B 0x048B;
  MkUnicase 0x048C 0x048D 0x048C; MkUnicase 0x048C 0x048D 0x048C;
  MkUnicase 0x048E 0x048F 0x048E; MkUnicase 0x048E 0x048F 0x048E;
  MkUnicase 0x0490 0x0491 0x0490; MkUnicase 0x0490 0x0491 0x0490;
  MkUnicase 0x0492 0x0493 0x0492; MkUnicase 0x0492 0x0493 0x0492;
  MkUnicase 0x0494 0x0495 0x0494; MkUnicase 0x0494 0x0495 0x0494;
  MkUnicase 0x0496 0x0497 0x0496; MkUnicase 0x0496 0x0497 0x0496;
  MkUnicase 0x0498 0x0499 0x0498; MkUnicase 0x0498 0x0499 0x0498;
  MkUnicase 0x049A 0x049B 0x049A; MkUnicase 0x049A 0x049B 0x049A;
  MkUnicase 0x049C 0x049D 0x049C; MkUnicase 0x049C 0x049D 0x049C;
  MkUnicase 0x049E 0x049F 0x049E; MkUnicase 0x049E 0x049F 0x049E;
  MkUnicase 0x04A0 0x04A1 0x04A0; MkUnicase 0x04A0 0x04A1 0x04A0;
  MkUnicase 0x04A2 0x04A3 0x04A2; MkUnicase 0x04A2 0x04A3 0x04A2;
  MkUnicase 0x04A4 0x04A5 0x04A4; MkUnicase 0x04A4 0x04A5 0x04A4;
  MkUnicase 0x04A6 0x04A7 0x04A6; MkUnicase 0x04A6 0x04A7 0x04A6;
  MkUnicase 0x04A8 0x04A9 0x04A8; MkUnicase 0x04A8 0x04A9 0x04A8;
  MkUnicase 0x04AA 0x04AB 0x04AA; MkUnicase 0x04AA 0x04AB 0x04AA;
  MkUnicase 0x04AC 0x04AD 0x04AC; MkUnicase 0x04AC 0x04AD 0x04AC;
  MkUnicase 0x04AE 0x04AF 0x04AE; MkUnicase 0x04AE 0x04AF 0x04AE;
  MkUnicase 0x04B0 0x04B1 0x04B0; MkUnicase 0x04B0 0x04B1 0x04B0;
  MkUnicase 0x04B2 0x04B3 0x04B2; MkUnicase 0x04B2 0x04B3 0x04B2;
  MkUnicase 0x04B4 0x04B5 0x04B4; MkUnicase 0x04B4 0x04B5 0x04B4;
  MkUnicase 0x04B6 0x04B7 0x04B6; MkUnicase 0x04B6 0x04B7 0x04B6;
  MkUnicase 0x04B8 0x04B9 0x04B8; MkUnicase 0x04B8 0x04B9 0x04B8;
  MkUnicase 0x04BA 0x04BB 0x04BA; MkUnicase 0x04BA 0x04BB 0x04BA;
  MkUnicase 0x04BC 0x04BD 0x04BC; MkUnicase 0x04BC 0x04BD 0x04BC;
  MkUnicase 0x04BE 0x04BF 0x04BE; MkUnicase 0x04BE 0x04BF 0x04BE;
  MkUnicase 0x04C0 0x04C0 0x04C0; MkUnicase 0x04C1 0x04C2 0x0416;
  MkUnicase 0x04C1 0x04C2 0x0416; MkUnicase 0x04C3 0x04C4 0x04C3;
  MkUnicase 0x04C3 0x04C4 0x04C3; MkUnicase 0x04C5 0x04C5 0x04C5;
  MkUnicase 0x04C6 0x04C6 0x04C6; MkUnicase 0x04C7 0x04C8 0x04C7;
  MkUnicase 0x04C7 0x04C8 0x04C7; MkUnicase 0x04C9 0x04C9 0x04C9;
  MkUnicase 0x04CA 0x04CA 0x04CA; MkUnicase 0x04CB 0x04CC 0x04CB;
  MkUnicase 0x04CB 0x04CC 0x04CB; MkUnicase 0x04CD 0x04CD 0x04CD;
  MkUnicase 0x04CE 0x04CE 0x04CE; MkUnicase 0x04CF 0x04CF 0x04CF;
  MkUnicase 0x04D0 0x04D1 0x0410; MkUnicase 0x04D0 0x04D1 0x0410;
  MkUnicase 0x04D2 0x04D3 0x0410; MkUnicase 0x04D2 0x04D3 0x0410;
  MkUnicase 0x04D4 0x04D5 0x04D4; MkUnicase 0x04D4 0x04D5 0x04D4;
  MkUnicase 0x04D6 0x04D7 0x0415; MkUnicase 0x04D6 0x04D7 0x0415;
  MkUnicase 0x04D8 0x04D9 0x04D8; MkUnicase 0x04D8 0x04D9 0x04D8;
  MkUnicase 0x04DA 0x04DB 0x04D8; MkUnicase 0x04DA 0x04DB 0x04D8;
  MkUnicase 0x04DC 0x04DD 0x0416; MkUnicase 0x04DC 0x04DD 0x0416;
  MkUnicase 0x04DE 0x04DF 0x0417; MkUnicase 0x04DE 0x04DF 0x0417;
  MkUnicase 0x04E0 0x04E1 0x04E0; MkUnicase 0x04E0 0x04E1 0x04E0;
  MkUnicase 0x04E2 0x04E3 0x0418; MkUnicase 0x04E2 0x04E3 0x0418;
  MkUnicase 0x04E4 0x04E5 0x0418; MkUnicase 0x04E4 0x04E5 0x0418;
  MkUnicase 0x04E6 0x04E7 0x041E; MkUnicase 0x04E6 0x04E7 0x041E;
  MkUnicase 0x04E8 0x04E9 0x04E8; MkUnicase 0x04E8 0x04E9 0x04E8;
  MkUnicase 0x04EA 0x04EB 0x04E8; MkUnicase 0x04EA 0x04EB 0x04E8;
  MkUnicase 0x04EC 0x04ED 0x042D; MkUnicase 0x04EC 0x04ED 0x042D;
  MkUnicase 0x04EE 0x04EF 0x0423; MkUnicase 0x04EE 0x04EF 0x0423;
  MkUnicase 0x04F0 0x04F1 0x0423; MkUnicase 0x04F0 0x04F1 0x0423;
  MkUnicase 0x04F2 0x04F3 0x0423; MkUnicase 0x04F2 0x04F3 0x0423;
  MkUnicase 0x04F4 0x04F5 0x0427; MkUnicase 0x04F4 0x04F5 0x0427;
  MkUnicase 0x04F6 0x04F6 0x04F6; MkUnicase 0x04F7 0x04F7 0x04F7;
  MkUnicase 0x04F8 0x04F9 0x042B; MkUnicase 0x04F8 0x04F9 0x042B;
  MkUnicase 0x04FA 0x04FA 0x04FA; MkUnicase 0x04FB 0x04FB 0x04FB;
  MkUnicase 0x04FC 0x04FC 0x04FC; MkUnicase 0x04FD 0x04FD 0x04FD;
  MkUnicase 0x04FE 0x04FE 0x04FE; MkUnicase 0x04FF 0x04FF 0x04FF].

Definition plane05 : list unicase := [
  MkUnicase 0x0500 0x0500 0x0500; MkUnicase 0x0501 0x0501 0x0501;
  MkUnicase 0x0502 0x0502 0x0502; MkUnicase 0x0503 0x0503 0x0503;
  MkUnicase 0x0504 0x0504 0x0504; MkUnicase 0x0505 0x0505 0x0505;
  MkUnicase 0x0506 0x0506 0x0506; MkUnicase 0x0507 0x0507 0x0507;
  MkUnicase 0x0508 0x0508 0x0508; MkUnicase 0x0509 0x0509 0x0509;
  MkUnicase 0x050A 0x050A 0x050A; MkUnicase 0x050B 0x050B 0x050B;
  MkUnicase 0x050C 0x050C 0x050C; MkUnicase 0x050D 0x050D 0x050D;
  MkUnicase 0x050E 0x050E 0x050E; MkUnicase 0x050F 0x050F 0x050F;
  MkUnicase 0x0510 0x0510 0x0510; MkUnicase 0x0511 0x0511 0x0511;
  MkUnicase 0x0512 0x0512 0x0512; MkUnicase 0x0513 0x0513 0x0513;
  MkUnicase 0x0514 0x0514 0x0514; MkUnicase 0x0515 0x0515 0x0515;
  MkUnicase 0x0516 0x0516 0x0516; MkUnicase 0x0517 0x0517 0x0517;
  MkUnicase 0x0518 0x0518 0x0518; MkUnicase 0x0519 0x0519 0x0519;
  MkUnicase 0x051A 0x051A 0x051A; MkUnicase 0x051B 0x051B 0x051B;
  MkUnicase 0x051C 0x051C 0x051C; MkUnicase 0x051D 0x051D 0x051D;
  MkUnicase 0x051E 0x051E 0x051E; MkUnicase 0x051F 0x051F 0x051F;
  MkUnicase 0x0520 0x0520 0x0520; MkUnicase 0x0521 0x0521 0x0521;
  MkUnicase 0x0522 0x0522 0x0522; MkUnicase 0x0523 0x0523 0x0523;
  MkUnicase 0x0524 0x0524 0x0524; MkUnicase 0x0525 0x0525 0x0525;
  MkUnicase 0x0526 0x0526 0x0526; MkUnicase 0x0527 0x0527 0x0527;
  MkUnicase 0x0528 0x0528 0x0528; MkUnicase 0x0529 0x0529 0x0529;
  MkUnicase 0x052A 0x052A 0x052A; MkUnicase 0x052B 0x052B 0x052B;
  MkUnicase 0x052C 0x052C 0x052C; MkUnicase 0x052D 0x052D 0x052D;
  MkUnicase 0x052E 0x052E 0x052E; MkUnicase 0x052F 0x052F 0x052F;
  MkUnicase 0x0530 0x0530 0x0530; MkUnicase 0x0531 0x0561 0x0531;
  MkUnicase 0x0532 0x0562 0x0532; MkUnicase 0x0533 0x0563 0x0533;
  MkUnicase 0x0534 0x0564 0x0534; MkUnicase 0x0535 0x0565 0x0535;
  MkUnicase 0x0536 0x0566 0x0536; MkUnicase 0x0537 0x0567 0x0537;
  MkUnicase 0x0538 0x0568 0x0538; MkUnicase 0x0539 0x0569 0x0539;
  MkUnicase 0x053A 0x056A 0x053A; MkUnicase 0x053B 0x056B 0x053B;
  MkUnicase 0x053C 0x056C 0x053C; MkUnicase 0x053D 0x056D 0x053D;
  MkUnicase 0x053E 0x056E 0x053E; MkUnicase 0x053F 0x056F 0x053F;
  MkUnicase 0x0540 0x0570 0x0540; MkUnicase 0x0541 0x0571 0x0541;
  MkUnicase 0x0542 0x0572 0x0542; MkUnicase 0x0543 0x0573 0x0543;
  MkUnicase 0x0544 0x0574 0x0544; MkUnicase 0x0545 0x0575 0x0545;
  MkUnicase 0x0546 0x0576 0x0546; MkUnicase 0x0547 0x0577 0x0547;
  MkUnicase 0x0548 0x0578 0x0548; MkUnicase 0x0549 0x0579 0x0549;
  MkUnicase 0x054A 0x057A 0x054A; MkUnicase 0x054B 0x057B 0x054B;
  MkUnicase 0x054C 0x057C 0x054C; MkUnicase 0x054D 0x057D 0x054D;
  MkUnicase 0x054E 0x057E 0x054E; MkUnicase 0x054F 0x057F 0x054F;
  MkUnicase 0x0550 0x0580 0x0550; MkUnicase 0x0551 0x0581 0x0551;
  MkUnicase 0x0552 0x0582 0x0552; MkUnicase 0x0553 0x0583 0x0553;
  MkUnicase 0x0554 0x0584 0x0554; MkUnicase 0x0555 0x0585 0x0555;
  MkUnicase 0x0556 0x0586 0x0556; MkUnicase 0x0557 0x0557 0x0557;
  MkUnicase 0x0558 0x0558 0x0558; MkUnicase 0x0559 0x0559 0x0559;
  MkUnicase 0x055A 0x055A 0x055A; MkUnicase 0x055B 0x055B 0x055B;
  MkUnicase 0x055C 0x055C 0x055C; MkUnicase 0x055D 0x055D 0x055D;
  MkUnicase 0x055E 0x055E 0x055E; MkUnicase 0x055F 0x055F 0x055F;
  MkUnicase 0x0560 0x0560 0x0560; MkUnicase 0x0531 0x0561 0x0531;
  MkUnicase 0x0532 0x0562 0x0532; MkUnicase 0x0533 0x0563 0x0533;
  MkUnicase 0x0534 0x0564 0x0534; MkUnicase 0x0535 0x0565 0x0535;
  MkUnicase 0x0536 0x0566 0x0536; MkUnicase 0x0537 0x0567 0x0537;
  MkUnicase 0x0538 0x0568 0x0538; MkUnicase 0x0539 0x0569 0x0539;
  MkUnicase 0x053A 0x056A 0x053A; MkUnicase 0x053B 0x056B 0x053B;
  MkUnicase 0x053C 0x056C 0x053C; MkUnicase 0x053D 0x056D 0x053D;
  MkUnicase 0x053E 0x056E 0x053E; MkUnicase 0x053F 0x056F 0x053F;
  MkUnicase 0x0540 0x0570 0x0540; MkUnicase 0x0541 0x0571 0x0541;
  MkUnicase 0x0542 0x0572 0x0542; MkUnicase 0x0543 0x0573 0x0543;
  MkUnicase 0x0544 0x0574 0x0544; MkUnicase 0x0545 0x0575 0x0545;
  MkUnicase 0x0546 0x0576 0x0546; MkUnicase 0x0547 0x0577 0x0547;
  MkUnicase 0x0548 0x0578 0x0548; MkUnicase 0x0549 0x0579 0x0549;
  MkUnicase 0x054A 0x057A 0x054A; MkUnicase 0x054B 0x057B 0x054B;
  MkUnicase 0x054C 0x057C 0x054C; MkUnicase 0x054D 0x057D 0x054D;
  MkUnicase 0x054E 0x057E 0x054E; MkUnicase 0x054F 0x057F 0x054F;
  MkUnicase 0x0550 0x0580 0x0550; MkUnicase 0x0551 0x0581 0x0551;
  MkUnicase 0x0552 0x0582 0x0552; MkUnicase 0x0553 0x0583 0x0553;
  MkUnicase 0x0554 0x0584 0x0554; MkUnicase 0x0555 0x0585 0x0555;
  MkUnicase 0x0556 0x0586 0x0556; MkUnicase 0x0587 0x0587 0x0587;
  MkUnicase 0x0588 0x0588 0x0588; MkUnicase 0x0589 0x0589 0x0589;
  MkUnicase 0x058A 0x058A 0x058A; MkUnicase 0x058B 0x058B 0x058B;
  MkUnicase 0x058C 0x058C 0x058C; MkUnicase 0x058D 0x058D 0x058D;
  MkUnicase 0x058E 0x058E 0x058E; MkUnicase 0x058F 0x058F 0x058F;
  MkUnicase 0x0590 0x0590 0x0590; MkUnicase 0x0591 0x0591 0x0591;
  MkUnicase 0x0592 0x0592 0x0592; MkUnicase 0x0593 0x0593 0x0593;
  MkUnicase 0x0594 0x0594 0x0594; MkUnicase 0x0595 0x0595 0x0595;
  MkUnicase 0x0596 0x0596 0x0596; MkUnicase 0x0597 0x0597 0x0597;
  MkUnicase 0x0598 0x0598 0x0598; MkUnicase 0x0599 0x0599 0x0599;
  MkUnicase 0x059A 0x059A 0x059A; MkUnicase 0x059B 0x059B 0x059B;
  MkUnicase 0x059C 0x059C 0x059C; MkUnicase 0x059D 0x059D 0x059D;
  MkUnicase 0x059E 0x059E 0x059E; MkUnicase 0x059F 0x059F 0x059F;
  MkUnicase 0x05A0 0x05A0 0x05A0; MkUnicase 0x05A1 0x05A1 0x05A1;
  MkUnicase 0x05A2 0x05A2 0x05A2; MkUnicase 0x05A3 0x05A3 0x05A3;
  MkUnicase 0x05A4 0x05A4 0x05A4; MkUnicase 0x05A5 0x05A5 0x05A5;
  MkUnicase 0x05A6 0x05A6 0x05A6; MkUnicase 0x05A7 0x05A7 0x05A7;
  MkUnicase 0x05A8 0x05A8 0x05A8; MkUnicase 0x05A9 0x05A9 0x05A9;
  MkUnicase 0x05AA 0x05AA 0x05AA; MkUnicase 0x05AB 0x05AB 0x05AB;
  MkUnicase 0x05AC 0x05AC 0x05AC; MkUnicase 0x05AD 0x05AD 0x05AD;
  MkUnicase 0x05AE 0x05AE 0x05AE; MkUnicase 0x05AF 0x05AF 0x05AF;
  MkUnicase 0x05B0 0x05B0 0x05B0; MkUnicase 0x05B1 0x05B1 0x05B1;
  MkUnicase 0x05B2 0x05B2 0x05B2; MkUnicase 0x05B3 0x05B3 0x05B3;
  MkUnicase 0x05B4 0x05B4 0x05B4; MkUnicase 0x05B5 0x05B5 0x05B5;
  MkUnicase 0x05B6 0x05B6 0x05B6; MkUnicase 0x05B7 0x05B7 0x05B7;
  MkUnicase 0x05B8 0x05B8 0x05B8; MkUnicase 0x05B9 0x05B9 0x05B9;
  MkUnicase 0x05BA 0x05BA 0x05BA; MkUnicase 0x05BB 0x05BB 0x05BB;
  MkUnicase 0x05BC 0x05BC 0x05BC; MkUnicase 0x05BD 0x05BD 0x05BD;
  MkUnicase 0x05BE 0x05BE 0x05BE; MkUnicase 0x05BF 0x05BF 0x05BF;
  MkUnicase 0x05C0 0x05C0 0x05C0; MkUnicase 0x05C1 0x05C1 0x05C1;
  MkUnicase 0x05C2 0x05C2 0x05C2; MkUnicase 0x05C3 0x05C3 0x05C3;
  MkUnicase 0x05C4 0x05C4 0x05C4; MkUnicase 0x05C5 0x05C5 0x05C5;
  MkUnicase 0x05C6 0x05C6 0x05C6; MkUnicase 0x05C7 0x05C7 0x05C7;
  MkUnicase 0x05C8 0x05C8 0x05C8; MkUnicase 0x05C9 0x05C9 0x05C9;
  MkUnicase 0x05CA 0x05CA 0x05CA; MkUnicase 0x05CB 0x05CB 0x05CB;
  MkUnicase 0x05CC 0x05CC 0x05CC; MkUnicase 0x05CD 0x05CD 0x05CD;
  MkUnicase 0x05CE 0x05CE 0x05CE; MkUnicase 0x05CF 0x05CF 0x05CF;
  MkUnicase 0x05D0 0x05D0 0x05D0; MkUnicase 0x05D1 0x05D1 0x05D1;
  MkUnicase 0x05D2 0x05D2 0x05D2; MkUnicase 0x05D3 0x05D3 0x05D3;
  MkUnicase 0x05D4 0x05D4 0x05D4; MkUnicase 0x05D5 0x05D5 0x05D5;
  MkUnicase 0x05D6 0x05D6 0x05D6; MkUnicase 0x05D7 0x05D7 0x05D7;
  MkUnicase 0x05D8 0x05D8 0x05D8; MkUnicase 0x05D9 0x05D9 0x05D9;
  MkUnicase 0x05DA 0x05DA 0x05DA; MkUnicase 0x05DB 0x05DB 0x05DB;
  MkUnicase 0x05DC 0x05DC 0x05DC; MkUnicase 0x05DD 0x05DD 0x05DD;
  MkUnicase 0x05DE 0x05DE 0x05DE; MkUnicase 0x05DF 0x05DF 0x05DF;
  MkUnicase 0x05E0 0x05E0 0x05E0; MkUnicase 0x05E1 0x05E1 0x05E1;
  MkUnicase 0x05E2 0x05E2 0x05E2; MkUnicase 0x05E3 0x05E3 0x05E3;
  MkUnicase 0x05E4 0x05E4 0x05E4; MkUnicase 0x05E5 0x05E5 0x05E5;
  MkUnicase 0x05E6 0x05E6 0x05E6; MkUnicase 0x05E7 0x05E7 0x05E7;
  MkUnicase 0x05E8 0x05E8 0x05E8; MkUnicase 0x05E9 0x05E9 0x05E9;
  MkUnicase 0x05EA 0x05EA 0x05EA; MkUnicase 0x05EB 0x05EB 0x05EB;
  MkUnicase 0x05EC 0x05EC 0x05EC; MkUnicase 0x05ED 0x05ED 0x05ED;
  MkUnicase 0x05EE 0x05EE 0x05EE; MkUnicase 0x05EF 0x05EF 0x05EF;
  MkUnicase 0x05F0 0x05F0 0x05F0; MkUnicase 0x05F1 0x05F1 0x05F1;
  MkUnicase 0x05F2 0x05F2 0x05F2; MkUnicase 0x05F3 0x05F3 0x05F3;
  MkUnicase 0x05F4 0x05F4 0x05F4; MkUnicase 0x05F5 0x05F5 0x05F5;
  MkUnicase 0x05F6 0x05F6 0x05F6; MkUnicase 0x05F7 0x05F7 0x05F7;
  MkUnicase 0x05F8 0x05F8 0x05F8; MkUnicase 0x05F9 0x05F9 0x05F9;
  MkUnicase 0x05FA 0x05FA 0x05FA; MkUnicase 0x05FB 0x05FB 0x05FB;
  MkUnicase 0x05FC 0x05FC 0x05FC; MkUnicase 0x05FD 0x05FD 0x05FD;
  MkUnicase 0x05FE 0x05FE 0x05FE; MkUnicase 0x05FF 0x05FF 0x05FF].

Definition plane1E : list unicase := [
  MkUnicase 0x1E00 0x1E01 0x0041; MkUnicase 0x1E00 0x1E01 0x0041;
  MkUnicase 0x1E02 0x1E03 0x0042; MkUnicase 0x1E02 0x1E03 0x0042;
  MkUnicase 0x1E04 0x1E05 0x0042; MkUnicase 0x1E04 0x1E05 0x0042;
  MkUnicase 0x1E06 0x1E07 0x0042; MkUnicase 0x1E06 0x1E07 0x0042;
  MkUnicase 0x1E08 0x1E09 0x0043; MkUnicase 0x1E08 0x1E09 0x0043;
  MkUnicase 0x1E0A 0x1E0B 0x0044; MkUnicase 0x1E0A 0x1E0B 0x0044;
  MkUnicase 0x1E0C 0x1E0D 0x0044; MkUnicase 0x1E0C 0x1E0D 0x0044;
  MkUnicase 0x1E0E 0x1E0F 0x0044; MkUnicase 0x1E0E 0x1E0F 0x0044;
  MkUnicase 0x1E10 0x1E11 0x0044; MkUnicase 0x1E10 0x1E11 0x0044;
  MkUnicase 0x1E12 0x1E13 0x0044; MkUnicase 0x1E12 0x1E13 0x0044;
  MkUnicase 0x1E14 0x1E15 0x0045; MkUnicase 0x1E14 0x1E15 0x0045;
  MkUnicase 0x1E16 0x1E17 0x0045; MkUnicase 0x1E16 0x1E17 0x0045;
  MkUnicase 0x1E18 0x1E19 0x0045; MkUnicase 0x1E18 0x1E19 0x0045;
  MkUnicase 0x1E1A 0x1E1B 0x0045; MkUnicase 0x1E1A 0x1E1B 0x0045;
  MkUnicase 0x1E1C 0x1E1D 0x0045; MkUnicase 0x1E1C 0x1E1D 0x0045;
  MkUnicase 0x1E1E 0x1E1F 0x0046; MkUnicase 0x1E1E 0x1E1F 0x0046;
  MkUnicase 0x1E20 0x1E21 0x0047; MkUnicase 0x1E20 0x1E21 0x0047;
  MkUnicase 0x1E22 0x1E23 0x0048; MkUnicase 0x1E22 0x1E23 0x0048;
  MkUnicase 0x1E24 0x1E25 0x0048; MkUnicase 0x1E24 0x1E25 0x0048;
  MkUnicase 0x1E26 0x1E27 0x0048; MkUnicase 0x1E26 0x1E27 0x0048;
  MkUnicase 0x1E28 0x1E29 0x0048; MkUnicase 0x1E28 0x1E29 0x0048;
  MkUnicase 0x1E2A 0x1E2B 0x0048; MkUnicase 0x1E2A 0x1E2B 0x0048;
  MkUnicase 0x1E2C 0x1E2D 0x0049; MkUnicase 0x1E2C 0x1E2D 0x0049;
  MkUnicase 0x1E2E 0x1E2F 0x0049; MkUnicase 0x1E2E 0x1E2F 0x0049;
  MkUnicase 0x1E30 0x1E31 0x004B; MkUnicase 0x1E30 0x1E31 0x004B;
  MkUnicase 0x1E32 0x1E33 0x004B; MkUnicase 0x1E32 0x1E33 0x004B;
  MkUnicase 0x1E34 0x1E35 0x004B; MkUnicase 0x1E34 0x1E35 0x004B;
  MkUnicase 0x1E36 0x1E37 0x004C; MkUnicase 0x1E36 0x1E37 0x004C;
  MkUnicase 0x1E38 0x1E39 0x004C; MkUnicase 0x1E38 0x1E39 0x004C;
  MkUnicase 0x1E3A 0x1E3B 0x004C; MkUnicase 0x1E3A 0x1E3B 0x004C;
  MkUnicase 0x1E3C 0x1E3D 0x004C; MkUnicase 0x1E3C 0x1E3D 0x004C;
  MkUnicase 0x1E3E 0x1E3F 0x004D; MkUnicase 0x1E3E 0x1E3F 0x004D;
  MkUnicase 0x1E40 0x1E41 0x004D; MkUnicase 0x1E40 0x1E41 0x004D;
  MkUnicase 0x1E42 0x1E43 0x004D; MkUnicase 0x1E42 0x1E43 0x004D;
  MkUnicase 0x1E44 0x1E45 0x004E; MkUnicase 0x1E44 0x1E45 0x004E;
  MkUnicase 0x1E46 0x1E47 0x004E; MkUnicase 0x1E46 0x1E47 0x004E;
  MkUnicase 0x1E48 0x1E49 0x004E; MkUnicase 0x1E48 0x1E49 0x004E;
  MkUnicase 0x1E4A 0x1E4B 0x004E; MkUnicase 0x1E4A 0x1E4B 0x004E;
  MkUnicase 0x1E4C 0x1E4D 0x004F; MkUnicase 0x1E4C 0x1E4D 0x004F;
  MkUnicase 0x1E4E 0x1E4F 0x004F; MkUnicase 0x1E4E 0x1E4F 0x004F;
  MkUnicase 0x1E50 0x1E51 0x004F; MkUnicase 0x1E50 0x1E51 0x004F;
  MkUnicase 0x1E52 0x1E53 0x004F; MkUnicase 0x1E52 0x1E53 0x004F;
  MkUnicase 0x1E54 0x1E55 0x0050; MkUnicase 0x1E54 0x1E55 0x0050;
  MkUnicase 0x1E56 0x1E57 0x0050; MkUnicase 0x1E56 0x1E57 0x0050;
  MkUnicase 0x1E58 0x1E59 0x0052; MkUnicase 0x1E58 0x1E59 0x0052;
  MkUnicase 0x1E5A 0x1E5B 0x0052; MkUnicase 0x1E5A 0x1E5B 0x0052;
  MkUnicase 0x1E5C 0x1E5D 0x0052; MkUnicase 0x1E5C 0x1E5D 0x0052;
  MkUnicase 0x1E5E 0x1E5F 0x0052; MkUnicase 0x1E5E 0x1E5F 0x0052;
  MkUnicase 0x1E60 0x1E61 0x0053; MkUnicase 0x1E60 0x1E61 0x0053;
  MkUnicase 0x1E62 0x1E63 0x0053; MkUnicase 0x1E62 0x1E63 0x0053;
  MkUnicase 0x1E64 0x1E65 0x0053; MkUnicase 0x1E64 0x1E65 0x0053;
  MkUnicase 0x1E66 0x1E67 0x0053; MkUnicase 0x1E66 0x1E67 0x0053;
  MkUnicase 0x1E68 0x1E69 0x0053; MkUnicase 0x1E68 0x1E69 0x0053;
  MkUnicase 0x1E6A 0x1E6B 0x0054; MkUnicase 0x1E6A 0x1E6B 0x0054;
  MkUnicase 0x1E6C 0x1E6D 0x0054; MkUnicase 0x1E6C 0x1E6D 0x0054;
  MkUnicase 0x1E6E 0x1E6F 0x0054; MkUnicase 0x1E6E 0x1E6F 0x0054;
  MkUnicase 0x1E70 0x1E71 0x0054; MkUnicase 0x1E70 0x1E71 0x0054;
  MkUnicase 0x1E72 0x1E73 0x0055; MkUnicase 0x1E72 0x1E73 0x0055;
  MkUnicase 0x1E74 0x1E75 0x0055; MkUnicase 0x1E74 0x1E75 0x0055;
  MkUnicase 0x1E76 0x1E77 0x0055; MkUnicase 0x1E76 0x1E77 0x0055;
  MkUnicase 0x1E78 0x1E79 0x0055; MkUnicase 0x1E78 0x1E79 0x0055;
  MkUnicase 0x1E7A 0x1E7B 0x0055; MkUnicase 0x1E7A 0x1E7B 0x0055;
  MkUnicase 0x1E7C 0x1E7D 0x0056; MkUnicase 0x1E7C 0x1E7D 0x0056;
  MkUnicase 0x1E7E 0x1E7F 0x0056; MkUnicase 0x1E7E 0x1E7F 0x0056;
  MkUnicase 0x1E80 0x1E81 0x0057; MkUnicase 0x1E80 0x1E81 0x0057;
  MkUnicase 0x1E82 0x1E83 0x0057; MkUnicase 0x1E82 0x1E83 0x0057;
  MkUnicase 0x1E84 0x1E85 0x0057; MkUnicase 0x1E84 0x1E85 0x0057;
  MkUnicase 0x1E86 0x1E87 0x0057; MkUnicase 0x1E86 0x1E87 0x0057;
  MkUnicase 0x1E88 0x1E89 0x0057; MkUnicase 0x1E88 0x1E89 0x0057;
  MkUnicase 0x1E8A 0x1E8B 0x0058; MkUnicase 0x1E8A 0x1E8B 0x0058;
  MkUnicase 0x1E8C 0x1E8D 0x0058; MkUnicase 0x1E8C 0x1E8D 0x0058;
  MkUnicase 0x1E8E 0x1E8F 0x0059; MkUnicase 0x1E8E 0x1E8F 0x0059;
  MkUnicase 0x1E90 0x1E91 0x005A; MkUnicase 0x1E90 0x1E91 0x005A;
  MkUnicase 0x1E92 0x1E93 0x005A; MkUnicase 0x1E92 0x1E93 0x005A;
  MkUnicase 0x1E94 0x1E95 0x005A; MkUnicase 0x1E94 0x1E95 0x005A;
  MkUnicase 0x1E96 0x1E96 0x0048; MkUnicase 0x1E97 0x1E97 0x0054;
  MkUnicase 0x1E98 0x1E98 0x0057; MkUnicase 0x1E99 0x1E99 0x0059;
  MkUnicase 0x1E9A 0x1E9A 0x1E9A; MkUnicase 0x1E60 0x1E9B 0x0053;
  MkUnicase 0x1E9C 0x1E9C 0x1E9C; MkUnicase 0x1E9D 0x1E9D 0x1E9D;
  MkUnicase 0x1E9E 0x1E9E 0x1E9E; MkUnicase 0x1E9F 0x1E9F 0x1E9F;
  MkUnicase 0x1EA0 0x1EA1 0x0041; MkUnicase 0x1EA0 0x1EA1 0x0041;
  MkUnicase 0x1EA2 0x1EA3 0x0041; MkUnicase 0x1EA2 0x1EA3 0x0041;
  MkUnicase 0x1EA4 0x1EA5 0x0041; MkUnicase 0x1EA4 0x1EA5 0x0041;
  MkUnicase 0x1EA6 0x1EA7 0x0041; MkUnicase 0x1EA6 0x1EA7 0x0041;
  MkUnicase 0x1EA8 0x1EA9 0x0041; MkUnicase 0x1EA8 0x1EA9 0x0041;
  MkUnicase 0x1EAA 0x1EAB 0x0041; MkUnicase 0x1EAA 0x1EAB 0x0041;
  MkUnicase 0x1EAC 0x1EAD 0x0041; MkUnicase 0x1EAC 0x1EAD 0x0041;
  MkUnicase 0x1EAE 0x1EAF 0x0041; MkUnicase 0x1EAE 0x1EAF 0x0041;
  MkUnicase 0x1EB0 0x1EB1 0x0041; MkUnicase 0x1EB0 0x1EB1 0x0041;
  MkUnicase 0x1EB2 0x1EB3 0x0041; MkUnicase 0x1EB2 0x1EB3 0x0041;
  MkUnicase 0x1EB4 0x1EB5 0x0041; MkUnicase 0x1EB4 0x1EB5 0x0041;
  MkUnicase 0x1EB6 0x1EB7 0x0041; MkUnicase 0x1EB6 0x1EB7 0x0041;
  MkUnicase 0x1EB8 0x1EB9 0x0045; MkUnicase 0x1EB8 0x1EB9 0x0045;
  MkUnicase 0x1EBA 0x1EBB 0x0045; MkUnicase 0x1EBA 0x1EBB 0x0045;
  MkUnicase 0x1EBC 0x1EBD 0x0045; MkUnicase 0x1EBC 0x1EBD 0x0045;
  MkUnicase 0x1EBE 0x1EBF 0x0045; MkUnicase 0x1EBE 0x1EBF 0x0045;
  MkUnicase 0x1EC0 0x1EC1 0x0045; MkUnicase 0x1EC0 0x1EC1 0x0045;
  MkUnicase 0x1EC2 0x1EC3 0x0045; MkUnicase 0x1EC2 0x1EC3 0x0045;
  MkUnicase 0x1EC4 0x1EC5 0x0045; MkUnicase 0x1EC4 0x1EC5 0x0045;
  MkUnicase 0x1EC6 0x1EC7 0x0045; MkUnicase 0x1EC6 0x1EC7 0x0045;
  MkUnicase 0x1EC8 0x1EC9 0x0049; MkUnicase 0x1EC8 0x1EC9 0x0049;
  MkUnicase 0x1ECA 0x1ECB 0x0049; MkUnicase 0x1ECA 0x1ECB 0x0049;
  MkUnicase 0x1ECC 0x1ECD 0x004F; MkUnicase 0x1ECC 0x1ECD 0x004F;
  MkUnicase 0x1ECE 0x1ECF 0x004F; MkUnicase 0x1ECE 0x1ECF 0x004F;
  MkUnicase 0x1ED0 0x1ED1 0x004F; MkUnicase 0x1ED0 0x1ED1 0x004F;
  MkUnicase 0x1ED2 0x1ED3 0x004F; MkUnicase 0x1ED2 0x1ED3 0x004F;
  MkUnicase 0x1ED4 0x1ED5 0x004F; MkUnicase 0x1ED4 0x1ED5 0x004F;
  MkUnicase 0x1ED6 0x1ED7 0x004F; MkUnicase 0x1ED6 0x1ED7 0x004F;
  MkUnicase 0x1ED8 0x1ED9 0x004F; MkUnicase 0x1ED8 0x1ED9 0x004F;
  MkUnicase 0x1EDA 0x1EDB 0x004F; MkUnicase 0x1EDA 0x1EDB 0x004F;
  MkUnicase 0x1EDC 0x1EDD 0x004F; MkUnicase 0x1EDC 0x1EDD 0x004F;
  MkUnicase 0x1EDE 0x1EDF 0x004F; MkUnicase 0x1EDE 0x1EDF 0x004F;
  MkUnicase 0x1EE0 0x1EE1 0x004F; MkUnicase 0x1EE0 0x1EE1 0x004F;
  MkUnicase 0x1EE2 0x1EE3 0x004F; MkUnicase 0x1EE2 0x1EE3 0x004F;
  MkUnicase 0x1EE4 0x1EE5 0x0055; MkUnicase 0x1EE4 0x1EE5 0x0055;
  MkUnicase 0x1EE6 0x1EE7 0x0055; MkUnicase 0x1EE6 0x1EE7 0x0055;
  MkUnicase 0x1EE8 0x1EE9 0x0055; MkUnicase 0x1EE8 0x1EE9 0x0055;
  MkUnicase 0x1EEA 0x1EEB 0x0055; MkUnicase 0x1EEA 0x1EEB 0x0055;
  MkUnicase 0x1EEC 0x1EED 0x0055; MkUnicase 0x1EEC 0x1EED 0x0055;
  MkUnicase 0x1EEE 0x1EEF 0x0055; MkUnicase 0x1EEE 0x1EEF 0x0055;
  MkUnicase 0x1EF0 0x1EF1 0x0055; MkUnicase 0x1EF0 0x1EF1 0x0055;
  MkUnicase 0x1EF2 0x1EF3 0x0059; MkUnicase 0x1EF2 0x1EF3 0x0059;
  MkUnicase 0x1EF4 0x1EF5 0x0059; MkUnicase 0x1EF4 0x1EF5 0x0059;
  MkUnicase 0x1EF6 0x1EF7 0x0059; MkUnicase 0x1EF6 0x1EF7 0x0059;
  MkUnicase 0x1EF8 0x1EF9 0x0059; MkUnicase 0x1EF8 0x1EF9 0x0059;
  MkUnicase 0x1EFA 0x1EFA 0x1EFA; MkUnicase 0x1EFB 0x1EFB 0x1EFB;
  MkUnicase 0x1EFC 0x1EFC 0x1EFC; MkUnicase 0x1EFD 0x1EFD 0x1EFD;
  MkUnicase 0x1EFE 0x1EFE 0x1EFE; MkUnicase 0x1EFF 0x1EFF 0x1EFF].

Definition plane1F : list unicase := [
  MkUnicase 0x1F08 0x1F00 0x0391; MkUnicase 0x1F09 0x1F01 0x0391;
  MkUnicase 0x1F0A 0x1F02 0x0391; MkUnicase 0x1F0B 0x1F03 0x0391;
  MkUnicase 0x1F0C 0x1F04 0x0391; MkUnicase 0x1F0D 0x1F05 0x0391;
  MkUnicase 0x1F0E 0x1F06 0x0391; MkUnicase 0x1F0F 0x1F07 0x0391;
  MkUnicase 0x1F08 0x1F00 0x0391; MkUnicase 0x1F09 0x1F01 0x0391;
  MkUnicase 0x1F0A 0x1F02 0x0391; MkUnicase 0x1F0B 0x1F03 0x0391;
  MkUnicase 0x1F0C 0x1F04 0x0391; MkUnicase 0x1F0D 0x1F05 0x0391;
  MkUnicase 0x1F0E 0x1F06 0x0391; MkUnicase 0x1F0F 0x1F07 0x0391;
  MkUnicase 0x1F18 0x1F10 0x0395; MkUnicase 0x1F19 0x1F11 0x0395;
  MkUnicase 0x1F1A 0x1F12 0x0395; MkUnicase 0x1F1B 0x1F13 0x0395;
  MkUnicase 0x1F1C 0x1F14 0x0395; MkUnicase 0x1F1D 0x1F15 0x0395;
  MkUnicase 0x1F16 0x1F16 0x1F16; MkUnicase 0x1F17 0x1F17 0x1F17;
  MkUnicase 0x1F18 0x1F10 0x0395; MkUnicase 0x1F19 0x1F11 0x0395;
  MkUnicase 0x1F1A 0x1F12 0x0395; MkUnicase 0x1F1B 0x1F13 0x0395;
  MkUnicase 0x1F1C 0x1F14 0x0395; MkUnicase 0x1F1D 0x1F15 0x0395;
  MkUnicase 0x1F1E 0x1F1E 0x1F1E; MkUnicase 0x1F1F 0x1F1F 0x1F1F;
  MkUnicase 0x1F28 0x1F20 0x0397; MkUnicase 0x1F29 0x1F21 0x0397;
  MkUnicase 0x1F2A 0x1F22 0x0397; MkUnicase 0x1F2B 0x1F23 0x0397;
  MkUnicase 0x1F2C 0x1F24 0x0397; MkUnicase 0x1F2D 0x1F25 0x0397;
  MkUnicase 0x1F2E 0x1F26 0x0397; MkUnicase 0x1F2F 0x1F27 0x0397;
  MkUnicase 0x1F28 0x1F20 0x0397; MkUnicase 0x1F29 0x1F21 0x0397;
  MkUnicase 0x1F2A 0x1F22 0x0397; MkUnicase 0x1F2B 0x1F23 0x0397;
  MkUnicase 0x1F2C 0x1F24 0x0397; MkUnicase 0x1F2D 0x1F25 0x0397;
  MkUnicase 0x1F2E 0x1F26 0x0397; MkUnicase 0x1F2F 0x1F27 0x0397;
  MkUnicase 0x1F38 0x1F30 0x0399; MkUnicase 0x1F39 0x1F31 0x0399;
  MkUnicase 0x1F3A 0x1F32 0x0399; MkUnicase 0x1F3B 0x1F33 0x0399;
  MkUnicase 0x1F3C 0x1F34 0x0399; MkUnicase 0x1F3D 0x1F35 0x0399;
  MkUnicase 0x1F3E 0x1F36 0x0399; MkUnicase 0x1F3F 0x1F37 0x0399;
  MkUnicase 0x1F38 0x1F30 0x0399; MkUnicase 0x1F39 0x1F31 0x0399;
  MkUnicase 0x1F3A 0x1F32 0x0399; MkUnicase 0x1F3B 0x1F33 0x0399;
  MkUnicase 0x1F3C 0x1F34 0x0399; MkUnicase 0x1F3D 0x1F35 0x0399;
  MkUnicase 0x1F3E 0x1F36 0x0399; MkUnicase 0x1F3F 0x1F37 0x0399;
  MkUnicase 0x1F48 0x1F40 0x039F; MkUnicase 0x1F49 0x1F41 0x039F;
  MkUnicase 0x1F4A 0x1F42 0x039F; MkUnicase 0x1F4B 0x1F43 0x039F;
  MkUnicase 0x1F4C 0x1F44 0x039F; MkUnicase 0x1F4D 0x1F45 0x039F;
  MkUnicase 0x1F46 0x1F46 0x1F46; MkUnicase 0x1F47 0x1F47 0x1F47;
  MkUnicase 0x1F48 0x1F40 0x039F; MkUnicase 0x1F49 0x1F41 0x039F;
  MkUnicase 0x1F4A 0x1F42 0x039F; MkUnicase 0x1F4B 0x1F43 0x039F;
  MkUnicase 0x1F4C 0x1F44 0x039F; MkUnicase 0x1F4D 0x1F45 0x039F;
  MkUnicase 0x1F4E 0x1F4E 0x1F4E; MkUnicase 0x1F4F 0x1F4F 0x1F4F;
  MkUnicase 0x1F50 0x1F50 0x03A5; MkUnicase 0x1F59 0x1F51 0x03A5;
  MkUnicase 0x1F52 0x1F52 0x03A5; MkUnicase 0x1F5B 0x1F53 0x03A5;
  MkUnicase 0x1F54 0x1F54 0x03A5; MkUnicase 0x1F5D 0x1F55 0x03A5;
  MkUnicase 0x1F56 0x1F56 0x03A5; MkUnicase 0x1F5F 0x1F57 0x03A5;
  MkUnicase 0x1F58 0x1F58 0x1F58; MkUnicase 0x1F59 0x1F51 0x03A5;
  MkUnicase 0x1F5A 0x1F5A 0x1F5A; MkUnicase 0x1F5B 0x1F53 0x03A5;
  MkUnicase 0x1F5C 0x1F5C 0x1F5C; MkUnicase 0x1F5D 0x1F55 0x03A5;
  MkUnicase 0x1F5E 0x1F5E 0x1F5E; MkUnicase 0x1F5F 0x1F57 0x03A5;
  MkUnicase 0x1F68 0x1F60 0x03A9; MkUnicase 0x1F69 0x1F61 0x03A9;
  MkUnicase 0x1F6A 0x1F62 0x03A9; MkUnicase 0x1F6B 0x1F63 0x03A9;
  MkUnicase 0x1F6C 0x1F64 0x03A9; MkUnicase 0x1F6D 0x1F65 0x03A9;
  MkUnicase 0x1F6E 0x1F66 0x03A9; MkUnicase 0x1F6F 0x1F67 0x03A9;
  MkUnicase 0x1F68 0x1F60 0x03A9; MkUnicase 0x1F69 0x1F61 0x03A9;
  MkUnicase 0x1F6A 0x1F62 0x03A9; MkUnicase 0x1F6B 0x1F63 0x03A9;
  MkUnicase 0x1F6C 0x1F64 0x03A9; MkUnicase 0x1F6D 0x1F65 0x03A9;
  MkUnicase 0x1F6E 0x1F66 0x03A9; MkUnicase 0x1F6F 0x1F67 0x03A9;
  MkUnicase 0x1FBA 0x1F70 0x0391; MkUnicase 0x1FBB 0x1F71 0x1FBB;
  MkUnicase 0x1FC8 0x1F72 0x0395; MkUnicase 0x1FC9 0x1F73 0x1FC9;
  MkUnicase 0x1FCA 0x1F74 0x0397; MkUnicase 0x1FCB 0x1F75 0x1FCB;
  MkUnicase 0x1FDA 0x1F76 0x0399; MkUnicase 0x1FDB 0x1F77 0x1FDB;
  MkUnicase 0x1FF8 0x1F78 0x039F; MkUnicase 0x1FF9 0x1F79 0x1FF9;
  MkUnicase 0x1FEA 0x1F7A 0x03A5; MkUnicase 0x1FEB 0x1F7B 0x1FEB;
  MkUnicase 0x1FFA 0x1F7C 0x03A9; MkUnicase 0x1FFB 0x1F7D 0x1FFB;
  MkUnicase 0x1F7E 0x1F7E 0x1F7E; MkUnicase 0x1F7F 0x1F7F 0x1F7F;
  MkUnicase 0x1F88 0x1F80 0x0391; MkUnicase 0x1F89 0x1F81 0x0391;
  MkUnicase 0x1F8A 0x1F82 0x0391; MkUnicase 0x1F8B 0x1F83 0x0391;
  MkUnicase 0x1F8C 0x1F84 0x0391; MkUnicase 0x1F8D 0x1F85 0x0391;
  MkUnicase 0x1F8E 0x1F86 0x0391; MkUnicase 0x1F8F 0x1F87 0x0391;
  MkUnicase 0x1F88 0x1F80 0x0391; MkUnicase 0x1F89 0x1F81 0x0391;
  MkUnicase 0x1F8A 0x1F82 0x0391; MkUnicase 0x1F8B 0x1F83 0x0391;
  MkUnicase 0x1F8C 0x1F84 0x0391; MkUnicase 0x1F8D 0x1F85 0x0391;
  MkUnicase 0x1F8E 0x1F86 0x0391; MkUnicase 0x1F8F 0x1F87 0x0391;
  MkUnicase 0x1F98 0x1F90 0x0397; MkUnicase 0x1F99 0x1F91 0x0397;
  MkUnicase 0x1F9A 0x1F92 0x0397; MkUnicase 0x1F9B 0x1F93 0x0397;
  MkUnicase 0x1F9C 0x1F94 0x0397; MkUnicase 0x1F9D 0x1F95 0x0397;
  MkUnicase 0x1F9E 0x1F96 0x0397; MkUnicase 0x1F9F 0x1F97 0x0397;
  MkUnicase 0x1F98 0x1F90 0x0397; MkUnicase 0x1F99 0x1F91 0x0397;
  MkUnicase 0x1F9A 0x1F92 0x0397; MkUnicase 0x1F9B 0x1F93 0x0397;
  MkUnicase 0x1F9C 0x1F94 0x0397; MkUnicase 0x1F9D 0x1F95 0x0397;
  MkUnicase 0x1F9E 0x1F96 0x0397; MkUnicase 0x1F9F 0x1F97 0x0397;
  MkUnicase 0x1FA8 0x1FA0 0x03A9; MkUnicase 0x1FA9 0x1FA1 0x03A9;
  MkUnicase 0x1FAA 0x1FA2 0x03A9; MkUnicase 0x1FAB 0x1FA3 0x03A9;
  MkUnicase 0x1FAC 0x1FA4 0x03A9; MkUnicase 0x1FAD 0x1FA5 0x03A9;
  MkUnicase 0x1FAE 0x1FA6 0x03A9; MkUnicase 0x1FAF 0x1FA7 0x03A9;
  MkUnicase 0x1FA8 0x1FA0 0x03A9; MkUnicase 0x1FA9 0x1FA1 0x03A9;
  MkUnicase 0x1FAA 0x1FA2 0x03A9; MkUnicase 0x1FAB 0x1FA3 0x03A9;
  MkUnicase 0x1FAC 0x1FA4 0x03A9; MkUnicase 0x1FAD 0x1FA5 0x03A9;
  MkUnicase 0x1FAE 0x1FA6 0x03A9; MkUnicase 0x1FAF 0x1FA7 0x03A9;
  MkUnicase 0x1FB8 0x1FB0 0x0391; MkUnicase 0x1FB9 0x1FB1 0x0391;
  MkUnicase 0x1FB2 0x1FB2 0x0391; MkUnicase 0x1FBC 0x1FB3 0x0391;
  MkUnicase 0x1FB4 0x1FB4 0x0391; MkUnicase 0x1FB5 0x1FB5 0x1FB5;
  MkUnicase 0x1FB6 0x1FB6 0x0391; MkUnicase 0x1FB7 0x1FB7 0x0391;
  MkUnicase 0x1FB8 0x1FB0 0x0391; MkUnicase 0x1FB9 0x1FB1 0x0391;
  MkUnicase 0x1FBA 0x1F70 0x0391; MkUnicase 0x1FBB 0x1F71 0x1FBB;
  MkUnicase 0x1FBC 0x1FB3 0x0391; MkUnicase 0x1FBD 0x1FBD 0x1FBD;
  MkUnicase 0x0399 0x1FBE 0x0399; MkUnicase 0x1FBF 0x1FBF 0x1FBF;
  MkUnicase 0x1FC0 0x1FC0 0x1FC0; MkUnicase 0x1FC1 0x1FC1 0x1FC1;
  MkUnicase 0x1FC2 0x1FC2 0x0397; MkUnicase 0x1FCC 0x1FC3 0x0397;
  MkUnicase 0x1FC4 0x1FC4 0x0397; MkUnicase 0x1FC5 0x1FC5 0x1FC5;
  MkUnicase 0x1FC6 0x1FC6 0x0397; MkUnicase 0x1FC7 0x1FC7 0x0397;
  MkUnicase 0x1FC8 0x1F72 0x0395; MkUnicase 0x1FC9 0x1F73 0x1FC9;
  MkUnicase 0x1FCA 0x1F74 0x0397; MkUnicase 0x1FCB 0x1F75 0x1FCB;
  MkUnicase 0x1FCC 0x1FC3 0x0397; MkUnicase 0x1FCD 0x1FCD 0x1FCD;
  MkUnicase 0x1FCE 0x1FCE 0x1FCE; MkUnicase 0x1FCF 0x1FCF 0x1FCF;
  MkUnicase 0x1FD8 0x1FD0 0x0399; MkUnicase 0x1FD9 0x1FD1 0x0399;
  MkUnicase 0x1FD2 0x1FD2 0x0399; MkUnicase 0x1FD3 0x1FD3 0x1FD3;
  MkUnicase 0x1FD4 0x1FD4 0x1FD4; MkUnicase 0x1FD5 0x1FD5 0x1FD5;
  MkUnicase 0x1FD6 0x1FD6 0x0399; MkUnicase 0x1FD7 0x1FD7 0x0399;
  MkUnicase 0x1FD8 0x1FD0 0x0399; MkUnicase 0x1FD9 0x1FD1 0x0399;
  MkUnicase 0x1FDA 0x1F76 0x0399; MkUnicase 0x1FDB 0x1F77 0x1FDB;
  MkUnicase 0x1FDC 0x1FDC 0x1FDC; MkUnicase 0x1FDD 0x1FDD 0x1FDD;
  MkUnicase 0x1FDE 0x1FDE 0x1FDE; MkUnicase 0x1FDF 0x1FDF 0x1FDF;
  MkUnicase 0x1FE8 0x1FE0 0x03A5; MkUnicase 0x1FE9 0x1FE1 0x03A5;
  MkUnicase 0x1FE2 0x1FE2 0x03A5; MkUnicase 0x1FE3 0x1FE3 0x1FE3;
  MkUnicase 0x1FE4 0x1FE4 0x03A1; MkUnicase 0x1FEC 0x1FE5 0x03A1;
  MkUnicase 0x1FE6 0x1FE6 0x03A5; MkUnicase 0x1FE7 0x1FE7 0x03A5;
  MkUnicase 0x1FE8 0x1FE0 0x03A5; MkUnicase 0x1FE9 0x1FE1 0x03A5;
  MkUnicase 0x1FEA 0x1F7A 0x03A5; MkUnicase 0x1FEB 0x1F7B 0x1FEB;
  MkUnicase 0x1FEC 0x1FE5 0x03A1; MkUnicase 0x1FED 0x1FED 0x1FED;
  MkUnicase 0x1FEE 0x1FEE 0x1FEE; MkUnicase 0x1FEF 0x1FEF 0x1FEF;
  MkUnicase 0x1FF0 0x1FF0 0x1FF0; MkUnicase 0x1FF1 0x1FF1 0x1FF1;
  MkUnicase 0x1FF2 0x1FF2 0x03A9; MkUnicase 0x1FFC 0x1FF3 0x03A9;
  MkUnicase 0x1FF4 0x1FF4 0x03A9; MkUnicase 0x1FF5 0x1FF5 0x1FF5;
  MkUnicase 0x1FF6 0x1FF6 0x03A9; MkUnicase 0x1FF7 0x1FF7 0x03A9;
  MkUnicase 0x1FF8 0x1F78 0x039F; MkUnicase 0x1FF9 0x1F79 0x1FF9;
  MkUnicase 0x1FFA 0x1F7C 0x03A9; MkUnicase 0x1FFB 0x1F7D 0x1FFB;
  MkUnicase 0x1FFC 0x1FF3 0x03A9; MkUnicase 0x1FFD 0x1FFD 0x1FFD;
  MkUnicase 0x1FFE 0x1FFE 0x1FFE; MkUnicase 0x1FFF 0x1FFF 0x1FFF].

Definition plane21 : list unicase := [
  MkUnicase 0x2100 0x2100 0x2100; MkUnicase 0x2101 0x2101 0x2101;
  MkUnicase 0x2102 0x2102 0x2102; MkUnicase 0x2103 0x2103 0x2103;
  MkUnicase 0x2104 0x2104 0x2104; MkUnicase 0x2105 0x2105 0x2105;
  MkUnicase 0x2106 0x2106 0x2106; MkUnicase 0x2107 0x2107 0x2107;
  MkUnicase 0x2108 0x2108 0x2108; MkUnicase 0x2109 0x2109 0x2109;
  MkUnicase 0x210A 0x210A 0x210A; MkUnicase 0x210B 0x210B 0x210B;
  MkUnicase 0x210C 0x210C 0x210C; MkUnicase 0x210D 0x210D 0x210D;
  MkUnicase 0x210E 0x210E 0x210E; MkUnicase 0x210F 0x210F 0x210F;
  MkUnicase 0x2110 0x2110 0x2110; MkUnicase 0x2111 0x2111 0x2111;
  MkUnicase 0x2112 0x2112 0x2112; MkUnicase 0x2113 0x2113 0x2113;
  MkUnicase 0x2114 0x2114 0x2114; MkUnicase 0x2115 0x2115 0x2115;
  MkUnicase 0x2116 0x2116 0x2116; MkUnicase 0x2117 0x2117 0x2117;
  MkUnicase 0x2118 0x2118 0x2118; MkUnicase 0x2119 0x2119 0x2119;
  MkUnicase 0x211A 0x211A 0x211A; MkUnicase 0x211B 0x211B 0x211B;
  MkUnicase 0x211C 0x211C 0x211C; MkUnicase 0x211D 0x211D 0x211D;
  MkUnicase 0x211E 0x211E 0x211E; MkUnicase 0x211F 0x211F 0x211F;
  MkUnicase 0x2120 0x2120 0x2120; MkUnicase 0x2121 0x2121 0x2121;
  MkUnicase 0x2122 0x2122 0x2122; MkUnicase 0x2123 0x2123 0x2123;
  MkUnicase 0x2124 0x2124 0x2124; MkUnicase 0x2125 0x2125 0x2125;
  MkUnicase 0x2126 0x03C9 0x2126; MkUnicase 0x2127 0x2127 0x2127;
  MkUnicase 0x2128 0x2128 0x2128; MkUnicase 0x2129 0x2129 0x2129;
  MkUnicase 0x212A 0x006B 0x212A; MkUnicase 0x212B 0x00E5 0x212B;
  MkUnicase 0x212C 0x212C 0x212C; MkUnicase 0x212D 0x212D 0x212D;
  MkUnicase 0x212E 0x212E 0x212E; MkUnicase 0x212F 0x212F 0x212F;
  MkUnicase 0x2130 0x2130 0x2130; MkUnicase 0x2131 0x2131 0x2131;
  MkUnicase 0x2132 0x2132 0x2132; MkUnicase 0x2133 0x2133 0x2133;
  MkUnicase 0x2134 0x2134 0x2134; MkUnicase 0x2135 0x2135 0x2135;
  MkUnicase 0x2136 0x2136 0x2136; MkUnicase 0x2137 0x2137 0x2137;
  MkUnicase 0x2138 0x2138 0x2138; MkUnicase 0x2139 0x2139 0x2139;
  MkUnicase 0x213A 0x213A 0x213A; MkUnicase 0x213B 0x213B 0x213B;
  MkUnicase 0x213C 0x213C 0x213C; MkUnicase 0x213D 0x213D 0x213D;
  MkUnicase 0x213E 0x213E 0x213E; MkUnicase 0x213F 0x213F 0x213F;
  MkUnicase 0x2140 0x2140 0x2140; MkUnicase 0x2141 0x2141 0x2141;
  MkUnicase 0x2142 0x2142 0x2142; MkUnicase 0x2143 0x2143 0x2143;
  MkUnicase 0x2144 0x2144 0x2144; MkUnicase 0x2145 0x2145 0x2145;
  MkUnicase 0x2146 0x2146 0x2146; MkUnicase 0x2147 0x2147 0x2147;
  MkUnicase 0x2148 0x2148 0x2148; MkUnicase 0x2149 0x2149 0x2149;
  MkUnicase 0x214A 0x214A 0x214A; MkUnicase 0x214B 0x214B 0x214B;
  MkUnicase 0x214C 0x214C 0x214C; MkUnicase 0x214D 0x214D 0x214D;
  MkUnicase 0x214E 0x214E 0x214E; MkUnicase 0x214F 0x214F 0x214F;
  MkUnicase 0x2150 0x2150 0x2150; MkUnicase 0x2151 0x2151 0x2151;
  MkUnicase 0x2152 0x2152 0x2152; MkUnicase 0x2153 0x2153 0x2153;
  MkUnicase 0x2154 0x2154 0x2154; MkUnicase 0x2155 0x2155 0x2155;
  MkUnicase 0x2156 0x2156 0x2156; MkUnicase 0x2157 0x2157 0x2157;
  MkUnicase 0x2158 0x2158 0x2158; MkUnicase 0x2159 0x2159 0x2159;
  MkUnicase 0x215A 0x215A 0x215A; MkUnicase 0x215B 0x215B 0x215B;
  MkUnicase 0x215C 0x215C 0x215C; MkUnicase 0x215D 0x215D 0x215D;
  MkUnicase 0x215E 0x215E 0x215E; MkUnicase 0x215F 0x215F 0x215F;
  MkUnicase 0x2160 0x2170 0x2160; MkUnicase 0x2161 0x2171 0x2161;
  MkUnicase 0x2162 0x2172 0x2162; MkUnicase 0x2163 0x2173 0x2163;
  MkUnicase 0x2164 0x2174 0x2164; MkUnicase 0x2165 0x2175 0x2165;
  MkUnicase 0x2166 0x2176 0x2166; MkUnicase 0x2167 0x2177 0x2167;
  MkUnicase 0x2168 0x2178 0x2168; MkUnicase 0x2169 0x2179 0x2169;
  MkUnicase 0x216A 0x217A 0x216A; MkUnicase 0x216B 0x217B 0x216B;
  MkUnicase 0x216C 0x217C 0x216C; MkUnicase 0x216D 0x217D 0x216D;
  MkUnicase 0x216E 0x217E 0x216E; MkUnicase 0x216F 0x217F 0x216F;
  MkUnicase 0x2160 0x2170 0x2160; MkUnicase 0x2161 0x2171 0x2161;
  MkUnicase 0x2162 0x2172 0x2162; MkUnicase 0x2163 0x2173 0x2163;
  MkUnicase 0x2164 0x2174 0x2164; MkUnicase 0x2165 0x2175 0x2165;
  MkUnicase 0x2166 0x2176 0x2166; MkUnicase 0x2167 0x2177 0x2167;
  MkUnicase 0x2168 0x2178 0x2168; MkUnicase 0x2169 0x2179 0x2169;
  MkUnicase 0x216A 0x217A 0x216A; MkUnicase 0x216B 0x217B 0x216B;
  MkUnicase 0x216C 0x217C 0x216C; MkUnicase 0x216D 0x217D 0x216D;
  MkUnicase 0x216E 0x217E 0x216E; MkUnicase 0x216F 0x217F 0x216F;
  MkUnicase 0x2180 0x2180 0x2180; MkUnicase 0x2181 0x2181 0x2181;
  MkUnicase 0x2182 0x2182 0x2182; MkUnicase 0x2183 0x2183 0x2183;
  MkUnicase 0x2184 0x2184 0x2184; MkUnicase 0x2185 0x2185 0x2185;
  MkUnicase 0x2186 0x2186 0x2186; MkUnicase 0x2187 0x2187 0x2187;
  MkUnicase 0x2188 0x2188 0x2188; MkUnicase 0x2189 0x2189 0x2189;
  MkUnicase 0x218A 0x218A 0x218A; MkUnicase 0x218B 0x218B 0x218B;
  MkUnicase 0x218C 0x218C 0x218C; MkUnicase 0x218D 0x218D 0x218D;
  MkUnicase 0x218E 0x218E 0x218E; MkUnicase 0x218F 0x218F 0x218F;
  MkUnicase 0x2190 0x2190 0x2190; MkUnicase 0x2191 0x2191 0x2191;
  MkUnicase 0x2192 0x2192 0x2192; MkUnicase 0x2193 0x2193 0x2193;
  MkUnicase 0x2194 0x2194 0x2194; MkUnicase 0x2195 0x2195 0x2195;
  MkUnicase 0x2196 0x2196 0x2196; MkUnicase 0x2197 0x2197 0x2197;
  MkUnicase 0x2198 0x2198 0x2198; MkUnicase 0x2199 0x2199 0x2199;
  MkUnicase 0x219A 0x219A 0x219A; MkUnicase 0x219B 0x219B 0x219B;
  MkUnicase 0x219C 0x219C 0x219C; MkUnicase 0x219D 0x219D 0x219D;
  MkUnicase 0x219E 0x219E 0x219E; MkUnicase 0x219F 0x219F 0x219F;
  MkUnicase 0x21A0 0x21A0 0x21A0; MkUnicase 0x21A1 0x21A1 0x21A1;
  MkUnicase 0x21A2 0x21A2 0x21A2; MkUnicase 0x21A3 0x21A3 0x21A3;
  MkUnicase 0x21A4 0x21A4 0x21A4; MkUnicase 0x21A5 0x21A5 0x21A5;
  MkUnicase 0x21A6 0x21A6 0x21A6; MkUnicase 0x21A7 0x21A7 0x21A7;
  MkUnicase 0x21A8 0x21A8 0x21A8; MkUnicase 0x21A9 0x21A9 0x21A9;
  MkUnicase 0x21AA 0x21AA 0x21AA; MkUnicase 0x21AB 0x21AB 0x21AB;
  MkUnicase 0x21AC 0x21AC 0x21AC; MkUnicase 0x21AD 0x21AD 0x21AD;
  MkUnicase 0x21AE 0x21AE 0x21AE; MkUnicase 0x21AF 0x21AF 0x21AF;
  MkUnicase 0x21B0 0x21B0 0x21B0; MkUnicase 0x21B1 0x21B1 0x21B1;
  MkUnicase 0x21B2 0x21B2 0x21B2; MkUnicase 0x21B3 0x21B3 0x21B3;
  MkUnicase 0x21B4 0x21B4 0x21B4; MkUnicase 0x21B5 0x21B5 0x21B5;
  MkUnicase 0x21B6 0x21B6 0x21B6; MkUnicase 0x21B7 0x21B7 0x21B7;
  MkUnicase 0x21B8 0x21B8 0x21B8; MkUnicase 0x21B9 0x21B9 0x21B9;
  MkUnicase 0x21BA 0x21BA 0x21BA; MkUnicase 0x21BB 0x21BB 0x21BB;
  MkUnicase 0x21BC 0x21BC 0x21BC; MkUnicase 0x21BD 0x21BD 0x21BD;
  MkUnicase 0x21BE 0x21BE 0x21BE; MkUnicase 0x21BF 0x21BF 0x21BF;
  MkUnicase 0x21C0 0x21C0 0x21C0; MkUnicase 0x21C1 0x21C1 0x21C1;
  MkUnicase 0x21C2 0x21C2 0x21C2; MkUnicase 0x21C3 0x21C3 0x21C3;
  MkUnicase 0x21C4 0x21C4 0x21C4; MkUnicase 0x21C5 0x21C5 0x21C5;
  MkUnicase 0x21C6 0x21C6 0x21C6; MkUnicase 0x21C7 0x21C7 0x21C7;
  MkUnicase 0x21C8 0x21C8 0x21C8; MkUnicase 0x21C9 0x21C9 0x21C9;
  MkUnicase 0x21CA 0x21CA 0x21CA; MkUnicase 0x21CB 0x21CB 0x21CB;
  MkUnicase 0x21CC 0x21CC 0x21CC; MkUnicase 0x21CD 0x21CD 0x21CD;
  MkUnicase 0x21CE 0x21CE 0x21CE; MkUnicase 0x21CF 0x21CF 0x21CF;
  MkUnicase 0x21D0 0x21D0 0x21D0; MkUnicase 0x21D1 0x21D1 0x21D1;
  MkUnicase 0x21D2 0x21D2 0x21D2; MkUnicase 0x21D3 0x21D3 0x21D3;
  MkUnicase 0x21D4 0x21D4 0x21D4; MkUnicase 0x21D5 0x21D5 0x21D5;
  MkUnicase 0x21D6 0x21D6 0x21D6; MkUnicase 0x21D7 0x21D7 0x21D7;
  MkUnicase 0x21D8 0x21D8 0x21D8; MkUnicase 0x21D9 0x21D9 0x21D9;
  MkUnicase 0x21DA 0x21DA 0x21DA; MkUnicase 0x21DB 0x21DB 0x21DB;
  MkUnicase 0x21DC 0x21DC 0x21DC; MkUnicase 0x21DD 0x21DD 0x21DD;
  MkUnicase 0x21DE 0x21DE 0x21DE; MkUnicase 0x21DF 0x21DF 0x21DF;
  MkUnicase 0x21E0 0x21E0 0x21E0; MkUnicase 0x21E1 0x21E1 0x21E1;
  MkUnicase 0x21E2 0x21E2 0x21E2; MkUnicase 0x21E3 0x21E3 0x21E3;
  MkUnicase 0x21E4 0x21E4 0x21E4; MkUnicase 0x21E5 0x21E5 0x21E5;
  MkUnicase 0x21E6 0x21E6 0x21E6; MkUnicase 0x21E7 0x21E7 0x21E7;
  MkUnicase 0x21E8 0x21E8 0x21E8; MkUnicase 0x21E9 0x21E9 0x21E9;
  MkUnicase 0x21EA 0x21EA 0x21EA; MkUnicase 0x21EB 0x21EB 0x21EB;
  MkUnicase 0x21EC 0x21EC 0x21EC; MkUnicase 0x21ED 0x21ED 0x21ED;
  MkUnicase 0x21EE 0x21EE 0x21EE; MkUnicase 0x21EF 0x21EF 0x21EF;
  MkUnicase 0x21F0 0x21F0 0x21F0; MkUnicase 0x21F1 0x21F1 0x21F1;
  MkUnicase 0x21F2 0x21F2 0x21F2; MkUnicase 0x21F3 0x21F3 0x21F3;
  MkUnicase 0x21F4 0x21F4 0x21F4; MkUnicase 0x21F5 0x21F5 0x21F5;
  MkUnicase 0x21F6 0x21F6 0x21F6; MkUnicase 0x21F7 0x21F7 0x21F7;
  MkUnicase 0x21F8 0x21F8 0x21F8; MkUnicase 0x21F9 0x21F9 0x21F9;
  MkUnicase 0x21FA 0x21FA 0x21FA; MkUnicase 0x21FB 0x21FB 0x21FB;
  MkUnicase 0x21FC 0x21FC 0x21FC; MkUnicase 0x21FD 0x21FD 0x21FD;
  MkUnicase 0x21FE 0x21FE 0x21FE; MkUnicase 0x21FF 0x21FF 0x21FF].

Definition plane24 : list unicase := [
  MkUnicase 0x2400 0x2400 0x2400; MkUnicase 0x2401 0x2401 0x2401;
  MkUnicase 0x2402 0x2402 0x2402; MkUnicase 0x2403 0x2403 0x2403;
  MkUnicase 0x2404 0x2404 0x2404; MkUnicase 0x2405 0x2405 0x2405;
  MkUnicase 0x2406 0x2406 0x2406; MkUnicase 0x2407 0x2407 0x2407;
  MkUnicase 0x2408 0x2408 0x2408; MkUnicase 0x2409 0x2409 0x2409;
  MkUnicase 0x240A 0x240A 0x240A; MkUnicase 0x240B 0x240B 0x240B;
  MkUnicase 0x240C 0x240C 0x240C; MkUnicase 0x240D 0x240D 0x240D;
  MkUnicase 0x240E 0x240E 0x240E; MkUnicase 0x240F 0x240F 0x240F;
  MkUnicase 0x2410 0x2410 0x2410; MkUnicase 0x2411 0x2411 0x2411;
  MkUnicase 0x2412 0x2412 0x2412; MkUnicase 0x2413 0x2413 0x2413;
  MkUnicase 0x2414 0x2414 0x2414; MkUnicase 0x2415 0x2415 0x2415;
  MkUnicase 0x2416 0x2416 0x2416; MkUnicase 0x2417 0x2417 0x2417;
  MkUnicase 0x2418 0x2418 0x2418; MkUnicase 0x2419 0x2419 0x2419;
  MkUnicase 0x241A 0x241A 0x241A; MkUnicase 0x241B 0x241B 0x241B;
  MkUnicase 0x241C 0x241C 0x241C; MkUnicase 0x241D 0x241D 0x241D;
  MkUnicase 0x241E 0x241E 0x241E; MkUnicase 0x241F 0x241F 0x241F;
  MkUnicase 0x2420 0x2420 0x2420; MkUnicase 0x2421 0x2421 0x2421;
  MkUnicase 0x2422 0x2422 0x2422; MkUnicase 0x2423 0x2423 0x2423;
  MkUnicase 0x2424 0x2424 0x2424; MkUnicase 0x2425 0x2425 0x2425;
  MkUnicase 0x2426 0x2426 0x2426; MkUnicase 0x2427 0x2427 0x2427;
  MkUnicase 0x2428 0x2428 0x2428; MkUnicase 0x2429 0x2429 0x2429;
  MkUnicase 0x242A 0x242A 0x242A; MkUnicase 0x242B 0x242B 0x242B;
  MkUnicase 0x242C 0x242C 0x242C; MkUnicase 0x242D 0x242D 0x242D;
  MkUnicase 0x242E 0x242E 0x242E; MkUnicase 0x242F 0x242F 0x242F;
  MkUnicase 0x2430 0x2430 0x2430; MkUnicase 0x2431 0x2431 0x2431;
  MkUnicase 0x2432 0x2432 0x2432; MkUnicase 0x2433 0x2433 0x2433;
  MkUnicase 0x2434 0x2434 0x2434; MkUnicase 0x2435 0x2435 0x2435;
  MkUnicase 0x2436 0x2436 0x2436; MkUnicase 0x2437 0x2437 0x2437;
  MkUnicase 0x2438 0x2438 0x2438; MkUnicase 0x2439 0x2439 0x2439;
  MkUnicase 0x243A 0x243A 0x243A; MkUnicase 0x243B 0x243B 0x243B;
  MkUnicase 0x243C 0x243C 0x243C; MkUnicase 0x243D 0x243D 0x243D;
  MkUnicase 0x243E 0x243E 0x243E; MkUnicase 0x243F 0x243F 0x243F;
  MkUnicase 0x2440 0x2440 0x2440; MkUnicase 0x2441 0x2441 0x2441;
  MkUnicase 0x2442 0x2442 0x2442; MkUnicase 0x2443 0x2443 0x2443;
  MkUnicase 0x2444 0x2444 0x2444; MkUnicase 0x2445 0x2445 0x2445;
  MkUnicase 0x2446 0x2446 0x2446; MkUnicase 0x2447 0x2447 0x2447;
  MkUnicase 0x2448 0x2448 0x2448; MkUnicase 0x2449 0x2449 0x2449;
  MkUnicase 0x244A 0x244A 0x244A; MkUnicase 0x244B 0x244B 0x244B;
  MkUnicase 0x244C 0x244C 0x244C; MkUnicase 0x244D 0x244D 0x244D;
  MkUnicase 0x244E 0x244E 0x244E; MkUnicase 0x244F 0x244F 0x244F;
  MkUnicase 0x2450 0x2450 0x2450; MkUnicase 0x2451 0x2451 0x2451;
  MkUnicase 0x2452 0x2452 0x2452; MkUnicase 0x2453 0x2453 0x2453;
  MkUnicase 0x2454 0x2454 0x2454; MkUnicase 0x2455 0x2455 0x2455;
  MkUnicase 0x2456 0x2456 0x2456; MkUnicase 0x2457 0x2457 0x2457;
  MkUnicase 0x2458 0x2458 0x2458; MkUnicase 0x2459 0x2459 0x2459;
  MkUnicase 0x245A 0x245A 0x245A; MkUnicase 0x245B 0x245B 0x245B;
  MkUnicase 0x245C 0x245C 0x245C; MkUnicase 0x245D 0x245D 0x245D;
  MkUnicase 0x245E 0x245E 0x245E; MkUnicase 0x245F 0x245F 0x245F;
  MkUnicase 0x2460 0x2460 0x2460; MkUnicase 0x2461 0x2461 0x2461;
  MkUnicase 0x2462 0x2462 0x2462; MkUnicase 0x2463 0x2463 0x2463;
  MkUnicase 0x2464 0x2464 0x2464; MkUnicase 0x2465 0x2465 0x2465;
  MkUnicase 0x2466 0x2466 0x2466; MkUnicase 0x2467 0x2467 0x2467;
  MkUnicase 0x2468 0x2468 0x2468; MkUnicase 0x2469 0x2469 0x2469;
  MkUnicase 0x246A 0x246A 0x246A; MkUnicase 0x246B 0x246B 0x246B;
  MkUnicase 0x246C 0x246C 0x246C; MkUnicase 0x246D 0x246D 0x246D;
  MkUnicase 0x246E 0x246E 0x246E; MkUnicase 0x246F 0x246F 0x246F;
  MkUnicase 0x2470 0x2470 0x2470; MkUnicase 0x2471 0x2471 0x2471;
  MkUnicase 0x2472 0x2472 0x2472; MkUnicase 0x2473 0x2473 0x2473;
  MkUnicase 0x2474 0x2474 0x2474; MkUnicase 0x2475 0x2475 0x2475;
  MkUnicase 0x2476 0x2476 0x2476; MkUnicase 0x2477 0x2477 0x2477;
  MkUnicase 0x2478 0x2478 0x2478; MkUnicase 0x2479 0x2479 0x2479;
  MkUnicase 0x247A 0x247A 0x247A; MkUnicase 0x247B 0x247B 0x247B;
  MkUnicase 0x247C 0x247C 0x247C; MkUnicase 0x247D 0x247D 0x247D;
  MkUnicase 0x247E 0x247E 0x247E; MkUnicase 0x247F 0x247F 0x247F;
  MkUnicase 0x2480 0x2480 0x2480; MkUnicase 0x2481 0x2481 0x2481;
  MkUnicase 0x2482 0x2482 0x2482; MkUnicase 0x2483 0x2483 0x2483;
  MkUnicase 0x2484 0x2484 0x2484; MkUnicase 0x2485 0x2485 0x2485;
  MkUnicase 0x2486 0x2486 0x2486; MkUnicase 0x2487 0x2487 0x2487;
  MkUnicase 0x2488 0x2488 0x2488; MkUnicase 0x2489 0x2489 0x2489;
  MkUnicase 0x248A 0x248A 0x248A; MkUnicase 0x248B 0x248B 0x248B;
  MkUnicase 0x248C 0x248C 0x248C; MkUnicase 0x248D 0x248D 0x248D;
  MkUnicase 0x248E 0x248E 0x248E; MkUnicase 0x248F 0x248F 0x248F;
  MkUnicase 0x2490 0x2490 0x2490; MkUnicase 0x2491 0x2491 0x2491;
  MkUnicase 0x2492 0x2492 0x2492; MkUnicase 0x2493 0x2493 0x2493;
  MkUnicase 0x2494 0x2494 0x2494; MkUnicase 0x2495 0x2495 0x2495;
  MkUnicase 0x2496 0x2496 0x2496; MkUnicase 0x2497 0x2497 0x2497;
  MkUnicase 0x2498 0x2498 0x2498; MkUnicase 0x2499 0x2499 0x2499;
  MkUnicase 0x249A 0x249A 0x249A; MkUnicase 0x249B 0x249B 0x249B;
  MkUnicase 0x249C 0x249C 0x249C; MkUnicase 0x249D 0x249D 0x249D;
  MkUnicase 0x249E 0x249E 0x249E; MkUnicase 0x249F 0x249F 0x249F;
  MkUnicase 0x24A0 0x24A0 0x24A0; MkUnicase 0x24A1 0x24A1 0x24A1;
  MkUnicase 0x24A2 0x24A2 0x24A2; MkUnicase 0x24A3 0x24A3 0x24A3;
  MkUnicase 0x24A4 0x24A4 0x24A4; MkUnicase 0x24A5 0x24A5 0x24A5;
  MkUnicase 0x24A6 0x24A6 0x24A6; MkUnicase 0x24A7 0x24A7 0x24A7;
  MkUnicase 0x24A8 0x24A8 0x24A8; MkUnicase 0x24A9 0x24A9 0x24A9;
  MkUnicase 0x24AA 0x24AA 0x24AA; MkUnicase 0x24AB 0x24AB 0x24AB;
  MkUnicase 0x24AC 0x24AC 0x24AC; MkUnicase 0x24AD 0x24AD 0x24AD;
  MkUnicase 0x24AE 0x24AE 0x24AE; MkUnicase 0x24AF 0x24AF 0x24AF;
  MkUnicase 0x24B0 0x24B0 0x24B0; MkUnicase 0x24B1 0x24B1 0x24B1;
  MkUnicase 0x24B2 0x24B2 0x24B2; MkUnicase 0x24B3 0x24B3 0x24B3;
  MkUnicase 0x24B4 0x24B4 0x24B4; MkUnicase 0x24B5 0x24B5 0x24B5;
  MkUnicase 0x24B6 0x24D0 0x24B6; MkUnicase 0x24B7 0x24D1 0x24B7;
  MkUnicase 0x24B8 0x24D2 0x24B8; MkUnicase 0x24B9 0x24D3 0x24B9;
  MkUnicase 0x24BA 0x24D4 0x24BA; MkUnicase 0x24BB 0x24D5 0x24BB;
  MkUnicase 0x24BC 0x24D6 0x24BC; MkUnicase 0x24BD 0x24D7 0x24BD;
  MkUnicase 0x24BE 0x24D8 0x24BE; MkUnicase 0x24BF 0x24D9 0x24BF;
  MkUnicase 0x24C0 0x24DA 0x24C0; MkUnicase 0x24C1 0x24DB 0x24C1;
  MkUnicase 0x24C2 0x24DC 0x24C2; MkUnicase 0x24C3 0x24DD 0x24C3;
  MkUnicase 0x24C4 0x24DE 0x24C4; MkUnicase 0x24C5 0x24DF 0x24C5;
  MkUnicase 0x24C6 0x24E0 0x24C6; MkUnicase 0x24C7 0x24E1 0x24C7;
  MkUnicase 0x24C8 0x24E2 0x24C8; MkUnicase 0x24C9 0x24E3 0x24C9;
  MkUnicase 0x24CA 0x24E4 0x24CA; MkUnicase 0x24CB 0x24E5 0x24CB;
  MkUnicase 0x24CC 0x24E6 0x24CC; MkUnicase 0x24CD 0x24E7 0x24CD;
  MkUnicase 0x24CE 0x24E8 0x24CE; MkUnicase 0x24CF 0x24E9 0x24CF;
  MkUnicase 0x24B6 0x24D0 0x24B6; MkUnicase 0x24B7 0x24D1 0x24B7;
  MkUnicase 0x24B8 0x24D2 0x24B8; MkUnicase 0x24B9 0x24D3 0x24B9;
  MkUnicase 0x24BA 0x24D4 0x24BA; MkUnicase 0x24BB 0x24D5 0x24BB;
  MkUnicase 0x24BC 0x24D6 0x24BC; MkUnicase 0x24BD 0x24D7 0x24BD;
  MkUnicase 0x24BE 0x24D8 0x24BE; MkUnicase 0x24BF 0x24D9 0x24BF;
  MkUnicase 0x24C0 0x24DA 0x24C0; MkUnicase 0x24C1 0x24DB 0x24C1;
  MkUnicase 0x24C2 0x24DC 0x24C2; MkUnicase 0x24C3 0x24DD 0x24C3;
  MkUnicase 0x24C4 0x24DE 0x24C4; MkUnicase 0x24C5 0x24DF 0x24C5;
  MkUnicase 0x24C6 0x24E0 0x24C6; MkUnicase 0x24C7 0x24E1 0x24C7;
  MkUnicase 0x24C8 0x24E2 0x24C8; MkUnicase 0x24C9 0x24E3 0x24C9;
  MkUnicase 0x24CA 0x24E4 0x24CA; MkUnicase 0x24CB 0x24E5 0x24CB;
  MkUnicase 0x24CC 0x24E6 0x24CC; MkUnicase 0x24CD 0x24E7 0x24CD;
  MkUnicase 0x24CE 0x24E8 0x24CE; MkUnicase 0x24CF 0x24E9 0x24CF;
  MkUnicase 0x24EA 0x24EA 0x24EA; MkUnicase 0x24EB 0x24EB 0x24EB;
  MkUnicase 0x24EC 0x24EC 0x24EC; MkUnicase 0x24ED 0x24ED 0x24ED;
  MkUnicase 0x24EE 0x24EE 0x24EE; MkUnicase 0x24EF 0x24EF 0x24EF;
  MkUnicase 0x24F0 0x24F0 0x24F0; MkUnicase 0x24F1 0x24F1 0x24F1;
  MkUnicase 0x24F2 0x24F2 0x24F2; MkUnicase 0x24F3 0x24F3 0x24F3;
  MkUnicase 0x24F4 0x24F4 0x24F4; MkUnicase 0x24F5 0x24F5 0x24F5;
  MkUnicase 0x24F6 0x24F6 0x24F6; MkUnicase 0x24F7 0x24F7 0x24F7;
  MkUnicase 0x24F8 0x24F8 0x24F8; MkUnicase 0x24F9 0x24F9 0x24F9;
  MkUnicase 0x24FA 0x24FA 0x24FA; MkUnicase 0x24FB 0x24FB 0x24FB;
  MkUnicase 0x24FC 0x24FC 0x24FC; MkUnicase 0x24FD 0x24FD 0x24FD;
  MkUnicase 0x24FE 0x24FE 0x24FE; MkUnicase 0x24FF 0x24FF 0x24FF].

Definition planeFF : list unicase := [
  MkUnicase 0xFF00 0xFF00 0xFF00; MkUnicase 0xFF01 0xFF01 0xFF01;
  MkUnicase 0xFF02 0xFF02 0xFF02; MkUnicase 0xFF03 0xFF03 0xFF03;
  MkUnicase 0xFF04 0xFF04 0xFF04; MkUnicase 0xFF05 0xFF05 0xFF05;
  MkUnicase 0xFF06 0xFF06 0xFF06; MkUnicase 0xFF07 0xFF07 0xFF07;
  MkUnicase 0xFF08 0xFF08 0xFF08; MkUnicase 0xFF09 0xFF09 0xFF09;
  MkUnicase 0xFF0A 0xFF0A 0xFF0A; MkUnicase 0xFF0B 0xFF0B 0xFF0B;
  MkUnicase 0xFF0C 0xFF0C 0xFF0C; MkUnicase 0xFF0D 0xFF0D 0xFF0D;
  MkUnicase 0xFF0E 0xFF0E 0xFF0E; MkUnicase 0xFF0F 0xFF0F 0xFF0F;
  MkUnicase 0xFF10 0xFF10 0xFF10; MkUnicase 0xFF11 0xFF11 0xFF11;
  MkUnicase 0xFF12 0xFF12 0xFF12; MkUnicase 0xFF13 0xFF13 0xFF13;
  MkUnicase 0xFF14 0xFF14 0xFF14; MkUnicase 0xFF15 0xFF15 0xFF15;
  MkUnicase 0xFF16 0xFF16 0xFF16; MkUnicase 0xFF17 0xFF17 0xFF17;
  MkUnicase 0xFF18 0xFF18 0xFF18; MkUnicase 0xFF19 0xFF19 0xFF19;
  MkUnicase 0xFF1A 0xFF1A 0xFF1A; MkUnicase 0xFF1B 0xFF1B 0xFF1B;
  MkUnicase 0xFF1C 0xFF1C 0xFF1C; MkUnicase 0xFF1D 0xFF1D 0xFF1D;
  MkUnicase 0xFF1E 0xFF1E 0xFF1E; MkUnicase 0xFF1F 0xFF1F 0xFF1F;
  MkUnicase 0xFF20 0xFF20 0xFF20; MkUnicase 0xFF21 0xFF41 0xFF21;
  MkUnicase 0xFF22 0xFF42 0xFF22; MkUnicase 0xFF23 0xFF43 0xFF23;
  MkUnicase 0xFF24 0xFF44 0xFF24; MkUnicase 0xFF25 0xFF45 0xFF25;
  MkUnicase 0xFF26 0xFF46 0xFF26; MkUnicase 0xFF27 0xFF47 0xFF27;
  MkUnicase 0xFF28 0xFF48 0xFF28; MkUnicase 0xFF29 0xFF49 0xFF29;
  MkUnicase 0xFF2A 0xFF4A 0xFF2A; MkUnicase 0xFF2B 0xFF4B 0xFF2B;
  MkUnicase 0xFF2C 0xFF4C 0xFF2C; MkUnicase 0xFF2D 0xFF4D 0xFF2D;
  MkUnicase 0xFF2E 0xFF4E 0xFF2E; MkUnicase 0xFF2F 0xFF4F 0xFF2F;
  MkUnicase 0xFF30 0xFF50 0xFF30; MkUnicase 0xFF31 0xFF51 0xFF31;
  MkUnicase 0xFF32 0xFF52 0xFF32; MkUnicase 0xFF33 0xFF53 0xFF33;
  MkUnicase 0xFF34 0xFF54 0xFF34; MkUnicase 0xFF35 0xFF55 0xFF35;
  MkUnicase 0xFF36 0xFF56 0xFF36; MkUnicase 0xFF37 0xFF57 0xFF37;
  MkUnicase 0xFF38 0xFF58 0xFF38; MkUnicase 0xFF39 0xFF59 0xFF39;
  MkUnicase 0xFF3A 0xFF5A 0xFF3A; MkUnicase 0xFF3B 0xFF3B 0xFF3B;
  MkUnicase 0xFF3C 0xFF3C 0xFF3C; MkUnicase 0xFF3D 0xFF3D 0xFF3D;
  MkUnicase 0xFF3E 0xFF3E 0xFF3E; MkUnicase 0xFF3F 0xFF3F 0xFF3F;
  MkUnicase 0xFF40 0xFF40 0xFF40; MkUnicase 0xFF21 0xFF41 0xFF21;
  MkUnicase 0xFF22 0xFF42 0xFF22; MkUnicase 0xFF23 0xFF43 0xFF23;
  MkUnicase 0xFF24 0xFF44 0xFF24; MkUnicase 0xFF25 0xFF45 0xFF25;
  MkUnicase 0xFF26 0xFF46 0xFF26; MkUnicase 0xFF27 0xFF47 0xFF27;
  MkUnicase 0xFF28 0xFF48 0xFF28; MkUnicase 0xFF29 0xFF49 0xFF29;
  MkUnicase 0xFF2A 0xFF4A 0xFF2A; MkUnicase 0xFF2B 0xFF4B 0xFF2B;
  MkUnicase 0xFF2C 0xFF4C 0xFF2C; MkUnicase 0xFF2D 0xFF4D 0xFF2D;
  MkUnicase 0xFF2E 0xFF4E 0xFF2E; MkUnicase 0xFF2F 0xFF4F 0xFF2F;
  MkUnicase 0xFF30 0xFF50 0xFF30; MkUnicase 0xFF31 0xFF51 0xFF31;
  MkUnicase 0xFF32 0xFF52 0xFF32; MkUnicase 0xFF33 0xFF53 0xFF33;
  MkUnicase 0xFF34 0xFF54 0xFF34; MkUnicase 0xFF35 0xFF55 0xFF35;
  MkUnicase 0xFF36 0xFF56 0xFF36; MkUnicase 0xFF37 0xFF57 0xFF37;
  MkUnicase 0xFF38 0xFF58 0xFF38; MkUnicase 0xFF39 0xFF59 0xFF39;
  MkUnicase 0xFF3A 0xFF5A 0xFF3A; MkUnicase 0xFF5B 0xFF5B 0xFF5B;
  MkUnicase 0xFF5C 0xFF5C 0xFF5C; MkUnicase 0xFF5D 0xFF5D 0xFF5D;
  MkUnicase 0xFF5E 0xFF5E 0xFF5E; MkUnicase 0xFF5F 0xFF5F 0xFF5F;
  MkUnicase 0xFF60 0xFF60 0xFF60; MkUnicase 0xFF61 0xFF61 0xFF61;
  MkUnicase 0xFF62 0xFF62 0xFF62; MkUnicase 0xFF63 0xFF63 0xFF63;
  MkUnicase 0xFF64 0xFF64 0xFF64; MkUnicase 0xFF65 0xFF65 0xFF65;
  MkUnicase 0xFF66 0xFF66 0xFF66; MkUnicase 0xFF67 0xFF67 0xFF67;
  MkUnicase 0xFF68 0xFF68 0xFF68; MkUnicase 0xFF69 0xFF69 0xFF69;
  MkUnicase 0xFF6A 0xFF6A 0xFF6A; MkUnicase 0xFF6B 0xFF6B 0xFF6B;
  MkUnicase 0xFF6C 0xFF6C 0xFF6C; MkUnicase 0xFF6D 0xFF6D 0xFF6D;
  MkUnicase 0xFF6E 0xFF6E 0xFF6E; MkUnicase 0xFF6F 0xFF6F 0xFF6F;
  MkUnicase 0xFF70 0xFF70 0xFF70; MkUnicase 0xFF71 0xFF71 0xFF71;
  MkUnicase 0xFF72 0xFF72 0xFF72; MkUnicase 0xFF73 0xFF73 0xFF73;
  MkUnicase 0xFF74 0xFF74 0xFF74; MkUnicase 0xFF75 0xFF75 0xFF75;
  MkUnicase 0xFF76 0xFF76 0xFF76; MkUnicase 0xFF77 0xFF77 0xFF77;
  MkUnicase 0xFF78 0xFF78 0xFF78; MkUnicase 0xFF79 0xFF79 0xFF79;
  MkUnicase 0xFF7A 0xFF7A 0xFF7A; MkUnicase 0xFF7B 0xFF7B 0xFF7B;
  MkUnicase 0xFF7C 0xFF7C 0xFF7C; MkUnicase 0xFF7D 0xFF7D 0xFF7D;
  MkUnicase 0xFF7E 0xFF7E 0xFF7E; MkUnicase 0xFF7F 0xFF7F 0xFF7F;
  MkUnicase 0xFF80 0xFF80 0xFF80; MkUnicase 0xFF81 0xFF81 0xFF81;
  MkUnicase 0xFF82 0xFF82 0xFF82; MkUnicase 0xFF83 0xFF83 0xFF83;
  MkUnicase 0xFF84 0xFF84 0xFF84; MkUnicase 0xFF85 0xFF85 0xFF85;
  MkUnicase 0xFF86 0xFF86 0xFF86; MkUnicase 0xFF87 0xFF87 0xFF87;
  MkUnicase 0xFF88 0xFF88 0xFF88; MkUnicase 0xFF89 0xFF89 0xFF89;
  MkUnicase 0xFF8A 0xFF8A 0xFF8A; MkUnicase 0xFF8B 0xFF8B 0xFF8B;
  MkUnicase 0xFF8C 0xFF8C 0xFF8C; MkUnicase 0xFF8D 0xFF8D 0xFF8D;
  MkUnicase 0xFF8E 0xFF8E 0xFF8E; MkUnicase 0xFF8F 0xFF8F 0xFF8F;
  MkUnicase 0xFF90 0xFF90 0xFF90; MkUnicase 0xFF91 0xFF91 0xFF91;
  MkUnicase 0xFF92 0xFF92 0xFF92; MkUnicase 0xFF93 0xFF93 0xFF93;
  MkUnicase 0xFF94 0xFF94 0xFF94; MkUnicase 0xFF95 0xFF95 0xFF95;
  MkUnicase 0xFF96 0xFF96 0xFF96; MkUnicase 0xFF97 0xFF97 0xFF97;
  MkUnicase 0xFF98 0xFF98 0xFF98; MkUnicase 0xFF99 0xFF99 0xFF99;
  MkUnicase 0xFF9A 0xFF9A 0xFF9A; MkUnicase 0xFF9B 0xFF9B 0xFF9B;
  MkUnicase 0xFF9C 0xFF9C 0xFF9C; MkUnicase 0xFF9D 0xFF9D 0xFF9D;
  MkUnicase 0xFF9E 0xFF9E 0xFF9E; MkUnicase 0xFF9F 0xFF9F 0xFF9F;
  MkUnicase 0xFFA0 0xFFA0 0xFFA0; MkUnicase 0xFFA1 0xFFA1 0xFFA1;
  MkUnicase 0xFFA2 0xFFA2 0xFFA2; MkUnicase 0xFFA3 0xFFA3 0xFFA3;
  MkUnicase 0xFFA4 0xFFA4 0xFFA4; MkUnicase 0xFFA5 0xFFA5 0xFFA5;
  MkUnicase 0xFFA6 0xFFA6 0xFFA6; MkUnicase 0xFFA7 0xFFA7 0xFFA7;
  MkUnicase 0xFFA8 0xFFA8 0xFFA8; MkUnicase 0xFFA9 0xFFA9 0xFFA9;
  MkUnicase 0xFFAA 0xFFAA 0xFFAA; MkUnicase 0xFFAB 0xFFAB 0xFFAB;
  MkUnicase 0xFFAC 0xFFAC 0xFFAC; MkUnicase 0xFFAD 0xFFAD 0xFFAD;
  MkUnicase 0xFFAE 0xFFAE 0xFFAE; MkUnicase 0xFFAF 0xFFAF 0xFFAF;
  MkUnicase 0xFFB0 0xFFB0 0xFFB0; MkUnicase 0xFFB1 0xFFB1 0xFFB1;
  MkUnicase 0xFFB2 0xFFB2 0xFFB2; MkUnicase 0xFFB3 0xFFB3 0xFFB3;
  MkUnicase 0xFFB4 0xFFB4 0xFFB4; MkUnicase 0xFFB5 0xFFB5 0xFFB5;
  MkUnicase 0xFFB6 0xFFB6 0xFFB6; MkUnicase 0xFFB7 0xFFB7 0xFFB7;
  MkUnicase 0xFFB8 0xFFB8 0xFFB8; MkUnicase 0xFFB9 0xFFB9 0xFFB9;
  MkUnicase 0xFFBA 0xFFBA 0xFFBA; MkUnicase 0xFFBB 0xFFBB 0xFFBB;
  MkUnicase 0xFFBC 0xFFBC 0xFFBC; MkUnicase 0xFFBD 0xFFBD 0xFFBD;
  MkUnicase 0xFFBE 0xFFBE 0xFFBE; MkUnicase 0xFFBF 0xFFBF 0xFFBF;
  MkUnicase 0xFFC0 0xFFC0 0xFFC0; MkUnicase 0xFFC1 0xFFC1 0xFFC1;
  MkUnicase 0xFFC2 0xFFC2 0xFFC2; MkUnicase 0xFFC3 0xFFC3 0xFFC3;
  MkUnicase 0xFFC4 0xFFC4 0xFFC4; MkUnicase 0xFFC5 0xFFC5 0xFFC5;
  MkUnicase 0xFFC6 0xFFC6 0xFFC6; MkUnicase 0xFFC7 0xFFC7 0xFFC7;
  MkUnicase 0xFFC8 0xFFC8 0xFFC8; MkUnicase 0xFFC9 0xFFC9 0xFFC9;
  MkUnicase 0xFFCA 0xFFCA 0xFFCA; MkUnicase 0xFFCB 0xFFCB 0xFFCB;
  MkUnicase 0xFFCC 0xFFCC 0xFFCC; MkUnicase 0xFFCD 0xFFCD 0xFFCD;
  MkUnicase 0xFFCE 0xFFCE 0xFFCE; MkUnicase 0xFFCF 0xFFCF 0xFFCF;
  MkUnicase 0xFFD0 0xFFD0 0xFFD0; MkUnicase 0xFFD1 0xFFD1 0xFFD1;
  MkUnicase 0xFFD2 0xFFD2 0xFFD2; MkUnicase 0xFFD3 0xFFD3 0xFFD3;
  MkUnicase 0xFFD4 0xFFD4 0xFFD4; MkUnicase 0xFFD5 0xFFD5 0xFFD5;
  MkUnicase 0xFFD6 0xFFD6 0xFFD6; MkUnicase 0xFFD7 0xFFD7 0xFFD7;
  MkUnicase 0xFFD8 0xFFD8 0xFFD8; MkUnicase 0xFFD9 0xFFD9 0xFFD9;
  MkUnicase 0xFFDA 0xFFDA 0xFFDA; MkUnicase 0xFFDB 0xFFDB 0xFFDB;
  MkUnicase 0xFFDC 0xFFDC 0xFFDC; MkUnicase 0xFFDD 0xFFDD 0xFFDD;
  MkUnicase 0xFFDE 0xFFDE 0xFFDE; MkUnicase 0xFFDF 0xFFDF 0xFFDF;
  MkUnicase 0xFFE0 0xFFE0 0xFFE0; MkUnicase 0xFFE1 0xFFE1 0xFFE1;
  MkUnicase 0xFFE2 0xFFE2 0xFFE2; MkUnicase 0xFFE3 0xFFE3 0xFFE3;
  MkUnicase 0xFFE4 0xFFE4 0xFFE4; MkUnicase 0xFFE5 0xFFE5 0xFFE5;
  MkUnicase 0xFFE6 0xFFE6 0xFFE6; MkUnicase 0xFFE7 0xFFE7 0xFFE7;
  MkUnicase 0xFFE8 0xFFE8 0xFFE8; MkUnicase 0xFFE9 0xFFE9 0xFFE9;
  MkUnicase 0xFFEA 0xFFEA 0xFFEA; MkUnicase 0xFFEB 0xFFEB 0xFFEB;
  MkUnicase 0xFFEC 0xFFEC 0xFFEC; MkUnicase 0xFFED 0xFFED 0xFFED;
  MkUnicase 0xFFEE 0xFFEE 0xFFEE; MkUnicase 0xFFEF 0xFFEF 0xFFEF;
  MkUnicase 0xFFF0 0xFFF0 0xFFF0; MkUnicase 0xFFF1 0xFFF1 0xFFF1;
  MkUnicase 0xFFF2 0xFFF2 0xFFF2; MkUnicase 0xFFF3 0xFFF3 0xFFF3;
  MkUnicase 0xFFF4 0xFFF4 0xFFF4; MkUnicase 0xFFF5 0xFFF5 0xFFF5;
  MkUnicase 0xFFF6 0xFFF6 0xFFF6; MkUnicase 0xFFF7 0xFFF7 0xFFF7;
  MkUnicase 0xFFF8 0xFFF8 0xFFF8; MkUnicase 0xFFF9 0xFFF9 0xFFF9;
  MkUnicase 0xFFFA 0xFFFA 0xFFFA; MkUnicase 0xFFFB 0xFFFB 0xFFFB;
  MkUnicase 0xFFFC 0xFFFC 0xFFFC; MkUnicase 0xFFFD 0xFFFD 0xFFFD;
  MkUnicase 0xFFFE 0xFFFE 0xFFFE; MkUnicase 0xFFFF 0xFFFF 0xFFFF].

(** [my_unicase_default]: a null pointer is [None]. *)
Definition my_unicase_default : list (option (list unicase)) := [
  Some plane00; Some plane01; Some plane02; Some plane03; Some plane04; Some plane05; None; None;
  None; None; None; None; None; None; None; None;
  None; None; None; None; None; None; None; None;
  None; None; None; None; None; None; Some plane1E; Some plane1F;
  None; Some plane21; None; None; Some plane24; None; None; None;
  None; None; None; None; None; None; None; None;
  None; None; None; None; None; None; None; None;
  None; None; None; None; None; None; None; None;
  None; None; None; None; None; None; None; None;
  None; None; None; None; None; None; None; None;
  None; None; None; None; None; None; None; None;
  None; None; None; None; None; None; None; None;
  None; None; None; None; None; None; None; None;
  None; None; None; None; None; None; None; None;
  None; None; None; None; None; None; None; None;
  None; None; None; None; None; None; None; None;
  None; None; None; None; None; None; None; None;
  None; None; None; None; None; None; None; None;
  None; None; None; None; None; None; None; None;
  None; None; None; None; None; None; None; None;
  None; None; None; None; None; None; None; None;
  None; None; None; None; None; None; None; None;
  None; None; None; None; None; None; None; None;
  None; None; None; None; None; None; None; None;
  None; None; None; None; None; None; None; None;
  None; None; None; None; None; None; None; None;
  None; None; None; None; None; None; None; None;
  None; None; None; None; None; None; None; None;
  None; None; None; None; None; None; None; None;
  None; None; None; None; None; None; None; None;
  None; None; None; None; None; None; None; None;
  None; None; None; None; None; None; None; Some planeFF].
