(* ===== verification/Unicode.v ===== *)
(** * mysqlconnector jdbc/driver/mysql_util.cpp: upper-casing UTF-8

    [utf8_strup] decodes a C string, maps each code point to upper case and
    encodes it again.  Column labels are compared through it.  The build does not
    define [UNICODE_32BIT]: sequences of more than three bytes are rejected. *)

From S2P Require Import Prelude Cxx UnicodeTables.

(** ** Bytes *)

Definition byte_of (c : ascii) : Z := Z.of_N (N_of_ascii c).
Definition char_of (z : Z) : ascii := ascii_of_N (Z.to_N z).

Definition MY_CS_ILSEQ : Z := 0.
Definition MY_CS_TOOSMALL : Z := -101.
Definition MY_CS_TOOSMALLN (n : Z) : Z := -100 - n.
Definition MY_CS_ILUNI : Z := 0.

(** [(b ^ 0x80) < 0x40]: a continuation byte. *)
Definition continues (b : Z) : bool := Z.lxor b 0x80 <? 0x40.

(** [my_utf8_uni]: the number of bytes read and the code point; a number that is
    not positive is an error, which leaves [*pwc] alone ([None]).  [s] holds the
    bytes up to the end [e]. *)
Definition my_utf8_uni (s : str) : Z * option Z :=
  match s with
  | [] => (MY_CS_TOOSMALL, None)
  | c0 :: s' =>
      let c := byte_of c0 in
      if c <? 0x80 then (1, Some c)
      else if c <? 0xc2 then (MY_CS_ILSEQ, None)
      else if c <? 0xe0 then
        match s' with
        | c1 :: _ =>
            let b1 := byte_of c1 in
            if negb (continues b1) then (MY_CS_ILSEQ, None)
            else (2, Some (Z.lor (Z.shiftl (Z.land c 0x1f) 6) (Z.lxor b1 0x80)))
        | _ => (MY_CS_TOOSMALLN 2, None)
        end
      else if c <? 0xf0 then
        match s' with
        | c1 :: c2 :: _ =>
            let b1 := byte_of c1 in
            let b2 := byte_of c2 in
            if negb (continues b1 && continues b2 && ((0xe1 <=? c) || (0xa0 <=? b1)))
            then (MY_CS_ILSEQ, None)
            else (3, Some (Z.lor (Z.lor (Z.shiftl (Z.land c 0x0f) 12)
                                        (Z.shiftl (Z.lxor b1 0x80) 6)) (Z.lxor b2 0x80)))
        | _ => (MY_CS_TOOSMALLN 3, None)
        end
      else (MY_CS_ILSEQ, None)
  end.

(** [my_uni_utf8]: the number of bytes written and the bytes, [room] bytes being
    left in the buffer. *)
Definition my_uni_utf8 (wc room : Z) : Z * str :=
  if room <=? 0 then (MY_CS_TOOSMALL, [])
  else
    let count := if wc <? 0x80 then 1 else if wc <? 0x800 then 2
                 else if wc <? 0x10000 then 3 else MY_CS_ILUNI in
    if count =? MY_CS_ILUNI then (MY_CS_ILUNI, [])
    else if room <? count then (MY_CS_TOOSMALLN count, [])
    else
      let low w := char_of (Z.lor 0x80 (Z.land w 0x3f)) in
      if count =? 3 then
        let w1 := Z.lor (Z.shiftr wc 6) 0x800 in
        let w2 := Z.lor (Z.shiftr w1 6) 0xc0 in
        (3, [char_of (Z.land w2 0xff); low w1; low wc])
      else if count =? 2 then
        let w1 := Z.lor (Z.shiftr wc 6) 0xc0 in
        (2, [char_of (Z.land w1 0xff); low wc])
      else (1, [char_of (Z.land wc 0xff)]).

(** [uni_plane[plane] ? uni_plane[plane][wc & 0xFF].toupper : wc]; both tables
    have 256 elements. *)
Definition toupper (wc : Z) : Z :=
  match my_unicase_default !! Z.to_nat (Z.land (Z.shiftr wc 8) 0xff) with
  | Some (Some plane) =>
      match plane !! Z.to_nat (Z.land wc 0xff) with
      | Some u => uc_toupper u
      | None => wc
      end
  | _ => wc
  end.

(** The loop of [cppmysql_caseup_utf8]: it stops at the end of the source, at an
    invalid sequence and when the buffer is full.  Each round reads at least one
    byte. *)
Fixpoint caseup_loop (fuel : nat) (src : str) (room : Z) : str :=
  match fuel with
  | O => []
  | S fuel' =>
      match my_utf8_uni src with
      | (srcres, Some wc) =>
          let '(dstres, out) := my_uni_utf8 (toupper wc) room in
          if dstres <=? 0 then []
          else out ++ caseup_loop fuel' (drop (Z.to_nat srcres) src) (room - dstres)
      | (_, None) => []
      end
  end.

Definition cppmysql_caseup_utf8 (src : str) (dstlen : Z) : str :=
  caseup_loop (length src) src dstlen.

(** [utf8_strup]: the C string written to a buffer of four bytes per byte; a
    length of 0 stands for the length of the C string, another one must not
    exceed the buffer. *)
Definition utf8_strup (src : str) (srclen : Z) : str :=
  let n := if srclen =? 0 then size (c_str src) else srclen in
  c_str (cppmysql_caseup_utf8 (take (Z.to_nat n) src) (n * 4)).

Example strup_quant : utf8_strup "quant" 0 = ("QUANT" : str).
Proof. vm_compute. reflexivity. Qed.
Example strup_latin : utf8_strup "é" 0 = ("É" : str).
Proof. vm_compute. reflexivity. Qed.

(** ** Facts: every code point of the basic plane *)

(** [start, start + 1, ...], [n] numbers. *)
Fixpoint zrange (start : Z) (n : nat) : list Z :=
  match n with O => [] | S n' => start :: zrange (start + 1) n' end.

Lemma zrange_elem start n z : start <= z < start + Z.of_nat n -> z ∈ zrange start n.
Proof.
  revert start. induction n as [|n IH]; intros start H; [lia|]. simpl.
  destruct (decide (z = start)) as [->|Hne]; [by left|]. right. apply IH. lia.
Qed.

Definition bmp : list Z := zrange 0 (Z.to_nat 65536).

Definition encode (wc : Z) : str := (my_uni_utf8 wc 3).2.

Definition encodes (wc : Z) : bool :=
  let '(n, b) := my_uni_utf8 wc 3 in
  (n =? size b) && (1 <=? n) && (n <=? 3) &&
  match my_utf8_uni b with (m, Some w) => (m =? n) && (w =? wc) | _ => false end &&
  ((wc =? 0) || forallb (fun c => negb (bool_decide (c = "000"%char))) b) &&
  (0 <=? toupper wc) && (toupper wc <? 65536) && (toupper (toupper wc) =? toupper wc) &&
  ((wc =? 0) || negb (toupper wc =? 0)).

Lemma bmp_encodes : forallb encodes bmp = true.
Proof. vm_compute. reflexivity. Qed.

Definition is_code (wc : Z) : Prop := 0 <= wc < 65536.

(** What the sweep over the basic plane shows. *)
Record encoded (wc : Z) : Prop := {
  enc_count : (my_uni_utf8 wc 3).1 = size (encode wc);
  enc_size : 1 <= size (encode wc) <= 3;
  enc_decode : my_utf8_uni (encode wc) = (size (encode wc), Some wc);
  enc_no_nul : 0 < wc -> "000"%char ∉ encode wc;
  enc_upper : is_code (toupper wc);
  enc_idem : toupper (toupper wc) = toupper wc;
  enc_upper_pos : 0 < wc -> 0 < toupper wc;
}.

Lemma code_encoded wc : is_code wc -> encoded wc.
Proof.
  intros Hc. unfold is_code in Hc.
  pose proof bmp_encodes as H. rewrite forallb_forall in H.
  specialize (H wc). unfold encodes in H.
  destruct (my_uni_utf8 wc 3) as [n b] eqn:E.
  assert (Hin : In wc bmp).
  { apply list_elem_of_In, zrange_elem. rewrite Z2Nat.id; lia. }
  apply H in Hin. clear H. unfold encode. rewrite !andb_true_iff in Hin.
  destruct Hin as ((((((((H1 & H2) & H3) & H4) & H5) & H6) & H7) & H8) & H9).
  destruct (my_utf8_uni b) as [m [w|]] eqn:Ed; [|done]. apply andb_true_iff in H4.
  split; unfold encode; rewrite ?E; simpl.
  - lia.
  - lia.
  - rewrite Ed. f_equal; [lia|f_equal; lia].
  - intros Hw Hin. apply orb_true_iff in H5 as [H5|H5]; [lia|].
    rewrite forallb_forall in H5. by apply list_elem_of_In, H5 in Hin.
  - unfold is_code. lia.
  - lia.
  - intros Hw. apply orb_true_iff in H9 as [H9|H9]; [lia|]. apply negb_true_iff in H9. lia.
Qed.

Lemma my_uni_utf8_room wc room : 3 <= room -> my_uni_utf8 wc room = my_uni_utf8 wc 3.
Proof.
  intros Hr. unfold my_uni_utf8. rewrite (proj2 (Z.leb_gt room 0)) by lia.
  destruct (wc <? 0x80); [by rewrite (proj2 (Z.ltb_ge room 1)) by lia|].
  destruct (wc <? 0x800); [by rewrite (proj2 (Z.ltb_ge room 2)) by lia|].
  destruct (wc <? 0x10000); [by rewrite (proj2 (Z.ltb_ge room 3)) by lia|done].
Qed.

(** A decoded sequence does not depend on the bytes after it. *)
Lemma my_utf8_uni_app b n w rest :
  my_utf8_uni b = (n, Some w) -> my_utf8_uni (b ++ rest) = (n, Some w).
Proof.
  destruct b as [|c0 b]; [done|]. simpl.
  destruct (byte_of c0 <? 0x80); [done|]. destruct (byte_of c0 <? 0xc2); [done|].
  destruct (byte_of c0 <? 0xe0); [by destruct b|].
  destruct (byte_of c0 <? 0xf0); [|done]. destruct b as [|c1 [|c2 b]]; done.
Qed.

(** ** [utf8_strup] on encoded text *)

(** The UTF-8 text of a list of code points. *)
Definition utf8 (l : list Z) : str := List.concat (map encode l).

Definition is_text (l : list Z) : Prop := Forall (fun c => 0 < c < 65536) l.

Lemma text_code c : 0 < c < 65536 -> is_code c.
Proof. unfold is_code. lia. Qed.

Lemma text_upper l : is_text l -> is_text (map toupper l).
Proof.
  intros Hl. apply Forall_map. eapply Forall_impl; [exact Hl|]. intros c Hc.
  change (0 < toupper c < 65536).
  pose proof (code_encoded c (text_code c Hc)) as He.
  pose proof (enc_upper c He) as [_ Hu]. pose proof (enc_upper_pos c He (proj1 Hc)). lia.
Qed.

Lemma utf8_no_nul l : is_text l -> "000"%char ∉ utf8 l.
Proof.
  induction 1 as [|c l Hc _ IH]; [apply not_elem_of_nil|]. unfold utf8. simpl.
  rewrite elem_of_app. intros [Hin|Hin]; [|by apply IH].
  revert Hin. apply enc_no_nul; [by apply code_encoded, text_code|lia].
Qed.

Lemma caseup_loop_utf8 fuel l room :
  is_text l -> (length (utf8 l) <= fuel)%nat -> 4 * size (utf8 l) <= room ->
  caseup_loop fuel (utf8 l) room = utf8 (map toupper l).
Proof.
  intros Hl. revert fuel room. induction Hl as [|c l Hc Hl IH]; intros fuel room Hf Hr.
  - by destruct fuel.
  - pose proof (code_encoded c (text_code c Hc)) as He.
    pose proof (code_encoded _ (enc_upper c He)) as Hu.
    pose proof (enc_size c He) as Hs. pose proof (enc_size _ Hu) as Hsu.
    change (utf8 (c :: l)) with (encode c ++ utf8 l) in *. rewrite size_app in Hr.
    rewrite length_app in Hf. destruct fuel as [|fuel]; [unfold size in Hs; lia|].
    cbn [caseup_loop]. rewrite (my_utf8_uni_app _ _ _ _ (enc_decode c He)).
    rewrite my_uni_utf8_room by (pose proof (size_nonneg (utf8 l)); lia).
    pose proof (enc_count _ Hu) as Hn. unfold encode in Hn at 1.
    destruct (my_uni_utf8 (toupper c) 3) as [n b] eqn:E. simpl in Hn.
    assert (Hb : b = encode (toupper c)) by (unfold encode; by rewrite E). subst b.
    rewrite Hn, (proj2 (Z.leb_gt _ 0)) by lia.
    replace (Z.to_nat (size (encode c))) with (length (encode c)) by (unfold size; lia).
    rewrite drop_app_length, IH; [done| |lia]. unfold size in Hs. lia.
Qed.

(** [utf8_strup] maps every code point to upper case. *)
Lemma utf8_strup_spec l :
  is_text l -> utf8_strup (utf8 l) 0 = utf8 (map toupper l).
Proof.
  intros Hl. unfold utf8_strup. rewrite Z.eqb_refl.
  rewrite (c_str_no_nul (utf8 l)) by by apply utf8_no_nul.
  replace (Z.to_nat (size (utf8 l))) with (length (utf8 l)) by (unfold size; lia).
  rewrite firstn_all. unfold cppmysql_caseup_utf8.
  rewrite caseup_loop_utf8 by (done || lia).
  by apply c_str_no_nul, utf8_no_nul, text_upper.
Qed.

(** Encoding is injective. *)
Lemma utf8_inj l k : is_text l -> is_text k -> utf8 l = utf8 k -> l = k.
Proof.
  intros Hl. revert k. induction Hl as [|c l Hc Hl IH]; intros k Hk E.
  - destruct Hk as [|d k Hd Hk]; [done|]. pose proof (enc_size d (code_encoded d (text_code d Hd))).
    change (utf8 (d :: k)) with (encode d ++ utf8 k) in E.
    destruct (encode d); [rewrite size_nil in *; lia|done].
  - pose proof (code_encoded c (text_code c Hc)) as He.
    change (utf8 (c :: l)) with (encode c ++ utf8 l) in E.
    pose proof (my_utf8_uni_app _ _ _ (utf8 l) (enc_decode c He)) as D. rewrite E in D.
    destruct Hk as [|d k Hd Hk]; [done|].
    pose proof (code_encoded d (text_code d Hd)) as Hed.
    change (utf8 (d :: k)) with (encode d ++ utf8 k) in *.
    rewrite (my_utf8_uni_app _ _ _ _ (enc_decode d Hed)) in D. injection D as _ ->.
    apply app_inv_head in E. f_equal. by apply IH.
Qed.

(** ** Column labels *)

(** The loop of the result set constructors over the column names: a later column
    of the same name replaces an earlier one. *)
Fixpoint index_names (fn : list str) (idx : Z) (m : gmap (list ascii) Z)
    : gmap (list ascii) Z :=
  match fn with
  | [] => m
  | name :: fn' => index_names fn' (idx + 1) (<[utf8_strup name 0 := idx]> m)
  end.

(** [findColumn]: 1-based, 0 when there is no such column. *)
Definition find_label (m : gmap (list ascii) Z) (columnLabel : str) : Z :=
  match m !! utf8_strup columnLabel 0 with Some i => i + 1 | None => 0 end.

(** The last column of the given upper-case name. *)
Fixpoint last_index (fn : list str) (idx : Z) (k : str) : option Z :=
  match fn with
  | [] => None
  | name :: fn' =>
      match last_index fn' (idx + 1) k with
      | Some i => Some i
      | None => if decide (utf8_strup name 0 = k) then Some idx else None
      end
  end.

Lemma index_names_lookup fn idx m k :
  index_names fn idx m !! k =
    match last_index fn idx k with Some i => Some i | None => m !! k end.
Proof.
  revert idx m. induction fn as [|name fn IH]; intros idx m; [done|]. simpl. rewrite IH.
  destruct (last_index fn (idx + 1) k); [done|]. case_decide as E.
  - subst. by rewrite lookup_insert_eq.
  - by rewrite lookup_insert_ne.
Qed.

Lemma last_index_absent fn idx k :
  Forall (fun name => utf8_strup name 0 <> k) fn -> last_index fn idx k = None.
Proof.
  intros Hf. revert idx. induction Hf as [|name fn Hn _ IH]; intros idx; [done|]. simpl.
  by rewrite IH, decide_False.
Qed.

Lemma last_index_unique fn idx k i name :
  NoDup (map (fun name => utf8_strup name 0) fn) ->
  fn !! i = Some name -> utf8_strup name 0 = k -> last_index fn idx k = Some (idx + Z.of_nat i).
Proof.
  revert idx i. induction fn as [|x fn IH]; intros idx i Hn Hi Hk; [done|].
  apply NoDup_cons in Hn as [Hx Hn]. destruct i as [|i]; simpl in *.
  - injection Hi as ->. rewrite last_index_absent; [by rewrite decide_True, Z.add_0_r|].
    rewrite Forall_forall. intros y Hy E. apply Hx, list_elem_of_fmap. exists y.
    by rewrite Hk, E.
  - rewrite (IH (idx + 1) i Hn Hi Hk). f_equal. lia.
Qed.
