(* ===== verification/Cursor.v ===== *)
(** * Objects with methods, and the cursor of a result set

    The result sets of the database connector are objects whose methods read and
    change their members: a state monad [Method] over the members with the
    outcomes of [Prelude].  Their cursor has an abstract specification: a
    position between 0 (before the first row) and [n + 1] (after the last one),
    clamped by every move. *)

From S2P Require Import Prelude.

(** ** Methods *)

Definition Method (S A : Type) : Type := S -> outcome A * S.

#[export] Instance Method_ret {S} : MRet (Method S) := fun A a s => (Ok a, s).
#[export] Instance Method_bind {S} : MBind (Method S) := fun A B f m s =>
  match m s with
  | (Ok a, s') => f a s'
  | (Throw e, s') => (Throw e, s')
  | (Undefined, s') => (Undefined, s')
  | (Diverged, s') => (Diverged, s')
  end.

(** A member, an update of the members, a failure and a pure step. *)
Definition read {S A} (f : S -> A) : Method S A := fun s => (Ok (f s), s).
Definition update {S} (f : S -> S) : Method S unit := fun s => (Ok tt, f s).
Definition throw {S A} (e : exn) : Method S A := fun s => (Throw e, s).
Definition pure {S A} (o : outcome A) : Method S A := fun s => (o, s).

Section method_lemmas.
Context {S A B : Type}.

Lemma method_bind_ok (m : Method S A) (f : A -> Method S B) s a s' :
  m s = (Ok a, s') -> (m ≫= f) s = f a s'.
Proof using. unfold mbind, Method_bind. by intros ->. Qed.

Lemma method_bind_fails (m : Method S A) (f : A -> Method S B) s e s' :
  m s = (Throw e, s') -> (m ≫= f) s = (Throw e, s').
Proof using. unfold mbind, Method_bind. by intros ->. Qed.

Lemma method_read (g : S -> A) (f : A -> Method S B) s : (read g ≫= f) s = f (g s) s.
Proof using. done. Qed.

Lemma method_update (g : S -> S) (f : unit -> Method S B) s :
  (update g ≫= f) s = f tt (g s).
Proof using. done. Qed.

Lemma method_pure (a : A) (f : A -> Method S B) s : (pure (Ok a) ≫= f) s = f a s.
Proof using. done. Qed.
End method_lemmas.
Arguments method_bind_ok {S A B m f s a s'} _.
Arguments method_bind_fails {S A B m f s e s'} _.

(** ** cppconn/resultset.h *)

(** Enumerators of [enum_type], and the value of [last_queried_column] that stands
    for no column. *)
Definition TYPE_FORWARD_ONLY : Z := 0.
Definition TYPE_SCROLL_INSENSITIVE : Z := 1.
Definition NO_COLUMN : Z := 2 ^ 32 - 1.

(** ** The cursor specification *)

Inductive move :=
| MNext | MPrevious | MFirst | MLast | MBeforeFirst | MAfterLast
| MAbsolute (row : Z) | MRelative (rows : Z).

Definition clamp (n p : Z) : Z := Z.max 0 (Z.min p (n + 1)).

(** The position after a move in a result set of [n] rows. *)
Definition move_to (n p : Z) (m : move) : Z :=
  match m with
  | MNext => clamp n (p + 1)
  | MPrevious => clamp n (p - 1)
  | MFirst => if n =? 0 then p else 1
  | MLast => if n =? 0 then p else n
  | MBeforeFirst => 0
  | MAfterLast => n + 1
  | MAbsolute row => if row <? 0 then clamp n (n + 1 + row) else clamp n row
  | MRelative rows => clamp n (p + rows)
  end.

Definition on_row (n p : Z) : bool := (1 <=? p) && (p <=? n).

Lemma clamp_range n p : 0 <= n -> 0 <= clamp n p <= n + 1.
Proof. unfold clamp. lia. Qed.

Lemma move_to_range n p m : 0 <= n -> 0 <= p <= n + 1 -> 0 <= move_to n p m <= n + 1.
Proof. intros Hn Hp. destruct m; simpl; z_cases; unfold clamp; lia. Qed.

(** The positions a loop of [next] visits from before the first row. *)
Lemma next_visits n k :
  0 <= n -> Z.of_nat k <= n ->
  Nat.iter k (fun p => move_to n p MNext) 0 = Z.of_nat k.
Proof.
  intros Hn. induction k as [|k IH]; intros Hk; [done|].
  rewrite Nat.iter_succ, IH by lia. simpl. unfold clamp. lia.
Qed.

(** ** Sequences of moves *)

Fixpoint run_moves {S} (run : move -> Method S bool) (ms : list move) : Method S (list bool) :=
  match ms with
  | [] => mret []
  | m :: ms' => b ← run m; bs ← run_moves run ms'; mret (b :: bs)
  end.

(** The position after a sequence of moves and what each move reports. *)
Definition final (n p : Z) (ms : list move) : Z := fold_left (move_to n) ms p.
Fixpoint answers (n p : Z) (ms : list move) : list bool :=
  match ms with
  | [] => []
  | m :: ms' => on_row n (move_to n p m) :: answers n (move_to n p m) ms'
  end.

(** What an object with a cursor over [n] rows promises: from a position, the
    moves that are allowed there behave as the specification says. *)
Class CursorOver {S : Type} (run : move -> Method S bool) (n : Z) := {
  cursor_at : Z -> S -> Prop;
  cursor_allows : Z -> move -> Prop;
  cursor_moves p m s : cursor_at p s -> cursor_allows p m ->
    exists s', run m s = (Ok (on_row n (move_to n p m)), s') /\ cursor_at (move_to n p m) s';
}.

Section cursor_over.
Context {S : Type} (run : move -> Method S bool) (n : Z) `{!CursorOver run n}.

(** Every move is allowed at the position it is made at. *)
Fixpoint allowed (p : Z) (ms : list move) : Prop :=
  match ms with
  | [] => True
  | m :: ms' => cursor_allows p m /\ allowed (move_to n p m) ms'
  end.

Lemma run_moves_spec ms p s :
  cursor_at p s -> allowed p ms ->
  exists s', run_moves run ms s = (Ok (answers n p ms), s') /\ cursor_at (final n p ms) s'.
Proof using.
  revert p s. induction ms as [|m ms IH]; intros p s Hs Ha; [by exists s|].
  destruct Ha as [Hm Ha]. destruct (cursor_moves p m s Hs Hm) as (s1 & E1 & H1).
  destruct (IH _ s1 H1 Ha) as (s2 & E2 & H2). exists s2. split; [|done]. cbn [run_moves].
  by rewrite (method_bind_ok E1), (method_bind_ok E2).
Qed.
End cursor_over.
