(* ===== verification/Tokenizer.v ===== *)
(** * The tokenizer of the X DevAPI parsers

    src/mysqlconnector/cdk/parser/tokenizer.{h,cc}: the tokens of JSON documents and
    expressions, the class [Tokenizer] that splits a wide string into them, the errors
    with the context they print, and the conversions of the text of a token to a number.
    A wide string is a list of [wchar_t] values; the character classes are those of the
    "C" locale.  The members of the tokenizer keep their names: the input, the position
    in it, the start of the current token and the tokens found so far. *)

From S2P Require Import Prelude Cursor.

(** ** Wide strings *)

Abbreviation wstr := (list Z).

(** A wide literal, written as the literals of [Prelude]. *)
Definition wlit (s : string) : wstr := (fun c => Z.of_nat (nat_of_ascii c)) <$> lit s.
Arguments wlit : simpl never.

(** The character of a literal of one character. *)
Definition wchar (s : string) : Z := default 0 (head (wlit s)).
Arguments wchar : simpl never.

(** Classes of [std::ctype<wchar_t>] in the "C" locale. *)
Definition ctf_space (c : Z) : bool := (c =? 32) || ((9 <=? c) && (c <=? 13)).
Definition ctf_digit (c : Z) : bool := (48 <=? c) && (c <=? 57).
Definition ctf_upper (c : Z) : bool := (65 <=? c) && (c <=? 90).
Definition ctf_lower (c : Z) : bool := (97 <=? c) && (c <=? 122).
Definition ctf_alnum (c : Z) : bool := ctf_digit c || ctf_upper c || ctf_lower c.
Definition ctf_tolower (c : Z) : Z := if ctf_upper c then c + 32 else c.

(** The text up to the first NUL: what a constructor from a pointer reads. *)
Fixpoint until_nul (s : wstr) : wstr :=
  match s with
  | [] => []
  | c :: s' => if c =? 0 then [] else c :: until_nul s'
  end.

(** ** Errors with their context *)

Definition seen_buf_len : nat := 64.
Definition ahead_buf_len : nat := 8.

(** A buffer of [n] characters, zeroed and then filled from its start. *)
Definition filled (n : nat) (s : wstr) : wstr := s ++ replicate (n - length s) 0.

(** [string::copy]: at most [n] characters from [pos]; out of range it throws. *)
Definition copy (s : wstr) (n pos : nat) : outcome wstr :=
  if decide (pos <= length s)%nat then Ok (take n (drop pos s)) else Throw OutOfRange.

Definition Error_buffers (ctx : wstr) (m_pos : nat) : outcome (wstr * wstr) :=
  match ctx with
  | [] => Ok (replicate seen_buf_len 0, replicate ahead_buf_len 0)
  | _ =>
      let howmuch := if decide (seen_buf_len - 1 < m_pos)%nat then (seen_buf_len - 1)%nat
                     else m_pos in
      seen ← copy ctx howmuch (m_pos - howmuch);
      let m_seen := filled seen_buf_len seen in
      let m_seen := if decide (seen_buf_len - 1 < m_pos)%nat then <[0%nat := 0]> m_seen
                    else m_seen in
      ahead ← copy ctx (ahead_buf_len - 2) m_pos;
      let m_ahead := filled ahead_buf_len ahead in
      let m_ahead := if decide (m_pos + ahead_buf_len - 2 < length ctx)%nat
                     then <[(ahead_buf_len - 1)%nat := 1]> m_ahead else m_ahead in
      Ok (m_seen, m_ahead)
  end.

(** [throw Error(ctx, pos, descr)]. *)
Definition throw_error {A} (ctx : wstr) (pos : nat) (descr : wstr) : outcome A :=
  '(seen, ahead) ← Error_buffers ctx pos; Throw (ParseError seen ahead pos descr).

Definition print_ctx (m_seen m_ahead : wstr) : wstr :=
  let c k := nth k m_seen 0 in
  let seen_part := bool_decide (c 0%nat <> 0) || bool_decide (c 1%nat <> 0) in
  (if seen_part then
     wlit "After seeing '" ++
     (if c 0%nat =? 0 then wlit "..." ++ until_nul (drop 1 m_seen) else until_nul m_seen) ++
     wlit "'"
   else []) ++
  (if bool_decide (nth 0 m_ahead 0 <> 0) then
     (if seen_part then wlit ", looking at '" else wlit "While looking at '") ++
     until_nul m_ahead ++
     (if nth (ahead_buf_len - 1) m_ahead 0 =? 1 then wlit "..." else []) ++ wlit "'"
   else if seen_part then wlit ", with no more characters in the string"
   else wlit "While looking at empty string").

(** [do_describe1]: the context, then the message if there is one. *)
Definition do_describe1 (m_seen m_ahead m_msg : wstr) : wstr :=
  print_ctx m_seen m_ahead ++ match m_msg with [] => [] | _ => wlit ": " ++ m_msg end.

(** ** Tokens *)

(** [TOKEN_LIST]: the enumerators in the order of the source. *)
Inductive Token_Type :=
| WORD | QWORD | QSTRING | QQSTRING | NUMBER | INTEGER | HEX
| LPAREN | RPAREN | LCURLY | RCURLY | LSQBRACKET | RSQBRACKET | DOT | COMMA | EQ | GT | LT
| AMPERSTAND | BAR | HAT | PLUS | MINUS | STAR | SLASH | PERCENT | BANG | TILDE | QUESTION
| COLON | DOLLAR
| NE | DF | GE | LE | LSHIFT | RSHIFT | DOUBLESTAR | ARROW2 | ARROW | AMPERSTAND2 | BAR2 | EQ2.

#[export] Instance Token_Type_eq_dec : EqDecision Token_Type.
Proof. solve_decision. Defined.

Definition SYMBOL_LIST2 : list (Token_Type * wstr) :=
  [(NE, wlit "!="); (DF, wlit "<>"); (GE, wlit ">="); (LE, wlit "<="); (LSHIFT, wlit "<<");
   (RSHIFT, wlit ">>"); (DOUBLESTAR, wlit "**"); (ARROW2, wlit "->>"); (ARROW, wlit "->");
   (AMPERSTAND2, wlit "&&"); (BAR2, wlit "||"); (EQ2, wlit "==")].

Definition SYMBOL_LIST1 : list (Token_Type * wstr) :=
  [(LPAREN, wlit "("); (RPAREN, wlit ")"); (LCURLY, wlit "{"); (RCURLY, wlit "}");
   (LSQBRACKET, wlit "["); (RSQBRACKET, wlit "]"); (DOT, wlit "."); (COMMA, wlit ",");
   (EQ, wlit "="); (GT, wlit ">"); (LT, wlit "<"); (AMPERSTAND, wlit "&"); (BAR, wlit "|");
   (HAT, wlit "^"); (PLUS, wlit "+"); (MINUS, wlit "-"); (STAR, wlit "*"); (SLASH, wlit "/");
   (PERCENT, wlit "%"); (BANG, wlit "!"); (TILDE, wlit "~"); (QUESTION, wlit "?");
   (COLON, wlit ":"); (DOLLAR, wlit "$")].

(** Begin and end are positions in the input; the text of a quoted token has no quotes. *)
Record Token := mk_Token {
  tok_type : Token_Type;
  tok_text : wstr;
  pos_begin : nat;
  pos_end : nat
}.

#[export] Instance Token_eq_dec : EqDecision Token.
Proof. solve_decision. Defined.

(** ** The members of the tokenizer *)

Record Tokenizer := mk_Tokenizer {
  _input : wstr;
  _in_pos : nat;
  _tok_pos : nat;
  _tokens : list Token
}.

Abbreviation lexer := (Method Tokenizer).

Definition set_in_pos (p : nat) (t : Tokenizer) : Tokenizer :=
  mk_Tokenizer (_input t) p (_tok_pos t) (_tokens t).

(** Access to the characters *)

Definition chars_available (t : Tokenizer) : bool :=
  bool_decide (_in_pos t < length (_input t))%nat.

Definition token_error {A} (msg : wstr) : lexer A :=
  fun t => (throw_error (_input t) (_in_pos t) msg, t).

Definition cur_char : lexer Z := fun t =>
  if chars_available t
  then (match _input t !! _in_pos t with Some c => Ok c | None => Throw OutOfRange end, t)
  else token_error (wlit "More characters expected") t.

Definition next_char_is (c : Z) (off : nat) (t : Tokenizer) : bool :=
  bool_decide (_input t !! (_in_pos t + off)%nat = Some c).

Definition next_char_in (set : wstr) (off : nat) (t : Tokenizer) : bool :=
  match _input t !! (_in_pos t + off)%nat with
  | None => false
  | Some c => bool_decide (c <> 0) && bool_decide (c ∈ set)
  end.

Definition cur_char_is (c : Z) : Tokenizer -> bool := next_char_is c 0.
Definition cur_char_in (set : wstr) : Tokenizer -> bool := next_char_in set 0.

Definition cur_char_is_space : lexer bool := c ← cur_char; mret (ctf_space c).

Definition cur_char_is_word : lexer bool :=
  b ← read (cur_char_is (wchar "_"));
  if b : bool then mret true else c ← cur_char; mret (ctf_alnum c).

Definition consume_char : lexer Z :=
  c ← cur_char; update (fun t => set_in_pos (S (_in_pos t)) t);; mret c.

Definition consume_char_is (c : Z) : lexer bool :=
  b ← read (cur_char_is c);
  if b : bool then consume_char;; mret true else mret false.

(** Returns the character, or NUL if it is none of the set. *)
Definition consume_char_in (set : wstr) : lexer Z :=
  b ← read (cur_char_in set);
  if b : bool then consume_char else mret 0.

Definition consume_chars (str : wstr) : lexer bool := fun t =>
  if decide (take (length str) (drop (_in_pos t) (_input t)) = str)
  then (Ok true, set_in_pos (_in_pos t + length str) t) else (Ok false, t).

(** ** Building the sequence of tokens *)

Definition set_token_start : lexer unit :=
  update (fun t => mk_Tokenizer (_input t) (_in_pos t) (_in_pos t) (_tokens t)).

Definition add_token_text (tt : Token_Type) (val : wstr) : lexer unit :=
  update (fun t => mk_Tokenizer (_input t) (_in_pos t) (_tok_pos t)
    (_tokens t ++ [mk_Token tt val (_tok_pos t) (_in_pos t)])).

(** The characters of the token are those of the input since its start. *)
Definition add_token (tt : Token_Type) : lexer unit :=
  text ← read (fun t => take (_in_pos t - _tok_pos t) (drop (_tok_pos t) (_input t)));
  add_token_text tt text;;
  set_token_start.

(** ** The kinds of tokens *)

(** A loop whose body says whether there is another turn.  A turn of the loops below
    that goes on consumes a character, so one more turn than there are characters is
    enough. *)
Fixpoint loop (fuel : nat) (body : lexer bool) : lexer unit :=
  match fuel with
  | O => pure Diverged
  | S n => b ← body; if b : bool then loop n body else mret tt
  end.

Definition turns (t : Tokenizer) : nat := S (length (_input t)).

Definition dec_digits : wstr := wlit "0123456789".
Definition hex_digits : wstr := wlit "0123456789ABCDEFabcdef".

(** Called without an output string. *)
Definition parse_digits : lexer bool :=
  has_digits ← read (cur_char_in dec_digits);
  n ← read turns;
  loop n (b ← read (fun t => chars_available t && cur_char_in dec_digits t);
          if b : bool then consume_char;; mret true else mret false);;
  mret has_digits.

Definition parse_exponent : lexer bool :=
  consume_char_in (wlit "+-");;
  d ← parse_digits;
  if d : bool then add_token NUMBER;; mret true
  else token_error (wlit "No digits in the exponent").

Definition parse_number : lexer bool :=
  set_token_start;;
  lone ← read (fun t => cur_char_is (wchar ".") t && negb (next_char_in dec_digits 1 t));
  if lone : bool then mret false else
  digits ← parse_digits;
  dot ← read (cur_char_is (wchar "."));
  if negb digits && negb dot then mret false else
  is_float ← consume_char_is (wchar ".");
  frac ← (if is_float : bool then parse_digits else mret true);
  if negb frac then token_error (wlit "No digits after decimal point") else
  e ← consume_char_in (wlit "Ee");
  if negb is_float && (e =? 0) then add_token INTEGER;; mret true
  else if e =? 0 then add_token NUMBER;; mret true
  else parse_exponent.

(** Returns the digits, none when the next character is not one. *)
Fixpoint hex_loop (fuel : nat) (digits : wstr) : lexer wstr :=
  match fuel with
  | O => pure Diverged
  | S n =>
      b ← read (cur_char_in hex_digits);
      if b : bool then c ← consume_char; hex_loop n (digits ++ [c]) else mret digits
  end.

Definition parse_hex_digits : lexer wstr := n ← read turns; hex_loop n [].

Definition parse_hex_x : lexer bool :=
  q ← read (next_char_is (wchar "'") 1);
  if negb q then mret false else
  consume_char;; consume_char;;
  val ← parse_hex_digits;
  if bool_decide (val = []) then token_error (wlit "Unexpected character inside hex literal")
  else
  close ← consume_char_is (wchar "'");
  if negb close then token_error (wlit "Unexpected character inside hex literal")
  else add_token_text HEX val;; mret true.

Definition parse_hex_0 : lexer bool :=
  x ← read (next_char_in (wlit "Xx") 1);
  if negb x then mret false else
  consume_char;; consume_char;;
  val ← parse_hex_digits;
  if bool_decide (val = []) then token_error (wlit "No hex digits found after 0x")
  else add_token_text HEX val;; mret true.

Definition parse_hex : lexer bool :=
  more ← read chars_available;
  if negb more then mret false else
  c ← cur_char;
  if (c =? wchar "X") || (c =? wchar "x") then parse_hex_x
  else if c =? wchar "0" then parse_hex_0
  else mret false.

Definition start_len : nat := 8.

(** The first characters of an unterminated string, as the error shows them. *)
Definition quoted_start (qchar : Z) (val : wstr) : wstr :=
  until_nul (take (start_len - 1) (qchar :: val)).

Definition unterminated (qchar : Z) (val : wstr) : wstr :=
  wlit "Unterminated quoted string starting with " ++ quoted_start qchar val ++ wlit "...".

(** One turn: [true] when the closing quote was consumed. *)
Definition quote_ends (qchar : Z) : lexer bool :=
  esc ← consume_char_is (wchar "\\");
  if esc : bool then mret false else
  q ← consume_char_is qchar;
  if negb q then mret false else
  again ← read (cur_char_is qchar);
  mret (negb again).

Fixpoint quoted_loop (fuel : nat) (qchar : Z) (val : wstr) : lexer wstr :=
  match fuel with
  | O => pure Diverged
  | S n =>
      more ← read chars_available;
      if negb more then token_error (unterminated qchar val) else
      fin ← quote_ends qchar;
      if fin : bool then mret val else
      c ← consume_char; quoted_loop n qchar (val ++ [c])
  end.

(** [None] when there is no opening quote. *)
Definition parse_quotted_string (qchar : Z) : lexer (option wstr) :=
  q ← consume_char_is qchar;
  if negb q then mret None else
  n ← read turns; val ← quoted_loop n qchar []; mret (Some val).

Definition quote_char : Z := 34.

Definition parse_string : lexer bool :=
  set_token_start;;
  quote ← cur_char;
  if negb ((quote =? quote_char) || (quote =? wchar "'")) then mret false else
  v ← parse_quotted_string quote;
  match v with
  | None => mret false
  | Some val =>
      add_token_text (if quote =? quote_char then QQSTRING else QSTRING) val;; mret true
  end.

Definition word_loop : lexer unit :=
  n ← read turns;
  loop n (more ← read chars_available;
          w ← (if more : bool then cur_char_is_word else mret false);
          if w : bool then consume_char;; mret true else mret false).

Definition parse_word : lexer bool :=
  more ← read chars_available;
  if negb more then mret false else
  set_token_start;;
  tick ← read (cur_char_is (wchar "`"));
  if tick : bool then
    word ← parse_quotted_string (wchar "`");
    add_token_text QWORD (default [] word);; mret true
  else
    start ← read _in_pos;
    word_loop;;
    stop ← read _in_pos;
    if bool_decide (stop = start) then mret false else add_token WORD;; mret true.

Fixpoint symbol2 (l : list (Token_Type * wstr)) : lexer bool :=
  match l with
  | [] => mret false
  | (T, X) :: l' =>
      b ← consume_chars X;
      if b : bool then add_token_text T X;; mret true else symbol2 l'
  end.

Fixpoint symbol1 (c : Z) (l : list (Token_Type * wstr)) : lexer bool :=
  match l with
  | [] => mret false
  | (T, X) :: l' =>
      if bool_decide (Some c = head X) then consume_char;; add_token_text T X;; mret true
      else symbol1 c l'
  end.

Definition skip_spaces : lexer unit :=
  n ← read turns;
  loop n (more ← read chars_available;
          s ← (if more : bool then cur_char_is_space else mret false);
          if s : bool then consume_char;; mret true else mret false).

(** The first of the attempts that recognises a token. *)
Definition orelse (m1 m2 : lexer bool) : lexer bool :=
  b ← m1; if b : bool then mret true else m2.

Definition next_token : lexer bool :=
  orelse parse_string (orelse parse_hex (orelse parse_number (
  set_token_start;;
  orelse (symbol2 SYMBOL_LIST2) (
  c ← cur_char;
  orelse (symbol1 c SYMBOL_LIST1) (orelse parse_word (
  token_error (wlit "Could not recognize next token"))))))).

(** One turn of the loop of [get_tokens]. *)
Definition get_tokens_turn : lexer bool :=
  more ← read chars_available;
  if negb more then mret false else
  c ← cur_char;
  if c =? 0 then mret false else
  skip_spaces;;
  more ← read chars_available;
  if negb more then mret false else next_token.

Definition get_tokens : lexer unit := n ← read turns; loop n get_tokens_turn.

(** The constructor. *)
Definition Tokenizer_new (input : wstr) : outcome (list Token) :=
  let '(o, t) := get_tokens (mk_Tokenizer input 0 0 []) in
  o ≫= fun _ => Ok (_tokens t).

(** ** Conversions to numbers *)

Definition digit_value (radix c : Z) : option Z :=
  let d := if ctf_digit c then c - 48
           else if ctf_upper c then c - 55 else if ctf_lower c then c - 87 else 99 in
  if d <? radix then Some d else None.

(** The value of the digits at the start, how many there are, and the rest. *)
Fixpoint take_digits (radix : Z) (s : wstr) (acc : Z) (n : nat) : Z * nat * wstr :=
  match s with
  | [] => (acc, n, [])
  | c :: s' =>
      match digit_value radix c with
      | Some d => take_digits radix s' (acc * radix + d) (S n)
      | None => (acc, n, s)
      end
  end.

Definition take_sign (s : wstr) : bool * wstr :=
  match s with
  | c :: s' => if c =? 45 then (true, s') else if c =? 43 then (false, s') else (false, s)
  | [] => (false, [])
  end.

(** [strtonum] for integers: what [num_get::get] of the "C" locale reads, all of which
    has to be the number.  [fits] is the range of the type. *)
Definition strtonum_int (fits : bool -> Z -> bool) (str : wstr) (radix : Z) : outcome (bool * Z) :=
  let '(neg, s) := take_sign str in
  let '(v, n, rest) := take_digits radix s 0 0 in
  if bool_decide (n = O) || negb (fits neg v) then Throw (ConversionError str)
  else match rest with [] => Ok (neg, v) | _ => Throw (ConversionPartial str) end.

Definition strtoui (str : wstr) (radix : Z) : outcome Z :=
  '(neg, v) ← strtonum_int (fun _ v => v <? 2 ^ 64) str radix;
  Ok (if neg : bool then to_size_t (- v) else v).

Definition strtoi (str : wstr) (radix : Z) : outcome Z :=
  '(neg, v) ← strtonum_int (fun neg v => if neg : bool then v <=? 2 ^ 63 else v <? 2 ^ 63) str radix;
  Ok (if neg : bool then - v else v).

(** A decimal number, [dec_mant * 10 ^ dec_exp]; the [double] read from a text is the
    nearest one. *)
Record decimal := mk_decimal { dec_neg : bool; dec_mant : Z; dec_exp : Z }.

#[export] Instance decimal_eq_dec : EqDecision decimal.
Proof. solve_decision. Defined.

Definition dec_opp (d : decimal) : decimal := mk_decimal (negb (dec_neg d)) (dec_mant d) (dec_exp d).

(** From here on a number is nearer to [2 ^ 1024] than to any [double]. *)
Definition double_limit : Z := 2 ^ 1024 - 2 ^ 970.

Definition dec_overflows (d : decimal) : bool :=
  if 0 <=? dec_exp d then double_limit <=? dec_mant d * 10 ^ dec_exp d
  else double_limit * 10 ^ (- dec_exp d) <=? dec_mant d.

(** The digits after a decimal point. *)
Definition take_fraction (s : wstr) (v : Z) : Z * nat * wstr :=
  match s with
  | c :: s' => if c =? 46 then take_digits 10 s' v 0 else (v, O, s)
  | [] => (v, O, [])
  end.

(** The exponent; [None] if there are no digits in it. *)
Definition take_exponent (s : wstr) : option (Z * wstr) :=
  match s with
  | c :: s' =>
      if (c =? 69) || (c =? 101) then
        let '(neg, s'') := take_sign s' in
        let '(e, n, rest) := take_digits 10 s'' 0 0 in
        if bool_decide (n = O) then None else Some (if neg : bool then - e else e, rest)
      else Some (0, s)
  | [] => Some (0, [])
  end.

Definition strtod (str : wstr) : outcome decimal :=
  let '(neg, s) := take_sign str in
  let '(v, n, s1) := take_digits 10 s 0 0 in
  let '(m, k, s2) := take_fraction s1 v in
  match take_exponent s2 with
  | None => Throw (ConversionError str)
  | Some (e, rest) =>
      let d := mk_decimal neg m (e - Z.of_nat k) in
      if bool_decide (n + k = 0)%nat || dec_overflows d then Throw (ConversionError str)
      else match rest with [] => Ok d | _ => Throw (ConversionPartial str) end
  end.

(** [Numeric_conversion_error::msg]. *)
Definition conversion_msg (e : exn) : option wstr :=
  match e with
  | ConversionError inp =>
      Some (wlit "Failed to convert string '" ++ inp ++ wlit "' to a number")
  | ConversionPartial inp =>
      Some (wlit "Not all characters consumed when converting string '" ++ inp ++
            wlit "' to a number")
  | _ => None
  end.
