(* ===== verification/Tokens.v ===== *)
(** * What the tokenizer of the X DevAPI parsers returns

    The grammar of tokens as a relation between the characters of a token and its type
    and text, and the proof that [Tokenizer_new] splits every input into blanks and such
    tokens or reports a parse error; [wp] is the logic the proof uses.  Then the tokens
    of a printed text: words, integers, quoted strings and symbols, each followed by a
    blank, are read back. *)

From S2P Require Import Prelude Cursor Tokenizer.

(** ** A logic for the methods of the tokenizer *)

(** The method returns with a result that satisfies [Q], or throws a parse error. *)
Definition wp {A} (m : lexer A) (Q : A -> Tokenizer -> Prop) (t : Tokenizer) : Prop :=
  match m t with
  | (Ok a, t') => Q a t'
  | (Throw (ParseError _ _ _ _), _) => True
  | _ => False
  end.

Section wp_rules.
Context {A B : Type}.
Implicit Types (m : lexer A) (t : Tokenizer).

Lemma wp_ret (a : A) (Q : A -> Tokenizer -> Prop) t : Q a t -> wp (mret a) Q t.
Proof using. done. Qed.

Lemma wp_bind m (f : A -> lexer B) Q t :
  wp m (fun a t' => wp (f a) Q t') t -> wp (m ≫= f) Q t.
Proof using.
  unfold wp, mbind, Method_bind. destruct (m t) as [[a|[]| |] t']; done.
Qed.

Lemma wp_mono m (Q R : A -> Tokenizer -> Prop) t :
  wp m Q t -> (forall a t', Q a t' -> R a t') -> wp m R t.
Proof using. unfold wp. intros H HQ. destruct (m t) as [[a|[]| |] t']; auto. Qed.

Lemma wp_read (g : Tokenizer -> A) (Q : A -> Tokenizer -> Prop) t : Q (g t) t -> wp (read g) Q t.
Proof using. done. Qed.

Lemma wp_update (g : Tokenizer -> Tokenizer) (Q : unit -> Tokenizer -> Prop) t :
  Q tt (g t) -> wp (update g) Q t.
Proof using. done. Qed.
End wp_rules.

(** ** States by what is before and after the position *)

Definition lx (pre rest : wstr) (tp : nat) (toks : list Token) : Tokenizer :=
  mk_Tokenizer (pre ++ rest) (length pre) tp toks.

Lemma lx_available pre rest tp toks :
  chars_available (lx pre rest tp toks) = bool_decide (rest <> []).
Proof.
  unfold chars_available, lx. simpl. apply bool_decide_ext. rewrite length_app.
  destruct rest; simpl; split; try done; lia.
Qed.

Lemma lx_at pre rest tp toks off :
  _input (lx pre rest tp toks) !! (_in_pos (lx pre rest tp toks) + off)%nat = rest !! off.
Proof. unfold lx. simpl. rewrite lookup_app_r; [f_equal|]; lia. Qed.

Lemma lx_next_is pre rest tp toks c off :
  next_char_is c off (lx pre rest tp toks) = bool_decide (rest !! off = Some c).
Proof. unfold next_char_is. by rewrite lx_at. Qed.

Lemma lx_next_in pre rest tp toks set off :
  next_char_in set off (lx pre rest tp toks) =
  match rest !! off with None => false | Some c => bool_decide (c <> 0) && bool_decide (c ∈ set) end.
Proof. unfold next_char_in. by rewrite lx_at. Qed.

Lemma cur_char_lx pre c rest tp toks :
  cur_char (lx pre (c :: rest) tp toks) = (Ok c, lx pre (c :: rest) tp toks).
Proof.
  unfold cur_char. rewrite lx_available. simpl.
  pose proof (lx_at pre (c :: rest) tp toks 0) as H. rewrite Nat.add_0_r in H.
  unfold lx in H |- *. simpl in H |- *. by rewrite H.
Qed.

Lemma lx_step pre c rest tp toks :
  set_in_pos (S (_in_pos (lx pre (c :: rest) tp toks))) (lx pre (c :: rest) tp toks) =
  lx (pre ++ [c]) rest tp toks.
Proof.
  unfold set_in_pos, lx. simpl. rewrite <- app_assoc, length_app. simpl.
  by rewrite Nat.add_1_r.
Qed.

Lemma consume_char_lx pre c rest tp toks :
  consume_char (lx pre (c :: rest) tp toks) = (Ok c, lx (pre ++ [c]) rest tp toks).
Proof.
  unfold consume_char. rewrite (method_bind_ok (cur_char_lx _ _ _ _ _)), method_update, lx_step.
  done.
Qed.

Lemma consume_char_is_lx pre rest tp toks c :
  consume_char_is c (lx pre rest tp toks) =
  match rest with
  | c' :: rest' => if decide (c' = c) then (Ok true, lx (pre ++ [c]) rest' tp toks)
                   else (Ok false, lx pre rest tp toks)
  | [] => (Ok false, lx pre rest tp toks)
  end.
Proof.
  unfold consume_char_is, cur_char_is. rewrite method_read, lx_next_is.
  destruct rest as [|c' rest]; [done|]. simpl. case_decide as Hc.
  - subst. rewrite bool_decide_true by done. by rewrite (method_bind_ok (consume_char_lx _ _ _ _ _)).
  - by rewrite bool_decide_false by congruence.
Qed.

Lemma consume_char_in_lx pre rest tp toks set :
  consume_char_in set (lx pre rest tp toks) =
  match rest with
  | c :: rest' => if decide (c <> 0 /\ c ∈ set) then (Ok c, lx (pre ++ [c]) rest' tp toks)
                  else (Ok 0, lx pre rest tp toks)
  | [] => (Ok 0, lx pre rest tp toks)
  end.
Proof.
  unfold consume_char_in, cur_char_in. rewrite method_read, lx_next_in.
  destruct rest as [|c rest]; [done|]. simpl. rewrite <- bool_decide_and.
  case_decide as Hc.
  - rewrite bool_decide_true by done. apply consume_char_lx.
  - by rewrite bool_decide_false by done.
Qed.

Lemma throw_error_parse {A} ctx pos msg : (pos <= length ctx)%nat ->
  exists seen ahead, @throw_error A ctx pos msg = Throw (ParseError seen ahead pos msg).
Proof.
  intros Hp. unfold throw_error, Error_buffers. destruct ctx as [|x l] eqn:E; [eauto|].
  rewrite <- E in *. unfold copy. rewrite !decide_True by (repeat case_decide; lia). simpl. eauto.
Qed.

Lemma token_error_lx {A} pre rest tp toks msg (Q : A -> Tokenizer -> Prop) :
  wp (token_error msg) Q (lx pre rest tp toks).
Proof.
  unfold wp, token_error, lx. simpl.
  destruct (@throw_error_parse A (pre ++ rest) (length pre) msg) as (s & a & ->); [|done].
  rewrite length_app. lia.
Qed.

Lemma consume_char_end pre tp toks Q : wp consume_char Q (lx pre [] tp toks).
Proof.
  unfold consume_char. apply wp_bind. unfold cur_char, wp at 1. rewrite lx_available.
  rewrite bool_decide_false by auto. unfold token_error, lx. simpl.
  destruct (@throw_error_parse Z (pre ++ []) (length pre) (wlit "More characters expected"))
    as (s & a & ->); [|done].
  rewrite length_app. lia.
Qed.

Lemma turns_lx pre rest tp toks : (length rest < turns (lx pre rest tp toks))%nat.
Proof. unfold turns, lx. simpl. rewrite length_app. lia. Qed.

Lemma set_token_start_lx pre rest tp toks :
  set_token_start (lx pre rest tp toks) = (Ok tt, lx pre rest (length pre) toks).
Proof. done. Qed.

Lemma add_token_text_lx pre rest tp toks tt val :
  add_token_text tt val (lx pre rest tp toks) =
  (Ok (), lx pre rest tp (toks ++ [mk_Token tt val tp (length pre)])).
Proof. done. Qed.

Lemma add_token_lx pre slice rest toks tt :
  add_token tt (lx (pre ++ slice) rest (length pre) toks) =
  (Ok (), lx (pre ++ slice) rest (length pre + length slice)
            (toks ++ [mk_Token tt slice (length pre) (length pre + length slice)])).
Proof.
  unfold add_token. rewrite method_read.
  unfold lx at 1. simpl. rewrite !length_app.
  replace (length pre + length slice - length pre)%nat with (length slice) by lia.
  rewrite <- app_assoc, drop_app_length, take_app_length.
  rewrite (method_bind_ok (add_token_text_lx _ _ _ _ _ _)).
  rewrite set_token_start_lx. by rewrite !length_app.
Qed.

(** ** Loops over a class of characters *)

Fixpoint span (p : Z -> bool) (s : wstr) : wstr * wstr :=
  match s with
  | c :: s' => if p c then let '(l, r) := span p s' in (c :: l, r) else ([], s)
  | [] => ([], [])
  end.

Lemma span_app p s : (span p s).1 ++ (span p s).2 = s.
Proof.
  induction s as [|c s IH]; [done|]. simpl. destruct (p c); [|done].
  destruct (span p s). simpl in *. by rewrite IH.
Qed.

Lemma span_all p s : Forall (fun c => p c = true) (span p s).1.
Proof.
  induction s as [|c s IH]; [constructor|]. simpl. destruct (p c) eqn:E; [|constructor].
  destruct (span p s). by constructor.
Qed.

Lemma span_stop p s : match (span p s).2 with c :: _ => p c = false | [] => True end.
Proof.
  induction s as [|c s IH]; [done|]. simpl. destruct (p c) eqn:E; [|done].
  by destruct (span p s).
Qed.

Lemma span_exact p s r :
  Forall (fun c => p c = true) s -> match r with c :: _ => p c = false | [] => True end ->
  span p (s ++ r) = (s, r).
Proof.
  induction 1 as [|c s Hc _ IH]; intros Hr; simpl.
  - destruct r; [done|]. simpl. by rewrite Hr.
  - by rewrite Hc, IH.
Qed.

(** The body consumes a character of the class and goes on, or stops. *)
Definition consumes (p : Z -> bool) (body : lexer bool) : Prop :=
  forall pre rest tp toks, body (lx pre rest tp toks) =
    match rest with
    | c :: rest' => if p c then (Ok true, lx (pre ++ [c]) rest' tp toks)
                    else (Ok false, lx pre rest tp toks)
    | [] => (Ok false, lx pre rest tp toks)
    end.

Lemma loop_span p body rest : consumes p body -> forall n pre tp toks,
  (length rest < n)%nat ->
  loop n body (lx pre rest tp toks) =
  (Ok tt, lx (pre ++ (span p rest).1) (span p rest).2 tp toks).
Proof.
  intros Hb. induction rest as [|c rest IH]; intros [|n] pre tp toks Hn; simpl in Hn; try lia;
    simpl; unfold mbind at 1, Method_bind at 1; rewrite Hb.
  - by rewrite app_nil_r.
  - destruct (p c) eqn:E; [|by rewrite app_nil_r].
    rewrite IH by lia. destruct (span p rest). simpl. by rewrite <- app_assoc.
Qed.

Definition is_digit_in (set : wstr) (c : Z) : bool := bool_decide (c <> 0) && bool_decide (c ∈ set).

Lemma parse_digits_lx pre rest tp toks :
  let '(ds, rest') := span (is_digit_in dec_digits) rest in
  parse_digits (lx pre rest tp toks) =
  (Ok (negb (bool_decide (ds = []))), lx (pre ++ ds) rest' tp toks).
Proof.
  destruct (span (is_digit_in dec_digits) rest) as [ds rest'] eqn:E.
  unfold parse_digits. rewrite !method_read.
  assert (Hs : cur_char_in dec_digits (lx pre rest tp toks) = negb (bool_decide (ds = []))).
  { unfold cur_char_in. rewrite lx_next_in. destruct rest as [|c r]; simpl in E |- *.
    - by injection E as <- <-.
    - fold (is_digit_in dec_digits c). destruct (is_digit_in dec_digits c); [|by injection E as <- <-].
      destruct (span _ r). by injection E as <- <-. }
  rewrite Hs. unfold mbind at 1, Method_bind at 1.
  rewrite (loop_span (is_digit_in dec_digits)); [by rewrite E| |apply turns_lx].
  intros p r tp' ts. rewrite method_read, lx_available. unfold cur_char_in. rewrite lx_next_in.
  destruct r as [|c r]; [done|]. rewrite (bool_decide_true (c :: r <> [])) by done. simpl.
  fold (is_digit_in dec_digits c). destruct (is_digit_in dec_digits c); [|done].
  by rewrite (method_bind_ok (consume_char_lx _ _ _ _ _)).
Qed.

Lemma hex_loop_lx rest : forall n acc pre tp toks, (length rest < n)%nat ->
  let '(ds, rest') := span (is_digit_in hex_digits) rest in
  hex_loop n acc (lx pre rest tp toks) = (Ok (acc ++ ds), lx (pre ++ ds) rest' tp toks).
Proof.
  induction rest as [|c rest IH]; intros [|n] acc pre tp toks Hn; simpl in Hn; try lia; simpl;
    rewrite method_read; unfold cur_char_in; rewrite lx_next_in; simpl.
  - by rewrite !app_nil_r.
  - fold (is_digit_in hex_digits c). destruct (is_digit_in hex_digits c); [|by rewrite !app_nil_r].
    rewrite (method_bind_ok (consume_char_lx _ _ _ _ _)).
    specialize (IH n (acc ++ [c]) (pre ++ [c]) tp toks ltac:(lia)).
    destruct (span _ rest). rewrite IH. by rewrite <- !app_assoc.
Qed.

Lemma parse_hex_digits_lx pre rest tp toks :
  let '(ds, rest') := span (is_digit_in hex_digits) rest in
  parse_hex_digits (lx pre rest tp toks) = (Ok ds, lx (pre ++ ds) rest' tp toks).
Proof.
  pose proof (hex_loop_lx rest (turns (lx pre rest tp toks)) [] pre tp toks
    (turns_lx _ _ _ _)) as H.
  destruct (span _ rest). unfold parse_hex_digits. by rewrite method_read, H.
Qed.

Definition is_word (c : Z) : bool := (c =? wchar "_") || ctf_alnum c.

Lemma cur_char_is_word_lx pre c rest tp toks :
  cur_char_is_word (lx pre (c :: rest) tp toks) = (Ok (is_word c), lx pre (c :: rest) tp toks).
Proof.
  unfold cur_char_is_word, cur_char_is. rewrite method_read, lx_next_is. simpl.
  unfold is_word. destruct (Z.eqb_spec c (wchar "_")) as [->|Hc].
  - by rewrite bool_decide_true.
  - rewrite bool_decide_false by congruence. by rewrite (method_bind_ok (cur_char_lx _ _ _ _ _)).
Qed.

Lemma word_loop_lx pre rest tp toks :
  let '(w, rest') := span is_word rest in
  word_loop (lx pre rest tp toks) = (Ok tt, lx (pre ++ w) rest' tp toks).
Proof.
  destruct (span is_word rest) as [w rest'] eqn:E. unfold word_loop. rewrite method_read.
  rewrite (loop_span is_word); [by rewrite E| |apply turns_lx].
  intros p r tp' ts. rewrite method_read, lx_available. destruct r as [|c r]; [done|].
  rewrite bool_decide_true by done. rewrite (method_bind_ok (cur_char_is_word_lx _ _ _ _ _)).
  destruct (is_word c); [|done]. by rewrite (method_bind_ok (consume_char_lx _ _ _ _ _)).
Qed.

Lemma skip_spaces_lx pre rest tp toks :
  let '(w, rest') := span ctf_space rest in
  skip_spaces (lx pre rest tp toks) = (Ok tt, lx (pre ++ w) rest' tp toks).
Proof.
  destruct (span ctf_space rest) as [w rest'] eqn:E. unfold skip_spaces. rewrite method_read.
  rewrite (loop_span ctf_space); [by rewrite E| |apply turns_lx].
  intros p r tp' ts. rewrite method_read, lx_available. destruct r as [|c r]; [done|].
  rewrite bool_decide_true by done. unfold cur_char_is_space.
  unfold mbind at 1, Method_bind at 1. rewrite (method_bind_ok (cur_char_lx _ _ _ _ _)). simpl.
  destruct (ctf_space c); [|done]. by rewrite (method_bind_ok (consume_char_lx _ _ _ _ _)).
Qed.

(** ** Quoted strings *)

(** The characters between the quotes and the text they stand for: a backslash keeps the
    next character, two quotes are one. *)
Inductive quoted (q : Z) : wstr -> wstr -> Prop :=
| quoted_nil : quoted q [] []
| quoted_escape d body v : quoted q body v -> quoted q (wchar "\\" :: d :: body) (d :: v)
| quoted_twice body v : quoted q body v -> quoted q (q :: q :: body) (q :: v)
| quoted_char c body v :
    c <> wchar "\\" -> c <> q -> quoted q body v -> quoted q (c :: body) (c :: v).

Definition no_head (q : Z) (r : wstr) : Prop := match r with c :: _ => c <> q | [] => True end.

Lemma quote_ends_lx q pre rest tp toks :
  quote_ends q (lx pre rest tp toks) =
  match rest with
  | [] => (Ok false, lx pre rest tp toks)
  | c :: r =>
      if decide (c = wchar "\\") then (Ok false, lx (pre ++ [c]) r tp toks)
      else if decide (c = q) then
        (Ok (negb (bool_decide (r !! 0%nat = Some q))), lx (pre ++ [c]) r tp toks)
      else (Ok false, lx pre rest tp toks)
  end.
Proof.
  unfold quote_ends. unfold mbind at 1, Method_bind at 1. rewrite consume_char_is_lx.
  destruct rest as [|c r].
  { unfold mbind at 1, Method_bind at 1. by rewrite consume_char_is_lx. }
  case_decide as Hc; [by subst|].
  unfold mbind at 1, Method_bind at 1. rewrite consume_char_is_lx.
  case_decide as Hq; [|done]. subst. simpl. rewrite method_read. unfold cur_char_is.
  by rewrite lx_next_is.
Qed.

Lemma app_cons_not_nil' {A} (l : list A) x r : l ++ x :: r <> [].
Proof. by destruct l. Qed.

Section quoted_loop_spec.
Context (q : Z) (Hq : q <> wchar "\\").

Lemma quoted_loop_reads body v : quoted q body v -> forall n acc pre r tp toks,
  no_head q r -> (length (body ++ q :: r) < n)%nat ->
  quoted_loop n q acc (lx pre (body ++ q :: r) tp toks) =
  (Ok (acc ++ v), lx (pre ++ body ++ [q]) r tp toks).
Proof using Hq.
  induction 1 as [|d body v _ IH|body v _ IH|c body v Hc Hcq _ IH]; intros [|n] acc pre r tp toks
    Hr Hn; simpl in Hn; try lia; cbn [quoted_loop];
    rewrite method_read, lx_available, bool_decide_true by apply app_cons_not_nil'; cbn [negb];
    unfold mbind at 1, Method_bind at 1; rewrite quote_ends_lx; simpl.
  - rewrite decide_False, decide_True by done.
    replace (bool_decide (r !! 0%nat = Some q)) with false; [by rewrite app_nil_r|].
    destruct r as [|x r]; [done|]. simpl in Hr |- *. by rewrite bool_decide_false by congruence.
  - rewrite (method_bind_ok (consume_char_lx _ _ _ _ _)).
    rewrite IH by (done || lia). by rewrite <- !app_assoc.
  - rewrite decide_False, decide_True by done. rewrite bool_decide_true by done. simpl.
    rewrite (method_bind_ok (consume_char_lx _ _ _ _ _)).
    rewrite IH by (done || lia). by rewrite <- !app_assoc.
  - rewrite !decide_False by done. rewrite (method_bind_ok (consume_char_lx _ _ _ _ _)).
    rewrite IH by (done || lia). by rewrite <- !app_assoc.
Qed.

(** What the loop returns when it does. *)
Definition quoted_result (acc pre rest : wstr) (tp : nat) (toks : list Token)
    (w : wstr) (t : Tokenizer) : Prop :=
  exists body v r, w = acc ++ v /\ rest = body ++ q :: r /\ quoted q body v /\ no_head q r /\
    t = lx (pre ++ body ++ [q]) r tp toks.

Lemma quoted_result_cons acc pre front c rest tp toks w t :
  quoted_result (acc ++ [c]) (pre ++ front) rest tp toks w t ->
  (forall body v, quoted q body v -> quoted q (front ++ body) (c :: v)) ->
  quoted_result acc pre (front ++ rest) tp toks w t.
Proof using.
  intros (body & v & r & -> & -> & Hb & Hr & ->) Hf.
  exists (front ++ body), (c :: v), r. rewrite <- !app_assoc. auto.
Qed.

Lemma quoted_loop_sound : forall n rest acc pre tp toks, (length rest < n)%nat ->
  wp (quoted_loop n q acc) (quoted_result acc pre rest tp toks) (lx pre rest tp toks).
Proof using Hq.
  induction n as [|n IH]; intros rest acc pre tp toks Hn; [lia|]. cbn [quoted_loop].
  apply wp_bind, wp_read. rewrite lx_available. destruct rest as [|c r].
  { apply token_error_lx. }
  simpl in Hn. rewrite bool_decide_true by done. cbn [negb].
  apply wp_bind. unfold wp at 1. rewrite quote_ends_lx.
  assert (Hstep : forall d front r', r' = d :: drop 1 r' -> (length r' <= length r)%nat ->
    front ++ r' = c :: r ->
    (forall body v, quoted q body v -> quoted q (front ++ d :: body) (d :: v)) ->
    wp (consume_char ≫= (fun x => quoted_loop n q (acc ++ [x])))
      (quoted_result acc pre (c :: r) tp toks) (lx (pre ++ front) r' tp toks)).
  { intros d front r' -> Hl <- Hf. apply wp_bind. unfold wp at 1. rewrite consume_char_lx.
    simpl in Hl. eapply wp_mono; [apply IH; lia|]. intros w t Hw. rewrite <- app_assoc in Hw.
    eapply (quoted_result_cons _ _ (front ++ [d])) in Hw;
      [|intros; rewrite <- app_assoc; by apply Hf].
    by rewrite <- app_assoc in Hw. }
  case_decide as Hc; [|case_decide as Hcq].
  - subst. destruct r as [|d r].
    + apply wp_bind, consume_char_end.
    + apply (Hstep d [wchar "\\"] (d :: r)); simpl; [done|lia|done|]. intros. by apply quoted_escape.
  - subst. destruct r as [|d r].
    + simpl. exists [], [], []. rewrite app_nil_r. repeat split. constructor.
    + simpl. destruct (decide (d = q)) as [->|Hd].
      * rewrite bool_decide_true by done. simpl.
        apply (Hstep q [q] (q :: r)); simpl; [done|lia|done|]. intros. by apply quoted_twice.
      * rewrite bool_decide_false by congruence. simpl. exists [], [], (d :: r).
        rewrite app_nil_r. repeat split; [constructor|done].
  - apply wp_bind. unfold wp at 1. rewrite consume_char_lx.
    eapply wp_mono; [apply IH; lia|]. intros w t Hw.
    eapply (quoted_result_cons _ _ [c]) in Hw; [exact Hw|]. intros. by apply quoted_char.
Qed.
End quoted_loop_spec.

(** ** The grammar of tokens *)

Definition digits (s : wstr) : Prop := Forall (fun c => is_digit_in dec_digits c = true) s.
Definition hexes (s : wstr) : Prop := Forall (fun c => is_digit_in hex_digits c = true) s.

Inductive fraction : wstr -> Prop :=
| fraction_none : fraction []
| fraction_some ds : ds <> [] -> digits ds -> fraction (wchar "." :: ds).

Inductive exponent : wstr -> Prop :=
| exponent_none : exponent []
| exponent_plain e ds : e ∈ wlit "Ee" -> ds <> [] -> digits ds -> exponent (e :: ds)
| exponent_signed e s ds :
    e ∈ wlit "Ee" -> s ∈ wlit "+-" -> ds <> [] -> digits ds -> exponent (e :: s :: ds).

(** [shape ty text slice]: the characters [slice] are a token of type [ty] with that text. *)
Inductive shape : Token_Type -> wstr -> wstr -> Prop :=
| shape_word w : w <> [] -> Forall (fun c => is_word c = true) w -> shape WORD w w
| shape_qword body v : quoted (wchar "`") body v ->
    shape QWORD v (wchar "`" :: body ++ [wchar "`"])
| shape_qstring body v : quoted (wchar "'") body v ->
    shape QSTRING v (wchar "'" :: body ++ [wchar "'"])
| shape_qqstring body v : quoted quote_char body v ->
    shape QQSTRING v (quote_char :: body ++ [quote_char])
| shape_integer ds : ds <> [] -> digits ds -> shape INTEGER ds ds
| shape_number ip fp ex : digits ip -> fraction fp -> exponent ex ->
    ip ++ fp <> [] -> fp ++ ex <> [] -> shape NUMBER (ip ++ fp ++ ex) (ip ++ fp ++ ex)
| shape_hex_0 x ds : x ∈ wlit "Xx" -> ds <> [] -> hexes ds ->
    shape HEX ds (wchar "0" :: x :: ds)
| shape_hex_x x ds : x ∈ wlit "Xx" -> ds <> [] -> hexes ds ->
    shape HEX ds (x :: wchar "'" :: ds ++ [wchar "'"])
| shape_symbol ty s : (ty, s) ∈ SYMBOL_LIST2 ++ SYMBOL_LIST1 -> shape ty s s.

Lemma symbols_nonempty ty s : (ty, s) ∈ SYMBOL_LIST2 ++ SYMBOL_LIST1 -> s <> [].
Proof.
  assert (H : Forall (fun x : Token_Type * wstr => x.2 <> []) (SYMBOL_LIST2 ++ SYMBOL_LIST1))
    by forall_list done.
  intros Hin. by apply (proj1 (Forall_forall _ _) H) in Hin.
Qed.

Lemma shape_nonempty ty text slice : shape ty text slice -> slice <> [].
Proof.
  destruct 1; try done; [|by eapply symbols_nonempty].
  rewrite app_assoc. by intros [? _]%app_eq_nil.
Qed.

(** An attempt recognises a token at the position, or leaves the position where it is. *)
Definition recognised (pre rest : wstr) (toks : list Token) (b : bool) (t : Tokenizer) : Prop :=
  if b then exists ty text slice rest' tp', rest = slice ++ rest' /\ shape ty text slice /\
    t = lx (pre ++ slice) rest' tp'
          (toks ++ [mk_Token ty text (length pre) (length pre + length slice)])
  else t = lx pre rest (length pre) toks.

Definition attempt (m : lexer bool) : Prop := forall pre rest toks, rest <> [] ->
  wp m (recognised pre rest toks) (lx pre rest (length pre) toks).

Lemma attempt_orelse m1 m2 : attempt m1 -> attempt m2 -> attempt (orelse m1 m2).
Proof.
  intros H1 H2 pre rest toks Hr. unfold orelse. apply wp_bind.
  eapply wp_mono; [by apply H1|]. intros [|] t Ht; [exact Ht|].
  simpl in Ht. subst. by apply H2.
Qed.

Lemma attempt_start m : attempt m -> attempt (set_token_start;; m).
Proof. intros H pre rest toks Hr. apply wp_bind. by apply H. Qed.

(** A token with its own text, and one whose text is given. *)
Lemma recognised_text pre slice rest' toks ty text :
  shape ty text slice ->
  wp (add_token_text ty text;; mret true) (recognised pre (slice ++ rest') toks)
    (lx (pre ++ slice) rest' (length pre) toks).
Proof.
  intros Hs. apply wp_bind. unfold wp. rewrite add_token_text_lx. simpl.
  exists ty, text, slice, rest', (length pre). by rewrite length_app.
Qed.

Lemma recognised_slice pre slice rest' toks ty :
  shape ty slice slice ->
  wp (add_token ty;; mret true) (recognised pre (slice ++ rest') toks)
    (lx (pre ++ slice) rest' (length pre) toks).
Proof.
  intros Hs. apply wp_bind. unfold wp. rewrite add_token_lx. simpl.
  by exists ty, slice, slice, rest', (length pre + length slice)%nat.
Qed.

Lemma wp_eq {A} (m : lexer A) Q t a t' : m t = (Ok a, t') -> Q a t' -> wp m Q t.
Proof. unfold wp. by intros ->. Qed.

Lemma wp_bind_eq {A B} (m : lexer A) (f : A -> lexer B) Q t a t' :
  m t = (Ok a, t') -> wp (f a) Q t' -> wp (m ≫= f) Q t.
Proof. intros. apply wp_bind. by eapply wp_eq. Qed.

Lemma parse_quotted_attempt q pre rest toks tp : q <> wchar "\\" ->
  wp (parse_quotted_string q) (fun o t =>
    match o with
    | None => no_head q rest /\ t = lx pre rest tp toks
    | Some v => exists body r, rest = (q :: body ++ [q]) ++ r /\ quoted q body v /\
        t = lx (pre ++ q :: body ++ [q]) r tp toks
    end) (lx pre rest tp toks).
Proof.
  intros Hq. unfold parse_quotted_string. apply wp_bind. unfold wp at 1.
  rewrite consume_char_is_lx. destruct rest as [|c rest]; [by repeat split|].
  case_decide as Hc; simpl; [|by repeat split]. subst.
  apply wp_bind, wp_read, wp_bind. eapply wp_mono.
  { apply (quoted_loop_sound q Hq _ _ [] _ _ _), turns_lx. }
  intros w t (body & v & r & -> & -> & Hb & _ & ->). simpl.
  exists body, r. rewrite <- !app_assoc. by repeat split.
Qed.

Lemma parse_string_attempt : attempt parse_string.
Proof.
  intros pre rest toks Hr. unfold parse_string. apply wp_bind.
  eapply wp_eq; [apply set_token_start_lx|].
  destruct rest as [|c rest]; [done|]. eapply wp_bind_eq; [apply cur_char_lx|].
  destruct (Z.eqb_spec c quote_char) as [->|H1]; [|destruct (Z.eqb_spec c (wchar "'")) as [->|H2]];
    simpl; [| |done].
  all: apply wp_bind; eapply wp_mono; [by apply parse_quotted_attempt|].
  all: intros [v|] t; [|by intros [[] _]].
  all: intros (body & r & -> & Hb & ->); apply recognised_text; by constructor.
Qed.

Lemma parse_word_attempt : attempt parse_word.
Proof.
  intros pre rest toks Hr. unfold parse_word. apply wp_bind, wp_read.
  rewrite lx_available, bool_decide_true by done. simpl.
  eapply wp_bind_eq; [apply set_token_start_lx|]. apply wp_bind, wp_read.
  unfold cur_char_is. rewrite lx_next_is. destruct rest as [|c rest]; [done|]. simpl.
  case_bool_decide as Hc.
  - injection Hc as ->. apply wp_bind. eapply wp_mono; [by apply parse_quotted_attempt|].
    intros [v|] t; [|by intros [[] _]]. intros (body & r & -> & Hb & ->).
    apply recognised_text. by constructor.
  - apply wp_bind, wp_read. pose proof (word_loop_lx pre (c :: rest) (length pre) toks) as H.
    pose proof (span_app is_word (c :: rest)) as Hs.
    pose proof (span_all is_word (c :: rest)) as Ha.
    destruct (span is_word (c :: rest)) as [w rest']. simpl in Hs, Ha. rewrite <- Hs in *.
    eapply wp_bind_eq; [exact H|]. apply wp_bind, wp_read. unfold lx at 1 2. simpl.
    rewrite length_app. case_bool_decide as Hl.
    + assert (w = []) as -> by (apply length_zero_iff_nil; lia). simpl.
      unfold wp, recognised. simpl. by rewrite app_nil_r.
    + apply recognised_slice. constructor; [|done]. intros ->. simpl in Hl. lia.
Qed.

Lemma not_recognised pre rest toks :
  wp (mret false) (recognised pre rest toks) (lx pre rest (length pre) toks).
Proof. done. Qed.

Lemma parse_hex_x_attempt pre x rest toks : x ∈ wlit "Xx" ->
  wp parse_hex_x (recognised pre (x :: rest) toks) (lx pre (x :: rest) (length pre) toks).
Proof.
  intros Hx. unfold parse_hex_x. apply wp_bind, wp_read. rewrite lx_next_is. simpl.
  destruct rest as [|q rest]; [done|]. simpl.
  case_bool_decide as Hq; [injection Hq as ->|done]. simpl.
  eapply wp_bind_eq; [apply consume_char_lx|]. eapply wp_bind_eq; [apply consume_char_lx|].
  pose proof (parse_hex_digits_lx ((pre ++ [x]) ++ [wchar "'"]) rest (length pre) toks) as H.
  pose proof (span_app (is_digit_in hex_digits) rest) as Hs.
  pose proof (span_all (is_digit_in hex_digits) rest) as Ha.
  destruct (span _ rest) as [ds rest']. simpl in Hs, Ha. subst rest.
  eapply wp_bind_eq; [exact H|]. case_bool_decide as Hd; [apply token_error_lx|].
  apply wp_bind. unfold wp at 1. rewrite consume_char_is_lx.
  destruct rest' as [|c rest']; [simpl; apply token_error_lx|].
  case_decide as Hc; simpl; [subst|apply token_error_lx].
  replace (x :: wchar "'" :: ds ++ wchar "'" :: rest')
    with ((x :: wchar "'" :: ds ++ [wchar "'"]) ++ rest') by (simpl; by rewrite <- app_assoc).
  replace ((((pre ++ [x]) ++ [wchar "'"]) ++ ds) ++ [wchar "'"])
    with (pre ++ (x :: wchar "'" :: ds ++ [wchar "'"])) by (by rewrite <- !app_assoc).
  apply recognised_text. by constructor.
Qed.

Lemma parse_hex_0_attempt pre rest toks :
  wp parse_hex_0 (recognised pre (wchar "0" :: rest) toks)
    (lx pre (wchar "0" :: rest) (length pre) toks).
Proof.
  unfold parse_hex_0. apply wp_bind, wp_read. rewrite lx_next_in.
  destruct rest as [|x rest]; [done|]. cbn [lookup list_lookup].
  destruct (bool_decide (x <> 0) && bool_decide (x ∈ wlit "Xx")) eqn:Hx; simpl; [|done].
  apply andb_true_iff in Hx as [_ Hx%bool_decide_eq_true].
  eapply wp_bind_eq; [apply consume_char_lx|]. eapply wp_bind_eq; [apply consume_char_lx|].
  pose proof (parse_hex_digits_lx ((pre ++ [wchar "0"]) ++ [x]) rest (length pre) toks) as H.
  pose proof (span_app (is_digit_in hex_digits) rest) as Hs.
  pose proof (span_all (is_digit_in hex_digits) rest) as Ha.
  destruct (span _ rest) as [ds rest']. simpl in Hs, Ha. subst rest.
  eapply wp_bind_eq; [exact H|]. case_bool_decide as Hd; [apply token_error_lx|].
  change (wchar "0" :: x :: ds ++ rest') with ((wchar "0" :: x :: ds) ++ rest').
  replace (((pre ++ [wchar "0"]) ++ [x]) ++ ds) with (pre ++ (wchar "0" :: x :: ds))
    by (by rewrite <- !app_assoc).
  apply recognised_text. by constructor.
Qed.

Lemma parse_hex_attempt : attempt parse_hex.
Proof.
  intros pre [|c rest] toks Hr; [done|]. unfold parse_hex. apply wp_bind, wp_read.
  rewrite lx_available, bool_decide_true by done. simpl.
  eapply wp_bind_eq; [apply cur_char_lx|].

  destruct (Z.eqb_spec c (wchar "X")) as [->|_];
    [by apply parse_hex_x_attempt, (bool_decide_unpack _)|].
  destruct (Z.eqb_spec c (wchar "x")) as [->|_];
    [by apply parse_hex_x_attempt, (bool_decide_unpack _)|].
  simpl. destruct (Z.eqb_spec c (wchar "0")) as [->|_]; [apply parse_hex_0_attempt|done].
Qed.

Lemma consume_chars_lx pre rest tp toks str :
  consume_chars str (lx pre rest tp toks) =
  if decide (take (length str) rest = str)
  then (Ok true, lx (pre ++ str) (drop (length str) rest) tp toks)
  else (Ok false, lx pre rest tp toks).
Proof.
  unfold consume_chars. unfold lx at 1 2. simpl. rewrite drop_app_length.
  case_decide as H; [|done]. f_equal. unfold set_in_pos, lx. simpl. rewrite length_app. f_equal.
  rewrite <- app_assoc. f_equal. by rewrite <- H at 1; rewrite take_drop.
Qed.

Lemma symbol2_attempt l : incl l SYMBOL_LIST2 -> attempt (symbol2 l).
Proof.
  induction l as [|[T X] l IH]; intros Hl pre rest toks Hr; [done|]. simpl. apply wp_bind.
  unfold wp at 1. rewrite consume_chars_lx. case_decide as H.
  - rewrite <- (take_drop (length X) rest) at 1. rewrite H. apply recognised_text.
    constructor. apply elem_of_app. left. apply list_elem_of_In, Hl. by left.
  - apply IH; [|done]. intros x Hx. apply Hl. by right.
Qed.

Lemma symbol1_attempt l pre c rest toks : incl l SYMBOL_LIST1 ->
  wp (symbol1 c l) (recognised pre (c :: rest) toks) (lx pre (c :: rest) (length pre) toks).
Proof.
  induction l as [|[T X] l IH]; intros Hl; [done|]. simpl.
  case_bool_decide as H.
  - eapply wp_bind_eq; [apply consume_char_lx|].
    assert (Hin : (T, X) ∈ SYMBOL_LIST1) by (apply list_elem_of_In, Hl; by left).
    assert (HX : X = [c]).
    { assert (Hone : Forall (fun x : Token_Type * wstr => length x.2 = 1%nat) SYMBOL_LIST1)
        by forall_list done.
      apply (proj1 (Forall_forall _ _) Hone) in Hin. simpl in Hin.
      destruct X as [|x [|]]; try done. simpl in H. by injection H as ->. }
    subst. apply (recognised_text pre [c]). constructor. apply elem_of_app. by right.
  - apply IH. intros x Hx. apply Hl. by right.
Qed.

Lemma elem_of_set_char c s : is_digit_in s c = true -> c <> 0 /\ c ∈ s.
Proof. unfold is_digit_in. rewrite andb_true_iff, !bool_decide_eq_true. done. Qed.

Lemma parse_exponent_attempt pre ip fp e rest toks :
  digits ip -> fraction fp -> ip ++ fp <> [] -> e ∈ wlit "Ee" ->
  wp parse_exponent (recognised pre ((ip ++ fp ++ [e]) ++ rest) toks)
    (lx (pre ++ ip ++ fp ++ [e]) rest (length pre) toks).
Proof.
  intros Hi Hf Hne He. unfold parse_exponent.
  assert (Htail : forall sg r, (sg = [] \/ exists s, s ∈ wlit "+-" /\ sg = [s]) ->
    wp (d ← parse_digits;
        if d : bool then add_token NUMBER;; mret true
        else token_error (wlit "No digits in the exponent"))
      (recognised pre ((ip ++ fp ++ [e]) ++ sg ++ r) toks)
      (lx ((pre ++ ip ++ fp ++ [e]) ++ sg) r (length pre) toks)).
  { intros sg r Hsg.
    pose proof (parse_digits_lx ((pre ++ ip ++ fp ++ [e]) ++ sg) r (length pre) toks) as H.
    pose proof (span_app (is_digit_in dec_digits) r) as Hs.
    pose proof (span_all (is_digit_in dec_digits) r) as Ha.
    destruct (span _ r) as [ds r']. simpl in Hs, Ha. subst r.
    eapply wp_bind_eq; [exact H|]. case_bool_decide as Hd; simpl; [apply token_error_lx|].
    replace (((pre ++ ip ++ fp ++ [e]) ++ sg) ++ ds) with (pre ++ ip ++ fp ++ (e :: sg ++ ds))
      by (rewrite <- !app_assoc; simpl; by rewrite <- ?app_assoc).
    replace ((ip ++ fp ++ [e]) ++ sg ++ ds ++ r') with ((ip ++ fp ++ e :: sg ++ ds) ++ r')
      by (rewrite <- !app_assoc; simpl; by rewrite <- ?app_assoc).
    apply recognised_slice. constructor; try done.
    - destruct Hsg as [->|(s & Hsg & ->)]; by constructor.
    - intros [_ [=]]%app_eq_nil. }
  apply wp_bind. unfold wp at 1. rewrite consume_char_in_lx.
  destruct rest as [|s rest].
  { rewrite <- (app_nil_r (pre ++ _)). apply (Htail [] []). by left. }
  case_decide as Hs; [apply (Htail [s] rest); right; exists s; naive_solver|].
  rewrite <- (app_nil_r (pre ++ _)). apply (Htail [] (s :: rest)). by left.
Qed.

(** What follows the integer part and the fraction of a number. *)
Lemma number_end_attempt pre ip fp rest toks (is_float : bool) :
  digits ip -> fraction fp -> ip ++ fp <> [] -> is_float = negb (bool_decide (fp = [])) ->
  wp (e ← consume_char_in (wlit "Ee");
      if negb is_float && (e =? 0) then add_token INTEGER;; mret true
      else if e =? 0 then add_token NUMBER;; mret true
      else parse_exponent)
    (recognised pre ((ip ++ fp) ++ rest) toks) (lx (pre ++ ip ++ fp) rest (length pre) toks).
Proof.
  intros Hi Hf Hne ->. apply wp_bind. unfold wp at 1. rewrite consume_char_in_lx.
  assert (Hnone : forall e, e = 0 ->
    wp (if negb (negb (bool_decide (fp = []))) && (e =? 0) then add_token INTEGER;; mret true
        else if e =? 0 then add_token NUMBER;; mret true else parse_exponent)
      (recognised pre ((ip ++ fp) ++ rest) toks) (lx (pre ++ ip ++ fp) rest (length pre) toks)).
  { intros e ->. case_bool_decide as H; simpl.
    - subst. rewrite !app_nil_r in *. apply recognised_slice. by constructor.
    - apply recognised_slice. rewrite <- (app_nil_r fp) at 1 2. constructor; try done.
      + constructor.
      + by rewrite app_nil_r. }
  destruct rest as [|c rest]; [by apply Hnone|].
  case_decide as Hc; [|by apply Hnone]. destruct Hc as [Hc0 Hc].
  rewrite (proj2 (Z.eqb_neq c 0)) by done. rewrite andb_false_r.
  replace ((ip ++ fp) ++ c :: rest) with ((ip ++ fp ++ [c]) ++ rest)
    by (by rewrite <- !app_assoc).
  replace ((pre ++ ip ++ fp) ++ [c]) with (pre ++ ip ++ fp ++ [c])
    by (by rewrite <- !app_assoc).
  by apply parse_exponent_attempt.
Qed.

Lemma parse_number_attempt : attempt parse_number.
Proof.
  intros pre rest toks Hr. unfold parse_number. apply wp_bind.
  eapply wp_eq; [apply set_token_start_lx|]. apply wp_bind, wp_read.
  destruct (_ && _); [done|].
  pose proof (parse_digits_lx pre rest (length pre) toks) as H.
  pose proof (span_app (is_digit_in dec_digits) rest) as Hs.
  pose proof (span_all (is_digit_in dec_digits) rest) as Ha.
  destruct (span _ rest) as [ip r]. simpl in Hs, Ha. subst rest.
  eapply wp_bind_eq; [exact H|]. apply wp_bind, wp_read.
  unfold cur_char_is. rewrite lx_next_is, negb_involutive.
  case_bool_decide as Hi; case_bool_decide as Hd; cbn [negb andb].
  2:{ subst. rewrite app_nil_r. by apply not_recognised. }
  1,2: destruct r as [|c r]; [done|]; injection Hd as ->.
  1,2: eapply wp_bind_eq; [rewrite consume_char_is_lx; by rewrite decide_True|].
  3: { eapply wp_bind_eq.
    { rewrite consume_char_is_lx. destruct r as [|c r]; [done|].
      rewrite decide_False; [done|]. intros ->. by apply Hd. }
    eapply wp_bind_eq; [done|]. cbn [negb].
    pose proof (number_end_attempt pre ip [] r toks false) as He. rewrite app_nil_r in He.
    apply He; try done. constructor. }
  all: pose proof (parse_digits_lx ((pre ++ ip) ++ [wchar "."]) r (length pre) toks) as H'.
  all: pose proof (span_app (is_digit_in dec_digits) r) as Hs.
  all: pose proof (span_all (is_digit_in dec_digits) r) as Ha'.
  all: destruct (span _ r) as [ds r']; simpl in Hs, Ha'; subst r.
  all: eapply wp_bind_eq; [exact H'|].
  all: case_bool_decide as Hds; cbn [negb]; [apply token_error_lx|].
  all: replace (((pre ++ ip) ++ [wchar "."]) ++ ds) with (pre ++ ip ++ (wchar "." :: ds))
    by (by rewrite <- !app_assoc).
  all: replace (ip ++ wchar "." :: ds ++ r') with ((ip ++ wchar "." :: ds) ++ r')
    by (by rewrite <- !app_assoc).
  all: apply (number_end_attempt pre ip (wchar "." :: ds) r' toks true);
    [done|by constructor|by apply app_cons_not_nil'|done].
Qed.

Lemma next_token_lx pre rest tp toks : rest <> [] ->
  wp next_token (fun b t => b = true /\ recognised pre rest toks true t) (lx pre rest tp toks).
Proof.
  intros Hr.
  assert (Hstart : next_token (lx pre rest tp toks) = next_token (lx pre rest (length pre) toks))
    by done.
  unfold wp. rewrite Hstart. fold (wp next_token (fun b t => b = true /\ recognised pre rest toks true t)
    (lx pre rest (length pre) toks)).
  assert (Herr : attempt (token_error (wlit "Could not recognize next token")))
    by (intros ????; apply token_error_lx).
  assert (Hlast : forall c, attempt (orelse parse_word (token_error (wlit "Could not recognize next token"))))
    by (intros; by apply attempt_orelse; [apply parse_word_attempt|]).
  (* no attempt ends the chain with [false] *)
  assert (Hnever : forall m1 m2, attempt m1 ->
    (forall p r ts, r <> [] -> wp m2 (fun b t => b = true /\ recognised p r ts true t) (lx p r (length p) ts)) ->
    forall p r ts, r <> [] ->
    wp (orelse m1 m2) (fun b t => b = true /\ recognised p r ts true t) (lx p r (length p) ts)).
  { intros m1 m2 H1 H2 p r ts Hne. unfold orelse. apply wp_bind.
    eapply wp_mono; [by apply H1|]. intros [|] t Ht; [by split|]. simpl in Ht. subst. by apply H2. }
  revert pre rest toks Hr Hstart. intros pre rest toks Hr _. revert pre rest toks Hr.
  apply Hnever; [apply parse_string_attempt|].
  apply Hnever; [apply parse_hex_attempt|].
  apply Hnever; [apply parse_number_attempt|].
  intros pre rest toks Hr. apply wp_bind. eapply wp_eq; [apply set_token_start_lx|].
  revert pre rest toks Hr. apply Hnever; [by apply symbol2_attempt, incl_refl|].
  intros pre [|c rest] toks Hr; [done|]. eapply wp_bind_eq; [apply cur_char_lx|].
  unfold orelse at 1. apply wp_bind. eapply wp_mono; [by apply symbol1_attempt, incl_refl|].
  intros [|] t Ht; [by split|]. simpl in Ht. subst.
  apply Hnever; [apply parse_word_attempt| |done]. intros. apply token_error_lx.
Qed.

(** ** The whole input *)

(** Blanks and tokens; a NUL where a token could start ends the input. *)
Inductive lexed : nat -> wstr -> list Token -> Prop :=
| lexed_end pos blanks : Forall (fun c => ctf_space c = true) blanks -> lexed pos blanks []
| lexed_nul pos rest : lexed pos (0 :: rest) []
| lexed_token pos blanks ty text slice rest toks :
    Forall (fun c => ctf_space c = true) blanks ->
    shape ty text slice ->
    lexed (pos + length blanks + length slice) rest toks ->
    lexed pos (blanks ++ slice ++ rest)
      (mk_Token ty text (pos + length blanks) (pos + length blanks + length slice) :: toks).

Lemma get_tokens_loop : forall n rest pre tp toks, (length rest < n)%nat ->
  wp (loop n get_tokens_turn)
    (fun _ t => exists new, _tokens t = toks ++ new /\ lexed (length pre) rest new)
    (lx pre rest tp toks).
Proof.
  induction n as [|n IH]; intros rest pre tp toks Hn; [lia|]. cbn [loop].
  apply wp_bind. unfold get_tokens_turn at 1. apply wp_bind, wp_read. rewrite lx_available.
  destruct rest as [|c rest].
  { simpl. exists []. rewrite app_nil_r. split; [done|]. by constructor. }
  rewrite bool_decide_true by done. cbn [negb].
  eapply wp_bind_eq; [apply cur_char_lx|]. destruct (Z.eqb_spec c 0) as [->|Hc].
  { exists []. rewrite app_nil_r. split; [done|]. apply lexed_nul. }
  pose proof (skip_spaces_lx pre (c :: rest) tp toks) as H.
  pose proof (span_app ctf_space (c :: rest)) as Hs.
  pose proof (span_all ctf_space (c :: rest)) as Ha.
  destruct (span ctf_space (c :: rest)) as [blanks r]. simpl in Hs, Ha.
  eapply wp_bind_eq; [exact H|]. apply wp_bind, wp_read. rewrite lx_available.
  case_bool_decide as Hr; cbn [negb].
  2:{ exists []. rewrite app_nil_r. split; [done|].
      rewrite <- Hs. subst r.
      rewrite app_nil_r. by apply lexed_end.
  }
  eapply wp_mono; [by apply next_token_lx|].
  intros b t (-> & ty & text & slice & r' & tp' & -> & Hsh & ->).
  assert (Hlen : (length r' < n)%nat).
  { apply (f_equal length) in Hs. rewrite !length_app in Hs. simpl in Hs.
    pose proof (shape_nonempty _ _ _ Hsh). destruct slice; [done|]. simpl in Hs, Hn. lia. }
  eapply wp_mono; [by apply IH|]. intros [] t (new & Ht & Hl). simpl in Ht.
  eexists. rewrite Ht, <- app_assoc. split; [done|].
  rewrite <- Hs, length_app. apply lexed_token; [done|done|].
  by rewrite !length_app in Hl.
Qed.

Lemma Tokenizer_new_lexed input :
  match Tokenizer_new input with
  | Ok toks => lexed 0 input toks
  | Throw (ParseError _ _ _ _) => True
  | _ => False
  end.
Proof.
  unfold Tokenizer_new.
  pose proof (get_tokens_loop (turns (mk_Tokenizer input 0 0 [])) input [] 0 []
    ltac:(unfold turns; simpl; lia)) as H.
  unfold wp in H. change (lx [] input 0 []) with (mk_Tokenizer input 0 0 []) in H.
  unfold get_tokens. rewrite method_read. destruct (loop _ _ _) as [[a|[]| |] t]; try done.
  destruct H as (new & Ht & Hl). simpl. by rewrite Ht.
Qed.

(** ** Printed tokens are read back *)

(** A text in quotes: quotes and backslashes in it are escaped. *)
Fixpoint escaped (q : Z) (v : wstr) : wstr :=
  match v with
  | [] => []
  | c :: v' =>
      if decide (c = q \/ c = wchar "\\") then wchar "\\" :: c :: escaped q v'
      else c :: escaped q v'
  end.

Lemma escaped_quoted q v : quoted q (escaped q v) v.
Proof.
  induction v as [|c v IH]; [constructor|]. simpl. case_decide as H.
  - by constructor.
  - apply quoted_char; [naive_solver..|done].
Qed.

Definition in_quotes (q : Z) (v : wstr) : wstr := q :: escaped q v ++ [q].

(** A token before it has a place. *)
Abbreviation piece := (Token_Type * wstr)%type.

Definition piece_chars (k : piece) : wstr :=
  match k.1 with
  | QWORD => in_quotes (wchar "`") k.2
  | QSTRING => in_quotes (wchar "'") k.2
  | QQSTRING => in_quotes quote_char k.2
  | _ => k.2
  end.

(** The first character of a word is none that starts a number. *)
Definition plain_word (w : wstr) : Prop :=
  Forall (fun c => is_word c = true) w /\
  match w with c :: _ => is_digit_in dec_digits c = false | [] => False end.

Inductive printable : piece -> Prop :=
| printable_word w : plain_word w -> printable (WORD, w)
| printable_integer ds : ds <> [] -> digits ds -> printable (INTEGER, ds)
| printable_number ip fp ex : ip <> [] -> digits ip -> fraction fp -> exponent ex -> fp ++ ex <> [] ->
    printable (NUMBER, ip ++ fp ++ ex)
| printable_qword v : printable (QWORD, v)
| printable_qstring v : printable (QSTRING, v)
| printable_qqstring v : printable (QQSTRING, v)
| printable_symbol k : k ∈ SYMBOL_LIST2 ++ SYMBOL_LIST1 -> printable k.

Section refused.
Context (pre : wstr) (c : Z) (rest : wstr) (tp : nat) (toks : list Token).

Lemma parse_string_no : c <> quote_char -> c <> wchar "'" ->
  parse_string (lx pre (c :: rest) tp toks) = (Ok false, lx pre (c :: rest) (length pre) toks).
Proof using.
  intros H1 H2. unfold parse_string. rewrite (method_bind_ok (set_token_start_lx _ _ _ _)).
  rewrite (method_bind_ok (cur_char_lx _ _ _ _ _)).
  by rewrite (proj2 (Z.eqb_neq _ _) H1), (proj2 (Z.eqb_neq _ _) H2).
Qed.

Definition no_hex_start : bool :=
  if (c =? wchar "X") || (c =? wchar "x") then
    negb (bool_decide (rest !! 0%nat = Some (wchar "'")))
  else if c =? wchar "0" then
    match rest with x :: _ => negb (is_digit_in (wlit "Xx") x) | [] => true end
  else true.

Lemma parse_hex_no : no_hex_start = true ->
  parse_hex (lx pre (c :: rest) tp toks) = (Ok false, lx pre (c :: rest) tp toks).
Proof using.
  intros H. unfold no_hex_start in H. unfold parse_hex. rewrite method_read, lx_available.
  rewrite bool_decide_true by done. cbn [negb]. rewrite (method_bind_ok (cur_char_lx _ _ _ _ _)).
  destruct ((c =? wchar "X") || (c =? wchar "x")).
  - unfold parse_hex_x. rewrite method_read, lx_next_is. simpl in H |- *. by rewrite H.
  - destruct (c =? wchar "0"); [|done].
    unfold parse_hex_0. rewrite method_read, lx_next_in. destruct rest as [|x r]; [done|].
    simpl. unfold is_digit_in in H. by rewrite H.
Qed.

Lemma parse_number_no : is_digit_in dec_digits c = false ->
  (c = wchar "." -> match rest with x :: _ => is_digit_in dec_digits x = false | [] => True end) ->
  parse_number (lx pre (c :: rest) tp toks) = (Ok false, lx pre (c :: rest) (length pre) toks).
Proof using.
  intros Hc Hd. unfold parse_number. rewrite (method_bind_ok (set_token_start_lx _ _ _ _)), method_read.
  unfold cur_char_is. rewrite lx_next_is, lx_next_in. simpl.
  destruct (decide (c = wchar ".")) as [->|Hdot].
  - rewrite bool_decide_true by done. specialize (Hd eq_refl). destruct rest as [|x r]; [done|].
    unfold is_digit_in in Hd. simpl. by rewrite Hd.
  - rewrite (bool_decide_false (Some c = _)) by congruence. simpl.
    pose proof (parse_digits_lx pre (c :: rest) (length pre) toks) as H. simpl in H. rewrite Hc in H.
    rewrite app_nil_r in H. rewrite (method_bind_ok H), method_read. unfold cur_char_is.
    rewrite lx_next_is. simpl. by rewrite (bool_decide_false (Some c = _)) by congruence.
Qed.

(** The first symbol of the list that the input starts with. *)
Lemma symbol2_lx l :
  symbol2 l (lx pre (c :: rest) tp toks) =
  match list_find (fun k : piece => take (length k.2) (c :: rest) = k.2) l with
  | Some (_, (T, X)) =>
      (Ok true, lx (pre ++ X) (drop (length X) (c :: rest)) tp
                  (toks ++ [mk_Token T X tp (length pre + length X)]))
  | None => (Ok false, lx pre (c :: rest) tp toks)
  end.
Proof using.
  induction l as [|[T X] l IH]; [done|]. cbn [symbol2 list_find snd].
  unfold mbind at 1, Method_bind at 1. rewrite consume_chars_lx. case_decide as H.
  - rewrite (method_bind_ok (add_token_text_lx _ _ _ _ _ _)). by rewrite length_app.
  - rewrite IH. by destruct (list_find _ l) as [[? [??]]|].
Qed.

Lemma symbol1_lx l :
  symbol1 c l (lx pre (c :: rest) tp toks) =
  match list_find (fun k : piece => Some c = head k.2) l with
  | Some (_, (T, X)) =>
      (Ok true, lx (pre ++ [c]) rest tp (toks ++ [mk_Token T X tp (length pre + 1)]))
  | None => (Ok false, lx pre (c :: rest) tp toks)
  end.
Proof using.
  induction l as [|[T X] l IH]; [done|]. cbn [symbol1 list_find snd].
  destruct (decide (Some c = head X)) as [H|H].
  - rewrite bool_decide_true by done. rewrite (method_bind_ok (consume_char_lx _ _ _ _ _)).
    rewrite (method_bind_ok (add_token_text_lx _ _ _ _ _ _)). by rewrite length_app.
  - rewrite bool_decide_false by done. rewrite IH. by destruct (list_find _ l) as [[? [??]]|].
Qed.
End refused.

Lemma lexer_ret {A B} (a : A) (f : A -> lexer B) t : (mret a ≫= f) t = f a t.
Proof. done. Qed.

Lemma orelse_no m1 m2 t t' : m1 t = (Ok false, t') -> orelse m1 m2 t = m2 t'.
Proof. intros H. unfold orelse. by rewrite (method_bind_ok H). Qed.

Lemma orelse_yes m1 m2 t t' : m1 t = (Ok true, t') -> orelse m1 m2 t = (Ok true, t').
Proof. intros H. unfold orelse. by rewrite (method_bind_ok H). Qed.

Lemma parse_quotted_reads q v pre r tp toks : q <> wchar "\\" -> no_head q r ->
  parse_quotted_string q (lx pre (in_quotes q v ++ r) tp toks) =
  (Ok (Some v), lx (pre ++ in_quotes q v) r tp toks).
Proof.
  intros Hq Hr. unfold parse_quotted_string, in_quotes.
  replace ((q :: escaped q v ++ [q]) ++ r) with (q :: (escaped q v ++ q :: r))
    by (simpl; by rewrite <- app_assoc).
  unfold mbind at 1, Method_bind at 1. rewrite consume_char_is_lx, decide_True by done. cbn [negb].
  rewrite method_read.
  rewrite (method_bind_ok (quoted_loop_reads q Hq _ _ (escaped_quoted q v) _ [] _ _ _ _ Hr
    (turns_lx _ _ _ _))).
  by rewrite <- app_assoc.
Qed.

(** No symbol starts with a character of a word or with a back-tick. *)
Definition wordlike (c : Z) : Prop := is_word c = true \/ c = wchar "`".

Lemma symbols_not_wordlike c k :
  wordlike c -> k ∈ SYMBOL_LIST2 ++ SYMBOL_LIST1 -> head k.2 <> Some c.
Proof.
  intros Hc Hk Hh.
  assert (H : Forall (fun x : piece => match head x.2 with
      Some d => is_word d = false /\ d <> wchar "`" | None => True end)
      (SYMBOL_LIST2 ++ SYMBOL_LIST1)) by forall_list done.
  apply (proj1 (Forall_forall _ _) H) in Hk. rewrite Hh in Hk.
  destruct Hk as [H1 H2], Hc as [Hc| ->]; congruence.
Qed.

Lemma no_symbol2 c rest : wordlike c ->
  list_find (fun k : piece => take (length k.2) (c :: rest) = k.2) SYMBOL_LIST2 = None.
Proof.
  intros Hc. apply list_find_None, Forall_forall. intros k Hk Ht.
  apply (symbols_not_wordlike c k Hc); [apply elem_of_app; by left|].
  assert (Hne : k.2 <> []) by (apply (symbols_nonempty k.1); destruct k; apply elem_of_app; by left).
  rewrite <- Ht. by destruct k.2.
Qed.

Lemma no_symbol1 c : wordlike c ->
  list_find (fun k : piece => Some c = head k.2) SYMBOL_LIST1 = None.
Proof.
  intros Hc. apply list_find_None, Forall_forall. intros k Hk Ht.
  apply (symbols_not_wordlike c k Hc); [apply elem_of_app; by right|done].
Qed.

Section read_back.
Context (pre rest : wstr) (tp : nat) (toks : list Token).

(** The state after the token [k] was read from the front of the rest. *)
Definition after (k : piece) (t : Tokenizer) : Prop :=
  exists tp', t = lx (pre ++ piece_chars k) (32 :: rest) tp'
    (toks ++ [mk_Token k.1 k.2 (length pre) (length pre + length (piece_chars k))]).

Definition reads (k : piece) : Prop :=
  exists t, next_token (lx pre (piece_chars k ++ 32 :: rest) tp toks) = (Ok true, t) /\ after k t.

Lemma parse_string_reads q v ty : (q = quote_char /\ ty = QQSTRING) \/ (q = wchar "'" /\ ty = QSTRING) ->
  exists t, next_token (lx pre (in_quotes q v ++ 32 :: rest) tp toks) = (Ok true, t) /\
    t = lx (pre ++ in_quotes q v) (32 :: rest) (length pre)
      (toks ++ [mk_Token ty v (length pre) (length pre + length (in_quotes q v))]).
Proof using.
  intros Hq. eexists. split; [|done]. apply orelse_yes. unfold parse_string.
  rewrite (method_bind_ok (set_token_start_lx _ _ _ _)).
  assert (Hcur : cur_char (lx pre (in_quotes q v ++ 32 :: rest) (length pre) toks) =
    (Ok q, lx pre (in_quotes q v ++ 32 :: rest) (length pre) toks)) by apply cur_char_lx.
  rewrite (method_bind_ok Hcur).
  assert (Hb : ((q =? quote_char) || (q =? wchar "'")) = true) by (by destruct Hq as [[-> _]|[-> _]]).
  rewrite Hb. cbn [negb].
  rewrite (method_bind_ok (parse_quotted_reads q v pre (32 :: rest) (length pre) toks
    ltac:(by destruct Hq as [[-> _]|[-> _]]) ltac:(by destruct Hq as [[-> _]|[-> _]]))).
  rewrite (method_bind_ok (add_token_text_lx _ _ _ _ _ _)), length_app.
  by destruct Hq as [[-> ->]|[-> ->]].
Qed.

(** The attempts before [parse_word] refuse a character of a word that is no digit. *)
Lemma before_word c r :
  wordlike c -> is_digit_in dec_digits c = false -> no_hex_start c r = true ->
  next_token (lx pre (c :: r) tp toks) =
  orelse parse_word (token_error (wlit "Could not recognize next token"))
    (lx pre (c :: r) (length pre) toks).
Proof using.
  intros Hw Hd Hx. unfold next_token.
  assert (Hc : c <> quote_char /\ c <> wchar "'" /\ c <> wchar ".").
  { repeat split; intros ->; by destruct Hw. }
  destruct Hc as (Hc1 & Hc2 & Hc3).
  rewrite (orelse_no _ _ _ _ (parse_string_no _ _ _ _ _ Hc1 Hc2)).
  rewrite (orelse_no _ _ _ _ (parse_hex_no _ _ _ _ _ Hx)).
  rewrite (orelse_no _ _ _ _ (parse_number_no pre c r _ toks Hd ltac:(done))).
  rewrite (method_bind_ok (set_token_start_lx _ _ _ _)).
  pose proof (symbol2_lx pre c r (length pre) toks SYMBOL_LIST2) as H2.
  rewrite no_symbol2 in H2 by done. rewrite (orelse_no _ _ _ _ H2).
  rewrite (method_bind_ok (cur_char_lx _ _ _ _ _)).
  pose proof (symbol1_lx pre c r (length pre) toks SYMBOL_LIST1) as H1.
  rewrite no_symbol1 in H1 by done. by rewrite (orelse_no _ _ _ _ H1).
Qed.

Lemma read_word w : plain_word w -> reads (WORD, w).
Proof using.
  destruct w as [|c w]; [by intros []|]. intros [Hw Hd].
  assert (Hc : is_word c = true) by by inversion Hw.
  assert (Hx : no_hex_start c (w ++ 32 :: rest) = true).
  { unfold no_hex_start. destruct (_ || _).
    - destruct w as [|d w]; [done|]. simpl. inversion Hw as [|? ? ? Hw']. inversion Hw'; subst.
      rewrite bool_decide_false; [done|]. intros [= ->]. done.
    - destruct (Z.eqb_spec c (wchar "0")) as [->|]; [done|done]. }
  eexists. split.
  - unfold piece_chars. simpl. rewrite before_word by (by left || done). apply orelse_yes.
    unfold parse_word. rewrite method_read, lx_available, bool_decide_true by done. cbn [negb].
    rewrite (method_bind_ok (set_token_start_lx _ _ _ _)), method_read. unfold cur_char_is.
    rewrite lx_next_is. simpl. rewrite bool_decide_false by (by intros [= ->]).
    rewrite method_read.
    pose proof (word_loop_lx pre (c :: w ++ 32 :: rest) (length pre) toks) as H.
    change (c :: w ++ 32 :: rest) with ((c :: w) ++ 32 :: rest) in H.
    rewrite span_exact in H by done. rewrite (method_bind_ok H), method_read. unfold lx at 1 2. simpl.
    rewrite bool_decide_false by (rewrite length_app; simpl; lia).
    by rewrite (method_bind_ok (add_token_lx pre (c :: w) (32 :: rest) toks WORD)).
  - by eexists.
Qed.

Lemma read_qword v : reads (QWORD, v).
Proof using.
  eexists. split.
  - unfold piece_chars. cbn [fst snd]. unfold in_quotes at 1. cbn [app].
    rewrite before_word by (by right || done). apply orelse_yes. unfold parse_word.
    rewrite method_read, lx_available, bool_decide_true by done. cbn [negb].
    rewrite (method_bind_ok (set_token_start_lx _ _ _ _)), method_read. unfold cur_char_is.
    rewrite lx_next_is. cbn [lookup list_lookup]. rewrite bool_decide_true by done.
    pose proof (parse_quotted_reads (wchar "`") v pre (32 :: rest) (length pre) toks
      ltac:(done) ltac:(done)) as H.
    unfold in_quotes at 1 in H. cbn [app] in H. rewrite (method_bind_ok H). cbn [default from_option id].
    by rewrite (method_bind_ok (add_token_text_lx _ _ _ _ _ _)).
  - exists (length pre). by rewrite length_app.
Qed.

(** A number: the attempts before [parse_number] refuse its first digit. *)
Lemma before_number c r :
  is_digit_in dec_digits c = true ->
  match r with x :: _ => is_digit_in (wlit "Xx") x = false | [] => True end ->
  next_token (lx pre (c :: r) tp toks) =
  orelse parse_number (set_token_start;;
    orelse (symbol2 SYMBOL_LIST2) (c ← cur_char;
    orelse (symbol1 c SYMBOL_LIST1) (orelse parse_word
      (token_error (wlit "Could not recognize next token")))))
    (lx pre (c :: r) (length pre) toks).
Proof using.
  intros Hc Hr.
  assert (Hne : c <> quote_char /\ c <> wchar "'" /\ c <> wchar "X" /\ c <> wchar "x").
  { repeat split; intros ->; done. }
  destruct Hne as (H1 & H2 & H4 & H5).
  assert (Hx : no_hex_start c r = true).
  { unfold no_hex_start. rewrite (proj2 (Z.eqb_neq _ _) H4), (proj2 (Z.eqb_neq _ _) H5). simpl.
    destruct (c =? wchar "0"); [|done]. destruct r as [|d r]; [done|]. by rewrite Hr. }
  unfold next_token.
  rewrite (orelse_no _ _ _ _ (parse_string_no _ _ _ _ _ H1 H2)).
  by rewrite (orelse_no _ _ _ _ (parse_hex_no _ _ _ _ _ Hx)).
Qed.

Lemma digit_not_x d : is_digit_in dec_digits d = true -> is_digit_in (wlit "Xx") d = false.
Proof using.
  intros Hd. destruct (is_digit_in (wlit "Xx") d) eqn:E; [|done].
  apply elem_of_set_char in E as [_ E]. cbv in E. set_unfold.
  destruct E as [->|[->|[]]]; done.
Qed.

(** Digits end where no digit follows. *)
Lemma parse_digits_exact p ds r ts : digits ds ->
  match r with c :: _ => is_digit_in dec_digits c = false | [] => True end ->
  parse_digits (lx p (ds ++ r) ts toks) = (Ok (negb (bool_decide (ds = []))), lx (p ++ ds) r ts toks).
Proof using.
  intros Hds Hr. pose proof (parse_digits_lx p (ds ++ r) ts toks) as H. by rewrite span_exact in H by done.
Qed.

(** What follows the integer part of a number. *)
Lemma number_tail_start fp ex : fraction fp -> exponent ex ->
  exists d s, fp ++ ex ++ 32 :: rest = d :: s /\ is_digit_in dec_digits d = false /\
    is_digit_in (wlit "Xx") d = false.
Proof using.
  intros [|ds ? ?] He; [|by eexists _, _]. destruct He as [|e ds He ? ?|e s ds He ? ? ?]; [by eexists _, _|..];
    eexists _, _; (split; [done|]); cbv in He; set_unfold; by destruct He as [->|[->|[]]].
Qed.

Lemma exponent_start ex : exponent ex ->
  exists d s, ex ++ 32 :: rest = d :: s /\ is_digit_in dec_digits d = false /\ d <> wchar ".".
Proof using.
  intros [|e ds He ? ?|e s ds He ? ? ?]; [by eexists _, _|..];
    eexists _, _; (split; [done|]); cbv in He; set_unfold; by destruct He as [->|[->|[]]].
Qed.

(** The exponent of a number, behind its letter. *)
Lemma exponent_reads p sg ds : (sg = [] \/ exists s, s ∈ wlit "+-" /\ sg = [s]) -> ds <> [] -> digits ds ->
  parse_exponent (lx p (sg ++ ds ++ 32 :: rest) (length pre) toks) =
  (add_token NUMBER;; mret true) (lx (p ++ sg ++ ds) (32 :: rest) (length pre) toks).
Proof using.
  intros Hs Hne Hds. unfold parse_exponent.
  assert (Hsg : exists z, consume_char_in (wlit "+-") (lx p (sg ++ ds ++ 32 :: rest) (length pre) toks) =
    (Ok z, lx (p ++ sg) (ds ++ 32 :: rest) (length pre) toks)).
  { rewrite consume_char_in_lx. destruct Hs as [->|(s & Hs & ->)]; cbn [app].
    - rewrite app_nil_r. destruct ds as [|d ds]; [done|]. cbn [app]. rewrite decide_False; [by eexists|].
      intros [_ E]. inversion Hds as [|? ? Hd]; subst. cbv in E. set_unfold. by destruct E as [->|[->|[]]].
    - rewrite decide_True; [by eexists|]. split; [|done]. cbv in Hs. set_unfold. by destruct Hs as [->|[->|[]]]. }
  destruct Hsg as [z Hz]. rewrite (method_bind_ok Hz), (method_bind_ok (parse_digits_exact _ ds (32 :: rest) _ Hds ltac:(done))).
  by rewrite bool_decide_false, <- app_assoc by done.
Qed.

(** The end of a number, behind its fraction. *)
Lemma number_end_reads p is_float ex : exponent ex -> is_float = true \/ ex <> [] ->
  (e ← consume_char_in (wlit "Ee");
   if negb is_float && (e =? 0) then add_token INTEGER;; mret true
   else if e =? 0 then add_token NUMBER;; mret true
   else parse_exponent) (lx p (ex ++ 32 :: rest) (length pre) toks) =
  (add_token NUMBER;; mret true) (lx (p ++ ex) (32 :: rest) (length pre) toks).
Proof using.
  intros He Hf. unfold mbind at 1, Method_bind at 1. rewrite consume_char_in_lx.
  assert (Hletter : forall e, e ∈ wlit "Ee" -> e <> 0) by (intros e H; cbv in H; set_unfold; by destruct H as [->|[->|[]]]).
  destruct He as [|e ds H ? ?|e s ds H ? ? ?]; cbn [app].
  - rewrite decide_False by (intros [_ E]; cbv in E; set_unfold; naive_solver). cbn [Z.eqb].
    destruct Hf as [->|]; [|done]. by rewrite app_nil_r.
  - rewrite decide_True by by split; [apply Hletter|].
    rewrite (proj2 (Z.eqb_neq e 0)), andb_false_r by by apply Hletter.
    pose proof (exponent_reads (p ++ [e]) [] ds ltac:(by left) ltac:(done) ltac:(done)) as E. cbn [app] in E.
    rewrite E. by rewrite <- app_assoc.
  - rewrite decide_True by by split; [apply Hletter|].
    rewrite (proj2 (Z.eqb_neq e 0)), andb_false_r by by apply Hletter.
    pose proof (exponent_reads (p ++ [e]) [s] ds ltac:(right; by exists s) ltac:(done) ltac:(done)) as E. cbn [app] in E.
    rewrite E. by rewrite <- app_assoc.
Qed.

Lemma read_integer ds : ds <> [] -> digits ds -> reads (INTEGER, ds).
Proof using.
  destruct ds as [|c ds]; [done|]. intros _ Hds.
  assert (Hc : is_digit_in dec_digits c = true) by by inversion Hds.
  eexists. split.
  - unfold piece_chars. cbn [fst snd app]. rewrite before_number; [|done|].
    2:{ destruct ds as [|d ds]; [done|]. apply digit_not_x. apply Forall_cons in Hds as [_ Hds]. by inversion Hds. }
    apply orelse_yes. unfold parse_number. rewrite (method_bind_ok (set_token_start_lx _ _ _ _)), method_read.
    unfold cur_char_is at 1. rewrite lx_next_is. simpl (lookup _ _).
    rewrite bool_decide_false by (by intros [= ->]). cbn [andb].
    rewrite (method_bind_ok (parse_digits_exact pre (c :: ds) (32 :: rest) _ Hds ltac:(done))), method_read.
    rewrite bool_decide_false by done. cbn [negb andb].
    unfold mbind at 1, Method_bind at 1. rewrite consume_char_is_lx, decide_False by done.
    rewrite lexer_ret. cbn [negb].
    unfold mbind at 1, Method_bind at 1. rewrite consume_char_in_lx.
    rewrite decide_False by (intros [_ E]; cbv in E; set_unfold; naive_solver).
    cbn [negb andb Z.eqb].
    by rewrite (method_bind_ok (add_token_lx pre (c :: ds) (32 :: rest) toks INTEGER)).
  - by eexists.
Qed.

Lemma read_number ip fp ex : ip <> [] -> digits ip -> fraction fp -> exponent ex -> fp ++ ex <> [] ->
  reads (NUMBER, ip ++ fp ++ ex).
Proof using.
  destruct ip as [|c ip]; [done|]. intros _ Hip Hfp Hex Hne.
  assert (Hc : is_digit_in dec_digits c = true) by by inversion Hip.
  destruct (number_tail_start fp ex Hfp Hex) as (x & s & Hx & Hxd & Hxx).
  exists (lx (pre ++ (c :: ip) ++ fp ++ ex) (32 :: rest) (length pre + length ((c :: ip) ++ fp ++ ex))
    (toks ++ [mk_Token NUMBER ((c :: ip) ++ fp ++ ex) (length pre) (length pre + length ((c :: ip) ++ fp ++ ex))])).
  split.
  - unfold piece_chars. cbn [fst snd]. rewrite <- !app_assoc. cbn [app]. rewrite before_number; [|done|].
    2:{ destruct ip as [|d ip]; cbn [app]; [by rewrite Hx|]. apply digit_not_x.
        apply Forall_cons in Hip as [_ Hip]. by inversion Hip. }
    apply orelse_yes. unfold parse_number. rewrite (method_bind_ok (set_token_start_lx _ _ _ _)), method_read.
    unfold cur_char_is at 1. rewrite lx_next_is. simpl (lookup _ _).
    rewrite bool_decide_false by (by intros [= ->]). cbn [andb].
    rewrite (method_bind_ok (parse_digits_exact pre (c :: ip) (fp ++ ex ++ 32 :: rest) _ Hip ltac:(by rewrite Hx))), method_read.
    rewrite bool_decide_false by done. cbn [negb andb].
    assert (Hend : forall p is_float, p ++ ex = pre ++ (c :: ip) ++ fp ++ ex -> is_float = true \/ ex <> [] ->
      (e ← consume_char_in (wlit "Ee");
       if negb is_float && (e =? 0) then add_token INTEGER;; mret true
       else if e =? 0 then add_token NUMBER;; mret true
       else parse_exponent) (lx p (ex ++ 32 :: rest) (length pre) toks) =
      (Ok true, lx (pre ++ (c :: ip) ++ fp ++ ex) (32 :: rest) (length pre + length ((c :: ip) ++ fp ++ ex))
        (toks ++ [mk_Token NUMBER ((c :: ip) ++ fp ++ ex) (length pre) (length pre + length ((c :: ip) ++ fp ++ ex))]))).
    { intros p is_float Hp Hf. rewrite number_end_reads, Hp by done.
      by rewrite (method_bind_ok (add_token_lx pre ((c :: ip) ++ fp ++ ex) (32 :: rest) toks NUMBER)). }
    unfold mbind at 1, Method_bind at 1. rewrite consume_char_is_lx.
    destruct Hfp as [|ds Hds Hdd].
    + cbn [app] in *. destruct (exponent_start ex Hex) as (d & r & Hd & _ & Hdot). rewrite Hd at 1.
      rewrite decide_False by done. rewrite lexer_ret. cbn [negb]. rewrite Hd. rewrite <- Hd.
      apply (Hend (pre ++ c :: ip) false); [by rewrite <- app_assoc|by right].
    + cbn [app]. rewrite decide_True by done.
      destruct (exponent_start ex Hex) as (d & r & Hd & Hdd' & _).
      rewrite (method_bind_ok (parse_digits_exact _ ds (ex ++ 32 :: rest) _ Hdd ltac:(by rewrite Hd))).
      rewrite bool_decide_false by done. cbn [negb].
      apply (Hend (((pre ++ c :: ip) ++ [wchar "."]) ++ ds) true); [|by left].
      rewrite <- !app_assoc. cbn [app]. done.
  - by eexists.
Qed.
End read_back.

Definition starts_symbol (k : piece) : Prop :=
  match head k.2 with
  | None => False
  | Some c => c <> quote_char /\ c <> wchar "'" /\ (forall r, no_hex_start c r = true) /\
      is_digit_in dec_digits c = false
  end.

Lemma symbols_start k : k ∈ SYMBOL_LIST2 ++ SYMBOL_LIST1 -> starts_symbol k.
Proof.
  assert (H : Forall starts_symbol (SYMBOL_LIST2 ++ SYMBOL_LIST1))
    by forall_list ltac:(by repeat split).
  by apply (proj1 (Forall_forall _ _) H).
Qed.

(** The attempts before the symbols refuse their first character. *)
Lemma before_symbol c r pre tp toks k :
  k ∈ SYMBOL_LIST2 ++ SYMBOL_LIST1 -> head k.2 = Some c ->
  (c = wchar "." -> match r with x :: _ => is_digit_in dec_digits x = false | [] => True end) ->
  next_token (lx pre (c :: r) tp toks) =
  orelse (symbol2 SYMBOL_LIST2) (c ← cur_char;
    orelse (symbol1 c SYMBOL_LIST1) (orelse parse_word
      (token_error (wlit "Could not recognize next token")))) (lx pre (c :: r) (length pre) toks).
Proof.
  intros Hk Hh Hdot. pose proof (symbols_start k Hk) as H. unfold starts_symbol in H.
  rewrite Hh in H. destruct H as (H1 & H2 & H3 & H4). unfold next_token.
  rewrite (orelse_no _ _ _ _ (parse_string_no _ _ _ _ _ H1 H2)).
  rewrite (orelse_no _ _ _ _ (parse_hex_no _ _ _ _ _ (H3 r))).
  rewrite (orelse_no _ _ _ _ (parse_number_no pre c r _ toks H4 Hdot)).
  by rewrite (method_bind_ok (set_token_start_lx _ _ _ _)).
Qed.

Lemma read_symbol1 T c pre rest tp toks :
  (T, [c]) ∈ SYMBOL_LIST1 ->
  list_find (fun k : piece => take (length k.2) (c :: 32 :: rest) = k.2) SYMBOL_LIST2 = None ->
  reads pre rest tp toks (T, [c]).
Proof.
  intros Hin H2.
  assert (Hch : piece_chars (T, [c]) = [c]).
  { revert T c Hin H2. clear. intros T c Hin _.
    assert (H : Forall (fun k => piece_chars k = k.2) SYMBOL_LIST1) by forall_list done.
    apply (proj1 (Forall_forall _ _) H _ Hin). }
  assert (H1 : exists i, list_find (fun k : piece => Some c = head k.2) SYMBOL_LIST1 = Some (i, (T, [c]))).
  { assert (H : Forall (fun k : piece => exists i,
      list_find (fun k' : piece => head k.2 = head k'.2) SYMBOL_LIST1 = Some (i, k)) SYMBOL_LIST1)
      by (forall_list ltac:(eexists; vm_compute; reflexivity)).
    apply (proj1 (Forall_forall _ _) H _ Hin). }
  destruct H1 as [i H1].
  eexists. split.
  - rewrite Hch. simpl app. rewrite (before_symbol c _ _ _ _ (T, [c])); [| |done|].
    2:{ apply elem_of_app. by right. }
    2:{ intros _. done. }
    pose proof (symbol2_lx pre c (32 :: rest) (length pre) toks SYMBOL_LIST2) as Hs2.
    rewrite H2 in Hs2. rewrite (orelse_no _ _ _ _ Hs2).
    rewrite (method_bind_ok (cur_char_lx _ _ _ _ _)). apply orelse_yes.
    rewrite symbol1_lx, H1. done.
  - exists (length pre). rewrite Hch. done.
Qed.

Lemma read_symbol pre rest tp toks k : k ∈ SYMBOL_LIST2 ++ SYMBOL_LIST1 -> reads pre rest tp toks k.
Proof.
  intros Hk. pose proof Hk as [H|H]%elem_of_app.
  - assert (Hall : Forall (fun k : piece => piece_chars k = k.2 /\ exists c r i, k.2 = c :: r /\
      (c = wchar "." -> match r ++ 32 :: rest with x :: _ => is_digit_in dec_digits x = false | [] => True end) /\
      list_find (fun k' : piece => take (length k'.2) (c :: r ++ 32 :: rest) = k'.2) SYMBOL_LIST2 = Some (i, k))
      SYMBOL_LIST2).
    { forall_list ltac:(split; [reflexivity|]; do 3 eexists; split; [reflexivity|]; split;
        [intros [=]|vm_compute; reflexivity]). }
    apply (proj1 (Forall_forall _ _) Hall) in H as (Hch & c & r & i & Hc & Hdot & Hf).
    destruct k as [T X]. simpl in Hc. subst X.
    eexists. split.
    + rewrite Hch. simpl app. rewrite (before_symbol c _ _ _ _ (T, c :: r)) by done.
      apply orelse_yes. rewrite symbol2_lx, Hf. reflexivity.
    + exists (length pre). rewrite Hch. cbn [snd length drop]. by rewrite drop_app_length.
  - destruct k as [T X].
    assert (Hall : Forall (fun k : piece => exists c, k.2 = [c] /\
      list_find (fun k' : piece => take (length k'.2) (c :: 32 :: rest) = k'.2) SYMBOL_LIST2 = None)
      SYMBOL_LIST1).
    { forall_list ltac:(eexists; split; [reflexivity|vm_compute; reflexivity]). }
    pose proof (proj1 (Forall_forall _ _) Hall _ H) as (c & Hc & Hf). simpl in Hc. subst.
    by apply read_symbol1.
Qed.

Lemma read_piece pre rest tp toks k : printable k -> reads pre rest tp toks k.
Proof.
  destruct 1.
  - by apply read_word.
  - by apply read_integer.
  - by apply read_number.
  - by apply read_qword.
  - unfold reads. destruct (parse_string_reads pre rest tp toks (wchar "'") v QSTRING) as (t & Ht & ->);
      [by right|]. eexists. split; [exact Ht|by eexists].
  - unfold reads. destruct (parse_string_reads pre rest tp toks quote_char v QQSTRING) as (t & Ht & ->);
      [by left|]. eexists. split; [exact Ht|by eexists].
  - by apply read_symbol.
Qed.

(** A text of tokens, each followed by a blank, and the tokens at their places. *)
Fixpoint pieces_text (ks : list piece) : wstr :=
  match ks with [] => [] | k :: ks' => piece_chars k ++ 32 :: pieces_text ks' end.

Fixpoint placed (pos : nat) (ks : list piece) : list Token :=
  match ks with
  | [] => []
  | k :: ks' =>
      let fin := (pos + length (piece_chars k))%nat in
      mk_Token k.1 k.2 pos fin :: placed (S fin) ks'
  end.

Lemma piece_first k : printable k ->
  exists c r, piece_chars k = c :: r /\ c <> 0 /\ ctf_space c = false.
Proof.
  destruct 1 as [[|c w] [Hw Hc]|[|c ds] Hne Hds|[|c ip] fp ex Hne Hds _ _ _|v|v|v|k Hk]; try done.
  - inversion Hw as [|? ? H _]; subst. eexists _, _. split; [done|].
    unfold is_word, ctf_alnum, ctf_digit, ctf_upper, ctf_lower, ctf_space in *.
    change (wchar "_") with 95 in H. lia.
  - inversion Hds as [|? ? H _]; subst. eexists _, _. split; [done|].
    apply elem_of_set_char in H as [H0 H]. split; [done|]. cbv in H. set_unfold.
    unfold ctf_space. lia.
  - inversion Hds as [|? ? H _]; subst. eexists _, _. split; [done|].
    apply elem_of_set_char in H as [H0 H]. split; [done|]. cbv in H. set_unfold.
    unfold ctf_space. lia.
  - by eexists _, _.
  - by eexists _, _.
  - by eexists _, _.
  - assert (H : Forall (fun k => exists c r, piece_chars k = c :: r /\ c <> 0 /\ ctf_space c = false)
      (SYMBOL_LIST2 ++ SYMBOL_LIST1)) by (forall_list ltac:(by do 2 eexists)).
    by apply (proj1 (Forall_forall _ _) H).
Qed.

Lemma turn_reads pre (blanks : wstr) k rest tp toks :
  Forall (fun c => ctf_space c = true) blanks -> printable k ->
  exists t, get_tokens_turn (lx pre (blanks ++ piece_chars k ++ 32 :: rest) tp toks) = (Ok true, t) /\
    after (pre ++ blanks) rest toks k t.
Proof.
  intros Hb Hk. destruct (piece_first k Hk) as (c & r & Hc & Hc0 & Hcs).
  destruct (read_piece (pre ++ blanks) rest tp toks k Hk) as (t & Ht & Ha).
  exists t. split; [|done]. unfold get_tokens_turn. rewrite method_read, lx_available.
  rewrite bool_decide_true by (rewrite Hc; destruct blanks; done). cbn [negb].
  set (rest' := piece_chars k ++ 32 :: rest) in *.
  assert (Hhead : exists d s, blanks ++ rest' = d :: s /\ d <> 0).
  { unfold rest'. rewrite Hc. destruct blanks as [|d s]; [by eexists _, _|].
    eexists _, _. split; [done|]. inversion Hb; subst. by intros ->. }
  destruct Hhead as (d & s & Hd & Hd0).
  assert (Hcur : cur_char (lx pre (blanks ++ rest') tp toks) = (Ok d, lx pre (blanks ++ rest') tp toks))
    by (rewrite Hd; apply cur_char_lx).
  rewrite (method_bind_ok Hcur), (proj2 (Z.eqb_neq d 0)) by done.
  pose proof (skip_spaces_lx pre (blanks ++ rest') tp toks) as Hskip.
  rewrite span_exact in Hskip by (done || (unfold rest'; by rewrite Hc)).
  rewrite (method_bind_ok Hskip), method_read, lx_available.
  rewrite bool_decide_true by (unfold rest'; by rewrite Hc). cbn [negb]. done.
Qed.

Lemma turn_ends pre (blanks : wstr) tp toks :
  Forall (fun c => ctf_space c = true) blanks ->
  get_tokens_turn (lx pre blanks tp toks) = (Ok false, lx (pre ++ blanks) [] tp toks).
Proof.
  intros Hb. unfold get_tokens_turn. rewrite method_read, lx_available.
  destruct blanks as [|c s]; [by rewrite app_nil_r|]. rewrite bool_decide_true by done.
  cbn [negb]. rewrite (method_bind_ok (cur_char_lx _ _ _ _ _)).
  assert (c <> 0) by (intros ->; by inversion Hb).
  rewrite (proj2 (Z.eqb_neq c 0)) by done.
  pose proof (skip_spaces_lx pre ((c :: s) ++ []) tp toks) as Hskip.
  rewrite span_exact in Hskip by done. rewrite app_nil_r in Hskip.
  by rewrite (method_bind_ok Hskip), method_read, lx_available.
Qed.

Lemma loop_reads ks : Forall printable ks -> forall blanks n pre tp toks,
  Forall (fun c => ctf_space c = true) blanks ->
  (length (blanks ++ pieces_text ks) < n)%nat ->
  exists t, loop n get_tokens_turn (lx pre (blanks ++ pieces_text ks) tp toks) = (Ok tt, t) /\
    _tokens t = toks ++ placed (length pre + length blanks) ks.
Proof.
  induction 1 as [|k ks Hk _ IH]; intros blanks [|n] pre tp toks Hb Hn; try (simpl in Hn; lia);
    cbn [loop pieces_text].
  - exists (lx (pre ++ blanks) [] tp toks). rewrite app_nil_r, app_nil_r.
    by rewrite (method_bind_ok (turn_ends pre blanks tp toks Hb)).
  - destruct (turn_reads pre blanks k (pieces_text ks) tp toks Hb Hk) as (t & Ht & tp' & ->).
    rewrite (method_bind_ok Ht).
    destruct (piece_first k Hk) as (c & r & Hc & _).
    destruct (IH [32] n ((pre ++ blanks) ++ piece_chars k) tp'
      (toks ++ [mk_Token k.1 k.2 (length (pre ++ blanks))
         (length (pre ++ blanks) + length (piece_chars k))])) as (t & Hl & Htoks).
    + by repeat constructor.
    + revert Hn. cbn [pieces_text]. rewrite !length_app, Hc. simpl. lia.
    + exists t. split; [exact Hl|]. rewrite Htoks, <- app_assoc, !length_app. simpl.
      do 2 f_equal; f_equal; lia.
Qed.

Lemma Tokenizer_new_reads ks : Forall printable ks ->
  Tokenizer_new (pieces_text ks) = Ok (placed 0 ks).
Proof.
  intros H. unfold Tokenizer_new, get_tokens. rewrite method_read.
  destruct (loop_reads ks H [] (turns (mk_Tokenizer (pieces_text ks) 0 0 [])) [] 0 []) as (t & Hl & Ht).
  - constructor.
  - unfold turns. simpl. lia.
  - change (lx [] ([] ++ pieces_text ks) 0 []) with (mk_Tokenizer (pieces_text ks) 0 0 []) in Hl.
    rewrite Hl. simpl in Ht |- *. by rewrite Ht.
Qed.

Lemma placed_pieces pos ks : map (fun t => (tok_type t, tok_text t)) (placed pos ks) = ks.
Proof.
  revert pos. induction ks as [|[ty s] ks IH]; intros pos; [done|]. simpl. by rewrite IH.
Qed.
