(* ===== verification/ParserBase.v ===== *)
(** * Parsers of tokens

    src/mysqlconnector/cdk/parser/parser.h: moving through the tokens ([Token_base]), a
    parser that reports to a processor or consumes silently ([Expr_parser]), and the
    parsers of lists, arrays and documents over a parser of base values ([List_parser],
    [Any_parser] with [Arr_parser], [Doc_parser] and [KV_parser]).

    The parsers report on the fly: a processor is the client's object whose callbacks are
    called while the tokens are consumed, and some callbacks return the processor for the
    next part, which may be null.  The model keeps the log of the calls.  A client is
    deterministic, so whether it returns null is a function of the calls it has seen,
    [p_accept].  A processor argument is a [bool]: false stands for the null pointer.

    A parser that moves through [n] tokens is given fuel [S n]. *)

From S2P Require Import Prelude Cursor Tokenizer.

(** ** Iterators, calls and the state of a parser *)

(** A position in the sequence of tokens: those that are left, and the text they were
    taken from, which the errors quote. *)
Record It := mk_It { it_input : wstr; it_toks : list Token }.

(** The calls on processors of documents, lists and any values; [Base] are those of
    the processor of base values. *)
Inductive call (Base : Type) :=
| c_doc | c_arr | c_scalar
| c_doc_begin | c_doc_end | c_key_val (key : wstr)
| c_list_begin | c_list_end | c_list_el
| c_base (b : Base).
Arguments c_doc {Base}. Arguments c_arr {Base}. Arguments c_scalar {Base}.
Arguments c_doc_begin {Base}. Arguments c_doc_end {Base}. Arguments c_key_val {Base} key.
Arguments c_list_begin {Base}. Arguments c_list_end {Base}. Arguments c_list_el {Base}.
Arguments c_base {Base} b.

#[export] Instance call_eq_dec {Base} `{EqDecision Base} : EqDecision (call Base).
Proof. solve_decision. Defined.

Record PState (Base : Type) := mk_PState {
  p_it : It;
  p_log : list (call Base);
  p_accept : list (call Base) -> bool
}.
Arguments mk_PState {Base} _ _ _.
Arguments p_it {Base} _. Arguments p_log {Base} _. Arguments p_accept {Base} _ _.

Section parsers.
Context {Base : Type}.
Abbreviation parser := (Method (PState Base)).
Implicit Types (prc : bool) (s : PState Base).

Definition set_it (it : It) s : PState Base := mk_PState it (p_log s) (p_accept s).
Definition set_log (l : list (call Base)) s : PState Base := mk_PState (p_it s) l (p_accept s).

(** ** [Token_base] *)

Definition rest_toks s : list Token := it_toks (p_it s).

Definition tokens_available s : bool := negb (bool_decide (rest_toks s = [])).

Definition peek_token s : option Token := head (rest_toks s).

Definition next_it (it : It) : It := mk_It (it_input it) (tail (it_toks it)).

Definition consume_token : parser (option Token) := fun s =>
  match peek_token s with
  | None => (Ok None, s)
  | Some t => (Ok (Some t), set_it (next_it (p_it s)) s)
  end.

Definition cur_token_type_is (ty : Token_Type) s : bool :=
  match peek_token s with Some t => bool_decide (tok_type t = ty) | None => false end.

Definition cur_token_type_in (types : list Token_Type) s : bool :=
  match peek_token s with Some t => bool_decide (tok_type t ∈ types) | None => false end.

Definition consume_token_is (ty : Token_Type) : parser (option Token) :=
  b ← read (cur_token_type_is ty);
  if b : bool then consume_token else mret None.

(** The position of an iterator: where its token begins, or the end of the text. *)
Definition it_pos (it : It) : nat :=
  match it_toks it with t :: _ => pos_begin t | [] => length (it_input it) end.

Definition error_at {A} (it : It) (msg : wstr) : outcome A :=
  throw_error (it_input it) (it_pos it) msg.

Definition parse_error {A} (msg : wstr) : parser A := fun s => (error_at (p_it s) msg, s).

Definition unsupported {A} (what : wstr) : parser A :=
  parse_error (what ++ wlit " not supported yet").

Definition consume_token_throw (ty : Token_Type) (msg : wstr) : parser Token :=
  t ← consume_token_is ty;
  match t with Some t => mret t | None => parse_error msg end.

(** ** Calls on a processor *)

(** A call that returns nothing. *)
Definition tell prc (c : call Base) : parser unit :=
  if prc then update (fun s => set_log (p_log s ++ [c]) s) else mret tt.

(** A call that returns a processor, null without a processor to call. *)
Definition ask prc (c : call Base) : parser bool :=
  if prc then update (fun s => set_log (p_log s ++ [c]) s);; read (fun s => p_accept s (p_log s))
  else mret false.

(** ** [Expr_parser]

    [do_parse] is the method of the derived class; the parsers are created where they are
    used and process once. *)

Definition consume (do_parse : bool -> parser bool) : parser unit :=
  b ← do_parse false;
  if b : bool then mret tt else parse_error (wlit "Failed to parse the string").

Definition process_if (do_parse : bool -> parser bool) prc : parser bool :=
  if prc then do_parse true else consume do_parse;; mret true.

Definition process (do_parse : bool -> parser bool) : parser unit :=
  b ← do_parse true;
  if b : bool then mret tt else parse_error (wlit "Failed to parse the string").

(** ** [List_parser]

    [list_el] is the call for the next element of the list processor, [el] the parser of
    an element. *)
Fixpoint list_do_parse (fuel : nat) (sep : Token_Type) (list_el : bool -> parser bool)
    (el : bool -> parser bool) (first_element : bool) prc : parser bool :=
  match fuel with
  | O => pure Diverged
  | S n =>
      e ← list_el prc;
      ok ← process_if el e;
      if negb ok then
        if first_element then mret false else parse_error (wlit "Expected next list element")
      else
        t ← consume_token_is sep;
        match t with
        | None => mret true
        | Some _ => list_do_parse n sep list_el el false prc
        end
  end.

(** ** [Any_parser]

    Arrays and documents, given the parser [any] of their elements. *)

Definition arr_do_parse (fuel : nat) (any : bool -> parser bool) prc : parser bool :=
  o ← consume_token_is LSQBRACKET;
  match o with
  | None => mret false
  | Some _ =>
      tell prc c_list_begin;;
      fin ← read (cur_token_type_is RSQBRACKET);
      (if fin : bool then mret tt else
         ok ← process_if (list_do_parse fuel COMMA (fun prc => ask prc c_list_el) any true) prc;
         if ok : bool then mret tt else parse_error (wlit "Expected array element"));;
      c ← consume_token_is RSQBRACKET;
      match c with
      | None => parse_error (wlit "Expected ']' to close array")
      | Some _ => tell prc c_list_end;; mret true
      end
  end.

Definition kv_do_parse (any : bool -> parser bool) prc : parser bool :=
  b ← read (cur_token_type_in [QQSTRING; QSTRING; WORD]);
  if negb b then mret false else
  t ← consume_token;
  key ← pure (deref (tok_text <$> t));
  c ← consume_token_is COLON;
  match c with
  | None => parse_error (wlit "Expected ':' after key name in a document")
  | Some _ =>
      v ← ask prc (c_key_val key);
      ok ← process_if any v;
      if ok : bool then mret true
      else parse_error (wlit "Expected key value after ':' in a document")
  end.

(** The pairs are a list whose processor gives the document's own for every element. *)
Definition doc_do_parse (fuel : nat) (any : bool -> parser bool) prc : parser bool :=
  o ← consume_token_is LCURLY;
  match o with
  | None => mret false
  | Some _ =>
      tell prc c_doc_begin;;
      fin ← read (cur_token_type_is RCURLY);
      (if fin : bool then mret tt else
         ok ← list_do_parse fuel COMMA mret (kv_do_parse any) true prc;
         if ok : bool then mret tt
         else parse_error (wlit "Expected a key-value pair in a document"));;
      c ← consume_token_is RCURLY;
      match c with
      | None => parse_error (wlit "Expected '}' closing a document")
      | Some _ => tell prc c_doc_end;; mret true
      end
  end.

(** [base] parses a base value, reporting to what [get_base_prc] makes of the processor. *)
Fixpoint any_do_parse (fuel : nat) (base : bool -> parser bool) prc : parser bool :=
  match fuel with
  | O => pure Diverged
  | S n =>
      doc ← read (cur_token_type_is LCURLY);
      arr ← read (cur_token_type_is LSQBRACKET);
      if doc : bool then
        p ← ask prc c_doc; process_if (doc_do_parse n (any_do_parse n base)) p;; mret true
      else if arr : bool then
        p ← ask prc c_arr; process_if (arr_do_parse n (any_do_parse n base)) p;; mret true
      else base prc
  end.

End parsers.
