(* ===== verification/ParserLaws.v ===== *)
(** * Laws of the parsers of lists, arrays and documents

    Steps of a parser on given tokens; a logic for parsers that come to an end with a
    result or a parse error, or without a meaning under a condition ([rets]), with which lists, arrays and documents end when
    their base values do; and what a client that refuses nothing shares with one that
    refuses some parts ([skips]). *)

From S2P Require Import Prelude Cursor Tokenizer Tokens ParserBase.

(** ** Steps of a parser on given tokens *)

Section steps.
Context {Base : Type}.
Abbreviation parser := (Method (PState Base)).

Definition ps (inp : wstr) (toks : list Token) (log : list (call Base))
    (accept : list (call Base) -> bool) : PState Base := mk_PState (mk_It inp toks) log accept.

Lemma consume_token_some inp t toks log acc :
  consume_token (ps inp (t :: toks) log acc) = (Ok (Some t), ps inp toks log acc).
Proof using. done. Qed.

Lemma cur_token_type_is_cons ty inp t toks log acc :
  cur_token_type_is ty (ps inp (t :: toks) log acc) = bool_decide (tok_type t = ty).
Proof using. done. Qed.

Lemma consume_token_is_yes ty inp t toks log acc : tok_type t = ty ->
  consume_token_is ty (ps inp (t :: toks) log acc) = (Ok (Some t), ps inp toks log acc).
Proof using.
  intros H. unfold consume_token_is. rewrite method_read, cur_token_type_is_cons.
  by rewrite bool_decide_true.
Qed.

Lemma consume_token_is_no ty inp t toks log acc : tok_type t <> ty ->
  consume_token_is ty (ps inp (t :: toks) log acc) = (Ok None, ps inp (t :: toks) log acc).
Proof using.
  intros H. unfold consume_token_is. rewrite method_read, cur_token_type_is_cons.
  by rewrite bool_decide_false.
Qed.

Definition told (prc : bool) (log : list (call Base)) (c : call Base) : list (call Base) :=
  if prc then log ++ [c] else log.

Lemma tell_ps prc c inp toks log acc :
  tell prc c (ps inp toks log acc) = (Ok tt, ps inp toks (told prc log c) acc).
Proof using. by destruct prc. Qed.

Lemma ask_ps prc c inp toks log acc :
  ask prc c (ps inp toks log acc) =
  (Ok (prc && acc (told prc log c)), ps inp toks (told prc log c) acc).
Proof using. by destruct prc. Qed.

Lemma process_if_true (m : bool -> parser bool) prc s s' :
  m prc s = (Ok true, s') -> process_if m prc s = (Ok true, s').
Proof using.
  intros H. unfold process_if. destruct prc; [done|].
  unfold consume. unfold mbind at 1, Method_bind at 1. by rewrite (method_bind_ok H).
Qed.
End steps.

(** The tokens have these types and texts, wherever they are. *)
Definition tokens_are (toks : list Token) (ks : list piece) : Prop :=
  map (fun t => (tok_type t, tok_text t)) toks = ks.

Lemma tokens_are_cons toks k ks : tokens_are toks (k :: ks) ->
  exists t toks', toks = t :: toks' /\ tok_type t = k.1 /\ tok_text t = k.2 /\ tokens_are toks' ks.
Proof.
  unfold tokens_are. destruct toks as [|t toks]; [done|]. intros [= <- <-]. by exists t, toks.
Qed.

Lemma tokens_are_app toks ks1 ks2 : tokens_are toks (ks1 ++ ks2) ->
  exists toks1 toks2, toks = toks1 ++ toks2 /\ tokens_are toks1 ks1 /\ tokens_are toks2 ks2.
Proof. apply map_eq_app. Qed.

(** ** Parsers that end *)

(** What the parsers throw. *)
Definition parser_exn (e : exn) : Prop :=
  match e with
  | ParseError _ _ _ _ | ConversionError _ | ConversionPartial _ => True
  | _ => False
  end.

(** All the tokens, and when a parser may be without a meaning. *)
Section ends.
Context {Base : Type} (whole : list Token) (meaningless : Prop).
Abbreviation parser := (Method (PState Base)).
Implicit Types (s : PState Base).

Definition rets {A} (m : parser A) (Q : A -> PState Base -> Prop) s : Prop :=
  match m s with
  | (Ok a, s') => Q a s'
  | (Throw e, _) => parser_exn e
  | (Undefined, _) => meaningless
  | (Diverged, _) => False
  end.

Lemma rets_bind {A B} (m : parser A) (f : A -> parser B) Q s :
  rets m (fun a s' => rets (f a) Q s') s -> rets (m ≫= f) Q s.
Proof using. unfold rets, mbind, Method_bind. by destruct (m s) as [[a|e| |] s']. Qed.

Lemma rets_mono {A} (m : parser A) (Q R : A -> PState Base -> Prop) s :
  rets m Q s -> (forall a s', Q a s' -> R a s') -> rets m R s.
Proof using. unfold rets. intros H HQ. destruct (m s) as [[a|e| |] s']; auto. Qed.

Lemma rets_read {A} (g : PState Base -> A) (Q : A -> PState Base -> Prop) s :
  Q (g s) s -> rets (read g) Q s.
Proof using. done. Qed.

(** The tokens that are left are the last ones of all, and inside of the text the errors
    quote. *)
Definition within s : Prop :=
  Forall (fun t => (pos_begin t <= length (it_input (p_it s)))%nat) (rest_toks s).
Definition inside s : Prop := within s /\ rest_toks s `suffix_of` whole.

Definition left s : nat := length (rest_toks s).

Lemma rets_error {A} msg (Q : A -> PState Base -> Prop) s : inside s -> rets (parse_error msg) Q s.
Proof using.
  intros [Hi _]. unfold rets, parse_error, error_at.
  destruct (@throw_error_parse A (it_input (p_it s)) (it_pos (p_it s)) msg) as (a & b & ->); [|done].
  unfold it_pos, within, rest_toks in *. destruct (it_toks (p_it s)); [done|]. by inversion Hi.
Qed.

(** From [s] to [s'] no token was added; if [b], one was taken. *)
Definition shrunk (b : bool) s s' : Prop :=
  inside s' /\ (left s' <= left s)%nat /\ (b = true -> (left s' < left s)%nat).

Lemma shrunk_refl s : inside s -> shrunk false s s.
Proof using. intros Hi. split; [exact Hi|]. by split. Qed.

Lemma shrunk_trans b c s1 s2 s3 : shrunk b s1 s2 -> shrunk c s2 s3 -> shrunk (b || c) s1 s3.
Proof using.
  intros (_ & H1 & H2) (H3 & H4 & H5). split; [done|]. split; [lia|].
  intros [Hb|Hc]%orb_true_iff; [specialize (H2 Hb)|specialize (H5 Hc)]; lia.
Qed.

Lemma shrunk_weaken b s s' : shrunk b s s' -> shrunk false s s'.
Proof using. by intros (H1 & H2 & _). Qed.

Lemma rets_consume_token s : inside s ->
  rets consume_token (fun t s' => shrunk (bool_decide (t <> None)) s s' /\
    match t with Some t => rest_toks s = t :: rest_toks s' | None => rest_toks s = [] end) s.
Proof using.
  intros [Hi Hw]. unfold rets, consume_token, peek_token.
  destruct s as [[inp toks] log acc]. unfold shrunk, inside, within, left, rest_toks in *. simpl in *.
  destruct toks as [|t toks]; simpl; [split; [by split; [split|split]|done]|]. inversion Hi; subst.
  split; [|done]. split; [split; [done|]|split; [lia|intros _; lia]].
  etrans; [|exact Hw]. by exists [t].
Qed.

Lemma rets_consume_token_is ty s : inside s ->
  rets (consume_token_is ty) (fun t s' => shrunk (bool_decide (t <> None)) s s' /\
    cur_token_type_is ty s = bool_decide (t <> None)) s.
Proof using.
  intros Hi. unfold consume_token_is. apply rets_bind, rets_read.
  destruct (cur_token_type_is ty s) eqn:E; [|split; [by apply shrunk_refl|done]].
  eapply rets_mono; [by apply rets_consume_token|]. intros [t|] s' [Hs Ht]; [done|].
  exfalso. unfold cur_token_type_is, peek_token in E. by rewrite Ht in E.
Qed.

Lemma rets_tell prc c s : inside s -> rets (tell prc c) (fun _ s' => shrunk false s s') s.
Proof using. intros Hi. by destruct prc; apply (shrunk_refl s). Qed.

Lemma rets_ask prc c s : inside s -> rets (ask prc c) (fun _ s' => shrunk false s s') s.
Proof using. intros Hi. by destruct prc; apply (shrunk_refl s). Qed.

(** A parser that takes a token when it says so. *)
Definition ends_at (m : bool -> parser bool) s : Prop :=
  forall prc, rets (m prc) (fun b s' => shrunk b s s') s.

Lemma rets_process_if m prc s : inside s -> ends_at m s -> rets (process_if m prc) (fun b s' => shrunk b s s') s.
Proof using.
  intros Hi Hm. unfold process_if. destruct prc; [by apply Hm|]. apply rets_bind. unfold consume.
  apply rets_bind. eapply rets_mono; [by apply Hm|]. intros [|] s' Hs; [exact Hs|].
  apply rets_error. by destruct Hs.
Qed.

Lemma list_ends sep list_el el : (forall prc s, inside s -> rets (list_el prc) (fun _ s' => shrunk false s s') s) ->
  forall n s, inside s -> (left s < n)%nat ->
  (forall s', inside s' -> (left s' <= left s)%nat -> ends_at el s') ->
  forall first, ends_at (list_do_parse n sep list_el el first) s.
Proof using.
  intros Hl. induction n as [|n IH]; intros s Hi Hn Hel first prc; [lia|]. cbn [list_do_parse].
  apply rets_bind. eapply rets_mono; [by apply Hl|]. intros e s1 H1. apply rets_bind.
  pose proof H1 as (Hi1 & Hl1 & _).
  eapply rets_mono; [apply rets_process_if; [done|by apply Hel]|]. intros [|] s2 H2; cbn [negb].
  - apply rets_bind. pose proof H2 as (Hi2 & _ & Hlt). specialize (Hlt eq_refl).
    eapply rets_mono; [by apply rets_consume_token_is|]. intros [t|] s3 [H3 _].
    + pose proof H3 as (Hi3 & Hl3 & _).
      eapply rets_mono; [apply IH; [done|lia|intros; apply Hel; [done|lia]]|].
      intros b s4 H4. pose proof (shrunk_trans _ _ _ _ _ H1 H2) as H12.
      pose proof (shrunk_trans _ _ _ _ _ H12 H3) as H13.
      pose proof (shrunk_trans _ _ _ _ _ H13 H4) as (Ha & Hb & Hc). split; [done|]. split; [done|].
      intros _. by apply Hc.
    + pose proof (shrunk_trans _ _ _ _ _ H1 H2) as H12.
      exact (shrunk_trans _ _ _ _ _ H12 H3).
  - destruct first.
    + exact (shrunk_trans _ _ _ _ _ H1 H2).
    + apply rets_error. by destruct H2.
Qed.

(** The closing token of an array or a document, after which the calls end. *)
Lemma rets_close ty msg prc c s0 s : inside s -> shrunk true s0 s ->
  rets (t ← consume_token_is ty;
        match t with None => parse_error msg | Some _ => tell prc c;; mret true end)
    (fun b s' => shrunk b s0 s' /\ true = b) s.
Proof using.
  intros Hi H0. apply rets_bind. eapply rets_mono; [by apply rets_consume_token_is|].
  intros [t|] s1 [H1 _]; [|apply rets_error; by destruct H1]. apply rets_bind.
  eapply rets_mono; [apply rets_tell; by destruct H1|]. intros [] s2 H2.
  pose proof (shrunk_trans _ _ _ _ _ H0 H1) as H01. split; [|done].
  exact (shrunk_trans _ _ _ _ _ H01 H2).
Qed.

Lemma arr_ends n any s : inside s -> (left s <= n)%nat ->
  (forall s', inside s' -> (left s' < left s)%nat -> ends_at any s') ->
  forall prc, rets (arr_do_parse n any prc)
    (fun b s' => shrunk b s s' /\ cur_token_type_is LSQBRACKET s = b) s.
Proof using.
  intros Hi Hn Hany prc. unfold arr_do_parse. apply rets_bind.
  eapply rets_mono; [by apply rets_consume_token_is|]. intros [t|] s1 [H1 ->]; [|by split].
  pose proof H1 as (Hi1 & _ & Hlt). specialize (Hlt eq_refl). apply rets_bind.
  eapply rets_mono; [by apply rets_tell|]. intros [] s2 H2. pose proof (shrunk_trans _ _ _ _ _ H1 H2) as H12.
  pose proof H2 as (Hi2 & Hl2 & _). apply rets_bind, rets_read, rets_bind.
  destruct (cur_token_type_is RSQBRACKET s2); [by apply rets_close|]. apply rets_bind.
  eapply rets_mono.
  { apply rets_process_if; [done|]. apply list_ends; [intros; by apply rets_ask|done|lia|].
    intros; apply Hany; [done|lia]. }
  intros [|] s3 H3; [|apply rets_error; by destruct H3]. apply rets_close; [by destruct H3|].
  exact (shrunk_trans _ _ _ _ _ H12 H3).
Qed.

Lemma kv_ends any s : inside s ->
  (forall s', inside s' -> (left s' < left s)%nat -> ends_at any s') -> ends_at (kv_do_parse any) s.
Proof using.
  intros Hi Hany prc. unfold kv_do_parse. apply rets_bind, rets_read.
  destruct (cur_token_type_in _ s) eqn:E; [|by apply shrunk_refl]. cbn [negb]. apply rets_bind.
  eapply rets_mono; [by apply rets_consume_token|]. intros [t|] s1 [H1 Ht].
  2:{ exfalso. unfold cur_token_type_in, peek_token in E. by rewrite Ht in E. }
  pose proof H1 as (Hi1 & _ & Hlt). specialize (Hlt eq_refl). apply rets_bind. simpl. apply rets_bind.
  eapply rets_mono; [by apply rets_consume_token_is|]. intros [c|] s2 [H2 _]; [|apply rets_error; by destruct H2].
  pose proof (shrunk_trans _ _ _ _ _ H1 H2) as H12. pose proof H2 as (Hi2 & Hl2 & _).
  apply rets_bind. eapply rets_mono; [by apply rets_ask|]. intros v s3 H3.
  pose proof (shrunk_trans _ _ _ _ _ H12 H3) as H13. pose proof H3 as (Hi3 & Hl3 & _). apply rets_bind.
  eapply rets_mono; [apply rets_process_if; [done|apply Hany; [done|lia]]|].
  intros [|] s4 H4; [|apply rets_error; by destruct H4].
  exact (shrunk_trans _ _ _ _ _ H13 H4).
Qed.

Lemma doc_ends n any s : inside s -> (left s <= n)%nat ->
  (forall s', inside s' -> (left s' < left s)%nat -> ends_at any s') ->
  forall prc, rets (doc_do_parse n any prc)
    (fun b s' => shrunk b s s' /\ cur_token_type_is LCURLY s = b) s.
Proof using.
  intros Hi Hn Hany prc. unfold doc_do_parse. apply rets_bind.
  eapply rets_mono; [by apply rets_consume_token_is|]. intros [t|] s1 [H1 ->]; [|by split].
  pose proof H1 as (Hi1 & _ & Hlt). specialize (Hlt eq_refl). apply rets_bind.
  eapply rets_mono; [by apply rets_tell|]. intros [] s2 H2. pose proof (shrunk_trans _ _ _ _ _ H1 H2) as H12.
  pose proof H2 as (Hi2 & Hl2 & _). apply rets_bind, rets_read, rets_bind.
  destruct (cur_token_type_is RCURLY s2); [by apply rets_close|]. apply rets_bind.
  eapply rets_mono.
  { apply list_ends; [intros; by apply shrunk_refl|done|lia|].
    intros s' Hs' Hl'; apply kv_ends; [done|]. intros; apply Hany; [done|lia]. }
  intros [|] s3 H3; [|apply rets_error; by destruct H3]. apply rets_close; [by destruct H3|].
  exact (shrunk_trans _ _ _ _ _ H12 H3).
Qed.

Lemma any_ends base : (forall s, inside s -> ends_at base s) ->
  forall n s, inside s -> (left s < n)%nat -> ends_at (any_do_parse n base) s.
Proof using.
  intros Hb. induction n as [|n IH]; intros s Hi Hn prc; [lia|]. cbn [any_do_parse].
  apply rets_bind, rets_read, rets_bind, rets_read.
  assert (Hpart : forall m c ty, cur_token_type_is ty s = true ->
    (forall s', inside s' -> (left s' <= left s)%nat ->
      forall prc, rets (m prc) (fun b s'' => shrunk b s' s'' /\ cur_token_type_is ty s' = b) s') ->
    rets (p ← ask prc c; process_if m p;; mret true) (fun b s' => shrunk b s s') s).
  { intros m c ty Hty Hm. apply rets_bind.
    assert (Hask : rets (ask prc c) (fun _ s' => p_it s' = p_it s) s) by (by destruct prc).
    eapply rets_mono; [exact Hask|]. intros p s1 Hs1. apply rets_bind.
    assert (Hr : rest_toks s1 = rest_toks s) by (unfold rest_toks; by rewrite Hs1).
    assert (Hi1 : inside s1) by (unfold inside, within in *; by rewrite Hr, Hs1).
    assert (Hl1 : left s1 = left s) by (unfold left; by rewrite Hr).
    assert (Hty1 : cur_token_type_is ty s1 = true)
      by (unfold cur_token_type_is, peek_token; by rewrite Hr).
    assert (Hboth : forall q, rets (m q) (fun b s'' => b = true /\ shrunk true s s'') s1).
    { intros q. eapply rets_mono; [apply Hm; [done|lia]|]. intros b s' [H <-]. rewrite Hty1 in *.
      split; [done|]. destruct H as (Ha & Hb' & Hc). unfold shrunk. rewrite <- Hl1. auto. }
    unfold process_if. destruct p.
    - eapply rets_mono; [apply Hboth|]. by intros b s' [_ H].
    - apply rets_bind. unfold consume. apply rets_bind. eapply rets_mono; [apply Hboth|].
      intros b s' [-> H]. exact H. }
  destruct (cur_token_type_is LCURLY s) eqn:Ec; [|destruct (cur_token_type_is LSQBRACKET s) eqn:Ea].
  - apply (Hpart _ _ LCURLY Ec). intros s' Hi' Hl'. apply doc_ends; [done|lia|].
    intros s'' Hi'' Hl''. apply IH; [done|lia].
  - apply (Hpart _ _ LSQBRACKET Ea). intros s' Hi' Hl'. apply arr_ends; [done|lia|].
    intros s'' Hi'' Hl''. apply IH; [done|lia].
  - by apply Hb.
Qed.
End ends.

(** ** Clients that refuse parts

    What is parsed for a client that takes everything is parsed for every client, with
    the same tokens. *)

Section skipping.
Context {Base : Type}.
Abbreviation parser := (Method (PState Base)).
Implicit Types (s : PState Base).

Definition takes_all s : Prop := forall l, p_accept s l = true.

(** If [m1] returns an [a] with [P a] to a client that takes everything, [m2] returns it
    to every client, at the same token. *)
Definition sim {A} (P : A -> Prop) (m1 m2 : parser A) : Prop :=
  forall s s1 a s', p_it s1 = p_it s -> takes_all s -> m1 s = (Ok a, s') -> P a ->
  takes_all s' /\ exists s1', m2 s1 = (Ok a, s1') /\ p_it s1' = p_it s'.

Definition yes (b : bool) : Prop := b = true.
Definition any {A} (_ : A) : Prop := True.

Lemma bind_inv {A B} (m : parser A) (f : A -> parser B) s b s' :
  (m ≫= f) s = (Ok b, s') -> exists a s0, m s = (Ok a, s0) /\ f a s0 = (Ok b, s').
Proof using.
  unfold mbind, Method_bind. destruct (m s) as [[a|e| |] s0]; try done. by exists a, s0.
Qed.

Lemma sim_ret {A} (a : A) Q : sim Q (mret a) (mret a).
Proof using. intros s s1 a' s' Hit Hall [= <- <-] _. by eauto. Qed.

Lemma sim_error {A} msg Q (m : parser A) : sim Q (parse_error msg) m.
Proof using.
  intros s s1 a s' _ _ H. unfold parse_error, error_at, throw_error in H.
  by destruct (Error_buffers _ _) as [[]|e| |].
Qed.

Lemma sim_bind {A B} (m1 m2 : parser A) (f1 f2 : A -> parser B) P Q :
  sim P m1 m2 -> (forall a, sim Q (f1 a) (f2 a)) -> (forall a, P a) -> sim Q (m1 ≫= f1) (m2 ≫= f2).
Proof using.
  intros Hm Hf HP s s1 b s' Hit Hall (a & s0 & Hm1 & Hf1)%bind_inv HQ.
  destruct (Hm s s1 a s0 Hit Hall Hm1 (HP a)) as (Hall0 & s10 & Hm2 & Hit0).
  rewrite (method_bind_ok Hm2). by eapply Hf.
Qed.

(** A test of which only one result leads on. *)
Lemma sim_bind_yes {B} (m1 m2 : parser bool) (f1 f2 : bool -> parser B) Q :
  sim yes m1 m2 -> sim Q (f1 true) (f2 true) ->
  (forall s b s', f1 false s = (Ok b, s') -> ~ Q b) -> sim Q (m1 ≫= f1) (m2 ≫= f2).
Proof using.
  intros Hm Hf Hno s s1 b s' Hit Hall ([|] & s0 & Hm1 & Hf1)%bind_inv HQ;
    [|by destruct (Hno _ _ _ Hf1)].
  destruct (Hm s s1 true s0 Hit Hall Hm1 eq_refl) as (Hall0 & s10 & Hm2 & Hit0).
  rewrite (method_bind_ok Hm2). by eapply Hf.
Qed.

(** What looks only at the tokens. *)
Definition token_test {A} (g : PState Base -> A) : Prop := forall s s1, p_it s1 = p_it s -> g s1 = g s.

Lemma sim_read {A B} (g : PState Base -> A) (f1 f2 : A -> parser B) Q :
  token_test g -> (forall a, sim Q (f1 a) (f2 a)) -> sim Q (read g ≫= f1) (read g ≫= f2).
Proof using.
  intros Hg Hf s s1 b s' Hit Hall H HQ. rewrite method_read in H |- *. rewrite (Hg s s1 Hit).
  by eapply Hf.
Qed.

Lemma token_test_is ty : token_test (cur_token_type_is ty).
Proof using. intros s s1 H. unfold cur_token_type_is, peek_token, rest_toks. by rewrite H. Qed.

Lemma token_test_in tys : token_test (cur_token_type_in tys).
Proof using. intros s s1 H. unfold cur_token_type_in, peek_token, rest_toks. by rewrite H. Qed.

Lemma sim_consume_token : sim any consume_token consume_token.
Proof using.
  intros s s1 a s' Hit Hall H _. unfold consume_token, peek_token, rest_toks in *. rewrite Hit.
  destruct (head _); injection H as <- <-; (split; [exact Hall|]); eexists; by (split; [reflexivity|]).
Qed.

Lemma sim_consume_token_is ty : sim any (consume_token_is ty) (consume_token_is ty).
Proof using.
  apply sim_read; [apply token_test_is|]. intros [|]; [apply sim_consume_token|apply sim_ret].
Qed.

Lemma sim_pure {A} (o : outcome A) Q : sim Q (pure o) (pure o).
Proof using. intros s s1 a s' Hit Hall [= -> <-] _. by eauto. Qed.

Lemma sim_tell c prc : sim any (tell true c) (tell prc c).
Proof using.
  intros s s1 [] s' Hit Hall [= <-] _. split; [exact Hall|]. destruct prc; eexists; by (split; [reflexivity|]).
Qed.

(** The processor that a call returns, or null. *)
Definition next_prc (list_el : bool -> parser bool) : Prop :=
  forall B (f1 f2 : bool -> parser B) Q prc, (forall q, sim Q (f1 true) (f2 q)) ->
  sim Q (list_el true ≫= f1) (list_el prc ≫= f2).

Lemma next_prc_ask c : next_prc (fun prc => ask prc c).
Proof using.
  intros B f1 f2 Q prc Hf s s1 b s' Hit Hall (a & s0 & Hm1 & Hf1)%bind_inv HQ.
  unfold ask in Hm1. rewrite method_update in Hm1. injection Hm1 as <- <-.
  rewrite Hall in Hf1. unfold mbind at 1, Method_bind at 1.
  destruct prc; simpl; (refine (Hf _ _ _ _ _ _ _ Hf1 HQ); [exact Hit|exact Hall]).
Qed.

Lemma next_prc_ret : next_prc mret.
Proof using.
  intros B f1 f2 Q prc Hf s s1 b s' Hit Hall H HQ. by eapply (Hf prc).
Qed.

Definition skips (m : bool -> parser bool) : Prop := forall prc, sim yes (m true) (m prc).

Lemma process_if_skips m : skips m -> skips (process_if m).
Proof using.
  intros Hm prc. unfold process_if. destruct prc; [apply Hm|].
  intros s s1 a s' Hit Hall H Ha. destruct (Hm false s s1 a s' Hit Hall H Ha) as (Hall' & s1' & H1 & H2).
  split; [done|]. exists s1'. split; [|done]. unfold yes in Ha. subst. unfold consume.
  unfold mbind at 1, Method_bind at 1. by rewrite (method_bind_ok H1).
Qed.

Lemma error_never {A} msg s (a : A) s' : parse_error (Base := Base) msg s <> (Ok a, s').
Proof using.
  unfold parse_error, error_at, throw_error. intros H. by destruct (Error_buffers _ _) as [[]|e| |].
Qed.

Lemma list_skips n sep list_el el : next_prc list_el -> skips el ->
  forall first, skips (list_do_parse n sep list_el el first).
Proof using.
  intros Hle Hel. induction n as [|n IH]; intros first prc; [apply sim_pure|]. cbn [list_do_parse].
  apply Hle. intros q. apply sim_bind_yes; [by apply process_if_skips| |].
  - cbn [negb]. apply (sim_bind _ _ _ _ any); [apply sim_consume_token_is| |done].
    intros [t|]; [apply IH|apply sim_ret].
  - intros s b s'. cbn [negb]. destruct first; [|by intros []%error_never].
    intros [= <- <-]. unfold yes. done.
Qed.

Lemma close_skips ty msg prc c :
  sim yes (t ← consume_token_is ty;
     match t with None => parse_error msg | Some _ => tell true c;; mret true end)
    (t ← consume_token_is ty;
     match t with None => parse_error msg | Some _ => tell prc c;; mret true end).
Proof using.
  apply (sim_bind _ _ _ _ any); [apply sim_consume_token_is| |done]. intros [t|]; [|apply sim_error].
  apply (sim_bind _ _ _ _ any); [apply sim_tell|intros; apply sim_ret|done].
Qed.

Lemma arr_skips n any' : skips any' -> skips (arr_do_parse n any').
Proof using.
  intros Ha prc. unfold arr_do_parse.
  apply (sim_bind _ _ _ _ any); [apply sim_consume_token_is| |done]. intros [t|]; [|apply sim_ret].
  apply (sim_bind _ _ _ _ any); [apply sim_tell| |done]. intros _.
  apply sim_read; [apply token_test_is|]. intros fin.
  apply (sim_bind _ _ _ _ any); [|intros; apply close_skips|done].
  destruct fin; [apply sim_ret|]. apply sim_bind_yes; [|apply sim_ret|by intros s b s' []%error_never].
  apply process_if_skips, list_skips; [apply next_prc_ask|done].
Qed.

Lemma kv_skips any' : skips any' -> skips (kv_do_parse any').
Proof using.
  intros Ha prc. unfold kv_do_parse. apply sim_read; [apply token_test_in|].
  intros [|]; cbn [negb]; [|apply sim_ret].
  apply (sim_bind _ _ _ _ any); [apply sim_consume_token| |done]. intros t.
  apply (sim_bind _ _ _ _ any); [apply sim_pure| |done]. intros key.
  apply (sim_bind _ _ _ _ any); [apply sim_consume_token_is| |done]. intros [c|]; [|apply sim_error].
  apply (next_prc_ask (c_key_val key)). intros q.
  apply sim_bind_yes; [by apply process_if_skips|apply sim_ret|by intros s b s' []%error_never].
Qed.

Lemma doc_skips n any' : skips any' -> skips (doc_do_parse n any').
Proof using.
  intros Ha prc. unfold doc_do_parse.
  apply (sim_bind _ _ _ _ any); [apply sim_consume_token_is| |done]. intros [t|]; [|apply sim_ret].
  apply (sim_bind _ _ _ _ any); [apply sim_tell| |done]. intros _.
  apply sim_read; [apply token_test_is|]. intros fin.
  apply (sim_bind _ _ _ _ any); [|intros; apply close_skips|done].
  destruct fin; [apply sim_ret|]. apply sim_bind_yes; [|apply sim_ret|by intros s b s' []%error_never].
  apply list_skips; [apply next_prc_ret|by apply kv_skips].
Qed.

(** An array or a document is parsed where its first token is. *)
Definition starts_with (ty : Token_Type) (m : bool -> parser bool) : Prop :=
  forall prc s b s', m prc s = (Ok b, s') -> cur_token_type_is ty s = b.

Lemma consume_token_is_first ty s t s' :
  consume_token_is ty s = (Ok t, s') -> cur_token_type_is ty s = bool_decide (t <> None).
Proof using.
  unfold consume_token_is. rewrite method_read. destruct (cur_token_type_is ty s) eqn:E.
  - unfold consume_token. unfold cur_token_type_is in E. destruct (peek_token s); [|done].
    by intros [= <- _].
  - by intros [= <- _].
Qed.

Lemma close_true ty msg prc c s b s' :
  (t ← consume_token_is ty;
   match t with None => parse_error msg | Some _ => tell prc c;; mret true end) s = (Ok b, s') ->
  b = true.
Proof using.
  intros ([t|] & s0 & _ & H)%bind_inv; [|by apply error_never in H].
  apply bind_inv in H as (? & ? & _ & [= <- _]). done.
Qed.

Lemma arr_starts n any' : starts_with LSQBRACKET (arr_do_parse n any').
Proof using.
  intros prc s b s' ([t|] & s0 & H0 & H)%bind_inv; apply consume_token_is_first in H0; rewrite H0.
  - apply bind_inv in H as (? & ? & _ & H). apply bind_inv in H as (? & ? & _ & H).
    apply bind_inv in H as (? & ? & _ & H). by apply close_true in H as ->.
  - by injection H as <- _.
Qed.

Lemma doc_starts n any' : starts_with LCURLY (doc_do_parse n any').
Proof using.
  intros prc s b s' ([t|] & s0 & H0 & H)%bind_inv; apply consume_token_is_first in H0; rewrite H0.
  - apply bind_inv in H as (? & ? & _ & H). apply bind_inv in H as (? & ? & _ & H).
    apply bind_inv in H as (? & ? & _ & H). by apply close_true in H as ->.
  - by injection H as <- _.
Qed.

Lemma ask_it prc c s b s' : ask prc c s = (Ok b, s') -> p_it s' = p_it s.
Proof using. destruct prc; [|by intros [= _ <-]]. unfold ask. rewrite method_update. by intros [= _ <-]. Qed.

Lemma part_skips m ty c prc s s1 b s' :
  skips m -> starts_with ty m -> p_it s1 = p_it s -> takes_all s -> cur_token_type_is ty s = true ->
  (p ← ask true c; process_if m p;; mret true) s = (Ok b, s') ->
  takes_all s' /\ exists s1', (p ← ask prc c; process_if m p;; mret true) s1 = (Ok b, s1') /\
    p_it s1' = p_it s'.
Proof using.
  intros Hm Hty Hit Hall Hcur H.
  apply bind_inv in H as (p & s0 & Hask & H). pose proof (ask_it _ _ _ _ _ Hask) as Hit0.
  apply bind_inv in H as (r & s2 & Hm1 & [= <- <-]).
  assert (p = true) as ->.
  { unfold ask in Hask. rewrite method_update in Hask. injection Hask as <- _. apply Hall. }
  simpl in Hm1. assert (r = true) as ->.
  { rewrite <- (Hty _ _ _ _ Hm1). unfold cur_token_type_is, peek_token, rest_toks in *. by rewrite Hit0. }
  assert (Hall0 : takes_all s0).
  { unfold ask in Hask. rewrite method_update in Hask. by injection Hask as _ <-. }
  destruct (ask prc c s1) as [o s10] eqn:E1. destruct o as [q|e| |]; try by destruct prc.
  destruct (process_if_skips m Hm q s0 s10 true s2) as (Ha & s1' & H1 & H2); [|done|done|done|].
  { rewrite (ask_it _ _ _ _ _ E1). congruence. }
  split; [done|]. exists s1'. split; [|done]. rewrite (method_bind_ok E1). by rewrite (method_bind_ok H1).
Qed.

Lemma any_skips base n : skips base -> skips (any_do_parse n base).
Proof using.
  intros Hb. induction n as [|n IH]; intros prc; [apply sim_pure|].
  intros s s1 b s' Hit Hall H Hy. cbn [any_do_parse] in H |- *. rewrite !method_read in H |- *.
  rewrite !(token_test_is _ s s1 Hit). destruct (cur_token_type_is LCURLY s) eqn:Ec;
    [|destruct (cur_token_type_is LSQBRACKET s) eqn:Ea].
  - eapply part_skips; [by apply doc_skips|apply doc_starts|done..].
  - eapply part_skips; [by apply arr_skips|apply arr_starts|done..].
  - by eapply Hb.
Qed.
End skipping.
