(* ===== verification/Json.v ===== *)
(** * The JSON parser

    src/mysqlconnector/cdk/parser/json_parser.{h,cc}: scalar values over the parsers of
    arrays and documents of [ParserBase], and [json_parse], which reports a document.
    A [double] is given by the decimal number its text denotes.

    An abstract document [json], its text, and the visit of a client by it: the calls of
    [report_any], where the client may refuse every part by returning a null processor.
    The parser makes these calls when it reads the text, whatever the client refuses; it
    always comes to an end; and what a client that takes everything accepts, every other
    client accepts; and integers at the bounds of their types. *)

From S2P Require Import Prelude Cursor Tokenizer Tokens ParserBase ParserLaws.

(** The calls on a [JSON_processor]. *)
Inductive json_call :=
| js_null | js_str (val : wstr) | js_num_int (val : Z) | js_num_uint (val : Z)
| js_num_double (val : decimal) | js_yesno (val : bool).

#[export] Instance json_call_eq_dec : EqDecision json_call.
Proof. solve_decision. Defined.

Abbreviation jparser := (Method (PState json_call)).

Definition INTEGER_ABS_MAX : Z := 9223372036854775808.

(** [JSON_token_base::Token_type]. *)
Inductive jtype :=
| J_OTHER | J_STRING | J_NUMBER | J_INTEGER | J_PLUS | J_MINUS | J_NULL | J_TRUE | J_FALSE.

#[export] Instance jtype_eq_dec : EqDecision jtype.
Proof. solve_decision. Defined.

Definition get_jtype (tok : Token) : jtype :=
  match tok_type tok with
  | PLUS => J_PLUS
  | MINUS => J_MINUS
  | NUMBER => J_NUMBER
  | INTEGER => J_INTEGER
  | QQSTRING | QSTRING => J_STRING
  | WORD =>
      let id := tok_text tok in
      if decide (id = wlit "null") then J_NULL
      else if decide (id = wlit "true") then J_TRUE
      else if decide (id = wlit "false") then J_FALSE
      else J_OTHER
  | _ => J_OTHER
  end.

(** The call for an integer: a negation of the [int64_t] that is not in its range is
    undefined. *)
Definition int_call (neg : bool) (val : Z) : jparser json_call :=
  if INTEGER_ABS_MAX <? val then
    if neg then parse_error (wlit "Numeric value is too large for a signed type")
    else mret (js_num_uint val)
  else if negb neg && (val =? INTEGER_ABS_MAX) then
    parse_error (wlit "Numeric value is too large for a signed type")
  else
    let v := to_int64 val in
    if neg then if in_int64 (- v) then mret (js_num_int (- v)) else pure Undefined
    else mret (js_num_int v).

(** A numeric value; the text is converted only if there is a processor. *)
Definition number_do_parse (neg : bool) (tok : Token) (vp : bool) : jparser bool :=
  match get_jtype tok with
  | J_NUMBER =>
      if negb vp then mret true else
      val ← pure (strtod (tok_text tok));
      tell vp (c_base (js_num_double (if neg then dec_opp val else val)));; mret true
  | J_INTEGER =>
      if negb vp then mret true else
      match strtoui (tok_text tok) 10 with
      | Throw e =>
          match conversion_msg e with Some m => parse_error m | None => pure (Throw e) end
      | o => val ← pure o; c ← int_call neg val; tell vp (c_base c);; mret true
      end
  | _ => parse_error (wlit "Invalid JSON value")
  end.

(** [JSON_scalar_parser::do_parse]. *)
Definition scalar_do_parse (vp : bool) : jparser bool :=
  t ← consume_token;
  match t with
  | None => mret false
  | Some tok =>
      match get_jtype tok with
      | J_STRING => tell vp (c_base (js_str (tok_text tok)));; mret true
      | J_NULL => tell vp (c_base js_null);; mret true
      | J_TRUE => tell vp (c_base (js_yesno true));; mret true
      | J_FALSE => tell vp (c_base (js_yesno false));; mret true
      | J_MINUS | J_PLUS =>
          n ← consume_token;
          match n with
          | None => parse_error (wlit "Expected number after +/- sign")
          | Some tok' => number_do_parse (bool_decide (get_jtype tok = J_MINUS)) tok' vp
          end
      | _ => number_do_parse false tok vp
      end
  end.

(** [get_base_prc] asks the processor for one of scalars. *)
Definition json_base (prc : bool) : jparser bool :=
  vp ← ask prc c_scalar; process_if scalar_do_parse vp.

Definition json_any (fuel : nat) : bool -> jparser bool := any_do_parse fuel json_base.

(** [JSON_parser::process] on the tokens of the input, with a client that decides by
    [accept] which processors it returns: the outcome and the calls the client saw. *)
Definition JSON_parser_process (input : wstr) (toks : list Token)
    (accept : list (call json_call) -> bool) : outcome unit * list (call json_call) :=
  let first := mk_It input toks in
  match toks with
  | [] => (error_at first (wlit "Expectiong JSON document string"), [])
  | _ =>
      let fuel := S (length toks) in
      let '(o, s) := doc_do_parse fuel (json_any fuel) true (mk_PState first [] accept) in
      (b ← o;
       if negb b || tokens_available s
       then error_at (p_it s) (wlit "Unexpected characters after parsing JSON string")
       else Ok tt, p_log s)
  end.

(** [json_parse]. *)
Definition json_parse (json : wstr) (accept : list (call json_call) -> bool)
  : outcome unit * list (call json_call) :=
  match Tokenizer_new json with
  | Ok toks => JSON_parser_process json toks accept
  | Throw e => (Throw e, [])
  | Undefined => (Undefined, [])
  | Diverged => (Diverged, [])
  end.

(** ** Decimal texts *)

Fixpoint dec_digits_of (fuel : nat) (z : Z) (acc : wstr) : wstr :=
  match fuel with
  | O => acc
  | S n =>
      let acc' := (48 + z mod 10) :: acc in
      if z <? 10 then acc' else dec_digits_of n (z / 10) acc'
  end.

(** The digits of a number below [10 ^ 20]. *)
Definition dec_text (z : Z) : wstr := dec_digits_of 20 z [].

Lemma dec_digit z : 0 <= z < 10 ->
  is_digit_in dec_digits (48 + z) = true /\ digit_value 10 (48 + z) = Some z.
Proof.
  intros Hz.
  assert (H : z = 0 \/ z = 1 \/ z = 2 \/ z = 3 \/ z = 4 \/ z = 5 \/ z = 6 \/ z = 7 \/ z = 8 \/ z = 9)
    by lia.
  repeat (destruct H as [->|H]; [done|]). by subst.
Qed.

Lemma dec_digits_of_reads n : forall z acc a c, 0 <= z < 10 ^ Z.of_nat n ->
  exists k ds, dec_digits_of n z acc = ds ++ acc /\ length ds = k /\ (n <> O -> ds <> []) /\
    digits ds /\
    take_digits 10 (ds ++ acc) a c = take_digits 10 acc (a * 10 ^ Z.of_nat k + z) (c + k).
Proof.
  induction n as [|n IH]; intros z acc a c Hz.
  - exists O, []. change (10 ^ Z.of_nat 0) with 1 in *. assert (z = 0) as -> by lia. repeat split; [done|constructor|].
    simpl. f_equal; [lia|]. lia.
  - cbn [dec_digits_of]. destruct (dec_digit (z mod 10)) as [H1 H2]; [by apply Z.mod_pos_bound|].
    destruct (Z.ltb_spec z 10) as [Hl|Hl].
    + exists 1%nat, [48 + z mod 10]. repeat split; [done|by repeat constructor|].
      cbn [app take_digits]. rewrite H2. rewrite Z.mod_small by lia. f_equal; lia.
    + destruct (IH (z / 10) ((48 + z mod 10) :: acc) a c) as (k & ds & -> & Hk & _ & Hd & Ht).
      { rewrite Nat2Z.inj_succ, Z.pow_succ_r in Hz by lia. split; [by apply Z.div_pos; lia|].
        apply Z.div_lt_upper_bound; lia. }
      exists (S k), (ds ++ [48 + z mod 10]). rewrite <- app_assoc. repeat split.
      * rewrite length_app. simpl. lia.
      * by destruct ds.
      * apply Forall_app. by repeat constructor.
      * cbn [app] in Ht |- *. rewrite Ht. cbn [take_digits]. rewrite H2.
        rewrite Nat2Z.inj_succ, Z.pow_succ_r by lia. f_equal; [|lia].
        rewrite (Z.div_mod z 10) at 3 by lia. lia.
Qed.

Lemma dec_text_reads z : 0 <= z < 2 ^ 64 ->
  dec_text z <> [] /\ digits (dec_text z) /\ strtoui (dec_text z) 10 = Ok z.
Proof.
  intros Hz. destruct (dec_digits_of_reads 20 z [] 0 0) as (k & ds & Ht & Hk & Hne & Hd & Hv);
    [change (10 ^ Z.of_nat 20) with 100000000000000000000; lia|].
  unfold dec_text. rewrite Ht, app_nil_r in *.
  assert (Hdne : ds <> []) by by apply Hne. split; [done|]. split; [done|].
  unfold strtoui, strtonum_int.
  assert (Hs : take_sign ds = (false, ds)).
  { destruct ds as [|d ds]; [done|]. inversion Hd as [|? ? H _]; subst. unfold take_sign.
    destruct (Z.eqb_spec d 45) as [->|]; [done|]. by destruct (Z.eqb_spec d 43) as [->|]. }
  rewrite Hs. cbn [fst snd]. rewrite Hv. cbn [take_digits].
  rewrite bool_decide_false by (destruct ds; [done|]; simpl in Hk; lia).
  by rewrite (proj2 (Z.ltb_lt _ _)) by lia.
Qed.

(** ** Floating numbers *)

(** A number with a fraction or an exponent: its sign, its integer part, the digits of the
    fraction and the exponent. *)
Record float := Float {
  fl_neg : bool;
  fl_int : Z;
  fl_frac : list Z;
  fl_exp : option Z;
}.

Definition exp_text (e : option Z) : wstr :=
  match e with
  | None => []
  | Some e => wchar "e" :: if e <? 0 then wchar "-" :: dec_text (- e) else dec_text e
  end.
Definition frac_text (ds : list Z) : wstr :=
  match ds with [] => [] | _ => wchar "." :: map (fun d => 48 + d) ds end.
Definition float_text (n : float) : wstr := dec_text (fl_int n) ++ frac_text (fl_frac n) ++ exp_text (fl_exp n).

(** The number that is meant. *)
Definition float_value (n : float) : decimal :=
  mk_decimal (fl_neg n) (fold_left (fun v d => v * 10 + d) (fl_frac n) (fl_int n))
    (default 0 (fl_exp n) - Z.of_nat (length (fl_frac n))).

Definition float_ok (n : float) : Prop :=
  0 <= fl_int n < 2 ^ 64 /\ Forall (fun d => 0 <= d < 10) (fl_frac n) /\
  match fl_exp n with Some e => - 2 ^ 64 < e < 2 ^ 64 | None => fl_frac n <> [] end /\
  dec_overflows (float_value n) = false.

Lemma dec_digits_of_app n z acc r : dec_digits_of n z (acc ++ r) = dec_digits_of n z acc ++ r.
Proof.
  revert z acc. induction n as [|n IH]; intros z acc; [done|]. cbn [dec_digits_of].
  destruct (z <? 10); [done|]. apply (IH (z / 10) (_ :: acc)).
Qed.

Lemma dec_text_taken z r : 0 <= z < 2 ^ 64 ->
  exists k, k <> O /\ take_digits 10 (dec_text z ++ r) 0 0 = take_digits 10 r z k.
Proof.
  intros Hz. destruct (dec_digits_of_reads 20 z r 0 0) as (k & ds & Ht & Hk & Hne & _ & Hv);
    [change (10 ^ Z.of_nat 20) with 100000000000000000000; lia|].
  exists k. split; [by destruct ds; [by specialize (Hne ltac:(done))|simpl in Hk; lia]|].
  unfold dec_text. rewrite <- dec_digits_of_app. cbn [app]. by rewrite Ht, Hv.
Qed.

Lemma frac_digits_taken ds r v n : Forall (fun d => 0 <= d < 10) ds ->
  take_digits 10 (map (fun d => 48 + d) ds ++ r) v n =
  take_digits 10 r (fold_left (fun v d => v * 10 + d) ds v) (n + length ds).
Proof.
  intros H. revert v n. induction H as [|d ds Hd _ IH]; intros v n; cbn [map app take_digits fold_left length].
  - by rewrite Nat.add_0_r.
  - destruct (dec_digit d Hd) as [_ ->]. rewrite IH. by rewrite Nat.add_succ_r.
Qed.

Lemma dec_text_sign z r : 0 <= z < 2 ^ 64 -> take_sign (dec_text z ++ r) = (false, dec_text z ++ r).
Proof.
  intros Hz. destruct (dec_text_reads z Hz) as (Hne & Hd & _). destruct (dec_text z) as [|d ds]; [done|].
  inversion Hd as [|? ? H _]; subst. unfold take_sign. cbn [app].
  destruct (Z.eqb_spec d 45) as [->|]; [done|]. by destruct (Z.eqb_spec d 43) as [->|].
Qed.

(** What ends the digits before an exponent. *)
Lemma exp_text_ends e v n : take_digits 10 (exp_text e) v n = (v, n, exp_text e).
Proof. by destruct e. Qed.

Lemma exp_text_taken e : match e with Some e => - 2 ^ 64 < e < 2 ^ 64 | None => True end ->
  take_exponent (exp_text e) = Some (default 0 e, []).
Proof.
  destruct e as [e|]; [|done]. intros He. unfold exp_text, take_exponent. cbn [Z.eqb orb].
  change ((wchar "e" =? 69) || (wchar "e" =? 101)) with true. cbv iota.
  destruct (Z.ltb_spec e 0).
  - cbn [take_sign]. change (wchar "-" =? 45) with true. cbv iota.
    destruct (dec_text_taken (- e) []) as (k & Hk & Ht); [lia|]. rewrite app_nil_r in Ht. rewrite Ht.
    cbn [take_digits]. rewrite bool_decide_false by done. cbn [from_option default id]. do 2 f_equal. lia.
  - pose proof (dec_text_sign e [] ltac:(lia)) as Hs. rewrite app_nil_r in Hs. rewrite Hs.
    destruct (dec_text_taken e []) as (k & Hk & Ht); [lia|]. rewrite app_nil_r in Ht. rewrite Ht.
    cbn [take_digits]. by rewrite bool_decide_false by done.
Qed.

Lemma float_text_reads n : float_ok n ->
  exists d, strtod (float_text n) = Ok d /\ (if fl_neg n then dec_opp d else d) = float_value n.
Proof.
  intros (Hi & Hf & He & Ho). exists (mk_decimal false (dec_mant (float_value n)) (dec_exp (float_value n))).
  split; [|by unfold float_value, dec_opp; destruct (fl_neg n)].
  unfold strtod, float_text. rewrite dec_text_sign by done.
  destruct (dec_text_taken (fl_int n) (frac_text (fl_frac n) ++ exp_text (fl_exp n)) Hi) as (k & Hk & ->).
  assert (Hfrac : exists j, take_fraction (frac_text (fl_frac n) ++ exp_text (fl_exp n)) (fl_int n) =
      (dec_mant (float_value n), j, exp_text (fl_exp n)) /\ j = length (fl_frac n) /\
    take_digits 10 (frac_text (fl_frac n) ++ exp_text (fl_exp n)) (fl_int n) k =
      (fl_int n, k, frac_text (fl_frac n) ++ exp_text (fl_exp n))).
  { unfold float_value. cbn [dec_mant]. destruct (fl_frac n) as [|d ds]; cbn [frac_text app].
    - exists O. rewrite exp_text_ends. split; [|done]. unfold take_fraction. by destruct (fl_exp n).
    - eexists. split; [|by split]. unfold take_fraction. change (wchar "." =? 46) with true. cbv iota.
      rewrite frac_digits_taken by done. by rewrite exp_text_ends. }
  destruct Hfrac as (j & E1 & -> & E2). rewrite E2, E1.
  rewrite exp_text_taken by by destruct (fl_exp n).
  change (default 0 (fl_exp n) - Z.of_nat (length (fl_frac n))) with (dec_exp (float_value n)).
  rewrite bool_decide_false by lia. cbn [orb].
  change (dec_overflows (mk_decimal false _ _)) with (dec_overflows (float_value n)). by rewrite Ho.
Qed.

(** The text is that of a token. *)
Lemma float_printable n : float_ok n -> printable (NUMBER, float_text n).
Proof.
  intros (Hi & Hf & He & _). destruct (dec_text_reads (fl_int n) Hi) as (Hne & Hd & _).
  unfold float_text. constructor; [done|done| | |].
  - destruct (fl_frac n) as [|d ds]; [constructor|]. unfold frac_text. constructor; [done|].
    apply Forall_map. eapply Forall_impl; [exact Hf|]. intros x Hx. by apply dec_digit.
  - destruct (fl_exp n) as [e|]; [|constructor]. unfold exp_text.
    destruct (Z.ltb_spec e 0).
    + destruct (dec_text_reads (- e)) as (? & ? & _); [lia|]. constructor; [by apply (bool_decide_unpack _)..| |]; done.
    + destruct (dec_text_reads e) as (? & ? & _); [lia|]. constructor; [by apply (bool_decide_unpack _)| |]; done.
  - destruct (fl_exp n) as [e|]; [by destruct (frac_text _)|]. by destruct (fl_frac n).
Qed.

(** ** Documents *)

Inductive json :=
| JNull | JBool (b : bool) | JString (v : wstr)
| JInt (z : Z)               (** [- 2 ^ 63 < z < 2 ^ 63] *)
| JUint (z : Z)              (** [2 ^ 63 < z < 2 ^ 64] *)
| JFloat (n : float)
| JArr (l : list json) | JDoc (l : list (wstr * json)).

(** The numbers of a document are in their ranges. *)
Inductive json_ok : json -> Prop :=
| ok_null : json_ok JNull
| ok_bool b : json_ok (JBool b)
| ok_string v : json_ok (JString v)
| ok_int z : - 2 ^ 63 < z < 2 ^ 63 -> json_ok (JInt z)
| ok_uint z : 2 ^ 63 < z < 2 ^ 64 -> json_ok (JUint z)
| ok_float n : float_ok n -> json_ok (JFloat n)
| ok_arr l : jsons_ok l -> json_ok (JArr l)
| ok_doc l : members_ok l -> json_ok (JDoc l)
with jsons_ok : list json -> Prop :=
| jsons_nil : jsons_ok []
| jsons_cons j l : json_ok j -> jsons_ok l -> jsons_ok (j :: l)
with members_ok : list (wstr * json) -> Prop :=
| members_nil : members_ok []
| members_cons k j l : json_ok j -> members_ok l -> members_ok ((k, j) :: l).

Scheme json_ok_mind := Induction for json_ok Sort Prop
with jsons_ok_mind := Induction for jsons_ok Sort Prop
with members_ok_mind := Induction for members_ok Sort Prop.
Combined Scheme json_ok_all from json_ok_mind, jsons_ok_mind, members_ok_mind.

(** The tokens of a document. *)
Definition int_pieces (z : Z) : list piece :=
  if z <? 0 then [(MINUS, wlit "-"); (INTEGER, dec_text (- z))] else [(INTEGER, dec_text z)].

Definition float_pieces (n : float) : list piece :=
  if fl_neg n then [(MINUS, wlit "-"); (NUMBER, float_text n)] else [(NUMBER, float_text n)].

Fixpoint json_pieces (j : json) : list piece :=
  match j with
  | JNull => [(WORD, wlit "null")]
  | JBool b => [(WORD, if b then wlit "true" else wlit "false")]
  | JString v => [(QQSTRING, v)]
  | JInt z => int_pieces z
  | JUint z => [(INTEGER, dec_text z)]
  | JFloat n => float_pieces n
  | JArr l =>
      (LSQBRACKET, wlit "[") ::
      (fix elements (l : list json) :=
         match l with
         | [] => []
         | [j] => json_pieces j
         | j :: l' => json_pieces j ++ (COMMA, wlit ",") :: elements l'
         end) l ++ [(RSQBRACKET, wlit "]")]
  | JDoc l =>
      (LCURLY, wlit "{") ::
      (fix members (l : list (wstr * json)) :=
         match l with
         | [] => []
         | [(k, j)] => (QQSTRING, k) :: (COLON, wlit ":") :: json_pieces j
         | (k, j) :: l' =>
             (QQSTRING, k) :: (COLON, wlit ":") :: json_pieces j ++ (COMMA, wlit ",") :: members l'
         end) l ++ [(RCURLY, wlit "}")]
  end.

(** The same lists, for lemmas about them. *)
Fixpoint elements_pieces (l : list json) : list piece :=
  match l with
  | [] => []
  | [j] => json_pieces j
  | j :: l' => json_pieces j ++ (COMMA, wlit ",") :: elements_pieces l'
  end.

Fixpoint members_pieces (l : list (wstr * json)) : list piece :=
  match l with
  | [] => []
  | [(k, j)] => (QQSTRING, k) :: (COLON, wlit ":") :: json_pieces j
  | (k, j) :: l' =>
      (QQSTRING, k) :: (COLON, wlit ":") :: json_pieces j ++ (COMMA, wlit ",") :: members_pieces l'
  end.

Lemma json_pieces_arr l :
  json_pieces (JArr l) = (LSQBRACKET, wlit "[") :: elements_pieces l ++ [(RSQBRACKET, wlit "]")].
Proof. done. Qed.

Lemma json_pieces_doc l :
  json_pieces (JDoc l) = (LCURLY, wlit "{") :: members_pieces l ++ [(RCURLY, wlit "}")].
Proof. done. Qed.

(** The text: the tokens, each followed by a blank. *)
Definition json_text (j : json) : wstr := pieces_text (json_pieces j).

(** ** The visit of a client *)

Section visit.
Context (accept : list (call json_call) -> bool).
Abbreviation log := (list (call json_call)).

Definition scalar_call (j : json) : json_call :=
  match j with
  | JBool b => js_yesno b
  | JString v => js_str v
  | JInt z => js_num_int z
  | JUint z => js_num_uint z
  | JFloat n => js_num_double (float_value n)
  | _ => js_null
  end.

(** The log after the value was reported to a processor, null if [prc] is false. *)
Fixpoint report_any (j : json) (prc : bool) (l : log) : log :=
  if negb prc then l else
  match j with
  | JArr js =>
      let l1 := l ++ [c_arr] in
      if accept l1 then
        (fix elements (js : list json) (l : log) : log :=
           match js with
           | [] => l
           | j :: js' => let l' := l ++ [c_list_el] in elements js' (report_any j (accept l') l')
           end) js (l1 ++ [c_list_begin]) ++ [c_list_end]
      else l1
  | JDoc ms =>
      let l1 := l ++ [c_doc] in
      if accept l1 then
        (fix members (ms : list (wstr * json)) (l : log) : log :=
           match ms with
           | [] => l
           | (k, j) :: ms' =>
               let l' := l ++ [c_key_val k] in members ms' (report_any j (accept l') l')
           end) ms (l1 ++ [c_doc_begin]) ++ [c_doc_end]
      else l1
  | _ =>
      let l1 := l ++ [c_scalar] in
      if accept l1 then l1 ++ [c_base (scalar_call j)] else l1
  end.

Fixpoint report_elements (js : list json) (prc : bool) (l : log) : log :=
  match js with
  | [] => l
  | j :: js' =>
      let l' := told prc l c_list_el in
      report_elements js' prc (report_any j (prc && accept l') l')
  end.

Fixpoint report_members (ms : list (wstr * json)) (prc : bool) (l : log) : log :=
  match ms with
  | [] => l
  | (k, j) :: ms' =>
      let l' := told prc l (c_key_val k) in
      report_members ms' prc (report_any j (prc && accept l') l')
  end.

Definition report_arr (js : list json) (prc : bool) (l : log) : log :=
  told prc (report_elements js prc (told prc l c_list_begin)) c_list_end.

Definition report_doc (ms : list (wstr * json)) (prc : bool) (l : log) : log :=
  told prc (report_members ms prc (told prc l c_doc_begin)) c_doc_end.

Lemma report_any_null j l : report_any j false l = l.
Proof using. by destruct j. Qed.

Lemma report_elements_null js l : report_elements js false l = l.
Proof using. revert l. induction js as [|j js IH]; intros l; [done|]. simpl. by rewrite report_any_null. Qed.

Lemma report_members_null ms l : report_members ms false l = l.
Proof using. revert l. induction ms as [|[k j] js IH]; intros l; [done|]. simpl. by rewrite report_any_null. Qed.

Lemma report_any_arr js prc l :
  report_any (JArr js) prc l = report_arr js (prc && accept (told prc l c_arr)) (told prc l c_arr).
Proof using.
  destruct prc; simpl; [|unfold report_arr; simpl; by rewrite report_elements_null].
  destruct (accept _); unfold report_arr; simpl; [|by rewrite report_elements_null].
  f_equal. generalize ((l ++ [c_arr]) ++ [c_list_begin]). clear l.
  induction js as [|j js IH]; intros l; [done|]. simpl. by rewrite IH.
Qed.

Lemma report_any_doc ms prc l :
  report_any (JDoc ms) prc l = report_doc ms (prc && accept (told prc l c_doc)) (told prc l c_doc).
Proof using.
  destruct prc; simpl; [|unfold report_doc; simpl; by rewrite report_members_null].
  destruct (accept _); unfold report_doc; simpl; [|by rewrite report_members_null].
  f_equal. generalize ((l ++ [c_doc]) ++ [c_doc_begin]). clear l.
  induction ms as [|[k j] js IH]; intros l; [done|]. simpl. by rewrite IH.
Qed.
End visit.

Lemma json_pieces_not_nil j : json_pieces j <> [].
Proof.
  destruct j; try done; simpl; [unfold int_pieces; by destruct (_ <? 0)|].
  unfold float_pieces. by destruct (fl_neg _).
Qed.

Lemma elements_not_nil j l : elements_pieces (j :: l) <> [].
Proof.
  simpl. pose proof (json_pieces_not_nil j). destruct l; [done|].
  intros [? _]%app_eq_nil. done.
Qed.

(** ** Reading a document *)

Section reading.
Context (accept : list (call json_call) -> bool) (inp : wstr).
Abbreviation log := (list (call json_call)).
Abbreviation st toks l := (ps inp toks l accept).

(** [m] takes the tokens [ks] and leaves the log that [report] gives. *)
Definition takes (m : bool -> jparser bool) (ks : list piece) (report : bool -> log -> log) : Prop :=
  forall toks more prc l, tokens_are toks ks ->
    m prc (st (toks ++ more) l) = (Ok true, st more (report prc l)).

Lemma jparser_ret {A B} (a : A) (f : A -> jparser B) s : (mret a ≫= f) s = f a s.
Proof using. done. Qed.

Definition is_scalar (j : json) : Prop :=
  match j with JArr _ | JDoc _ => False | _ => True end.

Lemma integer_reads neg z tok more l vp :
  0 <= z < 2 ^ 64 -> z <> 2 ^ 63 -> (neg = true -> z < 2 ^ 63) ->
  tok_type tok = INTEGER -> tok_text tok = dec_text z ->
  number_do_parse neg tok vp (st more l) =
  (Ok true, st more (told vp l (c_base
     (if 2 ^ 63 <? z then js_num_uint z else js_num_int (if neg then - z else z))))).
Proof using.
  intros Hz Hne Hneg Hty Htx. unfold number_do_parse, get_jtype. rewrite Hty, Htx.
  destruct (dec_text_reads z Hz) as (_ & _ & ->). destruct vp; [|done]. cbn [negb].
  rewrite method_pure. unfold int_call. change INTEGER_ABS_MAX with (2 ^ 63).
  destruct (Z.ltb_spec (2 ^ 63) z).
  - destruct neg; [by specialize (Hneg eq_refl); lia|]. done.
  - rewrite (proj2 (Z.eqb_neq _ _)), andb_false_r by done. rewrite to_int64_small by lia.
    destruct neg; [|done]. specialize (Hneg eq_refl).
    replace (in_int64 (- z)) with true; [done|]. unfold in_int64. symmetry. apply andb_true_iff. lia.
Qed.

Lemma float_reads n tok more l vp :
  float_ok n -> tok_type tok = NUMBER -> tok_text tok = float_text n ->
  number_do_parse (fl_neg n) tok vp (st more l) =
  (Ok true, st more (told vp l (c_base (js_num_double (float_value n))))).
Proof using.
  intros Hn Hty Htx. unfold number_do_parse, get_jtype. rewrite Hty, Htx.
  destruct (float_text_reads n Hn) as (d & -> & Hv). destruct vp; [|done]. cbn [negb].
  rewrite method_pure, Hv. done.
Qed.

(** A number, or one behind its sign. *)
Lemma signed_reads neg ty text toks more l vp r :
  ty = NUMBER \/ ty = INTEGER ->
  tokens_are toks (if neg : bool then [(MINUS, wlit "-"); (ty, text)] else [(ty, text)]) ->
  (forall tok, tok_type tok = ty -> tok_text tok = text -> number_do_parse neg tok vp (st more l) = r) ->
  scalar_do_parse vp (st (toks ++ more) l) = r.
Proof using.
  intros Hty Ht Hr. unfold scalar_do_parse.
  destruct neg; apply tokens_are_cons in Ht as (t & toks' & -> & Hty1 & Htx & Ht); cbn [fst snd] in *;
    cbn [app]; rewrite (method_bind_ok (consume_token_some _ _ _ _ _)); unfold get_jtype; rewrite Hty1.
  - apply tokens_are_cons in Ht as (t' & toks & -> & Hty' & Htx' & Ht). cbn [fst snd] in *.
    apply map_eq_nil in Ht as ->. cbn [app].
    rewrite (method_bind_ok (consume_token_some _ _ _ _ _)). rewrite bool_decide_true by done. by apply Hr.
  - apply map_eq_nil in Ht as ->. cbn [app]. destruct Hty as [-> | ->]; by apply Hr.
Qed.

Lemma scalar_reads j : json_ok j -> is_scalar j -> forall toks more l vp,
  tokens_are toks (json_pieces j) ->
  scalar_do_parse vp (st (toks ++ more) l) =
  (Ok true, st more (told vp l (c_base (scalar_call j)))).
Proof using.
  intros Hj Hs toks more l vp Ht.
  destruct Hj as [|b|v|z Hz|z Hz|n Hn| |]; try done; cbn [json_pieces scalar_call] in *.
  1-3: apply tokens_are_cons in Ht as (t & toks' & -> & Hty & Htx & Ht); simpl in Hty, Htx;
    cbn [app]; unfold scalar_do_parse;
    rewrite (method_bind_ok (consume_token_some _ _ _ _ _)); unfold get_jtype; rewrite Hty;
    apply map_eq_nil in Ht as ->; cbn [app].
  - rewrite Htx. by destruct vp.
  - rewrite Htx. by destruct b, vp.
  - by rewrite (method_bind_ok (tell_ps _ _ _ _ _ _)), Htx.
  - apply (signed_reads (z <? 0) INTEGER (dec_text (Z.abs z))); [by right| |].
    + unfold int_pieces in Ht. destruct (Z.ltb_spec z 0);
        [by rewrite Z.abs_neq by lia|by rewrite Z.abs_eq by lia].
    + intros tok Hty Htx. rewrite (integer_reads (z <? 0) (Z.abs z)) by (done || (destruct (Z.ltb_spec z 0); lia)).
      rewrite (proj2 (Z.ltb_ge _ _)) by lia. do 5 f_equal. destruct (Z.ltb_spec z 0); lia.
  - apply (signed_reads false INTEGER (dec_text z)); [by right|done|]. intros tok Hty Htx.
    rewrite (integer_reads false z) by (done || lia). by rewrite (proj2 (Z.ltb_lt _ _)) by lia.
  - apply (signed_reads (fl_neg n) NUMBER (float_text n)); [by left|done|]. intros tok Hty Htx.
    by apply float_reads.
Qed.

Lemma report_any_scalar j prc l : is_scalar j ->
  report_any accept j prc l =
  told (prc && accept (told prc l c_scalar)) (told prc l c_scalar) (c_base (scalar_call j)).
Proof using. by destruct prc, j. Qed.

(** The first token says what is read. *)
Lemma any_starts n toks l prc ty :
  head (map tok_type toks) = Some ty ->
  any_do_parse (S n) json_base prc (st toks l) =
  (if decide (ty = LCURLY) then
     p ← ask prc c_doc; process_if (doc_do_parse n (any_do_parse n json_base)) p;; mret true
   else if decide (ty = LSQBRACKET) then
     p ← ask prc c_arr; process_if (arr_do_parse n (any_do_parse n json_base)) p;; mret true
   else json_base prc) (st toks l).
Proof using.
  destruct toks as [|t toks]; [done|]. intros [= <-]. cbn [any_do_parse]. rewrite !method_read.
  rewrite !cur_token_type_is_cons. repeat case_decide; repeat case_bool_decide; congruence.
Qed.

Lemma head_tokens toks k ks more : tokens_are toks (k :: ks) ->
  head (map tok_type (toks ++ more)) = Some k.1.
Proof using. intros (t & toks' & -> & <- & _)%tokens_are_cons. done. Qed.

Lemma scalar_takes j n : json_ok j -> is_scalar j ->
  takes (any_do_parse (S n) json_base) (json_pieces j) (report_any accept j).
Proof using.
  intros Hj Hs toks more prc l Ht.
  assert (Hh : exists ty, head (map tok_type (toks ++ more)) = Some ty /\ ty <> LCURLY /\ ty <> LSQBRACKET).
  { destruct j; try done; cbn [json_pieces] in Ht; unfold int_pieces, float_pieces in Ht;
      try destruct (_ <? 0); try destruct (fl_neg _); apply (head_tokens _ _ _ more) in Ht;
      (eexists; split; [exact Ht|by split]). }
  destruct Hh as (ty & Hty & H1 & H2).
  rewrite (any_starts _ _ _ _ _ Hty), !decide_False by done.
  unfold json_base. rewrite (method_bind_ok (ask_ps _ _ _ _ _ _)), report_any_scalar by done.
  apply process_if_true. by apply scalar_reads.
Qed.

(** Lists of elements and of members, up to the bracket that closes them. *)
Definition list_takes (sep_el : bool -> jparser bool) (el : bool -> jparser bool) (ks : list piece)
    (close : Token_Type) (report : bool -> log -> log) (n : nat) : Prop :=
  forall first toks t more prc l, tokens_are toks ks -> tok_type t = close ->
    list_do_parse n COMMA sep_el el first prc (st (toks ++ t :: more) l) =
    (Ok true, st (t :: more) (report prc l)).

Lemma list_takes_one sep_el el ks close f g n : close <> COMMA ->
  (forall prc toks l, sep_el prc (st toks l) = (Ok (f prc l).1, st toks (f prc l).2)) ->
  takes el ks g ->
  list_takes sep_el el ks close (fun prc l => g (f prc l).1 (f prc l).2) (S n).
Proof using.
  intros Hc Hsep Hel first toks t more prc l Ht Hty. cbn [list_do_parse].
  unfold mbind at 1, Method_bind at 1. rewrite Hsep.
  rewrite (method_bind_ok (process_if_true _ _ _ _ (Hel toks (t :: more) _ _ Ht))). cbn [negb].
  assert (Hn : tok_type t <> COMMA) by congruence.
  by rewrite (method_bind_ok (consume_token_is_no _ _ _ _ _ _ Hn)).
Qed.

Lemma list_takes_more sep_el el ks ks' close f g h n :
  (forall prc toks l, sep_el prc (st toks l) = (Ok (f prc l).1, st toks (f prc l).2)) ->
  takes el ks g -> list_takes sep_el el ks' close h n ->
  list_takes sep_el el (ks ++ (COMMA, wlit ",") :: ks') close
    (fun prc l => h prc (g (f prc l).1 (f prc l).2)) (S n).
Proof using.
  intros Hsep Hel Hrest first toks t more prc l Ht Hty.
  apply tokens_are_app in Ht as (toks1 & toks2 & -> & Ht1 & Ht2).
  apply tokens_are_cons in Ht2 as (c & toks3 & -> & Hc & _ & Ht3). rewrite <- app_assoc.
  cbn [list_do_parse app]. unfold mbind at 1, Method_bind at 1. rewrite Hsep.
  rewrite (method_bind_ok (process_if_true _ _ _ _ (Hel toks1 _ _ _ Ht1))). cbn [negb].
  rewrite (method_bind_ok (consume_token_is_yes COMMA _ _ _ _ _ Hc)). by apply Hrest.
Qed.

(** A bracketed part: what opens it, its content and what closes it. *)
Lemma arr_reads ls n m prc toks more l :
  tokens_are toks (json_pieces (JArr ls)) ->
  (ls <> [] -> list_takes (fun prc => ask prc c_list_el) (any_do_parse m json_base)
     (elements_pieces ls) RSQBRACKET (report_elements accept ls) n) ->
  (forall t, head (elements_pieces ls) = Some t -> t.1 <> RSQBRACKET) ->
  arr_do_parse n (any_do_parse m json_base) prc (st (toks ++ more) l) =
  (Ok true, st more (report_arr accept ls prc l)).
Proof using.
  rewrite json_pieces_arr. intros Ht Hel Hhd.
  apply tokens_are_cons in Ht as (o & toks1 & -> & Ho & _ & Ht).
  apply tokens_are_app in Ht as (toks2 & toks3 & -> & Ht2 & Ht3).
  apply tokens_are_cons in Ht3 as (c & toks4 & -> & Hc & _ & Ht4).
  apply map_eq_nil in Ht4 as ->. rewrite <- app_comm_cons, <- app_assoc. cbn [app].
  simpl in Ho, Hc. unfold arr_do_parse.
  rewrite (method_bind_ok (consume_token_is_yes _ _ _ _ _ _ Ho)).
  rewrite (method_bind_ok (tell_ps _ _ _ _ _ _)), method_read.
  assert (Hclose : forall lg,
    (c' ← consume_token_is RSQBRACKET;
     match c' with
     | None => parse_error (wlit "Expected ']' to close array")
     | Some _ => tell prc c_list_end;; mret true
     end) (st (c :: more) lg) = (Ok true, st more (told prc lg c_list_end))).
  { intros lg. rewrite (method_bind_ok (consume_token_is_yes _ _ _ _ _ _ Hc)).
    by rewrite (method_bind_ok (tell_ps _ _ _ _ _ _)). }
  unfold report_arr. destruct ls as [|j ls].
  - apply map_eq_nil in Ht2 as ->. cbn [app]. rewrite cur_token_type_is_cons, bool_decide_true by done.
    by rewrite jparser_ret, Hclose.
  - assert (Hfin : cur_token_type_is RSQBRACKET (st (toks2 ++ c :: more) (told prc l c_list_begin)) = false).
    { destruct toks2 as [|t toks2].
      - unfold tokens_are in Ht2. simpl in Ht2. by destruct (elements_not_nil j ls).
      - cbn [app]. rewrite cur_token_type_is_cons, bool_decide_false; [done|].
        intros E. apply (Hhd (tok_type t, tok_text t)); [|done]. unfold tokens_are in Ht2. by rewrite <- Ht2. }
    rewrite Hfin. unfold mbind at 1, Method_bind at 1.
    rewrite (method_bind_ok (process_if_true _ _ _ _
      (Hel ltac:(done) true toks2 c more prc _ Ht2 Hc))).
    apply Hclose.
Qed.

Lemma kv_takes k j any : takes any (json_pieces j) (report_any accept j) ->
  takes (kv_do_parse any) ((QQSTRING, k) :: (COLON, wlit ":") :: json_pieces j)
    (fun prc l => let l' := told prc l (c_key_val k) in report_any accept j (prc && accept l') l').
Proof using.
  intros Hany toks more prc l Ht.
  apply tokens_are_cons in Ht as (t & toks1 & -> & Hty & Htx & Ht).
  apply tokens_are_cons in Ht as (c & toks2 & -> & Hc & _ & Ht). simpl in Hty, Htx, Hc.
  cbn [app]. unfold kv_do_parse. rewrite method_read.
  assert (Hin : cur_token_type_in [QQSTRING; QSTRING; WORD] (st (t :: c :: toks2 ++ more) l) = true)
    by (unfold cur_token_type_in; simpl; by rewrite Hty).
  rewrite Hin. cbn [negb]. rewrite (method_bind_ok (consume_token_some _ _ _ _ _)).
  cbn [fmap option_fmap option_map deref]. rewrite method_pure.
  rewrite (method_bind_ok (consume_token_is_yes _ _ _ _ _ _ Hc)).
  rewrite (method_bind_ok (ask_ps _ _ _ _ _ _)), Htx.
  by rewrite (method_bind_ok (process_if_true _ _ _ _ (Hany toks2 more _ _ Ht))).
Qed.

Lemma doc_reads ms n m prc toks more l :
  tokens_are toks (json_pieces (JDoc ms)) ->
  (ms <> [] -> list_takes mret (kv_do_parse (any_do_parse m json_base))
     (members_pieces ms) RCURLY (report_members accept ms) n) ->
  doc_do_parse n (any_do_parse m json_base) prc (st (toks ++ more) l) =
  (Ok true, st more (report_doc accept ms prc l)).
Proof using.
  rewrite json_pieces_doc. intros Ht Hel.
  apply tokens_are_cons in Ht as (o & toks1 & -> & Ho & _ & Ht).
  apply tokens_are_app in Ht as (toks2 & toks3 & -> & Ht2 & Ht3).
  apply tokens_are_cons in Ht3 as (c & toks4 & -> & Hc & _ & Ht4).
  apply map_eq_nil in Ht4 as ->. rewrite <- app_comm_cons, <- app_assoc. cbn [app].
  simpl in Ho, Hc. unfold doc_do_parse.
  rewrite (method_bind_ok (consume_token_is_yes _ _ _ _ _ _ Ho)).
  rewrite (method_bind_ok (tell_ps _ _ _ _ _ _)), method_read.
  assert (Hclose : forall lg,
    (c' ← consume_token_is RCURLY;
     match c' with
     | None => parse_error (wlit "Expected '}' closing a document")
     | Some _ => tell prc c_doc_end;; mret true
     end) (st (c :: more) lg) = (Ok true, st more (told prc lg c_doc_end))).
  { intros lg. rewrite (method_bind_ok (consume_token_is_yes _ _ _ _ _ _ Hc)).
    by rewrite (method_bind_ok (tell_ps _ _ _ _ _ _)). }
  unfold report_doc. destruct ms as [|[k j] ms].
  - apply map_eq_nil in Ht2 as ->. cbn [app]. rewrite cur_token_type_is_cons, bool_decide_true by done.
    by rewrite jparser_ret, Hclose.
  - assert (Hfin : cur_token_type_is RCURLY (st (toks2 ++ c :: more) (told prc l c_doc_begin)) = false).
    { assert (Hh : exists ks, tokens_are toks2 ((QQSTRING, k) :: ks))
        by (destruct ms; by eexists).
      destruct Hh as [ks Hh]. apply tokens_are_cons in Hh as (t & toks5 & -> & Hty & _).
      cbn [app]. by rewrite cur_token_type_is_cons, Hty. }
    rewrite Hfin. unfold mbind at 1, Method_bind at 1.
    rewrite (method_bind_ok (Hel ltac:(done) true toks2 c more prc _ Ht2 Hc)).
    apply Hclose.
Qed.

Lemma elements_head j ls t : json_ok j -> head (elements_pieces (j :: ls)) = Some t -> t.1 <> RSQBRACKET.
Proof using.
  intros Hj Hh.
  assert (Hp : head (json_pieces j) = Some t).
  { pose proof (json_pieces_not_nil j). simpl in Hh.
    destruct ls; [done|]. by destruct (json_pieces j). }
  destruct Hj; simpl in Hp; unfold int_pieces, float_pieces in Hp;
    try destruct (_ <? 0); try destruct (fl_neg _); by injection Hp as <-.
Qed.

Definition json_reads (j : json) : Prop := forall n, (length (json_pieces j) <= n)%nat ->
  takes (any_do_parse n json_base) (json_pieces j) (report_any accept j).

Definition elements_read (ls : list json) : Prop := ls <> [] -> forall n m,
  (length (elements_pieces ls) < S n)%nat -> (length (elements_pieces ls) <= m)%nat ->
  list_takes (fun prc => ask prc c_list_el) (any_do_parse m json_base)
    (elements_pieces ls) RSQBRACKET (report_elements accept ls) (S n).

Definition members_read (ms : list (wstr * json)) : Prop := ms <> [] -> forall n m,
  (length (members_pieces ms) < S n)%nat -> (length (members_pieces ms) <= m)%nat ->
  list_takes mret (kv_do_parse (any_do_parse m json_base))
    (members_pieces ms) RCURLY (report_members accept ms) (S n).

Lemma values_read :
  (forall j, json_ok j -> json_reads j) /\ (forall ls, jsons_ok ls -> elements_read ls) /\
  (forall ms, members_ok ms -> members_read ms).
Proof using.
  apply (json_ok_all (fun j _ => json_reads j) (fun ls _ => elements_read ls)
    (fun ms _ => members_read ms)).
  1-6: intros; intros m Hm; destruct m as [|m]; [|apply scalar_takes; [by constructor|done]].
  1-6: match goal with H : (length ?l <= 0)%nat |- _ =>
    destruct (json_pieces_not_nil _ (proj1 (length_zero_iff_nil l) ltac:(lia))) end.
  - intros ls Hls IH n Hn toks more prc l Ht. rewrite json_pieces_arr in Hn.
    cbn [length] in Hn. rewrite length_app in Hn. cbn [length] in Hn.
    destruct n as [|[|n]]; [lia..|].
    rewrite (any_starts _ _ _ _ _ (head_tokens _ _ _ more Ht)), decide_False, decide_True by done.
    rewrite (method_bind_ok (ask_ps _ _ _ _ _ _)), report_any_arr.
    rewrite (method_bind_ok (process_if_true _ _ _ _ (arr_reads ls (S n) (S n) _ toks more _ Ht
      (fun H => IH H n (S n) ltac:(lia) ltac:(lia)) ltac:(intros t Ht'; destruct Hls as [|j ls Hj];
        [done|by eapply elements_head])))).
    done.
  - intros ms Hms IH n Hn toks more prc l Ht. rewrite json_pieces_doc in Hn.
    cbn [length] in Hn. rewrite length_app in Hn. cbn [length] in Hn.
    destruct n as [|[|n]]; [lia..|].
    rewrite (any_starts _ _ _ _ _ (head_tokens _ _ _ more Ht)), decide_True by done.
    rewrite (method_bind_ok (ask_ps _ _ _ _ _ _)), report_any_doc.
    rewrite (method_bind_ok (process_if_true _ _ _ _ (doc_reads ms (S n) (S n) _ toks more _ Ht
      (fun H => IH H n (S n) ltac:(lia) ltac:(lia))))).
    done.
  - by intros ?.
  - intros j ls Hj IHj Hls IHls _ n m Hn Hm.
    pose (f := fun (prc : bool) l => (prc && accept (told prc l c_list_el), told prc l (@c_list_el json_call))).
    assert (Hsep : forall prc toks l, ask prc c_list_el (st toks l) = (Ok (f prc l).1, st toks (f prc l).2))
      by (intros; apply ask_ps).
    destruct ls as [|j' ls].
    + apply (list_takes_one _ _ _ _ f (report_any accept j)); [done|done|]. apply IHj. exact Hm.
    + simpl in Hn, Hm. rewrite length_app in Hn, Hm. cbn [length] in Hn, Hm. destruct n as [|n]; [lia|].
      apply (list_takes_more _ _ _ _ _ f (report_any accept j) (report_elements accept (j' :: ls))); [done| |].
      * apply IHj. lia.
      * apply IHls; [done|simpl; lia|simpl; lia].
  - by intros ?.
  - intros k j ms Hj IHj Hms IHms _ n m Hn Hm.
    pose (g := fun (prc : bool) l => let l' := told prc l (c_key_val k) in
      report_any accept j (prc && accept l') l').
    assert (Hsep : forall (prc : bool) toks l, (mret prc : jparser bool) (st toks l) = (Ok (prc, l).1, st toks (prc, l).2))
      by done.
    assert (Hkv : takes (kv_do_parse (any_do_parse m json_base))
      ((QQSTRING, k) :: (COLON, wlit ":") :: json_pieces j) g).
    { apply kv_takes, IHj. destruct ms; simpl in Hm; rewrite ?length_app in Hm; lia. }
    destruct ms as [|[k' j'] ms].
    + apply (list_takes_one _ _ _ _ (fun prc l => (prc, l)) g); done.
    + simpl in Hn, Hm. rewrite length_app in Hn, Hm. cbn [length] in Hn, Hm. destruct n as [|n]; [lia|].
      apply (list_takes_more _ _ ((QQSTRING, k) :: (COLON, wlit ":") :: json_pieces j) _ _
        (fun prc l => (prc, l)) g (report_members accept ((k', j') :: ms))); [done|done|].
      apply IHms; [done|simpl; lia|simpl; lia].
Qed.
End reading.

(** The text of a document is read, whatever the client makes of it. *)
Lemma json_pieces_printable j : json_ok j -> Forall printable (json_pieces j).
Proof.
  revert j. apply (json_ok_mind
    (fun j _ => Forall printable (json_pieces j))
    (fun ls _ => Forall printable (elements_pieces ls))
    (fun ms _ => Forall printable (members_pieces ms))).
  - repeat constructor.
  - intros []; repeat constructor.
  - repeat constructor.
  - intros z Hz. simpl. unfold int_pieces. destruct (Z.ltb_spec z 0).
    + destruct (dec_text_reads (- z)) as (H1 & H2 & _); [lia|]. apply Forall_cons.
      split; [constructor; by apply (bool_decide_unpack _)|by repeat constructor].
    + destruct (dec_text_reads z) as (H1 & H2 & _); [lia|]. by repeat constructor.
  - intros z Hz. simpl. destruct (dec_text_reads z) as (H1 & H2 & _); [lia|]. by repeat constructor.
  - intros n Hn. pose proof (float_printable n Hn). simpl. unfold float_pieces. destruct (fl_neg n); [|by constructor].
    apply Forall_cons. split; [constructor; by apply (bool_decide_unpack _)|by constructor].
  - intros l _ IH. rewrite json_pieces_arr. apply Forall_cons. split; [|apply Forall_app; split; [done|]];
      repeat constructor; by apply (bool_decide_unpack _).
  - intros l _ IH. rewrite json_pieces_doc. apply Forall_cons. split; [|apply Forall_app; split; [done|]];
      repeat constructor; by apply (bool_decide_unpack _).
  - constructor.
  - intros j l _ Hj _ Hl. simpl. destruct l; [done|]. apply Forall_app. split; [done|].
    apply Forall_cons. split; [|done]. constructor. by apply (bool_decide_unpack _).
  - constructor.
  - intros k j l _ Hj _ Hl.
    assert (Hc : printable (COLON, wlit ":")) by (constructor; by apply (bool_decide_unpack _)).
    assert (Hk : printable (QQSTRING, k)) by constructor.
    simpl. destruct l; [by repeat apply Forall_cons_2|].
    do 2 (apply Forall_cons_2; [done|]). apply Forall_app. split; [done|].
    apply Forall_cons_2; [|done]. constructor. by apply (bool_decide_unpack _).
Qed.

Lemma json_parse_text ms accept : json_ok (JDoc ms) ->
  json_parse (json_text (JDoc ms)) accept = (Ok tt, report_doc accept ms true []).
Proof.
  intros Hj. unfold json_parse, json_text.
  rewrite Tokenizer_new_reads by by apply json_pieces_printable.
  pose proof (placed_pieces 0 (json_pieces (JDoc ms))) as Ht.
  generalize dependent (placed 0 (json_pieces (JDoc ms))). intros toks Ht.
  set (inp := pieces_text _). unfold JSON_parser_process.
  assert (Hlen : (S (S (length (members_pieces ms))) <= length toks)%nat).
  { rewrite <- (length_map (fun t => (tok_type t, tok_text t)) toks), Ht, json_pieces_doc. simpl.
    rewrite length_app. simpl. lia. }
  destruct toks as [|t toks'] eqn:E; [by rewrite json_pieces_doc in Ht|]. rewrite <- E in *.
  pose proof (doc_reads accept inp ms (S (length toks)) (S (length toks)) true toks [] [] Ht) as Hd.
  rewrite app_nil_r in Hd. unfold ps in Hd. unfold json_any. rewrite Hd; [done|].
  intros Hne. apply (proj2 (proj2 (values_read accept inp))); [by inversion Hj|done|lia|lia].
Qed.

(** ** The parser ends, and clients may refuse parts *)

(** A sign and the integer behind it, which has no negation of its type. *)
Definition negates_smallest (toks : list Token) : Prop :=
  exists pre m n suf, toks = pre ++ m :: n :: suf /\ tok_type m = MINUS /\ tok_type n = INTEGER /\
    strtoui (tok_text n) 10 = Ok (2 ^ 63).

Lemma take_digits_nonneg r s acc n : 0 <= r -> 0 <= acc -> 0 <= (take_digits r s acc n).1.1.
Proof.
  intros Hr. revert acc n. induction s as [|c s IH]; intros acc n Ha; [done|]. cbn [take_digits].
  destruct (digit_value r c) as [d|] eqn:E; [|done]. apply IH. unfold digit_value in E.
  assert (0 <= d); [|nia]. revert E. unfold ctf_digit, ctf_upper, ctf_lower.
  repeat (match goal with |- context [if ?b then _ else _] => destruct b eqn:? end);
    intros [= <-]; lia.
Qed.

Lemma strtoui_range t v : strtoui t 10 = Ok v -> 0 <= v < 2 ^ 64.
Proof.
  unfold strtoui, strtonum_int. destruct (take_sign t) as [neg s].
  pose proof (take_digits_nonneg 10 s 0 0 ltac:(lia) ltac:(lia)) as Hn.
  destruct (take_digits 10 s 0 0) as [[w n] r]. cbn [fst] in Hn.
  destruct (bool_decide _ || _) eqn:E; [done|]. destruct r; [|done]. cbn [mbind outcome_bind]. intros [= <-].
  apply orb_false_iff in E as [_ E]. apply negb_false_iff, Z.ltb_lt in E.
  destruct neg; [|lia]. apply Z.mod_pos_bound. lia.
Qed.

(** The negation of a number whose type has it. *)
Lemma negation_fits v : 0 <= v <= 2 ^ 63 -> in_int64 (- to_int64 v) = false -> v = 2 ^ 63.
Proof.
  intros Hv H. destruct (decide (v = 2 ^ 63)) as [|Hne]; [done|].
  rewrite to_int64_small in H by lia. unfold in_int64 in H. apply andb_false_iff in H. lia.
Qed.

Lemma strtoui_throws t e : strtoui t 10 = Throw e -> exists m, conversion_msg e = Some m.
Proof.
  unfold strtoui, strtonum_int. destruct (take_sign _) as [n r].
  destruct (take_digits _ _ _ _) as [[v k] r1]. destruct (_ || _); simpl; [intros [= <-]; by eexists|].
  destruct r1; simpl; [done|]. intros [= <-]. by eexists.
Qed.

Section ending.
Context (whole : list Token).
Abbreviation returns := (rets (negates_smallest whole)).
Abbreviation shrunk := (shrunk whole).
Implicit Types (s : PState json_call).

Lemma number_ends neg tok vp s0 s : shrunk true s0 s ->
  (neg = true -> tok_type tok = INTEGER -> strtoui (tok_text tok) 10 = Ok (2 ^ 63) -> negates_smallest whole) ->
  returns (number_do_parse neg tok vp) (fun b s' => shrunk b s0 s') s.
Proof using.
  intros Hs Hu. assert (Hi : inside whole s) by by destruct Hs. unfold number_do_parse.
  assert (Hty : get_jtype tok = J_INTEGER -> tok_type tok = INTEGER).
  { unfold get_jtype. destruct (tok_type tok); try done. by repeat case_decide. }
  destruct (get_jtype tok); try by apply (rets_error whole).
  - destruct vp; [|done]. cbn [negb]. unfold rets, mbind, Method_bind, pure.
    unfold strtod. destruct (take_sign _) as [n r]. destruct (take_digits _ _ _ _) as [[v k] r1].
    destruct (take_fraction _ _) as [[m k'] r2]. destruct (take_exponent _) as [[e r3]|]; [|done].
    destruct (bool_decide _ || _); [done|]. by destruct r3.
  - destruct vp; [|done]. cbn [negb]. specialize (Hty eq_refl).
    destruct (strtoui (tok_text tok) 10) as [v|e| |] eqn:E.
    + pose proof (strtoui_range _ _ E) as Hv. apply rets_bind. cbn [pure rets]. apply rets_bind. unfold int_call.
      destruct (Z.ltb_spec INTEGER_ABS_MAX v).
      { destruct neg; [by apply (rets_error whole)|]. by apply rets_bind. }
      destruct (negb neg && _); [by apply (rets_error whole)|].
      destruct neg; [|by apply rets_bind]. destruct (in_int64 _) eqn:F; [by apply rets_bind|].
      apply Hu; [done|done|]. by rewrite (negation_fits v) by (unfold INTEGER_ABS_MAX in *; lia || done).
    + destruct (strtoui_throws _ _ E) as [m ->]. by apply (rets_error whole).
    + revert E. unfold strtoui, strtonum_int. destruct (take_sign _) as [n r].
      destruct (take_digits _ _ _ _) as [[v k] r1]. destruct (_ || _); [done|]. by destruct r1.
    + revert E. unfold strtoui, strtonum_int. destruct (take_sign _) as [n r].
      destruct (take_digits _ _ _ _) as [[v k] r1]. destruct (_ || _); [done|]. by destruct r1.
Qed.

Lemma tell_true_ends vp c s0 s : shrunk true s0 s ->
  returns (tell vp c;; mret true) (fun b s' => shrunk b s0 s') s.
Proof using.
  intros Hs. apply rets_bind. eapply rets_mono; [apply (rets_tell whole); by destruct Hs|].
  intros [] s' H. exact (shrunk_trans _ _ _ _ _ _ Hs H).
Qed.

Lemma scalar_ends s : inside whole s -> ends_at whole (negates_smallest whole) scalar_do_parse s.
Proof using.
  intros Hi vp. unfold scalar_do_parse. apply rets_bind. eapply rets_mono; [by apply (rets_consume_token whole)|].
  intros [tok|] s1 [H1 E1]; [|exact H1].
  destruct (get_jtype tok) eqn:Ety; try (by apply number_ends); try (by apply tell_true_ends).
  all: apply rets_bind; eapply rets_mono; [apply (rets_consume_token whole); by destruct H1|].
  all: intros [tok'|] s2 [H2 E2]; [|apply (rets_error whole); by destruct H2].
  all: apply number_ends; [exact (shrunk_trans _ _ _ _ _ _ H1 H2)|].
  all: intros Hneg%bool_decide_eq_true Hty Hv; try done.
  destruct Hi as [_ [pre Hw]]. exists pre, tok, tok', (rest_toks s2). rewrite <- E2, <- E1.
  split_and!; try done. revert Ety. unfold get_jtype. destruct (tok_type tok); try done.
  by repeat case_decide.
Qed.

Lemma json_base_ends s : inside whole s -> ends_at whole (negates_smallest whole) json_base s.
Proof using.
  intros Hi prc. unfold json_base. apply rets_bind. eapply rets_mono; [by apply (rets_ask whole)|].
  intros p s1 H1.
  eapply rets_mono; [apply (rets_process_if whole); [by destruct H1|by apply scalar_ends; destruct H1]|].
  intros b s2 H2. exact (shrunk_trans _ _ _ _ _ _ H1 H2).
Qed.
End ending.

(** The tokens of a text begin inside of it. *)
Lemma lexed_inside pos rest toks : lexed pos rest toks ->
  Forall (fun t => (pos_begin t <= pos + length rest)%nat) toks.
Proof.
  induction 1 as [| |pos blanks ty text slice rest toks _ _ _ IH]; constructor.
  - simpl. rewrite !length_app. lia.
  - eapply Forall_impl; [exact IH|]. intros t Ht. simpl in Ht. rewrite !length_app. lia.
Qed.

Lemma json_parse_returns input accept :
  match (json_parse input accept).1 with
  | Ok _ => True
  | Undefined => exists toks, Tokenizer_new input = Ok toks /\ negates_smallest toks
  | Throw e => parser_exn e
  | Diverged => False
  end.
Proof.
  unfold json_parse. pose proof (Tokenizer_new_lexed input) as Ht.
  destruct (Tokenizer_new input) as [toks|[]| |]; try done.
  apply lexed_inside in Ht. simpl in Ht. unfold JSON_parser_process.
  assert (Herr : forall (it : It),
    Forall (fun t => (pos_begin t <= length (it_input it))%nat) (it_toks it) -> forall msg,
    match @error_at unit it msg with Throw e => parser_exn e | _ => False end).
  { intros it Hin msg. unfold error_at.
    destruct (@throw_error_parse unit (it_input it) (it_pos it) msg) as (a & b & ->); [|done].
    unfold it_pos. destruct (it_toks it); [done|]. by inversion Hin. }
  destruct toks as [|t toks'] eqn:E.
  { pose proof (Herr (mk_It input []) Ht (wlit "Expectiong JSON document string")) as H.
    by destruct (error_at _ _). }
  rewrite <- E in *.
  clear E t toks'. set (s := mk_PState (mk_It input toks) [] accept).
  assert (Hs : left s = length toks) by done.
  assert (Hany : forall s', inside toks s' -> (left s' < left s)%nat ->
    ends_at toks (negates_smallest toks) (json_any (S (length toks))) s').
  { intros s' Hi Hl. apply any_ends; [exact (json_base_ends toks)|done|lia]. }
  pose proof (doc_ends toks _ (S (length toks)) (json_any (S (length toks))) s ltac:(by split) ltac:(lia) Hany true) as H.
  unfold rets in H. destruct (doc_do_parse _ _ _ _) as [[b|e| |] s']; try done; simpl; [|by exists toks].
  destruct (negb b || _); [|done]. destruct H as [([Hi _] & _) _].
  pose proof (Herr (p_it s') Hi (wlit "Unexpected characters after parsing JSON string")) as He.
  by destruct (error_at _ _).
Qed.

Lemma int_call_same neg val s c s' : int_call neg val s = (Ok c, s') ->
  s' = s /\ forall s1, int_call neg val s1 = (Ok c, s1).
Proof.
  unfold int_call. destruct (INTEGER_ABS_MAX <? val).
  { destruct neg; [by intros []%error_never|by intros [= <- <-]]. }
  destruct (negb neg && _); [by intros []%error_never|].
  destruct neg; [|by intros [= <- <-]].
  destruct (in_int64 _); [by intros [= <- <-]|done].
Qed.

(** A value that is converted, and then reported or not. *)
Lemma report_skips {A} (m : jparser A) (c : A -> json_call) vp :
  (forall s a s', m s = (Ok a, s') -> s' = s /\ forall s1, m s1 = (Ok a, s1)) ->
  sim yes (a ← m; tell true (c_base (c a));; mret true)
    (if negb vp then mret true else a ← m; tell vp (c_base (c a));; mret true).
Proof.
  intros Hm s s1 b s' Hit Hall (a & s0 & H0 & H)%bind_inv _.
  destruct (Hm _ _ _ H0) as [-> Hm1].
  rewrite (method_bind_ok (s' := set_log (p_log s ++ [c_base (c a)]) s) (a := tt)) in H by done.
  injection H as <- <-. split; [exact Hall|]. destruct vp; cbn [negb].
  - rewrite (method_bind_ok (Hm1 s1)). eexists. split; [done|exact Hit].
  - exists s1. split; [done|exact Hit].
Qed.

Lemma number_skips neg tok vp : sim yes (number_do_parse neg tok true) (number_do_parse neg tok vp).
Proof.
  unfold number_do_parse. destruct (get_jtype tok); try apply sim_error; cbn [negb].
  - apply (report_skips (pure (strtod (tok_text tok)))
      (fun val => js_num_double (if neg then dec_opp val else val))).
    intros s a s' [= -> <-]. done.
  - destruct (strtoui (tok_text tok) 10) as [v|e| |] eqn:E.
    + apply (report_skips (int_call neg v) id). intros. by apply int_call_same.
    + destruct (strtoui_throws _ _ E) as [m ->]. apply sim_error.
    + intros s s1 b s' _ _ [=].
    + intros s s1 b s' _ _ [=].
Qed.

Lemma scalar_skips : skips scalar_do_parse.
Proof.
  intros vp. unfold scalar_do_parse. apply (sim_bind _ _ _ _ any); [apply sim_consume_token| |done].
  intros [tok|]; [|apply sim_ret].
  assert (Htell : forall c : call json_call, sim yes (tell true c;; mret true) (tell vp c;; mret true)).
  { intros c. apply (sim_bind _ _ _ _ any); [apply sim_tell|intros; apply sim_ret|done]. }
  destruct (get_jtype tok); try apply Htell; try apply number_skips.
  all: apply (sim_bind _ _ _ _ any); [apply sim_consume_token| |done].
  all: intros [tok'|]; [apply number_skips|apply sim_error].
Qed.

Lemma json_base_skips : skips json_base.
Proof.
  intros prc. unfold json_base. apply (next_prc_ask c_scalar). intros q.
  apply process_if_skips, scalar_skips.
Qed.

(** A text that a client reads completely is read by every client. *)
Lemma json_parse_skips input l accept :
  json_parse input (fun _ => true) = (Ok tt, l) -> (json_parse input accept).1 = Ok tt.
Proof.
  unfold json_parse. destruct (Tokenizer_new input) as [toks|e| |]; try done.
  unfold JSON_parser_process. destruct toks as [|t toks'] eqn:E.
  { unfold error_at, throw_error. by destruct (Error_buffers _ _) as [[]|e| |]. }
  rewrite <- E. clear E t toks'.
  set (s := mk_PState (mk_It input toks) [] (fun _ => true)).
  set (s1 := mk_PState (mk_It input toks) [] accept).
  destruct (doc_do_parse (S (length toks)) (json_any (S (length toks))) true s) as [[b|e| |] s'] eqn:Hd;
    try done.
  cbn [fst snd]. rewrite obind_Ok. destruct (negb b || _) eqn:Hb.
  { unfold error_at, throw_error. by destruct (Error_buffers _ _) as [[]|e| |]. }
  intros _. apply orb_false_iff in Hb as [Hb Hav]. apply negb_false_iff in Hb. subst b.
  destruct (doc_skips (S (length toks)) _ (any_skips _ (S (length toks)) json_base_skips)
    true s s1 true s')
    as (_ & s1' & H1 & H2); [done|by intros ?|exact Hd|done|].
  unfold json_any. rewrite H1. cbn [fst]. rewrite obind_Ok. cbn [negb orb].
  replace (tokens_available s1') with (tokens_available s')
    by (unfold tokens_available, rest_toks; by rewrite H2).
  by rewrite Hav.
Qed.

(** ** Integers at the bounds of their types

    What the JSON parser reports for a document with one integer of up to 64 bits, of
    either sign: as a signed integer, as an unsigned one, not at all because it is refused,
    or undefined behaviour. *)

(** The text of a document with one number. *)
Definition number_text (neg : bool) (v : Z) : wstr :=
  pieces_text ([(LCURLY, wlit "{"); (QQSTRING, wlit "n"); (COLON, wlit ":")] ++
               (if neg then [(MINUS, wlit "-")] else []) ++
               [(INTEGER, dec_text v); (RCURLY, wlit "}")]).

Definition too_large (o : outcome unit) : Prop :=
  exists (s a : wstr) (p : nat), o = Throw (ParseError s a p (wlit "Numeric value is too large for a signed type")).

(** What is to be reported for the number. *)
Definition number_reported (neg : bool) (v : Z) (o : outcome unit) (calls : list (call json_call)) : Prop :=
  if v <? 2 ^ 63 then o = Ok tt /\ c_base (js_num_int (if neg then - v else v)) ∈ calls
  else if neg then if v =? 2 ^ 63 then o = Undefined else too_large o
  else if v =? 2 ^ 63 then too_large o else o = Ok tt /\ c_base (js_num_uint v) ∈ calls.

(** A value that fails makes the document fail. *)
Definition stops_with {A} (r : outcome unit) (m : jparser A) s : Prop :=
  match r with
  | Throw e => exists s', m s = (Throw e, s')
  | Undefined => exists s', m s = (Undefined, s')
  | _ => False
  end.

Lemma stops_bind {A B} r (m : jparser A) (f : A -> jparser B) s : stops_with r m s -> stops_with r (m ≫= f) s.
Proof.
  unfold stops_with, mbind, Method_bind. destruct r; try done; intros [s' ->]; by eexists.
Qed.

Lemma stops_later {A B} r (m : jparser A) (f : A -> jparser B) s a s' :
  m s = (Ok a, s') -> stops_with r (f a) s' -> stops_with r (m ≫= f) s.
Proof. unfold stops_with. intros H. by rewrite (method_bind_ok H). Qed.

Lemma stops_read {A B} r (g : PState json_call -> A) (f : A -> jparser B) s :
  stops_with r (f (g s)) s -> stops_with r (read g ≫= f) s.
Proof. done. Qed.

Lemma stops_process {A} r (el : bool -> jparser bool) (f : bool -> jparser A) s :
  stops_with r (el true) s -> stops_with r (process_if el true ≫= f) s.
Proof. apply stops_bind. Qed.

(** The value of a document with one member. *)
Lemma document_stops r inp (o k c v : Token) toks m :
  tok_type o = LCURLY -> tok_type k = QQSTRING -> tok_type c = COLON ->
  tok_type v ∉ [LCURLY; LSQBRACKET; RCURLY] ->
  (forall l, stops_with r (scalar_do_parse true) (ps inp (v :: toks) l (fun _ => true))) ->
  stops_with r (doc_do_parse (S m) (json_any (S m)) true) (ps inp (o :: k :: c :: v :: toks) [] (fun _ => true)).
Proof.
  intros Ho Hk Hc Hv Hs. unfold doc_do_parse.
  eapply stops_later; [by apply consume_token_is_yes|]. cbv iota.
  eapply stops_later; [apply tell_ps|]. apply stops_read.
  rewrite cur_token_type_is_cons, Hk, bool_decide_false by done.
  apply (stops_bind r). apply (stops_bind r). cbn [list_do_parse].
  eapply (stops_later r (mret true)); [apply jparser_ret|]. apply stops_process.
  unfold kv_do_parse. apply stops_read.
  assert (Hin : forall l, cur_token_type_in [QQSTRING; QSTRING; WORD]
    (@ps json_call inp (k :: c :: v :: toks) l (fun _ => true)) = true) by (intros l; unfold cur_token_type_in; simpl; by rewrite Hk).
  rewrite Hin. cbn [negb]. eapply stops_later; [apply consume_token_some|].
  eapply stops_later; [done|]. eapply stops_later; [by apply consume_token_is_yes|]. cbv iota.
  eapply stops_later; [apply ask_ps|]. apply stops_process.
  unfold json_any. cbn [any_do_parse]. apply stops_read, stops_read.
  rewrite !cur_token_type_is_cons.
  rewrite (bool_decide_false (tok_type v = LCURLY)), (bool_decide_false (tok_type v = LSQBRACKET)) by set_solver.
  unfold json_base. eapply stops_later; [apply ask_ps|]. apply Hs.
Qed.

(** The types of tokens that are no words. *)
Lemma get_jtype_type t ty :
  match tok_type t with
  | PLUS => ty = J_PLUS | MINUS => ty = J_MINUS | NUMBER => ty = J_NUMBER | INTEGER => ty = J_INTEGER
  | _ => False
  end -> get_jtype t = ty.
Proof. unfold get_jtype. by destruct (tok_type t). Qed.

(** A negative number that is too large. *)
Lemma large_stops v ds inp toks : 2 ^ 63 < v < 2 ^ 64 -> strtoui ds 10 = Ok v ->
  Forall (fun t => (pos_begin t <= length inp)%nat) toks ->
  tokens_are toks [(LCURLY, wlit "{"); (QQSTRING, wlit "n"); (COLON, wlit ":"); (MINUS, wlit "-");
                   (INTEGER, ds); (RCURLY, wlit "}")] ->
  too_large (JSON_parser_process inp toks (fun _ => true)).1.
Proof.
  intros Hv Hr Hl Ht.
  apply tokens_are_cons in Ht as (o & toks1 & -> & Ho & _ & Ht).
  apply tokens_are_cons in Ht as (k & toks2 & -> & Hk & _ & Ht).
  apply tokens_are_cons in Ht as (c & toks3 & -> & Hc & _ & Ht).
  apply tokens_are_cons in Ht as (m & toks4 & -> & Hm & _ & Ht).
  apply tokens_are_cons in Ht as (d & toks5 & -> & Hd & Hdt & Ht).
  apply tokens_are_cons in Ht as (e & toks6 & -> & He & _ & Ht). apply map_eq_nil in Ht as ->.
  cbn [fst snd] in *.
  assert (Hpos : (pos_begin e <= length inp)%nat) by (by do 5 apply Forall_cons in Hl as [_ Hl]; inversion Hl).
  destruct (@throw_error_parse json_call inp (pos_begin e) (wlit "Numeric value is too large for a signed type") Hpos)
    as (s & a & Herr).
  assert (Hs : forall l, scalar_do_parse true (ps inp [m; d; e] l (fun _ => true)) =
    (Throw (ParseError s a (pos_begin e) (wlit "Numeric value is too large for a signed type")),
     ps inp [e] l (fun _ => true))).
  { intros l. unfold scalar_do_parse. rewrite (method_bind_ok (consume_token_some _ _ _ _ _)).
    rewrite (get_jtype_type m J_MINUS) by by rewrite Hm.
    rewrite (method_bind_ok (consume_token_some _ _ _ _ _)). rewrite bool_decide_true by done.
    unfold number_do_parse. rewrite (get_jtype_type d J_INTEGER), Hdt, Hr by by rewrite Hd. cbn [negb].
    rewrite method_pure. unfold int_call.
    rewrite (proj2 (Z.ltb_lt INTEGER_ABS_MAX v)) by (unfold INTEGER_ABS_MAX; lia).
    apply method_bind_fails. unfold parse_error, error_at. cbn [p_it ps]. unfold it_pos. cbn [it_toks it_input].
    by rewrite Herr. }
  unfold JSON_parser_process.
  pose proof (document_stops (Throw (ParseError s a (pos_begin e) (wlit "Numeric value is too large for a signed type")))
    inp o k c m [d; e] (length [o; k; c; m; d; e]) Ho Hk Hc ltac:(rewrite Hm; set_solver) ltac:(intros l; by eexists))
    as [s' Hdoc].
  unfold ps in Hdoc. rewrite Hdoc. by exists s, a, (pos_begin e).
Qed.

Lemma json_integer (neg : bool) v : 0 <= v < 2 ^ 64 ->
  let '(o, calls) := json_parse (number_text neg v) (fun _ => true) in number_reported neg v o calls.
Proof.
  intros Hv. destruct (dec_text_reads v Hv) as (Hne & Hd & Hr).
  destruct (decide (v = 2 ^ 63)) as [->|Hb].
  { destruct neg; [by vm_compute|]. vm_compute. by eexists _, _, _. }
  destruct (decide (neg = true /\ v = 0)) as [[-> ->]|Hz].
  { vm_compute. split; [done|]. set_solver. }
  unfold number_reported.
  assert (Hok : forall j, json_ok j -> number_text neg v = json_text (JDoc [(wlit "n", j)]) ->
    json_parse (number_text neg v) (fun _ => true) =
      (Ok tt, report_doc (fun _ => true) [(wlit "n", j)] true [])).
  { intros j Hj ->. apply json_parse_text. by repeat constructor. }
  destruct (Z.ltb_spec v (2 ^ 63)) as [Hlt|Hge].
  - rewrite (Hok (JInt (if neg then - v else v))).
    + split; [done|]. destruct neg; simpl; set_solver.
    + constructor. destruct neg; lia.
    + unfold number_text, json_text. f_equal. rewrite json_pieces_doc. cbn [members_pieces json_pieces].
      unfold int_pieces. destruct neg.
      * rewrite (proj2 (Z.ltb_lt (- v) 0)), Z.opp_involutive by lia. done.
      * by rewrite (proj2 (Z.ltb_ge v 0)) by lia.
  - rewrite (proj2 (Z.eqb_neq _ _) Hb). destruct neg.
    + set (ks := [(LCURLY, wlit "{"); (QQSTRING, wlit "n"); (COLON, wlit ":"); (MINUS, wlit "-");
        (INTEGER, dec_text v); (RCURLY, wlit "}")]).
      assert (Hks : Forall printable ks).
      { assert (Hs : forall k, bool_decide (k ∈ SYMBOL_LIST2 ++ SYMBOL_LIST1) = true -> printable k)
          by (intros k Hk; apply printable_symbol; by apply bool_decide_eq_true in Hk).
        apply Forall_cons_2; [by apply Hs|]. apply Forall_cons_2; [constructor|]. do 2 (apply Forall_cons_2; [by apply Hs|]).
        apply Forall_cons_2; [by constructor|]. apply Forall_cons_2; [by apply Hs|constructor]. }
      pose proof (Tokenizer_new_reads ks Hks) as Ht. pose proof (Tokenizer_new_lexed (pieces_text ks)) as Hl.
      rewrite Ht in Hl. apply lexed_inside in Hl. unfold json_parse, number_text. cbn [app]. fold ks. rewrite Ht.
      pose proof (large_stops v (dec_text v) (pieces_text ks) (placed 0 ks) ltac:(lia) Hr Hl (placed_pieces 0 ks)) as H.
      by destruct (JSON_parser_process _ _ _).
    + rewrite (Hok (JUint v)); [|constructor; lia|done]. split; [done|]. simpl. set_solver.
Qed.
