(* ===== verification/UriParser.v ===== *)
(** * The parser of connection strings

    src/mysqlconnector/cdk/parser/uri_parser.{h,cc}: the class [URI_parser], which takes a
    URI or a connection string apart and reports its parts to a [URI_processor].

    The parser keeps a stack of states (the current token, its position and the position
    of the next one); a [Guard] pushes a copy of the top and pops it unless it is
    released.  The callbacks of the processor return nothing, the model keeps their log.
    [char] values are bytes, and signed; a message that quotes the input is converted from
    UTF-8. *)

From S2P Require Import Prelude Cursor Tokenizer.

(** ** Tokens *)

Inductive token_type :=
| T_ZERO | T_CHAR | T_DIGIT
| T_MINUS | T_DOT | T_UNDERSCORE | T_TILD | T_BSLASH | T_EXCLAMATION | T_DOLLAR | T_AMP
| T_QUOTE | T_ASTERISK | T_PLUS | T_SEMICOLON | T_EQ
| T_COLON | T_SLASH | T_QUESTION | T_AT | T_SQOPEN | T_SQCLOSE
| T_POPEN | T_PCLOSE | T_COMMA
| T_INVALID | T_LAST.

#[export] Instance token_type_eq_dec : EqDecision token_type.
Proof. solve_decision. Defined.

Definition URI_UNRESERVED : list (token_type * ascii) :=
  [(T_MINUS, "-"%char); (T_DOT, "."%char); (T_UNDERSCORE, "_"%char); (T_TILD, "~"%char);
   (T_BSLASH, "\"%char); (T_EXCLAMATION, "!"%char); (T_DOLLAR, "$"%char); (T_AMP, "&"%char);
   (T_QUOTE, "'"%char); (T_ASTERISK, "*"%char); (T_PLUS, "+"%char); (T_SEMICOLON, ";"%char);
   (T_EQ, "="%char)].

Definition URI_GEN_DELIMS : list (token_type * ascii) :=
  [(T_COLON, ":"%char); (T_SLASH, "/"%char); (T_QUESTION, "?"%char); (T_AT, "@"%char);
   (T_SQOPEN, "["%char); (T_SQCLOSE, "]"%char)].

Definition URI_RESERVED : list (token_type * ascii) :=
  URI_GEN_DELIMS ++ [(T_POPEN, "("%char); (T_PCLOSE, ")"%char); (T_COMMA, ","%char)].

Definition URI_TOKEN_LIST : list (token_type * ascii) := URI_UNRESERVED ++ URI_RESERVED.

(** A token is a character; [m_pct] tells that it was written in the form [%XX]. *)
Record UToken := mk_UToken { m_char : ascii; m_pct : bool }.

#[export] Instance UToken_eq_dec : EqDecision UToken.
Proof. solve_decision. Defined.

Definition code (c : ascii) : Z := Z.of_nat (nat_of_ascii c).
Definition codes (s : str) : wstr := code <$> s.

(** [std::isalpha] in the "C" locale. *)
Definition isalpha (c : ascii) : bool := ctf_upper (code c) || ctf_lower (code c).

(** [::tolower] of a [char]: a negative value that is not [EOF] has no meaning. *)
Definition tolower (c : ascii) : outcome Z :=
  if code c <? 128 then Ok (ctf_tolower (code c)) else if code c =? 255 then Ok (-1) else Undefined.

Definition compare_ci (a b : ascii) : outcome bool := x ← tolower a; y ← tolower b; Ok (x =? y).

(** The symbol of the list that the character is. *)
Fixpoint symbol_type (l : list (token_type * ascii)) (c : ascii) : option token_type :=
  match l with
  | [] => None
  | (T, c') :: l' => if decide (c' = c) then Some T else symbol_type l' c
  end.

Definition get_type (t : UToken) : token_type :=
  if m_pct t then T_CHAR
  else if isalpha (m_char t) then T_CHAR
  else match symbol_type URI_TOKEN_LIST (m_char t) with
       | Some T => T
       | None => if ctf_digit (code (m_char t)) then T_DIGIT else T_INVALID
       end.

(** Sets of token types, and the classes of characters of the grammar. *)
Abbreviation TokSet := (list token_type).

Definition has_token (set : TokSet) (tt : token_type) : bool := bool_decide (tt ∈ set).

Definition unreserved : TokSet := T_CHAR :: T_DIGIT :: URI_UNRESERVED.*1.
Definition gen_delims : TokSet := URI_GEN_DELIMS.*1.
Definition user_chars : TokSet := unreserved ++ [T_POPEN; T_PCLOSE; T_COMMA].
Definition host_chars : TokSet := unreserved ++ [T_POPEN; T_PCLOSE; T_AT].
Definition db_chars : TokSet :=
  unreserved ++ [T_POPEN; T_PCLOSE; T_COMMA; T_SQOPEN; T_SQCLOSE; T_COLON; T_AT].
Definition np_char : TokSet := unreserved ++ gen_delims ++ [T_COMMA].

(** ** [strtol] *)

Fixpoint strtol_digits (base : Z) (s : str) (acc : Z) (n : nat) : Z * nat :=
  match s with
  | c :: s' =>
      match digit_value base (code c) with
      | Some d => strtol_digits base s' (acc * base + d) (S n)
      | None => (acc, n)
      end
  | [] => (acc, n)
  end.

Fixpoint spaces (s : str) : nat :=
  match s with
  | c :: s' => if ctf_space (code c) then S (spaces s') else O
  | [] => O
  end.

Definition LONG_MAX : Z := 2 ^ 63 - 1.
Definition LONG_MIN : Z := - 2 ^ 63.

(** The value and how many characters were used, none if there is no digit.  A prefix
    [0x] is not considered: the hexadecimal texts below have two characters, and a
    prefix needs a third one. *)
Definition strtol (s : str) (base : Z) : Z * nat :=
  let n := spaces s in
  let s1 := drop n s in
  let '(neg, k, s2) :=
    match s1 with
    | c :: s2 =>
        if code c =? 45 then (true, 1%nat, s2)
        else if code c =? 43 then (false, 1%nat, s2) else (false, O, s1)
    | [] => (false, O, [])
    end in
  let '(v, d) := strtol_digits base s2 0 0 in
  if bool_decide (d = O) then (0, O)
  else (if neg : bool then Z.max LONG_MIN (- v) else Z.min LONG_MAX v, (n + k + d)%nat).

(** ** The members of the parser *)

Record State := mk_State { m_tok : UToken; m_pos : nat; m_pos_next : nat }.

Definition UToken_new : UToken := mk_UToken "000"%char false.

(** The calls on the processor. *)
Inductive uri_call :=
| u_user (s : str) | u_password (s : str) | u_schema (s : str)
| u_host (priority : Z) (host : str) | u_host_port (priority : Z) (host : str) (port : Z)
| u_socket (priority : Z) (path : str) | u_pipe (priority : Z) (pipe : str)
| u_key (key : str) | u_key_val (key val : str) | u_key_list (key : str) (vals : list str).

#[export] Instance uri_call_eq_dec : EqDecision uri_call.
Proof. solve_decision. Defined.

(** The stack of states is never empty: its top and what is below. *)
Record URI_parser := mk_URI_parser {
  m_uri : str;
  m_has_scheme : bool;
  m_top : State;
  m_below : list State;
  m_log : list uri_call
}.

Abbreviation uparser := (Method URI_parser).

Definition set_top (st : State) (p : URI_parser) : URI_parser :=
  mk_URI_parser (m_uri p) (m_has_scheme p) st (m_below p) (m_log p).

Definition get_pos (p : URI_parser) : nat := m_pos (m_top p).

Definition push : uparser unit :=
  update (fun p => mk_URI_parser (m_uri p) (m_has_scheme p) (m_top p) (m_top p :: m_below p) (m_log p)).

Definition pop : uparser unit := fun p =>
  match m_below p with
  | st :: l => (Ok tt, mk_URI_parser (m_uri p) (m_has_scheme p) st l (m_log p))
  | [] => (Undefined, p)
  end.

(** A call on the processor. *)
Definition report (c : uri_call) : uparser unit :=
  update (fun p => mk_URI_parser (m_uri p) (m_has_scheme p) (m_top p) (m_below p) (m_log p ++ [c])).

(** ** Errors *)

Definition uri_error {A} (msg : wstr) : uparser A :=
  fun p => (throw_error (codes (m_uri p)) (get_pos p) msg, p).

Definition unexpected {A} (what : str) (msg : wstr) : uparser A := fun p =>
  ('(seen, ahead) ← Error_buffers (codes (m_uri p)) (get_pos p);
   Throw (UnexpectedError seen ahead (get_pos p) what msg), p).

Definition invalid_char {A} (c : ascii) : uparser A := fun p =>
  ('(seen, ahead) ← Error_buffers (codes (m_uri p)) (get_pos p);
   Throw (InvalidCharError seen ahead (get_pos p) c), p).

(** ** Tokens of the input *)

Definition at_end (p : URI_parser) : bool := bool_decide (length (m_uri p) <= get_pos p)%nat.
Definition has_more_tokens (p : URI_parser) : bool := negb (at_end p).

Definition next_token_is (tt : token_type) (p : URI_parser) : bool :=
  negb (at_end p) && bool_decide (tt = get_type (m_tok (m_top p))).

Definition next_token_in (toks : TokSet) (p : URI_parser) : bool :=
  has_more_tokens p && has_token toks (get_type (m_tok (m_top p))).

(** The character that the two characters after a percent sign stand for. *)
Definition pct_char (hex : str) : option ascii :=
  let '(c, n) := strtol hex 16 in
  if bool_decide (n = 2%nat) && (0 <=? c) && (c <=? 256)
  then Some (ascii_of_nat (Z.to_nat c)) else None.

Definition get_token : uparser bool :=
  update (fun p => set_top (mk_State (m_tok (m_top p)) (m_pos_next (m_top p)) (m_pos_next (m_top p))) p);;
  fin ← read at_end;
  if fin : bool then mret false else
  p ← read id;
  let pos := get_pos p in
  c ← pure (deref (m_uri p !! pos));
  if decide (c = "%"%char) then
    match pct_char (take 2 (drop (pos + 1) (m_uri p))) with
    | None => uri_error (wlit "Invalid pct-encoded character")
    | Some d => update (set_top (mk_State (mk_UToken d true) pos (pos + 3)));; mret true
    end
  else
    update (set_top (mk_State (mk_UToken c false) pos (pos + 1)));;
    if decide (get_type (mk_UToken c false) = T_INVALID) then invalid_char c else mret true.

Definition uconsume : uparser UToken :=
  fin ← read at_end;
  if fin : bool then uri_error (wlit "Expected more characters") else
  cur_tok ← read (fun p => m_tok (m_top p));
  get_token;; mret cur_tok.

Definition uconsume_is (tt : token_type) : uparser bool :=
  b ← read (fun p => has_more_tokens p && next_token_is tt p);
  if b : bool then uconsume;; mret true else mret false.

(** [Guard]: the state is restored unless the body asks to keep what it did. *)
Definition guarded_by {A} (body : uparser (bool * A)) : uparser A :=
  push;;
  '(release, a) ← body;
  if release : bool then mret a else pop;; mret a.

Fixpoint consume_word_loop (compare : ascii -> ascii -> outcome bool) (word : str) : uparser (bool * bool) :=
  match word with
  | [] => mret (true, true)
  | el :: word' =>
      more ← read has_more_tokens;
      if negb more then mret (false, false) else
      c ← read (fun p => m_char (m_tok (m_top p)));
      same ← pure (compare c el);
      if negb same then mret (false, false) else
      uconsume;; consume_word_loop compare word'
  end.

Definition consume_word_base (word : str) (compare : ascii -> ascii -> outcome bool) : uparser bool :=
  guarded_by (consume_word_loop compare word).

Definition consume_word (word : str) : uparser bool :=
  consume_word_base word (fun a b => Ok (bool_decide (a = b))).

Definition consume_word_ci (word : str) : uparser bool :=
  consume_word_base word compare_ci.

(** The loops consume a token in every turn. *)
Fixpoint consume_loop (fuel : nat) (more : URI_parser -> bool) (buf : str) : uparser str :=
  match fuel with
  | O => pure Diverged
  | S n =>
      b ← read more;
      if b : bool then t ← uconsume; consume_loop n more (buf ++ [m_char t]) else mret buf
  end.

Definition uturns (p : URI_parser) : nat := S (length (m_uri p)).

Definition consume_until (buf : str) (toks : TokSet) : uparser str :=
  n ← read uturns;
  consume_loop n (fun p => has_more_tokens p && negb (next_token_in toks p)) buf.

Definition consume_while (buf : str) (toks : TokSet) : uparser str :=
  n ← read uturns;
  consume_loop n (fun p => has_more_tokens p && next_token_in toks p) buf.

Definition consume_all (buf : str) : uparser str :=
  n ← read uturns; consume_loop n has_more_tokens buf.

(** ** The grammar *)

(** A port or a priority. *)
Definition convert_val (port : str) : uparser Z :=
  let '(val, used) := strtol port 10 in
  if bool_decide (val = 0) && bool_decide (used = O) then uri_error (wlit "Expected number")
  else if (65535 <? val) || (val <? 0) then uri_error (wlit "Invalid value")
  else mret val.

(** Options of an address: it can be an internet address, it can be something else. *)
Record Addr_opts := mk_Addr_opts { ADDR_IP : bool; ADDR_OTHER : bool }.

Definition report_address (opts : Addr_opts) (priority : Z) (host port : str) : uparser bool :=
  let c := default "000"%char (host !! 0%nat) in
  if ADDR_OTHER opts && (bool_decide (c = "."%char) || bool_decide (c = "/"%char)) then
    report (u_socket priority host);; mret true
  else if ADDR_OTHER opts && bool_decide (take 4 host = lit "\\\\.\\") then
    report (u_pipe priority host);; mret true
  else if ADDR_IP opts then
    match port with
    | [] => report (u_host priority host);; mret true
    | _ => v ← convert_val port; report (u_host_port priority host v);; mret true
    end
  else uri_error (wlit "Unrecognized host address").

(** [parse_balanced]; the recursion consumes a parenthesis. *)
Fixpoint parse_balanced (fuel : nat) (chars : str) (include_parens : bool) : uparser str :=
  match fuel with
  | O => pure Diverged
  | S n =>
      o ← uconsume_is T_POPEN;
      if negb o then uri_error (wlit "Expected opening '('") else
      let chars := if include_parens then chars ++ ["("%char] else chars in
      chars ← consume_while chars np_char;
      again ← read (next_token_is T_POPEN);
      chars ← (if again : bool then parse_balanced n chars true else mret chars);
      chars ← consume_while chars np_char;
      c ← uconsume_is T_PCLOSE;
      if negb c then uri_error (wlit "Expected closing ')'") else
      mret (if include_parens then chars ++ [")"%char] else chars)
  end.

(** The characters between square brackets: [None] when this is no IPv6 address. *)
Fixpoint ip6_loop (fuel : nat) (addr : str) : uparser (option str) :=
  match fuel with
  | O => pure Diverged
  | S n =>
      b ← read (next_token_in [T_DIGIT; T_CHAR; T_COLON]);
      if negb b then mret (Some addr) else
      tok ← uconsume;
      if m_pct tok then mret None
      else if bool_decide (get_type tok = T_CHAR) &&
              negb (bool_decide (m_char tok ∈ lit "ABCDEFabcdef")) then mret None
      else ip6_loop n (addr ++ [m_char tok])
  end.

Definition parse_ip6 : uparser (option str) :=
  n ← read uturns;
  addr ← ip6_loop n [];
  match addr with
  | None | Some [] => mret None
  | Some a => c ← uconsume_is T_SQCLOSE; mret (if c : bool then Some a else None)
  end.

(** Groups of digits separated by dots, at most four: [left] more groups can follow.
    Returns the text and how many groups are missing. *)
Fixpoint ip4_loop (left : nat) (first : bool) (addr : str) : uparser (str * nat) :=
  match left with
  | O => mret (addr, O)
  | S n =>
      d ← read (next_token_is T_DIGIT);
      if negb d then mret (addr, left) else
      let addr := if first then addr else addr ++ ["."%char] in
      addr ← consume_while addr [T_DIGIT];
      match n with
      | O => mret (addr, O)
      | _ => dot ← uconsume_is T_DOT;
             if dot : bool then ip4_loop n false addr else mret (addr, n)
      end
  end.

(** An address of four groups, or a plain host with a colon after it. *)
Definition parse_ip4 : uparser (option str) :=
  '(addr, missing) ← ip4_loop 4 true [];
  match missing with
  | O => mret (Some addr)
  | _ =>
      addr ← consume_while addr host_chars;
      colon ← read (next_token_is T_COLON);
      mret (if colon : bool then Some addr else None)
  end.

(** Host and port, [None] when there is no internet address. *)
Definition parse_ip_address : uparser (option (str * str)) :=
  guarded_by (
    o ← uconsume_is T_SQOPEN;
    addr ← (if o : bool then parse_ip6 else parse_ip4);
    match addr with
    | None => mret (false, None)
    | Some a =>
        colon ← uconsume_is T_COLON;
        port ← (if colon : bool then consume_while [] [T_DIGIT] else mret []);
        mret (true, Some (a, port))
    end).

Definition parse_host : uparser (Addr_opts * str * str) :=
  b ← read (next_token_is T_POPEN);
  if b : bool then
    n ← read uturns;
    address ← parse_balanced n [] false;
    mret (mk_Addr_opts false true, address, [])
  else
    ip ← parse_ip_address;
    match ip with
    | Some (host, port) => mret (mk_Addr_opts true false, host, port)
    | None => address ← consume_while [] host_chars; mret (mk_Addr_opts true true, address, [])
    end.

(** A pair of an address and a priority, from the address on. *)
Definition parse_host_priority : uparser unit :=
  '(opts, host, port) ← parse_host;
  a ← uconsume_is T_COMMA;
  b ← (if a : bool then consume_word_ci (lit "priority") else mret false);
  c ← (if b : bool then uconsume_is T_EQ else mret false);
  if negb c then uri_error (wlit "Expected priority specification for a host") else
  prio_str ← consume_while [] [T_DIGIT];
  if bool_decide (prio_str = []) then uri_error (wlit "Expected priority value") else
  d ← uconsume_is T_PCLOSE;
  if negb d then uri_error (wlit "Expected ')' to close a host-priority pair") else
  v ← convert_val prio_str;
  report_address opts ((1 + v) mod 2 ^ 16) host port;; mret tt.

Definition parse_list_entry : uparser unit :=
  found ← guarded_by (
    a ← uconsume_is T_POPEN;
    b ← (if a : bool then consume_word_ci (lit "address") else mret false);
    c ← (if b : bool then uconsume_is T_EQ else mret false);
    if c : bool then parse_host_priority;; mret (true, true) else mret (false, false));
  if found : bool then mret tt else
  '(opts, host, port) ← parse_host;
  report_address opts 0 host port;; mret tt.

(** A loop that goes on as long as its separator follows. *)
Fixpoint separated (fuel : nat) (sep : token_type) (body : uparser unit) : uparser unit :=
  match fuel with
  | O => pure Diverged
  | S n => body;; b ← uconsume_is sep; if b : bool then separated n sep body else mret tt
  end.

Definition parse_host_list : uparser unit :=
  uconsume_is T_SQOPEN;;
  n ← read uturns;
  separated n T_COMMA parse_list_entry;;
  c ← uconsume_is T_SQCLOSE;
  if c : bool then mret tt else uri_error (wlit "Expected ']' to close list of hosts").

(** [None] when there is no user; the password is optional. *)
Definition parse_userinfo : uparser bool :=
  guarded_by (
    user ← consume_while [] user_chars;
    if bool_decide (user = []) then mret (false, false) else
    has_pwd ← uconsume_is T_COLON;
    password ← (if has_pwd : bool then consume_while [] (user_chars ++ [T_COLON]) else mret []);
    at_ ← uconsume_is T_AT;
    if negb at_ then mret (false, false) else
    report (u_user user);;
    (if has_pwd : bool then report (u_password password) else mret tt);;
    mret (true, true)).

Definition parse_connection : uparser unit :=
  b ← read (next_token_is T_AT);
  if b : bool then uri_error (wlit "Expected user credentials before '@'") else
  parse_userinfo;;
  push;;
  starts_with_sqopen ← read (next_token_is T_SQOPEN);
  '(opts, host, port) ← parse_host;
  if starts_with_sqopen && ADDR_OTHER opts then pop;; parse_host_list
  else report_address opts 0 host port;; mret tt.

Definition parse_path : uparser unit :=
  b ← uconsume_is T_SLASH;
  if negb b then mret tt else
  db ← consume_while [] db_chars; report (u_schema db).

(** The values of a list, up to its end. *)
Fixpoint val_loop (fuel : nat) (vals : list str) : uparser (list str) :=
  match fuel with
  | O => pure Diverged
  | S n =>
      val ← consume_until [] [T_COMMA; T_SQCLOSE];
      b ← uconsume_is T_COMMA;
      if b : bool then val_loop n (vals ++ [val]) else mret (vals ++ [val])
  end.

(** [cdk::string::set_utf8]: the characters of a text in UTF-8, none when it is not
    well-formed (as [std::codecvt_utf8] decides: no overlong forms, no surrogates). *)
Definition continuation (lo hi : Z) (c : ascii) : option Z :=
  if (lo <=? code c) && (code c <=? hi) then Some (code c - 128) else None.

Fixpoint from_utf8 (s : str) : option wstr :=
  match s with
  | [] => Some []
  | c0 :: s1 =>
      let b := code c0 in
      if b <? 0x80 then cons b <$> from_utf8 s1
      else if b <? 0xc2 then None
      else match s1 with
      | [] => None
      | c1 :: s2 =>
          if b <? 0xe0 then
            x ← continuation 0x80 0xbf c1; cons ((b - 0xc0) * 64 + x) <$> from_utf8 s2
          else match s2 with
          | [] => None
          | c2 :: s3 =>
              if b <? 0xf0 then
                x ← continuation (if b =? 0xe0 then 0xa0 else 0x80) (if b =? 0xed then 0x9f else 0xbf) c1;
                y ← continuation 0x80 0xbf c2;
                cons (((b - 0xe0) * 64 + x) * 64 + y) <$> from_utf8 s3
              else match s3 with
              | c3 :: s4 =>
                  if b <? 0xf5 then
                    x ← continuation (if b =? 0xf0 then 0x90 else 0x80) (if b =? 0xf4 then 0x8f else 0xbf) c1;
                    y ← continuation 0x80 0xbf c2;
                    z ← continuation 0x80 0xbf c3;
                    cons ((((b - 0xf0) * 64 + x) * 64 + y) * 64 + z) <$> from_utf8 s4
                  else None
              | [] => None
              end
          end
      end
  end.

(** [parse_error] with a message of bytes, which is converted first. *)
Definition parse_error_bytes {A} (msg : str) : uparser A :=
  match from_utf8 msg with
  | Some m => uri_error m
  | None => throw (GenericError "string conversion error")
  end.

Definition parse_val_list (key : str) : uparser unit :=
  b ← uconsume_is T_SQOPEN;
  if negb b then mret tt else
  n ← read uturns;
  vals ← val_loop n [];
  c ← uconsume_is T_SQCLOSE;
  if c : bool then report (u_key_list key vals)
  else parse_error_bytes ("Missing ']' while parsing list value of query key '" ++ key ++
                          "'" ++ ["000"%char]).

Definition parse_pair : uparser unit :=
  key ← consume_until [] [T_EQ; T_AMP];
  e ← uconsume_is T_EQ;
  if negb e then report (u_key key) else
  l ← read (next_token_is T_SQOPEN);
  if l : bool then parse_val_list key
  else val ← consume_until [] [T_AMP]; report (u_key_val key val).

Definition parse_query : uparser unit :=
  b ← uconsume_is T_QUESTION;
  if negb b then mret tt else n ← read uturns; separated n T_AMP parse_pair.

(** The position of the first [://]. *)
Fixpoint find_scheme (fuel : nat) (s : str) (pos : nat) : option nat :=
  match fuel with
  | O => None
  | S n =>
      if decide (take 3 (drop pos s) = lit "://") then Some pos else find_scheme n s (S pos)
  end.

(** The state is reset; the first token is read. *)
Definition check_scheme (force : bool) : uparser bool :=
  uri ← read m_uri;
  let found := find_scheme (length uri) uri 0 in
  let st := mk_State UToken_new 0 (match found with Some pos => (pos + 3)%nat | None => O end) in
  update (fun p => mk_URI_parser (m_uri p) (bool_decide (found <> None)) (mk_State UToken_new 0 0)
                     [] (m_log p));;
  match found with
  | Some pos =>
      if decide (take pos uri = lit "mysqlx") then update (set_top st);; get_token;; mret true
      else uri_error (wlit "Expected URI scheme 'mysqlx'")
  | None =>
      if decide (take 6 uri = lit "mysqlx") then
        update (set_top (mk_State UToken_new 6 0));; unexpected (lit "://") []
      else if force then uri_error (wlit "URI scheme expected")
      else get_token;; mret false
  end.

Definition uri_parse (m_force_uri : bool) : uparser unit :=
  check_scheme m_force_uri;;
  parse_connection;;
  parse_path;;
  parse_query;;
  more ← read has_more_tokens;
  if more : bool then uri_error (wlit "Unexpected characters at the end") else mret tt.

(** The constructor and [process]: the outcome and the calls on the processor. *)
Definition URI_process (uri : str) (force_uri : bool) : outcome unit * list uri_call :=
  let '(o, p) :=
    uri_parse force_uri (mk_URI_parser uri false (mk_State UToken_new 0 0) [] []) in
  (o, m_log p).

(** [parser::parse_uri] and [parser::parse_conn_str]. *)
Definition parse_uri (uri : str) : outcome unit * list uri_call := URI_process uri true.
Definition parse_conn_str (uri : str) : outcome unit * list uri_call := URI_process uri false.
