(* ===== verification/UriRead.v ===== *)
(** * What the parser of connection strings reports

    A connection string as its parts ([connection]: user and password, a host of any form
    or a list of hosts with priorities, a schema, a query), its text, in which any
    character can be written in the form [%XX], and the calls that report it.  Parsing the
    text of a connection makes exactly these calls. *)

From S2P Require Import Prelude Cursor Tokenizer Tokens UriParser.

(** ** Texts of tokens *)

Definition hex_char (d : Z) : ascii := ascii_of_nat (Z.to_nat (if d <? 10 then 48 + d else 55 + d)).

Definition utok_text (t : UToken) : str :=
  if m_pct t then ["%"%char; hex_char (code (m_char t) / 16); hex_char (code (m_char t) mod 16)]
  else [m_char t].

Definition utext (ts : list UToken) : str := concat (utok_text <$> ts).

Definition chars (ts : list UToken) : str := m_char <$> ts.

(** A character that can be written as it is, or one in the form [%XX]. *)
Definition valid (t : UToken) : Prop := get_type t <> T_INVALID.

Lemma utext_cons t ts : utext (t :: ts) = utok_text t ++ utext ts.
Proof. done. Qed.

Lemma utext_app ts us : utext (ts ++ us) = utext ts ++ utext us.
Proof. unfold utext. by rewrite fmap_app, concat_app. Qed.

Lemma chars_app ts us : chars (ts ++ us) = chars ts ++ chars us.
Proof. apply fmap_app. Qed.

Lemma code_range c : 0 <= code c < 256.
Proof. unfold code. pose proof (nat_ascii_bounded c). lia. Qed.

Lemma hex_char_value d : 0 <= d < 16 ->
  digit_value 16 (code (hex_char d)) = Some d /\ code (hex_char d) <> 43 /\
  code (hex_char d) <> 45 /\ ctf_space (code (hex_char d)) = false.
Proof.
  intros Hd.
  assert (H : d = 0 \/ d = 1 \/ d = 2 \/ d = 3 \/ d = 4 \/ d = 5 \/ d = 6 \/ d = 7 \/ d = 8 \/ d = 9
    \/ d = 10 \/ d = 11 \/ d = 12 \/ d = 13 \/ d = 14 \/ d = 15) by lia.
  repeat (destruct H as [->|H]; [done|]). by subst.
Qed.

Lemma pct_char_reads c :
  pct_char [hex_char (code c / 16); hex_char (code c mod 16)] = Some c.
Proof.
  pose proof (code_range c) as Hc.
  destruct (hex_char_value (code c / 16)) as (H1 & H2 & H3 & H4).
  { split; [apply Z.div_pos; lia|apply Z.div_lt_upper_bound; lia]. }
  destruct (hex_char_value (code c mod 16)) as (H5 & _); [by apply Z.mod_pos_bound|].
  unfold pct_char, strtol. cbn [spaces]. rewrite H4. cbn [drop].
  rewrite (proj2 (Z.eqb_neq _ _) H3), (proj2 (Z.eqb_neq _ _) H2). cbn [strtol_digits].
  rewrite H1, H5. rewrite bool_decide_false by done.
  replace ((0 * 16 + code c / 16) * 16 + code c mod 16) with (code c)
    by (rewrite (Z.div_mod (code c) 16) at 1 by lia; lia).
  rewrite Z.min_r by (unfold LONG_MAX; lia). rewrite bool_decide_true by done.
  cbn [andb]. replace ((0 <=? code c) && (code c <=? 256)) with true by lia.
  unfold code. by rewrite Nat2Z.id, ascii_nat_embedding.
Qed.

(** ** States at a list of tokens *)

(** The parser at the tokens [rest], the text [pre] being before them; [st] is the token
    that the state still holds at the end of the input. *)
Definition ustate (pre : str) (st : UToken) (rest : list UToken) : State :=
  mk_State (default st (head rest)) (length pre)
    (length pre + match rest with t :: _ => length (utok_text t) | [] => 0 end).

Definition ux (pre : str) (st : UToken) (rest : list UToken) (sch : bool) (bl : list State)
    (log : list uri_call) : URI_parser :=
  mk_URI_parser (pre ++ utext rest) sch (ustate pre st rest) bl log.

(** The token that is held after [ts] were consumed. *)
Definition stale (st : UToken) (ts : list UToken) : UToken := default st (last ts).

Lemma stale_cons st t ts : stale st (t :: ts) = stale t ts.
Proof. unfold stale. rewrite last_cons. by destruct (last ts). Qed.

Lemma stale_app st ts us : stale st (ts ++ us) = stale (stale st ts) us.
Proof.
  revert st. induction ts as [|t ts IH]; intros st; [done|]. simpl app.
  rewrite !stale_cons. apply IH.
Qed.

Lemma utok_text_length t : (0 < length (utok_text t))%nat.
Proof. unfold utok_text. destruct (m_pct t); simpl; lia. Qed.

Lemma utok_text_first t : exists c s, utok_text t = c :: s.
Proof. unfold utok_text. destruct (m_pct t); by eexists _, _. Qed.

Lemma at_end_ux pre st rest sch bl log :
  at_end (ux pre st rest sch bl log) = bool_decide (rest = []).
Proof.
  unfold at_end, ux, get_pos, ustate. simpl. apply bool_decide_ext. rewrite length_app.
  destruct rest as [|t rest]; [simpl; split; [done|lia]|].
  rewrite utext_cons, length_app. pose proof (utok_text_length t). split; [lia|done].
Qed.

Lemma next_token_is_ux pre st rest sch bl log tt :
  next_token_is tt (ux pre st rest sch bl log) =
  match rest with t :: _ => bool_decide (tt = get_type t) | [] => false end.
Proof. unfold next_token_is. rewrite at_end_ux. by destruct rest. Qed.

Lemma next_token_in_ux pre st rest sch bl log set :
  next_token_in set (ux pre st rest sch bl log) =
  match rest with t :: _ => has_token set (get_type t) | [] => false end.
Proof. unfold next_token_in, has_more_tokens. rewrite at_end_ux. by destruct rest. Qed.

(** The token at a position is read from the text. *)
Lemma get_token_reads uri pre rest sch bl log held pos :
  uri = pre ++ utext rest -> Forall valid rest ->
  get_token (mk_URI_parser uri sch (mk_State held pos (length pre)) bl log) =
  (Ok (negb (bool_decide (rest = []))), ux pre held rest sch bl log).
Proof.
  intros -> Hv. unfold get_token. rewrite method_update. unfold set_top. cbn [m_uri m_has_scheme m_top m_below m_log m_tok m_pos_next].
  rewrite method_read. unfold at_end at 1, get_pos at 1. cbn [m_uri m_top m_pos].
  destruct rest as [|t rest].
  { rewrite bool_decide_true by (unfold utext; simpl; rewrite app_nil_r; lia). unfold ux, ustate.
    simpl. by rewrite Nat.add_0_r. }
  rewrite bool_decide_false
    by (rewrite utext_cons, !length_app; pose proof (utok_text_length t); lia).
  rewrite method_read. unfold get_pos, id. cbn [m_uri m_top m_pos].
  inversion Hv as [|? ? Ht Hv']; subst. destruct t as [c [|]].
  - set (t := mk_UToken c true) in *.
    assert (Hat : (pre ++ utext (t :: rest)) !! length pre = Some "%"%char)
      by (by rewrite lookup_app_r, Nat.sub_diag by lia).
    assert (Htake : take 2 (drop (length pre + 1) (pre ++ utext (t :: rest))) =
      [hex_char (code c / 16); hex_char (code c mod 16)])
      by (by rewrite <- drop_drop, drop_app_length).
    rewrite Hat. cbn [deref]. rewrite method_pure, decide_True by done.
    by rewrite Htake, pct_char_reads.
  - set (t := mk_UToken c false) in *.
    assert (Hat : (pre ++ utext (t :: rest)) !! length pre = Some c)
      by (by rewrite lookup_app_r, Nat.sub_diag by lia).
    rewrite Hat. cbn [deref]. rewrite method_pure, decide_False by (intros ->; by apply Ht).
    by rewrite method_update, decide_False by done.
Qed.

Lemma uconsume_ux pre st t rest sch bl log : Forall valid rest ->
  uconsume (ux pre st (t :: rest) sch bl log) =
  (Ok t, ux (pre ++ utok_text t) t rest sch bl log).
Proof.
  intros Hv. unfold uconsume. rewrite method_read, at_end_ux, bool_decide_false by done.
  rewrite method_read. unfold ux at 1, ustate at 1. cbn [default from_option id head m_top m_tok].
  pose proof (get_token_reads (pre ++ utext (t :: rest)) (pre ++ utok_text t) rest sch bl log t
    (length pre) ltac:(by rewrite utext_cons, app_assoc) Hv) as H.
  rewrite length_app in H. by rewrite (method_bind_ok H).
Qed.

Lemma uconsume_is_ux pre st rest sch bl log tt : Forall valid rest ->
  uconsume_is tt (ux pre st rest sch bl log) =
  match rest with
  | t :: rest' =>
      if decide (get_type t = tt) then (Ok true, ux (pre ++ utok_text t) t rest' sch bl log)
      else (Ok false, ux pre st rest sch bl log)
  | [] => (Ok false, ux pre st rest sch bl log)
  end.
Proof.
  intros Hv. unfold uconsume_is. rewrite method_read. unfold has_more_tokens.
  rewrite at_end_ux, next_token_is_ux. destruct rest as [|t rest]; [done|]. simpl.
  case_decide as H.
  - rewrite bool_decide_true by done. inversion Hv; subst.
    by rewrite (method_bind_ok (uconsume_ux _ _ _ _ _ _ _ ltac:(done))).
  - by rewrite bool_decide_false by congruence.
Qed.

Definition stops (f : UToken -> bool) (rest : list UToken) : Prop :=
  match rest with t :: _ => f t = false | [] => True end.

Definition in_set (set : TokSet) (t : UToken) : bool := has_token set (get_type t).

Lemma utext_length ts : (length ts <= length (utext ts))%nat.
Proof.
  induction ts as [|t ts IH]; [done|]. rewrite utext_cons, length_app.
  pose proof (utok_text_length t). simpl. lia.
Qed.

Lemma consume_loop_ux f more ts :
  (forall pre st rest sch bl log, more (ux pre st rest sch bl log) =
     match rest with t :: _ => f t | [] => false end) ->
  Forall (fun t => f t = true) ts ->
  forall n buf pre st rest sch bl log, stops f rest -> Forall valid (ts ++ rest) ->
  (length ts < n)%nat ->
  consume_loop n more buf (ux pre st (ts ++ rest) sch bl log) =
  (Ok (buf ++ chars ts), ux (pre ++ utext ts) (stale st ts) rest sch bl log).
Proof.
  intros Hm Hts. induction Hts as [|t ts Ht Hts IH]; intros [|n] buf pre st rest sch bl log Hs Hv Hn;
    simpl in Hn; try lia; cbn [consume_loop app]; rewrite method_read, Hm.
  - destruct rest as [|t rest]; [by rewrite !app_nil_r|]. simpl in Hs. rewrite Hs.
    by rewrite !app_nil_r.
  - rewrite Ht. inversion Hv as [|? ? Hvt Hv']; subst.
    rewrite (method_bind_ok (uconsume_ux _ _ _ _ _ _ _ Hv')).
    rewrite IH by (done || lia). rewrite stale_cons, utext_cons, <- !app_assoc. done.
Qed.

Lemma turns_ux pre st ts rest sch bl log :
  (length ts < uturns (ux pre st (ts ++ rest) sch bl log))%nat.
Proof.
  unfold uturns, ux. cbn [m_uri]. rewrite utext_app, !length_app.
  pose proof (utext_length ts). lia.
Qed.

Lemma consume_while_ux set ts buf pre st rest sch bl log :
  Forall (fun t => in_set set t = true) ts -> stops (in_set set) rest -> Forall valid (ts ++ rest) ->
  consume_while buf set (ux pre st (ts ++ rest) sch bl log) =
  (Ok (buf ++ chars ts), ux (pre ++ utext ts) (stale st ts) rest sch bl log).
Proof.
  intros Hts Hs Hv. unfold consume_while. rewrite method_read.
  apply (consume_loop_ux (in_set set)); [|done..|apply turns_ux].
  intros. unfold has_more_tokens. rewrite at_end_ux, next_token_in_ux. by destruct rest0.
Qed.

Lemma consume_until_ux set ts buf pre st rest sch bl log :
  Forall (fun t => in_set set t = false) ts -> stops (fun t => negb (in_set set t)) rest ->
  Forall valid (ts ++ rest) ->
  consume_until buf set (ux pre st (ts ++ rest) sch bl log) =
  (Ok (buf ++ chars ts), ux (pre ++ utext ts) (stale st ts) rest sch bl log).
Proof.
  intros Hts Hs Hv. unfold consume_until. rewrite method_read.
  apply (consume_loop_ux (fun t => negb (in_set set t))); [| |done..|apply turns_ux].
  - intros. unfold has_more_tokens. rewrite at_end_ux, next_token_in_ux. by destruct rest0.
  - eapply Forall_impl; [exact Hts|]. by intros t ->.
Qed.

(** ** Methods that consume given tokens

    [goes m ts follow a cs]: at the tokens [ts] with what satisfies [follow] after them,
    [m] consumes [ts], returns [a] and makes the calls [cs]; it may leave states on the
    stack. *)
Definition goes {A} (m : uparser A) (ts : list UToken) (follow : list UToken -> Prop) (a : A)
    (cs : list uri_call) : Prop :=
  forall pre st rest sch bl log, Forall valid (ts ++ rest) -> follow rest ->
  exists extra, m (ux pre st (ts ++ rest) sch bl log) =
    (Ok a, ux (pre ++ utext ts) (stale st ts) rest sch (extra ++ bl) (log ++ cs)).

(** The same without a trace on the stack. *)
Definition runs {A} (m : uparser A) (ts : list UToken) (follow : list UToken -> Prop) (a : A)
    (cs : list uri_call) : Prop :=
  forall pre st rest sch bl log, Forall valid (ts ++ rest) -> follow rest ->
  m (ux pre st (ts ++ rest) sch bl log) =
    (Ok a, ux (pre ++ utext ts) (stale st ts) rest sch bl (log ++ cs)).

Section goes_rules.
Context {A B : Type}.

Lemma runs_goes (m : uparser A) ts F a cs : runs m ts F a cs -> goes m ts F a cs.
Proof using. intros H pre st rest sch bl log Hv HF. exists []. by apply H. Qed.

Lemma goes_bind (m : uparser A) (f : A -> uparser B) ts1 ts2 F G a b cs1 cs2 :
  goes m ts1 F a cs1 -> goes (f a) ts2 G b cs2 -> (forall rest, G rest -> F (ts2 ++ rest)) ->
  goes (m ≫= f) (ts1 ++ ts2) G b (cs1 ++ cs2).
Proof using.
  intros Hm Hf HF pre st rest sch bl log Hv HG. rewrite <- app_assoc in *.
  destruct (Hm pre st (ts2 ++ rest) sch bl log Hv (HF rest HG)) as [e1 H1].
  apply Forall_app in Hv as [_ Hv].
  destruct (Hf (pre ++ utext ts1) (stale st ts1) rest sch (e1 ++ bl) (log ++ cs1) Hv HG) as [e2 H2].
  exists (e2 ++ e1). rewrite (method_bind_ok H1), H2.
  by rewrite utext_app, stale_app, <- !app_assoc.
Qed.

Lemma runs_bind (m : uparser A) (f : A -> uparser B) ts1 ts2 F G a b cs1 cs2 :
  runs m ts1 F a cs1 -> runs (f a) ts2 G b cs2 -> (forall rest, G rest -> F (ts2 ++ rest)) ->
  runs (m ≫= f) (ts1 ++ ts2) G b (cs1 ++ cs2).
Proof using.
  intros Hm Hf HF pre st rest sch bl log Hv HG. rewrite <- app_assoc in *.
  specialize (Hm pre st (ts2 ++ rest) sch bl log Hv (HF rest HG)).
  apply Forall_app in Hv as [_ Hv].
  specialize (Hf (pre ++ utext ts1) (stale st ts1) rest sch bl (log ++ cs1) Hv HG).
  rewrite (method_bind_ok Hm), Hf. by rewrite utext_app, stale_app, <- !app_assoc.
Qed.
End goes_rules.

Lemma runs_ret {A} (a : A) F : runs (mret a) [] F a [].
Proof. intros pre st rest sch bl log _ _. unfold utext. simpl. by rewrite !app_nil_r. Qed.

Lemma runs_report c F : runs (report c) [] F tt [c].
Proof. intros pre st rest sch bl log _ _. unfold utext. simpl. by rewrite !app_nil_r. Qed.

Lemma runs_consume_while set ts buf : Forall (fun t => in_set set t = true) ts ->
  runs (consume_while buf set) ts (stops (in_set set)) (buf ++ chars ts) [].
Proof. intros H pre st rest sch bl log Hv HF. rewrite app_nil_r. by apply consume_while_ux. Qed.

Lemma runs_consume_until set ts buf : Forall (fun t => in_set set t = false) ts ->
  runs (consume_until buf set) ts (stops (fun t => negb (in_set set t))) (buf ++ chars ts) [].
Proof. intros H pre st rest sch bl log Hv HF. rewrite app_nil_r. by apply consume_until_ux. Qed.

Lemma runs_is_yes tt t F : get_type t = tt -> runs (uconsume_is tt) [t] F true [].
Proof.
  intros H pre st rest sch bl log Hv _. inversion Hv; subst. cbn [app].
  rewrite uconsume_is_ux by by constructor. rewrite decide_True by done.
  unfold utext. simpl. by rewrite !app_nil_r.
Qed.

Definition not_next (tt : token_type) : list UToken -> Prop := stops (fun t => bool_decide (get_type t = tt)).

Lemma runs_is_no tt : runs (uconsume_is tt) [] (not_next tt) false [].
Proof.
  intros pre st rest sch bl log Hv HF. cbn [app]. rewrite uconsume_is_ux by done.
  unfold utext. simpl. rewrite !app_nil_r. destruct rest as [|t rest]; [done|].
  simpl in HF. apply bool_decide_eq_false in HF. by rewrite decide_False.
Qed.

(** Reading a test of the next token. *)
Lemma runs_read {A} (g : URI_parser -> bool) (b : bool) (f : bool -> uparser A) ts F a cs :
  (forall pre st rest sch bl log, F rest -> g (ux pre st (ts ++ rest) sch bl log) = b) ->
  runs (f b) ts F a cs -> runs (read g ≫= f) ts F a cs.
Proof.
  intros Hg Hf pre st rest sch bl log Hv HF. rewrite method_read, Hg by done. by apply Hf.
Qed.

Lemma runs_follow {A} (m : uparser A) ts F G a cs :
  runs m ts F a cs -> (forall rest, G rest -> F rest) -> runs m ts G a cs.
Proof. intros H HG pre st rest sch bl log Hv HF. by apply H, HG. Qed.

(** A guarded body that keeps what it did, and one that gives up. *)
Lemma guarded_keeps {A} (body : uparser (bool * A)) ts F a cs :
  goes body ts F (true, a) cs -> goes (guarded_by body) ts F a cs.
Proof.
  intros H pre st rest sch bl log Hv HF. unfold guarded_by, push. rewrite method_update.
  destruct (H pre st rest sch (ustate pre st (ts ++ rest) :: bl) log Hv HF) as [e He].
  exists (e ++ [ustate pre st (ts ++ rest)]). unfold ux in He at 1. unfold ux at 1 2. simpl.
  rewrite (method_bind_ok He). by rewrite <- app_assoc.
Qed.

(** The body ends somewhere in the same input, with nothing added to the stack. *)
Definition gives_up {A} (body : uparser (bool * A)) (F : list UToken -> Prop) (a : A) : Prop :=
  forall pre st rest sch bl log, Forall valid rest -> F rest ->
  exists top, body (ux pre st rest sch bl log) =
    (Ok (false, a), mk_URI_parser (pre ++ utext rest) sch top bl log).

Lemma guarded_restores {A} (body : uparser (bool * A)) F a :
  gives_up body F a -> runs (guarded_by body) [] F a [].
Proof.
  intros H pre st rest sch bl log Hv HF. unfold guarded_by, push. rewrite method_update.
  destruct (H pre st rest sch (ustate pre st rest :: bl) log Hv HF) as [top Ht].
  unfold ux in Ht at 1. unfold ux at 1. cbn [app m_uri m_has_scheme m_top m_below m_log].
  rewrite (method_bind_ok Ht). unfold pop. simpl.
  unfold ux, stale. simpl. by rewrite !app_nil_r.
Qed.

(** ** Numbers, words and symbols *)

Definition sym (c : ascii) : UToken := mk_UToken c false.

Definition are (tt : token_type) (ts : list UToken) : Prop := Forall (fun t => get_type t = tt) ts.

Definition dec_value (ds : list UToken) : Z :=
  fold_left (fun a t => a * 10 + (code (m_char t) - 48)) ds 0.

Lemma digit_token t : get_type t = T_DIGIT ->
  ctf_digit (code (m_char t)) = true /\ digit_value 10 (code (m_char t)) = Some (code (m_char t) - 48).
Proof.
  unfold get_type. destruct (m_pct t); [done|]. destruct (isalpha _); [done|].
  destruct (symbol_type _ _) as [T|] eqn:E.
  { intros ->. exfalso. revert E. generalize (m_char t). intros c. unfold URI_TOKEN_LIST.
    simpl. repeat case_decide; congruence. }
  destruct (ctf_digit (code (m_char t))) eqn:E2; [|done]. intros _. split; [done|].
  unfold digit_value. rewrite E2. unfold ctf_digit in E2.
  rewrite (proj2 (Z.ltb_lt _ _)) by lia. done.
Qed.

Lemma strtol_digits_value ds : are T_DIGIT ds -> forall acc n,
  strtol_digits 10 (chars ds) acc n =
  (fold_left (fun a t => a * 10 + (code (m_char t) - 48)) ds acc, (n + length ds)%nat).
Proof.
  induction 1 as [|t ds Ht _ IH]; intros acc n; simpl; [by rewrite Nat.add_0_r|].
  destruct (digit_token t Ht) as [_ ->]. rewrite IH. f_equal. lia.
Qed.

Lemma dec_value_nonneg ds : are T_DIGIT ds -> 0 <= dec_value ds.
Proof.
  unfold dec_value. assert (H : forall acc, 0 <= acc -> are T_DIGIT ds ->
    0 <= fold_left (fun a t => a * 10 + (code (m_char t) - 48)) ds acc).
  { induction ds as [|t ds IH]; intros acc Ha Hd; [done|]. simpl. inversion Hd; subst.
    apply IH; [|done]. destruct (digit_token t ltac:(done)) as [Hc _]. unfold ctf_digit in Hc. lia. }
  by apply H.
Qed.

Lemma strtol_value ds : ds <> [] -> are T_DIGIT ds ->
  strtol (chars ds) 10 = (Z.min LONG_MAX (dec_value ds), length ds).
Proof.
  intros Hne Hd. destruct ds as [|t ds]; [done|]. unfold strtol.
  assert (Ht : get_type t = T_DIGIT) by by inversion Hd.
  destruct (digit_token t Ht) as [Hc _]. unfold ctf_digit in Hc.
  assert (Hs : spaces (chars (t :: ds)) = O).
  { simpl. unfold ctf_space. replace ((code (m_char t) =? 32) || _) with false by lia. done. }
  rewrite Hs. cbn [drop chars fmap list_fmap].
  rewrite (proj2 (Z.eqb_neq _ 45)), (proj2 (Z.eqb_neq _ 43)) by lia.
  change (m_char t :: (m_char <$> ds)) with (chars (t :: ds)).
  rewrite strtol_digits_value by done. by rewrite bool_decide_false.
Qed.

Lemma runs_convert_val ds F : ds <> [] -> are T_DIGIT ds -> dec_value ds <= 65535 ->
  runs (convert_val (chars ds)) [] F (dec_value ds) [].
Proof.
  intros Hne Hd Hv. unfold convert_val. rewrite strtol_value by done.
  pose proof (dec_value_nonneg ds Hd). rewrite Z.min_r by (unfold LONG_MAX; lia).
  rewrite (bool_decide_false (length ds = O)) by (by destruct ds). rewrite andb_false_r.
  replace ((65535 <? dec_value ds) || (dec_value ds <? 0)) with false by lia. apply runs_ret.
Qed.

(** A word, in any case. *)
Definition spells (w : str) (ts : list UToken) : Prop :=
  Forall2 (fun c t => compare_ci (m_char t) c = Ok true) w ts.

Lemma runs_word_loop w ts F : spells w ts ->
  runs (consume_word_loop compare_ci w) ts F (true, true) [].
Proof.
  induction 1 as [|c t w ts Hc _ IH]; [apply runs_ret|].
  intros pre st rest sch bl log Hv HF. cbn [consume_word_loop app].
  rewrite method_read. unfold has_more_tokens. rewrite at_end_ux, bool_decide_false by done. cbn [negb].
  rewrite method_read. unfold ux at 1, ustate at 1. cbn [default from_option id head m_top m_tok].
  rewrite Hc, method_pure. cbn [negb]. inversion Hv; subst.
  rewrite (method_bind_ok (uconsume_ux _ _ _ _ _ _ _ ltac:(done))).
  rewrite IH by done. by rewrite stale_cons, utext_cons, <- app_assoc.
Qed.

Lemma goes_word w ts F : spells w ts -> goes (consume_word_ci w) ts F true [].
Proof. intros H. apply guarded_keeps, runs_goes. by apply runs_word_loop. Qed.

Lemma runs_no_word c w : runs (consume_word_ci (c :: w)) []
  (fun rest => match rest with t :: _ => compare_ci (m_char t) c = Ok false | [] => True end) false [].
Proof.
  apply guarded_restores. intros pre st rest sch bl log Hv HF. eexists. cbn [consume_word_loop].
  rewrite method_read. unfold has_more_tokens. rewrite at_end_ux.
  destruct rest as [|t rest]; [done|]. rewrite bool_decide_false by done. cbn [negb].
  rewrite method_read. unfold ux at 1, ustate at 1. cbn [default from_option id head m_top m_tok].
  by rewrite HF.
Qed.

(** ** Addresses *)

Definition plain_chars : TokSet := unreserved ++ [T_POPEN; T_PCLOSE].
Definition path_chars : TokSet :=
  unreserved ++ [T_COLON; T_SLASH; T_QUESTION; T_SQOPEN; T_SQCLOSE; T_COMMA].

Definition all_in (set : TokSet) (ts : list UToken) : Prop := Forall (fun t => in_set set t = true) ts.

(** Text in parentheses, with at most one such text inside of it at every depth. *)
Inductive balanced :=
| B_flat (cs : list UToken)
| B_nest (cs : list UToken) (b : balanced) (cs' : list UToken).

Fixpoint balanced_tokens (b : balanced) : list UToken :=
  match b with
  | B_flat cs => sym "(" :: cs ++ [sym ")"]
  | B_nest cs b cs' => sym "(" :: cs ++ balanced_tokens b ++ cs' ++ [sym ")"]
  end.

(** The text without the outer parentheses. *)
Fixpoint balanced_chars (b : balanced) : str :=
  match b with
  | B_flat cs => chars cs
  | B_nest cs b cs' => chars cs ++ ["("%char] ++ balanced_chars b ++ [")"%char] ++ chars cs'
  end.

Fixpoint balanced_ok (b : balanced) : Prop :=
  match b with
  | B_flat cs => all_in path_chars cs
  | B_nest cs b cs' => all_in path_chars cs /\ balanced_ok b /\ all_in path_chars cs'
  end.

Inductive address :=
| A_plain (h : list UToken)                        (** a host, or a path *)
| A_name (h ds : list UToken)                      (** a host and its port, which can be empty *)
| A_digits (a h : list UToken) (port : option (list UToken))   (** a host that begins with digits *)
| A_ip4 (a b c d : list UToken) (port : option (list UToken))
| A_ip6 (cs : list UToken) (port : option (list UToken))
| A_path (b : balanced).                           (** a path in parentheses *)

Definition port_tokens (port : option (list UToken)) : list UToken :=
  match port with Some ds => sym ":" :: ds | None => [] end.

Definition address_tokens (a : address) : list UToken :=
  match a with
  | A_plain h => h
  | A_name h ds => h ++ sym ":" :: ds
  | A_digits a h port => a ++ h ++ port_tokens port
  | A_ip4 a b c d port => a ++ sym "." :: b ++ sym "." :: c ++ sym "." :: d ++ port_tokens port
  | A_ip6 cs port => sym "[" :: cs ++ sym "]" :: port_tokens port
  | A_path b => balanced_tokens b
  end.

Definition is_path (s : str) : bool :=
  let c := default "000"%char (s !! 0%nat) in
  bool_decide (c = "."%char) || bool_decide (c = "/"%char).

Definition is_pipe (s : str) : bool := bool_decide (take 4 s = lit "\\\\.\\").

Definition port_ok (ds : list UToken) : Prop := are T_DIGIT ds /\ dec_value ds <= 65535.
Definition opt_port_ok (port : option (list UToken)) : Prop :=
  match port with Some ds => port_ok ds | None => True end.

Definition host_start (h : list UToken) : Prop :=
  all_in plain_chars h /\
  match h with t :: _ => get_type t <> T_DIGIT /\ get_type t <> T_POPEN | [] => True end.

Definition hex_or_colon (t : UToken) : Prop :=
  m_pct t = false /\ (m_char t ∈ lit "0123456789ABCDEFabcdef:").

Definition address_ok (a : address) : Prop :=
  match a with
  | A_plain h => host_start h
  | A_name h ds => host_start h /\ port_ok ds
  | A_digits a h port => (a <> [] /\ are T_DIGIT a) /\ host_start h /\ not_next T_DOT h /\ opt_port_ok port
  | A_ip4 a b c d port =>
      (a <> [] /\ are T_DIGIT a) /\ (b <> [] /\ are T_DIGIT b) /\ (c <> [] /\ are T_DIGIT c) /\
      (d <> [] /\ are T_DIGIT d) /\ opt_port_ok port
  | A_ip6 cs port => cs <> [] /\ Forall hex_or_colon cs /\ opt_port_ok port
  | A_path b => balanced_ok b /\ is_path (balanced_chars b) || is_pipe (balanced_chars b) = true
  end.

(** What is to be found in an address: what it can be, its host and its port. *)
Definition address_host (a : address) : Addr_opts * str * str :=
  match a with
  | A_plain h => (mk_Addr_opts true true, chars h, [])
  | A_name h ds => (mk_Addr_opts true false, chars h, chars ds)
  | A_digits a h port =>
      (mk_Addr_opts true (bool_decide (port = None)), chars a ++ chars h, chars (default [] port))
  | A_ip4 a b c d port =>
      (mk_Addr_opts true false,
       chars a ++ "."%char :: chars b ++ "."%char :: chars c ++ "."%char :: chars d,
       chars (default [] port))
  | A_ip6 cs port => (mk_Addr_opts true false, chars cs, chars (default [] port))
  | A_path b => (mk_Addr_opts false true, balanced_chars b, [])
  end.

(** The call that reports an address. *)
Definition host_call (priority : Z) (host : str) (ds : list UToken) : uri_call :=
  match ds with [] => u_host priority host | _ => u_host_port priority host (dec_value ds) end.

Definition address_call (priority : Z) (a : address) : uri_call :=
  let '(_, host, _) := address_host a in
  match a with
  | A_plain _ | A_path _ =>
      if is_path host then u_socket priority host
      else if is_pipe host then u_pipe priority host else u_host priority host
  | A_name _ ds => host_call priority host ds
  | A_digits _ _ port | A_ip4 _ _ _ _ port | A_ip6 _ port => host_call priority host (default [] port)
  end.

(** What can follow an address. *)
Definition ends_address (rest : list UToken) : Prop :=
  match rest with
  | t :: _ => get_type t ∈ [T_SLASH; T_QUESTION; T_COMMA; T_SQCLOSE]
  | [] => True
  end.

Lemma ends_address_stops set rest : ends_address rest ->
  (forall tt, tt ∈ [T_SLASH; T_QUESTION; T_COMMA; T_SQCLOSE] -> has_token set tt = false) ->
  stops (in_set set) rest.
Proof. destruct rest as [|t rest]; [done|]. simpl. unfold in_set. auto. Qed.

Lemma ends_address_not tt rest : ends_address rest ->
  tt ∉ [T_SLASH; T_QUESTION; T_COMMA; T_SQCLOSE] -> not_next tt rest.
Proof.
  destruct rest as [|t rest]; [done|]. simpl. intros H Hn. apply bool_decide_eq_false.
  by intros <-.
Qed.

Lemma all_in_weaken set set' ts : all_in set ts -> set ⊆ set' -> all_in set' ts.
Proof.
  intros H Hs. eapply Forall_impl; [exact H|]. intros t. unfold in_set, has_token.
  rewrite !bool_decide_eq_true. apply Hs.
Qed.

Lemma are_in tt ts : are tt ts -> all_in [tt] ts.
Proof.
  intros H. eapply Forall_impl; [exact H|]. intros t Ht. simpl in Ht. unfold in_set, has_token.
  rewrite Ht. apply bool_decide_eq_true. by left.
Qed.

(** Sequencing of methods whose tokens are known, with the goal's lists given in any form. *)
Lemma runs_seq {A B} (m : uparser A) (f : A -> uparser B) ts ts1 ts2 F G a b cs :
  ts = ts1 ++ ts2 -> runs m ts1 F a [] -> runs (f a) ts2 G b cs ->
  (forall rest, G rest -> F (ts2 ++ rest)) -> runs (m ≫= f) ts G b cs.
Proof. intros -> H1 H2 HF. exact (runs_bind _ _ _ _ _ _ _ _ [] cs H1 H2 HF). Qed.

Lemma goes_seq {A B} (m : uparser A) (f : A -> uparser B) ts ts1 ts2 F G a b cs :
  ts = ts1 ++ ts2 -> goes m ts1 F a [] -> goes (f a) ts2 G b cs ->
  (forall rest, G rest -> F (ts2 ++ rest)) -> goes (m ≫= f) ts G b cs.
Proof. intros -> H1 H2 HF. exact (goes_bind _ _ _ _ _ _ _ _ [] cs H1 H2 HF). Qed.

Definition anything (rest : list UToken) : Prop := True.

Lemma not_next_sym tt t rest : get_type t <> tt -> not_next tt (t :: rest).
Proof. intros H. simpl. by apply bool_decide_eq_false. Qed.

Lemma path_np : path_chars ⊆ np_char.
Proof. unfold path_chars, np_char, gen_delims. simpl. set_solver. Qed.

Section balanced_runs.

Lemma balanced_tokens_head b : exists ts, balanced_tokens b = sym "(" :: ts.
Proof using. destruct b; by eexists. Qed.

Fixpoint depth (b : balanced) : nat :=
  match b with B_flat _ => 1 | B_nest _ b _ => S (depth b) end.

Lemma depth_tokens b : (depth b <= length (balanced_tokens b))%nat.
Proof using.
  induction b as [cs|cs b IH cs']; simpl; [lia|]. rewrite length_app, length_app. lia.
Qed.

(** The end of a balanced text: more characters and the closing parenthesis. *)
Lemma runs_balanced_end acc cs (inc : bool) :
  all_in path_chars cs ->
  runs (chars ← consume_while acc np_char;
        c ← uconsume_is T_PCLOSE;
        if negb c then uri_error (wlit "Expected closing ')'") else
        mret (if inc then chars ++ [")"%char] else chars)) (cs ++ [sym ")"]) anything
    (if inc then acc ++ chars cs ++ [")"%char] else acc ++ chars cs) [].
Proof using.
  intros Hcs. eapply (runs_seq _ _ _ cs [sym ")"]); [done| | |].
  - apply runs_consume_while. apply (all_in_weaken path_chars); [done|apply path_np].
  - eapply (runs_seq _ _ _ [sym ")"] []); [done|by apply (runs_is_yes T_PCLOSE _ anything)| |done].
    cbn [negb]. destruct inc; rewrite <- ?app_assoc; apply runs_ret.
  - intros rest _. done.
Qed.

Lemma runs_balanced b : balanced_ok b -> forall n acc (inc : bool), (depth b <= n)%nat ->
  runs (parse_balanced n acc inc) (balanced_tokens b) anything
    (if inc then acc ++ ["("%char] ++ balanced_chars b ++ [")"%char] else acc ++ balanced_chars b) [].
Proof using.
  induction b as [cs|cs b IH cs']; intros Hok [|n] acc inc Hn; simpl in Hn; try lia;
    cbn [parse_balanced balanced_tokens balanced_chars].
  - eapply (runs_seq _ _ _ [sym "("] (cs ++ [sym ")"])); [done|by apply (runs_is_yes T_POPEN _ anything)| |done].
    cbn [negb]. eapply (runs_seq _ _ _ cs [sym ")"]); [done| | |].
    + apply runs_consume_while. apply (all_in_weaken path_chars); [done|apply path_np].
    + apply (runs_read _ false).
      { intros. by rewrite next_token_is_ux. }
      eapply (runs_seq _ _ _ [] [sym ")"]); [done|apply (runs_ret _ anything)| |done].
      pose proof (runs_balanced_end ((if inc then acc ++ ["("%char] else acc) ++ chars cs) [] inc) as H.
      specialize (H ltac:(constructor)). simpl app in H.
      destruct inc; repeat rewrite <- app_assoc in H; repeat rewrite <- app_assoc;
        rewrite ?app_nil_r in H; exact H.
    + done.
  - destruct Hok as (Hcs & Hb & Hcs'). destruct (balanced_tokens_head b) as [ts Hts].
    eapply (runs_seq _ _ _ [sym "("] (cs ++ balanced_tokens b ++ cs' ++ [sym ")"]));
      [done|by apply (runs_is_yes T_POPEN _ anything)| |done].
    cbn [negb]. eapply (runs_seq _ _ _ cs (balanced_tokens b ++ cs' ++ [sym ")"])); [done| | |].
    + apply runs_consume_while. apply (all_in_weaken path_chars); [done|apply path_np].
    + apply (runs_read _ true).
      { intros. rewrite next_token_is_ux, Hts. done. }
      eapply (runs_seq _ _ _ (balanced_tokens b) (cs' ++ [sym ")"])); [done| | |].
      * apply (IH Hb n _ true). lia.
      * pose proof (runs_balanced_end
          (((if inc then acc ++ ["("%char] else acc) ++ chars cs) ++
           ["("%char] ++ balanced_chars b ++ [")"%char]) cs' inc Hcs') as H.
        destruct inc; repeat rewrite <- app_assoc in H; repeat rewrite <- app_assoc; exact H.
      * done.
    + intros rest _. rewrite Hts. done.
Qed.
End balanced_runs.

(** ** [parse_host] on the tokens of an address *)

Lemma runs_false_gives_up {A} (body : uparser (bool * A)) ts F a :
  runs body ts F (false, a) [] ->
  gives_up body (fun rest => exists rest', rest = ts ++ rest' /\ F rest') a.
Proof.
  intros H pre st rest sch bl log Hv (rest' & -> & HF). eexists.
  rewrite H by done. unfold ux. by rewrite app_nil_r, utext_app, <- app_assoc.
Qed.

Lemma plain_host : plain_chars ⊆ host_chars.
Proof. unfold plain_chars, host_chars. set_solver. Qed.

Lemma digits_stop rest : ends_address rest -> stops (in_set [T_DIGIT]) rest.
Proof.
  intros H. eapply ends_address_stops; [done|]. intros tt Htt. unfold has_token.
  apply bool_decide_eq_false. intros Hd%list_elem_of_singleton. subst. set_solver.
Qed.

Lemma host_stop rest : ends_address rest -> stops (in_set host_chars) rest.
Proof.
  intros H. eapply ends_address_stops; [done|]. intros tt Htt.
  set_unfold. by destruct Htt as [->|[->|[->|[->|[]]]]].
Qed.

Lemma sym_stops set c rest : has_token set (get_type (sym c)) = false -> stops (in_set set) (sym c :: rest).
Proof. done. Qed.

(** The port after an address. *)
Lemma runs_port (a : str) port : opt_port_ok port ->
  runs (colon ← uconsume_is T_COLON;
        port ← (if colon : bool then consume_while [] [T_DIGIT] else mret []);
        mret (true, Some (a, port))) (port_tokens port) ends_address
    (true, Some (a, chars (default [] port))) [].
Proof.
  destruct port as [ds|]; simpl.
  - intros [Hd _]. eapply (runs_seq _ _ _ [sym ":"] ds); [done|by apply (runs_is_yes T_COLON _ anything)| |done].
    eapply (runs_seq _ _ _ ds []); [by rewrite app_nil_r| |apply runs_ret|].
    + apply (runs_consume_while [T_DIGIT]). by apply (are_in T_DIGIT).
    + intros rest Hr. by apply digits_stop.
  - intros _. eapply (runs_seq _ _ _ [] []); [done|apply (runs_is_no T_COLON)| |].
    + eapply (runs_seq _ _ _ [] []); [done|apply (runs_ret _ anything)|apply runs_ret|done].
    + intros rest Hr. apply ends_address_not; [done|set_solver].
Qed.

(** No digit and no bracket first: a plain host. *)
Definition plain_first (h : list UToken) (c : list UToken -> Prop) (rest : list UToken) : Prop :=
  not_next T_DIGIT (h ++ rest) /\ c rest.

Lemma host_start_digit h rest : host_start h -> ends_address rest \/ (exists r, rest = sym ":" :: r) ->
  not_next T_DIGIT (h ++ rest) /\ not_next T_SQOPEN (h ++ rest) /\ not_next T_POPEN (h ++ rest).
Proof.
  intros [Hall Hh] Hr. destruct h as [|t h].
  - simpl. destruct Hr as [Hr|[r ->]]; [|by repeat split].
    repeat split; (apply ends_address_not; [done|set_solver]).
  - destruct Hh as [H1 H2]. simpl. repeat split; apply bool_decide_eq_false; [done| |done].
    intros E. inversion Hall as [|? ? Ht _]; subst. unfold in_set in Ht. by rewrite E in Ht.
Qed.

Lemma runs_ip4_plain h F (colon : bool) : host_start h ->
  (forall rest, F rest -> stops (in_set host_chars) rest) ->
  (forall rest, F rest -> not_next T_DIGIT (h ++ rest)) ->
  (forall pre st rest sch bl log, F rest ->
     next_token_is T_COLON (ux pre st rest sch bl log) = colon) ->
  runs parse_ip4 h F (if colon then Some (chars h) else None) [].
Proof.
  intros [Hh _] Hs Hd Hc. unfold parse_ip4.
  eapply (runs_seq _ _ _ [] h _ _ ([], 4%nat)); [done| | |].
  - cbn [ip4_loop]. apply (runs_read _ false _ _ (not_next T_DIGIT)); [|apply runs_ret].
    intros pre st rest sch bl log Hr. rewrite next_token_is_ux. cbn [app].
    destruct rest as [|t rest]; [done|]. simpl in Hr. rewrite bool_decide_eq_false in Hr |- *. congruence.
  - eapply (runs_seq _ _ _ h []); [by rewrite app_nil_r| | |].
    + apply runs_consume_while. apply (all_in_weaken plain_chars); [done|apply plain_host].
    + apply (runs_read _ colon); [|apply runs_ret]. intros. by apply Hc.
    + done.
  - done.
Qed.

Definition after_colon (rest : list UToken) : Prop := exists r, rest = sym ":" :: r.

Lemma runs_parse_plain h : host_start h ->
  runs parse_host h ends_address (address_host (A_plain h)) [].
Proof.
  intros Hh. unfold parse_host. apply (runs_read _ false).
  { intros pre st rest sch bl log Hr. rewrite next_token_is_ux.
    destruct (host_start_digit h rest Hh (or_introl Hr)) as (_ & _ & H).
    destruct (h ++ rest) as [|t l]; [done|]. simpl in H. rewrite bool_decide_eq_false in H |- *. congruence. }
  eapply (runs_seq _ _ _ [] h); [done| | |].
  - unfold parse_ip_address. apply guarded_restores, (runs_false_gives_up _ h ends_address).
    eapply (runs_seq _ _ _ [] h); [done|apply (runs_is_no T_SQOPEN)| |].
    + eapply (runs_seq _ _ _ h [] _ _ None); [by rewrite app_nil_r| |apply runs_ret|].
      * apply (runs_ip4_plain h ends_address false); [done|apply host_stop| |].
        -- intros rest Hr. by apply (host_start_digit h rest Hh (or_introl Hr)).
        -- intros pre st rest sch bl log Hr. rewrite next_token_is_ux.
           destruct rest as [|t rest]; [done|]. simpl in Hr. apply bool_decide_eq_false.
           intros E. rewrite <- E in Hr. set_solver.
      * done.
    + intros rest Hr. by apply (host_start_digit h rest Hh (or_introl Hr)).
  - eapply (runs_seq _ _ _ h []); [by rewrite app_nil_r| |apply runs_ret|].
    + apply runs_consume_while. apply (all_in_weaken plain_chars); [apply Hh|apply plain_host].
    + intros rest Hr. by apply host_stop.
  - intros rest Hr. by exists rest.
Qed.

(** The start of [parse_host] at an address that is not in parentheses. *)
Lemma goes_parse_ip ts F host port cs :
  (forall rest, F rest -> not_next T_POPEN (ts ++ rest)) ->
  goes parse_ip_address ts F (Some (host, port)) cs ->
  goes parse_host ts F (mk_Addr_opts true false, host, port) cs.
Proof.
  intros Hp H pre st rest sch bl log Hv HF. unfold parse_host. rewrite method_read, next_token_is_ux.
  assert (Hb : match ts ++ rest with t :: _ => bool_decide (T_POPEN = get_type t) | [] => false end = false).
  { specialize (Hp rest HF). destruct (ts ++ rest) as [|t l]; [done|]. simpl in Hp.
    rewrite bool_decide_eq_false in Hp |- *. congruence. }
  rewrite Hb. destruct (H pre st rest sch bl log Hv HF) as [e He]. exists e.
  by rewrite (method_bind_ok He).
Qed.

Lemma goes_parse_name h ds : host_start h -> port_ok ds ->
  goes parse_host (address_tokens (A_name h ds)) ends_address (address_host (A_name h ds)) [].
Proof.
  intros Hh Hp. cbn [address_tokens address_host].
  assert (Hst : forall rest, not_next T_DIGIT (h ++ sym ":" :: rest) /\
    not_next T_SQOPEN (h ++ sym ":" :: rest) /\ not_next T_POPEN (h ++ sym ":" :: rest)).
  { intros rest. apply host_start_digit; [done|]. right. by eexists. }
  apply goes_parse_ip.
  { intros rest _. rewrite <- app_assoc. apply Hst. }
  apply guarded_keeps, runs_goes.
  eapply (runs_seq _ _ _ [] (h ++ sym ":" :: ds)); [done|apply (runs_is_no T_SQOPEN)| |].
  - eapply (runs_seq _ _ _ h (sym ":" :: ds) after_colon _ (Some (chars h))); [done| | |].
    + apply (runs_ip4_plain h after_colon true); [done|by intros rest [r ->]| |].
      * intros rest [r ->]. apply Hst.
      * intros pre st rest sch bl log [r ->]. by rewrite next_token_is_ux.
    + exact (runs_port (chars h) (Some ds) Hp).
    + intros rest _. by eexists.
  - intros rest _. rewrite <- app_assoc. apply Hst.
Qed.

(** A host that begins with digits: [parse_ip4] takes the digits and a dot behind them, if
    there is one, and then the rest. *)
Lemma digits_not a rest tt : a <> [] -> are T_DIGIT a -> tt <> T_DIGIT -> not_next tt (a ++ rest).
Proof.
  intros Hne Ha Htt. destruct a as [|t a]; [done|]. inversion Ha as [|? ? Ht]; subst.
  simpl. apply bool_decide_eq_false. by rewrite Ht.
Qed.

Lemma runs_ip4_digits a (dot : bool) h (F : list UToken -> Prop) (colon : bool) : a <> [] -> are T_DIGIT a -> host_start h ->
  (forall rest, F rest -> if dot then True else not_next T_DOT (h ++ rest)) ->
  (forall rest, F rest -> stops (in_set host_chars) rest) ->
  (forall rest, F rest -> not_next T_DIGIT (h ++ rest)) ->
  (forall pre st rest sch bl log, F rest ->
     next_token_is T_COLON (ux pre st rest sch bl log) = colon) ->
  runs parse_ip4 (a ++ (if dot : bool then [sym "."] else []) ++ h) F
    (if colon then Some (chars a ++ chars h) else None) [].
Proof.
  intros Hne Ha Hh Hdot Hs Hd Hc. unfold parse_ip4.
  eapply (runs_seq _ _ _ (a ++ (if dot then [sym "."] else [])) h _ _ (chars a, 3%nat));
    [by rewrite <- app_assoc| | |].
  - cbn [ip4_loop]. apply (runs_read _ true _ _
      (fun rest => not_next T_DIGIT rest /\ if dot then True else not_next T_DOT rest)).
    { intros. rewrite next_token_is_ux. destruct a as [|t a]; [done|]. inversion Ha as [|? ? Ht]; subst.
      cbn [app]. by rewrite Ht. }
    cbn [negb]. eapply (runs_seq _ _ _ a (if dot then [sym "."] else [])); [done| | |].
    + apply (runs_consume_while [T_DIGIT]). by apply (are_in T_DIGIT).
    + destruct dot.
      * eapply (runs_seq _ _ _ [sym "."] []); [done|by apply (runs_is_yes T_DOT _ anything)| |done].
        apply (runs_read _ false _ _ (fun rest => not_next T_DIGIT rest /\ True)); [|apply runs_ret].
        intros pre st rest sch bl log [Hr _]. rewrite next_token_is_ux. cbn [app].
        destruct rest as [|t rest]; [done|]. simpl in Hr. rewrite bool_decide_eq_false in Hr |- *. congruence.
      * eapply (runs_seq _ _ _ [] []); [done|apply (runs_is_no T_DOT)|apply runs_ret|by intros rest [_ H]].
    + intros rest [H _]. destruct dot; [done|]. cbn [app]. destruct rest as [|t rest]; [done|].
      simpl in H |- *. apply bool_decide_eq_false in H. unfold in_set, has_token.
      apply bool_decide_eq_false. by intros E%list_elem_of_singleton.
  - eapply (runs_seq _ _ _ h []); [by rewrite app_nil_r| | |].
    + apply runs_consume_while. apply (all_in_weaken plain_chars); [apply Hh|apply plain_host].
    + apply (runs_read _ colon); [|apply runs_ret]. intros. by apply Hc.
    + done.
  - intros rest Hr. split; [by apply Hd|]. specialize (Hdot rest Hr). by destruct dot.
Qed.

(** With a port it is an internet address; a dot behind the digits is lost. *)
Lemma goes_digits_port a dot h ds : a <> [] -> are T_DIGIT a -> host_start h ->
  (if dot : bool then True else not_next T_DOT h) -> port_ok ds ->
  goes parse_host (a ++ (if dot then [sym "."] else []) ++ h ++ port_tokens (Some ds)) ends_address
    (mk_Addr_opts true false, chars a ++ chars h, chars ds) [].
Proof.
  intros Hne Ha Hh Hdot Hp. cbn [port_tokens].
  apply goes_parse_ip; [intros rest _; rewrite <- app_assoc; by apply digits_not|].
  apply guarded_keeps, runs_goes.
  eapply (runs_seq _ _ _ [] _);
    [done|apply (runs_is_no T_SQOPEN)| |intros rest _; rewrite <- app_assoc; by apply digits_not].
  eapply (runs_seq _ _ _ (a ++ (if dot then [sym "."] else []) ++ h) (sym ":" :: ds) after_colon _
    (Some (chars a ++ chars h))).
  - by rewrite <- !app_assoc.
  - apply (runs_ip4_digits a dot h after_colon true); try done.
    + intros rest [r ->]. destruct dot; [done|]. by destruct h.
    + by intros rest [r ->].
    + intros rest [r ->]. apply (host_start_digit h _ Hh). right. by eexists.
    + intros pre st rest sch bl log [r ->]. by rewrite next_token_is_ux.
  - exact (runs_port (chars a ++ chars h) (Some ds) Hp).
  - intros rest _. by eexists.
Qed.

Lemma digits_host a : are T_DIGIT a -> all_in host_chars a.
Proof. intros Ha. apply (all_in_weaken [T_DIGIT]); [by apply are_in|]. unfold host_chars, unreserved. set_solver. Qed.

Lemma runs_digits_plain a h : a <> [] -> are T_DIGIT a -> host_start h -> not_next T_DOT h ->
  runs parse_host (a ++ h) ends_address (mk_Addr_opts true true, chars a ++ chars h, []) [].
Proof.
  intros Hne Ha Hh Hdot. unfold parse_host. apply (runs_read _ false).
  { intros pre st rest sch bl log Hr. rewrite next_token_is_ux, <- app_assoc.
    pose proof (digits_not a (h ++ rest) T_POPEN Hne Ha ltac:(done)) as H.
    destruct (a ++ h ++ rest) as [|t l]; [done|]. simpl in H. rewrite bool_decide_eq_false in H |- *. congruence. }
  assert (Hrest : forall rest, ends_address rest -> not_next T_DOT (h ++ rest)).
  { intros rest Hr. destruct h as [|t h]; [|done]. apply ends_address_not; [done|set_solver]. }
  eapply (runs_seq _ _ _ [] (a ++ h)); [done| | |].
  - unfold parse_ip_address. apply guarded_restores, (runs_false_gives_up _ (a ++ h) ends_address).
    eapply (runs_seq _ _ _ [] (a ++ h)); [done|apply (runs_is_no T_SQOPEN)| |].
    + eapply (runs_seq _ _ _ (a ++ h) [] _ _ None); [by rewrite app_nil_r| |apply runs_ret|].
      * apply (runs_ip4_digits a false h ends_address false); [done..|exact Hrest|apply host_stop| |].
        -- intros rest Hr. by apply (host_start_digit h rest Hh (or_introl Hr)).
        -- intros pre st rest sch bl log Hr. rewrite next_token_is_ux.
           destruct rest as [|t rest]; [done|]. simpl in Hr. apply bool_decide_eq_false.
           intros E. rewrite <- E in Hr. set_solver.
      * done.
    + intros rest Hr. rewrite <- app_assoc. by apply digits_not.
  - rewrite <- chars_app. eapply (runs_seq _ _ _ (a ++ h) []); [by rewrite app_nil_r| |apply runs_ret|].
    + apply runs_consume_while, Forall_app. split; [by apply digits_host|].
      apply (all_in_weaken plain_chars); [apply Hh|apply plain_host].
    + intros rest Hr. by apply host_stop.
  - intros rest Hr. by exists rest.
Qed.

Lemma goes_parse_digits a h port : address_ok (A_digits a h port) ->
  goes parse_host (address_tokens (A_digits a h port)) ends_address (address_host (A_digits a h port)) [].
Proof.
  intros ((Hne & Ha) & Hh & Hdot & Hp). cbn [address_tokens address_host]. destruct port as [ds|].
  - by apply (goes_digits_port a false h ds).
  - cbn [port_tokens]. rewrite app_nil_r. apply runs_goes. by apply runs_digits_plain.
Qed.

(** One group of digits and the dot after it. *)
Lemma runs_group n (first : bool) addr ds ts F a :
  ds <> [] -> are T_DIGIT ds ->
  runs (ip4_loop (S n) false ((if first then addr else addr ++ ["."%char]) ++ chars ds)) ts F a [] ->
  runs (ip4_loop (S (S n)) first addr) (ds ++ sym "." :: ts) F a [].
Proof.
  intros Hne Hd Hrest. cbn [ip4_loop]. apply (runs_read _ true).
  { intros. rewrite next_token_is_ux. destruct ds as [|t ds]; [done|]. inversion Hd as [|? ? Ht]; subst.
    cbn [app]. by rewrite Ht. }
  cbn [negb]. eapply (runs_seq _ _ _ ds (sym "." :: ts)); [done| | |].
  - apply (runs_consume_while [T_DIGIT]). by apply (are_in T_DIGIT).
  - eapply (runs_seq _ _ _ [sym "."] ts); [done|by apply (runs_is_yes T_DOT _ anything)|exact Hrest|done].
  - done.
Qed.

(** The last of four groups. *)
Lemma runs_last_group addr ds F :
  ds <> [] -> are T_DIGIT ds -> (forall rest, F rest -> stops (in_set [T_DIGIT]) rest) ->
  runs (ip4_loop 1 false addr) ds F (addr ++ "."%char :: chars ds, O) [].
Proof.
  intros Hne Hd HF. cbn [ip4_loop]. apply (runs_read _ true).
  { intros. rewrite next_token_is_ux. destruct ds as [|t ds]; [done|]. inversion Hd as [|? ? Ht]; subst.
    cbn [app]. by rewrite Ht. }
  cbn [negb]. eapply (runs_seq _ _ _ ds []); [by rewrite app_nil_r| | |].
  - apply (runs_consume_while [T_DIGIT]). by apply (are_in T_DIGIT).
  - rewrite <- app_assoc. apply runs_ret.
  - done.
Qed.

Lemma goes_parse_ip4 a b c d port : address_ok (A_ip4 a b c d port) ->
  goes parse_host (address_tokens (A_ip4 a b c d port)) ends_address
    (address_host (A_ip4 a b c d port)) [].
Proof.
  intros ((Ha & Had) & (Hb & Hbd) & (Hc & Hcd) & (Hd & Hdd) & Hport).
  cbn [address_tokens address_host].
  assert (Hst : forall rest tt, tt <> T_DIGIT -> not_next tt (a ++ rest)).
  { intros rest tt Htt. destruct a as [|t a]; [done|]. inversion Had as [|? ? Ht]; subst.
    simpl. apply bool_decide_eq_false. by rewrite Ht. }
  apply goes_parse_ip; [intros rest _; rewrite <- app_assoc; by apply Hst|].
  apply guarded_keeps, runs_goes.
  eapply (runs_seq _ _ _ [] _); [done|apply (runs_is_no T_SQOPEN)| |intros rest _; rewrite <- app_assoc; by apply Hst].
  set (F4 := fun rest => stops (in_set [T_DIGIT]) rest).
  eapply (runs_seq _ _ _ (a ++ sym "." :: b ++ sym "." :: c ++ sym "." :: d) (port_tokens port) F4 _
    (Some (chars a ++ "."%char :: chars b ++ "."%char :: chars c ++ "."%char :: chars d))).
  - repeat (rewrite <- ?app_assoc; cbn [app]). done.
  - unfold parse_ip4. eapply (runs_seq _ _ _ (a ++ sym "." :: b ++ sym "." :: c ++ sym "." :: d) [] F4 _
      (chars a ++ "."%char :: chars b ++ "."%char :: chars c ++ "."%char :: chars d, O));
      [by rewrite app_nil_r| |apply runs_ret|done].
    apply (runs_group 2 true []); [done..|]. apply (runs_group 1 false); [done..|].
    apply (runs_group 0 false); [done..|]. cbn [app].
    pose proof (runs_last_group ((((chars a ++ ["."%char]) ++ chars b) ++ ["."%char]) ++ chars c) d F4 Hd Hdd
      ltac:(done)) as H.
    repeat (rewrite <- ?app_assoc in H; cbn [app] in H).
    repeat (rewrite <- ?app_assoc; cbn [app]). exact H.
  - exact (runs_port _ port Hport).
  - intros rest Hr. destruct port; [done|]. by apply digits_stop.
Qed.

(** IPv6 addresses *)

Lemma hex_or_colon_type t : hex_or_colon t ->
  in_set [T_DIGIT; T_CHAR; T_COLON] t = true /\ get_type t <> T_SQCLOSE /\
  (get_type t = T_CHAR -> m_char t ∈ lit "ABCDEFabcdef").
Proof.
  destruct t as [c p]. intros [Hp Hc]. simpl in Hp, Hc. subst. revert Hc.
  assert (H : Forall (fun c => in_set [T_DIGIT; T_CHAR; T_COLON] (mk_UToken c false) = true /\
    get_type (mk_UToken c false) <> T_SQCLOSE /\
    (get_type (mk_UToken c false) = T_CHAR -> bool_decide (c ∈ lit "ABCDEFabcdef") = true))
    (lit "0123456789ABCDEFabcdef:")).
  { lits. forall_list ltac:(by repeat split). }
  intros Hc. apply (proj1 (Forall_forall _ _) H) in Hc as (H1 & H2 & H3).
  repeat split; [done|done|]. intros E. exact (bool_decide_eq_true_1 _ (H3 E)).
Qed.

Lemma ip6_loop_ux cs : Forall hex_or_colon cs ->
  forall n addr pre st rest sch bl log, (length cs < n)%nat ->
  stops (in_set [T_DIGIT; T_CHAR; T_COLON]) rest -> Forall valid (cs ++ rest) ->
  ip6_loop n addr (ux pre st (cs ++ rest) sch bl log) =
  (Ok (Some (addr ++ chars cs)), ux (pre ++ utext cs) (stale st cs) rest sch bl log).
Proof.
  induction 1 as [|t cs Ht Hcs IH]; intros [|n] addr pre st rest sch bl log Hn Hs Hv;
    simpl in Hn; try lia; cbn [ip6_loop app]; rewrite method_read, next_token_in_ux.
  - destruct rest as [|t rest]; [|simpl in Hs; unfold in_set in Hs; rewrite Hs]; cbn [negb];
      unfold utext; simpl; by rewrite !app_nil_r.
  - destruct (hex_or_colon_type t Ht) as (H1 & _ & H3). unfold in_set in H1. rewrite H1. cbn [negb].
    inversion Hv; subst. rewrite (method_bind_ok (uconsume_ux _ _ _ _ _ _ _ ltac:(done))).
    destruct Ht as [Hp _]. rewrite Hp.
    assert (Hb : bool_decide (get_type t = T_CHAR) && negb (bool_decide (m_char t ∈ lit "ABCDEFabcdef")) = false).
    { destruct (bool_decide (get_type t = T_CHAR)) eqn:E; [|done]. apply bool_decide_eq_true in E.
      rewrite bool_decide_true by auto. done. }
    rewrite Hb, IH by (done || lia). by rewrite stale_cons, utext_cons, <- !app_assoc.
Qed.

Lemma goes_parse_ip6 cs port : address_ok (A_ip6 cs port) ->
  goes parse_host (address_tokens (A_ip6 cs port)) ends_address (address_host (A_ip6 cs port)) [].
Proof.
  intros (Hne & Hcs & Hport). cbn [address_tokens address_host].
  apply goes_parse_ip; [done|]. apply guarded_keeps, runs_goes.
  eapply (runs_seq _ _ _ [sym "["] (cs ++ sym "]" :: port_tokens port));
    [done|by apply (runs_is_yes T_SQOPEN _ anything)| |done].
  eapply (runs_seq _ _ _ (cs ++ [sym "]"]) (port_tokens port) anything _ (Some (chars cs)));
    [by rewrite <- app_assoc| |exact (runs_port _ port Hport)|done].
  unfold parse_ip6. intros pre st rest sch bl log Hv HF. rewrite method_read.
  rewrite <- app_assoc in Hv |- *. cbn [app] in Hv |- *.
  rewrite (method_bind_ok (ip6_loop_ux cs Hcs _ [] pre st (sym "]" :: rest) sch bl log
    (turns_ux _ _ _ _ _ _ _) eq_refl Hv)). cbn [app].
  destruct cs as [|t cs]; [done|]. cbn [chars fmap list_fmap].
  apply Forall_app in Hv as [_ Hv].
  pose proof (runs_is_yes T_SQCLOSE (sym "]") anything eq_refl (pre ++ utext (t :: cs))
    (stale st (t :: cs)) rest sch bl log Hv I) as H.
  cbn [app] in H. rewrite (method_bind_ok H).
  by rewrite utext_app, stale_app, <- app_assoc.
Qed.

Lemma runs_parse_path b : balanced_ok b ->
  runs parse_host (address_tokens (A_path b)) anything (address_host (A_path b)) [].
Proof.
  intros Hb. unfold parse_host. cbn [address_tokens address_host].
  destruct (balanced_tokens_head b) as [ts Hts]. apply (runs_read _ true).
  { intros. rewrite next_token_is_ux, Hts. done. }
  intros pre st rest sch bl log Hv HF. rewrite method_read.
  assert (Hd : (depth b <= uturns (ux pre st (balanced_tokens b ++ rest) sch bl log))%nat).
  { pose proof (depth_tokens b). pose proof (turns_ux pre st (balanced_tokens b) rest sch bl log). lia. }
  rewrite (method_bind_ok (runs_balanced b Hb _ [] false Hd pre st rest sch bl log Hv I)). done.
Qed.

Lemma goes_parse_host a : address_ok a ->
  goes parse_host (address_tokens a) ends_address (address_host a) [].
Proof.
  destruct a as [h|h ds|a h ds|a b c d port|cs port|b]; intros Ha.
  - apply runs_goes. by apply runs_parse_plain.
  - destruct Ha. by apply goes_parse_name.
  - by apply goes_parse_digits.
  - by apply goes_parse_ip4.
  - by apply goes_parse_ip6.
  - apply runs_goes. destruct Ha as [Hb _].
    eapply runs_follow; [by apply runs_parse_path|done].
Qed.

(** ** Reporting an address *)

Definition report_host (priority : Z) (a : address) : uparser bool :=
  let '(opts, host, port) := address_host a in report_address opts priority host port.

Lemma runs_report_then {A} c (a : A) F : runs (report c;; mret a) [] F a [c].
Proof. intros pre st rest sch bl log _ _. unfold utext. simpl. by rewrite !app_nil_r. Qed.

Lemma runs_report_ip priority host ds F : port_ok ds ->
  runs (report_address (mk_Addr_opts true false) priority host (chars ds)) [] F true
    [host_call priority host ds].
Proof.
  intros [Hd Hv]. unfold report_address, host_call. cbn [ADDR_OTHER ADDR_IP andb].
  destruct ds as [|t ds]; [apply runs_report_then|]. cbn [chars fmap list_fmap].
  change (m_char t :: (m_char <$> ds)) with (chars (t :: ds)).
  eapply (runs_seq _ _ [] [] []); [done|by apply (runs_convert_val _ anything)|apply runs_report_then|done].
Qed.

(** A digit starts no path. *)
Lemma digits_no_path a h : a <> [] -> are T_DIGIT a ->
  is_path (chars a ++ chars h) = false /\ is_pipe (chars a ++ chars h) = false.
Proof.
  destruct a as [|t a]; [done|]. intros _ Ha. inversion Ha as [|? ? Ht]; subst.
  destruct (digit_token t Ht) as [Hc _]. unfold is_path, is_pipe. cbn [chars fmap list_fmap app].
  split.
  - apply orb_false_iff. split; apply bool_decide_eq_false; simpl; intros E; by rewrite E in Hc.
  - apply bool_decide_eq_false. intros E. apply (f_equal head) in E. change (Some (m_char t) = Some "\"%char) in E.
    injection E as E. by rewrite E in Hc.
Qed.

Lemma runs_report_host priority a F : address_ok a ->
  runs (report_host priority a) [] F true [address_call priority a].
Proof.
  unfold report_host, address_call.
  assert (Hopt : forall port, opt_port_ok port -> port_ok (default [] port)).
  { intros [ds|] H; [done|]. split; [constructor|done]. }
  destruct a as [h|h ds|a h port|a b c d port|cs port|b]; cbn [address_host].
  - intros _. unfold report_address. cbn [ADDR_OTHER ADDR_IP andb]. fold (is_path (chars h)).
    destruct (is_path (chars h)); [apply runs_report_then|]. fold (is_pipe (chars h)).
    destruct (is_pipe (chars h)); apply runs_report_then.
  - intros [_ Hp]. by apply runs_report_ip.
  - intros ((Hne & Ha) & _ & _ & Hp). destruct port as [ds|]; [by apply runs_report_ip|].
    unfold report_address. cbn [ADDR_OTHER ADDR_IP andb default from_option id].
    destruct (digits_no_path a h Hne Ha) as [H1 H2].
    rewrite bool_decide_true by done. unfold is_path in H1. rewrite H1. cbn [andb]. unfold is_pipe in H2. rewrite H2.
    apply runs_report_then.
  - intros (_ & _ & _ & _ & Hp). by apply runs_report_ip, Hopt.
  - intros (_ & _ & Hp). by apply runs_report_ip, Hopt.
  - intros [_ Hb]. unfold report_address. cbn [ADDR_OTHER ADDR_IP andb].
    fold (is_path (balanced_chars b)). fold (is_pipe (balanced_chars b)).
    destruct (is_path (balanced_chars b)); [apply runs_report_then|].
    destruct (is_pipe (balanced_chars b)); [apply runs_report_then|done].
Qed.

(** ** Entries of a host list *)

Inductive entry :=
| E_host (a : address)
| E_priority (w : list UToken) (a : address) (w' : list UToken) (ds : list UToken).

Definition entry_tokens (e : entry) : list UToken :=
  match e with
  | E_host a => address_tokens a
  | E_priority w a w' ds =>
      sym "(" :: w ++ sym "=" :: address_tokens a ++ sym "," :: w' ++ sym "=" :: ds ++ [sym ")"]
  end.

(** A priority whose successor is an [unsigned short]. *)
Definition priority_ok (ds : list UToken) : Prop := are T_DIGIT ds /\ dec_value ds < 65535.

Definition entry_ok (e : entry) : Prop :=
  match e with
  | E_host a => address_ok a
  | E_priority w a w' ds =>
      spells (lit "address") w /\ address_ok a /\ spells (lit "priority") w' /\ ds <> [] /\ priority_ok ds
  end.

(** Priorities are reported one higher: 0 stands for no priority. *)
Definition entry_call (e : entry) : uri_call :=
  match e with
  | E_host a => address_call 0 a
  | E_priority _ a _ ds => address_call (1 + dec_value ds) a
  end.

Lemma goes_report a prio (F : list UToken -> Prop) : address_ok a ->
  (forall rest, F rest -> ends_address rest) ->
  goes ('(opts, host, port) ← parse_host; report_address opts prio host port;; mret tt)
    (address_tokens a) F tt [address_call prio a].
Proof.
  intros Ha HF. eapply (goes_seq _ _ _ (address_tokens a) []); [by rewrite app_nil_r|by apply goes_parse_host| |exact HF].
  pose proof (runs_report_host prio a F Ha) as H. unfold report_host in H.
  destruct (address_host a) as [[opts host] port]. apply runs_goes.
  intros pre st rest sch bl log Hv Hf. specialize (H pre st rest sch bl log Hv Hf).
  by rewrite (method_bind_ok H).
Qed.

Lemma path_first b : is_path (balanced_chars b) || is_pipe (balanced_chars b) = true ->
  exists t ts, balanced_tokens b = sym "(" :: t :: ts /\ compare_ci (m_char t) "a" = Ok false.
Proof.
  assert (H : forall c s, is_path (c :: s) || is_pipe (c :: s) = true -> compare_ci c "a" = Ok false /\ c <> "("%char).
  { intros c s Hc. unfold is_path, is_pipe in Hc. simpl in Hc.
    apply orb_true_iff in Hc as [Hc|Hc%bool_decide_eq_true].
    - apply orb_true_iff in Hc as [->%bool_decide_eq_true| ->%bool_decide_eq_true]; done.
    - apply (f_equal head) in Hc. change (Some c = Some "\"%char) in Hc. by injection Hc as ->. }
  destruct b as [[|t cs]|[|t cs] b cs']; cbn [balanced_chars chars fmap list_fmap app]; intros Hb.
  - by vm_compute in Hb.
  - apply H in Hb as [Hb _]. by eexists _, _.
  - by apply H in Hb as [_ []].
  - apply H in Hb as [Hb _]. by eexists _, _.
Qed.

(** An address without a priority is not taken for one with it. *)
Lemma runs_no_priority a rest0 {A} (k : uparser A) : address_ok a ->
  runs (guarded_by (
    a ← uconsume_is T_POPEN;
    b ← (if a : bool then consume_word_ci (lit "address") else mret false);
    c ← (if b : bool then uconsume_is T_EQ else mret false);
    if c : bool then k;; mret (true, true) else mret (false, false))) []
    (fun rest => rest = address_tokens a ++ rest0 /\ ends_address rest0) false [].
Proof.
  intros Ha. apply guarded_restores.
  assert (Hback : forall m : uparser bool, runs m [] anything false [] ->
    runs (b ← m; c ← (if b : bool then uconsume_is T_EQ else mret false);
          if c : bool then k;; mret (true, true) else mret (false, false)) [] anything (false, false) []).
  { intros m Hm. eapply (runs_seq _ _ [] [] []); [done|exact Hm| |done].
    eapply (runs_seq _ _ [] [] []); [done|apply (runs_ret _ anything)|apply runs_ret|done]. }
  assert (Hno : (forall rest, ends_address rest -> not_next T_POPEN (address_tokens a ++ rest)) ->
    gives_up (a ← uconsume_is T_POPEN;
      b ← (if a : bool then consume_word_ci (lit "address") else mret false);
      c ← (if b : bool then uconsume_is T_EQ else mret false);
      if c : bool then k;; mret (true, true) else mret (false, false))
      (fun rest => rest = address_tokens a ++ rest0 /\ ends_address rest0) false).
  { intros Hn pre st rest sch bl log Hv [-> Hr].
    refine (runs_false_gives_up _ [] (not_next T_POPEN) false _ pre st _ sch bl log Hv _).
    - eapply (runs_seq _ _ _ [] []); [done|apply (runs_is_no T_POPEN)| |done].
      eapply runs_follow; [apply (Hback (mret false)), runs_ret|done].
    - eexists. split; [done|]. by apply Hn. }
  assert (Hdig : forall a (Ha : a <> [] /\ are T_DIGIT a) rest, not_next T_POPEN (a ++ rest)).
  { intros [|t a'] [Hne Hd] rest; [done|]. simpl. apply bool_decide_eq_false. inversion Hd as [|? ? Ht]; subst. by rewrite Ht. }
  destruct a as [h|h ds|a h ds|a b c d port|cs port|b].
  - apply Hno. intros rest Hr. apply host_start_digit; [done|by left].
  - apply Hno. intros rest Hr. simpl. rewrite <- app_assoc. destruct Ha as [Ha _].
    apply host_start_digit; [done|]. right. by eexists.
  - apply Hno. intros rest Hr. destruct Ha as (Hd & _). cbn [address_tokens]. rewrite <- app_assoc. by apply Hdig.
  - apply Hno. intros rest Hr. destruct Ha as (Hd & _). simpl. rewrite <- app_assoc. by apply Hdig.
  - by apply Hno.
  - destruct Ha as [_ Hb]. destruct (path_first b Hb) as (t & ts & Hts & Ht).
    intros pre st rest sch bl log Hv [-> Hr]. cbn [address_tokens] in Hv |- *. rewrite Hts in Hv |- *.
    refine (runs_false_gives_up _ [sym "("]
      (fun rest => match rest with t :: _ => compare_ci (m_char t) "a" = Ok false | [] => True end) false _
      pre st _ sch bl log Hv _).
    + eapply (runs_seq _ _ _ [sym "("] []); [done|by apply (runs_is_yes T_POPEN _ anything)| |done].
      eapply (runs_seq _ _ _ [] []); [done|apply (runs_no_word "a"%char (lit "ddress"))| |].
      * eapply (runs_seq _ _ [] [] []); [done|apply (runs_ret _ anything)|apply runs_ret|done].
      * done.
    + by eexists.
Qed.

Lemma goes_last {A B} (m : uparser A) (f : A -> uparser B) ts F a b cs :
  goes m ts F a cs -> runs (f a) [] F b [] -> goes (m ≫= f) ts F b cs.
Proof.
  intros Hm Hf. pose proof (goes_bind m f ts [] F F a b cs [] Hm (runs_goes _ _ _ _ _ Hf)) as H.
  rewrite !app_nil_r in H. by apply H.
Qed.

Lemma goes_host_priority a w' ds : address_ok a -> spells (lit "priority") w' -> ds <> [] -> priority_ok ds ->
  goes parse_host_priority (address_tokens a ++ sym "," :: w' ++ sym "=" :: ds ++ [sym ")"]) anything tt
    [address_call (1 + dec_value ds) a].
Proof.
  intros Ha Hw' Hne [Hd Hv]. pose proof (dec_value_nonneg ds Hd) as Hnn. unfold parse_host_priority.
  eapply (goes_seq _ _ _ (address_tokens a) (sym "," :: w' ++ sym "=" :: ds ++ [sym ")"]));
    [done|by apply goes_parse_host| |intros rest _; simpl; set_solver].
  pose proof (runs_report_host (1 + dec_value ds) a anything Ha) as Hrep. unfold report_host in Hrep.
  destruct (address_host a) as [[opts host] port].
  eapply (goes_seq _ _ _ [sym ","] (w' ++ sym "=" :: ds ++ [sym ")"]));
    [done|apply runs_goes; by apply (runs_is_yes T_COMMA _ anything)| |done].
  eapply (goes_seq _ _ _ w' (sym "=" :: ds ++ [sym ")"])); [done|by apply (goes_word _ _ anything)| |done].
  eapply (goes_seq _ _ _ [sym "="] (ds ++ [sym ")"]));
    [done|apply runs_goes; by apply (runs_is_yes T_EQ _ anything)| |done].
  cbn [negb]. apply runs_goes.
  eapply (runs_seq _ _ _ ds [sym ")"] _ _ (chars ds)); [done| | |].
  - apply (runs_consume_while [T_DIGIT]). by apply (are_in T_DIGIT).
  - rewrite bool_decide_false by (by destruct ds).
    eapply (runs_seq _ _ _ [sym ")"] []); [done|by apply (runs_is_yes T_PCLOSE _ anything)| |done].
    cbn [negb]. eapply (runs_seq _ _ [] [] []); [done|apply (runs_convert_val _ anything); [done..|lia]| |done].
    intros pre st rest sch bl log Hvl Hf. rewrite Z.mod_small by lia. specialize (Hrep pre st rest sch bl log Hvl Hf).
    by rewrite (method_bind_ok Hrep).
  - intros rest _. done.
Qed.

Lemma goes_entry e : entry_ok e ->
  goes parse_list_entry (entry_tokens e) ends_address tt [entry_call e].
Proof.
  destruct e as [a|w a w' ds]; intros He; unfold parse_list_entry; cbn [entry_tokens entry_call].
  - intros pre st rest sch bl log Hv Hr.
    pose proof (runs_no_priority a rest parse_host_priority He pre st (address_tokens a ++ rest) sch bl log Hv
      (conj eq_refl Hr)) as Hno.
    cbn [app] in Hno. unfold mbind at 1, Method_bind at 1. rewrite Hno.
    unfold utext at 1. simpl concat. rewrite !app_nil_r. unfold stale at 1. cbn [last default].
    by apply (goes_report a 0 ends_address He).
  - destruct He as (Hw & Ha & Hw' & Hne & Hp).
    eapply (goes_last _ _ _ _ true); [|apply runs_ret]. apply guarded_keeps.
    eapply (goes_seq _ _ _ [sym "("] _); [done|apply runs_goes; by apply (runs_is_yes T_POPEN _ anything)| |done].
    eapply (goes_seq _ _ _ w _); [done|by apply (goes_word _ _ anything)| |done].
    eapply (goes_seq _ _ _ [sym "="] _); [done|apply runs_goes; by apply (runs_is_yes T_EQ _ anything)| |done].
    eapply (goes_last _ _ _ _ tt); [|apply runs_ret].
    intros pre st rest sch bl log Hv Hf. by eapply goes_host_priority.
Qed.

(** ** Parts with a separator between them *)

Fixpoint join {X} (tokens : X -> list UToken) (sep : ascii) (l : list X) : list UToken :=
  match l with
  | [] => []
  | [x] => tokens x
  | x :: l' => tokens x ++ sym sep :: join tokens sep l'
  end.

Lemma join_cons {X} (tokens : X -> list UToken) sep x y l :
  join tokens sep (x :: y :: l) = tokens x ++ sym sep :: join tokens sep (y :: l).
Proof. done. Qed.

Lemma join_length {X} (tokens : X -> list UToken) sep l : (length l <= S (length (join tokens sep l)))%nat.
Proof.
  induction l as [|x l IH]; [simpl; lia|]. destruct l as [|y l]; [simpl; lia|].
  rewrite join_cons, length_app. cbn [length] in *. lia.
Qed.

(** A loop over such parts: [F] follows the last one. *)
Lemma goes_separated {X} (tokens : X -> list UToken) (sep : ascii) tt (body : uparser unit)
    (calls : X -> uri_call) (F : list UToken -> Prop) (ok : X -> Prop) :
  get_type (sym sep) = tt ->
  (forall x, ok x -> goes body (tokens x) (fun r => F r \/ exists r', r = sym sep :: r') () [calls x]) ->
  (forall rest, F rest -> not_next tt rest) ->
  forall l n, l <> [] -> Forall ok l -> (length l <= n)%nat ->
  goes (separated n tt body) (join tokens sep l) F () (map calls l).
Proof.
  intros Hsep Hbody HF. induction l as [|x l IH]; intros [|n] Hne Hok Hn; simpl in Hn; try done; try lia.
  inversion Hok as [|? ? Hx Hl]; subst. cbn [separated]. destruct l as [|y l].
  - eapply (goes_last _ _ _ _ ()).
    { intros pre st rest sch bl log Hv Hf. apply Hbody; [done|done|by left]. }
    pose proof (runs_is_no (get_type (sym sep))) as Hno.
    intros pre st rest sch bl log Hv Hf. rewrite (method_bind_ok (Hno pre st rest sch bl log Hv (HF rest Hf))).
    cbn [app]. unfold utext. simpl. by rewrite !app_nil_r.
  - rewrite join_cons. change (map calls (x :: y :: l)) with ([calls x] ++ map calls (y :: l)).
    eapply goes_bind; [by apply Hbody| |].
    + eapply (goes_seq _ _ _ [sym sep] (join tokens sep (y :: l))); [done| | |].
      * apply runs_goes. by apply (runs_is_yes _ _ anything).
      * apply IH; [done|done|cbn [length] in *; lia].
      * done.
    + intros rest _. right. by eexists.
Qed.
