(* ===== verification/UriConnection.v ===== *)
(** * Whole connection strings

    A connection string as its parts: the user and the password, a host or a list of
    hosts, the schema and the query.  [uri_text] is its text after [mysqlx://],
    [connection_calls] the calls on the processor that report the parts.  The parser of
    UriParser.v makes exactly these calls on that text ([parse_uri_reads],
    [parse_conn_str_reads]).

    For every string the parser reports an error or ends: its loops end, it reads no
    character out of bounds, and a [Guard] always finds a state to take from the stack,
    although the states of inner guards that were released stay on it
    ([URI_process_returns]). *)

From S2P Require Import Prelude Cursor Tokenizer Tokens UriParser UriRead.

(** ** The parts *)

Record userinfo := mk_userinfo { ui_user : list UToken; ui_password : option (list UToken) }.

Inductive hosts :=
| H_one (a : address)
| H_list (es : list entry).

Inductive pair :=
| Q_key (k : list UToken)
| Q_val (k v : list UToken)
| Q_list (k : list UToken) (vs : list (list UToken)).

Record connection := mk_connection {
  c_user : option userinfo;
  c_hosts : hosts;
  c_schema : option (list UToken);
  c_query : option (list pair)
}.

(** ** Their tokens *)

Definition userinfo_tokens (u : userinfo) : list UToken :=
  ui_user u ++ match ui_password u with Some p => sym ":" :: p | None => [] end ++ [sym "@"].

Definition hosts_tokens (h : hosts) : list UToken :=
  match h with
  | H_one a => address_tokens a
  | H_list es => sym "[" :: join entry_tokens "," es ++ [sym "]"]
  end.

Definition pair_tokens (q : pair) : list UToken :=
  match q with
  | Q_key k => k
  | Q_val k v => k ++ sym "=" :: v
  | Q_list k vs => k ++ sym "=" :: sym "[" :: join id "," vs ++ [sym "]"]
  end.

Definition schema_tokens (s : option (list UToken)) : list UToken :=
  match s with Some db => sym "/" :: db | None => [] end.

Definition query_tokens (q : option (list pair)) : list UToken :=
  match q with Some ps => sym "?" :: join pair_tokens "&" ps | None => [] end.

Definition connection_tokens (c : connection) : list UToken :=
  from_option userinfo_tokens [] (c_user c) ++ hosts_tokens (c_hosts c) ++
  schema_tokens (c_schema c) ++ query_tokens (c_query c).

Definition uri_text (c : connection) : str := utext (connection_tokens c).

(** ** The calls that report them *)

Definition userinfo_calls (u : userinfo) : list uri_call :=
  u_user (chars (ui_user u)) ::
  match ui_password u with Some p => [u_password (chars p)] | None => [] end.

Definition hosts_calls (h : hosts) : list uri_call :=
  match h with H_one a => [address_call 0 a] | H_list es => map entry_call es end.

Definition pair_call (q : pair) : uri_call :=
  match q with
  | Q_key k => u_key (chars k)
  | Q_val k v => u_key_val (chars k) (chars v)
  | Q_list k vs => u_key_list (chars k) (chars <$> vs)
  end.

Definition connection_calls (c : connection) : list uri_call :=
  from_option userinfo_calls [] (c_user c) ++ hosts_calls (c_hosts c) ++
  from_option (fun db => [u_schema (chars db)]) [] (c_schema c) ++
  from_option (map pair_call) [] (c_query c).

(** ** What the parts can contain *)

Definition none_in (set : TokSet) (ts : list UToken) : Prop := Forall (fun t => in_set set t = false) ts.

Definition userinfo_ok (u : userinfo) : Prop :=
  ui_user u <> [] /\ all_in user_chars (ui_user u) /\
  from_option (all_in (user_chars ++ [T_COLON])) True (ui_password u).

(** A character of an IPv6 address, as the loop of [parse_ip6] sees it. *)
Definition ip6_token (t : UToken) : bool :=
  in_set [T_DIGIT; T_CHAR; T_COLON] t && negb (m_pct t) &&
  negb (bool_decide (get_type t = T_CHAR) && negb (bool_decide (m_char t ∈ lit "ABCDEFabcdef"))).

(** A list is told from an IPv6 address by a character that such an address has not. *)
Fixpoint not_ip6 (ts : list UToken) : bool :=
  match ts with
  | t :: ts' => if ip6_token t then not_ip6 ts' else negb (bool_decide (get_type t = T_SQCLOSE))
  | [] => false
  end.

Definition hosts_ok (h : hosts) : Prop :=
  match h with
  | H_one a => address_ok a
  | H_list es => es <> [] /\ Forall entry_ok es /\ not_ip6 (join entry_tokens "," es) = true
  end.

Definition pair_ok (q : pair) : Prop :=
  match q with
  | Q_key k => none_in [T_EQ; T_AMP] k
  | Q_val k v => none_in [T_EQ; T_AMP] k /\ none_in [T_AMP] v /\ not_next T_SQOPEN v
  | Q_list k vs => none_in [T_EQ; T_AMP] k /\ vs <> [] /\ Forall (none_in [T_COMMA; T_SQCLOSE]) vs
  end.

Definition connection_ok (c : connection) : Prop :=
  from_option userinfo_ok True (c_user c) /\ hosts_ok (c_hosts c) /\
  from_option (all_in db_chars) True (c_schema c) /\
  from_option (fun ps => ps <> [] /\ Forall pair_ok ps) True (c_query c) /\
  Forall valid (connection_tokens c).

(** ** Reading the pairs of a query *)

Definition ends_pair (rest : list UToken) : Prop := rest = [] \/ exists r, rest = sym "&" :: r.

Lemma goes_follow {A} (m : uparser A) ts (F G : list UToken -> Prop) a cs :
  goes m ts F a cs -> (forall rest, G rest -> F rest) -> goes m ts G a cs.
Proof. intros H HG pre st rest sch bl log Hv HF. by apply H, HG. Qed.

(** Reading a test of the next token, of methods that may leave states on the stack. *)
Lemma goes_read {A} (g : URI_parser -> bool) (b : bool) (f : bool -> uparser A) ts F a cs :
  (forall pre st rest sch bl log, F rest -> g (ux pre st (ts ++ rest) sch bl log) = b) ->
  goes (f b) ts F a cs -> goes (read g ≫= f) ts F a cs.
Proof.
  intros Hg Hf pre st rest sch bl log Hv HF. rewrite method_read, Hg by done. by apply Hf.
Qed.

Lemma next_is_no pre st rest sch bl log tt : not_next tt rest ->
  next_token_is tt (ux pre st rest sch bl log) = false.
Proof.
  intros H. rewrite next_token_is_ux. destruct rest as [|t rest]; [done|]. simpl in H.
  rewrite bool_decide_eq_false in H |- *. congruence.
Qed.

Lemma runs_val_loop vs : vs <> [] -> Forall (none_in [T_COMMA; T_SQCLOSE]) vs ->
  forall n acc, (length vs <= n)%nat ->
  runs (val_loop n acc) (join id "," vs) (fun r => exists r', r = sym "]" :: r') (acc ++ (chars <$> vs)) [].
Proof.
  intros Hne H. induction H as [|v vs Hv Hvs IH]; [done|]. intros [|n] acc Hn; [cbn [length] in Hn; lia|].
  cbn [val_loop]. destruct vs as [|w vs].
  - eapply (runs_seq _ _ _ v []); [by rewrite app_nil_r|by apply runs_consume_until| |].
    + eapply (runs_seq _ _ [] [] []); [done|apply (runs_is_no T_COMMA)|apply runs_ret|].
      by intros rest [r ->].
    + by intros rest [r ->].
  - rewrite join_cons. eapply (runs_seq _ _ _ v _); [done|by apply runs_consume_until| |].
    + eapply (runs_seq _ _ _ [sym ","] _); [done|by apply (runs_is_yes T_COMMA _ anything)| |done].
      cbn [fmap list_fmap]. change (acc ++ chars v :: chars w :: (chars <$> vs)) with
        (acc ++ [chars v] ++ (chars <$> (w :: vs))). rewrite app_assoc. apply IH; [done|].
      cbn [length] in *. lia.
    + done.
Qed.

Lemma runs_parse_pair q : pair_ok q -> runs parse_pair (pair_tokens q) ends_pair tt [pair_call q].
Proof.
  unfold parse_pair. destruct q as [k|k v|k vs]; cbn [pair_ok pair_tokens pair_call].
  - intros Hk. eapply (runs_seq _ _ _ k []); [by rewrite app_nil_r|by apply runs_consume_until| |].
    + eapply (runs_seq _ _ _ [] []); [done|apply (runs_is_no T_EQ)|apply runs_report|].
      by intros rest [->|[r ->]].
    + by intros rest [->|[r ->]].
  - intros (Hk & Hv & Hs). eapply (runs_seq _ _ _ k _); [done|by apply runs_consume_until| |done].
    eapply (runs_seq _ _ _ [sym "="] v); [done|by apply (runs_is_yes T_EQ _ anything)| |done].
    cbn [negb]. apply (runs_read _ false).
    { intros pre st rest sch bl log Hr. apply next_is_no. destruct v as [|t v]; [|done].
      by destruct Hr as [->|[r ->]]. }
    eapply (runs_seq _ _ _ v []); [by rewrite app_nil_r|by apply runs_consume_until|apply runs_report|].
    by intros rest [->|[r ->]].
  - intros (Hk & Hne & Hvs). eapply (runs_seq _ _ _ k _); [done|by apply runs_consume_until| |done].
    eapply (runs_seq _ _ _ [sym "="] _); [done|by apply (runs_is_yes T_EQ _ anything)| |done].
    cbn [negb]. apply (runs_read _ true).
    { intros. by rewrite next_token_is_ux. }
    unfold parse_val_list.
    eapply (runs_seq _ _ _ [sym "["] _); [done|by apply (runs_is_yes T_SQOPEN _ anything)| |done].
    cbn [negb]. intros pre st rest sch bl log Hv Hr. rewrite method_read.
    refine (runs_seq _ _ _ (join id "," vs) [sym "]"] _ ends_pair _ tt _ eq_refl
      (runs_val_loop vs Hne Hvs _ [] _) _ _ pre st rest sch bl log Hv Hr).
    + pose proof (turns_ux pre st (join id "," vs) ([sym "]"] ++ rest) sch bl log) as Ht.
      rewrite app_assoc in Ht. pose proof (join_length id "," vs). lia.
    + eapply (runs_seq _ _ _ [sym "]"] []); [done|by apply (runs_is_yes T_SQCLOSE _ anything)|apply runs_report|done].
    + intros r _. by eexists.
Qed.

Definition ends_query (rest : list UToken) : Prop := rest = [].

Lemma goes_parse_query q : from_option (fun ps => ps <> [] /\ Forall pair_ok ps) True q ->
  goes parse_query (query_tokens q) ends_query tt (from_option (map pair_call) [] q).
Proof.
  unfold parse_query. destruct q as [ps|]; cbn [from_option query_tokens].
  - intros [Hne Hps].
    eapply (goes_seq _ _ _ [sym "?"] _); [done|apply runs_goes; by apply (runs_is_yes T_QUESTION _ anything)| |done].
    cbn [negb]. intros pre st rest sch bl log Hv Hr. rewrite method_read.
    refine (goes_separated pair_tokens "&" T_AMP parse_pair pair_call ends_query pair_ok eq_refl
      _ _ ps _ Hne Hps _ pre st rest sch bl log Hv Hr).
    + intros x Hx. apply runs_goes. eapply runs_follow; [by apply runs_parse_pair|].
      by intros r [->|H]; [left|right].
    + by intros r ->.
    + pose proof (turns_ux pre st (join pair_tokens "&" ps) rest sch bl log) as Ht.
      pose proof (join_length pair_tokens "&" ps). lia.
  - intros _. apply runs_goes.
    eapply (runs_seq _ _ _ [] []); [done|apply (runs_is_no T_QUESTION)|apply runs_ret|by intros r ->].
Qed.

(** ** The schema *)

Definition ends_schema (rest : list UToken) : Prop := not_next T_SLASH rest /\ stops (in_set db_chars) rest.

Lemma runs_schema s : from_option (all_in db_chars) True s ->
  runs parse_path (schema_tokens s) ends_schema tt (from_option (fun db => [u_schema (chars db)]) [] s).
Proof.
  unfold parse_path. destruct s as [db|]; cbn [from_option schema_tokens].
  - intros Hdb. eapply (runs_seq _ _ _ [sym "/"] _); [done|by apply (runs_is_yes T_SLASH _ anything)| |done].
    cbn [negb]. eapply (runs_seq _ _ _ db []); [by rewrite app_nil_r|by apply runs_consume_while|apply runs_report|].
    by intros r [_ H].
  - intros _. eapply (runs_seq _ _ _ [] []); [done|apply (runs_is_no T_SLASH)|apply runs_ret|].
    by intros r [H _].
Qed.

(** ** The user *)

Lemma at_sign t : get_type t = T_AT -> t = sym "@".
Proof.
  destruct t as [c p]. unfold get_type. simpl. destruct p; [done|]. destruct (isalpha c); [done|].
  unfold URI_TOKEN_LIST. simpl. intros H. repeat (case_decide; [by subst|]).
  by destruct (ctf_digit _).
Qed.

Lemma runs_report_first {A} c (m : uparser A) F a cs :
  runs m [] F a cs -> runs (report c;; m) [] F a (c :: cs).
Proof.
  intros H. refine (runs_bind _ (fun _ => m) [] [] anything F tt a [c] cs (runs_report c _) H _). done.
Qed.

Lemma runs_skip {A B} (x : A) (f : A -> uparser B) ts F a cs :
  runs (f x) ts F a cs -> runs (mret x ≫= f) ts F a cs.
Proof. intros H. by eapply (runs_seq _ _ _ [] ts); [done|apply (runs_ret _ anything)|exact H|done]. Qed.

Lemma goes_parse_userinfo u : userinfo_ok u ->
  goes parse_userinfo (userinfo_tokens u) anything true (userinfo_calls u).
Proof.
  intros (Hne & Hu & Hp). unfold parse_userinfo, userinfo_tokens, userinfo_calls.
  apply guarded_keeps, runs_goes.
  eapply (runs_seq _ _ _ (ui_user u) _); [done|by apply runs_consume_while| |].
  - rewrite bool_decide_false by (by destruct (ui_user u)).
    destruct (ui_password u) as [p|]; cbn [from_option app].
    + eapply (runs_seq _ _ _ [sym ":"] _); [done|by apply (runs_is_yes T_COLON _ anything)| |done].
      eapply (runs_seq _ _ _ p _); [done|by apply runs_consume_while| |done].
      eapply (runs_seq _ _ _ [sym "@"] []); [done|by apply (runs_is_yes T_AT _ anything)| |done].
      cbn [negb]. apply runs_report_first, runs_report_first, runs_ret.
    + eapply (runs_seq _ _ _ [] [sym "@"]); [done|apply (runs_is_no T_COLON)| |done].
      apply runs_skip.
      eapply (runs_seq _ _ _ [sym "@"] []); [done|by apply (runs_is_yes T_AT _ anything)| |done].
      cbn [negb]. apply runs_report_first, runs_skip, runs_ret.
  - intros rest _. by destruct (ui_password u).
Qed.

(** The part of a list that a loop over a set consumes. *)
Lemma split_while (f : UToken -> bool) l :
  exists ts rest, l = ts ++ rest /\ Forall (fun t => f t = true) ts /\ stops f rest.
Proof.
  induction l as [|t l (ts & rest & -> & H1 & H2)]; [by exists [], []|].
  destruct (f t) eqn:E; [exists (t :: ts), rest|exists [], (t :: ts ++ rest)]; split_and!; try done.
  by constructor.
Qed.

(** No user before an at sign. *)
Definition no_user (rest : list UToken) : Prop :=
  forall ts t rest', rest = ts ++ t :: rest' -> all_in (user_chars ++ [T_COLON]) ts -> get_type t <> T_AT.

Lemma userinfo_absent : runs parse_userinfo [] no_user false [].
Proof.
  unfold parse_userinfo. apply guarded_restores. intros pre st rest sch bl log Hv Hno.
  destruct (split_while (in_set user_chars) rest) as (us & r1 & -> & Hus & Hr1).
  assert (Hus' : all_in (user_chars ++ [T_COLON]) us)
    by (apply (all_in_weaken user_chars); [done|set_solver]).
  destruct (decide (us = [])) as [->|Hne].
  { refine (runs_false_gives_up _ [] (eq r1) false _ pre st _ sch bl log Hv _); [|by eexists].
    eapply (runs_seq _ _ [] [] []); [done|by apply runs_consume_while|apply runs_ret|by intros ? <-]. }
  assert (Hend : forall (yes : uparser (bool * bool)),
    runs (at_ ← uconsume_is T_AT; if negb at_ then mret (false, false) else yes) [] (not_next T_AT) (false, false) []).
  { intros yes. eapply (runs_seq _ _ [] [] []); [done|apply (runs_is_no T_AT)|apply runs_ret|done]. }
  assert (Hat : forall t r' ts, r1 = ts ++ t :: r' -> all_in (user_chars ++ [T_COLON]) ts -> get_type t <> T_AT).
  { intros t r' ts -> Hts. apply (Hno (us ++ ts) t r'); [by rewrite app_assoc|by apply Forall_app]. }
  destruct r1 as [|t r1]; [|destruct (decide (get_type t = T_COLON)) as [Ht|Ht]].
  - refine (runs_false_gives_up _ us (eq []) false _ pre st _ sch bl log Hv _); [|by eexists].
    eapply (runs_seq _ _ _ us []); [by rewrite app_nil_r|by apply runs_consume_while| |by intros ? <-].
    rewrite bool_decide_false by (by destruct us).
    eapply (runs_seq _ _ [] [] []); [done|apply (runs_is_no T_COLON)| |by intros ? <-].
    apply runs_skip. eapply runs_follow; [apply Hend|by intros ? <-].
  - destruct (split_while (in_set (user_chars ++ [T_COLON])) r1) as (ps & r2 & -> & Hps & Hr2).
    refine (runs_false_gives_up _ (us ++ t :: ps) (eq r2) false _ pre st _ sch bl log Hv _);
      [|by eexists; rewrite <- app_assoc].
    eapply (runs_seq _ _ _ us (t :: ps)); [done|by apply runs_consume_while| |done].
    rewrite bool_decide_false by (by destruct us).
    eapply (runs_seq _ _ _ [t] ps); [done|by apply (runs_is_yes T_COLON _ anything)| |done].
    eapply (runs_seq _ _ _ ps []); [by rewrite app_nil_r|by apply runs_consume_while| |by intros ? <-].
    eapply runs_follow; [apply Hend|]. intros ? <-. destruct r2 as [|t2 r2]; [done|].
    apply not_next_sym, (Hat t2 r2 (t :: ps)); [done|]. constructor; [|done].
    unfold in_set, has_token. rewrite Ht. by vm_compute.
  - refine (runs_false_gives_up _ us (eq (t :: r1)) false _ pre st _ sch bl log Hv _); [|by eexists].
    eapply (runs_seq _ _ _ us []); [by rewrite app_nil_r|by apply runs_consume_while| |by intros ? <-].
    rewrite bool_decide_false by (by destruct us).
    eapply (runs_seq _ _ [] [] []); [done|apply (runs_is_no T_COLON)| |intros ? <-; by apply not_next_sym].
    apply runs_skip. eapply runs_follow; [apply Hend|]. intros ? <-. apply not_next_sym, (Hat t r1 []); [done|constructor].
Qed.

(** ** No at sign in the hosts *)

Definition no_at (ts : list UToken) : Prop := Forall (fun t => get_type t <> T_AT) ts.

Ltac no_at_parts :=
  repeat first [apply Forall_app; split|apply Forall_cons; split; [done|]|apply Forall_nil; exact I].

Lemma all_in_no_at set ts : has_token set T_AT = false -> all_in set ts -> no_at ts.
Proof.
  intros Hs H. eapply Forall_impl; [exact H|]. intros t Ht E. unfold in_set in Ht. congruence.
Qed.

Lemma are_no_at tt ts : tt <> T_AT -> are tt ts -> no_at ts.
Proof. intros Hn H. eapply Forall_impl; [exact H|]. by intros t <-. Qed.

Lemma spells_no_at w ts : Forall (fun c => compare_ci "@" c <> Ok true) w -> spells w ts -> no_at ts.
Proof.
  intros Hw H. induction H as [|c t w ts Hc _ IH]; [constructor|]. inversion Hw; subst.
  constructor; [|by apply IH]. by intros ->%at_sign.
Qed.

Lemma plain_no_at h : host_start h -> no_at h.
Proof. intros [H _]. by apply (all_in_no_at plain_chars). Qed.

Lemma balanced_no_at b : balanced_ok b -> no_at (balanced_tokens b).
Proof.
  assert (Hp : forall cs, all_in path_chars cs -> no_at cs) by (intros; by apply (all_in_no_at path_chars)).
  induction b as [cs|cs b IH cs']; cbn [balanced_ok balanced_tokens].
  - intros H. unfold no_at in *. no_at_parts. by apply Hp.
  - intros (H1 & H2 & H3). unfold no_at in *. no_at_parts; auto.
Qed.

Lemma port_no_at port : opt_port_ok port -> no_at (port_tokens port).
Proof.
  destruct port as [ds|]; [|constructor]. intros [H _]. constructor; [done|]. by apply (are_no_at T_DIGIT).
Qed.

Lemma address_no_at a : address_ok a -> no_at (address_tokens a).
Proof.
  pose proof (fun ds => are_no_at T_DIGIT ds ltac:(done)) as Hd.
  destruct a as [h|h ds|a h ds|a b c d port|cs port|b]; cbn [address_ok address_tokens].
  - apply plain_no_at.
  - intros [Hh [Hp _]]. no_at_parts; [by apply plain_no_at|by apply Hd].
  - intros ((_ & Ha) & Hh & _ & Hp). unfold no_at in *. no_at_parts; [by apply Hd|by apply plain_no_at|by apply port_no_at].
  - intros ((_ & Ha) & (_ & Hb) & (_ & Hc) & (_ & Hdd) & Hp).
    unfold no_at in *. no_at_parts; auto. by apply port_no_at.
  - intros (_ & Hcs & Hp). unfold no_at in *. no_at_parts; [|by apply port_no_at].
    eapply Forall_impl; [exact Hcs|]. intros t Ht E. destruct (hex_or_colon_type t Ht) as (H1 & _).
    unfold in_set in H1. by rewrite E in H1.
  - intros [H _]. by apply balanced_no_at.
Qed.

Lemma entry_no_at e : entry_ok e -> no_at (entry_tokens e).
Proof.
  destruct e as [a|w a w' ds]; cbn [entry_ok entry_tokens]; [apply address_no_at|].
  intros (Hw & Ha & Hw' & _ & [Hd _]). unfold no_at in *. no_at_parts.
  - eapply spells_no_at; [|exact Hw]. lits. forall_list ltac:(done).
  - by apply address_no_at.
  - eapply spells_no_at; [|exact Hw']. lits. forall_list ltac:(done).
  - by apply (are_no_at T_DIGIT).
Qed.

Lemma join_no_at {X} (tokens : X -> list UToken) sep l :
  get_type (sym sep) <> T_AT -> Forall (fun x => no_at (tokens x)) l -> no_at (join tokens sep l).
Proof.
  intros Hs H. induction H as [|x l Hx Hl IH]; [constructor|]. destruct l as [|y l]; [done|].
  rewrite join_cons. apply Forall_app. split; [done|]. by constructor.
Qed.

Lemma hosts_no_at h : hosts_ok h -> no_at (hosts_tokens h).
Proof.
  destruct h as [a|es]; cbn [hosts_ok hosts_tokens]; [apply address_no_at|].
  intros (_ & H & _). unfold no_at. no_at_parts. apply join_no_at; [done|].
  eapply Forall_impl; [exact H|]. apply entry_no_at.
Qed.

(** ** The hosts *)

Lemma ip6_loop_not ts : not_ip6 ts = true ->
  forall n addr pre st rest sch bl log, (length ts < n)%nat -> Forall valid (ts ++ rest) ->
  exists r pre' st' rest', pre' ++ utext rest' = pre ++ utext (ts ++ rest) /\ Forall valid rest' /\
    ip6_loop n addr (ux pre st (ts ++ rest) sch bl log) = (Ok r, ux pre' st' rest' sch bl log) /\
    (r = None \/ not_next T_SQCLOSE rest').
Proof.
  induction ts as [|t ts IH]; intros Hnot [|n] addr pre st rest sch bl log Hn Hv; simpl in Hn; try done; try lia.
  cbn [not_ip6 ip6_loop app] in *. rewrite method_read, next_token_in_ux.
  fold (in_set [T_DIGIT; T_CHAR; T_COLON] t).
  assert (Hv' : Forall valid (ts ++ rest)) by by inversion Hv. unfold ip6_token in Hnot.
  assert (Htext : (pre ++ utok_text t) ++ utext (ts ++ rest) = pre ++ utext (t :: ts ++ rest))
    by by rewrite utext_cons, <- app_assoc.
  destruct (in_set [T_DIGIT; T_CHAR; T_COLON] t) eqn:E; cbn [negb andb] in *.
  - rewrite (method_bind_ok (uconsume_ux _ _ _ _ _ _ _ Hv')). destruct (m_pct t) eqn:Ep; cbn [negb andb] in *.
    { exists None, (pre ++ utok_text t), t, (ts ++ rest). by repeat split; auto. }
    destruct (bool_decide (get_type t = T_CHAR) && negb (bool_decide (m_char t ∈ lit "ABCDEFabcdef"))) eqn:Ec.
    { exists None, (pre ++ utok_text t), t, (ts ++ rest). by repeat split; auto. }
    destruct (IH Hnot n (addr ++ [m_char t]) (pre ++ utok_text t) t rest sch bl log ltac:(lia) Hv')
      as (r & pre' & st' & rest' & H1 & H2 & H3 & H4).
    exists r, pre', st', rest'. by rewrite H1.
  - exists (Some addr), pre, st, (t :: ts ++ rest). repeat split; [done|]. right.
    apply negb_true_iff, bool_decide_eq_false in Hnot. by apply not_next_sym.
Qed.

(** At a list of hosts [parse_host] finds nothing and goes back. *)
Lemma parse_host_list_start ts : not_ip6 ts = true ->
  runs parse_host [] (fun rest => exists r, rest = sym "[" :: ts ++ r) (mk_Addr_opts true true, [], []) [].
Proof.
  intros Hnot. unfold parse_host. apply (runs_read _ false).
  { intros pre st rest sch bl log [r ->]. by rewrite next_token_is_ux. }
  eapply (runs_seq _ _ [] [] [] (fun rest => exists r, rest = sym "[" :: ts ++ r) _ None); [done| | |].
  - unfold parse_ip_address. apply guarded_restores. intros pre st rest sch bl log Hv [r ->].
    pose proof (runs_is_yes T_SQOPEN (sym "[") anything eq_refl pre st (ts ++ r) sch bl log Hv I) as H1.
    cbn [app] in H1. rewrite (method_bind_ok H1). rewrite app_nil_r.
    apply Forall_cons in Hv as [_ Hv].
    set (pre1 := pre ++ utext [sym "["]). set (st1 := stale st [sym "["]).
    destruct (ip6_loop_not ts Hnot (uturns (ux pre1 st1 (ts ++ r) sch bl log)) [] pre1 st1 r sch bl log
      (turns_ux _ _ _ _ _ _ _) Hv) as (x & pre' & st' & rest' & Ht & Hv' & Hl & Hr).
    assert (H6 : parse_ip6 (ux pre1 st1 (ts ++ r) sch bl log) = (Ok None, ux pre' st' rest' sch bl log)).
    { unfold parse_ip6. rewrite method_read, (method_bind_ok Hl). destruct x as [[|c a]|]; [done| |done].
      destruct Hr as [Hr|Hr]; [done|].
      pose proof (runs_is_no T_SQCLOSE pre' st' rest' sch bl log Hv' Hr) as H. cbn [app] in H.
      rewrite (method_bind_ok H). unfold utext. simpl. by rewrite !app_nil_r. }
    rewrite (method_bind_ok H6). eexists. unfold mret, Method_ret. unfold ux. rewrite Ht.
    unfold pre1. rewrite <- app_assoc. done.
  - eapply (runs_seq _ _ [] [] []); [done|by apply (runs_consume_while host_chars [] [])| |].
    + apply runs_ret.
    + by intros rest [r ->].
  - intros rest Hr. exact Hr.
Qed.

Definition list_end (rest : list UToken) : Prop := exists r, rest = sym "]" :: r.

Lemma goes_parse_host_list es : es <> [] -> Forall entry_ok es ->
  goes parse_host_list (hosts_tokens (H_list es)) anything tt (map entry_call es).
Proof.
  intros Hne Hes. unfold parse_host_list. cbn [hosts_tokens].
  eapply (goes_seq _ _ _ [sym "["] _); [done|apply runs_goes; by apply (runs_is_yes T_SQOPEN _ anything)| |done].
  intros pre st rest sch bl log Hv Hr. rewrite method_read. revert pre st rest sch bl log Hv Hr.
  assert (Hgo : forall n, (length es <= n)%nat -> goes (
    separated n T_COMMA parse_list_entry;;
    c ← uconsume_is T_SQCLOSE;
    if c : bool then mret tt else uri_error (wlit "Expected ']' to close list of hosts"))
    (join entry_tokens "," es ++ [sym "]"]) anything tt (map entry_call es)).
  { intros n Hn. rewrite <- (app_nil_r (map entry_call es)).
    eapply (goes_bind _ _ _ [sym "]"] list_end).
    - apply (goes_separated entry_tokens "," T_COMMA _ entry_call list_end entry_ok); [done| | |done..].
      + intros x Hx. eapply goes_follow; [by apply goes_entry|]. intros r [[r' ->]|[r' ->]]; simpl; set_solver.
      + by intros r [r' ->].
    - apply runs_goes. eapply (runs_seq _ _ _ [sym "]"] []); [done|by apply (runs_is_yes T_SQCLOSE _ anything)|apply runs_ret|done].
    - intros r _. by exists r. }
  intros pre st rest sch bl log Hv Hr. apply (Hgo _); [|done|done].
  pose proof (turns_ux pre st (join entry_tokens "," es ++ [sym "]"]) rest sch bl log) as Ht.
  rewrite length_app in Ht. pose proof (join_length entry_tokens "," es). simpl in Ht. lia.
Qed.

Definition ends_hosts (rest : list UToken) : Prop :=
  match rest with t :: _ => get_type t ∈ [T_SLASH; T_QUESTION] | [] => True end.

Lemma ends_hosts_address rest : ends_hosts rest -> ends_address rest.
Proof. destruct rest as [|t rest]; [done|]. simpl. set_solver. Qed.

(** A single address is told from a list. *)
Lemma address_not_list a rest : address_ok a -> ends_address rest ->
  match address_tokens a ++ rest with t :: _ => bool_decide (T_SQOPEN = get_type t) | [] => false end &&
  ADDR_OTHER (address_host a).1.1 = false.
Proof.
  intros Ha Hr.
  assert (Hn : forall l, not_next T_SQOPEN l -> match l with t :: _ => bool_decide (T_SQOPEN = get_type t) | [] => false end = false).
  { intros [|t l]; [done|]. simpl. rewrite !bool_decide_eq_false. congruence. }
  destruct a as [h|h ds|a h ds|a b c d port|cs port|b].
  - rewrite Hn; [done|]. by apply host_start_digit; [|left].
  - rewrite Hn; [done|]. cbn [address_tokens]. rewrite <- app_assoc. destruct Ha as [Ha _].
    apply host_start_digit; [done|]. right. by eexists.
  - destruct Ha as ((Hne & Ha) & _). rewrite Hn; [done|]. cbn [address_tokens]. rewrite <- app_assoc. by apply digits_not.
  - by rewrite andb_false_r.
  - by rewrite andb_false_r.
  - cbn [address_tokens]. destruct (balanced_tokens_head b) as [ts ->]. done.
Qed.

Definition connection_hosts : uparser unit :=
  push;;
  starts_with_sqopen ← read (next_token_is T_SQOPEN);
  '(opts, host, port) ← parse_host;
  if starts_with_sqopen && ADDR_OTHER opts then pop;; parse_host_list
  else report_address opts 0 host port;; mret tt.

Lemma push_ux pre st rest sch bl log :
  push (ux pre st rest sch bl log) = (Ok tt, ux pre st rest sch (ustate pre st rest :: bl) log).
Proof. done. Qed.

Lemma pop_ux pre st rest sch bl log pre' st' rest' : pre' ++ utext rest' = pre ++ utext rest ->
  pop (ux pre' st' rest' sch (ustate pre st rest :: bl) log) = (Ok tt, ux pre st rest sch bl log).
Proof. intros H. unfold pop, ux. simpl. by rewrite H. Qed.

Lemma goes_connection_hosts h : hosts_ok h ->
  goes connection_hosts (hosts_tokens h) ends_hosts tt (hosts_calls h).
Proof.
  intros Hh pre st rest sch bl log Hv Hr. unfold connection_hosts.
  rewrite (method_bind_ok (push_ux pre st (hosts_tokens h ++ rest) sch bl log)), method_read, next_token_is_ux.
  set (bl' := ustate pre st (hosts_tokens h ++ rest) :: bl).
  destruct h as [a|es].
  - cbn [hosts_ok hosts_tokens hosts_calls] in *. apply ends_hosts_address in Hr.
    pose proof (address_not_list a rest Hh Hr) as Hnot.
    destruct (goes_report a 0 ends_address Hh ltac:(done) pre st rest sch bl' log Hv Hr) as [e He].
    exists (e ++ [ustate pre st (address_tokens a ++ rest)]). rewrite <- app_assoc. cbn [app]. fold bl'.
    destruct (goes_parse_host a Hh pre st rest sch bl' log Hv Hr) as [e1 H1].
    rewrite (method_bind_ok H1). rewrite (method_bind_ok H1) in He.
    destruct (address_host a) as [[opts host] port]. cbn [fst] in Hnot. by rewrite Hnot.
  - destruct Hh as (Hne & Hes & Hnot). cbn [hosts_tokens hosts_calls app] in *.
    rewrite <- app_assoc in *. cbn [app] in *.
    pose proof (parse_host_list_start _ Hnot pre st (sym "[" :: join entry_tokens "," es ++ sym "]" :: rest)
      sch bl' log Hv ltac:(by eexists)) as H1. cbn [app] in H1. rewrite (method_bind_ok H1).
    rewrite bool_decide_true by done. cbn [andb ADDR_OTHER].
    destruct (goes_parse_host_list es Hne Hes pre st rest sch bl log) as [e He]; [|done|].
    { cbn [hosts_tokens app]. by rewrite <- app_assoc. }
    exists e. cbn [hosts_tokens app] in He. rewrite <- app_assoc in He. cbn [app] in He.
    assert (Ht : forall l, (pre ++ utext []) ++ utext l = pre ++ utext l)
      by (intros; unfold utext at 1; simpl concat; by rewrite app_nil_r).
    unfold bl'. cbn [hosts_tokens app]. rewrite <- app_assoc. cbn [app].
    rewrite (method_bind_ok (pop_ux pre st _ sch bl _ _ _ _ (Ht _))), app_nil_r. exact He.
Qed.

(** ** The whole connection *)

Lemma hosts_no_user h rest : hosts_ok h -> ends_hosts rest -> no_user (hosts_tokens h ++ rest).
Proof.
  intros Hh Hr ts t rest' E Hts Ht. pose proof (hosts_no_at h Hh) as Hno.
  apply app_eq_inv in E as [(k & Hk & E)|(k & -> & E)].
  - destruct k as [|t' k]; simpl in E.
    + subst rest. simpl in Hr. rewrite Ht in Hr. set_solver.
    + injection E as <- ->. rewrite Hk in Hno. apply Forall_app in Hno as [_ Hno].
      by inversion Hno.
  - destruct k as [|t' k]; simpl in E; subst rest; simpl in Hr.
    + rewrite Ht in Hr. set_solver.
    + apply Forall_app in Hts as [_ Hts]. inversion Hts as [|? ? H1]; subst. unfold in_set in H1.
      set_unfold. destruct Hr as [Hr|[Hr|[]]]; by rewrite Hr in H1.
Qed.

Lemma hosts_not_at h rest : hosts_ok h -> ends_hosts rest -> not_next T_AT (hosts_tokens h ++ rest).
Proof.
  intros Hh Hr. pose proof (hosts_no_user h rest Hh Hr) as H. destruct (hosts_tokens h ++ rest) as [|t l]; [done|].
  apply not_next_sym, (H [] t l); [done|constructor].
Qed.

Lemma goes_parse_connection u h : from_option userinfo_ok True u -> hosts_ok h ->
  goes parse_connection (from_option userinfo_tokens [] u ++ hosts_tokens h) ends_hosts tt
    (from_option userinfo_calls [] u ++ hosts_calls h).
Proof.
  intros Hu Hh. change parse_connection with (
    b ← read (next_token_is T_AT);
    if b : bool then uri_error (wlit "Expected user credentials before '@'") else
    parse_userinfo;; connection_hosts).
  apply (goes_read _ false).
  { intros pre st rest sch bl log Hr. apply next_is_no. destruct u as [u|]; [|by apply hosts_not_at].
    destruct Hu as (Hne & Hu & _). cbn [from_option]. unfold userinfo_tokens.
    destruct (ui_user u) as [|t us]; [done|]. inversion Hu as [|? ? Ht]; subst. apply not_next_sym.
    intros E. unfold in_set in Ht. by rewrite E in Ht. }
  destruct u as [u|]; cbn [from_option].
  - by apply (goes_bind _ _ _ _ anything ends_hosts true tt); [apply goes_parse_userinfo|apply goes_connection_hosts|].
  - apply (goes_bind _ _ [] _ no_user ends_hosts false tt []).
    + apply runs_goes, userinfo_absent.
    + by apply goes_connection_hosts.
    + intros rest Hr. by apply hosts_no_user.
Qed.

Definition uri_body : uparser unit :=
  parse_connection;;
  parse_path;;
  parse_query;;
  more ← read has_more_tokens;
  if more : bool then uri_error (wlit "Unexpected characters at the end") else mret tt.

Lemma goes_uri_body c : connection_ok c ->
  goes uri_body (connection_tokens c) ends_query tt (connection_calls c).
Proof.
  intros (Hu & Hh & Hs & Hq & _). unfold uri_body, connection_tokens, connection_calls.
  assert (Hqh : forall rest, ends_query rest -> ends_hosts (query_tokens (c_query c) ++ rest))
    by (intros rest ->; destruct (c_query c); simpl; set_solver).
  rewrite (app_assoc (from_option userinfo_tokens [] _)), (app_assoc (from_option userinfo_calls [] _)).
  eapply goes_bind; [by apply goes_parse_connection| |].
  - eapply goes_bind; [apply runs_goes; by apply runs_schema| |].
    + eapply goes_last; [by apply goes_parse_query|]. apply (runs_read _ false); [|apply runs_ret].
      intros pre st rest sch bl log ->. unfold has_more_tokens. by rewrite at_end_ux.
    + intros rest ->. unfold ends_schema. destruct (c_query c); by split.
  - intros rest Hr. destruct (c_schema c); [simpl; set_solver|by apply Hqh].
Qed.

(** ** The scheme *)

Lemma find_scheme_here s n : find_scheme (S (S (S (S (S (S (S n))))))) (lit "mysqlx://" ++ s) 0 = Some 6%nat.
Proof. done. Qed.

(** Parsing from the first token on. *)
Lemma body_reads c sch pre : connection_ok c ->
  exists p, uri_body (ux pre UToken_new (connection_tokens c) sch [] []) = (Ok tt, p) /\
    m_log p = connection_calls c.
Proof.
  intros Hc. pose proof Hc as (_ & _ & _ & _ & Hv).
  destruct (goes_uri_body c Hc pre UToken_new [] sch [] []) as [e He]; [by rewrite app_nil_r|done|].
  rewrite app_nil_r in He. rewrite He. by eexists.
Qed.

Lemma check_scheme_some force (uri : str) pos : find_scheme (length uri) uri 0 = Some pos ->
  take pos uri = lit "mysqlx" ->
  check_scheme force (mk_URI_parser uri false (mk_State UToken_new 0 0) [] []) =
  (get_token;; mret true) (mk_URI_parser uri true (mk_State UToken_new 0 (pos + 3)) [] []).
Proof.
  intros Hf Ht. unfold check_scheme. rewrite method_read. cbn [m_uri]. rewrite Hf, method_update.
  rewrite decide_True by done. by rewrite method_update.
Qed.

Lemma check_scheme_none (uri : str) : find_scheme (length uri) uri 0 = None ->
  take 6 uri <> lit "mysqlx" ->
  check_scheme false (mk_URI_parser uri false (mk_State UToken_new 0 0) [] []) =
  (get_token;; mret false) (mk_URI_parser uri false (mk_State UToken_new 0 0) [] []).
Proof.
  intros Hf Ht. unfold check_scheme. rewrite method_read. cbn [m_uri]. rewrite Hf, method_update.
  by rewrite decide_False by done.
Qed.

(** The text of a connection after [mysqlx://] is reported as its calls, to both functions. *)
Lemma parse_uri_reads c : connection_ok c ->
  parse_uri (lit "mysqlx://" ++ uri_text c) = (Ok tt, connection_calls c) /\
  parse_conn_str (lit "mysqlx://" ++ uri_text c) = (Ok tt, connection_calls c).
Proof.
  intros Hc. destruct (body_reads c true (lit "mysqlx://") Hc) as (p & Hp & Hl).
  pose proof Hc as (_ & _ & _ & _ & Hv).
  assert (H : forall force, uri_parse force (mk_URI_parser (lit "mysqlx://" ++ uri_text c) false
    (mk_State UToken_new 0 0) [] []) = (Ok tt, p)).
  { intros force. rewrite <- Hp. change (uri_parse force) with (check_scheme force;; uri_body).
    refine (method_bind_ok (a := true) _). rewrite (check_scheme_some force _ 6); [|by apply find_scheme_here|done].
    change (6 + 3)%nat with (length (lit "mysqlx://")).
    by rewrite (method_bind_ok (get_token_reads _ (lit "mysqlx://") (connection_tokens c) true [] [] UToken_new 0 eq_refl Hv)). }
  unfold parse_uri, parse_conn_str, URI_process. by rewrite !H, Hl.
Qed.

(** A connection string needs no scheme, when nothing in it looks like one. *)
Lemma parse_conn_str_reads c : connection_ok c ->
  find_scheme (length (uri_text c)) (uri_text c) 0 = None -> take 6 (uri_text c) <> lit "mysqlx" ->
  parse_conn_str (uri_text c) = (Ok tt, connection_calls c).
Proof.
  intros Hc Hf Ht. destruct (body_reads c false [] Hc) as (p & Hp & Hl).
  pose proof Hc as (_ & _ & _ & _ & Hv).
  assert (H : uri_parse false (mk_URI_parser (uri_text c) false (mk_State UToken_new 0 0) [] []) = (Ok tt, p)).
  { rewrite <- Hp. change (uri_parse false) with (check_scheme false;; uri_body).
    refine (method_bind_ok (a := false) _). rewrite check_scheme_none by done.
    by rewrite (method_bind_ok (get_token_reads _ [] (connection_tokens c) false [] [] UToken_new 0 eq_refl Hv)). }
  unfold parse_conn_str, URI_process. by rewrite H, Hl.
Qed.

(** ** The parser ends *)

(** What the parser throws: its own errors, and the error of the conversion of a message
    that quotes a key which is no UTF-8. *)
Definition uri_exn (e : exn) : Prop :=
  match e with
  | ParseError _ _ _ _ | UnexpectedError _ _ _ _ _ | InvalidCharError _ _ _ _ => True
  | GenericError descr => descr = "string conversion error"
  | _ => False
  end.

(** A character above 127, other than the last one, is written in the form [%XX]. *)
Definition escapes_high (uri : str) : Prop :=
  exists pos c, uri !! pos = Some "%"%char /\ pct_char (take 2 (drop (pos + 1) uri)) = Some c /\
    128 <= code c < 255.

Lemma error_buffers_ok ctx pos : (pos <= length ctx)%nat ->
  exists s a, Error_buffers ctx pos = Ok (s, a).
Proof.
  intros Hp. unfold Error_buffers. destruct ctx as [|x l] eqn:E; [eauto|].
  rewrite <- E in *. unfold copy. rewrite !decide_True by (repeat case_decide; lia). simpl. eauto.
Qed.

(** ** Positions only grow *)

Section ends.
Context (uri : str).

(** A token of the input at a position. *)
Definition token_at (pos : nat) (t : UToken) : Prop :=
  if m_pct t then uri !! pos = Some "%"%char /\ pct_char (take 2 (drop (pos + 1) uri)) = Some (m_char t)
  else get_type t <> T_INVALID.

Definition wf_state (st : State) : Prop :=
  (m_pos st <= length uri)%nat /\ (m_pos_next st <= length uri)%nat /\
  (m_pos st < length uri -> (m_pos st < m_pos_next st)%nat /\ token_at (m_pos st) (m_tok st))%nat.

Definition wf (p : URI_parser) : Prop :=
  m_uri p = uri /\ wf_state (m_top p) /\ Forall wf_state (m_below p).

(** The parser went on from [p] to [p']: the position is not smaller, and the states added
    to the stack are not before [p]. *)
Definition went_on (p p' : URI_parser) : Prop :=
  wf p' /\ (get_pos p <= get_pos p')%nat /\
  exists extra, m_below p' = extra ++ m_below p /\ Forall (fun st => get_pos p <= m_pos st)%nat extra.

Definition ends_as {A} (m : uparser A) (p : URI_parser) (P : A -> URI_parser -> Prop) : Prop :=
  match m p with
  | (Ok a, p') => P a p'
  | (Throw e, _) => uri_exn e
  | (Undefined, _) => escapes_high uri
  | (Diverged, _) => False
  end.

Lemma went_on_refl p : wf p -> went_on p p.
Proof using. intros H. split; [done|]. split; [lia|]. by exists []. Qed.

Lemma went_on_trans p q r : went_on p q -> went_on q r -> went_on p r.
Proof using.
  intros (_ & H2 & e1 & E1 & F1) (H4 & H5 & e2 & E2 & F2). split; [done|]. split; [lia|].
  exists (e2 ++ e1). rewrite E2, E1, app_assoc. split; [done|]. apply Forall_app. split; [|done].
  eapply Forall_impl; [exact F2|]. simpl. lia.
Qed.

Lemma ends_bind {A B} (m : uparser A) (f : A -> uparser B) p (P : A -> URI_parser -> Prop) Q :
  ends_as m p P -> (forall a p', P a p' -> ends_as (f a) p' Q) -> ends_as (m ≫= f) p Q.
Proof using.
  unfold ends_as, mbind, Method_bind. destruct (m p) as [[a|e| |] p']; intros H1 H2; [|done..]. by apply H2.
Qed.

Lemma ends_mono {A} (m : uparser A) p (P Q : A -> URI_parser -> Prop) :
  ends_as m p P -> (forall a p', P a p' -> Q a p') -> ends_as m p Q.
Proof using. unfold ends_as. destruct (m p) as [[a|e| |] p']; auto. Qed.

(** From [p], the method goes on. *)
Definition goes_on {A} (m : uparser A) : Prop :=
  forall p, wf p -> ends_as m p (fun _ p' => went_on p p').

Lemma go_on_ret {A} (a : A) : goes_on (mret a).
Proof using. intros p H. by apply went_on_refl. Qed.

Lemma go_on_bind {A B} (m : uparser A) (f : A -> uparser B) :
  goes_on m -> (forall a, goes_on (f a)) -> goes_on (m ≫= f).
Proof using.
  intros Hm Hf p Hp. eapply ends_bind; [by apply Hm|]. intros a p' H. pose proof H as [Hw _]. eapply ends_mono; [by apply Hf|].
  intros b p'' H'. exact (went_on_trans _ _ _ H H').
Qed.

Lemma go_on_read {A B} (g : URI_parser -> A) (f : A -> uparser B) :
  (forall a, goes_on (f a)) -> goes_on (read g ≫= f).
Proof using. intros Hf p Hp. unfold ends_as. rewrite method_read. by apply Hf. Qed.

Lemma go_on_report c : goes_on (report c).
Proof using. intros p H. split; [done|]. split; [done|]. by exists []. Qed.

Lemma wf_pos p : wf p -> (get_pos p <= length uri)%nat.
Proof using. by intros (_ & (H & _) & _). Qed.

(** An error is reported wherever the parser is in the input. *)
Lemma uri_error_ends {A} msg P p : (get_pos p <= length (m_uri p))%nat -> ends_as (@uri_error A msg) p P.
Proof using.
  intros Hp. unfold ends_as, uri_error, throw_error.
  destruct (error_buffers_ok (codes (m_uri p)) (get_pos p)) as (s & a & ->); [|done].
  unfold codes. by rewrite length_fmap.
Qed.

Lemma invalid_char_ends {A} c P p : (get_pos p <= length (m_uri p))%nat -> ends_as (@invalid_char A c) p P.
Proof using.
  intros Hp. unfold ends_as, invalid_char.
  destruct (error_buffers_ok (codes (m_uri p)) (get_pos p)) as (s & a & ->); [|done].
  unfold codes. by rewrite length_fmap.
Qed.

Lemma go_on_error {A} msg : goes_on (@uri_error A msg).
Proof using. intros p Hp. apply uri_error_ends. pose proof (wf_pos p Hp). by destruct Hp as (-> & _). Qed.

(** ** Tokens *)

Lemma at_end_wf p : wf p -> at_end p = bool_decide (length uri <= get_pos p)%nat.
Proof using. intros (<- & _). done. Qed.

Lemma strtol_digits_used base s : forall acc n v k, strtol_digits base s acc n = (v, k) -> (k <= n + length s)%nat.
Proof using.
  induction s as [|c s IH]; simpl; intros acc n v k.
  - intros [= _ <-]. lia.
  - destruct (digit_value _ _); [intros H%IH; lia|intros [= _ <-]; lia].
Qed.

Lemma spaces_length s : (spaces s <= length s)%nat.
Proof using. induction s as [|c s IH]; simpl; [lia|]. destruct (ctf_space _); simpl; lia. Qed.

Lemma strtol_used s base v n : strtol s base = (v, n) -> (n <= length s)%nat.
Proof using.
  unfold strtol. pose proof (spaces_length s) as Hs.
  destruct (drop (spaces s) s) as [|c s1] eqn:Ed.
  { simpl. intros [= _ <-]. lia. }
  assert (Hl : (length s = spaces s + S (length s1))%nat).
  { pose proof (length_drop s (spaces s)) as H. rewrite Ed in H. simpl in H. lia. }
  assert (Hd : forall neg (k : nat) s2, (length s2 + k <= S (length s1))%nat ->
    (let '(v, d) := strtol_digits base s2 0 0 in
     if bool_decide (d = O) then (0, O)
     else (if neg : bool then Z.max LONG_MIN (- v) else Z.min LONG_MAX v, (spaces s + k + d)%nat)) = (v, n) ->
    (n <= length s)%nat).
  { intros neg k s2 Hk. destruct (strtol_digits base s2 0 0) as [x d] eqn:E. apply strtol_digits_used in E.
    case_bool_decide; intros [= _ <-]; lia. }
  destruct (code c =? 45); [apply (Hd true 1%nat s1); simpl; lia|].
  destruct (code c =? 43); [apply (Hd false 1%nat s1)|apply (Hd false 0%nat (c :: s1))]; simpl; lia.
Qed.

(** The next token: the position is the one the state held. *)
Lemma get_token_ends p : m_uri p = uri -> (m_pos_next (m_top p) <= length uri)%nat -> Forall wf_state (m_below p) ->
  ends_as get_token p (fun _ p' => wf p' /\ get_pos p' = m_pos_next (m_top p) /\ m_below p' = m_below p).
Proof using.
  intros Hu Hn Hb. unfold get_token. destruct p as [u s [t q n] b l]. simpl in Hu, Hn, Hb. subst u.
  unfold ends_as. rewrite method_update. unfold set_top. cbn [m_uri m_has_scheme m_top m_below m_log m_tok m_pos_next].
  rewrite method_read. unfold at_end, get_pos. cbn [m_uri m_top m_pos].
  assert (Hw : forall c p n', p = n -> (n < n' <= length uri)%nat -> token_at n c ->
    wf (mk_URI_parser uri s (mk_State c p n') b l)).
  { intros c p n' -> Hn' Ht. split; [done|]. split; [|done]. split_and!; simpl; [lia|lia|].
    intros _. split; [lia|done]. }
  case_bool_decide as Hend; simpl in Hend.
  { split; [|done]. split; [done|]. split; [|done]. split_and!; simpl; [lia|lia|]. lia. }
  rewrite method_read. unfold get_pos, id. cbn [m_uri m_top m_pos].
  destruct (lookup_lt_is_Some_2 uri n ltac:(lia)) as [c Hc]. rewrite Hc. cbn [deref]. rewrite method_pure.
  case_decide as Hpc.
  - destruct (pct_char _) as [d|] eqn:Ed.
    + assert (Hlen : (n + 3 <= length uri)%nat).
      { unfold pct_char in Ed. destruct (strtol _ 16) as [v k] eqn:Es. apply strtol_used in Es.
        rewrite length_take, length_drop in Es. unfold get_pos in Es. cbn [m_uri m_top m_pos] in Es. case_bool_decide as Hk; [|done]. lia. }
      rewrite method_update. split; [|done]. apply Hw; [done|unfold get_pos; simpl; lia|].
      split; [by rewrite Hc, Hpc|exact Ed].
    + apply (uri_error_ends _ (fun _ _ => _)). unfold get_pos. simpl. lia.
  - rewrite method_update. case_decide.
    + apply (invalid_char_ends _ (fun _ _ => _)). simpl. unfold get_pos. simpl. lia.
    + split; [|done]. apply Hw; [done|unfold get_pos; simpl; lia|done].
Qed.

Lemma uconsume_ends p : wf p -> ends_as uconsume p (fun _ p' => went_on p p' /\ (get_pos p < get_pos p')%nat).
Proof using.
  intros Hp. unfold uconsume. unfold ends_as. rewrite method_read, at_end_wf by done. case_bool_decide as He.
  { apply (uri_error_ends _ (fun _ _ => _)). pose proof (wf_pos p Hp). by destruct Hp as (-> & _). }
  rewrite method_read. pose proof Hp as (Hu & (Hl & Hn & Hs) & Hb).
  apply (ends_bind get_token _ p _ (fun _ p' => went_on p p' /\ (get_pos p < get_pos p')%nat) (get_token_ends p Hu Hn Hb)).
  intros a p' (Hw & Hpos & Hbel). unfold ends_as, mret, Method_ret. unfold get_pos in *.
  assert (m_pos (m_top p) < m_pos (m_top p'))%nat by (rewrite Hpos; apply Hs; lia).
  split; [|done]. split; [done|]. split; [unfold get_pos; lia|]. by exists [].
Qed.

Lemma go_on_uconsume : goes_on uconsume.
Proof using. intros p Hp. eapply ends_mono; [by apply uconsume_ends|]. by intros a p' [H _]. Qed.

Lemma uconsume_is_ends tt p : wf p ->
  ends_as (uconsume_is tt) p (fun b p' => went_on p p' /\ (b = true -> get_pos p < get_pos p')%nat).
Proof using.
  intros Hp. unfold uconsume_is, ends_as. rewrite method_read. destruct (has_more_tokens p && _).
  - apply (ends_bind uconsume _ p _ (fun b p' => went_on p p' /\ (b = true -> get_pos p < get_pos p')%nat) (uconsume_ends p Hp)).
    intros a p' [H1 H2]. by split.
  - by split; [apply went_on_refl|].
Qed.

Lemma go_on_uconsume_is tt : goes_on (uconsume_is tt).
Proof using. intros p Hp. eapply ends_mono; [by apply uconsume_is_ends|]. by intros a p' [H _]. Qed.

(** ** Guards *)

Lemma go_on_push : goes_on push.
Proof using.
  intros p Hp. destruct Hp as (Hu & Ht & Hb). split; [split; [done|]; split; [done|by constructor]|].
  split; [done|]. exists [m_top p]. split; [done|]. by apply Forall_singleton.
Qed.

(** A state is taken that was put there since [p]. *)
Lemma pop_ends p p' : wf p -> went_on (mk_URI_parser (m_uri p) (m_has_scheme p) (m_top p) (m_top p :: m_below p) (m_log p)) p' ->
  ends_as pop p' (fun _ p'' => went_on p p'').
Proof using.
  intros Hp ((Hu & Ht & Hb) & Hpos & extra & He & Hx). unfold ends_as, pop.
  destruct (m_below p') as [|st l] eqn:E; [by destruct extra|]. apply Forall_cons in Hb as [Hst Hl].
  destruct extra as [|st' extra]; injection He as -> ->.
  - split; [done|]. split; [unfold get_pos; simpl; lia|]. by exists [].
  - apply Forall_cons in Hx as [Hx Hxs]. split; [done|]. split; [done|].
    exists (extra ++ [m_top p]). split; [by rewrite <- app_assoc|]. apply Forall_app. split; [done|].
    by apply Forall_singleton.
Qed.

Lemma go_on_guarded {A} (body : uparser (bool * A)) : goes_on body -> goes_on (guarded_by body).
Proof using.
  intros Hbody p Hp. unfold guarded_by, push, ends_as. rewrite method_update.
  destruct (go_on_push p Hp) as (Hw & _).
  set (q := mk_URI_parser (m_uri p) (m_has_scheme p) (m_top p) (m_top p :: m_below p) (m_log p)) in *.
  apply (ends_bind body _ q _ (fun _ p' => went_on p p') (Hbody q Hw)).
  intros [release a] p' Hq. destruct release.
  - eapply went_on_trans; [|exact Hq]. by apply (go_on_push p Hp).
  - eapply ends_bind; [by apply (pop_ends p p')|]. intros u p'' H. exact H.
Qed.

(** ** Loops: [n] turns are enough where fewer characters are left *)

Definition within {A} (n : nat) (m : uparser A) : Prop :=
  forall p, wf p -> (length uri < get_pos p + n)%nat -> ends_as m p (fun _ p' => went_on p p').

Lemma go_on_within {A} n (m : uparser A) : goes_on m -> within n m.
Proof using. intros H p Hp _. by apply H. Qed.

Lemma within_none {A} (m : uparser A) : within 0 m.
Proof using. intros p Hp Hn. pose proof (wf_pos p Hp). lia. Qed.

Lemma within_bind {A B} n (m : uparser A) (f : A -> uparser B) :
  within n m -> (forall a, within n (f a)) -> within n (m ≫= f).
Proof using.
  intros Hm Hf p Hp Hn. eapply ends_bind; [by apply Hm|]. intros a p' H.
  eapply ends_mono; [apply Hf; [by destruct H|]|].
  - destruct H as (_ & H & _). lia.
  - intros b p'' H'. exact (went_on_trans _ _ _ H H').
Qed.

Lemma within_read {A B} n (g : URI_parser -> A) (f : A -> uparser B) :
  (forall a, within n (f a)) -> within n (read g ≫= f).
Proof using. intros Hf p Hp Hn. unfold ends_as. rewrite method_read. by apply Hf. Qed.

Lemma within_uconsume {B} n (f : UToken -> uparser B) :
  (forall a, within n (f a)) -> within (S n) (uconsume ≫= f).
Proof using.
  intros Hf p Hp Hn. eapply ends_bind; [by apply uconsume_ends|]. intros a p' [H Hlt].
  eapply ends_mono; [apply Hf; [by destruct H|lia]|]. intros b p'' H'. exact (went_on_trans _ _ _ H H').
Qed.

Lemma within_uconsume_is {B} tt n (f : bool -> uparser B) :
  within n (f true) -> within (S n) (f false) -> within (S n) (uconsume_is tt ≫= f).
Proof using.
  intros Ht Hf p Hp Hn. eapply ends_bind; [by apply uconsume_is_ends|]. intros [|] p' [H Hlt].
  - specialize (Hlt eq_refl). eapply ends_mono; [apply Ht; [by destruct H|lia]|].
    intros b p'' H'. exact (went_on_trans _ _ _ H H').
  - pose proof H as (Hw & Hle & _). eapply ends_mono; [apply Hf; [done|lia]|].
    intros b p'' H'. exact (went_on_trans _ _ _ H H').
Qed.

Lemma go_on_turns {B} (f : nat -> uparser B) : (forall n, within n (f n)) -> goes_on (read uturns ≫= f).
Proof using.
  intros Hf p Hp. unfold ends_as. rewrite method_read. apply Hf; [done|]. unfold uturns.
  destruct Hp as (-> & _). lia.
Qed.

Lemma within_consume_loop n more buf : within n (consume_loop n more buf).
Proof using.
  revert buf. induction n as [|n IH]; intros buf; [apply within_none|]. cbn [consume_loop].
  apply within_read. intros [|]; [|apply go_on_within, go_on_ret]. by apply within_uconsume.
Qed.

Lemma go_on_consume_while buf set : goes_on (consume_while buf set).
Proof using. apply go_on_turns. intros n. apply within_consume_loop. Qed.

Lemma go_on_consume_until buf set : goes_on (consume_until buf set).
Proof using. apply go_on_turns. intros n. apply within_consume_loop. Qed.
End ends.

(** A step of a proof that a method goes on, following its text. *)
Create HintDb go_on.
#[export] Hint Resolve go_on_ret go_on_report go_on_error go_on_uconsume go_on_uconsume_is go_on_push
  go_on_consume_while go_on_consume_until : go_on.

Ltac go_on :=
  repeat match goal with
  | |- forall _, _ => intros ?
  | |- goes_on _ (read uturns ≫= _) => apply go_on_turns
  | |- goes_on _ (read _ ≫= _) => apply go_on_read
  | |- goes_on _ (_ ≫= _) => apply go_on_bind
  | |- goes_on _ (guarded_by _) => apply go_on_guarded
  | |- goes_on _ (if ?b then _ else _) => destruct b
  | |- goes_on _ (match ?x with _ => _ end) => destruct x
  | |- goes_on _ _ => solve [auto with go_on]
  end.

Section grammar.
Context (uri : str).
Local Abbreviation goes_on := (goes_on uri).
Local Abbreviation within := (within uri).

(** A character that can be written as it is is below 128. *)
Lemma plain_low t : m_pct t = false -> get_type t <> T_INVALID -> code (m_char t) < 128.
Proof using.
  destruct t as [c p]. simpl. intros ->. unfold get_type. cbn [m_pct m_char].
  destruct (isalpha c) eqn:E.
  { intros _. unfold isalpha, ctf_upper, ctf_lower in E. lia. }
  destruct (symbol_type URI_TOKEN_LIST c) as [T|] eqn:Es.
  - intros _. revert Es. unfold URI_TOKEN_LIST. simpl. repeat (case_decide; [by subst|]). done.
  - destruct (ctf_digit (code c)) eqn:Ed; [|done]. intros _. unfold ctf_digit in Ed. lia.
Qed.

(** Two characters are compared, unless the one of the input is escaped and above 127. *)
Lemma compare_ci_ok c d : code d < 128 -> ~ (128 <= code c < 255) -> exists b, compare_ci c d = Ok b.
Proof using.
  intros Hd Hc. unfold compare_ci, tolower. rewrite (proj2 (Z.ltb_lt (code d) _)) by done.
  destruct (Z.ltb_spec (code c) 128); [by eexists|]. pose proof (code_range c).
  replace (code c =? 255) with true by lia. by eexists.
Qed.

Lemma go_on_word_loop w : Forall (fun c => code c < 128) w -> goes_on (consume_word_loop compare_ci w).
Proof using.
  induction 1 as [|c w Hc _ IH]; cbn [consume_word_loop]; [go_on|].
  intros p Hp. unfold ends_as. rewrite method_read. unfold has_more_tokens. rewrite (at_end_wf uri) by done.
  case_bool_decide as He; cbn [negb]; [by apply (go_on_ret uri (false, false))|].
  rewrite method_read. set (t := m_tok (m_top p)).
  assert (Ht : token_at uri (get_pos p) t).
  { destruct Hp as (_ & (_ & _ & Hs) & _). by apply Hs; unfold get_pos in He; lia. }
  destruct (decide (128 <= code (m_char t) < 255)) as [Hh|Hh].
  - unfold compare_ci, tolower. replace (code (m_char t) <? 128) with false by lia.
    replace (code (m_char t) =? 255) with false by lia. unfold mbind, Method_bind, pure. simpl.
    unfold token_at in Ht. destruct (m_pct t) eqn:Ep.
    + exists (get_pos p), (m_char t). by destruct Ht.
    + pose proof (plain_low t Ep Ht). lia.
  - destruct (compare_ci_ok (m_char t) c Hc Hh) as [b ->]. rewrite method_pure.
    destruct b; cbn [negb]; [|by apply (go_on_ret uri (false, false))].
    revert p Hp He t Ht Hh. intros p Hp _ _ _ _.
    change (ends_as uri (uconsume;; consume_word_loop compare_ci w) p (fun _ p' => went_on uri p p')).
    revert p Hp. change (goes_on (uconsume;; consume_word_loop compare_ci w)). go_on.
Qed.

Lemma go_on_word_ci w : Forall (fun c => code c < 128) w -> goes_on (consume_word_ci w).
Proof using. intros Hw. unfold consume_word_ci, consume_word_base. apply go_on_guarded. by apply go_on_word_loop. Qed.

#[local] Hint Extern 1 (UriConnection.goes_on _ (consume_word_ci _)) =>
  apply go_on_word_ci; apply (bool_decide_unpack _); vm_compute; exact I : go_on.

Lemma go_on_convert_val port : goes_on (convert_val port).
Proof using. unfold convert_val. go_on. Qed.
#[local] Hint Resolve go_on_convert_val : go_on.

Lemma go_on_report_address opts prio host port : goes_on (report_address opts prio host port).
Proof using. unfold report_address. go_on. Qed.
#[local] Hint Resolve go_on_report_address : go_on.

Lemma within_balanced n : forall cs inc, within n (parse_balanced n cs inc).
Proof using.
  induction n as [|n IH]; intros cs inc; [apply within_none|]. cbn [parse_balanced].
  apply within_uconsume_is; cbn [negb]; [|apply go_on_within; go_on].
  apply within_bind; [apply go_on_within; go_on|intros cs1]. apply within_read. intros again.
  apply within_bind; [destruct again; [apply IH|apply go_on_within; go_on]|intros cs2].
  apply go_on_within. go_on.
Qed.

Lemma within_ip6 n : forall addr, within n (ip6_loop n addr).
Proof using.
  induction n as [|n IH]; intros addr; [apply within_none|]. cbn [ip6_loop].
  apply within_read. intros [|]; cbn [negb]; [|apply go_on_within; go_on]. apply within_uconsume. intros t.
  destruct (m_pct t); [apply go_on_within; go_on|]. destruct (_ && _); [apply go_on_within; go_on|]. apply IH.
Qed.

Lemma go_on_ip4_loop left : forall first addr, goes_on (ip4_loop left first addr).
Proof using.
  induction left as [|n IH]; intros first addr; cbn [ip4_loop]; go_on. 
Qed.
#[local] Hint Resolve go_on_ip4_loop : go_on.

Lemma go_on_ip6 : goes_on parse_ip6.
Proof using.
  unfold parse_ip6. apply go_on_turns. intros n. apply within_bind; [apply within_ip6|].
  intros addr. apply go_on_within. go_on.
Qed.
#[local] Hint Resolve go_on_ip6 : go_on.

Lemma go_on_ip4 : goes_on parse_ip4.
Proof using. unfold parse_ip4. go_on. Qed.
#[local] Hint Resolve go_on_ip4 : go_on.

Lemma go_on_ip_address : goes_on parse_ip_address.
Proof using. unfold parse_ip_address. go_on. Qed.
#[local] Hint Resolve go_on_ip_address : go_on.

Lemma go_on_host : goes_on parse_host.
Proof using.
  unfold parse_host. apply go_on_read. intros [|]; [|go_on]. apply go_on_turns. intros n.
  apply within_bind; [apply within_balanced|]. intros a. apply go_on_within. go_on.
Qed.
#[local] Hint Resolve go_on_host : go_on.

Lemma go_on_host_priority : goes_on parse_host_priority.
Proof using. unfold parse_host_priority. go_on. Qed.
#[local] Hint Resolve go_on_host_priority : go_on.

Lemma go_on_list_entry : goes_on parse_list_entry.
Proof using. unfold parse_list_entry. go_on. Qed.

Lemma within_separated sep body : goes_on body -> forall n, within n (separated n sep body).
Proof using.
  intros Hb. induction n as [|n IH]; [apply within_none|]. cbn [separated].
  apply within_bind; [by apply go_on_within|intros _]. apply within_uconsume_is; [apply IH|].
  apply go_on_within. go_on.
Qed.

Lemma go_on_host_list : goes_on parse_host_list.
Proof using.
  unfold parse_host_list. apply go_on_bind; [go_on|intros _]. apply go_on_turns. intros n.
  apply within_bind; [apply within_separated, go_on_list_entry|intros _]. apply go_on_within. go_on.
Qed.

Lemma go_on_userinfo : goes_on parse_userinfo.
Proof using. unfold parse_userinfo. go_on. Qed.

(** The state before the host is put back before a list is read. *)
Lemma go_on_connection : goes_on parse_connection.
Proof using.
  unfold parse_connection. apply go_on_read. intros [|]; [go_on|].
  apply go_on_bind; [apply go_on_userinfo|intros _]. intros p Hp.
  unfold push, ends_as. rewrite method_update, method_read.
  destruct (go_on_push uri p Hp) as (Hw & Hpush).
  set (q := mk_URI_parser (m_uri p) (m_has_scheme p) (m_top p) (m_top p :: m_below p) (m_log p)) in *.
  refine (ends_bind uri parse_host _ q _ (fun _ p' => went_on uri p p') (go_on_host q Hw) _).
  intros [[opts host] port] p' Hq. destruct (_ && _).
  - eapply ends_bind; [by apply (pop_ends uri p p')|]. intros u p'' H. simpl in H.
    eapply ends_mono; [apply go_on_host_list; by destruct H|]. intros v r Hr. exact (went_on_trans _ _ _ _ H Hr).
  - eapply ends_mono; [|intros v r Hr; eapply went_on_trans; [split; [exact Hw|exact Hpush]|];
      eapply went_on_trans; [exact Hq|exact Hr]].
    assert (Hgo : goes_on (report_address opts 0 host port;; mret tt)) by go_on. apply Hgo. by destruct Hq.
Qed.

Lemma go_on_path : goes_on parse_path.
Proof using. unfold parse_path. go_on. Qed.

Lemma within_val_loop n : forall vals, within n (val_loop n vals).
Proof using.
  induction n as [|n IH]; intros vals; [apply within_none|]. cbn [val_loop].
  apply within_bind; [apply go_on_within; go_on|intros v].
  apply within_uconsume_is; [apply IH|apply go_on_within; go_on].
Qed.

Lemma go_on_error_bytes {A} msg : goes_on (@parse_error_bytes A msg).
Proof using. unfold parse_error_bytes. destruct (from_utf8 msg); [go_on|]. by intros p Hp. Qed.
#[local] Hint Resolve go_on_error_bytes : go_on.

Lemma go_on_val_list key : goes_on (parse_val_list key).
Proof using.
  unfold parse_val_list. apply go_on_bind; [go_on|intros [|]]; cbn [negb]; [|go_on]. apply go_on_turns. intros n.
  apply within_bind; [apply within_val_loop|]. intros v. apply go_on_within. go_on.
Qed.
#[local] Hint Resolve go_on_val_list : go_on.

Lemma go_on_pair : goes_on parse_pair.
Proof using. unfold parse_pair. go_on. Qed.

Lemma go_on_query : goes_on parse_query.
Proof using.
  unfold parse_query. apply go_on_bind; [go_on|intros [|]]; cbn [negb]; [|go_on]. apply go_on_turns. intros n.
  apply within_separated, go_on_pair.
Qed.

Lemma go_on_body : goes_on (
  parse_connection;; parse_path;; parse_query;;
  more ← read has_more_tokens;
  if more : bool then uri_error (wlit "Unexpected characters at the end") else mret tt).
Proof using.
  pose proof go_on_connection. pose proof go_on_path. pose proof go_on_query. go_on.
Qed.
End grammar.

(** ** The whole parser *)

Lemma find_scheme_length n s pos q : find_scheme n s pos = Some q -> (q + 3 <= length s)%nat.
Proof.
  revert pos. induction n as [|n IH]; intros pos; [done|]. cbn [find_scheme]. case_decide as H; [|apply IH].
  intros [= <-]. apply (f_equal length) in H. rewrite length_take, length_drop in H.
  change (length (lit "://")) with 3%nat in H. lia.
Qed.

Lemma check_scheme_ends uri force : 
  ends_as uri (check_scheme force) (mk_URI_parser uri false (mk_State UToken_new 0 0) [] []) (fun _ p => wf uri p).
Proof.
  unfold check_scheme, ends_as. rewrite method_read, method_update. cbn [m_uri m_log].
  set (p0 := mk_URI_parser uri _ (mk_State UToken_new 0 0) [] []).
  assert (Hget : forall (a : bool) n, (n <= length uri)%nat ->
    ends_as uri (get_token;; mret a) (set_top (mk_State UToken_new 0 n) p0) (fun _ p => wf uri p)).
  { intros a n Hn. eapply ends_bind; [by apply (get_token_ends uri)|]. intros b p (Hp & _). exact Hp. }
  destruct (find_scheme _ uri 0) as [pos|] eqn:E.
  - apply find_scheme_length in E. case_decide.
    + rewrite method_update. by apply Hget.
    + apply (uri_error_ends uri _ (fun _ _ => _)). exact (Nat.le_0_l _).
  - case_decide as H.
    + rewrite method_update. unfold unexpected, get_pos, set_top. cbn [m_uri m_top m_pos]. unfold p0. cbn [m_uri].
      destruct (error_buffers_ok (codes uri) 6) as (s & a & ->); [|done].
      unfold codes. rewrite length_fmap. apply (f_equal length) in H. rewrite length_take in H.
      change (length (lit "mysqlx")) with 6%nat in H. lia.
    + destruct force; [apply (uri_error_ends uri _ (fun _ _ => _)); exact (Nat.le_0_l _)|].
      apply (Hget false 0%nat). lia.
Qed.

(** For every string the parser ends, with the calls it made or with an error, or it is
    undefined on an escaped character. *)
Lemma URI_process_returns uri force :
  match (URI_process uri force).1 with
  | Ok _ => True
  | Throw e => uri_exn e
  | Undefined => escapes_high uri
  | Diverged => False
  end.
Proof.
  unfold URI_process, uri_parse.
  pose proof (ends_bind uri (check_scheme force) (fun _ => _) _ _ (fun _ _ => True) (check_scheme_ends uri force)
    (fun _ p Hp => ends_mono uri _ p _ (fun _ _ => True) (go_on_body uri p Hp) (fun _ _ _ => I))) as H.
  unfold ends_as in H. revert H.
  by destruct ((check_scheme force ≫= _) _) as [[[]|e| |] p].
Qed.
