(* ===== verification/ExprBase.v ===== *)
(** * Keywords, operators and stored expressions

    src/mysqlconnector/cdk/parser/expr_parser.h: the reserved words and the operators of
    X DevAPI expressions ([Keyword], [Op]), the tests of tokens over them
    ([Expr_token_base]), column references and document paths, and the classes that store
    parsed expressions ([Stored_any], [Stored_list], [Stored_doc], [Stored_scalar],
    [Stored_op], [Stored_ilri]).

    A stored expression is the tree of what was reported to it ([stored]); [replay] is its
    method [process], which reports it to another processor. *)

From S2P Require Import Prelude Cursor Tokenizer ParserBase.

(** ** Reserved words *)

Inductive keyword :=
| K_NONE
| K_NOT | K_AND | K_OR | K_XOR | K_IS | K_BETWEEN | K_TRUE | K_FALSE | K_NULL | K_LIKE | K_RLIKE
| K_INTERVAL | K_REGEXP | K_ESCAPE | K_HEX | K_BIN | K_MOD | K_AS | K_USING | K_ASC | K_DESC
| K_CAST | K_CHARACTER | K_SET | K_CHARSET | K_ASCII | K_UNICODE | K_BYTE | K_BINARY | K_CHAR
| K_NCHAR | K_DATE | K_DATETIME | K_TIME | K_DECIMAL | K_SIGNED | K_UNSIGNED | K_INTEGER | K_INT
| K_JSON | K_IN | K_SOUNDS | K_LEADING | K_TRAILING | K_BOTH | K_FROM
| K_MICROSECOND | K_SECOND | K_MINUTE | K_HOUR | K_DAY | K_WEEK | K_MONTH | K_QUARTER | K_YEAR.

#[export] Instance keyword_eq_dec : EqDecision keyword.
Proof. solve_decision. Defined.

(** Each keyword with its text and the name of its enumerator. *)
Definition KEYWORD_LIST : list (keyword * wstr * wstr) :=
  [(K_NOT, wlit "not", wlit "NOT"); (K_AND, wlit "and", wlit "AND"); (K_OR, wlit "or", wlit "OR");
   (K_XOR, wlit "xor", wlit "XOR"); (K_IS, wlit "is", wlit "IS");
   (K_BETWEEN, wlit "between", wlit "BETWEEN"); (K_TRUE, wlit "true", wlit "L_TRUE");
   (K_FALSE, wlit "false", wlit "L_FALSE"); (K_NULL, wlit "null", wlit "L_NULL");
   (K_LIKE, wlit "like", wlit "LIKE"); (K_RLIKE, wlit "rlike", wlit "RLIKE");
   (K_INTERVAL, wlit "interval", wlit "INTERVAL"); (K_REGEXP, wlit "regexp", wlit "REGEXP");
   (K_ESCAPE, wlit "escape", wlit "ESCAPE"); (K_HEX, wlit "hex", wlit "HEX");
   (K_BIN, wlit "bin", wlit "BIN"); (K_MOD, wlit "mod", wlit "MOD"); (K_AS, wlit "as", wlit "AS");
   (K_USING, wlit "using", wlit "USING"); (K_ASC, wlit "asc", wlit "ASC");
   (K_DESC, wlit "desc", wlit "DESC"); (K_CAST, wlit "cast", wlit "CAST");
   (K_CHARACTER, wlit "character", wlit "CHARACTER"); (K_SET, wlit "set", wlit "SET");
   (K_CHARSET, wlit "charset", wlit "CHARSET"); (K_ASCII, wlit "ascii", wlit "ASCII");
   (K_UNICODE, wlit "unicode", wlit "UNICODE"); (K_BYTE, wlit "byte", wlit "BYTE");
   (K_BINARY, wlit "binary", wlit "BINARY"); (K_CHAR, wlit "char", wlit "CHAR");
   (K_NCHAR, wlit "nchar", wlit "NCHAR"); (K_DATE, wlit "date", wlit "DATE");
   (K_DATETIME, wlit "datetime", wlit "DATETIME"); (K_TIME, wlit "time", wlit "TIME");
   (K_DECIMAL, wlit "decimal", wlit "DECIMAL"); (K_SIGNED, wlit "signed", wlit "SIGNED");
   (K_UNSIGNED, wlit "unsigned", wlit "UNSIGNED"); (K_INTEGER, wlit "integer", wlit "INTEGER");
   (K_INT, wlit "int", wlit "INT"); (K_JSON, wlit "json", wlit "JSON"); (K_IN, wlit "in", wlit "IN");
   (K_SOUNDS, wlit "sounds", wlit "SOUNDS"); (K_LEADING, wlit "leading", wlit "LEADING");
   (K_TRAILING, wlit "trailing", wlit "TRAILING"); (K_BOTH, wlit "both", wlit "BOTH");
   (K_FROM, wlit "from", wlit "FROM"); (K_MICROSECOND, wlit "microsecond", wlit "MICROSECOND");
   (K_SECOND, wlit "second", wlit "SECOND"); (K_MINUTE, wlit "minute", wlit "MINUTE");
   (K_HOUR, wlit "hour", wlit "HOUR"); (K_DAY, wlit "day", wlit "DAY");
   (K_WEEK, wlit "week", wlit "WEEK"); (K_MONTH, wlit "month", wlit "MONTH");
   (K_QUARTER, wlit "quarter", wlit "QUARTER"); (K_YEAR, wlit "year", wlit "YEAR")].

(** [Keyword::equal]: equal in lower case. *)
Definition kw_equal (a b : wstr) : bool := bool_decide (ctf_tolower <$> a = ctf_tolower <$> b).

Fixpoint find_keyword (l : list (keyword * wstr * wstr)) (text : wstr) : keyword :=
  match l with
  | [] => K_NONE
  | (k, s, _) :: l' => if kw_equal text s then k else find_keyword l' text
  end.

(** Only words can be keywords. *)
Definition Keyword_get (t : Token) : keyword :=
  if decide (tok_type t = WORD) then find_keyword KEYWORD_LIST (tok_text t) else K_NONE.

(** The name of a keyword, null for none. *)
Definition Keyword_name (k : keyword) : option wstr :=
  snd <$> find (fun x => bool_decide (x.1.1 = k)) KEYWORD_LIST.

(** ** Operators *)

Inductive op :=
| O_NONE
| O_STAR | O_PLUS | O_MINUS | O_NEG | O_BITNEG | O_NOT
| O_ADD | O_SUB | O_MUL | O_DIV | O_MOD | O_OR | O_AND | O_BITOR | O_BITAND | O_BITXOR
| O_LSHIFT | O_RSHIFT | O_EQ | O_NE | O_GT | O_GE | O_LT | O_LE | O_IS | O_IS_NOT | O_IN | O_NOT_IN
| O_CONT_IN | O_NOT_CONT_IN | O_LIKE | O_NOT_LIKE | O_RLIKE | O_NOT_RLIKE | O_BETWEEN
| O_NOT_BETWEEN | O_REGEXP | O_NOT_REGEXP | O_CAST | O_SOUNDS_LIKE.

#[export] Instance op_eq_dec : EqDecision op.
Proof. solve_decision. Defined.

Definition UNARY_OP : list (op * wstr * list Token_Type * list keyword) :=
  [(O_STAR, wlit "*", [STAR], []); (O_PLUS, wlit "+", [PLUS], []); (O_MINUS, wlit "-", [MINUS], []);
   (O_NEG, wlit "!", [BANG], []); (O_BITNEG, wlit "~", [TILDE], []); (O_NOT, wlit "not", [], [K_NOT])].

Definition BINARY_OP : list (op * wstr * list Token_Type * list keyword) :=
  [(O_ADD, wlit "+", [PLUS], []); (O_SUB, wlit "-", [MINUS], []); (O_MUL, wlit "*", [STAR], []);
   (O_DIV, wlit "/", [SLASH], []); (O_MOD, wlit "%", [PERCENT], [K_MOD]);
   (O_OR, wlit "||", [BAR2], [K_OR]); (O_AND, wlit "&&", [AMPERSTAND2], [K_AND]);
   (O_BITOR, wlit "|", [BAR], []); (O_BITAND, wlit "&", [AMPERSTAND], []); (O_BITXOR, wlit "^", [HAT], []);
   (O_LSHIFT, wlit "<<", [LSHIFT], []); (O_RSHIFT, wlit ">>", [RSHIFT], []);
   (O_EQ, wlit "==", [EQ; EQ2], []); (O_NE, wlit "!=", [NE; DF], []); (O_GT, wlit ">", [GT], []);
   (O_GE, wlit ">=", [GE], []); (O_LT, wlit "<", [LT], []); (O_LE, wlit "<=", [LE], []);
   (O_IS, wlit "is", [], [K_IS]); (O_IS_NOT, wlit "is_not", [], []); (O_IN, wlit "in", [], [K_IN]);
   (O_NOT_IN, wlit "not_in", [], []); (O_CONT_IN, wlit "cont_in", [], []);
   (O_NOT_CONT_IN, wlit "not_cont_in", [], []); (O_LIKE, wlit "like", [], [K_LIKE]);
   (O_NOT_LIKE, wlit "not_like", [], []); (O_RLIKE, wlit "regexp", [], [K_RLIKE]);
   (O_NOT_RLIKE, wlit "not_regexp", [], []); (O_BETWEEN, wlit "between", [], [K_BETWEEN]);
   (O_NOT_BETWEEN, wlit "not_between", [], []); (O_REGEXP, wlit "regexp", [], [K_REGEXP]);
   (O_NOT_REGEXP, wlit "not_regexp", [], []); (O_CAST, wlit "cast", [], [K_CAST]);
   (O_SOUNDS_LIKE, wlit "sounds like", [], [K_SOUNDS])].

(** [Op::name]. *)
Definition Op_name (o : op) : wstr :=
  match find (fun x => bool_decide (x.1.1.1 = o)) (UNARY_OP ++ BINARY_OP) with
  | Some x => x.1.1.2
  | None => []
  end.

(** The token map first, then the keyword map. *)
Definition get_op (l : list (op * wstr * list Token_Type * list keyword)) (t : Token) : op :=
  match find (fun x => bool_decide (tok_type t ∈ x.1.2)) l with
  | Some x => x.1.1.1
  | None =>
      match find (fun x => bool_decide (Keyword_get t ∈ x.2)) l with
      | Some x => x.1.1.1
      | None => O_NONE
      end
  end.

Definition get_unary : Token -> op := get_op UNARY_OP.
Definition get_binary : Token -> op := get_op BINARY_OP.

Definition is_unary (o : op) : bool := bool_decide (o ∈ (fun x => x.1.1.1) <$> UNARY_OP).

(** [operator==] of an operator and a token. *)
Definition op_is (o : op) (t : Token) : bool :=
  bool_decide (o = if is_unary o then get_unary t else get_binary t).

(** ** Column references and document paths *)

(** A table without a name is none; a schema without a name is none. *)
Record Table_ref := mk_Table_ref { t_name : wstr; t_schema : wstr }.

#[export] Instance Table_ref_eq_dec : EqDecision Table_ref.
Proof. solve_decision. Defined.

Definition schema (t : Table_ref) : option wstr :=
  if decide (t_schema t = []) then None else Some (t_schema t).

Record Column_ref := mk_Column_ref { m_table_ref : Table_ref; m_col_name : wstr }.

#[export] Instance Column_ref_eq_dec : EqDecision Column_ref.
Proof. solve_decision. Defined.

Definition table (c : Column_ref) : option Table_ref :=
  if decide (t_name (m_table_ref c) = []) then None else Some (m_table_ref c).

Definition no_table : Table_ref := mk_Table_ref [] [].
Definition no_column : Column_ref := mk_Column_ref no_table [].

(** [set] of one and of two names: the schema of the table is empty after it was cleared. *)
Definition col_set (name : wstr) : Column_ref := mk_Column_ref no_table name.
Definition col_set2 (name tbl : wstr) : Column_ref := mk_Column_ref (mk_Table_ref tbl []) name.

Inductive path_el := P_member (name : wstr) | P_any_member | P_index (ind : Z) | P_any_index | P_any_path.

#[export] Instance path_el_eq_dec : EqDecision path_el.
Proof. solve_decision. Defined.

(** [Doc_path_storage]. *)
Record Doc_path := mk_Doc_path { m_whole_document : bool; m_path : list path_el }.

#[export] Instance Doc_path_eq_dec : EqDecision Doc_path.
Proof. solve_decision. Defined.

Definition empty_path : Doc_path := mk_Doc_path false [].

Definition path_is_empty (p : Doc_path) : bool :=
  if m_whole_document p then false else bool_decide (m_path p = []).

(** ** Calls on processors *)

(** Calls on processors of scalars, values and document paths, and those of the parsers of
    sort orders and projections. *)
Inductive expr_call :=
| x_op (name : wstr) | x_call (func : Table_ref) | x_val
| x_ref (col : Column_ref) (path : option Doc_path) | x_ref_path (path : Doc_path) | x_param (name : wstr)
| x_null | x_str (val : wstr) | x_octets (val : wstr) | x_int (val : Z) | x_uint (val : Z)
| x_double (val : decimal) | x_yesno (val : bool)
| x_path_begin | x_path_el | x_path (el : path_el) | x_path_end | x_whole_document
| x_sort_key (asc : bool) | x_expr | x_alias (name : wstr).

#[export] Instance expr_call_eq_dec : EqDecision expr_call.
Proof. solve_decision. Defined.

(** The parser: tokens and the log of the client as in [ParserBase], and the member
    [m_col_ref]. *)
Record EState := mk_EState { e_p : PState expr_call; m_col_ref : Column_ref }.

Abbreviation eparser := (Method EState).

Definition on_p {A} (m : Method (PState expr_call) A) : eparser A := fun s =>
  let '(o, p) := m (e_p s) in (o, mk_EState p (m_col_ref s)).

Definition set_col (c : Column_ref) : eparser unit := update (fun s => mk_EState (e_p s) c).

Definition eparse_error {A} (msg : wstr) : eparser A := on_p (parse_error msg).
Definition eunsupported {A} (what : wstr) : eparser A := on_p (unsupported what).

(** What reports go to: nothing (a null pointer), the [Sink] that ignores everything, a
    stored expression, or the client. *)
Inductive target := T_null | T_sink | T_store | T_prc.

#[export] Instance target_eq_dec : EqDecision target.
Proof. solve_decision. Defined.

Definition is_prc (t : target) : bool := bool_decide (t = T_prc).

(** A call that returns nothing. *)
Definition etell (t : target) (c : call expr_call) : eparser unit := on_p (tell (is_prc t) c).

(** A call that returns a processor: stored expressions always give one, the sink and the
    null pointer never, the client as it likes. *)
Definition eask (t : target) (c : call expr_call) : eparser target :=
  match t with
  | T_null | T_sink => mret T_null
  | T_store => mret T_store
  | T_prc => b ← on_p (ask true c); mret (if b : bool then T_prc else T_null)
  end.

(** ** Tokens that are keywords and operators *)

Definition epeek (s : EState) : option Token := peek_token (e_p s).
Definition eavailable (s : EState) : bool := tokens_available (e_p s).

Definition next_is_type (ty : Token_Type) (s : EState) : bool := cur_token_type_is ty (e_p s).
Definition next_in_types (l : list Token_Type) (s : EState) : bool := cur_token_type_in l (e_p s).

Definition next_is_kw (k : keyword) (s : EState) : bool :=
  match epeek s with Some t => bool_decide (k = Keyword_get t) | None => false end.

Definition next_in_kws (l : list keyword) (s : EState) : bool :=
  match epeek s with Some t => bool_decide (Keyword_get t ∈ l) | None => false end.

Definition next_is_op (o : op) (s : EState) : bool :=
  match epeek s with Some t => op_is o t | None => false end.

Definition next_in_ops (l : list op) (s : EState) : bool :=
  match epeek s with
  | Some t => bool_decide (get_binary t ∈ l) || bool_decide (get_unary t ∈ l)
  | None => false
  end.

Definition econsume : eparser (option Token) := on_p consume_token.

(** [consume_token] of a type, a keyword, an operator or a set of these. *)
Definition consume_when (test : EState -> bool) : eparser (option Token) :=
  b ← read test; if b : bool then econsume else mret None.

Definition consume_type (ty : Token_Type) : eparser (option Token) := consume_when (next_is_type ty).
Definition consume_kw (k : keyword) : eparser (option Token) := consume_when (next_is_kw k).
Definition consume_kws (l : list keyword) : eparser (option Token) := consume_when (next_in_kws l).
Definition consume_op (o : op) : eparser (option Token) := consume_when (next_is_op o).
Definition consume_ops (l : list op) : eparser (option Token) := consume_when (next_in_ops l).

Definition or_throw (m : eparser (option Token)) (msg : wstr) : eparser Token :=
  t ← m; match t with Some t => mret t | None => eparse_error msg end.

Definition type_throw (ty : Token_Type) (msg : wstr) : eparser Token := or_throw (consume_type ty) msg.
Definition kw_throw (k : keyword) (msg : wstr) : eparser Token := or_throw (consume_kw k) msg.

(** ** Stored expressions *)

(** The map of [Stored_doc], as the list of its pairs: keys in their order, the last value
    of a key. *)
Fixpoint wstr_lt (a b : wstr) : bool :=
  match a, b with
  | _, [] => false
  | [], _ :: _ => true
  | x :: a', y :: b' => if x <? y then true else if y <? x then false else wstr_lt a' b'
  end.

Fixpoint map_insert {V} (k : wstr) (v : V) (l : list (wstr * V)) : list (wstr * V) :=
  match l with
  | [] => [(k, v)]
  | (k', v') :: l' =>
      if wstr_lt k k' then (k, v) :: l
      else if wstr_lt k' k then (k', v') :: map_insert k v l' else (k, v) :: l'
  end.

Definition keyval_map {V} (l : list (wstr * V)) : list (wstr * V) :=
  fold_left (fun m x => map_insert x.1 x.2 m) l [].

(** [S_none] is a [Stored_any] to which nothing was reported. *)
Inductive stored :=
| S_none
| S_op (name : wstr) (args : list stored)
| S_call (func : Table_ref) (args : list stored)
| S_ref (col : Column_ref) (path : option Doc_path)
| S_path (path : Doc_path)
| S_param (name : wstr)
| S_null | S_str (val : wstr) | S_octets (val : wstr) | S_int (val : Z) | S_uint (val : Z)
| S_double (val : decimal) | S_bool (val : bool)
| S_arr (l : list stored)
| S_doc (l : list (wstr * stored)).

(** Reporting a list to a processor that may be null. *)
Fixpoint each {A} (f : A -> eparser unit) (l : list A) : eparser unit :=
  match l with [] => mret tt | x :: l' => f x;; each f l' end.

(** A literal value goes to the processor of values. *)
Definition tell_val (sprc : target) (c : expr_call) : eparser unit :=
  v ← eask sprc (c_base x_val); etell v (c_base c).

(** The calls that begin an operator, a function or a value. *)
Definition scalar_call (e : stored) : option expr_call :=
  match e with
  | S_ref col path => Some (x_ref col path)
  | S_path path => Some (x_ref_path path)
  | S_param name => Some (x_param name)
  | _ => None
  end.

Definition value_call (e : stored) : expr_call :=
  match e with
  | S_str v => x_str v | S_octets v => x_octets v | S_int v => x_int v | S_uint v => x_uint v
  | S_double v => x_double v | S_bool v => x_yesno v | _ => x_null
  end.

(** [process]: the tree is reported. *)
Fixpoint replay (e : stored) (prc : target) : eparser unit :=
  let args (l : list stored) (argsp : target) :=
    if bool_decide (argsp = T_null) then mret tt else
    etell argsp c_list_begin;;
    each (fun x => p ← eask argsp c_list_el; if bool_decide (p = T_null) then mret tt else replay x p) l;;
    etell argsp c_list_end in
  let scalar (f : target -> eparser unit) :=
    sprc ← eask prc c_scalar; if bool_decide (sprc = T_null) then mret tt else f sprc in
  match e with
  | S_none => mret tt
  | S_op name l => scalar (fun sprc => argsp ← eask sprc (c_base (x_op name)); args l argsp)
  | S_call func l => scalar (fun sprc => argsp ← eask sprc (c_base (x_call func)); args l argsp)
  | S_ref _ _ | S_path _ | S_param _ =>
      scalar (fun sprc => match scalar_call e with Some c => etell sprc (c_base c) | None => mret tt end)
  | S_null | S_str _ | S_octets _ | S_int _ | S_uint _ | S_double _ | S_bool _ =>
      scalar (fun sprc => tell_val sprc (value_call e))
  | S_arr l => lprc ← eask prc c_arr; args l lprc
  | S_doc l =>
      dprc ← eask prc c_doc;
      if bool_decide (dprc = T_null) then mret tt else
      etell dprc c_doc_begin;;
      each (fun x => p ← eask dprc (c_key_val x.1); if bool_decide (p = T_null) then mret tt else replay x.2 p) l;;
      etell dprc c_doc_end
  end.

(** [process_if]. *)
Definition replay_if (e : stored) (prc : target) : eparser unit :=
  if bool_decide (prc = T_null) then mret tt else replay e prc.
