(* ===== verification/ExprParser.v ===== *)
(** * The parser of expressions

    src/mysqlconnector/cdk/parser/expr_parser.{h,cc}: [Expr_parser_base], which parses the
    expressions of the X DevAPI on tokens, and the parsers built on it: of expressions
    ([Expression_parser]), sort orders ([Order_parser]), projections ([Projection_parser]),
    columns with a path ([Table_field_parser]) and document fields ([Doc_field_parser]).

    A method [parse_...] of the source reports to a processor, or stores what it parses
    and returns it when the processor is null.  Here it returns the tree in both cases:
    when it stores, the content of the object the source returns or was given; when it
    reports to the client, the tree of what is reported.  An assertion that fails is
    undefined.  Octets are given by the text that is converted to UTF-8.

    [parse] calls itself with one unit of fuel less; [expr_fuel] units are enough for the
    tokens that are left (ExprEnds.v). *)

From S2P Require Import Prelude Cursor Tokenizer ParserBase ExprBase.

Inductive Parser_mode := DOCUMENT | TABLE.

#[export] Instance Parser_mode_eq_dec : EqDecision Parser_mode.
Proof. solve_decision. Defined.

(** The members of an [Expr_parser_base] that do not change. *)
Record parser_obj := mk_obj { m_parser_mode : Parser_mode; m_strings_as_blobs : bool }.

Inductive Start :=
| FULL | ATOMIC | MUL | ADD | SHIFT | BIT | COMP | ILRI | AND | OR
| CAST_TYPE | COLID_DOCPATH | DOC | ARR.

#[export] Instance Start_eq_dec : EqDecision Start.
Proof. solve_decision. Defined.

(** A parser created on the tokens of another one has its own [m_col_ref]. *)
Definition fresh_parser {A} (m : eparser A) : eparser A := fun s =>
  let '(o, s') := m (mk_EState (e_p s) no_column) in (o, mk_EState (e_p s') (m_col_ref s)).

(** The turns that suffice for a loop over the tokens. *)
Definition token_turns (s : EState) : nat := S (length (rest_toks (e_p s))).

Definition is_null (prc : target) : bool := bool_decide (prc = T_null).

Definition ignore_if (prc : target) : target := if is_null prc then T_sink else prc.

(** Where to report when a null processor asks for storage. *)
Definition store_if (prc : target) : target := if is_null prc then T_store else prc.

(** A conversion inside the [try] block that turns its errors into parse errors. *)
Definition converted {A} (o : outcome A) : eparser A :=
  match o with
  | Throw e => match conversion_msg e with Some m => eparse_error m | None => pure (Throw e) end
  | _ => pure o
  end.

(** ** Document paths

    [prc] is the storage of a path or the client. *)

(** An element of a path: a null processor of elements is dereferenced.  With [first] the
    list of elements begins here, which [Path_el_reporter] defers to its first element. *)
Definition report_el (first : bool) (prc : target) (el : path_el) : eparser unit :=
  (if first then etell prc (c_base x_path_begin) else mret tt);;
  p ← eask prc (c_base x_path_el);
  if is_null p then pure Undefined else etell p (c_base (x_path el)).

Definition parse_docpath_member (first : bool) (prc : target) : eparser (option path_el) :=
  t ← read epeek;
  match t with
  | None => mret None
  | Some t =>
      let el := match tok_type t with
                | STAR => Some P_any_member
                | WORD | QQSTRING | QSTRING => Some (P_member (tok_text t))
                | _ => None
                end in
      match el with
      | None => mret None
      | Some el => report_el first prc el;; econsume;; mret (Some el)
      end
  end.

Definition parse_docpath_member_dot (first : bool) (prc : target) : eparser (option path_el) :=
  d ← consume_type DOT;
  match d with
  | None => mret None
  | Some _ =>
      el ← parse_docpath_member first prc;
      match el with
      | Some el => mret (Some el)
      | None => eparse_error (wlit "Expected member name or '*' after '.' in a document path")
      end
  end.

Definition index_max : Z := 2 ^ 32 - 1.

Definition parse_docpath_array (prc : target) : eparser (option path_el) :=
  b ← consume_type LSQBRACKET;
  match b with
  | None => mret None
  | Some _ =>
      s ← consume_type STAR;
      el ← match s with
           | Some _ => mret P_any_index
           | None =>
               i ← read (next_is_type INTEGER);
               if negb i then
                 eparse_error (wlit "Expected '*' or integer index after '[' in a document path")
               else
                 t ← econsume; t ← pure (deref t);
                 v ← converted (strtoui (tok_text t) 10);
                 if index_max <? v then eparse_error (wlit "Array index too large")
                 else mret (P_index v)
           end;
      report_el false prc el;;
      type_throw RSQBRACKET (wlit "Expected ']' to close a document path array component");;
      mret (Some el)
  end.

(** The loop of [parse_document_path1]: the elements, and whether the last one is "**". *)
Fixpoint path_loop (fuel : nat) (prc : target) (last_double_star : bool)
  : eparser (list path_el * bool) :=
  match fuel with
  | O => pure Diverged
  | S n =>
      more ← read (next_in_types [DOUBLESTAR; DOT; LSQBRACKET]);
      if negb more then mret ([], last_double_star) else
      d ← consume_type DOUBLESTAR;
      match d with
      | Some _ =>
          report_el false prc P_any_path;;
          '(l, star) ← path_loop n prc true; mret (P_any_path :: l, star)
      | None =>
          m ← parse_docpath_member_dot false prc;
          m ← match m with Some el => mret (Some el) | None => parse_docpath_array prc end;
          match m with
          | None => mret ([], last_double_star)
          | Some el => '(l, star) ← path_loop n prc false; mret (el :: l, star)
          end
      end
  end.

Definition path_ends_in_stars : wstr := wlit "Document path ending in '**'".

Definition parse_document_path1 (prc : target) : eparser (list path_el) :=
  n ← read token_turns;
  '(l, last_double_star) ← path_loop n prc false;
  if last_double_star : bool then eparse_error path_ends_in_stars else mret l.

Definition parse_document_path (prc : target) (require_dot : bool)
  : eparser (option (list path_el)) :=
  d ← consume_type DOUBLESTAR;
  first ← match d with
          | Some _ => report_el true prc P_any_path;; mret (Some P_any_path)
          | None =>
              m ← parse_docpath_member_dot true prc;
              match m with
              | Some el => mret (Some el)
              | None => if require_dot then mret None else parse_docpath_member true prc
              end
          end;
  match first with
  | None => mret None
  | Some el =>
      l ← parse_document_path1 prc;
      if bool_decide (l = []) && bool_decide (d <> None) then eparse_error path_ends_in_stars
      else etell prc (c_base x_path_end);; mret (Some (el :: l))
  end.

Definition parse_document_field (prc : target) (prefix : bool) : eparser Doc_path :=
  d ← consume_type DOLLAR;
  match d with
  | Some _ =>
      l ← parse_document_path prc true;
      match l with
      | Some l => mret (mk_Doc_path false l)
      | None => etell prc (c_base x_whole_document);; mret (mk_Doc_path true [])
      end
  | None =>
      if prefix then eparse_error (wlit "Expected '$' to start a document path") else
      l ← parse_document_path prc false;
      match l with
      | Some l => mret (mk_Doc_path false l)
      | None => eparse_error (wlit "Expected a document path")
      end
  end.

(** [parse_document_field] with one or two initial members. *)
Definition parse_document_field1 (first : wstr) (prc : target) : eparser Doc_path :=
  report_el true prc (P_member first);;
  l ← parse_document_path1 prc;
  etell prc (c_base x_path_end);;
  mret (mk_Doc_path false (P_member first :: l)).

Definition parse_document_field2 (first second : wstr) (prc : target) : eparser Doc_path :=
  report_el true prc (P_member first);;
  report_el false prc (P_member second);;
  l ← parse_document_path1 prc;
  etell prc (c_base x_path_end);;
  mret (mk_Doc_path false (P_member first :: P_member second :: l)).

(** ** Identifiers *)

Definition get_ident : eparser (option wstr) :=
  b ← read (next_in_types [WORD; QWORD]);
  if negb b then mret None else t ← econsume; t ← pure (deref t); mret (Some (tok_text t)).

(** [m_col_ref.m_table_ref.set]. *)
Definition set_table (f : Table_ref -> Table_ref) : eparser unit :=
  update (fun s => mk_EState (e_p s)
    (mk_Column_ref (f (m_table_ref (m_col_ref s))) (m_col_name (m_col_ref s)))).

(** The result, and the types of the tokens; those that were not there are the first
    enumerator.  What was read before a failure is stored. *)
Definition parse_schema_ident : eparser (bool * (Token_Type * Token_Type)) :=
  t0 ← read epeek;
  match t0 with
  | None => mret (false, (WORD, WORD))
  | Some t0 =>
      let ty0 := tok_type t0 in
      name ← get_ident;
      match name with
      | None => mret (false, (ty0, WORD))
      | Some name =>
          set_table (fun t => mk_Table_ref name (t_schema t));;
          d ← consume_type DOT;
          match d with
          | None => mret (true, (ty0, WORD))
          | Some _ =>
              t1 ← read epeek;
              match t1 with
              | None => mret (false, (ty0, WORD))
              | Some t1 =>
                  name1 ← get_ident;
                  match name1 with
                  | None => mret (false, (ty0, tok_type t1))
                  | Some name1 =>
                      set_table (fun _ => mk_Table_ref name1 name);;
                      mret (true, (ty0, tok_type t1))
                  end
              end
          end
      end
  end.

(** A parser over the tokens of another text, and whether it left tokens; the position of
    this parser does not change. *)
Definition on_text {A} (text : wstr) (m : eparser A) : eparser (A * bool) := fun s =>
  match Tokenizer_new text with
  | Ok toks =>
      let '(o, s') := m (mk_EState (set_it (mk_It text toks) (e_p s)) no_column) in
      (a ← o; Ok (a, eavailable s'), mk_EState (set_it (p_it (e_p s)) (e_p s')) (m_col_ref s))
  | Throw e => (Throw e, s)
  | Undefined => (Undefined, s)
  | Diverged => (Diverged, s)
  end.

(** The path after a column: none without an arrow. *)
Definition parse_column_ident1 (prc : target) : eparser Doc_path :=
  d ← consume_type DOT;
  match d with
  | Some _ =>
      name ← get_ident;
      match name with
      | None => eparse_error (wlit "Expected identifier after '.'")
      | Some name => col ← read m_col_ref; set_col (mk_Column_ref (m_table_ref col) name)
      end
  | None =>
      col ← read m_col_ref;
      tbl ← pure (deref (table col));
      set_col (match schema tbl with
               | Some sch => col_set2 (t_name tbl) sch
               | None => col_set (t_name tbl)
               end)
  end;;
  a ← consume_type ARROW;
  a ← match a with Some t => mret (Some t) | None => consume_type ARROW2 end;
  match a with
  | None => mret empty_path
  | Some _ =>
      q ← read (next_in_types [QSTRING; QQSTRING]);
      if q : bool then
        t ← econsume; t ← pure (deref t);
        '(path, more) ← on_text (tok_text t) (parse_document_field prc true);
        if more : bool then eparse_error (wlit "Unexpected characters in a quotted path component")
        else mret path
      else parse_document_field prc true
  end.

Definition parse_column_ident (prc : target) : eparser Doc_path :=
  '(ok, _) ← parse_schema_ident;
  if ok : bool then parse_column_ident1 prc
  else eparse_error (wlit "Expected a column identifier").

(** ** Cast types *)

Definition cast_data_type_dimension (double_dimension : bool) : eparser wstr :=
  type_throw LPAREN (wlit "Expected type dimension specification");;
  n ← type_throw INTEGER (wlit "Expected integer type dimension");
  c ← (if double_dimension then consume_type COMMA else mret None);
  second ← match c with
           | Some _ =>
               m ← type_throw INTEGER (wlit "Expected second type dimension after ','");
               mret (wlit "," ++ tok_text m)
           | None => mret []
           end;
  type_throw RPAREN (wlit "Expected ')' closing type dimension specification");;
  mret (wlit "(" ++ tok_text n ++ second ++ wlit ")").

(** The name of a word that is no keyword is null. *)
Definition parse_cast_type : eparser wstr :=
  t ← econsume;
  match t with
  | None => eparse_error (wlit "Expected cast type")
  | Some t =>
      let type := Keyword_get t in
      name ← pure (deref (Keyword_name type));
      match type with
      | K_BINARY | K_CHAR | K_DECIMAL =>
          b ← read (next_is_type LPAREN);
          if b : bool then
            d ← cast_data_type_dimension (bool_decide (type = K_DECIMAL)); mret (name ++ d)
          else mret name
      | K_SIGNED | K_UNSIGNED =>
          consume_kws [K_INTEGER; K_INT];;
          int ← pure (deref (Keyword_name K_INTEGER)); mret (name ++ wlit " " ++ int)
      | K_DATE | K_DATETIME | K_TIME | K_INTEGER | K_JSON => mret name
      | _ => eparse_error (wlit "Expected cast type")
      end
  end.

(** ** The templates of parser.h

    The parsers of lists, arrays and documents for elements that give trees; [None] is the
    result false. *)

(** [process_if]: without a processor the tokens are consumed. *)
Definition report_if {A} (m : target -> eparser (option A)) (prc : target) : eparser (option A) :=
  x ← m prc;
  match x with
  | None => if is_null prc then eparse_error (wlit "Failed to parse the string") else mret None
  | Some _ => mret x
  end.

(** [List_parser]; [el] parses an element and asks for its processor before. *)
Fixpoint list_loop {A} (fuel : nat) (el : eparser (option A)) (first_element : bool)
  : eparser (option (list A)) :=
  match fuel with
  | O => pure Diverged
  | S n =>
      x ← el;
      match x with
      | None =>
          if first_element then mret None else eparse_error (wlit "Expected next list element")
      | Some x =>
          c ← consume_type COMMA;
          match c with
          | None => mret (Some [x])
          | Some _ => l ← list_loop n el false; mret (cons x <$> l)
          end
      end
  end.

Definition list_parse {A} (el : eparser (option A)) : eparser (option (list A)) :=
  n ← read token_turns; list_loop n el true.

Section any_parser.
Context {A : Type} (any : target -> eparser (option A)).

(** [Arr_parser], [KV_parser] and [Doc_parser] over the parser [any] of elements. *)
Definition arr_parse (prc : target) : eparser (option (list A)) :=
  o ← consume_type LSQBRACKET;
  match o with
  | None => mret None
  | Some _ =>
      etell prc c_list_begin;;
      fin ← read (next_is_type RSQBRACKET);
      l ← (if fin : bool then mret [] else
             r ← report_if (fun prc => list_parse (e ← eask prc c_list_el; report_if any e)) prc;
             match r with
             | Some l => mret l
             | None => eparse_error (wlit "Expected array element")
             end);
      c ← consume_type RSQBRACKET;
      match c with
      | None => eparse_error (wlit "Expected ']' to close array")
      | Some _ => etell prc c_list_end;; mret (Some l)
      end
  end.

Definition kv_parse (prc : target) : eparser (option (wstr * A)) :=
  b ← read (next_in_types [QQSTRING; QSTRING; WORD]);
  if negb b then mret None else
  t ← econsume; t ← pure (deref t);
  c ← consume_type COLON;
  match c with
  | None => eparse_error (wlit "Expected ':' after key name in a document")
  | Some _ =>
      v ← eask prc (c_key_val (tok_text t));
      x ← report_if any v;
      match x with
      | Some x => mret (Some (tok_text t, x))
      | None => eparse_error (wlit "Expected key value after ':' in a document")
      end
  end.

Definition doc_parse (prc : target) : eparser (option (list (wstr * A))) :=
  o ← consume_type LCURLY;
  match o with
  | None => mret None
  | Some _ =>
      etell prc c_doc_begin;;
      fin ← read (next_is_type RCURLY);
      l ← (if fin : bool then mret [] else
             r ← list_parse (report_if kv_parse prc);
             match r with
             | Some l => mret l
             | None => eparse_error (wlit "Expected a key-value pair in a document")
             end);
      c ← consume_type RCURLY;
      match c with
      | None => eparse_error (wlit "Expected '}' closing a document")
      | Some _ => etell prc c_doc_end;; mret (Some (keyval_map l))
      end
  end.
End any_parser.

(** ** The methods, given the method [parse] *)

Section methods.
Context (parse : parser_obj -> Start -> target -> eparser stored).

(** [do_parse]: a null processor ignores the expression. *)
Definition do_parse (o : parser_obj) (prc : target) : eparser stored := parse o FULL (ignore_if prc).

(** [Any_parser] over [Base_parser<Mode>], which does not report strings as blobs. *)
Fixpoint any_parse (fuel : nat) (mode : Parser_mode) (prc : target) : eparser (option stored) :=
  match fuel with
  | O => pure Diverged
  | S n =>
      doc ← read (next_is_type LCURLY);
      arr ← read (next_is_type LSQBRACKET);
      if doc : bool then
        p ← eask prc c_doc;
        l ← report_if (doc_parse (any_parse n mode)) p; mret (Some (S_doc (default [] l)))
      else if arr : bool then
        p ← eask prc c_arr;
        l ← report_if (arr_parse (any_parse n mode)) p; mret (Some (S_arr (default [] l)))
      else x ← fresh_parser (do_parse (mk_obj mode false) prc); mret (Some x)
  end.

Definition parse_doc (o : parser_obj) (prc : target) : eparser stored :=
  n ← read token_turns;
  l ← report_if (doc_parse (any_parse n (m_parser_mode o))) prc; mret (S_doc (default [] l)).

Definition parse_arr (o : parser_obj) (prc : target) : eparser stored :=
  n ← read token_turns;
  l ← report_if (arr_parse (any_parse n (m_parser_mode o))) prc; mret (S_arr (default [] l)).

Definition parse_argslist (o : parser_obj) (prc : target) (strings_as_blobs : bool)
  : eparser (list stored) :=
  l ← report_if (fun prc => list_parse
        (e ← eask prc c_list_el;
         x ← fresh_parser (do_parse (mk_obj (m_parser_mode o) strings_as_blobs) e); mret (Some x))) prc;
  mret (default [] l).

(** [castOp] *)
Definition parse_cast (o : parser_obj) (prc : target) : eparser (option stored) :=
  t ← consume_op O_CAST;
  match t with
  | None => mret None
  | Some _ =>
      ap ← eask prc (c_base (x_op (Op_name O_CAST)));
      type_throw LPAREN (wlit "Expected '(' after CAST");;
      etell ap c_list_begin;;
      e ← eask ap c_list_el;
      x ← parse o FULL (ignore_if e);
      kw_throw K_AS (wlit "Expected AS after expression inside CAST operator");;
      e ← eask ap c_list_el; sprc ← eask e c_scalar; v ← eask sprc (c_base x_val);
      ty ← parse_cast_type;
      etell v (c_base (x_octets ty));;
      etell ap c_list_end;;
      type_throw RPAREN (wlit "Expected ')' closing CAST operator call");;
      mret (Some (S_op (Op_name O_CAST) [x; S_octets ty]))
  end.

(** The name [func] of the function is a reference to the table of [m_col_ref], which the
    arguments before may have changed. *)
Definition func_name : EState -> Table_ref := fun s => m_table_ref (m_col_ref s).

Definition parse_special_args (o : parser_obj) (aprc : target) : eparser (list stored) :=
  func ← read func_name;
  if bool_decide (schema func <> None) then mret [] else
  if kw_equal (t_name func) (wlit "char") then
    u ← read (next_is_kw K_USING);
    if u : bool then eunsupported (wlit "USING clause inside function CHAR()") else mret []
  else
    from ← read (next_is_kw K_FROM);
    if kw_equal (t_name func) (wlit "trim") && from then
      eunsupported (wlit "FROM clause inside function TRIM()")
    else if kw_equal (t_name func) (wlit "position") then
      i ← consume_kw K_IN;
      match i with
      | None => eparse_error (wlit "Expected IN inside POSITION(... IN ...)")
      | Some _ => e ← eask aprc c_list_el; x ← parse o FULL e; mret [x]
      end
    else mret [].

(** [functionCall], after its name *)
Definition parse_function_call (o : parser_obj) (prc : target) : eparser (option stored) :=
  p ← consume_type LPAREN;
  match p with
  | None => mret None
  | Some _ =>
      func ← read func_name;
      let qualified := bool_decide (schema func <> None) in
      let parse_position := negb qualified && kw_equal (t_name func) (wlit "position") in
      let called := if parse_position then mk_Table_ref (wlit "locate") [] else func in
      aprc ← eask prc (c_base (x_call called));
      etell aprc c_list_begin;;
      fin ← read (next_is_type RPAREN);
      args ← (if fin : bool then mret [] else
        clause ← read (next_in_kws [K_BOTH; K_LEADING; K_TRAILING]);
        if negb qualified && kw_equal (t_name func) (wlit "trim") && clause then
          eunsupported (wlit "LEADING, TRAILING or BOTH clause inside function TRIM()")
        else
          e ← eask aprc c_list_el;
          x ← parse o (if parse_position then COMP else FULL) e;
          c ← consume_type COMMA;
          l ← match c with
              | Some _ => parse_argslist o aprc false
              | None => parse_special_args o aprc
              end;
          mret (x :: l));
      etell aprc c_list_end;;
      type_throw RPAREN (wlit "Expected ')' to close function argument list");;
      mret (Some (S_call called args))
  end.

(** Literal values; [neg] after a minus sign. *)
Definition parse_literal (o : parser_obj) (neg : bool) (sprc : target) : eparser (option stored) :=
  t ← read epeek; t ← pure (deref t);
  match Keyword_get t with
  | K_NULL => v ← eask sprc (c_base x_val); etell v (c_base x_null);; econsume;; mret (Some S_null)
  | K_TRUE =>
      v ← eask sprc (c_base x_val); etell v (c_base (x_yesno true));; econsume;; mret (Some (S_bool true))
  | K_FALSE =>
      v ← eask sprc (c_base x_val); etell v (c_base (x_yesno false));; econsume;; mret (Some (S_bool false))
  | _ =>
      match tok_type t with
      | QQSTRING | QSTRING =>
          v ← eask sprc (c_base x_val); econsume;;
          if m_strings_as_blobs o then
            etell v (c_base (x_octets (tok_text t)));; mret (Some (S_octets (tok_text t)))
          else etell v (c_base (x_str (tok_text t)));; mret (Some (S_str (tok_text t)))
      | NUMBER =>
          econsume;; d ← converted (strtod (tok_text t));
          let d := if neg then dec_opp d else d in
          v ← eask sprc (c_base x_val); etell v (c_base (x_double d));; mret (Some (S_double d))
      | INTEGER | HEX =>
          let radix := if decide (tok_type t = HEX) then 16 else 10 in
          econsume;;
          if neg then
            i ← converted (strtoi (tok_text t) radix);
            if negb (in_int64 (- i)) then pure Undefined else
            v ← eask sprc (c_base x_val); etell v (c_base (x_int (- i)));; mret (Some (S_int (- i)))
          else
            u ← converted (strtoui (tok_text t) radix);
            v ← eask sprc (c_base x_val); etell v (c_base (x_uint u));; mret (Some (S_uint u))
      | _ => mret None
      end
  end.

Definition expected_atomic : wstr := wlit "Expected atomic expression".

(** [functionCall | columnIdent | documentField] *)
Definition parse_name (o : parser_obj) (sprc : target) : eparser stored :=
  set_col no_column;;
  '(schema_ident, (ty0, ty1)) ← parse_schema_ident;
  call ← (if schema_ident : bool then
            col ← read m_col_ref; pure (deref (table col));; parse_function_call o sprc
          else mret None);
  match call with
  | Some call => mret call
  | None =>
      match m_parser_mode o with
      | TABLE =>
          if negb schema_ident then eparse_error expected_atomic else
          path ← parse_column_ident1 T_store;
          col ← read m_col_ref;
          let path := if path_is_empty path then None else Some path in
          etell sprc (c_base (x_ref col path));; mret (S_ref col path)
      | DOCUMENT =>
          if bool_decide (ty0 = QWORD) || bool_decide (ty1 = QWORD)
          then eparse_error expected_atomic else
          col ← read m_col_ref;
          path ← match table col with
                 | Some tbl =>
                     match schema tbl with
                     | Some sch => parse_document_field2 sch (t_name tbl) T_store
                     | None => parse_document_field1 (t_name tbl) T_store
                     end
                 | None => parse_document_field T_store true
                 end;
          etell sprc (c_base (x_ref_path path));; mret (S_path path)
      end
  end.

(** The operand of an operator: reported as the only element of the list [argsp]. *)
Definition parse_operand (o : parser_obj) (name : wstr) (argsp : target) : eparser stored :=
  etell argsp c_list_begin;;
  e ← eask argsp c_list_el;
  x ← parse o ATOMIC e;
  etell argsp c_list_end;;
  mret (S_op name [x]).

(** Unary operators: the list processor of the operand and the operator, or whether the
    number that follows is negated. *)
Definition parse_unary (sprc : target) : eparser (target * op * bool) :=
  t ← read epeek; t ← pure (deref t);
  let o := get_unary t in
  match o with
  | O_PLUS | O_MINUS =>
      econsume;;
      num ← read (next_in_types [NUMBER; INTEGER]);
      if num : bool then mret (T_null, o, bool_decide (o = O_MINUS))
      else argsp ← eask sprc (c_base (x_op (Op_name o))); mret (argsp, o, false)
  | O_NEG | O_NOT | O_BITNEG =>
      econsume;; argsp ← eask sprc (c_base (x_op (Op_name o))); mret (argsp, o, false)
  | _ => mret (T_null, o, false)
  end.

(** [atomicExpr] *)
Definition parse_atomic (o : parser_obj) (prc : target) : eparser stored :=
  t ← read epeek;
  match t with
  | None => eparse_error (wlit "Expected an expression")
  | Some t =>
      match tok_type t with
      | LCURLY => parse o DOC prc
      | LSQBRACKET => parse o ARR prc
      | LPAREN =>
          econsume;;
          x ← parse o FULL prc;
          type_throw RPAREN (wlit "Expected ')' to close parenthesized sub-expression");;
          mret x
      | _ =>
          sprc ← eask (store_if prc) c_scalar;
          c ← consume_type COLON;
          match c with
          | Some _ =>
              n ← type_throw WORD (wlit "Expected parameter name after ':'");
              etell sprc (c_base (x_param (tok_text n)));; mret (S_param (tok_text n))
          | None =>
              s ← consume_op O_STAR;
              match s with
              | Some _ =>
                  eask sprc (c_base (x_op (Op_name O_STAR)));; mret (S_op (Op_name O_STAR) [])
              | None =>
                  c ← parse_cast o sprc;
                  match c with
                  | Some x => mret x
                  | None =>
                      '(argsp, u, neg) ← parse_unary sprc;
                      if negb (is_null argsp) then parse_operand o (Op_name u) argsp else
                      l ← parse_literal o neg sprc;
                      match l with Some x => mret x | None => parse_name o sprc end
                  end
              end
          end
      end
  end.

Definition left_assoc_binary_op (o : parser_obj) (ops : list op) (lhs rhs : Start) (prc : target)
  : eparser stored :=
  l ← parse o lhs T_null;
  t ← consume_ops ops;
  match t with
  | None => replay_if l prc;; mret l
  | Some t =>
      let name := Op_name (get_binary t) in
      sprc ← eask (store_if prc) c_scalar;
      aprc ← eask sprc (c_base (x_op name));
      if is_null aprc then mret (S_op name [l]) else
      etell aprc c_list_begin;;
      e ← eask aprc c_list_el; replay_if l e;;
      e ← eask aprc c_list_el; r ← parse o rhs e;
      etell aprc c_list_end;;
      mret (S_op name [l; r])
  end.

Definition parse_mul o : target -> eparser stored :=
  left_assoc_binary_op o [O_MUL; O_DIV; O_MOD] ATOMIC MUL.
Definition parse_add o : target -> eparser stored := left_assoc_binary_op o [O_ADD; O_SUB] MUL ADD.
Definition parse_shift o : target -> eparser stored :=
  left_assoc_binary_op o [O_LSHIFT; O_RSHIFT] ADD SHIFT.

Definition parse_bit (o : parser_obj) (prc : target) : eparser stored :=
  t ← consume_op O_BITNEG;
  match t with
  | Some _ =>
      sprc ← eask (store_if prc) c_scalar;
      argsp ← eask sprc (c_base (x_op (Op_name O_BITNEG)));
      if negb (is_null argsp) then parse_operand o (Op_name O_BITNEG) argsp
      else parse o BIT (store_if prc)
  | None => left_assoc_binary_op o [O_BITAND; O_BITOR; O_BITXOR] SHIFT BIT prc
  end.

Definition parse_comp o : target -> eparser stored :=
  left_assoc_binary_op o [O_GE; O_GT; O_LE; O_LT; O_EQ; O_NE] BIT COMP.
Definition parse_and o : target -> eparser stored := left_assoc_binary_op o [O_AND] ILRI AND.
Definition parse_or o : target -> eparser stored := left_assoc_binary_op o [O_OR] AND OR.

(** The operator that is reported: with NOT, and with or without a list after IN. *)
Definition ilri_op (o : op) (neg paren : bool) : op :=
  match o with
  | O_IS => if neg then O_IS_NOT else O_IS
  | O_IN => if paren then (if neg then O_NOT_IN else O_IN)
            else if neg then O_NOT_CONT_IN else O_CONT_IN
  | O_LIKE => if neg then O_NOT_LIKE else O_LIKE
  | O_RLIKE => if neg then O_NOT_RLIKE else O_RLIKE
  | O_BETWEEN => if neg then O_NOT_BETWEEN else O_BETWEEN
  | O_REGEXP => if neg then O_NOT_REGEXP else O_REGEXP
  | _ => o
  end.

(** The value after IS: FALSE is reported as true. *)
Definition parse_is_value (aprc : target) : eparser stored :=
  t ← econsume;
  let value := match t with
               | Some t => match Keyword_get t with
                           | K_TRUE | K_FALSE => Some (S_bool true)
                           | K_NULL => Some S_null
                           | _ => None
                           end
               | None => None
               end in
  match value with
  | Some x => e ← eask aprc c_list_el; sprc ← eask e c_scalar; tell_val sprc (value_call x);; mret x
  | None => eparse_error (wlit "expected TRUE, FALSE or NULL after IS")
  end.

(** The arguments after the first one. *)
Definition parse_ilri_args (o : parser_obj) (main : op) (aprc : target) : eparser (list stored) :=
  let comp := e ← eask aprc c_list_el; parse o COMP e in
  match main with
  | O_IS | O_IS_NOT => x ← parse_is_value aprc; mret [x]
  | O_IN | O_CONT_IN | O_NOT_IN | O_NOT_CONT_IN =>
      p ← consume_type LPAREN;
      match p with
      | Some _ =>
          l ← parse_argslist o aprc true;
          type_throw RPAREN (wlit "Expected ')' to close IN(... expression");; mret l
      | None => x ← comp; mret [x]
      end
  | O_LIKE | O_NOT_LIKE | O_RLIKE | O_NOT_RLIKE =>
      x ← comp;
      esc ← read (next_is_kw K_ESCAPE);
      if esc : bool then eunsupported (wlit "ESCAPE clause for (R)LIKE operator") else mret [x]
  | O_REGEXP | O_NOT_REGEXP => x ← comp; mret [x]
  | O_BETWEEN | O_NOT_BETWEEN =>
      x ← comp;
      kw_throw K_AND (wlit "Expected AND in BETWEEN ... expression");;
      y ← comp; mret [x; y]
  | _ => pure Undefined
  end.

(** [ilriExpr] *)
Definition parse_ilri (o : parser_obj) (prc : target) : eparser stored :=
  first ← parse o COMP T_null;
  n ← consume_op O_NOT;
  let neg := bool_decide (n <> None) in
  t ← consume_ops [O_IS; O_IN; O_LIKE; O_RLIKE; O_BETWEEN; O_REGEXP; O_SOUNDS_LIKE];
  match t with
  | None =>
      if neg then eparse_error (wlit "Expected IN, (R)LIKE, BETWEEN or REGEXP after NOT")
      else replay_if first prc;; mret first
  | Some t =>
      if neg && op_is O_IS t
      then eparse_error (wlit "Operator NOT before IS, should be IS NOT") else
      n ← (if op_is O_IS t then consume_op O_NOT else mret None);
      let neg := neg || bool_decide (n <> None) in
      like ← read (next_is_kw K_LIKE);
      if bool_decide (get_binary t = O_SOUNDS_LIKE) && like
      then eunsupported (wlit "Operator SOUNDS LIKE") else
      paren ← read (next_is_type LPAREN);
      let main := ilri_op (get_binary t) neg paren in
      sprc ← eask (store_if prc) c_scalar;
      aprc ← eask sprc (c_base (x_op (Op_name main)));
      etell aprc c_list_begin;;
      e ← eask aprc c_list_el; replay_if first e;;
      l ← parse_ilri_args o main aprc;
      etell aprc c_list_end;;
      mret (S_op (Op_name main) (first :: l))
  end.

(** One call of [parse]. *)
Definition parse_step (o : parser_obj) (st : Start) (prc : target) : eparser stored :=
  match st with
  | FULL | OR => parse_or o prc
  | ATOMIC => parse_atomic o prc
  | MUL => parse_mul o prc
  | ADD => parse_add o prc
  | SHIFT => parse_shift o prc
  | BIT => parse_bit o prc
  | COMP => parse_comp o prc
  | ILRI => parse_ilri o prc
  | AND => parse_and o prc
  | DOC => p ← eask (store_if prc) c_doc; parse_doc o p
  | ARR => p ← eask (store_if prc) c_arr; parse_arr o p
  | CAST_TYPE | COLID_DOCPATH => pure Undefined
  end.
End methods.

(** The method [parse]. *)
Fixpoint parse (fuel : nat) (o : parser_obj) (st : Start) (prc : target) : eparser stored :=
  match fuel with
  | O => pure Diverged
  | S n => parse_step (parse n) o st prc
  end.

Definition expr_fuel (s : EState) : nat := 12 * S (length (rest_toks (e_p s))).

(** [process] of a parser that was given the tokens: [prc] is not null. *)
Definition base_process (mode : Parser_mode) (prc : target) : eparser stored :=
  n ← read expr_fuel; fresh_parser (do_parse (parse n) (mk_obj mode false) prc).

(** ** The parsers of texts

    Each makes the tokens of its text when it is created and reports to a client that
    decides by [accept] which processors it returns: the outcome and the calls. *)

Definition run_parser {A} (input : wstr) (accept : list (call expr_call) -> bool)
    (m : eparser A) : outcome A * list (call expr_call) :=
  match Tokenizer_new input with
  | Ok toks =>
      let '(o, s) := m (mk_EState (mk_PState (mk_It input toks) [] accept) no_column) in
      (o, p_log (e_p s))
  | Throw e => (Throw e, [])
  | Undefined => (Undefined, [])
  | Diverged => (Diverged, [])
  end.

(** [Expression_parser::process]. *)
Definition Expression_process (mode : Parser_mode) : eparser unit :=
  some ← read eavailable;
  if negb some then eparse_error (wlit "Expected an expression") else
  base_process mode T_prc;;
  more ← read eavailable;
  if more : bool then eparse_error (wlit "Unexpected characters after expression") else mret tt.

Definition Expression_parser (mode : Parser_mode) (expr : wstr) (accept : list (call expr_call) -> bool)
  : outcome unit * list (call expr_call) := run_parser expr accept (Expression_process mode).

(** [Order_parser::parse]. *)
Definition Order_process (mode : Parser_mode) : eparser unit :=
  some ← read eavailable;
  if negb some then eparse_error (wlit "Expected sorting order specification") else
  e ← base_process mode T_store;
  t ← read epeek;
  asc ← match t with
        | None => mret true
        | Some t =>
            match Keyword_get t with
            | K_ASC => econsume;; mret true
            | K_DESC => econsume;; mret false
            | _ => eparse_error (wlit "Expected sorting direction ASC or DESC")
            end
        end;
  more ← read eavailable;
  if more : bool then eparse_error (wlit "Unexpected characters after sorting order specification")
  else p ← eask T_prc (c_base (x_sort_key asc)); replay_if e p.

Definition Order_parser (mode : Parser_mode) (expr : wstr) (accept : list (call expr_call) -> bool)
  : outcome unit * list (call expr_call) := run_parser expr accept (Order_process mode).

(** The identifier after AS. *)
Definition alias_name : eparser wstr :=
  id ← read (next_in_types [WORD; QWORD]);
  if negb id then eparse_error (wlit "Expected identifier after AS")
  else t ← econsume; t ← pure (deref t); mret (tok_text t).

(** [Projection_parser::parse_tbl_mode]. *)
Definition parse_tbl_mode (mode : Parser_mode) : eparser unit :=
  some ← read eavailable;
  if negb some then eparse_error (wlit "Expected projection specification") else
  p ← eask T_prc (c_base x_expr);
  base_process mode p;;
  more ← read eavailable;
  (if more : bool then
     a ← consume_kw K_AS;
     match a with
     | None =>
         eparse_error (wlit "Invalid characters in projection specification, only AS <name> allowed after the projection expression")
     | Some _ => name ← alias_name; etell T_prc (c_base (x_alias name))
     end
   else mret tt);;
  more ← read eavailable;
  if more : bool then eparse_error (wlit "Unexpected characters after projection specification")
  else mret tt.

(** [Projection_parser::parse_doc_mode]. *)
Definition parse_doc_mode (mode : Parser_mode) : eparser unit :=
  some ← read eavailable;
  if negb some then eparse_error (wlit "Expected projection specification") else
  e ← base_process mode T_store;
  a ← consume_kw K_AS;
  match a with
  | None => eparse_error (wlit "Expected AS in projection specification")
  | Some _ =>
      id ← alias_name;
      more ← read eavailable;
      if more : bool then eparse_error (wlit "Invalid characters after projection specification")
      else p ← eask T_prc (c_key_val id); replay_if e p
  end.

Definition Projection_parser_table mode expr accept := run_parser expr accept (parse_tbl_mode mode).
Definition Projection_parser_document mode expr accept := run_parser expr accept (parse_doc_mode mode).

(** The column and the path of a [Table_field_parser]; what follows them is not looked at. *)
Definition Table_field_parser (table_field : wstr) : outcome (Column_ref * Doc_path) :=
  (run_parser table_field (fun _ => false)
     (path ← parse_column_ident T_store; col ← read m_col_ref; mret (col, path))).1.

(** [Doc_field_parser::process]. *)
Definition Doc_field_process : eparser unit :=
  parse_document_field T_prc false;;
  more ← read eavailable;
  if more : bool then eparse_error (wlit "Unexpected characters at the end") else mret tt.

Definition Doc_field_parser (doc_path : wstr) (accept : list (call expr_call) -> bool)
  : outcome unit * list (call expr_call) := run_parser doc_path accept Doc_field_process.
