(* ===== verification/ExprEnds.v ===== *)
(** * The parser of expressions ends

    A logic for the methods of the parser ([runs]), which shows at once that a method
    ends, that it takes tokens, when it can be undefined, and - for a parser that stores
    what it parses - that it neither sees nor changes what the client was told.  With it
    every method takes tokens or leaves them, and ends; [parse] ends with [expr_fuel]. *)

From S2P Require Import Prelude Cursor Tokenizer Tokens ParserBase ParserLaws Json.
From S2P Require Import ExprBase ExprParser.

(** ** What can make the parser undefined *)

(** Identifiers have a name; CAST, whose type may be no keyword, and SOUNDS are excluded. *)
Definition plain_tok (t : Token) : Prop :=
  (tok_type t = WORD \/ tok_type t = QWORD -> tok_text t <> []) /\
  Keyword_get t <> K_CAST /\ Keyword_get t <> K_SOUNDS.

(** The text of a number has no sign. *)
Definition unsigned_tok (t : Token) : Prop :=
  tok_type t = INTEGER \/ tok_type t = HEX -> head (tok_text t) <> Some 45.

Definition safe_tok (t : Token) : Prop := plain_tok t /\ unsigned_tok t.

Definition with_log (l : list (call expr_call)) (a : list (call expr_call) -> bool) (s : EState) : EState :=
  mk_EState (mk_PState (p_it (e_p s)) l a) (m_col_ref s).

Definition toks_of (s : EState) : list Token := rest_toks (e_p s).
Definition eleft (s : EState) : nat := length (toks_of s).

Lemma with_log_same s : with_log (p_log (e_p s)) (p_accept (e_p s)) s = s.
Proof. by destruct s as [[? ? ?] ?]. Qed.

Section laws.
(** Whether a method may be undefined, what is known of the tokens, and whether the method
    has to be quiet. *)
Context (U : Prop) (T : Token -> Prop) (quiet : bool).

Definition inv (s : EState) : Prop := within (e_p s) /\ Forall T (toks_of s).

Definition is_parse_error (e : exn) : Prop := match e with ParseError _ _ _ _ => True | _ => False end.

Definition runs {A} (m : eparser A) (Q : A -> EState -> Prop) (s : EState) : Prop :=
  match m s with
  | (Ok a, s') => Q a s'
  | (Throw e, _) => is_parse_error e
  | (Undefined, _) => U
  | (Diverged, _) => False
  end /\
  (quiet = true -> forall l a, m (with_log l a s) = ((m s).1, with_log l a (m s).2)).

Lemma eruns_ret {A} (a : A) (Q : A -> EState -> Prop) s : Q a s -> runs (mret a) Q s.
Proof using. by split. Qed.

Lemma eruns_bind {A B} (m : eparser A) (f : A -> eparser B) Q s :
  runs m (fun a s' => runs (f a) Q s') s -> runs (m ≫= f) Q s.
Proof using.
  unfold runs, mbind, Method_bind. intros [H Hq]. destruct (m s) as [[a|e| |] s'] eqn:E;
    (split; [try done; apply H|]); intros q l acc; rewrite (Hq q); simpl; try done.
  destruct H as [_ H]. by rewrite H.
Qed.

Lemma runs_mono {A} (m : eparser A) (Q R : A -> EState -> Prop) s :
  runs m Q s -> (forall a s', Q a s' -> R a s') -> runs m R s.
Proof using. unfold runs. intros [H Hq] HQ. split; [|done]. destruct (m s) as [[a|e| |] s']; auto. Qed.

Lemma eruns_read {A} (g : EState -> A) (Q : A -> EState -> Prop) s :
  (forall l a, g (with_log l a s) = g s) -> Q (g s) s -> runs (read g) Q s.
Proof using. intros Hg H. split; [done|]. intros _ l a. unfold read. by rewrite Hg. Qed.

Lemma runs_update (g : EState -> EState) (Q : unit -> EState -> Prop) s :
  (forall l a, g (with_log l a s) = with_log l a (g s)) -> Q tt (g s) -> runs (update g) Q s.
Proof using. intros Hg H. split; [done|]. intros _ l a. unfold update. by rewrite Hg. Qed.

Lemma runs_pure {A} (o : outcome A) (Q : A -> EState -> Prop) s :
  match o with Ok a => Q a s | Throw e => is_parse_error e | Undefined => U | Diverged => False end ->
  runs (pure o) Q s.
Proof using. intros H. split; [by destruct o|done]. Qed.

Lemma runs_undefined {A} (Q : A -> EState -> Prop) s : U -> runs (pure Undefined) Q s.
Proof using. intros H. apply runs_pure. exact H. Qed.

Lemma runs_deref {A} (p : option A) (Q : A -> EState -> Prop) s :
  (p = None -> U) -> (forall a, p = Some a -> Q a s) -> runs (pure (deref p)) Q s.
Proof using. intros HN HS. apply runs_pure. destruct p; simpl; auto. Qed.

(** From [s] to [s'] no token was added; if [b], one was taken. *)
Definition went (b : bool) (s s' : EState) : Prop :=
  inv s' /\ (eleft s' <= eleft s)%nat /\ (b = true -> (eleft s' < eleft s)%nat).

Lemma went_refl s : inv s -> went false s s.
Proof using. intros H. split; [done|]. split; [lia|done]. Qed.

Lemma went_trans b c s1 s2 s3 : went b s1 s2 -> went c s2 s3 -> went (b || c) s1 s3.
Proof using.
  intros (_ & H1 & H2) (H3 & H4 & H5). split; [done|]. split; [lia|].
  intros [Hb|Hc]%orb_true_iff; [specialize (H2 Hb)|specialize (H5 Hc)]; lia.
Qed.

Lemma went_inv b s s' : went b s s' -> inv s'.
Proof using. by intros [? _]. Qed.

Lemma runs_error {A} msg (Q : A -> EState -> Prop) s : inv s -> runs (eparse_error msg) Q s.
Proof using.
  intros [Hi _]. unfold runs, eparse_error, on_p, parse_error, error_at.
  destruct s as [[it log acc] col]. simpl in *.
  assert (Hp : (it_pos it <= length (it_input it))%nat).
  { unfold it_pos, within, rest_toks in *. simpl in Hi. destruct (it_toks it); [done|]. by inversion Hi. }
  destruct (@throw_error_parse A (it_input it) (it_pos it) msg Hp) as (a & b & ->). by split.
Qed.

Lemma runs_econsume s : inv s ->
  runs econsume (fun t s' => went (bool_decide (t <> None)) s s' /\ t = head (toks_of s) /\
    m_col_ref s' = m_col_ref s) s.
Proof using.
  intros [Hi HU]. unfold runs, econsume, on_p, consume_token, peek_token.
  destruct s as [[[inp toks] log acc] col]. unfold went, eleft, inv, toks_of, within, rest_toks in *.
  simpl in *. destruct toks as [|t toks]; simpl.
  - split; [|done]. split; [|done]. split; [by split|]. split; [lia|done].
  - split; [|done]. split; [|done]. split; [split; [by inversion Hi|]|split; [lia|intros; lia]].
    by inversion HU.
Qed.

Lemma runs_consume_when test s : inv s -> (forall l a, test (with_log l a s) = test s) ->
  (toks_of s = [] -> test s = false) ->
  runs (consume_when test) (fun t s' => went (bool_decide (t <> None)) s s' /\ m_col_ref s' = m_col_ref s /\
    match t with Some t => head (toks_of s) = Some t /\ test s = true | None => test s = false /\ s' = s end) s.
Proof using.
  intros Hi Hl He. unfold consume_when. apply eruns_bind, eruns_read; [done|].
  destruct (test s) eqn:E.
  - eapply runs_mono; [by apply runs_econsume|]. intros t s' (Hw & -> & Hc). split; [done|]. split; [done|].
    destruct (toks_of s); [|done]. specialize (He eq_refl). congruence.
  - apply eruns_ret. split; [by apply went_refl|done].
Qed.

Definition token_test (test : EState -> bool) : Prop :=
  forall s, (forall l a, test (with_log l a s) = test s) /\ (toks_of s = [] -> test s = false).

Lemma test_epeek (f : Token -> bool) :
  token_test (fun s => match epeek s with Some t => f t | None => false end).
Proof using.
  intros s. split; [done|]. unfold toks_of, epeek, peek_token. by intros ->.
Qed.

Lemma test_type ty : token_test (next_is_type ty).
Proof using. intros s. split; [done|]. unfold toks_of, next_is_type, cur_token_type_is, peek_token. by intros ->. Qed.
Lemma test_types l : token_test (next_in_types l).
Proof using. intros s. split; [done|]. unfold toks_of, next_in_types, cur_token_type_in, peek_token. by intros ->. Qed.
Lemma test_kw k : token_test (next_is_kw k).
Proof using. exact (test_epeek _). Qed.
Lemma test_kws l : token_test (next_in_kws l).
Proof using. exact (test_epeek _). Qed.
Lemma test_op o : token_test (next_is_op o).
Proof using. exact (test_epeek _). Qed.
Lemma test_ops l : token_test (next_in_ops l).
Proof using. exact (test_epeek _). Qed.

(** The result of consuming a token under a test. *)
Definition taken (test : EState -> bool) (s : EState) (t : option Token) (s' : EState) : Prop :=
  went (bool_decide (t <> None)) s s' /\ m_col_ref s' = m_col_ref s /\
  match t with Some t => head (toks_of s) = Some t /\ test s = true | None => test s = false /\ s' = s end.

Lemma runs_consume test s : token_test test -> inv s -> runs (consume_when test) (taken test s) s.
Proof using. intros Ht Hi. destruct (Ht s). by apply runs_consume_when. Qed.

Lemma runs_or_throw m msg test s : inv s -> runs m (taken test s) s ->
  runs (or_throw m msg) (fun _ s' => went true s s' /\ m_col_ref s' = m_col_ref s) s.
Proof using.
  intros Hi Hm. unfold or_throw. apply eruns_bind. eapply runs_mono; [exact Hm|].
  intros [t|] s' (Hw & Hc & Ht); [by apply eruns_ret|]. destruct Ht as [_ ->]. by apply runs_error.
Qed.

Lemma runs_type_throw ty msg s : inv s ->
  runs (type_throw ty msg) (fun _ s' => went true s s' /\ m_col_ref s' = m_col_ref s) s.
Proof using. intros Hi. eapply runs_or_throw; [done|]. by apply runs_consume; [apply test_type|]. Qed.

Lemma runs_kw_throw k msg s : inv s ->
  runs (kw_throw k msg) (fun _ s' => went true s s' /\ m_col_ref s' = m_col_ref s) s.
Proof using. intros Hi. eapply runs_or_throw; [done|]. by apply runs_consume; [apply test_kw|]. Qed.

(** Calls on storage leave no trace; a call on the client leaves the tokens. *)
Lemma runs_etell prc c (Q : unit -> EState -> Prop) s :
  prc <> T_prc \/ quiet = false -> inv s ->
  (forall s', inv s' -> eleft s' = eleft s -> m_col_ref s' = m_col_ref s ->
    (prc <> T_prc -> s' = s) -> toks_of s' = toks_of s -> Q tt s') ->
  runs (etell prc c) Q s.
Proof using.
  intros Hp Hi HQ. unfold runs, etell, on_p, tell, is_prc. destruct s as [[it log acc] col].
  destruct (bool_decide_reflect (prc = T_prc)) as [->|Hn].
  - destruct Hp as [|Hp]; [done|]. split; [|by rewrite Hp]. by apply HQ.
  - split; [|done]. by apply HQ.
Qed.

Lemma runs_eask prc c (Q : target -> EState -> Prop) s :
  prc <> T_prc \/ quiet = false -> inv s ->
  (forall p s', inv s' -> eleft s' = eleft s -> m_col_ref s' = m_col_ref s ->
    (prc <> T_prc -> s' = s) -> toks_of s' = toks_of s ->
    match prc with T_null | T_sink => p = T_null | T_store => p = T_store | T_prc => p = T_prc \/ p = T_null end ->
    Q p s') ->
  runs (eask prc c) Q s.
Proof using.
  intros Hp Hi HQ. destruct prc; try (apply eruns_ret; by apply HQ).
  destruct Hp as [|Hp]; [done|]. unfold runs. split; [|by rewrite Hp]. unfold eask, on_p, ask.
  destruct s as [[it log acc] col]. unfold mbind, Method_bind, update, read, mret, Method_ret, set_log.
  cbn. destruct (acc (log ++ [c])); cbn; (apply HQ; [exact Hi|done|done|done|done|auto]).
Qed.

Lemma runs_converted {A} (o : outcome A) (Q : A -> EState -> Prop) s : inv s ->
  match o with Ok a => Q a s | Throw e => conversion_msg e <> None | Undefined => U | Diverged => False end ->
  runs (converted o) Q s.
Proof using.
  intros Hi H. unfold converted. destruct o as [a|e| |]; try by apply runs_pure.
  destruct (conversion_msg e); [by apply runs_error|done].
Qed.
End laws.

(** ** Induction on stored expressions *)

Section stored_induction.
Context (P : stored -> Prop).
Hypothesis P_op : forall name l, Forall P l -> P (S_op name l).
Hypothesis P_call : forall func l, Forall P l -> P (S_call func l).
Hypothesis P_arr : forall l, Forall P l -> P (S_arr l).
Hypothesis P_doc : forall l, Forall (fun x => P x.2) l -> P (S_doc l).
Hypothesis P_leaf : forall e, match e with S_op _ _ | S_call _ _ | S_arr _ | S_doc _ => True | _ => P e end.

Fixpoint stored_nested (e : stored) : P e :=
  let all := fix all (l : list stored) : Forall P l :=
    match l with [] => Forall_nil_2 P | x :: l' => Forall_cons_2 P x l' (stored_nested x) (all l') end in
  let pairs := fix pairs (l : list (wstr * stored)) : Forall (fun x => P x.2) l :=
    match l with
    | [] => Forall_nil_2 _
    | x :: l' => Forall_cons_2 _ x l' (stored_nested x.2) (pairs l')
    end in
  match e with
  | S_op name l => P_op name l (all l)
  | S_call func l => P_call func l (all l)
  | S_arr l => P_arr l (all l)
  | S_doc l => P_doc l (pairs l)
  | S_none => P_leaf S_none
  | S_ref c p => P_leaf (S_ref c p)
  | S_path p => P_leaf (S_path p)
  | S_param n => P_leaf (S_param n)
  | S_null => P_leaf S_null
  | S_str v => P_leaf (S_str v)
  | S_octets v => P_leaf (S_octets v)
  | S_int v => P_leaf (S_int v)
  | S_uint v => P_leaf (S_uint v)
  | S_double v => P_leaf (S_double v)
  | S_bool v => P_leaf (S_bool v)
  end.
End stored_induction.

Lemma tell_store_eq c s : etell T_store c s = (Ok tt, s).
Proof. by destruct s. Qed.

Lemma each_same {A} (f : A -> eparser unit) l s :
  Forall (fun x => f x s = (Ok tt, s)) l -> each f l s = (Ok tt, s).
Proof. induction 1 as [|x l Hx _ IH]; [done|]. cbn [each]. by rewrite (method_bind_ok Hx). Qed.

Lemma list_store {A} c c' (l : list A) (f : A -> eparser unit) s :
  Forall (fun x => f x s = (Ok tt, s)) l ->
  (etell T_store c;; each f l;; etell T_store c') s = (Ok tt, s).
Proof.
  intros H. rewrite (method_bind_ok (tell_store_eq _ _)), (method_bind_ok (each_same _ _ _ H)).
  apply tell_store_eq.
Qed.

(** Replaying into storage leaves no trace. *)
Lemma replay_store e s : replay e T_store s = (Ok tt, s).
Proof.
  revert e. apply stored_nested; [intros name l IH|intros func l IH|intros l IH|intros l IH|intros e].
  5: { destruct s. by destruct e. }
  all: cbn [replay eask]; refine (list_store _ _ l _ _ _); by eapply Forall_impl; [exact IH|].
Qed.

(** ** The methods *)

(** The parts of the facts about the tokens that are left. *)
Ltac wents :=
  cbv beta in *;
  repeat match goal with
  | H : went _ _ _ _ |- _ => destruct H as (? & ? & ?)
  | H : _ = true -> (_ < _)%nat |- _ => first [specialize (H eq_refl) | clear H]
  end.

Ltac fin :=
  subst; wents;
  first [ assumption | done | lia
        | split; [assumption | split; [lia | intros; first [lia | done]]]
        | split; [split; [assumption | split; [lia | intros; first [lia | done]]] | done] ].

(** One step of a method. *)
Ltac run :=
  match goal with
  | |- runs _ _ (mret _) _ _ => apply eruns_ret
  | |- runs _ _ (_ ≫= _) _ _ => apply eruns_bind
  | |- runs _ _ (read _) _ _ => apply eruns_read; [done|]
  | |- runs _ _ (eparse_error _) _ _ => eapply runs_error; fin
  | |- runs _ _ (eunsupported _) _ _ => eapply runs_error; fin
  | |- runs _ _ (eask T_null _) _ _ => apply eruns_ret
  | |- runs _ _ (eask T_store _) _ _ => apply eruns_ret
  | |- runs _ _ (etell T_null _) _ _ => split; [|done]; change (etell T_null _ ?s) with (@Ok unit tt, s)
  | |- runs _ _ (type_throw _ _) _ _ =>
      eapply runs_mono; [eapply runs_type_throw; fin|]; let s := fresh "s" in intros ? s [? ?]
  | |- runs _ _ (kw_throw _ _) _ _ =>
      eapply runs_mono; [eapply runs_kw_throw; fin|]; let s := fresh "s" in intros ? s [? ?]
  | |- runs _ _ (consume_type _) _ _ =>
      eapply runs_mono; [eapply runs_consume; [apply test_type|fin]|];
      let s := fresh "s" in intros [?|] s (? & ? & ?)
  | |- runs _ _ (consume_op _) _ _ =>
      eapply runs_mono; [eapply runs_consume; [apply test_op|fin]|];
      let s := fresh "s" in intros [?|] s (? & ? & ?)
  | |- runs _ _ (consume_ops _) _ _ =>
      eapply runs_mono; [eapply runs_consume; [apply test_ops|fin]|];
      let s := fresh "s" in intros [?|] s (? & ? & ?)
  | |- runs _ _ (consume_kw _) _ _ =>
      eapply runs_mono; [eapply runs_consume; [apply test_kw|fin]|];
      let s := fresh "s" in intros [?|] s (? & ? & ?)
  | |- runs _ _ (consume_kws _) _ _ =>
      eapply runs_mono; [eapply runs_consume; [apply test_kws|fin]|];
      let s := fresh "s" in intros [?|] s (? & ? & ?)
  | |- runs _ _ econsume _ _ =>
      eapply runs_mono; [eapply runs_econsume; fin|];
      let t := fresh "t" in let s := fresh "s" in intros t s (? & ? & ?)
  end.

(** What the source reads as numbers. *)
Lemma strtoui_ends str radix :
  match strtoui str radix with Ok _ => True | Throw e => conversion_msg e <> None | _ => False end.
Proof.
  unfold strtoui, strtonum_int. destruct (take_sign str) as [neg s].
  destruct (take_digits radix s 0 0) as [[v n] rest]. simpl. destruct (_ || _); simpl; [done|].
  by destruct rest.
Qed.

Lemma strtoi_ends str radix :
  match strtoi str radix with Ok _ => True | Throw e => conversion_msg e <> None | _ => False end.
Proof.
  unfold strtoi, strtonum_int. destruct (take_sign str) as [neg s].
  destruct (take_digits radix s 0 0) as [[v n] rest]. simpl. destruct (_ || _); simpl; [done|].
  by destruct rest.
Qed.

Lemma strtod_ends str :
  match strtod str with Ok _ => True | Throw e => conversion_msg e <> None | _ => False end.
Proof.
  unfold strtod. destruct (take_sign str) as [neg s]. destruct (take_digits 10 s 0 0) as [[v n] s1].
  destruct (take_fraction s1 v) as [[m k] s2]. destruct (take_exponent s2) as [[e rest]|]; [|done].
  destruct (_ || _); [done|]. by destruct rest.
Qed.

(** The negation of what is read without a sign is in range. *)
Lemma strtoi_negates str radix v : 0 <= radix -> head str <> Some 45 -> strtoi str radix = Ok v ->
  in_int64 (- v) = true.
Proof.
  intros Hr Hh. unfold strtoi, strtonum_int.
  assert (Hs : (take_sign str).1 = false).
  { destruct str as [|c s]; [done|]. simpl in *. destruct (Z.eqb_spec c 45) as [->|]; [done|]. by destruct (c =? 43). }
  destruct (take_sign str) as [neg s]. simpl in Hs. subst neg.
  pose proof (take_digits_nonneg radix s 0 0 Hr ltac:(lia)) as Hv.
  destruct (take_digits radix s 0 0) as [[z n] rest]. simpl in Hv.
  destruct (bool_decide (n = 0%nat) || negb (z <? 2 ^ 63)) eqn:E; [done|]. apply orb_false_iff in E as [_ E].
  apply negb_false_iff, Z.ltb_lt in E. destruct rest; [|done]. intros [= <-].
  unfold in_int64. lia.
Qed.

Section paths.
Context (U : Prop) (T : Token -> Prop) (quiet : bool).
Abbreviation runs := (runs U quiet).
Abbreviation inv := (inv T).
Abbreviation went := (went T).

(** Taking a token that is known to be there. *)
Lemma runs_next {B} (f : Token -> eparser B) Q s : inv s -> toks_of s <> [] ->
  (forall t s', head (toks_of s) = Some t -> went true s s' -> m_col_ref s' = m_col_ref s -> runs (f t) Q s') ->
  runs (t ← econsume; t ← pure (deref t); f t) Q s.
Proof using.
  intros Hi Hne Hf. run. eapply runs_mono; [by eapply runs_econsume|]. intros t s' (Hw & -> & Hc). run.
  apply runs_deref; [by intros ?%head_None|]. intros t Ht. apply Hf; [done| |done]. rewrite Ht in Hw. fin.
Qed.

Lemma test_some test s : token_test test -> test s = true -> toks_of s <> [].
Proof using. intros Ht H He. destruct (Ht s) as [_ H']. rewrite H' in H by done. done. Qed.

(** ** Document paths *)

(** Storage, or a client that may refuse an element. *)
Definition path_prc (prc : target) : Prop := prc = T_store \/ (prc = T_prc /\ quiet = false /\ U).

(** The tokens stay where they are. *)
Definition stays (s s' : EState) : Prop :=
  inv s' /\ eleft s' = eleft s /\ toks_of s' = toks_of s /\ m_col_ref s' = m_col_ref s.

Lemma stays_refl s : inv s -> stays s s.
Proof using. by intros H. Qed.

Lemma stays_trans s1 s2 s3 : stays s1 s2 -> stays s2 s3 -> stays s1 s3.
Proof using. intros (_ & H1 & H2 & H3) (H4 & H5 & H6 & H7). repeat split; try apply H4; congruence. Qed.

Lemma stays_went s s' : stays s s' -> went false s s'.
Proof using. intros (H & H1 & _). split; [done|]. split; [lia|done]. Qed.

Lemma path_tell prc c s : path_prc prc -> inv s -> runs (etell prc c) (fun _ s' => stays s s') s.
Proof using.
  intros Hp Hi. eapply runs_etell; [destruct Hp as [->|(_ & -> & _)]; auto|done|]. intros; by repeat split; try apply H.
Qed.

Lemma report_el_runs first prc el s : path_prc prc -> inv s ->
  runs (report_el first prc el) (fun _ s' => stays s s') s.
Proof using.
  intros Hp Hi. unfold report_el. apply eruns_bind.
  eapply runs_mono; [instantiate (1 := fun _ s' => stays s s'); destruct first|].
  { by apply path_tell. } { run. by apply stays_refl. }
  intros [] s1 H1. pose proof H1 as (Hi1 & Hl1 & Ht1 & Hc1). apply eruns_bind.
  eapply runs_eask; [destruct Hp as [->|(_ & -> & _)]; auto|done|].
  intros p s2 Hi2 Hl2 Hc2 _ Ht2 Hq. assert (H2 : stays s1 s2) by (by repeat split; try apply Hi2).
  pose proof (stays_trans _ _ _ H1 H2) as H12.
  destruct (bool_decide_reflect (p = T_null)) as [->|Hn]; unfold is_null.
  - rewrite bool_decide_true by done. apply runs_undefined. destruct Hp as [->|(_ & _ & HU)]; [done|exact HU].
  - rewrite bool_decide_false by done. eapply runs_mono.
    + apply path_tell; [|done]. destruct Hp as [->|(-> & ? & ?)]; [by left|right]. by destruct Hq.
    + intros [] s3 H3. exact (stays_trans _ _ _ H12 H3).
Qed.

(** A result, if there is one, took a token; the column is not touched. *)
Definition took {A} (s : EState) (x : option A) (s' : EState) : Prop :=
  went (bool_decide (x <> None)) s s' /\ m_col_ref s' = m_col_ref s.

Lemma took_none {A} s s' : went false s s' -> m_col_ref s' = m_col_ref s -> took s (@None A) s'.
Proof using. intros H1 H2. split; [|done]. fin. Qed.

Lemma took_some {A} (x : A) s s' : went true s s' -> m_col_ref s' = m_col_ref s -> took s (Some x) s'.
Proof using. intros H1 H2. split; [|done]. fin. Qed.

Lemma docpath_member_runs first prc s : path_prc prc -> inv s ->
  runs (parse_docpath_member first prc) (took s) s.
Proof using.
  intros Hp Hi. unfold parse_docpath_member. do 2 run. unfold epeek, peek_token.
  destruct (head (rest_toks (e_p s))) as [t|] eqn:Eh; [|run; apply took_none; [by apply went_refl|done]].
  assert (H : forall el, runs (report_el first prc el;; econsume;; mret (Some el)) (took s) s).
  { intros el. run. eapply runs_mono; [by eapply report_el_runs|]. intros [] s1 (Hi1 & Hl1 & Ht1 & Hc1).
    run. eapply runs_mono; [by eapply runs_econsume|]. intros x s2 (Hw & Hx & Hc). run.
    assert (Hs : x = Some t) by (by rewrite Hx, Ht1). subst x. rewrite Hs in Hw.
    apply took_some; [fin|congruence]. }
  assert (Hno : runs (mret (@None path_el)) (took s) s).
  { run. by apply took_none; [apply went_refl|]. }
  destruct (tok_type t); cbn; first [apply H | apply Hno].
Qed.

Lemma docpath_member_dot_runs first prc s : path_prc prc -> inv s ->
  runs (parse_docpath_member_dot first prc) (took s) s.
Proof using.
  intros Hp Hi. unfold parse_docpath_member_dot. do 2 run.
  - run. eapply runs_mono; [eapply docpath_member_runs; [done|fin]|].
    intros [el|] s1 [Hw Hc]; run. apply took_some; [fin|congruence].
  - run. apply took_none; [fin|done].
Qed.

Lemma docpath_array_runs prc s : path_prc prc -> inv s -> runs (parse_docpath_array prc) (took s) s.
Proof using.
  intros Hp Hi. unfold parse_docpath_array. do 2 run; [|run; apply took_none; [fin|done]].
  run.
  assert (Hend : forall el s2, went true s s2 -> m_col_ref s2 = m_col_ref s ->
    runs (report_el false prc el;;
      type_throw RSQBRACKET (wlit "Expected ']' to close a document path array component");;
      mret (Some el)) (took s) s2).
  { intros el s2 Hw Hc. run. eapply runs_mono; [eapply report_el_runs; [done|fin]|].
    intros [] s3 (Hi3 & Hl3 & _ & Hc3). do 2 run. run. apply took_some; [fin|congruence]. }
  run; run.
  - run. apply Hend; [fin|congruence].
  - do 2 run. destruct (next_is_type INTEGER s1) eqn:Ei; cbn [negb]; [|run].
    eapply runs_next; [fin|by eapply test_some; [apply (test_type INTEGER)|]|]. intros t0 s2 _ Hw Hc. run.
    eapply runs_converted; [fin|]. pose proof (strtoui_ends (tok_text t0) 10) as Hs.
      destruct (strtoui (tok_text t0) 10) as [v|e| |]; [|done..].
    destruct (index_max <? v); [run|]. run. apply Hend; [fin|congruence].
Qed.

Lemma path_loop_runs prc : path_prc prc -> forall n s last, inv s -> (eleft s < n)%nat ->
  runs (path_loop n prc last) (fun _ s' => went false s s' /\ m_col_ref s' = m_col_ref s) s.
Proof using.
  intros Hp. induction n as [|n IH]; intros s last Hi Hn; [lia|]. cbn [path_loop]. do 2 run.
  destruct (next_in_types _ s); cbn [negb]; [|run; fin]. do 2 run.
  - run. eapply runs_mono; [eapply report_el_runs; [done|fin]|]. intros [] s1 (Hi1 & Hl1 & _ & Hc1).
    run. eapply runs_mono; [apply IH; [done|fin]|]. intros [l star] s2 [Hw Hc]. run. split; [fin|congruence].
  - run. eapply runs_mono; [eapply docpath_member_dot_runs; [done|fin]|]. intros m s1 [Hw Hc]. run.
    assert (Hend : runs (match m with Some el => mret (Some el) | None => parse_docpath_array prc end)
      (took s) s1).
    { destruct m as [el|]; [run; apply took_some; [fin|congruence]|].
      eapply runs_mono; [eapply docpath_array_runs; [done|fin]|]. intros [el|] s2 [Hw2 Hc2].
      - apply took_some; [fin|congruence].
      - apply took_none; [fin|congruence]. }
    eapply runs_mono; [exact Hend|]. intros [el|] s2 [Hw2 Hc2].
    + run. eapply runs_mono; [apply IH; [fin|fin]|]. intros [l star] s3 [Hw3 Hc3]. run. split; [fin|congruence].
    + run. split; [fin|congruence].
Qed.

Lemma document_path1_runs prc s : path_prc prc -> inv s ->
  runs (parse_document_path1 prc) (fun _ s' => went false s s' /\ m_col_ref s' = m_col_ref s) s.
Proof using.
  intros Hp Hi. unfold parse_document_path1. do 3 run.
  eapply runs_mono; [eapply path_loop_runs; [done|done|unfold token_turns, eleft, toks_of; lia]|].
  intros [l star] s1 [Hw Hc]. destruct star; run; fin.
Qed.

Lemma document_path_runs prc dot s : path_prc prc -> inv s -> runs (parse_document_path prc dot) (took s) s.
Proof using.
  intros Hp Hi. unfold parse_document_path. do 2 run; run.
  - run. eapply runs_mono; [eapply report_el_runs; [done|fin]|]. intros [] s1 (Hi1 & Hl1 & _ & Hc1). run.
    run. eapply runs_mono; [eapply document_path1_runs; [done|fin]|]. intros l s2 [Hw Hc].
    destruct (_ && _); [run|]. run. eapply runs_mono; [eapply path_tell; [done|fin]|].
    intros [] s3 (Hi3 & Hl3 & _ & Hc3). run. apply took_some; [fin|congruence].
  - run. eapply runs_mono; [eapply docpath_member_dot_runs; [done|fin]|]. intros m s1 [Hw Hc].
    eapply (runs_mono _ _ _ (took s)).
    { destruct m as [el|]; [run; apply took_some; [fin|congruence]|]. destruct dot; [run; apply took_none; [fin|congruence]|].
      eapply runs_mono; [eapply docpath_member_runs; [done|fin]|]. intros [el|] s2 [Hw2 Hc2].
      - apply took_some; [fin|congruence].
      - apply took_none; [fin|congruence]. }
    intros [el|] s2 [Hw2 Hc2]; [|run; apply took_none; [fin|congruence]].
    run. eapply runs_mono; [eapply document_path1_runs; [done|fin]|]. intros l s3 [Hw3 Hc3].
    destruct (_ && _); [run|]. run. eapply runs_mono; [eapply path_tell; [done|fin]|].
    intros [] s4 (Hi4 & Hl4 & _ & Hc4). run. apply took_some; [fin|congruence].
Qed.

Lemma document_field_runs prc prefix s : path_prc prc -> inv s ->
  runs (parse_document_field prc prefix) (fun _ s' => went true s s' /\ m_col_ref s' = m_col_ref s) s.
Proof using.
  intros Hp Hi. unfold parse_document_field. do 2 run.
  - run. eapply runs_mono; [eapply document_path_runs; [done|fin]|]. intros [l|] s1 [Hw Hc]; [run; split; [fin|congruence]|].
    run. eapply runs_mono; [eapply path_tell; [done|fin]|]. intros [] s2 (Hi2 & Hl2 & _ & Hc2). run.
    split; [fin|congruence].
  - destruct prefix; [run|]. run. eapply runs_mono; [eapply document_path_runs; [done|fin]|].
    intros [l|] s1 [Hw Hc]; run. split; [fin|congruence].
Qed.

Lemma document_field1_runs first s : inv s ->
  runs (parse_document_field1 first T_store) (fun _ s' => went false s s' /\ m_col_ref s' = m_col_ref s) s.
Proof using.
  intros Hi. unfold parse_document_field1. run. eapply runs_mono; [eapply report_el_runs; [by left|done]|].
  intros [] s1 (Hi1 & Hl1 & _ & Hc1). run. eapply runs_mono; [eapply document_path1_runs; [by left|done]|].
  intros l s2 [Hw Hc]. run. eapply runs_mono; [eapply path_tell; [by left|fin]|].
  intros [] s3 (Hi3 & Hl3 & _ & Hc3). run. split; [fin|congruence].
Qed.

Lemma document_field2_runs first second s : inv s ->
  runs (parse_document_field2 first second T_store) (fun _ s' => went false s s' /\ m_col_ref s' = m_col_ref s) s.
Proof using.
  intros Hi. unfold parse_document_field2. run. eapply runs_mono; [eapply report_el_runs; [by left|done]|].
  intros [] s1 (Hi1 & Hl1 & _ & Hc1). run. eapply runs_mono; [eapply report_el_runs; [by left|done]|].
  intros [] s2 (Hi2 & Hl2 & _ & Hc2). run. eapply runs_mono; [eapply document_path1_runs; [by left|done]|].
  intros l s3 [Hw Hc]. run. eapply runs_mono; [eapply path_tell; [by left|fin]|].
  intros [] s4 (Hi4 & Hl4 & _ & Hc4). run. split; [fin|congruence].
Qed.
End paths.

(** The tokens of a text satisfy what the laws ask for. *)
Lemma inv_start input toks log acc col (T : Token -> Prop) :
  Tokenizer_new input = Ok toks -> Forall T toks ->
  inv T (mk_EState (mk_PState (mk_It input toks) log acc) col).
Proof.
  intros Ht HT. pose proof (Tokenizer_new_lexed input) as Hl. rewrite Ht in Hl.
  apply lexed_inside in Hl. split; [|done]. unfold within. simpl. exact Hl.
Qed.

Section ends.
Context (U : Prop) (T : Token -> Prop) (quiet : bool).
Abbreviation runs := (runs U quiet).
Abbreviation inv := (inv T).
Abbreviation went := (went T).
Abbreviation took := (took T).
Abbreviation stays := (stays T).

(** The path of a quoted text is parsed on tokens of its own. *)
Lemma on_text_runs text prefix s : inv s ->
  runs (on_text text (parse_document_field T_store prefix)) (fun _ s' => stays s s') s.
Proof using.
  intros Hi. unfold ExprEnds.runs, on_text. pose proof (Tokenizer_new_lexed text) as Hl.
  destruct (Tokenizer_new text) as [toks|e| |] eqn:Et; [|by destruct e; try done; split|done..].
  set (s0 := mk_EState _ _).
  destruct (document_field_runs False (fun _ => True) true T_store prefix s0) as [H Hq].
  { by left. }
  { apply inv_start; [done|]. by apply Forall_true. }
  split.
  - destruct (parse_document_field T_store prefix s0) as [[a|e| |] s1] eqn:E; simpl; try done.
  - intros _ l a. specialize (Hq eq_refl l a).
    change (mk_EState (set_it (mk_It text toks) (e_p (with_log l a s))) no_column) with (with_log l a s0).
    rewrite Hq. destruct (parse_document_field T_store prefix s0) as [o s1]. done.
Qed.

(** ** Identifiers *)

Lemma get_ident_runs s : inv s ->
  runs get_ident (fun x s' => took s x s' /\
    match x with
    | Some name => exists t, head (toks_of s) = Some t /\ tok_text t = name /\
        (tok_type t = WORD \/ tok_type t = QWORD)
    | None => s' = s
    end) s.
Proof using.
  intros Hi. unfold get_ident. do 2 run. destruct (next_in_types [WORD; QWORD] s) eqn:E; cbn [negb].
  - eapply runs_next; [done|by eapply test_some; [apply (test_types [WORD; QWORD])|]|].
    intros t s1 Ht Hw Hc. run. split; [by apply took_some|]. exists t. split; [done|]. split; [done|].
    unfold next_in_types, cur_token_type_in, peek_token in E. unfold toks_of in Ht. rewrite Ht in E.
    apply bool_decide_eq_true in E. apply list_elem_of_In in E. simpl in E. intuition congruence.
  - run. split; [apply took_none; [by apply went_refl|done]|done].
Qed.

Lemma set_table_runs f s (Q : unit -> EState -> Prop) : inv s ->
  (forall s', inv s' -> eleft s' = eleft s -> toks_of s' = toks_of s ->
    m_table_ref (m_col_ref s') = f (m_table_ref (m_col_ref s)) -> Q tt s') ->
  runs (set_table f) Q s.
Proof using. intros Hi HQ. apply runs_update; [done|]. by apply HQ. Qed.

Lemma set_col_runs c s (Q : unit -> EState -> Prop) : inv s ->
  (forall s', inv s' -> eleft s' = eleft s -> toks_of s' = toks_of s -> m_col_ref s' = c -> Q tt s') ->
  runs (set_col c) Q s.
Proof using. intros Hi HQ. apply runs_update; [done|]. by apply HQ. Qed.

(** Undefined tokens are excluded, or the result may be undefined. *)
Hypothesis HT : U \/ forall t, T t -> safe_tok t.

Lemma safe_head s t : inv s -> head (toks_of s) = Some t -> U \/ safe_tok t.
Proof using HT.
  intros [_ Ht] Hh. destruct HT as [HU|HS]; [by left|right]. apply HS.
  destruct (toks_of s); [done|]. injection Hh as ->. by inversion Ht.
Qed.

(** If there is a name, the table of the column is not null. *)
Lemma schema_ident_runs s : inv s ->
  runs parse_schema_ident (fun x s' =>
    went x.1 s s' /\ (x.1 = true -> U \/ table (m_col_ref s') <> None) /\
    (x.1 = false -> s' = s \/ went true s s')) s.
Proof using HT.
  intros Hi. unfold parse_schema_ident. do 2 run. unfold epeek, peek_token.
  destruct (head (rest_toks (e_p s))) as [t0|] eqn:E0; [|run; split; [by apply went_refl|]; split; [done|by left]].
  run. eapply runs_mono; [by eapply get_ident_runs|]. intros [name|] s1 [[Hw1 Hc1] H1]; cycle 1.
  { run. subst. split; [by apply went_refl|]. split; [done|by left]. }
  destruct H1 as (t & Ht & Hn & Hty). assert (t = t0) as -> by (unfold toks_of in Ht; congruence).
  run. apply set_table_runs; [fin|]. intros s2 Hi2 Hl2 Ht2 Hc2.
  assert (Hne : U \/ name <> []).
  { destruct (safe_head s t0 Hi Ht) as [HU|[[Hs _] _]]; [by left|right]. subst. auto. }
  assert (Hw2 : went true s s2) by fin. run; run.
  - do 2 run. unfold epeek, peek_token. destruct (head (rest_toks (e_p s0))) as [t1|] eqn:E1;
      [|run; split; [fin|split; [done|right; fin]]].
    run. eapply runs_mono; [eapply get_ident_runs; fin|]. intros [name1|] s4 [[Hw4 Hc4] H4]; cycle 1.
    { run. subst. split; [fin|split; [done|right; fin]]. }
    destruct H4 as (t' & Ht' & Hn' & Hty'). run. apply set_table_runs; [fin|].
    intros s5 Hi5 Hl5 Ht5 Hc5. run. split; [fin|]. split; [|done]. intros _.
    assert (Hne' : U \/ name1 <> []).
    { destruct (safe_head s0 t') as [HU|[[Hs _] _]]; [fin|done|by left|right]. subst. auto. }
    destruct Hne' as [HU|Hne']; [by left|right]. unfold table. rewrite Hc5. simpl. by rewrite decide_False.
  - run. split; [fin|]. split; [|done]. intros _. destruct Hne as [HU|Hne]; [by left|right].
    unfold table. rewrite H0, Hc2. simpl. by rewrite decide_False.
Qed.

Lemma column_ident1_runs s : inv s -> U \/ table (m_col_ref s) <> None ->
  runs (parse_column_ident1 T_store) (fun _ s' => went false s s') s.
Proof using.
  intros Hi Htab. unfold parse_column_ident1. run.
  assert (Hrest : forall s1, went false s s1 ->
    runs (a ← consume_type ARROW;
      a ← match a with Some t => mret (Some t) | None => consume_type ARROW2 end;
      match a with
      | None => mret empty_path
      | Some _ =>
          q ← read (next_in_types [QSTRING; QQSTRING]);
          if q : bool then
            t ← econsume; t ← pure (deref t);
            '(path, more) ← on_text (tok_text t) (parse_document_field T_store true);
            if more : bool then eparse_error (wlit "Unexpected characters in a quotted path component")
            else mret path
          else parse_document_field T_store true
      end) (fun _ s' => went false s s') s1).
  { intros s1 Hw1. run. eapply (runs_mono _ _ _ (fun _ s' => went false s s')); [run; fin|]. intros a s2 Hw2. run.
    eapply (runs_mono _ _ _ (fun _ s' => went false s s')); [destruct a; run; fin|]. intros [b|] s3 Hw3; [|run; fin].
    do 2 run. destruct (next_in_types _ s3) eqn:E.
    - eapply runs_next; [fin|by eapply test_some; [apply (test_types [QSTRING; QQSTRING])|]|].
      intros t s4 _ Hw4 _. run. eapply runs_mono; [apply on_text_runs; fin|].
      intros [path [|]] s5 H5; [|run; apply stays_went in H5; fin].
      eapply runs_error. by destruct H5.
    - eapply runs_mono; [eapply document_field_runs; [by left|fin]|]. intros p s4 [Hw4 _]. fin. }
  run; run.
  - run. eapply runs_mono; [eapply get_ident_runs; fin|]. intros [name|] s1 [[Hw1 Hc1] Hn1]; [|run].
    run. run. apply set_col_runs; [fin|]. intros s2 Hi2 Hl2 Ht2 _. apply Hrest. fin.
  - do 3 run. apply runs_deref.
    { intros Hn. destruct Htab as [HU|Htab]; [done|]. by rewrite H0 in Hn. }
    intros tbl _. apply set_col_runs; [fin|]. intros s1 Hi1 Hl1 Ht1 _. apply Hrest. fin.
Qed.

(** ** Cast types and literals *)

Lemma cast_dimension_runs d s : inv s -> runs (cast_data_type_dimension d) (fun _ s' => went true s s') s.
Proof using.
  intros Hi. unfold cast_data_type_dimension. do 4 run. run.
  eapply (runs_mono _ _ _ (fun _ s' => went true s s')); [destruct d; run; fin|]. intros c s2 Hw2. run.
  eapply (runs_mono _ _ _ (fun _ s' => went true s s')); [destruct c; [do 3 run|run]; fin|].
  intros second s3 Hw3. do 2 run. run. fin.
Qed.

Lemma keyword_name_none k : Keyword_name k = None -> k = K_NONE.
Proof using. by destruct k. Qed.

(** CAST may be undefined: its type may be no keyword. *)
Lemma cast_type_runs s : inv s -> U -> runs parse_cast_type (fun _ s' => went true s s') s.
Proof using.
  intros Hi HU. unfold parse_cast_type. do 2 run. destruct t as [t|]; [|run].
  run. apply runs_deref; [done|]. intros name _.
  assert (Hn : runs (mret name) (fun _ s' => went true s s') s0) by (run; fin).
  assert (He : forall msg, runs (eparse_error (A := wstr) msg) (fun _ s' => went true s s') s0) by (intros; run).
  assert (Hd : forall d, runs (b ← read (next_is_type LPAREN);
      if b : bool then d ← cast_data_type_dimension d; mret (name ++ d) else mret name)
      (fun _ s' => went true s s') s0).
  { intros d. do 2 run. destruct (next_is_type LPAREN s0); [|done]. run.
    eapply runs_mono; [apply cast_dimension_runs; fin|]. intros w s1 Hw. run. fin. }
  assert (Hs : runs (consume_kws [K_INTEGER; K_INT];; int ← pure (deref (Keyword_name K_INTEGER));
      mret (name ++ wlit " " ++ int)) (fun _ s' => went true s s') s0).
  { do 2 run; run; (apply runs_deref; [done|]; intros int _; run; fin). }
  destruct (Keyword_get t); first [apply Hn | apply Hs | apply Hd | apply He].
Qed.

Lemma tell_store c (Q : unit -> EState -> Prop) s : Q tt s -> runs (etell T_store c) Q s.
Proof using. intros H. destruct s as [p col]. by split. Qed.

(** A literal takes a token; without one the tokens stay. *)
Lemma literal_runs o neg s : inv s -> (toks_of s = [] -> U) ->
  runs (parse_literal o neg T_store) (fun x s' =>
    match x with Some _ => went true s s' | None => s' = s end) s.
Proof using HT.
  intros Hi HU. unfold parse_literal. do 3 run. unfold epeek, peek_token.
  destruct (head (rest_toks (e_p s))) as [t|] eqn:Eh; [|apply runs_undefined; apply HU; by apply head_None in Eh].
  apply runs_deref; [done|]. intros ? [= <-].
  set (Q := fun (x : option stored) s' => match x with Some _ => went true s s' | None => s' = s end).
  assert (Hcons : forall B (f : option Token -> eparser B) R,
    (forall s', went true s s' -> runs (f (Some t)) R s') -> runs (econsume ≫= f) R s).
  { intros B f R Hf. run. eapply runs_mono; [by eapply runs_econsume|]. intros x s1 (Hw & -> & _).
    unfold toks_of in *. rewrite Eh in *. apply Hf. fin. }
  assert (Hval : forall c x, runs (v ← eask T_store (c_base x_val); etell v (c_base c);; econsume;;
      mret (Some x)) Q s).
  { intros c x. do 3 run. apply tell_store. apply Hcons. intros s1 Hw. run. fin. }
  assert (Hlit : runs match tok_type t with
      | QQSTRING | QSTRING =>
          v ← eask T_store (c_base x_val); econsume;;
          if m_strings_as_blobs o then
            etell v (c_base (x_octets (tok_text t)));; mret (Some (S_octets (tok_text t)))
          else etell v (c_base (x_str (tok_text t)));; mret (Some (S_str (tok_text t)))
      | NUMBER =>
          econsume;; d ← converted (strtod (tok_text t));
          let d := if neg then dec_opp d else d in
          v ← eask T_store (c_base x_val); etell v (c_base (x_double d));; mret (Some (S_double d))
      | INTEGER | HEX =>
          let radix := if decide (tok_type t = HEX) then 16 else 10 in
          econsume;;
          if neg then
            i ← converted (strtoi (tok_text t) radix);
            if negb (in_int64 (- i)) then pure Undefined else
            v ← eask T_store (c_base x_val); etell v (c_base (x_int (- i)));; mret (Some (S_int (- i)))
          else
            u ← converted (strtoui (tok_text t) radix);
            v ← eask T_store (c_base x_val); etell v (c_base (x_uint u));; mret (Some (S_uint u))
      | _ => mret None
      end Q s).
  { assert (Hno : runs (mret None) Q s) by by run.
    assert (Hend : forall c x s1, went true s s1 ->
      runs (v ← eask T_store (c_base x_val); etell v (c_base c);; mret (Some x)) Q s1).
    { intros c x s1 Hw. do 3 run. apply tell_store. run. fin. }
    assert (Hnum : forall radix s1, 0 <= radix -> went true s s1 -> (tok_type t = INTEGER \/ tok_type t = HEX) ->
      runs (if neg then
            i ← converted (strtoi (tok_text t) radix);
            if negb (in_int64 (- i)) then pure Undefined else
            v ← eask T_store (c_base x_val); etell v (c_base (x_int (- i)));; mret (Some (S_int (- i)))
          else
            u ← converted (strtoui (tok_text t) radix);
            v ← eask T_store (c_base x_val); etell v (c_base (x_uint u));; mret (Some (S_uint u))) Q s1).
    { intros radix s1 Hr Hw Hty. destruct neg; run; (eapply runs_converted; [fin|]).
      - pose proof (strtoi_ends (tok_text t) radix) as He.
        destruct (strtoi (tok_text t) radix) as [i|e| |] eqn:Ei; try done.
        destruct (in_int64 (- i)) eqn:Er; cbn [negb]; [by apply Hend|]. apply runs_undefined.
        destruct (safe_head s t Hi Eh) as [HU'|[_ Hs]]; [done|].
        by rewrite (strtoi_negates _ _ _ Hr (Hs Hty) Ei) in Er.
      - pose proof (strtoui_ends (tok_text t) radix) as He.
        destruct (strtoui (tok_text t) radix) as [u|e| |]; [by apply Hend|done..]. }
    assert (Hstr : runs (v ← eask T_store (c_base x_val); econsume;;
          if m_strings_as_blobs o then
            etell v (c_base (x_octets (tok_text t)));; mret (Some (S_octets (tok_text t)))
          else etell v (c_base (x_str (tok_text t)));; mret (Some (S_str (tok_text t)))) Q s).
    { do 2 run. apply Hcons. intros s1 Hw. destruct (m_strings_as_blobs o); run; apply tell_store; run; fin. }
    destruct (tok_type t) eqn:Ety; first [apply Hno | apply Hstr | cbv zeta; apply Hcons; intros s1 Hw].
    - run. eapply runs_converted; [fin|]. pose proof (strtod_ends (tok_text t)).
      destruct (strtod (tok_text t)); [by apply Hend|done..].
    - apply Hnum; [done|done|by left].
    - apply Hnum; [done|done|by right]. }
  destruct (Keyword_get t); first [apply Hval | apply Hlit].
Qed.

(** ** Lists, arrays and documents in storage *)

Definition gets {A} (s : EState) (x : option A) (s' : EState) : Prop :=
  went (bool_decide (x <> None)) s s'.

(** The parser ends where at most [n] tokens are left. *)
Definition upto {A} (n : nat) (m : eparser (option A)) : Prop :=
  forall s, inv s -> (eleft s <= n)%nat -> runs m (gets s) s.

Lemma upto_weaken {A} n n' (m : eparser (option A)) : (n' <= n)%nat -> upto n m -> upto n' m.
Proof using. intros Hn Hm s Hi Hl. apply Hm; [done|lia]. Qed.

Lemma report_if_runs {A} (m : target -> eparser (option A)) s :
  inv s -> runs (m T_store) (gets s) s -> runs (report_if m T_store) (gets s) s.
Proof using.
  intros Hi Hm. unfold report_if. run. eapply runs_mono; [exact Hm|]. change (is_null T_store) with false. intros [x|] s1 Hw; run; exact Hw.
Qed.

Lemma report_if_runs_some {A} (m : target -> eparser (option A)) s (P : Prop) :
  inv s -> runs (m T_store) (fun x s' => gets s x s' /\ (P -> x <> None)) s ->
  runs (report_if m T_store) (fun x s' => gets s x s' /\ (P -> x <> None)) s.
Proof using.
  intros Hi Hm. unfold report_if. run. eapply runs_mono; [exact Hm|].
  change (is_null T_store) with false. intros [x|] s1 Hw; run; exact Hw.
Qed.

Lemma report_if_upto {A} (m : target -> eparser (option A)) n : upto n (m T_store) -> upto n (report_if m T_store).
Proof using. intros Hm s Hi Hl. apply report_if_runs; [done|by apply Hm]. Qed.

Lemma list_loop_runs {A} (el : eparser (option A)) : forall n k s first, inv s -> (eleft s < n)%nat ->
  (eleft s <= k)%nat -> upto k el -> runs (list_loop n el first) (gets s) s.
Proof using.
  induction n as [|n IH]; intros k s first Hi Hn Hk Hel; [lia|]. cbn [list_loop]. run.
  eapply runs_mono; [by apply Hel|]. unfold gets. intros [x|] s1 Hw.
  - do 2 run.
    + run. eapply runs_mono; [apply (IH k); [fin|fin|fin|done]|]. unfold gets. intros l s2 Hw2. run.
      destruct l; cbn; fin.
    + run. fin.
  - destruct first; run. fin.
Qed.

Lemma list_parse_runs {A} (el : eparser (option A)) s : inv s -> upto (eleft s) el ->
  runs (list_parse el) (gets s) s.
Proof using.
  intros Hi Hel. unfold list_parse. do 2 run. apply (list_loop_runs el _ (eleft s)); [done| |done|done].
  unfold token_turns, eleft, toks_of. lia.
Qed.

Section any.
Context {A : Type} (any : target -> eparser (option A)).

Lemma arr_parse_runs s : inv s -> (next_is_type LSQBRACKET s = true -> upto (eleft s - 1) (any T_store)) ->
  runs (arr_parse any T_store) (fun x s' => gets s x s' /\ (next_is_type LSQBRACKET s = true -> x <> None)) s.
Proof using.
  intros Hi Hany. unfold arr_parse. do 2 run; [|run; split; [unfold gets; fin|]; by destruct H1 as [-> _]].
  specialize (Hany (proj2 H1)). run. apply tell_store. do 2 run.
  assert (Hend : forall l s1, went true s s1 ->
    runs (c ← consume_type RSQBRACKET;
      match c with
      | None => eparse_error (wlit "Expected ']' to close array")
      | Some _ => etell T_store c_list_end;; mret (Some l)
      end) (fun (x : option (list A)) s' => gets s x s' /\ (next_is_type LSQBRACKET s = true -> x <> None)) s1).
  { intros l s1 Hw. do 2 run; [|run]. run. apply tell_store. run. split; [|done]. unfold gets. fin. }
  run. destruct (next_is_type RSQBRACKET s0); [run; apply Hend; fin|]. run. eapply runs_mono.
  { apply report_if_runs; [fin|]. apply list_parse_runs; [fin|].
    apply (upto_weaken (eleft s - 1)); [fin|]. intros s1 Hi1 Hl1. do 2 run. by apply report_if_runs; [|apply Hany]. }
  unfold gets. intros [l|] s1 Hw; run. apply Hend. fin.
Qed.

Lemma kv_parse_runs s : inv s -> upto (eleft s - 1) (any T_store) -> runs (kv_parse any T_store) (gets s) s.
Proof using.
  intros Hi Hany. unfold kv_parse. do 2 run. destruct (next_in_types _ s) eqn:E; cbn [negb];
    [|run; by apply went_refl].
  eapply runs_next; [done|by eapply test_some; [apply (test_types [QQSTRING; QSTRING; WORD])|]|].
  intros t s1 _ Hw _. do 2 run; [|run]. do 3 run. eapply runs_mono.
  { apply report_if_runs; [fin|]. apply Hany; fin. }
  unfold gets. intros [x|] s2 Hw2; run. fin.
Qed.

Lemma doc_parse_runs s : inv s -> (next_is_type LCURLY s = true -> upto (eleft s - 1) (any T_store)) ->
  runs (doc_parse any T_store) (fun x s' => gets s x s' /\ (next_is_type LCURLY s = true -> x <> None)) s.
Proof using.
  intros Hi Hany. unfold doc_parse. do 2 run; [|run; split; [unfold gets; fin|]; by destruct H1 as [-> _]].
  specialize (Hany (proj2 H1)). run. apply tell_store. do 2 run.
  assert (Hend : forall l s1, went true s s1 ->
    runs (c ← consume_type RCURLY;
      match c with
      | None => eparse_error (wlit "Expected '}' closing a document")
      | Some _ => etell T_store c_doc_end;; mret (Some (keyval_map l))
      end) (fun (x : option (list (wstr * A))) s' => gets s x s' /\ (next_is_type LCURLY s = true -> x <> None)) s1).
  { intros l s1 Hw. do 2 run; [|run]. run. apply tell_store. run. split; [|done]. unfold gets. fin. }
  run. destruct (next_is_type RCURLY s0); [run; apply Hend; fin|]. run. eapply runs_mono.
  { apply list_parse_runs; [fin|]. apply report_if_upto.
    intros s1 Hi1 Hl1. apply kv_parse_runs; [done|]. apply (upto_weaken (eleft s - 1)); [fin|done]. }
  unfold gets. intros [l|] s1 Hw; run. apply Hend. fin.
Qed.
End any.

(** ** The methods that call [parse] *)

(** Ranks below the start from which a start is reached without taking a token. *)
Definition rank (st : Start) : nat :=
  match st with
  | DOC | ARR | CAST_TYPE | COLID_DOCPATH => 0
  | ATOMIC => 1 | MUL => 2 | ADD => 3 | SHIFT => 4 | BIT => 5 | COMP => 6 | ILRI => 7 | AND => 8
  | OR | FULL => 9
  end.

Definition stores (prc : target) : Prop := prc = T_null \/ prc = T_store.

(** Every start but those of documents and arrays takes a token where it ends. *)
Definition takes (st : Start) (s : EState) : bool :=
  match st with DOC => next_is_type LCURLY s | ARR => next_is_type LSQBRACKET s | _ => true end.

Definition started (st : Start) : Prop := st <> CAST_TYPE /\ st <> COLID_DOCPATH.

Section methods.
Context (parse : parser_obj -> Start -> target -> eparser stored) (N : nat).
Hypothesis Hparse : forall o st prc s, started st -> stores prc -> inv s ->
  (12 * eleft s + rank st < N)%nat -> runs (parse o st prc) (fun _ s' => went (takes st s) s s') s.

Lemma full_runs o s : inv s -> (12 * eleft s + 9 < N)%nat ->
  runs (parse o FULL T_store) (fun _ s' => went true s s') s.
Proof using Hparse. intros Hi Hn. by apply (Hparse o FULL T_store s); [|right|..]. Qed.

Lemma fresh_runs {A} (m : eparser A) (Q : A -> EState -> Prop) s : inv s ->
  (forall a s' s'', Q a s' -> toks_of s'' = toks_of s' -> inv s'' -> Q a s'') ->
  (forall s0, inv s0 -> toks_of s0 = toks_of s -> runs m (fun a s' => inv s' /\ Q a s') s0) ->
  runs (fresh_parser m) Q s.
Proof using.
  intros Hi HQ Hm. destruct (Hm (mk_EState (e_p s) no_column)) as [H Hq]; [exact Hi|done|].
  unfold ExprEnds.runs, fresh_parser. split.
  - destruct (m (mk_EState (e_p s) no_column)) as [[a|e| |] s'] eqn:E; [|done..].
    destruct H as [Hi' H]. apply (HQ a s'); [done|done|exact Hi'].
  - intros q l acc. specialize (Hq q l acc).
    change (mk_EState (e_p (with_log l acc s)) no_column) with
      (with_log l acc (mk_EState (e_p s) no_column)). rewrite Hq.
    by destruct (m (mk_EState (e_p s) no_column)).
Qed.

Lemma do_parse_runs o s : inv s -> (12 * eleft s + 9 < N)%nat ->
  runs (fresh_parser (do_parse parse o T_store)) (fun _ s' => went true s s') s.
Proof using Hparse.
  intros Hi Hn. apply fresh_runs; [done| |].
  - intros _ s1 s2 (_ & H1 & H2) Ht Hi2. unfold eleft in *. rewrite <- Ht in H1, H2. by split.
  - intros s0 Hi0 Ht. assert (Hl : eleft s0 = eleft s) by (unfold eleft; by rewrite Ht).
    eapply runs_mono; [apply (full_runs o); [done|lia]|]. intros a s1 (Hi1 & H1 & H2). rewrite Hl in *.
    split; [done|]. by split.
Qed.

Lemma any_parse_runs mode : forall n s, inv s -> (eleft s < n)%nat -> (12 * eleft s + 9 < N)%nat ->
  runs (any_parse parse n mode T_store) (fun x s' => went true s s' /\ x <> None) s.
Proof using Hparse.
  induction n as [|n IH]; intros s Hi Hn HN; [lia|]. cbn [any_parse]. do 4 run.
  assert (Hany : upto (eleft s - 1) (any_parse parse n mode T_store) \/ eleft s = 0%nat).
  { destruct (decide (eleft s = 0%nat)); [by right|left]. intros s1 Hi1 Hl1.
    eapply runs_mono; [apply IH; [done|lia|lia]|]. intros x s2 [Hw Hx]. unfold gets.
    by rewrite bool_decide_eq_true_2. }
  assert (Hty : forall ty, next_is_type ty s = true -> upto (eleft s - 1) (any_parse parse n mode T_store)).
  { intros ty Ht. destruct Hany as [Hany|H0]; [done|]. apply test_some in Ht; [|apply test_type].
    unfold eleft in H0. by destruct (toks_of s). }
  destruct (next_is_type LCURLY s) eqn:Ec; [|destruct (next_is_type LSQBRACKET s) eqn:Ea].
  - do 3 run. eapply runs_mono; [apply (report_if_runs_some _ _ (next_is_type LCURLY s = true)); [done|apply doc_parse_runs; [done|apply Hty]]|].
    intros l s1 [Hw Hl]. run. specialize (Hl Ec). unfold gets in Hw. rewrite bool_decide_eq_true_2 in Hw by done. by split.
  - do 3 run. eapply runs_mono; [apply (report_if_runs_some _ _ (next_is_type LSQBRACKET s = true)); [done|apply arr_parse_runs; [done|apply Hty]]|].
    intros l s1 [Hw Hl]. run. specialize (Hl Ea). unfold gets in Hw. rewrite bool_decide_eq_true_2 in Hw by done. by split.
  - run. eapply runs_mono; [by apply do_parse_runs|]. intros x s1 Hw. run. by split.
Qed.

Lemma doc_method_runs o s : inv s -> (12 * eleft s <= N)%nat ->
  runs (parse_doc parse o T_store) (fun _ s' => went (next_is_type LCURLY s) s s') s.
Proof using Hparse.
  intros Hi HN. unfold parse_doc. do 3 run.
  eapply runs_mono; [apply (report_if_runs_some _ _ (next_is_type LCURLY s = true));
    [done|apply doc_parse_runs; [done|]]|].
  - intros Ht. pose proof (test_some _ _ (test_type LCURLY) Ht) as Hne.
    assert (eleft s <> 0%nat) by (unfold eleft; by destruct (toks_of s)).
    intros s1 Hi1 Hl1. eapply runs_mono; [apply any_parse_runs; [done| |lia]|].
    + unfold token_turns. change (length (rest_toks (e_p s))) with (eleft s). lia.
    + intros x s2 [Hw Hx]. unfold gets. by rewrite bool_decide_eq_true_2.
  - intros l s1 [Hw Hl]. run. unfold gets in Hw. destruct (next_is_type LCURLY s); [|fin].
    rewrite bool_decide_eq_true_2 in Hw by auto. fin.
Qed.

Lemma arr_method_runs o s : inv s -> (12 * eleft s <= N)%nat ->
  runs (parse_arr parse o T_store) (fun _ s' => went (next_is_type LSQBRACKET s) s s') s.
Proof using Hparse.
  intros Hi HN. unfold parse_arr. do 3 run.
  eapply runs_mono; [apply (report_if_runs_some _ _ (next_is_type LSQBRACKET s = true));
    [done|apply arr_parse_runs; [done|]]|].
  - intros Ht. pose proof (test_some _ _ (test_type LSQBRACKET) Ht) as Hne.
    assert (eleft s <> 0%nat) by (unfold eleft; by destruct (toks_of s)).
    intros s1 Hi1 Hl1. eapply runs_mono; [apply any_parse_runs; [done| |lia]|].
    + unfold token_turns. change (length (rest_toks (e_p s))) with (eleft s). lia.
    + intros x s2 [Hw Hx]. unfold gets. by rewrite bool_decide_eq_true_2.
  - intros l s1 [Hw Hl]. run. unfold gets in Hw. destruct (next_is_type LSQBRACKET s); [|fin].
    rewrite bool_decide_eq_true_2 in Hw by auto. fin.
Qed.

Lemma argslist_runs o blobs s : inv s -> (12 * eleft s + 9 < N)%nat ->
  runs (parse_argslist parse o T_store blobs) (fun _ s' => went false s s') s.
Proof using Hparse.
  intros Hi HN. unfold parse_argslist. run. eapply runs_mono.
  { apply report_if_runs; [done|]. apply list_parse_runs; [done|]. intros s1 Hi1 Hl1. do 3 run.
    eapply runs_mono; [apply do_parse_runs; [done|lia]|]. intros x s2 Hw. run. unfold gets. fin. }
  unfold gets. intros l s1 Hw. run. destruct l; fin.
Qed.

(** The keyword of an operator that has no symbol. *)
Lemma get_op_found l t : get_op l t = O_NONE \/
  exists x, x ∈ l /\ x.1.1.1 = get_op l t /\ (tok_type t ∈ x.1.2 \/ Keyword_get t ∈ x.2).
Proof using.
  unfold get_op. destruct (find (fun x => bool_decide (tok_type t ∈ x.1.2)) l) as [x|] eqn:E.
  - apply List.find_some in E as [Hin Ht]. right. exists x. rewrite list_elem_of_In. split; [done|].
    split; [done|]. left. by apply bool_decide_eq_true in Ht.
  - destruct (find (fun x => bool_decide (Keyword_get t ∈ x.2)) l) as [x|] eqn:E'; [|by left].
    apply List.find_some in E' as [Hin Ht]. right. exists x. rewrite list_elem_of_In. split; [done|].
    split; [done|]. right. by apply bool_decide_eq_true in Ht.
Qed.

Lemma keyword_op t o k : o <> O_NONE ->
  Forall (fun x => x.1.1.1 = o -> x.1.2 = [] /\ x.2 = [k]) BINARY_OP -> get_binary t = o -> Keyword_get t = k.
Proof using.
  intros Ho Hall Hb. unfold get_binary in Hb. destruct (get_op_found BINARY_OP t) as [H|(x & Hin & Hx & H)];
    [congruence|]. rewrite Hb in Hx. apply (proj1 (Forall_forall _ _) Hall x Hin) in Hx as [H1 H2].
  rewrite H1, H2 in H. destruct H as [H|H]; [by apply not_elem_of_nil in H|].
  by apply list_elem_of_singleton in H.
Qed.

Lemma op_cast t : get_binary t = O_CAST -> Keyword_get t = K_CAST.
Proof using. apply keyword_op; [done|]. unfold BINARY_OP. repeat (apply Forall_cons_2; [done|]). by apply Forall_nil_2. Qed.

Lemma op_sounds t : get_binary t = O_SOUNDS_LIKE -> Keyword_get t = K_SOUNDS.
Proof using. apply keyword_op; [done|]. unfold BINARY_OP. repeat (apply Forall_cons_2; [done|]). by apply Forall_nil_2. Qed.

Lemma next_op_head o s t : head (toks_of s) = Some t -> next_is_op o s = true -> op_is o t = true.
Proof using. unfold next_is_op, epeek, peek_token, toks_of. by intros ->. Qed.

Lemma cast_runs o s : inv s -> (12 * eleft s <= N)%nat ->
  runs (parse_cast parse o T_store) (fun x s' => match x with Some _ => went true s s' | None => s' = s end) s.
Proof using HT Hparse.
  intros Hi HN. unfold parse_cast. do 2 run; [|run; by destruct H1 as [_ ->]].
  assert (HU : U).
  { destruct H1 as [Hh Ho]. apply (next_op_head _ _ _ Hh) in Ho. apply bool_decide_eq_true in Ho.
    destruct (safe_head s t Hi Hh) as [|[(_ & Hc & _) _]]; [done|]. destruct Hc. apply op_cast. by rewrite Ho. }
  do 3 run. run. run. apply tell_store. do 3 run. eapply runs_mono; [apply full_runs; fin|]. intros x s2 Hw.
  do 2 run. do 6 run. run. eapply runs_mono; [apply cast_type_runs; [fin|done]|]. intros ty s4 Hw4. run. apply tell_store.
  run. apply tell_store. do 2 run. run. fin.
Qed.

Lemma special_args_runs o s : inv s -> (12 * eleft s + 9 < N)%nat ->
  runs (parse_special_args parse o T_store) (fun _ s' => went false s s') s.
Proof using Hparse.
  intros Hi HN. unfold parse_special_args. do 2 run. case_bool_decide; [run; by apply went_refl|].
  destruct (kw_equal _ (wlit "char")).
  { do 2 run. destruct (next_is_kw K_USING s); run. by apply went_refl. }
  do 2 run. destruct (_ && _); [run|]. destruct (kw_equal _ (wlit "position")); [|run; by apply went_refl].
  do 2 run; [|run]. do 3 run. eapply runs_mono; [apply full_runs; fin|]. intros x s1 Hw. run. fin.
Qed.

Lemma function_call_runs o s : inv s -> (12 * eleft s <= N)%nat ->
  runs (parse_function_call parse o T_store)
    (fun x s' => match x with Some _ => went true s s' | None => s' = s end) s.
Proof using Hparse.
  intros Hi HN. unfold parse_function_call. do 2 run; [|run; by destruct H1 as [_ ->]].
  do 5 run. apply tell_store. do 3 run.
  eapply (runs_mono _ _ _ (fun _ s' => went true s s')).
  { destruct (next_is_type RPAREN s0); [run; fin|]. do 2 run. destruct (_ && _); [run|]. do 3 run.
    set (st := if _ && _ then COMP else FULL).
    eapply (runs_mono _ _ _ (fun _ s' => went true s0 s')).
    { destruct st eqn:Est; subst st; destruct (_ && _); try done.
      - apply full_runs; fin.
      - apply (Hparse o COMP T_store); [done|by right|fin|simpl; wents; lia]. }
    intros x s1 Hw. do 2 run; run.
    - eapply runs_mono; [apply argslist_runs; fin|]. intros l s3 Hw3. run. fin.
    - eapply runs_mono; [apply special_args_runs; fin|]. intros l s3 Hw3. run. fin. }
  intros args s1 Hw. run. apply tell_store. do 2 run. run. fin.
Qed.

Lemma name_runs o s : inv s -> (12 * eleft s <= N)%nat ->
  runs (parse_name parse o T_store) (fun _ s' => went true s s') s.
Proof using HT Hparse.
  intros Hi HN. unfold parse_name. run. apply set_col_runs; [done|]. intros s1 Hi1 Hl1 Ht1 Hc1. run.
  eapply runs_mono; [by apply schema_ident_runs|]. intros [ok [ty0 ty1]] s2 (Hw2 & Htab & Hno). cbn [fst] in *. run.
  eapply (runs_mono _ _ _ (fun x s' => match x with Some _ => went true s s' | None => s' = s2 end)).
  { destruct ok; [|run; done]. do 3 run. apply runs_deref.
    { intros Hn. by destruct (Htab eq_refl). }
    intros tbl _. eapply runs_mono; [apply function_call_runs; fin|]. intros [x|] s3 Hw3; [fin|done]. }
  intros [x|] s3 Hw3; [run; fin|]. subst s3. destruct (m_parser_mode o).
  - destruct (_ || _); [run|]. do 3 run.
    eapply (runs_mono _ _ _ (fun _ s' => went true s s')).
    { assert (Hdoc : forall m : eparser Doc_path,
        runs m (fun _ s' => went false s2 s' /\ m_col_ref s' = m_col_ref s2) s2 -> table (m_col_ref s2) <> None ->
        runs m (fun _ s' => went true s s') s2).
      { intros m Hm Ht. assert (Hw : went true s s2).
        { destruct ok; [fin|]. destruct (Hno eq_refl) as [->|Hw]; [|fin]. by rewrite Hc1 in Ht. }
        eapply runs_mono; [exact Hm|]. intros path s3 [Hw3 _]. fin. }
      destruct (table (m_col_ref s2)) as [tbl|] eqn:Et.
      - destruct (schema tbl); (apply Hdoc; [|done]); [apply document_field2_runs|apply document_field1_runs]; fin.
      - eapply runs_mono; [eapply document_field_runs; [by left|fin]|]. intros path s3 [Hw3 _]. fin. }
    intros path s3 Hw3. run. apply tell_store. run. fin.
  - destruct ok; cbn [negb]; [|run]. run. eapply runs_mono; [apply column_ident1_runs; [fin|by apply Htab]|].
    intros path s3 Hw3. do 3 run. apply tell_store. run. fin.
Qed.

Lemma operand_runs o name s : inv s -> (12 * eleft s + 9 < N)%nat ->
  runs (parse_operand parse o name T_store) (fun _ s' => went true s s') s.
Proof using Hparse.
  intros Hi HN. unfold parse_operand. run. apply tell_store. do 3 run.
  eapply runs_mono; [apply (Hparse o ATOMIC T_store); [done|by right|done|simpl; lia]|]. intros x s1 Hw. cbn in Hw.
  run. apply tell_store. run. fin.
Qed.

(** An operator takes a token and asks for its operand, or a number is there. *)
Lemma unary_runs s : inv s -> toks_of s <> [] ->
  runs (parse_unary T_store) (fun x s' => let '(argsp, _, _) := x in
    (argsp = T_store /\ went true s s') \/ (argsp = T_null /\ went false s s' /\ toks_of s' <> [])) s.
Proof using.
  intros Hi Hne. unfold parse_unary. do 3 run. unfold epeek, peek_token.
  apply runs_deref; [by intros ?%head_None|]. intros t Ht. cbv zeta.
  set (Q := fun (x : target * op * bool) s' => _).
  assert (Hcons : forall B (f : option Token -> eparser B) R,
    (forall x s', went true s s' -> runs (f x) R s') -> runs (econsume ≫= f) R s).
  { intros B f R Hf. run. eapply runs_mono; [by eapply runs_econsume|]. intros x s1 (Hw & -> & _).
    unfold toks_of in *. rewrite Ht in *. apply Hf. fin. }
  assert (Hnone : forall o, runs (mret (T_null, o, false)) Q s).
  { intros o. run. right. split; [done|]. split; [by apply went_refl|done]. }
  assert (Hop : forall o, runs (econsume;; argsp ← eask T_store (c_base (x_op (Op_name o))); mret (argsp, o, false)) Q s).
  { intros o. apply Hcons. intros _ s1 Hw. do 3 run. by left. }
  assert (Hsign : forall o, runs (econsume;;
      num ← read (next_in_types [NUMBER; INTEGER]);
      if num : bool then mret (T_null, o, bool_decide (o = O_MINUS))
      else argsp ← eask T_store (c_base (x_op (Op_name o))); mret (argsp, o, false)) Q s).
  { intros o. apply Hcons. intros _ s1 Hw. do 2 run. destruct (next_in_types _ s1) eqn:E.
    - run. right. split; [done|]. split; [fin|]. by eapply test_some; [apply (test_types [NUMBER; INTEGER])|].
    - do 3 run. by left. }
  destruct (get_unary t); first [apply Hnone | apply Hop | apply Hsign].
Qed.

Lemma atomic_runs o prc s : stores prc -> inv s -> (12 * eleft s <= N)%nat -> (12 * eleft s + 0 < N)%nat ->
  runs (parse_atomic parse o prc) (fun _ s' => went true s s') s.
Proof using HT Hparse.
  intros Hp Hi HN Hd. unfold parse_atomic. do 2 run. unfold epeek, peek_token.
  destruct (head (rest_toks (e_p s))) as [t|] eqn:Eh; [|run].
  set (Q := fun (x : stored) s' => went true s s').
  assert (Hrest : runs (
          sprc ← eask (store_if prc) c_scalar;
          c ← consume_type COLON;
          match c with
          | Some _ =>
              n ← type_throw WORD (wlit "Expected parameter name after ':'");
              etell sprc (c_base (x_param (tok_text n)));; mret (S_param (tok_text n))
          | None =>
              s ← consume_op O_STAR;
              match s with
              | Some _ =>
                  eask sprc (c_base (x_op (Op_name O_STAR)));; mret (S_op (Op_name O_STAR) [])
              | None =>
                  c ← parse_cast parse o sprc;
                  match c with
                  | Some x => mret x
                  | None =>
                      '(argsp, u, neg) ← parse_unary sprc;
                      if negb (is_null argsp) then parse_operand parse o (Op_name u) argsp else
                      l ← parse_literal o neg sprc;
                      match l with Some x => mret x | None => parse_name parse o sprc end
                  end
              end
          end) Q s).
  { assert (Hs : store_if prc = T_store) by (by destruct Hp as [-> | ->]). rewrite Hs. unfold Q. do 4 run.
    { do 2 run. run. apply tell_store. run. fin. }
    destruct H1 as [_ ->]. do 2 run; [do 3 run; fin|]. destruct H3 as [_ ->].
    run. eapply runs_mono; [by apply cast_runs|]. intros [x|] s1 Hs1; [run; fin|subst s1].
    run. eapply runs_mono; [apply unary_runs; [done|unfold toks_of; by destruct (rest_toks (e_p s))]|].
    intros [[argsp u] neg] s1 [[Ha Hw]|(Ha & Hw & Hne)]; subst argsp.
    - change (is_null T_store) with false. cbn [negb]. eapply runs_mono; [apply operand_runs; fin|]. intros x s2 Hw2. fin.
    - change (is_null T_null) with true. cbn [negb]. run. eapply runs_mono; [apply literal_runs; [fin|done]|].
      intros [x|] s2 Hs2; [run; fin|]. subst s2. eapply runs_mono; [apply name_runs; [fin|fin]|]. intros x s2 Hw2. fin. }
  assert (Hd1 : tok_type t = LCURLY -> runs (parse o DOC prc) Q s).
  { intros Hty. eapply runs_mono; [apply Hparse; [done|done|done|simpl; lia]|]. intros x s1 Hw. cbn [takes] in Hw.
    unfold next_is_type, cur_token_type_is, peek_token in Hw. rewrite Eh, bool_decide_eq_true_2 in Hw by done. exact Hw. }
  assert (Ha1 : tok_type t = LSQBRACKET -> runs (parse o ARR prc) Q s).
  { intros Hty. eapply runs_mono; [apply Hparse; [done|done|done|simpl; lia]|]. intros x s1 Hw. cbn [takes] in Hw.
    unfold next_is_type, cur_token_type_is, peek_token in Hw. rewrite Eh, bool_decide_eq_true_2 in Hw by done. exact Hw. }
  assert (Hg : runs (econsume;; x ← parse o FULL prc;
          type_throw RPAREN (wlit "Expected ')' to close parenthesized sub-expression");; mret x) Q s).
  { run. eapply runs_mono; [by eapply runs_econsume|]. intros x s1 (Hw & -> & _).
    unfold toks_of in Hw. rewrite Eh in Hw.
    assert (Hw1 : went true s s1) by fin. run.
    eapply runs_mono; [apply (Hparse o FULL); [done|done|fin|simpl; wents; lia]|]. intros e s2 Hw2. cbn in Hw2.
    do 2 run. run. unfold Q. fin. }
  destruct (tok_type t) eqn:Ety; first [apply Hrest | by apply Hd1 | by apply Ha1 | apply Hg].
Qed.

Lemma replay_if_stores e prc (Q : unit -> EState -> Prop) s : stores prc -> Q tt s -> runs (replay_if e prc) Q s.
Proof using.
  intros Hp HQ. destruct Hp as [-> | ->]; [by apply eruns_ret|]. change (replay_if e T_store) with (replay e T_store).
  split; [by rewrite replay_store|]. intros _ l a. by rewrite !replay_store.
Qed.

Lemma left_assoc_runs o ops lhs rhs prc s : stores prc -> started lhs -> started rhs ->
  takes lhs = (fun _ => true) -> takes rhs = (fun _ => true) -> inv s ->
  (12 * eleft s <= N)%nat -> (12 * eleft s + rank lhs < N)%nat -> (rank rhs <= 9)%nat ->
  runs (left_assoc_binary_op parse o ops lhs rhs prc) (fun _ s' => went true s s') s.
Proof using Hparse.
  intros Hp Hsl Hsr Htl Htr Hi HN Hl Hr. unfold left_assoc_binary_op. run.
  eapply runs_mono; [apply (Hparse o lhs T_null); [done|by left|done|done]|].
  intros l s1 Hw. cbv beta in Hw. rewrite Htl in Hw. do 2 run.
  - assert (Hs : store_if prc = T_store) by (by destruct Hp as [-> | ->]). rewrite Hs. cbv zeta. do 4 run.
    change (is_null T_store) with false. cbv iota. run. apply tell_store. do 3 run.
    apply replay_if_stores; [by right|]. do 3 run.
    eapply runs_mono; [apply (Hparse o rhs T_store); [done|by right|fin|wents; lia]|]. intros r s3 Hw3.
    cbv beta in Hw3. rewrite Htr in Hw3. run. apply tell_store. run. fin.
  - run. apply replay_if_stores; [done|]. run. fin.
Qed.

Lemma bit_runs o prc s : stores prc -> inv s -> (12 * eleft s <= N)%nat -> (12 * eleft s + 4 < N)%nat ->
  runs (parse_bit parse o prc) (fun _ s' => went true s s') s.
Proof using Hparse.
  intros Hp Hi HN Hl. unfold parse_bit. do 2 run.
  - assert (Hs : store_if prc = T_store) by (by destruct Hp as [-> | ->]). rewrite Hs. do 4 run.
    change (is_null T_store) with false. cbn [negb]. eapply runs_mono; [apply operand_runs; fin|].
    intros x s1 Hw. fin.
  - destruct H1 as [_ ->]. by apply left_assoc_runs; [..|simpl; lia].
Qed.

Lemma is_value_runs s : inv s -> runs (parse_is_value T_store) (fun _ s' => went false s s') s.
Proof using.
  intros Hi. unfold parse_is_value. do 2 run. cbv zeta. set (v := match t with Some _ => _ | None => _ end).
  destruct v as [x|]; [|run]. do 4 run. run. unfold tell_val. do 2 run. apply tell_store. run. fin.
Qed.

Lemma ilri_args_runs o main s : inv s -> (12 * eleft s + 9 < N)%nat -> (main = O_SOUNDS_LIKE -> U) ->
  main ∈ [O_IS; O_IS_NOT; O_IN; O_CONT_IN; O_NOT_IN; O_NOT_CONT_IN; O_LIKE; O_NOT_LIKE; O_RLIKE; O_NOT_RLIKE;
          O_REGEXP; O_NOT_REGEXP; O_BETWEEN; O_NOT_BETWEEN; O_SOUNDS_LIKE] ->
  runs (parse_ilri_args parse o main T_store) (fun _ s' => went false s s') s.
Proof using Hparse.
  intros Hi HN Hsl Hin. unfold parse_ilri_args. cbv zeta.
  assert (Hcomp : forall B (f : stored -> eparser B) R s1, inv s1 -> (12 * eleft s1 + 9 < N)%nat ->
    (forall x s', went true s1 s' -> runs (f x) R s') ->
    runs ((e ← eask T_store c_list_el; parse o COMP e) ≫= f) R s1).
  { intros B f R s1 Hi1 Hl1 Hf. do 3 run.
    eapply runs_mono; [apply (Hparse o COMP T_store); [done|by right|done|simpl; lia]|]. intros x s2 Hw. by apply Hf. }
  assert (Hone : runs ((e ← eask T_store c_list_el; parse o COMP e) ≫= fun x => mret [x]) (fun _ s' => went false s s') s).
  { apply Hcomp; [done|done|]. intros x s1 Hw. run. fin. }
  assert (Hlike : runs (x ← (e ← eask T_store c_list_el; parse o COMP e);
      esc ← read (next_is_kw K_ESCAPE);
      if esc : bool then eunsupported (wlit "ESCAPE clause for (R)LIKE operator") else mret [x])
      (fun _ s' => went false s s') s).
  { apply Hcomp; [done|done|]. intros x s1 Hw. do 2 run. destruct (next_is_kw K_ESCAPE s1); run. fin. }
  assert (Hbetween : runs (x ← (e ← eask T_store c_list_el; parse o COMP e);
      kw_throw K_AND (wlit "Expected AND in BETWEEN ... expression");;
      y ← (e ← eask T_store c_list_el; parse o COMP e); mret [x; y]) (fun _ s' => went false s s') s).
  { apply Hcomp; [done|done|]. intros x s1 Hw. do 2 run. apply Hcomp; [fin|wents; lia|]. intros y s2 Hw2. run. fin. }
  assert (Hin' : runs (p ← consume_type LPAREN;
      match p with
      | Some _ =>
          l ← parse_argslist parse o T_store true;
          type_throw RPAREN (wlit "Expected ')' to close IN(... expression");; mret l
      | None => x ← (e ← eask T_store c_list_el; parse o COMP e); mret [x]
      end) (fun _ s' => went false s s') s).
  { do 2 run; [|by destruct H1 as [_ ->]]. run. eapply runs_mono; [apply argslist_runs; fin|].
    intros l s1 Hw. do 2 run. run. fin. }
  assert (His : runs (x ← parse_is_value T_store; mret [x]) (fun _ s' => went false s s') s).
  { run. eapply runs_mono; [by apply is_value_runs|]. intros x s1 Hw. run. fin. }
  destruct main; try (exfalso; clear -Hin; apply list_elem_of_In in Hin; simpl in Hin; intuition congruence);
    first [apply Hone | apply Hlike | apply Hbetween | apply Hin' | apply His | apply runs_undefined; by apply Hsl].
Qed.

(** The operators that [consume_ops] takes. *)
Lemma next_ops_binary l s t : head (toks_of s) = Some t -> next_in_ops l s = true ->
  Forall (fun o => is_unary o = false /\ o <> O_NONE) l -> get_unary t ∉ l -> get_binary t ∈ l.
Proof using.
  unfold next_in_ops, epeek, peek_token, toks_of. intros ->. intros H%orb_true_iff _ Hu.
  destruct H as [H|H]; apply bool_decide_eq_true in H; [done|]. by destruct (Hu H).
Qed.

Lemma unary_range t : get_unary t ∈ [O_NONE; O_STAR; O_PLUS; O_MINUS; O_NEG; O_BITNEG; O_NOT].
Proof using.
  unfold get_unary. destruct (get_op_found UNARY_OP t) as [->|(x & Hin & <- & _)]; [by apply (bool_decide_unpack _)|].
  assert (H : Forall (fun x => x.1.1.1 ∈ [O_NONE; O_STAR; O_PLUS; O_MINUS; O_NEG; O_BITNEG; O_NOT]) UNARY_OP).
  { apply (bool_decide_unpack _). vm_compute. done. }
  by apply (proj1 (Forall_forall _ _) H) in Hin.
Qed.

Definition ilri_ops : list op := [O_IS; O_IN; O_LIKE; O_RLIKE; O_BETWEEN; O_REGEXP; O_SOUNDS_LIKE].

Lemma ilri_taken s t : head (toks_of s) = Some t -> next_in_ops ilri_ops s = true -> get_binary t ∈ ilri_ops.
Proof using.
  intros Hh Hn. eapply next_ops_binary; [done|done| |].
  - apply (bool_decide_unpack _). vm_compute. done.
  - pose proof (unary_range t) as Hu. intros H. clear -Hu H. apply list_elem_of_In in Hu. simpl in Hu.
    apply list_elem_of_In in H. simpl in H. intuition congruence.
Qed.

Lemma ilri_runs o prc s : stores prc -> inv s -> (12 * eleft s <= N)%nat -> (12 * eleft s + 6 < N)%nat ->
  runs (parse_ilri parse o prc) (fun _ s' => went true s s') s.
Proof using HT Hparse.
  intros Hp Hi HN Hl. unfold parse_ilri. run.
  eapply runs_mono; [apply (Hparse o COMP T_null); [done|by left|done|done]|]. intros first s1 Hw. cbn in Hw. run.
  eapply (runs_mono _ _ _ (fun _ s' => went true s s')); [run; fin|]. intros n s2 Hw2. cbv zeta. do 2 run.
  - destruct H1 as [Hh Ho]. pose proof (ilri_taken _ _ Hh Ho) as Hin.
    destruct (_ && _); [run|]. run.
    eapply (runs_mono _ _ _ (fun _ s' => went true s s')); [destruct (op_is O_IS t); run; fin|]. intros n' s3 Hw3.
    cbv zeta. do 2 run. destruct (_ && _); [run|]. do 2 run.
    set (main := ilri_op _ _ _).
    assert (Hs : store_if prc = T_store) by (by destruct Hp as [-> | ->]). rewrite Hs. do 5 run. apply tell_store.
    do 3 run. apply replay_if_stores; [by right|]. run. eapply runs_mono; [apply ilri_args_runs; [fin|wents; lia| |]|].
    + intros Hm. assert (Hb : get_binary t = O_SOUNDS_LIKE).
      { subst main. revert Hm. clear -Hin. destruct (get_binary t); try (by destruct (bool_decide _ || _), (next_is_type LPAREN s3));
          by intros. }
      destruct (safe_head s2 t) as [|[(_ & _ & Hc) _]]; [fin|done|done|]. destruct Hc. by apply op_sounds.
    + subst main. clear -Hin. apply list_elem_of_In in Hin. simpl in Hin.
      repeat destruct Hin as [Hin|Hin]; try done; rewrite <- Hin;
        destruct (bool_decide _ || _), (next_is_type LPAREN s3); by apply (bool_decide_unpack _).
    + intros l s4 Hw4. run. apply tell_store. run. fin.
  - destruct n as [n|]; [rewrite bool_decide_true by done; run|rewrite bool_decide_false by auto]. run.
    apply replay_if_stores; [done|]. run. fin.
Qed.

Lemma step_runs o st prc s : started st -> stores prc -> inv s -> (12 * eleft s + rank st < S N)%nat ->
  runs (parse_step parse o st prc) (fun _ s' => went (takes st s) s s') s.
Proof using HT Hparse.
  intros [Hs1 Hs2] Hp Hi Hn. assert (HN : (12 * eleft s <= N)%nat) by lia.
  assert (Hst : store_if prc = T_store) by (by destruct Hp as [-> | ->]).
  destruct st; cbn [parse_step rank takes] in *; try done;
    try (apply left_assoc_runs; (done || (simpl; lia))).
  - by apply atomic_runs; [..|lia].
  - by apply bit_runs; [..|lia].
  - by apply ilri_runs; [..|lia].
  - rewrite Hst. do 2 run. by apply doc_method_runs.
  - rewrite Hst. do 2 run. by apply arr_method_runs.
Qed.
End methods.

(** [parse] ends with the fuel of the tokens that are left and of the start. *)
Lemma parse_runs n : forall o st prc s, started st -> stores prc -> inv s ->
  (12 * eleft s + rank st < n)%nat -> runs (parse n o st prc) (fun _ s' => went (takes st s) s s') s.
Proof using HT.
  induction n as [|n IH]; intros o st prc s Hs Hp Hi Hn; [lia|]. cbn [parse]. by apply (step_runs (parse n) n).
Qed.
End ends.
