(* ===== verification/ExprVisit.v ===== *)
(** * What the parser of expressions reports

    A stored expression is reported by the calls of [visit].  A client that takes every
    part is told the visit of the expression that the same text stores, although the
    parser reports while it parses ([expression_reports]); for every client all parsers
    of texts end, and are undefined only for the tokens that [plain_tok] excludes
    ([ends_well]).

    An abstract expression [expr], its text, and the tree that is stored for it: operators
    are printed with parentheses around them; names of columns and functions are quoted,
    so they may be any characters. *)

From S2P Require Import Prelude Cursor Tokenizer Tokens ParserBase ParserLaws Json.
From S2P Require Import ExprBase ExprParser ExprEnds.

(** ** The calls that report an expression *)

Definition value_calls (c : expr_call) : list (call expr_call) := [c_scalar; c_base x_val; c_base c].

Fixpoint visit (e : stored) : list (call expr_call) :=
  match e with
  | S_none => []
  | S_op name l =>
      c_scalar :: c_base (x_op name) :: c_list_begin :: flat_map (fun x => c_list_el :: visit x) l ++ [c_list_end]
  | S_call func l =>
      c_scalar :: c_base (x_call func) :: c_list_begin :: flat_map (fun x => c_list_el :: visit x) l ++ [c_list_end]
  | S_ref col path => [c_scalar; c_base (x_ref col path)]
  | S_path path => [c_scalar; c_base (x_ref_path path)]
  | S_param name => [c_scalar; c_base (x_param name)]
  | S_arr l => c_arr :: c_list_begin :: flat_map (fun x => c_list_el :: visit x) l ++ [c_list_end]
  | S_doc l =>
      c_doc :: c_doc_begin :: flat_map (fun x => c_key_val x.1 :: visit x.2) l ++ [c_doc_end]
  | _ => value_calls (value_call e)
  end.

(** The client takes every part; more calls are in the log. *)
Definition takes_all (s : EState) : Prop := forall l, p_accept (e_p s) l = true.

Definition logged (l : list (call expr_call)) (s : EState) : EState :=
  with_log (p_log (e_p s) ++ l) (p_accept (e_p s)) s.

Lemma logged_app l1 l2 s : logged l2 (logged l1 s) = logged (l1 ++ l2) s.
Proof. destruct s as [[it log acc] col]. unfold logged, with_log. simpl. by rewrite app_assoc. Qed.

Lemma logged_nil s : logged [] s = s.
Proof. destruct s as [[it log acc] col]. unfold logged, with_log. simpl. by rewrite app_nil_r. Qed.

Lemma takes_all_logged l s : takes_all s -> takes_all (logged l s).
Proof. done. Qed.

(** The method makes these calls and nothing else. *)
Definition makes {A} (m : eparser A) (a : A) (l : list (call expr_call)) : Prop :=
  forall s, takes_all s -> m s = (Ok a, logged l s).

Lemma makes_ret {A} (a : A) : makes (mret a) a [].
Proof. intros s _. by rewrite logged_nil. Qed.

Lemma makes_bind {A B} (m : eparser A) (f : A -> eparser B) a b l1 l2 l :
  makes m a l1 -> makes (f a) b l2 -> l = l1 ++ l2 -> makes (m ≫= f) b l.
Proof.
  intros Hm Hf -> s Hs. rewrite (method_bind_ok (Hm s Hs)), Hf by by apply takes_all_logged.
  by rewrite logged_app.
Qed.

Lemma makes_tell c : makes (etell T_prc c) tt [c].
Proof. intros s _. by destruct s as [[it log acc] col]. Qed.

Lemma makes_ask c : makes (eask T_prc c) T_prc [c].
Proof.
  intros s Hs. destruct s as [[it log acc] col]. unfold eask, on_p, ask, mbind, Method_bind, update, read.
  cbn. rewrite Hs. done.
Qed.

Lemma makes_each {A} (f : A -> eparser unit) g l :
  Forall (fun x => makes (f x) tt (g x)) l -> makes (each f l) tt (flat_map g l).
Proof.
  induction 1 as [|x l Hx _ IH]; [apply makes_ret|]. by apply (makes_bind _ _ tt _ _ _ _ Hx IH).
Qed.

Lemma makes_list {A} (f : A -> eparser unit) c c' g l :
  Forall (fun x => makes (f x) tt (g x)) l ->
  makes (etell T_prc c;; each f l;; etell T_prc c') tt (c :: flat_map g l ++ [c']).
Proof.
  intros H. eapply makes_bind; [apply makes_tell| |done].
  eapply makes_bind; [by apply makes_each|apply makes_tell|done].
Qed.

Lemma makes_asked {B} c (f : target -> eparser B) b l :
  makes (f T_prc) b l -> makes (eask T_prc c ≫= f) b (c :: l).
Proof. intros H. by eapply makes_bind; [apply makes_ask|exact H|]. Qed.

(** A stored expression is reported by its visit. *)
Lemma replay_visit e : makes (replay e T_prc) tt (visit e).
Proof.
  revert e. apply stored_nested; [intros name l IH|intros func l IH|intros l IH|intros l IH|intros e].
  - cbn [replay visit]. do 2 apply makes_asked. apply makes_list. eapply Forall_impl; [exact IH|].
    intros x Hx. by apply makes_asked.
  - cbn [replay visit]. do 2 apply makes_asked. apply makes_list. eapply Forall_impl; [exact IH|].
    intros x Hx. by apply makes_asked.
  - cbn [replay visit]. apply makes_asked. apply makes_list. eapply Forall_impl; [exact IH|].
    intros x Hx. by apply makes_asked.
  - cbn [replay visit]. apply makes_asked. apply makes_list. eapply Forall_impl; [exact IH|].
    intros x Hx. by apply makes_asked.
  - destruct e; try done; cbn [replay visit]; [apply makes_ret|..]; apply makes_asked;
      first [apply makes_tell | apply makes_asked, makes_tell].
Qed.

(** ** Reporting while parsing *)

Lemma bind_ext {A B} (m : eparser A) (f g : A -> eparser B) s :
  (forall a s', f a s' = g a s') -> (m ≫= f) s = (m ≫= g) s.
Proof. intros H. unfold mbind, Method_bind. destruct (m s) as [[a|e| |] s']; auto. Qed.

Lemma left_assoc_store parse o ops lhs rhs s :
  left_assoc_binary_op parse o ops lhs rhs T_null s = left_assoc_binary_op parse o ops lhs rhs T_store s.
Proof.
  unfold left_assoc_binary_op. apply bind_ext. intros l s1. apply bind_ext. intros [t|] s2; [done|].
  change (replay_if l T_store) with (replay l T_store). by rewrite (method_bind_ok (replay_store l s2)).
Qed.

(** The result and the state of a parser of a sub-expression for storage and for a client. *)
Definition same_report (r : outcome stored * EState) (c : outcome stored * EState) : Prop :=
  match r with
  | (Ok e, s') => c = (Ok e, logged (visit e) s')
  | (o, _) => c.1 = o
  end.

Lemma same_bind {A} (m : eparser A) f g s :
  (forall a s', m s = (Ok a, s') -> same_report (f a s') (g a s')) ->
  same_report ((m ≫= f) s) ((m ≫= g) s).
Proof. unfold mbind, Method_bind, same_report. destruct (m s) as [[a|e| |] s']; intros H; [by apply H|done..]. Qed.

Lemma ask_store_eq c s : eask T_store c s = (Ok T_store, s).
Proof. done. Qed.

Lemma ask_client_eq c s : takes_all s -> eask T_prc c s = (Ok T_prc, logged [c] s).
Proof. apply makes_ask. Qed.

Lemma parse_or_reports n : forall o s, inv (fun _ => True) s -> takes_all s -> (12 * eleft s + 9 < n)%nat ->
  same_report (parse n o OR T_store s) (parse n o OR T_prc s).
Proof.
  induction n as [|n IH]; intros o s Hi Hs Hn; [lia|].
  assert (HT : True \/ forall t : Token, True -> safe_tok t) by by left.
  pose proof (parse_runs True (fun _ => True) true HT) as Hruns.
  cbn [parse parse_step]. unfold parse_or, left_assoc_binary_op. apply same_bind. intros l s1 El.
  destruct (Hruns n o AND T_null s) as [Hl Hq]; [done|by left|done|simpl; lia|].
  specialize (Hq eq_refl (p_log (e_p s)) (p_accept (e_p s))). rewrite with_log_same, El in *.
  destruct Hl as (Hi1 & Hl1 & Hlt1). specialize (Hlt1 eq_refl). injection Hq as Hq.
  assert (Hs1 : takes_all s1) by (rewrite Hq; exact Hs). apply same_bind. intros t s2 Et.
  destruct (runs_consume True (fun _ => True) true _ s1 (test_ops [O_OR]) Hi1) as [Ht Hqt].
  specialize (Hqt eq_refl (p_log (e_p s1)) (p_accept (e_p s1))).
  unfold consume_ops in Et. rewrite with_log_same, Et in *. destruct Ht as [(Hi2 & Hl2 & _) _]. injection Hqt as Hqt.
  assert (Hs2 : takes_all s2) by (rewrite Hqt; exact Hs1). clear Hq Hqt El Et.
  change (replay_if l T_store) with (replay l T_store). change (replay_if l T_prc) with (replay l T_prc).
  destruct t as [t|]; cycle 1.
  { rewrite (method_bind_ok (replay_store l s2)), (method_bind_ok (replay_visit l s2 Hs2)). done. }
  cbv zeta. set (name := Op_name (get_binary t)).
  change (store_if T_store) with T_store. change (store_if T_prc) with T_prc.
  rewrite !(method_bind_ok (ask_store_eq _ s2)). change (is_null T_store) with false. cbv iota.
  rewrite (method_bind_ok (tell_store_eq _ s2)), (method_bind_ok (ask_store_eq _ s2)).
  change (replay_if l T_store) with (replay l T_store).
  rewrite (method_bind_ok (replay_store l s2)), (method_bind_ok (ask_store_eq _ s2)).
  set (begin := [c_scalar; c_base (x_op name); c_list_begin; c_list_el] ++ visit l ++ [c_list_el]).
  assert (Hcalls : forall calls, takes_all (logged calls s2)) by (intros; by apply takes_all_logged).
  rewrite (method_bind_ok (ask_client_eq _ _ Hs2)), (method_bind_ok (ask_client_eq _ _ (Hcalls _))).
  change (is_null T_prc) with false. cbv iota. rewrite !logged_app.
  rewrite (method_bind_ok (makes_tell _ _ (Hcalls _))), logged_app.
  rewrite (method_bind_ok (ask_client_eq _ _ (Hcalls _))), logged_app.
  change (replay_if l T_prc) with (replay l T_prc).
  rewrite (method_bind_ok (replay_visit l _ (Hcalls _))), logged_app.
  rewrite (method_bind_ok (ask_client_eq _ _ (Hcalls _))), logged_app.
  change (((((_ ++ _) ++ _) ++ _) ++ _) ++ _) with begin.
  assert (Hl2' : (12 * eleft s2 + 9 < n)%nat) by lia.
  destruct (Hruns n o OR T_store s2) as [Hr Hqr]; [done|by right|done|done|].
  specialize (Hqr eq_refl (p_log (e_p s2) ++ begin) (p_accept (e_p s2))). fold (logged begin s2) in Hqr.
  assert (Hrep : same_report (parse n o OR T_store (logged begin s2)) (parse n o OR T_prc (logged begin s2))).
  { apply IH; [exact Hi2|apply Hcalls|exact Hl2']. }
  rewrite Hqr in Hrep. unfold mbind at 1 3, Method_bind at 1 3.
  destruct (Hruns n o OR T_store s2) as [_ Hq2]; [done|by right|done|done|].
  specialize (Hq2 eq_refl (p_log (e_p s2)) (p_accept (e_p s2))). rewrite with_log_same in Hq2.
  destruct (parse n o OR T_store s2) as [[r|e| |] s3]; cbn [fst snd same_report] in *.
  2-4: destruct (parse n o OR T_prc (logged begin s2)) as [o' s4]; cbn [fst] in Hrep; by subst o'.
  injection Hq2 as Hq2. rewrite Hrep.
  assert (Hlog : with_log (p_log (e_p s2) ++ begin) (p_accept (e_p s2)) s3 = logged begin s3) by (by rewrite Hq2).
  assert (Hs3 : takes_all s3) by (rewrite Hq2; exact Hs2).
  rewrite Hlog, logged_app, (method_bind_ok (tell_store_eq _ _)).
  rewrite (method_bind_ok (makes_tell _ _ (takes_all_logged _ _ Hs3))), logged_app.
  enough (HL : (begin ++ visit r) ++ [c_list_end] = visit (S_op name [l; r])) by (by rewrite HL).
  unfold begin. cbn [visit flat_map app]. rewrite app_nil_r, <- !app_assoc. done.
Qed.

(** ** The parsers of texts *)

Lemma parse_full n o prc : parse n o FULL prc = parse n o OR prc.
Proof. by destruct n. Qed.

Lemma base_reports mode s : inv (fun _ => True) s -> takes_all s ->
  same_report (base_process mode T_store s) (base_process mode T_prc s).
Proof.
  intros Hi Hs. unfold base_process. rewrite !method_read. unfold do_parse.
  change (ignore_if T_store) with T_store. change (ignore_if T_prc) with T_prc. rewrite !parse_full.
  set (n := expr_fuel s). set (o := mk_obj mode false). unfold fresh_parser.
  assert (H : same_report (parse n o OR T_store (mk_EState (e_p s) no_column))
    (parse n o OR T_prc (mk_EState (e_p s) no_column))).
  { apply parse_or_reports; [exact Hi|exact Hs|]. subst n. unfold expr_fuel, eleft, toks_of. simpl. lia. }
  unfold same_report in *.
  destruct (parse n o OR T_store _) as [[e|x| |] s1].
  2-4: destruct (parse n o OR T_prc _) as [o' s2]; exact H.
  rewrite H. done.
Qed.

Lemma base_store_quiet mode s : inv (fun _ => True) s ->
  p_log (e_p (base_process mode T_store s).2) = p_log (e_p s).
Proof.
  intros Hi. unfold base_process. rewrite method_read. unfold do_parse.
  change (ignore_if T_store) with T_store. rewrite parse_full. unfold fresh_parser.
  set (s0 := mk_EState (e_p s) no_column).
  destruct (parse_runs True (fun _ => True) true (or_introl I) (expr_fuel s) (mk_obj mode false) OR T_store s0)
    as [_ Hq]; [done|by right|exact Hi| |].
  { unfold expr_fuel, eleft, toks_of. simpl. lia. }
  specialize (Hq eq_refl (p_log (e_p s)) (p_accept (e_p s))).
  change (with_log (p_log (e_p s)) (p_accept (e_p s)) s0) with (with_log (p_log (e_p s0)) (p_accept (e_p s0)) s0) in Hq.
  rewrite with_log_same in Hq. destruct (parse _ _ _ _ s0) as [o s1]. injection Hq as Hq. simpl. by rewrite Hq.
Qed.

(** What a text stores: the reference for the parser that reports. *)
Definition stored_expression (mode : Parser_mode) (expr : wstr) : outcome stored :=
  (run_parser expr (fun _ => true) (
    some ← read eavailable;
    if negb some then eparse_error (wlit "Expected an expression") else
    e ← base_process mode T_store;
    more ← read eavailable;
    if more : bool then eparse_error (wlit "Unexpected characters after expression") else mret e)).1.

(** An error is thrown whatever the type of the result and the log, and the state stays. *)
Lemma eparse_error_same {A B} msg s s2 : p_it (e_p s) = p_it (e_p s2) ->
  exists o : forall C, outcome C,
  @eparse_error A msg s = (o A, s) /\ @eparse_error B msg s2 = (o B, s2) /\
  (forall C (c : C), o C <> Ok c) /\ (forall C D (f : C -> D), (x ← o C; Ok (f x)) = o D).
Proof.
  intros Hit. destruct s as [[it log acc] col], s2 as [[it2 log2 acc2] col2]. simpl in Hit. subst it2.
  unfold eparse_error, on_p, parse_error, error_at, throw_error. simpl.
  destruct (Error_buffers (it_input it) (it_pos it)) as [[seen ahead]|e| |].
  - by exists (fun C => Throw (ParseError seen ahead (it_pos it) msg)).
  - by exists (fun C => Throw e).
  - by exists (fun C => Undefined).
  - by exists (fun C => Diverged).
Qed.

Lemma expression_reports mode expr : let accept := fun _ => true in
  (Expression_parser mode expr accept).1 = (_ ← stored_expression mode expr; Ok tt) /\
  forall e, stored_expression mode expr = Ok e -> (Expression_parser mode expr accept).2 = visit e.
Proof.
  intros accept. unfold Expression_parser, stored_expression, run_parser.
  destruct (Tokenizer_new expr) as [toks|x| |] eqn:Et; try done.
  set (s := mk_EState _ _).
  assert (Hi : inv (fun _ => True) s) by (apply inv_start; [done|by apply Forall_true]).
  unfold Expression_process. rewrite !method_read.
  destruct (eavailable s); cbn [negb]; cycle 1.
  { destruct (@eparse_error_same stored unit (wlit "Expected an expression") s s eq_refl)
      as (o & E1 & E2 & Hno & Ho). rewrite E1, E2.
    cbn [fst snd]. split; [by rewrite (Ho stored unit (fun _ => tt))|]. by intros e []%Hno. }
  pose proof (base_reports mode s Hi (fun _ => eq_refl)) as H. unfold same_report in H.
  pose proof (base_store_quiet mode s Hi) as Hq.
  destruct (base_process mode T_store s) as [[e|x| |] s1] eqn:Es; cbn [fst snd] in Hq.
  2-4: destruct (base_process mode T_prc s) as [o' s2] eqn:Ec; cbn [fst] in H; subst o';
    unfold mbind, Method_bind; rewrite Es, Ec; split; [done|by intros].
  rewrite (method_bind_ok Es), (method_bind_ok H), !method_read.
  change (eavailable (logged (visit e) s1)) with (eavailable s1).
  destruct (eavailable s1).
  - destruct (@eparse_error_same stored unit (wlit "Unexpected characters after expression") s1
      (logged (visit e) s1) eq_refl) as (o & E1 & E2 & Hno & Ho). rewrite E1, E2.
    cbn [fst snd]. split; [by rewrite (Ho stored unit (fun _ => tt))|]. by intros e' []%Hno.
  - cbn. split; [done|]. intros ? [= <-]. by rewrite Hq.
Qed.

(** ** Every client *)

Section clients.
Context (U : Prop) (T : Token -> Prop) (HT : U \/ forall t, T t -> safe_tok t).
Abbreviation runs := (runs U false).
Abbreviation inv := (inv T).
Abbreviation went := (went T).
Abbreviation stays := (stays T).

Lemma tell_runs prc c s : inv s -> runs (etell prc c) (fun _ s' => stays s s') s.
Proof using. intros Hi. eapply runs_etell; [by right|exact Hi|]. intros s' H1 H2 H3 _ H4. by split_and!. Qed.

Lemma ask_runs prc c s : inv s -> runs (eask prc c) (fun _ s' => stays s s') s.
Proof using. intros Hi. eapply runs_eask; [by right|exact Hi|]. intros p s' H1 H2 H3 _ H4 _. by split_and!. Qed.

Lemma stays_bind {A B} (m : eparser A) (f : A -> eparser B) s :
  runs m (fun _ s' => stays s s') s ->
  (forall a s', inv s' -> runs (f a) (fun _ s'' => stays s' s'') s') ->
  runs (m ≫= f) (fun _ s' => stays s s') s.
Proof using.
  intros Hm Hf. apply eruns_bind. eapply runs_mono; [exact Hm|]. intros a s1 H1.
  eapply runs_mono; [apply Hf; apply H1|]. intros b s2 H2. exact (stays_trans _ _ _ _ H1 H2).
Qed.

Lemma each_runs {A} (f : A -> eparser unit) l s : inv s ->
  Forall (fun x => forall s, inv s -> runs (f x) (fun _ s' => stays s s') s) l ->
  runs (each f l) (fun _ s' => stays s s') s.
Proof using.
  intros Hi Hl. revert s Hi. induction Hl as [|x l Hx _ IH]; intros s Hi.
  - apply eruns_ret. by apply stays_refl.
  - cbn [each]. apply stays_bind; [by apply Hx|]. intros _ s1 Hi1. by apply IH.
Qed.

Lemma null_runs {A} (p : target) (a : A) (m : eparser A) s : inv s ->
  runs m (fun _ s' => stays s s') s ->
  runs (if bool_decide (p = T_null) then mret a else m) (fun _ s' => stays s s') s.
Proof using. intros Hi Hm. case_bool_decide; [|done]. apply eruns_ret. by apply stays_refl. Qed.

Lemma asked_runs {B} prc c (b : B) (f : target -> eparser B) s : inv s ->
  (forall p s', inv s' -> runs (f p) (fun _ s'' => stays s' s'') s') ->
  runs (p ← eask prc c; if bool_decide (p = T_null) then mret b else f p) (fun _ s' => stays s s') s.
Proof using.
  intros Hi Hf. apply stays_bind; [by apply ask_runs|]. intros p s1 Hi1. apply null_runs; [done|by apply Hf].
Qed.

Lemma list_runs {A} prc c c' (f : A -> eparser unit) l s : inv s ->
  Forall (fun x => forall s, inv s -> runs (f x) (fun _ s' => stays s s') s) l ->
  runs (etell prc c;; each f l;; etell prc c') (fun _ s' => stays s s') s.
Proof using.
  intros Hi Hl. apply stays_bind; [by apply tell_runs|]. intros _ s1 Hi1.
  apply stays_bind; [by apply each_runs|]. intros _ s2 Hi2. by apply tell_runs.
Qed.

Lemma replay_runs e prc s : inv s -> runs (replay e prc) (fun _ s' => stays s s') s.
Proof using.
  revert e prc s. refine (stored_nested _ _ _ _ _ _); [intros name l IH|intros func l IH|intros l IH|intros l IH|intros e].
  1,2: intros prc s Hi; cbn [replay]; apply asked_runs; [done|]; intros sprc s1 Hi1;
    apply asked_runs; [done|]; intros argsp s2 Hi2; apply list_runs; [done|];
    eapply Forall_impl; [exact IH|]; intros x Hx s3 Hi3; by apply asked_runs; [|intros; apply Hx].
  1,2: intros prc s Hi; cbn [replay]; apply asked_runs; [done|]; intros argsp s2 Hi2; apply list_runs; [done|];
    eapply Forall_impl; [exact IH|]; intros x Hx s3 Hi3; by apply asked_runs; [|intros; apply Hx].
  destruct e; try done; intros prc s Hi; cbn [replay].
  all: apply asked_runs; [done|]; intros sprc s1 Hi1;
    first [by apply tell_runs | unfold tell_val; apply stays_bind; [by apply ask_runs|]; intros; by apply tell_runs].
Qed.

Lemma replay_if_runs e prc s : inv s -> runs (replay_if e prc) (fun _ s' => stays s s') s.
Proof using. intros Hi. unfold replay_if. apply null_runs; [done|by apply replay_runs]. Qed.

(** A null processor ends the parsing after an operator, every other one takes its operands. *)
Lemma or_client_runs n : forall o prc s, inv s -> (12 * eleft s + 9 < n)%nat ->
  runs (parse n o OR prc) (fun _ s' => went true s s') s.
Proof using HT.
  induction n as [|n IH]; intros o prc s Hi Hn; [lia|]. cbn [parse parse_step].
  unfold parse_or, left_assoc_binary_op. run.
  eapply runs_mono; [apply (parse_runs U T false HT n o AND T_null); [done|by left|done|simpl; lia]|].
  intros l s1 Hw. cbn [takes] in Hw. do 2 run; cycle 1.
  { run. eapply runs_mono; [eapply replay_if_runs; fin|]. intros [] s2 H2%stays_went. run. fin. }
  cbv zeta. run. eapply runs_mono; [eapply ask_runs; fin|]. intros sprc s2 H2%stays_went. run.
  eapply runs_mono; [eapply ask_runs; fin|]. intros aprc s3 H3%stays_went. destruct (is_null aprc); [run; fin|].
  run. eapply runs_mono; [eapply tell_runs; fin|]. intros [] s4 H4%stays_went. run.
  eapply runs_mono; [eapply ask_runs; fin|]. intros e s5 H5%stays_went. run.
  eapply runs_mono; [eapply replay_if_runs; fin|]. intros [] s6 H6%stays_went. run.
  eapply runs_mono; [eapply ask_runs; fin|]. intros e2 s7 H7%stays_went. run.
  eapply runs_mono; [apply IH; [fin|wents; lia]|]. intros r s8 Hw8. run.
  eapply runs_mono; [eapply tell_runs; fin|]. intros [] s9 H9%stays_went. run. fin.
Qed.

Lemma base_runs mode prc s : inv s -> runs (base_process mode prc) (fun _ s' => went true s s') s.
Proof using HT.
  intros Hi. unfold base_process. do 2 run. eapply fresh_runs; [exact Hi| |].
  - intros _ s1 s2 (_ & H1 & H2) Ht Hi2. unfold eleft in *. rewrite <- Ht in H1, H2. split; [exact Hi2|]. by split.
  - intros s0 Hi0 Ht. assert (Hl : eleft s0 = eleft s) by (unfold eleft; by rewrite Ht).
    unfold do_parse. rewrite parse_full. eapply runs_mono; [apply or_client_runs; [done|]|].
    + unfold expr_fuel. change (length (rest_toks (e_p s))) with (eleft s). lia.
    + intros a s1 (Hi1 & H1 & H2). rewrite Hl in *. split; [exact Hi1|]. split; [exact Hi1|]. by split.
Qed.

Lemma expression_process_runs mode s : inv s -> runs (Expression_process mode) (fun _ _ => True) s.
Proof using HT.
  intros Hi. unfold Expression_process. do 2 run. destruct (eavailable s); cbn [negb]; [|run].
  run. eapply runs_mono; [by apply base_runs|]. intros e s1 Hw. do 2 run. destruct (eavailable s1); run. done.
Qed.

Lemma alias_runs s : inv s -> runs alias_name (fun _ s' => went true s s') s.
Proof using.
  intros Hi. unfold alias_name. do 2 run. destruct (next_in_types _ s) eqn:E; cbn [negb]; [|run].
  eapply runs_next; [fin|by eapply test_some; [apply (test_types [WORD; QWORD])|]|]. intros t s1 _ Hw _. run. fin.
Qed.

Lemma order_process_runs mode s : inv s -> runs (Order_process mode) (fun _ _ => True) s.
Proof using HT.
  intros Hi. unfold Order_process. do 2 run. destruct (eavailable s); cbn [negb]; [|run].
  run. eapply runs_mono; [by apply base_runs|]. intros e s1 Hw. do 3 run.
  eapply (runs_mono _ _ _ (fun _ s' => went false s1 s')).
  { destruct (epeek s1) as [t|]; [|run; fin]. destruct (Keyword_get t); run; run; run; fin. }
  intros asc s2 Hw2. do 2 run. destruct (eavailable s2); [run|]. run.
  eapply runs_mono; [eapply ask_runs; fin|]. intros p s3 H3. eapply runs_mono; [eapply replay_if_runs; apply H3|]. done.
Qed.

Lemma tbl_mode_runs mode s : inv s -> runs (parse_tbl_mode mode) (fun _ _ => True) s.
Proof using HT.
  intros Hi. unfold parse_tbl_mode. do 2 run. destruct (eavailable s); cbn [negb]; [|run].
  run. eapply runs_mono; [eapply ask_runs; fin|]. intros p s1 H1%stays_went. run.
  eapply runs_mono; [eapply base_runs; fin|]. intros e s2 Hw2. do 3 run.
  eapply (runs_mono _ _ _ (fun _ s' => went false s2 s')).
  { destruct (eavailable s2); [|run; fin]. do 2 run; [|run]. run.
    eapply runs_mono; [eapply alias_runs; fin|]. intros name s3 Hw3.
    eapply runs_mono; [eapply tell_runs; fin|]. intros [] s4 H4%stays_went. fin. }
  intros [] s3 Hw3. do 2 run. destruct (eavailable s3); run. done.
Qed.

Lemma doc_mode_runs mode s : inv s -> runs (parse_doc_mode mode) (fun _ _ => True) s.
Proof using HT.
  intros Hi. unfold parse_doc_mode. do 2 run. destruct (eavailable s); cbn [negb]; [|run].
  run. eapply runs_mono; [by apply base_runs|]. intros e s1 Hw. do 2 run; [|run]. run.
  eapply runs_mono; [eapply alias_runs; fin|]. intros name s2 Hw2. do 2 run. destruct (eavailable s2); [run|]. run.
  eapply runs_mono; [eapply ask_runs; fin|]. intros p s3 H3. eapply runs_mono; [eapply replay_if_runs; apply H3|]. done.
Qed.
End clients.

(** ** All texts *)

#[export] Instance plain_tok_dec t : Decision (plain_tok t).
Proof. unfold plain_tok. apply _. Defined.

Lemma shape_unsigned ty text slice p q : shape ty text slice -> unsigned_tok (mk_Token ty text p q).
Proof.
  unfold unsigned_tok. simpl.
  assert (Hd : forall ds, Forall (fun c => is_digit_in dec_digits c = true) ds -> head ds <> Some 45).
  { intros [|d ds] H; [done|]. inversion H; subst. intros [= ->]. done. }
  assert (Hh : forall ds, Forall (fun c => is_digit_in hex_digits c = true) ds -> head ds <> Some 45).
  { intros [|d ds] H; [done|]. inversion H; subst. intros [= ->]. done. }
  destruct 1 as [| | | |ds _ Hds| |x ds _ _ Hds|x ds _ _ Hds|ty s Hin]; intros [Ht|Ht]; try done;
    try (by apply Hd); try (by apply Hh); exfalso; subst.
  all: apply list_elem_of_In in Hin; simpl in Hin; repeat destruct Hin as [Hin|Hin]; done.
Qed.

Lemma lexed_unsigned pos rest toks : lexed pos rest toks -> Forall unsigned_tok toks.
Proof. induction 1; constructor; [by eapply shape_unsigned|done]. Qed.

(** A parser of texts ends, and is undefined only for tokens that are not plain. *)
Definition ends_well {A} (text : wstr) (o : outcome A) : Prop :=
  match o with
  | Ok _ => True
  | Throw e => is_parse_error e
  | Undefined => exists toks, Tokenizer_new text = Ok toks /\ ~ Forall plain_tok toks
  | Diverged => False
  end.

Lemma run_parser_ends {A} (m : eparser A) text accept :
  (forall U T, (U \/ forall t, T t -> safe_tok t) -> forall s, inv T s -> runs U false m (fun _ _ => True) s) ->
  ends_well text (run_parser text accept m).1.
Proof.
  intros Hm. unfold run_parser. pose proof (Tokenizer_new_lexed text) as Hl.
  destruct (Tokenizer_new text) as [toks|e| |] eqn:Et; [|by destruct e|done..].
  set (s := mk_EState _ _).
  destruct (Hm (~ Forall plain_tok toks) (fun t => Forall plain_tok toks -> safe_tok t)) with (s := s) as [H _].
  - destruct (decide (Forall plain_tok toks)) as [Hp|Hp]; [right|by left]. intros t Ht. by apply Ht.
  - apply inv_start; [done|]. apply lexed_unsigned in Hl. apply Forall_forall. intros t Ht Hp.
    split; [by eapply Forall_forall|by eapply Forall_forall].
  - unfold ends_well. destruct (m s) as [[a|e| |] s']; cbn [fst]; [done|exact H| |exact H].
    exists toks. by split.
Qed.

Lemma table_field_ends text : ends_well text (Table_field_parser text).
Proof.
  unfold Table_field_parser. apply run_parser_ends. intros U T HT s Hi. unfold parse_column_ident.
  run. run. eapply runs_mono; [by apply (schema_ident_runs U T false HT)|]. intros [ok tys] s1 (Hw & Ht & _). cbn [fst] in *.
  destruct ok; [|run].
  eapply runs_mono; [eapply (column_ident1_runs U T false); [fin|by apply Ht]|].
  intros path s2 Hw2. do 3 run. done.
Qed.

Lemma doc_field_ends text accept :
  match (Doc_field_parser text accept).1 with
  | Ok _ | Undefined => True
  | Throw e => is_parse_error e
  | Diverged => False
  end.
Proof.
  unfold Doc_field_parser, run_parser. pose proof (Tokenizer_new_lexed text) as Hl.
  destruct (Tokenizer_new text) as [toks|e| |] eqn:Et; [|by destruct e|done..].
  set (s := mk_EState _ _).
  assert (Hi : inv (fun _ => True) s) by (apply inv_start; [done|by apply Forall_true]).
  assert (H : runs True false Doc_field_process (fun _ _ => True) s).
  { unfold Doc_field_process. run. eapply runs_mono; [eapply document_field_runs; [right; by split_and!|exact Hi]|].
    intros p s1 [Hw _]. do 2 run. destruct (eavailable s1); run. done. }
  destruct H as [H _]. by destruct (Doc_field_process s) as [[a|e| |] s'].
Qed.

(** ** Expressions *)

Inductive cast_type :=
| C_plain (k : keyword)                  (** DATE, DATETIME, TIME, INTEGER, JSON, BINARY, CHAR, DECIMAL *)
| C_signed (k : keyword) (int : bool)    (** SIGNED, UNSIGNED, with INTEGER or without *)
| C_length (k : keyword) (n : Z)         (** BINARY, CHAR, DECIMAL with a length *)
| C_decimal (n m : Z).

#[warnings="-register-all"]
Inductive expr :=
| E_uint (z : Z) | E_neg (z : Z) | E_str (v : wstr) | E_bool (b : bool) | E_null | E_param (w : wstr)
| E_col (qualifier : list wstr) (name : wstr) (path : option Doc_path)
| E_un (u : op) (e : expr)
| E_bin (b : op) (e1 e2 : expr)
| E_like (neg : bool) (k : op) (e1 e2 : expr)
| E_between (neg : bool) (e lo hi : expr)
| E_in (neg : bool) (e : expr) (l : list expr)
| E_is (neg : bool) (e : expr) (null : bool)
| E_call (schema : option wstr) (func : wstr) (args : list expr)
| E_cast (e : expr) (ty : cast_type)
| E_arr (l : list expr)
| E_doc (l : list (wstr * expr)).

Section expr_induction.
Context (P : expr -> Prop).
Hypothesis P_leaf : forall e, match e with
  | E_uint _ | E_neg _ | E_str _ | E_bool _ | E_null | E_param _ | E_col _ _ _ => P e | _ => True end.
Hypothesis P_un : forall u e, P e -> P (E_un u e).
Hypothesis P_bin : forall b e1 e2, P e1 -> P e2 -> P (E_bin b e1 e2).
Hypothesis P_like : forall neg k e1 e2, P e1 -> P e2 -> P (E_like neg k e1 e2).
Hypothesis P_between : forall neg e lo hi, P e -> P lo -> P hi -> P (E_between neg e lo hi).
Hypothesis P_in : forall neg e l, P e -> Forall P l -> P (E_in neg e l).
Hypothesis P_is : forall neg e null, P e -> P (E_is neg e null).
Hypothesis P_call : forall schema func l, Forall P l -> P (E_call schema func l).
Hypothesis P_cast : forall e ty, P e -> P (E_cast e ty).
Hypothesis P_arr : forall l, Forall P l -> P (E_arr l).
Hypothesis P_doc : forall l, Forall (fun x => P x.2) l -> P (E_doc l).

Fixpoint expr_nested (e : expr) : P e :=
  let all := fix all (l : list expr) : Forall P l :=
    match l with [] => Forall_nil_2 P | x :: l' => Forall_cons_2 P x l' (expr_nested x) (all l') end in
  let pairs := fix pairs (l : list (wstr * expr)) : Forall (fun x => P x.2) l :=
    match l with
    | [] => Forall_nil_2 _
    | x :: l' => Forall_cons_2 _ x l' (expr_nested x.2) (pairs l')
    end in
  match e with
  | E_uint z => P_leaf (E_uint z) | E_neg z => P_leaf (E_neg z) | E_str v => P_leaf (E_str v)
  | E_bool b => P_leaf (E_bool b) | E_null => P_leaf E_null | E_param w => P_leaf (E_param w)
  | E_col q n p => P_leaf (E_col q n p)
  | E_un u e => P_un u e (expr_nested e)
  | E_bin b e1 e2 => P_bin b e1 e2 (expr_nested e1) (expr_nested e2)
  | E_like neg k e1 e2 => P_like neg k e1 e2 (expr_nested e1) (expr_nested e2)
  | E_between neg e lo hi => P_between neg e lo hi (expr_nested e) (expr_nested lo) (expr_nested hi)
  | E_in neg e l => P_in neg e l (expr_nested e) (all l)
  | E_is neg e null => P_is neg e null (expr_nested e)
  | E_call s f l => P_call s f l (all l)
  | E_cast e ty => P_cast e ty (expr_nested e)
  | E_arr l => P_arr l (all l)
  | E_doc l => P_doc l (pairs l)
  end.
End expr_induction.

(** ** Their tokens *)

Definition sym (s : string) : piece :=
  let w := wlit s in
  match find (fun k => bool_decide (k.2 = w)) (SYMBOL_LIST2 ++ SYMBOL_LIST1) with
  | Some k => k
  | None => (WORD, w)
  end.

(** The binary operators with their tokens and the level of the grammar they belong to. *)
Definition binary_ops : list (op * piece * Start) :=
  [(O_MUL, sym "*", MUL); (O_DIV, sym "/", MUL); (O_MOD, sym "%", MUL); (O_ADD, sym "+", ADD);
   (O_SUB, sym "-", ADD); (O_LSHIFT, sym "<<", SHIFT); (O_RSHIFT, sym ">>", SHIFT);
   (O_BITAND, sym "&", BIT); (O_BITOR, sym "|", BIT); (O_BITXOR, sym "^", BIT); (O_GE, sym ">=", COMP);
   (O_GT, sym ">", COMP); (O_LE, sym "<=", COMP); (O_LT, sym "<", COMP); (O_EQ, sym "==", COMP);
   (O_NE, sym "!=", COMP); (O_AND, sym "&&", AND); (O_OR, sym "||", OR)].

Definition unary_ops : list (op * piece) :=
  [(O_NEG, sym "!"); (O_NOT, sym "not"); (O_BITNEG, sym "~"); (O_PLUS, sym "+"); (O_MINUS, sym "-")].

Definition like_ops : list (op * piece) :=
  [(O_LIKE, sym "like"); (O_RLIKE, sym "rlike"); (O_REGEXP, sym "regexp")].

Definition op_piece (l : list (op * piece)) (o : op) : piece :=
  match find (fun x => bool_decide (x.1 = o)) l with Some x => x.2 | None => sym "?" end.

Definition bin_piece (o : op) : piece := op_piece (fst <$> binary_ops) o.

Definition keyword_piece (k : keyword) : piece :=
  match find (fun x => bool_decide (x.1.1 = k)) KEYWORD_LIST with
  | Some x => (WORD, x.1.2)
  | None => (WORD, [])
  end.

Definition el_pieces (el : path_el) : list piece :=
  match el with
  | P_member v => [sym "."; (QQSTRING, v)]
  | P_any_member => [sym "."; sym "*"]
  | P_index i => [sym "["; (INTEGER, dec_text i); sym "]"]
  | P_any_index => [sym "["; sym "*"; sym "]"]
  | P_any_path => [sym "**"]
  end.

Definition path_pieces (p : Doc_path) : list piece :=
  sym "->" :: sym "$" :: if m_whole_document p then [] else flat_map el_pieces (m_path p).

Definition names_pieces (qualifier : list wstr) (name : wstr) : list piece :=
  flat_map (fun q => [(QWORD, q); sym "."]) qualifier ++ [(QWORD, name)].

Definition cast_pieces (ty : cast_type) : list piece :=
  match ty with
  | C_plain k => [keyword_piece k]
  | C_signed k int => keyword_piece k :: if int then [keyword_piece K_INTEGER] else []
  | C_length k n => [keyword_piece k; sym "("; (INTEGER, dec_text n); sym ")"]
  | C_decimal n m =>
      [keyword_piece K_DECIMAL; sym "("; (INTEGER, dec_text n); sym ","; (INTEGER, dec_text m); sym ")"]
  end.

Definition not_pieces (neg : bool) : list piece := if neg then [sym "not"] else [].

(** A comma between the elements. *)
Fixpoint separated (l : list (list piece)) : list piece :=
  match l with
  | [] => []
  | [x] => x
  | x :: l' => x ++ sym "," :: separated l'
  end.

Definition parens (l : list piece) : list piece := sym "(" :: l ++ [sym ")"].

Fixpoint expr_pieces (e : expr) : list piece :=
  match e with
  | E_uint z => [(INTEGER, dec_text z)]
  | E_neg z => [sym "-"; (INTEGER, dec_text z)]
  | E_str v => [(QQSTRING, v)]
  | E_bool b => [if b then sym "true" else sym "false"]
  | E_null => [sym "null"]
  | E_param w => [sym ":"; (WORD, w)]
  | E_col q name path =>
      names_pieces q name ++ match path with Some p => path_pieces p | None => [] end
  | E_un u e => parens (op_piece unary_ops u :: parens (expr_pieces e))
  | E_bin b e1 e2 => parens (expr_pieces e1 ++ bin_piece b :: expr_pieces e2)
  | E_like neg k e1 e2 =>
      parens (expr_pieces e1 ++ not_pieces neg ++ op_piece like_ops k :: expr_pieces e2)
  | E_between neg e lo hi =>
      parens (expr_pieces e ++ not_pieces neg ++ sym "between" :: expr_pieces lo ++ sym "and" :: expr_pieces hi)
  | E_in neg e l =>
      parens (expr_pieces e ++ not_pieces neg ++ sym "in" :: parens (separated (expr_pieces <$> l)))
  | E_is neg e null =>
      parens (expr_pieces e ++ sym "is" :: not_pieces neg ++ [if null then sym "null" else sym "true"])
  | E_call s f args =>
      names_pieces (option_list s) f ++ parens (separated (expr_pieces <$> args))
  | E_cast e ty => sym "cast" :: parens (expr_pieces e ++ sym "as" :: cast_pieces ty)
  | E_arr l => sym "[" :: separated (expr_pieces <$> l) ++ [sym "]"]
  | E_doc l =>
      sym "{" :: separated ((fun x => (QQSTRING, x.1) :: sym ":" :: expr_pieces x.2) <$> l) ++ [sym "}"]
  end.

Definition expr_text (e : expr) : wstr := pieces_text (expr_pieces e).

(** ** The trees that are stored *)

Definition column_of (qualifier : list wstr) (name : wstr) : Column_ref :=
  match qualifier with
  | [] => col_set name
  | [tbl] => col_set2 name tbl
  | sch :: tbl :: _ => mk_Column_ref (mk_Table_ref tbl sch) name
  end.

Definition not_op (neg : bool) (o : op) : op :=
  match neg, o with
  | true, O_IS => O_IS_NOT
  | true, O_IN => O_NOT_IN
  | true, O_LIKE => O_NOT_LIKE
  | true, O_RLIKE => O_NOT_RLIKE
  | true, O_BETWEEN => O_NOT_BETWEEN
  | true, O_REGEXP => O_NOT_REGEXP
  | _, _ => o
  end.

Definition keyword_name (k : keyword) : wstr := default [] (Keyword_name k).

Definition cast_name (ty : cast_type) : wstr :=
  match ty with
  | C_plain k => keyword_name k
  | C_signed k _ => keyword_name k ++ wlit " INTEGER"
  | C_length k n => keyword_name k ++ wlit "(" ++ dec_text n ++ wlit ")"
  | C_decimal n m => wlit "DECIMAL(" ++ dec_text n ++ wlit "," ++ dec_text m ++ wlit ")"
  end.

(** With [blobs] strings are stored as octets: in a list after IN, but not in the arguments
    after the first one of a function, in arrays and in documents there. *)
Fixpoint tree (blobs : bool) (e : expr) : stored :=
  match e with
  | E_uint z => S_uint z
  | E_neg z => S_int (- z)
  | E_str v => if blobs then S_octets v else S_str v
  | E_bool b => S_bool b
  | E_null => S_null
  | E_param w => S_param w
  | E_col q name path => S_ref (column_of q name) path
  | E_un u e => S_op (Op_name u) [tree blobs e]
  | E_bin b e1 e2 => S_op (Op_name b) [tree blobs e1; tree blobs e2]
  | E_like neg k e1 e2 => S_op (Op_name (not_op neg k)) [tree blobs e1; tree blobs e2]
  | E_between neg e lo hi => S_op (Op_name (not_op neg O_BETWEEN)) [tree blobs e; tree blobs lo; tree blobs hi]
  | E_in neg e l => S_op (Op_name (not_op neg O_IN)) (tree blobs e :: (tree true <$> l))
  | E_is neg e null =>
      S_op (Op_name (not_op neg O_IS)) [tree blobs e; if null then S_null else S_bool true]
  | E_call s f args =>
      S_call (mk_Table_ref f (default [] s))
        (match args with [] => [] | x :: l => tree blobs x :: (tree false <$> l) end)
  | E_cast e ty => S_op (Op_name O_CAST) [tree blobs e; S_octets (cast_name ty)]
  | E_arr l => S_arr (tree false <$> l)
  | E_doc l => S_doc (keyval_map ((fun x => (x.1, tree false x.2)) <$> l))
  end.

(** ** Well-formed expressions *)

(** A path begins with a member or "**", and does not end with "**". *)
Definition path_ok (p : Doc_path) : Prop :=
  if m_whole_document p then m_path p = [] else
  match m_path p with
  | [] | P_index _ :: _ | P_any_index :: _ => False
  | _ => last (m_path p) <> Some P_any_path
  end /\ Forall (fun el => match el with P_index i => 0 <= i <= index_max | _ => True end) (m_path p).

Definition cast_ok (ty : cast_type) : Prop :=
  match ty with
  | C_plain k => k ∈ [K_DATE; K_DATETIME; K_TIME; K_INTEGER; K_JSON; K_BINARY; K_CHAR; K_DECIMAL]
  | C_signed k _ => k ∈ [K_SIGNED; K_UNSIGNED]
  | C_length k n => k ∈ [K_BINARY; K_CHAR; K_DECIMAL] /\ 0 <= n < 2 ^ 64
  | C_decimal n m => 0 <= n < 2 ^ 64 /\ 0 <= m < 2 ^ 64
  end.

Fixpoint all_hold {A} (P : A -> Prop) (l : list A) : Prop :=
  match l with [] => True | x :: l' => P x /\ all_hold P l' end.

(** Functions named [position] have a grammar of their own, which the parser also expects
    after the argument of a function when a table of that name was read last. *)
Definition not_position (n : wstr) : Prop := kw_equal n (wlit "position") = false.

Fixpoint expr_ok (e : expr) : Prop :=
  match e with
  | E_uint z => 0 <= z < 2 ^ 64
  | E_neg z => 0 <= z < 2 ^ 63
  | E_str _ | E_bool _ | E_null => True
  | E_param w => plain_word w
  | E_col q name path =>
      (length q <= 2)%nat /\ Forall (fun n => n <> []) (name :: q) /\
      match q with [tbl] => not_position tbl | _ => True end /\
      match path with Some p => path_ok p | None => True end
  | E_un u e => u ∈ fst <$> unary_ops /\ expr_ok e
  | E_bin b e1 e2 => b ∈ (fun x => x.1.1) <$> binary_ops /\ expr_ok e1 /\ expr_ok e2
  | E_like _ k e1 e2 => k ∈ fst <$> like_ops /\ expr_ok e1 /\ expr_ok e2
  | E_between _ e lo hi => expr_ok e /\ expr_ok lo /\ expr_ok hi
  | E_in _ e l => expr_ok e /\ l <> [] /\ all_hold expr_ok l
  | E_is _ e _ => expr_ok e
  | E_call s f args =>
      f <> [] /\ match s with Some sch => sch <> [] | None => not_position f end /\
      all_hold expr_ok args
  | E_cast e ty => expr_ok e /\ cast_ok ty
  | E_arr l => all_hold expr_ok l
  | E_doc l => all_hold (fun x => expr_ok x.2) l
  end.

Definition some_expression : expr :=
  E_bin O_OR
    (E_like true O_LIKE (E_col [wlit "s"; wlit "t"] (wlit "a b") (Some (mk_Doc_path false [P_member (wlit "x"); P_any_path; P_index 3])))
                        (E_str (wlit "%y")))
    (E_in false (E_un O_BITNEG (E_call (Some (wlit "s")) (wlit "f") [E_neg 5; E_param (wlit "p")]))
       [E_str (wlit "u"); E_call None (wlit "concat") [E_str (wlit "v"); E_str (wlit "w")];
        E_arr [E_null; E_arr []; E_doc [(wlit "k", E_bin O_SUB (E_uint 1) (E_uint 2)); (wlit "j", E_bool true)]];
        E_between true (E_cast (E_uint 7) (C_decimal 10 2)) (E_uint 1) (E_is true (E_col [] (wlit "c") None) true)]).

Example some_expression_read : stored_expression TABLE (expr_text some_expression) = Ok (tree false some_expression).
Proof. by vm_compute. Qed.
