(* ===== verification/ExprEcho.v ===== *)
(** * Printed expressions are read back *)

From S2P Require Import Prelude Cursor Tokenizer Tokens ParserBase ParserLaws Json.
From S2P Require Import ExprBase ExprParser ExprEnds ExprVisit.

(** ** Methods that consume given tokens *)

Definition es (inp : wstr) (toks : list Token) log acc (c : Column_ref) : EState :=
  mk_EState (ps inp toks log acc) c.

Definition piece_of (t : Token) : piece := (tok_type t, tok_text t).
Definition tk (k : piece) : Token := mk_Token k.1 k.2 0 0.

(** The piece that follows. *)
Definition nxt (ks : list piece) (nx : option piece) : option piece :=
  match ks with k :: _ => Some k | [] => nx end.

Definition hd (toks : list Token) : option piece := nxt (map piece_of toks) None.

Lemma hd_app toks ks rest : tokens_are toks ks -> hd (toks ++ rest) = nxt ks (hd rest).
Proof. intros <-. by destruct toks. Qed.

(** At the tokens [ks], with what satisfies [F] after them, [m] consumes [ks] and returns
    [a]; [C] and [D] are what is known of [m_col_ref] before and after. *)
Definition eats {A} (C : Column_ref -> Prop) (m : eparser A) (ks : list piece)
    (F : option piece -> Prop) (a : A) (D : Column_ref -> Prop) : Prop :=
  forall inp log acc toks rest c, C c -> tokens_are toks ks -> F (hd rest) ->
  exists d, D d /\ m (es inp (toks ++ rest) log acc c) = (Ok a, es inp rest log acc d).

Lemma method_bind_assoc {S A B C} (m : Method S A) (f : A -> Method S B) (g : B -> Method S C) s :
  ((m ≫= f) ≫= g) s = (m ≫= fun a => f a ≫= g) s.
Proof. unfold mbind, Method_bind. by destruct (m s) as [[a|e| |] s']. Qed.

(** A test that looks at the next token only. *)
Definition sees {A} (g : EState -> A) (p : option piece -> A) : Prop :=
  forall inp toks log acc c, g (es inp toks log acc c) = p (hd toks).

Definition on_next (f : Token -> bool) (nx : option piece) : bool :=
  match nx with Some k => f (tk k) | None => false end.

Section tests.
Lemma sees_type ty : sees (next_is_type ty) (on_next (fun t => bool_decide (tok_type t = ty))).
Proof. intros inp toks log acc c. by destruct toks as [|[]]. Qed.
Lemma sees_types l : sees (next_in_types l) (on_next (fun t => bool_decide (tok_type t ∈ l))).
Proof. intros inp toks log acc c. by destruct toks as [|[]]. Qed.
Lemma sees_kw k : sees (next_is_kw k) (on_next (fun t => bool_decide (k = Keyword_get t))).
Proof. intros inp toks log acc c. by destruct toks as [|[]]. Qed.
Lemma sees_kws l : sees (next_in_kws l) (on_next (fun t => bool_decide (Keyword_get t ∈ l))).
Proof. intros inp toks log acc c. by destruct toks as [|[]]. Qed.
Lemma sees_op o : sees (next_is_op o) (on_next (op_is o)).
Proof. intros inp toks log acc c. by destruct toks as [|[]]. Qed.
Lemma sees_ops l : sees (next_in_ops l)
  (on_next (fun t => bool_decide (get_binary t ∈ l) || bool_decide (get_unary t ∈ l))).
Proof. intros inp toks log acc c. by destruct toks as [|[]]. Qed.
End tests.

Section eats_rules.
Context {A B : Type}.
Implicit Types (C D E : Column_ref -> Prop) (F G : option piece -> Prop) (ks : list piece).

Lemma eats_weaken C C' (m : eparser A) ks F G a D D' :
  eats C' m ks F a D' -> (forall c, C c -> C' c) -> (forall nx, G nx -> F nx) -> (forall c, D' c -> D c) ->
  eats C m ks G a D.
Proof using.
  intros H HC HF HD inp log acc toks rest c Hc Ht Hr.
  destruct (H inp log acc toks rest c) as (d & Hd & E); [auto..|]. exists d. auto.
Qed.

Lemma eats_bind C D E (m : eparser A) (f : A -> eparser B) ks1 ks2 F G a b :
  eats C m ks1 F a D -> eats D (f a) ks2 G b E -> (forall nx, G nx -> F (nxt ks2 nx)) ->
  eats C (m ≫= f) (ks1 ++ ks2) G b E.
Proof using.
  intros Hm Hf HF inp log acc toks rest c Hc Ht Hr.
  apply tokens_are_app in Ht as (t1 & t2 & -> & H1 & H2). rewrite <- app_assoc.
  destruct (Hm inp log acc t1 (t2 ++ rest) c) as (d & Hd & Em); [done|done| |].
  { rewrite (hd_app _ ks2) by done. by apply HF. }
  destruct (Hf inp log acc t2 rest d) as (e & He & Ef); [done..|].
  exists e. split; [done|]. by rewrite (method_bind_ok Em).
Qed.

Lemma eats_ret C (a : A) F : eats C (mret a) [] F a C.
Proof using. intros inp log acc toks rest c Hc Ht _. exists c. split; [done|]. by destruct toks. Qed.

(** A step that consumes nothing. *)
Definition idle {X} (m : eparser X) (x : X) : Prop := forall s, m s = (Ok x, s).

Lemma eats_idle {X} C (m : eparser X) (x : X) (f : X -> eparser B) ks F b D :
  idle m x -> eats C (f x) ks F b D -> eats C (m ≫= f) ks F b D.
Proof using. intros Hm Hf inp log acc toks rest c Hc Ht Hr. rewrite (method_bind_ok (Hm _)). by apply Hf. Qed.

Lemma eats_read {X} C (g : EState -> X) p (x : X) (f : X -> eparser B) ks F b D :
  sees g p -> (forall nx, F nx -> p (nxt ks nx) = x) -> eats C (f x) ks F b D ->
  eats C (read g ≫= f) ks F b D.
Proof using.
  intros Hg Hp Hf inp log acc toks rest c Hc Ht Hr.
  rewrite method_read, Hg, (hd_app _ ks), Hp by done. by apply Hf.
Qed.

Lemma eats_read_col {X} c0 (g : Column_ref -> X) (f : X -> eparser B) ks F b D :
  eats (eq c0) (f (g c0)) ks F b D -> eats (eq c0) (read (fun s => g (m_col_ref s)) ≫= f) ks F b D.
Proof using. intros Hf inp log acc toks rest c <- Ht Hr. rewrite method_read. by apply Hf. Qed.

(** The next token, which is not consumed. *)
Lemma eats_peek C (f : option Token -> eparser B) k ks F b D :
  (forall t, tok_type t = k.1 -> tok_text t = k.2 -> eats C (f (Some t)) (k :: ks) F b D) ->
  eats C (read epeek ≫= f) (k :: ks) F b D.
Proof using.
  intros Hf inp log acc toks rest c Hc Ht Hr. rewrite method_read.
  pose proof Ht as Ht'. apply tokens_are_cons in Ht' as (t & toks' & -> & H1 & H2 & _).
  by apply (Hf t).
Qed.

Lemma eats_econsume C (f : option Token -> eparser B) k ks F b D :
  (forall t, tok_type t = k.1 -> tok_text t = k.2 -> eats C (f (Some t)) ks F b D) ->
  eats C (econsume ≫= f) (k :: ks) F b D.
Proof using.
  intros Hf inp log acc toks rest c Hc Ht Hr.
  apply tokens_are_cons in Ht as (t & toks' & -> & H1 & H2 & Ht).
  destruct (Hf t H1 H2 inp log acc toks' rest c) as (d & Hd & E); [done..|].
  exists d. split; [done|]. rewrite <- E. done.
Qed.

Lemma eats_yes C g p (f : option Token -> eparser B) k ks F b D :
  sees g p -> p (Some k) = true ->
  (forall t, tok_type t = k.1 -> tok_text t = k.2 -> eats C (f (Some t)) ks F b D) ->
  eats C (consume_when g ≫= f) (k :: ks) F b D.
Proof using.
  intros Hg Hp Hf inp log acc toks rest c Hc Ht Hr. unfold consume_when. rewrite method_bind_assoc, method_read.
  rewrite Hg, (hd_app _ (k :: ks)) by done. cbn [nxt]. rewrite Hp. by apply (eats_econsume C f k ks F b D Hf).
Qed.

Lemma eats_no C g p (f : option Token -> eparser B) ks F b D :
  sees g p -> (forall nx, F nx -> p (nxt ks nx) = false) -> eats C (f None) ks F b D ->
  eats C (consume_when g ≫= f) ks F b D.
Proof using.
  intros Hg Hp Hf inp log acc toks rest c Hc Ht Hr. unfold consume_when. rewrite method_bind_assoc, method_read.
  rewrite Hg, (hd_app _ ks), Hp by done. by apply Hf.
Qed.

Lemma eats_assoc {X} C (m : eparser X) (f : X -> eparser A) (g : A -> eparser B) ks F b D :
  eats C (m ≫= fun x => f x ≫= g) ks F b D -> eats C ((m ≫= f) ≫= g) ks F b D.
Proof using.
  intros H inp log acc toks rest c Hc Ht Hr. rewrite method_bind_assoc. by apply H.
Qed.

Lemma eats_same {X} C (m : eparser X) m' ks F (a : X) D :
  (forall s, m s = m' s) -> eats C m' ks F a D -> eats C m ks F a D.
Proof using. intros Hm H inp log acc toks rest c Hc Ht Hr. rewrite Hm. by apply H. Qed.

Lemma eats_set_col C c (f : unit -> eparser B) ks F b D :
  eats (eq c) (f tt) ks F b D -> eats C (set_col c ≫= f) ks F b D.
Proof using. intros Hf inp log acc toks rest c0 Hc Ht Hr. by apply Hf. Qed.

Lemma eats_fresh C D (m : eparser A) ks F a :
  eats (eq no_column) m ks F a D -> eats C (fresh_parser m) ks F a C.
Proof using.
  intros H inp log acc toks rest c Hc Ht Hr.
  destruct (H inp log acc toks rest no_column) as (d & _ & E); [done..|].
  exists c. split; [done|]. unfold fresh_parser. change (mk_EState _ no_column) with (es inp (toks ++ rest) log acc no_column).
  by rewrite E.
Qed.

Lemma eats_turns C (f : nat -> eparser B) ks F b D :
  (forall n, (length ks < n)%nat -> eats C (f n) ks F b D) -> eats C (read token_turns ≫= f) ks F b D.
Proof using.
  intros Hf inp log acc toks rest c Hc Ht Hr. rewrite method_read. apply Hf; [|done..].
  rewrite <- Ht. unfold token_turns, rest_toks. simpl. rewrite length_app, length_map. lia.
Qed.
End eats_rules.

(** A token that has to follow. *)
Lemma eats_throw {B} (C D : Column_ref -> Prop) g p msg (f : Token -> eparser B) k ks F b :
  sees g p -> p (Some k) = true ->
  (forall t, tok_type t = k.1 -> tok_text t = k.2 -> eats C (f t) ks F b D) ->
  eats C (or_throw (consume_when g) msg ≫= f) (k :: ks) F b D.
Proof.
  intros Hg Hp Hf. unfold or_throw. apply eats_assoc. eapply eats_yes; [exact Hg|exact Hp|].
  intros t H1 H2. eapply eats_idle; [by intros s|by apply Hf].
Qed.

Lemma idle_tell prc c : stores prc -> idle (etell prc c) tt.
Proof. intros H s. destruct s. by destruct H as [-> | ->]. Qed.
Lemma idle_ask c : idle (eask T_store c) T_store.
Proof. by intros s. Qed.
Lemma idle_replay_if e prc : stores prc -> idle (replay_if e prc) tt.
Proof. intros H s. destruct H as [-> | ->]; [done|]. apply (replay_store e s). Qed.
Lemma idle_pure {A} (a : A) : idle (pure (Ok a)) a.
Proof. by intros s. Qed.
Lemma stores_store : stores T_store.
Proof. by right. Qed.

Create HintDb eats discriminated.
#[export] Hint Resolve sees_type sees_types sees_kw sees_kws sees_op sees_ops idle_tell idle_ask
  idle_replay_if idle_pure stores_store : eats.

(** One step of a method: [ask] and [tell] leave no trace in storage; tests are computed. *)
Ltac idle := eapply eats_idle; [solve [eauto with eats]|].

Ltac looks := intros ? ?; first [done | by subst | by destruct_or!; subst].

Lemma eats_bind_nil {A B} C D E (m : eparser A) (f : A -> eparser B) ks F G a b :
  eats C m ks F a D -> eats D (f a) [] G b E -> (forall nx, G nx -> F nx) -> eats C (m ≫= f) ks G b E.
Proof. intros Hm Hf HF. rewrite <- (app_nil_r ks). by eapply eats_bind. Qed.

Lemma eats_end {A} C D (m : eparser A) (a : A) ks F : (forall c, C c -> D c) ->
  ks = [] -> idle m a -> eats C m ks F a D.
Proof.
  intros HD -> Hm inp log acc toks rest c Hc Ht _. exists c. split; [by apply HD|].
  destruct toks; [|done]. apply Hm.
Qed.

(** ** Levels of the grammar *)

Definition ops_of (st : Start) : list op :=
  match st with
  | MUL => [O_MUL; O_DIV; O_MOD] | ADD => [O_ADD; O_SUB] | SHIFT => [O_LSHIFT; O_RSHIFT]
  | BIT => [O_BITAND; O_BITOR; O_BITXOR] | COMP => [O_GE; O_GT; O_LE; O_LT; O_EQ; O_NE]
  | ILRI => [O_IS; O_IN; O_LIKE; O_RLIKE; O_BETWEEN; O_REGEXP; O_SOUNDS_LIKE]
  | AND => [O_AND] | OR => [O_OR] | _ => []
  end.

Definition lower (st : Start) : Start :=
  match st with
  | MUL => ATOMIC | ADD => MUL | SHIFT => ADD | BIT => SHIFT | COMP => BIT | ILRI => COMP | AND => ILRI
  | OR => AND | _ => st
  end.

(** The levels from the lowest one up. *)
Definition levels : list Start := [MUL; ADD; SHIFT; BIT; COMP; ILRI; AND; OR].

Definition in_ops (l : list op) (t : Token) : bool :=
  bool_decide (get_binary t ∈ l) || bool_decide (get_unary t ∈ l).

(** The token continues an expression of the level. *)
Definition continues (st : Start) (t : Token) : bool :=
  in_ops (ops_of st) t || (bool_decide (st = ILRI) && op_is O_NOT t).

Definition path_types : list Token_Type := [DOT; ARROW; ARROW2; LPAREN; DOUBLESTAR; LSQBRACKET].

(** What may follow an expression of a level: no token that continues it there or at a
    lower one. *)
Definition follow_tok (st : Start) (t : Token) : bool :=
  negb (bool_decide (tok_type t ∈ path_types)) &&
  forallb (fun l => negb (continues l t)) (filter (fun l => rank l <= rank st)%nat levels).

Definition follow (st : Start) (nx : option piece) : Prop :=
  match nx with Some k => follow_tok st (tk k) = true | None => True end.

Lemma follow_mono st st' nx : (rank st' <= rank st)%nat -> follow st nx -> follow st' nx.
Proof.
  intros Hle. destruct nx as [k|]; [|done]. unfold follow, follow_tok. rewrite !andb_true_iff, !forallb_forall.
  intros [H1 H2]. split; [done|]. intros l Hl. apply H2. revert Hl.
  rewrite <- !list_elem_of_In, !list_elem_of_filter. intros [Hl ?]. split; [lia|done].
Qed.

Lemma follow_ops st nx : st ∈ levels -> follow st nx -> on_next (in_ops (ops_of st)) nx = false.
Proof.
  destruct nx as [k|]; [|done]. intros Hst. unfold follow, follow_tok. rewrite andb_true_iff, forallb_forall.
  intros [_ H]. specialize (H st). rewrite <- list_elem_of_In, list_elem_of_filter in H.
  specialize (H (conj (le_n _) Hst)). unfold continues in H. simpl.
  by destruct (in_ops (ops_of st) (tk k)).
Qed.

Lemma follow_not nx : follow ILRI nx -> on_next (op_is O_NOT) nx = false.
Proof.
  destruct nx as [k|]; [|done]. unfold follow, follow_tok. rewrite andb_true_iff, forallb_forall.
  intros [_ H]. specialize (H ILRI). rewrite <- list_elem_of_In in H.
  specialize (H ltac:(by apply (bool_decide_unpack _))). unfold continues in H. simpl.
  destruct (in_ops (ops_of ILRI) (tk k)); [done|]. by destruct (op_is O_NOT (tk k)).
Qed.

(** The table that was read last is not one named [position] without a schema. *)
Definition harmless (c : Column_ref) : Prop :=
  t_schema (m_table_ref c) = [] -> not_position (t_name (m_table_ref c)).

Definition reads_at (o : parser_obj) (st : Start) (ks : list piece) (F : option piece -> Prop) (e : stored) : Prop :=
  forall n prc, stores prc -> (12 * length ks + rank st < n)%nat ->
  eats harmless (parse n o st prc) ks F e harmless.

Section levels.
Context (p : parser_obj -> Start -> target -> eparser stored) (o : parser_obj).

Lemma left_pass ops lhs rhs prc ks F e C D : stores prc ->
  (forall nx, F nx -> on_next (in_ops ops) nx = false) -> eats C (p o lhs T_null) ks F e D ->
  eats C (left_assoc_binary_op p o ops lhs rhs prc) ks F e D.
Proof using.
  intros Hp HF Hl. unfold left_assoc_binary_op. eapply eats_bind_nil; [exact Hl| |done].
  eapply eats_no; [apply sees_ops|done|]. idle. apply eats_ret.
Qed.

Lemma left_take ops lhs rhs prc k b ks1 ks2 F F1 e1 e2 C D E : stores prc ->
  get_binary (tk k) = b -> b ∈ ops -> F1 (Some k) ->
  eats C (p o lhs T_null) ks1 F1 e1 D -> eats D (p o rhs T_store) ks2 F e2 E ->
  eats C (left_assoc_binary_op p o ops lhs rhs prc) (ks1 ++ k :: ks2) F (S_op (Op_name b) [e1; e2]) E.
Proof using.
  intros Hp Hb Ho HF Hl Hr. unfold left_assoc_binary_op. eapply eats_bind; [exact Hl| |done].
  eapply eats_yes; [apply sees_ops| |].
  { cbn [on_next]. rewrite Hb. by rewrite bool_decide_true. }
  intros t H1 H2. assert (Ht : get_binary t = b) by (destruct t, k; cbn in H1, H2; by subst).
  rewrite Ht. replace (store_if prc) with T_store by by destruct Hp as [-> | ->].
  do 2 idle. change (is_null T_store) with false. cbv iota. do 4 idle.
  eapply eats_bind_nil; [exact Hr| |done]. idle. apply eats_ret.
Qed.
End levels.

Definition begins (f : Token -> bool) (ks : list piece) : Prop :=
  match ks with k :: _ => f (tk k) = true | [] => False end.

Lemma begins_next f g ks nx : begins f ks -> (forall t, f t = true -> g t = false) -> on_next g (nxt ks nx) = false.
Proof. destruct ks as [|k ks]; [done|]. simpl. intros Hf Hg. by apply Hg. Qed.

Lemma stores_null : stores T_null.
Proof. by left. Qed.
#[export] Hint Resolve stores_null : eats.

Definition no_tilde : Token -> bool := fun t => negb (op_is O_BITNEG t).

Lemma step_up o st ks F e : st ∈ levels -> (st = BIT -> begins no_tilde ks) -> (forall nx, F nx -> follow st nx) ->
  reads_at o (lower st) ks F e -> reads_at o st ks F e.
Proof.
  intros Hst Hks HF Hr [|n] prc Hp Hn; [lia|].
  assert (Hl : eats harmless (parse n o (lower st) T_null) ks F e harmless).
  { apply Hr; [apply stores_null|]. destruct st; simpl in *; lia || by apply (bool_decide_pack _) in Hst. }
  clear Hr Hn. cbn [parse parse_step].
  assert (Hops : forall nx, F nx -> on_next (in_ops (ops_of st)) nx = false)
    by (intros nx Hnx; apply follow_ops; [done|by apply HF]).
  assert (Hpass : forall rhs, eats harmless (left_assoc_binary_op (parse n) o (ops_of st) (lower st) rhs prc) ks F e harmless)
    by (intros rhs; by apply left_pass).
  destruct st; try (by apply (bool_decide_pack _) in Hst); cbn [lower ops_of] in *; try apply Hpass.
  - unfold parse_bit. eapply eats_no; [apply sees_op| |apply Hpass].
    intros nx _. eapply begins_next; [by apply Hks|]. unfold no_tilde. intros t. by destruct (op_is _ t).
  - unfold parse_ilri. eapply eats_bind_nil; [exact Hl| |done].
    eapply eats_no; [apply sees_op|intros nx Hnx; by apply follow_not, HF|].
    eapply eats_no; [apply sees_ops|exact Hops|]. cbn. idle. apply eats_ret.
Qed.

(** An expression of a level is one of every level above it. *)
Lemma climb o ks F e st1 : (rank st1 < rank BIT -> begins no_tilde ks)%nat -> (0 < rank st1)%nat ->
  reads_at o st1 ks F e -> forall d st, rank st = (rank st1 + d)%nat -> (forall nx, F nx -> follow st nx) ->
  reads_at o st ks F e.
Proof.
  intros Hks H1 Hr. induction d as [|d IH]; intros st Hd HF.
  - assert (st = st1 \/ rank st = 9%nat) as [->|H9].
    { destruct st, st1; simpl in *; try lia; auto. }
    { exact Hr. }
    assert (st1 = OR \/ st1 = FULL) as H1' by (destruct st1; simpl in *; try lia; auto).
    assert (st = OR \/ st = FULL) as H2' by (destruct st; simpl in *; try lia; auto).
    intros n prc Hp Hn. specialize (Hr n prc Hp ltac:(lia)).
    destruct H1' as [-> | ->], H2' as [-> | ->]; rewrite ?parse_full in *; exact Hr.
  - assert (HF' : forall st', (rank st' <= rank st)%nat -> forall nx, F nx -> follow st' nx)
      by (intros st' Hle nx Hnx; eapply follow_mono; [exact Hle|by apply HF]).
    destruct (decide (st = FULL)) as [->|Hf].
    + intros n prc Hp Hn. rewrite parse_full.
      apply (step_up o OR ks F e); [by apply (bool_decide_unpack _)|done|by apply HF'|
        apply IH; [simpl in *; lia|apply HF'; simpl; lia]|done|done].
    + apply step_up; [|intros ->; apply Hks; simpl in *; lia|done|apply IH; [|apply HF']];
        destruct st; simpl in *; try lia; try done; by apply (bool_decide_unpack _).
Qed.

Lemma reads_weaken o st ks F G e : reads_at o st ks F e -> (forall nx, G nx -> F nx) -> reads_at o st ks G e.
Proof. intros H HG n prc Hp Hn. eapply eats_weaken; [by apply H|done|exact HG|done]. Qed.

(** An operand or a parenthesized expression at every level above. *)
Lemma from_atomic o ks e st : begins no_tilde ks -> (0 < rank st)%nat ->
  reads_at o ATOMIC ks (follow ATOMIC) e -> reads_at o st ks (follow st) e.
Proof.
  intros Hks Hst Hr. apply (climb o ks _ e ATOMIC (fun _ => Hks) (le_n _)) with (d := (rank st - 1)%nat); [|simpl; lia|done].
  eapply reads_weaken; [exact Hr|]. intros nx. apply follow_mono. simpl. lia.
Qed.

(** ** Atomic expressions *)

Definition anything : option piece -> Prop := fun _ => True.

Lemma kw_tok t k : tok_type t = k.1 -> tok_text t = k.2 -> Keyword_get t = Keyword_get (tk k).
Proof. destruct t, k. cbn. by intros -> ->. Qed.

Lemma unary_tok t k : tok_type t = k.1 -> tok_text t = k.2 -> get_unary t = get_unary (tk k).
Proof. destruct t, k. cbn. by intros -> ->. Qed.

Lemma binary_tok t k : tok_type t = k.1 -> tok_text t = k.2 -> get_binary t = get_binary (tk k).
Proof. destruct t, k. cbn. by intros -> ->. Qed.

Lemma strtoi_dec z : 0 <= z < 2 ^ 63 -> strtoi (dec_text z) 10 = Ok z.
Proof.
  intros Hz. destruct (dec_digits_of_reads 20 z [] 0 0) as (k & ds & Ht & Hk & Hne & Hd & Hv);
    [change (10 ^ Z.of_nat 20) with 100000000000000000000; lia|].
  unfold dec_text. rewrite Ht, app_nil_r in *. assert (Hdne : ds <> []) by by apply Hne.
  unfold strtoi, strtonum_int.
  assert (Hs : take_sign ds = (false, ds)).
  { destruct ds as [|d ds]; [done|]. inversion Hd as [|? ? H _]; subst. unfold take_sign.
    destruct (Z.eqb_spec d 45) as [->|]; [done|]. by destruct (Z.eqb_spec d 43) as [->|]. }
  rewrite Hs. cbn [fst snd]. rewrite Hv. cbn [take_digits].
  rewrite bool_decide_false by (destruct ds; [done|]; simpl in Hk; lia).
  by rewrite (proj2 (Z.ltb_lt _ _)) by lia.
Qed.

Section literals.
Context (o : parser_obj) (C : Column_ref -> Prop).

Lemma literal_uint z : 0 <= z < 2 ^ 64 ->
  eats C (parse_literal o false T_store) [(INTEGER, dec_text z)] anything (Some (S_uint z)) C.
Proof using.
  intros Hz. destruct (dec_text_reads z Hz) as (_ & _ & Hr). unfold parse_literal.
  apply eats_peek. intros t H1 H2. idle. rewrite (kw_tok _ _ H1 H2), H1, H2. cbv iota zeta. cbn [fst snd].
  apply eats_econsume. intros t' _ _. rewrite decide_False by done. rewrite Hr. do 3 idle. apply eats_ret.
Qed.

Lemma literal_neg z : 0 <= z < 2 ^ 63 ->
  eats C (parse_literal o true T_store) [(INTEGER, dec_text z)] anything (Some (S_int (- z))) C.
Proof using.
  intros Hz. unfold parse_literal.
  apply eats_peek. intros t H1 H2. idle. rewrite (kw_tok _ _ H1 H2), H1, H2. cbv iota zeta. cbn [fst snd].
  apply eats_econsume. intros t' _ _. rewrite decide_False by done. rewrite strtoi_dec by done.
  eapply eats_idle; [apply idle_pure|].
  replace (in_int64 (- z)) with true by (unfold in_int64; symmetry; apply andb_true_iff; lia).
  cbn [negb]. do 2 idle. apply eats_ret.
Qed.

Lemma literal_str v :
  eats C (parse_literal o false T_store) [(QQSTRING, v)] anything
    (Some (if m_strings_as_blobs o then S_octets v else S_str v)) C.
Proof using.
  unfold parse_literal. apply eats_peek. intros t H1 H2. idle. rewrite (kw_tok _ _ H1 H2), H1, H2. idle.
  apply eats_econsume. intros t' _ _. destruct (m_strings_as_blobs o); idle; apply eats_ret.
Qed.

Lemma literal_word k x : (k, x) ∈ [(sym "null", S_null); (sym "true", S_bool true); (sym "false", S_bool false)] ->
  eats C (parse_literal o false T_store) [k] anything (Some x) C.
Proof using.
  intros Hk. unfold parse_literal. apply eats_peek. intros t H1 H2. idle. rewrite (kw_tok _ _ H1 H2).
  set_unfold in Hk. destruct_or?; simplify_eq; try done; do 2 idle; apply eats_econsume; intros t' _ _; apply eats_ret.
Qed.
End literals.

Section atomic.
Context (p : parser_obj -> Start -> target -> eparser stored) (o : parser_obj).

Definition closing : option piece -> Prop := fun nx => nx = Some (sym ")").

Lemma atomic_parens C D ks F e prc :
  eats C (p o FULL prc) ks closing e D -> eats C (parse_atomic p o prc) (parens ks) F e D.
Proof using.
  intros H. unfold parse_atomic, parens. apply eats_peek. intros t H1 H2. rewrite H1. cbn [sym].
  apply eats_econsume. intros t' _ _. eapply eats_bind; [exact H| |done].
  eapply eats_throw; [apply sees_type|done|]. intros t'' _ _. apply eats_ret.
Qed.

(** No other form starts with such a token. *)
Definition scalar_first (t : Token) : bool :=
  negb (bool_decide (tok_type t ∈ [LCURLY; LSQBRACKET; LPAREN; COLON])) && negb (op_is O_STAR t) &&
  negb (op_is O_CAST t).

Definition after_unary (sprc : target) : target * op * bool -> eparser stored := fun '(argsp, u, neg) =>
  if negb (is_null argsp) then parse_operand p o (Op_name u) argsp else
  l ← parse_literal o neg sprc;
  match l with Some x => mret x | None => parse_name p o sprc end.

Lemma atomic_scalar C D k ks F e prc : stores prc -> scalar_first (tk k) = true ->
  eats C (x ← parse_unary T_store; after_unary T_store x) (k :: ks) F e D ->
  eats C (parse_atomic p o prc) (k :: ks) F e D.
Proof using.
  intros Hp Hk H. unfold scalar_first in Hk. rewrite !andb_true_iff, !negb_true_iff in Hk.
  destruct Hk as [[Hk1 Hk2] Hk3]. apply bool_decide_eq_false in Hk1.
  unfold parse_atomic. apply eats_peek. intros t H1 H2.
  assert (Hty : tok_type t ∉ [LCURLY; LSQBRACKET; LPAREN; COLON]) by (rewrite H1; exact Hk1).
  assert (Hmain : forall m, eats C m (k :: ks) F e D ->
    eats C (match tok_type t with LCURLY => p o DOC prc | LSQBRACKET => p o ARR prc
      | LPAREN => econsume;; x ← p o FULL prc;
          type_throw RPAREN (wlit "Expected ')' to close parenthesized sub-expression");; mret x
      | _ => m end) (k :: ks) F e D).
  { intros m Hm. destruct (tok_type t); try exact Hm; set_solver. }
  apply Hmain. clear Hmain. replace (store_if prc) with T_store by by destruct Hp as [-> | ->]. idle.
  eapply eats_no; [apply sees_type| |].
  { intros nx _. cbn [nxt on_next tk tok_type]. apply bool_decide_false. set_solver. }
  eapply eats_no; [apply sees_op|intros nx _; exact Hk2|].
  unfold parse_cast. apply eats_assoc. eapply eats_no; [apply sees_op|intros nx _; exact Hk3|].
  eapply eats_idle; [by intros s|]. exact H.
Qed.

(** A literal or a name. *)
Lemma atomic_plain C D k ks F e prc : stores prc -> scalar_first (tk k) = true ->
  get_unary (tk k) = O_NONE ->
  eats C (l ← parse_literal o false T_store; match l with Some x => mret x | None => parse_name p o T_store end)
    (k :: ks) F e D ->
  eats C (parse_atomic p o prc) (k :: ks) F e D.
Proof using.
  intros Hp Hk Hu H. apply atomic_scalar; [done|done|]. unfold parse_unary. apply eats_assoc, eats_peek.
  intros t H1 H2. apply eats_assoc. eapply eats_idle; [apply idle_pure|].
  rewrite (unary_tok _ _ H1 H2), Hu. eapply eats_idle; [by intros s|]. exact H.
Qed.

Lemma atomic_literal C k F x prc : stores prc -> scalar_first (tk k) = true -> get_unary (tk k) = O_NONE ->
  eats C (parse_literal o false T_store) [k] anything (Some x) C -> eats C (parse_atomic p o prc) [k] F x C.
Proof using.
  intros Hp Hk Hu H. apply atomic_plain; [done..|]. eapply eats_bind_nil; [exact H|apply eats_ret|done].
Qed.

Lemma atomic_neg C z F prc : stores prc -> 0 <= z < 2 ^ 63 ->
  eats C (parse_atomic p o prc) [sym "-"; (INTEGER, dec_text z)] F (S_int (- z)) C.
Proof using.
  intros Hp Hz. apply atomic_scalar; [done|done|]. unfold parse_unary. apply eats_assoc, eats_peek.
  intros t H1 H2. apply eats_assoc. eapply eats_idle; [apply idle_pure|]. rewrite (unary_tok _ _ H1 H2).
  change (get_unary (tk (sym "-"))) with O_MINUS. cbv iota. apply eats_assoc, eats_econsume. intros t' _ _.
  apply eats_assoc. eapply (eats_read _ _ _ true); [apply sees_types|by intros nx _|].
  eapply eats_idle; [by intros s|]. cbn [after_unary is_null].
  change (bool_decide (O_MINUS = O_MINUS)) with true. cbn.
  eapply eats_bind_nil; [by apply literal_neg|apply eats_ret|done].
Qed.

Lemma atomic_param C w F prc : stores prc ->
  eats C (parse_atomic p o prc) [sym ":"; (WORD, w)] F (S_param w) C.
Proof using.
  intros Hp. unfold parse_atomic. apply eats_peek. intros t H1 H2. rewrite H1. cbn [sym].
  change (tok_type t) with COLON. replace (store_if prc) with T_store by by destruct Hp as [-> | ->]. idle.
  eapply eats_yes; [apply sees_type|done|]. intros t' _ _. eapply eats_throw; [apply sees_type|done|].
  intros t'' _ E. rewrite E. idle. apply eats_ret.
Qed.
End atomic.

(** ** Names and paths *)

Definition no_path (nx : option piece) : Prop :=
  on_next (fun t => bool_decide (tok_type t ∈ [DOUBLESTAR; DOT; LSQBRACKET])) nx = false.

Definition no_type (ty : Token_Type) (nx : option piece) : Prop :=
  on_next (fun t => bool_decide (tok_type t = ty)) nx = false.

Lemma idle_report first el : idle (report_el first T_store el) tt.
Proof. intros s. destruct s. by destruct first. Qed.
#[export] Hint Resolve idle_report : eats.

Section paths.
Context (C : Column_ref -> Prop).

Lemma member_reads first k el :
  (exists v, k = (QQSTRING, v) /\ el = P_member v) \/ (k = sym "*" /\ el = P_any_member) ->
  eats C (parse_docpath_member first T_store) [k] anything (Some el) C.
Proof using.
  intros Hk. unfold parse_docpath_member. apply eats_peek. intros t H1 H2.
  destruct Hk as [(v & -> & ->)|[-> ->]]; rewrite H1; cbn [sym]; [rewrite H2|change (tok_type t) with STAR]; idle;
    apply eats_econsume; intros t' _ _; apply eats_ret.
Qed.

Lemma member_dot_reads first k el :
  (exists v, k = (QQSTRING, v) /\ el = P_member v) \/ (k = sym "*" /\ el = P_any_member) ->
  eats C (parse_docpath_member_dot first T_store) [sym "."; k] anything (Some el) C.
Proof using.
  intros Hk. unfold parse_docpath_member_dot. eapply eats_yes; [apply sees_type|done|]. intros t _ _.
  eapply eats_bind_nil; [by apply member_reads|apply eats_ret|done].
Qed.

Lemma member_dot_no first F : (forall nx, F nx -> no_type DOT nx) ->
  eats C (parse_docpath_member_dot first T_store) [] F None C.
Proof using.
  intros HF. unfold parse_docpath_member_dot. eapply eats_no; [apply sees_type|exact HF|]. apply eats_ret.
Qed.

Definition el_ok (el : path_el) : Prop := match el with P_index i => 0 <= i <= index_max | _ => True end.

Lemma array_reads el : el_ok el -> match el with P_index _ | P_any_index => True | _ => False end ->
  eats C (parse_docpath_array T_store) (el_pieces el) anything (Some el) C.
Proof using.
  intros Hok Hel. unfold parse_docpath_array. destruct el as [v| |i| |]; try done; cbn [el_pieces].
  - assert (Hi : 0 <= i < 2 ^ 64) by (unfold el_ok, index_max in Hok; lia).
    destruct (dec_text_reads i Hi) as (_ & _ & Hr).
    eapply eats_yes; [apply sees_type|done|]. intros t _ _. eapply eats_no; [apply sees_type|done|].
    eapply eats_assoc, (eats_read _ _ _ true); [apply sees_type|by intros nx _|]. cbn [negb].
    eapply eats_assoc, eats_econsume. intros t' _ E. apply eats_assoc. eapply eats_idle; [apply idle_pure|].
    apply eats_assoc. rewrite E. cbn [snd]. rewrite Hr. eapply eats_idle; [apply idle_pure|].
    rewrite (proj2 (Z.ltb_ge _ _)) by (simpl in Hok; lia). idle. idle.
    eapply eats_throw; [apply sees_type|done|]. intros t'' _ _. apply eats_ret.
  - eapply eats_yes; [apply sees_type|done|]. intros t _ _. eapply eats_yes; [apply sees_type|done|]. intros t' _ _.
    idle. idle. eapply eats_throw; [apply sees_type|done|]. intros t'' _ _. apply eats_ret.
Qed.

Definition ends_star (star : bool) (l : list path_el) : bool :=
  match last l with Some el => bool_decide (el = P_any_path) | None => star end.

Lemma ends_star_cons star el l : ends_star star (el :: l) = ends_star (bool_decide (el = P_any_path)) l.
Proof using. unfold ends_star. rewrite last_cons. by destruct (last l). Qed.

Lemma path_loop_reads l : Forall el_ok l -> forall n star, (length (flat_map el_pieces l) < n)%nat ->
  eats C (path_loop n T_store star) (flat_map el_pieces l) no_path (l, ends_star star l) C.
Proof using.
  induction 1 as [|el l Hel Hl IH]; intros [|n] star Hn; cbn [flat_map] in *; try (simpl in Hn; lia);
    cbn [path_loop].
  { eapply (eats_read _ _ _ false); [apply sees_types|by intros nx|]. apply eats_ret. }
  rewrite ends_star_cons. rewrite length_app in Hn.
  eapply (eats_read _ _ _ true); [apply sees_types|by intros nx _; destruct el|]. cbn [negb].
  destruct (decide (el = P_any_path)) as [->|Hne].
  - cbn [el_pieces app]. eapply eats_yes; [apply sees_type|done|]. intros t _ _. idle.
    eapply eats_bind_nil; [apply IH; simpl in Hn; lia|apply eats_ret|done].
  - rewrite bool_decide_false by done.
    eapply eats_no; [apply sees_type|by intros nx _; destruct el|].
    assert (Hm : forall A f F (a : A) ks, eats C (f (Some el)) ks F a C ->
      eats C (m ← parse_docpath_member_dot false T_store;
              m ← match m with Some el => mret (Some el) | None => parse_docpath_array T_store end; f m)
        (el_pieces el ++ ks) F a C).
    { intros A f F a ks Hf. destruct el as [v| |i| |]; try done.
      1,2: eapply eats_bind; [apply member_dot_reads; eauto|eapply eats_idle; [by intros s|exact Hf]|done].
      all: match goal with |- eats _ _ (el_pieces ?x ++ _) _ _ _ =>
        apply (eats_bind C C C _ _ [] (el_pieces x ++ ks) (no_type DOT) F None) end;
        [by apply member_dot_no|eapply (eats_bind C C C); [by apply array_reads|exact Hf|done]|done]. }
    apply Hm. eapply eats_bind_nil; [apply IH; destruct el; simpl in Hn; lia|apply eats_ret|done].
Qed.
End paths.

Section columns.
Context (C : Column_ref -> Prop).

Lemma path1_reads l : Forall el_ok l -> last l <> Some P_any_path ->
  eats C (parse_document_path1 T_store) (flat_map el_pieces l) no_path l C.
Proof using.
  intros Hl Hlast. unfold parse_document_path1. apply eats_turns. intros n Hn.
  eapply eats_bind_nil; [by apply path_loop_reads| |done].
  replace (ends_star false l) with false; [apply eats_ret|].
  unfold ends_star. destruct (last l); [|done]. symmetry. apply bool_decide_false. congruence.
Qed.

Lemma document_path_reads l : Forall el_ok l -> last l <> Some P_any_path ->
  match l with [] | P_index _ :: _ | P_any_index :: _ => False | _ => True end ->
  eats C (parse_document_path T_store true) (flat_map el_pieces l) no_path (Some l) C.
Proof using.
  intros Hl Hlast Hfirst. destruct l as [|el l]; [done|]. inversion Hl as [|? ? Hel Hl']; subst.
  assert (Hlast' : last l <> Some P_any_path) by (rewrite last_cons in Hlast; by destruct (last l)).
  unfold parse_document_path. cbn [flat_map].
  assert (Htail : forall d : option Token, bool_decide (l = []) && bool_decide (d <> None) = false ->
    eats C (l ← parse_document_path1 T_store;
            if bool_decide (l = []) && bool_decide (d <> None) then eparse_error path_ends_in_stars
            else etell T_store (c_base x_path_end);; mret (Some (el :: l)))
      (flat_map el_pieces l) no_path (Some (el :: l)) C).
  { intros d Hd. eapply eats_bind_nil; [by apply path1_reads| |done]. rewrite Hd. idle. apply eats_ret. }
  destruct el as [v| |i| |]; try done.
  - apply (eats_no C _ _ _ _ _ _ _ (sees_type _)); [done|]. apply eats_assoc.
    eapply eats_bind; [apply member_dot_reads; eauto| |done]. eapply eats_idle; [by intros s|].
    apply (Htail None). by rewrite andb_false_r.
  - apply (eats_no C _ _ _ _ _ _ _ (sees_type _)); [done|]. apply eats_assoc.
    eapply eats_bind; [apply member_dot_reads; eauto| |done]. eapply eats_idle; [by intros s|].
    apply (Htail None). by rewrite andb_false_r.
  - eapply eats_yes; [apply sees_type|done|]. intros t _ _. apply eats_assoc. idle.
    eapply eats_idle; [by intros s|]. apply (Htail (Some t)). rewrite bool_decide_false; [done|].
    intros ->. by apply Hlast.
Qed.

Lemma document_path_no F : (forall nx, F nx -> no_path nx) ->
  eats C (parse_document_path T_store true) [] F None C.
Proof using.
  intros HF. assert (Hno : forall nx, F nx -> no_type DOUBLESTAR nx /\ no_type DOT nx).
  { intros nx Hnx%HF. unfold no_path, no_type in *. destruct nx as [k|]; [|done]. simpl in *.
    apply bool_decide_eq_false in Hnx. set_unfold. split; apply bool_decide_false; naive_solver. }
  unfold parse_document_path. eapply eats_no; [apply sees_type|intros nx Hnx; by apply Hno|].
  apply eats_assoc. eapply eats_bind_nil; [by apply (member_dot_no C true F); intros nx []%Hno| |done].
  eapply eats_idle; [by intros s|]. apply eats_ret.
Qed.

Lemma document_field_reads path : path_ok path ->
  eats C (parse_document_field T_store true)
    (sym "$" :: if m_whole_document path then [] else flat_map el_pieces (m_path path)) no_path path C.
Proof using.
  intros Hp. unfold parse_document_field. eapply eats_yes; [apply sees_type|done|]. intros t _ _.
  destruct path as [[|] l]; cbn [m_whole_document m_path path_ok] in *.
  - unfold path_ok in Hp. cbn in Hp. subst l. eapply eats_bind_nil; [by apply (document_path_no no_path)| |done].
    idle. apply eats_ret.
  - unfold path_ok in Hp. cbn in Hp. destruct Hp as [Hfirst Hok].
    eapply eats_bind_nil; [apply document_path_reads; [done|..]|apply eats_ret|done]; by destruct l as [|[] ?].
Qed.

Lemma ident_reads n : eats C get_ident [(QWORD, n)] anything (Some n) C.
Proof using.
  unfold get_ident. eapply (eats_read _ _ _ true); [apply sees_types|by intros nx _|]. cbn [negb].
  apply eats_econsume. intros t _ E. idle. rewrite E. apply eats_ret.
Qed.
End columns.

Definition table_col (name sch : wstr) : Column_ref := mk_Column_ref (mk_Table_ref name sch) [].

Lemma eats_set_table {B} c0 g (f : unit -> eparser B) ks F b D :
  eats (eq (mk_Column_ref (g (m_table_ref c0)) (m_col_name c0))) (f tt) ks F b D ->
  eats (eq c0) (set_table g ≫= f) ks F b D.
Proof. intros Hf inp log acc toks rest c <- Ht Hr. unfold set_table. rewrite method_update. by apply Hf. Qed.

Lemma schema_ident_one n :
  eats (eq no_column) parse_schema_ident [(QWORD, n)] (no_type DOT) (true, (QWORD, WORD)) (eq (table_col n [])).
Proof.
  unfold parse_schema_ident. apply eats_peek. intros t H1 _. rewrite H1.
  eapply (eats_bind _ (eq no_column) _ _ _ [(QWORD, n)] []); [apply ident_reads| |done]. apply eats_set_table.
  eapply eats_no; [apply sees_type|by intros nx|]. apply eats_ret.
Qed.

Lemma schema_ident_two s n F :
  eats (eq no_column) parse_schema_ident [(QWORD, s); sym "."; (QWORD, n)] F (true, (QWORD, QWORD))
    (eq (table_col n s)).
Proof.
  unfold parse_schema_ident. apply eats_peek. intros t H1 _. rewrite H1.
  eapply (eats_bind _ (eq no_column) _ _ _ [(QWORD, s)]); [apply ident_reads| |done]. apply eats_set_table.
  eapply eats_yes; [apply sees_type|done|]. intros t' _ _. apply eats_peek. intros t'' H3 _. rewrite H3.
  eapply (eats_bind _ _ _ _ _ [(QWORD, n)] []); [apply ident_reads| |done]. apply eats_set_table. apply eats_ret.
Qed.

Definition opt_path (path : option Doc_path) : list piece :=
  match path with Some p => path_pieces p | None => [] end.

Lemma arrow_reads C path : match path with Some p => path_ok p | None => True end ->
  eats C (a ← consume_type ARROW;
          a ← match a with Some t => mret (Some t) | None => consume_type ARROW2 end;
          match a with
          | None => mret empty_path
          | Some _ =>
              q ← read (next_in_types [QSTRING; QQSTRING]);
              if q : bool then
                t ← econsume; t ← pure (deref t);
                '(path, more) ← on_text (tok_text t) (parse_document_field T_store true);
                if more : bool then eparse_error (wlit "Unexpected characters in a quotted path component")
                else mret path
              else parse_document_field T_store true
          end) (opt_path path) (follow ATOMIC) (default empty_path path) C.
Proof.
  assert (Hf : forall nx, follow ATOMIC nx -> no_path nx /\ no_type ARROW nx /\ no_type ARROW2 nx).
  { intros [k|]; [|done]. unfold follow, follow_tok, no_path, no_type. simpl. rewrite andb_true_iff, negb_true_iff.
    intros [H%bool_decide_eq_false _]. unfold path_types in H. set_unfold.
    split_and!; apply bool_decide_false; set_unfold; naive_solver. }
  intros Hp. destruct path as [path|]; cbn [opt_path default].
  - unfold path_pieces. eapply eats_yes; [apply sees_type|done|]. intros t _ _. eapply eats_idle; [by intros s|].
    cbv iota. eapply (eats_read _ _ _ false); [apply sees_types|by intros nx _|].
    eapply eats_weaken; [by apply (document_field_reads C)|done|by intros nx []%Hf|done].
  - eapply eats_no; [apply sees_type|by intros nx (_ & ? & _)%Hf|].
    eapply eats_no; [apply sees_type|by intros nx (_ & _ & ?)%Hf|]. apply eats_ret.
Qed.

Lemma follow_no_type st ty nx : ty ∈ path_types -> follow st nx -> no_type ty nx.
Proof.
  intros Hty. destruct nx as [k|]; [|done]. unfold follow, follow_tok, no_type. simpl.
  rewrite andb_true_iff, negb_true_iff. intros [H%bool_decide_eq_false _]. apply bool_decide_false. congruence.
Qed.

Section names.
Context (p : parser_obj -> Start -> target -> eparser stored) (o : parser_obj) (Hmode : m_parser_mode o = TABLE).

(** The last part of a column identifier, after the name of a column or of a table. *)
Lemma column_ident_dot tbl name path : match path with Some p => path_ok p | None => True end ->
  eats (eq (mk_Column_ref tbl [])) (parse_column_ident1 T_store) (sym "." :: (QWORD, name) :: opt_path path)
    (follow ATOMIC) (default empty_path path) (eq (mk_Column_ref tbl name)).
Proof using.
  intros Hp. unfold parse_column_ident1. eapply eats_yes; [apply sees_type|done|]. intros t _ _.
  apply eats_assoc. eapply (eats_bind _ _ _ _ _ [(QWORD, name)]); [apply ident_reads| |done].
  apply eats_assoc. apply (eats_read_col _ (fun c => c)). apply eats_set_col. by apply arrow_reads.
Qed.

Lemma column_ident_end name sch path : name <> [] ->
  match path with Some p => path_ok p | None => True end ->
  eats (eq (table_col name sch)) (parse_column_ident1 T_store) (opt_path path) (follow ATOMIC)
    (default empty_path path) (eq (match sch with [] => col_set name | _ => col_set2 name sch end)).
Proof using.
  intros Hn Hp. unfold parse_column_ident1. eapply eats_no; [apply sees_type| |].
  { intros nx Hnx. destruct path; [done|]. eapply follow_no_type; [|exact Hnx]. by apply (bool_decide_unpack _). }
  apply eats_assoc. apply (eats_read_col _ (fun c => c)). apply eats_assoc. cbv beta.
  unfold table. rewrite decide_False by done. eapply eats_idle; [apply idle_pure|].
  unfold schema. cbn [m_table_ref table_col t_schema t_name]. destruct sch as [|x sch]; cbn; apply eats_set_col;
    by apply arrow_reads.
Qed.

(** A name that is read as [c1], and what follows it. *)
Lemma name_call C D ks1 ks F F1 tys c1 x :
  eats (eq no_column) parse_schema_ident ks1 F1 (true, tys) (eq c1) -> t_name (m_table_ref c1) <> [] ->
  eats (eq c1) (parse_function_call p o T_store) ks F (Some x) D -> (forall nx, F nx -> F1 (nxt ks nx)) ->
  eats C (parse_name p o T_store) (ks1 ++ ks) F x D.
Proof using.
  intros Hid Hn Hcall HF. unfold parse_name. apply eats_set_col. eapply eats_bind; [exact Hid| |exact HF].
  destruct tys as [ty0 ty1]. cbv iota beta. apply eats_assoc. apply (eats_read_col _ (fun c => c)). apply eats_assoc.
  unfold table. rewrite decide_False by done. eapply eats_idle; [apply idle_pure|].
  eapply eats_bind_nil; [exact Hcall|apply eats_ret|done].
Qed.

Lemma name_column C ks1 ks F1 tys c1 c2 path :
  eats (eq no_column) parse_schema_ident ks1 F1 (true, tys) (eq c1) -> t_name (m_table_ref c1) <> [] ->
  (forall nx, follow ATOMIC nx -> F1 (nxt ks nx) /\ no_type LPAREN (nxt ks nx)) ->
  match path with Some p => path_is_empty p = false | None => True end ->
  eats (eq c1) (parse_column_ident1 T_store) ks (follow ATOMIC) (default empty_path path) (eq c2) ->
  eats C (parse_name p o T_store) (ks1 ++ ks) (follow ATOMIC) (S_ref c2 path) (eq c2).
Proof using Hmode.
  intros Hid Hn HF Hpath Hcol. unfold parse_name. apply eats_set_col.
  eapply eats_bind; [exact Hid| |by intros nx []%HF].
  destruct tys as [ty0 ty1]. cbv iota beta. apply eats_assoc. apply (eats_read_col _ (fun c => c)). apply eats_assoc.
  unfold table. rewrite decide_False by done. eapply eats_idle; [apply idle_pure|].
  unfold parse_function_call. apply eats_assoc. eapply eats_no; [apply sees_type|by intros nx []%HF|].
  eapply eats_idle; [by intros s|]. cbv iota. rewrite Hmode. cbn [negb].
  eapply eats_bind_nil; [exact Hcol| |done]. apply (eats_read_col _ (fun c => c)). cbv zeta beta.
  replace (if path_is_empty (default empty_path path) then None else Some (default empty_path path)) with path.
  { idle. apply eats_ret. }
  destruct path as [path|]; [|done]. cbn in *. by rewrite Hpath.
Qed.

Lemma path_ok_full path : path_ok path -> path_is_empty path = false.
Proof using.
  unfold path_ok, path_is_empty. destruct path as [[|] l]; [done|]. cbn. intros [H _].
  apply bool_decide_false. by destruct l.
Qed.

Lemma name_column_reads C q name path : (length q <= 2)%nat -> Forall (fun n => n <> []) (name :: q) ->
  match path with Some p => path_ok p | None => True end ->
  eats C (parse_name p o T_store) (names_pieces q name ++ opt_path path) (follow ATOMIC)
    (S_ref (column_of q name) path) (eq (column_of q name)).
Proof using Hmode.
  intros Hq Hne Hp. inversion Hne as [|? ? Hname Hne']; subst.
  assert (Hfull : match path with Some p => path_is_empty p = false | None => True end)
    by (destruct path; [by apply path_ok_full|done]).
  assert (Hend : forall nx, follow ATOMIC nx -> no_type DOT (nxt (opt_path path) nx) /\
    no_type LPAREN (nxt (opt_path path) nx)).
  { intros nx Hnx. destruct path; [done|].
    split; (eapply follow_no_type; [|exact Hnx]; by apply (bool_decide_unpack _)). }
  destruct q as [|a [|b [|? ?]]]; try (simpl in Hq; lia); unfold names_pieces, column_of; cbn [flat_map app].
  - eapply (name_column C [_] _ (no_type DOT)); [apply schema_ident_one|done|exact Hend|exact Hfull|].
    by apply (column_ident_end name []).
  - inversion Hne' as [|? ? Ha _]; subst. rewrite <- (app_nil_l (opt_path path)).
    eapply (name_column C [_; _; _] _ anything);
      [apply schema_ident_two|done|intros nx Hnx; split; [done|by apply Hend]|exact Hfull|].
    pose proof (column_ident_end name a path Hname Hp) as H. by destruct a.
  - inversion Hne' as [|? ? Ha Hb]; subst. inversion Hb as [|? ? Hbn _]; subst.
    eapply (name_column C [_; _; _] (sym "." :: (QWORD, name) :: opt_path path) anything);
      [apply schema_ident_two|done|done|exact Hfull|]. by apply column_ident_dot.
Qed.
End names.

Lemma eats_read_any {X B} C (g : EState -> X) (f : X -> eparser B) ks F b D :
  (forall x, eats C (f x) ks F b D) -> eats C (read g ≫= f) ks F b D.
Proof. intros Hf inp log acc toks rest c Hc Ht Hr. rewrite method_read. by apply Hf. Qed.

Lemma atomic_name p o C D n ks F x prc : stores prc ->
  eats C (parse_name p o T_store) ((QWORD, n) :: ks) F x D ->
  eats C (parse_atomic p o prc) ((QWORD, n) :: ks) F x D.
Proof.
  intros Hp H. apply atomic_plain; [done..|]. unfold parse_literal. apply eats_assoc, eats_peek. intros t H1 H2.
  apply eats_assoc. eapply eats_idle; [apply idle_pure|]. rewrite (kw_tok _ _ H1 H2), H1.
  eapply eats_idle; [by intros s|]. exact H.
Qed.

(** ** Lists *)

Lemma separated_cons x l : separated (x :: l) = x ++ match l with [] => [] | _ => sym "," :: separated l end.
Proof. destruct l; [by rewrite app_nil_r|done]. Qed.

Lemma separated_length l : (length l <= S (length (separated l)))%nat.
Proof.
  induction l as [|x l IH]; [simpl; lia|]. rewrite separated_cons, length_app.
  destruct l; simpl in *; lia.
Qed.

Lemma separated_in x l : x ∈ l -> (length x <= length (separated l))%nat.
Proof.
  induction l as [|y l IH]; intros Hx; [by apply elem_of_nil in Hx|]. rewrite separated_cons, length_app.
  apply elem_of_cons in Hx as [->|Hx]; [lia|]. specialize (IH Hx). destruct l; [by apply elem_of_nil in Hx|].
  simpl in *. lia.
Qed.

(** What follows an element of a list that [F] follows. *)
Definition or_comma (F : option piece -> Prop) (nx : option piece) : Prop := F nx \/ nx = Some (sym ",").

Lemma list_reads {X A} C (el : eparser (option A)) (pc : X -> list piece) (val : X -> A) F l :
  l <> [] -> Forall (fun x => eats C el (pc x) (or_comma F) (Some (val x)) C) l ->
  (forall nx, F nx -> no_type COMMA nx) ->
  eats C (list_parse el) (separated (pc <$> l)) F (Some (val <$> l)) C.
Proof.
  intros Hne Hl HF. unfold list_parse. apply eats_turns. intros n Hn.
  pose proof (separated_length (pc <$> l)) as Hlen. rewrite length_fmap in Hlen.
  assert (Hn' : (length l <= n)%nat) by lia. clear Hn Hlen. generalize true. revert n Hn' Hne.
  induction Hl as [|x l Hx Hl IH]; intros [|n] Hn Hne first; try done; [simpl in Hn; lia|].
  cbn [list_loop]. rewrite fmap_cons, separated_cons. destruct l as [|y l].
  - eapply (eats_bind C C C); [exact Hx| |by left]. eapply eats_no; [apply sees_type|exact HF|]. apply eats_ret.
  - eapply (eats_bind C C C); [exact Hx| |by right]. rewrite fmap_cons. eapply eats_yes; [apply sees_type|done|].
    intros t _ _. rewrite <- fmap_cons.
    eapply eats_bind_nil; [apply IH; [simpl in *; lia|done]|apply eats_ret|done].
Qed.

(** ** Function calls *)

Lemma special_args_none p o aprc :
  eats harmless (parse_special_args p o aprc) [] closing [] harmless.
Proof.
  intros inp log acc toks rest c Hc Ht Hr. exists c. split; [done|]. destruct toks; [|done]. cbn [app].
  unfold parse_special_args. rewrite method_read. unfold func_name. cbn [es m_col_ref].
  destruct (bool_decide_reflect (schema (m_table_ref c) <> None)) as [|Hs]; [done|].
  assert (Hpos : not_position (t_name (m_table_ref c))).
  { apply Hc. unfold schema in Hs. case_decide; [done|]. by destruct Hs. }
  assert (Hkw : forall k, k <> K_NONE -> next_is_kw k (es inp rest log acc c) = false).
  { intros k Hk. rewrite (sees_kw k), Hr. apply bool_decide_false. exact Hk. }
  destruct (kw_equal (t_name (m_table_ref c)) (wlit "char")).
  - rewrite method_read, Hkw by done. done.
  - rewrite method_read, Hkw by done. rewrite andb_false_r. unfold not_position in Hpos. by rewrite Hpos.
Qed.

Section calls.
Context (p : parser_obj -> Start -> target -> eparser stored) (o : parser_obj).
Context {X : Type} (pc : X -> list piece) (val : bool -> X -> stored).

Definition arg_reads (x : X) : Prop := forall blobs,
  eats harmless (p (mk_obj (m_parser_mode o) blobs) FULL T_store) (pc x) (or_comma closing) (val blobs x) harmless.

Lemma harmless_none : harmless no_column.
Proof using. done. Qed.

Lemma argslist_reads C blobs l : l <> [] -> Forall arg_reads l ->
  eats C (parse_argslist p o T_store blobs) (separated (pc <$> l)) closing (val blobs <$> l) C.
Proof using.
  intros Hne Hl. unfold parse_argslist, report_if. apply eats_assoc.
  eapply eats_bind_nil; [apply (list_reads C _ pc (val blobs) closing); [done| |by intros nx ->]| |done].
  - eapply Forall_impl; [exact Hl|]. intros x Hx. idle. change (do_parse p ?o T_store) with (p o FULL T_store).
    eapply eats_bind_nil; [|apply eats_ret|done]. eapply eats_fresh, eats_weaken; [apply (Hx blobs)|..]; try done.
    intros c <-. done.
  - eapply eats_idle; [by intros s|]. apply eats_ret.
Qed.

(** The argument starts with no token that ends the list or has a meaning there. *)
Definition starts (t : Token) : bool :=
  negb (bool_decide (tok_type t ∈ [TILDE; RPAREN; RSQBRACKET; RCURLY; COMMA])) &&
  negb (bool_decide (Keyword_get t ∈ [K_BOTH; K_LEADING; K_TRAILING])).

Lemma function_call_reads f s l F :
  (s = [] -> not_position f) -> Forall arg_reads l -> Forall (fun x => begins starts (pc x)) l ->
  match l with [] => True | x :: _ =>
    eats harmless (p o FULL T_store) (pc x) (or_comma closing) (val (m_strings_as_blobs o) x) harmless end ->
  eats (eq (table_col f s)) (parse_function_call p o T_store) (parens (separated (pc <$> l))) F
    (Some (S_call (mk_Table_ref f s)
      match l with [] => [] | x :: l' => val (m_strings_as_blobs o) x :: (val false <$> l') end)) harmless.
Proof using.
  intros Hf Hl Hb Hx. unfold parse_function_call, parens. eapply eats_yes; [apply sees_type|done|]. intros t _ _.
  apply (eats_read_col _ m_table_ref). cbv beta zeta. cbn [table_col m_table_ref t_name].
  assert (Hpos : negb (bool_decide (schema (mk_Table_ref f s) <> None)) && kw_equal f (wlit "position") = false).
  { unfold schema. cbn [t_schema]. case_decide as Hs; [by rewrite (Hf Hs), andb_false_r|done]. }
  rewrite Hpos. do 2 idle.
  assert (Hh : forall c, table_col f s = c -> harmless c) by (intros c <- Hs; apply Hf, Hs).
  destruct l as [|x l].
  - eapply (eats_read _ _ _ true); [apply sees_type|by intros nx _|]. cbv iota. idle. idle.
    eapply eats_throw; [apply sees_type|done|]. intros t' _ _.
    eapply eats_weaken; [apply (eats_ret harmless _ anything)|done..].
  - inversion Hl as [|? ? _ Hl']; subst. inversion Hb as [|? ? Hbx _]; subst.
    assert (Hst : forall q nx, begins starts (pc x ++ q) -> on_next starts (nxt (pc x ++ q) nx) = true)
      by (intros q nx; by destruct (pc x ++ q)).
    assert (Hbq : forall q, begins starts (pc x ++ q)) by (intros q; by destruct (pc x)).
    rewrite fmap_cons, separated_cons, <- app_assoc.
    set (tail := match pc <$> l with [] => [] | _ => sym "," :: separated (pc <$> l) end).
    eapply (eats_read _ _ _ false); [apply sees_type| |].
    { intros nx _. specialize (Hst (tail ++ [sym ")"]) nx (Hbq _)). destruct (nxt _ nx) as [k|]; [|done]. simpl in *.
      unfold starts in Hst. rewrite andb_true_iff, negb_true_iff in Hst. destruct Hst as [Hst%bool_decide_eq_false _].
      apply bool_decide_false. set_solver. }
    cbv iota. apply eats_assoc. eapply (eats_read _ _ _ false); [apply sees_kws| |].
    { intros nx _. specialize (Hst (tail ++ [sym ")"]) nx (Hbq _)). destruct (nxt _ nx) as [k|]; [|done]. simpl in *.
      unfold starts in Hst. rewrite andb_true_iff, !negb_true_iff in Hst. destruct Hst as [_ Hst%bool_decide_eq_false].
      by apply bool_decide_false. }
    rewrite andb_false_r. apply eats_assoc. idle. apply eats_assoc.
    eapply eats_bind; [eapply eats_weaken; [exact Hx|exact Hh|done|done]| |].
    2: { intros nx _. unfold tail. destruct l; [by left|by right]. }
    apply eats_assoc. unfold tail. destruct l as [|y l].
    + cbn [app fmap list_fmap]. eapply eats_no; [apply sees_type|by intros nx _|]. apply eats_assoc.
      eapply (eats_bind _ harmless _ _ _ [] [sym ")"]); [apply special_args_none| |done].
      eapply eats_idle; [by intros s0|]. idle. eapply eats_throw; [apply sees_type|done|]. intros t' _ _. apply eats_ret.
    + rewrite fmap_cons. cbn [app]. eapply eats_yes; [apply sees_type|done|]. intros t' _ _. apply eats_assoc.
      rewrite <- fmap_cons. eapply eats_bind; [by apply (argslist_reads harmless false)| |done].
      eapply eats_idle; [by intros s0|]. idle. eapply eats_throw; [apply sees_type|done|]. intros t'' _ _. apply eats_ret.
Qed.
End calls.

(** ** CAST *)

Lemma dimension_one C n : eats C (cast_data_type_dimension false) [sym "("; (INTEGER, dec_text n); sym ")"] anything
  (wlit "(" ++ dec_text n ++ wlit ")") C.
Proof.
  unfold cast_data_type_dimension. eapply eats_throw; [apply sees_type|done|]. intros t _ _.
  eapply eats_throw; [apply sees_type|done|]. intros t' _ E. eapply eats_idle; [by intros s|].
  eapply eats_idle; [by intros s|]. eapply eats_throw; [apply sees_type|done|]. intros t'' _ _. rewrite E. apply eats_ret.
Qed.

Lemma dimension_decimal C n second :
  eats C (cast_data_type_dimension true)
    (sym "(" :: (INTEGER, dec_text n) :: match second with Some m => [sym ","; (INTEGER, dec_text m); sym ")"] | None => [sym ")"] end)
    anything (wlit "(" ++ dec_text n ++ match second with Some m => wlit "," ++ dec_text m | None => [] end ++ wlit ")") C.
Proof.
  unfold cast_data_type_dimension. eapply eats_throw; [apply sees_type|done|]. intros t _ _.
  eapply eats_throw; [apply sees_type|done|]. intros t' _ E. destruct second as [m|].
  - eapply eats_yes; [apply sees_type|done|]. intros t2 _ _. apply eats_assoc.
    eapply eats_throw; [apply sees_type|done|]. intros t3 _ E3. eapply eats_idle; [by intros s|].
    eapply eats_throw; [apply sees_type|done|]. intros t'' _ _. rewrite E, E3. apply eats_ret.
  - eapply eats_no; [apply sees_type|by intros nx _|]. eapply eats_idle; [by intros s|].
    eapply eats_throw; [apply sees_type|done|]. intros t'' _ _. rewrite E. apply eats_ret.
Qed.

Lemma keyword_peek {B} C (f : option Token -> eparser B) k ks F b D : k <> K_NONE ->
  Keyword_get (tk (keyword_piece k)) = k ->
  (forall t, Keyword_get t = k -> eats C (f (Some t)) ks F b D) ->
  eats C (econsume ≫= f) (keyword_piece k :: ks) F b D.
Proof. intros _ Hk Hf. apply eats_econsume. intros t H1 H2. apply Hf. by rewrite (kw_tok _ _ H1 H2). Qed.

Lemma cast_type_reads C ty : cast_ok ty -> eats C parse_cast_type (cast_pieces ty) closing (cast_name ty) C.
Proof.
  intros Hty. unfold parse_cast_type. destruct ty as [k|k int|k n|n m]; cbn [cast_ok cast_pieces cast_name] in *.
  - set_unfold in Hty. destruct_or?; subst; (apply keyword_peek; [done|done|]; intros t ->; cbn [Keyword_name];
      eapply eats_idle; [apply idle_pure|]; first [apply eats_ret
      | eapply (eats_read _ _ _ false); [apply sees_type|by intros nx ->|]; apply eats_ret]).
  - set_unfold in Hty. destruct_or?; subst; (apply keyword_peek; [done|done|]; intros t ->;
      eapply eats_idle; [apply idle_pure|]; destruct int;
      [eapply eats_yes; [apply sees_kws|done|]; intros t' _ _
      |eapply eats_no; [apply sees_kws|by intros nx ->|]];
      (eapply eats_idle; [apply idle_pure|]); apply eats_ret).
  - destruct Hty as [Hk _]. set_unfold in Hk. destruct_or?; subst; (apply keyword_peek; [done|done|]; intros t ->;
      eapply eats_idle; [apply idle_pure|]; eapply (eats_read _ _ _ true); [apply sees_type|by intros nx _|]; cbv iota).
    1,2: eapply eats_bind_nil; [apply dimension_one|apply eats_ret|done].
    eapply eats_bind_nil; [apply (dimension_decimal C n None)|apply eats_ret|done].
  - apply keyword_peek; [done|done|]; intros t ->. eapply eats_idle; [apply idle_pure|].
    eapply (eats_read _ _ _ true); [apply sees_type|by intros nx _|]. cbv iota.
    eapply eats_bind_nil; [apply (dimension_decimal C n (Some m))| |done].
    eapply eats_end; [done|done|]. by intros s.
Qed.

(** ** Operators *)

Section operators.
Context (p : parser_obj -> Start -> target -> eparser stored) (o : parser_obj).

Lemma atomic_cast C D ks ty F e prc : stores prc -> cast_ok ty ->
  eats C (p o FULL T_store) ks (fun nx => nx = Some (sym "as")) e D ->
  eats C (parse_atomic p o prc) (sym "cast" :: parens (ks ++ sym "as" :: cast_pieces ty)) F
    (S_op (Op_name O_CAST) [e; S_octets (cast_name ty)]) D.
Proof using.
  intros Hp Hty H. unfold parse_atomic. apply eats_peek. intros t H1 H2. rewrite H1. cbn [sym].
  change (tok_type t) with WORD. replace (store_if prc) with T_store by by destruct Hp as [-> | ->]. idle.
  eapply eats_no; [apply sees_type|by intros nx _|]. eapply eats_no; [apply sees_op|by intros nx _|].
  unfold parse_cast. apply eats_assoc. eapply eats_yes; [apply sees_op|done|]. intros t1 _ _. apply eats_assoc. idle.
  unfold parens. apply eats_assoc. eapply eats_throw; [apply sees_type|done|]. intros t2 _ _.
  apply eats_assoc. idle. apply eats_assoc. idle. apply eats_assoc. rewrite <- app_assoc.
  eapply eats_bind; [exact H| |done]. apply eats_assoc. cbn [app].
  eapply eats_throw; [apply sees_kw|done|]. intros t3 _ _. do 3 (apply eats_assoc; idle). apply eats_assoc.
  eapply eats_bind; [by apply cast_type_reads| |done]. do 2 (apply eats_assoc; idle). apply eats_assoc.
  eapply eats_throw; [apply sees_type|done|]. intros t4 _ _. eapply eats_idle; [by intros s|]. apply eats_ret.
Qed.

Lemma operand_reads C D ks F e name :
  eats C (p o ATOMIC T_store) ks F e D -> eats C (parse_operand p o name T_store) ks F (S_op name [e]) D.
Proof using.
  intros H. unfold parse_operand. do 2 idle. eapply eats_bind_nil; [exact H| |done]. idle. apply eats_ret.
Qed.

Lemma atomic_unary C D u k ks F e prc : stores prc ->
  (u, k) ∈ [(O_NEG, sym "!"); (O_NOT, sym "not"); (O_PLUS, sym "+"); (O_MINUS, sym "-")] ->
  begins (fun t => bool_decide (tok_type t = LPAREN)) ks ->
  eats C (p o ATOMIC T_store) ks F e D ->
  eats C (parse_atomic p o prc) (k :: ks) F (S_op (Op_name u) [e]) D.
Proof using.
  intros Hp Hu Hks H.
  assert (Hn : forall nx, on_next (fun t => bool_decide (tok_type t ∈ [NUMBER; INTEGER])) (nxt ks nx) = false).
  { intros nx. eapply begins_next; [exact Hks|]. intros t Ht%bool_decide_eq_true. apply bool_decide_false. rewrite Ht. by apply (bool_decide_unpack _). }
  apply (operand_reads _ _ _ _ _ (Op_name u)) in H.
  set_unfold in Hu. destruct_or?; simplify_eq; (apply atomic_scalar; [done|done|]; unfold parse_unary;
    apply eats_assoc, eats_peek; intros t H1 H2; apply eats_assoc; eapply eats_idle; [apply idle_pure|];
    rewrite (unary_tok _ _ H1 H2)).
  1,2: match goal with |- context [get_unary ?x] => change (get_unary x) with O_NEG || change (get_unary x) with O_NOT end;
    apply eats_assoc, eats_econsume; intros t' _ _; apply eats_assoc; idle;
    (eapply eats_idle; [by intros s|]); exact H.
  all: match goal with |- context [get_unary ?x] => change (get_unary x) with O_PLUS || change (get_unary x) with O_MINUS end;
    apply eats_assoc, eats_econsume; intros t' _ _; apply eats_assoc;
    (eapply (eats_read _ _ _ false); [apply sees_types|by intros nx _|]); apply eats_assoc; idle;
    (eapply eats_idle; [by intros s|]); exact H.
Qed.

Lemma bit_unary C D ks F e prc : stores prc ->
  eats C (p o ATOMIC T_store) ks F e D ->
  eats C (parse_bit p o prc) (sym "~" :: ks) F (S_op (Op_name O_BITNEG) [e]) D.
Proof using.
  intros Hp H. unfold parse_bit. eapply eats_yes; [apply sees_op|done|]. intros t _ _.
  replace (store_if prc) with T_store by by destruct Hp as [-> | ->]. do 2 idle. by apply operand_reads.
Qed.

(** The operators of the level [ILRI], after its first operand. *)
Lemma ilri_reads C D E neg op k main ks1 ks2 F F1 e1 l prc : stores prc ->
  (op, k) ∈ [(O_LIKE, sym "like"); (O_RLIKE, sym "rlike"); (O_REGEXP, sym "regexp");
             (O_BETWEEN, sym "between"); (O_IN, sym "in")] ->
  (forall paren, op <> O_IN -> ilri_op op neg paren = main) ->
  (op = O_IN -> ilri_op op neg true = main /\ begins (fun t => bool_decide (tok_type t = LPAREN)) ks2) ->
  (forall nx, nx = Some (sym "not") \/ nx = Some k -> F1 nx) ->
  eats C (p o COMP T_null) ks1 F1 e1 D -> eats D (parse_ilri_args p o main T_store) ks2 F l E ->
  eats C (parse_ilri p o prc) (ks1 ++ not_pieces neg ++ k :: ks2) F (S_op (Op_name main) (e1 :: l)) E.
Proof using.
  intros Hp Hop Hm1 Hm2 HF H1 H2. unfold parse_ilri. eapply eats_bind; [exact H1| |].
  2: { intros nx _. apply HF. destruct neg; [by left|by right]. }
  assert (Hrest : forall n : option Token, bool_decide (n <> None) = neg ->
    eats D (t ← consume_ops [O_IS; O_IN; O_LIKE; O_RLIKE; O_BETWEEN; O_REGEXP; O_SOUNDS_LIKE];
      match t with
      | None =>
          if bool_decide (n <> None) then eparse_error (wlit "Expected IN, (R)LIKE, BETWEEN or REGEXP after NOT")
          else replay_if e1 prc;; mret e1
      | Some t =>
          if bool_decide (n <> None) && op_is O_IS t
          then eparse_error (wlit "Operator NOT before IS, should be IS NOT") else
          n' ← (if op_is O_IS t then consume_op O_NOT else mret None);
          let neg := bool_decide (n <> None) || bool_decide (n' <> None) in
          like ← read (next_is_kw K_LIKE);
          if bool_decide (get_binary t = O_SOUNDS_LIKE) && like
          then eunsupported (wlit "Operator SOUNDS LIKE") else
          paren ← read (next_is_type LPAREN);
          let main := ilri_op (get_binary t) neg paren in
          sprc ← eask (store_if prc) c_scalar;
          aprc ← eask sprc (c_base (x_op (Op_name main)));
          etell aprc c_list_begin;;
          e ← eask aprc c_list_el; replay_if e1 e;;
          l ← parse_ilri_args p o main aprc;
          etell aprc c_list_end;;
          mret (S_op (Op_name main) (e1 :: l))
      end) (k :: ks2) F (S_op (Op_name main) (e1 :: l)) E).
  { intros n Hn. rewrite Hn. eapply eats_yes; [apply sees_ops| |].
    { set_unfold in Hop. by destruct_or?; simplify_eq. }
    intros t T1 T2. rewrite (binary_tok _ _ T1 T2).
    assert (Hb : get_binary (tk k) = op) by (set_unfold in Hop; by destruct_or?; simplify_eq).
    assert (His : op_is O_IS t = false).
    { change (bool_decide (O_IS = get_binary t) = false). rewrite (binary_tok _ _ T1 T2), Hb.
      apply bool_decide_false. intros <-. set_unfold in Hop. by destruct_or?. }
    rewrite His, andb_false_r, Hb. eapply eats_idle; [by intros s|]. cbv zeta.
    rewrite (bool_decide_false (None <> None)) by (by intros []). rewrite orb_false_r.
    apply eats_read_any. intros like. rewrite (bool_decide_false (op = O_SOUNDS_LIKE))
      by (intros ->; set_unfold in Hop; by destruct_or?). cbn [andb].
    assert (Hdone : eats D (
          sprc ← eask (store_if prc) c_scalar;
          aprc ← eask sprc (c_base (x_op (Op_name main)));
          etell aprc c_list_begin;;
          e ← eask aprc c_list_el; replay_if e1 e;;
          l ← parse_ilri_args p o main aprc;
          etell aprc c_list_end;;
          mret (S_op (Op_name main) (e1 :: l))) ks2 F (S_op (Op_name main) (e1 :: l)) E).
    { replace (store_if prc) with T_store by by destruct Hp as [-> | ->]. do 5 idle.
      eapply eats_bind_nil; [exact H2| |done]. idle. apply eats_ret. }
    destruct (decide (op = O_IN)) as [Hin|Hin].
    - destruct (Hm2 Hin) as [Hm Hb2]. eapply (eats_read _ _ _ true); [apply sees_type| |].
      { intros nx _. destruct ks2; [done|]. exact Hb2. }
      rewrite Hm. exact Hdone.
    - apply eats_read_any. intros paren. rewrite Hm1 by done. exact Hdone. }
  destruct neg; cbn [not_pieces app].
  - eapply eats_yes; [apply sees_op|done|]. intros t _ _. by apply (Hrest (Some t)).
  - eapply eats_no; [apply sees_op| |by apply (Hrest None)].
    intros nx _. set_unfold in Hop. by destruct_or?; simplify_eq.
Qed.
End operators.

Lemma is_reads p o C D neg null ks1 F F1 e1 prc : stores prc ->
  eats C (p o COMP T_null) ks1 F1 e1 D -> F1 (Some (sym "is")) ->
  eats C (parse_ilri p o prc) (ks1 ++ sym "is" :: not_pieces neg ++ [if null : bool then sym "null" else sym "true"]) F
    (S_op (Op_name (not_op neg O_IS)) [e1; if null : bool then S_null else S_bool true]) D.
Proof.
  intros Hp H1 HF. unfold parse_ilri. eapply eats_bind; [exact H1| |by intros nx _].
  eapply eats_no; [apply sees_op|by intros nx _|].
  eapply eats_yes; [apply sees_ops|done|]. intros t T1 T2.
  assert (His : op_is O_IS t = true).
  { change (bool_decide (O_IS = get_binary t) = true). by rewrite (binary_tok _ _ T1 T2). }
  cbv zeta. rewrite His, (binary_tok _ _ T1 T2). change (get_binary (tk (sym "is"))) with O_IS.
  rewrite (bool_decide_false (None <> None)) by (by intros []). cbn [andb orb].
  assert (Hrest : forall n : option Token, bool_decide (n <> None) = neg ->
    eats D (like ← read (next_is_kw K_LIKE);
      if bool_decide (O_IS = O_SOUNDS_LIKE) && like then eunsupported (wlit "Operator SOUNDS LIKE") else
      paren ← read (next_is_type LPAREN);
      sprc ← eask (store_if prc) c_scalar;
      aprc ← eask sprc (c_base (x_op (Op_name (ilri_op O_IS (bool_decide (n <> None)) paren))));
      etell aprc c_list_begin;;
      e ← eask aprc c_list_el; replay_if e1 e;;
      l ← parse_ilri_args p o (ilri_op O_IS (bool_decide (n <> None)) paren) aprc;
      etell aprc c_list_end;;
      mret (S_op (Op_name (ilri_op O_IS (bool_decide (n <> None)) paren)) (e1 :: l)))
    [if null then sym "null" else sym "true"] F
    (S_op (Op_name (not_op neg O_IS)) [e1; if null then S_null else S_bool true]) D).
  { intros n ->. apply eats_read_any. intros like. change (bool_decide (O_IS = O_SOUNDS_LIKE)) with false. cbn [andb].
    apply eats_read_any. intros paren.
    replace (store_if prc) with T_store by by destruct Hp as [-> | ->]. do 5 idle.
    set (x := if null then S_null else S_bool true).
    assert (Hv : eats D (parse_is_value T_store) [if null then sym "null" else sym "true"] F x D).
    { unfold parse_is_value. subst x. apply eats_econsume. intros t' V1 V2. rewrite (kw_tok _ _ V1 V2).
      destruct null; do 2 idle; (eapply eats_idle; [by intros s; destruct s|]); apply eats_ret. }
    destruct neg; cbn [ilri_op parse_ilri_args not_op];
      (eapply eats_bind_nil; [eapply eats_bind_nil; [exact Hv|apply eats_ret|done]| |done]; idle; apply eats_ret). }
  destruct neg; cbn [not_pieces app].
  - eapply eats_yes; [apply sees_op|done|]. intros t' _ _. by apply (Hrest (Some t')).
  - eapply eats_no; [apply sees_op|by intros nx _; destruct null|by apply (Hrest None)].
Qed.

(** ** Arrays and documents *)

Section values.
Context {X : Type} (pc : X -> list piece) (val : X -> stored) (any : target -> eparser (option stored)).

Definition any_reads (F : option piece -> Prop) (x : X) : Prop :=
  eats harmless (any T_store) (pc x) F (Some (val x)) harmless.

Lemma stored_arr_reads F l :
  Forall (any_reads (or_comma (fun nx => nx = Some (sym "]")))) l -> Forall (fun x => begins starts (pc x)) l ->
  eats harmless (arr_parse any T_store) (sym "[" :: separated (pc <$> l) ++ [sym "]"]) F (Some (val <$> l)) harmless.
Proof using.
  intros Hl Hb. unfold arr_parse. eapply eats_yes; [apply sees_type|done|]. intros t _ _. idle.
  assert (Hend : eats harmless (c ← consume_type RSQBRACKET;
      match c with
      | None => eparse_error (wlit "Expected ']' to close array")
      | Some _ => etell T_store c_list_end;; mret (Some (val <$> l))
      end) [sym "]"] F (Some (val <$> l)) harmless).
  { eapply eats_yes; [apply sees_type|done|]. intros t' _ _. idle. apply eats_ret. }
  destruct l as [|x l].
  - eapply (eats_read _ _ _ true); [apply sees_type|by intros nx _|]. cbv iota.
    eapply eats_idle; [by intros s|]. exact Hend.
  - eapply (eats_read _ _ _ false); [apply sees_type| |].
    { intros nx _. inversion Hb as [|? ? Hx _]; subst. rewrite fmap_cons, separated_cons, <- app_assoc.
      destruct (pc x) as [|k ks]; [done|]. cbn [app nxt on_next]. simpl in Hx. unfold starts in Hx.
      rewrite andb_true_iff, negb_true_iff in Hx. destruct Hx as [Hx%bool_decide_eq_false _].
      apply bool_decide_false. set_solver. }
    cbv iota. apply eats_assoc. unfold report_if at 1. apply eats_assoc.
    eapply (eats_bind _ harmless); [eapply (list_reads harmless _ pc val (fun nx => nx = Some (sym "]"))); [done| |by intros nx ->]| |done].
    + eapply Forall_impl; [exact Hl|]. intros y Hy. idle. unfold report_if.
      eapply eats_bind_nil; [exact Hy|apply eats_ret|done].
    + eapply eats_idle; [by intros s|]. eapply eats_idle; [by intros s|]. exact Hend.
Qed.

Lemma kv_reads F k x : any_reads F x ->
  eats harmless (kv_parse any T_store) ((QQSTRING, k) :: sym ":" :: pc x) F (Some (k, val x)) harmless.
Proof using.
  intros Hx. unfold kv_parse. eapply (eats_read _ _ _ true); [apply sees_types|by intros nx _|]. cbn [negb].
  apply eats_econsume. intros t _ E. idle. rewrite E. eapply eats_yes; [apply sees_type|done|]. intros t' _ _. idle.
  unfold report_if. apply eats_assoc. eapply eats_bind_nil; [exact Hx| |done].
  eapply eats_idle; [by intros s|]. apply eats_ret.
Qed.

Definition member_pieces (x : wstr * X) : list piece := (QQSTRING, x.1) :: sym ":" :: pc x.2.

Lemma stored_doc_reads F l :
  Forall (fun x => any_reads (or_comma (fun nx => nx = Some (sym "}"))) x.2) l ->
  eats harmless (doc_parse any T_store) (sym "{" :: separated (member_pieces <$> l) ++ [sym "}"]) F
    (Some (keyval_map ((fun x => (x.1, val x.2)) <$> l))) harmless.
Proof using.
  intros Hl. unfold doc_parse. eapply eats_yes; [apply sees_type|done|]. intros t _ _. idle.
  set (m := keyval_map _).
  assert (Hend : eats harmless (c ← consume_type RCURLY;
      match c with
      | None => eparse_error (wlit "Expected '}' closing a document")
      | Some _ => etell T_store c_doc_end;; mret (Some m)
      end) [sym "}"] F (Some m) harmless).
  { eapply eats_yes; [apply sees_type|done|]. intros t' _ _. idle. apply eats_ret. }
  destruct l as [|x l].
  - eapply (eats_read _ _ _ true); [apply sees_type|by intros nx _|]. cbv iota.
    eapply eats_idle; [by intros s|]. exact Hend.
  - eapply (eats_read _ _ _ false); [apply sees_type|by intros nx _; destruct l|].
    cbv iota. apply eats_assoc.
    eapply (eats_bind _ harmless); [eapply (list_reads harmless _ member_pieces (fun x => (x.1, val x.2)) (fun nx => nx = Some (sym "}"))); [done| |by intros nx ->]| |done].
    + eapply Forall_impl; [exact Hl|]. intros y Hy. unfold report_if.
      eapply eats_bind_nil; [exact (kv_reads _ _ _ Hy)|apply eats_ret|done].
    + eapply eats_idle; [by intros s|]. exact Hend.
Qed.
End values.

(** ** Expressions *)

Lemma parens_reads o ks F e : reads_at o FULL ks closing e -> reads_at o ATOMIC (parens ks) F e.
Proof.
  intros H [|n] prc Hp Hn; [lia|]. cbn [parse parse_step]. apply atomic_parens. apply H; [done|].
  unfold parens in Hn. simpl in *. rewrite length_app in Hn. simpl in Hn. lia.
Qed.

Lemma closing_follow st nx : closing nx -> follow st nx.
Proof. intros ->. apply (follow_mono OR); [destruct st; simpl; lia|by vm_compute]. Qed.

Lemma ilri_full o ks e : begins no_tilde ks -> reads_at o ILRI ks closing e -> reads_at o FULL ks closing e.
Proof.
  intros Hks H. apply (climb o ks _ e ILRI (fun _ => Hks) ltac:(simpl; lia) H 2); [done|]. apply closing_follow.
Qed.

Definition binary_ok (x : op * piece * Start) : bool :=
  let '(b, k, st) := x in
  bool_decide (st ∈ levels) && bool_decide (st <> ILRI) && bool_decide (b ∈ ops_of st) && bool_decide (get_binary (tk k) = b) &&
  follow_tok (lower st) (tk k) && bool_decide (bin_piece b = k).

Lemma binary_ops_ok b k st : (b, k, st) ∈ binary_ops ->
  (st ∈ levels /\ st <> ILRI) /\ b ∈ ops_of st /\ get_binary (tk k) = b /\ follow (lower st) (Some k) /\ bin_piece b = k.
Proof.
  intros H. assert (Hall : forallb binary_ok binary_ops = true) by by vm_compute.
  rewrite forallb_forall in Hall. apply list_elem_of_In, Hall in H. unfold binary_ok in H.
  rewrite !andb_true_iff, !bool_decide_eq_true in H. unfold follow. tauto.
Qed.

Lemma binary_reads o b k st ks1 ks2 e1 e2 : (b, k, st) ∈ binary_ops -> begins no_tilde ks1 ->
  reads_at o (lower st) ks1 (follow (lower st)) e1 -> reads_at o st ks2 closing e2 ->
  reads_at o FULL (ks1 ++ k :: ks2) closing (S_op (Op_name b) [e1; e2]).
Proof.
  intros Hb Hks H1 H2. destruct (binary_ops_ok _ _ _ Hb) as ([Hst Hil] & Hops & Hget & Hf & _).
  assert (Hr : reads_at o st (ks1 ++ k :: ks2) closing (S_op (Op_name b) [e1; e2])).
  { intros [|n] prc Hp Hn; [lia|]. rewrite length_app in Hn. simpl length in Hn.
    assert (Hlow : (rank (lower st) < rank st)%nat)
      by (destruct st; simpl; try lia; by apply (bool_decide_pack _) in Hst).
    assert (Htake : eats harmless (left_assoc_binary_op (parse n) o (ops_of st) (lower st) st prc)
      (ks1 ++ k :: ks2) closing (S_op (Op_name b) [e1; e2]) harmless).
    { eapply left_take; [done|exact Hget|exact Hops|exact Hf|apply H1; [apply stores_null|lia]|
        apply H2; [apply stores_store|lia]]. }
    cbn [parse parse_step]. destruct st; try (by apply (bool_decide_pack _) in Hst); try done; try exact Htake.
    unfold parse_bit. eapply eats_no; [apply sees_op| |exact Htake].
    intros nx _. apply (begins_next no_tilde); [by destruct ks1|]. unfold no_tilde. intros t. by destruct (op_is _ t). }
  assert (Hbeg : begins no_tilde (ks1 ++ k :: ks2)) by by destruct ks1.
  apply (climb o _ _ _ st (fun _ => Hbeg)) with (d := (9 - rank st)%nat);
    [destruct st; simpl; try lia; by apply (bool_decide_pack _) in Hst|exact Hr|
     destruct st; simpl; lia|apply closing_follow].
Qed.

Lemma first_piece e : begins (fun t => starts t && no_tilde t) (expr_pieces e).
Proof.
  destruct e as [z|z|v|[]| |w|q n path|u e|b e1 e2|neg k e1 e2|neg e lo hi|neg e l|neg e null|s f args|e ty|l|l];
    try done.
  - by destruct q.
  - by destruct s.
Qed.

Lemma first_starts e : begins starts (expr_pieces e).
Proof. pose proof (first_piece e) as H. destruct (expr_pieces e); [done|]. simpl in *. by apply andb_true_iff in H as []. Qed.

Lemma first_no_tilde e : begins no_tilde (expr_pieces e).
Proof. pose proof (first_piece e) as H. destruct (expr_pieces e); [done|]. simpl in *. by apply andb_true_iff in H as []. Qed.

(** An expression is read as an operand, and as a value of an array or a document. *)
Definition operand_read (e : expr) : Prop := forall o, m_parser_mode o = TABLE ->
  reads_at o ATOMIC (expr_pieces e) (follow ATOMIC) (tree (m_strings_as_blobs o) e).

Definition value_read (e : expr) : Prop := forall n k,
  (12 * length (expr_pieces e) + 9 < n)%nat -> (length (expr_pieces e) < k)%nat ->
  any_reads expr_pieces (tree false) (any_parse (parse n) k TABLE) (follow FULL) e.

Lemma operand_full e o st : operand_read e -> m_parser_mode o = TABLE -> (0 < rank st)%nat ->
  reads_at o st (expr_pieces e) (follow st) (tree (m_strings_as_blobs o) e).
Proof. intros H Ho Hst. apply from_atomic; [apply first_no_tilde|done|by apply H]. Qed.

Lemma value_of_operand e : operand_read e ->
  begins (fun t => negb (bool_decide (tok_type t ∈ [LCURLY; LSQBRACKET]))) (expr_pieces e) -> value_read e.
Proof.
  intros H Hb n [|k] Hn Hk; [lia|]. unfold any_reads. cbn [any_parse].
  assert (Hno : forall ty nx, ty ∈ [LCURLY; LSQBRACKET] -> no_type ty (nxt (expr_pieces e) nx)).
  { intros ty nx Hty. eapply begins_next; [exact Hb|]. intros t Ht%negb_true_iff%bool_decide_eq_false.
    apply bool_decide_false. congruence. }
  eapply (eats_read _ _ _ false); [apply sees_type|intros nx _; apply Hno; set_solver|].
  eapply (eats_read _ _ _ false); [apply sees_type|intros nx _; apply Hno; set_solver|]. cbv iota.
  eapply eats_bind_nil; [|apply eats_ret|done]. apply eats_fresh with (D := harmless).
  eapply eats_weaken; [apply (operand_full e (mk_obj TABLE false) FULL H eq_refl); [simpl; lia|apply stores_store|]|..];
    try done. intros c <-. done.
Qed.

Lemma harmless_column q name : match q with [tbl] => not_position tbl | _ => True end -> Forall (fun n => n <> []) q ->
  (length q <= 2)%nat -> forall c, column_of q name = c -> harmless c.
Proof.
  intros Hq Hne Hlen c <-. destruct q as [|a [|b [|? ?]]]; unfold harmless; cbn; try done.
  - by inversion Hne.
  - simpl in Hlen. lia.
Qed.

Lemma leaf_read e : expr_ok e ->
  match e with
  | E_uint _ | E_neg _ | E_str _ | E_bool _ | E_null | E_param _ | E_col _ _ _ => operand_read e | _ => True
  end.
Proof.
  intros Hok. destruct e; try done; intros o Ho [|n] prc Hp Hn; try (simpl in Hn; lia);
    cbn [parse parse_step expr_pieces tree expr_ok] in *.
  - apply atomic_literal; [done..|by apply literal_uint].
  - by apply atomic_neg.
  - apply atomic_literal; [done..|by apply literal_str].
  - destruct b; (apply atomic_literal; [done..|apply literal_word; set_solver]).
  - apply atomic_literal; [done..|apply literal_word; set_solver].
  - by apply atomic_param.
  - destruct Hok as (Hlen & Hne & Hq & Hpath). inversion Hne as [|? ? Hname Hne']; subst.
    pose proof (name_column_reads (parse n) o Ho harmless qualifier name path Hlen Hne Hpath) as H.
    assert (Hh := harmless_column qualifier name Hq Hne' Hlen).
    assert (Hw : eats harmless (parse_name (parse n) o T_store) (names_pieces qualifier name ++ opt_path path)
      (follow ATOMIC) (S_ref (column_of qualifier name) path) harmless)
      by (eapply eats_weaken; [exact H|done|done|exact Hh]).
    clear H. unfold opt_path in Hw. unfold names_pieces in *. destruct qualifier; cbn [flat_map app] in *;
      by apply atomic_name.
Qed.

Lemma operand_parens e o F : operand_read e -> m_parser_mode o = TABLE ->
  reads_at o ATOMIC (parens (expr_pieces e)) F (tree (m_strings_as_blobs o) e).
Proof.
  intros H Ho. apply parens_reads. eapply reads_weaken; [apply (operand_full e o FULL H Ho); simpl; lia|].
  apply closing_follow.
Qed.

Lemma unary_read u e : u ∈ fst <$> unary_ops -> operand_read e -> operand_read (E_un u e).
Proof.
  intros Hu H o Ho. cbn [expr_pieces tree]. apply parens_reads.
  pose proof (fun F => operand_parens e o F H Ho) as Hpar. destruct (decide (u = O_BITNEG)) as [->|Hne].
  - apply (climb o _ _ _ BIT) with (d := 4%nat); [simpl; lia|simpl; lia| |done|apply closing_follow].
    intros [|n] prc Hp Hn; [lia|]. cbn [parse parse_step]. apply bit_unary; [done|].
    apply Hpar; [apply stores_store|]. simpl in *. lia.
  - assert (Hop : (u, op_piece unary_ops u) ∈ [(O_NEG, sym "!"); (O_NOT, sym "not"); (O_PLUS, sym "+"); (O_MINUS, sym "-")])
      by (set_unfold in Hu; destruct_or?; subst; try done; set_solver).
    eapply reads_weaken; [apply (from_atomic o _ _ FULL); [|simpl; lia|]|apply closing_follow].
    { set_unfold in Hop. by destruct_or?; simplify_eq. }
    intros [|n] prc Hp Hn; [lia|]. cbn [parse parse_step]. apply atomic_unary with (D := harmless); [done|exact Hop|done|].
    apply Hpar; [apply stores_store|]. simpl in *. lia.
Qed.

Lemma bin_read b e1 e2 : b ∈ (fun x => x.1.1) <$> binary_ops -> operand_read e1 -> operand_read e2 ->
  operand_read (E_bin b e1 e2).
Proof.
  intros Hb H1 H2 o Ho. cbn [expr_pieces tree]. apply parens_reads.
  apply list_elem_of_fmap in Hb as ([[b' k] st] & -> & Hb). cbn [fst].
  destruct (binary_ops_ok _ _ _ Hb) as ([Hst _] & _ & _ & _ & ->).
  assert (Hpos : (0 < rank (lower st))%nat /\ (0 < rank st)%nat)
    by (destruct st; simpl; try lia; by apply (bool_decide_pack _) in Hst).
  apply (binary_reads o b' k st); [done|apply first_no_tilde|apply operand_full; [done|done|apply Hpos]|].
  eapply reads_weaken; [apply operand_full; [done|done|apply Hpos]|apply closing_follow].
Qed.

(** Operators of the level [ILRI]: the first operand, and what remains to be read. *)
Lemma ilri_read o neg op k main e1 rest l : operand_read e1 -> m_parser_mode o = TABLE ->
  (op, k) ∈ [(O_LIKE, sym "like"); (O_RLIKE, sym "rlike"); (O_REGEXP, sym "regexp");
             (O_BETWEEN, sym "between"); (O_IN, sym "in")] ->
  (forall paren, op <> O_IN -> ilri_op op neg paren = main) ->
  (op = O_IN -> ilri_op op neg true = main /\ begins (fun t => bool_decide (tok_type t = LPAREN)) rest) ->
  (forall n, (12 * length rest + rank COMP < n)%nat ->
    eats harmless (parse_ilri_args (parse n) o main T_store) rest closing l harmless) ->
  reads_at o ATOMIC (parens (expr_pieces e1 ++ not_pieces neg ++ k :: rest)) (follow ATOMIC)
    (S_op (Op_name main) (tree (m_strings_as_blobs o) e1 :: l)).
Proof.
  intros H1 Ho Hop Hm1 Hm2 Hl. apply parens_reads, ilri_full.
  { pose proof (first_no_tilde e1). by destruct (expr_pieces e1). }
  intros [|n] prc Hp Hn; [lia|]. cbn [parse parse_step]. rewrite !length_app in Hn. simpl length in Hn.
  eapply (ilri_reads _ _ _ harmless harmless neg op k main _ _ _ (follow COMP)); [done|exact Hop|exact Hm1|exact Hm2| | |].
  - set_unfold in Hop. intros nx [-> | ->]; [by vm_compute|]. by destruct_or?; simplify_eq; vm_compute.
  - apply (operand_full e1 o COMP H1 Ho); [simpl; lia|apply stores_null|]. cbn [rank] in *. lia.
  - apply Hl. cbn [rank] in *. lia.
Qed.

(** The operand after the operator. *)
Lemma comp_read o e F n : operand_read e -> m_parser_mode o = TABLE ->
  (12 * length (expr_pieces e) + rank COMP < n)%nat -> (forall nx, F nx -> follow COMP nx) ->
  eats harmless (e0 ← eask T_store c_list_el; parse n o COMP e0) (expr_pieces e) F
    (tree (m_strings_as_blobs o) e) harmless.
Proof.
  intros H Ho Hn HF. idle. eapply eats_weaken; [|done|exact HF|done].
  apply (operand_full e o COMP H Ho); [simpl; lia|apply stores_store|exact Hn].
Qed.

Lemma like_read neg k e1 e2 : k ∈ fst <$> like_ops -> operand_read e1 -> operand_read e2 ->
  operand_read (E_like neg k e1 e2).
Proof.
  intros Hk H1 H2 o Ho. cbn [expr_pieces tree]. change (k ∈ [O_LIKE; O_RLIKE; O_REGEXP]) in Hk.
  assert (Hop : (k, op_piece like_ops k) ∈ [(O_LIKE, sym "like"); (O_RLIKE, sym "rlike"); (O_REGEXP, sym "regexp");
    (O_BETWEEN, sym "between"); (O_IN, sym "in")]) by (set_unfold in Hk; destruct_or?; subst; set_solver).
  apply (ilri_read o neg k); [done|done|exact Hop| | |].
  - intros paren _. set_unfold in Hk. by destruct_or?; subst.
  - intros ->. set_unfold in Hk. by destruct_or?.
  - intros n Hn. pose proof (comp_read o e2 closing n H2 Ho Hn (closing_follow COMP)) as Hc.
    set_unfold in Hk. destruct_or?; subst; destruct neg; cbn [not_op ilri_op parse_ilri_args];
      (eapply eats_bind_nil; [exact Hc| |done]);
      first [apply eats_ret | eapply (eats_read _ _ _ false); [apply sees_kw|by intros nx ->|apply eats_ret]].
Qed.

Lemma between_read neg e lo hi : operand_read e -> operand_read lo -> operand_read hi ->
  operand_read (E_between neg e lo hi).
Proof.
  intros H1 H2 H3 o Ho. cbn [expr_pieces tree].
  apply (ilri_read o neg O_BETWEEN); [done|done|set_solver|by destruct neg|done|].
  intros n Hn. rewrite length_app in Hn. simpl length in Hn.
  pose proof (comp_read o lo (fun nx => nx = Some (sym "and")) n H2 Ho ltac:(lia)) as Hlo.
  pose proof (comp_read o hi closing n H3 Ho ltac:(lia) (closing_follow COMP)) as Hhi.
  assert (Hargs : eats harmless (
      x ← (e0 ← eask T_store c_list_el; parse n o COMP e0);
      kw_throw K_AND (wlit "Expected AND in BETWEEN ... expression");;
      y ← (e0 ← eask T_store c_list_el; parse n o COMP e0); mret [x; y])
    (expr_pieces lo ++ sym "and" :: expr_pieces hi) closing
    [tree (m_strings_as_blobs o) lo; tree (m_strings_as_blobs o) hi] harmless).
  { eapply eats_bind; [apply Hlo; intros nx ->; by vm_compute| |done].
    eapply eats_throw; [apply sees_kw|done|]. intros t _ _. eapply eats_bind_nil; [exact Hhi|apply eats_ret|done]. }
  by destruct neg.
Qed.

Lemma arg_read p e n o : operand_read e -> m_parser_mode o = TABLE -> p = parse n ->
  (12 * length (expr_pieces e) + 9 < n)%nat -> arg_reads p o expr_pieces tree e.
Proof.
  intros H Ho -> Hn blobs. eapply eats_weaken;
    [apply (operand_full e (mk_obj (m_parser_mode o) blobs) FULL H); [done|simpl; lia|apply stores_store|exact Hn]|
     done| |done].
  intros nx [Hnx| ->]; [by apply closing_follow|by vm_compute].
Qed.

Lemma args_read o n l : Forall operand_read l -> m_parser_mode o = TABLE ->
  (12 * length (separated (expr_pieces <$> l)) + 9 < n)%nat -> Forall (arg_reads (parse n) o expr_pieces tree) l.
Proof.
  intros Hl Ho Hn. apply Forall_forall. intros e He. rewrite Forall_forall in Hl. eapply arg_read; [by apply Hl|done|done|].
  assert (Hlen : (length (expr_pieces e) <= length (separated (expr_pieces <$> l)))%nat)
    by (apply separated_in; apply list_elem_of_fmap; eauto).
  lia.
Qed.

Lemma in_read neg e l : l <> [] -> operand_read e -> Forall operand_read l -> operand_read (E_in neg e l).
Proof.
  intros Hne H Hl o Ho. cbn [expr_pieces tree].
  apply (ilri_read o neg O_IN); [done|done|set_solver|done|by destruct neg|].
  intros n Hn. unfold parens in Hn. simpl length in Hn. rewrite length_app in Hn. simpl length in Hn.
  assert (Hargs : eats harmless (
      p ← consume_type LPAREN;
      match p with
      | Some _ =>
          l ← parse_argslist (parse n) o T_store true;
          type_throw RPAREN (wlit "Expected ')' to close IN(... expression");; mret l
      | None => x ← (e ← eask T_store c_list_el; parse n o COMP e); mret [x]
      end) (parens (separated (expr_pieces <$> l))) closing (tree true <$> l) harmless).
  { unfold parens. eapply eats_yes; [apply sees_type|done|]. intros t _ _.
    eapply (eats_bind _ harmless); [apply (argslist_reads (parse n) o expr_pieces tree); [done|apply args_read; [done|done|cbn [rank] in *; lia]]| |done].
    eapply eats_throw; [apply sees_type|done|]. intros t' _ _. apply eats_ret. }
  by destruct neg.
Qed.

Lemma is_read neg e null : operand_read e -> operand_read (E_is neg e null).
Proof.
  intros H o Ho. cbn [expr_pieces tree]. apply parens_reads, ilri_full.
  { pose proof (first_no_tilde e). by destruct (expr_pieces e). }
  intros [|n] prc Hp Hn; [lia|]. cbn [parse parse_step]. rewrite length_app in Hn. simpl length in Hn.
  eapply is_reads; [done|apply (operand_full e o COMP H Ho); [simpl; lia|apply stores_null|cbn [rank] in *; lia]|by vm_compute].
Qed.

Lemma cast_read e ty : cast_ok ty -> operand_read e -> operand_read (E_cast e ty).
Proof.
  intros Hty H o Ho [|n] prc Hp Hn; [lia|]. cbn [parse parse_step expr_pieces tree] in *.
  apply atomic_cast; [done|done|]. unfold parens in Hn. simpl length in Hn. rewrite !length_app in Hn.
  eapply eats_weaken; [apply (operand_full e o FULL H Ho); [simpl; lia|apply stores_store|cbn [rank] in *; lia]|done| |done].
  intros nx ->. by vm_compute.
Qed.

Lemma call_read s f args : f <> [] ->
  match s with Some sch => sch <> [] | None => not_position f end ->
  Forall operand_read args -> operand_read (E_call s f args).
Proof.
  intros Hf Hs Hl o Ho [|n] prc Hp Hn; [lia|]. cbn [parse parse_step expr_pieces tree] in *.
  assert (Hn' : (12 * length (separated (expr_pieces <$> args)) + 9 < n)%nat)
    by (unfold parens, names_pieces in Hn; rewrite !length_app in Hn; simpl length in Hn; rewrite ?length_app in Hn;
        simpl in Hn; lia).
  assert (Hargs : eats (eq (table_col f (default [] s))) (parse_function_call (parse n) o T_store)
    (parens (separated (expr_pieces <$> args))) (follow ATOMIC)
    (Some (S_call (mk_Table_ref f (default [] s))
       match args with [] => [] | x :: l => tree (m_strings_as_blobs o) x :: (tree false <$> l) end)) harmless).
  { apply (function_call_reads (parse n) o expr_pieces tree).
    - intros Hs0. by destruct s.
    - by apply args_read.
    - apply Forall_forall. intros x _. apply first_starts.
    - destruct args as [|x l]; [done|]. apply Forall_inv in Hl.
      eapply eats_weaken; [apply (operand_full x o FULL Hl Ho); [simpl; lia|apply stores_store|]|done| |done].
      + rewrite fmap_cons, separated_cons, length_app in Hn'. cbn [rank]. lia.
      + intros nx [Hnx| ->]; [by apply closing_follow|by vm_compute]. }
  destruct s as [sch|]; apply atomic_name; [done| |done|].
  - apply (name_call (parse n) o harmless harmless [(QWORD, sch); sym "."; (QWORD, f)] _ (follow ATOMIC) anything
      (QWORD, QWORD) (table_col f sch)); [apply schema_ident_two|done|exact Hargs|done].
  - apply (name_call (parse n) o harmless harmless [(QWORD, f)] _ (follow ATOMIC) (no_type DOT)
      (QWORD, WORD) (table_col f [])); [apply schema_ident_one|done|exact Hargs|done].
Qed.

Lemma elements_read {X} (pc : X -> list piece) (value : X -> expr) (l : list X) n k :
  Forall (fun x => value_read (value x)) l ->
  (forall x, (length (expr_pieces (value x)) <= length (pc x))%nat) ->
  (12 * length (separated (pc <$> l)) + 9 < n)%nat -> (length (separated (pc <$> l)) < k)%nat ->
  forall F, (forall nx, F nx -> follow FULL nx) ->
  Forall (fun x => any_reads expr_pieces (tree false) (any_parse (parse n) k TABLE) F (value x)) l.
Proof.
  intros Hl Hlen Hn Hk F HF. apply Forall_forall. intros x Hx. rewrite Forall_forall in Hl.
  assert (H1 : (length (pc x) <= length (separated (pc <$> l)))%nat)
    by (apply separated_in; apply list_elem_of_fmap; eauto).
  specialize (Hlen x). eapply eats_weaken; [apply (Hl x Hx n k); lia|done|exact HF|done].
Qed.

Lemma array_follow nx : or_comma (fun nx => nx = Some (sym "]")) nx -> follow FULL nx.
Proof. intros [-> | ->]; by vm_compute. Qed.

Lemma document_follow nx : or_comma (fun nx => nx = Some (sym "}")) nx -> follow FULL nx.
Proof. intros [-> | ->]; by vm_compute. Qed.

(** The values of an array or a document, with the fuel of both loops. *)
Lemma array_values l n k F : Forall value_read l ->
  (12 * length (separated (expr_pieces <$> l)) + 9 < n)%nat -> (length (separated (expr_pieces <$> l)) < k)%nat ->
  eats harmless (arr_parse (any_parse (parse n) k TABLE) T_store) (expr_pieces (E_arr l)) F
    (Some (tree false <$> l)) harmless.
Proof.
  intros Hl Hn Hk. apply (stored_arr_reads expr_pieces (tree false)).
  - by apply (elements_read expr_pieces (fun x => x) l n k Hl (fun x => le_n _) Hn Hk), array_follow.
  - apply Forall_forall. intros x _. apply first_starts.
Qed.

Lemma document_values l n k F : Forall (fun x : wstr * expr => value_read x.2) l ->
  (12 * length (separated (member_pieces expr_pieces <$> l)) + 9 < n)%nat ->
  (length (separated (member_pieces expr_pieces <$> l)) < k)%nat ->
  eats harmless (doc_parse (any_parse (parse n) k TABLE) T_store) (expr_pieces (E_doc l)) F
    (Some (keyval_map ((fun x => (x.1, tree false x.2)) <$> l))) harmless.
Proof.
  intros Hl Hn Hk. apply (stored_doc_reads expr_pieces (tree false)).
  apply (elements_read (member_pieces expr_pieces) snd l n k Hl); [|exact Hn|exact Hk|apply document_follow].
  intros x. unfold member_pieces. simpl. lia.
Qed.

Lemma atomic_arr p o C D ks F e prc :
  eats C (p o ARR prc) (sym "[" :: ks) F e D -> eats C (parse_atomic p o prc) (sym "[" :: ks) F e D.
Proof. intros H. unfold parse_atomic. apply eats_peek. intros t H1 _. rewrite H1. exact H. Qed.

Lemma atomic_doc p o C D ks F e prc :
  eats C (p o DOC prc) (sym "{" :: ks) F e D -> eats C (parse_atomic p o prc) (sym "{" :: ks) F e D.
Proof. intros H. unfold parse_atomic. apply eats_peek. intros t H1 _. rewrite H1. exact H. Qed.

Lemma array_read l : Forall value_read l -> operand_read (E_arr l) /\ value_read (E_arr l).
Proof.
  intros Hl. split.
  - intros o Ho [|[|n]] prc Hp Hn; try (simpl in Hn; lia). cbn [expr_pieces] in *.
    change (parse (S (S n)) o ATOMIC prc) with (parse_atomic (parse (S n)) o prc). apply atomic_arr.
    change (parse (S n) o ARR prc) with (p ← eask (store_if prc) c_arr; parse_arr (parse n) o p).
    replace (store_if prc) with T_store by by destruct Hp as [-> | ->].
    idle. unfold parse_arr. rewrite Ho. apply eats_turns. intros k Hk. unfold report_if.
    simpl length in *. rewrite length_app in *. simpl length in *.
    apply eats_assoc. eapply eats_bind_nil; [apply (array_values l n k (follow ATOMIC) Hl); cbn [rank] in *; lia| |done].
    eapply eats_idle; [by intros s|]. apply eats_ret.
  - intros n [|k] Hn Hk; [lia|]. unfold any_reads. cbn [any_parse].
    eapply (eats_read _ _ _ false); [apply sees_type|by intros nx _|].
    eapply (eats_read _ _ _ true); [apply sees_type|by intros nx _|]. cbv iota. idle. unfold report_if.
    cbn [expr_pieces] in Hn, Hk. simpl length in *. rewrite length_app in *. simpl length in *.
    apply eats_assoc. eapply eats_bind_nil; [apply (array_values l n k (follow FULL) Hl); lia| |done].
    eapply eats_idle; [by intros s|]. apply eats_ret.
Qed.

Lemma document_read l : Forall (fun x : wstr * expr => value_read x.2) l ->
  operand_read (E_doc l) /\ value_read (E_doc l).
Proof.
  intros Hl. split.
  - intros o Ho [|[|n]] prc Hp Hn; try (simpl in Hn; lia). cbn [expr_pieces] in *.
    change ((fun x => (QQSTRING, x.1) :: sym ":" :: expr_pieces x.2) <$> l) with
      (member_pieces expr_pieces <$> l) in *.
    change (parse (S (S n)) o ATOMIC prc) with (parse_atomic (parse (S n)) o prc). apply atomic_doc.
    change (parse (S n) o DOC prc) with (p ← eask (store_if prc) c_doc; parse_doc (parse n) o p).
    replace (store_if prc) with T_store by by destruct Hp as [-> | ->].
    idle. unfold parse_doc. rewrite Ho. apply eats_turns. intros k Hk. unfold report_if.
    simpl length in *. rewrite length_app in *. simpl length in *.
    apply eats_assoc. eapply eats_bind_nil; [apply (document_values l n k (follow ATOMIC) Hl); cbn [rank] in *; lia| |done].
    eapply eats_idle; [by intros s|]. apply eats_ret.
  - intros n [|k] Hn Hk; [lia|]. unfold any_reads. cbn [any_parse].
    eapply (eats_read _ _ _ true); [apply sees_type|by intros nx _|].
    eapply eats_read_any. intros b. cbv iota. idle. unfold report_if.
    cbn [expr_pieces] in Hn, Hk. change ((fun x => (QQSTRING, x.1) :: sym ":" :: expr_pieces x.2) <$> l) with
      (member_pieces expr_pieces <$> l) in *. simpl length in *. rewrite length_app in *. simpl length in *.
    apply eats_assoc. eapply eats_bind_nil; [apply (document_values l n k (follow FULL) Hl); lia| |done].
    eapply eats_idle; [by intros s|]. apply eats_ret.
Qed.

Lemma all_hold_Forall {A} (P Q : A -> Prop) l : Forall (fun x => P x -> Q x) l -> all_hold P l -> Forall Q l.
Proof. induction 1 as [|x l Hx _ IH]; [done|]. intros [H1 H2]. constructor; auto. Qed.

Lemma both_read e : expr_ok e -> operand_read e /\ value_read e.
Proof.
  revert e.
  assert (Hv : forall e, operand_read e ->
    match e with E_arr _ | E_doc _ => True | _ => operand_read e /\ value_read e end).
  { intros e H. destruct e; try done; (split; [done|apply value_of_operand; [done|]]); try done.
    - by destruct b.
    - by destruct qualifier.
    - by destruct schema. }
  assert (H1 : forall l, Forall (fun e => expr_ok e -> operand_read e /\ value_read e) l -> all_hold expr_ok l ->
    Forall operand_read l /\ Forall value_read l).
  { intros l IH Hl. pose proof (all_hold_Forall _ _ _ IH Hl) as H. split; eapply Forall_impl; try exact H; by intros ? []. }
  refine (expr_nested _ _ _ _ _ _ _ _ _ _ _ _).
  - intros e. pose proof (leaf_read e) as H. destruct e; try done; intros Hok; by apply (Hv _ (H Hok)).
  - intros u e IH [Hu Hok]. apply (Hv (E_un u e)). apply unary_read; [done|by apply IH].
  - intros b e1 e2 IH1 IH2 (Hb & Hok1 & Hok2). apply (Hv (E_bin b e1 e2)). apply bin_read; [done|by apply IH1|by apply IH2].
  - intros neg k e1 e2 IH1 IH2 (Hk & Hok1 & Hok2). apply (Hv (E_like neg k e1 e2)).
    apply like_read; [done|by apply IH1|by apply IH2].
  - intros neg e lo hi IH IHlo IHhi (Hok & Hlo & Hhi). apply (Hv (E_between neg e lo hi)).
    apply between_read; [by apply IH|by apply IHlo|by apply IHhi].
  - intros neg e l IH IHl (Hok & Hne & Hl). apply (Hv (E_in neg e l)). apply in_read; [done|by apply IH|by apply H1].
  - intros neg e null IH Hok. apply (Hv (E_is neg e null)). apply is_read. by apply IH.
  - intros s f l IHl (Hf & Hs & Hl). apply (Hv (E_call s f l)). apply call_read; [done|done|by apply H1].
  - intros e ty IH [Hok Hty]. apply (Hv (E_cast e ty)). apply cast_read; [done|by apply IH].
  - intros l IHl Hl. apply array_read. by apply H1.
  - intros l IHl Hl. apply document_read. eapply (all_hold_Forall (fun x : wstr * expr => expr_ok x.2)); [|exact Hl].
    eapply Forall_impl; [exact IHl|]. intros x Hx Hok. by apply Hx.
Qed.

(** ** The text *)

Lemma symbol_printable s : printable (sym s) -> forall ks, Forall printable ks -> Forall printable (sym s :: ks).
Proof. intros H ks Hks. by constructor. Qed.

Definition piece_printable (k : piece) : bool :=
  bool_decide (k ∈ SYMBOL_LIST2 ++ SYMBOL_LIST1) ||
  (bool_decide (k.1 = WORD) && forallb is_word k.2 && match k.2 with c :: _ => negb (is_digit_in dec_digits c) | [] => false end).

Lemma piece_printable_ok k : piece_printable k = true -> printable k.
Proof.
  unfold piece_printable. intros [H%bool_decide_eq_true|H]%orb_true_iff; [by apply printable_symbol|].
  rewrite !andb_true_iff in H. destruct H as [[Hty%bool_decide_eq_true Hw] Hd]. destruct k as [ty w]. simpl in *. subst.
  constructor. split.
  - apply Forall_forall. intros c Hc. rewrite forallb_forall in Hw. apply Hw. by apply list_elem_of_In.
  - destruct w as [|c w]; [done|]. by apply negb_true_iff.
Qed.

Lemma dec_printable z : 0 <= z < 2 ^ 64 -> printable (INTEGER, dec_text z).
Proof. intros Hz. destruct (dec_text_reads z Hz) as (H1 & H2 & _). by constructor. Qed.

Lemma separated_printable l : Forall (Forall printable) l -> Forall printable (separated l).
Proof.
  induction 1 as [|x l Hx _ IH]; [done|]. rewrite separated_cons. apply Forall_app. split; [done|].
  destruct l; [done|]. constructor; [by apply piece_printable_ok|done].
Qed.

Lemma keyword_printable k : k <> K_NONE -> printable (keyword_piece k).
Proof. intros Hk. apply piece_printable_ok. by destruct k. Qed.

Lemma not_printable neg : Forall printable (not_pieces neg).
Proof. destruct neg; [|done]. constructor; [by apply piece_printable_ok|done]. Qed.

Ltac printed := repeat first
  [ assumption
  | lazymatch goal with
    | |- Forall _ [] => apply Forall_nil_2
    | |- Forall _ (_ :: _) => apply Forall_cons_2
    | |- Forall _ (_ ++ _) => apply Forall_app; split
    | |- Forall _ (separated _) => apply separated_printable
    | |- Forall _ (not_pieces _) => apply not_printable
    | |- printable (INTEGER, _) => apply dec_printable; lia
    | |- printable (QQSTRING, _) => apply printable_qqstring
    | |- printable (sym _) => apply piece_printable_ok; by vm_compute
    | |- printable (keyword_piece _) => apply keyword_printable; discriminate
    end ].

Lemma path_printable p : path_ok p -> Forall printable (path_pieces p).
Proof.
  intros Hp. unfold path_pieces. do 2 (constructor; [by apply piece_printable_ok|]).
  unfold path_ok in Hp. destruct (m_whole_document p); [done|]. destruct Hp as [_ Hp].
  induction Hp as [|el l Hel _ IH]; [done|]. cbn [flat_map]. apply Forall_app. split; [|done].
  unfold index_max in Hel. destruct el; cbn [el_pieces]; printed.
Qed.

Lemma names_printable q n : Forall printable (names_pieces q n).
Proof.
  unfold names_pieces. apply Forall_app. split; [|by repeat constructor].
  induction q as [|x q IH]; [done|]. cbn [flat_map app]. by repeat (constructor; [first [by constructor | by apply piece_printable_ok]|]).
Qed.

Lemma cast_printable ty : cast_ok ty -> Forall printable (cast_pieces ty).
Proof.
  intros Hty. destruct ty as [k|k int|k n|n m]; cbn [cast_ok cast_pieces] in *.
  - printed. apply keyword_printable. intros ->. by apply (bool_decide_pack _) in Hty.
  - constructor; [apply keyword_printable; intros ->; by apply (bool_decide_pack _) in Hty|].
    by destruct int; printed.
  - destruct Hty as [Hty Hn]. constructor; [apply keyword_printable; intros ->; by apply (bool_decide_pack _) in Hty|].
    printed.
  - destruct Hty as [Hn Hm].
    printed.
Qed.

Lemma all_printable l : Forall (fun e => expr_ok e -> Forall printable (expr_pieces e)) l -> all_hold expr_ok l ->
  Forall (Forall printable) (expr_pieces <$> l).
Proof. intros IH Hl. apply Forall_fmap. exact (all_hold_Forall _ _ _ IH Hl). Qed.

Lemma expr_pieces_printable e : expr_ok e -> Forall printable (expr_pieces e).
Proof.
  revert e. refine (expr_nested _ _ _ _ _ _ _ _ _ _ _ _); unfold parens.
  - intros e. destruct e as [z|z|v|[]| |w|q n path|u e|b e1 e2|neg k e1 e2|neg e lo hi|neg e l|neg e null|s f args|e ty|l|l];
      try done; intros Hok; cbn [expr_pieces expr_ok] in *; printed.
    + by constructor.
    + apply names_printable.
    + destruct path as [p|]; [|done]. by apply path_printable, Hok.
  - intros u e IH [Hu Hok]. specialize (IH Hok). cbn [expr_pieces]. unfold parens. printed.
    change (u ∈ [O_NEG; O_NOT; O_BITNEG; O_PLUS; O_MINUS]) in Hu. set_unfold in Hu. by destruct_or?; subst; apply piece_printable_ok.
  - intros b e1 e2 IH1 IH2 (Hb & Hok1 & Hok2). specialize (IH1 Hok1). specialize (IH2 Hok2). cbn [expr_pieces].
    unfold parens. printed. change (b ∈ (fun x => x.1.1) <$> binary_ops) in Hb.
    assert (H : forallb (fun b => piece_printable (bin_piece b)) ((fun x => x.1.1) <$> binary_ops) = true) by by vm_compute.
    rewrite forallb_forall in H. by apply piece_printable_ok, H, list_elem_of_In.
  - intros neg k e1 e2 IH1 IH2 (Hk & Hok1 & Hok2). specialize (IH1 Hok1). specialize (IH2 Hok2). cbn [expr_pieces].
    unfold parens. printed. change (k ∈ [O_LIKE; O_RLIKE; O_REGEXP]) in Hk.
    set_unfold in Hk. by destruct_or?; subst; apply piece_printable_ok.
  - intros neg e lo hi IH IHlo IHhi (Hok & Hlo & Hhi). specialize (IH Hok). specialize (IHlo Hlo). specialize (IHhi Hhi).
    cbn [expr_pieces]. unfold parens. printed.
  - intros neg e l IH IHl (Hok & _ & Hl). specialize (IH Hok). pose proof (all_printable l IHl Hl). cbn [expr_pieces].
    unfold parens. printed.
  - intros neg e null IH Hok. specialize (IH Hok). cbn [expr_pieces]. unfold parens. printed. by destruct null; apply piece_printable_ok.
  - intros s f l IHl (_ & _ & Hl). pose proof (all_printable l IHl Hl). cbn [expr_pieces]. unfold parens. printed.
    apply names_printable.
  - intros e ty IH [Hok Hty]. specialize (IH Hok). cbn [expr_pieces]. unfold parens. printed. by apply cast_printable.
  - intros l IHl Hl. pose proof (all_printable l IHl Hl). cbn [expr_pieces]. printed.
  - intros l IHl Hl. cbn [expr_pieces].
    assert (H : Forall (fun x : wstr * expr => Forall printable (expr_pieces x.2)) l)
      by (eapply (all_hold_Forall (fun x => expr_ok x.2)); [exact IHl|exact Hl]).
    printed. apply Forall_fmap. eapply Forall_impl; [exact H|]. intros x Hx. simpl. printed.
Qed.

(** The parser stores the tree of a printed expression. *)
Lemma expression_read e : expr_ok e -> stored_expression TABLE (expr_text e) = Ok (tree false e).
Proof.
  intros Hok. unfold stored_expression, run_parser, expr_text.
  rewrite Tokenizer_new_reads by by apply expr_pieces_printable.
  pose proof (placed_pieces 0 (expr_pieces e)) as Ht. generalize dependent (placed 0 (expr_pieces e)). intros toks Ht.
  set (inp := pieces_text _). set (acc := fun _ => true).
  change (mk_EState _ no_column) with (es inp toks [] acc no_column). rewrite method_read.
  assert (Hne : eavailable (es inp toks [] acc no_column) = true).
  { pose proof (first_starts e) as Hf. rewrite <- Ht in Hf. by destruct toks. }
  rewrite Hne. cbn [negb].
  destruct (both_read e Hok) as [Hop _]. set (o := mk_obj TABLE false).
  assert (Hbase : eats (eq no_column) (base_process TABLE T_store) (expr_pieces e) (fun nx => nx = None)
    (tree false e) (eq no_column)).
  { intros inp' log acc' toks' rest c <- Ht' Hr. unfold base_process. rewrite method_read.
    assert (Hn : (12 * length (expr_pieces e) + rank FULL < expr_fuel (es inp' (toks' ++ rest) log acc' no_column))%nat).
    { unfold expr_fuel, rest_toks. simpl. rewrite length_app. rewrite <- Ht', length_map. simpl. lia. }
    pose proof (operand_full e o FULL Hop eq_refl ltac:(simpl; lia) _ T_store stores_store Hn) as H.
    pose proof (eats_weaken (eq no_column) harmless _ _ (follow FULL) (follow FULL) _ harmless harmless H
      ltac:(by intros c <-) (fun nx Hnx => Hnx) (fun c Hc => Hc)) as Hw.
    pose proof (eats_fresh (eq no_column) _ _ _ _ _ Hw) as Hf. destruct (Hf inp' log acc' toks' rest no_column) as (d & Hd & E); [done|done|by rewrite Hr|].
    by exists d. }
  destruct (Hbase inp [] acc toks [] no_column) as (d & Hd & E); [done|done|done|]. rewrite app_nil_r in E.
  by rewrite (method_bind_ok E).
Qed.
