(* ===== verification/MyVal.v ===== *)
(** * mysqlconnector jdbc/driver/mysql_art_resultset.{h,cpp}: values

    [MyVal] is a tagged union with conversions.  [long double] is an interface
    ([LongDouble]). *)

From S2P Require Import Prelude Cxx Str.

(** ** class MyVal *)

(** What is used of [long double]: printing with [%14.14Lf], conversion to
    integers, the comparison with 0.000001 and [strtold]. *)
Class LongDouble := {
  ld : Type;
  ld_print : ld -> str;
  ld_to_Z : ld -> option Z;
  ld_of_Z : Z -> ld;
  ld_below_delta : ld -> bool;
  ld_read : str -> ld;
}.

(** [strtoll] and [strtoull] in base 10: the text before the first character
    that is not a digit, saturated; [strtoull] negates modulo 2^64. *)
Definition strtoll (s : str) : Z :=
  match scan_int (c_str s) with
  | None => 0
  | Some v => Z.max (- 2 ^ 63) (Z.min v (2 ^ 63 - 1))
  end.

Definition strtoull (s : str) : Z :=
  match scan_int (c_str s) with
  | None => 0
  | Some v => if 2 ^ 64 - 1 <? Z.abs v then 2 ^ 64 - 1 else to_size_t v
  end.

(** [snprintf(buf, sizeof(buf) - 1, ...)] followed by [SQLString(buf, len)], [len]
    being the length of the whole text: [sizeof(buf) - 2] characters and a NUL
    are written, the byte after them is not initialised. *)
Definition snprintf_string (bufsize : Z) (text : str) : outcome str :=
  if size text <=? bufsize - 2 then Ok text
  else if size text <=? bufsize - 1 then
    Ok (take (Z.to_nat (bufsize - 2)) text ++ ["000"%char])
  else Undefined.

(** [%lld] and [%llu] *)
Definition show_dec (z : Z) : outcome str := print_dec (fun _ => true) 22 z.

(** Numbers of 64 bits are printed in at most 22 characters and read back. *)
Lemma show_dec_ok z :
  - 2 ^ 64 < z < 2 ^ 64 ->
  exists t, show_dec z = Ok t /\ is_number t /\ scan_int t = Some z /\ size t <= 22.
Proof.
  intros Hz. unfold show_dec. destruct (Z.lt_ge_cases z 0) as [Hn|Hp].
  - destruct (print_dec_pos (fun _ => true) 21 (z * -1)) as (t & E & Ht & Hne & Hv); [lia|lia|].
    assert (Es : print_dec (fun _ => true) 22 z = Ok ("-" ++ t)).
    { rewrite print_dec_neg by lia. by rewrite E. }
    exists ("-" ++ t). split; [done|]. split; [split; [done|by right; exists t]|].
    split; [|exact (print_dec_size _ _ _ _ Es)].
    rewrite scan_int_minus_digits, Hv by done. f_equal. lia.
  - destruct (print_dec_pos (fun _ => true) 22 z) as (t & E & Ht & Hne & Hv); [lia|lia|].
    exists t. split; [done|]. split; [split; [done|by left]|].
    split; [by rewrite scan_int_digits, Hv|exact (print_dec_size _ _ _ _ E)].
Qed.

Lemma show_dec_size z t : show_dec z = Ok t -> size t <= 22.
Proof. exact (print_dec_size (fun _ => true) 22 z t). Qed.

Section myval.
Context `{LongDouble}.

(** The union with its tag; [typePtr] keeps whether the pointer is set. *)
Inductive MyVal :=
| typeString (s : str)
| typeDouble (d : ld)
| typeInt (l : Z)
| typeUInt (u : Z)
| typeBool (b : bool)
| typePtr (set : bool).

(** The constructor from a C string. *)
Definition MyVal_of_chars (s : str) : MyVal := typeString (c_str s).
(** [MyVal::MyVal(const SQLString &)] *)
Definition MyVal_of_string (s : str) : MyVal := typeString s.

Definition MyVal_getString (v : MyVal) : outcome str :=
  match v with
  | typeString s => Ok s
  | typeDouble d => snprintf_string 31 (ld_print d)
  | typeInt l => t ← show_dec l; snprintf_string 20 t
  | typeUInt u => t ← show_dec u; snprintf_string 20 t
  | typeBool b => snprintf_string 3 (if b then ("1" : str) else "0")
  | typePtr _ => Ok []
  end.

Definition MyVal_getDouble (v : MyVal) : outcome ld :=
  match v with
  | typeString s => Ok (ld_read (c_str s))
  | typePtr _ => Ok (ld_of_Z 0)
  | typeDouble d => Ok d
  | typeInt l => Ok (ld_of_Z l)
  | typeUInt u => Ok (ld_of_Z u)
  | typeBool b => Ok (ld_of_Z (if b then 1 else 0))
  end.

(** [static_cast] of a floating value: out of range is undefined. *)
Definition ld_cast (fits : Z -> bool) (d : ld) : outcome Z :=
  match ld_to_Z d with
  | Some z => if fits z then Ok z else Undefined
  | None => Undefined
  end.

(** The signed and unsigned members of the union share their bits. *)
Definition MyVal_getInt64 (v : MyVal) : outcome Z :=
  match v with
  | typeString s => Ok (strtoll s)
  | typePtr _ => Ok 0
  | typeDouble d => ld_cast in_int64 d
  | typeBool b => Ok (if b then 1 else 0)
  | typeInt l => Ok l
  | typeUInt u => Ok (to_int64 u)
  end.

Definition MyVal_getUInt64 (v : MyVal) : outcome Z :=
  match v with
  | typeString s => Ok (strtoull s)
  | typePtr _ => Ok 0
  | typeDouble d => ld_cast (fun z => (0 <=? z) && (z <=? 2 ^ 64 - 1)) d
  | typeBool b => Ok (if b then 1 else 0)
  | typeInt l => Ok (to_size_t l)
  | typeUInt u => Ok u
  end.

Definition MyVal_getBool (v : MyVal) : outcome bool :=
  match v with
  | typeString s => Ok (negb (strtoll s =? 0))
  | typeDouble d => Ok (negb (ld_below_delta d))
  | typeInt l => Ok (negb (l =? 0))
  | typeUInt u => Ok (negb (to_int64 u =? 0))
  | typeBool b => Ok b
  | typePtr set => Ok set
  end.

(** The values a union member can hold. *)
Definition MyVal_wf (v : MyVal) : bool :=
  match v with
  | typeInt l => in_int64 l
  | typeUInt u => (0 <=? u) && (u <? 2 ^ 64)
  | _ => true
  end.
End myval.
