(* ===== verification/ArtResultSet.v ===== *)
(** * mysqlconnector jdbc/driver/mysql_art_resultset.{h,cpp}: in-memory results

    [MySQL_ArtResultSet] is a list of rows with a cursor: a position and an
    iterator into the list.  Logging is left out. *)

From S2P Require Import Prelude Cxx Str Unicode Cursor MyVal.

(** ** class MySQL_ArtResultSet *)

Section art.
Context `{LongDouble}.

(** [current_record] is an iterator into [rset], here its distance from
    [rset->begin()]: [length rset] stands for [rset->end()]. *)
Record Art := MkArt {
  num_fields : Z;
  rset : list (list MyVal);
  current_record : Z;
  started : bool;
  field_name_to_index_map : gmap (list ascii) Z;
  field_index_to_name_map : list str;
  num_rows : Z;
  row_position : Z;
  is_closed : bool;
}.

Local Abbreviation method := (Method Art).

Definition set_position (p : Z) (a : Art) : Art :=
  MkArt (num_fields a) (rset a) (current_record a) (started a) (field_name_to_index_map a)
    (field_index_to_name_map a) (num_rows a) p (is_closed a).
Definition set_record (r : Z) (a : Art) : Art :=
  MkArt (num_fields a) (rset a) r (started a) (field_name_to_index_map a)
    (field_index_to_name_map a) (num_rows a) (row_position a) (is_closed a).
Definition set_closed (a : Art) : Art :=
  MkArt (num_fields a) (rset a) (current_record a) (started a) (field_name_to_index_map a)
    (field_index_to_name_map a) (num_rows a) (row_position a) true.

(** [MySQL_ArtResultSet::MySQL_ArtResultSet] *)
Definition Art_new (fn : list str) (rs : list (list MyVal)) : Art :=
  MkArt (Z.of_nat (length fn)) rs 0 false (index_names fn 0 ∅)
    (map (fun name => utf8_strup name 0) fn) (Z.of_nat (length rs)) 0 false.

(** The iterator: stepping beyond either end is undefined. *)
Definition iterator_incr : method unit := fun a =>
  if current_record a <? Z.of_nat (length (rset a))
  then (Ok tt, set_record (current_record a + 1) a) else (Undefined, a).
Definition iterator_decr : method unit := fun a =>
  if 0 <? current_record a then (Ok tt, set_record (current_record a - 1) a)
  else (Undefined, a).

Definition isClosed : method bool := read is_closed.

Definition checkValid : method unit :=
  c ← isClosed;
  if (c : bool) then throw (InvalidInstance "ResultSet has been closed") else mret tt.

(** [close] and the destructor. *)
Definition close : method unit := _ ← checkValid; update set_closed.
Definition Art_delete : method unit :=
  c ← isClosed; if (c : bool) then mret tt else close.

(** [seek]: the loop counts down from the [long long] value of
    [row_position - 1]. *)
Fixpoint seek_loop (n : nat) : method unit :=
  match n with
  | O => mret tt
  | S n' => _ ← iterator_incr; seek_loop n'
  end.

Definition seek : method unit :=
  p ← read row_position;
  _ ← update (set_record 0);
  seek_loop (Z.to_nat (to_int64 (to_size_t (p - 1)))).

(** The length of a list that fits in memory. *)
Definition after (a : Art) : Z := to_size_t (num_rows a + 1).

Definition isBeforeFirstOrAfterLast : method bool :=
  _ ← checkValid;
  p ← read row_position; e ← read after;
  mret ((p =? 0) || (p =? e)).

Definition afterLast : method unit :=
  _ ← checkValid; e ← read after; _ ← update (set_position e); seek.

Definition beforeFirst : method unit :=
  _ ← checkValid; _ ← update (set_position 0); seek.

(** [absolute]: the rows are counted as [int]; negating the least [int]
    overflows. *)
Definition absolute (row : Z) : method bool :=
  _ ← checkValid;
  n ← read num_rows;
  let result :=
    p ← read row_position; e ← read after; mret ((0 <? p) && (p <? e)) in
  if 0 <? row then
    if to_int n <? row then _ ← afterLast; result
    else _ ← update (set_position (to_size_t row)); _ ← seek; mret true
  else if row <? 0 then
    if row =? INT_MIN then pure Undefined
    else if to_int n <? - row then _ ← beforeFirst; result
    else
      _ ← update (set_position (to_size_t (to_size_t (n - to_size_t (- row)) + 1)));
      _ ← seek; mret true
  else _ ← beforeFirst; result.

Definition first : method bool :=
  _ ← checkValid;
  n ← read num_rows;
  if negb (n =? 0) then _ ← update (set_position 1); _ ← seek; mret true else mret false.

Definition last : method bool :=
  _ ← checkValid;
  n ← read num_rows;
  if negb (n =? 0) then _ ← update (set_position n); _ ← seek; mret true else mret false.

Definition isAfterLast : method bool :=
  _ ← checkValid; p ← read row_position; e ← read after; mret (p =? e).
Definition isBeforeFirst : method bool :=
  _ ← checkValid; p ← read row_position; mret (p =? 0).
Definition isFirst : method bool :=
  _ ← checkValid; p ← read row_position; mret (p =? 1).
Definition isLast : method bool :=
  _ ← checkValid; p ← read row_position; n ← read num_rows; mret (p =? n).

Definition next : method bool :=
  _ ← checkValid;
  l ← isLast;
  if (l : bool) then _ ← afterLast; mret false
  else
    p ← read row_position; n ← read num_rows;
    if p =? 0 then _ ← first; mret true
    else if (0 <? p) && (p <? n) then
      _ ← iterator_incr; _ ← update (set_position (to_size_t (p + 1))); mret true
    else mret false.

Definition previous : method bool :=
  b ← isBeforeFirst;
  if (b : bool) then mret false
  else
    f ← isFirst;
    if (f : bool) then _ ← beforeFirst; mret false
    else
      p ← read row_position;
      if 1 <? p then
        _ ← update (set_position (p - 1)); _ ← iterator_decr; mret true
      else throw (SqlError "Impossible").

(** [relative]: the sum is computed in 64 unsigned bits. *)
Definition relative (rows : Z) : method bool :=
  _ ← checkValid;
  p ← read row_position; n ← read num_rows;
  _ ← (if negb (rows =? 0) then
         let q := to_size_t (p + to_size_t rows) in
         if (n <? q) || (q <? 1) then (if 0 <? rows then afterLast else beforeFirst)
         else _ ← update (set_position q); seek
       else mret tt);
  p' ← read row_position;
  mret ((0 <? p') && (p' <=? n)).

Definition findColumn (columnLabel : str) : method Z :=
  _ ← checkValid;
  m ← read field_name_to_index_map;
  mret (find_label m columnLabel).

Definition getRow : method Z := _ ← checkValid; read row_position.
Definition rowsCount : method Z := _ ← checkValid; read num_rows.

(** Dereferencing [current_record] and indexing the row: both must be inside. *)
Definition current_value (columnIndex : Z) : method MyVal :=
  rs ← read rset; r ← read current_record;
  row ← pure (deref (if r <? 0 then None else rs !! Z.to_nat r));
  pure (arr_at row (columnIndex - 1)).

(** The getters by column index share their guards. *)
Definition get_value {A} (name : str) (get : MyVal -> outcome A) (columnIndex : Z)
    : method A :=
  b ← isBeforeFirstOrAfterLast;
  if (b : bool) then
    throw (SqlInvalidArgument ("MySQL_ArtResultSet::" ++ name ++
      ": can't fetch because not on result set"))
  else
    n ← read num_fields;
    if (n <? columnIndex) || (columnIndex =? 0) then
      throw (SqlInvalidArgument ("MySQL_ArtResultSet::" ++ name ++
        ": invalid value of 'columnIndex'"))
    else v ← current_value columnIndex; pure (get v).

Definition getString : Z -> method str := get_value "getString" MyVal_getString.
Definition getDouble : Z -> method ld := get_value "getDouble" MyVal_getDouble.
Definition getInt64 : Z -> method Z := get_value "getInt64" MyVal_getInt64.
Definition getUInt64 : Z -> method Z := get_value "getUInt64" MyVal_getUInt64.

Definition getInt (columnIndex : Z) : method Z :=
  v ← getInt64 columnIndex; mret (to_int v).
Definition getUInt (columnIndex : Z) : method Z :=
  v ← getUInt64 columnIndex; mret (v mod 2 ^ 32).

Definition getBoolean (columnIndex : Z) : method bool :=
  b ← isBeforeFirstOrAfterLast;
  if (b : bool) then
    throw (SqlInvalidArgument
      "MySQL_ArtResultSet::getString: can't fetch because not on result set")
  else v ← getInt columnIndex; mret (negb (v =? 0)).

(** [getBlob] returns a stream over the text. *)
Definition getBlob (columnIndex : Z) : method str :=
  b ← isBeforeFirstOrAfterLast;
  if (b : bool) then
    throw (SqlInvalidArgument
      "MySQL_ArtResultSet::getString: can't fetch because not on result set")
  else getString columnIndex.

(** The getters by label. *)
Definition by_label {A} (get : Z -> method A) (columnLabel : str) : method A :=
  i ← findColumn columnLabel; get i.

Definition getString_label : str -> method str := by_label getString.
Definition getDouble_label : str -> method ld := by_label getDouble.
Definition getInt_label : str -> method Z := by_label getInt.
Definition getUInt_label : str -> method Z := by_label getUInt.
Definition getInt64_label : str -> method Z := by_label getInt64.
Definition getUInt64_label : str -> method Z := by_label getUInt64.
Definition getBoolean_label (columnLabel : str) : method bool :=
  v ← getInt_label columnLabel; mret (negb (v =? 0)).
Definition getBlob_label (columnLabel : str) : method str := getString_label columnLabel.

Definition isNull (columnIndex : Z) : method bool :=
  _ ← checkValid;
  n ← read num_fields;
  if (n <? columnIndex) || (columnIndex =? 0) then
    throw (SqlInvalidArgument "MySQL_ArtResultSet::isNull: invalid value of 'columnIndex'")
  else
    b ← isBeforeFirstOrAfterLast;
    if (b : bool) then
      throw (SqlInvalidArgument
        "MySQL_ArtResultSet::getString: can't fetch because not on result set")
    else mret false.
Definition isNull_label : str -> method bool := by_label isNull.

Definition wasNull : method bool :=
  _ ← checkValid;
  b ← isBeforeFirstOrAfterLast;
  if (b : bool) then
    throw (SqlInvalidArgument
      "MySQL_ResultSet::wasNull: can't fetch because not on result set")
  else mret false.

(** The methods that are not implemented check the object first. *)
Definition not_implemented {A} (msg : str) : method A :=
  _ ← checkValid; throw (MethodNotImplemented msg).

Definition cancelRowUpdates : method unit :=
  not_implemented "MySQL_ArtResultSet::cancelRowUpdates()".
Definition clearWarnings : method unit :=
  not_implemented "MySQL_ArtResultSet::clearWarnings()".
Definition getConcurrency : method Z :=
  not_implemented "MySQL_ArtResultSet::getConcurrency()".
Definition getCursorName : method str :=
  not_implemented "MySQL_ArtResultSet::getCursorName()".
Definition getFetchDirection : method Z :=
  not_implemented "MySQL_ArtResultSet::getFetchDirection()".
Definition getFetchSize : method Z :=
  not_implemented "MySQL_ArtResultSet::getFetchSize()".
Definition getHoldability : method Z :=
  not_implemented "MySQL_ArtResultSet::getHoldability()".
Definition getWarnings : method unit :=
  not_implemented "MySQL_ArtResultSet::getWarnings()".
Definition insertRow : method unit :=
  not_implemented "MySQL_ArtResultSet::insertRow()".
Definition moveToCurrentRow : method unit :=
  not_implemented "MySQL_ArtResultSet::moveToCurrentRow()".
Definition moveToInsertRow : method unit :=
  not_implemented "MySQL_ArtResultSet::moveToInsertRow()".
Definition refreshRow : method unit :=
  not_implemented "MySQL_ResultSet::refreshRow()".
Definition rowDeleted : method bool :=
  not_implemented "MySQL_ArtResultSet::rowDeleted()".
Definition rowInserted : method bool :=
  not_implemented "MySQL_ArtResultSet::rowInserted()".
Definition rowUpdated : method bool :=
  not_implemented "MySQL_ArtResultSet::rowUpdated()".
Definition getRowId (columnIndex : Z) : method unit :=
  not_implemented "MySQL_ArtResultSet::getRowId()".
Definition getRowId_label (columnLabel : str) : method unit :=
  not_implemented "MySQL_ArtResultSet::getRowId()".
Definition setFetchSize (rows : Z) : method unit :=
  not_implemented "MySQL_ResultSet::rowDeleted()".

(** [getType]: [TYPE_SCROLL_INSENSITIVE]. *)
Definition getType : method Z := _ ← checkValid; mret 1.

(** A constructed result set has no statement ([None]). *)
Definition getStatement : method (option unit) := _ ← checkValid; mret None.

(** The moves of the cursor; those without a result report [false]. *)
Definition run_move (m : move) : method bool :=
  match m with
  | MNext => next
  | MPrevious => previous
  | MFirst => first
  | MLast => last
  | MBeforeFirst => _ ← beforeFirst; mret false
  | MAfterLast => _ ← afterLast; mret false
  | MAbsolute row => absolute row
  | MRelative rows => relative rows
  end.

(** ** Facts: the cursor *)

(** The rows are counted by an [int], the position is in range and the
    iterator is where the position says. *)
Record art_ok (a : Art) : Prop := {
  art_rows : num_rows a = Z.of_nat (length (rset a));
  art_bound : num_rows a < INT_MAX;
  art_position : 0 <= row_position a <= num_rows a + 1;
  art_record : current_record a = Z.max 0 (row_position a - 1);
}.

Lemma art_rows_nonneg a : art_ok a -> 0 <= num_rows a.
Proof using. intros Ha. rewrite (art_rows a Ha). lia. Qed.

(** The object after a move to position [p]. *)
Definition moved (p : Z) (a : Art) : Art := set_record (Z.max 0 (p - 1)) (set_position p a).

Lemma moved_ok p a : art_ok a -> 0 <= p <= num_rows a + 1 -> art_ok (moved p a).
Proof using. intros [H1 H2 H3 H4] Hp. by split. Qed.

Lemma moved_same a : art_ok a -> moved (row_position a) a = a.
Proof using.
  intros Ha. unfold moved, set_record, set_position. simpl.
  rewrite <- (art_record a Ha). by destruct a.
Qed.

Lemma seek_loop_spec n a :
  0 <= current_record a -> current_record a + Z.of_nat n <= Z.of_nat (length (rset a)) ->
  seek_loop n a = (Ok tt, set_record (current_record a + Z.of_nat n) a).
Proof using.
  revert a. induction n as [|n IH]; intros a H0 Hn.
  - simpl. rewrite Z.add_0_r. by destruct a.
  - cbn [seek_loop]. unfold mbind, Method_bind, iterator_incr.
    rewrite (proj2 (Z.ltb_lt _ _)) by lia. rewrite IH by (simpl; lia). simpl.
    unfold set_record. simpl. do 2 f_equal. lia.
Qed.

Lemma seek_spec p a :
  art_ok a -> 0 <= p <= num_rows a + 1 ->
  seek (set_position p a) = (Ok tt, moved p a).
Proof using.
  intros [H1 H2 H3 H4] Hp. unfold seek. rewrite method_read, method_update.
  rewrite seek_loop_spec; simpl.
  - unfold moved, set_record, set_position. simpl. do 2 f_equal.
    destruct (decide (p = 0)) as [->|Hn]; [by vm_compute|].
    rewrite to_size_t_small, to_int64_small by (unfold INT_MAX in *; lia). lia.
  - lia.
  - destruct (decide (p = 0)) as [->|Hn]; [change (to_int64 _) with (-1); simpl; lia|].
    rewrite to_size_t_small, to_int64_small by (unfold INT_MAX in *; lia). lia.
Qed.

Lemma checkValid_open a : is_closed a = false -> checkValid a = (Ok tt, a).
Proof using. intros Hc. unfold checkValid, isClosed. by rewrite method_read, Hc. Qed.

(** Every method of a closed object throws. *)
Lemma checkValid_closed a :
  is_closed a = true -> checkValid a = (Throw (InvalidInstance "ResultSet has been closed"), a).
Proof using. intros Hc. unfold checkValid, isClosed. by rewrite method_read, Hc. Qed.

Lemma after_spec a : art_ok a -> after a = num_rows a + 1.
Proof using.
  intros [H1 H2 H3 H4]. unfold after. apply to_size_t_small. unfold INT_MAX in *. lia.
Qed.

Section open.
Context (a : Art) (Ha : art_ok a) (Ho : is_closed a = false).

Lemma afterLast_spec : afterLast a = (Ok tt, moved (num_rows a + 1) a).
Proof using Ha Ho.
  unfold afterLast. rewrite (method_bind_ok (checkValid_open a Ho)).
  rewrite method_read, method_update, after_spec by done.
  destruct Ha. apply seek_spec; [done|lia].
Qed.

Lemma beforeFirst_spec : beforeFirst a = (Ok tt, moved 0 a).
Proof using Ha Ho.
  unfold beforeFirst. rewrite (method_bind_ok (checkValid_open a Ho)).
  rewrite method_update. destruct Ha. apply seek_spec; [done|lia].
Qed.

Lemma first_spec :
  first a = (Ok (negb (num_rows a =? 0)), if num_rows a =? 0 then a else moved 1 a).
Proof using Ha Ho.
  unfold first. rewrite (method_bind_ok (checkValid_open a Ho)), method_read.
  destruct (num_rows a =? 0) eqn:E; [done|]. cbn [negb]. rewrite method_update.
  destruct Ha. by rewrite (method_bind_ok (seek_spec 1 a Ha ltac:(lia))).
Qed.

Lemma last_spec :
  last a = (Ok (negb (num_rows a =? 0)), if num_rows a =? 0 then a else moved (num_rows a) a).
Proof using Ha Ho.
  unfold last. rewrite (method_bind_ok (checkValid_open a Ho)), method_read.
  destruct (num_rows a =? 0) eqn:E; [done|]. cbn [negb]. rewrite method_update.
  destruct Ha. by rewrite (method_bind_ok (seek_spec (num_rows a) a Ha ltac:(lia))).
Qed.

Lemma isLast_spec : isLast a = (Ok (row_position a =? num_rows a), a).
Proof using Ho.
  unfold isLast. by rewrite (method_bind_ok (checkValid_open a Ho)).
Qed.
Lemma isFirst_spec : isFirst a = (Ok (row_position a =? 1), a).
Proof using Ho.
  unfold isFirst. by rewrite (method_bind_ok (checkValid_open a Ho)).
Qed.
Lemma isBeforeFirst_spec : isBeforeFirst a = (Ok (row_position a =? 0), a).
Proof using Ho.
  unfold isBeforeFirst. by rewrite (method_bind_ok (checkValid_open a Ho)).
Qed.

Local Abbreviation n := (num_rows a).
Local Abbreviation p := (row_position a).

(** What a move amounts to. *)
Definition moves (m : move) (r : outcome bool * Art) : Prop :=
  r = (Ok (on_row n (move_to n p m)), moved (move_to n p m) a).

Lemma next_spec : moves MNext (next a).
Proof using Ha Ho.
  unfold moves, next. rewrite (method_bind_ok (checkValid_open a Ho)).
  rewrite (method_bind_ok isLast_spec).
  pose proof (art_position a Ha) as Hp. pose proof (art_bound a Ha) as Hb.
  pose proof (art_rows_nonneg a Ha) as Hn.
  simpl move_to. unfold clamp, on_row.
  destruct (Z.eqb_spec p n) as [E|E].
  - rewrite (method_bind_ok afterLast_spec).
    replace (Z.max 0 (Z.min (p + 1) (n + 1))) with (n + 1) by lia.
    rewrite (proj2 (Z.leb_gt (n + 1) n)), andb_false_r by lia. done.
  - rewrite !method_read. destruct (Z.eqb_spec p 0) as [E0|E0].
    + rewrite (method_bind_ok first_spec).
      rewrite (proj2 (Z.eqb_neq n 0)) by lia.
      replace (Z.max 0 (Z.min (p + 1) (n + 1))) with 1 by lia.
      by rewrite (proj2 (Z.leb_le 1 n)) by lia.
    + destruct ((0 <? p) && (p <? n)) eqn:Hlt.
      * apply andb_true_iff in Hlt. rewrite !Z.ltb_lt in Hlt.
        replace (Z.max 0 (Z.min (p + 1) (n + 1))) with (p + 1) by lia.
        unfold mbind, Method_bind, iterator_incr.
        rewrite (art_record a Ha), <- (art_rows a Ha).
        rewrite (proj2 (Z.ltb_lt _ _)) by lia. simpl.
        rewrite (proj2 (Z.leb_le 1 (p + 1))), (proj2 (Z.leb_le (p + 1) n)) by lia.
        rewrite to_size_t_small by (unfold INT_MAX in *; lia).
        unfold moved, set_record, set_position. simpl. do 2 f_equal. lia.
      * apply andb_false_iff in Hlt. rewrite !Z.ltb_ge in Hlt.
        replace (Z.max 0 (Z.min (p + 1) (n + 1))) with p by lia.
        rewrite (proj2 (Z.leb_gt p n)), andb_false_r by lia. by rewrite moved_same.
Qed.

Lemma previous_spec : moves MPrevious (previous a).
Proof using Ha Ho.
  unfold moves, previous. rewrite (method_bind_ok isBeforeFirst_spec).
  pose proof (art_position a Ha) as Hp. pose proof (art_bound a Ha) as Hb.
  pose proof (art_rows_nonneg a Ha) as Hn.
  simpl move_to. unfold clamp, on_row.
  destruct (Z.eqb_spec p 0) as [E|E].
  - replace (Z.max 0 (Z.min (p - 1) (n + 1))) with p by lia.
    rewrite (proj2 (Z.leb_gt 1 p)) by lia. by rewrite moved_same.
  - rewrite (method_bind_ok isFirst_spec).
    destruct (Z.eqb_spec p 1) as [E1|E1].
    + rewrite (method_bind_ok beforeFirst_spec).
      by replace (Z.max 0 (Z.min (p - 1) (n + 1))) with 0 by lia.
    + rewrite method_read, (proj2 (Z.ltb_lt 1 p)), method_update by lia.
      replace (Z.max 0 (Z.min (p - 1) (n + 1))) with (p - 1) by lia.
      unfold mbind, Method_bind, iterator_decr. simpl.
      rewrite (art_record a Ha), (proj2 (Z.ltb_lt _ _)) by lia.
      rewrite (proj2 (Z.leb_le 1 (p - 1))), (proj2 (Z.leb_le (p - 1) n)) by lia.
      unfold moved, set_record, set_position. simpl. do 2 f_equal. lia.
Qed.

Lemma result_spec q :
  0 <= q <= n + 1 ->
  (q0 ← read row_position; e ← read after; mret ((0 <? q0) && (q0 <? e))) (moved q a) =
    (Ok (on_row n q), moved q a).
Proof using Ha.
  intros Hq. unfold read, mbind, Method_bind, mret, Method_ret. simpl.
  change (after (moved q a)) with (after a). rewrite after_spec by done.
  do 2 f_equal. unfold on_row. apply eq_true_iff_eq. rewrite !andb_true_iff. lia.
Qed.

Lemma absolute_spec row : INT_MIN < row <= INT_MAX -> moves (MAbsolute row) (absolute row a).
Proof using Ha Ho.
  intros Hrow. unfold moves, absolute.
  rewrite (method_bind_ok (checkValid_open a Ho)), method_read. cbv zeta.
  pose proof (art_position a Ha) as Hp. pose proof (art_bound a Ha) as Hb.
  pose proof (art_rows_nonneg a Ha) as Hn. unfold INT_MIN, INT_MAX in *.
  rewrite to_int_small by (unfold INT_MIN, INT_MAX; lia). simpl move_to. unfold clamp.
  destruct (Z.ltb_spec 0 row) as [Hpos|Hpos].
  - rewrite (proj2 (Z.ltb_ge row 0)) by lia.
    destruct (Z.ltb_spec n row) as [Hbig|Hsmall].
    + rewrite (method_bind_ok afterLast_spec), result_spec by lia.
      by replace (Z.max 0 (Z.min row (n + 1))) with (n + 1) by lia.
    + rewrite method_update, to_size_t_small by lia.
      rewrite (method_bind_ok (seek_spec row a Ha ltac:(lia))).
      replace (Z.max 0 (Z.min row (n + 1))) with row by lia. unfold on_row.
      by rewrite (proj2 (Z.leb_le 1 row)), (proj2 (Z.leb_le row n)) by lia.
  - destruct (Z.ltb_spec row 0) as [Hneg|Hneg].
    + rewrite (proj2 (Z.eqb_neq _ _)) by (unfold INT_MIN; lia).
      destruct (Z.ltb_spec n (- row)) as [Hbig|Hsmall].
      * rewrite (method_bind_ok beforeFirst_spec), result_spec by lia.
        by replace (Z.max 0 (Z.min (n + 1 + row) (n + 1))) with 0 by lia.
      * rewrite method_update, (to_size_t_small (- row)), (to_size_t_small (n - - row)),
          to_size_t_small by lia.
        rewrite (method_bind_ok (seek_spec (n - - row + 1) a Ha ltac:(lia))).
        replace (Z.max 0 (Z.min (n + 1 + row) (n + 1))) with (n - - row + 1) by lia.
        unfold on_row.
        by rewrite (proj2 (Z.leb_le 1 _)), (proj2 (Z.leb_le _ n)) by lia.
    + rewrite (method_bind_ok beforeFirst_spec), result_spec by lia.
      by replace (Z.max 0 (Z.min row (n + 1))) with 0 by lia.
Qed.

Lemma relative_spec rows : INT_MIN <= rows <= INT_MAX -> moves (MRelative rows) (relative rows a).
Proof using Ha Ho.
  intros Hrows. unfold moves, relative.
  rewrite (method_bind_ok (checkValid_open a Ho)), !method_read.
  pose proof (art_position a Ha) as Hp. pose proof (art_bound a Ha) as Hb.
  pose proof (art_rows_nonneg a Ha) as Hn. unfold INT_MIN, INT_MAX in *.
  simpl move_to. unfold clamp.
  set (q := Z.max 0 (Z.min (p + rows) (n + 1))).
  assert (Hend : forall r : Method Art unit, r a = (Ok tt, moved q a) ->
    (_ ← r; p' ← read row_position; mret ((0 <? p') && (p' <=? n))) a =
      (Ok (on_row n q), moved q a)).
  { intros r Hr. rewrite (method_bind_ok Hr), method_read. unfold mret, Method_ret.
    do 2 f_equal. simpl. unfold on_row. apply eq_true_iff_eq. rewrite !andb_true_iff. lia. }
  apply Hend. clear Hend. destruct (Z.eqb_spec rows 0) as [E|E]; cbn [negb].
  - replace q with p by (unfold q; lia). by rewrite moved_same.
  - assert (Hq : to_size_t (p + to_size_t rows) =
      if p + rows <? 0 then p + rows + 2 ^ 64 else p + rows).
    { unfold to_size_t. rewrite Z.add_mod_idemp_r by done. fold (to_size_t (p + rows)).
      destruct (Z.ltb_spec (p + rows) 0);
        [apply to_size_t_neg|apply to_size_t_small]; lia. }
    cbv zeta. rewrite Hq. destruct (Z.ltb_spec (p + rows) 0) as [Hneg|Hneg].
    + rewrite (proj2 (Z.ltb_lt n _)) by lia. cbn [orb].
      rewrite (proj2 (Z.ltb_ge 0 rows)) by lia.
      rewrite beforeFirst_spec. by replace q with 0 by (unfold q; lia).
    + destruct (Z.ltb_spec n (p + rows)) as [Hbig|Hsmall]; cbn [orb].
      * rewrite (proj2 (Z.ltb_lt 0 rows)) by lia.
        rewrite afterLast_spec. by replace q with (n + 1) by (unfold q; lia).
      * destruct (Z.ltb_spec (p + rows) 1).
        -- rewrite (proj2 (Z.ltb_ge 0 rows)) by lia.
           rewrite beforeFirst_spec. by replace q with 0 by (unfold q; lia).
        -- rewrite method_update. replace q with (p + rows) by (unfold q; lia).
           apply seek_spec; [done|lia].
Qed.
End open.

(** The arguments a move can have. *)
Definition move_ok (m : move) : Prop :=
  match m with
  | MAbsolute row => INT_MIN < row <= INT_MAX
  | MRelative rows => INT_MIN <= rows <= INT_MAX
  | _ => True
  end.

(** Every move of an open result set does what the cursor specification says. *)
Lemma run_move_spec m a :
  art_ok a -> is_closed a = false -> move_ok m -> moves a m (run_move m a).
Proof using.
  intros Ha Ho Hm. pose proof (art_rows_nonneg a Ha) as Hn. destruct m; simpl in Hm.
  - by apply next_spec.
  - by apply previous_spec.
  - unfold moves. simpl. rewrite first_spec by done. unfold on_row.
    destruct (Z.eqb_spec (num_rows a) 0) as [E|E].
    + rewrite E. pose proof (art_position a Ha).
      rewrite moved_same by done. do 2 f_equal. symmetry. apply andb_false_iff.
      rewrite !Z.leb_gt. lia.
    + by rewrite (proj2 (Z.leb_le 1 (num_rows a))) by lia.
  - unfold moves. simpl. rewrite last_spec by done. unfold on_row.
    destruct (Z.eqb_spec (num_rows a) 0) as [E|E].
    + rewrite E. pose proof (art_position a Ha).
      rewrite moved_same by done. do 2 f_equal. symmetry. apply andb_false_iff.
      rewrite !Z.leb_gt. lia.
    + by rewrite (proj2 (Z.leb_le 1 (num_rows a))), Z.leb_refl by lia.
  - unfold moves. simpl. by rewrite (method_bind_ok (beforeFirst_spec a Ha Ho)).
  - unfold moves. simpl. rewrite (method_bind_ok (afterLast_spec a Ha Ho)).
    unfold on_row. by rewrite (proj2 (Z.leb_gt (num_rows a + 1) _)), andb_false_r by lia.
  - by apply absolute_spec.
  - by apply relative_spec.
Qed.

(** ** Facts: reading values *)

(** Every row has a value for each column. *)
Definition rows_wf (a : Art) : Prop :=
  Forall (fun r => Z.of_nat (length r) = num_fields a) (rset a).

Lemma on_row_spec a :
  art_ok a -> is_closed a = false ->
  isBeforeFirstOrAfterLast a = (Ok (negb (on_row (num_rows a) (row_position a))), a).
Proof using.
  intros Ha Ho. unfold isBeforeFirstOrAfterLast.
  rewrite (method_bind_ok (checkValid_open a Ho)), !method_read, after_spec by done.
  unfold mret, Method_ret. do 2 f_equal. unfold on_row.
  pose proof (art_position a Ha). apply eq_true_iff_eq.
  rewrite negb_true_iff, orb_true_iff, andb_false_iff, !Z.eqb_eq, !Z.leb_gt. lia.
Qed.

(** On a row, a getter reads the value of that row and column. *)
Lemma get_value_on_row {A} name (get : MyVal -> outcome A) col a :
  art_ok a -> is_closed a = false -> rows_wf a ->
  on_row (num_rows a) (row_position a) = true -> 1 <= col <= num_fields a ->
  exists r v, rset a !! Z.to_nat (row_position a - 1) = Some r /\
    r !! Z.to_nat (col - 1) = Some v /\ get_value name get col a = (get v, a).
Proof using.
  intros Ha Ho Hw Hrow Hc. pose proof (art_rows a Ha) as Hn.
  unfold get_value. rewrite (method_bind_ok (on_row_spec a Ha Ho)), Hrow.
  unfold on_row in Hrow. rewrite andb_true_iff, !Z.leb_le in Hrow. cbn [negb].
  rewrite method_read, (proj2 (Z.ltb_ge _ _)), (proj2 (Z.eqb_neq _ _)) by lia. cbn [orb].
  destruct (lookup_lt_is_Some_2 (rset a) (Z.to_nat (row_position a - 1))) as [r Hr]; [lia|].
  unfold rows_wf in Hw. rewrite Forall_forall in Hw.
  pose proof (Hw r (list_elem_of_lookup_2 _ _ _ Hr)) as Hl.
  destruct (lookup_lt_is_Some_2 r (Z.to_nat (col - 1))) as [v Hv]; [lia|].
  exists r, v. split; [done|]. split; [done|].
  unfold current_value, read, pure, mbind, Method_bind. simpl.
  rewrite (art_record a Ha), Z.max_r, (proj2 (Z.ltb_ge _ _)), Hr by lia. simpl.
  unfold arr_at. rewrite decide_True, Hv by lia. done.
Qed.

(** Off the rows, or with a wrong column, it throws. *)
Lemma get_value_off_row {A} name (get : MyVal -> outcome A) col a :
  art_ok a -> is_closed a = false ->
  on_row (num_rows a) (row_position a) = false \/ ~ (1 <= col <= num_fields a) -> 0 <= col ->
  exists msg, get_value name get col a = (Throw (SqlInvalidArgument msg), a).
Proof using.
  intros Ha Ho Hbad Hc.
  unfold get_value. rewrite (method_bind_ok (on_row_spec a Ha Ho)).
  destruct (on_row _ _); cbn [negb]; [|by eexists].
  destruct Hbad as [?|Hbad]; [done|]. rewrite method_read.
  destruct (Z.ltb_spec (num_fields a) col); [by eexists|].
  destruct (Z.eqb_spec col 0); [by eexists|]. lia.
Qed.

(** ** Facts: a new result set *)

Lemma Art_new_ok fn rs :
  Z.of_nat (length rs) < INT_MAX -> art_ok (Art_new fn rs) /\ is_closed (Art_new fn rs) = false.
Proof using. intros Hl. split; [|done]. split; simpl; [done|done|lia|lia]. Qed.

(** The states a client can bring about by moving and closing. *)
Inductive reachable (a0 : Art) : Art -> Prop :=
| ReachNew : reachable a0 a0
| ReachMove a m : reachable a0 a -> move_ok m -> reachable a0 (run_move m a).2
| ReachClose a : reachable a0 a -> reachable a0 (close a).2.

Lemma closed_move m a : is_closed a = true -> run_move m a = (Throw (InvalidInstance "ResultSet has been closed"), a).
Proof using.
  intros Hc. pose proof (checkValid_closed a Hc) as Hv.
  assert (Hcv : forall B (f : unit -> Method Art B), (checkValid ≫= f) a =
    (Throw (InvalidInstance "ResultSet has been closed"), a))
    by (intros; by apply method_bind_fails).
  destruct m; simpl; unfold next, first, last, absolute, relative; rewrite ?Hcv; try done.
  - unfold previous, isBeforeFirst. erewrite method_bind_fails; [done|]. by rewrite Hcv.
  - unfold beforeFirst. erewrite method_bind_fails; [done|]. by rewrite Hcv.
  - unfold afterLast. erewrite method_bind_fails; [done|]. by rewrite Hcv.
Qed.

(** The invariant of the cursor holds in every state that can be reached. *)
Lemma reachable_ok fn rs a :
  Z.of_nat (length rs) < INT_MAX -> reachable (Art_new fn rs) a ->
  art_ok a /\ rset a = rs /\ num_fields a = Z.of_nat (length fn).
Proof using.
  intros Hl. induction 1 as [|a m _ (IH & Hrs & Hf) Hm|a _ (IH & Hrs & Hf)].
  - split; [by apply Art_new_ok|done].
  - destruct (is_closed a) eqn:Ho; [by rewrite closed_move|].
    rewrite (run_move_spec m a IH Ho Hm). simpl. split; [|done].
    apply moved_ok; [done|]. apply move_to_range; [by apply art_rows_nonneg|].
    apply (art_position a IH).
  - unfold close. destruct (is_closed a) eqn:Ho.
    + rewrite (method_bind_fails (checkValid_closed a Ho)). done.
    + rewrite (method_bind_ok (checkValid_open a Ho)). simpl. split; [|done].
      destruct IH. by split.
Qed.

(** A result set over [rs] keeps the promise of the cursor. *)
#[export] Program Instance art_cursor (rs : list (list MyVal)) :
    CursorOver run_move (Z.of_nat (length rs)) := {|
  cursor_at p a := art_ok a /\ is_closed a = false /\ rset a = rs /\ row_position a = p;
  cursor_allows _ m := move_ok m;
|}.
Next Obligation.
  intros rs p m a (Ha & Ho & Hr & <-) Hm. pose proof (art_rows a Ha) as Hn.
  rewrite Hr in Hn. rewrite <- Hn. eexists. split; [by apply run_move_spec|].
  split; [|done]. apply moved_ok; [done|]. apply move_to_range; [by apply art_rows_nonneg|].
  by apply art_position.
Qed.
End art.
