(* ===== verification/Fields.v ===== *)
(** * mysqlconnector jdbc/driver/mysql_util.cpp: column types and character sets

    What the server says about a column ([MYSQL_FIELD], of the C API), the types
    the connector makes of it (cppconn/datatype.h), the table of the character
    sets and the translations between them; the numbers of BIT columns.  The library is taken to be newer
    than 5.7.0, so that JSON columns are known; tracing is left out. *)

From S2P Require Import Prelude Cxx Str Unicode MyVal.

(** ** The C API *)

(** The enumerators of [enum_field_types] the connector names, and the others. *)
Inductive enum_field_types :=
| MYSQL_TYPE_DECIMAL | MYSQL_TYPE_NEWDECIMAL | MYSQL_TYPE_TINY | MYSQL_TYPE_SHORT
| MYSQL_TYPE_INT24 | MYSQL_TYPE_LONG | MYSQL_TYPE_LONGLONG | MYSQL_TYPE_FLOAT
| MYSQL_TYPE_DOUBLE | MYSQL_TYPE_BIT | MYSQL_TYPE_NULL | MYSQL_TYPE_TIMESTAMP
| MYSQL_TYPE_DATE | MYSQL_TYPE_TIME | MYSQL_TYPE_DATETIME | MYSQL_TYPE_YEAR
| MYSQL_TYPE_TINY_BLOB | MYSQL_TYPE_MEDIUM_BLOB | MYSQL_TYPE_LONG_BLOB | MYSQL_TYPE_BLOB
| MYSQL_TYPE_VARCHAR | MYSQL_TYPE_VAR_STRING | MYSQL_TYPE_STRING | MYSQL_TYPE_ENUM
| MYSQL_TYPE_SET | MYSQL_TYPE_GEOMETRY | MYSQL_TYPE_JSON
| MYSQL_TYPE_OTHER (code : Z).

#[export] Instance enum_field_types_eq_dec : EqDecision enum_field_types.
Proof. solve_decision. Defined.

(** The flags of a column are bits of a word. *)
Class FieldFlags := {
  NOT_NULL_FLAG : Z;
  UNSIGNED_FLAG : Z;
  ZEROFILL_FLAG : Z;
  BINARY_FLAG : Z;
  ENUM_FLAG : Z;
  AUTO_INCREMENT_FLAG : Z;
  SET_FLAG : Z;
  NUM_FLAG : Z;
}.

(** Their documented values, for examples. *)
Definition documented_flags : FieldFlags := {|
  NOT_NULL_FLAG := 1;
  UNSIGNED_FLAG := 32;
  ZEROFILL_FLAG := 64;
  BINARY_FLAG := 128;
  ENUM_FLAG := 256;
  AUTO_INCREMENT_FLAG := 512;
  SET_FLAG := 2048;
  NUM_FLAG := 32768;
|}.

(** The members of [MYSQL_FIELD] that are read; [f_db] may be a null pointer. *)
Record field := MkField {
  f_name : str;
  f_org_name : str;
  f_org_table : str;
  f_db : option str;
  f_catalog : str;
  f_length : Z;
  f_max_length : Z;
  f_flags : Z;
  f_decimals : Z;
  f_charsetnr : Z;
  f_type : enum_field_types;
}.

(** A column with only a name, a type, flags and a length. *)
Definition simple_field (name : str) (type : enum_field_types) (flags length : Z) : field :=
  MkField name name [] None [] length 0 flags 0 0 type.

(** [field->flags & FLAG] *)
Definition has_flag (f : field) (flag : Z) : bool := negb (Z.land (f_flags f) flag =? 0).

(** ** mysql_util.h: the big-endian numbers of BIT columns *)

(** The byte at an index of a C string of known length; its terminator can be
    read, the bytes after it cannot. *)
Definition byte_at (s : str) (i : nat) : outcome Z :=
  match s !! i with
  | Some c => Ok (byte_of c)
  | None => if bool_decide (i = length s) then Ok 0 else Undefined
  end.

(** [bit_uint1korr] to [bit_uint8korr], [n] being the number of bytes: byte [i]
    is shifted by 8 bits for every byte after it. *)
Fixpoint bit_uintkorr_from (s : str) (i n : nat) : outcome Z :=
  match n with
  | O => Ok 0
  | S n' =>
      b ← byte_at s i;
      r ← bit_uintkorr_from s (S i) n';
      Ok (Z.shiftl b (8 * Z.of_nat n') + r)
  end.
Definition bit_uintkorr (n : nat) (s : str) : outcome Z := bit_uintkorr_from s 0 n.

(** ** cppconn/datatype.h *)

Inductive DataType :=
| UNKNOWN | BIT | TINYINT | SMALLINT | MEDIUMINT | INTEGER | BIGINT | REAL | DOUBLE | DECIMAL
| NUMERIC | CHAR | BINARY | VARCHAR | VARBINARY | LONGVARCHAR | LONGVARBINARY | TIMESTAMP | DATE
| TIME | YEAR | GEOMETRY | ENUM | SET | SQLNULL | JSON.

#[export] Instance DataType_eq_dec : EqDecision DataType.
Proof. solve_decision. Defined.

(** ** The character sets *)

(** [OUR_CHARSET] without the comment's and the functions' last members: every
    function pointer of the table is null. *)
Record OUR_CHARSET := OUR {
  nr : Z;
  cs_name : str;
  collation : str;
  char_minlen : Z;
  char_maxlen : Z;
  comment : str;
}.

(** The table [our_charsets60], in three parts and a last entry that ends it (its
    strings are null pointers). *)
Definition charsets_8bit : list OUR_CHARSET := [
  OUR 1 "big5" "big5_chinese_ci" 1 2 "";
  OUR 3 "dec8" "dec8_swedisch_ci" 1 1 "";
  OUR 4 "cp850" "cp850_general_ci" 1 1 "";
  OUR 6 "hp8" "hp8_english_ci" 1 1 "";
  OUR 7 "koi8r" "koi8r_general_ci" 1 1 "";
  OUR 8 "latin1" "latin1_swedish_ci" 1 1 "";
  OUR 9 "latin2" "latin2_general_ci" 1 1 "";
  OUR 10 "swe7" "swe7_swedish_ci" 1 1 "";
  OUR 11 "ascii" "ascii_general_ci" 1 1 "";
  OUR 12 "ujis" "ujis_japanese_ci" 1 3 "";
  OUR 13 "sjis" "sjis_japanese_ci" 1 2 "";
  OUR 16 "hebrew" "hebrew_general_ci" 1 1 "";
  OUR 18 "tis620" "tis620_thai_ci" 1 1 "";
  OUR 19 "euckr" "euckr_korean_ci" 1 2 "";
  OUR 22 "koi8u" "koi8u_general_ci" 1 1 "";
  OUR 24 "gb2312" "gb2312_chinese_ci" 1 2 "";
  OUR 25 "greek" "greek_general_ci" 1 1 "";
  OUR 26 "cp1250" "cp1250_general_ci" 1 1 "";
  OUR 28 "gbk" "gbk_chinese_ci" 1 2 "";
  OUR 30 "latin5" "latin5_turkish_ci" 1 1 "";
  OUR 32 "armscii8" "armscii8_general_ci" 1 1 "";
  OUR 33 "utf8" "utf8_general_ci" 1 3 "UTF-8 Unicode";
  OUR 35 "ucs2" "ucs2_general_ci" 2 2 "UCS-2 Unicode";
  OUR 36 "cp866" "cp866_general_ci" 1 1 "";
  OUR 37 "keybcs2" "keybcs2_general_ci" 1 1 "";
  OUR 38 "macce" "macce_general_ci" 1 1 "";
  OUR 39 "macroman" "macroman_general_ci" 1 1 "";
  OUR 40 "cp852" "cp852_general_ci" 1 1 "";
  OUR 41 "latin7" "latin7_general_ci" 1 1 "";
  OUR 51 "cp1251" "cp1251_general_ci" 1 1 "";
  OUR 57 "cp1256" "cp1256_general_ci" 1 1 "";
  OUR 59 "cp1257" "cp1257_general_ci" 1 1 "";
  OUR 63 "binary" "binary" 1 1 "";
  OUR 92 "geostd8" "geostd8_general_ci" 1 1 "";
  OUR 95 "cp932" "cp932_japanese_ci" 1 2 "";
  OUR 97 "eucjpms" "eucjpms_japanese_ci" 1 3 "";
  OUR 2 "latin2" "latin2_czech_cs" 1 1 "";
  OUR 5 "latin1" "latin1_german_ci" 1 1 "";
  OUR 14 "cp1251" "cp1251_bulgarian_ci" 1 1 "";
  OUR 15 "latin1" "latin1_danish_ci" 1 1 "";
  OUR 17 "filename" "filename" 1 5 "";
  OUR 20 "latin7" "latin7_estonian_cs" 1 1 "";
  OUR 21 "latin2" "latin2_hungarian_ci" 1 1 "";
  OUR 23 "cp1251" "cp1251_ukrainian_ci" 1 1 "";
  OUR 27 "latin2" "latin2_croatian_ci" 1 1 "";
  OUR 29 "cp1257" "cp1257_lithunian_ci" 1 1 "";
  OUR 31 "latin1" "latin1_german2_ci" 1 1 "";
  OUR 34 "cp1250" "cp1250_czech_cs" 1 1 "";
  OUR 42 "latin7" "latin7_general_cs" 1 1 "";
  OUR 43 "macce" "macce_bin" 1 1 "";
  OUR 44 "cp1250" "cp1250_croatian_ci" 1 1 "";
  OUR 47 "latin1" "latin1_bin" 1 1 "";
  OUR 48 "latin1" "latin1_general_ci" 1 1 "";
  OUR 49 "latin1" "latin1_general_cs" 1 1 "";
  OUR 50 "cp1251" "cp1251_bin" 1 1 "";
  OUR 52 "cp1251" "cp1251_general_cs" 1 1 "";
  OUR 53 "macroman" "macroman_bin" 1 1 "";
  OUR 58 "cp1257" "cp1257_bin" 1 1 "";
  OUR 60 "armascii8" "armascii8_bin" 1 1 "";
  OUR 65 "ascii" "ascii_bin" 1 1 "";
  OUR 66 "cp1250" "cp1250_bin" 1 1 "";
  OUR 67 "cp1256" "cp1256_bin" 1 1 "";
  OUR 68 "cp866" "cp866_bin" 1 1 "";
  OUR 69 "dec8" "dec8_bin" 1 1 "";
  OUR 70 "greek" "greek_bin" 1 1 "";
  OUR 71 "hebrew" "hebrew_bin" 1 1 "";
  OUR 72 "hp8" "hp8_bin" 1 1 "";
  OUR 73 "keybcs2" "keybcs2_bin" 1 1 "";
  OUR 74 "koi8r" "koi8r_bin" 1 1 "";
  OUR 75 "koi8u" "koi8u_bin" 1 1 "";
  OUR 77 "latin2" "latin2_bin" 1 1 "";
  OUR 78 "latin5" "latin5_bin" 1 1 "";
  OUR 79 "latin7" "latin7_bin" 1 1 "";
  OUR 80 "cp850" "cp850_bin" 1 1 "";
  OUR 81 "cp852" "cp852_bin" 1 1 "";
  OUR 82 "swe7" "swe7_bin" 1 1 "";
  OUR 93 "geostd8" "geostd8_bin" 1 1 "";
  OUR 83 "utf8" "utf8_bin" 1 3 "UTF-8 Unicode";
  OUR 84 "big5" "big5_bin" 1 2 "";
  OUR 85 "euckr" "euckr_bin" 1 2 "";
  OUR 86 "gb2312" "gb2312_bin" 1 2 "";
  OUR 87 "gbk" "gbk_bin" 1 2 "";
  OUR 88 "sjis" "sjis_bin" 1 2 "";
  OUR 89 "tis620" "tis620_bin" 1 1 "";
  OUR 90 "ucs2" "ucs2_bin" 2 2 "UCS-2 Unicode";
  OUR 91 "ujis" "ujis_bin" 1 3 "";
  OUR 94 "latin1" "latin1_spanish_ci" 1 1 "";
  OUR 96 "cp932" "cp932_bin" 1 2 "";
  OUR 99 "cp1250" "cp1250_polish_ci" 1 1 "";
  OUR 98 "eucjpms" "eucjpms_bin" 1 3 ""
].

Definition charsets_unicode : list OUR_CHARSET := [
  OUR 128 "ucs2" "ucs2_unicode_ci" 2 2 "";
  OUR 129 "ucs2" "ucs2_icelandic_ci" 2 2 "";
  OUR 130 "ucs2" "ucs2_latvian_ci" 2 2 "";
  OUR 131 "ucs2" "ucs2_romanian_ci" 2 2 "";
  OUR 132 "ucs2" "ucs2_slovenian_ci" 2 2 "";
  OUR 133 "ucs2" "ucs2_polish_ci" 2 2 "";
  OUR 134 "ucs2" "ucs2_estonian_ci" 2 2 "";
  OUR 135 "ucs2" "ucs2_spanish_ci" 2 2 "";
  OUR 136 "ucs2" "ucs2_swedish_ci" 2 2 "";
  OUR 137 "ucs2" "ucs2_turkish_ci" 2 2 "";
  OUR 138 "ucs2" "ucs2_czech_ci" 2 2 "";
  OUR 139 "ucs2" "ucs2_danish_ci" 2 2 "";
  OUR 140 "ucs2" "ucs2_lithunian_ci" 2 2 "";
  OUR 141 "ucs2" "ucs2_slovak_ci" 2 2 "";
  OUR 142 "ucs2" "ucs2_spanish2_ci" 2 2 "";
  OUR 143 "ucs2" "ucs2_roman_ci" 2 2 "";
  OUR 144 "ucs2" "ucs2_persian_ci" 2 2 "";
  OUR 145 "ucs2" "ucs2_esperanto_ci" 2 2 "";
  OUR 146 "ucs2" "ucs2_hungarian_ci" 2 2 "";
  OUR 147 "ucs2" "ucs2_sinhala_ci" 2 2 "";
  OUR 148 "ucs2" "ucs2_german2_ci" 2 2 "";
  OUR 149 "ucs2" "ucs2_croatian_ci" 2 2 "";
  OUR 150 "ucs2" "ucs2_unicode_520_ci" 2 2 "";
  OUR 192 "utf8" "utf8_unicode_ci" 1 3 "";
  OUR 193 "utf8" "utf8_icelandic_ci" 1 3 "";
  OUR 194 "utf8" "utf8_latvian_ci" 1 3 "";
  OUR 195 "utf8" "utf8_romanian_ci" 1 3 "";
  OUR 196 "utf8" "utf8_slovenian_ci" 1 3 "";
  OUR 197 "utf8" "utf8_polish_ci" 1 3 "";
  OUR 198 "utf8" "utf8_estonian_ci" 1 3 "";
  OUR 199 "utf8" "utf8_spanish_ci" 1 3 "";
  OUR 200 "utf8" "utf8_swedish_ci" 1 3 "";
  OUR 201 "utf8" "utf8_turkish_ci" 1 3 "";
  OUR 202 "utf8" "utf8_czech_ci" 1 3 "";
  OUR 203 "utf8" "utf8_danish_ci" 1 3 "";
  OUR 204 "utf8" "utf8_lithunian_ci" 1 3 "";
  OUR 205 "utf8" "utf8_slovak_ci" 1 3 "";
  OUR 206 "utf8" "utf8_spanish2_ci" 1 3 "";
  OUR 207 "utf8" "utf8_roman_ci" 1 3 "";
  OUR 208 "utf8" "utf8_persian_ci" 1 3 "";
  OUR 209 "utf8" "utf8_esperanto_ci" 1 3 "";
  OUR 210 "utf8" "utf8_hungarian_ci" 1 3 "";
  OUR 211 "utf8" "utf8_sinhala_ci" 1 3 "";
  OUR 212 "utf8" "utf8_german2_ci" 1 3 "";
  OUR 213 "utf8" "utf8_croatian_ci" 1 3 "";
  OUR 214 "utf8" "utf8_unicode_520_ci" 1 3 "";
  OUR 215 "utf8" "utf8_vietnamese_ci" 1 3 "";
  OUR 223 "utf8" "utf8_general_mysql500_ci" 1 3 "";
  OUR 45 "utf8mb4" "utf8mb4_general_ci" 1 4 "";
  OUR 46 "utf8mb4" "utf8mb4_bin" 1 4 "";
  OUR 224 "utf8mb4" "utf8mb4_unicode_ci" 1 4 "";
  OUR 225 "utf8mb4" "utf8mb4_icelandic_ci" 1 4 "";
  OUR 226 "utf8mb4" "utf8mb4_latvian_ci" 1 4 "";
  OUR 227 "utf8mb4" "utf8mb4_romanian_ci" 1 4 "";
  OUR 228 "utf8mb4" "utf8mb4_slovenian_ci" 1 4 "";
  OUR 229 "utf8mb4" "utf8mb4_polish_ci" 1 4 "";
  OUR 230 "utf8mb4" "utf8mb4_estonian_ci" 1 4 "";
  OUR 231 "utf8mb4" "utf8mb4_spanish_ci" 1 4 "";
  OUR 232 "utf8mb4" "utf8mb4_swedish_ci" 1 4 "";
  OUR 233 "utf8mb4" "utf8mb4_turkish_ci" 1 4 "";
  OUR 234 "utf8mb4" "utf8mb4_czech_ci" 1 4 "";
  OUR 235 "utf8mb4" "utf8mb4_danish_ci" 1 4 "";
  OUR 236 "utf8mb4" "utf8mb4_lithuanian_ci" 1 4 "";
  OUR 237 "utf8mb4" "utf8mb4_slovak_ci" 1 4 "";
  OUR 238 "utf8mb4" "utf8mb4_spanish2_ci" 1 4 "";
  OUR 239 "utf8mb4" "utf8mb4_roman_ci" 1 4 "";
  OUR 240 "utf8mb4" "utf8mb4_persian_ci" 1 4 "";
  OUR 241 "utf8mb4" "utf8mb4_esperanto_ci" 1 4 "";
  OUR 242 "utf8mb4" "utf8mb4_hungarian_ci" 1 4 "";
  OUR 243 "utf8mb4" "utf8mb4_sinhala_ci" 1 4 "";
  OUR 244 "utf8mb4" "utf8mb4_german2_ci" 1 4 "";
  OUR 245 "utf8mb4" "utf8mb4_croatian_ci" 1 4 "";
  OUR 246 "utf8mb4" "utf8mb4_unicode_520_ci" 1 4 "";
  OUR 247 "utf8mb4" "utf8mb4_vietnamese_ci" 1 4 "";
  OUR 248 "utf8mb4" "utf8mb4_vietnamese_ci" 1 4 "";
  OUR 248 "gb18030" "gb18030_chinese_ci" 1 4 "";
  OUR 249 "gb18030" "gb18030_bin" 1 4 "";
  OUR 250 "gb18030" "gb18030_unicode_520_ci" 1 4 "";
  OUR 255 "utf8mb4" "utf8mb4_0900_ai_ci" 1 4 "";
  OUR 254 "utf8" "utf8_general_cs" 1 3 ""
].

Definition charsets_wide : list OUR_CHARSET := [
  OUR 101 "utf16" "utf16_unicode_ci" 2 4 "";
  OUR 102 "utf16" "utf16_icelandic_ci" 2 4 "";
  OUR 103 "utf16" "utf16_latvian_ci" 2 4 "";
  OUR 104 "utf16" "utf16_romanian_ci" 2 4 "";
  OUR 105 "utf16" "utf16_slovenian_ci" 2 4 "";
  OUR 106 "utf16" "utf16_polish_ci" 2 4 "";
  OUR 107 "utf16" "utf16_estonian_ci" 2 4 "";
  OUR 108 "utf16" "utf16_spanish_ci" 2 4 "";
  OUR 109 "utf16" "utf16_swedish_ci" 2 4 "";
  OUR 110 "utf16" "utf16_turkish_ci" 2 4 "";
  OUR 111 "utf16" "utf16_czech_ci" 2 4 "";
  OUR 112 "utf16" "utf16_danish_ci" 2 4 "";
  OUR 113 "utf16" "utf16_lithuanian_ci" 2 4 "";
  OUR 114 "utf16" "utf16_slovak_ci" 2 4 "";
  OUR 115 "utf16" "utf16_spanish2_ci" 2 4 "";
  OUR 116 "utf16" "utf16_roman_ci" 2 4 "";
  OUR 117 "utf16" "utf16_persian_ci" 2 4 "";
  OUR 118 "utf16" "utf16_esperanto_ci" 2 4 "";
  OUR 119 "utf16" "utf16_hungarian_ci" 2 4 "";
  OUR 120 "utf16" "utf16_sinhala_ci" 2 4 "";
  OUR 121 "utf16" "utf16_german2_ci" 2 4 "";
  OUR 122 "utf16" "utf16_croatian_ci" 2 4 "";
  OUR 123 "utf16" "utf16_unicode_520_ci" 2 4 "";
  OUR 124 "utf16" "utf16_vietnamese_ci" 2 4 "";
  OUR 160 "utf32" "utf32_unicode_ci" 4 4 "";
  OUR 161 "utf32" "utf32_icelandic_ci" 4 4 "";
  OUR 162 "utf32" "utf32_latvian_ci" 4 4 "";
  OUR 163 "utf32" "utf32_romanian_ci" 4 4 "";
  OUR 164 "utf32" "utf32_slovenian_ci" 4 4 "";
  OUR 165 "utf32" "utf32_polish_ci" 4 4 "";
  OUR 166 "utf32" "utf32_estonian_ci" 4 4 "";
  OUR 167 "utf32" "utf32_spanish_ci" 4 4 "";
  OUR 168 "utf32" "utf32_swedish_ci" 4 4 "";
  OUR 169 "utf32" "utf32_turkish_ci" 4 4 "";
  OUR 170 "utf32" "utf32_czech_ci" 4 4 "";
  OUR 171 "utf32" "utf32_danish_ci" 4 4 "";
  OUR 172 "utf32" "utf32_lithuanian_ci" 4 4 "";
  OUR 173 "utf32" "utf32_slovak_ci" 4 4 "";
  OUR 174 "utf32" "utf32_spanish2_ci" 4 4 "";
  OUR 175 "utf32" "utf32_roman_ci" 4 4 "";
  OUR 176 "utf32" "utf32_persian_ci" 4 4 "";
  OUR 177 "utf32" "utf32_esperanto_ci" 4 4 "";
  OUR 178 "utf32" "utf32_hungarian_ci" 4 4 "";
  OUR 179 "utf32" "utf32_sinhala_ci" 4 4 "";
  OUR 180 "utf32" "utf32_german2_ci" 4 4 "";
  OUR 181 "utf32" "utf32_croatian_ci" 4 4 "";
  OUR 182 "utf32" "utf32_unicode_520_ci" 4 4 "";
  OUR 183 "utf32" "utf32_vietnamese_ci" 4 4 ""
].

Definition our_charsets60 : list OUR_CHARSET :=
  charsets_8bit ++ charsets_unicode ++ charsets_wide ++ [OUR 0 [] [] 0 0 []].

(** The loop tests an entry before it looks whether the next one ends the table. *)
Fixpoint find_charset_from (c : list OUR_CHARSET) (charsetnr : Z) : outcome (option OUR_CHARSET) :=
  match c with
  | [] => Undefined
  | e :: c' =>
      if nr e =? charsetnr then Ok (Some e)
      else
        match c' with
        | [] => Undefined
        | e' :: _ => if nr e' =? 0 then Ok None else find_charset_from c' charsetnr
        end
  end.

Definition find_charset (charsetnr : Z) : outcome (option OUR_CHARSET) :=
  find_charset_from our_charsets60 charsetnr.

(** ** Unknown character sets *)

(** [std::ostringstream msg(init)] writes from the start of its buffer. *)
Definition ostringstream_of (init written : str) : str := written ++ drop (length written) init.

(** The message most functions throw, and the one the methods with an empty
    [ostringstream] throw. *)
Definition unknown_charset {A} (charsetnr : Z) : outcome A :=
  t ← show_dec (charsetnr mod 2 ^ 32);
  Throw (SqlError (ostringstream_of "Server sent unknown charsetnr ("
    (t ++ ") . Please report"))).

Definition unknown_charset_name {A} (charsetnr : Z) : outcome A :=
  t ← show_dec (charsetnr mod 2 ^ 32);
  Throw (SqlError ("Server sent unknown charsetnr (" ++ t ++ ") . Please report")).

Section types.
Context `{FieldFlags}.

Definition MAGIC_BINARY_CHARSET_NR : Z := 63.

(** [cs] is only looked up for the exception. *)
Definition known_charset {A} (charsetnr : Z) (a : A) : outcome A :=
  cs ← find_charset charsetnr;
  match cs with None => unknown_charset charsetnr | Some _ => Ok a end.

Definition is_binary (f : field) : bool :=
  has_flag f BINARY_FLAG && (f_charsetnr f =? MAGIC_BINARY_CHARSET_NR).

Definition mysql_type_to_datatype (f : field) : outcome DataType :=
  match f_type f with
  | MYSQL_TYPE_BIT =>
      Ok (if negb (f_flags f =? Z.lor BINARY_FLAG UNSIGNED_FLAG) then BIT else BINARY)
  | MYSQL_TYPE_DECIMAL | MYSQL_TYPE_NEWDECIMAL => Ok DECIMAL
  | MYSQL_TYPE_TINY => Ok TINYINT
  | MYSQL_TYPE_SHORT => Ok SMALLINT
  | MYSQL_TYPE_INT24 => Ok MEDIUMINT
  | MYSQL_TYPE_LONG => Ok INTEGER
  | MYSQL_TYPE_LONGLONG => Ok BIGINT
  | MYSQL_TYPE_FLOAT => Ok REAL
  | MYSQL_TYPE_DOUBLE => Ok DOUBLE
  | MYSQL_TYPE_NULL => Ok SQLNULL
  | MYSQL_TYPE_TIMESTAMP => Ok TIMESTAMP
  | MYSQL_TYPE_DATE => Ok DATE
  | MYSQL_TYPE_TIME => Ok TIME
  | MYSQL_TYPE_YEAR => Ok YEAR
  | MYSQL_TYPE_DATETIME => Ok TIMESTAMP
  | MYSQL_TYPE_TINY_BLOB =>
      known_charset (f_charsetnr f) (if is_binary f then VARBINARY else VARCHAR)
  | MYSQL_TYPE_MEDIUM_BLOB | MYSQL_TYPE_LONG_BLOB | MYSQL_TYPE_BLOB =>
      known_charset (f_charsetnr f) (if is_binary f then LONGVARBINARY else LONGVARCHAR)
  | MYSQL_TYPE_VARCHAR | MYSQL_TYPE_VAR_STRING =>
      Ok (if has_flag f SET_FLAG then SET
          else if has_flag f ENUM_FLAG then ENUM
          else if is_binary f then VARBINARY else VARCHAR)
  | MYSQL_TYPE_STRING =>
      Ok (if has_flag f SET_FLAG then SET
          else if has_flag f ENUM_FLAG then ENUM
          else if is_binary f then BINARY else CHAR)
  | MYSQL_TYPE_ENUM => Ok ENUM
  | MYSQL_TYPE_SET => Ok SET
  | MYSQL_TYPE_GEOMETRY => Ok GEOMETRY
  | MYSQL_TYPE_JSON => Ok JSON
  | MYSQL_TYPE_OTHER _ => Ok UNKNOWN
  end.

(** The names of a chain of comparisons, in the order of the source. *)
Definition string_types : list (list string * DataType) := [
  (["bit"], BIT);
  (["decimal"; "decimal unsigned"], DECIMAL);
  (["tinyint"; "tinyint unsigned"], TINYINT);
  (["smallint"; "smallint unsigned"], SMALLINT);
  (["mediumint"; "mediumint unsigned"], MEDIUMINT);
  (["int"; "int unsigned"], INTEGER);
  (["bigint"; "bigint unsigned"], BIGINT);
  (["float"; "float unsigned"], REAL);
  (["double"; "double unsigned"], DOUBLE);
  (["timestamp"], TIMESTAMP);
  (["date"], DATE);
  (["time"], TIME);
  (["year"], YEAR);
  (["datetime"], TIMESTAMP);
  (["tinytext"], VARCHAR);
  (["mediumtext"; "text"; "longtext"], LONGVARCHAR);
  (["tinyblob"], VARBINARY);
  (["mediumblob"; "blob"; "longblob"], LONGVARBINARY);
  (["char"], CHAR);
  (["binary"], BINARY);
  (["varchar"], VARCHAR);
  (["varbinary"], VARBINARY);
  (["enum"], ENUM);
  (["set"], SET);
  (["geometry"], GEOMETRY);
  (["json"], JSON)
]%string.

Definition mysql_string_type_to_datatype (name : str) : DataType :=
  match List.find (fun e => existsb (fun s : string => str_eqb name s) e.1) string_types with
  | Some e => e.2
  | None => UNKNOWN
  end.

(** The type names of numbers. *)
Definition number_name (f : field) (name : str) : str :=
  if has_flag f UNSIGNED_FLAG then
    if has_flag f ZEROFILL_FLAG then name ++ " UNSIGNED ZEROFILL" else name ++ " UNSIGNED"
  else name.

(** The type names of texts: the character set is looked up unless it is binary. *)
Definition blob_name (f : field) (binary text : str) : outcome str :=
  if f_charsetnr f =? MAGIC_BINARY_CHARSET_NR then Ok binary
  else known_charset (f_charsetnr f) text.

Definition mysql_type_to_string (f : field) : outcome str :=
  match f_type f with
  | MYSQL_TYPE_BIT => Ok ("BIT" : str)
  | MYSQL_TYPE_DECIMAL | MYSQL_TYPE_NEWDECIMAL => Ok (number_name f "DECIMAL")
  | MYSQL_TYPE_TINY => Ok (number_name f "TINYINT")
  | MYSQL_TYPE_SHORT => Ok (number_name f "SMALLINT")
  | MYSQL_TYPE_LONG => Ok (number_name f "INT")
  | MYSQL_TYPE_FLOAT => Ok (number_name f "FLOAT")
  | MYSQL_TYPE_DOUBLE => Ok (number_name f "DOUBLE")
  | MYSQL_TYPE_NULL => Ok ("NULL" : str)
  | MYSQL_TYPE_TIMESTAMP => Ok ("TIMESTAMP" : str)
  | MYSQL_TYPE_LONGLONG => Ok (number_name f "BIGINT")
  | MYSQL_TYPE_INT24 => Ok (number_name f "MEDIUMINT")
  | MYSQL_TYPE_DATE => Ok ("DATE" : str)
  | MYSQL_TYPE_TIME => Ok ("TIME" : str)
  | MYSQL_TYPE_DATETIME => Ok ("DATETIME" : str)
  | MYSQL_TYPE_TINY_BLOB => blob_name f "TINYBLOB" "TINYTEXT"
  | MYSQL_TYPE_MEDIUM_BLOB => blob_name f "MEDIUMBLOB" "MEDIUMTEXT"
  | MYSQL_TYPE_LONG_BLOB => blob_name f "LONGBLOB" "LONGTEXT"
  | MYSQL_TYPE_BLOB => blob_name f "BLOB" "TEXT"
  | MYSQL_TYPE_VARCHAR | MYSQL_TYPE_VAR_STRING =>
      Ok (if has_flag f ENUM_FLAG then ("ENUM" : str)
          else if has_flag f SET_FLAG then ("SET" : str)
          else if f_charsetnr f =? MAGIC_BINARY_CHARSET_NR then ("VARBINARY" : str)
          else ("VARCHAR" : str))
  | MYSQL_TYPE_STRING =>
      Ok (if has_flag f ENUM_FLAG then ("ENUM" : str)
          else if has_flag f SET_FLAG then ("SET" : str)
          else if is_binary f then ("BINARY" : str) else ("CHAR" : str))
  | MYSQL_TYPE_ENUM => Ok ("ENUM" : str)
  | MYSQL_TYPE_YEAR => Ok ("YEAR" : str)
  | MYSQL_TYPE_SET => Ok ("SET" : str)
  | MYSQL_TYPE_GEOMETRY => Ok ("GEOMETRY" : str)
  | MYSQL_TYPE_JSON => Ok ("JSON" : str)
  | MYSQL_TYPE_OTHER _ => Ok ("UNKNOWN" : str)
  end.
End types.

(** ** Facts *)

Lemma Ok_inj {A} (a b : A) : Ok a = Ok b -> a = b.
Proof. congruence. Qed.

(** [find_charset] returns the first entry with the number, if any. *)
Lemma find_charset_from_find c charsetnr :
  Forall (fun e => nr e <> 0) c -> c <> [] ->
  find_charset_from (c ++ [OUR 0 [] [] 0 0 []]) charsetnr =
    Ok (List.find (fun e => nr e =? charsetnr) c).
Proof.
  intros Hc. induction Hc as [|e c He Hc IH]; intros Hne; [done|].
  cbn [app find_charset_from List.find]. destruct (nr e =? charsetnr); [done|].
  destruct c as [|e' c].
  - done.
  - inversion Hc; subst. cbn [app]. rewrite (proj2 (Z.eqb_neq _ _)) by done. by apply IH.
Qed.

Definition charsets : list OUR_CHARSET := charsets_8bit ++ charsets_unicode ++ charsets_wide.

Lemma charsets_numbered : Forall (fun e => nr e <> 0 /\ 1 <= char_maxlen e <= 5) charsets.
Proof.
  apply Forall_forall. intros e He.
  assert (Hb : forallb (fun e => negb (nr e =? 0) && (1 <=? char_maxlen e) && (char_maxlen e <=? 5))
    charsets = true) by by vm_compute.
  rewrite forallb_forall in Hb. apply list_elem_of_In in He. specialize (Hb e He).
  rewrite !andb_true_iff, negb_true_iff, Z.eqb_neq, !Z.leb_le in Hb. tauto.
Qed.

Lemma find_charset_find charsetnr :
  find_charset charsetnr = Ok (List.find (fun e => nr e =? charsetnr) charsets).
Proof.
  unfold find_charset. change our_charsets60 with (charsets ++ [OUR 0 [] [] 0 0 []]).
  apply find_charset_from_find; [|done].
  eapply Forall_impl; [exact charsets_numbered|]. naive_solver.
Qed.

(** Characters of a known character set have between one and five bytes. *)
Lemma find_charset_maxlen charsetnr e :
  find_charset charsetnr = Ok (Some e) -> nr e = charsetnr /\ 1 <= char_maxlen e <= 5.
Proof.
  rewrite find_charset_find. intros E. apply Ok_inj, find_some in E as [He Hn].
  split; [by apply Z.eqb_eq|]. apply list_elem_of_In in He.
  pose proof charsets_numbered as Hf. rewrite Forall_forall in Hf. exact (proj2 (Hf e He)).
Qed.

Lemma known_charset_ok {A} charsetnr (a b : A) :
  known_charset charsetnr a = Ok b -> b = a.
Proof.
  unfold known_charset. rewrite find_charset_find, obind_Ok.
  destruct (List.find _ _); intros E; [by apply Ok_inj in E as ->|revert E].
  unfold unknown_charset. destruct (show_dec _); done.
Qed.

Lemma known_charset_return {A} charsetnr e (a : A) :
  find_charset charsetnr = Ok (Some e) -> known_charset charsetnr a = Ok a.
Proof. intros E. unfold known_charset. by rewrite E. Qed.

Section type_facts.
Context `{FieldFlags}.

(** Only an unknown character set makes the translations throw. *)
Lemma type_known f e :
  find_charset (f_charsetnr f) = Ok (Some e) -> is_ok (mysql_type_to_datatype f) = true.
Proof using.
  intros E. unfold mysql_type_to_datatype. by destruct (f_type f); rewrite ?(known_charset_return _ e).
Qed.

Lemma type_name_known f e :
  find_charset (f_charsetnr f) = Ok (Some e) -> is_ok (mysql_type_to_string f) = true.
Proof using.
  intros E. unfold mysql_type_to_string, blob_name.
  by destruct (f_type f); rewrite ?(known_charset_return _ e); try destruct (_ =? _).
Qed.

(** A column whose type and its name agree: not unsigned and zero-filled, not
    both an enumeration and a set, not without values, not BIT with exactly the
    flags BINARY and UNSIGNED; of binary character set only with the flag. *)
Definition regular (f : field) : bool :=
  negb (has_flag f UNSIGNED_FLAG && has_flag f ZEROFILL_FLAG) &&
  negb (has_flag f ENUM_FLAG && has_flag f SET_FLAG) &&
  negb (bool_decide (f_type f = MYSQL_TYPE_NULL)) &&
  negb (bool_decide (f_type f = MYSQL_TYPE_BIT) &&
        (f_flags f =? Z.lor BINARY_FLAG UNSIGNED_FLAG)) &&
  (has_flag f BINARY_FLAG || negb (f_charsetnr f =? MAGIC_BINARY_CHARSET_NR)).

Definition ascii_lower (c : ascii) : ascii :=
  let n := nat_of_ascii c in
  if (65 <=? n)%nat && (n <=? 90)%nat then ascii_of_nat (n + 32) else c.

(** The name printed for a column, in small letters, is read as its type. *)
Lemma type_name_read f d s :
  mysql_type_to_datatype f = Ok d -> mysql_type_to_string f = Ok s -> regular f = true ->
  mysql_string_type_to_datatype (map ascii_lower s) = d.
Proof using.
  intros Hd Hs. unfold regular. rewrite !andb_true_iff, !negb_true_iff.
  unfold mysql_type_to_datatype, mysql_type_to_string, blob_name, number_name, is_binary in *.
  intros [[[[Hz He] Hn] Hb] Hc].
  destruct (f_type f); try (rewrite bool_decide_true in Hn by done; discriminate Hn);
    try rewrite bool_decide_true in Hb by done; cbn [andb] in Hb; try rewrite Hb in Hd;
    destruct (has_flag f UNSIGNED_FLAG), (has_flag f ZEROFILL_FLAG), (has_flag f ENUM_FLAG),
      (has_flag f SET_FLAG), (has_flag f BINARY_FLAG),
      (f_charsetnr f =? MAGIC_BINARY_CHARSET_NR); try discriminate;
    cbn [andb orb negb] in *;
    try (apply Ok_inj in Hd; subst d); try (apply Ok_inj in Hs; subst s);
    try (apply known_charset_ok in Hd; subst d); try (apply known_charset_ok in Hs; subst s);
    by vm_compute.
Qed.
End type_facts.
