(* ===== verification/MetaData.v ===== *)
(** * mysqlconnector cppconn/resultset_metadata.h: the metadata of a result

    The abstract class [ResultSetMetaData] and what its implementations promise:
    a column outside of the result is refused by every method. *)

From S2P Require Import Prelude Fields.

(** The anonymous enumeration. *)
Definition columnNoNulls : Z := 0.
Definition columnNullable : Z := 1.
Definition columnNullableUnknown : Z := 2.

(** What [checkColumnIndex] throws. *)
Definition no_column : exn := SqlInvalidArgument "Invalid value for columnIndex".

Class ResultSetMetaData (M : Type) := {
  getCatalogName : M -> Z -> outcome str;
  getColumnCount : M -> outcome Z;
  getColumnDisplaySize : M -> Z -> outcome Z;
  getColumnLabel : M -> Z -> outcome str;
  getColumnName : M -> Z -> outcome str;
  getColumnType : M -> Z -> outcome DataType;
  getColumnTypeName : M -> Z -> outcome str;
  getColumnCharset : M -> Z -> outcome str;
  getColumnCollation : M -> Z -> outcome str;
  getPrecision : M -> Z -> outcome Z;
  getScale : M -> Z -> outcome Z;
  getSchemaName : M -> Z -> outcome str;
  getTableName : M -> Z -> outcome str;
  isAutoIncrement : M -> Z -> outcome bool;
  isCaseSensitive : M -> Z -> outcome bool;
  isCurrency : M -> Z -> outcome bool;
  isDefinitelyWritable : M -> Z -> outcome bool;
  isNullable : M -> Z -> outcome Z;
  isNumeric : M -> Z -> outcome bool;
  isReadOnly : M -> Z -> outcome bool;
  isSearchable : M -> Z -> outcome bool;
  isSigned : M -> Z -> outcome bool;
  isWritable : M -> Z -> outcome bool;
  isZerofill : M -> Z -> outcome bool
}.

(** All methods of a column, whatever they return. *)
Definition column_methods {M} `{ResultSetMetaData M} (m : M) (i : Z) : list (outcome unit) :=
  [ (fun _ => tt) <$> getCatalogName m i;
    (fun _ => tt) <$> getColumnDisplaySize m i;
    (fun _ => tt) <$> getColumnLabel m i;
    (fun _ => tt) <$> getColumnName m i;
    (fun _ => tt) <$> getColumnType m i;
    (fun _ => tt) <$> getColumnTypeName m i;
    (fun _ => tt) <$> getColumnCharset m i;
    (fun _ => tt) <$> getColumnCollation m i;
    (fun _ => tt) <$> getPrecision m i;
    (fun _ => tt) <$> getScale m i;
    (fun _ => tt) <$> getSchemaName m i;
    (fun _ => tt) <$> getTableName m i;
    (fun _ => tt) <$> isAutoIncrement m i;
    (fun _ => tt) <$> isCaseSensitive m i;
    (fun _ => tt) <$> isCurrency m i;
    (fun _ => tt) <$> isDefinitelyWritable m i;
    (fun _ => tt) <$> isNullable m i;
    (fun _ => tt) <$> isNumeric m i;
    (fun _ => tt) <$> isReadOnly m i;
    (fun _ => tt) <$> isSearchable m i;
    (fun _ => tt) <$> isSigned m i;
    (fun _ => tt) <$> isWritable m i;
    (fun _ => tt) <$> isZerofill m i ].

Class MetaDataLaws (M : Type) `{ResultSetMetaData M} := {
  md_valid : M -> Prop;
  md_count : M -> Z;
  md_columns m : md_valid m -> getColumnCount m = Ok (md_count m);
  md_out_of_range m i :
    md_valid m -> 0 <= i -> ~ (1 <= i <= md_count m) ->
    Forall (eq (Throw no_column)) (column_methods m i);
  md_writable m i :
    md_valid m -> 1 <= i <= md_count m -> isWritable m i = negb <$> isReadOnly m i;
  md_definitely m i :
    md_valid m -> 1 <= i <= md_count m -> isDefinitelyWritable m i = isWritable m i;
}.
