(* ===== verification/ArtMetadata.v ===== *)
(** * mysqlconnector jdbc/driver/mysql_art_rset_metadata.{h,cpp}

    The metadata of an in-memory result: every column is a text. *)

From S2P Require Import Prelude Cxx MyVal ArtResultSet Fields MetaData.

Section metadata.
Context `{LongDouble}.

(** [MySQL_ArtResultSetMetaData] *)
Record Artm := MkArtm { parent : Art; num_fields : Z }.
Definition Artm_new (p : Art) : Artm := MkArtm p (ArtResultSet.num_fields p).

Definition checkColumnIndex (columnIndex : Z) (m : Artm) : outcome unit :=
  if (columnIndex =? 0) || (num_fields m <? columnIndex) then Throw no_column else Ok tt.

Definition checked {A} (columnIndex : Z) (m : Artm) (k : outcome A) : outcome A :=
  _ ← checkColumnIndex columnIndex m; k.

Definition getCatalogName (m : Artm) (columnIndex : Z) : outcome str :=
  checked columnIndex m (Ok []).

Definition getColumnCount (m : Artm) : outcome Z := Ok (num_fields m).

Definition getColumnDisplaySize (m : Artm) (columnIndex : Z) : outcome Z :=
  checked columnIndex m (Throw (MethodNotImplemented "MySQL_ArtResultSetMetaData::getColumnDisplaySize()")).

(** [parent->field_index_to_name_map[columnIndex - 1]] *)
Definition getColumnLabel (m : Artm) (columnIndex : Z) : outcome str :=
  checked columnIndex m (arr_at (field_index_to_name_map (parent m)) (columnIndex - 1)).

Definition getColumnName (m : Artm) (columnIndex : Z) : outcome str :=
  checked columnIndex m (arr_at (field_index_to_name_map (parent m)) (columnIndex - 1)).

Definition getColumnType (m : Artm) (columnIndex : Z) : outcome DataType :=
  checked columnIndex m (Ok VARCHAR).

Definition getColumnTypeName (m : Artm) (columnIndex : Z) : outcome str :=
  checked columnIndex m (Ok ("VARCHAR" : str)).

Definition getColumnCharset (m : Artm) (columnIndex : Z) : outcome str :=
  checked columnIndex m (Ok []).

Definition getColumnCollation (m : Artm) (columnIndex : Z) : outcome str :=
  checked columnIndex m (Ok []).

Definition getPrecision (m : Artm) (columnIndex : Z) : outcome Z :=
  checked columnIndex m (Throw (MethodNotImplemented "MySQL_ArtResultSetMetaData::getPrecision()")).

Definition getScale (m : Artm) (columnIndex : Z) : outcome Z :=
  checked columnIndex m (Throw (MethodNotImplemented "MySQL_ArtResultSetMetaData::getScale()")).

Definition getSchemaName (m : Artm) (columnIndex : Z) : outcome str :=
  checked columnIndex m (Ok []).

Definition getTableName (m : Artm) (columnIndex : Z) : outcome str :=
  checked columnIndex m (Ok []).

Definition isAutoIncrement (m : Artm) (columnIndex : Z) : outcome bool :=
  checked columnIndex m (Ok false).

(** [return "true"]: the address of a literal is not null. *)
Definition isCaseSensitive (m : Artm) (columnIndex : Z) : outcome bool :=
  checked columnIndex m (Ok true).

Definition isCurrency (m : Artm) (columnIndex : Z) : outcome bool :=
  checked columnIndex m (Ok false).

(** [return false]: the enumerator with value 0. *)
Definition isNullable (m : Artm) (columnIndex : Z) : outcome Z :=
  checked columnIndex m (Ok columnNoNulls).

Definition isNumeric (m : Artm) (columnIndex : Z) : outcome bool :=
  checked columnIndex m (Ok false).

Definition isReadOnly (m : Artm) (columnIndex : Z) : outcome bool :=
  checked columnIndex m (Ok true).

Definition isSearchable (m : Artm) (columnIndex : Z) : outcome bool :=
  checked columnIndex m (Ok true).

Definition isSigned (m : Artm) (columnIndex : Z) : outcome bool :=
  checked columnIndex m (Ok false).

Definition isWritable (m : Artm) (columnIndex : Z) : outcome bool :=
  checked columnIndex m (r ← isReadOnly m columnIndex; Ok (negb r)).

Definition isDefinitelyWritable (m : Artm) (columnIndex : Z) : outcome bool :=
  checked columnIndex m (isWritable m columnIndex).

Definition isZerofill (m : Artm) (columnIndex : Z) : outcome bool :=
  checked columnIndex m (Ok false).

(** ** Facts *)

#[export] Instance Artm_methods : ResultSetMetaData Artm := {|
  MetaData.getCatalogName := getCatalogName;
  MetaData.getColumnCount := getColumnCount;
  MetaData.getColumnDisplaySize := getColumnDisplaySize;
  MetaData.getColumnLabel := getColumnLabel;
  MetaData.getColumnName := getColumnName;
  MetaData.getColumnType := getColumnType;
  MetaData.getColumnTypeName := getColumnTypeName;
  MetaData.getColumnCharset := getColumnCharset;
  MetaData.getColumnCollation := getColumnCollation;
  MetaData.getPrecision := getPrecision;
  MetaData.getScale := getScale;
  MetaData.getSchemaName := getSchemaName;
  MetaData.getTableName := getTableName;
  MetaData.isAutoIncrement := isAutoIncrement;
  MetaData.isCaseSensitive := isCaseSensitive;
  MetaData.isCurrency := isCurrency;
  MetaData.isDefinitelyWritable := isDefinitelyWritable;
  MetaData.isNullable := isNullable;
  MetaData.isNumeric := isNumeric;
  MetaData.isReadOnly := isReadOnly;
  MetaData.isSearchable := isSearchable;
  MetaData.isSigned := isSigned;
  MetaData.isWritable := isWritable;
  MetaData.isZerofill := isZerofill
|}.

Lemma artm_checked_out {A} i m (k : outcome A) :
  0 <= i -> ~ (1 <= i <= num_fields m) -> checked i m k = Throw no_column.
Proof using.
  intros H0 Hi. unfold checked, checkColumnIndex.
  destruct (Z.eqb_spec i 0), (Z.ltb_spec (num_fields m) i); simpl; try done; lia.
Qed.

Lemma artm_checked_in {A} i m (k : outcome A) : 1 <= i <= num_fields m -> checked i m k = k.
Proof using.
  intros Hi. unfold checked, checkColumnIndex.
  rewrite (proj2 (Z.eqb_neq i 0)), (proj2 (Z.ltb_ge (num_fields m) i)) by lia. done.
Qed.

#[export] Instance Artm_laws : MetaDataLaws Artm.
Proof using.
  refine {| md_valid m := True; md_count m := num_fields m |}.
  - done.
  - intros m i Hv H0 Hi. unfold column_methods. simpl.
    unfold getCatalogName, getColumnDisplaySize, getColumnLabel, getColumnName, getColumnType,
      getColumnTypeName, getColumnCharset, getColumnCollation, getPrecision, getScale,
      getSchemaName, getTableName, isAutoIncrement, isCaseSensitive, isCurrency,
      isDefinitelyWritable, isNullable, isNumeric, isReadOnly, isSearchable, isSigned, isWritable,
      isZerofill.
    repeat (apply Forall_cons; split; [by rewrite artm_checked_out by done|]).
    apply Forall_nil, I.
  - intros m i Hv Hi. simpl. unfold isWritable. rewrite artm_checked_in by done.
    by destruct (isReadOnly m i).
  - intros m i Hv Hi. simpl. unfold isDefinitelyWritable. by rewrite artm_checked_in by done.
Defined.
End metadata.
