(* ===== verification/RsMetadata.v ===== *)
(** * mysqlconnector jdbc/driver/mysql_resultset_metadata.{h,cpp}

    The metadata of a result: it holds a weak pointer, which is null once the
    result is gone; [num_fields] is not initialised when it was null at once.  *)

From S2P Require Import Prelude Cxx Str MyVal Fields MetaData.

Section metadata.
Context `{FieldFlags}.

(** [MySQL_ResultSetMetaData] *)
Record Rsm := MkRsm { result : option (Z -> field); num_fields : option Z }.

(** The constructor, from the columns of the result and their number. *)
Definition Rsm_new (res : option ((Z -> field) * Z)) : Rsm :=
  match res with
  | Some (fields, n) => MkRsm (Some fields) (Some n)
  | None => MkRsm None None
  end.

(** The result is gone. *)
Definition Rsm_expire (m : Rsm) : Rsm := MkRsm None (num_fields m).

Definition checkValid (m : Rsm) : outcome unit :=
  match result m with
  | None => Throw (SqlInvalidArgument "ResultSet is not valid anymore")
  | Some _ => Ok tt
  end.

Definition checkColumnIndex (columnIndex : Z) (m : Rsm) : outcome unit :=
  if columnIndex =? 0 then Throw no_column
  else n ← deref (num_fields m); if n <? columnIndex then Throw no_column else Ok tt.

(** [fetch_field_direct] *)
Definition getFieldMeta (columnIndex : Z) (m : Rsm) : outcome field :=
  r ← deref (result m); Ok (r (columnIndex - 1)).

(** What every method does first. *)
Definition checked {A} (columnIndex : Z) (m : Rsm) (k : outcome A) : outcome A :=
  _ ← checkValid m; _ ← checkColumnIndex columnIndex m; k.

(** A method that looks at the column. *)
Definition with_field {A} (columnIndex : Z) (m : Rsm) (k : field -> outcome A) : outcome A :=
  checked columnIndex m (f ← getFieldMeta columnIndex m; k f).

Definition getCatalogName (m : Rsm) (columnIndex : Z) : outcome str :=
  with_field columnIndex m (fun f => Ok (f_catalog f)).

Definition getColumnCount (m : Rsm) : outcome Z := _ ← checkValid m; deref (num_fields m).

(** [field->length / cs->char_maxlen], through an [int]. *)
Definition getColumnDisplaySize (m : Rsm) (columnIndex : Z) : outcome Z :=
  with_field columnIndex m (fun f =>
    cs ← find_charset (f_charsetnr f);
    match cs with
    | None => unknown_charset (f_charsetnr f)
    | Some cs =>
        if char_maxlen cs =? 0 then Undefined
        else Ok (to_int (f_length f / char_maxlen cs) mod 2 ^ 32)
    end).

Definition getColumnLabel (m : Rsm) (columnIndex : Z) : outcome str :=
  with_field columnIndex m (fun f => Ok (f_name f)).

Definition getColumnName (m : Rsm) (columnIndex : Z) : outcome str :=
  with_field columnIndex m (fun f => Ok (f_org_name f)).

Definition getColumnType (m : Rsm) (columnIndex : Z) : outcome DataType :=
  with_field columnIndex m mysql_type_to_datatype.

Definition getColumnTypeName (m : Rsm) (columnIndex : Z) : outcome str :=
  with_field columnIndex m mysql_type_to_string.

Definition getColumnCharset (m : Rsm) (columnIndex : Z) : outcome str :=
  with_field columnIndex m (fun f =>
    cs ← find_charset (f_charsetnr f);
    match cs with
    | None => unknown_charset_name (f_charsetnr f)
    | Some cs => Ok (cs_name cs)
    end).

Definition getColumnCollation (m : Rsm) (columnIndex : Z) : outcome str :=
  with_field columnIndex m (fun f =>
    cs ← find_charset (f_charsetnr f);
    match cs with
    | None => unknown_charset_name (f_charsetnr f)
    | Some cs => Ok (collation cs)
    end).

Definition getScale (m : Rsm) (columnIndex : Z) : outcome Z :=
  with_field columnIndex m (fun f => Ok (f_decimals f)).

(** [unsigned int ret = max_length - getScale(columnIndex)] *)
Definition getPrecision (m : Rsm) (columnIndex : Z) : outcome Z :=
  with_field columnIndex m (fun f =>
    s ← getScale m columnIndex; Ok ((f_max_length f - s) mod 2 ^ 32)).

Definition getSchemaName (m : Rsm) (columnIndex : Z) : outcome str :=
  with_field columnIndex m (fun f => Ok (match f_db f with Some db => db | None => [] end)).

Definition getTableName (m : Rsm) (columnIndex : Z) : outcome str :=
  with_field columnIndex m (fun f => Ok (f_org_table f)).

Definition isAutoIncrement (m : Rsm) (columnIndex : Z) : outcome bool :=
  with_field columnIndex m (fun f => Ok (has_flag f AUTO_INCREMENT_FLAG)).

Definition isCaseSensitive (m : Rsm) (columnIndex : Z) : outcome bool :=
  with_field columnIndex m (fun f =>
    if has_flag f NUM_FLAG || bool_decide (f_type f = MYSQL_TYPE_NEWDECIMAL)
       || bool_decide (f_type f = MYSQL_TYPE_DECIMAL) then Ok false
    else
      cs ← find_charset (f_charsetnr f);
      match cs with
      | None => unknown_charset_name (f_charsetnr f)
      | Some cs => Ok (negb (contains (collation cs) "_ci"))
      end).

Definition isCurrency (m : Rsm) (columnIndex : Z) : outcome bool :=
  checked columnIndex m (Ok false).

Definition isNullable (m : Rsm) (columnIndex : Z) : outcome Z :=
  with_field columnIndex m (fun f =>
    Ok (if has_flag f NOT_NULL_FLAG then columnNoNulls else columnNullable)).

Definition isNumeric (m : Rsm) (columnIndex : Z) : outcome bool :=
  with_field columnIndex m (fun f => Ok (has_flag f NUM_FLAG)).

(** [!(db && strlen(db))] *)
Definition isReadOnly (m : Rsm) (columnIndex : Z) : outcome bool :=
  with_field columnIndex m (fun f =>
    Ok (negb (match f_db f with Some db => negb (size (c_str db) =? 0) | None => false end))).

Definition isSearchable (m : Rsm) (columnIndex : Z) : outcome bool :=
  checked columnIndex m (Ok true).

(** [FIELD_TYPE_YEAR] is the older name of [MYSQL_TYPE_YEAR]. *)
Definition isSigned (m : Rsm) (columnIndex : Z) : outcome bool :=
  with_field columnIndex m (fun f =>
    Ok (if decide (f_type f = MYSQL_TYPE_YEAR) then false else negb (has_flag f UNSIGNED_FLAG))).

Definition isWritable (m : Rsm) (columnIndex : Z) : outcome bool :=
  checked columnIndex m (r ← isReadOnly m columnIndex; Ok (negb r)).

Definition isDefinitelyWritable (m : Rsm) (columnIndex : Z) : outcome bool :=
  checked columnIndex m (isWritable m columnIndex).

Definition isZerofill (m : Rsm) (columnIndex : Z) : outcome bool :=
  with_field columnIndex m (fun f => Ok (has_flag f ZEROFILL_FLAG)).

(** A result that is still there, its columns and their number. *)
Definition is_valid (m : Rsm) : bool :=
  match result m, num_fields m with Some _, Some _ => true | _, _ => false end.
Definition count (m : Rsm) : Z := match num_fields m with Some n => n | None => 0 end.
Definition column_of (m : Rsm) (i : Z) : option field :=
  match result m with Some g => Some (g (i - 1)) | None => None end.

(** ** Facts *)

#[export] Instance Rsm_methods : ResultSetMetaData Rsm := {|
  MetaData.getCatalogName := getCatalogName;
  MetaData.getColumnCount := getColumnCount;
  MetaData.getColumnDisplaySize := getColumnDisplaySize;
  MetaData.getColumnLabel := getColumnLabel;
  MetaData.getColumnName := getColumnName;
  MetaData.getColumnType := getColumnType;
  MetaData.getColumnTypeName := getColumnTypeName;
  MetaData.getColumnCharset := getColumnCharset;
  MetaData.getColumnCollation := getColumnCollation;
  MetaData.getPrecision := getPrecision;
  MetaData.getScale := getScale;
  MetaData.getSchemaName := getSchemaName;
  MetaData.getTableName := getTableName;
  MetaData.isAutoIncrement := isAutoIncrement;
  MetaData.isCaseSensitive := isCaseSensitive;
  MetaData.isCurrency := isCurrency;
  MetaData.isDefinitelyWritable := isDefinitelyWritable;
  MetaData.isNullable := isNullable;
  MetaData.isNumeric := isNumeric;
  MetaData.isReadOnly := isReadOnly;
  MetaData.isSearchable := isSearchable;
  MetaData.isSigned := isSigned;
  MetaData.isWritable := isWritable;
  MetaData.isZerofill := isZerofill
|}.

Lemma rsm_checked_out {A} i m (k : outcome A) :
  is_valid m = true -> 0 <= i -> ~ (1 <= i <= count m) -> checked i m k = Throw no_column.
Proof using.
  intros Hv H0 Hi. unfold checked, checkColumnIndex, checkValid, count, is_valid in *.
  destruct (result m) as [g|]; [|done]. destruct (num_fields m) as [n|]; [|done]. cbn in *.
  destruct (Z.eqb_spec i 0), (Z.ltb_spec n i); simpl; try done; lia.
Qed.

Lemma rsm_checked_in {A} i m (k : outcome A) :
  is_valid m = true -> 1 <= i <= count m -> checked i m k = k.
Proof using.
  intros Hv Hi. unfold checked, checkColumnIndex, checkValid, count, is_valid in *.
  destruct (result m) as [g|]; [|done]. destruct (num_fields m) as [n|]; [|done]. cbn in *.
  rewrite (proj2 (Z.eqb_neq i 0)), (proj2 (Z.ltb_ge n i)) by lia. done.
Qed.

#[export] Instance Rsm_laws : MetaDataLaws Rsm.
Proof using.
  refine {| md_valid m := is_valid m = true; md_count m := count m |}.
  - intros m Hv. simpl. unfold getColumnCount, checkValid, is_valid, count in *.
    destruct (result m), (num_fields m); done.
  - intros m i Hv H0 Hi. unfold column_methods. simpl.
    unfold getCatalogName, getColumnDisplaySize, getColumnLabel, getColumnName, getColumnType,
      getColumnTypeName, getColumnCharset, getColumnCollation, getPrecision, getScale,
      getSchemaName, getTableName, isAutoIncrement, isCaseSensitive, isCurrency,
      isDefinitelyWritable, isNullable, isNumeric, isReadOnly, isSearchable, isSigned, isWritable,
      isZerofill, with_field.
    repeat (apply Forall_cons; split; [by rewrite rsm_checked_out by done|]). apply Forall_nil, I.
  - intros m i Hv Hi. simpl. unfold isWritable. rewrite rsm_checked_in by done.
    by destruct (isReadOnly m i).
  - intros m i Hv Hi. simpl. unfold isDefinitelyWritable. by rewrite rsm_checked_in by done.
Defined.

(** The methods that look at the column of a valid index. *)
Lemma rsm_with_field_in {A} i m (k : field -> outcome A) f :
  is_valid m = true -> 1 <= i <= count m -> column_of m i = Some f -> with_field i m k = k f.
Proof using.
  intros Hv Hi Hf. unfold with_field. rewrite rsm_checked_in by done. unfold getFieldMeta.
  unfold column_of in Hf. destruct (result m); [|done]. by injection Hf as <-.
Qed.

(** Every method returns for a column whose character set is known. *)
Lemma rsm_methods_return i m f e :
  is_valid m = true -> 1 <= i <= count m -> column_of m i = Some f -> find_charset (f_charsetnr f) = Ok (Some e) ->
  Forall (fun o => is_ok o = true) (column_methods m i).
Proof using.
  intros Hv Hi Hf He. unfold column_methods. simpl.
  unfold getCatalogName, getColumnDisplaySize, getColumnLabel, getColumnName, getColumnType,
    getColumnTypeName, getColumnCharset, getColumnCollation, getPrecision, getScale,
    getSchemaName, getTableName, isAutoIncrement, isCaseSensitive, isCurrency,
    isDefinitelyWritable, isNullable, isNumeric, isReadOnly, isSearchable, isSigned, isWritable,
    isReadOnly, isZerofill, getScale.
  rewrite ?(rsm_with_field_in i m _ f), ?rsm_checked_in by done. rewrite ?He, ?obind_Ok.
  rewrite ?(rsm_with_field_in i m _ f), ?rsm_checked_in by done.
  destruct (find_charset_maxlen _ _ He) as [_ Hm].
  rewrite (proj2 (Z.eqb_neq (char_maxlen e) 0)) by lia.
  pose proof (type_known f e He) as Ht. pose proof (type_name_known f e He) as Hn.
  repeat (apply Forall_cons; split; [|]); try apply Forall_nil, I; try done.
  - by destruct (mysql_type_to_datatype f).
  - by destruct (mysql_type_to_string f).
  - by destruct (has_flag f NUM_FLAG || _ || _).
Qed.

(** Once the result is gone every method throws. *)
Lemma expired_throws m i :
  Forall (eq (Throw (SqlInvalidArgument "ResultSet is not valid anymore")))
    (column_methods (Rsm_expire m) i).
Proof using. unfold column_methods. by repeat (apply Forall_cons; split; [done|]). Qed.
End metadata.
