(* ===== verification/PsMetadata.v ===== *)
(** * mysqlconnector jdbc/driver/mysql_ps_resultset_metadata.{h,cpp}

    The metadata of a prepared result: [num_fields] columns described by the
    result of [result_metadata()].  *)

From S2P Require Import Prelude Cxx Str MyVal Fields MetaData.

Section metadata.
Context `{FieldFlags}.

(** [MySQL_PreparedResultSetMetaData] and its constructor. *)
Record Psm := Psm_new { result_meta : Z -> field; num_fields : Z }.

Definition checkColumnIndex (columnIndex : Z) (m : Psm) : outcome unit :=
  if (columnIndex =? 0) || (num_fields m <? columnIndex) then Throw no_column else Ok tt.

(** [fetch_field_direct] *)
Definition getFieldMeta (columnIndex : Z) (m : Psm) : outcome field :=
  Ok (result_meta m (columnIndex - 1)).

(** What every method does first. *)
Definition checked {A} (columnIndex : Z) (m : Psm) (k : outcome A) : outcome A :=
  _ ← checkColumnIndex columnIndex m; k.

(** A method that looks at the column. *)
Definition with_field {A} (columnIndex : Z) (m : Psm) (k : field -> outcome A) : outcome A :=
  checked columnIndex m (f ← getFieldMeta columnIndex m; k f).

Definition getCatalogName (m : Psm) (columnIndex : Z) : outcome str :=
  with_field columnIndex m (fun f => Ok (f_catalog f)).

Definition getColumnCount (m : Psm) : outcome Z := Ok (num_fields m).

(** [field->length / cs->char_maxlen], through an [int]. *)
Definition getColumnDisplaySize (m : Psm) (columnIndex : Z) : outcome Z :=
  with_field columnIndex m (fun f =>
    cs ← find_charset (f_charsetnr f);
    match cs with
    | None => unknown_charset (f_charsetnr f)
    | Some cs =>
        if char_maxlen cs =? 0 then Undefined
        else Ok (to_int (f_length f / char_maxlen cs) mod 2 ^ 32)
    end).

Definition getColumnLabel (m : Psm) (columnIndex : Z) : outcome str :=
  with_field columnIndex m (fun f => Ok (f_name f)).

Definition getColumnName (m : Psm) (columnIndex : Z) : outcome str :=
  with_field columnIndex m (fun f => Ok (f_org_name f)).

Definition getColumnType (m : Psm) (columnIndex : Z) : outcome DataType :=
  with_field columnIndex m mysql_type_to_datatype.

Definition getColumnTypeName (m : Psm) (columnIndex : Z) : outcome str :=
  with_field columnIndex m mysql_type_to_string.

Definition getColumnCharset (m : Psm) (columnIndex : Z) : outcome str :=
  with_field columnIndex m (fun f =>
    cs ← find_charset (f_charsetnr f);
    match cs with
    | None => unknown_charset_name (f_charsetnr f)
    | Some cs => Ok (cs_name cs)
    end).

Definition getColumnCollation (m : Psm) (columnIndex : Z) : outcome str :=
  with_field columnIndex m (fun f =>
    cs ← find_charset (f_charsetnr f);
    match cs with
    | None => unknown_charset_name (f_charsetnr f)
    | Some cs => Ok (collation cs)
    end).

Definition getScale (m : Psm) (columnIndex : Z) : outcome Z :=
  with_field columnIndex m (fun f => Ok (f_decimals f)).

(** [unsigned int ret = max_length - getScale(columnIndex)] *)
Definition getPrecision (m : Psm) (columnIndex : Z) : outcome Z :=
  with_field columnIndex m (fun f =>
    s ← getScale m columnIndex; Ok ((f_max_length f - s) mod 2 ^ 32)).

Definition getSchemaName (m : Psm) (columnIndex : Z) : outcome str :=
  with_field columnIndex m (fun f => Ok (match f_db f with Some db => db | None => [] end)).

Definition getTableName (m : Psm) (columnIndex : Z) : outcome str :=
  with_field columnIndex m (fun f => Ok (f_org_table f)).

Definition isAutoIncrement (m : Psm) (columnIndex : Z) : outcome bool :=
  with_field columnIndex m (fun f => Ok (has_flag f AUTO_INCREMENT_FLAG)).

Definition isCaseSensitive (m : Psm) (columnIndex : Z) : outcome bool :=
  with_field columnIndex m (fun f =>
    if has_flag f NUM_FLAG || bool_decide (f_type f = MYSQL_TYPE_NEWDECIMAL)
       || bool_decide (f_type f = MYSQL_TYPE_DECIMAL) then Ok false
    else
      cs ← find_charset (f_charsetnr f);
      match cs with
      | None => unknown_charset (f_charsetnr f)
      | Some cs => Ok (negb (contains (collation cs) "_ci"))
      end).

Definition isCurrency (m : Psm) (columnIndex : Z) : outcome bool :=
  checked columnIndex m (Ok false).

Definition isNullable (m : Psm) (columnIndex : Z) : outcome Z :=
  with_field columnIndex m (fun f =>
    Ok (if has_flag f NOT_NULL_FLAG then columnNoNulls else columnNullable)).

Definition isNumeric (m : Psm) (columnIndex : Z) : outcome bool :=
  with_field columnIndex m (fun f => Ok (has_flag f NUM_FLAG)).

(** [!(db && strlen(db))] *)
Definition isReadOnly (m : Psm) (columnIndex : Z) : outcome bool :=
  with_field columnIndex m (fun f =>
    Ok (negb (match f_db f with Some db => negb (size (c_str db) =? 0) | None => false end))).

Definition isSearchable (m : Psm) (columnIndex : Z) : outcome bool :=
  checked columnIndex m (Ok true).

(** [FIELD_TYPE_YEAR] is the older name of [MYSQL_TYPE_YEAR]. *)
Definition isSigned (m : Psm) (columnIndex : Z) : outcome bool :=
  with_field columnIndex m (fun f =>
    Ok (if decide (f_type f = MYSQL_TYPE_YEAR) then false else negb (has_flag f UNSIGNED_FLAG))).

Definition isWritable (m : Psm) (columnIndex : Z) : outcome bool :=
  checked columnIndex m (r ← isReadOnly m columnIndex; Ok (negb r)).

Definition isDefinitelyWritable (m : Psm) (columnIndex : Z) : outcome bool :=
  checked columnIndex m (isWritable m columnIndex).

Definition isZerofill (m : Psm) (columnIndex : Z) : outcome bool :=
  with_field columnIndex m (fun f => Ok (has_flag f ZEROFILL_FLAG)).

(** ** Facts *)

#[export] Instance Psm_methods : ResultSetMetaData Psm := {|
  MetaData.getCatalogName := getCatalogName;
  MetaData.getColumnCount := getColumnCount;
  MetaData.getColumnDisplaySize := getColumnDisplaySize;
  MetaData.getColumnLabel := getColumnLabel;
  MetaData.getColumnName := getColumnName;
  MetaData.getColumnType := getColumnType;
  MetaData.getColumnTypeName := getColumnTypeName;
  MetaData.getColumnCharset := getColumnCharset;
  MetaData.getColumnCollation := getColumnCollation;
  MetaData.getPrecision := getPrecision;
  MetaData.getScale := getScale;
  MetaData.getSchemaName := getSchemaName;
  MetaData.getTableName := getTableName;
  MetaData.isAutoIncrement := isAutoIncrement;
  MetaData.isCaseSensitive := isCaseSensitive;
  MetaData.isCurrency := isCurrency;
  MetaData.isDefinitelyWritable := isDefinitelyWritable;
  MetaData.isNullable := isNullable;
  MetaData.isNumeric := isNumeric;
  MetaData.isReadOnly := isReadOnly;
  MetaData.isSearchable := isSearchable;
  MetaData.isSigned := isSigned;
  MetaData.isWritable := isWritable;
  MetaData.isZerofill := isZerofill
|}.

Lemma psm_checked_out {A} i m (k : outcome A) :
  0 <= i -> ~ (1 <= i <= num_fields m) -> checked i m k = Throw no_column.
Proof using.
  intros H0 Hi. unfold checked, checkColumnIndex.
  destruct (Z.eqb_spec i 0), (Z.ltb_spec (num_fields m) i); simpl; try done; lia.
Qed.

Lemma psm_checked_in {A} i m (k : outcome A) :
  1 <= i <= num_fields m -> checked i m k = k.
Proof using.
  intros Hi. unfold checked, checkColumnIndex.
  rewrite (proj2 (Z.eqb_neq i 0)), (proj2 (Z.ltb_ge (num_fields m) i)) by lia. done.
Qed.

#[export] Instance Psm_laws : MetaDataLaws Psm.
Proof using.
  refine {| md_valid m := True; md_count m := num_fields m |}.
  - done.
  - intros m i Hv H0 Hi. unfold column_methods. simpl.
    unfold getCatalogName, getColumnDisplaySize, getColumnLabel, getColumnName, getColumnType,
      getColumnTypeName, getColumnCharset, getColumnCollation, getPrecision, getScale,
      getSchemaName, getTableName, isAutoIncrement, isCaseSensitive, isCurrency,
      isDefinitelyWritable, isNullable, isNumeric, isReadOnly, isSearchable, isSigned, isWritable,
      isZerofill, with_field.
    repeat (apply Forall_cons; split; [by rewrite psm_checked_out by done|]). apply Forall_nil, I.
  - intros m i Hv Hi. simpl. unfold isWritable. rewrite psm_checked_in by done.
    by destruct (isReadOnly m i).
  - intros m i Hv Hi. simpl. unfold isDefinitelyWritable. by rewrite psm_checked_in by done.
Defined.

(** The methods that look at the column of a valid index. *)
Lemma psm_with_field_in {A} i m (k : field -> outcome A) f :
  1 <= i <= num_fields m -> result_meta m (i - 1) = f -> with_field i m k = k f.
Proof using.
  intros Hi Hf. unfold with_field. rewrite psm_checked_in by done. unfold getFieldMeta.
  by rewrite Hf.
Qed.

(** Every method returns for a column whose character set is known. *)
Lemma psm_methods_return i m f e :
  1 <= i <= num_fields m -> result_meta m (i - 1) = f -> find_charset (f_charsetnr f) = Ok (Some e) ->
  Forall (fun o => is_ok o = true) (column_methods m i).
Proof using.
  intros Hi Hf He. unfold column_methods. simpl.
  unfold getCatalogName, getColumnDisplaySize, getColumnLabel, getColumnName, getColumnType,
    getColumnTypeName, getColumnCharset, getColumnCollation, getPrecision, getScale,
    getSchemaName, getTableName, isAutoIncrement, isCaseSensitive, isCurrency,
    isDefinitelyWritable, isNullable, isNumeric, isReadOnly, isSearchable, isSigned, isWritable,
    isReadOnly, isZerofill, getScale.
  rewrite ?(psm_with_field_in i m _ f), ?psm_checked_in by done. rewrite ?He, ?obind_Ok.
  rewrite ?(psm_with_field_in i m _ f), ?psm_checked_in by done.
  destruct (find_charset_maxlen _ _ He) as [_ Hm].
  rewrite (proj2 (Z.eqb_neq (char_maxlen e) 0)) by lia.
  pose proof (type_known f e He) as Ht. pose proof (type_name_known f e He) as Hn.
  repeat (apply Forall_cons; split; [|]); try apply Forall_nil, I; try done.
  - by destruct (mysql_type_to_datatype f).
  - by destruct (mysql_type_to_string f).
  - by destruct (has_flag f NUM_FLAG || _ || _).
Qed.
End metadata.
