(* ===== verification/ResultSet.v ===== *)
(** * mysqlconnector jdbc/driver/mysql_resultset.{h,cpp}: results of a query

    [MySQL_ResultSet] drives a result of the MySQL C API (through
    nativeapi/mysql_native_resultset_wrapper.cpp, which only forwards the calls).
    The C API is an interface, [CResult]; a stored result ([StoredResult]) is a
    list of rows with an offset that [data_seek] sets and [fetch_row] advances.
    Logging is left out. *)

From S2P Require Import Prelude Cxx Str Unicode Cursor MyVal Fields.

(** ** The C API *)

(** A row is an array of strings with their lengths, [None] for a null pointer. *)
Abbreviation crow := (list (option (list ascii))).

Class CResult := {
  res : Type;
  res_num_rows : res -> Z;
  res_num_fields : res -> Z;
  res_field : res -> Z -> field;
  res_fetch_row : res -> option crow * res;
  res_data_seek : res -> Z -> res;
  res_flags :: FieldFlags;
}.

(** A result stored by the client: [stored s rows k] says that it holds [rows]
    and that the next row to be fetched is the [k]th. *)
Class StoredResult (C : CResult) := {
  stored : res -> list crow -> nat -> Prop;
  stored_num_rows s rows k : stored s rows k -> res_num_rows s = Z.of_nat (length rows);
  stored_fetch s rows k : stored s rows k ->
    exists s', res_fetch_row s = (rows !! k, s') /\
      stored s' rows (if decide (k < length rows)%nat then S k else k);
  stored_seek s rows k j : stored s rows k -> (j = 0 \/ j < length rows)%nat ->
    stored (res_data_seek s (Z.of_nat j)) rows j;
}.

Section rs.
Context `{CResult} `{LongDouble}.
(** [sql::mysql::util::strtonum] *)
Context (strtonum : str -> ld).

(** The connection behind a result: [None] once it is gone, otherwise its
    error number and text. *)
Record Rs := MkRs {
  row : option crow;
  result : option res;
  proxy : option (Z * str);
  field_name_to_index_map : gmap (list ascii) Z;
  num_rows : Z;
  num_fields : Z;
  row_position : Z;
  was_null : bool;
  last_queried_column : Z;
  resultset_type : Z;
}.

Local Abbreviation method := (Method Rs).

Definition set_row (x : option crow) (a : Rs) : Rs :=
  MkRs x (result a) (proxy a) (field_name_to_index_map a) (num_rows a) (num_fields a) (row_position a) (was_null a) (last_queried_column a) (resultset_type a).
Definition set_result (x : option res) (a : Rs) : Rs :=
  MkRs (row a) x (proxy a) (field_name_to_index_map a) (num_rows a) (num_fields a) (row_position a) (was_null a) (last_queried_column a) (resultset_type a).
Definition set_position (x : Z) (a : Rs) : Rs :=
  MkRs (row a) (result a) (proxy a) (field_name_to_index_map a) (num_rows a) (num_fields a) x (was_null a) (last_queried_column a) (resultset_type a).
Definition set_was_null (x : bool) (a : Rs) : Rs :=
  MkRs (row a) (result a) (proxy a) (field_name_to_index_map a) (num_rows a) (num_fields a) (row_position a) x (last_queried_column a) (resultset_type a).
Definition set_column (x : Z) (a : Rs) : Rs :=
  MkRs (row a) (result a) (proxy a) (field_name_to_index_map a) (num_rows a) (num_fields a) (row_position a) (was_null a) x (resultset_type a).

(** [MySQL_ResultSet::MySQL_ResultSet] *)
Definition Rs_new (r : res) (_proxy : option (Z * str)) (rset_type : Z) : Rs :=
  let n := res_num_fields r in
  let names := map (fun i => f_name (res_field r (Z.of_nat i))) (seq 0 (Z.to_nat n)) in
  MkRs None (Some r) _proxy (index_names names 0 ∅) (res_num_rows r) n 0 false NO_COLUMN
    rset_type.

Definition isClosed : method bool :=
  r ← read result; mret (match r with Some _ => false | None => true end).

Definition checkValid : method unit :=
  c ← isClosed;
  if (c : bool) then throw (InvalidInstance "ResultSet has been closed") else mret tt.

Definition isScrollable : method bool :=
  t ← read resultset_type; mret (negb (t =? TYPE_FORWARD_ONLY)).

Definition checkScrollable : method unit :=
  t ← read resultset_type;
  if t =? TYPE_FORWARD_ONLY then throw (NonScrollable "Nonscrollable result set")
  else update (set_column NO_COLUMN).

Definition close : method unit := _ ← checkValid; update (set_result None).

(** The calls on the C API; a null [result] is dereferenced. *)
Definition the_result : method res := r ← read result; pure (deref r).
Definition data_seek (offset : Z) : method unit :=
  r ← the_result; update (set_result (Some (res_data_seek r offset))).
Definition fetch_row : method (option crow) :=
  r ← the_result;
  let '(x, r') := res_fetch_row r in
  _ ← update (set_result (Some r')); mret x.
Definition getFieldMeta (columnIndex : Z) : method field :=
  r ← the_result; mret (res_field r (columnIndex - 1)).

Definition after (a : Rs) : Z := to_size_t (num_rows a + 1).

Definition seek : method unit :=
  _ ← checkScrollable;
  p ← read row_position;
  _ ← data_seek (to_size_t (p - 1));
  x ← fetch_row;
  update (set_row x).

Definition isBeforeFirstOrAfterLast : method bool :=
  _ ← checkValid;
  p ← read row_position; e ← read after; s ← isScrollable;
  mret ((p =? 0) || (s && (p =? e))).

(** [absolute]: [-new_pos] is evaluated before the test for the least [int]. *)
Definition absolute (new_pos : Z) : method bool :=
  _ ← checkValid;
  _ ← checkScrollable;
  n ← read num_rows;
  let result :=
    p ← read row_position; e ← read after; mret ((0 <? p) && (p <? e)) in
  if 0 <? new_pos then
    if to_int n <? new_pos then e ← read after; _ ← update (set_position e); result
    else _ ← update (set_position (to_size_t new_pos)); _ ← seek; mret true
  else if new_pos <? 0 then
    if new_pos =? INT_MIN then pure Undefined
    else if to_int n <? - new_pos then _ ← update (set_position 0); result
    else
      _ ← update (set_position (to_size_t (to_size_t (n - to_size_t (- new_pos)) + 1)));
      _ ← seek; mret true
  else _ ← update (set_position 0); _ ← data_seek 0; result.

Definition afterLast : method unit :=
  _ ← checkValid; e ← read after; update (set_position e).

Definition beforeFirst : method unit :=
  _ ← checkValid; _ ← checkScrollable; _ ← data_seek 0; update (set_position 0).

Definition first : method bool :=
  _ ← checkValid; _ ← checkScrollable;
  n ← read num_rows;
  if negb (n =? 0) then _ ← update (set_position 1); _ ← seek; mret true else mret false.

Definition last : method bool :=
  _ ← checkValid; _ ← checkScrollable;
  n ← read num_rows;
  if negb (n =? 0) then _ ← update (set_position n); _ ← seek; mret true else mret false.

Definition isAfterLast : method bool :=
  _ ← checkValid; _ ← checkScrollable;
  p ← read row_position; e ← read after; mret (p =? e).
Definition isBeforeFirst : method bool :=
  _ ← checkValid; p ← read row_position; mret (p =? 0).
Definition isFirst : method bool :=
  _ ← checkValid; p ← read row_position; mret (p =? 1).
Definition isLast : method bool :=
  _ ← checkValid; _ ← checkScrollable;
  p ← read row_position; n ← read num_rows; mret (p =? n).

(** No row was fetched: the end of the rows, unless the connection is gone or
    reports a lost server. *)
Definition check_connection : method unit :=
  c ← read proxy;
  match c with
  | None => throw (InvalidInstance "Connection has been closed")
  | Some (errNo, error) =>
      if (errNo =? 2013) || (errNo =? 2000) then throw (SqlError error) else mret tt
  end.

Definition fetch_next : method bool :=
  x ← fetch_row;
  _ ← update (set_row x);
  match x with
  | None => _ ← check_connection; mret false
  | Some _ => mret true
  end.

Definition next : method bool :=
  _ ← checkValid;
  s ← isScrollable;
  if (s : bool) then
    l ← isLast;
    if (l : bool) then _ ← afterLast; mret false
    else
      p ← read row_position; e ← read after;
      if p <? e then
        ret ← fetch_next;
        _ ← update (set_position (to_size_t (p + 1))); mret ret
      else mret false
  else
    _ ← update (set_column NO_COLUMN);
    ret ← fetch_next;
    p ← read row_position;
    _ ← update (set_position (if (ret : bool) then to_size_t (p + 1) else 0));
    mret ret.

Definition previous : method bool :=
  _ ← checkScrollable;
  b ← isBeforeFirst;
  if (b : bool) then mret false
  else
    f ← isFirst;
    if (f : bool) then _ ← beforeFirst; mret false
    else
      p ← read row_position;
      if 1 <? p then _ ← update (set_position (p - 1)); _ ← seek; mret true
      else throw (SqlError "Impossible").

Definition relative (rows : Z) : method bool :=
  _ ← checkValid; _ ← checkScrollable;
  p ← read row_position; n ← read num_rows; e ← read after;
  _ ← (if negb (rows =? 0) then
         let q := to_size_t (p + to_size_t rows) in
         if (n <? q) || (q <? 1) then update (set_position (if 0 <? rows then e else 0))
         else _ ← update (set_position q); seek
       else mret tt);
  p' ← read row_position;
  mret ((0 <? p') && (p' <=? n)).

Definition findColumn (columnLabel : str) : method Z :=
  _ ← checkValid;
  m ← read field_name_to_index_map; mret (find_label m columnLabel).

Definition getRow : method Z := _ ← checkValid; read row_position.
Definition getType : method Z := _ ← checkValid; read resultset_type.
Definition rowsCount : method Z :=
  _ ← checkValid; _ ← checkScrollable; r ← the_result; mret (res_num_rows r).

(** ** Getters *)

Definition not_on_row {A} (name : str) : method A :=
  throw (SqlInvalidArgument ("MySQL_ResultSet::" ++ name ++
    ": can't fetch because not on result set")).
Definition invalid_column {A} (name : str) : method A :=
  throw (SqlInvalidArgument ("MySQL_ResultSet::" ++ name ++
    ": invalid value of 'columnIndex'")).

(** The guards of a getter, whose messages carry its name. *)
Definition guarded {A} (name : str) (columnIndex : Z) (get : method A) : method A :=
  b ← isBeforeFirstOrAfterLast;
  if (b : bool) then not_on_row name
  else
    n ← read num_fields;
    if (columnIndex =? 0) || (n <? columnIndex) then invalid_column name else get.

(** [row[columnIndex - 1]]: a null row or an index outside of it is undefined. *)
Definition cell_at (columnIndex : Z) : method (option str) :=
  r ← read row;
  cells ← pure (deref r);
  pure (arr_at cells (columnIndex - 1)).

(** The number in a non-null value: a BIT column (without both flags) holds
    big-endian bytes, the others decimal text.  [getInt64] converts the result
    to signed, [getUInt64] to unsigned. *)
Definition integer_value (f : field) (v : str) : outcome Z :=
  if bool_decide (f_type f = MYSQL_TYPE_BIT) && negb (f_flags f =? Z.lor BINARY_FLAG UNSIGNED_FLAG) then
    let l := to_int (f_length f) in
    let quot := if Z.rem l 8 =? 0 then Z.quot l 8 else Z.quot l 8 + 1 in
    if (1 <=? quot) && (quot <=? 8) then bit_uintkorr (Z.to_nat quot) v else Ok 0
  else if has_flag f UNSIGNED_FLAG then Ok (strtoull v)
  else Ok (strtoll v).

Definition get_integer (name : str) (cast : Z -> Z) (columnIndex : Z) : method Z :=
  guarded name columnIndex (
    _ ← update (set_column columnIndex);
    c ← cell_at columnIndex;
    match c with
    | None => _ ← update (set_was_null true); mret 0
    | Some v =>
        _ ← update (set_was_null false);
        f ← getFieldMeta columnIndex;
        z ← pure (integer_value f v); mret (cast z)
    end).

Definition getInt64 : Z -> method Z := get_integer "getInt64" to_int64.
Definition getUInt64 : Z -> method Z := get_integer "getUInt64" to_size_t.

(** [static_cast<uint32_t>] of an unsigned column is returned as [int32_t]. *)
Definition getInt (columnIndex : Z) : method Z :=
  guarded "getInt" columnIndex (
    f ← getFieldMeta columnIndex;
    v ← getInt64 columnIndex;
    mret (if has_flag f UNSIGNED_FLAG then to_int (v mod 2 ^ 32)
          else to_int v)).

Definition getUInt (columnIndex : Z) : method Z :=
  guarded "getUInt" columnIndex (v ← getUInt64 columnIndex; mret (v mod 2 ^ 32)).

Definition getDouble (columnIndex : Z) : method ld :=
  guarded "getDouble" columnIndex (
    _ ← update (set_column columnIndex);
    c ← cell_at columnIndex;
    match c with
    | None => _ ← update (set_was_null true); mret (ld_of_Z 0)
    | Some v =>
        _ ← update (set_was_null false);
        f ← getFieldMeta columnIndex;
        if bool_decide (f_type f = MYSQL_TYPE_BIT) then z ← getInt64 columnIndex; mret (ld_of_Z z)
        else mret (strtonum (c_str v))
    end).

Definition getString (columnIndex : Z) : method str :=
  guarded "getString" columnIndex (
    _ ← update (set_column columnIndex);
    r ← read row;
    c ← (match r with None => mret None | Some _ => cell_at columnIndex end);
    match c with
    | None => _ ← update (set_was_null true); mret []
    | Some v =>
        f ← getFieldMeta columnIndex;
        if bool_decide (f_type f = MYSQL_TYPE_BIT) then
          z ← getUInt64 columnIndex; pure (show_dec z)
        else _ ← update (set_was_null false); mret v
    end).

Definition getBoolean (columnIndex : Z) : method bool :=
  b ← isBeforeFirstOrAfterLast;
  if (b : bool) then not_on_row "getBoolean"
  else v ← getInt columnIndex; mret (negb (v =? 0)).

(** [getBlob] returns a stream over the text. *)
Definition getBlob (columnIndex : Z) : method str :=
  b ← isBeforeFirstOrAfterLast;
  if (b : bool) then not_on_row "getBoolean" else getString columnIndex.

Definition by_label {A} (get : Z -> method A) (columnLabel : str) : method A :=
  i ← findColumn columnLabel; get i.

Definition getString_label : str -> method str := by_label getString.
Definition getDouble_label : str -> method ld := by_label getDouble.
Definition getInt_label : str -> method Z := by_label getInt.
Definition getUInt_label : str -> method Z := by_label getUInt.
Definition getInt64_label : str -> method Z := by_label getInt64.
Definition getUInt64_label : str -> method Z := by_label getUInt64.
Definition getBoolean_label (columnLabel : str) : method bool :=
  b ← isBeforeFirstOrAfterLast;
  if (b : bool) then not_on_row "getBoolean"
  else v ← getInt_label columnLabel; mret (negb (v =? 0)).
Definition getBlob_label (columnLabel : str) : method str :=
  b ← isBeforeFirstOrAfterLast;
  if (b : bool) then not_on_row "getBoolean" else getString_label columnLabel.

Definition isNull (columnIndex : Z) : method bool :=
  _ ← checkValid;
  n ← read num_fields;
  if (columnIndex =? 0) || (n <? columnIndex) then invalid_column "isNull"
  else
    b ← isBeforeFirstOrAfterLast;
    if (b : bool) then not_on_row "getDouble"
    else c ← cell_at columnIndex; mret (match c with None => true | Some _ => false end).

Definition isNull_label (columnLabel : str) : method bool :=
  i ← findColumn columnLabel;
  if to_int i =? 0 then
    throw (SqlInvalidArgument "MySQL_ResultSet::isNull: invalid value of 'columnLabel'")
  else isNull (to_int i mod 2 ^ 32).

Definition wasNull : method bool :=
  _ ← checkValid;
  b ← isBeforeFirstOrAfterLast;
  if (b : bool) then not_on_row "wasNull"
  else
    c ← read last_queried_column;
    if c =? NO_COLUMN then
      throw (SqlInvalidArgument
        "MySQL_ResultSet::wasNull: should be called only after one of the getter methods")
    else read was_null.

(** The methods that are not implemented check the object first. *)
Definition not_implemented {A} (msg : str) : method A :=
  _ ← checkValid; throw (MethodNotImplemented msg).

Definition cancelRowUpdates : method unit :=
  not_implemented "MySQL_ResultSet::cancelRowUpdates()".
Definition clearWarnings : method unit :=
  not_implemented "MySQL_ResultSet::clearWarnings()".
Definition getConcurrency : method Z :=
  not_implemented "MySQL_ResultSet::getConcurrency()".
Definition getCursorName : method str :=
  not_implemented "MySQL_ResultSet::getCursorName()".
Definition getFetchDirection : method Z :=
  not_implemented "MySQL_ResultSet::getFetchDirection()".
Definition getFetchSize : method Z :=
  not_implemented "MySQL_ResultSet::getFetchSize()".
Definition getHoldability : method Z :=
  not_implemented "MySQL_ResultSet::getHoldability()".
Definition getWarnings : method unit :=
  not_implemented "MySQL_ResultSet::getWarnings()".
Definition insertRow : method unit :=
  not_implemented "MySQL_ResultSet::insertRow()".
Definition moveToCurrentRow : method unit :=
  not_implemented "MySQL_ResultSet::moveToCurrentRow()".
Definition moveToInsertRow : method unit :=
  not_implemented "MySQL_ResultSet::moveToInsertRow()".
Definition refreshRow : method unit :=
  not_implemented "MySQL_ResultSet::refreshRow()".
Definition rowDeleted : method bool :=
  not_implemented "MySQL_ResultSet::rowDeleted()".
Definition rowInserted : method bool :=
  not_implemented "MySQL_ResultSet::rowInserted()".
Definition rowUpdated : method bool :=
  not_implemented "MySQL_ResultSet::rowUpdated()".
Definition getRowId (columnIndex : Z) : method unit :=
  not_implemented "MySQL_ResultSet::getRowId(uint32_t columnIndex)".
Definition getRowId_label (columnLabel : str) : method unit :=
  not_implemented "MySQL_ResultSet::getRowId(const sql::SQLString & columnLabel)".
Definition setFetchSize (rows : Z) : method unit :=
  not_implemented "MySQL_ResultSet::setFetchSize()".

(** The moves of the cursor; those without a result report [false]. *)
Definition run_move (m : move) : method bool :=
  match m with
  | MNext => next
  | MPrevious => previous
  | MFirst => first
  | MLast => last
  | MBeforeFirst => _ ← beforeFirst; mret false
  | MAfterLast => _ ← afterLast; mret false
  | MAbsolute row => absolute row
  | MRelative rows => relative rows
  end.
End rs.

(** ** Facts: the cursor over a stored result *)

Section stored.
Context (C : CResult) `{!StoredResult C}.
Context (rows : list crow).

Local Abbreviation n := (Z.of_nat (length rows)).

(** The members no move changes. *)
Record same (a a' : Rs) : Prop := {
  same_rows : num_rows a' = num_rows a;
  same_fields : num_fields a' = num_fields a;
  same_names : field_name_to_index_map a' = field_name_to_index_map a;
  same_type : resultset_type a' = resultset_type a;
  same_proxy : proxy a' = proxy a;
}.

#[global] Instance same_preorder : PreOrder same.
Proof using. split; [by split|]. intros a b c [] []. split; congruence. Qed.

(** The native offset [k] and the fetched row agree with the position: before
    the first row nothing was fetched yet; on a row it is the one fetched last. *)
Record rs_at (p : Z) (a : Rs) : Prop := {
  at_type : resultset_type a <> TYPE_FORWARD_ONLY;
  at_rows : num_rows a = n;
  at_bound : n < INT_MAX;
  at_position : row_position a = p;
  at_range : 0 <= p <= n + 1;
  at_stored : exists s k, result a = Some s /\ stored s rows k /\
    (p = 0 -> k = 0%nat) /\
    (1 <= p <= n -> row a = rows !! Z.to_nat (p - 1) /\ k = Z.to_nat p);
}.

(** What a method that moves to [p'] and returns [b] does. *)
Definition moves_to {A} (m : Method Rs A) (a : Rs) (b : A) (p' : Z) : Prop :=
  exists a', m a = (Ok b, a') /\ same a a' /\ rs_at p' a'.

Lemma moves_ret {A} (a : Rs) (b : A) p : rs_at p a -> moves_to (mret b) a b p.
Proof using. intros Ha. by exists a. Qed.

Lemma open_result p a : rs_at p a -> exists s, result a = Some s.
Proof using. intros [_ _ _ _ _ (s & k & Hs & _)]. by exists s. Qed.

Lemma checkValid_at p a : rs_at p a -> checkValid a = (Ok tt, a).
Proof using.
  intros Ha. destruct (open_result p a Ha) as [s Hs].
  unfold checkValid, isClosed, read, mbind, Method_bind. by rewrite Hs.
Qed.

Lemma checkScrollable_at p a :
  rs_at p a -> checkScrollable a = (Ok tt, set_column NO_COLUMN a).
Proof using.
  intros Ha. unfold checkScrollable. rewrite method_read.
  by rewrite (proj2 (Z.eqb_neq _ _)) by apply Ha.
Qed.

Lemma at_set_column p x a : rs_at p a -> rs_at p (set_column x a).
Proof using. intros [H1 H2 H3 H4 H5 H6]. by split. Qed.

Lemma same_set_column x a : same a (set_column x a).
Proof using. by split. Qed.

Lemma after_at p a : rs_at p a -> after a = n + 1.
Proof using.
  intros [H1 H2 H3 H4 H5 H6]. unfold after. rewrite H2. apply to_size_t_small.
  unfold INT_MAX in *. lia.
Qed.

(** Seeking to a row and fetching it. *)
Lemma seek_moves p q a :
  rs_at p a -> 1 <= q <= n -> moves_to seek (set_position q a) tt q.
Proof using.
  intros Ha Hq. destruct Ha as [H1 H2 H3 H4 H5 (s & k & Hs & Hst & _ & _)].
  assert (Hseek : stored (res_data_seek s (q - 1)) rows (Z.to_nat (q - 1))).
  { replace (q - 1) with (Z.of_nat (Z.to_nat (q - 1))) at 1 by lia.
    apply (stored_seek s rows k (Z.to_nat (q - 1))); [done|lia]. }
  destruct (stored_fetch _ _ _ Hseek) as (s2 & Hf & Hs2).
  eexists. split; [|split].
  - unfold seek, checkScrollable, data_seek, fetch_row, the_result, read, update, pure.
    unfold mbind, Method_bind. simpl. rewrite (proj2 (Z.eqb_neq _ _)) by done. simpl.
    rewrite Hs. simpl. rewrite to_size_t_small by (unfold INT_MAX in *; lia).
    rewrite Hf. reflexivity.
  - by split.
  - split; simpl; [done|done|done|done|lia|].
    exists s2, (S (Z.to_nat (q - 1))). split; [done|]. rewrite decide_True in Hs2 by lia.
    split; [done|]. split; [lia|]. intros _. split; [done|lia].
Qed.

(** Leaving the rows at the end needs no seek. *)
Lemma at_end p a : rs_at p a -> rs_at (n + 1) (set_position (n + 1) a).
Proof using.
  intros [H1 H2 H3 H4 H5 (s & k & Hs & Hst & _ & _)]. split; simpl; [done|done|done|done|lia|].
  exists s, k. split; [done|]. split; [done|]. split; lia.
Qed.

Lemma same_position p a : same a (set_position p a).
Proof using. by split. Qed.

(** Going back before the first row resets the offset. *)
Lemma beforeFirst_moves p a : rs_at p a -> moves_to beforeFirst a tt 0.
Proof using.
  intros Ha. pose proof Ha as [H1 H2 H3 H4 H5 (s & k & Hs & Hst & _ & _)].
  eexists. split; [|split].
  - unfold beforeFirst. rewrite (method_bind_ok (checkValid_at p a Ha)).
    rewrite (method_bind_ok (checkScrollable_at p a Ha)).
    unfold data_seek, the_result, read, update, pure, mbind, Method_bind. simpl.
    rewrite Hs. reflexivity.
  - by split.
  - split; simpl; [done|done|done|done|lia|].
    exists (res_data_seek s 0), 0%nat. split; [done|]. split; [|split; lia].
    exact (stored_seek s rows k 0%nat Hst (or_introl eq_refl)).
Qed.

Lemma moves_bind {A B} (m : Method Rs A) (f : A -> Method Rs B) a (b : A) p (c : B) q :
  moves_to m a b p -> (forall a', same a a' -> rs_at p a' -> moves_to (f b) a' c q) ->
  moves_to (m ≫= f) a c q.
Proof using.
  intros (a1 & E1 & Hs & Ha) Hf. destruct (Hf a1 Hs Ha) as (a2 & E2 & Hs2 & Ha2).
  exists a2. rewrite (method_bind_ok E1). split; [done|]. split; [by etrans|done].
Qed.

Lemma checkValid_moves p a : rs_at p a -> moves_to checkValid a tt p.
Proof using. intros Ha. exists a. by rewrite (checkValid_at p a Ha). Qed.

Lemma checkScrollable_moves p a : rs_at p a -> moves_to checkScrollable a tt p.
Proof using.
  intros Ha. exists (set_column NO_COLUMN a). rewrite (checkScrollable_at p a Ha).
  split; [done|]. split; [apply same_set_column|by apply at_set_column].
Qed.

Lemma isScrollable_moves p a : rs_at p a -> moves_to isScrollable a true p.
Proof using.
  intros Ha. exists a. unfold isScrollable. rewrite method_read.
  rewrite (proj2 (Z.eqb_neq _ _) (at_type p a Ha)). by split.
Qed.

Lemma isLast_moves p a : rs_at p a -> moves_to isLast a (p =? n) p.
Proof using.
  intros Ha. unfold isLast.
  eapply moves_bind; [by apply checkValid_moves|]. intros a1 _ H1.
  eapply moves_bind; [by apply checkScrollable_moves|]. intros a2 _ H2.
  exists a2. split; [|by split]. unfold read, mbind, Method_bind. simpl.
  by rewrite (at_position p a2 H2), (at_rows p a2 H2).
Qed.

Lemma isFirst_moves p a : rs_at p a -> moves_to isFirst a (p =? 1) p.
Proof using.
  intros Ha. unfold isFirst. eapply moves_bind; [by apply checkValid_moves|]. intros a1 _ H1.
  exists a1. split; [|by split]. unfold read, mbind, Method_bind. simpl.
  by rewrite (at_position p a1 H1).
Qed.

Lemma isBeforeFirst_moves p a : rs_at p a -> moves_to isBeforeFirst a (p =? 0) p.
Proof using.
  intros Ha. unfold isBeforeFirst. eapply moves_bind; [by apply checkValid_moves|].
  intros a1 _ H1. exists a1. split; [|by split]. unfold read, mbind, Method_bind. simpl.
  by rewrite (at_position p a1 H1).
Qed.

Lemma afterLast_moves p a : rs_at p a -> moves_to afterLast a tt (n + 1).
Proof using.
  intros Ha. unfold afterLast. eapply moves_bind; [by apply checkValid_moves|].
  intros a1 _ H1. exists (set_position (n + 1) a1). rewrite method_read, (after_at p a1 H1).
  split; [done|]. split; [apply same_position|by apply (at_end p)].
Qed.

(** Setting the position and seeking. *)
Lemma set_seek_moves p q a :
  rs_at p a -> 1 <= q <= n -> moves_to (_ ← update (set_position q); seek) a tt q.
Proof using.
  intros Ha Hq. destruct (seek_moves p q a Ha Hq) as (a' & E & Hs & Ha').
  exists a'. rewrite method_update. split; [done|]. split; [|done].
  etrans; [apply same_position|exact Hs].
Qed.

(** Fetching the next row from before the first or from a row. *)
Lemma fetch_next_moves p a :
  rs_at p a -> 0 <= p < n ->
  moves_to (ret ← fetch_next; _ ← update (set_position (to_size_t (p + 1))); mret ret) a true
    (p + 1).
Proof using.
  intros Ha Hp. destruct Ha as [H1 H2 H3 H4 H5 (s & k & Hs & Hst & H0 & Hr)].
  assert (Hk : k = Z.to_nat p).
  { destruct (decide (p = 0)) as [->|Hne]; [by apply H0|apply Hr; lia]. }
  subst k. destruct (stored_fetch _ _ _ Hst) as (s2 & Hf & Hs2).
  destruct (lookup_lt_is_Some_2 rows (Z.to_nat p)) as [x Hx]; [lia|].
  eexists. split; [|split].
  - unfold fetch_next, fetch_row, the_result, read, update, pure, mbind, Method_bind. simpl.
    rewrite Hs. simpl. rewrite Hf, Hx. reflexivity.
  - by split.
  - rewrite to_size_t_small by (unfold INT_MAX in *; lia).
    split; simpl; [done|done|done|done|lia|].
    exists s2, (S (Z.to_nat p)). split; [done|]. rewrite decide_True in Hs2 by lia.
    split; [done|]. split; [lia|]. intros _. split; [|lia].
    by replace (Z.to_nat (p + 1 - 1)) with (Z.to_nat p) by lia.
Qed.
End stored.

Section moves.
Context (C : CResult) `{!StoredResult C}.
Context (rows : list crow).

Local Abbreviation n := (Z.of_nat (length rows)).
Local Abbreviation rs_at := (rs_at C rows).
Local Abbreviation moves_to := (moves_to C rows).

Lemma moves_read {A B} (g : Rs -> A) (f : A -> Method Rs B) a c q :
  moves_to (f (g a)) a c q -> moves_to (read g ≫= f) a c q.
Proof using. done. Qed.

Lemma next_moves p a :
  rs_at p a -> moves_to next a (on_row n (move_to n p MNext)) (move_to n p MNext).
Proof using.
  intros Ha. unfold next. pose proof (at_range _ _ _ _ Ha) as Hp. simpl move_to. unfold clamp.
  eapply moves_bind; [by apply checkValid_moves|]. intros a1 _ H1.
  eapply moves_bind; [by eapply isScrollable_moves|]. intros a2 _ H2. cbn [negb].
  eapply moves_bind; [by apply isLast_moves|]. intros a3 _ H3.
  destruct (Z.eqb_spec p n) as [E|E].
  - eapply moves_bind; [by eapply afterLast_moves|]. intros a4 _ H4.
    replace (Z.max 0 (Z.min (p + 1) (n + 1))) with (n + 1) by lia.
    unfold on_row. rewrite (proj2 (Z.leb_gt (n + 1) n)), andb_false_r by lia.
    by apply moves_ret.
  - apply moves_read, moves_read.
    rewrite (at_position _ _ _ _ H3), (after_at _ _ _ _ H3).
    destruct (Z.ltb_spec p (n + 1)) as [Hlt|Hge].
    + replace (Z.max 0 (Z.min (p + 1) (n + 1))) with (p + 1) by lia.
      unfold on_row. rewrite (proj2 (Z.leb_le 1 (p + 1))), (proj2 (Z.leb_le (p + 1) n)) by lia.
      apply fetch_next_moves; [done|lia].
    + replace (Z.max 0 (Z.min (p + 1) (n + 1))) with p by lia.
      unfold on_row. rewrite (proj2 (Z.leb_gt p n)), andb_false_r by lia.
      by apply moves_ret.
Qed.

Lemma previous_moves p a :
  rs_at p a -> moves_to previous a (on_row n (move_to n p MPrevious)) (move_to n p MPrevious).
Proof using.
  intros Ha. unfold previous. pose proof (at_range _ _ _ _ Ha) as Hp. simpl move_to. unfold clamp.
  eapply moves_bind; [by apply checkScrollable_moves|]. intros a1 _ H1.
  eapply moves_bind; [by apply isBeforeFirst_moves|]. intros a2 _ H2.
  destruct (Z.eqb_spec p 0) as [E|E].
  - replace (Z.max 0 (Z.min (p - 1) (n + 1))) with p by lia. unfold on_row.
    rewrite (proj2 (Z.leb_gt 1 p)) by lia. by apply moves_ret.
  - eapply moves_bind; [by apply isFirst_moves|]. intros a3 _ H3.
    destruct (Z.eqb_spec p 1) as [E1|E1].
    + eapply moves_bind; [by eapply beforeFirst_moves|]. intros a4 _ H4.
      replace (Z.max 0 (Z.min (p - 1) (n + 1))) with 0 by lia. by apply moves_ret.
    + apply moves_read. rewrite (at_position _ _ _ _ H3), (proj2 (Z.ltb_lt 1 p)) by lia.
      replace (Z.max 0 (Z.min (p - 1) (n + 1))) with (p - 1) by lia. unfold on_row.
      rewrite (proj2 (Z.leb_le 1 (p - 1))), (proj2 (Z.leb_le (p - 1) n)) by lia.
      destruct (set_seek_moves C rows p (p - 1) a3 H3) as (a4 & E4 & Hs & H4); [lia|].
      rewrite method_update in E4. exists a4. rewrite method_update.
      by rewrite (method_bind_ok E4).
Qed.

Lemma set_seek_then {A} p q (b : A) a :
  rs_at p a -> 1 <= q <= n ->
  moves_to (_ ← update (set_position q); _ ← seek; mret b) a b q.
Proof using.
  intros Ha Hq. destruct (set_seek_moves C rows p q a Ha Hq) as (a' & E & Hs & Ha').
  rewrite method_update in E. exists a'. rewrite method_update.
  by rewrite (method_bind_ok E).
Qed.

Lemma set_end_moves p a : rs_at p a -> moves_to (update (set_position (n + 1))) a tt (n + 1).
Proof using.
  intros Ha. exists (set_position (n + 1) a). split; [done|].
  split; [apply same_position|by apply (at_end C rows p)].
Qed.

Lemma first_moves p a :
  rs_at p a -> moves_to first a (on_row n (move_to n p MFirst)) (move_to n p MFirst).
Proof using.
  intros Ha. unfold first. pose proof (at_range _ _ _ _ Ha) as Hp. simpl move_to.
  eapply moves_bind; [by apply checkValid_moves|]. intros a1 _ H1.
  eapply moves_bind; [by apply checkScrollable_moves|]. intros a2 _ H2.
  apply moves_read. rewrite (at_rows _ _ _ _ H2). unfold on_row.
  destruct (Z.eqb_spec n 0) as [E|E]; cbn [negb].
  - replace ((1 <=? p) && (p <=? n)) with false; [by apply moves_ret|].
    symmetry. apply andb_false_iff. rewrite !Z.leb_gt. lia.
  - rewrite (proj2 (Z.leb_le 1 n)) by lia. eapply set_seek_then; [done|lia].
Qed.

Lemma last_moves p a :
  rs_at p a -> moves_to last a (on_row n (move_to n p MLast)) (move_to n p MLast).
Proof using.
  intros Ha. unfold last. pose proof (at_range _ _ _ _ Ha) as Hp. simpl move_to.
  eapply moves_bind; [by apply checkValid_moves|]. intros a1 _ H1.
  eapply moves_bind; [by apply checkScrollable_moves|]. intros a2 _ H2.
  apply moves_read. rewrite (at_rows _ _ _ _ H2). unfold on_row.
  destruct (Z.eqb_spec n 0) as [E|E]; cbn [negb].
  - replace ((1 <=? p) && (p <=? n)) with false; [by apply moves_ret|].
    symmetry. apply andb_false_iff. rewrite !Z.leb_gt. lia.
  - rewrite (proj2 (Z.leb_le 1 n)), Z.leb_refl by lia. eapply set_seek_then; [done|lia].
Qed.

Lemma result_at p a :
  rs_at p a ->
  moves_to (q ← read row_position; e ← read after; mret ((0 <? q) && (q <? e))) a (on_row n p) p.
Proof using.
  intros Ha. apply moves_read, moves_read.
  rewrite (at_position _ _ _ _ Ha), (after_at _ _ _ _ Ha).
  replace (on_row n p) with ((0 <? p) && (p <? n + 1)); [by apply moves_ret|].
  unfold on_row. apply eq_true_iff_eq. rewrite !andb_true_iff. lia.
Qed.

Lemma absolute_moves p r a :
  rs_at p a -> INT_MIN < r <= INT_MAX -> - n <= r ->
  moves_to (absolute r) a (on_row n (move_to n p (MAbsolute r))) (move_to n p (MAbsolute r)).
Proof using.
  intros Ha Hr Hn. pose proof (at_bound _ _ _ _ Ha) as Hb. unfold absolute. cbv zeta.
  eapply moves_bind; [by apply checkValid_moves|]. intros a1 _ H1.
  eapply moves_bind; [by apply checkScrollable_moves|]. intros a2 _ H2.
  apply moves_read. rewrite (at_rows _ _ _ _ H2).
  rewrite to_int_small by (unfold INT_MIN, INT_MAX in *; lia).
  simpl move_to. unfold clamp, INT_MIN, INT_MAX in *.
  destruct (Z.ltb_spec 0 r) as [Hpos|Hpos].
  - rewrite (proj2 (Z.ltb_ge r 0)) by lia. destruct (Z.ltb_spec n r) as [Hbig|Hsmall].
    + replace (Z.max 0 (Z.min r (n + 1))) with (n + 1) by lia.
      apply moves_read. rewrite (after_at _ _ _ _ H2).
      eapply moves_bind; [by eapply set_end_moves|]. intros a3 _ H3. by apply result_at.
    + replace (Z.max 0 (Z.min r (n + 1))) with r by lia.
      rewrite to_size_t_small by lia. unfold on_row.
      rewrite (proj2 (Z.leb_le 1 r)), (proj2 (Z.leb_le r n)) by lia.
      eapply set_seek_then; [done|lia].
  - destruct (Z.ltb_spec r 0) as [Hneg|Hneg].
    + rewrite (proj2 (Z.eqb_neq _ _)) by (unfold INT_MIN; lia).
      rewrite (proj2 (Z.ltb_ge n (- r))) by lia.
      rewrite (to_size_t_small (- r)), (to_size_t_small (n - - r)), to_size_t_small by lia.
      replace (Z.max 0 (Z.min (n + 1 + r) (n + 1))) with (n - - r + 1) by lia.
      unfold on_row. rewrite (proj2 (Z.leb_le 1 _)), (proj2 (Z.leb_le _ n)) by lia.
      eapply set_seek_then; [done|lia].
    + replace (Z.max 0 (Z.min r (n + 1))) with 0 by lia.
      destruct (beforeFirst_moves C rows p a2 H2) as (a3 & E3 & Hs3 & H3).
      unfold beforeFirst in E3.
      rewrite (method_bind_ok (checkValid_at C rows p a2 H2)) in E3.
      destruct H2 as [T1 T2 T3 T4 T5 (s & k & Hs & Hst & _ & _)].
      assert (H3' : rs_at 0 (set_result (Some (res_data_seek s 0)) (set_position 0 a2))).
      { split; simpl; [done|done|done|done|lia|]. exists (res_data_seek s 0), 0%nat.
        split; [done|]. split; [|split; lia].
        exact (stored_seek s rows k 0%nat Hst (or_introl eq_refl)). }
      destruct (result_at 0 _ H3') as (a4 & E4 & Hs4 & H4). exists a4. split; [|split; [|done]].
      * rewrite method_update. unfold data_seek, the_result, read, pure, update.
        unfold mbind, Method_bind. simpl. rewrite Hs. simpl. exact E4.
      * etrans; [|exact Hs4]. by split.
Qed.

Lemma relative_moves p r a :
  rs_at p a -> INT_MIN <= r <= INT_MAX -> r = 0 \/ 1 <= p + r ->
  moves_to (relative r) a (on_row n (move_to n p (MRelative r))) (move_to n p (MRelative r)).
Proof using.
  intros Ha Hr Hok. pose proof (at_bound _ _ _ _ Ha) as Hb.
  pose proof (at_range _ _ _ _ Ha) as Hp. unfold relative.
  eapply moves_bind; [by apply checkValid_moves|]. intros a1 _ H1.
  eapply moves_bind; [by apply checkScrollable_moves|]. intros a2 _ H2.
  apply moves_read, moves_read, moves_read.
  rewrite (at_rows _ _ _ _ H2), (at_position _ _ _ _ H2), (after_at _ _ _ _ H2).
  simpl move_to. unfold clamp, INT_MIN, INT_MAX in *.
  set (q := Z.max 0 (Z.min (p + r) (n + 1))).
  eapply (moves_bind _ _ _ _ _ tt q).
  - destruct (Z.eqb_spec r 0) as [E|E]; cbn [negb].
    + replace q with p by (unfold q; lia). by apply moves_ret.
    + cbv zeta. assert (Hq : to_size_t (p + to_size_t r) = p + r).
      { unfold to_size_t. rewrite Z.add_mod_idemp_r by done. apply Z.mod_small. lia. }
      rewrite Hq. destruct (Z.ltb_spec n (p + r)) as [Hbig|Hsmall]; cbn [orb].
      * rewrite (proj2 (Z.ltb_lt 0 r)) by lia.
        replace q with (n + 1) by (unfold q; lia). by eapply set_end_moves.
      * rewrite (proj2 (Z.ltb_ge (p + r) 1)) by lia.
        replace q with (p + r) by (unfold q; lia). eapply set_seek_moves; [done|lia].
  - intros a3 _ H3. apply moves_read. rewrite (at_position _ _ _ _ H3).
    replace (on_row n q) with ((0 <? q) && (q <=? n)); [by apply moves_ret|].
    unfold on_row. apply eq_true_iff_eq. rewrite !andb_true_iff. lia.
Qed.

(** The moves that keep the fetched row and the position together: not the
    [absolute] and [relative] moves that end before the first row. *)
Definition move_ok (p : Z) (m : move) : Prop :=
  match m with
  | MAbsolute r => INT_MIN < r <= INT_MAX /\ - n <= r
  | MRelative r => INT_MIN <= r <= INT_MAX /\ (r = 0 \/ 1 <= p + r)
  | _ => True
  end.

Lemma run_move_moves p m a :
  rs_at p a -> move_ok p m -> moves_to (run_move m) a (on_row n (move_to n p m)) (move_to n p m).
Proof using.
  intros Ha Hm. pose proof (at_range _ _ _ _ Ha) as Hp. destruct m; simpl in Hm.
  - by apply next_moves.
  - by apply previous_moves.
  - by apply first_moves.
  - by apply last_moves.
  - eapply moves_bind; [by eapply beforeFirst_moves|]. intros a1 _ H1. by apply moves_ret.
  - eapply moves_bind; [by eapply afterLast_moves|]. intros a1 _ H1. simpl move_to.
    unfold on_row. rewrite (proj2 (Z.leb_gt (n + 1) n)), andb_false_r by lia.
    by apply moves_ret.
  - destruct Hm. by apply absolute_moves.
  - destruct Hm. by apply relative_moves.
Qed.

(** A stored result keeps the promise of the cursor for these moves. *)
#[export] Program Instance rs_cursor : CursorOver run_move n := {|
  cursor_at := rs_at;
  cursor_allows := move_ok;
|}.
Next Obligation.
  intros p m a Ha Hm. destruct (run_move_moves p m a Ha Hm) as (a' & E & _ & H). by exists a'.
Qed.

(** Before the last row [next] takes the row at the native offset, wherever
    that is. *)
Lemma next_fetches a s x s' :
  result a = Some s -> resultset_type a <> TYPE_FORWARD_ONLY -> num_rows a = n -> n < INT_MAX ->
  0 <= row_position a < n -> res_fetch_row s = (Some x, s') ->
  next a = (Ok true, set_position (row_position a + 1)
    (set_row (Some x) (set_result (Some s') (set_column NO_COLUMN a)))).
Proof using.
  intros Hs Ht Hn Hb Hp Hf.
  assert (Hv : checkValid a = (Ok tt, a)).
  { unfold checkValid, isClosed, read, mbind, Method_bind. by rewrite Hs. }
  assert (Hsc : isScrollable a = (Ok true, a)).
  { unfold isScrollable. rewrite method_read. by rewrite (proj2 (Z.eqb_neq _ _) Ht). }
  assert (Hl : isLast a = (Ok false, set_column NO_COLUMN a)).
  { unfold isLast. rewrite (method_bind_ok Hv).
    assert (Hc : checkScrollable a = (Ok tt, set_column NO_COLUMN a)).
    { unfold checkScrollable. rewrite method_read. by rewrite (proj2 (Z.eqb_neq _ _) Ht). }
    rewrite (method_bind_ok Hc), !method_read. simpl.
    rewrite Hn. by rewrite (proj2 (Z.eqb_neq (row_position a) n)) by lia. }
  unfold next. rewrite (method_bind_ok Hv), (method_bind_ok Hsc).
  cbv beta iota. rewrite (method_bind_ok Hl). cbv beta iota. rewrite !method_read.
  unfold after. change (num_rows (set_column NO_COLUMN a)) with (num_rows a).
  change (row_position (set_column NO_COLUMN a)) with (row_position a). rewrite Hn, to_size_t_small by (unfold INT_MAX in *; lia).
  rewrite (proj2 (Z.ltb_lt _ _)) by lia.
  unfold fetch_next, fetch_row, the_result, read, update, pure, mbind, Method_bind. simpl.
  rewrite Hs. simpl. rewrite Hf. simpl. by rewrite to_size_t_small by (unfold INT_MAX in *; lia).
Qed.

(** From the first row [relative] goes back before it without resetting the
    offset, so that the next row is the second one. *)
Lemma relative_then_next a :
  rs_at 1 a -> 2 <= n ->
  exists a1 a2, relative (-1) a = (Ok false, a1) /\ row_position a1 = 0 /\
    next a1 = (Ok true, a2) /\ row_position a2 = 1 /\ row a2 = rows !! 1%nat.
Proof using.
  intros Ha Hn. pose proof (checkValid_at C rows 1 a Ha) as Hv.
  destruct Ha as [H1 H2 H3 H4 H5 (s & k & Hs & Hst & _ & Hk)].
  destruct Hk as [_ ->]; [lia|].
  destruct (stored_fetch _ _ _ Hst) as (s2 & Hf & _). change (Z.to_nat 1) with 1%nat in Hf.
  destruct (lookup_lt_is_Some_2 rows 1%nat) as [x Hx]; [lia|].
  assert (Hrel : relative (-1) a = (Ok false, set_position 0 (set_column NO_COLUMN a))).
  { unfold relative. rewrite (method_bind_ok Hv).
    unfold checkScrollable, read, update, mbind, Method_bind. simpl.
    rewrite (proj2 (Z.eqb_neq _ _)) by done. simpl. rewrite H4, H2.
    replace (to_size_t (1 + to_size_t (-1))) with 0 by reflexivity.
    by rewrite (proj2 (Z.ltb_ge n 0)) by lia. }
  assert (Hnext := next_fetches (set_position 0 (set_column NO_COLUMN a)) s x s2 Hs H1 H2 H3).
  eexists _, _. split; [exact Hrel|]. split; [done|]. split; [apply Hnext|done].
  - simpl. lia.
  - by rewrite Hf, Hx.
Qed.
End moves.

(** ** Facts: reading a whole result *)

(** [while(res->next()) ...], the loop of the clients (output.cpp and the
    emitted program); [fuel] bounds its rounds. *)
Fixpoint read_all `{CResult} {A} (body : Method Rs A) (fuel : nat) : Method Rs (list A) :=
  match fuel with
  | O => pure Diverged
  | S fuel' =>
      b ← next;
      if (b : bool) then x ← body; xs ← read_all body fuel'; mret (x :: xs) else mret []
  end.

Section reading.
Context (C : CResult) (LD : LongDouble) `{!StoredResult C}.
Context (rows : list crow).

Local Abbreviation n := (Z.of_nat (length rows)).
Local Abbreviation rs_at := (rs_at C rows).
Local Abbreviation moves_to := (moves_to C rows).

(** The loop runs its body on every row in order. *)
Lemma read_all_rows {A} (body : Method Rs A) (I : Rs -> Prop) (g : crow -> A) :
  (forall a a', same C a a' -> I a -> I a') ->
  (forall a i r, I a -> rows !! i = Some r -> rs_at (Z.of_nat i + 1) a ->
     moves_to body a (g r) (Z.of_nat i + 1)) ->
  forall fuel i a, I a -> rs_at (Z.of_nat i) a -> (i <= length rows)%nat ->
    (length rows - i < fuel)%nat ->
    moves_to (read_all body fuel) a (map g (drop i rows)) (n + 1).
Proof using StoredResult0.
  intros HI Hbody fuel. induction fuel as [|fuel IH]; intros i a Ia Ha Hi Hf; [lia|].
  cbn [read_all]. pose proof (next_moves C rows _ a Ha) as Hnext.
  destruct (decide (i = length rows)) as [->|Hne].
  - simpl move_to in Hnext. unfold clamp in Hnext.
    replace (Z.max 0 (Z.min (n + 1) (n + 1))) with (n + 1) in Hnext by lia.
    unfold on_row in Hnext. rewrite (proj2 (Z.leb_gt (n + 1) n)), andb_false_r in Hnext by lia.
    eapply moves_bind; [exact Hnext|]. intros a1 _ H1. rewrite drop_all. by apply moves_ret.
  - simpl move_to in Hnext. unfold clamp in Hnext.
    replace (Z.max 0 (Z.min (Z.of_nat i + 1) (n + 1))) with (Z.of_nat i + 1) in Hnext by lia.
    unfold on_row in Hnext. rewrite (proj2 (Z.leb_le 1 _)), (proj2 (Z.leb_le _ n)) in Hnext by lia.
    destruct (lookup_lt_is_Some_2 rows i) as [r Hr]; [lia|].
    rewrite (drop_S rows r i Hr). cbn [map].
    eapply moves_bind; [exact Hnext|]. intros a1 S1 H1. pose proof (HI _ _ S1 Ia) as I1.
    eapply moves_bind; [by apply (Hbody _ i r)|]. intros a2 S2 H2.
    pose proof (HI _ _ S2 I1) as I2.
    replace (Z.of_nat i + 1) with (Z.of_nat (S i)) in H2 by lia.
    eapply moves_bind; [by apply (IH (S i)); [..|lia|lia]|]. intros a3 _ H3. by apply moves_ret.
Qed.

(** A fresh result set is before its first row. *)
Lemma Rs_new_at r p :
  stored r rows 0 -> n < INT_MAX -> rs_at 0 (Rs_new r p TYPE_SCROLL_INSENSITIVE).
Proof using.
  intros Hst Hn. split; simpl; [done|by apply (stored_num_rows r rows 0)|done|done|lia|].
  exists r, 0%nat. split; [done|]. split; [done|]. split; [done|lia].
Qed.

(** The text of a column of a row. *)
Definition text_of (c : Z) (r : crow) : str :=
  match r !! Z.to_nat (c - 1) with Some (Some v) => v | _ => [] end.

(** A column that is not a BIT column. *)
Definition text_column (c : Z) : Prop :=
  forall s k, stored s rows k -> f_type (res_field s (c - 1)) <> MYSQL_TYPE_BIT.

Lemma isBeforeFirstOrAfterLast_moves p a :
  rs_at p a -> moves_to isBeforeFirstOrAfterLast a (negb (on_row n p)) p.
Proof using.
  intros Ha. pose proof (at_range _ _ _ _ Ha) as Hp. unfold isBeforeFirstOrAfterLast.
  eapply moves_bind; [by eapply checkValid_moves|]. intros a1 _ H1.
  apply moves_read, moves_read. eapply moves_bind; [by eapply isScrollable_moves|].
  intros a2 _ H2. rewrite (at_position _ _ _ _ H1), (after_at _ _ _ _ H1).
  replace (negb (on_row n p)) with ((p =? 0) || (true && (p =? n + 1))); [by apply moves_ret|].
  unfold on_row. apply eq_true_iff_eq. rewrite negb_true_iff, orb_true_iff, andb_false_iff.
  simpl. rewrite !Z.leb_gt, !Z.eqb_eq. lia.
Qed.

(** [getString] reads the value of the current row. *)
Lemma getString_moves c i r a :
  rs_at (Z.of_nat i + 1) a -> rows !! i = Some r -> 1 <= c <= num_fields a ->
  c <= Z.of_nat (length r) -> text_column c ->
  moves_to (getString c) a (text_of c r) (Z.of_nat i + 1).
Proof using.
  intros Ha Hr Hc Hl Ht. pose proof (lookup_lt_Some _ _ _ Hr) as Hi.
  unfold getString, guarded.
  eapply moves_bind; [by eapply isBeforeFirstOrAfterLast_moves|]. intros a1 S1 H1.
  unfold on_row. rewrite (proj2 (Z.leb_le 1 _)), (proj2 (Z.leb_le _ n)) by lia. cbn [negb andb].
  apply moves_read. rewrite (same_fields _ _ _ S1).
  rewrite (proj2 (Z.eqb_neq c 0)), (proj2 (Z.ltb_ge _ c)) by lia. cbn [orb].
  destruct H1 as [T1 T2 T3 T4 T5 (s & k & Hs & Hst & T6 & T7)].
  destruct T7 as [Hrow ->]; [lia|].
  replace (Z.to_nat (Z.of_nat i + 1 - 1)) with i in Hrow by lia. rewrite Hr in Hrow.
  assert (Hat : forall b, rs_at (Z.of_nat i + 1) (set_was_null b (set_column c a1))).
  { intros b. split; simpl; [done|done|done|done|lia|]. exists s, (Z.to_nat (Z.of_nat i + 1)).
    split; [done|]. split; [done|]. split; [lia|]. intros _. split; [|done].
    replace (Z.to_nat (Z.of_nat i + 1 - 1)) with i by lia. by rewrite Hr. }
  destruct (lookup_lt_is_Some_2 r (Z.to_nat (c - 1))) as [v Hv]; [lia|].
  assert (Hcell : cell_at c (set_column c a1) = (Ok v, set_column c a1)).
  { unfold cell_at, read, pure, mbind, Method_bind. simpl. rewrite Hrow. simpl.
    unfold arr_at. by rewrite decide_True, Hv by lia. }
  unfold text_of. rewrite Hv. destruct v as [v|].
  - exists (set_was_null false (set_column c a1)). split; [|split; [by split|done]].
    rewrite method_update, method_read. simpl row. rewrite Hrow.
    rewrite (method_bind_ok Hcell).
    unfold getFieldMeta, the_result, read, update, pure, mbind, Method_bind. simpl.
    rewrite Hs. simpl. by rewrite bool_decide_false by apply (Ht s _ Hst).
  - exists (set_was_null true (set_column c a1)). split; [|split; [by split|done]].
    rewrite method_update, method_read. simpl row. rewrite Hrow.
    by rewrite (method_bind_ok Hcell).
Qed.

(** A label of a column, whatever its case. *)
Definition labels (names : list str) (a : Rs) : Prop :=
  field_name_to_index_map a = index_names names 0 ∅ /\ num_fields a = Z.of_nat (length names).

Lemma labels_same names a a' : same C a a' -> labels names a -> labels names a'.
Proof using. intros [] []. split; congruence. Qed.

Lemma findColumn_moves p a names label i name :
  rs_at p a -> labels names a -> NoDup (map (fun s => utf8_strup s 0) names) ->
  names !! i = Some name -> utf8_strup name 0 = utf8_strup label 0 ->
  moves_to (findColumn label) a (Z.of_nat i + 1) p.
Proof using.
  intros Ha [Hm _] Hd Hi Hl. unfold findColumn.
  eapply moves_bind; [by eapply checkValid_moves|]. intros a1 S1 H1. apply moves_read.
  rewrite (same_names _ _ _ S1), Hm. unfold find_label.
  rewrite index_names_lookup, (last_index_unique names 0 (utf8_strup label 0) i name Hd Hi Hl).
  rewrite Z.add_0_l. by apply moves_ret.
Qed.

(** A row has as many cells as the result has columns. *)
Definition full_rows (names : list str) : Prop :=
  Forall (fun r : crow => length r = length names) rows.

Lemma getString_label_moves i r a names label j name :
  rs_at (Z.of_nat i + 1) a -> rows !! i = Some r -> labels names a -> full_rows names ->
  NoDup (map (fun s => utf8_strup s 0) names) ->
  names !! j = Some name -> utf8_strup name 0 = utf8_strup label 0 ->
  text_column (Z.of_nat j + 1) ->
  moves_to (getString_label label) a (text_of (Z.of_nat j + 1) r) (Z.of_nat i + 1).
Proof using.
  intros Ha Hr Hn Hf Hd Hj Hl Ht. unfold getString_label, by_label.
  eapply moves_bind; [by eapply findColumn_moves|]. intros a1 S1 H1.
  destruct (labels_same _ _ _ S1 Hn) as [_ Hc]. pose proof (lookup_lt_Some _ _ _ Hj).
  unfold full_rows in Hf. rewrite Forall_forall in Hf.
  specialize (Hf r (list_elem_of_lookup_2 _ _ _ Hr)).
  apply getString_moves; [done|done| |lia|done]. lia.
Qed.
End reading.

(** ** A result held in memory *)

Section in_memory.
Context (fields : list field).

#[export] Instance in_memory : CResult := {|
  res := (list crow * nat)%type;
  res_num_rows s := Z.of_nat (length s.1);
  res_num_fields _ := Z.of_nat (length fields);
  res_field _ i := default (simple_field [] MYSQL_TYPE_NULL 0 0) (fields !! Z.to_nat i);
  res_fetch_row s :=
    (s.1 !! s.2, (s.1, if decide (s.2 < length s.1)%nat then S s.2 else s.2));
  res_data_seek s offset := (s.1, Z.to_nat offset);
  res_flags := documented_flags;
|}.

#[export] Instance in_memory_stored : StoredResult in_memory.
Proof using.
  refine {| stored (s : res) rows k := s = (rows, k) |}.
  - by intros ? rows k ->.
  - intros ? rows k ->. by eexists.
  - intros ? rows k j -> _. simpl. by rewrite Nat2Z.id.
Defined.
End in_memory.
