(* ===== verification/ResultBind.v ===== *)
(** * mysqlconnector jdbc/driver/mysql_resultbind.{h,cpp}: the buffers of a result

    [MySQL_ResultBind] allocates a buffer for every column of the result of a
    prepared statement and binds them; [fetch] of the C API, an interface
    ([CStatement]), writes the values of a row into them.  Buffers are values:
    that they are freed is not modelled.  The host is little-endian. *)

From S2P Require Import Prelude Cxx Str Cursor Unicode MyVal Fields.

(** ** Buffers *)

(** [MYSQL_TIME] *)
Record MYSQL_TIME := MkTime {
  t_year : Z; t_month : Z; t_day : Z; t_hour : Z; t_minute : Z; t_second : Z;
  t_second_part : Z;
  t_neg : bool;
}.

(** What a buffer holds: bytes, or a [MYSQL_TIME] for dates and times. *)
Inductive contents := Bytes (b : str) | Time (t : MYSQL_TIME).

(** The members of [MYSQL_BIND] that are read, with what its pointers point to:
    [b_buffer] is [None] for a null pointer and for a buffer nothing was written to. *)
Record bind := MkBind {
  b_type : enum_field_types;
  b_buffer : option contents;
  b_buffer_length : Z;
  b_length : Z;
  b_is_null : bool;
  b_is_unsigned : bool;
}.

(** An unsigned number of [w] bytes in the order of the host. *)
Fixpoint le_combine (b : str) : Z :=
  match b with
  | [] => 0
  | c :: b' => byte_of c + 256 * le_combine b'
  end.

(** [*reinterpret_cast<uint8_t *>(buffer)] up to [uint64_t], and the signed ones. *)
Definition load_unsigned (w : nat) (buf : option contents) : outcome Z :=
  match buf with
  | Some (Bytes b) =>
      if (w <=? length b)%nat then Ok (le_combine (take w b)) else Undefined
  | _ => Undefined
  end.

Definition to_signed (w : nat) (z : Z) : Z :=
  if z <? 2 ^ (8 * Z.of_nat w - 1) then z else z - 2 ^ (8 * Z.of_nat w).

Definition load_signed (w : nat) (buf : option contents) : outcome Z :=
  z ← load_unsigned w buf; Ok (to_signed w z).

(** The first [n] bytes of a buffer. *)
Definition load_bytes (n : Z) (buf : option contents) : outcome str :=
  match buf with
  | Some (Bytes b) => if n <=? size b then Ok (take (Z.to_nat n) b) else Undefined
  | _ => Undefined
  end.

(** [static_cast<MYSQL_TIME *>(buffer)] *)
Definition load_time (buf : option contents) : outcome MYSQL_TIME :=
  match buf with Some (Time t) => Ok t | _ => Undefined end.

(** ** The C API *)

Class CStatement := {
  stmt : Type;
  stmt_field_count : stmt -> Z;
  stmt_num_rows : stmt -> Z;
  (** the columns of [result_metadata()] *)
  stmt_field : stmt -> Z -> field;
  (** [mysql_stmt_bind_result]: whether it failed *)
  stmt_bind_result : stmt -> list bind -> bool * stmt;
  stmt_data_seek : stmt -> Z -> stmt;
  (** [mysql_stmt_fetch]: its result and the buffers it wrote *)
  stmt_fetch : stmt -> list bind -> Z * list bind * stmt;
  stmt_free_result : stmt -> stmt;
  stmt_error : stmt -> str;
  MYSQL_NO_DATA : Z;
  MYSQL_DATA_TRUNCATED : Z;
  SIZEOF_MYSQL_TIME : Z;
  stmt_flags :: FieldFlags;
}.

Section resultbind.
Context `{CStatement}.

(** [struct st_buffer_size_type]: whether a buffer was allocated, its size and
    the type the value is converted to. *)
Record st_buffer_size_type := MkBuffer {
  p_allocated : bool;
  p_size : Z;
  p_type : enum_field_types;
}.

Definition allocate_buffer_for_field (f : field) : outcome st_buffer_size_type :=
  match f_type f with
  | MYSQL_TYPE_NULL => Ok (MkBuffer false 0 (f_type f))
  | MYSQL_TYPE_TINY => Ok (MkBuffer true 1 (f_type f))
  | MYSQL_TYPE_SHORT => Ok (MkBuffer true 2 (f_type f))
  | MYSQL_TYPE_INT24 | MYSQL_TYPE_LONG | MYSQL_TYPE_FLOAT => Ok (MkBuffer true 4 (f_type f))
  | MYSQL_TYPE_DOUBLE | MYSQL_TYPE_LONGLONG => Ok (MkBuffer true 8 (f_type f))
  | MYSQL_TYPE_YEAR => Ok (MkBuffer true 2 MYSQL_TYPE_SHORT)
  | MYSQL_TYPE_TIMESTAMP | MYSQL_TYPE_DATE | MYSQL_TYPE_TIME | MYSQL_TYPE_DATETIME =>
      Ok (MkBuffer true SIZEOF_MYSQL_TIME (f_type f))
  | MYSQL_TYPE_TINY_BLOB | MYSQL_TYPE_MEDIUM_BLOB | MYSQL_TYPE_LONG_BLOB | MYSQL_TYPE_BLOB
  | MYSQL_TYPE_STRING | MYSQL_TYPE_VAR_STRING | MYSQL_TYPE_JSON =>
      Ok (MkBuffer true (to_size_t (f_max_length f + 1)) (f_type f))
  | MYSQL_TYPE_DECIMAL | MYSQL_TYPE_NEWDECIMAL => Ok (MkBuffer true 64 (f_type f))
  | MYSQL_TYPE_BIT => Ok (MkBuffer true 8 MYSQL_TYPE_BIT)
  | _ => Throw (SqlInvalidArgument "allocate_buffer_for_field: invalid rbind data type")
  end.

(** The loop of [bindResult] over the columns. *)
Fixpoint bind_fields (fields : list field) : outcome (list bind) :=
  match fields with
  | [] => Ok []
  | f :: fields' =>
      p ← allocate_buffer_for_field f;
      bs ← bind_fields fields';
      Ok (MkBind (p_type p) None (p_size p) 0 false (has_flag f UNSIGNED_FLAG) :: bs)
  end.

(** The columns in the order [fetch_field] gives them. *)
Definition fields_of (s : stmt) : list field :=
  map (fun i => stmt_field s (Z.of_nat i)) (seq 0 (Z.to_nat (stmt_field_count s))).

Definition bindResult (s : stmt) : outcome (list bind * stmt) :=
  if stmt_field_count s =? 0 then Ok ([], s)
  else
    bs ← bind_fields (fields_of s);
    let '(failed, s') := stmt_bind_result s bs in
    if failed then Throw (SqlError (stmt_error s')) else Ok (bs, s').

(** ** Facts *)

(** The size of the buffer of an integer column. *)
Definition integer_width (d : DataType) : option nat :=
  match d with
  | TINYINT => Some 1%nat
  | SMALLINT | YEAR => Some 2%nat
  | MEDIUMINT | INTEGER => Some 4%nat
  | BIGINT => Some 8%nat
  | _ => None
  end.

Lemma allocated_width f d w :
  mysql_type_to_datatype f = Ok d -> integer_width d = Some w ->
  exists p, allocate_buffer_for_field f = Ok p /\ p_size p = Z.of_nat w.
Proof using.
  unfold mysql_type_to_datatype, allocate_buffer_for_field. intros Hd Hw.
  destruct (f_type f); try (apply known_charset_ok in Hd); try (apply Ok_inj in Hd); subst d;
    try (repeat case_match; discriminate Hw); injection Hw as <-; by eexists.
Qed.

Lemma bind_fields_lookup fields bs i f :
  bind_fields fields = Ok bs -> fields !! i = Some f ->
  exists p b, allocate_buffer_for_field f = Ok p /\ bs !! i = Some b /\
    b = MkBind (p_type p) None (p_size p) 0 false (has_flag f UNSIGNED_FLAG).
Proof using.
  revert bs i. induction fields as [|f0 fields IH]; intros bs i E Hi; [done|].
  cbn [bind_fields] in E. apply bind_Ok in E as (p & Hp & E).
  apply bind_Ok in E as (bs' & Hbs & E). apply Ok_inj in E. subst bs.
  destruct i as [|i]; cbn in Hi; [injection Hi as ->; by eexists _, _|].
  destruct (IH _ i Hbs Hi) as (p' & b & Hp' & Hb & ->). by eexists _, _.
Qed.
End resultbind.

(** ** Numbers in buffers *)

Fixpoint le_split (w : nat) (z : Z) : str :=
  match w with
  | O => []
  | S w' => ascii_of_N (Z.to_N (z mod 256)) :: le_split w' (z / 256)
  end.

Lemma le_split_length w z : length (le_split w z) = w.
Proof. revert z. induction w as [|w IH]; intros z; simpl; [done|]. by rewrite IH. Qed.

Lemma byte_of_N n : 0 <= n < 256 -> byte_of (ascii_of_N (Z.to_N n)) = n.
Proof. intros Hn. unfold byte_of. rewrite N_ascii_embedding by lia. lia. Qed.

Lemma le_combine_split w z : le_combine (le_split w z) = z mod 2 ^ (8 * Z.of_nat w).
Proof.
  revert z. induction w as [|w IH]; intros z; [by rewrite Z.mod_1_r|].
  cbn [le_split le_combine]. rewrite IH, byte_of_N by (apply Z.mod_pos_bound; lia).
  replace (8 * Z.of_nat (S w)) with (8 + 8 * Z.of_nat w) by lia.
  rewrite Z.pow_add_r by lia. change (2 ^ 8) with 256.
  rewrite (Z.rem_mul_r z 256) by lia. done.
Qed.

(** The range of a signed or unsigned number of [w] bytes. *)
Definition fits (unsigned : bool) (w : nat) (z : Z) : Prop :=
  if unsigned then 0 <= z < 2 ^ (8 * Z.of_nat w)
  else - 2 ^ (8 * Z.of_nat w - 1) <= z < 2 ^ (8 * Z.of_nat w - 1).

Lemma to_signed_mod w z :
  (0 < w)%nat -> fits false w z -> to_signed w (z mod 2 ^ (8 * Z.of_nat w)) = z.
Proof.
  intros Hw [Hlo Hhi]. unfold to_signed.
  assert (E : 2 ^ (8 * Z.of_nat w) = 2 * 2 ^ (8 * Z.of_nat w - 1)).
  { rewrite <- Z.pow_succ_r by lia. f_equal. lia. }
  destruct (Z.ltb_spec z 0).
  - rewrite <- (Z.mod_unique z _ (-1) (z + 2 ^ (8 * Z.of_nat w))); [|lia|lia].
    rewrite (proj2 (Z.ltb_ge _ _)) by lia. lia.
  - rewrite Z.mod_small by lia. by rewrite (proj2 (Z.ltb_lt _ _)) by lia.
Qed.

Lemma load_split (w : nat) z rest :
  load_unsigned w (Some (Bytes (le_split w z ++ rest))) = Ok (z mod 2 ^ (8 * Z.of_nat w)).
Proof.
  unfold load_unsigned. rewrite length_app, le_split_length.
  rewrite (proj2 (Nat.leb_le _ _)) by lia.
  rewrite take_app_length' by (by rewrite le_split_length). by rewrite le_combine_split.
Qed.
