(* ===== verification/ParamBind.v ===== *)
(** * mysqlconnector jdbc/driver/mysql_prepared_statement.cpp: the values of the parameters

    [MySQL_ParamBind] keeps, for every parameter of a prepared statement, the
    [MYSQL_BIND] the C API reads, and owns what its pointers point to: buffers,
    lengths and the copies of long strings.  They are objects on a heap; deleting a
    pointer that does not point to a live object of the right kind is undefined
    behaviour.  The invariant says which objects are owned and what they hold. *)

From stdpp Require Import sorting.
From S2P Require Import Prelude Cxx Str Cursor ResultBind Fields.

(** ** The heap *)

(** A [std::istream]: the bytes that are left, whether reading past them fails in the
    buffer of the stream, and the state flags. *)
Record istream := MkStream {
  s_rest : str;
  s_broken : bool;
  s_eof : bool;
  s_fail : bool;
  s_bad : bool;
}.

(** What [new] creates: an array of characters (some never written), an
    [unsigned long], a [sql::SQLString]; and the streams of the callers. *)
Inductive object :=
| Chars (cells : list (option ascii))
| ULong (z : Z)
| SqlStr (s : str)
| IStream (s : istream).

Inductive kind := KChars | KULong | KString | KStream.
#[export] Instance kind_eq_dec : EqDecision kind.
Proof. solve_decision. Defined.

Definition kind_of (o : object) : kind :=
  match o with
  | Chars _ => KChars | ULong _ => KULong | SqlStr _ => KString | IStream _ => KStream
  end.

Abbreviation heap := (gmap positive object).
Abbreviation pointer := (option positive).

(** ** The members *)

(** The members of [MYSQL_BIND] that are written. *)
Record MYSQL_BIND := MkParam {
  m_type : enum_field_types;
  m_buffer : pointer;
  m_buffer_length : Z;
  m_length : pointer;
  m_is_null_value : bool;
  m_is_unsigned : bool;
}.

(** [boost::variant<std::istream *, sql::SQLString *>] *)
Inductive Blob_t := BStream (p : pointer) | BString (p : pointer).

Record MySQL_ParamBind := MkParams {
  param_count : nat;
  bind : list MYSQL_BIND;
  value_set : list bool;
  delete_blob_after_execute : list bool;
  blob_bind : gmap Z Blob_t;
}.

Definition set_bind (x : list MYSQL_BIND) (a : MySQL_ParamBind) : MySQL_ParamBind :=
  MkParams (param_count a) x (value_set a) (delete_blob_after_execute a) (blob_bind a).
Definition set_value_set (x : list bool) (a : MySQL_ParamBind) : MySQL_ParamBind :=
  MkParams (param_count a) (bind a) x (delete_blob_after_execute a) (blob_bind a).
Definition set_delete (x : list bool) (a : MySQL_ParamBind) : MySQL_ParamBind :=
  MkParams (param_count a) (bind a) (value_set a) x (blob_bind a).
Definition set_blobs (x : gmap Z Blob_t) (a : MySQL_ParamBind) : MySQL_ParamBind :=
  MkParams (param_count a) (bind a) (value_set a) (delete_blob_after_execute a) x.

(** A zeroed bind, marked null: 0 is [MYSQL_TYPE_DECIMAL]. *)
Definition fresh_param : MYSQL_BIND := MkParam MYSQL_TYPE_DECIMAL None 0 None true false.

(** [MySQL_ParamBind::MySQL_ParamBind] *)
Definition ParamBind_new (paramCount : nat) : MySQL_ParamBind :=
  MkParams paramCount (replicate paramCount fresh_param) (replicate paramCount false)
    (replicate paramCount false) ∅.

(** ** Methods over the members and the heap *)

Abbreviation method := (Method (MySQL_ParamBind * heap)).

Definition new_object (o : object) : method positive := fun '(a, h) =>
  let l := fresh (dom h) in (Ok l, (a, <[l := o]> h)).

(** [delete] and [delete[]]. *)
Definition delete_object (k : kind) (p : pointer) : method unit := fun '(a, h) =>
  match p with
  | None => (Ok tt, (a, h))
  | Some l =>
      match h !! l with
      | Some o => if decide (kind_of o = k) then (Ok tt, (a, delete l h)) else (Undefined, (a, h))
      | None => (Undefined, (a, h))
      end
  end.

(** Reading and writing an element of an array. *)
Definition at_index {A} (f : MySQL_ParamBind -> list A) (i : Z) : method A :=
  l ← read (fun s => f s.1); pure (arr_at l i).
Definition write_index {A} (f : MySQL_ParamBind -> list A)
    (g : list A -> MySQL_ParamBind -> MySQL_ParamBind) (i : Z) (x : A) : method unit :=
  _ ← at_index f i;
  update (fun s => (g (<[Z.to_nat i := x]> (f s.1)) s.1, s.2)).

Definition get_bind (i : Z) : method MYSQL_BIND := at_index bind i.
Definition put_bind (i : Z) (x : MYSQL_BIND) : method unit := write_index bind set_bind i x.
Definition put_set (i : Z) (x : bool) : method unit := write_index value_set set_value_set i x.
Definition get_delete (i : Z) : method bool := at_index delete_blob_after_execute i.
Definition put_delete (i : Z) (x : bool) : method unit :=
  write_index delete_blob_after_execute set_delete i x.
Definition find_blob (i : Z) : method (option Blob_t) := read (fun s => blob_bind s.1 !! i).
Definition put_blob (i : Z) (b : Blob_t) : method unit :=
  update (fun s => (set_blobs (<[i := b]> (blob_bind s.1)) s.1, s.2)).
Definition erase_blob (i : Z) : method unit :=
  update (fun s => (set_blobs (delete i (blob_bind s.1)) s.1, s.2)).

(** The visitors [BlobBindDeleter] (which sets the pointer it is given to null) and
    [BlobIsNull]. *)
Definition BlobBindDeleter (b : Blob_t) : method Blob_t :=
  match b with
  | BString p => _ ← delete_object KString p; mret (BString None)
  | BStream p => _ ← delete_object KStream p; mret (BStream None)
  end.
Definition BlobIsNull (b : Blob_t) : bool :=
  match b with BStream None | BString None => true | _ => false end.

(** [resetBlobBind]: [is_unsigned] is left as it is. *)
Definition resetBlobBind (param : MYSQL_BIND) : method MYSQL_BIND :=
  _ ← delete_object KChars (m_buffer param);
  _ ← delete_object KULong (m_length param);
  l ← new_object (ULong 0);
  mret (MkParam MYSQL_TYPE_LONG_BLOB None 0 (Some l) false (m_is_unsigned param)).

(** [set], [unset] and [setBlob] *)
Definition set (position : Z) : method unit := put_set position true.

Definition unset (position : Z) : method unit :=
  _ ← put_set position false;
  d ← get_delete position;
  if (d : bool) then
    _ ← put_delete position false;
    b ← find_blob position;
    _ ← BlobBindDeleter (default (BStream None) b);
    erase_blob position
  else mret tt.

Definition setBlob (position : Z) (blob : Blob_t) (delete_after_execute : bool) : method unit :=
  _ ← set position;
  param ← get_bind position;
  param ← resetBlobBind param;
  _ ← put_bind position param;
  it ← find_blob position;
  _ ← match it with
      | Some b =>
          d ← get_delete position;
          if (d : bool) then b' ← BlobBindDeleter b; put_blob position b' else mret tt
      | None => mret tt
      end;
  if BlobIsNull blob then
    _ ← match it with Some _ => erase_blob position | None => mret tt end;
    put_delete position false
  else
    _ ← put_blob position blob;
    put_delete position delete_after_execute.

Definition isAllSet : method bool := v ← read (fun s => value_set s.1); mret (forallb id v).

(** [for (i = 0; i < n; ++i) body] *)
Fixpoint for_each (l : list Z) (body : Z -> method unit) : method unit :=
  match l with
  | [] => mret tt
  | i :: l' => _ ← body i; for_each l' body
  end.
Definition indices (n : nat) : list Z := map Z.of_nat (seq 0 n).

(** [clearParameters]: the body of its loop, and the loop *)
Definition clear_parameter (i : Z) : method unit :=
  param ← get_bind i;
  _ ← delete_object KULong (m_length param);
  _ ← delete_object KChars (m_buffer param);
  _ ← put_bind i (MkParam (m_type param) None (m_buffer_length param) None
        (m_is_null_value param) (m_is_unsigned param));
  v ← at_index value_set i;
  if (v : bool) then
    it ← find_blob i;
    _ ← match it with
        | Some b =>
            d ← get_delete i;
            if (d : bool) then _ ← BlobBindDeleter b; erase_blob i else mret tt
        | None => mret tt
        end;
    _ ← put_blob i (BStream None);
    put_set i false
  else mret tt.

Definition clearParameters : method unit :=
  n ← read (fun s => param_count s.1); for_each (indices n) clear_parameter.

(** [~MySQL_ParamBind]: the entries of the map in the order of their keys. *)
Definition delete_entry (i : Z) : method unit :=
  d ← get_delete i;
  if (d : bool) then
    _ ← put_delete i false;
    it ← find_blob i;
    match it with
    | Some b => b' ← BlobBindDeleter b; put_blob i b'
    | None => mret tt
    end
  else mret tt.
Definition ParamBind_delete : method unit :=
  _ ← clearParameters;
  blobs ← read (fun s => blob_bind s.1);
  for_each (merge_sort Z.le (elements (dom blobs))) delete_entry.

(** [getBlobObject]: a null stream when there is none. *)
Definition getBlobObject (position : Z) : method Blob_t :=
  it ← find_blob position; mret (default (BStream None) it).

(** ** Ownership

    [owns L base h]: the heap [h] is [base] and the distinct objects [L]. *)

Abbreviation cells := (list (positive * object)).

Record owns (L : cells) (base h : heap) : Prop := Owns {
  own_nodup : NoDup L.*1;
  own_fresh : forall l, l ∈ L.*1 -> base !! l = None;
  own_heap : h = list_to_map L ∪ base;
}.

Lemma owns_nil base h : owns [] base h <-> h = base.
Proof.
  split; [intros [_ _ ->]; simpl; by rewrite (left_id_L ∅ (∪))|]. intros ->.
  split; simpl; [constructor|by intros l ?%elem_of_nil|by rewrite (left_id_L ∅ (∪))].
Qed.

#[export] Instance owns_perm : Proper ((≡ₚ) ==> (=) ==> (=) ==> iff) owns.
Proof.
  assert (H : forall L L' base h, L ≡ₚ L' -> owns L base h -> owns L' base h).
  { intros L L' base h HL [Hn Hf ->]. assert (HL1 : L.*1 ≡ₚ L'.*1) by by rewrite HL.
    split; [by rewrite <- HL1|by setoid_rewrite <- HL1|].
    f_equal. by apply list_to_map_proper. }
  intros L L' HL base ? <- h ? <-. split; apply H; [done|by symmetry].
Qed.

Lemma owns_lookup L base h l o : owns L base h -> (l, o) ∈ L -> h !! l = Some o.
Proof.
  intros [Hn _ ->] Hl. apply lookup_union_Some_l. by apply elem_of_list_to_map_1.
Qed.

Lemma owns_new L base h o :
  owns L base h -> owns ((fresh (dom h), o) :: L) base (<[fresh (dom h) := o]> h).
Proof.
  intros [Hn Hf ->]. set (l := fresh _).
  assert (Hl : l ∉ dom (list_to_map L ∪ base : heap)) by apply is_fresh.
  rewrite dom_union, not_elem_of_union, !not_elem_of_dom in Hl. destruct Hl as [Hl1 Hl2].
  split; simpl.
  - constructor; [|done]. by apply not_elem_of_list_to_map_2.
  - intros k [->|Hk]%elem_of_cons; auto.
  - by rewrite insert_union_l.
Qed.

Lemma owns_delete L base h l o : owns ((l, o) :: L) base h -> owns L base (delete l h).
Proof.
  intros [Hn Hf ->]. simpl in *. apply NoDup_cons in Hn as [Hl Hn]. split; [done| |].
  - intros k Hk. apply Hf. by apply elem_of_cons; right.
  - rewrite delete_union, delete_insert_id by by apply not_elem_of_list_to_map_1.
    rewrite (delete_id base); [done|]. apply Hf. by apply elem_of_cons; left.
Qed.

(** The owned objects in front of the others. *)
Lemma delete_owned k L base a h p o :
  owns (match p with Some l => [(l, o)] | None => [] end ++ L) base h -> kind_of o = k ->
  exists h', delete_object k p (a, h) = (Ok tt, (a, h')) /\ owns L base h'.
Proof.
  intros Ho <-. destruct p as [l|]; simpl in *; [|by exists h].
  rewrite (owns_lookup _ _ _ l o Ho) by by apply elem_of_cons; left.
  rewrite decide_True by done. exists (delete l h). split; [done|]. by eapply owns_delete.
Qed.

(** ** One parameter *)

(** What the members hold for one parameter. *)
Record slot := MkSlot {
  t_bind : MYSQL_BIND;
  t_set : bool;
  t_delete : bool;
  t_blob : option Blob_t;
}.

Definition put_slot (i : nat) (t : slot) (p : MySQL_ParamBind) : MySQL_ParamBind :=
  MkParams (param_count p) (<[i := t_bind t]> (bind p)) (<[i := t_set t]> (value_set p))
    (<[i := t_delete t]> (delete_blob_after_execute p))
    (partial_alter (fun _ => t_blob t) (Z.of_nat i) (blob_bind p)).

(** The arrays have an element for every parameter. *)
Definition sized (p : MySQL_ParamBind) : Prop :=
  length (bind p) = param_count p /\ length (value_set p) = param_count p /\
  length (delete_blob_after_execute p) = param_count p.

Definition get_slot (p : MySQL_ParamBind) (i : nat) : slot :=
  MkSlot (default fresh_param (bind p !! i)) (default false (value_set p !! i))
    (default false (delete_blob_after_execute p !! i)) (blob_bind p !! Z.of_nat i).

Lemma put_slot_sized i t p : sized p -> sized (put_slot i t p).
Proof. unfold sized. simpl. by rewrite !length_insert. Qed.

Lemma put_put_slot i t t' p : put_slot i t (put_slot i t' p) = put_slot i t p.
Proof.
  unfold put_slot. simpl. rewrite !list_insert_insert_eq. by rewrite partial_alter_partial_alter_eq.
Qed.

Lemma put_get_slot i p : sized p -> (i < param_count p)%nat -> put_slot i (get_slot p i) p = p.
Proof.
  intros (H1 & H2 & H3) Hi. unfold put_slot, get_slot. simpl. destruct p as [n b v d m]; simpl in *.
  f_equal.
  - destruct (lookup_lt_is_Some_2 b i) as [x Hx]; [lia|]. rewrite Hx. by apply list_insert_id.
  - destruct (lookup_lt_is_Some_2 v i) as [x Hx]; [lia|]. rewrite Hx. by apply list_insert_id.
  - destruct (lookup_lt_is_Some_2 d i) as [x Hx]; [lia|]. rewrite Hx. by apply list_insert_id.
  - by apply partial_alter_self.
Qed.

Lemma get_put_slot i t p : sized p -> (i < param_count p)%nat -> get_slot (put_slot i t p) i = t.
Proof.
  intros (H1 & H2 & H3) Hi. unfold get_slot. simpl.
  rewrite !list_lookup_insert_eq, lookup_partial_alter_eq by lia. by destruct t.
Qed.

Lemma get_put_slot_ne i j t p : i <> j -> get_slot (put_slot i t p) j = get_slot p j.
Proof.
  intros Hij. unfold get_slot. simpl. rewrite !list_lookup_insert_ne by done.
  by rewrite lookup_partial_alter_ne by lia.
Qed.

Lemma arr_at_insert {A} (l : list A) i x : (i < length l)%nat -> arr_at (<[i := x]> l) (Z.of_nat i) = Ok x.
Proof.
  intros Hl. unfold arr_at. rewrite decide_True by (rewrite length_insert; lia).
  by rewrite Nat2Z.id, list_lookup_insert_eq by done.
Qed.

Section one_slot.
Context (p : MySQL_ParamBind) (i : nat) (Hp : sized p) (Hi : (i < param_count p)%nat).

Abbreviation at_slot t h := (put_slot i t p, h : heap).

Ltac at_array :=
  destruct Hp as (?&?&?); unfold get_bind, get_delete, put_bind, put_set, put_delete, write_index,
    at_index, mbind, Method_bind, read, update, pure; simpl;
  rewrite !arr_at_insert by lia; rewrite ?Nat2Z.id, ?list_insert_insert_eq; try done.

Lemma get_bind_slot t h : get_bind (Z.of_nat i) (at_slot t h) = (Ok (t_bind t), at_slot t h).
Proof using Hp Hi. at_array. Qed.
Lemma get_set_slot t h :
  at_index value_set (Z.of_nat i) (at_slot t h) = (Ok (t_set t), at_slot t h).
Proof using Hp Hi. at_array. Qed.
Lemma get_delete_slot t h : get_delete (Z.of_nat i) (at_slot t h) = (Ok (t_delete t), at_slot t h).
Proof using Hp Hi. at_array. Qed.
Lemma put_bind_slot b t h : put_bind (Z.of_nat i) b (at_slot t h) =
  (Ok tt, at_slot (MkSlot b (t_set t) (t_delete t) (t_blob t)) h).
Proof using Hp Hi. at_array. Qed.
Lemma put_set_slot x t h : put_set (Z.of_nat i) x (at_slot t h) =
  (Ok tt, at_slot (MkSlot (t_bind t) x (t_delete t) (t_blob t)) h).
Proof using Hp Hi. at_array. Qed.
Lemma put_delete_slot x t h : put_delete (Z.of_nat i) x (at_slot t h) =
  (Ok tt, at_slot (MkSlot (t_bind t) (t_set t) x (t_blob t)) h).
Proof using Hp Hi. at_array. Qed.
Lemma find_blob_slot t h : find_blob (Z.of_nat i) (at_slot t h) = (Ok (t_blob t), at_slot t h).
Proof using. unfold find_blob, read. simpl. by rewrite lookup_partial_alter_eq. Qed.
Lemma put_blob_slot b t h : put_blob (Z.of_nat i) b (at_slot t h) =
  (Ok tt, at_slot (MkSlot (t_bind t) (t_set t) (t_delete t) (Some b)) h).
Proof using.
  unfold put_blob, update, put_slot, set_blobs, insert, map_insert. simpl.
  by rewrite partial_alter_partial_alter_eq.
Qed.
Lemma erase_blob_slot t h : erase_blob (Z.of_nat i) (at_slot t h) =
  (Ok tt, at_slot (MkSlot (t_bind t) (t_set t) (t_delete t) None) h).
Proof using.
  unfold erase_blob, update, put_slot, set_blobs, delete, map_delete. simpl.
  by rewrite partial_alter_partial_alter_eq.
Qed.
End one_slot.

(** The abstract value of a parameter. *)
Inductive pvalue :=
| Unset
| Null
| Number (ty : enum_field_types) (b : str)
| Text (s : str)
| LongText (s : str)
| Streamed (l : positive)
| NoBlob.

Definition cell_of (p : pointer) (o : object) : cells :=
  match p with Some l => [(l, o)] | None => [] end.
Definition chars (s : str) : object := Chars (map Some s).

(** [holds t v L]: the slot [t] stands for [v] and owns the objects [L]. *)
Inductive holds : slot -> pvalue -> cells -> Prop :=
| HUnset ty n z u d b :
    b = None \/ b = Some (BStream None) ->
    holds (MkSlot (MkParam ty None n None z u) false d b) Unset []
| HNull n z u :
    holds (MkSlot (MkParam MYSQL_TYPE_NULL None n None z u) true false None) Null []
| HNumber ty b l n u :
    holds (MkSlot (MkParam ty (Some l) n None false u) true false None) (Number ty b)
      [(l, chars b)]
| HText s l k u :
    holds (MkSlot (MkParam MYSQL_TYPE_STRING (Some l) (size s + 1) (Some k) false u) true false None)
      (Text s) [(l, chars (s ++ ["000"%char])); (k, ULong (size s))]
| HLong s l k u :
    holds (MkSlot (MkParam MYSQL_TYPE_LONG_BLOB None 0 (Some k) false u) true true
      (Some (BString (Some l)))) (LongText s) [(k, ULong 0); (l, SqlStr s)]
| HStream l k u :
    holds (MkSlot (MkParam MYSQL_TYPE_LONG_BLOB None 0 (Some k) false u) true false
      (Some (BStream (Some l)))) (Streamed l) [(k, ULong 0)]
| HNoBlob k u :
    holds (MkSlot (MkParam MYSQL_TYPE_LONG_BLOB None 0 (Some k) false u) true false None)
      NoBlob [(k, ULong 0)].

(** The objects of a slot are those its pointers point to; only copies of strings are
    deleted with the value. *)
Definition blob_cells (t : slot) (s : str) : cells :=
  match t_blob t with
  | Some (BString p) => if t_delete t then cell_of p (SqlStr s) else []
  | _ => []
  end.

Lemma holds_cells t v L :
  holds t v L ->
  (exists c z s, L = cell_of (m_buffer (t_bind t)) (Chars c) ++
     cell_of (m_length (t_bind t)) (ULong z) ++ blob_cells t s) /\
  (t_delete t = true -> forall l, t_blob t <> Some (BStream (Some l))).
Proof.
  intros []; (split; [|simpl; try done]).
  - by destruct H as [-> | ->]; exists [], 0, [].
  - by destruct H as [-> | ->].
  - by exists [], 0, [].
  - by exists (map Some b), 0, [].
  - by exists (map Some (s ++ ["000"%char])), (size s), [].
  - by exists [], 0, s.
  - by exists [], 0, [].
  - by exists [], 0, [].
Qed.

Section operations.
Context (p : MySQL_ParamBind) (i : nat) (Hp : sized p) (Hi : (i < param_count p)%nat).
Context (base : heap).

Abbreviation at_slot t h := (put_slot i t p, h : heap).

Lemma resetBlobBind_spec F (a : MySQL_ParamBind) b c z h :
  owns (cell_of (m_buffer b) (Chars c) ++ cell_of (m_length b) (ULong z) ++ F) base h ->
  exists k h', resetBlobBind b (a, h) =
    (Ok (MkParam MYSQL_TYPE_LONG_BLOB None 0 (Some k) false (m_is_unsigned b)), (a, h')) /\
    owns ((k, ULong 0) :: F) base h'.
Proof using.
  intros Ho. unfold resetBlobBind.
  destruct (delete_owned KChars _ base a h (m_buffer b) (Chars c) Ho eq_refl) as (h1 & E1 & H1).
  rewrite (method_bind_ok E1).
  destruct (delete_owned KULong _ base a h1 (m_length b) (ULong z) H1 eq_refl) as (h2 & E2 & H2).
  rewrite (method_bind_ok E2). eexists _, _. split; [done|]. by apply owns_new.
Qed.

(** The visitor on a blob that may be deleted. *)
Lemma deleter_spec F (a : MySQL_ParamBind) t b s h :
  t_delete t = true -> t_blob t = Some b -> (forall l, b <> BStream (Some l)) ->
  owns (blob_cells t s ++ F) base h ->
  exists b' h', BlobBindDeleter b (a, h) = (Ok b', (a, h')) /\ BlobIsNull b' = true /\
    owns F base h'.
Proof using.
  unfold blob_cells. intros Hd Hb Hs. rewrite Hb, Hd. intros Ho. destruct b as [[l|]|q]; simpl in Ho.
  - by destruct (Hs l).
  - by exists (BStream None), h.
  - destruct (delete_owned KString F base a h q (SqlStr s) Ho eq_refl) as (h' & E & H').
    exists (BString None), h'. unfold BlobBindDeleter. by rewrite (method_bind_ok E).
Qed.

Lemma old_blob_deleted F b' s t h :
  (t_delete t = true -> forall l, t_blob t <> Some (BStream (Some l))) ->
  owns (blob_cells t s ++ F) base h ->
  exists h' ob', (match t_blob t with
      | Some b => d ← get_delete (Z.of_nat i);
          if d : bool then b' ← BlobBindDeleter b; put_blob (Z.of_nat i) b' else mret tt
      | None => mret tt end) (at_slot (MkSlot b' true (t_delete t) (t_blob t)) h) =
    (Ok tt, at_slot (MkSlot b' true (t_delete t) ob') h') /\ owns F base h' /\
    (t_blob t = None -> ob' = None).
Proof using Hp Hi.
  destruct t as [b u dl ob]. cbn [t_delete t_blob]. intros Hs Ho.
  destruct ob as [bl|]; [|by exists h, None].
  rewrite (method_bind_ok (get_delete_slot p i Hp Hi _ h)). cbn [t_delete].
  destruct dl.
  - destruct (deleter_spec F (put_slot i (MkSlot b' true true (Some bl)) p)
      (MkSlot b true true (Some bl)) bl s h) as (bl' & h2 & E2 & _ & H2); [done..| |done|].
    { intros l ->. by apply (Hs eq_refl l). }
    exists h2, (Some bl'). rewrite (method_bind_ok E2). split; [|by split].
    apply put_blob_slot.
  - exists h, (Some bl). split; [done|]. split; [|done].
    unfold blob_cells in Ho. simpl in Ho. by destruct bl.
Qed.

(** The slot [setBlob] leaves. *)
Definition blob_slot (u : bool) (blob : Blob_t) (d : bool) (k : positive) : slot :=
  MkSlot (MkParam MYSQL_TYPE_LONG_BLOB None 0 (Some k) false u) true
    (if BlobIsNull blob then false else d) (if BlobIsNull blob then None else Some blob).

Lemma setBlob_slot F t v L blob d h :
  holds t v L -> owns (L ++ F) base h ->
  exists k h', setBlob (Z.of_nat i) blob d (at_slot t h) =
    (Ok tt, at_slot (blob_slot (m_is_unsigned (t_bind t)) blob d k) h') /\
    owns ((k, ULong 0) :: F) base h'.
Proof using Hp Hi.
  intros Ht Ho. destruct (holds_cells t v L Ht) as [(c & z & s & ->) Hs].
  rewrite <- !app_assoc in Ho. destruct t as [b u dl ob]. cbn [t_bind t_delete t_blob] in *.
  unfold setBlob, set. rewrite (method_bind_ok (put_set_slot p i Hp Hi true _ h)).
  rewrite (method_bind_ok (get_bind_slot p i Hp Hi _ h)). cbn [t_bind t_delete t_blob].
  destruct (resetBlobBind_spec _ (put_slot i (MkSlot b true dl ob) p) b c z h Ho)
    as (k & h1 & E1 & H1).
  rewrite (method_bind_ok E1), (method_bind_ok (put_bind_slot p i Hp Hi _ _ h1)).
  rewrite (method_bind_ok (find_blob_slot p i _ h1)). cbn [t_bind t_set t_delete t_blob].
  rewrite Permutation_middle in H1.
  set (b' := MkParam _ _ _ _ _ _) in *. exists k.
  destruct (old_blob_deleted ((k, ULong 0) :: F) b' s (MkSlot b true dl ob) h1 Hs H1)
    as (h2 & ob' & E2 & H2 & Hn). cbn [t_blob] in *.
  exists h2. split; [|done].
  rewrite (method_bind_ok E2). unfold blob_slot. destruct (BlobIsNull blob).
  - assert (E3 : (match ob with Some _ => erase_blob (Z.of_nat i) | None => mret tt end)
        (at_slot (MkSlot b' true dl ob') h2) = (Ok tt, at_slot (MkSlot b' true dl None) h2)).
    { destruct ob; [apply erase_blob_slot|by rewrite Hn]. }
    rewrite (method_bind_ok E3). apply (put_delete_slot p i Hp Hi).
  - rewrite (method_bind_ok (put_blob_slot p i blob _ h2)). apply (put_delete_slot p i Hp Hi).
Qed.

Lemma unset_slot t h :
  t_delete t = false ->
  unset (Z.of_nat i) (at_slot t h) =
    (Ok tt, at_slot (MkSlot (t_bind t) false false (t_blob t)) h).
Proof using Hp Hi.
  intros Hd. unfold unset. rewrite (method_bind_ok (put_set_slot p i Hp Hi false t h)).
  rewrite (method_bind_ok (get_delete_slot p i Hp Hi _ h)). simpl. by rewrite Hd.
Qed.

Lemma clear_parameter_slot F t v L h :
  holds t v L -> owns (L ++ F) base h ->
  exists t' h', clear_parameter (Z.of_nat i) (at_slot t h) = (Ok tt, at_slot t' h') /\
    holds t' Unset [] /\ m_is_unsigned (t_bind t') = m_is_unsigned (t_bind t) /\ owns F base h'.
Proof using Hp Hi.
  intros Ht Ho. destruct (holds_cells t v L Ht) as [(c & z & s & ->) Hs].
  rewrite <- !app_assoc, Permutation_app_swap_app in Ho.
  unfold clear_parameter. rewrite (method_bind_ok (get_bind_slot p i Hp Hi t h)).
  destruct (delete_owned KULong _ base (put_slot i t p) h _ _ Ho eq_refl) as (h1 & E1 & H1).
  destruct (delete_owned KChars _ base (put_slot i t p) h1 _ _ H1 eq_refl) as (h2 & E2 & H2).
  rewrite (method_bind_ok E1), (method_bind_ok E2), (method_bind_ok (put_bind_slot p i Hp Hi _ _ h2)).
  set (b' := MkParam _ None _ None _ _).
  rewrite (method_bind_ok (get_set_slot p i Hp Hi _ h2)). cbn [t_set].
  assert (Hb : forall d b, b = None \/ b = Some (BStream None) ->
    holds (MkSlot b' false d b) Unset []) by (intros d b; apply (HUnset _ _ _ _ d b)).
  destruct (t_set t) eqn:Et.
  - rewrite (method_bind_ok (find_blob_slot p i _ h2)). cbn [t_blob].
    assert (Hdel : exists t3 h3, (match t_blob t with
        | Some b => d ← get_delete (Z.of_nat i);
            if d : bool then _ ← BlobBindDeleter b; erase_blob (Z.of_nat i) else mret tt
        | None => mret tt end) (at_slot (MkSlot b' true (t_delete t) (t_blob t)) h2) =
        (Ok tt, at_slot t3 h3) /\ t_bind t3 = b' /\ owns F base h3).
    { destruct (t_blob t) as [bl|] eqn:Eb; [|exists (MkSlot b' true (t_delete t) None), h2];
        [|unfold blob_cells in H2; by rewrite Eb in H2].
      rewrite (method_bind_ok (get_delete_slot p i Hp Hi _ h2)). cbn [t_delete].
      destruct (t_delete t) eqn:Ed.
      - destruct (deleter_spec F (put_slot i (MkSlot b' true true (Some bl)) p) t bl s h2)
          as (bl' & h3 & E3 & _ & H3); [done..| |done|].
        { intros l ->. by apply (Hs eq_refl l). }
        rewrite (method_bind_ok E3), erase_blob_slot. by eexists _, h3.
      - eexists _, h2. split; [done|]. split; [done|].
        unfold blob_cells in H2. rewrite Eb, Ed in H2. by destruct bl. }
    destruct Hdel as (t3 & h3 & E3 & Hb3 & H3).
    rewrite (method_bind_ok E3), (method_bind_ok (put_blob_slot p i _ _ h3)), (put_set_slot p i Hp Hi).
    eexists _, h3. split; [done|]. cbn [t_bind t_delete t_blob]. rewrite Hb3.
    split; [by apply Hb; right|]. by split.
  - exists (MkSlot b' false (t_delete t) (t_blob t)), h2. split; [done|].
    inversion Ht; subst; try done. split; [by apply Hb|]. split; [done|].
    unfold blob_cells in H2. simpl in H2.
    by match goal with H : _ \/ _ |- _ => destruct H as [-> | ->] end.
Qed.
End operations.

(** ** All parameters *)

Record represents (base : heap) (p : MySQL_ParamBind) (h : heap) (vs : list (pvalue * bool))
    : Prop := Represents {
  rep_sized : sized p;
  rep_length : length vs = param_count p;
  rep_keys : forall k, is_Some (blob_bind p !! k) -> 0 <= k < Z.of_nat (param_count p);
  rep_owned : exists Ls : list cells, length Ls = length vs /\ owns (mjoin Ls) base h /\
    forall i v u L, vs !! i = Some (v, u) -> Ls !! i = Some L ->
      holds (get_slot p i) v L /\ m_is_unsigned (t_bind (get_slot p i)) = u;
}.

Lemma represents_new base n : represents base (ParamBind_new n) base (replicate n (Unset, false)).
Proof.
  split; [by unfold sized; simpl; rewrite !length_replicate|by rewrite length_replicate| |].
  - intros k [b Hb]. simpl in Hb. by rewrite lookup_empty in Hb.
  - exists (replicate n []). split; [by rewrite !length_replicate|]. split.
    + replace (mjoin (replicate n [])) with ([] : cells); [by apply owns_nil|].
      by induction n.
    + intros i v u L Hv HL. apply lookup_replicate in Hv as [Hv Hi]. injection Hv as -> ->.
      apply lookup_replicate in HL as [-> _].
      unfold get_slot. simpl. rewrite !lookup_replicate_2 by done. simpl.
      split; [|done]. apply HUnset. by left.
Qed.

Lemma delete_insert_same {A} (l : list A) i x : delete i (<[i := x]> l) = delete i l.
Proof. revert i. induction l as [|y l IH]; intros [|i]; simpl; try done. by f_equal. Qed.

(** An operation on one parameter sees its objects and leaves the others alone. *)
Lemma focus base p h vs i v u :
  represents base p h vs -> vs !! i = Some (v, u) ->
  exists t L F, p = put_slot i t p /\ (i < param_count p)%nat /\ holds t v L /\
    m_is_unsigned (t_bind t) = u /\ owns (L ++ F) base h /\
    forall t' v' L' h', holds t' v' L' -> owns (L' ++ F) base h' ->
      represents base (put_slot i t' p) h' (<[i := (v', m_is_unsigned (t_bind t'))]> vs).
Proof.
  intros [Hs Hl Hk (Ls & HLs & Ho & Hh)] Hi.
  assert (Hin : (i < param_count p)%nat) by (rewrite <- Hl; by eapply lookup_lt_Some).
  destruct (lookup_lt_is_Some_2 Ls i) as [L HL]; [lia|].
  destruct (Hh i v u L Hi HL) as [Ht Hu].
  exists (get_slot p i), L, (mjoin (delete i Ls)).
  split; [by rewrite put_get_slot|]. split; [done|]. split; [done|]. split; [done|].
  split; [by rewrite (delete_Permutation Ls i L HL) in Ho|].
  intros t' v' L' h' Ht' Ho'. split.
  - by apply put_slot_sized.
  - by rewrite length_insert.
  - simpl. intros k. destruct (decide (k = Z.of_nat i)) as [->|Hne]; [lia|].
    rewrite lookup_partial_alter_ne by done. apply Hk.
  - exists (<[i := L']> Ls). rewrite !length_insert. split; [done|]. split.
    + rewrite (delete_Permutation (<[i := L']> Ls) i L'); [|apply list_lookup_insert_eq; lia].
      by rewrite delete_insert_same.
    + intros j w x M Hj HM. destruct (decide (i = j)) as [<-|Hij].
      * rewrite list_lookup_insert_eq in Hj by lia. rewrite list_lookup_insert_eq in HM by lia. injection Hj as <- <-. injection HM as <-.
        by rewrite get_put_slot.
      * rewrite list_lookup_insert_ne in Hj by done. rewrite list_lookup_insert_ne in HM by done. rewrite get_put_slot_ne by done. by apply Hh.
Qed.

(** ** Clearing and destroying *)

Definition unset_value (vu : pvalue * bool) : pvalue * bool := (Unset, vu.2).

Lemma alter_insert_at {A} (f : A -> A) (l : list A) i x :
  l !! i = Some x -> alter f i l = <[i := f x]> l.
Proof.
  revert i. induction l as [|y l IH]; intros [|i] Hi; try done.
  - by injection Hi as ->.
  - simpl. f_equal. by apply IH.
Qed.

Lemma clear_parameter_at base p h vs i :
  represents base p h vs -> (i < length vs)%nat ->
  exists p' h', clear_parameter (Z.of_nat i) (p, h) = (Ok tt, (p', h')) /\
    represents base p' h' (alter unset_value i vs).
Proof.
  intros Hr Hi. destruct (lookup_lt_is_Some_2 vs i Hi) as [[v u] Hv].
  destruct (focus base p h vs i v u Hr Hv) as (t & L & F & Hp & Hin & Ht & Hu & Ho & Hput).
  destruct (clear_parameter_slot p i (rep_sized _ _ _ _ Hr) Hin base F t v L h Ht Ho)
    as (t' & h' & E & Ht' & Hu' & Ho').
  exists (put_slot i t' p), h'. rewrite Hp at 1. split; [done|].
  rewrite (alter_insert_at _ vs i (v, u)) by done. unfold unset_value. simpl.
  rewrite <- Hu, <- Hu'. by apply (Hput t' Unset []).
Qed.

Lemma clear_loop base l p h vs :
  represents base p h vs -> Forall (fun i => (i < length vs)%nat) l ->
  exists p' h', for_each (map Z.of_nat l) clear_parameter (p, h) = (Ok tt, (p', h')) /\
    represents base p' h' (foldl (fun vs i => alter unset_value i vs) vs l).
Proof.
  revert p h vs. induction l as [|i l IH]; intros p h vs Hr Hl; [by exists p, h|].
  apply Forall_cons in Hl as [Hi Hl]. cbn [map for_each foldl].
  destruct (clear_parameter_at base p h vs i Hr Hi) as (p1 & h1 & E1 & H1).
  rewrite (method_bind_ok E1). apply IH; [done|]. by rewrite length_alter.
Qed.

Lemma alter_all {A} (f : A -> A) (pre l : list A) :
  foldl (fun vs i => alter f i vs) (pre ++ l) (seq (length pre) (length l)) = pre ++ map f l.
Proof.
  revert pre. induction l as [|x l IH]; intros pre; simpl; [done|].
  rewrite alter_app_r_alt, Nat.sub_diag by lia. simpl.
  replace (pre ++ f x :: l) with ((pre ++ [f x]) ++ l) by by rewrite <- app_assoc.
  replace (S (length pre)) with (length (pre ++ [f x])) by (rewrite length_app; simpl; lia).
  rewrite IH. by rewrite <- app_assoc.
Qed.

Lemma clearParameters_spec base p h vs :
  represents base p h vs ->
  exists p' h', clearParameters (p, h) = (Ok tt, (p', h')) /\
    represents base p' h' (map unset_value vs).
Proof.
  intros Hr. unfold clearParameters, indices. rewrite method_read. cbn [fst].
  rewrite <- (rep_length _ _ _ _ Hr).
  destruct (clear_loop base (seq 0 (length vs)) p h vs Hr) as (p' & h' & E & H').
  { apply Forall_seq. lia. }
  exists p', h'. split; [done|]. pose proof (alter_all unset_value [] vs) as Ha.
  cbn [app length] in Ha. by rewrite Ha in H'.
Qed.

(** When no parameter has a value, nothing is owned. *)
Lemma all_unset_base base p h vs :
  represents base p h vs -> Forall (fun vu => vu.1 = Unset) vs -> h = base.
Proof.
  intros [_ _ _ (Ls & Hl & Ho & Hh)] Hv. apply owns_nil.
  replace ([] : cells) with (mjoin Ls); [done|].
  assert (HLs : Forall (fun L => L = []) Ls).
  { apply Forall_lookup. intros i L HL.
    destruct (lookup_lt_is_Some_2 vs i) as [[v u] Hi]; [rewrite <- Hl; by eapply lookup_lt_Some|].
    destruct (Hh i v u L Hi HL) as [Ht _]. rewrite Forall_lookup in Hv.
    specialize (Hv i _ Hi). simpl in Hv. subst v. by inversion Ht. }
  clear -HLs. induction HLs as [|L Ls -> _ IH]; [done|]. simpl. by rewrite IH.
Qed.

Lemma deleter_null s : BlobBindDeleter (BStream None) s = (Ok (BStream None), s).
Proof. by destruct s. Qed.

Lemma delete_entry_unset base p h vs i u :
  represents base p h vs -> vs !! i = Some (Unset, u) ->
  exists p', delete_entry (Z.of_nat i) (p, h) = (Ok tt, (p', h)) /\ represents base p' h vs.
Proof.
  intros Hr Hi. destruct (focus base p h vs i Unset u Hr Hi) as (t & L & F & Hp & Hin & Ht & Hu & Ho & Hput).
  pose proof (rep_sized _ _ _ _ Hr) as Hs.
  assert (Hput' : forall t', holds t' Unset [] -> m_is_unsigned (t_bind t') = u ->
    represents base (put_slot i t' p) h vs).
  { intros t' Ht' Hu'. rewrite <- (list_insert_id vs i _ Hi), <- Hu'.
    apply (Hput t' Unset []); [done|]. by inversion Ht; subst. }
  inversion Ht as [ty n z x d b Hb| | | | | |]; subst. simpl in *. rewrite Hp. unfold delete_entry.
  rewrite (method_bind_ok (get_delete_slot p i Hs Hin _ h)). cbn [t_delete].
  destruct d; [|by eexists; split; [done|]; rewrite <- Hp].
  rewrite (method_bind_ok (put_delete_slot p i Hs Hin _ _ h)), (method_bind_ok (find_blob_slot p i _ h)).
  cbn [t_bind t_set t_delete t_blob].
  destruct Hb as [-> | ->].
  - eexists. split; [done|]. apply Hput'; [|done]. apply HUnset. by left.
  - rewrite (method_bind_ok (deleter_null _)), put_blob_slot.
    eexists. split; [done|]. apply Hput'; [|done]. apply HUnset. by right.
Qed.

Lemma delete_entries ks base p h vs :
  represents base p h vs -> Forall (fun vu => vu.1 = Unset) vs ->
  Forall (fun k => 0 <= k < Z.of_nat (length vs)) ks ->
  exists p', for_each ks delete_entry (p, h) = (Ok tt, (p', h)).
Proof.
  intros Hr Hv Hk. revert p Hr. induction Hk as [|k ks Hk _ IH]; intros p Hr; [by exists p|].
  destruct (lookup_lt_is_Some_2 vs (Z.to_nat k)) as [[v u] Hi]; [lia|].
  rewrite Forall_lookup in Hv. pose proof (Hv _ _ Hi) as E. simpl in E. subst v.
  destruct (delete_entry_unset base p h vs (Z.to_nat k) u Hr Hi) as (p1 & E1 & H1).
  rewrite Z2Nat.id in E1 by lia. cbn [for_each]. rewrite (method_bind_ok E1). by apply IH.
Qed.

(** Destroying the object frees what it owns and nothing else. *)
Lemma delete_frees base p h vs :
  represents base p h vs -> exists p', ParamBind_delete (p, h) = (Ok tt, (p', base)).
Proof.
  intros Hr. destruct (clearParameters_spec base p h vs Hr) as (p1 & h1 & E1 & H1).
  unfold ParamBind_delete. rewrite (method_bind_ok E1), method_read. cbn [fst].
  assert (Hun : Forall (fun vu => vu.1 = Unset) (map unset_value vs)).
  { apply Forall_fmap, Forall_true. done. }
  pose proof (all_unset_base base p1 h1 _ H1 Hun) as ->.
  assert (Hk : Forall (fun k => 0 <= k < Z.of_nat (length (map unset_value vs)))
      (merge_sort Z.le (elements (dom (blob_bind p1))))).
  { rewrite merge_sort_Permutation. apply Forall_forall. intros k Hk.
    rewrite elem_of_elements, elem_of_dom in Hk. rewrite (rep_length _ _ _ _ H1).
    by apply (rep_keys _ _ _ _ H1). }
  by apply (delete_entries _ base p1 base (map unset_value vs)).
Qed.

Lemma new_object_ok p h o :
  new_object o (p, h) = (Ok (fresh (dom h)), (p, <[fresh (dom h) := o]> h)).
Proof. done. Qed.

(** Writing to an owned object. *)
Lemma owns_update L base h l o o' :
  owns ((l, o) :: L) base h -> owns ((l, o') :: L) base (<[l := o']> h).
Proof.
  intros [Hn Hf ->]. split; [done|done|]. simpl. rewrite insert_union_l. by rewrite insert_insert_eq.
Qed.

(** The slot of a parameter whose value was dropped. *)
Definition dropped_slot (u : bool) (k : positive) : slot :=
  MkSlot (MkParam MYSQL_TYPE_LONG_BLOB None 0 (Some k) false u) false false None.

Lemma drop_blob_spec base p h vs i v u :
  represents base p h vs -> vs !! i = Some (v, u) ->
  exists k F h', (_ ← setBlob (Z.of_nat i) (BStream None) false; unset (Z.of_nat i)) (p, h) =
    (Ok tt, (put_slot i (dropped_slot u k) p, h')) /\
    (i < param_count p)%nat /\ owns ((k, ULong 0) :: F) base h' /\
    forall t' v' L' h', holds t' v' L' -> owns (L' ++ F) base h' ->
      represents base (put_slot i t' p) h' (<[i := (v', m_is_unsigned (t_bind t'))]> vs).
Proof.
  intros Hr Hi. pose proof (rep_sized _ _ _ _ Hr) as Hs.
  destruct (focus base p h vs i v u Hr Hi) as (t & L & F & Hp & Hin & Ht & Hu & Ho & Hput).
  destruct (setBlob_slot p i Hs Hin base F t v L (BStream None) false h Ht Ho) as (k & h' & E & Ho').
  exists k, F, h'. split; [|done]. rewrite Hp at 1. rewrite (method_bind_ok E), Hu.
  by rewrite unset_slot.
Qed.

(** A blob that is set: a stream of the caller, or a string that becomes owned. *)
Definition blob_value (blob : pointer) : pvalue :=
  match blob with Some l => Streamed l | None => NoBlob end.

Lemma setBlob_stream base p h vs i v u blob :
  represents base p h vs -> vs !! i = Some (v, u) ->
  exists p' h', setBlob (Z.of_nat i) (BStream blob) false (p, h) = (Ok tt, (p', h')) /\
    represents base p' h' (<[i := (blob_value blob, u)]> vs).
Proof.
  intros Hr Hi. pose proof (rep_sized _ _ _ _ Hr) as Hs.
  destruct (focus base p h vs i v u Hr Hi) as (t & L & F & Hp & Hin & Ht & Hu & Ho & Hput).
  destruct (setBlob_slot p i Hs Hin base F t v L (BStream blob) false h Ht Ho) as (k & h' & E & Ho').
  eexists _, h'. rewrite Hp at 1. split; [exact E|]. rewrite <- Hu.
  by destruct blob; apply (Hput (blob_slot _ _ _ _) _ [(k, ULong 0)]); [constructor|..|constructor|].
Qed.

Lemma setBlob_string base p h vs i v u s :
  represents base p h vs -> vs !! i = Some (v, u) ->
  exists p' h', (l ← new_object (SqlStr s); setBlob (Z.of_nat i) (BString (Some l)) true) (p, h) =
    (Ok tt, (p', h')) /\ represents base p' h' (<[i := (LongText s, u)]> vs).
Proof.
  intros Hr Hi. pose proof (rep_sized _ _ _ _ Hr) as Hs.
  destruct (focus base p h vs i v u Hr Hi) as (t & L & F & Hp & Hin & Ht & Hu & Ho & Hput).
  apply (owns_new _ _ _ (SqlStr s)) in Ho. rewrite Permutation_middle in Ho.
  destruct (setBlob_slot p i Hs Hin base _ t v L (BString (Some (fresh (dom h)))) true _ Ht Ho)
    as (k & h' & E & Ho').
  eexists _, h'. rewrite (method_bind_ok (new_object_ok p h _)).
  split; [rewrite Hp at 1; exact E|]. rewrite <- Hu.
  by apply (Hput (blob_slot _ _ _ _) _ [(k, ULong 0); (fresh (dom h), SqlStr s)]); [constructor|].
Qed.
