(* ===== verification/Warnings.v ===== *)
(** * mysqlconnector jdbc/driver/mysql_warning.{h,cpp}: the warnings of the server

    A warning is a node of a chain.  [loadMysqlWarnings] asks the server for its
    warnings and builds the chain in their order; the SQLSTATE of a warning is
    looked up from its code. *)

From S2P Require Import Prelude Cxx Str.

(** ** The chain *)

Inductive MySQL_Warning := MkWarning {
  sql_state : str;
  errNo : Z;
  descr : str;
  next : option MySQL_Warning;
}.

(** [MySQL_Warning::MySQL_Warning], with the three, two, one and no arguments. *)
Definition Warning_new (reason SQLState : str) (vendorCode : Z) : MySQL_Warning :=
  MkWarning SQLState vendorCode reason None.
Definition Warning_new_state (reason SQLState : str) : MySQL_Warning :=
  MkWarning SQLState 0 reason None.
Definition Warning_new_reason (reason : str) : MySQL_Warning := MkWarning "HY000" 0 reason None.
Definition Warning_default : MySQL_Warning := MkWarning "HY000" 0 [] None.

Definition getMessage (w : MySQL_Warning) : str := descr w.
Definition getSQLState (w : MySQL_Warning) : str := sql_state w.
Definition getErrorCode (w : MySQL_Warning) : Z := errNo w.
Definition getNextWarning (w : MySQL_Warning) : option MySQL_Warning := next w.

Definition setNextWarning (_next : option MySQL_Warning) (w : MySQL_Warning) : MySQL_Warning :=
  MkWarning (sql_state w) (errNo w) (descr w) _next.

(** [MySQL_Warning::MySQL_Warning(const ::sql::SQLWarning &)] copies the chain: it and
    its [setNextWarning] call each other. *)
Fixpoint Warning_copy (w : MySQL_Warning) : MySQL_Warning :=
  MkWarning (getSQLState w) (getErrorCode w) (getMessage w)
    (match next w with Some n => Some (Warning_copy n) | None => None end).

(** ** The states of the codes *)

Definition is_code (codes : list Z) (errCode : Z) : bool := existsb (Z.eqb errCode) codes.

Definition errCode2SqlState (errCode : Z) : str :=
  if is_code [1037; 1038] errCode then "HY001"
  else if is_code [1040] errCode then "08004"
  else if is_code [1042; 1043; 1047; 1053] errCode then "08S01"
  else if is_code [1044; 1049; 1055; 1056; 1057; 1059; 1061; 1063; 1064; 1065; 1066; 1067;
    1068; 1069; 1070; 1071; 1072; 1073; 1074; 1075] errCode then "42000"
  else if is_code [1045] errCode then "28000"
  else if is_code [1046] errCode then "3D000"
  else if is_code [1048; 1052; 1062] errCode then "23000"
  else if is_code [1050] errCode then "42501"
  else if is_code [1051] errCode then "42S02"
  else if is_code [1054] errCode then "42S22"
  else if is_code [1058] errCode then "21S01"
  else if is_code [1060] errCode then "42S21"
  else if is_code [1264] errCode then "22003"
  else if is_code [1000; 1001; 1002; 1003; 1004; 1005; 1006; 1007; 1008; 1009; 1010; 1011;
    1012; 1013; 1014; 1015; 1016; 1017; 1018; 1019; 1020; 1021; 1022; 1023; 1024; 1025;
    1026; 1027; 1028; 1029; 1030; 1031; 1032; 1033; 1034; 1035; 1036; 1076] errCode then "HY000"
  else [].

(** ** Asking the server *)

(** What the connection is asked for: the rows of a query, and the columns of a row
    by [getInt] and [getString]. *)
Class Session := {
  session_row : Type;
  session_query : str -> outcome (list session_row);
  row_getInt : session_row -> Z -> outcome Z;
  row_getString : session_row -> Z -> outcome str;
}.

(** [current->setNextWarning(tmp)], where [current] is the last of the chain. *)
Fixpoint append_warning (chain w : MySQL_Warning) : MySQL_Warning :=
  match next chain with
  | None => setNextWarning (Some w) chain
  | Some n => setNextWarning (Some (append_warning n w)) chain
  end.

Section load.
Context `{Session}.

(** The warning of a row. *)
Definition row_warning (r : session_row) : outcome MySQL_Warning :=
  errCode ← row_getInt r 2;
  message ← row_getString r 3;
  Ok (Warning_new message (errCode2SqlState errCode) errCode).

(** The loop over the rows; [first] is the chain so far. *)
Fixpoint load_rows (rows : list session_row) (first : option MySQL_Warning)
    : outcome (option MySQL_Warning) :=
  match rows with
  | [] => Ok first
  | r :: rows' =>
      w ← row_warning r;
      load_rows rows' (Some match first with None => w | Some c => append_warning c w end)
  end.

(** [connection] is not null. *)
Definition loadMysqlWarnings (warningsCount : Z) : outcome (option MySQL_Warning) :=
  if 0 <? warningsCount then
    rows ← session_query "SHOW WARNINGS";
    load_rows rows None
  else Ok None.
End load.

(** ** Facts *)

(** The warnings of a chain, without their links. *)
Fixpoint chain_list (w : MySQL_Warning) : list (str * Z * str) :=
  (sql_state w, errNo w, descr w) ::
    match next w with None => [] | Some n => chain_list n end.
Definition chain_of (w : option MySQL_Warning) : list (str * Z * str) :=
  match w with None => [] | Some w => chain_list w end.

Section warning_ind.
Context (P : MySQL_Warning -> Prop)
  (Hlast : forall s e d, P (MkWarning s e d None))
  (Hnext : forall s e d n, P n -> P (MkWarning s e d (Some n))).
Fixpoint warning_ind (w : MySQL_Warning) : P w :=
  match w with
  | MkWarning s e d None => Hlast s e d
  | MkWarning s e d (Some n) => Hnext s e d n (warning_ind n)
  end.
End warning_ind.

Lemma append_chain w x : chain_list (append_warning w x) = chain_list w ++ chain_list x.
Proof. induction w as [|s e d n IH] using warning_ind; simpl; [done|]. by rewrite IH. Qed.

Lemma warning_copy_same w : Warning_copy w = w.
Proof. induction w as [|s e d n IH] using warning_ind; simpl; [done|]. by rewrite IH. Qed.

(** The chain has the warnings in the order of the rows. *)
Lemma load_rows_spec `{Session} rows facts first :
  mapM (fun r => c ← row_getInt r 2; m ← row_getString r 3; Ok (errCode2SqlState c, c, m)) rows = Ok facts ->
  exists c, load_rows rows first = Ok c /\ chain_of c = chain_of first ++ facts.
Proof.
  revert facts first. induction rows as [|r rows IH]; intros facts first E.
  - exists first. injection E as <-. by rewrite app_nil_r.
  - cbn [mapM] in E. apply bind_Ok in E as (f & Ef & E). apply bind_Ok in E as (fs & Efs & E).
    injection E as <-. apply bind_Ok in Ef as (c & Ec & Ef). apply bind_Ok in Ef as (m & Em & Ef).
    injection Ef as <-. cbn [load_rows]. unfold row_warning. rewrite Ec, Em.
    cbn [mbind outcome_bind].
    destruct (IH fs (Some match first with None => Warning_new m (errCode2SqlState c) c
      | Some w => append_warning w (Warning_new m (errCode2SqlState c) c) end) Efs) as (x & Ex & Hx).
    exists x. split; [exact Ex|]. rewrite Hx. destruct first as [w|]; simpl; [|done].
    by rewrite append_chain, <- app_assoc.
Qed.
