(* ===== verification/PsResultSet.v ===== *)
(** * mysqlconnector jdbc/driver/mysql_ps_resultset.{h,cpp}: results of prepared statements

    [MySQL_Prepared_ResultSet] drives a statement of the C API: [data_seek] and
    [fetch] move, and the getters read the buffers [fetch] writes.  A statement has
    one [MySQL_ResultBind], which its result sets share; one result set is modelled,
    with the number of owners of the buffers.  Logging is left out. *)

From S2P Require Import Prelude Cxx Str Unicode Cursor MyVal Fields PsMetadata ResultBind.

Section ps.
Context `{CStatement} `{LongDouble}.
(** [sql::mysql::util::strtonum], the [float] and [double] in a buffer, and [%f]. *)
Context (strtonum : str -> ld) (ld_of_float ld_of_double : str -> ld) (print_f : ld -> str).

Record Ps := MkPs {
  proxy : stmt;
  last_queried_column : Z;
  num_fields : Z;
  num_rows : Z;
  row_position : Z;
  field_name_to_index_map : gmap (list ascii) Z;
  is_valid : bool;
  rs_meta : Psm;
  rbind : list bind;
  use_count : Z;
  resultset_type : Z;
}.

Local Abbreviation method := (Method Ps).

Definition set_proxy (x : stmt) (a : Ps) : Ps :=
  MkPs x (last_queried_column a) (num_fields a) (num_rows a) (row_position a)
    (field_name_to_index_map a) (is_valid a) (rs_meta a) (rbind a) (use_count a)
    (resultset_type a).
Definition set_column (x : Z) (a : Ps) : Ps :=
  MkPs (proxy a) x (num_fields a) (num_rows a) (row_position a)
    (field_name_to_index_map a) (is_valid a) (rs_meta a) (rbind a) (use_count a)
    (resultset_type a).
Definition set_position (x : Z) (a : Ps) : Ps :=
  MkPs (proxy a) (last_queried_column a) (num_fields a) (num_rows a) x
    (field_name_to_index_map a) (is_valid a) (rs_meta a) (rbind a) (use_count a)
    (resultset_type a).
Definition set_valid (x : bool) (a : Ps) : Ps :=
  MkPs (proxy a) (last_queried_column a) (num_fields a) (num_rows a) (row_position a)
    (field_name_to_index_map a) x (rs_meta a) (rbind a) (use_count a)
    (resultset_type a).
Definition set_rbind (x : list bind) (a : Ps) : Ps :=
  MkPs (proxy a) (last_queried_column a) (num_fields a) (num_rows a) (row_position a)
    (field_name_to_index_map a) (is_valid a) (rs_meta a) x (use_count a)
    (resultset_type a).

(** [MySQL_Prepared_ResultSet::MySQL_Prepared_ResultSet] *)
Definition Ps_new (s : stmt) (owners : Z) (rset_type : Z) : outcome Ps :=
  '(bs, s') ← bindResult s;
  let n := stmt_field_count s' in
  Ok (MkPs s' NO_COLUMN n (stmt_num_rows s') 0
    (index_names (map f_name (fields_of s')) 0 ∅) true (Psm_new (stmt_field s') n) bs owners
    rset_type).

Definition isClosed : method bool := v ← read is_valid; mret (negb v).

Definition checkValid : method unit :=
  c ← isClosed;
  if (c : bool) then throw (InvalidInstance "Statement has been closed") else mret tt.

Definition isScrollable : method bool :=
  t ← read resultset_type; mret (negb (t =? TYPE_FORWARD_ONLY)).

Definition checkScrollable : method unit :=
  t ← read resultset_type;
  if t =? TYPE_FORWARD_ONLY then throw (NonScrollable "Nonscrollable result set")
  else update (set_column NO_COLUMN).

(** The calls on the statement. *)
Definition data_seek (offset : Z) : method unit :=
  s ← read proxy; update (set_proxy (stmt_data_seek s offset)).
Definition fetch : method Z :=
  s ← read proxy; bs ← read rbind;
  let '(r, bs', s') := stmt_fetch s bs in
  _ ← update (set_proxy s'); _ ← update (set_rbind bs'); mret r.

(** [closeIntern], the destructor: the result is freed with its last owner but the
    statement. *)
Definition closeIntern : method unit :=
  c ← read use_count;
  _ ← (if c =? 2 then s ← read proxy; update (set_proxy (stmt_free_result s)) else mret tt);
  update (set_valid false).
Definition close : method unit := _ ← checkValid; closeIntern.

Definition after (a : Ps) : Z := to_size_t (num_rows a + 1).

(** [seek]: the result of [fetch] is ignored. *)
Definition seek : method unit :=
  p ← read row_position;
  _ ← data_seek (to_size_t (p - 1));
  _ ← fetch; mret tt.

Definition isBeforeFirstOrAfterLast : method bool :=
  _ ← checkValid;
  p ← read row_position; e ← read after; s ← isScrollable;
  mret ((p =? 0) || (s && (p =? e))).

Definition afterLast : method unit :=
  _ ← checkValid; _ ← checkScrollable; e ← read after; update (set_position e).

Definition beforeFirst : method unit :=
  _ ← checkValid; _ ← checkScrollable; _ ← data_seek 0; update (set_position 0).

(** [absolute]: [-new_pos] is evaluated before the test for the least [int]. *)
Definition absolute (new_pos : Z) : method bool :=
  _ ← checkValid; _ ← checkScrollable;
  n ← read num_rows;
  let result :=
    p ← read row_position; e ← read after; mret ((0 <? p) && (p <? e)) in
  if 0 <? new_pos then
    if to_int n <? new_pos then e ← read after; _ ← update (set_position e); result
    else _ ← update (set_position (to_size_t new_pos)); _ ← seek; mret true
  else if new_pos <? 0 then
    if new_pos =? INT_MIN then pure Undefined
    else if to_int n <? - new_pos then _ ← update (set_position 0); result
    else
      _ ← update (set_position (to_size_t (to_size_t (n - to_size_t (- new_pos)) + 1)));
      _ ← seek; mret true
  else _ ← update (set_position 0); _ ← beforeFirst; result.

Definition first : method bool :=
  _ ← checkValid; _ ← checkScrollable;
  n ← read num_rows;
  _ ← (if negb (n =? 0) then _ ← update (set_position 1); seek else mret tt);
  mret (negb (n =? 0)).

Definition last : method bool :=
  _ ← checkValid; _ ← checkScrollable;
  n ← read num_rows;
  _ ← (if negb (n =? 0) then _ ← update (set_position n); seek else mret tt);
  mret (negb (n =? 0)).

Definition isAfterLast : method bool :=
  _ ← checkValid; _ ← checkScrollable;
  p ← read row_position; e ← read after; mret (p =? e).
Definition isBeforeFirst : method bool :=
  _ ← checkValid; p ← read row_position; mret (p =? 0).
Definition isFirst : method bool :=
  _ ← checkValid; p ← read row_position; mret (p =? 1).
Definition isLast : method bool :=
  _ ← checkValid; _ ← checkScrollable;
  p ← read row_position; n ← read num_rows; mret (p =? n).

(** What [next] makes of the result of [fetch]. *)
Definition fetched (result : Z) : method bool :=
  if result =? 1 then s ← read proxy; throw (SqlError (stmt_error s))
  else if result =? MYSQL_NO_DATA then mret false
  else mret ((result =? 0) || (result =? MYSQL_DATA_TRUNCATED)).

Definition step_position : method unit :=
  p ← read row_position; update (set_position (to_size_t (p + 1))).

Definition next : method bool :=
  _ ← checkValid;
  s ← isScrollable;
  if (s : bool) then
    l ← isLast;
    if (l : bool) then _ ← step_position; mret false
    else
      p ← read row_position; e ← read after;
      if p <? e then
        _ ← (if p =? 0 then data_seek p else mret tt);
        result ← fetch;
        ret ← fetched result;
        _ ← step_position; mret ret
      else mret false
  else
    _ ← update (set_column NO_COLUMN);
    result ← fetch;
    ret ← fetched result;
    _ ← step_position; mret ret.

Definition previous : method bool :=
  _ ← checkScrollable;
  b ← isBeforeFirst;
  if (b : bool) then mret false
  else
    f ← isFirst;
    if (f : bool) then _ ← beforeFirst; mret false
    else
      p ← read row_position;
      if 1 <? p then
        _ ← update (set_position (p - 1));
        _ ← data_seek (to_size_t (p - 1 - 1));
        result ← fetch;
        if (result =? 0) || (result =? MYSQL_DATA_TRUNCATED) then mret true
        else if result =? MYSQL_NO_DATA then mret false
        else throw (SqlError "Error during mysql_stmt_fetch")
      else throw (SqlError "Impossible").

Definition relative (rows : Z) : method bool :=
  _ ← checkValid; _ ← checkScrollable;
  p ← read row_position; n ← read num_rows; e ← read after;
  _ ← (if negb (rows =? 0) then
         let q := to_size_t (p + to_size_t rows) in
         if (n <? q) || (q <? 1) then update (set_position (if 0 <? rows then e else 0))
         else _ ← update (set_position q); seek
       else mret tt);
  p' ← read row_position;
  mret ((0 <? p') && (p' <=? n)).

Definition findColumn (columnLabel : str) : method Z :=
  _ ← checkValid;
  m ← read field_name_to_index_map; mret (find_label m columnLabel).

Definition getMetaData : method Psm := _ ← checkValid; read rs_meta.
Definition getRow : method Z := _ ← checkValid; read row_position.
Definition getType : method Z := _ ← checkValid; read resultset_type.
Definition rowsCount : method Z :=
  _ ← checkValid; _ ← checkScrollable; s ← read proxy; mret (stmt_num_rows s).

(** ** Getters *)

Definition not_on_row {A} (name : str) : method A :=
  throw (SqlInvalidArgument ("MySQL_Prepared_ResultSet::" ++ name ++
    ": can't fetch because not on result set")).
Definition invalid_value {A} (name : str) : method A :=
  throw (SqlInvalidArgument ("MySQL_Prepared_ResultSet::" ++ name ++
    ": invalid value of 'columnIndex'")).
Definition invalid_column {A} (name : str) : method A :=
  throw (SqlInvalidArgument ("MySQLPreparedResultSet::" ++ name ++ ": invalid 'columnIndex'")).
Definition unhandled {A} (name : str) : method A :=
  throw (MethodNotImplemented ("MySQL_Prepared_ResultSet::" ++ name ++
    ": unhandled type. Please, report")).

(** [result_bind->rbind[columnIndex - 1]] *)
Definition column_bind (columnIndex : Z) : method bind :=
  bs ← read rbind; pure (arr_at bs (columnIndex - 1)).
Definition getColumnType (columnIndex : Z) : method DataType :=
  m ← read rs_meta; pure (PsMetadata.getColumnType m columnIndex).

(** The guards of a getter; the value of a null column is [zero]. *)
Definition guarded {A} (name : str) (invalid : method A) (columnIndex : Z) (zero : A)
    (get : bind -> method A) : method A :=
  b ← isBeforeFirstOrAfterLast;
  if (b : bool) then not_on_row name
  else
    n ← read num_fields;
    if (columnIndex =? 0) || (n <? columnIndex) then invalid
    else
      _ ← update (set_column columnIndex);
      c ← column_bind columnIndex;
      if b_is_null c then mret zero else get c.

(** The number in the buffer of an integer column. *)
Definition integer_of (b : bind) : outcome Z :=
  let load (w : nat) :=
    if b_is_null b then Ok 0
    else if b_is_unsigned b then load_unsigned w (b_buffer b) else load_signed w (b_buffer b) in
  if b_buffer_length b =? 1 then load 1%nat
  else if b_buffer_length b =? 2 then load 2%nat
  else if b_buffer_length b =? 4 then load 4%nat
  else if b_buffer_length b =? 8 then load 8%nat
  else Throw (SqlInvalidArgument "MySQL_Prepared_ResultSet::getInt64_intern: invalid type").

(** The number in the buffer of a BIT column, from its length in bytes. *)
Definition bits_of (b : bind) : outcome Z :=
  let n := b_length b in
  if (1 <=? n) && (n <=? 8) then s ← load_bytes n (b_buffer b); bit_uintkorr (Z.to_nat n) s
  else Ok 0.

(** [snprintf(buf, n, ...)] and the text it leaves. *)
Definition snprintf_text (n : Z) (text : str) : str := take (Z.to_nat (n - 1)) text.

(** [%0wd], of a number and of its sign and digits. *)
Definition zero_pad (w : nat) (t : str) : str :=
  match t with
  | "-"%char :: digits => "-"%char :: repeat "0"%char (w - 1 - length digits) ++ digits
  | _ => repeat "0"%char (w - length t) ++ t
  end.
Definition print_padded (w : nat) (z : Z) : outcome str := t ← show_dec z; Ok (zero_pad w t).

(** The members of [MYSQL_TIME] are unsigned and printed by [%d]. *)
Definition print_member (w : nat) (z : Z) : outcome str := print_padded w (to_int z).

(** [h:m:s], with [second_part] unless it is 0. *)
Definition print_clock (t : MYSQL_TIME) : outcome str :=
  h ← print_member 2 (t_hour t); m ← print_member 2 (t_minute t); s ← print_member 2 (t_second t);
  if t_second_part t =? 0 then Ok (h ++ ":" ++ m ++ ":" ++ s)
  else
    p ← print_padded 6 (to_size_t (t_second_part t));
    Ok (h ++ ":" ++ m ++ ":" ++ s ++ "." ++ p).

(** The year takes [w] digits. *)
Definition print_day (w : nat) (t : MYSQL_TIME) : outcome str :=
  y ← print_member w (t_year t); m ← print_member 2 (t_month t); d ← print_member 2 (t_day t);
  Ok (y ++ "-" ++ m ++ "-" ++ d).

Definition print_timestamp (t : MYSQL_TIME) : outcome str :=
  d ← print_day 4 t; c ← print_clock t; Ok (snprintf_text 27 (d ++ " " ++ c)).
Definition print_date (t : MYSQL_TIME) : outcome str :=
  d ← print_day 2 t; Ok (snprintf_text 11 d).
Definition print_time (t : MYSQL_TIME) : outcome str :=
  c ← print_clock t; Ok (snprintf_text 18 ((if t_neg t then "-" : str else []) ++ c)).

(** [getDouble], [getString] and the two internal functions call each other: each
    is written over the four, and [getters] ties the knot with a fuel. *)
Record Getters := MkGetters {
  call_getDouble : Z -> method ld;
  call_getString : Z -> method str;
  call_getInt64_intern : Z -> method Z;
  call_getUInt64_intern : Z -> method Z;
}.

Section bodies.
Context (g : Getters).

Definition getDouble_body (columnIndex : Z) : method ld :=
  guarded "getDouble" (invalid_column "getDouble") columnIndex (ld_of_Z 0) (fun b =>
    t ← getColumnType columnIndex;
    match t with
    | BIT | YEAR | TINYINT | SMALLINT | MEDIUMINT | INTEGER | BIGINT =>
        if b_is_unsigned b then z ← call_getUInt64_intern g columnIndex; mret (ld_of_Z z)
        else z ← call_getInt64_intern g columnIndex; mret (ld_of_Z z)
    | NUMERIC | DECIMAL | TIMESTAMP | DATE | TIME | CHAR | BINARY | VARCHAR | VARBINARY
    | LONGVARCHAR | LONGVARBINARY | SET | ENUM | JSON =>
        s ← call_getString g columnIndex; mret (strtonum (c_str s))
    | REAL => x ← pure (load_bytes 4 (b_buffer b)); mret (ld_of_float x)
    | DOUBLE => x ← pure (load_bytes 8 (b_buffer b)); mret (ld_of_double x)
    | _ => unhandled "getDouble"
    end).

Definition getString_body (columnIndex : Z) : method str :=
  guarded "getString" (invalid_column "getString") columnIndex [] (fun b =>
    t ← getColumnType columnIndex;
    match t with
    | TIMESTAMP => v ← pure (load_time (b_buffer b)); pure (print_timestamp v)
    | DATE => v ← pure (load_time (b_buffer b)); pure (print_date v)
    | TIME => v ← pure (load_time (b_buffer b)); pure (print_time v)
    | BIT | YEAR | TINYINT | SMALLINT | MEDIUMINT | INTEGER | BIGINT =>
        z ← (if b_is_unsigned b then call_getUInt64_intern g columnIndex
             else call_getInt64_intern g columnIndex);
        d ← pure (show_dec z); mret (snprintf_text 29 d)
    | REAL | DOUBLE =>
        x ← call_getDouble g columnIndex; mret (snprintf_text 49 (print_f x))
    | NUMERIC | DECIMAL | CHAR | BINARY | VARCHAR | VARBINARY | LONGVARCHAR
    | LONGVARBINARY | SET | ENUM | JSON => pure (load_bytes (b_length b) (b_buffer b))
    | _ => unhandled "getString"
    end).

Definition getInt64_intern_body (columnIndex : Z) : method Z :=
  t ← getColumnType columnIndex;
  match t with
  | REAL | DOUBLE => x ← call_getDouble g columnIndex; pure (ld_cast in_int64 x)
  | NUMERIC | DECIMAL | TIMESTAMP | DATE | TIME | CHAR | BINARY | VARCHAR | VARBINARY
  | LONGVARCHAR | LONGVARBINARY | SET | ENUM | JSON =>
      s ← call_getString g columnIndex; mret (strtoll (c_str s))
  | BIT => b ← column_bind columnIndex; z ← pure (bits_of b); mret (to_int64 z)
  | YEAR | TINYINT | SMALLINT | MEDIUMINT | INTEGER | BIGINT =>
      b ← column_bind columnIndex; z ← pure (integer_of b); mret (to_int64 z)
  | _ => unhandled "getInt64_intern"
  end.

Definition getUInt64_intern_body (columnIndex : Z) : method Z :=
  t ← getColumnType columnIndex;
  match t with
  | REAL | DOUBLE =>
      x ← call_getDouble g columnIndex;
      pure (ld_cast (fun z => (0 <=? z) && (z <=? 2 ^ 64 - 1)) x)
  | NUMERIC | DECIMAL | TIMESTAMP | DATE | TIME | CHAR | BINARY | VARCHAR | VARBINARY
  | LONGVARCHAR | LONGVARBINARY | SET | ENUM | JSON =>
      s ← call_getString g columnIndex; mret (strtoull (c_str s))
  | BIT => b ← column_bind columnIndex; z ← pure (bits_of b); mret (to_size_t z)
  | YEAR | TINYINT | SMALLINT | MEDIUMINT | INTEGER | BIGINT =>
      b ← column_bind columnIndex; z ← pure (integer_of b); mret (to_size_t z)
  | _ => unhandled "getUInt64_intern"
  end.
End bodies.

Fixpoint getters (fuel : nat) : Getters :=
  match fuel with
  | O =>
      MkGetters (fun _ => pure Diverged) (fun _ => pure Diverged) (fun _ => pure Diverged)
        (fun _ => pure Diverged)
  | S fuel' =>
      let g := getters fuel' in
      MkGetters (getDouble_body g) (getString_body g) (getInt64_intern_body g)
        (getUInt64_intern_body g)
  end.

(** The fuel of the outermost call: two levels of calls are made. *)
Definition getters_fuel : nat := 2.

Definition getDouble : Z -> method ld := call_getDouble (getters getters_fuel).
Definition getString : Z -> method str := call_getString (getters getters_fuel).
Definition getInt64_intern : Z -> method Z := call_getInt64_intern (getters getters_fuel).
Definition getUInt64_intern : Z -> method Z := call_getUInt64_intern (getters getters_fuel).

Definition get_integer (name : str) (columnIndex : Z) (get : method Z) : method Z :=
  guarded name (invalid_value name) columnIndex 0 (fun _ => get).

Definition getInt (columnIndex : Z) : method Z :=
  get_integer "getInt" columnIndex (z ← getInt64_intern columnIndex; mret (to_int z)).
Definition getUInt (columnIndex : Z) : method Z :=
  get_integer "getUInt" columnIndex (z ← getUInt64_intern columnIndex; mret (z mod 2 ^ 32)).
Definition getInt64 (columnIndex : Z) : method Z :=
  get_integer "getInt64" columnIndex (getInt64_intern columnIndex).
Definition getUInt64 (columnIndex : Z) : method Z :=
  get_integer "getUInt64" columnIndex (getUInt64_intern columnIndex).

(** [getBoolean] and [getBlob], whose result is a stream over the text. *)
Definition when_on_row {A} (name : str) (get : method A) : method A :=
  b ← isBeforeFirstOrAfterLast;
  if (b : bool) then not_on_row name else get.
Definition getBoolean (columnIndex : Z) : method bool :=
  when_on_row "getBoolean" (v ← getInt columnIndex; mret (negb (v =? 0))).
Definition getBlob (columnIndex : Z) : method str := when_on_row "getBlob" (getString columnIndex).

Definition by_label {A} (get : Z -> method A) (columnLabel : str) : method A :=
  i ← findColumn columnLabel; get i.

Definition getString_label : str -> method str := by_label getString.
Definition getDouble_label : str -> method ld := by_label getDouble.
Definition getInt_label : str -> method Z := by_label getInt.
Definition getUInt_label : str -> method Z := by_label getUInt.
Definition getInt64_label : str -> method Z := by_label getInt64.
Definition getUInt64_label : str -> method Z := by_label getUInt64.
Definition getBoolean_label (columnLabel : str) : method bool :=
  when_on_row "getBoolean" (v ← getInt_label columnLabel; mret (negb (v =? 0))).
Definition getBlob_label (columnLabel : str) : method str :=
  when_on_row "getBlob" (getString_label columnLabel).

Definition isNull (columnIndex : Z) : method bool :=
  _ ← checkValid;
  n ← read num_fields;
  if (columnIndex =? 0) || (n <? columnIndex) then invalid_value "isNull"
  else when_on_row "isNull" (c ← column_bind columnIndex; mret (b_is_null c)).

Definition isNull_label (columnLabel : str) : method bool :=
  i ← findColumn columnLabel;
  if i =? 0 then
    throw (SqlInvalidArgument "MySQL_Prepared_ResultSet::isNull: invalid value of 'columnLabel'")
  else isNull i.

Definition wasNull : method bool :=
  _ ← checkValid;
  when_on_row "wasNull" (
    c ← read last_queried_column;
    if c =? NO_COLUMN then
      throw (SqlInvalidArgument
        "MySQL_Prepared_ResultSet::wasNull: should be called only after one of the getter methods")
    else b ← column_bind c; mret (b_is_null b)).

(** The methods that are not implemented check the object first. *)
Definition not_implemented {A} (name : str) : method A :=
  _ ← checkValid;
  throw (MethodNotImplemented ("MySQL_Prepared_ResultSet::" ++ name ++ "()")).

Definition cancelRowUpdates : method unit := not_implemented "cancelRowUpdates".
Definition clearWarnings : method unit := not_implemented "clearWarnings".
Definition getConcurrency : method Z := not_implemented "getConcurrency".
Definition getCursorName : method str := not_implemented "getCursorName".
Definition getFetchDirection : method Z := not_implemented "getFetchDirection".
Definition getFetchSize : method Z := not_implemented "getFetchSize".
Definition getHoldability : method Z := not_implemented "getHoldability".
Definition getWarnings : method unit := not_implemented "getWarnings".
Definition refreshRow : method unit := not_implemented "refreshRow".
Definition rowDeleted : method bool := not_implemented "rowDeleted".
Definition rowInserted : method bool := not_implemented "rowInserted".
Definition rowUpdated : method bool := not_implemented "rowUpdated".
Definition insertRow : method unit := not_implemented "insertRow".
Definition moveToCurrentRow : method unit :=
  _ ← checkValid; _ ← checkScrollable;
  throw (MethodNotImplemented "MySQL_Prepared_ResultSet::moveToCurrentRow()").
Definition moveToInsertRow : method unit :=
  _ ← checkValid; _ ← checkScrollable;
  throw (MethodNotImplemented "MySQL_Prepared_ResultSet::moveToInsertRow()").
Definition getRowId (columnIndex : Z) : method unit := not_implemented "getRowId".
Definition getRowId_label (columnLabel : str) : method unit := not_implemented "getRowId".
Definition setFetchSize (rows : Z) : method unit := not_implemented "setFetchSize".

(** The moves of the cursor; those without a result report [false]. *)
Definition run_move (m : move) : method bool :=
  match m with
  | MNext => next
  | MPrevious => previous
  | MFirst => first
  | MLast => last
  | MBeforeFirst => _ ← beforeFirst; mret false
  | MAfterLast => _ ← afterLast; mret false
  | MAbsolute row => absolute row
  | MRelative rows => relative rows
  end.
End ps.

(** ** Facts: the cursor over a stored result *)

(** A result stored by the client: [held s rows k] says that it holds [rows] and
    that the next row to be fetched is the [k]th; [store_cell b c] is the buffer
    [b] after the value [c] was written to it. *)
Class StoredStatement (C : CStatement) := {
  cell : Type;
  store_cell : bind -> cell -> bind;
  held : stmt -> list (list cell) -> nat -> Prop;
  held_num_rows s rows k : held s rows k -> stmt_num_rows s = Z.of_nat (length rows);
  held_seek s rows k j : held s rows k -> (j = 0 \/ j < length rows)%nat ->
    held (stmt_data_seek s (Z.of_nat j)) rows j;
  held_fetch s rows k r bs : held s rows k -> rows !! k = Some r ->
    exists result s', stmt_fetch s bs = (result, zip_with store_cell bs r, s') /\
      (result = 0 \/ result = MYSQL_DATA_TRUNCATED) /\ held s' rows (S k);
  held_bind s rows k bs : held s rows k -> held (stmt_bind_result s bs).2 rows k;
  held_end s rows k bs : held s rows k -> rows !! k = None ->
    exists s', stmt_fetch s bs = (MYSQL_NO_DATA, bs, s') /\ held s' rows k;
  store_shape b c : b_type (store_cell b c) = b_type b /\
    b_buffer_length (store_cell b c) = b_buffer_length b /\
    b_is_unsigned (store_cell b c) = b_is_unsigned b;
  truncated_distinct : MYSQL_DATA_TRUNCATED <> 1 /\ MYSQL_DATA_TRUNCATED <> MYSQL_NO_DATA;
  no_data_distinct : MYSQL_NO_DATA <> 0 /\ MYSQL_NO_DATA <> 1;
}.

Section cursor.
Context (C : CStatement) `{!StoredStatement C}.
Context (rows : list (list cell)).

Local Abbreviation n := (Z.of_nat (length rows)).

(** The buffers hold a row; what is fixed of them are their types and sizes. *)
Definition shape (b : bind) : enum_field_types * Z * bool :=
  (b_type b, b_buffer_length b, b_is_unsigned b).
Definition full_rows (shapes : list (enum_field_types * Z * bool)) : Prop :=
  Forall (fun r => length r = length shapes) rows.

(** The members no move changes. *)
Record constants := MkConstants {
  c_meta : Psm;
  c_fields : Z;
  c_names : gmap (list ascii) Z;
  c_shapes : list (enum_field_types * Z * bool);
}.
Context (k : constants).

Record ps_at (p : Z) (a : Ps) : Prop := {
  at_type : resultset_type a <> TYPE_FORWARD_ONLY;
  at_valid : is_valid a = true;
  at_meta : rs_meta a = c_meta k;
  at_fields : num_fields a = c_fields k;
  at_names : field_name_to_index_map a = c_names k;
  at_shapes : map shape (rbind a) = c_shapes k;
  at_rows : num_rows a = n;
  at_bound : n < INT_MAX;
  at_position : row_position a = p;
  at_range : 0 <= p <= n + 1;
  at_held : exists o, held (proxy a) rows o /\ (1 <= p <= n -> o = Z.to_nat p);
  at_filled : 1 <= p <= n -> exists r bs,
    rows !! Z.to_nat (p - 1) = Some r /\ map shape bs = c_shapes k /\
    rbind a = zip_with store_cell bs r;
}.
Context (Hfull : full_rows (c_shapes k)).

Definition moves_to {A} (m : Method Ps A) (a : Ps) (b : A) (p' : Z) : Prop :=
  exists a', m a = (Ok b, a') /\ ps_at p' a'.

Lemma ps_moves_ret {A} (a : Ps) (b : A) p : ps_at p a -> moves_to (mret b) a b p.
Proof using. intros Ha. by exists a. Qed.

Lemma ps_moves_bind {A B} (m : Method Ps A) (f : A -> Method Ps B) a (b : A) p (c : B) q :
  moves_to m a b p -> (forall a', ps_at p a' -> moves_to (f b) a' c q) ->
  moves_to (m ≫= f) a c q.
Proof using.
  intros (a1 & E1 & Ha) Hf. destruct (Hf a1 Ha) as (a2 & E2 & Ha2).
  exists a2. by rewrite (method_bind_ok E1).
Qed.

Lemma ps_moves_read {A B} (g : Ps -> A) (f : A -> Method Ps B) a c q :
  moves_to (f (g a)) a c q -> moves_to (read g ≫= f) a c q.
Proof using. done. Qed.

Lemma ps_at_set_column p x a : ps_at p a -> ps_at p (set_column x a).
Proof using. intros []. by split. Qed.

Lemma ps_after_at p a : ps_at p a -> after a = n + 1.
Proof using.
  intros Ha. unfold after. rewrite (at_rows p a Ha). apply to_size_t_small.
  pose proof (at_bound p a Ha). unfold INT_MAX in *. lia.
Qed.

Lemma ps_checkValid_moves p a : ps_at p a -> moves_to checkValid a tt p.
Proof using.
  intros Ha. exists a. split; [|done]. unfold checkValid, isClosed, read, mbind, Method_bind. simpl.
  by rewrite (at_valid p a Ha).
Qed.

Lemma ps_isScrollable_moves p a : ps_at p a -> moves_to isScrollable a true p.
Proof using.
  intros Ha. exists a. split; [|done]. unfold isScrollable. rewrite method_read.
  by rewrite (proj2 (Z.eqb_neq _ _) (at_type p a Ha)).
Qed.

Lemma ps_checkScrollable_moves p a : ps_at p a -> moves_to checkScrollable a tt p.
Proof using.
  intros Ha. exists (set_column NO_COLUMN a). split; [|by apply ps_at_set_column].
  unfold checkScrollable. rewrite method_read.
  by rewrite (proj2 (Z.eqb_neq _ _) (at_type p a Ha)).
Qed.

Lemma ps_isLast_moves p a : ps_at p a -> moves_to isLast a (p =? n) p.
Proof using.
  intros Ha. unfold isLast.
  eapply ps_moves_bind; [by apply ps_checkValid_moves|]. intros a1 H1.
  eapply ps_moves_bind; [by apply ps_checkScrollable_moves|]. intros a2 H2.
  apply ps_moves_read, ps_moves_read. rewrite (at_position p a2 H2), (at_rows p a2 H2).
  by apply ps_moves_ret.
Qed.

Lemma ps_isFirst_moves p a : ps_at p a -> moves_to isFirst a (p =? 1) p.
Proof using.
  intros Ha. unfold isFirst. eapply ps_moves_bind; [by apply ps_checkValid_moves|]. intros a1 H1.
  apply ps_moves_read. rewrite (at_position p a1 H1). by apply ps_moves_ret.
Qed.

Lemma ps_isBeforeFirst_moves p a : ps_at p a -> moves_to isBeforeFirst a (p =? 0) p.
Proof using.
  intros Ha. unfold isBeforeFirst. eapply ps_moves_bind; [by apply ps_checkValid_moves|].
  intros a1 H1. apply ps_moves_read. rewrite (at_position p a1 H1). by apply ps_moves_ret.
Qed.

(** Positions without a row need no statement position and no buffers. *)
Lemma off_rows p q a :
  ps_at p a -> 0 <= q <= n + 1 -> ~ (1 <= q <= n) -> ps_at q (set_position q a).
Proof using.
  intros [] Hq Hoff. destruct at_held0 as (o & Ho & _). split; try done. by exists o.
Qed.

Lemma set_off_moves p q a :
  ps_at p a -> 0 <= q <= n + 1 -> ~ (1 <= q <= n) ->
  moves_to (update (set_position q)) a tt q.
Proof using. intros Ha Hq Hoff. exists (set_position q a). split; [done|]. by eapply off_rows. Qed.

Lemma shapes_stored (bs : list bind) (r : list cell) :
  length r = length bs -> map shape (zip_with store_cell bs r) = map shape bs.
Proof using.
  revert r. induction bs as [|b bs IH]; intros [|c r] Hl; simplify_eq/=; [done|].
  f_equal; [|by apply IH]. unfold shape. by destruct (store_shape b c) as (-> & -> & ->).
Qed.

(** Fetching the row the statement is at. *)
Lemma fetch_row p q a s :
  ps_at p a -> 1 <= q <= n -> held s rows (Z.to_nat (q - 1)) ->
  exists result a',
    fetch (set_proxy s a) = (Ok result, a') /\ (result = 0 \/ result = MYSQL_DATA_TRUNCATED) /\
    row_position a' = p /\ ps_at q (set_position q a').
Proof using Hfull.
  intros [] Hq Hs. destruct (lookup_lt_is_Some_2 rows (Z.to_nat (q - 1))) as [r Hr]; [lia|].
  destruct (held_fetch s rows _ r (rbind a) Hs Hr) as (result & s' & Hf & Hres & Hs').
  assert (Hl : length r = length (rbind a)).
  { unfold full_rows in Hfull. rewrite Forall_forall in Hfull.
    rewrite (Hfull r (list_elem_of_lookup_2 _ _ _ Hr)), <- at_shapes0. by rewrite length_map. }
  eexists result, _. split; [|split; [done|split]].
  - unfold fetch, read, update, mbind, Method_bind. simpl. rewrite Hf. reflexivity.
  - done.
  - split; simpl; try done; [by rewrite shapes_stored|lia| |].
    + exists (S (Z.to_nat (q - 1))). split; [done|lia].
    + intros _. by exists r, (rbind a).
Qed.

Lemma ps_seek_moves p q a :
  ps_at p a -> 1 <= q <= n -> moves_to (_ ← update (set_position q); seek) a tt q.
Proof using Hfull.
  intros Ha Hq. destruct (at_held p a Ha) as (o & Ho & _).
  assert (Hs : held (stmt_data_seek (proxy a) (q - 1)) rows (Z.to_nat (q - 1))).
  { replace (q - 1) with (Z.of_nat (Z.to_nat (q - 1))) at 1 by lia.
    apply (held_seek _ rows o); [done|lia]. }
  destruct (fetch_row p q a _ Ha Hq Hs) as (result & a' & Hf & _ & _ & Ha').
  exists (set_position q a'). split; [|done]. pose proof (at_bound p a Ha).
  unfold seek, data_seek. rewrite method_update, method_read.
  rewrite to_size_t_small by (simpl; unfold INT_MAX in *; lia).
  assert (Hf' : fetch (set_proxy (stmt_data_seek (proxy a) (q - 1)) (set_position q a)) =
    (Ok result, set_position q a')).
  { revert Hf. unfold fetch, read, update, mbind, Method_bind. simpl.
    destruct (stmt_fetch _ _) as [[x y] z]. by intros [= -> <-]. }
  unfold read, update, mbind, Method_bind in *. simpl in *. by rewrite Hf'.
Qed.

(** [next] from before a row: fetching it. *)
Lemma ps_fetch_next_moves p a :
  ps_at p a -> 0 <= p < n ->
  moves_to (_ ← (if p =? 0 then data_seek p else mret tt);
            result ← fetch; ret ← fetched result; _ ← step_position; mret ret) a true (p + 1).
Proof using Hfull.
  intros Ha Hp. destruct (at_held p a Ha) as (o & Ho & Hat).
  set (s := if p =? 0 then stmt_data_seek (proxy a) 0 else proxy a).
  assert (Hs : held s rows (Z.to_nat (p + 1 - 1))).
  { subst s. replace (p + 1 - 1) with p by lia. destruct (Z.eqb_spec p 0) as [->|Hne].
    - apply (held_seek _ rows o 0%nat Ho). by left.
    - by rewrite <- Hat by lia. }
  destruct (fetch_row p (p + 1) a s Ha) as (result & a' & Hf & Hres & Hpos & Ha'); [lia|done|].
  exists (set_position (p + 1) a'). split; [|done]. pose proof (at_bound p a Ha).
  assert (E : (if p =? 0 then data_seek p else mret tt) a = (Ok tt, set_proxy s a)).
  { subst s. destruct (Z.eqb_spec p 0) as [->|]; [done|]. by destruct a. }
  rewrite (method_bind_ok E), (method_bind_ok Hf). unfold fetched.
  destruct truncated_distinct as [T1 T2]. destruct no_data_distinct as [D1 D2].
  rewrite (proj2 (Z.eqb_neq result 1)), (proj2 (Z.eqb_neq result MYSQL_NO_DATA)) by
    (destruct Hres as [->| ->]; congruence).
  replace ((result =? 0) || (result =? MYSQL_DATA_TRUNCATED)) with true
    by (destruct Hres as [->| ->]; rewrite ?Z.eqb_refl, ?orb_true_r; done).
  unfold step_position, read, update, mbind, Method_bind. simpl. rewrite Hpos.
  by rewrite to_size_t_small by (unfold INT_MAX in *; lia).
Qed.

Lemma on_row_off p : p = 0 \/ n < p -> on_row n p = false.
Proof using.
  intros Hp. unfold on_row. apply andb_false_iff. rewrite !Z.leb_gt. lia.
Qed.

Lemma on_row_on p : 1 <= p <= n -> on_row n p = true.
Proof using. intros Hp. unfold on_row. rewrite andb_true_iff, !Z.leb_le. lia. Qed.

Lemma step_off a : ps_at n a -> moves_to step_position a tt (n + 1).
Proof using.
  intros Ha. unfold step_position. apply ps_moves_read. rewrite (at_position n a Ha).
  pose proof (at_bound n a Ha).
  rewrite to_size_t_small by (unfold INT_MAX in *; lia). eapply set_off_moves; [done|lia|lia].
Qed.

Lemma ps_next_moves p a :
  ps_at p a -> moves_to next a (on_row n (move_to n p MNext)) (move_to n p MNext).
Proof using Hfull.
  intros Ha. unfold next. pose proof (at_range _ _ Ha) as Hp. simpl move_to. unfold clamp.
  eapply ps_moves_bind; [by apply ps_checkValid_moves|]. intros a1 H1.
  eapply ps_moves_bind; [by apply ps_isScrollable_moves|]. intros a2 H2. cbn [negb].
  eapply ps_moves_bind; [by apply ps_isLast_moves|]. intros a3 H3.
  destruct (Z.eqb_spec p n) as [E|E].
  - subst p. eapply ps_moves_bind; [by apply step_off|]. intros a4 H4.
    replace (Z.max 0 (Z.min (n + 1) (n + 1))) with (n + 1) by lia.
    rewrite on_row_off by lia. by apply ps_moves_ret.
  - apply ps_moves_read, ps_moves_read.
    rewrite (at_position _ _ H3), (ps_after_at _ _ H3).
    destruct (Z.ltb_spec p (n + 1)) as [Hlt|Hge].
    + replace (Z.max 0 (Z.min (p + 1) (n + 1))) with (p + 1) by lia.
      rewrite on_row_on by lia. apply ps_fetch_next_moves; [done|lia].
    + replace (Z.max 0 (Z.min (p + 1) (n + 1))) with p by lia.
      rewrite on_row_off by lia. by apply ps_moves_ret.
Qed.

Lemma ps_beforeFirst_moves p a : ps_at p a -> moves_to beforeFirst a tt 0.
Proof using.
  intros Ha. unfold beforeFirst.
  eapply ps_moves_bind; [by apply ps_checkValid_moves|]. intros a1 H1.
  eapply ps_moves_bind; [by apply ps_checkScrollable_moves|]. intros a2 [].
  destruct at_held0 as (o & Ho & _).
  exists (set_position 0 (set_proxy (stmt_data_seek (proxy a2) 0) a2)). split; [done|].
  split; simpl; try done; [lia| |lia]. exists 0%nat. split; [|lia].
  apply (held_seek _ rows o 0%nat Ho). by left.
Qed.

Lemma ps_afterLast_moves p a : ps_at p a -> moves_to afterLast a tt (n + 1).
Proof using.
  intros Ha. unfold afterLast.
  eapply ps_moves_bind; [by apply ps_checkValid_moves|]. intros a1 H1.
  eapply ps_moves_bind; [by apply ps_checkScrollable_moves|]. intros a2 H2.
  apply ps_moves_read. rewrite (ps_after_at _ _ H2). eapply set_off_moves; [done|lia|lia].
Qed.

Lemma seek_then {A} p q (b : A) a :
  ps_at p a -> 1 <= q <= n ->
  moves_to (_ ← update (set_position q); _ ← seek; mret b) a b q.
Proof using Hfull.
  intros Ha Hq. destruct (ps_seek_moves p q a Ha Hq) as (a' & E & Ha').
  rewrite method_update in E. exists a'. rewrite method_update. by rewrite (method_bind_ok E).
Qed.

(** Going back one row: [fetch] reports a row. *)
Lemma back_moves p a :
  ps_at p a -> 1 < p <= n + 1 ->
  moves_to (_ ← update (set_position (p - 1)); _ ← data_seek (to_size_t (p - 1 - 1));
    result ← fetch;
    if (result =? 0) || (result =? MYSQL_DATA_TRUNCATED) then mret true
    else if result =? MYSQL_NO_DATA then mret false
    else throw (SqlError "Error during mysql_stmt_fetch")) a true (p - 1).
Proof using Hfull.
  intros Ha Hp. destruct (at_held p a Ha) as (o & Ho & _).
  assert (Hs : held (stmt_data_seek (proxy a) (p - 1 - 1)) rows (Z.to_nat (p - 1 - 1))).
  { replace (p - 1 - 1) with (Z.of_nat (Z.to_nat (p - 1 - 1))) at 1 by lia.
    apply (held_seek _ rows o); [done|lia]. }
  destruct (fetch_row p (p - 1) a _ Ha ltac:(lia) Hs) as (result & a' & Hf & Hres & _ & Ha').
  exists (set_position (p - 1) a'). split; [|done]. pose proof (at_bound p a Ha).
  assert (Hf' : fetch (set_proxy (stmt_data_seek (proxy a) (p - 1 - 1)) (set_position (p - 1) a)) =
    (Ok result, set_position (p - 1) a')).
  { revert Hf. unfold fetch, read, update, mbind, Method_bind. simpl.
    destruct (stmt_fetch _ _) as [[x y] z]. by intros [= -> <-]. }
  rewrite method_update. unfold data_seek. rewrite to_size_t_small by (unfold INT_MAX in *; lia).
  unfold read, update, mbind, Method_bind in *. simpl in *. rewrite Hf'.
  replace ((result =? 0) || (result =? MYSQL_DATA_TRUNCATED)) with true; [done|].
  destruct Hres as [->| ->]; by rewrite ?Z.eqb_refl, ?orb_true_r.
Qed.

Lemma ps_previous_moves p a :
  ps_at p a -> moves_to previous a (on_row n (move_to n p MPrevious)) (move_to n p MPrevious).
Proof using Hfull.
  intros Ha. unfold previous. pose proof (at_range _ _ Ha) as Hp. simpl move_to. unfold clamp.
  eapply ps_moves_bind; [by apply ps_checkScrollable_moves|]. intros a1 H1.
  eapply ps_moves_bind; [by apply ps_isBeforeFirst_moves|]. intros a2 H2.
  destruct (Z.eqb_spec p 0) as [E|E].
  - replace (Z.max 0 (Z.min (p - 1) (n + 1))) with p by lia. rewrite on_row_off by lia.
    by apply ps_moves_ret.
  - eapply ps_moves_bind; [by apply ps_isFirst_moves|]. intros a3 H3.
    destruct (Z.eqb_spec p 1) as [E1|E1].
    + eapply ps_moves_bind; [by eapply ps_beforeFirst_moves|]. intros a4 H4.
      replace (Z.max 0 (Z.min (p - 1) (n + 1))) with 0 by lia. rewrite on_row_off by lia.
      by apply ps_moves_ret.
    + apply ps_moves_read. rewrite (at_position _ _ H3), (proj2 (Z.ltb_lt 1 p)) by lia.
      replace (Z.max 0 (Z.min (p - 1) (n + 1))) with (p - 1) by lia. rewrite on_row_on by lia.
      apply back_moves; [done|lia].
Qed.

(** [first] and [last]. *)
Lemma row_or_stay p q a :
  ps_at p a -> (n <> 0 -> 1 <= q <= n) ->
  moves_to (_ ← (if negb (n =? 0) then _ ← update (set_position q); seek else mret tt);
            mret (negb (n =? 0))) a (on_row n (if n =? 0 then p else q)) (if n =? 0 then p else q).
Proof using Hfull.
  intros Ha Hq. pose proof (at_range _ _ Ha) as Hp. destruct (Z.eqb_spec n 0) as [E|E]; cbn [negb].
  - rewrite on_row_off by lia. eapply ps_moves_bind; [by apply ps_moves_ret|]. intros a1 H1.
    by apply ps_moves_ret.
  - rewrite on_row_on by auto. eapply ps_moves_bind; [by eapply ps_seek_moves; [|auto]|].
    intros a1 H1. by apply ps_moves_ret.
Qed.

Lemma ps_first_moves p a :
  ps_at p a -> moves_to first a (on_row n (move_to n p MFirst)) (move_to n p MFirst).
Proof using Hfull.
  intros Ha. unfold first. simpl move_to.
  eapply ps_moves_bind; [by apply ps_checkValid_moves|]. intros a1 H1.
  eapply ps_moves_bind; [by apply ps_checkScrollable_moves|]. intros a2 H2.
  apply ps_moves_read. rewrite (at_rows _ _ H2). apply row_or_stay; [done|lia].
Qed.

Lemma ps_last_moves p a :
  ps_at p a -> moves_to last a (on_row n (move_to n p MLast)) (move_to n p MLast).
Proof using Hfull.
  intros Ha. unfold last. simpl move_to.
  eapply ps_moves_bind; [by apply ps_checkValid_moves|]. intros a1 H1.
  eapply ps_moves_bind; [by apply ps_checkScrollable_moves|]. intros a2 H2.
  apply ps_moves_read. rewrite (at_rows _ _ H2). apply row_or_stay; [done|lia].
Qed.

Lemma ps_result_at p a :
  ps_at p a ->
  moves_to (q ← read row_position; e ← read after; mret ((0 <? q) && (q <? e))) a (on_row n p) p.
Proof using.
  intros Ha. apply ps_moves_read, ps_moves_read. rewrite (at_position _ _ Ha), (ps_after_at _ _ Ha).
  replace ((0 <? p) && (p <? n + 1)) with (on_row n p); [by apply ps_moves_ret|].
  unfold on_row. apply eq_true_iff_eq. rewrite !andb_true_iff, !Z.leb_le, !Z.ltb_lt. lia.
Qed.

Lemma ps_absolute_moves p row a :
  ps_at p a -> INT_MIN < row <= INT_MAX ->
  moves_to (absolute row) a (on_row n (move_to n p (MAbsolute row))) (move_to n p (MAbsolute row)).
Proof using Hfull.
  intros Ha Hrow. unfold absolute. pose proof (at_range _ _ Ha) as Hp.
  pose proof (at_bound _ _ Ha) as Hb. simpl move_to. unfold clamp.
  eapply ps_moves_bind; [by apply ps_checkValid_moves|]. intros a1 H1.
  eapply ps_moves_bind; [by apply ps_checkScrollable_moves|]. intros a2 H2.
  apply ps_moves_read. rewrite (at_rows _ _ H2).
  rewrite (to_int_small n) by (unfold INT_MIN, INT_MAX in *; lia).
  destruct (Z.ltb_spec 0 row) as [H0|H0].
  - rewrite (proj2 (Z.ltb_ge row 0)) by lia. destruct (Z.ltb_spec n row) as [H3|H3].
    + apply ps_moves_read. rewrite (ps_after_at _ _ H2).
      replace (Z.max 0 (Z.min row (n + 1))) with (n + 1) by lia.
      eapply ps_moves_bind; [eapply set_off_moves; [done|lia|lia]|]. intros a3 Ha3. by apply ps_result_at.
    + replace (Z.max 0 (Z.min row (n + 1))) with row by lia. rewrite on_row_on by lia.
      rewrite to_size_t_small by (unfold INT_MAX in *; lia). eapply seek_then; [done|lia].
  - destruct (Z.ltb_spec row 0) as [H3|H3].
    + rewrite (proj2 (Z.eqb_neq row INT_MIN)) by lia.
      destruct (Z.ltb_spec n (- row)) as [H4|H4].
      * replace (Z.max 0 (Z.min (n + 1 + row) (n + 1))) with 0 by lia.
        eapply ps_moves_bind; [eapply (set_off_moves p 0); [done|lia|lia]|].
        intros a3 Ha3. by apply ps_result_at.
      * replace (Z.max 0 (Z.min (n + 1 + row) (n + 1))) with (n + 1 + row) by lia.
        rewrite on_row_on by lia. unfold INT_MIN, INT_MAX in *.
        rewrite (to_size_t_small (- row)), (to_size_t_small (n - - row)),
          (to_size_t_small (n - - row + 1)) by lia.
        replace (n - - row + 1) with (n + 1 + row) by lia. eapply seek_then; [done|lia].
    + replace (Z.max 0 (Z.min row (n + 1))) with 0 by lia.
      eapply ps_moves_bind; [eapply (set_off_moves p 0); [done|lia|lia]|]. intros a3 Ha3.
      eapply ps_moves_bind; [by eapply ps_beforeFirst_moves|]. intros a4 Ha4. by apply ps_result_at.
Qed.

Lemma ps_relative_moves p r a :
  ps_at p a -> INT_MIN <= r <= INT_MAX ->
  moves_to (relative r) a (on_row n (move_to n p (MRelative r))) (move_to n p (MRelative r)).
Proof using Hfull.
  intros Ha Hr. unfold relative. pose proof (at_range _ _ Ha) as Hp.
  pose proof (at_bound _ _ Ha) as Hb. simpl move_to. unfold clamp, INT_MIN, INT_MAX in *.
  eapply ps_moves_bind; [by apply ps_checkValid_moves|]. intros a1 H1.
  eapply ps_moves_bind; [by apply ps_checkScrollable_moves|]. intros a2 H2.
  apply ps_moves_read, ps_moves_read, ps_moves_read.
  rewrite (at_position _ _ H2), (at_rows _ _ H2), (ps_after_at _ _ H2).
  set (q := Z.max 0 (Z.min (p + r) (n + 1))).
  eapply (ps_moves_bind _ _ _ tt q).
  - destruct (Z.eqb_spec r 0) as [->|Hr0]; cbn [negb].
    + subst q. replace (Z.max 0 (Z.min (p + 0) (n + 1))) with p by lia. by apply ps_moves_ret.
    + destruct (decide (1 <= p + r <= n)) as [Hin|Hout].
      * assert (E : to_size_t (p + to_size_t r) = p + r).
        { unfold to_size_t. rewrite Zplus_mod_idemp_r. by apply Z.mod_small; lia. }
        rewrite E, (proj2 (Z.ltb_ge n _)), (proj2 (Z.ltb_ge (p + r) 1)) by lia. cbn [orb].
        subst q. replace (Z.max 0 (Z.min (p + r) (n + 1))) with (p + r) by lia.
        eapply ps_seek_moves; [done|lia].
      * replace ((n <? to_size_t (p + to_size_t r)) || (to_size_t (p + to_size_t r) <? 1)) with true.
        2: { symmetry. apply orb_true_iff. rewrite !Z.ltb_lt. unfold to_size_t.
             rewrite Zplus_mod_idemp_r. destruct (Z.ltb_spec (p + r) 0).
             - left. rewrite <- (Z.mod_unique (p + r) _ (-1) (p + r + 2 ^ 64)); lia.
             - rewrite Z.mod_small by lia. lia. }
        replace (if 0 <? r then n + 1 else 0) with q
          by (subst q; destruct (Z.ltb_spec 0 r); lia).
        eapply set_off_moves; [done|lia|lia].
  - intros a3 H3. apply ps_moves_read. rewrite (at_position _ _ H3).
    replace ((0 <? q) && (q <=? n)) with (on_row n q); [by apply ps_moves_ret|].
    unfold on_row. apply eq_true_iff_eq. rewrite !andb_true_iff, !Z.leb_le, Z.ltb_lt. lia.
Qed.

(** The rows a move may be given: an [int], for [absolute] not the least one. *)
Definition ps_allows (m : move) : Prop :=
  match m with
  | MAbsolute row => INT_MIN < row <= INT_MAX
  | MRelative r => INT_MIN <= r <= INT_MAX
  | _ => True
  end.

#[export] Instance ps_cursor : CursorOver run_move n.
Proof using Hfull.
  refine {| cursor_at := ps_at; cursor_allows _ m := ps_allows m |}.
  intros p m a Ha Hm. destruct m; simpl run_move.
  - by apply ps_next_moves.
  - by apply ps_previous_moves.
  - by apply ps_first_moves.
  - by apply ps_last_moves.
  - eapply ps_moves_bind; [by eapply ps_beforeFirst_moves|]. intros a1 H1. by apply ps_moves_ret.
  - eapply ps_moves_bind; [by eapply ps_afterLast_moves|]. intros a1 H1. simpl move_to.
    rewrite on_row_off by lia. by apply ps_moves_ret.
  - by apply ps_absolute_moves.
  - by apply ps_relative_moves.
Defined.
End cursor.

(** A fresh result set is before its first row. *)
Lemma Ps_new_at (C : CStatement) `{!StoredStatement C} (rows : list (list cell)) s owners a :
  held s rows 0 -> Z.of_nat (length rows) < INT_MAX ->
  Ps_new s owners TYPE_SCROLL_INSENSITIVE = Ok a ->
  ps_at C rows (MkConstants (rs_meta a) (num_fields a) (field_name_to_index_map a)
    (map shape (rbind a))) 0 a.
Proof.
  intros Hs Hn Ha. unfold Ps_new in Ha. apply bind_Ok in Ha as ([bs s'] & Hb & Ha).
  apply Ok_inj in Ha. subst a.
  assert (Hs' : held s' rows 0).
  { unfold bindResult in Hb. destruct (_ =? 0); [by apply Ok_inj in Hb as [= <- <-]|].
    apply bind_Ok in Hb as (bs' & _ & Hb). pose proof (held_bind s rows 0 bs' Hs) as Hh.
    destruct (stmt_bind_result s bs') as [failed s1]. destruct failed; [done|].
    by apply Ok_inj in Hb as [= <- <-]. }
  split; simpl; try done; [by apply held_num_rows with (k := 0%nat)|lia| |lia].
  exists 0%nat. split; [done|lia].
Qed.

(** ** A statement held in memory *)

Section in_memory.
Context (fields : list field).

(** A value: null, or contents with their length in bytes. *)
Definition memory_cell : Type := option (contents * Z).

(** Bytes are cut to the buffer, and the rest of it is filled with zeros. *)
Definition fill_buffer (n : Z) (c : contents) : contents :=
  match c with
  | Bytes v => Bytes (take (Z.to_nat n) (v ++ repeat "000"%char (Z.to_nat n)))
  | Time t => Time t
  end.

Definition memory_store (b : bind) (c : memory_cell) : bind :=
  match c with
  | None => MkBind (b_type b) (b_buffer b) (b_buffer_length b) 0 true (b_is_unsigned b)
  | Some (v, l) =>
      MkBind (b_type b) (Some (fill_buffer (b_buffer_length b) v)) (b_buffer_length b) l false
        (b_is_unsigned b)
  end.

Definition cut_short (b : bind) (c : memory_cell) : bool :=
  match c with None => false | Some (_, l) => b_buffer_length b <? l end.

#[export] Instance in_memory_stmt : CStatement := {|
  stmt := (list (list memory_cell) * nat)%type;
  stmt_field_count _ := Z.of_nat (length fields);
  stmt_num_rows s := Z.of_nat (length s.1);
  stmt_field _ i := default (simple_field [] MYSQL_TYPE_NULL 0 0) (fields !! Z.to_nat i);
  stmt_bind_result s _ := (false, s);
  stmt_data_seek s offset := (s.1, Z.to_nat offset);
  stmt_fetch s bs :=
    match s.1 !! s.2 with
    | None => (100, bs, s)
    | Some r =>
        (if existsb id (zip_with cut_short bs r) then 101 else 0, zip_with memory_store bs r,
          (s.1, S s.2))
    end;
  stmt_free_result s := s;
  stmt_error _ := [];
  MYSQL_NO_DATA := 100;
  MYSQL_DATA_TRUNCATED := 101;
  SIZEOF_MYSQL_TIME := 40;
  stmt_flags := documented_flags;
|}.

#[export] Instance in_memory_held : StoredStatement in_memory_stmt.
Proof using.
  refine {| cell := memory_cell; store_cell := memory_store;
    held (s : stmt) rows k := s = (rows, k) |}.
  - by intros ? rows k ->.
  - intros ? rows k j -> _. simpl. by rewrite Nat2Z.id.
  - intros ? rows k r bs -> Hr. simpl. rewrite Hr. eexists _, _. split; [done|].
    split; [|done]. destruct (existsb _ _); auto.
  - by intros ? rows k bs ->.
  - intros ? rows k bs -> Hr. simpl. rewrite Hr. by eexists.
  - by intros b [[v l]|].
  - done.
  - done.
Defined.
End in_memory.
