(* ===== verification/PsRead.v ===== *)
(** * Reading the columns of a prepared result

    What the getters of [PsResultSet] return: numbers, texts, dates and times; and
    that they return at all. *)

From S2P Require Import Prelude Cxx Str Unicode Cursor MyVal Fields PsMetadata ResultBind PsResultSet.

(** ** Facts: reading a column *)

Section reading.
Context (C : CStatement) (LD : LongDouble).
Context (strtonum : str -> ld) (ld_of_float ld_of_double : str -> ld) (print_f : ld -> str).

Local Abbreviation getString := (getString strtonum ld_of_float ld_of_double print_f).
Local Abbreviation getInt := (getInt strtonum ld_of_float ld_of_double print_f).
Local Abbreviation getInt64 := (getInt64 strtonum ld_of_float ld_of_double print_f).
Local Abbreviation getUInt64 := (getUInt64 strtonum ld_of_float ld_of_double print_f).
Local Abbreviation getters := (getters strtonum ld_of_float ld_of_double print_f).

(** Column [i] can be read: the cursor is on a row, and the buffer [b] of the
    column holds a value of type [d]. *)
Record readable (i : Z) (b : bind) (d : DataType) (a : Ps) : Prop := {
  rd_valid : is_valid a = true;
  rd_position : row_position a <> 0;
  rd_inside : resultset_type a <> TYPE_FORWARD_ONLY -> row_position a <> after a;
  rd_column : 1 <= i <= num_fields a;
  rd_meta : PsMetadata.num_fields (rs_meta a) = num_fields a;
  rd_bind : arr_at (rbind a) (i - 1) = Ok b;
  rd_type : mysql_type_to_datatype (result_meta (rs_meta a) (i - 1)) = Ok d;
  rd_value : b_is_null b = false;
}.

Lemma readable_column i b d a x : readable i b d a -> readable i b d (set_column x a).
Proof using. intros []. by split. Qed.

Lemma type_of i b d a : readable i b d a -> getColumnType i a = (Ok d, a).
Proof using.
  intros Hr. unfold getColumnType. rewrite method_read. unfold pure, PsMetadata.getColumnType.
  rewrite (psm_with_field_in i _ _ (result_meta (rs_meta a) (i - 1))); [by rewrite (rd_type _ _ _ _ Hr)| |done].
  rewrite (rd_meta _ _ _ _ Hr). by apply (rd_column _ _ _ _ Hr).
Qed.

Lemma bind_of i b d a : readable i b d a -> column_bind i a = (Ok b, a).
Proof using.
  intros Hr. unfold column_bind. rewrite method_read. unfold pure. by rewrite (rd_bind _ _ _ _ Hr).
Qed.

Lemma guarded_value {A} name invalid i (zero : A) get b d a :
  readable i b d a -> guarded name invalid i zero get a = get b (set_column i a).
Proof using.
  intros Hr. pose proof Hr as [Hv Hp Hin Hc _ _ _ Hn].
  assert (E : isBeforeFirstOrAfterLast a = (Ok false, a)).
  { unfold isBeforeFirstOrAfterLast, checkValid, isClosed, isScrollable, read, mbind, Method_bind.
    simpl. rewrite Hv. simpl. rewrite (proj2 (Z.eqb_neq _ _) Hp). simpl.
    destruct (Z.eqb_spec (resultset_type a) TYPE_FORWARD_ONLY); [done|]. simpl.
    by rewrite (proj2 (Z.eqb_neq _ _)) by auto. }
  unfold guarded. rewrite (method_bind_ok E), method_read.
  rewrite (proj2 (Z.eqb_neq i 0)), (proj2 (Z.ltb_ge (num_fields a) i)) by lia. cbn [orb].
  rewrite method_update.
  rewrite (method_bind_ok (bind_of i b d (set_column i a) (readable_column i b d a i Hr))).
  by rewrite Hn.
Qed.

(** The buffer of an integer column holds a number of its width. *)
Record holds_integer (w : nat) (z : Z) (b : bind) : Prop := {
  hi_length : b_buffer_length b = Z.of_nat w;
  hi_value : exists rest, b_buffer b = Some (Bytes (le_split w z ++ rest));
  hi_fits : fits (b_is_unsigned b) w z;
}.

Lemma integer_of_width d w b :
  integer_width d = Some w -> b_buffer_length b = Z.of_nat w -> b_is_null b = false ->
  integer_of b =
    if b_is_unsigned b then load_unsigned w (b_buffer b) else load_signed w (b_buffer b).
Proof using. intros Hw Hl Hn. unfold integer_of. rewrite Hl, Hn. by destruct d; simplify_eq/=. Qed.

Lemma integer_of_value d w z b :
  integer_width d = Some w -> b_is_null b = false -> holds_integer w z b -> integer_of b = Ok z.
Proof using.
  intros Hw Hn [Hl (rest & Hb) Hf]. rewrite (integer_of_width d w b Hw Hl Hn), Hb.
  unfold load_signed. rewrite load_split. unfold fits in Hf. destruct (b_is_unsigned b).
  - by rewrite Z.mod_small.
  - rewrite obind_Ok, to_signed_mod; [done| |done]. destruct d; simplify_eq/=; lia.
Qed.

Lemma fits_wide d w u z : integer_width d = Some w -> fits u w z -> - 2 ^ 63 <= z < 2 ^ 64.
Proof using.
  unfold fits. intros Hw. destruct u, d; simplify_eq/=; lia.
Qed.

Lemma fits_signed d w z : integer_width d = Some w -> fits false w z -> - 2 ^ 63 <= z < 2 ^ 63.
Proof using. unfold fits. intros Hw. destruct d; simplify_eq/=; lia. Qed.

Lemma getInt64_value g i b d w z a :
  readable i b d a -> integer_width d = Some w -> holds_integer w z b ->
  getInt64_intern_body g i a = (Ok (to_int64 z), a) /\
  getUInt64_intern_body g i a = (Ok (to_size_t z), a).
Proof using.
  intros Hr Hw Hb. pose proof (integer_of_value d w z b Hw (rd_value _ _ _ _ Hr) Hb) as E.
  assert (Hi : forall cast : Z -> Z,
    (b' ← column_bind i; z' ← pure (integer_of b'); mret (cast z')) a = (Ok (cast z), a)).
  { intros cast. by rewrite (method_bind_ok (bind_of i b d a Hr)), E, method_pure. }
  unfold getInt64_intern_body, getUInt64_intern_body.
  rewrite !(method_bind_ok (type_of i b d a Hr)).
  destruct d; try discriminate Hw; split; apply Hi.
Qed.

Lemma to_int_to_int64 z : to_int (to_int64 z) = to_int z.
Proof using.
  unfold to_int, to_int64. f_equal.
  replace ((z + 2 ^ 63) mod 2 ^ 64 - 2 ^ 63 + 2 ^ 31) with
    ((z + 2 ^ 63) mod 2 ^ 64 + (2 ^ 31 - 2 ^ 63)) by lia.
  rewrite (Z.mod_eq (z + 2 ^ 63) (2 ^ 64)) by lia.
  replace (z + 2 ^ 63 - 2 ^ 64 * ((z + 2 ^ 63) / 2 ^ 64) + (2 ^ 31 - 2 ^ 63)) with
    (z + 2 ^ 31 + (- 2 ^ 32 * ((z + 2 ^ 63) / 2 ^ 64)) * 2 ^ 32) by lia.
  by rewrite Z_mod_plus_full.
Qed.

(** The text of a number fits the buffer of [my_l_to_a]. *)
Lemma snprintf_number z t : show_dec z = Ok t -> snprintf_text 29 t = t.
Proof using.
  intros E. apply show_dec_size in E. unfold snprintf_text. apply take_ge. unfold size in E. lia.
Qed.

(** Every getter reads the number of an integer column. *)
Lemma integer_read i b d w z a :
  readable i b d a -> integer_width d = Some w -> holds_integer w z b ->
  getInt64 i a = (Ok (to_int64 z), set_column i a) /\
  getUInt64 i a = (Ok (to_size_t z), set_column i a) /\
  getInt i a = (Ok (to_int z), set_column i a) /\
  exists t, show_dec z = Ok t /\ getString i a = (Ok t, set_column i a).
Proof using.
  intros Hr Hw Hb. pose proof (readable_column i b d a i Hr) as Hr'.
  pose proof (fun g => proj1 (getInt64_value g i b d w z _ Hr' Hw Hb)) as Es.
  pose proof (fun g => proj2 (getInt64_value g i b d w z _ Hr' Hw Hb)) as Eu.
  pose proof (fits_wide d w _ z Hw (hi_fits _ _ _ Hb)) as Hz.
  unfold PsResultSet.getInt64, PsResultSet.getUInt64, PsResultSet.getInt, PsResultSet.getString,
    get_integer, getInt64_intern, getUInt64_intern, getters_fuel.
  split; [|split; [|split]].
  - rewrite (guarded_value _ _ _ _ _ b d a Hr). apply Es.
  - rewrite (guarded_value _ _ _ _ _ b d a Hr). apply Eu.
  - rewrite (guarded_value _ _ _ _ _ b d a Hr), (method_bind_ok (Es (getters 1))).
    by rewrite <- (to_int_to_int64 z).
  - destruct (show_dec_ok z) as (t & Et & _); [lia|]. exists t. split; [done|].
    change (call_getString (getters 2)) with (PsResultSet.getString_body print_f (getters 1)).
    unfold getString_body. rewrite (guarded_value _ _ _ _ _ b d a Hr).
    rewrite (method_bind_ok (type_of i b d _ Hr')).
    assert (E : (if b_is_unsigned b then call_getUInt64_intern (getters 1) i
      else call_getInt64_intern (getters 1) i) (set_column i a) = (Ok z, set_column i a)).
    { pose proof (hi_fits _ _ _ Hb) as Hf. unfold fits in Hf. destruct (b_is_unsigned b).
      - etrans; [apply (Eu (getters 0))|]. by rewrite to_size_t_small by lia.
      - etrans; [apply (Es (getters 0))|].
        by rewrite to_int64_small by exact (fits_signed d w z Hw Hf). }
    assert (Hint : (z' ← (if b_is_unsigned b then call_getUInt64_intern (getters 1) i
      else call_getInt64_intern (getters 1) i);
      t' ← pure (show_dec z'); mret (snprintf_text 29 t')) (set_column i a) = (Ok t, set_column i a)).
    { rewrite (method_bind_ok E), Et, method_pure. by rewrite (snprintf_number z t Et). }
    destruct d; try discriminate Hw; exact Hint.
Qed.

(** The text of a column is the first bytes of its buffer. *)
Definition text_type (d : DataType) : bool :=
  match d with
  | NUMERIC | DECIMAL | CHAR | BINARY | VARCHAR | VARBINARY | LONGVARCHAR | LONGVARBINARY | SET
  | ENUM | JSON => true
  | _ => false
  end.

Lemma text_read i b d a :
  readable i b d a -> text_type d = true ->
  getString i a = (load_bytes (b_length b) (b_buffer b), set_column i a).
Proof using.
  intros Hr Ht. pose proof (readable_column i b d a i Hr) as Hr'.
  unfold PsResultSet.getString, getters_fuel.
  change (call_getString (getters 2)) with (PsResultSet.getString_body print_f (getters 1)).
  unfold getString_body.
  rewrite (guarded_value _ _ _ _ _ b d a Hr), (method_bind_ok (type_of i b d _ Hr')).
  by destruct d.
Qed.

(** Dates and times. *)
Definition print_as (d : DataType) (t : MYSQL_TIME) : outcome str :=
  match d with
  | TIMESTAMP => print_timestamp t
  | DATE => print_date t
  | TIME => print_time t
  | _ => Undefined
  end.

Lemma time_read i b d a t :
  readable i b d a -> b_buffer b = Some (Time t) -> d = TIMESTAMP \/ d = DATE \/ d = TIME ->
  getString i a = (print_as d t, set_column i a).
Proof using.
  intros Hr Hb Hd. pose proof (readable_column i b d a i Hr) as Hr'.
  unfold PsResultSet.getString, getters_fuel.
  change (call_getString (getters 2)) with (PsResultSet.getString_body print_f (getters 1)).
  unfold getString_body.
  rewrite (guarded_value _ _ _ _ _ b d a Hr), (method_bind_ok (type_of i b d _ Hr')).
  assert (E : pure (load_time (b_buffer b)) (set_column i a) = (Ok t, set_column i a))
    by (unfold pure; by rewrite Hb).
  destruct Hd as [-> | [-> | ->]]; exact (method_bind_ok E).
Qed.
End reading.

(** ** Facts: the texts of dates and times *)

Lemma print_dec_width fits fuel w i t :
  0 <= i < 10 ^ Z.of_nat w -> (0 < w)%nat -> print_dec fits fuel i = Ok t -> size t <= Z.of_nat w.
Proof.
  revert w i t. induction fuel as [|fuel IH]; intros w i t Hi Hw E; [done|].
  cbn [print_dec] in E. rewrite (proj2 (Z.ltb_ge i 0)), Z.geb_leb in E by lia.
  destruct (Z.leb_spec 10 i) as [H10|H10].
  - apply bind_Ok in E as (t1 & E1 & E). apply bind_Ok in E as (d & Ed & E). apply Ok_inj in E.
    subst t. destruct w as [|w]; [lia|].
    assert (0 < w)%nat by (destruct w; [simpl in Hi|]; lia).
    rewrite Nat2Z.inj_succ, Z.pow_succ_r in Hi by lia.
    apply (IH w) in E1; [|rewrite Z.quot_div_nonneg by lia; split|done].
    + apply digit_size in Ed. size_lia.
    + apply Z.div_pos; lia.
    + apply Z.div_lt_upper_bound; lia.
  - apply digit_size in E. lia.
Qed.

Lemma digits_val_zeros k t : digits_val 0 (repeat "0"%char k ++ t) = digits_val 0 t.
Proof. by induction k as [|k IH]. Qed.

(** A number of at most [w] digits is printed with [w] digits. *)
Lemma padded w z :
  0 <= z < 10 ^ Z.of_nat w -> (0 < w <= 19)%nat ->
  exists p, print_padded w z = Ok p /\ length p = w /\ digits_val 0 p = z.
Proof.
  intros Hz Hw. assert (Hb : 10 ^ Z.of_nat w <= 10 ^ 19) by (apply Z.pow_le_mono_r; lia).
  destruct (print_dec_pos (fun _ => true) 22 z) as (t & E & Ht & Hne & Hv); [lia|lia|].
  pose proof (print_dec_width _ _ w _ _ Hz ltac:(lia) E) as Hs.
  exists (repeat "0"%char (w - length t) ++ t). unfold print_padded, show_dec. rewrite E, obind_Ok.
  split; [|split].
  - unfold zero_pad. destruct t as [|c t]; [done|]. inversion Ht as [|? ? Hc _]; subst.
    by destruct c as [[] [] [] [] [] [] [] []].
  - rewrite length_app, repeat_length. unfold size in Hs. lia.
  - by rewrite digits_val_zeros.
Qed.

Lemma padded_member w z :
  0 <= z < 10 ^ Z.of_nat w -> (0 < w <= 9)%nat ->
  exists p, print_member w z = Ok p /\ length p = w /\ digits_val 0 p = z.
Proof.
  intros Hz Hw. assert (Hb : 10 ^ Z.of_nat w <= 10 ^ 9) by (apply Z.pow_le_mono_r; lia).
  unfold print_member. rewrite to_int_small by (unfold INT_MIN, INT_MAX; lia).
  apply padded; [done|lia].
Qed.

(** The number written in a part of a text. *)
Definition number_at (s : str) (pos len : nat) : Z := digits_val 0 (take len (drop pos s)).

Lemma number_at_app (x y z : str) : number_at (x ++ y ++ z) (length x) (length y) = digits_val 0 y.
Proof. unfold number_at. rewrite drop_app_length. by rewrite take_app_length. Qed.

(** The members of a time that are printed, in order. *)
Definition time_of_day (t : MYSQL_TIME) : Prop :=
  0 <= t_hour t <= 99 /\ 0 <= t_minute t <= 99 /\ 0 <= t_second t <= 99 /\
  0 <= t_second_part t < 10 ^ 6.
Definition day_of_year (t : MYSQL_TIME) : Prop :=
  0 <= t_year t <= 9999 /\ 0 <= t_month t <= 99 /\ 0 <= t_day t <= 99.

(** Where a clock that starts at [pos] puts its numbers. *)
Definition clock_at (s : str) (pos : nat) (t : MYSQL_TIME) : Prop :=
  number_at s pos 2 = t_hour t /\ number_at s (pos + 3) 2 = t_minute t /\
  number_at s (pos + 6) 2 = t_second t /\
  (t_second_part t <> 0 -> number_at s (pos + 9) 6 = t_second_part t) /\
  length s = (pos + if decide (t_second_part t = 0)%Z then 8 else 15)%nat.

Lemma number_at_split (s x y z : str) pos len v :
  s = x ++ y ++ z -> length x = pos -> length y = len -> digits_val 0 y = v ->
  number_at s pos len = v.
Proof. intros -> <- <- <-. apply number_at_app. Qed.

Lemma print_clock_text t :
  time_of_day t -> exists c, print_clock t = Ok c /\ forall pre, clock_at (pre ++ c) (length pre) t.
Proof.
  intros (Hh & Hm & Hs & Hp).
  destruct (padded_member 2 (t_hour t)) as (h & Eh & Lh & Vh); [lia|lia|].
  destruct (padded_member 2 (t_minute t)) as (m & Em & Lm & Vm); [lia|lia|].
  destruct (padded_member 2 (t_second t)) as (s & Es & Ls & Vs); [lia|lia|].
  destruct (padded 6 (t_second_part t)) as (p & Ep & Lp & Vp); [lia|lia|].
  unfold print_clock. rewrite Eh, Em, Es, !obind_Ok.
  rewrite to_size_t_small by lia. rewrite Ep, obind_Ok.
  destruct (Z.eqb_spec (t_second_part t) 0) as [E0|E0]; (eexists; split; [done|]); intros pre;
    unfold clock_at.
  - split; [|split; [|split; [|split]]].
    + eapply (number_at_split _ pre h); [done|done|done|done].
    + eapply (number_at_split _ (pre ++ h ++ ":") m); [by rewrite <- !app_assoc| |done|done].
      rewrite !length_app, Lh. done.
    + eapply (number_at_split _ (pre ++ h ++ ":" ++ m ++ ":") s []);
        [by rewrite app_nil_r, <- !app_assoc| |done|done].
      rewrite !length_app, Lh, Lm. done.
    + done.
    + rewrite decide_True by done. by rewrite !length_app, Lh, Lm, Ls.
  - split; [|split; [|split; [|split]]].
    + eapply (number_at_split _ pre h); [done|done|done|done].
    + eapply (number_at_split _ (pre ++ h ++ ":") m); [by rewrite <- !app_assoc| |done|done].
      rewrite !length_app, Lh. done.
    + eapply (number_at_split _ (pre ++ h ++ ":" ++ m ++ ":") s); [by rewrite <- !app_assoc| |done|done].
      rewrite !length_app, Lh, Lm. done.
    + intros _. eapply (number_at_split _ (pre ++ h ++ ":" ++ m ++ ":" ++ s ++ ".") p []);
        [by rewrite app_nil_r, <- !app_assoc| |done|done].
      rewrite !length_app, Lh, Lm, Ls. done.
    + rewrite decide_False by done. by rewrite !length_app, Lh, Lm, Ls, Lp.
Qed.

Lemma print_day_text w t :
  day_of_year t -> (0 < w <= 9)%nat -> t_year t < 10 ^ Z.of_nat w ->
  exists d, print_day w t = Ok d /\ length d = (w + 6)%nat /\
    forall rest, number_at (d ++ rest) 0 w = t_year t /\
      number_at (d ++ rest) (w + 1) 2 = t_month t /\ number_at (d ++ rest) (w + 4) 2 = t_day t.
Proof.
  intros (Hy & Hm & Hd) Hw Hyw.
  destruct (padded_member w (t_year t)) as (y & Ey & Ly & Vy); [lia|lia|].
  destruct (padded_member 2 (t_month t)) as (m & Em & Lm & Vm); [lia|lia|].
  destruct (padded_member 2 (t_day t)) as (d & Ed & Ld & Vd); [lia|lia|].
  unfold print_day. rewrite Ey, Em, Ed, !obind_Ok. eexists. split; [done|].
  split; [rewrite !length_app, Ly, Lm, Ld; simpl; lia|]. intros rest. split; [|split].
  - eapply (number_at_split _ [] y); [by rewrite <- !app_assoc|done|done|done].
  - eapply (number_at_split _ (y ++ "-") m); [by rewrite <- !app_assoc| |done|done].
    by rewrite !length_app, Ly.
  - eapply (number_at_split _ (y ++ "-" ++ m ++ "-") d); [by rewrite <- !app_assoc| |done|done].
    rewrite !length_app, Ly, Lm. simpl. lia.
Qed.

(** A timestamp is printed in full: every member can be read back. *)
Lemma timestamp_text t :
  day_of_year t -> time_of_day t ->
  exists s, print_timestamp t = Ok s /\ number_at s 0 4 = t_year t /\
    number_at s 5 2 = t_month t /\ number_at s 8 2 = t_day t /\ clock_at s 11 t.
Proof.
  intros Hd Hc. destruct (print_day_text 4 t Hd) as (d & Ed & Ld & Nd); [lia| |].
  { destruct Hd. lia. }
  destruct (print_clock_text t Hc) as (c & Ec & Hclock).
  specialize (Hclock (d ++ " ")). rewrite length_app, Ld in Hclock. rewrite <- app_assoc in Hclock.
  unfold print_timestamp. rewrite Ed, Ec, !obind_Ok. unfold snprintf_text.
  rewrite take_ge.
  - exists (d ++ " " ++ c). split; [done|]. destruct (Nd (" " ++ c)) as (N1 & N2 & N3). done.
  - destruct Hclock as (_ & _ & _ & _ & ->). case_decide; simpl; lia.
Qed.

Lemma time_text t :
  time_of_day t ->
  exists s, print_time t = Ok ((if t_neg t then "-" : str else []) ++ s) /\
    clock_at ((if t_neg t then "-" : str else []) ++ s) (if t_neg t then 1 else 0) t.
Proof.
  intros Hc. destruct (print_clock_text t Hc) as (c & Ec & Hclock).
  specialize (Hclock (if t_neg t then "-" : str else [])). exists c.
  unfold print_time. rewrite Ec, obind_Ok. unfold snprintf_text.
  replace (length (if t_neg t then "-" : str else [])) with (if t_neg t then 1 else 0)%nat in Hclock
    by by destruct (t_neg t).
  split; [|done]. rewrite take_ge; [done|].
  destruct Hclock as (_ & _ & _ & _ & ->). destruct (t_neg t); case_decide; simpl; lia.
Qed.

Lemma digits_val_below s : all_digits s -> 0 <= digits_val 0 s < 10 ^ size s.
Proof.
  induction s as [|c s IH] using rev_ind; intros Hs; [done|].
  apply Forall_app in Hs as [Hs Hc]. apply Forall_cons in Hc as [Hc _].
  rewrite (digits_val_snoc 0 s c Hs Hc). specialize (IH Hs). rewrite size_app.
  change (size [c]) with 1. rewrite Z.pow_add_r by (unfold size; lia).
  unfold isdigit in Hc. apply andb_true_iff in Hc as [H1 H2]. apply Nat.leb_le in H1, H2.
  unfold digit_val. lia.
Qed.

(** A number of [v] digits is not padded to fewer. *)
Lemma padded_wider w v z :
  10 ^ (Z.of_nat v - 1) <= z < 10 ^ 19 -> (w <= v)%nat -> print_padded w z = print_padded v z.
Proof.
  intros Hz Hw. assert (0 <= z) by (pose proof (Z.pow_nonneg 10 (Z.of_nat v - 1)); lia).
  destruct (print_dec_pos (fun _ => true) 22 z) as (t & E & Ht & Hne & Hv); [lia|lia|].
  pose proof (digits_val_below t Ht) as Hb. rewrite Hv in Hb.
  assert (Hl : (v <= length t)%nat).
  { destruct (decide (v <= length t)%nat) as [|Hlt]; [done|].
    assert (10 ^ size t <= 10 ^ (Z.of_nat v - 1)) by (apply Z.pow_le_mono_r; unfold size; lia). lia. }
  unfold print_padded, show_dec. rewrite E, !obind_Ok. f_equal. unfold zero_pad.
  replace (w - length t)%nat with 0%nat by lia. replace (v - length t)%nat with 0%nat by lia.
  destruct t as [|c t]; [done|]. cbn [length] in *.
  replace (w - 1 - length t)%nat with 0%nat by lia. by replace (v - 1 - length t)%nat with 0%nat by lia.
Qed.

(** A date is printed in full; its year takes four characters from 1000 on only. *)
Lemma date_text t w :
  day_of_year t -> 10 ^ (Z.of_nat w - 1) <= t_year t < 10 ^ Z.of_nat w -> (2 <= w <= 4)%nat ->
  exists s, print_date t = Ok s /\ length s = (w + 6)%nat /\ number_at s 0 w = t_year t /\
    number_at s (w + 1) 2 = t_month t /\ number_at s (w + 4) 2 = t_day t.
Proof.
  intros Hd Hy Hw. destruct (print_day_text w t Hd) as (d & Ed & Ld & Nd); [lia|lia|].
  assert (E2 : print_day 2 t = print_day w t).
  { unfold print_day, print_member. 
    rewrite (to_int_small (t_year t)) by (destruct Hd; unfold INT_MIN, INT_MAX; lia).
    by rewrite (padded_wider 2 w (t_year t)) by (destruct Hd; lia). }
  exists d. unfold print_date. rewrite E2, Ed, obind_Ok. unfold snprintf_text. rewrite take_ge by (simpl; lia).
  destruct (Nd []) as (N1 & N2 & N3). rewrite app_nil_r in *. done.
Qed.

(** ** Facts: the getters return *)

Section returning.
Context (C : CStatement) (LD : LongDouble).
Context (strtonum : str -> ld) (ld_of_float ld_of_double : str -> ld) (print_f : ld -> str).
Context (i : Z).

Local Abbreviation getDouble_body := (getDouble_body strtonum ld_of_float ld_of_double).
Local Abbreviation getString_body := (getString_body print_f).
Local Abbreviation getters := (getters strtonum ld_of_float ld_of_double print_f).

(** A value satisfies [P], and the fuel was enough. *)
Definition settled {A} (P : A -> Prop) (o : outcome A) : Prop :=
  match o with Ok x => P x | Diverged => False | _ => True end.

(** A method on a result whose column [i] has type [t] settles, and the type stays. *)
Definition calm {A} (t : outcome DataType) (P : A -> Prop) (m : Method Ps A) : Prop :=
  forall a, PsMetadata.getColumnType (rs_meta a) i = t ->
    settled P (m a).1 /\ rs_meta (m a).2 = rs_meta a.

Lemma calm_weaken {A} t (P Q : A -> Prop) m : calm t P m -> (forall x, P x -> Q x) -> calm t Q m.
Proof using.
  intros Hm HP a Ht. destruct (Hm a Ht) as [H1 H2]. split; [|done].
  destruct (m a).1; simpl in *; auto.
Qed.

Lemma calm_bind {A B} t (P : A -> Prop) (Q : B -> Prop) m (f : A -> Method Ps B) :
  calm t P m -> (forall x, P x -> calm t Q (f x)) -> calm t Q (m ≫= f).
Proof using.
  intros Hm Hf a Ht. destruct (Hm a Ht) as [H1 H2]. unfold mbind, Method_bind.
  destruct (m a) as [[x|e| |] a'] eqn:E; simpl in *; try done.
  destruct (Hf x H1 a') as [H3 H4]; [by rewrite H2|]. by rewrite H4.
Qed.

Lemma calm_ret {A} t (P : A -> Prop) x : P x -> calm t P (mret x).
Proof using. by intros HP a _. Qed.
Lemma calm_pure {A} t (P : A -> Prop) o : settled P o -> calm t P (pure o).
Proof using. by intros HP a _. Qed.
Lemma calm_read {A} t (P : A -> Prop) g : (forall a, P (g a)) -> calm t P (read g).
Proof using. intros HP a _. split; [apply HP|done]. Qed.
Lemma calm_column t x : calm t (fun _ => True) (update (set_column x)).
Proof using. by intros a _. Qed.
Lemma calm_throw {A} t (P : A -> Prop) e : calm t P (throw e : Method Ps A).
Proof using. by intros a _. Qed.

(** The type of the column is the given one. *)
Lemma calm_type {A} t (Q : A -> Prop) (f : DataType -> Method Ps A) :
  t <> Diverged -> (forall d, t = Ok d -> calm t Q (f d)) -> calm t Q (d ← getColumnType i; f d).
Proof using.
  intros Hd Hf a Ht. unfold getColumnType, read, pure, mbind, Method_bind. rewrite Ht.
  destruct t; try done. by apply Hf.
Qed.

Lemma calm_bind_of t : calm t (fun _ => True) (column_bind i).
Proof using.
  unfold column_bind. eapply calm_bind; [by apply (calm_read _ (fun _ => True))|].
  intros bs _. apply calm_pure. unfold arr_at. repeat case_match; done.
Qed.

Lemma calm_guarded {A} t (P : A -> Prop) name invalid zero get :
  calm t P invalid -> P zero -> (forall b, calm t P (get b)) ->
  calm t P (guarded name invalid i zero get).
Proof using.
  intros Hi Hz Hg. unfold guarded. eapply (calm_bind _ (fun _ => True)).
  { intros a _. unfold isBeforeFirstOrAfterLast, checkValid, isClosed, isScrollable, read, mbind,
      Method_bind. simpl. by destruct (is_valid a). }
  intros [] _; [apply calm_throw|]. eapply calm_bind; [by apply (calm_read _ (fun _ => True))|].
  intros n _. destruct (_ || _); [done|]. eapply calm_bind; [apply calm_column|]. intros _ _.
  eapply calm_bind; [apply calm_bind_of|]. intros b _.
  destruct (b_is_null b); [by apply calm_ret|done].
Qed.

(** ** What the buffers give *)

Lemma settled_weaken {A} (P Q : A -> Prop) o :
  settled P o -> (forall x, P x -> Q x) -> settled Q o.
Proof using. intros HP HQ. destruct o; simpl in *; auto. Qed.

Lemma settled_bind {A B} (P : A -> Prop) (Q : B -> Prop) o (f : A -> outcome B) :
  settled P o -> (forall x, P x -> settled Q (f x)) -> settled Q (o ≫= f).
Proof using. intros HP HQ. destruct o; simpl in *; auto. Qed.

Local Abbreviation any := (fun _ => True).

Lemma load_settled w buf :
  settled any (load_unsigned w buf) /\ settled any (load_signed w buf).
Proof using.
  unfold load_signed, load_unsigned. destruct buf as [[b|]|]; [|done|done].
  by destruct (w <=? length b)%nat.
Qed.

Lemma integer_of_settled b : settled any (integer_of b).
Proof using.
  unfold integer_of.
  assert (H : forall w, settled any (if b_is_null b then Ok 0
    else if b_is_unsigned b then load_unsigned w (b_buffer b) else load_signed w (b_buffer b))).
  { intros w. destruct (b_is_null b), (b_is_unsigned b); try done; apply load_settled. }
  repeat (destruct (_ =? _); [apply H|]). done.
Qed.

Lemma load_bytes_settled n buf : settled any (load_bytes n buf).
Proof using. unfold load_bytes. destruct buf as [[b|]|]; [|done|done]. by destruct (_ <=? _). Qed.

Lemma bits_of_settled b : settled any (bits_of b).
Proof using.
  unfold bits_of. destruct (_ && _); [|done].
  eapply settled_bind; [apply load_bytes_settled|]. intros s _. unfold bit_uintkorr.
  generalize (Z.to_nat (b_length b)), 0%nat. intros n. induction n as [|n IH]; intros j; [done|].
  cbn [bit_uintkorr_from]. eapply (settled_bind any).
  { unfold byte_at. destruct (s !! j); [done|]. by destruct (bool_decide _). }
  intros x _. eapply settled_bind; [apply IH|]. done.
Qed.

Lemma show_settled z : - 2 ^ 64 < z < 2 ^ 64 -> settled any (show_dec z).
Proof using. intros Hz. by destruct (show_dec_ok z Hz) as (t & -> & _). Qed.

Lemma member_settled w z : settled any (print_member w z).
Proof using.
  unfold print_member, print_padded. eapply settled_bind; [apply show_settled|done].
  unfold to_int. pose proof (Z.mod_pos_bound (z + 2 ^ 31) (2 ^ 32)). lia.
Qed.

Lemma day_settled w t : settled any (print_day w t).
Proof using.
  unfold print_day. repeat (eapply settled_bind; [apply member_settled|intros ? _]). done.
Qed.

Lemma clock_settled t : settled any (print_clock t).
Proof using.
  unfold print_clock. repeat (eapply settled_bind; [apply member_settled|intros ? _]).
  destruct (_ =? 0); [done|]. eapply (settled_bind any); [|done].
  unfold print_padded. eapply settled_bind; [apply show_settled|done].
  unfold to_size_t. pose proof (Z.mod_pos_bound (t_second_part t) (2 ^ 64)). lia.
Qed.

Lemma time_settled buf : settled any (load_time buf).
Proof using. by destruct buf as [[]|]. Qed.

Lemma calm_time t buf (f : MYSQL_TIME -> outcome str) :
  (forall v, settled any (f v)) -> calm t any (v ← pure (load_time buf); pure (f v)).
Proof using.
  intros Hf. eapply calm_bind; [apply calm_pure, time_settled|]. intros v _. by apply calm_pure.
Qed.

Lemma timestamp_settled v : settled any (print_timestamp v).
Proof using.
  unfold print_timestamp. eapply settled_bind; [apply day_settled|]. intros d _.
  eapply settled_bind; [apply clock_settled|done].
Qed.

Lemma date_settled v : settled any (print_date v).
Proof using. unfold print_date. eapply settled_bind; [apply day_settled|done]. Qed.

Lemma clock_time_settled v : settled any (print_time v).
Proof using. unfold print_time. eapply settled_bind; [apply clock_settled|done]. Qed.

Lemma cast_settled fits x : settled any (ld_cast fits x).
Proof using. unfold ld_cast. destruct (ld_to_Z x); [|done]. by destruct (fits z). Qed.

Definition in_word (z : Z) : Prop := - 2 ^ 64 < z < 2 ^ 64.

(** One step of a method, chosen by its form. *)
Ltac calm_step :=
  lazymatch goal with
  | |- calm _ _ (throw _) => apply calm_throw
  | |- calm _ _ (unhandled _) => apply calm_throw
  | |- calm _ _ (mret _) => by apply calm_ret
  | |- calm _ _ (pure (load_bytes _ _)) => apply calm_pure, load_bytes_settled
  | |- calm _ _ (pure (ld_cast _ _)) => apply calm_pure, cast_settled
  | |- calm _ _ (pure (load_time _) ≫= (fun v => pure (print_timestamp v))) =>
      exact (calm_time _ _ print_timestamp timestamp_settled)
  | |- calm _ _ (pure (load_time _) ≫= (fun v => pure (print_date v))) =>
      exact (calm_time _ _ print_date date_settled)
  | |- calm _ _ (pure (load_time _) ≫= (fun v => pure (print_time v))) =>
      exact (calm_time _ _ print_time clock_time_settled)
  | |- calm _ _ (pure (load_bytes _ _) ≫= _) =>
      eapply calm_bind; [apply calm_pure, load_bytes_settled|intros x _]
  | |- calm _ _ (column_bind _ ≫= _) => eapply calm_bind; [apply calm_bind_of|intros b _]
  | |- calm _ _ (pure (integer_of _) ≫= _) =>
      eapply calm_bind; [apply calm_pure, integer_of_settled|intros z _]
  | |- calm _ _ (pure (bits_of _) ≫= _) =>
      eapply calm_bind; [apply calm_pure, bits_of_settled|intros z _]
  | H : in_word ?z |- calm _ _ (pure (show_dec ?z) ≫= _) =>
      eapply calm_bind; [apply calm_pure, (show_settled z H)|intros s _]
  | |- calm _ _ (if ?b then _ else _) => destruct b
  | H : _ = true -> calm _ _ ?m |- calm _ _ (?m ≫= _) => eapply calm_bind; [exact (H eq_refl)|intros ? _]
  | H : _ = true -> calm _ _ ?m /\ calm _ _ _ |- calm _ _ (?m ≫= _) =>
      eapply calm_bind; [exact (proj1 (H eq_refl))|intros ? ?]
  | H : _ = true -> calm _ _ _ /\ calm _ _ ?m |- calm _ _ (?m ≫= _) =>
      eapply calm_bind; [exact (proj2 (H eq_refl))|intros ? ?]
  | H : _ = true -> calm _ _ _ /\ calm _ _ _ |- calm _ _ ((if ?b then _ else _) ≫= _) => destruct b
  end.

(** ** The calls that make no further ones *)

Definition number_type (d : DataType) : bool :=
  match d with
  | BIT | YEAR | TINYINT | SMALLINT | MEDIUMINT | INTEGER | BIGINT => true
  | _ => false
  end.
Definition real_type (d : DataType) : bool :=
  match d with REAL | DOUBLE => true | _ => false end.
Definition string_type (d : DataType) : bool :=
  text_type d || match d with TIMESTAMP | DATE | TIME => true | _ => false end.

Lemma to_int64_word z : in_word (to_int64 z).
Proof using. unfold in_word, to_int64. pose proof (Z.mod_pos_bound (z + 2 ^ 63) (2 ^ 64)). lia. Qed.
Lemma to_size_t_word z : in_word (to_size_t z).
Proof using. unfold in_word, to_size_t. pose proof (Z.mod_pos_bound z (2 ^ 64)). lia. Qed.

Lemma calm_word t o (cast : Z -> Z) :
  settled any o -> (forall z, in_word (cast z)) -> calm t in_word (z ← pure o; mret (cast z)).
Proof using.
  intros Ho Hc. eapply calm_bind; [by apply calm_pure|]. intros z _. by apply calm_ret.
Qed.

Lemma number_leaf g d :
  number_type d = true ->
  calm (Ok d) in_word (getInt64_intern_body g i) /\ calm (Ok d) in_word (getUInt64_intern_body g i).
Proof using.
  intros Hd. unfold getInt64_intern_body, getUInt64_intern_body.
  split; (apply calm_type; [done|]); intros d' [= <-];
    destruct d; try discriminate Hd;
    (eapply calm_bind; [apply calm_bind_of|]); intros b _; apply calm_word;
    first [apply integer_of_settled|apply bits_of_settled|apply to_int64_word|apply to_size_t_word].
Qed.

Lemma real_leaf g d : real_type d = true -> calm (Ok d) any (getDouble_body g i).
Proof using.
  intros Hd. unfold getDouble_body. apply calm_guarded; [apply calm_throw|done|].
  intros b. apply calm_type; [done|]. intros d' [= <-].
  destruct d; try discriminate Hd; repeat calm_step.
Qed.

Lemma string_leaf g d : string_type d = true -> calm (Ok d) any (getString_body g i).
Proof using.
  intros Hd. unfold getString_body. apply calm_guarded; [apply calm_throw|done|].
  intros b. apply calm_type; [done|]. intros d' [= <-].
  destruct d; try discriminate Hd; repeat calm_step.
Qed.

(** ** All calls *)

(** Calls that settle where they make no further ones. *)
Record calm_calls (g : Getters) : Prop := {
  cc_number d : number_type d = true ->
    calm (Ok d) in_word (call_getInt64_intern g i) /\
    calm (Ok d) in_word (call_getUInt64_intern g i);
  cc_real d : real_type d = true -> calm (Ok d) any (call_getDouble g i);
  cc_string d : string_type d = true -> calm (Ok d) any (call_getString g i);
}.

Lemma getters_calm_calls fuel : calm_calls (getters (S fuel)).
Proof using. split; intros d Hd; [by apply number_leaf|by apply real_leaf|by apply string_leaf]. Qed.

Variable t : outcome DataType.
Context (Ht : t <> Diverged).

Lemma getDouble_calm g : calm_calls g -> calm t any (getDouble_body g i).
Proof using Ht.
  intros [Hn _ Hs]. unfold getDouble_body. apply calm_guarded; [apply calm_throw|done|].
  intros b. apply calm_type; [done|]. intros d ->. specialize (Hn d). specialize (Hs d).
  destruct d; repeat calm_step.
Qed.

Lemma getString_calm g : calm_calls g -> calm t any (getString_body g i).
Proof using Ht.
  intros [Hn Hr _]. unfold getString_body. apply calm_guarded; [apply calm_throw|done|].
  intros b. apply calm_type; [done|]. intros d ->. specialize (Hn d). specialize (Hr d).
  destruct d; repeat calm_step.
Qed.

Lemma getInt64_calm g :
  calm_calls g ->
  calm t any (getInt64_intern_body g i) /\ calm t any (getUInt64_intern_body g i).
Proof using Ht.
  intros [_ Hr Hs]. unfold getInt64_intern_body, getUInt64_intern_body.
  split; (apply calm_type; [done|]); intros d ->; specialize (Hr d); specialize (Hs d);
    destruct d; repeat calm_step.
Qed.
End returning.

(** The type of a column is found without fuel. *)
Lemma known_charset_found {A} n (x : A) : known_charset n x <> Diverged.
Proof.
  unfold known_charset. rewrite find_charset_find, obind_Ok. destruct (List.find _ _); [done|].
  unfold unknown_charset. pose proof (Z.mod_pos_bound n (2 ^ 32)).
  by destruct (show_dec_ok (n mod 2 ^ 32)) as (s & -> & _); [lia|].
Qed.

Lemma column_type_found `{FieldFlags} m i : PsMetadata.getColumnType m i <> Diverged.
Proof.
  unfold PsMetadata.getColumnType, with_field, checked, checkColumnIndex, getFieldMeta.
  destruct (_ || _); [done|]. rewrite !obind_Ok. unfold mysql_type_to_datatype.
  destruct (f_type _); try discriminate; apply known_charset_found.
Qed.
