(* ===== verification/PreparedStatement.v ===== *)
(** * mysqlconnector jdbc/driver/mysql_prepared_statement.{h,cpp}: prepared statements

    [MySQL_Prepared_Statement] sets the parameters of a statement, binds and executes
    it through the C API ([CPrepared], the calls that
    nativeapi/mysql_native_statement_wrapper.cpp forwards) and gives its results.
    [LongDataSender] sends the values that are too long for a buffer in chunks.
    Logging is left out. *)

From S2P Require Import Prelude Cxx Str Cursor Fields PsMetadata ResultBind PsResultSet.
From S2P Require Import ParamBind Warnings.

(** ** The C API *)

Class CPrepared (C : CStatement) := {
  stmt_param_count : stmt -> Z;
  (** [mysql_stmt_bind_param]: whether it failed *)
  stmt_bind_param : stmt -> list MYSQL_BIND -> bool * stmt;
  (** [mysql_stmt_send_long_data]: whether it failed *)
  stmt_send_long_data : stmt -> Z -> str -> bool * stmt;
  (** [mysql_stmt_execute] reads the buffers of the bound parameters *)
  stmt_execute : stmt -> heap -> Z * stmt;
  stmt_errno : stmt -> Z;
  stmt_affected_rows : stmt -> Z;
  stmt_warning_count : stmt -> Z;
  (** [mysql_stmt_attr_set] with [STMT_ATTR_UPDATE_MAX_LENGTH] *)
  stmt_update_max_length : stmt -> stmt;
  stmt_store_result : stmt -> Z * stmt;
  stmt_more_results : stmt -> bool;
  stmt_next_result : stmt -> Z * stmt;
  CR_OUT_OF_MEMORY : Z;
  CR_INVALID_BUFFER_USE : Z;
}.

(** The further enumerator of [enum_type]. *)
Definition TYPE_SCROLL_SENSITIVE : Z := 2.

Definition to_uint (z : Z) : Z := z mod 2 ^ 32.

Section statement.
Context `{CPrepared} `{Session}.

Record Pst := MkPst {
  proxy : option stmt;
  param_bind : MySQL_ParamBind;
  memory : heap;
  param_count : Z;
  warnings : option MySQL_Warning;
  isClosed : bool;
  warningsHaveBeenLoaded : bool;
  res_meta : Psm;
  param_meta : Z;
  resultset_type : Z;
  warningsCount : Z;
}.

Local Abbreviation method := (Method Pst).

Definition set_proxy (x : option stmt) (a : Pst) : Pst :=
  MkPst x (param_bind a) (memory a) (param_count a) (warnings a) (isClosed a)
    (warningsHaveBeenLoaded a) (res_meta a) (param_meta a) (resultset_type a) (warningsCount a).
Definition set_params (x : MySQL_ParamBind) (h : heap) (a : Pst) : Pst :=
  MkPst (proxy a) x h (param_count a) (warnings a) (isClosed a)
    (warningsHaveBeenLoaded a) (res_meta a) (param_meta a) (resultset_type a) (warningsCount a).
Definition set_warnings (x : option MySQL_Warning) (a : Pst) : Pst :=
  MkPst (proxy a) (param_bind a) (memory a) (param_count a) x (isClosed a)
    (warningsHaveBeenLoaded a) (res_meta a) (param_meta a) (resultset_type a) (warningsCount a).
Definition set_closed (x : bool) (a : Pst) : Pst :=
  MkPst (proxy a) (param_bind a) (memory a) (param_count a) (warnings a) x
    (warningsHaveBeenLoaded a) (res_meta a) (param_meta a) (resultset_type a) (warningsCount a).
Definition set_loaded (x : bool) (a : Pst) : Pst :=
  MkPst (proxy a) (param_bind a) (memory a) (param_count a) (warnings a) (isClosed a)
    x (res_meta a) (param_meta a) (resultset_type a) (warningsCount a).
Definition set_warningsCount (x : Z) (a : Pst) : Pst :=
  MkPst (proxy a) (param_bind a) (memory a) (param_count a) (warnings a) (isClosed a)
    (warningsHaveBeenLoaded a) (res_meta a) (param_meta a) (resultset_type a) x.

(** [MySQL_Prepared_Statement::MySQL_Prepared_Statement], over the heap [h]. *)
Definition Pst_new (s : stmt) (rset_type : Z) (h : heap) : Pst :=
  let n := to_uint (stmt_param_count s) in
  MkPst (Some s) (ParamBind_new (Z.to_nat n)) h n None false true
    (Psm_new (stmt_field s) (stmt_field_count s)) n rset_type 0.

(** A method of [param_bind]. *)
Definition on_params {A} (m : Method (MySQL_ParamBind * heap) A) : method A := fun a =>
  let '(o, (p, h)) := m (param_bind a, memory a) in (o, set_params p h a).

(** The statement behind [proxy], and a call that changes it. *)
Definition get_proxy : method stmt := s ← read proxy; pure (deref s).
Definition call_proxy {A} (f : stmt -> A * stmt) : method A :=
  s ← get_proxy;
  let '(x, s') := f s in
  _ ← update (set_proxy (Some s')); mret x.

(** [util::throwSQLException] *)
Definition throwSQLException {A} : method A := s ← get_proxy; throw (SqlError (stmt_error s)).

Definition checkClosed : method unit :=
  c ← read isClosed;
  if (c : bool) then throw (InvalidInstance "Statement has been closed") else mret tt.

(** ** Long data *)

Definition MAX_SEND_LONGDATA_BUFFER : Z := Z.shiftl 1 18.
Definition MAX_SEND_LONGDATA_CHUNK : Z := Z.shiftl 1 18.

(** A call of [send_long_data] and what is thrown when it fails. *)
Definition send_chunk (position : Z) (data : str) : method unit :=
  failed ← call_proxy (fun s => stmt_send_long_data s position data);
  if (failed : bool) then
    s ← get_proxy;
    if stmt_errno s =? CR_OUT_OF_MEMORY then throw BadAlloc
    else if stmt_errno s =? CR_INVALID_BUFFER_USE then
      throw (SqlInvalidArgument
        "MySQL_Prepared_Statement::setBlob: can't set blob value on that column")
    else throwSQLException
  else mret tt.

(** [n] bytes from [c_str() + sent]: the terminating NUL can be read too. *)
Definition bytes_from (s : str) (sent n : Z) : outcome str :=
  if sent + n <=? size s + 1 then
    Ok (take (Z.to_nat n) (drop (Z.to_nat sent) (s ++ ["000"%char])))
  else Undefined.

(** The size of the next chunk, in [unsigned int]. *)
Definition chunk_size (s : str) (sent : Z) : Z :=
  if size s <? to_uint (sent + MAX_SEND_LONGDATA_CHUNK) then to_uint (size s - sent)
  else MAX_SEND_LONGDATA_CHUNK.

(** The [while] loop of [LongDataSender::operator()] for strings. *)
Fixpoint send_string (fuel : nat) (position : Z) (s : str) (sent : Z) : method bool :=
  match fuel with
  | O => pure Diverged
  | S fuel' =>
      if sent <? size s then
        let chunkSize := chunk_size s sent in
        data ← pure (bytes_from s sent chunkSize);
        _ ← send_chunk position data;
        send_string fuel' position s (to_uint (sent + chunkSize))
      else mret true
  end.

(** [istream::read]: up to [n] bytes; the end of the file and a failure below set the
    flags of the stream. *)
Definition stream_read (n : Z) (s : istream) : str * istream :=
  if s_eof s || s_fail s || s_bad s then
    ([], MkStream (s_rest s) (s_broken s) (s_eof s) true (s_bad s))
  else if n <=? size (s_rest s) then
    (take (Z.to_nat n) (s_rest s),
     MkStream (drop (Z.to_nat n) (s_rest s)) (s_broken s) false false false)
  else if s_broken s then (s_rest s, MkStream [] true false false true)
  else (s_rest s, MkStream [] false true true false).

Definition stream_at (l : positive) : method istream :=
  h ← read memory;
  match h !! l with Some (IStream s) => mret s | _ => pure Undefined end.
Definition put_stream (l : positive) (s : istream) : method unit :=
  update (fun a => set_params (param_bind a) (<[l := IStream s]> (memory a)) a).

(** The [do] loop of [LongDataSender::operator()] for streams. *)
Fixpoint send_stream (fuel : nat) (position : Z) (l : positive) : method bool :=
  match fuel with
  | O => pure Diverged
  | S fuel' =>
      s ← stream_at l;
      if s_eof s then mret true
      else
        let '(data, s') := stream_read MAX_SEND_LONGDATA_BUFFER s in
        _ ← put_stream l s';
        if s_bad s' then throw (SqlError "Error while reading from blob (bad)")
        else if s_fail s' && negb (s_eof s') then
          throw (SqlError "Error while reading from blob (fail)")
        else
          _ ← send_chunk position data;
          send_stream fuel' position l
  end.

(** [boost::apply_visitor(lv, dummy)] *)
Definition LongDataSender (fuel : nat) (position : Z) (b : Blob_t) : method bool :=
  match b with
  | BStream None | BString None => mret false
  | BStream (Some l) => send_stream fuel position l
  | BString (Some l) =>
      h ← read memory;
      match h !! l with Some (SqlStr s) => send_string fuel position s 0 | _ => pure Undefined end
  end.

(** The loop over the parameters; the visitor's answer is not used. *)
Definition send_param (fuel : nat) (i : Z) : method unit :=
  param ← on_params (get_bind i);
  if decide (m_type param = MYSQL_TYPE_LONG_BLOB) then
    b ← on_params (getBlobObject i); _ ← LongDataSender fuel i b; mret tt
  else mret tt.
Fixpoint send_each (fuel : nat) (l : list Z) : method unit :=
  match l with
  | [] => mret tt
  | i :: l' => _ ← send_param fuel i; send_each fuel l'
  end.
Definition sendLongDataBeforeParamBind (fuel : nat) : method bool :=
  n ← read param_count;
  _ ← send_each fuel (indices (Z.to_nat n)); mret true.

(** ** Executing *)

Definition do_query (fuel : nat) : method unit :=
  n ← read param_count;
  all ← on_params isAllSet;
  _ ← (if negb (n =? 0) && negb all then throw (SqlError "Value not set for all parameters")
       else mret tt);
  binds ← on_params (read (fun s => bind s.1));
  failed ← call_proxy (fun s => stmt_bind_param s binds);
  _ ← (if (failed : bool) then throwSQLException else mret tt);
  sent ← sendLongDataBeforeParamBind fuel;
  r ← (if (sent : bool) then h ← read memory; call_proxy (fun s => stmt_execute s h) else mret 0);
  _ ← (if negb sent || negb (r =? 0) then throwSQLException else mret tt);
  s ← get_proxy;
  _ ← update (set_warningsCount (stmt_warning_count s));
  update (set_loaded false).

Definition clearParameters : method unit :=
  _ ← checkClosed; on_params ParamBind.clearParameters.

Definition execute (fuel : nat) : method bool :=
  _ ← checkClosed; _ ← do_query fuel;
  s ← get_proxy; mret (0 <? stmt_field_count s).

(** What [executeQuery] and [getResultSet] do with the result; [owners] counts the
    owners of the buffers. *)
Definition open_result (owners : Z) : method Ps :=
  _ ← call_proxy (fun s => (tt, stmt_update_max_length s));
  t ← read resultset_type;
  _ ← (if t =? TYPE_SCROLL_INSENSITIVE then
         r ← call_proxy stmt_store_result;
         if negb (r =? 0) then throwSQLException else mret tt
       else if t =? TYPE_FORWARD_ONLY then mret tt
       else throw (SqlError "Invalid value for result set type"));
  s ← get_proxy;
  rs ← pure (Ps_new s owners t);
  _ ← update (set_proxy (Some (PsResultSet.proxy rs))); mret rs.

Definition executeQuery (fuel : nat) (owners : Z) : method Ps :=
  _ ← checkClosed; _ ← do_query fuel; open_result owners.
Definition getResultSet (owners : Z) : method Ps := _ ← checkClosed; open_result owners.

Definition executeUpdate (fuel : nat) : method Z :=
  _ ← checkClosed; _ ← do_query fuel;
  s ← get_proxy; mret (to_int (stmt_affected_rows s)).

Definition getMoreResults : method bool :=
  _ ← checkClosed;
  s ← get_proxy;
  if stmt_more_results s then
    next_result ← call_proxy stmt_next_result;
    if next_result =? 0 then s ← get_proxy; mret (negb (stmt_field_count s =? 0))
    else if next_result =? -1 then
      throw (SqlError "Impossible! more_results() said true, next_result says no more results")
    else throwSQLException
  else mret false.

(** ** Setting parameters *)

Definition check_index (name : str) (parameterIndex : Z) : method unit :=
  n ← read param_count;
  if (parameterIndex =? 0) || (n <? parameterIndex) then
    throw (SqlInvalidArgument
      ("MySQL_Prepared_Statement::" ++ name ++ ": invalid 'parameterIndex'"))
  else mret tt.

(** The block that drops the value of a parameter. *)
Definition drop_value (i : Z) : method unit :=
  on_params (_ ← ParamBind.setBlob i (BStream None) false; unset i).

(** The buffer of a type, nothing written to it, and its size. *)
Definition allocate_buffer_for_type (t : enum_field_types)
    : Method (MySQL_ParamBind * heap) (pointer * Z) :=
  match t with
  | MYSQL_TYPE_LONG => l ← new_object (Chars (replicate 4 None)); mret (Some l, 4)
  | MYSQL_TYPE_DOUBLE | MYSQL_TYPE_LONGLONG =>
      l ← new_object (Chars (replicate 8 None)); mret (Some l, 8)
  | MYSQL_TYPE_STRING | MYSQL_TYPE_NULL => mret (None, 0)
  | _ => throw (SqlInvalidArgument "allocate_buffer_for_type: invalid result_bind data type")
  end.

(** [memcpy(dst, src, n)] *)
Definition memcpy (dst : pointer) (src : str) (n : Z) : Method (MySQL_ParamBind * heap) unit :=
  fun '(a, h) =>
  match dst with
  | Some l =>
      match h !! l with
      | Some (Chars c) =>
          if decide (Z.to_nat n <= length src /\ Z.to_nat n <= length c)%nat then
            (Ok tt, (a, <[l := Chars (map Some (take (Z.to_nat n) src) ++ drop (Z.to_nat n) c)]> h))
          else (Undefined, (a, h))
      | _ => (Undefined, (a, h))
      end
  | None => (Undefined, (a, h))
  end.

(** The block that stores a number of the type [t] with the bytes [value];
    [is_unsigned] is set or left as it is. *)
Definition store_number (i : Z) (t : enum_field_types) (value : str) (unsigned : bool)
    : Method (MySQL_ParamBind * heap) unit :=
  '(p, n) ← allocate_buffer_for_type t;
  _ ← set i;
  param ← get_bind i;
  _ ← delete_object KChars (m_buffer param);
  _ ← delete_object KULong (m_length param);
  _ ← put_bind i (MkParam t p 0 None false (if unsigned then true else m_is_unsigned param));
  memcpy p value n.

(** A setter of numbers: [name] is the one its error message has. *)
Definition set_number (name : str) (parameterIndex : Z) (t : enum_field_types) (value : str)
    (unsigned : bool) : method unit :=
  _ ← checkClosed;
  _ ← check_index name parameterIndex;
  _ ← drop_value (parameterIndex - 1);
  on_params (store_number (parameterIndex - 1) t value unsigned).

(** The integers are in the order of the host; a double is given by its bits. *)
Definition setInt (parameterIndex value : Z) : method unit :=
  set_number "setInt" parameterIndex MYSQL_TYPE_LONG (le_split 4 value) false.
Definition setUInt (parameterIndex value : Z) : method unit :=
  set_number "setInt" parameterIndex MYSQL_TYPE_LONG (le_split 4 value) true.
Definition setInt64 (parameterIndex value : Z) : method unit :=
  set_number "setInt64" parameterIndex MYSQL_TYPE_LONGLONG (le_split 8 value) false.
Definition setUInt64 (parameterIndex value : Z) : method unit :=
  set_number "setUInt64" parameterIndex MYSQL_TYPE_LONGLONG (le_split 8 value) true.
Definition setDouble (parameterIndex bits : Z) : method unit :=
  set_number "setDouble" parameterIndex MYSQL_TYPE_DOUBLE (le_split 8 bits) false.
Definition setBoolean (parameterIndex : Z) (value : bool) : method unit :=
  setInt parameterIndex (if value then 1 else 0).

Definition store_null (i : Z) : Method (MySQL_ParamBind * heap) unit :=
  _ ← set i;
  param ← get_bind i;
  _ ← delete_object KChars (m_buffer param);
  _ ← delete_object KULong (m_length param);
  put_bind i (MkParam MYSQL_TYPE_NULL None (m_buffer_length param) None
    (m_is_null_value param) (m_is_unsigned param)).
Definition setNull (parameterIndex : Z) : method unit :=
  _ ← checkClosed;
  _ ← check_index "setNull" parameterIndex;
  _ ← drop_value (parameterIndex - 1);
  on_params (store_null (parameterIndex - 1)).

Definition store_text (i : Z) (value : str) : Method (MySQL_ParamBind * heap) unit :=
  _ ← set i;
  param ← get_bind i;
  _ ← delete_object KChars (m_buffer param);
  p ← new_object (chars (value ++ ["000"%char]));
  _ ← delete_object KULong (m_length param);
  l ← new_object (ULong (size value));
  put_bind i (MkParam MYSQL_TYPE_STRING (Some p) (size value + 1) (Some l) false
    (m_is_unsigned param)).
Definition setString (parameterIndex : Z) (value : str) : method unit :=
  _ ← checkClosed;
  _ ← check_index "setString" parameterIndex;
  if 256 * 1024 <? size value then
    on_params (pvalue ← new_object (SqlStr value);
               ParamBind.setBlob (parameterIndex - 1) (BString (Some pvalue)) true)
  else
    _ ← drop_value (parameterIndex - 1);
    on_params (store_text (parameterIndex - 1) value).
Definition setBigInt (parameterIndex : Z) (value : str) : method unit :=
  setString parameterIndex value.
Definition setDateTime (parameterIndex : Z) (value : str) : method unit :=
  setString parameterIndex value.

Definition setBlob (parameterIndex : Z) (blob : pointer) : method unit :=
  _ ← checkClosed;
  _ ← check_index "setBlob" parameterIndex;
  on_params (ParamBind.setBlob (parameterIndex - 1) (BStream blob) false).

(** ** The other methods *)

Definition clearWarnings : method unit := _ ← checkClosed; update (set_warnings None).

Definition getWarnings : method (option MySQL_Warning) :=
  _ ← checkClosed;
  l ← read warningsHaveBeenLoaded;
  _ ← (if negb l then
         n ← read warningsCount;
         _ ← (if negb (n =? 0) then
                w ← pure (loadMysqlWarnings n); update (set_warnings w)
              else mret tt);
         update (set_loaded true)
       else mret tt);
  read warnings.

Definition getMetaData : method Psm := _ ← checkClosed; read res_meta.
Definition getParameterMetaData : method Z := _ ← checkClosed; read param_meta.
Definition getResultSetType : method Z := _ ← checkClosed; read resultset_type.

(** [closeIntern], [close] and the destructor, with that of [param_bind]. *)
Definition closeIntern : method unit :=
  _ ← update (set_proxy None);
  _ ← clearParameters;
  _ ← clearWarnings;
  update (set_closed true).
Definition close : method unit := _ ← checkClosed; closeIntern.
Definition Pst_delete : method unit :=
  c ← read isClosed;
  _ ← (if (c : bool) then mret tt else closeIntern);
  on_params ParamBind_delete.

(** The methods that are not implemented; those that take a query do not look
    whether the statement is closed. *)
Definition not_implemented {A} (name : str) : method A :=
  throw (MethodNotImplemented ("MySQL_Prepared_Statement::" ++ name)).
Definition unsupported {A} (name : str) : method A := _ ← checkClosed; not_implemented name.

Definition execute_sql (sql : str) : method bool := not_implemented "execute".
Definition executeQuery_sql (sql : str) : method Ps := not_implemented "executeQuery".
Definition executeUpdate_sql (sql : str) : method Z := not_implemented "executeUpdate".
Definition cancel : method unit := unsupported "cancel".
Definition getFetchSize : method Z := unsupported "getFetchSize".
Definition setFetchSize (n : Z) : method unit := unsupported "setFetchSize".
Definition setQueryTimeout (n : Z) : method unit := unsupported "setQueryTimeout".
Definition getMaxFieldSize : method Z := unsupported "getMaxFieldSize".
Definition getMaxRows : method Z := unsupported "getMaxRows".
Definition getQueryTimeout : method Z := unsupported "getQueryTimeout".
Definition getUpdateCount : method Z := unsupported "getUpdateCount".
Definition setCursorName (name : str) : method unit := unsupported "setCursorName".
Definition setEscapeProcessing (b : bool) : method unit := unsupported "setEscapeProcessing".
Definition setMaxFieldSize (n : Z) : method unit := unsupported "setMaxFieldSize".
Definition setMaxRows (n : Z) : method unit := unsupported "setMaxRows".
Definition setResultSetConcurrency (n : Z) : method unit := unsupported "setResultSetConcurrency".
Definition setResultSetType (t : Z) : method unit := unsupported "setResultSetType".
End statement.
