(* ===== verification/BoundValues.v ===== *)
(** * The values of the parameters of a prepared statement

    The setters of [PreparedStatement] against an abstract specification: a list of
    values with a flag for unsigned numbers.  What the server receives is described by
    the documented behaviour of the C API ([PreparedClient]); a client that follows it
    shows that it can be met. *)

From S2P Require Import Prelude Cxx Str Cursor Fields PsMetadata ResultBind PsResultSet.
From S2P Require Import ParamBind Warnings PreparedStatement.

(** ** Storing values *)

(** The size of the buffer of a type. *)
Definition number_size (t : enum_field_types) : option nat :=
  match t with
  | MYSQL_TYPE_LONG => Some 4%nat
  | MYSQL_TYPE_DOUBLE | MYSQL_TYPE_LONGLONG => Some 8%nat
  | _ => None
  end.

Lemma allocate_spec base t w (a : MySQL_ParamBind) L h :
  number_size t = Some w -> owns L base h ->
  exists l h', allocate_buffer_for_type t (a, h) = (Ok (Some l, Z.of_nat w), (a, h')) /\
    owns ((l, Chars (replicate w None)) :: L) base h'.
Proof.
  intros Hw Ho. exists (fresh (dom h)), (<[fresh (dom h) := Chars (replicate w None)]> h).
  split; [|by apply owns_new]. by destruct t; try done; injection Hw as <-.
Qed.

Lemma memcpy_spec base (a : MySQL_ParamBind) L h l w s :
  length s = w -> owns ((l, Chars (replicate w None)) :: L) base h ->
  exists h', memcpy (Some l) s (Z.of_nat w) (a, h) = (Ok tt, (a, h')) /\
    owns ((l, chars s) :: L) base h'.
Proof.
  intros Hs Ho. unfold memcpy.
  rewrite (owns_lookup _ _ _ l _ Ho) by by apply elem_of_cons; left.
  rewrite Nat2Z.id, decide_True by (rewrite length_replicate; lia).
  rewrite take_ge, drop_ge, app_nil_r by (rewrite ?length_replicate; lia).
  eexists. split; [done|]. by eapply owns_update.
Qed.

Lemma delete_null k a h : delete_object k None (a, h) = (Ok tt, (a, h)).
Proof. done. Qed.

Section stores.
Context (p : MySQL_ParamBind) (i : nat) (Hp : sized p) (Hi : (i < ParamBind.param_count p)%nat).
Context (F : cells) (base : heap) (u : bool) (k : positive).

Abbreviation dropped h := (put_slot i (dropped_slot u k) p, h : heap).

Lemma store_number_slot t w s x h :
  number_size t = Some w -> length s = w -> owns ((k, ULong 0) :: F) base h ->
  exists t' l h', store_number (Z.of_nat i) t s x (dropped h) = (Ok tt, (put_slot i t' p, h')) /\
    holds t' (Number t s) [(l, chars s)] /\ m_is_unsigned (t_bind t') = x || u /\
    owns ((l, chars s) :: F) base h'.
Proof using Hp Hi.
  intros Hw Hs Ho. unfold store_number, set.
  destruct (allocate_spec base t w (put_slot i (dropped_slot u k) p) _ h Hw Ho) as (l & h1 & E1 & H1).
  rewrite (method_bind_ok E1), (method_bind_ok (put_set_slot p i Hp Hi true _ h1)).
  rewrite (method_bind_ok (get_bind_slot p i Hp Hi _ h1)). unfold dropped_slot. cbn [t_bind m_buffer m_length t_delete t_blob].
  rewrite (method_bind_ok (delete_null _ _ h1)).
  rewrite perm_swap in H1.
  destruct (delete_owned KULong _ base (put_slot i (MkSlot (MkParam MYSQL_TYPE_LONG_BLOB None 0 (Some k)
    false u) true false None) p) h1 (Some k) (ULong 0) H1 eq_refl) as (h2 & E2 & H2).
  rewrite (method_bind_ok E2), (method_bind_ok (put_bind_slot p i Hp Hi _ _ h2)).
  cbn [t_set t_delete t_blob].
  set (t' := MkSlot _ true false None).
  destruct (memcpy_spec base (put_slot i t' p) F h2 l w s Hs H2) as (h3 & E3 & H3).
  exists t', l, h3. split; [exact E3|]. split; [constructor|]. split; [|done]. by destruct x.
Qed.

Lemma store_null_slot h :
  owns ((k, ULong 0) :: F) base h ->
  exists t' h', store_null (Z.of_nat i) (dropped h) = (Ok tt, (put_slot i t' p, h')) /\
    holds t' Null [] /\ m_is_unsigned (t_bind t') = u /\ owns F base h'.
Proof using Hp Hi.
  intros Ho. unfold store_null, set.
  rewrite (method_bind_ok (put_set_slot p i Hp Hi true _ h)).
  rewrite (method_bind_ok (get_bind_slot p i Hp Hi _ h)). unfold dropped_slot.
  cbn [t_bind m_buffer m_length t_delete t_blob]. rewrite (method_bind_ok (delete_null _ _ h)).
  destruct (delete_owned KULong _ base (put_slot i (MkSlot (MkParam MYSQL_TYPE_LONG_BLOB None 0 (Some k)
    false u) true false None) p) h (Some k) (ULong 0) Ho eq_refl) as (h2 & E2 & H2).
  rewrite (method_bind_ok E2), (put_bind_slot p i Hp Hi _ _ h2).
  eexists _, h2. split; [done|]. split; [constructor|]. by split.
Qed.

Lemma store_text_slot s h :
  owns ((k, ULong 0) :: F) base h ->
  exists t' L h', store_text (Z.of_nat i) s (dropped h) = (Ok tt, (put_slot i t' p, h')) /\
    holds t' (Text s) L /\ m_is_unsigned (t_bind t') = u /\ owns (L ++ F) base h'.
Proof using Hp Hi.
  intros Ho. unfold store_text, set.
  rewrite (method_bind_ok (put_set_slot p i Hp Hi true _ h)).
  rewrite (method_bind_ok (get_bind_slot p i Hp Hi _ h)). unfold dropped_slot.
  cbn [t_bind m_buffer m_length t_delete t_blob]. rewrite (method_bind_ok (delete_null _ _ h)).
  rewrite (method_bind_ok (new_object_ok _ h _)).
  apply (owns_new _ _ _ (chars (s ++ ["000"%char]))) in Ho. set (l := fresh (dom h)) in *.
  set (h1 := <[l := _]> h) in *. rewrite perm_swap in Ho.
  destruct (delete_owned KULong _ base (put_slot i (MkSlot (MkParam MYSQL_TYPE_LONG_BLOB None 0 (Some k)
    false u) true false None) p) h1 (Some k) (ULong 0) Ho eq_refl) as (h2 & E2 & H2).
  rewrite (method_bind_ok E2), (method_bind_ok (new_object_ok _ h2 _)).
  apply (owns_new _ _ _ (ULong (size s))) in H2. rewrite perm_swap in H2.
  rewrite (put_bind_slot p i Hp Hi).
  eexists _, _, _. split; [done|]. split; [constructor|]. by split.
Qed.
End stores.

(** ** The setters *)

Section setters.
Context `{CPrepared} `{Session}.

Inductive setter :=
| SInt (i z : Z) | SUInt (i z : Z) | SInt64 (i z : Z) | SUInt64 (i z : Z)
| SDouble (i bits : Z) | SBoolean (i : Z) (b : bool)
| SString (i : Z) (s : str) | SBigInt (i : Z) (s : str) | SDateTime (i : Z) (s : str)
| SNull (i : Z) | SBlob (i : Z) (stream : pointer).

Definition run_setter (c : setter) : Method Pst unit :=
  match c with
  | SInt i z => setInt i z | SUInt i z => setUInt i z
  | SInt64 i z => setInt64 i z | SUInt64 i z => setUInt64 i z
  | SDouble i d => setDouble i d | SBoolean i b => setBoolean i b
  | SString i s => setString i s | SBigInt i s => setBigInt i s | SDateTime i s => setDateTime i s
  | SNull i => setNull i | SBlob i p => PreparedStatement.setBlob i p
  end.

(** The abstract specification: the parameter, its value, whether the setter marks it
    as unsigned and the name in its error message. *)
Definition setter_index (c : setter) : Z :=
  match c with
  | SInt i _ | SUInt i _ | SInt64 i _ | SUInt64 i _ | SDouble i _ | SBoolean i _
  | SString i _ | SBigInt i _ | SDateTime i _ | SNull i | SBlob i _ => i
  end.
Definition text_value (s : str) : pvalue :=
  if 256 * 1024 <? size s then LongText s else Text s.
Definition setter_value (c : setter) : pvalue :=
  match c with
  | SInt _ z | SUInt _ z => Number MYSQL_TYPE_LONG (le_split 4 z)
  | SInt64 _ z | SUInt64 _ z => Number MYSQL_TYPE_LONGLONG (le_split 8 z)
  | SDouble _ d => Number MYSQL_TYPE_DOUBLE (le_split 8 d)
  | SBoolean _ b => Number MYSQL_TYPE_LONG (le_split 4 (if b then 1 else 0))
  | SString _ s | SBigInt _ s | SDateTime _ s => text_value s
  | SNull _ => Null
  | SBlob _ p => blob_value p
  end.
Definition setter_unsigned (c : setter) : bool :=
  match c with SUInt _ _ | SUInt64 _ _ => true | _ => false end.
Definition setter_name (c : setter) : str :=
  match c with
  | SInt _ _ | SUInt _ _ | SBoolean _ _ => "setInt" | SInt64 _ _ => "setInt64"
  | SUInt64 _ _ => "setUInt64" | SDouble _ _ => "setDouble"
  | SString _ _ | SBigInt _ _ | SDateTime _ _ => "setString"
  | SNull _ => "setNull" | SBlob _ _ => "setBlob"
  end.

(** The unsigned flag of a parameter is never cleared. *)
Definition spec_setter (c : setter) (vs : list (pvalue * bool)) : list (pvalue * bool) :=
  alter (fun vu => (setter_value c, setter_unsigned c || vu.2)) (Z.to_nat (setter_index c - 1)) vs.
Definition spec_setters (cs : list setter) (vs : list (pvalue * bool)) : list (pvalue * bool) :=
  foldl (fun vs c => spec_setter c vs) vs cs.

(** An open statement whose parameters have these values. *)
Record open_values (base : heap) (a : Pst) (vs : list (pvalue * bool)) : Prop := OpenValues {
  ov_open : isClosed a = false;
  ov_count : param_count a = Z.of_nat (length vs);
  ov_rep : represents base (param_bind a) (memory a) vs;
}.

Lemma checkClosed_open a : isClosed a = false -> checkClosed a = (Ok tt, a).
Proof using. unfold checkClosed. rewrite method_read. by intros ->. Qed.
Lemma checkClosed_closed a :
  isClosed a = true -> checkClosed a = (Throw (InvalidInstance "Statement has been closed"), a).
Proof using. unfold checkClosed. rewrite method_read. by intros ->. Qed.

Lemma check_index_ok a name i :
  1 <= i <= param_count a -> check_index name i a = (Ok tt, a).
Proof using.
  intros Hi. unfold check_index. rewrite method_read.
  destruct (Z.eqb_spec i 0); [lia|]. by rewrite (proj2 (Z.ltb_ge _ _)) by lia.
Qed.

Lemma on_params_ok {A} (m : Method (MySQL_ParamBind * heap) A) a o p h :
  m (param_bind a, memory a) = (o, (p, h)) -> on_params m a = (o, set_params p h a).
Proof using. unfold on_params. by intros ->. Qed.

(** A store after the old value was dropped. *)
Lemma store_after_drop base a vs i v u (store : Method (MySQL_ParamBind * heap) unit) v' u' :
  represents base (param_bind a) (memory a) vs -> vs !! i = Some (v, u) ->
  (forall p k F h, sized p -> (i < ParamBind.param_count p)%nat -> owns ((k, ULong 0) :: F) base h ->
    exists t' L h', store (put_slot i (dropped_slot u k) p, h) = (Ok tt, (put_slot i t' p, h')) /\
      holds t' v' L /\ m_is_unsigned (t_bind t') = u' /\ owns (L ++ F) base h') ->
  exists p' h', (_ ← drop_value (Z.of_nat i); on_params store) a = (Ok tt, set_params p' h' a) /\
    represents base p' h' (<[i := (v', u')]> vs).
Proof using.
  intros Hr Hi Hstore.
  destruct (drop_blob_spec base (param_bind a) (memory a) vs i v u Hr Hi) as (k & F & h1 & E1 & Hin & H1 & Hput).
  destruct (Hstore (param_bind a) k F h1 (rep_sized _ _ _ _ Hr) Hin H1) as (t' & L & h2 & E2 & Ht & Hu & H2).
  exists (put_slot i t' (param_bind a)), h2.
  unfold drop_value. rewrite (method_bind_ok (on_params_ok _ _ _ _ _ E1)).
  rewrite (on_params_ok store (set_params _ h1 a) _ _ _ E2). split; [done|]. rewrite <- Hu. by apply (Hput t' v' L).
Qed.

(** A setter passes its checks and stores its value. *)
Lemma open_index base a vs j :
  open_values base a vs -> 1 <= j <= Z.of_nat (length vs) ->
  exists i v u, j - 1 = Z.of_nat i /\ Z.to_nat (j - 1) = i /\ vs !! i = Some (v, u).
Proof using.
  intros _ Hj. destruct (lookup_lt_is_Some_2 vs (Z.to_nat (j - 1))) as [[v u] Hi]; [lia|].
  exists (Z.to_nat (j - 1)), v, u. split; [lia|]. by split.
Qed.

Lemma setter_checks {A} base a vs name j (k : Method Pst A) :
  open_values base a vs -> 1 <= j <= Z.of_nat (length vs) ->
  (_ ← checkClosed; _ ← check_index name j; k) a = k a.
Proof using.
  intros [Ho Hc _] Hj. rewrite (method_bind_ok (checkClosed_open a Ho)).
  by rewrite (method_bind_ok (check_index_ok a name j ltac:(lia))).
Qed.

Lemma set_number_ok base a vs name j t w s x :
  open_values base a vs -> 1 <= j <= Z.of_nat (length vs) ->
  number_size t = Some w -> length s = w ->
  exists p' h', set_number name j t s x a = (Ok tt, set_params p' h' a) /\
    represents base p' h' (alter (fun vu => (Number t s, x || vu.2)) (Z.to_nat (j - 1)) vs).
Proof using.
  intros Hov Hj Hw Hs. unfold set_number. rewrite (setter_checks base a vs) by done.
  destruct (open_index base a vs j Hov Hj) as (i & v & u & -> & -> & Hi).
  rewrite (alter_insert_at _ vs i (v, u)) by done.
  apply (store_after_drop base a vs i v u); [by apply Hov|done|].
  intros p k F h Hp Hin Ho.
  destruct (store_number_slot p i Hp Hin F base u k t w s x h Hw Hs Ho) as (t' & l & h' & E & H').
  by exists t', [(l, chars s)], h'.
Qed.

Lemma setString_ok base a vs j s :
  open_values base a vs -> 1 <= j <= Z.of_nat (length vs) ->
  exists p' h', setString j s a = (Ok tt, set_params p' h' a) /\
    represents base p' h' (alter (fun vu => (text_value s, vu.2)) (Z.to_nat (j - 1)) vs).
Proof using.
  intros Hov Hj. unfold setString. rewrite (setter_checks base a vs) by done.
  destruct (open_index base a vs j Hov Hj) as (i & v & u & -> & -> & Hi).
  rewrite (alter_insert_at _ vs i (v, u)) by done. unfold text_value. simpl.
  destruct (_ <? size s).
  - destruct (setBlob_string base _ _ vs i v u s (ov_rep _ _ _ Hov) Hi) as (p' & h' & E & H').
    exists p', h'. split; [|done]. by apply on_params_ok.
  - apply (store_after_drop base a vs i v u); [by apply Hov|done|].
    intros p k F h Hp Hin Ho. by apply store_text_slot.
Qed.

Lemma setNull_ok base a vs j :
  open_values base a vs -> 1 <= j <= Z.of_nat (length vs) ->
  exists p' h', setNull j a = (Ok tt, set_params p' h' a) /\
    represents base p' h' (alter (fun vu => (Null, vu.2)) (Z.to_nat (j - 1)) vs).
Proof using.
  intros Hov Hj. unfold setNull. rewrite (setter_checks base a vs) by done.
  destruct (open_index base a vs j Hov Hj) as (i & v & u & -> & -> & Hi).
  rewrite (alter_insert_at _ vs i (v, u)) by done.
  apply (store_after_drop base a vs i v u); [by apply Hov|done|].
  intros p k F h Hp Hin Ho.
  destruct (store_null_slot p i Hp Hin F base u k h Ho) as (t' & h' & E & H').
  by exists t', [], h'.
Qed.

Lemma setBlob_ok base a vs j blob :
  open_values base a vs -> 1 <= j <= Z.of_nat (length vs) ->
  exists p' h', PreparedStatement.setBlob j blob a = (Ok tt, set_params p' h' a) /\
    represents base p' h' (alter (fun vu => (blob_value blob, vu.2)) (Z.to_nat (j - 1)) vs).
Proof using.
  intros Hov Hj. unfold PreparedStatement.setBlob. rewrite (setter_checks base a vs) by done.
  destruct (open_index base a vs j Hov Hj) as (i & v & u & -> & -> & Hi).
  rewrite (alter_insert_at _ vs i (v, u)) by done.
  destruct (setBlob_stream base _ _ vs i v u blob (ov_rep _ _ _ Hov) Hi) as (p' & h' & E & H').
  exists p', h'. split; [|done]. by apply on_params_ok.
Qed.

Lemma setter_ok base a vs c :
  open_values base a vs -> 1 <= setter_index c <= Z.of_nat (length vs) ->
  exists p' h', run_setter c a = (Ok tt, set_params p' h' a) /\
    represents base p' h' (spec_setter c vs).
Proof using.
  intros Hov Hj. unfold spec_setter.
  destruct c; cbn [setter_index run_setter setter_value setter_unsigned] in *;
    try (eapply set_number_ok; [done|done|reflexivity|apply le_split_length]);
    by first [apply setString_ok|apply setNull_ok|apply setBlob_ok].
Qed.

Lemma spec_setter_length c vs : length (spec_setter c vs) = length vs.
Proof using. apply length_alter. Qed.

Lemma setter_open base a vs c :
  open_values base a vs -> 1 <= setter_index c <= Z.of_nat (length vs) ->
  exists p' h', run_setter c a = (Ok tt, set_params p' h' a) /\
    open_values base (set_params p' h' a) (spec_setter c vs).
Proof using.
  intros Hov Hj. destruct (setter_ok base a vs c Hov Hj) as (p' & h' & E & H').
  exists p', h'. split; [done|]. split; [by apply Hov| |done].
  rewrite spec_setter_length. by apply Hov.
Qed.

(** A sequence of setters. *)
Fixpoint run_setters (cs : list setter) : Method Pst unit :=
  match cs with
  | [] => mret tt
  | c :: cs' => _ ← run_setter c; run_setters cs'
  end.

Lemma setters_open base cs a vs :
  open_values base a vs ->
  Forall (fun c => 1 <= setter_index c <= Z.of_nat (length vs)) cs ->
  exists p' h', run_setters cs a = (Ok tt, set_params p' h' a) /\
    open_values base (set_params p' h' a) (spec_setters cs vs).
Proof using.
  revert a vs. induction cs as [|c cs IH]; intros a vs Hov Hcs.
  - exists (param_bind a), (memory a). by destruct a.
  - apply Forall_cons in Hcs as [Hc Hcs].
    destruct (setter_open base a vs c Hov Hc) as (p1 & h1 & E1 & H1).
    destruct (IH (set_params p1 h1 a) (spec_setter c vs) H1) as (p' & h' & E & H').
    { by rewrite spec_setter_length. }
    exists p', h'. cbn [run_setters]. by rewrite (method_bind_ok E1).
Qed.

Lemma new_open base s t :
  open_values base (Pst_new s t base)
    (replicate (Z.to_nat (to_uint (stmt_param_count s))) (Unset, false)).
Proof using.
  split; [done| |].
  - simpl. rewrite length_replicate. pose proof (Z.mod_pos_bound (stmt_param_count s) (2 ^ 32) eq_refl).
    unfold to_uint. lia.
  - apply represents_new.
Qed.
End setters.
