(* ===== verification/Client.v ===== *)
(** * What the server receives from a prepared statement

    The documented behaviour of the C API, as an interface: binding forgets the long
    data, [send_long_data] appends, [execute] reads the bound buffers ([PreparedClient]
    describes a client on which every call succeeds).  Executing a statement sends the
    values its setters were given. *)

From S2P Require Import Prelude Cxx Str Cursor Fields PsMetadata ResultBind PsResultSet.
From S2P Require Import ParamBind Warnings PreparedStatement BoundValues.

(** ** Values on the wire *)

Inductive wire := WNull | WInt (z : Z) | WDouble (bits : Z) | WBytes (s : str).
#[export] Instance wire_eq_dec : EqDecision wire.
Proof. solve_decision. Defined.

Fixpoint all_written (cells : list (option ascii)) : outcome str :=
  match cells with
  | [] => Ok []
  | c :: cells' => x ← deref c; s ← all_written cells'; Ok (x :: s)
  end.

(** [n] bytes of a buffer; bytes that were never written cannot be read. *)
Definition read_chars (h : heap) (p : pointer) (n : nat) : outcome str :=
  l ← deref p;
  match h !! l with
  | Some (Chars c) => if (n <=? length c)%nat then all_written (take n c) else Undefined
  | _ => Undefined
  end.
Definition read_length (h : heap) (p : pointer) : outcome Z :=
  l ← deref p;
  match h !! l with Some (ULong z) => Ok z | _ => Undefined end.
Definition read_integer (h : heap) (b : MYSQL_BIND) (w : nat) : outcome wire :=
  s ← read_chars h (m_buffer b) w;
  Ok (WInt (if m_is_unsigned b then le_combine s else to_signed w (le_combine s))).

(** How a bound parameter is read when the statement is executed; [long] is the data
    that was sent for it in advance. *)
Definition param_wire (h : heap) (long : option str) (b : MYSQL_BIND) : outcome wire :=
  match long with
  | Some d => Ok (WBytes d)
  | None =>
      match m_type b with
      | MYSQL_TYPE_NULL => Ok WNull
      | MYSQL_TYPE_LONG => read_integer h b 4
      | MYSQL_TYPE_LONGLONG => read_integer h b 8
      | MYSQL_TYPE_DOUBLE => s ← read_chars h (m_buffer b) 8; Ok (WDouble (le_combine s))
      | MYSQL_TYPE_STRING | MYSQL_TYPE_LONG_BLOB =>
          n ← read_length h (m_length b);
          if n =? 0 then Ok (WBytes [])
          else s ← read_chars h (m_buffer b) (Z.to_nat n); Ok (WBytes s)
      | _ => Undefined
      end
  end.

Fixpoint wires (h : heap) (long : Z -> option str) (i : Z) (bs : list MYSQL_BIND)
    : outcome (list wire) :=
  match bs with
  | [] => Ok []
  | b :: bs' => w ← param_wire h (long i) b; ws ← wires h long (i + 1) bs'; Ok (w :: ws)
  end.

Definition bindable (t : enum_field_types) : bool :=
  match t with
  | MYSQL_TYPE_NULL | MYSQL_TYPE_LONG | MYSQL_TYPE_LONGLONG | MYSQL_TYPE_DOUBLE
  | MYSQL_TYPE_STRING | MYSQL_TYPE_LONG_BLOB => true
  | _ => false
  end.

(** A client on which every call succeeds: the parameters that are bound, the long
    data sent since then, and the values of every execution. *)
Class PreparedClient (C : CStatement) (P : CPrepared C) := {
  bound : stmt -> list MYSQL_BIND;
  long_data : stmt -> Z -> option str;
  executed : stmt -> list (list wire);
  bind_param_accepts s bs :
    Forall (fun b => bindable (m_type b) = true) bs -> Z.of_nat (length bs) = stmt_param_count s ->
    exists s', stmt_bind_param s bs = (false, s') /\ bound s' = bs /\
      (forall i, long_data s' i = None) /\ executed s' = executed s;
  send_long_data_appends s i b d :
    bound s !! i = Some b -> m_type b = MYSQL_TYPE_LONG_BLOB ->
    exists s', stmt_send_long_data s (Z.of_nat i) d = (false, s') /\ bound s' = bound s /\
      executed s' = executed s /\
      forall j, long_data s' j = if decide (j = Z.of_nat i)
        then Some (default [] (long_data s j) ++ d) else long_data s j;
  execute_sends s h ws :
    wires h (long_data s) 0 (bound s) = Ok ws ->
    exists s', stmt_execute s h = (0, s') /\ executed s' = executed s ++ [ws];
}.

(** ** A client in memory *)

Record memory_client := MkClient {
  c_params : Z;
  c_bound : list MYSQL_BIND;
  c_long : gmap Z str;
  c_executed : list (list wire);
  c_warnings : Z;
}.

Definition client_execute (s : memory_client) (h : heap) : Z * memory_client :=
  match wires h (fun i => c_long s !! i) 0 (c_bound s) with
  | Ok ws => (0, MkClient (c_params s) (c_bound s) ∅ (c_executed s ++ [ws]) (c_warnings s))
  | _ => (1, s)
  end.

(** It has no results. *)
#[export] Instance client_stmt : CStatement := {|
  stmt := memory_client;
  stmt_field_count _ := 0;
  stmt_num_rows _ := 0;
  stmt_field _ _ := simple_field [] MYSQL_TYPE_NULL 0 0;
  stmt_bind_result s _ := (false, s);
  stmt_data_seek s _ := s;
  stmt_fetch s bs := (100, bs, s);
  stmt_free_result s := s;
  stmt_error _ := [];
  MYSQL_NO_DATA := 100;
  MYSQL_DATA_TRUNCATED := 101;
  SIZEOF_MYSQL_TIME := 40;
  stmt_flags := documented_flags;
|}.

#[export] Instance client_prepared : CPrepared client_stmt := {|
  stmt_param_count (s : @stmt client_stmt) := c_params s;
  stmt_bind_param (s : @stmt client_stmt) bs :=
    (negb (forallb (fun b => bindable (m_type b)) bs),
     MkClient (c_params s) bs ∅ (c_executed s) (c_warnings s));
  stmt_send_long_data (s : @stmt client_stmt) i d :=
    (false, MkClient (c_params s) (c_bound s) (<[i := default [] (c_long s !! i) ++ d]> (c_long s))
      (c_executed s) (c_warnings s));
  stmt_execute (s : @stmt client_stmt) h := client_execute s h;
  stmt_errno _ := 0;
  stmt_affected_rows _ := 1;
  stmt_warning_count (s : @stmt client_stmt) := c_warnings s;
  stmt_update_max_length s := s;
  stmt_store_result s := (0, s);
  stmt_more_results _ := false;
  stmt_next_result s := (-1, s);
  CR_OUT_OF_MEMORY := 2008;
  CR_INVALID_BUFFER_USE := 2035;
|}.

#[export] Instance client_accepts : PreparedClient client_stmt client_prepared.
Proof.
  refine {| bound (s : @stmt client_stmt) := c_bound s;
    long_data (s : @stmt client_stmt) i := c_long s !! i;
    executed (s : @stmt client_stmt) := c_executed s |}.
  - intros s bs Hb _. exists (MkClient (c_params s) bs ∅ (c_executed s) (c_warnings s)).
    split; [|split; [done|split; [intros i; apply lookup_empty|done]]]. cbn. f_equal.
    apply negb_false_iff, forallb_forall. intros b Hin. rewrite Forall_forall in Hb.
    apply Hb. by apply list_elem_of_In.
  - intros s i b d _ _. eexists. split; [done|]. split; [done|]. split; [done|]. intros j.
    destruct (decide (j = Z.of_nat i)) as [->|Hj]; cbn; [apply lookup_insert_eq|by apply lookup_insert_ne].
  - intros s h ws E. simpl. unfold client_execute. rewrite E. by eexists.
Defined.

(** ** Sending long data *)

Section sending.
Context (C : CStatement) (P : CPrepared C) (PC : PreparedClient C P).

(** The statement after [d] was sent for parameter [i]. *)
Definition appended (s : stmt) (i : nat) (d : str) (s' : stmt) : Prop :=
  bound s' = bound s /\ executed s' = executed s /\
  forall j, long_data s' j = if decide (j = Z.of_nat i)
    then Some (default [] (long_data s j) ++ d) else long_data s j.

Lemma appended_trans s i d s' d' s'' :
  appended s i d s' -> appended s' i d' s'' -> appended s i (d ++ d') s''.
Proof using.
  intros (B1 & X1 & L1) (B2 & X2 & L2). split; [by rewrite B2|]. split; [by rewrite X2|].
  intros j. rewrite L2, L1. destruct (decide _); [|done]. simpl. by rewrite <- app_assoc.
Qed.

Lemma call_proxy_ok {A} (f : stmt -> A * stmt) a s x s' :
  proxy a = Some s -> f s = (x, s') -> call_proxy f a = (Ok x, set_proxy (Some s') a).
Proof using.
  intros Ha Hf. unfold call_proxy, get_proxy, mbind, Method_bind, read, pure. rewrite Ha. simpl.
  by rewrite Hf.
Qed.

(** A parameter that is bound for long data. *)
Definition takes_long (s : stmt) (i : nat) : Prop :=
  exists b, bound s !! i = Some b /\ m_type b = MYSQL_TYPE_LONG_BLOB.

Lemma send_chunk_ok a s i d :
  proxy a = Some s -> takes_long s i ->
  exists s', send_chunk (Z.of_nat i) d a = (Ok tt, set_proxy (Some s') a) /\ appended s i d s'.
Proof using PC.
  intros Ha (b & Hb & Ht).
  destruct (send_long_data_appends s i b d Hb Ht) as (s' & Es & Bs & Xs & Ls).
  exists s'. split; [|done]. unfold send_chunk. by rewrite (method_bind_ok (call_proxy_ok _ a s _ s' Ha Es)).
Qed.

(** The longest string that is sent without an overflow of [sent + chunk]. *)
Definition LONGEST : Z := 2 ^ 32 - MAX_SEND_LONGDATA_CHUNK.

Lemma chunk_value : MAX_SEND_LONGDATA_CHUNK = 2 ^ 18.
Proof using. reflexivity. Qed.

Lemma chunk_size_small t sent :
  size t <= LONGEST -> 0 <= sent < size t ->
  chunk_size t sent = Z.min (size t - sent) (2 ^ 18).
Proof using.
  unfold LONGEST, chunk_size, to_uint. rewrite chunk_value. intros Hl Hs.
  rewrite !Z.mod_small by lia. destruct (Z.ltb_spec (size t) (sent + 2 ^ 18)); lia.
Qed.

Lemma bytes_from_ok t sent n :
  0 <= sent -> 0 <= n -> sent + n <= size t ->
  bytes_from t sent n = Ok (take (Z.to_nat n) (drop (Z.to_nat sent) t)).
Proof using.
  unfold bytes_from. intros Hs Hn Hb. rewrite (proj2 (Z.leb_le _ _)) by lia. f_equal.
  unfold size in Hb. rewrite drop_app_le by lia. rewrite take_app_le; [done|].
  rewrite length_drop. lia.
Qed.

(** Strings that are not too long arrive in chunks of at most [2^18] bytes: [k] chunks
    are enough for [k * 2^18] bytes. *)
Lemma send_string_ok k t i sent fuel a s :
  size t <= LONGEST -> 0 <= sent <= size t -> size t - sent <= 2 ^ 18 * Z.of_nat k ->
  (k < fuel)%nat -> proxy a = Some s -> takes_long s i ->
  exists s', send_string fuel (Z.of_nat i) t sent a = (Ok true, set_proxy (Some s') a) /\
    (sent = size t -> s' = s) /\ (sent < size t -> appended s i (drop (Z.to_nat sent) t) s').
Proof using PC.
  revert sent fuel a s. induction k as [|k IH]; intros sent fuel a s Hl Hs Hk Hf Ha Ht;
    destruct fuel as [|fuel]; try lia; cbn [send_string].
  - rewrite (proj2 (Z.ltb_ge _ _)) by lia. exists s.
    split; [|by split; [|lia]]. unfold mret, Method_ret. f_equal. destruct a. simpl in Ha. by subst.
  - destruct (Z.ltb_spec sent (size t)) as [Hlt|Hge].
    + rewrite chunk_size_small by lia.
      set (n := Z.min (size t - sent) (2 ^ 18)).
      rewrite (bytes_from_ok t sent n) by lia. rewrite method_pure.
      destruct (send_chunk_ok a s i (take (Z.to_nat n) (drop (Z.to_nat sent) t)) Ha Ht) as (s1 & E1 & H1).
      rewrite (method_bind_ok E1).
      assert (Hu : to_uint (sent + n) = sent + n).
      { unfold to_uint, LONGEST in *. rewrite chunk_value in Hl. apply Z.mod_small. lia. }
      rewrite Hu.
      destruct (IH (sent + n) fuel (set_proxy (Some s1) a) s1) as (s2 & E2 & H2); try done; try lia.
      { destruct Ht as (b & Hb & Hty). exists b. by rewrite (proj1 H1). }
      exists s2. split; [exact E2|]. split; [lia|]. intros _.
      assert (Hd : drop (Z.to_nat sent) t =
        take (Z.to_nat n) (drop (Z.to_nat sent) t) ++ drop (Z.to_nat (sent + n)) t).
      { rewrite <- (take_drop (Z.to_nat n) (drop (Z.to_nat sent) t)) at 1. f_equal.
        rewrite drop_drop. f_equal. lia. }
      destruct (decide (sent + n = size t)) as [He|Hne].
      * rewrite (proj1 H2 He). rewrite Hd. unfold size in He. rewrite (drop_ge t (Z.to_nat (sent + n))) by lia.
        by rewrite app_nil_r.
      * rewrite Hd. apply (appended_trans _ _ _ s1); [done|]. apply H2. lia.
    + exists s.
      split; [|by split; [|lia]]. unfold mret, Method_ret. f_equal. destruct a. simpl in Ha. by subst.
Qed.

(** A computation without an end or a meaning; an exception is neither. *)
Definition stuck {A} (o : outcome A) : Prop :=
  match o with Diverged | Undefined => True | Ok _ | Throw _ => False end.

(** A longer string is never sent: before the end is reached [sent] wraps around and
    the loop starts again, or a chunk reaches past the string. *)
Lemma send_string_too_long fuel t i sent a s :
  LONGEST < size t -> 0 <= sent < 2 ^ 32 -> (2 ^ 18 | sent) ->
  proxy a = Some s -> takes_long s i ->
  stuck (send_string fuel (Z.of_nat i) t sent a).1.
Proof using PC.
  unfold LONGEST. rewrite chunk_value. intros Hl. revert sent a s.
  induction fuel as [|fuel IH]; intros sent a s Hs [q ->] Ha Ht; [done|].
  cbn [send_string]. rewrite (proj2 (Z.ltb_lt _ _)) by lia.
  assert (Hc : chunk_size t (q * 2 ^ 18) = 2 ^ 18).
  { unfold chunk_size, to_uint. rewrite chunk_value. rewrite (proj2 (Z.ltb_ge _ _)); [done|].
    destruct (decide (q = 2 ^ 14 - 1)) as [->|Hq]; [change (_ mod _) with 0; lia|].
    rewrite Z.mod_small by lia. lia. }
  rewrite Hc. unfold bytes_from.
  destruct (Z.leb_spec (q * 2 ^ 18 + 2 ^ 18) (size t + 1)); [|done].
  rewrite method_pure. set (d := take _ _).
  destruct (send_chunk_ok a s i d Ha Ht) as (s1 & E1 & H1). rewrite (method_bind_ok E1).
  apply (IH _ _ s1); try done.
  - apply Z.mod_pos_bound. lia.
  - unfold to_uint. exists ((q + 1) mod 2 ^ 14).
    replace (q * 2 ^ 18 + 2 ^ 18) with ((q + 1) * 2 ^ 18) by lia.
    change (2 ^ 32) with (2 ^ 14 * 2 ^ 18). by rewrite Z.mul_mod_distr_r by lia.
  - destruct Ht as (b & Hb & Hty). exists b. by rewrite (proj1 H1).
Qed.

(** A stream arrives up to its end. *)
Definition readable_stream (r : str) : istream := MkStream r false false false false.
Definition ended_stream : istream := MkStream [] false true true false.

Lemma stream_at_ok l a st : memory a !! l = Some (IStream st) -> stream_at l a = (Ok st, a).
Proof using. intros E. unfold stream_at. rewrite method_read. by rewrite E. Qed.

Lemma send_stream_ok k r i l fuel a s :
  size r <= 2 ^ 18 * Z.of_nat k -> (S k < fuel)%nat ->
  proxy a = Some s -> takes_long s i -> memory a !! l = Some (IStream (readable_stream r)) ->
  exists s' h', send_stream fuel (Z.of_nat i) l a =
      (Ok true, set_proxy (Some s') (set_params (param_bind a) h' a)) /\
    appended s i r s' /\ h' = <[l := IStream ended_stream]> (memory a).
Proof using PC.
  revert r fuel a s. induction k as [|k IH]; intros r fuel a s Hk Hf Ha Ht Hm;
    destruct fuel as [|[|fuel]]; try lia; cbn [send_stream];
    rewrite (method_bind_ok (stream_at_ok l a _ Hm)); cbn [s_eof readable_stream];
    unfold stream_read; cbn [s_eof s_fail s_bad s_rest s_broken readable_stream orb];
    change MAX_SEND_LONGDATA_BUFFER with (2 ^ 18).
  - assert (r = []) as -> by (apply size_zero; pose proof (size_nonneg r); lia).
    rewrite (proj2 (Z.leb_gt _ _)) by (rewrite size_nil; lia).
    unfold put_stream. rewrite method_update. cbn [s_bad s_fail s_eof negb andb].
    set (a1 := set_params _ _ a).
    destruct (send_chunk_ok a1 s i [] Ha Ht) as (s1 & E1 & H1).
    rewrite (method_bind_ok E1).
    rewrite (method_bind_ok (stream_at_ok l _ ended_stream (lookup_insert_eq _ _ _))).
    exists s1, (<[l := IStream ended_stream]> (memory a)). by split.
  - destruct (Z.leb_spec (2 ^ 18) (size r)) as [Hle|Hgt].
    + unfold put_stream. rewrite method_update. cbn [s_bad s_fail s_eof negb andb].
      set (d := take _ r). set (r' := drop _ r). set (a1 := set_params _ _ a).
      destruct (send_chunk_ok a1 s i d Ha Ht) as (s1 & E1 & H1). rewrite (method_bind_ok E1).
      destruct (IH r' (S fuel) (set_proxy (Some s1) a1) s1) as (s2 & h2 & E2 & H2 & ->); try done; try lia.
      { unfold r', size in *. rewrite length_drop. lia. }
      { destruct Ht as (b & Hb & Hty). exists b. by rewrite (proj1 H1). }
      { apply lookup_insert_eq. }
      eexists s2, _. split; [exact E2|]. split.
      * rewrite <- (take_drop (Z.to_nat (2 ^ 18)) r). by apply (appended_trans _ _ _ s1).
      * simpl. by rewrite insert_insert_eq.
    + unfold put_stream. rewrite method_update. cbn [s_bad s_fail s_eof negb andb].
      set (a1 := set_params _ _ a).
      destruct (send_chunk_ok a1 s i r Ha Ht) as (s1 & E1 & H1). rewrite (method_bind_ok E1).
      cbn [send_stream].
      rewrite (method_bind_ok (stream_at_ok l _ ended_stream (lookup_insert_eq _ _ _))).
      exists s1, (<[l := IStream ended_stream]> (memory a)). by split.
Qed.
End sending.

(** ** What a value is on the wire *)

Definition wire_of (vu : pvalue * bool) : wire :=
  match vu.1 with
  | Null => WNull
  | Number MYSQL_TYPE_LONG b =>
      WInt (if vu.2 then le_combine b else to_signed 4 (le_combine b))
  | Number MYSQL_TYPE_DOUBLE b => WDouble (le_combine b)
  | Number _ b => WInt (if vu.2 then le_combine b else to_signed 8 (le_combine b))
  | Text s | LongText s => WBytes s
  | _ => WBytes []
  end.

(** The values that can be sent, streams aside. *)
Definition sendable (v : pvalue) : Prop :=
  match v with
  | Null | Text _ | NoBlob => True
  | Number t b => number_size t = Some (length b)
  | LongText s => 0 < size s <= LONGEST
  | Unset | Streamed _ => False
  end.
Definition long_of (v : pvalue) : option str :=
  match v with LongText s => Some s | _ => None end.

Lemma all_written_chars s : all_written (map Some s) = Ok s.
Proof. induction s as [|c s IH]; simpl; [done|]. by rewrite IH. Qed.

Lemma read_chars_owned L base h l s n :
  owns L base h -> (l, chars s) ∈ L -> (n <= length s)%nat ->
  read_chars h (Some l) n = Ok (take n s).
Proof.
  intros Ho Hl Hn. unfold read_chars. simpl. rewrite (owns_lookup _ _ _ _ _ Ho Hl). unfold chars.
  rewrite length_map, (proj2 (Nat.leb_le _ _)) by lia.
  by rewrite firstn_map, all_written_chars.
Qed.

Lemma read_length_owned L base h l z :
  owns L base h -> (l, ULong z) ∈ L -> read_length h (Some l) = Ok z.
Proof. intros Ho Hl. unfold read_length. simpl. by rewrite (owns_lookup _ _ _ _ _ Ho Hl). Qed.

(** A parameter is read as its value. *)
Lemma param_wire_holds t v L F base h :
  holds t v L -> owns (L ++ F) base h -> sendable v ->
  bindable (m_type (t_bind t)) = true /\ t_set t = true /\
  param_wire h (long_of v) (t_bind t) = Ok (wire_of (v, m_is_unsigned (t_bind t))).
Proof.
  intros Ht Ho Hs. destruct Ht as [| |ty b l n u|s l k u|s l k u| |k u]; try done; simpl in Hs.
  - assert (E : read_chars h (Some l) (length b) = Ok b).
    { rewrite (read_chars_owned _ base _ _ b _ Ho) by (done || by apply elem_of_cons; left).
      by rewrite take_ge. }
    destruct ty; try done; injection Hs as Hs; (split; [done|]; split; [done|]);
      rewrite <- Hs in E; unfold param_wire, read_integer;
      cbn [t_bind m_type m_buffer long_of]; by rewrite E.
  - split; [done|]. split; [done|]. unfold param_wire. simpl.
    rewrite (read_length_owned _ base _ k (size s) Ho) by by apply elem_of_cons; right; apply elem_of_cons; left.
    simpl. destruct (Z.eqb_spec (size s) 0) as [E|E]; [apply size_zero in E; by subst|].
    unfold size at 1. rewrite Nat2Z.id.
    rewrite (read_chars_owned _ base _ _ (s ++ ["000"%char]) _ Ho).
    + by rewrite take_app_length.
    + by apply elem_of_cons; left.
    + rewrite length_app. lia.
  - split; [done|]. split; [done|]. unfold param_wire. simpl.
    by rewrite (read_length_owned _ base _ k 0 Ho) by by apply elem_of_cons; left.
Qed.

Lemma wires_spec h long bs ws k :
  length bs = length ws ->
  (forall i b w, bs !! i = Some b -> ws !! i = Some w ->
    param_wire h (long (k + Z.of_nat i)) b = Ok w) ->
  wires h long k bs = Ok ws.
Proof.
  revert k ws. induction bs as [|b bs IH]; intros k [|w ws] Hl Hw; try done. cbn [wires].
  specialize (Hw 0%nat b w eq_refl eq_refl) as Hw0. rewrite Z.add_0_r in Hw0. rewrite Hw0. simpl.
  rewrite (IH (k + 1) ws); [done|by injection Hl|].
  intros i b' w' Hb Hw'. replace (k + 1 + Z.of_nat i) with (k + Z.of_nat (S i)) by lia. by apply Hw.
Qed.

(** ** Executing *)

Section querying.
Context (C : CStatement) (P : CPrepared C) (PC : PreparedClient C P).

Lemma on_params_keep {A} (m : Method (MySQL_ParamBind * heap) A) (a : Pst) o :
  m (param_bind a, memory a) = (o, (param_bind a, memory a)) -> on_params m a = (o, a).
Proof using. intros E. rewrite (on_params_ok m a _ _ _ E). by destruct a. Qed.

(** What the members hold for one parameter of a list of values. *)
Lemma look base p h vs i v u :
  represents base p h vs -> vs !! i = Some (v, u) ->
  exists t L F, bind p !! i = Some (t_bind t) /\ value_set p !! i = Some (t_set t) /\
    get_bind (Z.of_nat i) (p, h) = (Ok (t_bind t), (p, h)) /\
    blob_bind p !! Z.of_nat i = t_blob t /\
    holds t v L /\ m_is_unsigned (t_bind t) = u /\ owns (L ++ F) base h.
Proof using.
  intros Hr Hi. pose proof (rep_sized _ _ _ _ Hr) as Hs.
  destruct (focus base p h vs i v u Hr Hi) as (t & L & F & Hp & Hin & Ht & Hu & Ho & _).
  exists t, L, F. pose proof Hs as (H1 & H2 & _).
  split; [rewrite Hp; simpl; apply list_lookup_insert_eq; lia|].
  split; [rewrite Hp; simpl; apply list_lookup_insert_eq; lia|].
  split; [rewrite Hp; by apply get_bind_slot|].
  split; [rewrite Hp; simpl; by rewrite lookup_partial_alter_eq|]. done.
Qed.

Lemma all_set base p h vs :
  represents base p h vs -> Forall (fun vu => sendable vu.1) vs ->
  isAllSet (p, h) = (Ok true, (p, h)).
Proof using.
  intros Hr Hv. unfold isAllSet. rewrite method_read. cbn [fst]. unfold mret, Method_ret. do 2 f_equal.
  apply forallb_forall. intros x Hx. apply list_elem_of_In, list_elem_of_lookup in Hx as [i Hi].
  pose proof (rep_sized _ _ _ _ Hr) as (_ & Hn & _). pose proof (rep_length _ _ _ _ Hr) as Hl.
  destruct (lookup_lt_is_Some_2 vs i) as [[v u] Hvi].
  { apply lookup_lt_Some in Hi. lia. }
  destruct (look base p h vs i v u Hr Hvi) as (t & L & F & _ & Hset & _ & _ & Ht & _ & Ho).
  rewrite Forall_lookup in Hv. specialize (Hv i _ Hvi).
  destruct (param_wire_holds t v L F base h Ht Ho Hv) as (_ & E & _).
  rewrite Hset in Hi. injection Hi as <-. exact E.
Qed.

(** The long data of a parameter. *)
Definition long_at (vs : list (pvalue * bool)) (j : Z) : option str :=
  if j <? 0 then None else vu ← vs !! Z.to_nat j; long_of vu.1.

(** [k] chunks are enough for every long string. *)
Definition chunks_enough (k : nat) (vs : list (pvalue * bool)) : Prop :=
  Forall (fun vu => match vu.1 with LongText t => size t <= 2 ^ 18 * Z.of_nat k | _ => True end) vs.

Lemma send_param_ok fuel k base a vs i v u s :
  represents base (param_bind a) (memory a) vs -> vs !! i = Some (v, u) -> sendable v ->
  chunks_enough k vs -> (k < fuel)%nat -> proxy a = Some s ->
  bound s = bind (param_bind a) -> long_data s (Z.of_nat i) = None ->
  exists s', send_param fuel (Z.of_nat i) a = (Ok tt, set_proxy (Some s') a) /\
    bound s' = bound s /\ executed s' = executed s /\
    forall j, long_data s' j = if decide (j = Z.of_nat i) then long_of v else long_data s j.
Proof using PC.
  intros Hr Hi Hv Hk Hf Ha Hb Hn.
  destruct (look base _ _ vs i v u Hr Hi) as (t & L & F & Hbi & _ & Eg & Hbl & Ht & _ & Ho).
  unfold send_param. rewrite (method_bind_ok (on_params_keep _ a _ Eg)).
  assert (Hnone : forall x : option str, x = None ->
    exists s', (Ok tt, a) = (Ok tt, set_proxy (Some s') a) /\ bound s' = bound s /\
      executed s' = executed s /\
      forall j, long_data s' j = if decide (j = Z.of_nat i) then x else long_data s j).
  { intros x ->. exists s. split; [destruct a; simpl in Ha; by subst|].
    split; [done|]. split; [done|]. intros j. destruct (decide _) as [->|]; [|done].
    by rewrite Hn. }
  assert (Eb : getBlobObject (Z.of_nat i) (param_bind a, memory a) =
    (Ok (default (BStream None) (t_blob t)), (param_bind a, memory a))).
  { unfold getBlobObject, find_blob. rewrite method_read. cbn [fst]. by rewrite Hbl. }
  inversion Ht as [| |ty b l n u'|x l n u'|x l n u'| |n u']; subst; simpl in Hv; try done;
    cbn [t_bind m_type long_of t_blob] in *.
  - by apply Hnone.
  - rewrite decide_False by by destruct ty. by apply Hnone.
  - by apply Hnone.
  - (* a copy of a long string *)
    rewrite decide_True by done. rewrite (method_bind_ok (on_params_keep _ a _ Eb)). cbn [default].
    unfold chunks_enough in Hk. rewrite Forall_lookup in Hk. specialize (Hk i _ Hi). simpl in Hk.
    destruct (send_string_ok C P PC k x i 0 fuel a s) as (s' & E & _ & Happ); try done; try lia.
    { eexists. rewrite Hb. split; [exact Hbi|done]. }
    assert (Es : LongDataSender fuel (Z.of_nat i) (BString (Some l)) a = (Ok true, set_proxy (Some s') a)).
    { unfold LongDataSender. rewrite method_read.
      rewrite (owns_lookup _ _ _ l (SqlStr x) Ho); [exact E|].
      apply elem_of_cons; right; by apply elem_of_cons; left. }
    rewrite (method_bind_ok Es). destruct Happ as (B1 & X1 & L1); [lia|].
    exists s'. split; [done|]. split; [done|]. split; [done|]. intros j. rewrite L1.
    destruct (decide _) as [->|]; [|done]. rewrite Hn. done.
  - rewrite decide_True by done. rewrite (method_bind_ok (on_params_keep _ a _ Eb)). by apply Hnone.
Qed.

Lemma send_each_ok fuel k base a vs l s :
  represents base (param_bind a) (memory a) vs -> Forall (fun vu => sendable vu.1) vs ->
  chunks_enough k vs -> (k < fuel)%nat -> proxy a = Some s -> bound s = bind (param_bind a) ->
  NoDup l -> Forall (fun i => (i < length vs)%nat /\ long_data s (Z.of_nat i) = None) l ->
  exists s', send_each fuel (map Z.of_nat l) a = (Ok tt, set_proxy (Some s') a) /\
    bound s' = bound s /\ executed s' = executed s /\
    forall i, long_data s' (Z.of_nat i) =
      if decide (i ∈ l) then long_at vs (Z.of_nat i) else long_data s (Z.of_nat i).
Proof using PC.
  intros Hr Hv Hk Hf. revert a Hr s. induction l as [|i l IH]; intros a Hr s Ha Hb Hd Hl.
  { exists s. split; [by destruct a; simpl in *; subst|]. by repeat split. }
  apply NoDup_cons in Hd as [Hil Hd]. apply Forall_cons in Hl as [[Hi Hn] Hl].
  destruct (lookup_lt_is_Some_2 vs i Hi) as [[v u] Hvi].
  rewrite Forall_lookup in Hv. pose proof (Hv i _ Hvi) as Hvs. rewrite <- Forall_lookup in Hv.
  destruct (send_param_ok fuel k base a vs i v u s Hr Hvi Hvs Hk Hf Ha Hb Hn)
    as (s1 & E1 & B1 & X1 & L1).
  cbn [map send_each]. rewrite (method_bind_ok E1).
  destruct (IH (set_proxy (Some s1) a) Hr s1) as (s2 & E2 & B2 & X2 & L2); try done.
  { by rewrite B1. }
  { rewrite Forall_forall in Hl |- *. intros j Hj. split; [by apply Hl|].
    rewrite L1, decide_False; [by apply Hl|]. intros ->%Nat2Z.inj. done. }
  exists s2. split; [exact E2|]. split; [by rewrite B2|]. split; [by rewrite X2|].
  intros j. rewrite L2, L1. destruct (decide (j ∈ l)) as [Hj|Hj].
  - by rewrite decide_True by by apply elem_of_cons; right.
  - destruct (decide (j = i)) as [->|Hne].
    + rewrite !decide_True by (done || by apply elem_of_cons; left).
      unfold long_at. rewrite (proj2 (Z.ltb_ge _ _)) by lia. by rewrite Nat2Z.id, Hvi.
    + rewrite !decide_False; [done| |]; [by intros [|]%elem_of_cons|by intros ?%Nat2Z.inj].
Qed.

(** The bound parameters are read as the values. *)
Lemma wires_values base p h vs long :
  represents base p h vs -> Forall (fun vu => sendable vu.1) vs ->
  (forall i, (i < length vs)%nat -> long (Z.of_nat i) = long_at vs (Z.of_nat i)) ->
  wires h long 0 (bind p) = Ok (map wire_of vs) /\
  Forall (fun b => bindable (m_type b) = true) (bind p).
Proof using.
  intros Hr Hv Hl. pose proof (rep_sized _ _ _ _ Hr) as (Hn & _). pose proof (rep_length _ _ _ _ Hr) as Hlen.
  assert (Hw : forall i b vu, bind p !! i = Some b -> vs !! i = Some vu ->
    bindable (m_type b) = true /\ param_wire h (long (Z.of_nat i)) b = Ok (wire_of vu)).
  { intros i b [v u] Hb Hi. destruct (look base p h vs i v u Hr Hi) as (t & L & F & Hb' & _ & _ & _ & Ht & Hu & Ho).
    rewrite Hb in Hb'. injection Hb' as ->. rewrite Forall_lookup in Hv.
    destruct (param_wire_holds t v L F base h Ht Ho (Hv i _ Hi)) as (E1 & _ & E2).
    split; [done|]. rewrite Hl by (by eapply lookup_lt_Some). unfold long_at.
    rewrite (proj2 (Z.ltb_ge _ _)), Nat2Z.id, Hi by lia. cbn [mbind option_bind fst]. by rewrite E2, Hu. }
  split.
  - apply wires_spec; [by rewrite length_map, Hn|]. intros i b w Hb Hw'.
    rewrite list_lookup_fmap in Hw'. destruct (vs !! i) as [vu|] eqn:Hi; [|done].
    injection Hw' as <-. by apply (Hw i b vu).
  - apply Forall_lookup. intros i b Hb.
    destruct (lookup_lt_is_Some_2 vs i) as [vu Hi]; [|by apply (Hw i b vu)].
    apply lookup_lt_Some in Hb. lia.
Qed.

(** [do_query] with every parameter set executes the statement once, with the values. *)
Lemma do_query_ok fuel k base a vs s :
  open_values base a vs -> Forall (fun vu => sendable vu.1) vs ->
  chunks_enough k vs -> (k < fuel)%nat -> proxy a = Some s ->
  stmt_param_count s = Z.of_nat (length vs) ->
  exists s', do_query fuel a =
      (Ok tt, set_loaded false (set_warningsCount (stmt_warning_count s') (set_proxy (Some s') a))) /\
    executed s' = executed s ++ [map wire_of vs].
Proof using PC.
  intros [Ho Hc Hr] Hv Hk Hf Ha Hn. unfold do_query. rewrite method_read.
  rewrite (method_bind_ok (on_params_keep _ a _ (all_set _ _ _ _ Hr Hv))).
  rewrite andb_false_r. rewrite (method_bind_ok (s' := a) (a := tt) eq_refl).
  assert (Eb : on_params (read (fun s => bind s.1)) a = (Ok (bind (param_bind a)), a))
    by by apply on_params_keep.
  rewrite (method_bind_ok Eb).
  destruct (wires_values base _ _ vs (long_at vs) Hr Hv) as [_ Hbs]; [done|].
  destruct (bind_param_accepts s (bind (param_bind a)) Hbs) as (s1 & E1 & B1 & L1 & X1).
  { pose proof (rep_sized _ _ _ _ Hr) as (Hl & _). pose proof (rep_length _ _ _ _ Hr). lia. }
  rewrite (method_bind_ok (call_proxy_ok _ (fun s => stmt_bind_param s _) a s false s1 Ha E1)).
  rewrite (method_bind_ok (a := tt) (s' := set_proxy (Some s1) a) eq_refl).
  destruct (send_each_ok fuel k base (set_proxy (Some s1) a) vs (seq 0 (length vs)) s1)
    as (s2 & E2 & B2 & X2 & L2); try done.
  { apply NoDup_seq. }
  { apply Forall_seq. intros i Hi. by split; [lia|]. }
  assert (Es : sendLongDataBeforeParamBind fuel (set_proxy (Some s1) a) =
    (Ok true, set_proxy (Some s2) a)).
  { unfold sendLongDataBeforeParamBind. rewrite method_read. cbn [param_count set_proxy]. rewrite Hc, Nat2Z.id.
    unfold indices. by rewrite (method_bind_ok E2). }
  rewrite (method_bind_ok Es). cbn [negb orb].
  destruct (wires_values base _ _ vs (long_data s2) Hr Hv) as [Hw _].
  { intros i Hi. rewrite L2, decide_True; [done|]. apply elem_of_seq. lia. }
  rewrite <- B1, <- B2 in Hw. destruct (execute_sends s2 (memory a) _ Hw) as (s3 & E3 & X3).
  assert (Ee : (h ← read memory; call_proxy (fun s => stmt_execute s h)) (set_proxy (Some s2) a) =
    (Ok 0, set_proxy (Some s3) a)).
  { rewrite method_read. by apply (call_proxy_ok _ _ (set_proxy (Some s2) a) s2). }
  rewrite (method_bind_ok Ee). exists s3. split; [done|]. by rewrite X3, X2, X1.
Qed.
End querying.

(** ** The calls of lib/objects/sql.cpp *)

(** The setter for an argument of [SQLConn::execute] and [fetch]. *)
Definition arg_setter (i : Z) (v : sqlval) : setter :=
  match v with
  | SqlString s => SString i s
  | SqlInt z => SInt i z
  | SqlInt64 z => SInt64 i z
  | SqlDouble d => SDouble i d
  | SqlUInt64 z => SUInt64 i z
  end.

(** The calls on a prepared statement that [SQLConn] records, made on the statement. *)
Definition run_db_call `{CPrepared} (fuel : nat) (c : db_call) : Method Pst unit :=
  match c with
  | DbSetParam i v => run_setter (arg_setter i v)
  | DbExecute => _ ← execute fuel; mret tt
  | DbExecuteQuery => _ ← executeQuery fuel 2; mret tt
  | DbDeleteStatement => Pst_delete
  | _ => mret tt
  end.
Fixpoint run_db_calls `{CPrepared} (fuel : nat) (cs : list db_call) : Method Pst unit :=
  match cs with
  | [] => mret tt
  | c :: cs' => _ ← run_db_call fuel c; run_db_calls fuel cs'
  end.

(** An argument in the range of its type, and its value for the server. *)
Definition argument_ok (v : sqlval) : Prop :=
  match v with
  | SqlString s => size s <= LONGEST
  | SqlInt z => fits false 4 z
  | SqlInt64 z => fits false 8 z
  | SqlDouble d => fits true 8 d
  | SqlUInt64 z => fits true 8 z
  end.
Definition argument_wire (v : sqlval) : wire :=
  match v with
  | SqlString s => WBytes s
  | SqlInt z | SqlInt64 z | SqlUInt64 z => WInt z
  | SqlDouble d => WDouble d
  end.

Definition arg_value (v : sqlval) : pvalue * bool :=
  (setter_value (arg_setter 0 v), setter_unsigned (arg_setter 0 v)).

Lemma fits_unsigned w z : fits true w z -> z mod 2 ^ (8 * Z.of_nat w) = z.
Proof. intros [? ?]. by apply Z.mod_small. Qed.

Lemma arg_value_wire v :
  argument_ok v -> sendable (arg_value v).1 /\ wire_of (arg_value v) = argument_wire v.
Proof.
  intros Hv. destruct v as [s|z|z|d|z]; unfold arg_value; cbn [arg_setter setter_value setter_unsigned fst] in *.
  - unfold text_value. cbn in Hv. destruct (Z.ltb_spec (256 * 1024) (size s)); split; try done.
    simpl. lia.
  - split; [done|]. unfold wire_of. cbn [fst snd]. rewrite le_combine_split.
    cbn [argument_wire]. f_equal. apply (to_signed_mod 4); [lia|done].
  - split; [done|]. unfold wire_of. cbn [fst snd]. rewrite le_combine_split.
    cbn [argument_wire]. f_equal. apply (to_signed_mod 8); [lia|done].
  - split; [done|]. unfold wire_of. cbn [fst snd]. rewrite le_combine_split.
    cbn [argument_wire]. f_equal. by apply (fits_unsigned 8).
  - split; [done|]. unfold wire_of. cbn [fst snd]. rewrite le_combine_split.
    cbn [argument_wire]. f_equal. by apply (fits_unsigned 8).
Qed.

(** The setters of [bind_calls]. *)
Fixpoint arg_setters (i : Z) (args : list sqlval) : list setter :=
  match args with
  | [] => []
  | v :: args' => arg_setter i v :: arg_setters (i + 1) args'
  end.

Lemma arg_setters_range i args :
  Forall (fun c => i <= setter_index c <= i + Z.of_nat (length args) - 1) (arg_setters i args).
Proof.
  revert i. induction args as [|v args IH]; intros i; simpl; constructor.
  - destruct v; simpl; lia.
  - eapply Forall_impl; [apply (IH (i + 1))|]. simpl. intros c Hc. lia.
Qed.

(** Setting every parameter once, in order. *)
Lemma spec_arg_setters pre args :
  spec_setters (arg_setters (Z.of_nat (length pre) + 1) args) (pre ++ replicate (length args) (Unset, false)) =
    pre ++ map arg_value args.
Proof.
  revert pre. induction args as [|v args IH]; intros pre; simpl; [done|].
  assert (E : spec_setter (arg_setter (Z.of_nat (length pre) + 1) v)
      (pre ++ (Unset, false) :: replicate (length args) (Unset, false)) =
    (pre ++ [arg_value v]) ++ replicate (length args) (Unset, false)).
  { unfold spec_setter.
    replace (Z.to_nat (setter_index _ - 1)) with (length pre) by (destruct v; simpl; lia).
    rewrite alter_app_r_alt, Nat.sub_diag by lia. rewrite <- app_assoc. simpl. do 2 f_equal.
    by destruct v. }
  rewrite E. replace (Z.of_nat (length pre) + 1 + 1) with (Z.of_nat (length (pre ++ [arg_value v])) + 1)
    by (rewrite length_app; simpl; lia).
  rewrite IH. by rewrite <- app_assoc.
Qed.
