(* ===== verification/Calls.v ===== *)
(** * Sequences of calls on a prepared statement

    The public methods of [MySQL_Prepared_Statement] as calls, and what every sequence
    of them keeps, on any client and whether the calls return or throw: the heap is the
    one the statement was created on and the objects the statement owns. *)

From S2P Require Import Prelude Cxx Str Cursor Fields PsMetadata ResultBind PsResultSet.
From S2P Require Import ParamBind Warnings PreparedStatement BoundValues.

Section calls.
Context `{CPrepared} `{Session}.
(** Bounds the loops of the long data. *)
Context (fuel : nat).

Inductive call :=
| CSet (c : setter)
| CClearParameters | CExecute | CExecuteUpdate | CExecuteQuery (owners : Z)
| CGetResultSet (owners : Z) | CGetMoreResults
| CClearWarnings | CGetWarnings | CGetMetaData | CGetParameterMetaData | CGetResultSetType
| CClose | CCancel | CGetFetchSize | CSetFetchSize (n : Z) | CSetQueryTimeout (n : Z)
| CGetMaxFieldSize | CGetMaxRows | CGetQueryTimeout | CGetUpdateCount
| CSetCursorName (name : str) | CSetEscapeProcessing (b : bool) | CSetMaxFieldSize (n : Z)
| CSetMaxRows (n : Z) | CSetResultSetConcurrency (n : Z) | CSetResultSetType (t : Z)
| CExecuteSql (sql : str) | CExecuteQuerySql (sql : str) | CExecuteUpdateSql (sql : str).

(** The value a call returns is dropped. *)
Definition drop_result {A} (m : Method Pst A) : Method Pst unit := _ ← m; mret tt.

Definition run_call (c : call) : Method Pst unit :=
  match c with
  | CSet c => run_setter c
  | CClearParameters => PreparedStatement.clearParameters
  | CExecute => drop_result (execute fuel)
  | CExecuteUpdate => drop_result (executeUpdate fuel)
  | CExecuteQuery owners => drop_result (executeQuery fuel owners)
  | CGetResultSet owners => drop_result (getResultSet owners)
  | CGetMoreResults => drop_result getMoreResults
  | CClearWarnings => clearWarnings
  | CGetWarnings => drop_result getWarnings
  | CGetMetaData => drop_result PreparedStatement.getMetaData
  | CGetParameterMetaData => drop_result getParameterMetaData
  | CGetResultSetType => drop_result getResultSetType
  | CClose => PreparedStatement.close
  | CCancel => cancel
  | CGetFetchSize => drop_result getFetchSize
  | CSetFetchSize n => setFetchSize n
  | CSetQueryTimeout n => setQueryTimeout n
  | CGetMaxFieldSize => drop_result getMaxFieldSize
  | CGetMaxRows => drop_result getMaxRows
  | CGetQueryTimeout => drop_result getQueryTimeout
  | CGetUpdateCount => drop_result getUpdateCount
  | CSetCursorName s => setCursorName s
  | CSetEscapeProcessing b => setEscapeProcessing b
  | CSetMaxFieldSize n => setMaxFieldSize n
  | CSetMaxRows n => setMaxRows n
  | CSetResultSetConcurrency n => setResultSetConcurrency n
  | CSetResultSetType t => setResultSetType t
  | CExecuteSql s => drop_result (execute_sql s)
  | CExecuteQuerySql s => drop_result (executeQuery_sql s)
  | CExecuteUpdateSql s => drop_result (executeUpdate_sql s)
  end.

(** The state after a sequence of calls; the caller catches what is thrown. *)
Definition run_calls (cs : list call) (a : Pst) : Pst := foldl (fun a c => (run_call c a).2) a cs.

(** ** The heap *)

(** Two heaps with the same objects, but for the contents of the streams of the callers. *)
Definition similar (base base' : heap) : Prop :=
  forall l, base !! l = base' !! l \/
    exists s s', base !! l = Some (IStream s) /\ base' !! l = Some (IStream s').

Lemma similar_refl base : similar base base.
Proof using. intros l. by left. Qed.
Lemma similar_trans b1 b2 b3 : similar b1 b2 -> similar b2 b3 -> similar b1 b3.
Proof using.
  intros H1 H2 l. destruct (H1 l) as [E1|(s & s' & E1 & E1')], (H2 l) as [E2|(t & t' & E2 & E2')].
  - left. congruence.
  - right. exists t, t'. split; congruence.
  - right. exists s, s'. split; congruence.
  - right. by exists s, t'.
Qed.

Lemma holds_streams t v L l s : holds t v L -> (l, IStream s) ∉ L.
Proof using. intros []; set_solver. Qed.

(** Writing to a stream of the callers. *)
Lemma represents_stream base p h vs l s s' :
  represents base p h vs -> h !! l = Some (IStream s) ->
  represents (<[l := IStream s']> base) p (<[l := IStream s']> h) vs /\
  similar base (<[l := IStream s']> base).
Proof using.
  intros [Hs Hn Hk (Ls & Hl & Ho & Hh)] Hls.
  assert (Hout : l ∉ (mjoin Ls).*1).
  { intros ([l' o] & -> & Hin)%list_elem_of_fmap. simpl in Hls.
    rewrite (owns_lookup _ _ _ _ _ Ho Hin) in Hls. injection Hls as ->.
    apply list_elem_of_join in Hin as (L & Hin & HL). apply list_elem_of_lookup in HL as [i Hi].
    destruct (lookup_lt_is_Some_2 vs i) as [[v u] Hv]; [rewrite <- Hl; by eapply lookup_lt_Some|].
    destruct (Hh i v u L Hv Hi) as [Ht _]. by apply (holds_streams _ _ _ l' s Ht). }
  destruct Ho as [Hd Hf ->].
  rewrite lookup_union_r in Hls by by apply not_elem_of_list_to_map_1.
  split; [split; [done..|]|].
  - exists Ls. split; [done|]. split; [|done]. split; [done| |].
    + intros l' Hl'. rewrite lookup_insert_ne by (intros ->; done). by apply Hf.
    + rewrite insert_union_r; [done|]. by apply not_elem_of_list_to_map_1.
  - intros l'. destruct (decide (l = l')) as [<-|Hne].
    + right. exists s, s'. by rewrite lookup_insert_eq.
    + left. by rewrite lookup_insert_ne.
Qed.

(** ** What every call keeps *)

(** The heap of the statement is [base] and what its parameters own. *)
Definition tidy (base : heap) (a : Pst) : Prop :=
  exists base' vs, similar base base' /\ represents base' (param_bind a) (memory a) vs /\
    param_count a = Z.of_nat (length vs).

Definition keeps {A} (m : Method Pst A) : Prop :=
  forall base a, tidy base a -> tidy base (m a).2.

(** Updates of the members that are not parameters. *)
Definition same_params (f : Pst -> Pst) : Prop :=
  forall a, param_bind (f a) = param_bind a /\ memory (f a) = memory a /\ param_count (f a) = param_count a.

Lemma keeps_ret {A} (x : A) : keeps (mret x).
Proof using. by intros base a Ha. Qed.
Lemma keeps_read {A} (f : Pst -> A) : keeps (read f).
Proof using. by intros base a Ha. Qed.
Lemma keeps_throw {A} e : keeps (throw (A := A) e).
Proof using. by intros base a Ha. Qed.
Lemma keeps_pure {A} (o : outcome A) : keeps (pure o).
Proof using. by intros base a Ha. Qed.
Lemma keeps_update f : same_params f -> keeps (update f).
Proof using.
  intros Hf base a (base' & vs & Hb & Hr & Hc). destruct (Hf a) as (E1 & E2 & E3).
  exists base', vs. unfold update. cbn [snd]. by rewrite E1, E2, E3.
Qed.
Lemma keeps_bind {A B} (m : Method Pst A) (f : A -> Method Pst B) :
  keeps m -> (forall x, keeps (f x)) -> keeps (m ≫= f).
Proof using.
  intros Hm Hf base a Ha. unfold mbind, Method_bind. specialize (Hm base a Ha).
  destruct (m a) as [[x|e| |] a'] eqn:E; cbn [snd] in *; try done. by apply Hf.
Qed.
Lemma keeps_params {A} (m : Method (MySQL_ParamBind * heap) A) :
  (forall p h, (m (p, h)).2 = (p, h)) -> keeps (on_params m).
Proof using.
  intros Hm base a Ha. unfold on_params. specialize (Hm (param_bind a) (memory a)).
  destruct (m _) as [o [p h]]. simpl in Hm. injection Hm as -> ->. by destruct a.
Qed.
Lemma keeps_same_params g : same_params (set_proxy g).
Proof using. done. Qed.

Create HintDb keeps.
Hint Resolve keeps_ret keeps_read keeps_throw keeps_pure keeps_bind keeps_same_params : keeps.

Ltac keep :=
  repeat first
    [ progress intros
    | apply keeps_bind
    | apply keeps_ret | apply keeps_read | apply keeps_throw | apply keeps_pure
    | (apply keeps_update; done)
    | case_match
    | (solve [auto with keeps]) ].

Lemma keeps_checkClosed : keeps checkClosed.
Proof using. unfold checkClosed. keep. Qed.
Lemma keeps_get_proxy : keeps get_proxy.
Proof using. unfold get_proxy. keep. Qed.
Lemma keeps_call_proxy {A} (f : stmt -> A * stmt) : keeps (call_proxy f).
Proof using. unfold call_proxy, get_proxy. keep. Qed.
Hint Resolve keeps_checkClosed keeps_get_proxy keeps_call_proxy : keeps.
Lemma keeps_throwSQLException {A} : keeps (throwSQLException (A := A)).
Proof using. unfold throwSQLException. keep. Qed.
Hint Resolve keeps_throwSQLException : keeps.
Lemma keeps_send_chunk i d : keeps (send_chunk i d).
Proof using. unfold send_chunk. keep. Qed.
Hint Resolve keeps_send_chunk : keeps.

Lemma keeps_send_string n i s sent : keeps (send_string n i s sent).
Proof using. revert sent. induction n as [|n IH]; intros sent; cbn [send_string]; keep. Qed.

(** The streams are the only objects that are written to. *)
Lemma stream_at_spec l a :
  (exists s, memory a !! l = Some (IStream s) /\ stream_at l a = (Ok s, a)) \/
  stream_at l a = (Undefined, a).
Proof using.
  unfold stream_at. rewrite method_read.
  destruct (memory a !! l) as [[c|z|s|s]|] eqn:E; [by right..|left; by exists s|by right].
Qed.

Lemma tidy_put_stream base l s s' a :
  memory a !! l = Some (IStream s) -> tidy base a -> tidy base (put_stream l s' a).2.
Proof using.
  intros Hl (base' & vs & Hb & Hr & Hc).
  destruct (represents_stream base' _ _ vs l s s' Hr Hl) as [Hr' Hs].
  exists (<[l := IStream s']> base'), vs. split; [by eapply similar_trans|]. by split.
Qed.

Lemma keeps_send_stream n i l : keeps (send_stream n i l).
Proof using.
  induction n as [|n IH]; cbn [send_stream]; [keep|]. intros base a Ha.
  destruct (stream_at_spec l a) as [(s & Hl & E)|E]; unfold mbind at 1, Method_bind at 1; rewrite E; [|done].
  destruct (s_eof s); [done|]. destruct (stream_read _ s) as [data s'].
  unfold mbind at 1, Method_bind at 1, put_stream at 1, update at 1.
  assert (Hk : keeps (if s_bad s' then throw (SqlError "Error while reading from blob (bad)")
    else if s_fail s' && negb (s_eof s') then throw (SqlError "Error while reading from blob (fail)")
    else _ ← send_chunk i data; send_stream n i l)) by keep.
  apply Hk. by apply (tidy_put_stream base l s s').
Qed.
Hint Resolve keeps_send_string keeps_send_stream : keeps.

Lemma keeps_LongDataSender n i b : keeps (LongDataSender n i b).
Proof using. unfold LongDataSender. keep. Qed.
Lemma keeps_get_bind i : keeps (on_params (get_bind i)).
Proof using.
  apply keeps_params. intros p h. unfold get_bind, at_index. rewrite method_read. unfold pure. done.
Qed.
Lemma keeps_getBlobObject i : keeps (on_params (getBlobObject i)).
Proof using. by apply keeps_params. Qed.
Lemma keeps_isAllSet : keeps (on_params isAllSet).
Proof using. by apply keeps_params. Qed.
Lemma keeps_binds : keeps (on_params (read (fun s => bind s.1))).
Proof using. by apply keeps_params. Qed.
Hint Resolve keeps_LongDataSender keeps_get_bind keeps_getBlobObject keeps_isAllSet keeps_binds : keeps.

Lemma keeps_send_param n i : keeps (send_param n i).
Proof using. unfold send_param. keep. Qed.
Hint Resolve keeps_send_param : keeps.
Lemma keeps_send_each n l : keeps (send_each n l).
Proof using. induction l as [|i l IH]; cbn [send_each]; keep. Qed.
Hint Resolve keeps_send_each : keeps.
Lemma keeps_do_query n : keeps (do_query n).
Proof using. unfold do_query, sendLongDataBeforeParamBind. keep. Qed.
Hint Resolve keeps_do_query : keeps.
Lemma keeps_open_result owners : keeps (open_result owners).
Proof using. unfold open_result. keep. Qed.
Hint Resolve keeps_open_result : keeps.

(** ** Setters that are refused *)

Definition bad_index (c : setter) : exn :=
  SqlInvalidArgument ("MySQL_Prepared_Statement::" ++ setter_name c ++ ": invalid 'parameterIndex'").

Lemma setter_closed c a :
  isClosed a = true -> run_setter c a = (Throw (InvalidInstance "Statement has been closed"), a).
Proof using.
  intros Ha. destruct c; cbn [run_setter];
    apply (method_bind_fails (checkClosed_closed a Ha)).
Qed.

Lemma setter_bad_index c a :
  isClosed a = false -> setter_index c = 0 \/ param_count a < setter_index c ->
  run_setter c a = (Throw (bad_index c), a).
Proof using.
  intros Ha Hi.
  assert (E : forall name, check_index name (setter_index c) a =
    (Throw (SqlInvalidArgument ("MySQL_Prepared_Statement::" ++ name ++
      ": invalid 'parameterIndex'")), a)).
  { intros name. unfold check_index. rewrite method_read.
    destruct (Z.eqb_spec (setter_index c) 0); [done|].
    by rewrite (proj2 (Z.ltb_lt _ _)) by lia. }
  destruct c; cbn [run_setter setter_index] in *;
    unfold setInt, setUInt, setInt64, setUInt64, setDouble, setBoolean, setInt, set_number,
      setBigInt, setDateTime, setString, setNull, PreparedStatement.setBlob;
    rewrite (method_bind_ok (checkClosed_open a Ha)); apply (method_bind_fails (E _)).
Qed.

Lemma keeps_setter c : 0 <= setter_index c -> keeps (run_setter c).
Proof using.
  intros Hi base a Ha. destruct (isClosed a) eqn:Ho; [by rewrite setter_closed|].
  destruct Ha as (base' & vs & Hb & Hr & Hc).
  destruct (decide (setter_index c = 0 \/ param_count a < setter_index c)) as [Hbad|Hgood].
  - rewrite setter_bad_index by done. by exists base', vs.
  - destruct (setter_ok base' a vs c) as (p' & h' & E & H'); [by split|lia|].
    rewrite E. exists base', (spec_setter c vs). split; [done|]. split; [done|].
    by rewrite spec_setter_length.
Qed.

(** ** Clearing and closing *)

Lemma clear_exact base a vs :
  represents base (param_bind a) (memory a) vs ->
  exists p h, on_params ParamBind.clearParameters a = (Ok tt, set_params p h a) /\
    represents base p h (map unset_value vs).
Proof using.
  intros Hr. destruct (clearParameters_spec base _ _ vs Hr) as (p & h & E & H').
  exists p, h. split; [|done]. by apply on_params_ok.
Qed.

Lemma keeps_clear : keeps (on_params ParamBind.clearParameters).
Proof using.
  intros base a (base' & vs & Hb & Hr & Hc). destruct (clear_exact base' a vs Hr) as (p & h & E & H').
  rewrite E. exists base', (map unset_value vs). split; [done|]. split; [done|]. by rewrite length_map.
Qed.
Hint Resolve keeps_clear : keeps.

Lemma keeps_clearParameters : keeps PreparedStatement.clearParameters.
Proof using. unfold PreparedStatement.clearParameters. keep. Qed.
Lemma keeps_clearWarnings : keeps clearWarnings.
Proof using. unfold clearWarnings. keep. Qed.
Hint Resolve keeps_clearParameters keeps_clearWarnings : keeps.
Lemma keeps_closeIntern : keeps PreparedStatement.closeIntern.
Proof using. unfold PreparedStatement.closeIntern. keep. Qed.
Hint Resolve keeps_closeIntern : keeps.

(** The parameters of the methods are unsigned. *)
Definition unsigned_index (c : call) : Prop :=
  match c with CSet c => 0 <= setter_index c | _ => True end.

Lemma keeps_run_call c : unsigned_index c -> keeps (run_call c).
Proof using.
  intros Hc. destruct c; cbn [run_call unsigned_index] in *; [by apply keeps_setter|..];
    unfold drop_result, execute, executeUpdate, executeQuery, getResultSet, getMoreResults, getWarnings,
      PreparedStatement.getMetaData, getParameterMetaData, getResultSetType, PreparedStatement.close,
      cancel, getFetchSize, setFetchSize, setQueryTimeout, getMaxFieldSize, getMaxRows,
      getQueryTimeout, getUpdateCount, setCursorName, setEscapeProcessing, setMaxFieldSize, setMaxRows,
      setResultSetConcurrency, setResultSetType, execute_sql, executeQuery_sql, executeUpdate_sql,
      unsupported, not_implemented; keep.
Qed.

Lemma run_calls_tidy base cs a :
  Forall unsigned_index cs -> tidy base a -> tidy base (run_calls cs a).
Proof using.
  intros Hcs. revert a. induction Hcs as [|c cs Hc _ IH]; intros a Ha; [done|].
  apply IH. by apply keeps_run_call.
Qed.

(** Closing an open statement drops its values and its hold of the C API. *)
Lemma closeIntern_exact base a vs :
  isClosed a = false -> represents base (param_bind a) (memory a) vs ->
  exists p h, PreparedStatement.closeIntern a =
      (Ok tt, set_closed true (set_warnings None (set_params p h (set_proxy None a)))) /\
    represents base p h (map unset_value vs).
Proof using.
  intros Ho Hr. destruct (clear_exact base (set_proxy None a) vs Hr) as (p & h & E & H').
  exists p, h. split; [|done]. set (a1 := set_params p h (set_proxy None a)) in *.
  unfold PreparedStatement.closeIntern. rewrite method_update.
  assert (Ec : PreparedStatement.clearParameters (set_proxy None a) = (Ok tt, a1)).
  { unfold PreparedStatement.clearParameters. by rewrite (method_bind_ok (checkClosed_open (set_proxy None a) Ho)). }
  rewrite (method_bind_ok Ec).
  assert (Ew : clearWarnings a1 = (Ok tt, set_warnings None a1)).
  { unfold clearWarnings. by rewrite (method_bind_ok (checkClosed_open a1 Ho)). }
  by rewrite (method_bind_ok Ew).
Qed.

(** The destructor leaves the heap without the objects of the statement. *)
Lemma delete_exact base a vs :
  represents base (param_bind a) (memory a) vs ->
  exists a', Pst_delete a = (Ok tt, a') /\ memory a' = base.
Proof using.
  intros Hr. unfold Pst_delete. rewrite method_read.
  assert (Hdel : forall a1 ws, represents base (param_bind a1) (memory a1) ws ->
    exists a', on_params ParamBind_delete a1 = (Ok tt, a') /\ memory a' = base).
  { intros a1 ws H1. destruct (delete_frees base _ _ ws H1) as (p' & E).
    exists (set_params p' base a1). split; [by apply on_params_ok|done]. }
  destruct (isClosed a) eqn:Ho.
  - rewrite (method_bind_ok (s' := a) (a := tt) eq_refl). by apply (Hdel a vs).
  - destruct (closeIntern_exact base a vs Ho Hr) as (p & h & E & H').
    rewrite (method_bind_ok E). by apply (Hdel _ (map unset_value vs)).
Qed.

Lemma delete_tidy base a :
  tidy base a -> exists a', Pst_delete a = (Ok tt, a') /\ similar base (memory a').
Proof using.
  intros (base' & vs & Hb & Hr & _). destruct (delete_exact base' a vs Hr) as (a' & E & <-).
  by exists a'.
Qed.

Lemma new_tidy base s t : tidy base (Pst_new s t base).
Proof using.
  destruct (new_open base s t) as [_ Hc Hr].
  eexists base, _. split; [apply similar_refl|]. by split.
Qed.

(** What a closed statement answers. *)
Definition closed_answer (c : call) : exn :=
  match c with
  | CExecuteSql _ => MethodNotImplemented "MySQL_Prepared_Statement::execute"
  | CExecuteQuerySql _ => MethodNotImplemented "MySQL_Prepared_Statement::executeQuery"
  | CExecuteUpdateSql _ => MethodNotImplemented "MySQL_Prepared_Statement::executeUpdate"
  | _ => InvalidInstance "Statement has been closed"
  end.

Lemma closed_bind {A} (m : Method Pst A) a :
  isClosed a = true ->
  (_ ← checkClosed; m) a = (Throw (InvalidInstance "Statement has been closed"), a).
Proof using. intros Ha. apply (method_bind_fails (checkClosed_closed a Ha)). Qed.

Lemma run_call_closed c a : isClosed a = true -> run_call c a = (Throw (closed_answer c), a).
Proof using.
  intros Ha. destruct c; cbn [run_call closed_answer]; [by apply setter_closed|..];
    first [ by apply closed_bind
          | unfold drop_result; first [apply method_bind_fails; by apply closed_bind | done] ].
Qed.
End calls.
