(* ===== verification/Statement.v ===== *)
(** * mysqlconnector jdbc/driver/mysql_statement.{h,cpp}: statements

    [MySQL_Statement] sends queries through the connection of the C API
    ([CConnection], the calls nativeapi/mysql_native_connection_wrapper.cpp forwards) and
    gives their results.  A statement has a weak pointer to the connection: [None] once
    the connection is closed.  Logging is left out. *)

From S2P Require Import Prelude Cxx Str Cursor MyVal Fields ResultSet Warnings.

(** ** The C API *)

Class CConnection (R : CResult) := {
  conn : Type;
  (** [mysql_real_query]: not 0 on failure *)
  conn_query : conn -> str -> Z * conn;
  conn_errno : conn -> Z;
  conn_error : conn -> str;
  conn_warning_count : conn -> Z;
  conn_field_count : conn -> Z;
  conn_affected_rows : conn -> Z;
  conn_more_results : conn -> bool;
  conn_next_result : conn -> Z * conn;
  (** a null pointer when there is no result *)
  conn_use_result : conn -> option res * conn;
  conn_store_result : conn -> option res * conn;
}.

(** [UL64(~0)]: no update count. *)
Definition NO_COUNT : Z := 2 ^ 64 - 1.

Section statement.
Context `{CConnection} `{Session}.

Record St := MkSt {
  warnings : option MySQL_Warning;
  isClosed : bool;
  warningsHaveBeenLoaded : bool;
  last_update_count : Z;
  resultset_type : Z;
  warningsCount : Z;
}.

Definition set_warnings (x : option MySQL_Warning) (a : St) : St :=
  MkSt x (isClosed a) (warningsHaveBeenLoaded a) (last_update_count a) (resultset_type a) (warningsCount a).
Definition set_closed (x : bool) (a : St) : St :=
  MkSt (warnings a) x (warningsHaveBeenLoaded a) (last_update_count a) (resultset_type a) (warningsCount a).
Definition set_loaded (x : bool) (a : St) : St :=
  MkSt (warnings a) (isClosed a) x (last_update_count a) (resultset_type a) (warningsCount a).
Definition set_count (x : Z) (a : St) : St :=
  MkSt (warnings a) (isClosed a) (warningsHaveBeenLoaded a) x (resultset_type a) (warningsCount a).
Definition set_type (x : Z) (a : St) : St :=
  MkSt (warnings a) (isClosed a) (warningsHaveBeenLoaded a) (last_update_count a) x (warningsCount a).
Definition set_warningsCount (x : Z) (a : St) : St :=
  MkSt (warnings a) (isClosed a) (warningsHaveBeenLoaded a) (last_update_count a) (resultset_type a) x.

(** [MySQL_Statement::MySQL_Statement] *)
Definition St_new (rset_type : Z) : St := MkSt None false true NO_COUNT rset_type 0.

(** A method sees the members and the connection behind [proxy]. *)
Local Abbreviation method := (Method (St * option conn)).

Definition member {A} (f : St -> A) : method A := read (fun s => f s.1).
Definition change (f : St -> St) : method unit := update (fun s => (f s.1, s.2)).

Definition checkClosed : method unit :=
  c ← member isClosed;
  if (c : bool) then throw (InvalidInstance "Statement has been closed") else mret tt.

(** [proxy.lock()] and the test for null. *)
Definition lock : method conn :=
  c ← read snd;
  match c with
  | Some c => mret c
  | None => throw (InvalidInstance "Connection has been closed")
  end.

(** A call on the connection that [lock] gave. *)
Definition on_conn {A} (f : conn -> A * conn) : method A :=
  s ← read snd;
  match s with
  | Some s => let '(x, s') := f s in _ ← update (fun a => (a.1, Some s')); mret x
  | None => pure Undefined
  end.
Definition ask {A} (f : conn -> A) : method A := on_conn (fun c => (f c, c)).

(** [util::throwSQLException] *)
Definition throwSQLException {A} : method A := e ← ask conn_error; throw (SqlError e).

(** [do_query]: a failure without an error number is not one. *)
Definition do_query (q : str) : method unit :=
  _ ← checkClosed;
  _ ← lock;
  r ← on_conn (fun c => conn_query c q);
  n ← ask conn_errno;
  _ ← (if negb (r =? 0) && negb (n =? 0) then throwSQLException else mret tt);
  w ← ask conn_warning_count;
  _ ← change (set_warningsCount w);
  change (set_loaded false).

(** [use_result] or [store_result]; what is caught is thrown again. *)
Definition get_resultset : method res :=
  _ ← checkClosed;
  _ ← lock;
  t ← member resultset_type;
  r ← on_conn (if t =? TYPE_FORWARD_ONLY then conn_use_result else conn_store_result);
  match r with
  | Some r => mret r
  | None => throwSQLException
  end.

Definition execute (sql : str) : method bool :=
  _ ← checkClosed;
  _ ← do_query sql;
  _ ← lock;
  n ← ask conn_field_count;
  let ret := 0 <? n in
  rows ← ask conn_affected_rows;
  _ ← change (set_count (if ret then NO_COUNT else rows));
  mret ret.

(** [new MySQL_ResultSet(result, proxy, type, this, logger)] *)
Definition new_result (r : res) (t : Z) : method Rs :=
  n ← ask conn_errno; e ← ask conn_error; mret (Rs_new r (Some (n, e)) t).

Definition result_type (t : Z) : Z :=
  if t =? TYPE_FORWARD_ONLY then t else TYPE_SCROLL_INSENSITIVE.

Definition executeQuery (sql : str) : method Rs :=
  _ ← checkClosed;
  _ ← change (set_count NO_COUNT);
  _ ← do_query sql;
  r ← get_resultset;
  t ← member resultset_type;
  new_result r (result_type t).

(** [dirty_drop_rs]: the result is freed at once. *)
Definition dirty_drop_rs : method unit := _ ← on_conn conn_store_result; mret tt.

(** The [do] loop of [executeUpdate] over the results of the query. *)
Fixpoint update_loop (fuel : nat) (got_rs : bool) : method Z :=
  match fuel with
  | O => pure Diverged
  | S fuel' =>
      n ← ask conn_field_count;
      let is_rs := negb (n =? 0) in
      _ ← (if is_rs then dirty_drop_rs
           else rows ← ask conn_affected_rows; change (set_count rows));
      let got_rs := if is_rs then true else got_rs in
      more ← ask conn_more_results;
      if negb more then
        if got_rs then throw (SqlInvalidArgument "Statement returning result set")
        else c ← member last_update_count; mret (to_int c)
      else
        r ← on_conn conn_next_result;
        if r =? 0 then update_loop fuel' got_rs
        else if r =? -1 then
          throw (SqlError "Impossible! more_results() said true, next_result says no more results")
        else throwSQLException
  end.

Definition executeUpdate (fuel : nat) (sql : str) : method Z :=
  _ ← checkClosed;
  _ ← do_query sql;
  _ ← lock;
  update_loop fuel false.

(** [getResultSet]: a null pointer when there was no result and no error. *)
Definition getResultSet : method (option Rs) :=
  _ ← checkClosed;
  _ ← change (set_count NO_COUNT);
  _ ← lock;
  t ← member resultset_type;
  r ← on_conn (if t =? TYPE_FORWARD_ONLY then conn_use_result else conn_store_result);
  match r with
  | Some r => rs ← new_result r (result_type t); mret (Some rs)
  | None =>
      n ← ask conn_errno;
      if negb (n =? 0) then throwSQLException else mret None
  end.

Definition getMoreResults : method bool :=
  _ ← checkClosed;
  _ ← change (set_count NO_COUNT);
  _ ← lock;
  more ← ask conn_more_results;
  if (more : bool) then
    r ← on_conn conn_next_result;
    if 0 <? r then throwSQLException
    else if r =? 0 then n ← ask conn_field_count; mret (negb (n =? 0))
    else if r =? -1 then
      throw (SqlError "Impossible! more_results() said true, next_result says no more results")
    else mret false
  else mret false.

(** The value is given once. *)
Definition getUpdateCount : method Z :=
  _ ← checkClosed;
  c ← member last_update_count;
  if c =? NO_COUNT then mret NO_COUNT
  else _ ← change (set_count NO_COUNT); mret c.

Definition getWarnings : method (option MySQL_Warning) :=
  _ ← checkClosed;
  l ← member warningsHaveBeenLoaded;
  _ ← (if negb l then
         n ← member warningsCount;
         w ← pure (loadMysqlWarnings n);
         _ ← change (set_warnings w);
         change (set_loaded true)
       else mret tt);
  member warnings.

Definition clearWarnings : method unit := _ ← checkClosed; change (set_warnings None).
Definition close : method unit :=
  _ ← checkClosed; _ ← clearWarnings; change (set_closed true).
Definition getResultSetType : method Z := _ ← checkClosed; member resultset_type.
Definition setResultSetType (t : Z) : method unit := _ ← checkClosed; change (set_type t).

(** The methods that are not implemented. *)
Definition unsupported {A} (name : str) : method A :=
  _ ← checkClosed; throw (MethodNotImplemented ("MySQL_Statement::" ++ name)).
Definition cancel : method unit := unsupported "cancel".
Definition getFetchSize : method Z := unsupported "getFetchSize".
Definition setFetchSize (n : Z) : method unit := unsupported "setFetchSize".
Definition getMaxFieldSize : method Z := unsupported "getMaxFieldSize".
Definition getMaxRows : method Z := unsupported "getMaxRows".
Definition setCursorName (name : str) : method unit := unsupported "setCursorName".
Definition setEscapeProcessing (b : bool) : method unit := unsupported "setEscapeProcessing".
Definition setMaxFieldSize (n : Z) : method unit := unsupported "setMaxFieldSize".
Definition setMaxRows (n : Z) : method unit := unsupported "setMaxRows".
End statement.
