(* ===== verification/ConnectionOptions.v ===== *)
(** * mysqlconnector jdbc/driver/mysql_connection.cpp: the options of a connection

    The tables that map the names of connection properties to options of the C API, and
    the functions that look a property up in them.  The version of the client library
    the connector is built with is a parameter. *)

From S2P Require Import Prelude Cxx Str Cursor.

(** ** mysql_connection_options.h *)

Inductive MySQL_Connection_Options :=
| MYSQL_OPT_CONNECT_TIMEOUT | MYSQL_OPT_COMPRESS | MYSQL_OPT_NAMED_PIPE
| MYSQL_INIT_COMMAND | MYSQL_READ_DEFAULT_FILE | MYSQL_READ_DEFAULT_GROUP
| MYSQL_SET_CHARSET_DIR | MYSQL_SET_CHARSET_NAME | MYSQL_OPT_LOCAL_INFILE
| MYSQL_OPT_PROTOCOL | MYSQL_SHARED_MEMORY_BASE_NAME | MYSQL_OPT_READ_TIMEOUT
| MYSQL_OPT_WRITE_TIMEOUT | MYSQL_OPT_USE_RESULT
| MYSQL_OPT_USE_REMOTE_CONNECTION | MYSQL_OPT_USE_EMBEDDED_CONNECTION
| MYSQL_OPT_GUESS_CONNECTION | MYSQL_SET_CLIENT_IP | MYSQL_SECURE_AUTH
| MYSQL_REPORT_DATA_TRUNCATION | MYSQL_OPT_RECONNECT
| MYSQL_OPT_SSL_VERIFY_SERVER_CERT | MYSQL_PLUGIN_DIR | MYSQL_DEFAULT_AUTH
| MYSQL_OPT_BIND
| MYSQL_OPT_SSL_KEY | MYSQL_OPT_SSL_CERT
| MYSQL_OPT_SSL_CA | MYSQL_OPT_SSL_CAPATH | MYSQL_OPT_SSL_CIPHER
| MYSQL_OPT_SSL_CRL | MYSQL_OPT_SSL_CRLPATH
| MYSQL_OPT_CONNECT_ATTR_RESET | MYSQL_OPT_CONNECT_ATTR_ADD
| MYSQL_OPT_CONNECT_ATTR_DELETE
| MYSQL_SERVER_PUBLIC_KEY
| MYSQL_ENABLE_CLEARTEXT_PLUGIN
| MYSQL_OPT_CAN_HANDLE_EXPIRED_PASSWORDS
| MYSQL_OPT_SSL_ENFORCE
| MYSQL_OPT_MAX_ALLOWED_PACKET | MYSQL_OPT_NET_BUFFER_LENGTH
| MYSQL_OPT_TLS_VERSION
| MYSQL_OPT_SSL_MODE
| MYSQL_OPT_RETRY_COUNT
| MYSQL_OPT_GET_SERVER_PUBLIC_KEY
| MYSQL_OPT_OPTIONAL_RESULTSET_METADATA.
#[export] Instance options_eq_dec : EqDecision MySQL_Connection_Options.
Proof. solve_decision. Defined.

(** ** cppconn/variant.h *)

Inductive Variant :=
| VInt (z : Z) | VDouble (bits : Z) | VBool (b : bool) | VString (s : str)
| VList (l : list (list ascii)) | VMap (m : list (list ascii * list ascii)).

(** [Variant::get<T>]: the pointer it gives is never null. *)
Definition wrong_type : exn := SqlInvalidArgument "Variant type doesn't match.".
Definition get_int (v : Variant) : outcome Z :=
  match v with VInt z => Ok z | _ => Throw wrong_type end.
Definition get_bool (v : Variant) : outcome bool :=
  match v with VBool b => Ok b | _ => Throw wrong_type end.
Definition get_string (v : Variant) : outcome str :=
  match v with VString s => Ok s | _ => Throw wrong_type end.
Definition get_list (v : Variant) : outcome (list (list ascii)) :=
  match v with VList l => Ok l | _ => Throw wrong_type end.
Definition get_map (v : Variant) : outcome (list (list ascii * list ascii)) :=
  match v with VMap m => Ok m | _ => Throw wrong_type end.

(** [try ... catch (sql::InvalidArgumentException &) { throw e; }] *)
Definition catch_invalid {A} (e : str -> exn) (o : outcome A) : outcome A :=
  match o with Throw (SqlInvalidArgument msg) => Throw (e msg) | _ => o end.

(** ** The tables *)

(** The values of options. *)
Inductive option_arg :=
| ArgInt (z : Z) | ArgBool (b : bool) | ArgString (s : str)
| ArgPair (key value : str) | ArgNull.

Record String2IntMap := MkEntry {
  key : str;
  value : MySQL_Connection_Options;
  skip_list : bool;
}.

(** The types [process_connection_option] is instantiated at. *)
Inductive option_kind := KindInt | KindBool | KindString.
Definition get_kind (k : option_kind) (v : Variant) : outcome option_arg :=
  match k with
  | KindInt => z ← get_int v; Ok (ArgInt z)
  | KindBool => b ← get_bool v; Ok (ArgBool b)
  | KindString => s ← get_string v; Ok (ArgString s)
  end.

Section tables.
(** [MYCPPCONN_STATIC_MYSQL_VERSION_ID] *)
Context (version : Z).

Definition booleanOptions : list String2IntMap := [
  MkEntry "OPT_REPORT_DATA_TRUNCATION" MYSQL_REPORT_DATA_TRUNCATION false;
  MkEntry "OPT_ENABLE_CLEARTEXT_PLUGIN" MYSQL_ENABLE_CLEARTEXT_PLUGIN false;
  MkEntry "OPT_CAN_HANDLE_EXPIRED_PASSWORDS" MYSQL_OPT_CAN_HANDLE_EXPIRED_PASSWORDS true;
  MkEntry "OPT_CONNECT_ATTR_RESET" MYSQL_OPT_CONNECT_ATTR_RESET true;
  MkEntry "OPT_RECONNECT" MYSQL_OPT_RECONNECT true
] ++
  if version <? 80000 then [
    MkEntry "sslVerify" MYSQL_OPT_SSL_VERIFY_SERVER_CERT false;
    MkEntry "sslEnforce" MYSQL_OPT_SSL_ENFORCE false
  ] else [
    MkEntry "sslVerify" MYSQL_OPT_SSL_MODE true;
    MkEntry "sslEnforce" MYSQL_OPT_SSL_MODE true;
    MkEntry "OPT_GET_SERVER_PUBLIC_KEY" MYSQL_OPT_GET_SERVER_PUBLIC_KEY false;
    MkEntry "OPT_OPTIONAL_RESULTSET_METADATA" MYSQL_OPT_OPTIONAL_RESULTSET_METADATA false
  ].

Definition intOptions : list String2IntMap := [
  MkEntry "OPT_CONNECT_TIMEOUT" MYSQL_OPT_CONNECT_TIMEOUT false;
  MkEntry "OPT_READ_TIMEOUT" MYSQL_OPT_READ_TIMEOUT false;
  MkEntry "OPT_WRITE_TIMEOUT" MYSQL_OPT_WRITE_TIMEOUT false;
  MkEntry "OPT_LOCAL_INFILE" MYSQL_OPT_LOCAL_INFILE false;
  MkEntry "OPT_MAX_ALLOWED_PACKET" MYSQL_OPT_MAX_ALLOWED_PACKET false;
  MkEntry "OPT_NET_BUFFER_LENGTH" MYSQL_OPT_NET_BUFFER_LENGTH false;
  MkEntry "OPT_SSL_MODE" MYSQL_OPT_SSL_MODE false
] ++ if 80000 <=? version then [MkEntry "OPT_RETRY_COUNT" MYSQL_OPT_RETRY_COUNT false] else [].

Definition stringOptions : list String2IntMap := [
  MkEntry "preInit" MYSQL_INIT_COMMAND false;
  MkEntry "sslKey" MYSQL_OPT_SSL_KEY true;
  MkEntry "sslCert" MYSQL_OPT_SSL_CERT true;
  MkEntry "sslCA" MYSQL_OPT_SSL_CA true;
  MkEntry "sslCAPath" MYSQL_OPT_SSL_CAPATH true;
  MkEntry "sslCipher" MYSQL_OPT_SSL_CIPHER true;
  MkEntry "sslCRL" MYSQL_OPT_SSL_CRL false;
  MkEntry "sslCRLPath" MYSQL_OPT_SSL_CRLPATH false;
  MkEntry "rsaKey" MYSQL_SERVER_PUBLIC_KEY false;
  MkEntry "charsetDir" MYSQL_SET_CHARSET_DIR false;
  MkEntry "pluginDir" MYSQL_PLUGIN_DIR false;
  MkEntry "defaultAuth" MYSQL_DEFAULT_AUTH false;
  MkEntry "OPT_CONNECT_ATTR_DELETE" MYSQL_OPT_CONNECT_ATTR_DELETE false;
  MkEntry "readDefaultGroup" MYSQL_READ_DEFAULT_GROUP false;
  MkEntry "readDefaultFile" MYSQL_READ_DEFAULT_FILE false;
  MkEntry "OPT_CHARSET_NAME" MYSQL_SET_CHARSET_NAME true;
  MkEntry "OPT_TLS_VERSION" MYSQL_OPT_TLS_VERSION false
].
End tables.

(** The first entry for a name: any, or one that is not skipped. *)
Fixpoint find_entry (skip : bool) (name : str) (table : list String2IntMap) : option String2IntMap :=
  match table with
  | [] => None
  | e :: table' =>
      if bool_decide (name = key e) && negb (skip && skip_list e) then Some e
      else find_entry skip name table'
  end.

(** The flags of a connection: each name has a bit. *)
Class ConnectionFlags := {
  CLIENT_COMPRESS : Z;
  CLIENT_FOUND_ROWS : Z;
  CLIENT_IGNORE_SIGPIPE : Z;
  CLIENT_IGNORE_SPACE : Z;
  CLIENT_INTERACTIVE : Z;
  CLIENT_LOCAL_FILES : Z;
  CLIENT_MULTI_STATEMENTS : Z;
  CLIENT_NO_SCHEMA : Z;
  CLIENT_MULTI_RESULTS : Z;
}.

Section flags.
Context `{ConnectionFlags}.

Definition flagsOptions : list (list ascii * Z) := [
  ("CLIENT_COMPRESS" : str, CLIENT_COMPRESS);
  ("CLIENT_FOUND_ROWS" : str, CLIENT_FOUND_ROWS);
  ("CLIENT_IGNORE_SIGPIPE" : str, CLIENT_IGNORE_SIGPIPE);
  ("CLIENT_IGNORE_SPACE" : str, CLIENT_IGNORE_SPACE);
  ("CLIENT_INTERACTIVE" : str, CLIENT_INTERACTIVE);
  ("CLIENT_LOCAL_FILES" : str, CLIENT_LOCAL_FILES);
  ("CLIENT_MULTI_STATEMENTS" : str, CLIENT_MULTI_STATEMENTS);
  ("CLIENT_NO_SCHEMA" : str, CLIENT_NO_SCHEMA)
].

(** [read_connection_flag]: whether the property is a flag, and the flags with it. *)
Fixpoint read_flag_from (table : list (list ascii * Z)) (name : str) (v : Variant) (flags : Z)
    : outcome (bool * Z) :=
  match table with
  | [] => Ok (false, flags)
  | (k, bit) :: table' =>
      if bool_decide (name = k) then
        b ← catch_invalid (fun _ => SqlInvalidArgument
              ("Wrong type passed for " ++ k ++ " expected bool")) (get_bool v);
        Ok (true, if (b : bool) then Z.lor flags bit else flags)
      else read_flag_from table' name v flags
  end.
Definition read_connection_flag (name : str) (v : Variant) (flags : Z) : outcome (bool * Z) :=
  read_flag_from flagsOptions name v flags.
End flags.

(** ** Applying options *)

(** The calls of the C API: [mysql_options] and [mysql_get_option] as
    nativeapi/libmysql_static_proxy.cpp makes them, with an exception on failure. *)
Class COptions (handle : Type) := {
  set_option : handle -> MySQL_Connection_Options -> option_arg -> outcome handle;
  get_option : handle -> MySQL_Connection_Options -> outcome option_arg;
  (** [typeid(value).name()] of the pointers to the option's type *)
  type_name : option_kind -> str;
}.

Section options.
Context `{COptions handle}.

(** [proxy->options(...)] with its [catch]: [name] is the one in the exception. *)
Definition options_as (name : str) (o : MySQL_Connection_Options) (a : option_arg) (h : handle)
    : outcome handle :=
  catch_invalid (fun msg => UnsupportedOption msg name) (set_option h o a).

(** [process_connection_option]: whether the property was found. *)
Definition process_connection_option (k : option_kind) (table : list String2IntMap)
    (name : str) (v : Variant) (h : handle) : outcome (bool * handle) :=
  match find_entry true name table with
  | Some e =>
      a ← catch_invalid (fun _ => SqlInvalidArgument
            ("Wrong type passed for " ++ key e ++ " expected " ++ type_name k)) (get_kind k v);
      h' ← options_as (key e) (value e) a h;
      Ok (true, h')
  | None => Ok (false, h)
  end.

(** [get_connection_option]: the value, if the name is in the table. *)
Definition get_connection_option (name : str) (table : list String2IntMap) (h : handle)
    : outcome (option option_arg) :=
  match find_entry false name table with
  | Some e =>
      a ← catch_invalid (fun msg => UnsupportedOption msg (key e)) (get_option h (value e));
      Ok (Some a)
  | None => Ok None
  end.
End options.
