(* ===== verification/Uri.v ===== *)
(** * mysqlconnector jdbc/driver/mysql_uri.{h,cpp}: connection addresses

    [MySQL_Uri] holds where the server is; [parseUri] reads it from
    [tcp://[host]:port/schema], [unix://socket] or [pipe://named_pipe].  The
    methods work on the members ([Cursor.Method]). *)

From S2P Require Import Prelude Cxx Cursor.

(** ** class MySQL_Uri *)

(** The constant [PROTOCOL_COUNT] ends the enumeration of the protocols. *)
Inductive Protocol_Type := PROTOCOL_TCP | PROTOCOL_SOCKET | PROTOCOL_PIPE | PROTOCOL_COUNT.

#[export] Instance Protocol_Type_eq_dec : EqDecision Protocol_Type.
Proof. solve_decision. Defined.

Record MySQL_Uri := MkUri {
  protocol : Protocol_Type;
  port : Z;
  host : str;
  schema : str;
}.

Definition DEFAULT_TCP_PORT : Z := 3306.

(** [MySQL_Uri::MySQL_Uri] *)
Definition Uri_new : MySQL_Uri := MkUri PROTOCOL_TCP DEFAULT_TCP_PORT [] [].

(** [Port] converts the unsigned member to [int]. *)
Definition Port (u : MySQL_Uri) : Z := to_int (port u).

Definition Host (u : MySQL_Uri) : outcome str :=
  match protocol u with
  | PROTOCOL_TCP => Ok (host u)
  | PROTOCOL_PIPE => Ok ("." : str)
  | PROTOCOL_SOCKET => Ok ("localhost" : str)
  | PROTOCOL_COUNT =>
      Throw (SqlInvalidArgument "NativeAPI::PROTOCOL_COUNT shouldn't be used.")
  end.

Definition tcpProtocol (u : MySQL_Uri) : bool := bool_decide (protocol u = PROTOCOL_TCP).

Definition SocketOrPipe (u : MySQL_Uri) : str := if tcpProtocol u then [] else host u.

Definition setProtocol (p : Protocol_Type) (u : MySQL_Uri) : MySQL_Uri :=
  MkUri p (port u) (host u) (schema u).
Definition set_host (h : str) (u : MySQL_Uri) : MySQL_Uri :=
  MkUri (protocol u) (port u) (c_str h) (schema u).
Definition setHost (h : str) (u : MySQL_Uri) : MySQL_Uri :=
  set_host h (setProtocol PROTOCOL_TCP u).
Definition setSocket (s : str) (u : MySQL_Uri) : MySQL_Uri :=
  set_host s (setProtocol PROTOCOL_SOCKET u).
Definition setPipe (p : str) (u : MySQL_Uri) : MySQL_Uri :=
  set_host p (setProtocol PROTOCOL_PIPE u).
(** The parameter is an [unsigned int]. *)
Definition setPort (p : Z) (u : MySQL_Uri) : MySQL_Uri :=
  MkUri PROTOCOL_TCP (p mod 2 ^ 32) (host u) (schema u).
Definition setSchema (s : str) (u : MySQL_Uri) : MySQL_Uri :=
  MkUri (protocol u) (port u) (host u) (c_str s).

(** ** parseUri *)

(** [find_last_of] a character. *)
Fixpoint last_nat (c : ascii) (s : str) : option nat :=
  match s with
  | [] => None
  | d :: s' =>
      match last_nat c s' with
      | Some i => Some (S i)
      | None => if decide (d = c) then Some 0%nat else None
      end
  end.
Definition find_last_of (s : str) (c : ascii) : Z :=
  match last_nat c s with Some i => Z.of_nat i | None => npos end.

(** [compare(0, n, prefix)] with the length [n] of the prefix. *)
Definition has_prefix (s prefix : str) : bool := str_eqb (take (length prefix) s) prefix.

Definition MYURI_SOCKET_PREFIX : str := "unix://".
Definition MYURI_PIPE_PREFIX : str := "pipe://".
Definition MYURI_TCP_PREFIX : str := "tcp://".

Local Abbreviation method := (Method MySQL_Uri).

(** The blocks of [parseUri] that cut the schema and the port off the host. *)
Definition parse_schema (host : str) : method str :=
  let start_sep := find_char host "/" in
  if negb (start_sep =? npos) then
    _ ← (if 1 <? size host - start_sep then
           s ← pure (substr host (start_sep + 1) (size host - start_sep - 1));
           update (setSchema s)
         else mret tt);
    pure (substr host 0 start_sep)
  else _ ← update (setSchema []); mret host.

Definition parse_port (host : str) : method str :=
  let start_sep := find_last_of host ":" in
  if negb (start_sep =? npos) then
    t ← pure (substr_from host (start_sep + 1));
    p ← pure (atoi t);
    _ ← update (setPort p);
    pure (substr host 0 start_sep)
  else _ ← update (setPort DEFAULT_TCP_PORT); mret host.

Definition parse_authority (host : str) : method bool :=
  host ← parse_schema host;
  host ← parse_port host;
  _ ← (if 0 <? size host then update (setHost host) else mret tt);
  mret true.

Definition parseUri (s : str) : method bool :=
  if has_prefix s MYURI_SOCKET_PREFIX then
    t ← pure (substr_from s (size MYURI_SOCKET_PREFIX)); _ ← update (setSocket t); mret true
  else if has_prefix s MYURI_PIPE_PREFIX then
    t ← pure (substr_from s (size MYURI_PIPE_PREFIX)); _ ← update (setPipe t); mret true
  else
    host ← (if has_prefix s MYURI_TCP_PREFIX
            then pure (substr_from s (size MYURI_TCP_PREFIX))
            else mret (c_str s));
    c ← pure (str_idx host 0);
    if bool_decide (c = "["%char) then
      let end_sep := find_char host "]" in
      if end_sep =? npos then mret false
      else
        h ← pure (substr host 1 (end_sep - 1));
        _ ← update (setHost h);
        rest ← pure (substr_from host (end_sep + 1));
        parse_authority rest
    else parse_authority host.

Example parse_default :
  parseUri "tcp://127.0.0.1:3306" Uri_new = (Ok true, MkUri PROTOCOL_TCP 3306 "127.0.0.1" []).
Proof. vm_compute. reflexivity. Qed.
Example parse_brackets :
  parseUri "[::1]:33060/sales" Uri_new = (Ok true, MkUri PROTOCOL_TCP 33060 "::1" "sales").
Proof. vm_compute. reflexivity. Qed.

(** ** Facts *)

Lemma last_nat_None c s : last_nat c s = None <-> c ∉ s.
Proof.
  induction s as [|d s IH]; simpl; [split; [intros _; apply not_elem_of_nil|done]|].
  rewrite not_elem_of_cons. destruct (last_nat c s).
  - split; [done|]. intros [_ H]. apply IH in H. done.
  - case_decide; [split; [done|naive_solver]|]. split; [|done]. intros _.
    split; [congruence|by apply IH].
Qed.

Lemma last_nat_app c a b : c ∉ b -> last_nat c (a ++ c :: b) = Some (length a).
Proof.
  intros Hb. induction a as [|d a IH]; simpl; [|by rewrite IH].
  by rewrite (proj2 (last_nat_None c b) Hb), decide_True.
Qed.

(** [h:port/schema], the last two parts being optional. *)
Record address := Address { a_host : str; a_port : option str; a_schema : option str }.

Definition opt_part (c : ascii) (o : option str) : str :=
  match o with Some t => c :: t | None => [] end.
Definition authority_text (a : address) : str :=
  a_host a ++ opt_part ":" (a_port a) ++ opt_part "/" (a_schema a).

(** The last colon before the first slash separates the port. *)
Definition address_ok (a : address) (p : Z) : Prop :=
  ("/"%char ∉ a_host a) /\
  match a_port a with
  | Some t => ("/"%char ∉ t) /\ (":"%char ∉ t) /\ atoi t = Ok p
  | None => (":"%char ∉ a_host a) /\ p = DEFAULT_TCP_PORT
  end /\ size (authority_text a) < npos.

(** An empty host keeps the one that is set, a slash without a schema the
    schema that is set. *)
Definition with_address (a : address) (p : Z) (u : MySQL_Uri) : MySQL_Uri :=
  MkUri PROTOCOL_TCP (p mod 2 ^ 32)
    (match a_host a with [] => host u | h => c_str h end)
    (match a_schema a with None => [] | Some [] => schema u | Some s => c_str s end).

Lemma find_char_size c a b : c ∉ a -> size a < npos -> find_char (a ++ c :: b) c = size a.
Proof.
  intros Ha Hs. unfold find_char, find. by rewrite find_char_app.
Qed.

Lemma find_char_npos c a : c ∉ a -> find_char a c = npos.
Proof. intros Ha. unfold find_char, find. by rewrite (proj2 (find_char_None c a) Ha). Qed.

(** The part before the slash. *)
Definition before_slash (a : address) : str := a_host a ++ opt_part ":" (a_port a).

Lemma parse_port_spec a p u :
  address_ok a p ->
  parse_port (before_slash a) u = (Ok (a_host a), setPort p u).
Proof.
  intros (Hh & Hp & Hs). unfold parse_port, before_slash, find_last_of, authority_text in *.
  rewrite !size_app in Hs. pose proof (size_nonneg (opt_part "/" (a_schema a))).
  pose proof (size_nonneg (a_host a)). cbv zeta.
  destruct (a_port a) as [t|]; cbn [opt_part] in *.
  - destruct Hp as (_ & Hc & Hat). rewrite last_nat_app by done.
    rewrite size_cons in Hs. pose proof (size_nonneg t).
    fold (size (a_host a)). rewrite (proj2 (Z.eqb_neq _ _)) by lia. cbn [negb].
    replace (a_host a ++ ":"%char :: t) with ((a_host a ++ [":"%char]) ++ t)
      by by rewrite <- app_assoc.
    replace (size (a_host a) + 1) with (size (a_host a ++ [":"%char]))
      by by rewrite size_app, size_cons, size_nil.
    rewrite substr_from_app, <- app_assoc, substr_app_l by lia.
    unfold update, pure, mbind, Method_bind. by rewrite Hat.
  - destruct Hp as [Hc ->]. by rewrite app_nil_r, (proj2 (last_nat_None _ _) Hc).
Qed.

Definition with_schema (s : option str) (u : MySQL_Uri) : MySQL_Uri :=
  match s with None => setSchema [] u | Some [] => u | Some s => setSchema s u end.

Lemma parse_schema_spec h s u :
  ("/"%char ∉ h) -> size (h ++ opt_part "/" s) < npos ->
  parse_schema (h ++ opt_part "/" s) u = (Ok h, with_schema s u).
Proof.
  intros Hh Hs. unfold parse_schema. pose proof (size_nonneg h). cbv zeta.
  destruct s as [s|]; cbn [opt_part] in *.
  - rewrite size_app, size_cons in Hs. pose proof (size_nonneg s).
    rewrite find_char_size, (proj2 (Z.eqb_neq _ _)) by (done || lia). cbn [negb].
    rewrite substr_app_l, size_app, size_cons. destruct s as [|c s].
    + by rewrite (proj2 (Z.ltb_ge 1 _)) by size_lia.
    + rewrite (proj2 (Z.ltb_lt 1 _)) by size_lia.
      replace (h ++ "/"%char :: c :: s) with ((h ++ ["/"%char]) ++ (c :: s) ++ [])
        by by rewrite <- app_assoc, app_nil_r.
      replace (size h + 1) with (size (h ++ ["/"%char])) by by rewrite size_app, size_cons, size_nil.
      replace (size h + (size (c :: s) + 1) - size h - 1) with (size (c :: s)) by lia.
      unfold update, pure, mbind, Method_bind. by rewrite substr_mid.
  - by rewrite app_nil_r, find_char_npos.
Qed.

Lemma parse_authority_spec a p u :
  address_ok a p -> parse_authority (authority_text a) u = (Ok true, with_address a p u).
Proof.
  intros Ha. pose proof Ha as (Hh & Hp & Hs). unfold parse_authority, authority_text in *.
  assert (Hb : "/"%char ∉ before_slash a).
  { unfold before_slash. apply not_elem_of_app. split; [done|].
    destruct (a_port a); cbn [opt_part]; [|apply not_elem_of_nil].
    apply not_elem_of_cons. split; [done|apply Hp]. }
  rewrite app_assoc in *. fold (before_slash a) in *.
  rewrite (method_bind_ok (parse_schema_spec _ _ u Hb Hs)).
  rewrite (method_bind_ok (parse_port_spec a p _ Ha)).
  unfold with_address, with_schema.
  destruct (a_host a) as [|c h]; [|rewrite (proj2 (Z.ltb_lt 0 _)) by size_lia];
    by destruct (a_schema a) as [[|]|].
Qed.

(** ** The whole address *)

Lemma has_prefix_app pre s : has_prefix (pre ++ s) pre = true.
Proof. unfold has_prefix, str_eqb. rewrite take_app_length. by apply bool_decide_true. Qed.

(** A host without brackets. *)
Lemma parseUri_plain a p u :
  address_ok a p -> hd_error (authority_text a) <> Some "["%char ->
  size (authority_text a) < npos ->
  parseUri (MYURI_TCP_PREFIX ++ authority_text a) u = (Ok true, with_address a p u).
Proof.
  intros Ha Hb Hs. unfold parseUri.
  replace (has_prefix _ MYURI_SOCKET_PREFIX) with false by done.
  replace (has_prefix (_ ++ _) MYURI_PIPE_PREFIX) with false by done.
  rewrite has_prefix_app, substr_from_app, method_pure by lia.
  rewrite <- (parse_authority_spec a p u Ha).
  destruct (authority_text a) as [|c l]; [done|].
  change (str_idx (c :: l) 0) with (str_idx ([] ++ c :: l) (size [])).
  rewrite str_idx_mid, method_pure, bool_decide_false; [done|]. simpl in Hb. congruence.
Qed.

(** A host in brackets may hold anything but the closing bracket. *)
Lemma parseUri_brackets h a p u :
  address_ok a p -> a_host a = [] -> ("]"%char ∉ h) ->
  size h + size (authority_text a) + 2 < npos ->
  parseUri (MYURI_TCP_PREFIX ++ "["%char :: h ++ "]"%char :: authority_text a) u =
    (Ok true, with_address a p (setHost h u)).
Proof.
  intros Ha Hn Hh Hs. unfold parseUri. pose proof (size_nonneg h).
  pose proof (size_nonneg (authority_text a)).
  replace (has_prefix _ MYURI_SOCKET_PREFIX) with false by done.
  replace (has_prefix (_ ++ _) MYURI_PIPE_PREFIX) with false by done.
  rewrite has_prefix_app, substr_from_app, method_pure by size_lia.
  pose proof (str_idx_mid [] "["%char (h ++ "]"%char :: authority_text a)) as E0.
  change (size []) with 0 in E0. simpl in E0. rewrite E0, method_pure, bool_decide_true by done.
  assert (Hf : find_char ("["%char :: h ++ "]"%char :: authority_text a) "]" = size h + 1).
  { change ("["%char :: h ++ "]"%char :: authority_text a)
      with (("["%char :: h) ++ "]"%char :: authority_text a).
    rewrite find_char_size; [by rewrite size_cons| |rewrite size_cons; lia].
    apply not_elem_of_cons. by split. }
  cbv zeta. rewrite Hf, (proj2 (Z.eqb_neq _ _)) by lia.
  replace (size h + 1 - 1) with (size h) by lia.
  pose proof (substr_mid ["["%char] h ("]"%char :: authority_text a)) as E1.
  change (size ["["%char]) with 1 in E1. simpl in E1. rewrite E1, method_pure, method_update.
  pose proof (substr_from_app ("["%char :: h ++ ["]"%char]) (authority_text a)) as E2.
  rewrite size_cons, size_app, size_cons, size_nil in E2. simpl in E2.
  rewrite <- app_assoc in E2. simpl in E2.
  replace (size h + (0 + 1) + 1) with (size h + 1 + 1) in E2 by lia.
  rewrite E2, method_pure by lia. by apply parse_authority_spec.
Qed.
