(* ===== verification/Connection.v ===== *)
(** * mysqlconnector jdbc/driver/mysql_connection.{h,cpp}: connections

    [MySQL_Connection] owns the connection of the C API and a service statement, makes
    statements and prepared statements, and keeps what it knows of the session: whether
    it commits on its own, its isolation level, its defaults.  The C API is the interface
    [CSession], over that of statements.  Logging is left out; opening a connection is in
    ConnectionInit.v. *)

From S2P Require Import Prelude Cxx Str Cursor MyVal Fields ResultSet ResultBind PsResultSet.
From S2P Require Import ParamBind Warnings PreparedStatement Statement ConnectionOptions Uri.

(** ** The C API *)

Class CSession (R : CResult) (C : CConnection R) := {
  conn_autocommit : conn -> bool -> bool * conn;
  conn_commit : conn -> bool * conn;
  conn_rollback : conn -> bool * conn;
  conn_server_version : conn -> Z;
  conn_ping : conn -> Z * conn;
  conn_info : conn -> option str;
  conn_escape : conn -> str -> str;
  (** the lengths of the characters of the character set, and its directory *)
  conn_mbminlen : conn -> Z;
  conn_mbmaxlen : conn -> Z;
  conn_charset_dir : conn -> option str;
  conn_options :: COptions conn;
  conn_use_protocol : conn -> Protocol_Type -> conn;
  conn_ssl_set : conn -> list (option str) -> conn;
  (** [mysql_real_connect]: whether it connected; null pointers for what is empty *)
  conn_connect : conn -> option str -> str -> option str -> option str -> Z -> option str -> Z ->
    bool * conn;
}.

(** Preparing statements. *)
Class CPrepare (R : CResult) (C : CConnection R) (S : CStatement) := {
  conn_stmt_init : conn -> option stmt;
  stmt_prepare : stmt -> str -> Z * stmt;
}.

(** [enum_transaction_isolation] *)
Definition TRANSACTION_NONE : Z := 0.
Definition TRANSACTION_READ_COMMITTED : Z := 1.
Definition TRANSACTION_READ_UNCOMMITTED : Z := 2.
Definition TRANSACTION_REPEATABLE_READ : Z := 3.
Definition TRANSACTION_SERIALIZABLE : Z := 4.

(** [MySQL_Savepoint] *)
Record MySQL_Savepoint := Savepoint_new { getSavepointName : str }.
Definition getSavepointId (s : MySQL_Savepoint) : outcome Z :=
  Throw (SqlInvalidArgument "Only named savepoints are supported.").

Section connection.
Context `{CSession} `{Session}.
Context (version : Z).

(** The connection and [MySQL_ConnectionData]. *)
Record Cn := MkCn {
  proxy : option conn;
  service : St;
  autocommit : bool;
  txIsolationLevel : Z;
  warnings : option MySQL_Warning;
  is_valid : bool;
  sql_mode : str;
  sql_mode_set : bool;
  cache_sql_mode : bool;
  metadata_use_info_schema : bool;
  reconnect_option : bool;
  defaultStatementResultType : Z;
  defaultPreparedStatementResultType : Z;
}.

Definition set_proxy (x : option conn) (a : Cn) : Cn :=
  MkCn x (service a) (autocommit a) (txIsolationLevel a) (warnings a) (is_valid a) (sql_mode a) (sql_mode_set a) (cache_sql_mode a) (metadata_use_info_schema a) (reconnect_option a) (defaultStatementResultType a) (defaultPreparedStatementResultType a).
Definition set_service (x : St) (a : Cn) : Cn :=
  MkCn (proxy a) x (autocommit a) (txIsolationLevel a) (warnings a) (is_valid a) (sql_mode a) (sql_mode_set a) (cache_sql_mode a) (metadata_use_info_schema a) (reconnect_option a) (defaultStatementResultType a) (defaultPreparedStatementResultType a).
Definition set_autocommit (x : bool) (a : Cn) : Cn :=
  MkCn (proxy a) (service a) x (txIsolationLevel a) (warnings a) (is_valid a) (sql_mode a) (sql_mode_set a) (cache_sql_mode a) (metadata_use_info_schema a) (reconnect_option a) (defaultStatementResultType a) (defaultPreparedStatementResultType a).
Definition set_isolation (x : Z) (a : Cn) : Cn :=
  MkCn (proxy a) (service a) (autocommit a) x (warnings a) (is_valid a) (sql_mode a) (sql_mode_set a) (cache_sql_mode a) (metadata_use_info_schema a) (reconnect_option a) (defaultStatementResultType a) (defaultPreparedStatementResultType a).
Definition set_warnings (x : option MySQL_Warning) (a : Cn) : Cn :=
  MkCn (proxy a) (service a) (autocommit a) (txIsolationLevel a) x (is_valid a) (sql_mode a) (sql_mode_set a) (cache_sql_mode a) (metadata_use_info_schema a) (reconnect_option a) (defaultStatementResultType a) (defaultPreparedStatementResultType a).
Definition set_valid (x : bool) (a : Cn) : Cn :=
  MkCn (proxy a) (service a) (autocommit a) (txIsolationLevel a) (warnings a) x (sql_mode a) (sql_mode_set a) (cache_sql_mode a) (metadata_use_info_schema a) (reconnect_option a) (defaultStatementResultType a) (defaultPreparedStatementResultType a).
Definition set_sql_mode (x : str) (set : bool) (a : Cn) : Cn :=
  MkCn (proxy a) (service a) (autocommit a) (txIsolationLevel a) (warnings a) (is_valid a) x set (cache_sql_mode a) (metadata_use_info_schema a) (reconnect_option a) (defaultStatementResultType a) (defaultPreparedStatementResultType a).
Definition set_info_schema (x : bool) (a : Cn) : Cn :=
  MkCn (proxy a) (service a) (autocommit a) (txIsolationLevel a) (warnings a) (is_valid a) (sql_mode a) (sql_mode_set a) (cache_sql_mode a) x (reconnect_option a) (defaultStatementResultType a) (defaultPreparedStatementResultType a).
Definition set_reconnect (x : bool) (a : Cn) : Cn :=
  MkCn (proxy a) (service a) (autocommit a) (txIsolationLevel a) (warnings a) (is_valid a) (sql_mode a) (sql_mode_set a) (cache_sql_mode a) (metadata_use_info_schema a) x (defaultStatementResultType a) (defaultPreparedStatementResultType a).
Definition set_default_type (x : Z) (a : Cn) : Cn :=
  MkCn (proxy a) (service a) (autocommit a) (txIsolationLevel a) (warnings a) (is_valid a) (sql_mode a) (sql_mode_set a) (cache_sql_mode a) (metadata_use_info_schema a) (reconnect_option a) x (defaultPreparedStatementResultType a).

(** [MySQL_ConnectionData::MySQL_ConnectionData] and the service statement: the
    members a constructor starts from. *)
Definition Cn_data (c : conn) : Cn :=
  MkCn (Some c) (St_new TYPE_SCROLL_INSENSITIVE) false TRANSACTION_READ_COMMITTED None false [] false
    false true false TYPE_SCROLL_INSENSITIVE TYPE_SCROLL_INSENSITIVE.

Local Abbreviation method := (Method Cn).

Definition checkClosed : method unit :=
  v ← read is_valid;
  if negb v then throw (SqlError "Connection has been closed") else mret tt.

(** A call on the connection of the C API. *)
Definition on_conn {A} (f : conn -> A * conn) : method A :=
  p ← read proxy;
  match p with
  | Some c => let '(x, c') := f c in _ ← update (set_proxy (Some c')); mret x
  | None => pure Undefined
  end.
Definition ask {A} (f : conn -> A) : method A := on_conn (fun c => (f c, c)).
Definition try_conn (f : conn -> outcome conn) : method unit :=
  p ← read proxy;
  match p with
  | Some c => c' ← pure (f c); update (set_proxy (Some c'))
  | None => pure Undefined
  end.

(** A method of the service statement, and of a statement made for it and deleted. *)
Definition on_service {A} (m : Method (St * option conn) A) : method A := fun a =>
  let '(o, (s, c)) := m (service a, proxy a) in (o, set_service s (set_proxy c a)).
Definition createStatement : method St :=
  _ ← checkClosed; t ← read defaultStatementResultType; mret (St_new t).
Definition run_statement {A} (s : St) (m : Method (St * option conn) A) : method A := fun a =>
  let '(o, (_, c)) := m (s, proxy a) in (o, set_proxy c a).
Definition with_statement {A} (m : Method (St * option conn) A) : method A :=
  s ← createStatement; run_statement s m.
Definition deref_text (p : option str) : str := default [] p.

(** ** The session *)

Definition clearWarnings : method unit := update (set_warnings None).

(** Statements have a weak pointer to what [close] resets. *)
Definition close : method unit :=
  _ ← checkClosed;
  _ ← update (set_proxy None);
  _ ← clearWarnings;
  update (set_valid false).

Definition isClosed : method bool := v ← read is_valid; mret (negb v).

(** What the calls of the C API answer is not used. *)
Definition commit : method unit := _ ← checkClosed; _ ← on_conn conn_commit; mret tt.
Definition rollback : method unit := _ ← checkClosed; _ ← on_conn conn_rollback; mret tt.
Definition setAutoCommit (autoCommit : bool) : method unit :=
  _ ← checkClosed;
  _ ← on_conn (fun c => conn_autocommit c autoCommit);
  update (set_autocommit autoCommit).
Definition getAutoCommit : method bool := _ ← checkClosed; read autocommit.

Definition escapeString (s : str) : method str := _ ← checkClosed; ask (fun c => conn_escape c s).
Definition getCatalog : method str :=
  _ ← checkClosed; v ← ask conn_server_version; mret (if 60006 <? v then "def" : str else []).
Definition setCatalog (catalog : str) : method unit := checkClosed.
Definition getClientInfo : method str := mret ("cppconn" : str).
Definition getLastStatementInfo : method str :=
  _ ← checkClosed; i ← ask conn_info; mret (deref_text i).
Definition nativeSQL (sql : str) : method str := _ ← checkClosed; mret (c_str sql).
Definition getTransactionIsolation : method Z := _ ← checkClosed; read txIsolationLevel.

(** [USE] with the name as it is. *)
Definition use_query (catalog : str) : str := "USE `" ++ catalog ++ "`".
Definition setSchema (catalog : str) : method unit :=
  _ ← checkClosed;
  _ ← with_statement (Statement.execute (use_query catalog)); mret tt.

(** A method of a result set that is deleted. *)
Definition run_result {A} (rs : Rs) (m : Method Rs A) : method A := pure (m rs).1.

Definition getSchema : method str :=
  _ ← checkClosed;
  rs ← with_statement (Statement.executeQuery "SELECT DATABASE()");
  run_result rs (_ ← ResultSet.next; ResultSet.getString 1).

(** [loadMysqlWarnings(this)]: its second argument defaults to 0. *)
Definition getWarnings : method (option MySQL_Warning) :=
  _ ← checkClosed;
  _ ← clearWarnings;
  w ← pure (loadMysqlWarnings 0);
  _ ← update (set_warnings w);
  read warnings.

(** The level is recorded before it is set. *)
Definition isolation_query (level : Z) : option str :=
  if level =? TRANSACTION_SERIALIZABLE then
    Some ("SET SESSION TRANSACTION ISOLATION LEVEL SERIALIZABLE" : str)
  else if level =? TRANSACTION_REPEATABLE_READ then
    Some ("SET SESSION TRANSACTION ISOLATION LEVEL REPEATABLE READ" : str)
  else if level =? TRANSACTION_READ_COMMITTED then
    Some ("SET SESSION TRANSACTION ISOLATION LEVEL READ COMMITTED" : str)
  else if level =? TRANSACTION_READ_UNCOMMITTED then
    Some ("SET SESSION TRANSACTION ISOLATION LEVEL READ UNCOMMITTED" : str)
  else None.
Definition setTransactionIsolation (fuel : nat) (level : Z) : method unit :=
  _ ← checkClosed;
  match isolation_query level with
  | Some q =>
      _ ← update (set_isolation level);
      _ ← on_service (Statement.executeUpdate fuel q); mret tt
  | None => throw (SqlInvalidArgument "MySQL_Connection::setTransactionIsolation()")
  end.

(** ** Session variables *)

Definition SQL_MODE : str := "sql_mode".
(** [!strncasecmp(varname.c_str(), "sql_mode", sizeof("sql_mode") - 1)] *)
Definition names_sql_mode (varname : str) : bool :=
  bool_decide (map ascii_lower (take 8 (c_str varname)) = SQL_MODE).

Definition getSessionVariable (varname : str) : method str :=
  _ ← checkClosed;
  cache ← read cache_sql_mode; known ← read sql_mode_set;
  let is_mode := bool_decide (varname = SQL_MODE) in
  if cache && known && is_mode then read sql_mode
  else
    rs ← on_service (Statement.executeQuery ("SHOW SESSION VARIABLES LIKE '" ++ varname ++ "'"));
    let '(more, rs1) := ResultSet.next rs in
    more ← pure more;
    if (more : bool) then
      let '(value, rs2) := ResultSet.getString 2 rs1 in
      _ ← (if cache && negb known && is_mode then
             v ← pure value; update (set_sql_mode v true)
           else mret tt);
      run_result (if cache && negb known && is_mode then rs2 else rs1) (ResultSet.getString 2)
    else mret [].

Definition set_variable_query (varname value : str) : str :=
  "SET SESSION " ++ varname ++ "=" ++
    (if bool_decide (value = ("NULL" : str)) then ("NULL" : str) else "'" ++ value ++ "'").
Definition setSessionVariable (fuel : nat) (varname value : str) : method unit :=
  _ ← checkClosed;
  _ ← on_service (Statement.executeUpdate fuel (set_variable_query varname value));
  cache ← read cache_sql_mode;
  if cache && names_sql_mode varname then
    known ← read sql_mode_set; update (set_sql_mode value known)
  else mret tt.

Definition setSessionVariable_uint (fuel : nat) (varname : str) (value : Z) : method unit :=
  _ ← checkClosed;
  n ← pure (show_dec value);
  let text : str := if value =? 0 then "0" else n in
  _ ← on_service (Statement.executeUpdate fuel ("SET SESSION " ++ varname ++ "=" ++ text));
  mret tt.

(** [MySQL_Statement::setQueryTimeout] and [getQueryTimeout]; the number is read by
    [operator>>] of a stream. *)
Definition setQueryTimeout (fuel : nat) (s : St) (timeout : Z) : method unit :=
  if Statement.isClosed s then throw (InvalidInstance "Statement has been closed")
  else setSessionVariable_uint fuel "max_statement_time" timeout.

Definition read_unsigned (s : str) : option Z :=
  n ← scan_int s;
  if Z.abs n <? 2 ^ 32 then Some (n mod 2 ^ 32) else None.
Definition getQueryTimeout (s : St) : method Z :=
  if Statement.isClosed s then throw (InvalidInstance "Statement has been closed")
  else
    value ← getSessionVariable "max_statement_time";
    mret (if 0 <? size value then default 0 (read_unsigned value) else 0).

(** ** Savepoints *)

Definition refuse_autocommit : method unit :=
  auto ← getAutoCommit;
  if (auto : bool) then throw (SqlInvalidArgument "The connection is in autoCommit mode") else mret tt.

(** The name is part of the query as it is. *)
Definition setSavepoint (name : str) : method MySQL_Savepoint :=
  _ ← checkClosed;
  _ ← refuse_autocommit;
  if size name =? 0 then throw (SqlInvalidArgument "Savepoint name cannot be empty string")
  else
    _ ← with_statement (Statement.execute ("SAVEPOINT " ++ name));
    mret (Savepoint_new name).
Definition rollback_to (savepoint : MySQL_Savepoint) : method unit :=
  _ ← checkClosed;
  _ ← refuse_autocommit;
  _ ← with_statement (Statement.execute ("ROLLBACK TO SAVEPOINT " ++ getSavepointName savepoint));
  mret tt.
Definition releaseSavepoint (savepoint : MySQL_Savepoint) : method unit :=
  _ ← checkClosed;
  v ← ask conn_server_version;
  _ ← (if v <? 50001 then
         throw (MethodNotImplemented "releaseSavepoint not available in this server version")
       else mret tt);
  _ ← refuse_autocommit;
  _ ← with_statement (Statement.execute ("RELEASE SAVEPOINT " ++ getSavepointName savepoint));
  mret tt.

(** ** Client options *)

(** What [setClientOption] accepts for [defaultStatementResultType]. *)
Definition check_result_type (option : str) (int_value : Z) : outcome unit :=
  if (int_value =? TYPE_FORWARD_ONLY) || (int_value =? TYPE_SCROLL_INSENSITIVE) then Ok tt
  else
    n ← show_dec int_value;
    if int_value =? TYPE_SCROLL_SENSITIVE then
      Throw (SqlInvalidArgument ("Invalid value " ++ n ++ " for option " ++ option ++
        ". TYPE_SCROLL_SENSITIVE is not supported"))
    else Throw (SqlInvalidArgument ("Invalid value (" ++ n ++ " for option " ++ option)).

(** [setClientOption] with a pointer: a pointer to a value of the wrong type is
    undefined behaviour; the options of the log are left out. *)
Definition setClientOption (optionName : str) (optionValue : option_arg) : method unit :=
  if bool_decide (optionName = ("metadataUseInfoSchema" : str)) then
    match optionValue with
    | ArgBool b => update (set_info_schema b)
    | _ => pure Undefined
    end
  else if bool_decide (optionName = ("defaultStatementResultType" : str)) then
    match optionValue with
    | ArgInt z =>
        _ ← pure (check_result_type "defaultStatementResultType" z);
        update (set_default_type z)
    | _ => pure Undefined
    end
  else if bool_decide (optionName = ("defaultPreparedStatementResultType" : str)) then
    throw (MethodNotImplemented "MySQL_Prepared_Statement::setResultSetType")
  else mret tt.
Definition setClientOption_text (fuel : nat) (optionName optionValue : str) : method unit :=
  if bool_decide (optionName = ("characterSetResults" : str)) then
    setSessionVariable fuel "character_set_results" optionValue
  else mret tt.

(** The tables are searched one after the other. *)
Definition table_option (table : list String2IntMap) (name : str) : method (option option_arg) :=
  p ← read proxy;
  match p with
  | Some c => pure (get_connection_option name table c)
  | None => pure Undefined
  end.
Fixpoint first_option (tables : list (list String2IntMap)) (name : str) : method (option option_arg) :=
  match tables with
  | [] => mret None
  | t :: tables' =>
      r ← table_option t name;
      match r with Some v => mret (Some v) | None => first_option tables' name end
  end.

(** [getClientOption] with a pointer: what is written to the pointer, if anything. *)
Definition getClientOption (optionName : str) : method (option option_arg) :=
  if bool_decide (optionName = ("metadataUseInfoSchema" : str)) then
    b ← read metadata_use_info_schema; mret (Some (ArgBool b))
  else if bool_decide (optionName = ("defaultStatementResultType" : str)) then
    t ← read defaultStatementResultType; mret (Some (ArgInt t))
  else if bool_decide (optionName = ("defaultPreparedStatementResultType" : str)) then
    t ← read defaultPreparedStatementResultType; mret (Some (ArgInt t))
  else if bool_decide (optionName = ("multiByteMinLength" : str)) then
    n ← ask conn_mbminlen; mret (Some (ArgInt n))
  else if bool_decide (optionName = ("multiByteMaxLength" : str)) then
    n ← ask conn_mbmaxlen; mret (Some (ArgInt n))
  else
    v ← ask conn_server_version;
    if 50703 <=? v then
      first_option [intOptions version; booleanOptions version; stringOptions] optionName
    else mret None.
Definition getClientOption_text (optionName : str) : method str :=
  if bool_decide (optionName = ("characterSetResults" : str)) then
    getSessionVariable "character_set_results"
  else if bool_decide (optionName = ("characterSetDirectory" : str)) then
    d ← ask conn_charset_dir; mret (deref_text d)
  else
    v ← ask conn_server_version;
    if 50703 <=? v then
      r ← table_option stringOptions optionName;
      match r with Some (ArgString s) => mret s | _ => mret [] end
    else mret [].

(** ** Is the server there? *)

(** [proxy->options(MYSQL_OPT_RECONNECT, ...)] *)
Definition set_reconnect_option (b : bool) : method unit :=
  try_conn (options_as "MYSQL_OPT_RECONNECT" MYSQL_OPT_RECONNECT (ArgBool b)).
Definition ping : method Z := on_conn conn_ping.

(** [isValid] does not let the C API reconnect while it asks; [reconnect] does. *)
Definition isValid : method bool :=
  v ← read is_valid;
  if (v : bool) then
    r ← read reconnect_option;
    if (r : bool) then
      _ ← set_reconnect_option false;
      is_active ← ping;
      _ ← set_reconnect_option true;
      mret (is_active =? 0)
    else is_active ← ping; mret (is_active =? 0)
  else mret false.

Definition reconnect : method bool :=
  v ← read is_valid;
  if (v : bool) then
    r ← read reconnect_option;
    if (r : bool) then is_active ← ping; mret (is_active =? 0)
    else
      _ ← set_reconnect_option true;
      is_active ← ping;
      _ ← set_reconnect_option false;
      mret (is_active =? 0)
  else mret false.

(** ** Methods that are not implemented *)

Definition not_implemented {A} (name : str) : method A := throw (MethodNotImplemented name).
Definition unsupported {A} (name : str) : method A := _ ← checkClosed; not_implemented name.
Definition isReadOnly : method bool := unsupported "MySQL_Connection::isReadOnly".
Definition setHoldability (n : Z) : method unit := not_implemented "MySQL_Connection::setHoldability()".
Definition setReadOnly (b : bool) : method unit := not_implemented "MySQL_Connection::setReadOnly()".
Definition setSavepoint_unnamed : method MySQL_Savepoint :=
  unsupported "Please use MySQL_Connection::setSavepoint(const sql::SQLString& name)".
Definition prepareStatement_keys (sql : str) (autoGeneratedKeys : Z) : method unit :=
  unsupported "MySQL_Connection::prepareStatement(const sql::SQLString& sql, int autoGeneratedKeys)".
Definition prepareStatement_indexes (sql : str) (columnIndexes : list Z) : method unit :=
  unsupported "MySQL_Connection::prepareStatement(const sql::SQLString& sql, int* columnIndexes)".
Definition prepareStatement_concurrency (sql : str) (rtype concurrency : Z) : method unit :=
  unsupported "MySQL_Connection::prepareStatement(const sql::SQLString& sql, int resultSetType, int resultSetConcurrency)".
Definition prepareStatement_holdability (sql : str) (rtype concurrency holdability : Z) : method unit :=
  unsupported "MySQL_Connection::prepareStatement(const sql::SQLString& sql, int resultSetType, int resultSetConcurrency, int resultSetHoldability)".
Definition prepareStatement_names (sql : str) (columnNames : list (list ascii)) : method unit :=
  unsupported "MySQL_Connection::prepareStatement(const sql::SQLString& sql, sql::SQLString columnNames[])".
End connection.

(** ** Preparing statements *)

Section prepare.
Context `{CSession} `{CPrepared} `{!CPrepare _ _ _}.

(** [prepareStatement], over the heap [h]. *)
Definition prepareStatement (sql : str) (h : heap) : Method Cn Pst :=
  _ ← checkClosed;
  s ← ask conn_stmt_init;
  match s with
  | None => e ← ask conn_error; throw (SqlError e)
  | Some s =>
      let '(r, s') := stmt_prepare s sql in
      if negb (r =? 0) then throw (SqlError (stmt_error s'))
      else t ← read defaultPreparedStatementResultType; mret (Pst_new s' t h)
  end.
End prepare.
