(* ===== verification/ConnectionInit.v ===== *)
(** * mysqlconnector jdbc/driver/mysql_connection.cpp: opening a connection

    [MySQL_Connection::init] reads the properties of a connection in the order of their
    names, sets options of the C API on the way, connects, and puts the session into
    the state the connector relies on.  Other systems than Windows. *)

From S2P Require Import Prelude Cxx Str Cursor MyVal Fields ResultSet Warnings.
From S2P Require Import Statement ConnectionOptions Uri Connection.

(** [std::map<sql::SQLString, Variant>]: the properties in the order of their names. *)
Abbreviation properties := (list (list ascii * Variant)).

Fixpoint find_property (name : str) (ps : properties) : option Variant :=
  match ps with
  | [] => None
  | (k, v) :: ps' => if bool_decide (k = name) then Some v else find_property name ps'
  end.

(** [ssl_mode], and an error number. *)
Definition SSL_MODE_PREFERRED : Z := 2.
Definition SSL_MODE_REQUIRED : Z := 3.
Definition SSL_MODE_VERIFY_CA : Z := 4.
Definition ER_MUST_CHANGE_PASSWORD_LOGIN : Z := 1820.

(** [nullIfEmpty] *)
Definition nullIfEmpty (s : str) : option str := if size s =? 0 then None else Some s.

Section init.
Context `{CSession} `{Session} `{ConnectionFlags}.
Context (version : Z).

(** The local variables. *)
Record Locals := MkLocals {
  uri : MySQL_Uri;
  userName : str;
  password : str;
  defaultCharset : str;
  characterSetResults : str;
  ssl : list (list ascii);   (** [sslKey], [sslCert], [sslCA], [sslCAPath], [sslCipher] *)
  ssl_used : bool;
  postInit : str;
  flags : Z;
  opt_reconnect : bool;
  client_exp_pwd : Z;
  secure_auth : bool;
}.

Definition set_uri (x : MySQL_Uri) (l : Locals) : Locals :=
  MkLocals x (userName l) (password l) (defaultCharset l) (characterSetResults l) (ssl l) (ssl_used l) (postInit l) (flags l) (opt_reconnect l) (client_exp_pwd l) (secure_auth l).
Definition set_userName (x : str) (l : Locals) : Locals :=
  MkLocals (uri l) x (password l) (defaultCharset l) (characterSetResults l) (ssl l) (ssl_used l) (postInit l) (flags l) (opt_reconnect l) (client_exp_pwd l) (secure_auth l).
Definition set_password (x : str) (l : Locals) : Locals :=
  MkLocals (uri l) (userName l) x (defaultCharset l) (characterSetResults l) (ssl l) (ssl_used l) (postInit l) (flags l) (opt_reconnect l) (client_exp_pwd l) (secure_auth l).
Definition set_charset (x : str) (l : Locals) : Locals :=
  MkLocals (uri l) (userName l) (password l) x (characterSetResults l) (ssl l) (ssl_used l) (postInit l) (flags l) (opt_reconnect l) (client_exp_pwd l) (secure_auth l).
Definition set_results (x : str) (l : Locals) : Locals :=
  MkLocals (uri l) (userName l) (password l) (defaultCharset l) x (ssl l) (ssl_used l) (postInit l) (flags l) (opt_reconnect l) (client_exp_pwd l) (secure_auth l).
Definition set_ssl (i : nat) (x : str) (l : Locals) : Locals :=
  MkLocals (uri l) (userName l) (password l) (defaultCharset l) (characterSetResults l) (<[i := x]> (ssl l)) true (postInit l) (flags l) (opt_reconnect l) (client_exp_pwd l) (secure_auth l).
Definition set_postInit (x : str) (l : Locals) : Locals :=
  MkLocals (uri l) (userName l) (password l) (defaultCharset l) (characterSetResults l) (ssl l) (ssl_used l) x (flags l) (opt_reconnect l) (client_exp_pwd l) (secure_auth l).
Definition set_flags (x : Z) (l : Locals) : Locals :=
  MkLocals (uri l) (userName l) (password l) (defaultCharset l) (characterSetResults l) (ssl l) (ssl_used l) (postInit l) x (opt_reconnect l) (client_exp_pwd l) (secure_auth l).
Definition set_opt_reconnect (x : bool) (l : Locals) : Locals :=
  MkLocals (uri l) (userName l) (password l) (defaultCharset l) (characterSetResults l) (ssl l) (ssl_used l) (postInit l) (flags l) x (client_exp_pwd l) (secure_auth l).
Definition set_exp_pwd (x : Z) (l : Locals) : Locals :=
  MkLocals (uri l) (userName l) (password l) (defaultCharset l) (characterSetResults l) (ssl l) (ssl_used l) (postInit l) (flags l) (opt_reconnect l) x (secure_auth l).
Definition set_secure_auth (x : bool) (l : Locals) : Locals :=
  MkLocals (uri l) (userName l) (password l) (defaultCharset l) (characterSetResults l) (ssl l) (ssl_used l) (postInit l) (flags l) (opt_reconnect l) (client_exp_pwd l) x.

Definition Locals_new : Locals :=
  MkLocals Uri_new [] [] "utf8" "utf8" [[]; []; []; []; []] false [] CLIENT_MULTI_RESULTS
    false 0 true.

Local Abbreviation method := (Method (Locals * Cn)).

Definition local_set (f : Locals -> Locals) : method unit := update (fun s => (f s.1, s.2)).
Definition on_uri (f : MySQL_Uri -> MySQL_Uri) : method unit :=
  update (fun s => (set_uri (f (uri s.1)) s.1, s.2)).
Definition on_connection {A} (m : Method Cn A) : method A := fun s =>
  let '(o, c) := m s.2 in (o, (s.1, c)).

(** A property of a type, with the message for another type. *)
Definition wrong (name type : str) : str -> exn := fun _ =>
  SqlInvalidArgument ("Wrong type passed for " ++ name ++ " expected " ++ type).
Definition string_property (name : str) (v : Variant) : method str :=
  pure (catch_invalid (wrong name "sql::SQLString") (get_string v)).
Definition bool_property (name type : str) (v : Variant) : method bool :=
  pure (catch_invalid (wrong name type) (get_bool v)).
Definition int_property (name type : str) (v : Variant) : method Z :=
  pure (catch_invalid (wrong name type) (get_int v)).

(** [proxy->options(...)], with a [catch] that names the option, and without one. *)
Definition set_named (name : str) (o : MySQL_Connection_Options) (a : option_arg) : method unit :=
  on_connection (try_conn (options_as name o a)).
Definition set_plain (o : MySQL_Connection_Options) (a : option_arg) : method unit :=
  on_connection (try_conn (fun c => set_option c o a)).

Fixpoint each_attribute {A} (f : A -> method unit) (l : list A) : method unit :=
  match l with
  | [] => mret tt
  | x :: l' => _ ← f x; each_attribute f l'
  end.

(** [PROCESS_CONN_OPTION] *)
Definition process (k : option_kind) (table : list String2IntMap) (name : str) (v : Variant)
    : method bool :=
  p ← on_connection (read proxy);
  match p with
  | Some c =>
      r ← pure (process_connection_option k table name v c);
      _ ← on_connection (update (set_proxy (Some (snd r)))); mret (fst r)
  | None => pure Undefined
  end.

(** The tables and the flags, one after the other; an unknown name is ignored. *)
Definition other_property (name : str) (v : Variant) : method unit :=
  b ← process KindInt (intOptions version) name v;
  if (b : bool) then mret tt
  else
    b ← process KindBool (booleanOptions version) name v;
    if (b : bool) then mret tt
    else
      b ← process KindString stringOptions name v;
      if (b : bool) then mret tt
      else
        f ← read (fun s => flags s.1);
        r ← pure (read_connection_flag name v f);
        local_set (set_flags (snd r)).

(** The value of a property of the TLS connection; the fifth are its ciphers. *)
Definition ssl_property (i : nat) (name : str) (v : Variant) : method unit :=
  s ← string_property name v; local_set (set_ssl i s).

(** One turn of the loop over the properties. *)
Definition one_property (name : str) (v : Variant) : method unit :=
  let named (n : str) := bool_decide (name = n) in
  if named "userName" then s ← string_property "userName" v; local_set (set_userName s)
  else if named "password" then s ← string_property "password" v; local_set (set_password s)
  else if named "port" then p ← int_property "port" "int" v; on_uri (setPort p)
  else if named "socket" then s ← string_property "socket" v; on_uri (setSocket s)
  else if named "pipe" then s ← string_property "pipe" v; on_uri (setPipe s)
  else if named "schema" then s ← string_property "schema" v; on_uri (Uri.setSchema s)
  else if named "characterSetResults" then
    s ← string_property "characterSetResults" v; local_set (set_results s)
  else if named "sslKey" then ssl_property 0 "sslKey" v
  else if named "sslCert" then ssl_property 1 "sslCert" v
  else if named "sslCA" then ssl_property 2 "sslCA" v
  else if named "sslCAPath" then ssl_property 3 "sslCAPath" v
  else if named "sslCipher" then ssl_property 4 "sslCipher" v
  else if named "defaultStatementResultType" then
    t ← int_property "defaultStatementResultType" "sql::SQLString" v;
    _ ← pure (check_result_type "defaultStatementResultType" t);
    on_connection (update (set_default_type t))
  else if named "defaultPreparedStatementResultType" then
    throw (SqlError "defaultPreparedStatementResultType parameter still not implemented")
  else if named "metadataUseInfoSchema" then
    b ← bool_property "metadataUseInfoSchema" "bool" v; on_connection (update (set_info_schema b))
  else if named "OPT_RECONNECT" then
    b ← bool_property "OPT_RECONNECT" "bool" v;
    _ ← local_set (set_opt_reconnect true); on_connection (update (set_reconnect b))
  else if named "OPT_CHARSET_NAME" then
    s ← string_property "OPT_CHARSET_NAME" v; local_set (set_charset s)
  else if named "OPT_NAMED_PIPE" then on_uri (setProtocol PROTOCOL_PIPE)
  else if named "OPT_CAN_HANDLE_EXPIRED_PASSWORDS" then
    b ← bool_property "OPT_CAN_HANDLE_EXPIRED_PASSWORDS" "bool" v;
    _ ← set_named "MYSQL_OPT_CAN_HANDLE_EXPIRED_PASSWORDS" MYSQL_OPT_CAN_HANDLE_EXPIRED_PASSWORDS
          (ArgBool b);
    (* [options] answers 0 or throws *)
    local_set (set_exp_pwd 0)
  else if named "postInit" then s ← string_property "postInit" v; local_set (set_postInit s)
  else if named "useLegacyAuth" then
    b ← bool_property "useLegacyAuth" "sql::SQLString" v;
    if version <? 80000 then local_set (set_secure_auth (negb b)) else mret tt
  else if named "OPT_CONNECT_ATTR_ADD" then
    m ← pure (catch_invalid (wrong "OPT_CONNECT_ATTR_ADD" "std::map< sql::SQLString, sql::SQLString >")
          (get_map v));
    each_attribute (fun '(k, x) =>
      set_named "MYSQL_OPT_CONNECT_ATTR_ADD" MYSQL_OPT_CONNECT_ATTR_ADD (ArgPair k x)) m
  else if named "OPT_CONNECT_ATTR_DELETE" then
    l ← pure (catch_invalid (wrong "OPT_CONNECT_ATTR_DELETE" "std::list< sql::SQLString >") (get_list v));
    each_attribute (fun k =>
      set_named "MYSQL_OPT_CONNECT_ATTR_DELETE" MYSQL_OPT_CONNECT_ATTR_DELETE (ArgString k)) l
  else if named "OPT_CONNECT_ATTR_RESET" then set_plain MYSQL_OPT_CONNECT_ATTR_RESET (ArgInt 0)
  (* the pointer [get<bool>] gives is tested, not the value *)
  else if (80000 <? version) && named "sslVerify" then
    _ ← pure (get_bool v); set_plain MYSQL_OPT_SSL_MODE (ArgInt SSL_MODE_VERIFY_CA)
  else if (80000 <? version) && named "sslEnforce" then
    _ ← pure (get_bool v); set_plain MYSQL_OPT_SSL_MODE (ArgInt SSL_MODE_REQUIRED)
  else other_property name v.

Fixpoint all_properties (ps : properties) : method unit :=
  match ps with
  | [] => mret tt
  | (name, v) :: ps' => _ ← one_property name v; all_properties ps'
  end.

(** [hostName] first: the properties that are set one by one take precedence over it. *)
Definition host_property (ps : properties) : method unit :=
  match find_property "hostName" ps with
  | None => mret tt
  | Some v =>
      s ← pure (catch_invalid (wrong "userName" "sql::SQLString") (get_string v));
      u ← read (fun s => uri s.1);
      let '(r, u') := parseUri s u in
      _ ← on_uri (fun _ => u'); _ ← pure r; mret tt
  end.

(** What is set between the properties and the connection. *)
Definition before_connect (ps : properties) : method unit :=
  u ← read (fun s => uri s.1);
  _ ← (if bool_decide (protocol u = PROTOCOL_PIPE) then
         throw (SqlInvalidArgument
           "Invalid for this platform protocol requested(MYSQL_PROTOCOL_PIPE)")
       else mret tt);
  _ ← on_connection (on_conn (fun c => (tt, conn_use_protocol c (protocol u))));
  l ← read fst;
  _ ← (if version <? 80000 then
         set_named "MYSQL_SECURE_AUTH" MYSQL_SECURE_AUTH (ArgBool (secure_auth l))
       else mret tt);
  _ ← set_named "MYSQL_SET_CHARSET_NAME" MYSQL_SET_CHARSET_NAME (ArgString (c_str (defaultCharset l)));
  _ ← (if ssl_used l then
         on_connection (on_conn (fun c => (tt, conn_ssl_set c (map nullIfEmpty (ssl l)))))
       else mret tt);
  match find_property "OPT_SSL_MODE" ps with
  | Some v => _ ← process KindInt (intOptions version) "OPT_SSL_MODE" v; mret tt
  | None => mret tt
  end.

(** The text of the error of a connection that failed. *)
Definition connect_error (l : Locals) (errno : Z) (error : str) : str :=
  if (errno =? ER_MUST_CHANGE_PASSWORD_LOGIN) && negb (client_exp_pwd l =? 0) then
    "Your password has expired, but your instance of Connector/C++ is not linked against mysql client library that allows to reset it. To resolve this you either need to change the password with mysql client that is capable to do that, or rebuild your instance of Connector/C++ against mysql client library that supports resetting of an expired password."
  else error.

Definition connect : method unit :=
  l ← read fst;
  host ← pure (Host (uri l));
  ok ← on_connection (on_conn (fun c => conn_connect c (nullIfEmpty host) (c_str (userName l))
    (nullIfEmpty (password l)) (nullIfEmpty (schema (uri l))) (Port (uri l) mod 2 ^ 32)
    (nullIfEmpty (SocketOrPipe (uri l))) (flags l)));
  if (ok : bool) then mret tt
  else
    n ← on_connection (ask conn_errno); e ← on_connection (ask conn_error);
    _ ← on_connection (update (set_proxy None));
    throw (SqlError (connect_error l n e)).

(** The session of a new connection. *)
Definition after_connect (fuel : nat) : method unit :=
  l ← read fst;
  r ← read (fun s => reconnect_option s.2);
  _ ← (if opt_reconnect l then set_named "MYSQL_OPT_RECONNECT" MYSQL_OPT_RECONNECT (ArgBool r)
       else mret tt);
  _ ← on_connection (setAutoCommit true);
  _ ← on_connection (setTransactionIsolation fuel TRANSACTION_REPEATABLE_READ);
  _ ← (if bool_decide (characterSetResults l = defaultCharset l) then mret tt
       else on_connection (setSessionVariable fuel "character_set_results"
              (if size (characterSetResults l) =? 0 then "NULL" : str else characterSetResults l)));
  if 0 <? size (postInit l) then
    _ ← on_connection (on_service (Statement.executeUpdate fuel (postInit l))); mret tt
  else mret tt.

Definition init (fuel : nat) (ps : properties) : method unit :=
  _ ← on_connection (update (set_valid true));
  _ ← host_property ps;
  _ ← all_properties ps;
  _ ← before_connect ps;
  _ ← connect;
  after_connect fuel.

(** The constructors: the connection is deleted when [init] throws. *)
Definition Connection_new (fuel : nat) (ps : properties) (c : conn) : outcome Cn :=
  let '(o, (_, a)) := init fuel ps (Locals_new, Cn_data c) in _ ← o; Ok a.
Definition Connection_login (fuel : nat) (hostName user passwd : str) (c : conn) : outcome Cn :=
  Connection_new fuel
    [("hostName" : str, VString hostName); ("password" : str, VString passwd);
     ("userName" : str, VString user)] c.
End init.
