(* ===== verification/Driver.v ===== *)
(** * mysqlconnector jdbc/driver/mysql_driver.{h,cpp}: drivers

    A driver opens connections with the functions of a client library; there is one
    driver for every name of a library, kept in a map for the lifetime of the program.
    Loading a library is the interface [ClientLibraries].  Also
    mysql_parameter_metadata.cpp, the metadata of parameters: only their number is
    known. *)

From S2P Require Import Prelude Cxx Str Cursor MyVal Fields ResultSet Warnings.
From S2P Require Import Statement ConnectionOptions Uri Connection ConnectionInit.

(** ** Drivers *)

(** [getCApiHandle]: the functions of a library, or the message of a
    [std::runtime_error]; [mysql_init] with them. *)
Class ClientLibraries (R : CResult) (C : CConnection R) := {
  api : Type;
  open_library : str -> str + api;
  conn_init : api -> conn;
}.

Section drivers.
Context `{CSession} `{Session} `{ConnectionFlags} `{!ClientLibraries _ _}.
Context (version : Z).

(** The drivers that were made, and the global map [driver]. *)
Record Drivers := MkDrivers { objects : gmap positive api; driver : gmap str positive }.
Local Abbreviation method := (Method Drivers).

(** [MySQL_Driver::MySQL_Driver] *)
Definition MySQL_Driver (clientLib : str) : outcome api :=
  match open_library clientLib with
  | inl msg => Throw (SqlInvalidArgument msg)
  | inr h => Ok h
  end.

Definition get_driver_instance_by_name (clientlib : str) : method positive :=
  d ← read driver;
  match d !! clientlib with
  | Some p => mret p
  | None =>
      h ← pure (MySQL_Driver clientlib);
      objs ← read objects;
      let p := fresh (dom objs) in
      _ ← update (fun a => MkDrivers (<[p := h]> (objects a)) (<[clientlib := p]> (driver a)));
      mret p
  end.
Definition get_driver_instance : method positive := get_driver_instance_by_name [].

(** [MySQL_Driver::connect]: every connection has its own handle of the C API. *)
Definition driver_at (p : positive) : method api := o ← read objects; pure (deref (o !! p)).
Definition Driver_connect (fuel : nat) (p : positive) (hostName userName password : str) : method Cn :=
  h ← driver_at p; pure (Connection_login version fuel hostName userName password (conn_init h)).
Definition Driver_connect_options (fuel : nat) (p : positive) (options : list (list ascii * Variant))
    : method Cn :=
  h ← driver_at p; pure (Connection_new version fuel options (conn_init h)).

Definition getName : str := "MySQL Connector C++ (libmysql)".

(** ** Facts *)

(** The map points to drivers that were made. *)
Definition drivers_made (a : Drivers) : Prop :=
  forall name p, driver a !! name = Some p -> is_Some (objects a !! p).

(** Asking for a driver: it stays the driver of its name and no other driver changes. *)
Lemma driver_of_name name a :
  drivers_made a ->
  (exists p a', get_driver_instance_by_name name a = (Ok p, a') /\ drivers_made a' /\
     is_Some (objects a' !! p) /\ get_driver_instance_by_name name a' = (Ok p, a') /\
     (forall name', name' <> name -> driver a' !! name' = driver a !! name') /\
     (forall q, is_Some (objects a !! q) -> objects a' !! q = objects a !! q)) \/
  (exists msg, open_library name = inl msg /\
     get_driver_instance_by_name name a = (Throw (SqlInvalidArgument msg), a)).
Proof using.
  intros Ha. unfold get_driver_instance_by_name at 1 3. rewrite !method_read.
  destruct (driver a !! name) as [p|] eqn:E.
  - left. exists p, a. split; [done|]. split; [done|]. split; [by apply (Ha name)|].
    split; [|done]. unfold get_driver_instance_by_name. rewrite method_read. by rewrite E.
  - unfold MySQL_Driver. destruct (open_library name) as [msg|h]; [right; by exists msg|left].
    rewrite method_pure, method_read, method_update. set (p := fresh (dom (objects a))).
    assert (Hp : objects a !! p = None) by (apply not_elem_of_dom, is_fresh).
    eexists p, _. split; [done|]. split; [|split; [|split; [|split]]].
    + intros n q Hq. simpl in *. destruct (decide (n = name)) as [->|Hn].
      * rewrite lookup_insert_eq in Hq. injection Hq as <-. by rewrite lookup_insert_eq.
      * rewrite lookup_insert_ne in Hq by done. destruct (Ha n q Hq) as [x Hx]. exists x.
        rewrite lookup_insert_ne; [done|]. intros <-. congruence.
    + simpl. by rewrite lookup_insert_eq.
    + unfold get_driver_instance_by_name. rewrite method_read. simpl. by rewrite lookup_insert_eq.
    + intros n Hn. simpl. by rewrite lookup_insert_ne.
    + intros q [x Hq]. simpl. rewrite lookup_insert_ne; [done|]. intros <-. congruence.
Qed.
End drivers.

(** ** mysql_parameter_metadata.cpp *)

Record MySQL_ParameterMetaData := ParameterMetaData_new { param_count : Z }.

Definition getParameterCount (m : MySQL_ParameterMetaData) : Z := to_int (param_count m).

(** The message of the other methods names the first of them. *)
Definition no_parameter_data {A} : outcome A :=
  Throw (MethodNotImplemented "MySQL_ParameterMetaData::getParameterClassName()").
Definition getParameterClassName (m : MySQL_ParameterMetaData) (paramNo : Z) : outcome str :=
  no_parameter_data.
Definition getParameterMode (m : MySQL_ParameterMetaData) (paramNo : Z) : outcome Z := no_parameter_data.
Definition getParameterType (m : MySQL_ParameterMetaData) (paramNo : Z) : outcome Z := no_parameter_data.
Definition getParameterTypeName (m : MySQL_ParameterMetaData) (paramNo : Z) : outcome str :=
  no_parameter_data.
Definition param_getPrecision (m : MySQL_ParameterMetaData) (paramNo : Z) : outcome Z := no_parameter_data.
Definition param_getScale (m : MySQL_ParameterMetaData) (paramNo : Z) : outcome Z := no_parameter_data.
Definition param_isNullable (m : MySQL_ParameterMetaData) (paramNo : Z) : outcome Z := no_parameter_data.
Definition param_isSigned (m : MySQL_ParameterMetaData) (paramNo : Z) : outcome bool := no_parameter_data.
