(* ===== verification/Server.v ===== *)
(** * What statements and connections tell the server

    The documented behaviour of the C API on a server on which every call succeeds, as an
    interface: a query leaves its answers pending, the first is the current one, and
    everything the server is told is logged ([Server], [Accepting]).  What statements and
    connections do is proved against it; [memory_server] implements it. *)

From S2P Require Import Prelude Cxx Str Cursor MyVal Fields ResultSet Warnings.
From S2P Require Import Statement ConnectionOptions Uri Connection.

(** The last element of a list; [last] is a move of a result set. *)
Abbreviation last_of := list_basics.list.last.

(** ** Answers and events *)

Inductive answer := Rows (rows : list crow) | Count (n : Z).
Definition is_rows (x : answer) : bool := match x with Rows _ => true | Count _ => false end.

(** The arguments of [mysql_real_connect]. *)
Record login := MkLogin {
  l_host : option str; l_user : str; l_password : option str; l_schema : option str;
  l_port : Z; l_socket : option str; l_flags : Z;
}.

Inductive event :=
| EQuery (q : str) | EOption (o : MySQL_Connection_Options) (a : option_arg)
| EProtocol (p : Protocol_Type) | EConnect (l : login) | EAutocommit (b : bool) | EPing.

Class Server (R : CResult) (SR : StoredResult R) (C : CConnection R) := {
  (** what the server answers to a query *)
  answers : str -> list answer;
  (** the answers that were not passed; the first is the current one *)
  pending : conn -> list answer;
  events : conn -> list event;
  query_answers c q :
    exists c', conn_query c q = (0, c') /\ pending c' = answers q /\ events c' = events c ++ [EQuery q];
  field_count_rows c :
    (conn_field_count c =? 0) = match pending c with Rows _ :: _ => false | _ => true end;
  affected_count c n l : pending c = Count n :: l -> conn_affected_rows c = n;
  more_pending c : conn_more_results c = (1 <? length (pending c))%nat;
  next_passes c x y l : pending c = x :: y :: l ->
    exists c', conn_next_result c = (0, c') /\ pending c' = y :: l /\ events c' = events c;
  store_keeps c : exists r c', conn_store_result c = (r, c') /\ pending c' = pending c /\
    events c' = events c;
  store_rows c rows l : pending c = Rows rows :: l ->
    exists r, (conn_store_result c).1 = Some r /\ stored r rows 0;
}.

(** Options are accepted, the connection is opened. *)
Class Accepting (R : CResult) (SR : StoredResult R) (C : CConnection R) (S : Server R SR C)
    (Q : CSession R C) := {
  option_accepted c o a :
    exists c', set_option c o a = Ok c' /\ events c' = events c ++ [EOption o a];
  protocol_used c p : events (conn_use_protocol c p) = events c ++ [EProtocol p];
  connect_accepted c h u p d n k f :
    exists c', conn_connect c h u p d n k f = (true, c') /\
      events c' = events c ++ [EConnect (MkLogin h u p d n k f)];
  autocommit_accepted c b :
    exists x c', conn_autocommit c b = (x, c') /\ events c' = events c ++ [EAutocommit b];
  ping_told c : exists x c', conn_ping c = (x, c') /\ events c' = events c ++ [EPing];
}.

(** ** A server in memory *)

Section memory.
Context (fields : list field) (reply : str -> list answer) (server_version : Z).

Record memory_server := MkServer { m_events : list event; m_pending : list answer }.
Definition log (e : event) (c : memory_server) : memory_server :=
  MkServer (m_events c ++ [e]) (m_pending c).
Definition current_rows (c : memory_server) : option (list crow * nat) :=
  match m_pending c with Rows rows :: _ => Some (rows, 0%nat) | _ => None end.

#[export] Instance server_connection : CConnection (in_memory fields) := {|
  conn := memory_server;
  conn_query c q := (0, MkServer (m_events c ++ [EQuery q]) (reply q));
  conn_errno _ := 0;
  conn_error _ := [];
  conn_warning_count _ := 0;
  conn_field_count c := match m_pending c with Rows _ :: _ => 1 | _ => 0 end;
  conn_affected_rows c := match m_pending c with Count n :: _ => n | _ => 2 ^ 64 - 1 end;
  conn_more_results c := (1 <? length (m_pending c))%nat;
  conn_next_result c :=
    match m_pending c with
    | _ :: y :: l => (0, MkServer (m_events c) (y :: l))
    | _ => (-1, c)
    end;
  conn_use_result c := (current_rows c : option (@res (in_memory fields)), c);
  conn_store_result c := (current_rows c : option (@res (in_memory fields)), c);
|}.

#[export] Instance server_session : CSession (in_memory fields) server_connection := {|
  conn_autocommit (c : @conn _ server_connection) b := (false, log (EAutocommit b) c);
  conn_commit (c : @conn _ server_connection) := (false, c);
  conn_rollback (c : @conn _ server_connection) := (false, c);
  conn_server_version _ := server_version;
  conn_ping (c : @conn _ server_connection) := (0, log EPing c);
  conn_info _ := None;
  conn_escape _ s := s;
  conn_mbminlen _ := 1;
  conn_mbmaxlen _ := 3;
  conn_charset_dir _ := None;
  conn_options := {|
    set_option (c : @conn _ server_connection) o a := Ok (log (EOption o a) c);
    get_option _ _ := Ok ArgNull;
    type_name _ := [];
  |};
  conn_use_protocol (c : @conn _ server_connection) p := log (EProtocol p) c;
  conn_ssl_set c _ := c;
  conn_connect (c : @conn _ server_connection) h u p d n k f := (true, log (EConnect (MkLogin h u p d n k f)) c);
|}.

#[export] Instance server_answers : Server (in_memory fields) (in_memory_stored fields) server_connection.
Proof using.
  refine {| answers := reply; pending (c : @conn _ server_connection) := m_pending c;
    events (c : @conn _ server_connection) := m_events c |}.
  - intros c q. by eexists.
  - intros c. simpl. by destruct (m_pending c) as [|[]].
  - intros c n l E. simpl. by rewrite E.
  - done.
  - intros c x y l E. simpl. rewrite E. by eexists.
  - intros c. by eexists _, _.
  - intros c rows l E. exists (rows, 0%nat). simpl. unfold current_rows. by rewrite E.
Defined.

#[export] Instance server_accepts :
  Accepting (in_memory fields) (in_memory_stored fields) server_connection server_answers server_session.
Proof using.
  split; [by eexists|done|by eexists|by eexists _, _|by eexists _, _].
Defined.
End memory.

(** ** Statements *)

Section statements.
Context (R : CResult) (SR : StoredResult R) (C : CConnection R) (S : Server R SR C).

Lemma statement_open (s : St) (c : option conn) :
  Statement.isClosed s = false -> Statement.checkClosed (s, c) = (Ok tt, (s, c)).
Proof using. intros E. unfold Statement.checkClosed, member. by rewrite method_read; cbn [fst]; rewrite E. Qed.
Lemma statement_closed (s : St) (c : option conn) :
  Statement.isClosed s = true ->
  Statement.checkClosed (s, c) = (Throw (InvalidInstance "Statement has been closed"), (s, c)).
Proof using. intros E. unfold Statement.checkClosed, member. by rewrite method_read; cbn [fst]; rewrite E. Qed.

Lemma on_conn_ok {A} (f : conn -> A * conn) s c x c' :
  f c = (x, c') -> Statement.on_conn f (s, Some c) = (Ok x, (s, Some c')).
Proof using. intros E. unfold Statement.on_conn. rewrite method_read. simpl. by rewrite E. Qed.
Lemma ask_ok {A} (f : conn -> A) s c : Statement.ask f (s, Some c) = (Ok (f c), (s, Some c)).
Proof using. by apply on_conn_ok. Qed.
Lemma lock_ok s c : lock (s, Some c) = (Ok c, (s, Some c)).
Proof using. done. Qed.

(** The members after a query. *)
Definition queried (c : conn) (s : St) : St :=
  Statement.set_loaded false (Statement.set_warningsCount (conn_warning_count c) s).

Lemma statement_query_ok q s c :
  Statement.isClosed s = false ->
  exists c', Statement.do_query q (s, Some c) = (Ok tt, (queried c' s, Some c')) /\
    pending c' = answers q /\ events c' = events c ++ [EQuery q].
Proof using S.
  intros Ho. destruct (query_answers c q) as (c' & E & Hp & He). exists c'. split; [|done].
  unfold Statement.do_query. rewrite (method_bind_ok (statement_open s _ Ho)).
  rewrite (method_bind_ok (lock_ok s c)).
  rewrite (method_bind_ok (on_conn_ok (fun c => conn_query c q) s c 0 c' E)).
  rewrite (method_bind_ok (ask_ok conn_errno s c')). cbn [Z.eqb negb andb].
  rewrite (method_bind_ok (s' := (s, Some c')) (a := tt) eq_refl).
  by rewrite (method_bind_ok (ask_ok conn_warning_count s c')).
Qed.

(** What [executeUpdate] answers to pending answers. *)
Definition update_answer (got_rs : bool) (l : list answer) : outcome Z :=
  if got_rs || existsb is_rows l then Throw (SqlInvalidArgument "Statement returning result set")
  else Ok (to_int (match last_of l with Some (Count n) => n | _ => NO_COUNT end)).

Lemma update_answer_next got_rs x y l :
  update_answer (is_rows x || got_rs) (y :: l) = update_answer got_rs (x :: y :: l).
Proof using.
  unfold update_answer. cbn [existsb]. rewrite <- orb_assoc, (orb_comm (is_rows x)), <- !orb_assoc.
  by rewrite (orb_comm (is_rows x) (is_rows y || _)), <- ?orb_assoc.
Qed.

(** One turn, up to the question for more results. *)
Definition turn (s : St) (x : answer) : St :=
  match x with Rows _ => s | Count n => Statement.set_count n s end.

Lemma update_turn got_rs fuel s c x l :
  pending c = x :: l ->
  exists c', pending c' = x :: l /\ events c' = events c /\
    update_loop (Datatypes.S fuel) got_rs (s, Some c) =
      (if negb (1 <? Datatypes.S (length l))%nat then
         if is_rows x || got_rs then throw (SqlInvalidArgument "Statement returning result set")
         else k ← member last_update_count; mret (to_int k)
       else
         r ← Statement.on_conn conn_next_result;
         if r =? 0 then update_loop fuel (is_rows x || got_rs)
         else if r =? -1 then
           throw (SqlError "Impossible! more_results() said true, next_result says no more results")
         else Statement.throwSQLException) (turn s x, Some c').
Proof using S.
  intros Hp. pose proof (field_count_rows c) as Hf. rewrite Hp in Hf.
  assert (Hm : forall c', pending c' = x :: l ->
    conn_more_results c' = (1 <? Datatypes.S (length l))%nat).
  { intros c' E. by rewrite more_pending, E. }
  cbn [update_loop]. destruct x as [rows|n]; cbn [is_rows turn orb].
  - destruct (store_keeps c) as (r & c' & E & Hp' & He). rewrite Hp in Hp'. exists c'.
    split; [done|]. split; [done|]. rewrite (method_bind_ok (ask_ok conn_field_count s c)), Hf. cbn [negb].
    assert (Ed : dirty_drop_rs (s, Some c) = (Ok tt, (s, Some c'))).
    { unfold dirty_drop_rs. by rewrite (method_bind_ok (on_conn_ok conn_store_result s c r c' E)). }
    rewrite (method_bind_ok Ed), (method_bind_ok (ask_ok conn_more_results s c')), (Hm c') by done. done.
  - exists c. split; [done|]. split; [done|].
    rewrite (method_bind_ok (ask_ok conn_field_count s c)), Hf. cbn [negb].
    assert (Ec : (rows ← Statement.ask conn_affected_rows; change (Statement.set_count rows)) (s, Some c) =
      (Ok tt, (Statement.set_count n s, Some c))).
    { rewrite (method_bind_ok (ask_ok conn_affected_rows s c)). by rewrite (affected_count c n l Hp). }
    rewrite (method_bind_ok Ec), (method_bind_ok (ask_ok conn_more_results _ c)), (Hm c) by done.
    by destruct got_rs.
Qed.

(** The loop passes all pending answers. *)
Lemma update_loop_ok l x fuel got_rs s c :
  pending c = x :: l -> (length l < fuel)%nat ->
  exists s' c', update_loop fuel got_rs (s, Some c) = (update_answer got_rs (x :: l), (s', Some c')) /\
    option_list (last_of (x :: l)) = pending c' /\ events c' = events c /\
    Statement.isClosed s' = Statement.isClosed s.
Proof using S.
  revert x fuel got_rs s c. induction l as [|y l IH]; intros x fuel got_rs s c Hp Hf;
    (destruct fuel as [|fuel]; [simpl in Hf; lia|]);
    destruct (update_turn got_rs fuel s c x _ Hp) as (c1 & Hp1 & He1 & ->); cbn [length Nat.ltb Nat.leb negb].
  - exists (turn s x), c1. destruct x as [rows|n], got_rs; by split.
  - destruct (next_passes c1 x y l Hp1) as (c2 & E2 & Hp2 & He2).
    rewrite (method_bind_ok (on_conn_ok conn_next_result _ c1 0 c2 E2)). cbn [Z.eqb].
    destruct (IH y fuel (is_rows x || got_rs) (turn s x) c2 Hp2) as (s' & c' & E & Hl & He & Ho);
      [simpl in Hf; lia|].
    exists s', c'. rewrite E, update_answer_next. split; [done|]. split; [done|].
    split; [by rewrite He, He2|]. rewrite Ho. by destruct x.
Qed.

Lemma executeUpdate_ok fuel q s c :
  Statement.isClosed s = false -> answers q <> [] -> (length (answers q) <= fuel)%nat ->
  exists s' c', executeUpdate fuel q (s, Some c) = (update_answer false (answers q), (s', Some c')) /\
    option_list (last_of (answers q)) = pending c' /\ events c' = events c ++ [EQuery q] /\
    Statement.isClosed s' = false.
Proof using S.
  intros Ho Ha Hf. destruct (statement_query_ok q s c Ho) as (c1 & E1 & Hp1 & He1).
  destruct (answers q) as [|x l]; [done|].
  destruct (update_loop_ok l x fuel false (queried c1 s) c1 Hp1) as (s' & c' & E & Hl & He & Ho');
    [simpl in Hf; lia|].
  exists s', c'. unfold executeUpdate. rewrite (method_bind_ok (statement_open s _ Ho)), (method_bind_ok E1).
  rewrite (method_bind_ok (lock_ok (queried c1 s) c1)), E, <- He1, He. by rewrite Ho'.
Qed.

(** [execute] leaves the answers pending. *)
Lemma statement_execute_ok q s c :
  Statement.isClosed s = false ->
  exists b s' c', Statement.execute q (s, Some c) = (Ok b, (s', Some c')) /\
    pending c' = answers q /\ events c' = events c ++ [EQuery q] /\ Statement.isClosed s' = false.
Proof using S.
  intros Ho. destruct (statement_query_ok q s c Ho) as (c1 & E1 & Hp1 & He1).
  unfold Statement.execute. rewrite (method_bind_ok (statement_open s _ Ho)), (method_bind_ok E1).
  rewrite (method_bind_ok (lock_ok (queried c1 s) c1)).
  rewrite (method_bind_ok (ask_ok conn_field_count _ c1)), (method_bind_ok (ask_ok conn_affected_rows _ c1)).
  by eexists _, _, c1.
Qed.

(** A query with rows gives a result set before the first of them. *)
Lemma executeQuery_ok q s c rows l :
  Statement.isClosed s = false -> Statement.resultset_type s <> TYPE_FORWARD_ONLY ->
  answers q = Rows rows :: l ->
  exists r p s' c', Statement.executeQuery q (s, Some c) =
      (Ok (Rs_new r p TYPE_SCROLL_INSENSITIVE), (s', Some c')) /\
    stored r rows 0 /\ pending c' = answers q /\ events c' = events c ++ [EQuery q] /\
    Statement.isClosed s' = false /\ Statement.resultset_type s' = Statement.resultset_type s.
Proof using S.
  intros Ho Ht Ha. set (s0 := Statement.set_count NO_COUNT s).
  destruct (statement_query_ok q s0 c Ho) as (c1 & E1 & Hp1 & He1).
  rewrite Ha in Hp1. destruct (store_rows c1 rows l Hp1) as (r & Er & Hst).
  destruct (store_keeps c1) as (r' & c2 & E2 & Hp2 & He2). rewrite E2 in Er. simpl in Er. subst r'.
  set (s1 := queried c1 s0) in *.
  assert (Hty : (Statement.resultset_type s1 =? TYPE_FORWARD_ONLY) = false) by by apply Z.eqb_neq.
  assert (Eg : get_resultset (s1, Some c1) = (Ok r, (s1, Some c2))).
  { unfold get_resultset. rewrite (method_bind_ok (statement_open s1 _ Ho)).
    rewrite (method_bind_ok (lock_ok s1 c1)). unfold member. rewrite method_read.
    cbn [fst]. rewrite Hty. by rewrite (method_bind_ok (on_conn_ok conn_store_result s1 c1 (Some r) c2 E2)). }
  eexists r, _, s1, c2. unfold Statement.executeQuery. rewrite (method_bind_ok (statement_open s _ Ho)).
  unfold change at 1. rewrite method_update. cbn [fst snd]. fold s0.
  rewrite (method_bind_ok E1), (method_bind_ok Eg). unfold member. rewrite method_read. cbn [fst].
  unfold new_result, result_type. rewrite Hty.
  rewrite (method_bind_ok (ask_ok conn_errno s1 c2)), (method_bind_ok (ask_ok conn_error s1 c2)).
  split; [done|]. split; [done|]. rewrite Ha, Hp2, He2, Hp1. by split.
Qed.
End statements.
