(* ===== verification/OpenConnection.v ===== *)
(** * Connections to a server on which every call succeeds

    What the methods of an open connection tell the server ([Server], [Accepting]), and
    what opening a connection with a host, a user and a password does. *)

From S2P Require Import Prelude Cxx Str Cursor MyVal Fields ResultSet Warnings.
From S2P Require Import Statement ConnectionOptions Uri Connection ConnectionInit Server.

(** ** Methods of an open connection *)

Section open.
Context (R : CResult) (SR : StoredResult R) (C : CConnection R) (S : Server R SR C)
  (Q : CSession R C).

(** A connection that is open, and whose server was told [es]. *)
Record session_at (a : Cn) (es : list event) : Prop := SessionAt {
  at_valid : is_valid a = true;
  at_service : Statement.isClosed (service a) = false;
  at_type : defaultStatementResultType a <> TYPE_FORWARD_ONLY;
  at_proxy : exists c, proxy a = Some c /\ events c = es;
}.

Lemma connection_open a : is_valid a = true -> Connection.checkClosed a = (Ok tt, a).
Proof using. intros E. unfold Connection.checkClosed. by rewrite method_read, E. Qed.
Lemma connection_closed a :
  is_valid a = false -> Connection.checkClosed a = (Throw (SqlError "Connection has been closed"), a).
Proof using. intros E. unfold Connection.checkClosed. by rewrite method_read, E. Qed.

Lemma connection_call {A} (f : conn -> A * conn) a c x c' :
  proxy a = Some c -> f c = (x, c') ->
  Connection.on_conn f a = (Ok x, Connection.set_proxy (Some c') a).
Proof using. intros Ha Hf. unfold Connection.on_conn. rewrite method_read, Ha. by rewrite Hf. Qed.
Lemma connection_ask {A} (f : conn -> A) a c : proxy a = Some c -> Connection.ask f a = (Ok (f c), a).
Proof using.
  intros Ha. etransitivity; [by apply (connection_call (fun c => (f c, c)) a c (f c) c Ha)|].
  destruct a; simpl in *. by subst.
Qed.

Lemma connection_try f a c c' :
  proxy a = Some c -> f c = Ok c' -> try_conn f a = (Ok tt, Connection.set_proxy (Some c') a).
Proof using. intros Ha Hf. unfold try_conn. rewrite method_read, Ha, Hf. done. Qed.

Lemma on_service_ok {A} (m : Method (St * option conn) A) a o s c :
  m (service a, proxy a) = (o, (s, c)) ->
  on_service m a = (o, set_service s (Connection.set_proxy c a)).
Proof using. intros E. unfold on_service. by rewrite E. Qed.

(** A query of a statement that is made for it. *)
Lemma with_statement_ok q a es :
  session_at a es ->
  exists b c', with_statement (Statement.execute q) a = (Ok b, Connection.set_proxy (Some c') a) /\
    events c' = es ++ [EQuery q].
Proof using S.
  intros [Hv _ _ (c & Hc & He)].
  destruct (statement_execute_ok R SR C S q (St_new (defaultStatementResultType a)) c eq_refl)
    as (b & s' & c' & E & _ & He' & _).
  exists b, c'. split; [|by rewrite He', He]. unfold with_statement, createStatement.
  assert (Em : (_ ← Connection.checkClosed; t ← read defaultStatementResultType; mret (St_new t)) a =
    (Ok (St_new (defaultStatementResultType a)), a)) by by rewrite (method_bind_ok (connection_open a Hv)).
  rewrite (method_bind_ok Em). unfold run_statement. by rewrite Hc, E.
Qed.

Lemma told_proxy a es c' e :
  session_at a es -> events c' = es ++ [e] -> session_at (Connection.set_proxy (Some c') a) (es ++ [e]).
Proof using. intros [H1 H2 H3 _] He. split; try done. by exists c'. Qed.

(** An update of the service statement that gives a count. *)
Lemma service_update_ok fuel q n a es :
  session_at a es -> answers q = [Count n] -> (0 < fuel)%nat ->
  exists s' c', on_service (Statement.executeUpdate fuel q) a =
      (Ok (to_int n), set_service s' (Connection.set_proxy (Some c') a)) /\
    session_at (set_service s' (Connection.set_proxy (Some c') a)) (es ++ [EQuery q]).
Proof using S.
  intros [Hv Hs Ht (c & Hc & He)] Ha Hf.
  destruct (executeUpdate_ok R SR C S fuel q (service a) c Hs) as (s' & c' & E & _ & He' & Ho);
    rewrite ?Ha; [done|simpl; lia|].
  rewrite Ha in E. exists s', c'.
  rewrite (on_service_ok _ a (update_answer false [Count n]) s' (Some c')) by by rewrite Hc.
  split; [done|]. split; try done. exists c'. split; [done|]. by rewrite He', He.
Qed.

Lemma setTransactionIsolation_ok fuel level q n a es :
  session_at a es -> isolation_query level = Some q -> answers q = [Count n] -> (0 < fuel)%nat ->
  exists a', setTransactionIsolation fuel level a = (Ok tt, a') /\ session_at a' (es ++ [EQuery q]) /\
    txIsolationLevel a' = level /\ autocommit a' = autocommit a.
Proof using S.
  intros Ha Hl Hq Hf. unfold setTransactionIsolation.
  rewrite (method_bind_ok (connection_open a (at_valid _ _ Ha))), Hl, method_update.
  assert (Ha1 : session_at (set_isolation level a) es) by by destruct Ha; split.
  destruct (service_update_ok fuel q n _ es Ha1 Hq Hf) as (s' & c' & E & Ha').
  eexists. rewrite (method_bind_ok E). split; [done|]. by split.
Qed.

Lemma setAutoCommit_ok `{!Accepting R SR C S Q} b a es :
  session_at a es ->
  exists c', setAutoCommit b a = (Ok tt, set_autocommit b (Connection.set_proxy (Some c') a)) /\
    events c' = es ++ [EAutocommit b].
Proof using S.
  intros [Hv _ _ (c & Hc & He)]. destruct (autocommit_accepted c b) as (x & c' & E & He').
  exists c'. split; [|by rewrite He', He]. unfold setAutoCommit.
  rewrite (method_bind_ok (connection_open a Hv)).
  by rewrite (method_bind_ok (connection_call (fun c => conn_autocommit c b) a c x c' Hc E)).
Qed.
(** Savepoints of a connection that does not commit on its own. *)
Lemma autocommit_read a : is_valid a = true -> getAutoCommit a = (Ok (autocommit a), a).
Proof using. intros Hv. unfold getAutoCommit. by rewrite (method_bind_ok (connection_open a Hv)). Qed.
Lemma refuse_autocommit_off a :
  is_valid a = true -> autocommit a = false -> refuse_autocommit a = (Ok tt, a).
Proof using.
  intros Hv Ha. unfold refuse_autocommit. rewrite (method_bind_ok (autocommit_read a Hv)). by rewrite Ha.
Qed.
Definition autocommit_refused : exn := SqlInvalidArgument "The connection is in autoCommit mode".
Lemma refuse_autocommit_on a :
  is_valid a = true -> autocommit a = true -> refuse_autocommit a = (Throw autocommit_refused, a).
Proof using.
  intros Hv Ha. unfold refuse_autocommit. rewrite (method_bind_ok (autocommit_read a Hv)). by rewrite Ha.
Qed.

(** The query of a method on savepoints. *)
Lemma savepoint_query q a es :
  session_at a es -> autocommit a = false ->
  exists a', (_ ← refuse_autocommit; _ ← with_statement (Statement.execute q); mret tt) a = (Ok tt, a') /\
    session_at a' (es ++ [EQuery q]) /\ autocommit a' = false.
Proof using S.
  intros Ha Hc. destruct (with_statement_ok q a es Ha) as (b & c & E & He).
  exists (Connection.set_proxy (Some c) a).
  rewrite (method_bind_ok (refuse_autocommit_off a (at_valid _ _ Ha) Hc)), (method_bind_ok E).
  split; [done|]. split; [by apply told_proxy|done].
Qed.

Lemma setSavepoint_ok name a es :
  session_at a es -> autocommit a = false -> name <> [] ->
  exists a', setSavepoint name a = (Ok (Savepoint_new name), a') /\
    session_at a' (es ++ [EQuery ("SAVEPOINT " ++ name)]) /\ autocommit a' = false.
Proof using S.
  intros Ha Hc Hn. destruct (with_statement_ok ("SAVEPOINT " ++ name) a es Ha) as (b & c & E & He).
  exists (Connection.set_proxy (Some c) a). unfold setSavepoint.
  rewrite (method_bind_ok (connection_open a (at_valid _ _ Ha))).
  rewrite (method_bind_ok (refuse_autocommit_off a (at_valid _ _ Ha) Hc)).
  rewrite (proj2 (Z.eqb_neq _ _)) by by intros ?%size_zero. rewrite (method_bind_ok E).
  split; [done|]. split; [by apply told_proxy|done].
Qed.

Lemma rollback_to_ok name a es :
  session_at a es -> autocommit a = false ->
  exists a', rollback_to (Savepoint_new name) a = (Ok tt, a') /\
    session_at a' (es ++ [EQuery ("ROLLBACK TO SAVEPOINT " ++ name)]) /\ autocommit a' = false.
Proof using S.
  intros Ha Hc. unfold rollback_to. rewrite (method_bind_ok (connection_open a (at_valid _ _ Ha))).
  by apply savepoint_query.
Qed.

(** A server that knows savepoints. *)
Definition knows_savepoints : Prop := forall c, 50001 <= conn_server_version c.

Lemma releaseSavepoint_starts name a es :
  session_at a es -> knows_savepoints ->
  releaseSavepoint (Savepoint_new name) a =
    (_ ← refuse_autocommit;
     _ ← with_statement (Statement.execute ("RELEASE SAVEPOINT " ++ name)); mret tt) a.
Proof using.
  intros [Hv _ _ (c & Hc & _)] Hk. unfold releaseSavepoint.
  rewrite (method_bind_ok (connection_open a Hv)), (method_bind_ok (connection_ask conn_server_version a c Hc)).
  by rewrite (proj2 (Z.ltb_ge _ _)) by apply Hk.
Qed.

(** Asking whether the server is there. *)
Lemma set_reconnect_ok `{!Accepting R SR C S Q} b a es :
  session_at a es ->
  exists c, set_reconnect_option b a = (Ok tt, Connection.set_proxy (Some c) a) /\
    session_at (Connection.set_proxy (Some c) a) (es ++ [EOption MYSQL_OPT_RECONNECT (ArgBool b)]).
Proof using S.
  intros Ha. destruct (at_proxy _ _ Ha) as (c & Hc & He).
  destruct (option_accepted c MYSQL_OPT_RECONNECT (ArgBool b)) as (c' & E & He'). exists c'.
  split; [|apply told_proxy; [done|by rewrite He', He]]. unfold set_reconnect_option.
  apply (connection_try _ a c c' Hc). unfold options_as, catch_invalid. by rewrite E.
Qed.

Lemma ping_ok `{!Accepting R SR C S Q} a es :
  session_at a es ->
  exists x c, ping a = (Ok x, Connection.set_proxy (Some c) a) /\
    session_at (Connection.set_proxy (Some c) a) (es ++ [EPing]).
Proof using S.
  intros Ha. destruct (at_proxy _ _ Ha) as (c & Hc & He). destruct (ping_told c) as (x & c' & E & He').
  exists x, c'. split; [by apply (connection_call conn_ping a c x c' Hc E)|].
  apply told_proxy; [done|by rewrite He', He].
Qed.

(** A ping with the option set around it, and one without. *)
Lemma ping_around `{!Accepting R SR C S Q} b a es :
  session_at a es ->
  exists x a', (_ ← set_reconnect_option b; is_active ← ping; _ ← set_reconnect_option (negb b);
      mret (is_active =? 0)) a = (Ok x, a') /\
    session_at a' (es ++ [EOption MYSQL_OPT_RECONNECT (ArgBool b); EPing;
      EOption MYSQL_OPT_RECONNECT (ArgBool (negb b))]).
Proof using S.
  intros Ha. destruct (set_reconnect_ok b a es Ha) as (c1 & E1 & H1).
  destruct (ping_ok _ _ H1) as (x & c2 & E2 & H2).
  destruct (set_reconnect_ok (negb b) _ _ H2) as (c3 & E3 & H3). eexists (x =? 0), _.
  rewrite (method_bind_ok E1), (method_bind_ok E2), (method_bind_ok E3).
  split; [done|]. by rewrite <- !app_assoc in H3.
Qed.
Lemma ping_alone `{!Accepting R SR C S Q} a es :
  session_at a es ->
  exists x a', (is_active ← ping; mret (is_active =? 0)) a = (Ok x, a') /\ session_at a' (es ++ [EPing]).
Proof using S.
  intros Ha. destruct (ping_ok a es Ha) as (x & c & E & H). eexists (x =? 0), _.
  by rewrite (method_bind_ok E).
Qed.
End open.

(** ** Opening *)

Section opening.
Context (R : CResult) (SR : StoredResult R) (C : CConnection R) (S : Server R SR C)
  (Q : CSession R C) (A : Accepting R SR C S Q) (F : ConnectionFlags).
Context (version : Z).

(** The table lookups for the properties of a host, a user and a password find nothing. *)
Lemma hostName_entries :
  find_entry true "hostName" (intOptions version) = None /\
  find_entry true "hostName" (booleanOptions version) = None /\
  find_entry true "hostName" stringOptions = None.
Proof using.
  unfold intOptions, booleanOptions.
  by destruct (80000 <=? version), (version <? 80000).
Qed.

Lemma process_unknown k table name v l a c :
  proxy a = Some c -> find_entry true name table = None ->
  process k table name v (l, a) = (Ok false, (l, a)).
Proof using.
  intros Ha Hn. unfold process, on_connection, process_connection_option, read, update, pure, mret, mbind,
    Method_ret, Method_bind, outcome_bind. cbn [fst snd]. rewrite Ha, Hn. cbn [fst snd].
  destruct a; simpl in *. by subst.
Qed.

Lemma hostName_property v l a c :
  proxy a = Some c -> one_property version "hostName" v (l, a) = (Ok tt, (l, a)).
Proof using.
  intros Ha. destruct hostName_entries as (E1 & E2 & E3).
  transitivity (other_property version "hostName" v (l, a)).
  { unfold one_property. rewrite andb_false_r by done. by destruct (80000 <? version). }
  unfold other_property.
  rewrite (method_bind_ok (process_unknown KindInt _ _ v l a c Ha E1)).
  rewrite (method_bind_ok (process_unknown KindBool _ _ v l a c Ha E2)).
  rewrite (method_bind_ok (process_unknown KindString _ _ v l a c Ha E3)).
  by destruct l.
Qed.

Lemma login_properties host user pw l a c :
  proxy a = Some c ->
  all_properties version [("hostName" : str, VString host); ("password" : str, VString pw);
    ("userName" : str, VString user)] (l, a) = (Ok tt, (set_userName user (set_password pw l), a)).
Proof using. intros Ha. cbn [all_properties]. by rewrite (method_bind_ok (hostName_property _ l a c Ha)). Qed.

Lemma set_named_ok name o x l a c :
  proxy a = Some c ->
  exists c', set_named name o x (l, a) = (Ok tt, (l, Connection.set_proxy (Some c') a)) /\
    events c' = events c ++ [EOption o x].
Proof using A.
  intros Ha. destruct (option_accepted c o x) as (c' & E & He). exists c'. split; [|done].
  unfold set_named, on_connection. cbn [fst snd].
  by rewrite (connection_try R C _ a c c' Ha) by (unfold options_as, catch_invalid; by rewrite E).
Qed.

(** What the server is told before the connection is opened. *)
Definition setup_events (u : MySQL_Uri) : list event :=
  EProtocol (protocol u) ::
  (if version <? 80000 then [EOption MYSQL_SECURE_AUTH (ArgBool true)] else []) ++
  [EOption MYSQL_SET_CHARSET_NAME (ArgString "utf8")].
(** The events of a login. *)
Definition login_events (u : MySQL_Uri) (h user pw : str) : list event :=
  setup_events u ++
  [EConnect (MkLogin (nullIfEmpty h) (c_str user) (nullIfEmpty pw) (nullIfEmpty (schema u))
     (Port u mod 2 ^ 32) (nullIfEmpty (SocketOrPipe u)) CLIENT_MULTI_RESULTS);
   EAutocommit true; EQuery "SET SESSION TRANSACTION ISOLATION LEVEL REPEATABLE READ"].

(** The locals after the properties of a login. *)
Definition login_locals (u : MySQL_Uri) (user pw : str) : Locals :=
  set_userName user (set_password pw (set_uri u Locals_new)).

Lemma before_connect_ok u user pw ps a c :
  proxy a = Some c -> protocol u <> PROTOCOL_PIPE -> find_property "OPT_SSL_MODE" ps = None ->
  exists c', before_connect version ps (login_locals u user pw, a) =
      (Ok tt, (login_locals u user pw, Connection.set_proxy (Some c') a)) /\
    events c' = events c ++ setup_events u.
Proof using A.
  intros Ha Hp Hps. set (l := login_locals u user pw). unfold before_connect. rewrite method_read.
  change (uri (fst (l, a))) with u. rewrite bool_decide_false by done.
  rewrite (method_bind_ok (a := tt) (s' := (l, a)) eq_refl).
  set (c1 := conn_use_protocol c (protocol u)).
  assert (E1 : on_connection (Connection.on_conn (fun c => (tt, conn_use_protocol c (protocol u)))) (l, a) =
    (Ok tt, (l, Connection.set_proxy (Some c1) a))).
  { unfold on_connection. cbn [fst snd].
    by rewrite (connection_call R C (fun c => (tt, conn_use_protocol c (protocol u))) a c tt c1 Ha eq_refl). }
  rewrite (method_bind_ok E1), method_read. cbn [fst].
  assert (E2 : exists c2, (if version <? 80000 then
      set_named "MYSQL_SECURE_AUTH" MYSQL_SECURE_AUTH (ArgBool (secure_auth l)) else mret tt)
        (l, Connection.set_proxy (Some c1) a) = (Ok tt, (l, Connection.set_proxy (Some c2) a)) /\
    events c2 = events c1 ++ if version <? 80000 then [EOption MYSQL_SECURE_AUTH (ArgBool true)] else []).
  { destruct (version <? 80000).
    - by apply (set_named_ok _ MYSQL_SECURE_AUTH (ArgBool true) l (Connection.set_proxy (Some c1) a) c1).
    - exists c1. by rewrite app_nil_r. }
  destruct E2 as (c2 & E2 & He2). rewrite (method_bind_ok E2).
  destruct (set_named_ok "MYSQL_SET_CHARSET_NAME" MYSQL_SET_CHARSET_NAME (ArgString (c_str (defaultCharset l)))
    l (Connection.set_proxy (Some c2) a) c2 eq_refl) as (c3 & E3 & He3).
  exists c3. rewrite (method_bind_ok E3). rewrite (method_bind_ok (a := tt)
    (s' := (l, Connection.set_proxy (Some c3) a)) eq_refl), Hps. split; [done|].
  rewrite He3, He2. unfold c1, setup_events. rewrite protocol_used. by rewrite <- !app_assoc.
Qed.

Lemma connect_ok u h user pw a c :
  proxy a = Some c -> Host u = Ok h ->
  exists c', connect (login_locals u user pw, a) =
      (Ok tt, (login_locals u user pw, Connection.set_proxy (Some c') a)) /\
    events c' = events c ++ [EConnect (MkLogin (nullIfEmpty h) (c_str user) (nullIfEmpty pw)
      (nullIfEmpty (schema u)) (Port u mod 2 ^ 32) (nullIfEmpty (SocketOrPipe u)) CLIENT_MULTI_RESULTS)].
Proof using A.
  intros Ha Hh. set (l := login_locals u user pw). unfold connect. rewrite method_read.
  change (uri (fst (l, a))) with u. rewrite Hh, method_pure.
  set (call := fun c => conn_connect c _ _ _ _ _ _ _).
  destruct (connect_accepted c (nullIfEmpty h) (c_str user) (nullIfEmpty pw) (nullIfEmpty (schema u))
    (Port u mod 2 ^ 32) (nullIfEmpty (SocketOrPipe u)) CLIENT_MULTI_RESULTS) as (c' & E & He).
  exists c'. split; [|done].
  assert (Ec : on_connection (Connection.on_conn call) (l, a) = (Ok true, (l, Connection.set_proxy (Some c') a))).
  { unfold on_connection. cbn [fst snd]. by rewrite (connection_call R C call a c true c' Ha E). }
  by rewrite (method_bind_ok Ec).
Qed.

Lemma after_connect_ok fuel u user pw a es n :
  session_at R SR C S a es ->
  answers "SET SESSION TRANSACTION ISOLATION LEVEL REPEATABLE READ" = [Count n] -> (0 < fuel)%nat ->
  exists a', after_connect fuel (login_locals u user pw, a) = (Ok tt, (login_locals u user pw, a')) /\
    session_at R SR C S a' (es ++ [EAutocommit true;
      EQuery "SET SESSION TRANSACTION ISOLATION LEVEL REPEATABLE READ"]) /\
    autocommit a' = true /\ txIsolationLevel a' = TRANSACTION_REPEATABLE_READ.
Proof using A.
  intros Ha Hq Hf. set (l := login_locals u user pw). unfold after_connect. rewrite !method_read.
  rewrite (method_bind_ok (a := tt) (s' := (l, a)) eq_refl).
  destruct (setAutoCommit_ok R SR C S Q true a es Ha) as (c1 & E1 & He1).
  set (a1 := set_autocommit true _) in *.
  assert (E1' : on_connection (setAutoCommit true) (l, a) = (Ok tt, (l, a1)))
    by (unfold on_connection; cbn [fst snd]; by rewrite E1).
  rewrite (method_bind_ok E1').
  assert (Ha1 : session_at R SR C S a1 (es ++ [EAutocommit true])).
  { destruct Ha; split; try done. by exists c1. }
  destruct (setTransactionIsolation_ok R SR C S fuel TRANSACTION_REPEATABLE_READ _ n a1 _ Ha1 eq_refl Hq Hf)
    as (a2 & E2 & Ha2 & Hl & Hc).
  assert (E2' : on_connection (setTransactionIsolation fuel TRANSACTION_REPEATABLE_READ) (l, a1) =
    (Ok tt, (l, a2))) by (unfold on_connection; cbn [fst snd]; by rewrite E2).
  rewrite (method_bind_ok E2'). rewrite (method_bind_ok (a := tt) (s' := (l, a2)) eq_refl).
  exists a2. split; [done|]. split; [by rewrite <- app_assoc in Ha2|]. by rewrite Hc.
Qed.

(** A login opens a connection that commits on its own, at repeatable reads. *)
Lemma login_ok fuel host user pw b u h n c :
  parseUri host Uri_new = (Ok b, u) -> protocol u <> PROTOCOL_PIPE -> Host u = Ok h ->
  answers "SET SESSION TRANSACTION ISOLATION LEVEL REPEATABLE READ" = [Count n] -> (0 < fuel)%nat ->
  exists a, Connection_login version fuel host user pw c = Ok a /\
    session_at R SR C S a (events c ++ login_events u h user pw) /\
    autocommit a = true /\ txIsolationLevel a = TRANSACTION_REPEATABLE_READ.
Proof using A.
  intros Hu Hp Hh Hq Hf. unfold Connection_login, Connection_new.
  set (ps := [_; _; _]). set (a0 := set_valid true (Cn_data c)).
  destruct (before_connect_ok u user pw ps a0 c eq_refl Hp eq_refl) as (c1 & E1 & He1).
  destruct (connect_ok u h user pw (Connection.set_proxy (Some c1) a0) c1 eq_refl Hh) as (c2 & E2 & He2).
  assert (Ha2 : session_at R SR C S (Connection.set_proxy (Some c2) a0) (events c2)).
  { split; try done. by exists c2. }
  destruct (after_connect_ok fuel u user pw _ _ n Ha2 Hq Hf) as (a & E & Ha & H1 & H2).
  exists a. assert (Ei : init version fuel ps (Locals_new, Cn_data c) = (Ok tt, (login_locals u user pw, a))).
  { unfold init.
    assert (E0 : on_connection (update (set_valid true)) (Locals_new, Cn_data c) = (Ok tt, (Locals_new, a0)))
      by done.
    rewrite (method_bind_ok E0).
    assert (Eh : host_property ps (Locals_new, a0) = (Ok tt, (set_uri u Locals_new, a0))).
    { unfold host_property. change (find_property "hostName" ps) with (Some (VString host)).
      cbn [get_string catch_invalid]. rewrite method_pure, method_read.
      change (uri (Locals_new, a0).1) with Uri_new. by rewrite Hu. }
    rewrite (method_bind_ok Eh).
    rewrite (method_bind_ok (login_properties host user pw (set_uri u Locals_new) a0 c eq_refl)).
    change (set_userName user (set_password pw (set_uri u Locals_new))) with (login_locals u user pw).
    by rewrite (method_bind_ok E1), (method_bind_ok E2). }
  rewrite Ei. split; [done|]. split; [|done]. unfold login_events.
  rewrite He2, He1, <- !app_assoc in Ha. exact Ha.
Qed.
End opening.
