(* ===== verification/Statements.v ===== *)
(** * Properties of statements and connections

    Each theorem is followed by its instance at a concrete input. *)

From S2P Require Import Prelude Cxx Str Config Sql Cursor MyVal Fields PsMetadata ResultBind PsResultSet.
From S2P Require Import ParamBind Warnings PreparedStatement BoundValues Client Calls.

(** ** What reaches the server *)

(** Long strings take at most [2^14 - 1] chunks. *)
Lemma chunks_bound (vs : list (pvalue * bool)) :
  Forall (fun vu => sendable vu.1) vs -> chunks_enough (Z.to_nat (2 ^ 14 - 1)) vs.
Proof.
  intros Hv. unfold chunks_enough. eapply Forall_impl; [exact Hv|]. intros [[] u] Hs; simpl in *; try done.
  unfold LONGEST in Hs. change MAX_SEND_LONGDATA_CHUNK with (2 ^ 18) in Hs. lia.
Qed.

Lemma execute_sends_values (C : CStatement) (P : CPrepared C) (PC : PreparedClient C P)
    (fuel : nat) (base : heap) (a : Pst) (vs : list (pvalue * bool)) (s : stmt) :
  open_values base a vs -> Forall (fun vu => sendable vu.1) vs ->
  2 ^ 14 <= Z.of_nat fuel -> proxy a = Some s -> stmt_param_count s = Z.of_nat (length vs) ->
  exists a' s', execute fuel a = (Ok (0 <? stmt_field_count s'), a') /\ proxy a' = Some s' /\
    executed s' = executed s ++ [map wire_of vs] /\ open_values base a' vs.
Proof.
  intros Hov Hv Hf Ha Hn.
  destruct (do_query_ok C P PC fuel (Z.to_nat (2 ^ 14 - 1)) base a vs s) as (s' & E & X);
    try done; [by apply chunks_bound|lia|].
  eexists _, s'. unfold execute.
  rewrite (method_bind_ok (checkClosed_open a (ov_open _ _ _ Hov))), (method_bind_ok E).
  split; [done|]. split; [done|]. split; [done|]. by destruct Hov.
Qed.

(** C4: on a client on which every call succeeds, setting the parameters of a new
    statement, each as often as wanted and in any order, and executing it makes the
    server receive one execution with, for every parameter, the value that was set
    last; an integer is read as unsigned if the parameter was ever set as unsigned.
    The values set last must be sendable: every parameter was set, the last time to
    NULL (also by [setBlob] with no stream), to a number, or to a string of at most
    [2^32 - 2^18] bytes. A parameter left unset is refused before the server is reached
    and a longer string is never sent, which two other theorems of this file state; a
    parameter whose last value is a stream of the caller is outside this theorem. *)
Theorem parameters_received (C : CStatement) (P : CPrepared C) (PC : PreparedClient C P)
    (s : stmt) (t : Z) (base : heap) (cs : list setter) (fuel : nat) :
  0 <= stmt_param_count s < 2 ^ 32 ->
  Forall (fun c => 1 <= setter_index c <= stmt_param_count s) cs ->
  let vs := spec_setters cs (replicate (Z.to_nat (stmt_param_count s)) (Unset, false)) in
  Forall (fun vu => sendable vu.1) vs -> 2 ^ 14 <= Z.of_nat fuel ->
  exists a s', (_ ← run_setters cs; execute fuel) (Pst_new s t base) =
      (Ok (0 <? stmt_field_count s'), a) /\
    proxy a = Some s' /\ executed s' = executed s ++ [map wire_of vs].
Proof.
  intros Hn Hcs vs Hv Hf. pose proof (new_open base s t) as Hov.
  unfold to_uint in Hov. rewrite Z.mod_small in Hov by done.
  destruct (setters_open base cs (Pst_new s t base) _ Hov) as (p & h & E & Hov').
  { rewrite length_replicate, Z2Nat.id by lia. done. }
  rewrite (method_bind_ok E).
  destruct (execute_sends_values C P PC fuel base _ _ s Hov' Hv Hf) as (a & s' & E' & Ha & X & _); try done.
  - pose proof (ov_count _ _ _ Hov') as Hc. simpl in Hc. unfold to_uint in Hc.
    rewrite Z.mod_small in Hc by done. done.
  - by exists a, s'.
Qed.

(** A statement of two parameters, on the client in memory. *)
Definition two_params : @stmt client_stmt := MkClient 2 [] ∅ [] 0.

Lemma parameters_received_witness :
  exists (a : @Pst client_stmt) s',
    (_ ← run_setters [SInt 1 (-5); SString 2 "Ada"; SUInt64 1 7]; execute (Z.to_nat (2 ^ 14)))
      (Pst_new two_params 1 ∅) = (Ok false, a) /\
    proxy a = Some s' /\ c_executed s' = [[WInt 7; WBytes "Ada"]].
Proof.
  destruct (parameters_received client_stmt client_prepared client_accepts two_params 1 ∅
    [SInt 1 (-5); SString 2 "Ada"; SUInt64 1 7] (Z.to_nat (2 ^ 14))) as (a & s' & E & Ha & X).
  - done.
  - repeat constructor; done.
  - repeat constructor; done.
  - lia.
  - exists a, s'. split; [exact E|]. split; [exact Ha|]. exact X.
Defined.

Lemma run_db_calls_setters `{CPrepared} (fuel : nat) (i : Z) (args : list sqlval)
    (cs : list db_call) (a a' : Pst) :
  run_setters (arg_setters i args) a = (Ok tt, a') ->
  run_db_calls fuel (bind_calls i args ++ cs) a = run_db_calls fuel cs a'.
Proof.
  revert i a. induction args as [|v args IH]; intros i a E; simpl in *; [by injection E as ->|].
  unfold mbind, Method_bind in *. destruct (run_setter (arg_setter i v) a) as [[[]| | |] a1]; try done.
  by apply IH.
Qed.

(** C3: the calls that [SQLConn::execute] makes for a query with arguments, replayed on
    the prepared statement of the connector: the server receives one execution with the
    values of the arguments, and deleting the statement frees everything it allocated. *)
Theorem arguments_received (K : Connector) (C : CStatement) (P : CPrepared C)
    (PC : PreparedClient C P) (sql : SQLConn) (query : str) (args : list sqlval) (w : world)
    (s : stmt) (t : Z) (base : heap) (fuel : nat) :
  reliable -> stmt_param_count s = Z.of_nat (length args) -> Z.of_nat (length args) < 2 ^ 32 ->
  Forall argument_ok args -> 2 ^ 14 <= Z.of_nat fuel ->
  exists cs, execute_params sql (map type_letter args) query args w =
      (Ok tt, add_dbs (cs ++ [DbDeleteStatement]) w) /\
  exists a s', run_db_calls fuel cs (Pst_new s t base) = (Ok tt, a) /\
    proxy a = Some s' /\ executed s' = executed s ++ [map argument_wire args] /\
  exists a', run_db_call fuel DbDeleteStatement a = (Ok tt, a') /\ memory a' = base.
Proof.
  intros Hr Hn Hlen Hargs Hf.
  exists (DbPrepareStatement query :: bind_calls 1 args ++ [DbExecute]).
  rewrite (execute_params_calls sql query args w Hr). split; [by rewrite <- app_comm_cons, <- app_assoc|].
  pose proof (new_open base s t) as Hov. unfold to_uint in Hov.
  rewrite Hn, Z.mod_small, Nat2Z.id in Hov by lia.
  destruct (setters_open base (arg_setters 1 args) _ _ Hov) as (p & h & E & Hov').
  { rewrite length_replicate. eapply Forall_impl; [apply arg_setters_range|]. simpl. lia. }
  change (replicate (length args) (Unset, false)) with ([] ++ replicate (length args) (Unset, false)) in Hov'.
  rewrite (spec_arg_setters [] args : spec_setters (arg_setters 1 args) _ = map arg_value args) in Hov'.
  destruct (execute_sends_values C P PC fuel base _ _ s Hov') as (a & s' & E' & Ha & X & Hov2); try done.
  { apply Forall_map. eapply Forall_impl; [exact Hargs|]. intros v Hv. by apply arg_value_wire. }
  { by rewrite length_map. }
  exists a, s'. split.
  { cbn [run_db_calls run_db_call]. rewrite (method_bind_ok (a := tt) (s' := Pst_new s t base) eq_refl).
    rewrite (run_db_calls_setters fuel 1 args [DbExecute] _ _ E). cbn [run_db_calls run_db_call].
    unfold mbind, Method_bind. by rewrite E'. }
  split; [done|]. split.
  - rewrite X, map_map. do 2 f_equal. apply map_ext_Forall. eapply Forall_impl; [exact Hargs|].
    intros v Hv. by apply arg_value_wire.
  - apply (delete_exact base a _ (ov_rep _ _ _ Hov2)).
Qed.

(** A connector that answers every call with no rows. *)
Definition silent_connector : Connector := {|
  db_row := unit; db_answer _ _ := Ok []; db_getString _ _ := Ok [];
|}.

Lemma arguments_received_witness :
  let w := World [] true [] [] ∅ (fun _ => true) [] in
  exists cs, execute_params (H := silent_connector) (MkSQLConn "CS562") "si" "INSERT"
      [SqlString "Ada"; SqlInt (-1)] w = (Ok tt, add_dbs (cs ++ [DbDeleteStatement]) w) /\
  exists (a : @Pst client_stmt) s',
    run_db_calls (Z.to_nat (2 ^ 14)) cs (Pst_new two_params 1 ∅) = (Ok tt, a) /\
    proxy a = Some s' /\ c_executed s' = [[WBytes "Ada"; WInt (-1)]] /\
  exists a', run_db_call (Z.to_nat (2 ^ 14)) DbDeleteStatement a = (Ok tt, a') /\ memory a' = ∅.
Proof.
  intros w.
  assert (Hok : Forall argument_ok [SqlString "Ada"; SqlInt (-1)]).
  { constructor; [done|]. constructor; [|done]. by split. }
  apply (arguments_received silent_connector client_stmt client_prepared client_accepts
    (MkSQLConn "CS562") "INSERT" [SqlString "Ada"; SqlInt (-1)] w two_params 1 ∅ (Z.to_nat (2 ^ 14))
    (fun _ _ => ex_intro _ [] eq_refl) eq_refl eq_refl Hok). lia.
Defined.

(** ** Owning and refusing *)

(** C10: whatever is called on a statement, in whatever order and whether the calls return
    or throw, deleting it frees exactly what it allocated: only the contents of the
    streams of the caller can differ. *)
Theorem statement_frees (C : CStatement) (P : CPrepared C) (W : Session) (fuel : nat) (s : stmt)
    (t : Z) (base : heap) (cs : list call) :
  Forall unsigned_index cs ->
  exists a', Pst_delete (run_calls fuel cs (Pst_new s t base)) = (Ok tt, a') /\
    similar base (memory a').
Proof. intros Hcs. by apply delete_tidy, run_calls_tidy, new_tidy. Qed.

(** A session without rows. *)
Definition no_session : Session := {|
  session_row := unit; session_query _ := Ok []; row_getInt _ _ := Ok 0; row_getString _ _ := Ok [];
|}.

Definition odd_calls : list call :=
  [CSet (SString 1 "Ada"); CSet (SInt 9 1); CExecute; CSet (SBlob 2 None); CClose; CExecute].

Lemma statement_frees_witness :
  Forall unsigned_index odd_calls /\
  exists a', Pst_delete (run_calls (H0 := no_session) 5 odd_calls (Pst_new two_params 1 ∅)) = (Ok tt, a') /\
    similar ∅ (memory a').
Proof.
  assert (H : Forall unsigned_index odd_calls) by by repeat constructor.
  split; [exact H|].
  exact (statement_frees client_stmt client_prepared no_session 5 two_params 1 ∅ odd_calls H).
Defined.

(** closing an open statement succeeds, after any calls, and lets go of the statement
    of the C API; every call after that throws and changes nothing. *)
Theorem closed_statement_refuses (C : CStatement) (P : CPrepared C) (W : Session) (fuel : nat)
    (s : stmt) (t : Z) (base : heap) (cs : list call) :
  Forall unsigned_index cs ->
  let a := run_calls fuel cs (Pst_new s t base) in
  isClosed a = false ->
  exists a', PreparedStatement.close a = (Ok tt, a') /\ proxy a' = None /\
    forall c, run_call fuel c a' = (Throw (closed_answer c), a').
Proof.
  intros Hcs a Ha.
  destruct (run_calls_tidy fuel base cs _ Hcs (new_tidy base s t)) as (base' & vs & _ & Hr & _).
  destruct (closeIntern_exact base' a vs Ha Hr) as (p & h & E & _).
  eexists. unfold PreparedStatement.close. rewrite (method_bind_ok (checkClosed_open a Ha)).
  split; [exact E|]. split; [done|]. intros c. by apply run_call_closed.
Qed.

Lemma closed_statement_refuses_witness :
  exists a', PreparedStatement.close (run_calls (H0 := no_session) 5 [CSet (SString 1 "Ada"); CExecute]
      (Pst_new two_params 1 ∅)) = (Ok tt, a') /\ proxy a' = None /\
    forall c, run_call (H0 := no_session) 5 c a' = (Throw (closed_answer c), a').
Proof.
  apply (closed_statement_refuses client_stmt client_prepared no_session 5 two_params 1 ∅
    [CSet (SString 1 "Ada"); CExecute]).
  - by repeat constructor.
  - reflexivity.
Defined.

(** A parameter that no setter names keeps its value. *)
Lemma spec_setters_other cs vs (i : nat) :
  Forall (fun c => 1 <= setter_index c /\ setter_index c <> Z.of_nat i + 1) cs ->
  spec_setters cs vs !! i = vs !! i.
Proof.
  revert vs. induction cs as [|c cs IH]; intros vs Hcs; [done|].
  apply Forall_cons in Hcs as [Hc Hcs]. change (spec_setters cs (spec_setter c vs) !! i = vs !! i). rewrite IH by done.
  unfold spec_setter. apply list_lookup_alter_ne. lia.
Qed.

Lemma not_all_set base p h vs i u :
  represents base p h vs -> vs !! i = Some (Unset, u) -> isAllSet (p, h) = (Ok false, (p, h)).
Proof.
  intros Hr Hi. unfold isAllSet. rewrite method_read. cbn [fst]. unfold mret, Method_ret. do 2 f_equal.
  destruct (look base p h vs i Unset u Hr Hi) as (x & L & F & _ & Hset & _ & _ & Ht & _ & _).
  assert (E : t_set x = false) by by inversion Ht.
  rewrite E in Hset. apply not_true_iff_false. rewrite forallb_forall. intros H.
  specialize (H false). discriminate H. by apply list_elem_of_In, list_elem_of_lookup_2 with i.
Qed.

Lemma do_query_unset `{CPrepared} fuel base a vs i u :
  open_values base a vs -> vs !! i = Some (Unset, u) ->
  do_query fuel a = (Throw (SqlError "Value not set for all parameters"), a).
Proof.
  intros Hov Hi. unfold do_query. rewrite method_read.
  rewrite (method_bind_ok (on_params_keep _ _ a _ (not_all_set _ _ _ _ i u (ov_rep _ _ _ Hov) Hi))).
  apply lookup_lt_Some in Hi. rewrite (ov_count _ _ _ Hov).
  rewrite (proj2 (Z.eqb_neq _ _)) by lia. done.
Qed.

(** C27: a statement with a parameter that was not set is not executed, and a setter whose
    index is out of range stores nothing: both throw and leave the statement as it was,
    with nothing sent to the server. *)
Theorem refused_before_server (C : CStatement) (P : CPrepared C) (s : stmt) (t : Z) (base : heap)
    (cs : list setter) (j : Z) :
  0 <= stmt_param_count s < 2 ^ 32 -> 1 <= j <= stmt_param_count s ->
  Forall (fun c => 1 <= setter_index c <= stmt_param_count s /\ setter_index c <> j) cs ->
  exists a, run_setters cs (Pst_new s t base) = (Ok tt, a) /\ proxy a = Some s /\
    (forall fuel owners,
      execute fuel a = (Throw (SqlError "Value not set for all parameters"), a) /\
      executeUpdate fuel a = (Throw (SqlError "Value not set for all parameters"), a) /\
      executeQuery fuel owners a = (Throw (SqlError "Value not set for all parameters"), a)) /\
    forall c, setter_index c = 0 \/ stmt_param_count s < setter_index c ->
      run_setter c a = (Throw (bad_index c), a).
Proof.
  intros Hn Hj Hcs. pose proof (new_open base s t) as Hov. unfold to_uint in Hov.
  rewrite Z.mod_small in Hov by done.
  destruct (setters_open base cs _ _ Hov) as (p & h & E & Hov').
  { rewrite length_replicate, Z2Nat.id by lia. eapply Forall_impl; [exact Hcs|]. naive_solver. }
  set (a := set_params p h _) in *.
  assert (Hi : spec_setters cs (replicate (Z.to_nat (stmt_param_count s)) (Unset, false)) !!
    Z.to_nat (j - 1) = Some (Unset, false)).
  { rewrite spec_setters_other; [apply lookup_replicate_2; lia|].
    eapply Forall_impl; [exact Hcs|]. simpl. lia. }
  assert (Ho : isClosed a = false) by done.
  exists a. split; [done|]. split; [done|]. split.
  - intros fuel owners. pose proof (do_query_unset fuel base a _ _ _ Hov' Hi) as Eq.
    unfold execute, executeUpdate, executeQuery. rewrite !(method_bind_ok (checkClosed_open a Ho)).
    by rewrite !(method_bind_fails Eq).
  - intros c Hc. apply setter_bad_index; [done|].
    assert (Ec : param_count a = stmt_param_count s).
    { unfold a. simpl. unfold to_uint. by rewrite Z.mod_small. }
    by rewrite Ec.
Qed.

Lemma refused_before_server_witness :
  exists (a : @Pst client_stmt), run_setters [SInt 1 5] (Pst_new two_params 1 ∅) = (Ok tt, a) /\
    proxy a = Some two_params /\
    (forall fuel owners,
      execute fuel a = (Throw (SqlError "Value not set for all parameters"), a) /\
      executeUpdate fuel a = (Throw (SqlError "Value not set for all parameters"), a) /\
      executeQuery fuel owners a = (Throw (SqlError "Value not set for all parameters"), a)) /\
    forall c, setter_index c = 0 \/ 2 < setter_index c -> run_setter c a = (Throw (bad_index c), a).
Proof.
  apply (refused_before_server client_stmt client_prepared two_params 1 ∅ [SInt 1 5] 2); [done..|].
  repeat constructor; done.
Defined.

(** ** Long data *)

(** C24: a long string of at most [LONGEST] bytes and a readable stream of any length are
    always sent completely: from some number of turns on, the loops end, and what was
    appended to the long data of the parameter is what the string or the stream holds. *)
Theorem long_data_arrives (C : CStatement) (P : CPrepared C) (PC : PreparedClient C P)
    (a : Pst) (s : stmt) (i : nat) (l : positive) (d : str) (stream : bool) :
  proxy a = Some s -> takes_long C P PC s i ->
  memory a !! l = Some (if stream then IStream (readable_stream d) else SqlStr d) ->
  (stream = false -> 0 < size d <= LONGEST) ->
  exists n, forall fuel, (n <= fuel)%nat ->
    exists a' s', LongDataSender fuel (Z.of_nat i)
        (if stream then BStream (Some l) else BString (Some l)) a = (Ok true, a') /\
      proxy a' = Some s' /\ appended C P PC s i d s' /\
      memory a' = if stream then <[l := IStream ended_stream]> (memory a) else memory a.
Proof.
  intros Ha Ht Hm Hd. set (k := Z.to_nat (size d / 2 ^ 18 + 1)). exists (S (S k)). intros fuel Hf.
  assert (Hk : size d <= 2 ^ 18 * Z.of_nat k).
  { unfold k. pose proof (size_nonneg d). pose proof (Z.div_pos (size d) (2 ^ 18)).
    pose proof (Z.div_mod (size d) (2 ^ 18)). pose proof (Z.mod_pos_bound (size d) (2 ^ 18)). lia. }
  destruct stream; cbn [LongDataSender].
  - destruct (send_stream_ok C P PC k d i l fuel a s Hk) as (s' & h' & E & Happ & Hh); try done.
    by exists (set_proxy (Some s') (set_params (param_bind a) h' a)), s'.
  - rewrite method_read, Hm. specialize (Hd eq_refl).
    destruct (send_string_ok C P PC k d i 0 fuel a s) as (s' & E & _ & Happ); try done; try lia.
    exists (set_proxy (Some s') a), s'. split; [done|]. split; [done|]. split; [|done]. apply Happ. lia.
Qed.

(** A statement on a client with one parameter that is bound for long data. *)
Definition long_param : @stmt client_stmt :=
  MkClient 1 [MkParam MYSQL_TYPE_LONG_BLOB None 0 None false false] ∅ [] 0.
Definition with_stream : @Pst client_stmt :=
  set_params (ParamBind_new 1) {[1%positive := IStream (readable_stream "in a stream")]}
    (Pst_new long_param 1 ∅).

Lemma long_data_arrives_witness :
  exists n, forall fuel, (n <= fuel)%nat ->
    exists (a' : @Pst client_stmt) s', LongDataSender fuel 0 (BStream (Some 1%positive)) with_stream = (Ok true, a') /\
      proxy a' = Some s' /\ appended client_stmt client_prepared client_accepts long_param 0 "in a stream" s' /\
      memory a' = <[1%positive := IStream ended_stream]> (memory with_stream).
Proof.
  apply (long_data_arrives client_stmt client_prepared client_accepts with_stream long_param 0 1
    "in a stream" true eq_refl); [|reflexivity|done].
  by exists (MkParam MYSQL_TYPE_LONG_BLOB None 0 None false false).
Defined.

Lemma stuck_bind {S A B} (m : Method S A) (f : A -> Method S B) a :
  stuck (m a).1 -> stuck ((m ≫= f) a).1.
Proof. intros E. unfold mbind, Method_bind. by destruct (m a) as [[x|e| |] a']. Qed.

(** What the members hold for one long string. *)
Lemma one_long_slot base p h d u :
  represents base p h [(LongText d, u)] ->
  exists l b, bind p = [b] /\ value_set p = [true] /\ m_type b = MYSQL_TYPE_LONG_BLOB /\
    get_bind 0 (p, h) = (Ok b, (p, h)) /\ blob_bind p !! 0 = Some (BString (Some l)) /\
    h !! l = Some (SqlStr d).
Proof.
  intros Hr. destruct (look base p h _ 0 _ _ Hr eq_refl) as (x & L & F & Hb & Hset & Eg & Hbl & Hx & _ & Hown).
  inversion Hx as [| | | |x' l n' u'| |]; subst. simpl in Hb, Hset.
  exists l. eexists. pose proof (rep_sized _ _ _ _ Hr) as (H1 & H2 & _).
  pose proof (rep_length _ _ _ _ Hr) as H3. rewrite <- H3 in H1. rewrite <- H3 in H2.
  assert (Hone : forall {A} (xs : list A) y, length xs = 1%nat -> xs !! 0%nat = Some y -> xs = [y]).
  { intros A xs y Hl Hy. destruct xs as [|z [|]]; simpl in *; (done || by injection Hy as ->). }
  split; [by apply Hone|]. split; [by apply Hone|]. split; [done|]. split; [exact Eg|].
  split; [exact Hbl|].
  apply (owns_lookup _ _ _ l (SqlStr d) Hown). apply elem_of_cons; right. by apply elem_of_cons; left.
Qed.

Lemma one_text d : LONGEST < size d -> spec_setter (SString 1 d) [(Unset, false)] = [(LongText d, false)].
Proof.
  intros Hd. assert (Hl : (256 * 1024 <? size d) = true).
  { apply Z.ltb_lt. unfold LONGEST in Hd. change MAX_SEND_LONGDATA_CHUNK with (2 ^ 18) in Hd. lia. }
  unfold spec_setter, setter_value, text_value. by rewrite Hl.
Qed.

(** C38: [sent] is an [unsigned int]: a string of more than [2^32 - 2^18] bytes is accepted
    by [setString], but the execution neither succeeds nor throws: however many turns the
    loop is given, it takes them all or reads past the string. *)
Theorem too_long_never_sent (C : CStatement) (P : CPrepared C) (PC : PreparedClient C P)
    (s : stmt) (t : Z) (base : heap) (d : str) :
  stmt_param_count s = 1 -> LONGEST < size d ->
  exists a, setString 1 d (Pst_new s t base) = (Ok tt, a) /\
    forall fuel, stuck (execute fuel a).1.
Proof.
  intros Hn Hd. pose proof (new_open base s t) as Hov. rewrite Hn in Hov.
  change (replicate _ _) with [(Unset, false)] in Hov.
  destruct (setter_open base _ _ (SString 1 d) Hov) as (p & h & E & Hov'); [done|].
  set (a := set_params p h _) in *. exists a. split; [exact E|]. intros fuel.
  rewrite (one_text d Hd) in Hov'. clear Hov E. destruct Hov' as [Ho _ Hr].
  destruct (one_long_slot base p h d false Hr) as (l & b & Hbs & Hvs & Hty & Eg & Hbl & Hl).
  unfold execute. rewrite (method_bind_ok (checkClosed_open a Ho)). apply stuck_bind.
  unfold do_query. rewrite method_read.
  assert (Eall : on_params isAllSet a = (Ok true, a)).
  { apply on_params_keep. unfold isAllSet. rewrite method_read. simpl. by rewrite Hvs. }
  rewrite (method_bind_ok Eall), andb_false_r, (method_bind_ok (s' := a) (a := tt) eq_refl).
  assert (Eb : on_params (read (fun s => bind s.1)) a = (Ok [b], a)).
  { apply on_params_keep. unfold read. simpl. by rewrite Hbs. }
  rewrite (method_bind_ok Eb).
  destruct (bind_param_accepts s [b]) as (s1 & E1 & B1 & _); [by repeat constructor; rewrite Hty|by rewrite Hn|].
  assert (Ha : proxy a = Some s) by done.
  rewrite (method_bind_ok (call_proxy_ok _ (fun s => stmt_bind_param s _) a s false s1 Ha E1)).
  rewrite (method_bind_ok (a := tt) (s' := set_proxy (Some s1) a) eq_refl). apply stuck_bind.
  unfold sendLongDataBeforeParamBind. rewrite method_read.
  change (param_count (set_proxy (Some s1) a)) with (to_uint (stmt_param_count s)). rewrite Hn.
  change (indices (Z.to_nat (to_uint 1))) with [0]. cbn [send_each].
  apply stuck_bind, stuck_bind. unfold send_param.
  assert (Eg' : on_params (get_bind 0) (set_proxy (Some s1) a) = (Ok b, set_proxy (Some s1) a))
    by by apply on_params_keep.
  rewrite (method_bind_ok Eg'), decide_True by done.
  assert (Ebl : on_params (getBlobObject 0) (set_proxy (Some s1) a) =
    (Ok (BString (Some l)), set_proxy (Some s1) a)).
  { apply on_params_keep. unfold getBlobObject, find_blob. rewrite method_read. cbn [fst].
    change (param_bind (set_proxy (Some s1) a)) with p. by rewrite Hbl. }
  rewrite (method_bind_ok Ebl). apply stuck_bind. unfold LongDataSender. rewrite method_read.
  change (memory (set_proxy (Some s1) a)) with h.
  rewrite Hl. apply (send_string_too_long C P PC fuel d 0 0 _ s1); try done; [by exists 0|].
  exists b. split; [|done]. by rewrite B1.
Qed.

(** A string of 4 GiB. *)
Definition huge : str := repeat "x"%char (Z.to_nat (2 ^ 32)).
Definition one_param : @stmt client_stmt := MkClient 1 [] ∅ [] 0.

Lemma too_long_never_sent_witness :
  exists a : @Pst client_stmt, setString 1 huge (Pst_new one_param 1 ∅) = (Ok tt, a) /\
    forall fuel, stuck (execute fuel a).1.
Proof.
  apply (too_long_never_sent client_stmt client_prepared client_accepts one_param 1 ∅ huge eq_refl).
  unfold huge, size, LONGEST. change MAX_SEND_LONGDATA_CHUNK with (2 ^ 18). rewrite repeat_length. lia.
Defined.
