(* ===== verification/Sessions.v ===== *)
(** * Properties of connections and their statements

    Each theorem is followed by its instance at a concrete input. *)

From S2P Require Import Prelude Cxx Str Config Cursor Fields PsMetadata ResultBind PsResultSet.
From S2P Require Import ParamBind Warnings PreparedStatement BoundValues Client.
From S2P Require Import MyVal ResultSet.
From S2P Require Import Statement ConnectionOptions Uri Connection ConnectionInit Server OpenConnection.

(** ** Opening and querying *)

Lemma setSchema_ok (R : CResult) (SR : StoredResult R) (C : CConnection R) (S : Server R SR C)
    name a es :
  session_at R SR C S a es ->
  exists a', Connection.setSchema name a = (Ok tt, a') /\
    session_at R SR C S a' (es ++ [EQuery (use_query name)]) /\
    autocommit a' = autocommit a /\ txIsolationLevel a' = txIsolationLevel a.
Proof.
  intros Ha. destruct (with_statement_ok R SR C S (use_query name) a es Ha) as (b & c' & E & He).
  exists (Connection.set_proxy (Some c') a). unfold Connection.setSchema.
  rewrite (method_bind_ok (connection_open R C a (at_valid _ _ _ _ _ _ Ha))), (method_bind_ok E).
  split; [done|]. split; [by eapply told_proxy|done].
Qed.

(** C9: on a server that accepts everything, connecting with a host, a user and a password
    and selecting a database, the calls of [SQLConn::SQLConn], open a connection that
    commits on its own at the level of repeatable reads, and the server was told the
    parts of the address, the user and the password, in that order, and nothing else. *)
Theorem connection_opened (R : CResult) (SR : StoredResult R) (C : CConnection R)
    (S : Server R SR C) (Q : CSession R C) (A : Accepting R SR C S Q) (F : ConnectionFlags)
    (version : Z) (fuel : nat) (hostName user pw name h : str) (u : MySQL_Uri) (b : bool) (n : Z)
    (c : conn) :
  parseUri hostName Uri_new = (Ok b, u) -> protocol u <> PROTOCOL_PIPE -> Host u = Ok h ->
  answers "SET SESSION TRANSACTION ISOLATION LEVEL REPEATABLE READ" = [Count n] -> (0 < fuel)%nat ->
  exists a, Connection_login version fuel hostName user pw c = Ok a /\
  exists a', Connection.setSchema name a = (Ok tt, a') /\
    is_valid a' = true /\ autocommit a' = true /\ txIsolationLevel a' = TRANSACTION_REPEATABLE_READ /\
    exists c', proxy a' = Some c' /\
      events c' = events c ++ login_events _ version u h user pw ++ [EQuery (use_query name)].
Proof.
  intros Hu Hp Hh Hq Hf.
  destruct (login_ok R SR C S Q A F version fuel hostName user pw b u h n c Hu Hp Hh Hq Hf)
    as (a & E & Ha & H1 & H2).
  destruct (setSchema_ok R SR C S name a _ Ha) as (a' & E' & [Hv _ _ (c' & Hc & He)] & H1' & H2').
  exists a. split; [done|].
  exists a'. rewrite H1', H2'. do 4 (split; [done|]). exists c'. split; [done|].
  by rewrite He, app_assoc.
Qed.

(** The flags are bits. *)
Definition bit_flags : ConnectionFlags := {|
  CLIENT_COMPRESS := 32; CLIENT_FOUND_ROWS := 2; CLIENT_IGNORE_SIGPIPE := 4096;
  CLIENT_IGNORE_SPACE := 256; CLIENT_INTERACTIVE := 1024; CLIENT_LOCAL_FILES := 128;
  CLIENT_MULTI_STATEMENTS := 65536; CLIENT_NO_SCHEMA := 16; CLIENT_MULTI_RESULTS := 131072;
|}.
(** A server that answers every query with a count. *)
Definition counting (q : str) : list answer := [Count 0].

Lemma connection_opened_witness :
  let C := server_connection [] counting in
  exists a', is_valid a' = true /\
    exists c' : @conn _ C, proxy a' = Some c' /\
      m_events c' = [
        EProtocol PROTOCOL_TCP; EOption MYSQL_SET_CHARSET_NAME (ArgString "utf8");
        EConnect (MkLogin (Some ("127.0.0.1" : str)) MYSQL_USERNAME (nullIfEmpty MYSQL_PASSWORD) None
          3306 None 131072);
        EAutocommit true; EQuery "SET SESSION TRANSACTION ISOLATION LEVEL REPEATABLE READ";
        EQuery "USE `CS562`"].
Proof.
  destruct (connection_opened (in_memory []) (in_memory_stored []) (server_connection [] counting)
    (server_answers [] counting) (server_session [] counting 80012) (server_accepts [] counting 80012)
    bit_flags 80012 1 MYSQL_LOCATION MYSQL_USERNAME MYSQL_PASSWORD "CS562" "127.0.0.1"
    (MkUri PROTOCOL_TCP 3306 "127.0.0.1" []) true 0 (MkServer [] []))
    as (a & _ & a' & _ & Hv & _ & _ & c' & Hc & He);
    [by vm_compute|done|done|done|lia|].
  exists a'. split; [exact Hv|]. exists c'. split; [exact Hc|]. exact He.
Defined.

(** The texts of several columns of the current row. *)
Fixpoint read_columns `{CResult} (cols : list Z) : Method Rs (list (list ascii)) :=
  match cols with
  | [] => mret []
  | c :: cols' => x ← ResultSet.getString c; xs ← read_columns cols'; mret (x :: xs)
  end.

Section columns.
Context (R : CResult) (SR : StoredResult R) (rows : list crow).

Lemma read_columns_moves cols i r a :
  rs_at R rows (Z.of_nat i + 1) a -> rows !! i = Some r ->
  Forall (fun c => 1 <= c <= num_fields a /\ c <= Z.of_nat (length r) /\ text_column R rows c) cols ->
  moves_to R rows (read_columns cols) a (map (fun c => text_of c r) cols) (Z.of_nat i + 1).
Proof using.
  revert a. induction cols as [|c cols IH]; intros a Ha Hr Hc; [by apply moves_ret|].
  apply Forall_cons in Hc as [(Hc1 & Hc2 & Hc3) Hc]. cbn [read_columns map].
  eapply moves_bind; [by apply getString_moves|]. intros a1 S1 H1.
  eapply moves_bind; [apply IH; try done|].
  - eapply Forall_impl; [exact Hc|]. simpl. by rewrite (same_fields _ _ _ S1).
  - intros a2 _ H2. by apply moves_ret.
Qed.
End columns.

(** C8: a query of an open connection whose answer has rows, read by [while(rs->next())]
    with [getString] of any columns: the query reaches the server as it is, and the texts
    are those of all its rows, in order. *)
Theorem query_rows_read (R : CResult) (SR : StoredResult R) (C : CConnection R)
    (S : Server R SR C) (a : Cn) (es : list event) (q : str) (rows : list crow) (l : list answer)
    (cols : list Z) (fuel : nat) :
  session_at R SR C S a es -> answers q = Rows rows :: l -> Z.of_nat (length rows) < INT_MAX ->
  Forall (fun c => 1 <= c /\ text_column R rows c /\
    (forall r, stored r rows 0 -> c <= res_num_fields r) /\
    Forall (fun r : crow => c <= Z.of_nat (length r)) rows) cols ->
  (length rows < fuel)%nat ->
  exists rs a', with_statement (Statement.executeQuery q) a = (Ok rs, a') /\
    session_at R SR C S a' (es ++ [EQuery q]) /\
    exists rs', read_all (read_columns cols) fuel rs =
      (Ok (map (fun r => map (fun c => text_of c r) cols) rows), rs').
Proof.
  intros Ha Hq Hn Hc Hf. destruct Ha as [Hv Hs Ht (c & Hp & He)].
  destruct (executeQuery_ok R SR C S q (St_new (defaultStatementResultType a)) c rows l eq_refl Ht Hq)
    as (r & p & s' & c' & E & Hst & _ & He' & _).
  exists (Rs_new r p TYPE_SCROLL_INSENSITIVE), (Connection.set_proxy (Some c') a). split.
  { unfold with_statement, createStatement.
    assert (Em : (_ ← Connection.checkClosed; t ← read defaultStatementResultType; mret (St_new t)) a =
      (Ok (St_new (defaultStatementResultType a)), a))
      by by rewrite (method_bind_ok (connection_open R C a Hv)).
    rewrite (method_bind_ok Em). unfold run_statement. by rewrite Hp, E. }
  split; [split; try done; exists c'; by rewrite He', He|].
  destruct (read_all_rows R rows (read_columns cols) (fun b => num_fields b = res_num_fields r)
    (fun r => map (fun c => text_of c r) cols)) with (fuel := fuel) (i := 0%nat)
    (a := Rs_new r p TYPE_SCROLL_INSENSITIVE) as (rs' & E' & _ & _); try done; try lia.
  - intros b b' Hb. by rewrite (same_fields _ _ _ Hb).
  - intros b i row Hb Hr Hat. apply read_columns_moves; [done|done|].
    rewrite Forall_forall in Hc |- *. intros k Hk. destruct (Hc k Hk) as (H1 & H2 & H3 & H4).
    rewrite Hb. rewrite Forall_lookup in H4. split; [|split; [by apply (H4 i)|done]]. split; [done|by apply H3].
  - by apply Rs_new_at.
  - by exists rs'.
Qed.

(** An open connection to a server in memory. *)
Definition two_columns : list field := [
  simple_field "id" MYSQL_TYPE_LONG 0 11; simple_field "name" MYSQL_TYPE_VAR_STRING 0 64].
Definition people : list crow :=
  [[Some ("1" : str); Some ("Ada" : str)]; [Some ("2" : str); None]].
Definition reply_people (q : str) : list answer :=
  if bool_decide (q = ("SELECT * FROM people" : str)) then [Rows people] else [Count 3].
(** A connection of the C API that was told nothing. *)
Definition fresh fields reply : @conn _ (server_connection fields reply) := MkServer [] [].
Definition open_memory : @Cn _ (server_connection two_columns reply_people) :=
  set_valid true (Cn_data (fresh two_columns reply_people)).

Lemma open_memory_at :
  session_at _ _ _ (server_answers two_columns reply_people) open_memory [].
Proof. split; try done. by eexists. Qed.

Lemma query_rows_read_witness :
  exists rs a', with_statement (Statement.executeQuery "SELECT * FROM people") open_memory = (Ok rs, a') /\
    session_at _ _ _ (server_answers two_columns reply_people) a' ([] ++ [EQuery "SELECT * FROM people"]) /\
    exists rs', read_all (read_columns [2; 1]) 3 rs =
      (Ok [[("Ada" : str); ("1" : str)]; [[] : str; ("2" : str)]], rs').
Proof.
  apply (query_rows_read (in_memory two_columns) (in_memory_stored two_columns)
    (server_connection two_columns reply_people) (server_answers two_columns reply_people)
    open_memory [] "SELECT * FROM people" people [] [2; 1] 3 open_memory_at); [by vm_compute|done| |simpl; lia].
  repeat constructor; try done; by intros s k _.
Defined.

(** C25: [executeUpdate] passes every pending answer of the server whatever they are, so
    that the connection is ready for the next query: it gives the last count, or throws
    when there were rows. *)
Theorem update_results_drained (R : CResult) (SR : StoredResult R) (C : CConnection R)
    (S : Server R SR C) (s : St) (c : conn) (q : str) :
  Statement.isClosed s = false -> answers q <> [] ->
  exists n, forall fuel, (n <= fuel)%nat ->
    exists s' c', Statement.executeUpdate fuel q (s, Some c) = (update_answer false (answers q), (s', Some c')) /\
      conn_more_results c' = false /\ events c' = events c ++ [EQuery q].
Proof.
  intros Ho Ha. exists (length (answers q)). intros fuel Hf.
  destruct (executeUpdate_ok R SR C S fuel q s c Ho Ha Hf) as (s' & c' & E & Hl & He & _).
  exists s', c'. split; [exact E|]. split; [|exact He].
  rewrite more_pending, <- Hl. by destruct (last_of (answers q)).
Qed.

Lemma update_results_drained_witness :
  let reply (q : str) := [Count 5; Rows people; Count 7] in
  exists n, forall fuel, (n <= fuel)%nat ->
    exists s' (c' : @conn _ (server_connection two_columns reply)),
      Statement.executeUpdate fuel "CALL p" (St_new 1, Some (fresh two_columns reply)) =
        (Throw (SqlInvalidArgument "Statement returning result set"), (s', Some c')) /\
      conn_more_results c' = false /\ m_events c' = [EQuery "CALL p"].
Proof.
  intros reply.
  exact (update_results_drained _ _ _ (server_answers two_columns reply) (St_new 1) (fresh two_columns reply)
    "CALL p" eq_refl ltac:(done)).
Defined.

(** after [getMoreResults] the update count is gone: for an answer with a count it
    returns false and [getUpdateCount] gives no count, just as after the last answer, so
    that the answers that follow are not looked for. *)
Theorem later_counts_lost (R : CResult) (SR : StoredResult R) (C : CConnection R)
    (S : Server R SR C) (s : St) (c : conn) (x : answer) (l : list answer) :
  Statement.isClosed s = false -> pending c = x :: l ->
  exists s' c', Statement.getMoreResults (s, Some c) =
      (Ok (match l with Rows _ :: _ => true | _ => false end), (s', Some c')) /\
    pending c' = match l with [] => [x] | _ => l end /\
    Statement.getUpdateCount (s', Some c') = (Ok NO_COUNT, (s', Some c')).
Proof.
  intros Ho Hp. set (s1 := Statement.set_count NO_COUNT s).
  assert (Hu : forall c', Statement.getUpdateCount (s1, Some c') = (Ok NO_COUNT, (s1, Some c'))).
  { intros c'. unfold Statement.getUpdateCount.
    by rewrite (method_bind_ok (statement_open R C s1 (Some c') Ho)). }
  unfold Statement.getMoreResults. rewrite (method_bind_ok (statement_open R C s _ Ho)).
  unfold change. rewrite method_update. cbn [fst snd]. fold s1.
  rewrite (method_bind_ok (lock_ok R C s1 c)), (method_bind_ok (ask_ok R C conn_more_results s1 c)).
  rewrite more_pending, Hp. destruct l as [|y l]; [by exists s1, c|].
  destruct (next_passes c x y l Hp) as (c' & E & Hp' & _). exists s1, c'.
  cbn [length Nat.ltb Nat.leb]. rewrite (method_bind_ok (on_conn_ok R C conn_next_result s1 c 0 c' E)).
  cbn [Z.ltb Z.eqb Z.compare]. rewrite (method_bind_ok (ask_ok R C conn_field_count s1 c')).
  pose proof (field_count_rows c') as Hf. rewrite Hp' in Hf. rewrite Hf.
  split; [by destruct y|]. by split.
Qed.

Lemma later_counts_lost_witness :
  let C := server_connection two_columns reply_people in
  let c : @conn _ C := MkServer [] [Count 1; Count 2; Rows people] in
  exists s' (c' : @conn _ C), Statement.getMoreResults (St_new 1, Some c) = (Ok false, (s', Some c')) /\
    m_pending c' = [Count 2; Rows people] /\
    Statement.getUpdateCount (s', Some c') = (Ok NO_COUNT, (s', Some c')).
Proof.
  intros C c.
  exact (later_counts_lost _ _ C (server_answers two_columns reply_people) (St_new 1) c (Count 1)
    [Count 2; Rows people] eq_refl eq_refl).
Defined.

(** ** Savepoints and pings *)

(** on an open connection that does not commit on its own, to a server that knows
    savepoints, setting a savepoint, rolling back to it and releasing it tell the server
    these three things, with the name as it was given; an empty name is refused, and
    everything is refused while the connection commits on its own, before the server is
    told anything. *)
Theorem savepoints_sent (R : CResult) (SR : StoredResult R) (C : CConnection R)
    (S : Server R SR C) (Q : CSession R C) (a : Cn) (es : list event) (name : str) :
  session_at R SR C S a es -> knows_savepoints R C Q ->
  (autocommit a = false -> name <> [] ->
   exists a', (p ← setSavepoint name; _ ← rollback_to p; releaseSavepoint p) a = (Ok tt, a') /\
     session_at R SR C S a' (es ++ [EQuery ("SAVEPOINT " ++ name);
       EQuery ("ROLLBACK TO SAVEPOINT " ++ name); EQuery ("RELEASE SAVEPOINT " ++ name)])) /\
  (autocommit a = false -> setSavepoint [] a =
     (Throw (SqlInvalidArgument "Savepoint name cannot be empty string"), a)) /\
  (autocommit a = true ->
   setSavepoint name a = (Throw autocommit_refused, a) /\
   rollback_to (Savepoint_new name) a = (Throw autocommit_refused, a) /\
   releaseSavepoint (Savepoint_new name) a = (Throw autocommit_refused, a)).
Proof.
  intros Ha Hk. pose proof (at_valid _ _ _ _ _ _ Ha) as Hv. split; [|split].
  - intros Hc Hn. destruct (setSavepoint_ok R SR C S name a es Ha Hc Hn) as (a1 & E1 & H1 & C1).
    destruct (rollback_to_ok R SR C S name a1 _ H1 C1) as (a2 & E2 & H2 & C2).
    destruct (savepoint_query R SR C S ("RELEASE SAVEPOINT " ++ name) a2 _ H2 C2) as (a3 & E3 & H3 & _).
    exists a3. rewrite (method_bind_ok E1), (method_bind_ok E2).
    rewrite (releaseSavepoint_starts R SR C S Q name a2 _ H2 Hk). split; [done|].
    by rewrite <- !app_assoc in H3.
  - intros Hc. unfold setSavepoint. rewrite (method_bind_ok (connection_open R C a Hv)).
    by rewrite (method_bind_ok (refuse_autocommit_off R C a Hv Hc)).
  - intros Hc. pose proof (refuse_autocommit_on R C a Hv Hc) as Er.
    rewrite (releaseSavepoint_starts R SR C S Q name a es Ha Hk). unfold setSavepoint, rollback_to.
    rewrite !(method_bind_ok (connection_open R C a Hv)). by rewrite !(method_bind_fails Er).
Qed.

Lemma savepoints_sent_witness :
  let a := set_autocommit false open_memory in
  let Q := server_session two_columns reply_people 80012 in
  session_at _ _ _ (server_answers two_columns reply_people) a [] /\
  exists a', (p ← setSavepoint "here"; _ ← rollback_to p; releaseSavepoint p) a = (Ok tt, a') /\
    session_at _ _ _ (server_answers two_columns reply_people) a'
      [EQuery "SAVEPOINT here"; EQuery "ROLLBACK TO SAVEPOINT here"; EQuery "RELEASE SAVEPOINT here"].
Proof.
  intros a Q. assert (Ha : session_at _ _ _ (server_answers two_columns reply_people) a []) by exact open_memory_at.
  split; [exact Ha|].
  apply (proj1 (savepoints_sent _ _ _ _ Q a [] "here" Ha (fun _ => ltac:(simpl; lia))) eq_refl). done.
Defined.

(** a connection asks whether the server is there with one ping, for which [isValid]
    keeps the C API from opening the connection again and [reconnect] lets it; the option
    is then put back to what the connection was opened with, whatever the answer. *)
Theorem reconnect_put_back (R : CResult) (SR : StoredResult R) (C : CConnection R)
    (S : Server R SR C) (Q : CSession R C) (A : Accepting R SR C S Q) (a : Cn) (es : list event) :
  session_at R SR C S a es ->
  let r := reconnect_option a in
  let around (b : bool) := if Bool.eqb b r then [EPing]
    else [EOption MYSQL_OPT_RECONNECT (ArgBool b); EPing; EOption MYSQL_OPT_RECONNECT (ArgBool r)] in
  (exists x a', isValid a = (Ok x, a') /\ session_at R SR C S a' (es ++ around false)) /\
  (exists x a', Connection.reconnect a = (Ok x, a') /\ session_at R SR C S a' (es ++ around true)).
Proof.
  intros Ha r around. pose proof (at_valid _ _ _ _ _ _ Ha) as Hv.
  unfold isValid, Connection.reconnect. rewrite !method_read, Hv, !method_read. fold r.
  split; unfold around; destruct r; cbn [Bool.eqb];
    first [by apply (ping_alone R SR C S Q) | by apply (ping_around R SR C S Q)].
Qed.

Lemma reconnect_put_back_witness :
  let Q := server_session two_columns reply_people 80012 in
  let a := set_reconnect true open_memory in
  exists x a', isValid a = (Ok x, a') /\
    session_at _ _ _ (server_answers two_columns reply_people) a'
      [EOption MYSQL_OPT_RECONNECT (ArgBool false); EPing; EOption MYSQL_OPT_RECONNECT (ArgBool true)].
Proof.
  intros Q a. assert (Ha : session_at _ _ _ (server_answers two_columns reply_people) a []) by (destruct open_memory_at; split; done).
  exact (proj1 (reconnect_put_back _ _ _ (server_answers two_columns reply_people) Q
    (server_accepts two_columns reply_people 80012) a [] Ha)).
Defined.

(** ** Refusing and ignoring *)

(** The methods of a connection that look whether it is closed. *)
Inductive cn_call :=
| NClose | NCommit | NRollback | NSetAutoCommit (b : bool) | NGetAutoCommit | NEscapeString (s : str)
| NGetCatalog | NSetCatalog (s : str) | NGetLastStatementInfo | NNativeSQL (s : str)
| NGetTransactionIsolation | NSetTransactionIsolation (level : Z) | NSetSchema (s : str) | NGetSchema
| NGetWarnings | NGetSessionVariable (s : str) | NSetSessionVariable (s v : str)
| NSetSessionVariableUInt (s : str) (n : Z) | NCreateStatement | NSetSavepoint (s : str)
| NRollbackTo (p : MySQL_Savepoint) | NReleaseSavepoint (p : MySQL_Savepoint) | NIsReadOnly
| NSetSavepointUnnamed | NPrepareKeys (s : str) (n : Z) | NPrepareIndexes (s : str) (l : list Z)
| NPrepareConcurrency (s : str) (t c : Z) | NPrepareHoldability (s : str) (t c h : Z)
| NPrepareNames (s : str) (l : list (list ascii)).

Section calls.
Context `{CSession} `{Session}.
Context (fuel : nat).

Definition drop_value {S A} (m : Method S A) : Method S unit := _ ← m; mret tt.

Definition run_connection_call (c : cn_call) : Method Cn unit :=
  match c with
  | NClose => Connection.close
  | NCommit => Connection.commit
  | NRollback => Connection.rollback
  | NSetAutoCommit b => setAutoCommit b
  | NGetAutoCommit => drop_value getAutoCommit
  | NEscapeString s => drop_value (escapeString s)
  | NGetCatalog => drop_value getCatalog
  | NSetCatalog s => setCatalog s
  | NGetLastStatementInfo => drop_value getLastStatementInfo
  | NNativeSQL s => drop_value (nativeSQL s)
  | NGetTransactionIsolation => drop_value getTransactionIsolation
  | NSetTransactionIsolation level => setTransactionIsolation fuel level
  | NSetSchema s => Connection.setSchema s
  | NGetSchema => drop_value getSchema
  | NGetWarnings => drop_value Connection.getWarnings
  | NGetSessionVariable s => drop_value (getSessionVariable s)
  | NSetSessionVariable s v => setSessionVariable fuel s v
  | NSetSessionVariableUInt s n => setSessionVariable_uint fuel s n
  | NCreateStatement => drop_value createStatement
  | NSetSavepoint s => drop_value (setSavepoint s)
  | NRollbackTo p => rollback_to p
  | NReleaseSavepoint p => releaseSavepoint p
  | NIsReadOnly => drop_value isReadOnly
  | NSetSavepointUnnamed => drop_value setSavepoint_unnamed
  | NPrepareKeys s n => prepareStatement_keys s n
  | NPrepareIndexes s l => prepareStatement_indexes s l
  | NPrepareConcurrency s t c => prepareStatement_concurrency s t c
  | NPrepareHoldability s t c h => prepareStatement_holdability s t c h
  | NPrepareNames s l => prepareStatement_names s l
  end.

(** The methods of a statement that use the connection. *)
Inductive st_call :=
| TExecute (q : str) | TExecuteQuery (q : str) | TExecuteUpdate (q : str) | TGetResultSet | TGetMoreResults.
Definition run_statement_call (c : st_call) : Method (St * option conn) unit :=
  match c with
  | TExecute q => drop_value (Statement.execute q)
  | TExecuteQuery q => drop_value (Statement.executeQuery q)
  | TExecuteUpdate q => drop_value (Statement.executeUpdate fuel q)
  | TGetResultSet => drop_value Statement.getResultSet
  | TGetMoreResults => drop_value Statement.getMoreResults
  end.

Lemma closed_connection_call c a :
  is_valid a = false ->
  run_connection_call c a = (Throw (SqlError "Connection has been closed"), a).
Proof using.
  intros Ha. assert (E : forall {A} (m : unit -> Method Cn A),
    (Connection.checkClosed ≫= m) a = (Throw (SqlError "Connection has been closed"), a)).
  { intros A m. apply (method_bind_fails (connection_closed _ _ a Ha)). }
  destruct c; cbn [run_connection_call];
    try (exact (method_bind_fails (connection_closed _ _ a Ha)));
    try (exact (connection_closed _ _ a Ha));
    unfold drop_value; apply method_bind_fails; apply E.
Qed.

Lemma lock_closed s : lock (s, None) = (Throw (InvalidInstance "Connection has been closed"), (s, None)).
Proof using. done. Qed.

Lemma closed_statement_call c s :
  Statement.isClosed s = false ->
  exists s', run_statement_call c (s, None) =
    (Throw (InvalidInstance "Connection has been closed"), (s', None)).
Proof using.
  intros Ho. assert (Hs : forall s' : St, Statement.isClosed s' = false ->
    Statement.checkClosed (s', None) = (Ok tt, (s', None))) by (intros s' ?; by apply statement_open).
  assert (Hq : forall q s', Statement.isClosed s' = false -> Statement.do_query q (s', None) =
    (Throw (InvalidInstance "Connection has been closed"), (s', None))).
  { intros q s' Ho'. unfold Statement.do_query. rewrite (method_bind_ok (Hs s' Ho')). done. }
  destruct c; cbn [run_statement_call]; unfold drop_value.
  - exists s. apply method_bind_fails. unfold Statement.execute. rewrite (method_bind_ok (Hs s Ho)).
    apply (method_bind_fails (Hq q s Ho)).
  - exists (Statement.set_count NO_COUNT s). apply method_bind_fails. unfold Statement.executeQuery.
    rewrite (method_bind_ok (Hs s Ho)). unfold change. rewrite method_update.
    by apply (method_bind_fails (Hq q (Statement.set_count NO_COUNT s) Ho)).
  - exists s. apply method_bind_fails. unfold Statement.executeUpdate. rewrite (method_bind_ok (Hs s Ho)).
    apply (method_bind_fails (Hq q s Ho)).
  - exists (Statement.set_count NO_COUNT s). apply method_bind_fails. unfold Statement.getResultSet.
    by rewrite (method_bind_ok (Hs s Ho)).
  - exists (Statement.set_count NO_COUNT s). apply method_bind_fails. unfold Statement.getMoreResults.
    by rewrite (method_bind_ok (Hs s Ho)).
Qed.
End calls.

(** The options that a connection knows without its server. *)
Definition own_options : list str :=
  ["metadataUseInfoSchema" : str; "defaultStatementResultType" : str; "defaultPreparedStatementResultType" : str].

Lemma own_option_read `{CSession} version name (a : Cn) : name ∈ own_options ->
  exists v, getClientOption version name a = (Ok (Some v), a).
Proof.
  unfold own_options, getClientOption. intros Hn.
  repeat (apply elem_of_cons in Hn as [->|Hn]; [by eexists|]). by apply elem_of_nil in Hn.
Qed.

Lemma other_option_undefined `{CSession} version name (a : Cn) : proxy a = None -> name ∉ own_options ->
  getClientOption version name a = (Undefined, a).
Proof.
  intros Hp Hn. unfold own_options in Hn. rewrite !not_elem_of_cons in Hn. destruct Hn as (H1 & H2 & H3 & _).
  unfold getClientOption. rewrite !(bool_decide_false _) by done.
  assert (E : forall A B (f : conn -> A) (g : A -> Method Cn B), (ask f ≫= g) a = (Undefined, a)).
  { intros A B f g. unfold ask, on_conn, read, mbind, Method_bind. by rewrite Hp. }
  case_bool_decide; [apply E|]. case_bool_decide; apply E.
Qed.

(** C26: closing an open connection lets go of the connection of the C API.  After that
    every method that looks whether the connection is closed throws and changes nothing,
    so does preparing a statement, and the open statements of the connection throw; the
    connection says that it is closed and not valid, and cannot be reconnected.  But
    [getClientOption] does not look: the three options that the connection keeps itself
    are still read, every other one is asked of the connection that is gone, a null
    pointer. *)
Theorem closed_connection_refuses (R : CResult) (C : CConnection R) (Q : CSession R C)
    (S : CStatement) (P : CPrepared S) (PP : CPrepare R C S) (W : Session) (fuel : nat) (a : Cn) :
  is_valid a = true ->
  exists a', Connection.close a = (Ok tt, a') /\ proxy a' = None /\
    (forall c, run_connection_call fuel c a' = (Throw (SqlError "Connection has been closed"), a')) /\
    (forall sql h, prepareStatement sql h a' = (Throw (SqlError "Connection has been closed"), a')) /\
    (forall c s, Statement.isClosed s = false -> exists s',
      run_statement_call fuel c (s, proxy a') =
        (Throw (InvalidInstance "Connection has been closed"), (s', None))) /\
    Connection.isClosed a' = (Ok true, a') /\ isValid a' = (Ok false, a') /\
    Connection.reconnect a' = (Ok false, a') /\
    forall version name,
      if decide (name ∈ own_options) then exists v, getClientOption version name a' = (Ok (Some v), a')
      else getClientOption version name a' = (Undefined, a').
Proof.
  intros Hv. eexists. unfold Connection.close. rewrite (method_bind_ok (connection_open R C a Hv)).
  split; [done|]. split; [done|]. split; [intros c; by apply closed_connection_call|].
  split; [intros sql h; unfold prepareStatement; apply method_bind_fails; by apply connection_closed|].
  split; [intros c s Hs; by apply closed_statement_call|]. do 3 (split; [done|]).
  intros version name. case_decide; [by apply own_option_read|by apply other_option_undefined].
Qed.

(** A session without rows. *)
Definition rowless : Session := {|
  session_row := unit; session_query _ := Ok []; row_getInt _ _ := Ok 0; row_getString _ _ := Ok [];
|}.

Lemma closed_connection_refuses_witness :
  let Q := server_session two_columns reply_people 80012 in
  let P := {| conn_stmt_init _ := None; stmt_prepare s _ := (0, s) |} :
    CPrepare _ (server_connection two_columns reply_people) client_stmt in
  exists a', Connection.close open_memory = (Ok tt, a') /\ proxy a' = None /\
    run_connection_call (H0 := rowless) 1 (NSetSchema "CS562") a' =
      (Throw (SqlError "Connection has been closed"), a') /\
    getClientOption 50703 "multiByteMinLength" a' = (Undefined, a').
Proof.
  intros Q P. destruct (closed_connection_refuses _ _ Q client_stmt client_prepared P rowless 1 open_memory eq_refl)
    as (a' & E & Hp & Hc & _ & _ & _ & _ & _ & Ho).
  exists a'. split; [exact E|]. split; [exact Hp|]. split; [apply Hc|].
  exact (Ho 50703 ("multiByteMinLength" : str)).
Defined.

(** the level of a transaction that the server refuses is thrown, but the connection
    still says that it has it; that the server refuses to change whether it commits on
    its own is not even thrown. *)
Theorem refused_by_server_recorded (R : CResult) (C : CConnection R) (Q : CSession R C) (fuel : nat)
    (a : Cn) (c c' : conn) (level r : Z) (q : str) (b : bool) :
  is_valid a = true -> Statement.isClosed (service a) = false -> proxy a = Some c ->
  isolation_query level = Some q -> conn_query c q = (r, c') -> r <> 0 -> conn_errno c' <> 0 ->
  (exists a', setTransactionIsolation fuel level a = (Throw (SqlError (conn_error c')), a') /\
     getTransactionIsolation a' = (Ok level, a')) /\
  (exists a', setAutoCommit b a = (Ok tt, a') /\ getAutoCommit a' = (Ok b, a')).
Proof.
  intros Hv Ho Hc Hl Hq Hr He. split.
  - unfold setTransactionIsolation. rewrite (method_bind_ok (connection_open R C a Hv)), Hl, method_update.
    assert (E : Statement.executeUpdate fuel q (service a, Some c) =
      (Throw (SqlError (conn_error c')), (service a, Some c'))).
    { unfold Statement.executeUpdate. rewrite (method_bind_ok (statement_open R C _ _ Ho)).
      apply method_bind_fails. unfold Statement.do_query. rewrite (method_bind_ok (statement_open R C _ _ Ho)).
      rewrite (method_bind_ok (lock_ok R C _ c)).
      rewrite (method_bind_ok (on_conn_ok R C (fun c => conn_query c q) _ c r c' Hq)).
      rewrite (method_bind_ok (ask_ok R C conn_errno _ c')).
      rewrite (proj2 (Z.eqb_neq r 0)), (proj2 (Z.eqb_neq _ 0)) by done. cbn [negb andb].
      apply method_bind_fails. unfold Statement.throwSQLException.
      by rewrite (method_bind_ok (ask_ok R C conn_error _ c')). }
    set (a1 := set_isolation level a).
    pose proof (on_service_ok R C (Statement.executeUpdate fuel q) a1 (Throw (SqlError (conn_error c'))) _ _
      ltac:(change (service a1) with (service a); change (proxy a1) with (proxy a); rewrite Hc; exact E)) as E'.
    set (a2 := set_service _ _) in E'. exists a2. rewrite (method_bind_fails E'). split; [done|].
    unfold getTransactionIsolation. by rewrite (method_bind_ok (connection_open R C a2 Hv)).
  - destruct (conn_autocommit c b) as [x c2] eqn:Ec. unfold setAutoCommit.
    rewrite (method_bind_ok (connection_open R C a Hv)).
    rewrite (method_bind_ok (connection_call R C (fun c => conn_autocommit c b) a c x c2 Hc Ec)).
    set (a2 := set_autocommit b (Connection.set_proxy (Some c2) a)). exists a2. split; [done|].
    apply (autocommit_read R C a2 Hv).
Qed.

(** A server that refuses every query. *)
Definition refusing : CConnection (in_memory []) := {|
  conn := unit; conn_query c _ := (1, c); conn_errno _ := 1227; conn_error _ := "Access denied";
  conn_warning_count _ := 0; conn_field_count _ := 0; conn_affected_rows _ := 0;
  conn_more_results _ := false; conn_next_result c := (-1, c);
  conn_use_result c := (None, c); conn_store_result c := (None, c);
|}.
Definition refusing_session : CSession (in_memory []) refusing := {|
  conn_autocommit c _ := (true, c); conn_commit c := (true, c); conn_rollback c := (true, c);
  conn_server_version _ := 80012; conn_ping c := (1, c); conn_info _ := None; conn_escape _ s := s;
  conn_mbminlen _ := 1; conn_mbmaxlen _ := 1; conn_charset_dir _ := None;
  conn_options := {| set_option c _ _ := Ok c; get_option _ _ := Ok ArgNull; type_name _ := [] |};
  conn_use_protocol c _ := c; conn_ssl_set c _ := c;
  conn_connect c _ _ _ _ _ _ _ := (true, c);
|}.
Definition refused_connection : @Cn _ refusing := set_valid true (Cn_data (tt : @conn _ refusing)).

Lemma refused_by_server_recorded_witness :
  exists a', setTransactionIsolation 1 TRANSACTION_SERIALIZABLE refused_connection =
      (Throw (SqlError "Access denied"), a') /\
    getTransactionIsolation a' = (Ok TRANSACTION_SERIALIZABLE, a').
Proof.
  exact (proj1 (refused_by_server_recorded _ refusing refusing_session 1 refused_connection tt tt
    TRANSACTION_SERIALIZABLE 1 _ true eq_refl eq_refl eq_refl eq_refl eq_refl ltac:(done) ltac:(done))).
Defined.

(** with a client library after 8.0.0, [sslVerify] and [sslEnforce] turn the mode of
    the TLS connection on whatever the value of the property: false does the same as
    true. *)
Theorem tls_flags_ignored (R : CResult) (C : CConnection R) (Q : CSession R C) (F : ConnectionFlags)
    (version : Z) (b : bool) (s : Locals * Cn) :
  80000 < version ->
  one_property version "sslVerify" (VBool b) s =
    set_plain MYSQL_OPT_SSL_MODE (ArgInt SSL_MODE_VERIFY_CA) s /\
  one_property version "sslEnforce" (VBool b) s =
    set_plain MYSQL_OPT_SSL_MODE (ArgInt SSL_MODE_REQUIRED) s.
Proof.
  intros Hv. unfold one_property. rewrite (proj2 (Z.ltb_lt 80000 version) Hv). by split.
Qed.

Lemma tls_flags_ignored_witness :
  let Q := server_session two_columns reply_people 80012 in
  exists s : Locals * @Cn _ (server_connection two_columns reply_people),
    one_property (H1 := bit_flags) 80012 "sslVerify" (VBool false) (Locals_new (H1 := bit_flags), open_memory) =
      (Ok tt, s) /\
    option_map (fun c : @conn _ (server_connection two_columns reply_people) => m_events c) (proxy s.2) =
      Some [EOption MYSQL_OPT_SSL_MODE (ArgInt 4)].
Proof.
  intros Q.
  destruct (tls_flags_ignored _ _ Q bit_flags 80012 false (Locals_new (H1 := bit_flags), open_memory))
    as [E _]; [lia|].
  eexists. split; [exact E|reflexivity].
Defined.

(** ** Warnings *)

Section warnings.
Context (W : Session) (rows : list session_row) (facts : list (str * Z * str)).
(** What the server answers when it is asked for its warnings: a state, code and text for
    every row. *)
Context (Hrows : session_query "SHOW WARNINGS" = Ok rows)
  (Hfacts : mapM (fun r => c ← row_getInt r 2; m ← row_getString r 3; Ok (errCode2SqlState c, c, m)) rows =
    Ok facts).

Lemma loadMysqlWarnings_ok n : 0 < n -> exists w, loadMysqlWarnings n = Ok w /\ chain_of w = facts.
Proof using Hrows Hfacts.
  intros Hn. unfold loadMysqlWarnings. rewrite (proj2 (Z.ltb_lt 0 n) Hn), Hrows.
  by apply (load_rows_spec rows facts None).
Qed.

(** Another session [W'] is not asked: what it would answer does not matter. *)
Lemma prepared_getWarnings (W' : Session) `{CPrepared} (a : Pst) :
  PreparedStatement.isClosed a = false -> PreparedStatement.warningsHaveBeenLoaded a = false ->
  0 < PreparedStatement.warningsCount a ->
  exists w a', PreparedStatement.getWarnings (H0 := W) a = (Ok w, a') /\ chain_of w = facts /\
    PreparedStatement.getWarnings (H0 := W') a' = (Ok w, a').
Proof using Hrows Hfacts.
  intros Ho Hl Hn. destruct (loadMysqlWarnings_ok _ Hn) as (w & E & Hw).
  exists w, (PreparedStatement.set_loaded true (PreparedStatement.set_warnings w a)).
  unfold PreparedStatement.getWarnings. rewrite (method_bind_ok (checkClosed_open a Ho)), method_read, Hl.
  assert (Eb : (n ← read PreparedStatement.warningsCount;
      _ ← (if negb (n =? 0) then w ← pure (@loadMysqlWarnings W n); update (PreparedStatement.set_warnings w)
           else mret tt);
      update (PreparedStatement.set_loaded true)) a =
    (Ok tt, PreparedStatement.set_loaded true (PreparedStatement.set_warnings w a))).
  { rewrite method_read. rewrite (proj2 (Z.eqb_neq _ 0)) by lia. cbn [negb]. rewrite E. done. }
  cbn [negb]. rewrite (method_bind_ok Eb). split; [done|]. split; [done|].
  set (a1 := PreparedStatement.set_loaded _ _). assert (Ho1 : PreparedStatement.isClosed a1 = false) by done.
  by rewrite (method_bind_ok (checkClosed_open a1 Ho1)).
Qed.

Lemma statement_getWarnings (W' : Session) `{CConnection} (s : St) c :
  Statement.isClosed s = false -> Statement.warningsHaveBeenLoaded s = false ->
  0 < Statement.warningsCount s ->
  exists w s', Statement.getWarnings (H0 := W) (s, c) = (Ok w, (s', c)) /\ chain_of w = facts /\
    Statement.getWarnings (H0 := W') (s', c) = (Ok w, (s', c)).
Proof using Hrows Hfacts.
  intros Ho Hl Hn. destruct (loadMysqlWarnings_ok _ Hn) as (w & E & Hw).
  exists w, (Statement.set_loaded true (Statement.set_warnings w s)).
  unfold Statement.getWarnings. rewrite (method_bind_ok (statement_open _ _ s c Ho)).
  unfold member, change. rewrite method_read. cbn [fst]. rewrite Hl. cbn [negb].
  assert (Eb : (n ← read (fun a : St * option conn => Statement.warningsCount a.1);
      w ← pure (@loadMysqlWarnings W n); _ ← update (fun a => (Statement.set_warnings w a.1, a.2));
      update (fun a => (Statement.set_loaded true a.1, a.2))) (s, c) =
    (Ok tt, (Statement.set_loaded true (Statement.set_warnings w s), c))).
  { rewrite method_read. cbn [fst]. rewrite E. done. }
  rewrite (method_bind_ok Eb). split; [done|]. split; [done|].
  set (s1 := Statement.set_loaded _ _). assert (Ho1 : Statement.isClosed s1 = false) by done.
  by rewrite (method_bind_ok (statement_open _ _ s1 c Ho1)).
Qed.
End warnings.

(** *** What a query leaves *)

(** The part [f] of the state stays. *)
Definition keeps {S X A} (f : S -> X) (m : Method S A) : Prop := forall a, f (m a).2 = f a.

Lemma warnings_kept_bind {S X A B} (f : S -> X) (m : Method S A) (g : A -> Method S B) :
  keeps f m -> (forall x, keeps f (g x)) -> keeps f (m ≫= g).
Proof.
  intros Hm Hg a. specialize (Hm a). unfold mbind, Method_bind.
  destruct (m a) as [[x|e| |] a'] eqn:E; simpl in *; [|done..]. by rewrite (Hg x a').
Qed.

Lemma method_bind_inv {S A B} (m : Method S A) (g : A -> Method S B) a b a' :
  (m ≫= g) a = (Ok b, a') -> exists x a1, m a = (Ok x, a1) /\ g x a1 = (Ok b, a').
Proof. unfold mbind, Method_bind. destruct (m a) as [[x|e| |] a1]; [|done..]. intros E. by exists x, a1. Qed.

(** What a prepared statement keeps while it executes. *)
Section prepared_keeps.
Context `{CPrepared}.

Definition kept (a : Pst) : bool * option MySQL_Warning := (PreparedStatement.isClosed a, PreparedStatement.warnings a).

Ltac kept := repeat first
  [ done
  | apply warnings_kept_bind; [|intros ?]
  | case_match ].

Lemma warnings_kept_get_proxy : keeps kept PreparedStatement.get_proxy.
Proof using. intros a. unfold PreparedStatement.get_proxy. rewrite method_read. by destruct (PreparedStatement.proxy a). Qed.

Lemma warnings_kept_call_proxy {A} (f : stmt -> A * stmt) : keeps kept (PreparedStatement.call_proxy f).
Proof using.
  unfold PreparedStatement.call_proxy. apply warnings_kept_bind; [apply warnings_kept_get_proxy|]. intros s. destruct (f s) as [x s']. kept.
Qed.

Lemma keeps_on_params {A} (m : Method (MySQL_ParamBind * heap) A) : keeps kept (PreparedStatement.on_params m).
Proof using. intros a. unfold PreparedStatement.on_params. by destruct (m _) as [o [p h]]. Qed.

Lemma warnings_kept_throw {A} : keeps kept (PreparedStatement.throwSQLException (A := A)).
Proof using. unfold PreparedStatement.throwSQLException. apply warnings_kept_bind; [apply warnings_kept_get_proxy|kept]. Qed.

Lemma warnings_kept_send_chunk position d : keeps kept (PreparedStatement.send_chunk position d).
Proof using.
  unfold PreparedStatement.send_chunk. apply warnings_kept_bind; [apply warnings_kept_call_proxy|]. intros []; [|kept].
  apply warnings_kept_bind; [apply warnings_kept_get_proxy|]. intros s. repeat case_match; try done. apply warnings_kept_throw.
Qed.

Lemma warnings_kept_send_string fuel position t sent : keeps kept (PreparedStatement.send_string fuel position t sent).
Proof using.
  revert sent. induction fuel as [|fuel IH]; intros sent; [done|]. cbn [PreparedStatement.send_string]. case_match; [|done].
  apply warnings_kept_bind; [intros a; unfold pure; by destruct (PreparedStatement.bytes_from _ _ _)|]. intros d.
  apply warnings_kept_bind; [apply warnings_kept_send_chunk|]. intros _. apply IH.
Qed.

Lemma warnings_kept_send_stream fuel position l : keeps kept (PreparedStatement.send_stream fuel position l).
Proof using.
  induction fuel as [|fuel IH]; [done|]. cbn [PreparedStatement.send_stream].
  apply warnings_kept_bind; [intros a; unfold PreparedStatement.stream_at; rewrite method_read; by repeat case_match|]. intros st.
  case_match; [done|]. destruct (PreparedStatement.stream_read _ _) as [d st']. apply warnings_kept_bind; [done|]. intros _.
  repeat case_match; try done. apply warnings_kept_bind; [apply warnings_kept_send_chunk|]. intros _. apply IH.
Qed.

Lemma warnings_kept_send_each fuel l : keeps kept (PreparedStatement.send_each fuel l).
Proof using.
  induction l as [|i l IH]; [done|]. cbn [PreparedStatement.send_each]. apply warnings_kept_bind; [|intros _; apply IH].
  unfold PreparedStatement.send_param. apply warnings_kept_bind; [apply keeps_on_params|]. intros b. case_match; [|done].
  apply warnings_kept_bind; [apply keeps_on_params|]. intros x. apply warnings_kept_bind; [|kept].
  unfold PreparedStatement.LongDataSender. destruct x as [[l'|]|[l'|]]; [apply warnings_kept_send_stream|done| |done].
  apply warnings_kept_bind; [done|]. intros h. repeat case_match; try done; try apply warnings_kept_send_string.
Qed.

Lemma warnings_kept_do_query fuel : keeps kept (PreparedStatement.do_query fuel).
Proof using.
  unfold PreparedStatement.do_query. apply warnings_kept_bind; [done|]. intros n.
  apply warnings_kept_bind; [apply keeps_on_params|]. intros all. apply warnings_kept_bind; [case_match; done|]. intros _.
  apply warnings_kept_bind; [apply keeps_on_params|]. intros binds. apply warnings_kept_bind; [apply warnings_kept_call_proxy|]. intros failed.
  apply warnings_kept_bind; [case_match; [apply warnings_kept_throw|done]|]. intros _.
  apply warnings_kept_bind.
  { unfold PreparedStatement.sendLongDataBeforeParamBind. apply warnings_kept_bind; [done|]. intros k.
    apply warnings_kept_bind; [apply warnings_kept_send_each|]. by intros _. }
  intros sent. apply warnings_kept_bind.
  { case_match; [|done]. apply warnings_kept_bind; [done|]. intros h. apply warnings_kept_call_proxy. }
  intros r. apply warnings_kept_bind; [case_match; [apply warnings_kept_throw|done]|]. intros _.
  apply warnings_kept_bind; [apply warnings_kept_get_proxy|]. intros s. kept.
Qed.
End prepared_keeps.
Lemma prepared_queried `{CPrepared} fuel (a0 a : Pst) : PreparedStatement.do_query fuel a0 = (Ok tt, a) ->
  PreparedStatement.isClosed a = PreparedStatement.isClosed a0 /\
  PreparedStatement.warnings a = PreparedStatement.warnings a0 /\
  PreparedStatement.warningsHaveBeenLoaded a = false /\
  exists st, PreparedStatement.proxy a = Some st /\ PreparedStatement.warningsCount a = stmt_warning_count st.
Proof.
  intros E. pose proof (warnings_kept_do_query fuel a0) as Hk. rewrite E in Hk. injection Hk as Hc Hw.
  split; [done|]. split; [done|]. unfold PreparedStatement.do_query in E.
  repeat (apply method_bind_inv in E as (? & ? & ? & E)).
  match goal with H : PreparedStatement.get_proxy ?x = (Ok ?st, ?y) |- _ =>
    unfold PreparedStatement.get_proxy in H; rewrite method_read in H;
    destruct (PreparedStatement.proxy x) as [p|] eqn:Ep; unfold pure, deref in H; [|done];
    injection H as -> -> end.
  match goal with H : update _ _ = (Ok ?x, ?y) |- _ => injection H as <- <- end.
  injection E as <-. split; [done|]. by eexists.
Qed.

Lemma statement_queried `{CConnection} q (s0 s : St) c0 c : Statement.do_query q (s0, c0) = (Ok tt, (s, c)) ->
  Statement.isClosed s = false /\ Statement.warningsHaveBeenLoaded s = false /\
  exists cn, c = Some cn /\ Statement.warningsCount s = conn_warning_count cn.
Proof.
  unfold Statement.do_query. intros E. apply method_bind_inv in E as (? & x & Hc & E).
  unfold Statement.checkClosed, member in Hc. rewrite method_read in Hc. cbn [fst] in Hc.
  destruct (Statement.isClosed s0) eqn:Eo; [done|]. injection Hc as <- <-.
  apply method_bind_inv in E as (? & ? & Hl & E). unfold Statement.lock in Hl. rewrite method_read in Hl. cbn [snd] in Hl.
  destruct c0 as [c0|]; [|done]. injection Hl as <- <-.
  apply method_bind_inv in E as (r & ? & Hq & E). unfold Statement.on_conn in Hq. rewrite method_read in Hq. cbn [snd] in Hq.
  destruct (conn_query c0 q) as [z c1] eqn:Eq. injection Hq as <- <-. cbn [fst] in E.
  apply method_bind_inv in E as (n & ? & Hn & E). injection Hn as <- <-.
  apply method_bind_inv in E as (? & y & Ht & E). destruct (_ && _); [done|]. injection Ht as <- <-.
  injection E as <- <-. cbn. split; [done|]. split; [done|]. by exists c1.
Qed.

(** C34: after a query the server has warnings of: both kinds of statement give them in its
    order, with its codes and texts, and give the same again without asking - whatever
    another session [W'] would answer.  After a query without warnings a statement
    gives none, but a prepared statement gives those of the query before. *)
Theorem warnings_in_order (W W' : Session) (S : CStatement) (P : CPrepared S) (R : CResult)
    (C : CConnection R) (rows : list (@session_row W)) (facts : list (str * Z * str)) (fuel : nat)
    (a0 a : Pst) (q : str) (s0 s : St) (c0 c : option conn) :
  session_query "SHOW WARNINGS" = Ok rows ->
  mapM (fun r => c ← row_getInt r 2; m ← row_getString r 3; Ok (errCode2SqlState c, c, m)) rows =
    Ok facts ->
  PreparedStatement.isClosed a0 = false -> PreparedStatement.do_query fuel a0 = (Ok tt, a) ->
  Statement.do_query q (s0, c0) = (Ok tt, (s, c)) ->
  (exists st, PreparedStatement.proxy a = Some st /\
    (0 < stmt_warning_count st ->
     exists w a', PreparedStatement.getWarnings (H0 := W) a = (Ok w, a') /\ chain_of w = facts /\
       PreparedStatement.getWarnings (H0 := W') a' = (Ok w, a')) /\
    (stmt_warning_count st = 0 ->
     (PreparedStatement.getWarnings (H0 := W) a).1 = Ok (PreparedStatement.warnings a0))) /\
  (exists cn, c = Some cn /\
    (0 < conn_warning_count cn ->
     exists w s', Statement.getWarnings (H0 := W) (s, c) = (Ok w, (s', c)) /\ chain_of w = facts /\
       Statement.getWarnings (H0 := W') (s', c) = (Ok w, (s', c))) /\
    (conn_warning_count cn = 0 -> (Statement.getWarnings (H0 := W) (s, c)).1 = Ok None)).
Proof.
  intros Hr Hf Ha Eq Es. split.
  - destruct (prepared_queried _ _ _ Eq) as (Hc & Hw & Hl & st & Hp & Hn). exists st. split; [done|].
    rewrite Ha in Hc. rewrite <- Hn. split; [by apply (prepared_getWarnings W rows)|]. intros Hz.
    unfold PreparedStatement.getWarnings. rewrite (method_bind_ok (checkClosed_open a Hc)), method_read, Hl.
    cbn [negb]. unfold read, update, mbind, Method_bind. rewrite Hz. cbn. by rewrite Hw.
  - destruct (statement_queried _ _ _ _ _ Es) as (Hc & Hl & cn & -> & Hn). exists cn. split; [done|].
    rewrite <- Hn. split; [by apply (statement_getWarnings W rows)|]. intros Hz.
    unfold Statement.getWarnings. rewrite (method_bind_ok (statement_open _ _ s (Some cn) Hc)).
    unfold member, change. rewrite method_read. cbn [fst]. rewrite Hl. cbn [negb].
    unfold read, update, mbind, Method_bind. cbn [fst]. by rewrite Hz.
Qed.

(** A session whose server has two warnings. *)
Definition warned : Session := {|
  session_row := Z * str;
  session_query _ := Ok [(1264, "Out of range" : str); (1051, "Unknown table" : str)];
  row_getInt r _ := Ok r.1; row_getString r _ := Ok r.2;
|}.

(** A connection whose queries leave two warnings. *)
Definition warning_connection : CConnection (in_memory []) := {|
  conn := unit; conn_query c _ := (0, c); conn_errno _ := 0; conn_error _ := [];
  conn_warning_count _ := 2; conn_field_count _ := 0; conn_affected_rows _ := 0;
  conn_more_results _ := false; conn_next_result c := (-1, c);
  conn_use_result c := (None, c); conn_store_result c := (None, c);
|}.

Lemma warnings_in_order_witness :
  let facts := [("22003" : str, 1264, "Out of range" : str); ("42S02" : str, 1051, "Unknown table" : str)] in
  exists (a : @Pst client_stmt) w a' (s : St) v s',
    PreparedStatement.do_query 1 (Pst_new (MkClient 0 [] ∅ [] 2 : @stmt client_stmt) 1 ∅) = (Ok tt, a) /\
    PreparedStatement.getWarnings (H0 := warned) a = (Ok w, a') /\ chain_of w = facts /\
    PreparedStatement.getWarnings (H0 := rowless) a' = (Ok w, a') /\
    Statement.getWarnings (H0 := warned) (s, Some (tt : @conn _ warning_connection)) = (Ok v, (s', Some tt)) /\
    chain_of v = facts.
Proof.
  intros facts.
  set (a0 := Pst_new (MkClient 0 [] ∅ [] 2 : @stmt client_stmt) 1 ∅).
  set (a := (PreparedStatement.do_query 1 a0).2).
  set (s := set_loaded false (set_warningsCount 2 (St_new 1))).
  destruct (warnings_in_order warned rowless client_stmt client_prepared _ warning_connection
    [(1264, "Out of range" : str); (1051, "Unknown table" : str)] facts 1 a0 a "SELECT 1"
    (St_new 1) s (Some tt) (Some tt) eq_refl eq_refl eq_refl eq_refl eq_refl)
    as [(st & Hst & Hw & _) (cn & Hcn & Hv & _)].
  injection Hst as <-. injection Hcn as <-.
  destruct (Hw eq_refl) as (w & a' & E1 & E2 & E3). destruct (Hv eq_refl) as (v & s' & E4 & E5 & _).
  by exists a, w, a', s, v, s'.
Defined.
