(* ===== verification/Connector.v ===== *)
(** * Correctness of the database connector

    The properties of the result sets, of their column labels and values and of
    the address parser, each with a witness. *)

From S2P Require Import Prelude Cxx Str UnicodeTables Unicode Cursor MyVal ArtResultSet Fields ResultSet Uri.

(** ** Column labels *)

(** a column is found by its label in any case (for every text of the basic
    multilingual plane in UTF-8), and a label that is no column's gives 0. *)
Theorem labels_ignore_case (names : list (list Z)) (label : list Z) :
  Forall is_text names -> is_text label -> NoDup (map (map toupper) names) ->
  let found := find_label (index_names (map utf8 names) 0 ∅) (utf8 label) in
  (forall i name, names !! i = Some name -> map toupper name = map toupper label ->
     found = Z.of_nat i + 1) /\
  (Forall (fun name => map toupper name <> map toupper label) names -> found = 0).
Proof.
  intros Hn Hl Hd. cbv zeta. unfold find_label. rewrite index_names_lookup.
  assert (Hup : forall name, name ∈ names -> utf8_strup (utf8 name) 0 = utf8 (map toupper name)).
  { intros name Hin. rewrite Forall_forall in Hn. by apply utf8_strup_spec, Hn. }
  split.
  - intros i name Hi E. rewrite (last_index_unique _ _ _ i (utf8 name)); [lia| | |].
    + rewrite map_map. rewrite (map_ext_in _ (fun l => utf8 (map toupper l))).
      * rewrite <- (map_map (map toupper) utf8). apply NoDup_fmap_2_strong; [|done].
        intros x y Hx Hy. apply list_elem_of_fmap in Hx as (a & -> & Ha).
        apply list_elem_of_fmap in Hy as (b & -> & Hb). rewrite Forall_forall in Hn.
        apply utf8_inj; by apply text_upper, Hn.
      * intros a Ha. by apply Hup, list_elem_of_In.
    + by rewrite list_lookup_fmap, Hi.
    + rewrite Hup by by eapply list_elem_of_lookup_2. by rewrite utf8_strup_spec, E.
  - intros Hno. rewrite last_index_absent; [done|]. rewrite Forall_forall in Hno.
    rewrite Forall_forall in Hn. rewrite Forall_forall.
    intros x Hx. apply list_elem_of_fmap in Hx as (name & -> & Hin).
    rewrite Hup, utf8_strup_spec by done. intros E.
    apply utf8_inj in E; [by apply (Hno name)|by apply text_upper, Hn|by apply text_upper].
Qed.

(** The columns [Id] and [é], found as [ID] and [É]. *)
Lemma labels_ignore_case_witness :
  find_label (index_names (map utf8 [[73; 100]; [233]]) 0 ∅) (utf8 [201]) = 2.
Proof.
  assert (H : forall l, forallb (fun c => (0 <? c) && (c <? 65536)) l = true -> is_text l).
  { intros l Hl. unfold is_text. rewrite Forall_forall. intros c Hc.
    rewrite forallb_forall in Hl. apply list_elem_of_In, Hl in Hc. lia. }
  refine (proj1 (labels_ignore_case [[73; 100]; [233]] [201] _ _ _) 1%nat [233] eq_refl _).
  - repeat constructor; by apply H.
  - by apply H.
  - apply (bool_decide_unpack (NoDup (map (map toupper) [[73; 100]; [233]]))). by vm_compute.
  - by vm_compute.
Defined.

(** upper-casing a text maps each code point through the table and leaves
    upper case alone. *)
Theorem strup_upper_cases (l : list Z) :
  is_text l ->
  utf8_strup (utf8 l) 0 = utf8 (map toupper l) /\
  utf8_strup (utf8_strup (utf8 l) 0) 0 = utf8_strup (utf8 l) 0.
Proof.
  intros Hl. rewrite utf8_strup_spec by done. split; [done|].
  rewrite utf8_strup_spec by by apply text_upper. f_equal. rewrite map_map. apply map_ext_in.
  intros c Hc. unfold is_text in Hl. rewrite Forall_forall in Hl.
  by apply enc_idem, code_encoded, text_code, Hl, list_elem_of_In.
Qed.

Lemma strup_upper_cases_witness :
  utf8_strup (utf8 [233; 97; 49]) 0 = utf8 [201; 65; 49].
Proof.
  rewrite (proj1 (strup_upper_cases [233; 97; 49]
    ltac:(unfold is_text; repeat constructor; done))). by vm_compute.
Defined.

(** ** Results in memory *)

(** Printing and reading are not used by the cursor. *)
Definition integer_doubles : LongDouble := {|
  ld := Z; ld_print _ := []; ld_to_Z := Some; ld_of_Z z := z; ld_below_delta z := z =? 0;
  ld_read _ := 0;
|}.

(** C20: any sequence of moves on a new in-memory result reports what the cursor
    specification says and ends at its position, with the iterator on that row. *)
Theorem art_follows_cursor (LD : LongDouble) (fn : list str) (rs : list (list MyVal))
    (ms : list move) :
  Z.of_nat (length rs) < INT_MAX -> Forall ArtResultSet.move_ok ms ->
  let n := Z.of_nat (length rs) in
  exists a, run_moves ArtResultSet.run_move ms (Art_new fn rs) = (Ok (answers n 0 ms), a) /\
    ArtResultSet.row_position a = final n 0 ms /\ rset a = rs /\
    current_record a = Z.max 0 (final n 0 ms - 1).
Proof.
  intros Hl Hms n. destruct (Art_new_ok fn rs Hl) as [Ha Ho].
  destruct (run_moves_spec ArtResultSet.run_move n ms 0 (Art_new fn rs))
    as (a & E & Ha' & _ & Hr & Hp); [done| |].
  { generalize 0. induction Hms as [|m ms Hm _ IH]; [done|].
    intros p. split; [exact Hm|apply IH]. }
  exists a. split; [exact E|]. split; [done|]. split; [done|].
  rewrite (art_record a Ha'). by rewrite Hp.
Qed.

Lemma art_follows_cursor_witness :
  exists a, run_moves (@ArtResultSet.run_move integer_doubles)
      [MNext; MNext; MNext; MPrevious; MAbsolute (-2); MRelative (-5)]
      (Art_new ["a" : str] [[@typeInt integer_doubles 1]; [typeInt 2]]) =
    (Ok [true; true; false; true; true; false], a) /\ ArtResultSet.row_position a = 0.
Proof.
  destruct (art_follows_cursor integer_doubles ["a" : str] [[typeInt 1]; [typeInt 2]]
    [MNext; MNext; MNext; MPrevious; MAbsolute (-2); MRelative (-5)]) as (a & E & Hp & _).
  - by vm_compute.
  - repeat constructor; unfold INT_MIN, INT_MAX; lia.
  - exists a. by split.
Defined.

(** C30: in every state that moving and closing can bring about, an open result
    reads the current row's value in a valid column and throws for an invalid
    column or off the rows; a closed one refuses every move and does not change. *)
Theorem art_reads_current_row (LD : LongDouble) (fn : list str) (rs : list (list MyVal))
    (a : Art) (col : Z) :
  Z.of_nat (length rs) < INT_MAX -> Forall (fun r => length r = length fn) rs ->
  reachable (Art_new fn rs) a -> 0 <= col ->
  let p := ArtResultSet.row_position a in
  if is_closed a then
    forall m, ArtResultSet.run_move m a = (Throw (InvalidInstance "ResultSet has been closed"), a)
  else if on_row (Z.of_nat (length rs)) p && (1 <=? col) && (col <=? Z.of_nat (length fn)) then
    exists r v, rs !! Z.to_nat (p - 1) = Some r /\ r !! Z.to_nat (col - 1) = Some v /\
      ArtResultSet.getString col a = (MyVal_getString v, a) /\
      ArtResultSet.getInt64 col a = (MyVal_getInt64 v, a)
  else
    exists msg, ArtResultSet.getString col a = (Throw (SqlInvalidArgument msg), a).
Proof.
  intros Hl Hw Hr Hc. destruct (reachable_ok fn rs a Hl Hr) as (Ha & Hrs & Hf).
  pose proof (art_rows a Ha) as Hn. rewrite Hrs in Hn. cbv zeta.
  destruct (is_closed a) eqn:Ho; [intros m; by apply closed_move|].
  assert (Hrw : rows_wf a).
  { unfold rows_wf. rewrite Hrs, Hf. eapply Forall_impl; [exact Hw|]. simpl. intros r Er. lia. }
  rewrite <- Hn, <- Hf. destruct (on_row _ _) eqn:Hon; cbn [andb].
  2: { apply get_value_off_row; auto. }
  destruct (Z.leb_spec 1 col), (Z.leb_spec col (ArtResultSet.num_fields a)); cbn [andb];
    try (apply get_value_off_row; auto; right; lia).
  destruct (get_value_on_row "getString" MyVal_getString col a) as (r & v & H1 & H2 & H3); auto.
  destruct (get_value_on_row "getInt64" MyVal_getInt64 col a) as (r' & v' & H1' & H2' & H3'); auto.
  rewrite Hrs in *. exists r, v. split; [done|]. split; [done|]. split; [done|].
  unfold ArtResultSet.getInt64. rewrite H3'. congruence.
Qed.

Lemma art_reads_current_row_witness :
  ArtResultSet.getString 1
    (ArtResultSet.run_move MNext (Art_new ["a" : str] [[@typeInt integer_doubles 42]])).2 =
  (Ok ("42" : str), (ArtResultSet.run_move MNext (Art_new ["a" : str] [[typeInt 42]])).2).
Proof.
  set (a := (ArtResultSet.run_move MNext (Art_new ["a" : str] [[typeInt 42]])).2).
  destruct (art_reads_current_row integer_doubles ["a" : str] [[typeInt 42]] a 1)
    as (r & v & H1 & H2 & H3 & _).
  - by vm_compute.
  - by repeat constructor.
  - apply (ReachMove _ _ MNext); [apply ReachNew|done].
  - lia.
  - rewrite H3. vm_compute in H1. injection H1 as <-. vm_compute in H2. injection H2 as <-.
    by vm_compute.
Defined.

(** an integer of at most 18 characters is printed in full; one of 19
    characters loses its last one to a NUL, and a longer one reads a byte that was
    never written. *)
Theorem long_integers_truncated (LD : LongDouble) (l : Z) (t : str) :
  show_dec l = Ok t ->
  MyVal_getString (typeInt l) =
    if size t <=? 18 then Ok t
    else if size t =? 19 then Ok (take 18 t ++ ["000"%char]) else Undefined.
Proof.
  intros Ht. unfold MyVal_getString. rewrite Ht, obind_Ok. unfold snprintf_string.
  change (20 - 2) with 18. change (20 - 1) with 19. change (Z.to_nat 18) with 18%nat.
  destruct (Z.leb_spec (size t) 18); [done|].
  by destruct (Z.leb_spec (size t) 19), (Z.eqb_spec (size t) 19); try lia.
Qed.

Lemma long_integers_truncated_witness :
  @MyVal_getString integer_doubles (typeInt 1234567890123456789) =
    Ok (("123456789012345678" : str) ++ ["000"%char]).
Proof.
  rewrite (long_integers_truncated integer_doubles 1234567890123456789 "1234567890123456789")
    by by vm_compute. by vm_compute.
Defined.

(** ** Results of a query *)

(** C17: over a stored result, any sequence of moves that no [absolute] or
    [relative] takes before the first row reports what the cursor specification
    says, ends at its position and leaves that row fetched. *)
Theorem rs_follows_cursor (C : CResult) (SC : StoredResult C) (rows : list crow) (r : res)
    (proxy : option (Z * str)) (ms : list move) :
  stored r rows 0 -> Z.of_nat (length rows) < INT_MAX ->
  let n := Z.of_nat (length rows) in
  allowed ResultSet.run_move n 0 ms ->
  let p := final n 0 ms in
  exists a, run_moves ResultSet.run_move ms (Rs_new r proxy TYPE_SCROLL_INSENSITIVE) =
      (Ok (answers n 0 ms), a) /\
    ResultSet.row_position a = p /\
    (on_row n p = true -> row a = rows !! Z.to_nat (p - 1)).
Proof.
  intros Hst Hn n Hall p.
  destruct (run_moves_spec ResultSet.run_move n ms 0 (Rs_new r proxy TYPE_SCROLL_INSENSITIVE))
    as (a & E & Ha); [by apply Rs_new_at|done|].
  destruct Ha as [_ _ _ Hp _ (s & k & _ & _ & _ & Hrow)].
  exists a. split; [exact E|]. split; [exact Hp|]. unfold on_row. rewrite andb_true_iff, !Z.leb_le.
  intros Hon. by apply Hrow.
Qed.

(** Two rows of two columns, held in memory. *)
Definition two_fields : list field := [
  simple_field "COLUMN_NAME" MYSQL_TYPE_VAR_STRING 0 64;
  simple_field "Data_Type" MYSQL_TYPE_VAR_STRING 0 64
].
Definition two_rows : list crow :=
  [[Some ("cust" : str); Some ("varchar" : str)]; [Some ("quant" : str); Some ("int" : str)]].

Lemma rs_follows_cursor_witness :
  exists a, run_moves (@ResultSet.run_move (in_memory two_fields))
      [MLast; MPrevious; MNext; MNext; MAbsolute (-2)]
      (@Rs_new (in_memory two_fields) (two_rows, 0%nat) None TYPE_SCROLL_INSENSITIVE) =
    (Ok [true; true; true; false; true], a) /\ row a = two_rows !! 0%nat.
Proof.
  destruct (rs_follows_cursor (in_memory two_fields) (in_memory_stored two_fields) two_rows
    (two_rows, 0%nat) None [MLast; MPrevious; MNext; MNext; MAbsolute (-2)]) as (a & E & _ & Hr).
  - done.
  - by vm_compute.
  - repeat split; unfold INT_MIN, INT_MAX; simpl; lia.
  - exists a. split; [exact E|]. by apply Hr.
Defined.

(** C18: [while(res->next())] with [getString] of two labels, the loop that reads
    the columns of the table (output.cpp), returns the two texts of every row, in
    order, and stops after the last one. *)
Theorem columns_are_read (C : CResult) (SC : StoredResult C) (rows : list crow)
    (names : list str) (a : Rs) (label1 label2 name1 name2 : str) (j1 j2 fuel : nat) :
  rs_at C rows 0 a -> labels C names a -> full_rows rows names ->
  NoDup (map (fun s => utf8_strup s 0) names) ->
  names !! j1 = Some name1 -> utf8_strup name1 0 = utf8_strup label1 0 ->
  names !! j2 = Some name2 -> utf8_strup name2 0 = utf8_strup label2 0 ->
  text_column C rows (Z.of_nat j1 + 1) -> text_column C rows (Z.of_nat j2 + 1) ->
  (length rows < fuel)%nat ->
  exists a',
    read_all (x ← getString_label label1; y ← getString_label label2; mret (x, y)) fuel a =
      (Ok (map (fun r => (text_of (Z.of_nat j1 + 1) r, text_of (Z.of_nat j2 + 1) r)) rows), a') /\
    ResultSet.row_position a' = Z.of_nat (length rows) + 1.
Proof.
  intros Ha Hn Hf Hd H1 E1 H2 E2 T1 T2 Hfuel.
  destruct (read_all_rows C rows
    (x ← getString_label label1; y ← getString_label label2; mret (x, y)) (labels C names)
    (fun r => (text_of (Z.of_nat j1 + 1) r, text_of (Z.of_nat j2 + 1) r)))
    with (fuel := fuel) (i := 0%nat) (a := a) as (a' & E & _ & Ha'); [| |done|done|lia|lia|].
  - intros b b'. apply labels_same.
  - intros b i r Hb Hr Hat.
    eapply moves_bind; [by apply (getString_label_moves C rows i r b names _ j1 name1)|].
    intros b1 S1 A1. pose proof (labels_same _ _ _ _ S1 Hb) as Hb1.
    eapply moves_bind; [by apply (getString_label_moves C rows i r b1 names _ j2 name2)|].
    intros b2 S2 A2. by apply moves_ret.
  - exists a'. split; [exact E|]. apply (at_position C rows _ _ Ha').
Qed.

Lemma columns_are_read_witness :
  exists a',
    read_all (x ← getString_label "COLUMN_NAME"; y ← getString_label "DATA_TYPE"; mret (x, y)) 3
      (@Rs_new (in_memory two_fields) (two_rows, 0%nat) None TYPE_SCROLL_INSENSITIVE) =
    (Ok [("cust" : str, "varchar" : str); ("quant" : str, "int" : str)], a') /\
    ResultSet.row_position a' = 3.
Proof.
  refine (columns_are_read (in_memory two_fields) (in_memory_stored two_fields) two_rows
    ["COLUMN_NAME" : str; "Data_Type" : str] _ "COLUMN_NAME" "DATA_TYPE" _ _ 0 1 3
    (Rs_new_at _ _ _ _ _ _) _ _ _ eq_refl _ eq_refl _ _ _ _).
  - done.
  - by vm_compute.
  - by split.
  - by repeat constructor.
  - apply (bool_decide_unpack (NoDup _)). by vm_compute.
  - done.
  - by vm_compute.
  - by intros s k _.
  - by intros s k _.
  - simpl. lia.
Defined.

(** from the first row, [relative(-1)] reports that the cursor left the rows
    and sets position 0, but the next [next()] gives the second row as row 1. *)
Theorem relative_before_first_skips_row (C : CResult) (SC : StoredResult C) (rows : list crow)
    (a : Rs) :
  rs_at C rows 1 a -> 2 <= Z.of_nat (length rows) ->
  exists a1 a2, relative (-1) a = (Ok false, a1) /\ ResultSet.row_position a1 = 0 /\
    ResultSet.next a1 = (Ok true, a2) /\ ResultSet.row_position a2 = 1 /\
    row a2 = rows !! 1%nat.
Proof. apply relative_then_next. Qed.

Lemma relative_before_first_skips_row_witness :
  exists a2 : @Rs (in_memory two_fields),
    ResultSet.row_position a2 = 1 /\ row a2 = two_rows !! 1%nat.
Proof.
  pose proof (Rs_new_at (in_memory two_fields) two_rows (two_rows, 0%nat) None eq_refl eq_refl) as H0.
  destruct (next_moves (in_memory two_fields) two_rows 0 _ H0) as (a & _ & _ & H1).
  destruct (relative_before_first_skips_row (in_memory two_fields) (in_memory_stored two_fields)
    two_rows a H1) as (a1 & a2 & _ & _ & _ & H2 & H3); [by vm_compute|]. by exists a2.
Defined.

(** ** Addresses *)

(** C32: [tcp://h:port/schema], [h] possibly in brackets and the last two parts
    optional, is taken apart: the port is the number after the last colon, 3306
    without one; without a slash the schema is cleared. *)
Theorem address_parsed (a : address) (h : str) (p : Z) (u : MySQL_Uri) :
  address_ok a p -> size h + size (authority_text a) + 2 < npos ->
  (hd_error (authority_text a) <> Some "["%char ->
   parseUri (MYURI_TCP_PREFIX ++ authority_text a) u = (Ok true, with_address a p u)) /\
  (a_host a = [] -> ("]"%char ∉ h) ->
   parseUri (MYURI_TCP_PREFIX ++ "["%char :: h ++ "]"%char :: authority_text a) u =
     (Ok true, with_address a p (setHost h u))).
Proof.
  intros Ha Hs. split.
  - intros Hb. apply parseUri_plain; [done|done|]. pose proof (size_nonneg h). lia.
  - intros Hn Hh. by apply parseUri_brackets.
Qed.

Lemma address_parsed_witness :
  parseUri "tcp://127.0.0.1:3306" Uri_new = (Ok true, MkUri PROTOCOL_TCP 3306 "127.0.0.1" []) /\
  parseUri "tcp://[::1]/sales" Uri_new = (Ok true, MkUri PROTOCOL_TCP 3306 "::1" "sales").
Proof.
  assert (Hin : forall (c : ascii) (s : str), bool_decide (c ∈ s) = false -> c ∉ s)
    by (intros c s E; by apply bool_decide_eq_false in E).
  split.
  - apply (proj1 (address_parsed (Address "127.0.0.1" (Some ("3306" : str)) None) [] 3306 Uri_new
      ltac:(repeat split; (apply Hin; by vm_compute) || by vm_compute) eq_refl)). done.
  - apply (proj2 (address_parsed (Address [] None (Some ("sales" : str))) "::1" 3306 Uri_new
      ltac:(repeat split; (apply Hin; by vm_compute) || by vm_compute) eq_refl)); [done|].
    apply Hin. by vm_compute.
Defined.
