(* ===== verification/Prepared.v ===== *)
(** * Properties of prepared results and of metadata

    Each theorem is followed by its instance at a concrete input. *)

From S2P Require Import Prelude Cxx Str Unicode Cursor MyVal ArtResultSet Fields MetaData ArtMetadata RsMetadata PsMetadata.
From S2P Require Import Connector ResultBind PsResultSet PsRead.

(** ** The cursor *)

(** C19: over a stored result, any sequence of moves reports what the cursor
    specification says, ends at its position and leaves the values of that row in
    the buffers; [absolute] may be given any [int] but the least one. *)
Theorem ps_follows_cursor (C : CStatement) (SC : StoredStatement C) (rows : list (list cell))
    (s : stmt) (owners : Z) (a0 : Ps) (ms : list move) :
  held s rows 0 -> Z.of_nat (length rows) < INT_MAX ->
  Ps_new s owners TYPE_SCROLL_INSENSITIVE = Ok a0 ->
  Forall (fun r : list cell => length r = length (rbind a0)) rows -> Forall ps_allows ms ->
  let n := Z.of_nat (length rows) in
  let p := final n 0 ms in
  exists a, run_moves PsResultSet.run_move ms a0 = (Ok (answers n 0 ms), a) /\
    row_position a = p /\
    (on_row n p = true -> exists r bs, rows !! Z.to_nat (p - 1) = Some r /\
      map shape bs = map shape (rbind a0) /\ rbind a = zip_with store_cell bs r).
Proof.
  intros Hs Hn Ha0 Hf Hms n p. pose proof (Ps_new_at C rows s owners a0 Hs Hn Ha0) as Hat.
  set (k := MkConstants _ _ _ _) in Hat.
  assert (Hfull : full_rows C rows (c_shapes k)).
  { unfold full_rows. simpl. by rewrite length_map. }
  pose (I := ps_cursor C rows k Hfull).
  assert (Hall : forall q, @allowed _ PsResultSet.run_move n I q ms).
  { clear -Hms. induction Hms as [|m ms Hm _ IH]; intros q; [done|]. split; [exact Hm|apply IH]. }
  destruct (@run_moves_spec _ PsResultSet.run_move n I ms 0 a0 Hat (Hall 0)) as (a & E & Ha).
  exists a. split; [exact E|]. split; [exact (at_position _ _ _ _ _ Ha)|].
  unfold on_row. rewrite andb_true_iff, !Z.leb_le. intros Hon.
  destruct (at_filled _ _ _ _ _ Ha Hon) as (r & bs & Hr & Hsh & Hb). by exists r, bs.
Qed.

(** Three columns and two rows, held in memory; the text has a buffer of one byte. *)
Definition ps_fields : list field := [
  simple_field "quant" MYSQL_TYPE_LONG 0 11;
  simple_field "at" MYSQL_TYPE_DATETIME 0 26;
  simple_field "cust" MYSQL_TYPE_VAR_STRING 0 64
].
Definition ps_time : MYSQL_TIME := MkTime 2018 12 1 9 5 0 250 false.
Definition ps_rows : list (list memory_cell) := [
  [Some (Bytes (le_split 4 (-7)), 4); Some (Time ps_time, 40); Some (Bytes "Ada", 3)];
  [None; None; None]
].
Abbreviation ps_first :=
  (@Ps_new (in_memory_stmt ps_fields) (ps_rows, 0%nat) 3 TYPE_SCROLL_INSENSITIVE).

Lemma ps_follows_cursor_witness :
  exists a0 a, ps_first = Ok a0 /\
    run_moves PsResultSet.run_move [MLast; MRelative (-5); MNext] a0 = (Ok [true; false; true], a) /\
    row_position a = 1.
Proof.
  eexists. destruct (ps_follows_cursor (in_memory_stmt ps_fields) (in_memory_held ps_fields) ps_rows
    (ps_rows, 0%nat) 3 _ [MLast; MRelative (-5); MNext] eq_refl eq_refl eq_refl) as (a & E & Hp & _).
  - by repeat constructor.
  - repeat constructor; done.
  - exists a. split; [reflexivity|]. by split.
Defined.

(** ** Reading columns *)

(** C28: an integer column of one, two, four or eight bytes gives back the number
    that was stored, signed or unsigned: [getInt64], [getUInt64] and [getInt] in
    their width, [getString] as the decimal text that reads back as the number. *)
Theorem ps_integer_read (C : CStatement) (LD : LongDouble) (strtonum ld_of_float ld_of_double : str -> ld)
    (print_f : ld -> str) (i : Z) (b : bind) (d : DataType) (w : nat) (z : Z) (a : Ps) :
  readable C i b d a -> integer_width d = Some w -> holds_integer w z b ->
  let read {A} (get : (str -> ld) -> (str -> ld) -> (str -> ld) -> (ld -> str) -> Z -> Method Ps A) :=
    get strtonum ld_of_float ld_of_double print_f i a in
  read PsResultSet.getInt64 = (Ok (to_int64 z), set_column i a) /\
  read PsResultSet.getUInt64 = (Ok (to_size_t z), set_column i a) /\
  read PsResultSet.getInt = (Ok (to_int z), set_column i a) /\
  exists t, read PsResultSet.getString = (Ok t, set_column i a) /\ scan_int t = Some z.
Proof.
  intros Hr Hw Hb read.
  destruct (integer_read C LD strtonum ld_of_float ld_of_double print_f i b d w z a Hr Hw Hb)
    as (E1 & E2 & E3 & t & Et & E4).
  split; [exact E1|]. split; [exact E2|]. split; [exact E3|]. exists t. split; [exact E4|].
  pose proof (fits_wide d w _ z Hw (hi_fits _ _ _ Hb)).
  destruct (show_dec_ok z) as (t' & Et' & _ & Hv & _); [lia|]. congruence.
Qed.

(** The result above on its first row. *)
Definition on_first {A} (f : @Ps (in_memory_stmt ps_fields) -> A) : option A :=
  match ps_first with
  | Ok a => Some (f (PsResultSet.next a).2)
  | _ => None
  end.
Definition no_floats (_ : str) : @ld integer_doubles := 0.
Definition no_text (_ : @ld integer_doubles) : str := [].

Lemma ps_integer_read_witness :
  on_first (fun a => (@PsResultSet.getInt64 _ integer_doubles no_floats no_floats no_floats no_text 1 a).1)
    = Some (Ok (-7)).
Proof.
  unfold on_first. destruct ps_first as [a0| | |] eqn:E0; try discriminate E0.
  apply Ok_inj in E0. subst a0.
  set (a := (PsResultSet.next _).2).
  set (b := MkBind MYSQL_TYPE_LONG (Some (Bytes (le_split 4 (-7)))) 4 4 false false).
  destruct (ps_integer_read (in_memory_stmt ps_fields) integer_doubles no_floats no_floats no_floats
    no_text 1 b INTEGER 4 (-7) a) as (-> & _).
  - split; try done; by vm_compute.
  - done.
  - split; [done|by exists []|by vm_compute].
  - done.
Defined.

(** every getter returns or throws: the calls of [getDouble], [getString] and the
    two internal functions of one another are at most two deep, whatever the type
    of the column and the contents of the buffers. *)
Theorem getters_return (C : CStatement) (LD : LongDouble) (strtonum ld_of_float ld_of_double : str -> ld)
    (print_f : ld -> str) (fuel : nat) (i : Z) (a : Ps) :
  let g := getters strtonum ld_of_float ld_of_double print_f (S (S fuel)) in
  (call_getDouble g i a).1 <> Diverged /\ (call_getString g i a).1 <> Diverged /\
  (call_getInt64_intern g i a).1 <> Diverged /\ (call_getUInt64_intern g i a).1 <> Diverged.
Proof.
  intros g. set (t := PsMetadata.getColumnType (rs_meta a) i).
  assert (Ht : t <> Diverged) by apply column_type_found.
  pose proof (getters_calm_calls C LD strtonum ld_of_float ld_of_double print_f i fuel) as Hg.
  assert (Hs : forall A (P : A -> Prop) (m : Method Ps A), calm C i t P m -> (m a).1 <> Diverged).
  { intros A P m Hm. destruct (Hm a eq_refl) as [Hm' _]. by destruct (m a).1. }
  split; [|split; [|split]]; eapply Hs.
  - by apply getDouble_calm.
  - by apply getString_calm.
  - by apply getInt64_calm.
  - by apply getInt64_calm.
Qed.

(** C29: [getString] prints every member of a date and time in full: the year, month
    and day, the hour, minute and second and, unless it is zero, the fraction can be
    read back at fixed places; the buffers are long enough. *)
Theorem timestamps_read_back (C : CStatement) (LD : LongDouble)
    (strtonum ld_of_float ld_of_double : str -> ld) (print_f : ld -> str) (i : Z) (b : bind)
    (t : MYSQL_TIME) (a : Ps) :
  readable C i b TIMESTAMP a -> b_buffer b = Some (Time t) -> day_of_year t -> time_of_day t ->
  exists s,
    PsResultSet.getString strtonum ld_of_float ld_of_double print_f i a = (Ok s, set_column i a) /\
    number_at s 0 4 = t_year t /\ number_at s 5 2 = t_month t /\ number_at s 8 2 = t_day t /\
    clock_at s 11 t.
Proof.
  intros Hr Hb Hd Hc. destruct (timestamp_text t Hd Hc) as (s & Es & Hs). exists s. split; [|done].
  rewrite (time_read _ _ _ _ _ _ _ _ _ _ t Hr Hb) by auto. unfold print_as. by rewrite Es.
Qed.

Lemma timestamps_read_back_witness :
  on_first (fun a =>
    (@PsResultSet.getString _ integer_doubles no_floats no_floats no_floats no_text 2 a).1)
    = Some (Ok ("2018-12-01 09:05:00.000250" : str)) /\ number_at "2018-12-01 09:05:00.000250" 20 6 = 250.
Proof.
  unfold on_first. destruct ps_first as [a0| | |] eqn:E0; try discriminate E0.
  apply Ok_inj in E0. subst a0. set (a := (PsResultSet.next _).2).
  set (b := MkBind MYSQL_TYPE_DATETIME (Some (Time ps_time)) 40 40 false false).
  destruct (timestamps_read_back (in_memory_stmt ps_fields) integer_doubles no_floats no_floats no_floats
    no_text 2 b ps_time a) as (s & E & _ & _ & _ & _ & _ & _ & Hp & _).
  - split; try done; by vm_compute.
  - done.
  - by repeat split.
  - by repeat split.
  - assert (Hs : s = "2018-12-01 09:05:00.000250").
    { apply (f_equal fst) in E. apply Ok_inj. simpl fst in E. rewrite <- E. by vm_compute. }
    subst s. rewrite E. split; [done|]. by apply Hp.
Defined.

(** ** What is not read as it was stored *)

(** the text of a column is read with the length of the value, not of the
    buffer: of a value longer than the buffer, bytes after its end are read.  The
    buffer of a text column has the length of the longest value ([max_length]) and
    one byte more, which is 1 for a result that was not stored. *)
Theorem text_read_past_buffer (C : CStatement) (LD : LongDouble)
    (strtonum ld_of_float ld_of_double : str -> ld) (print_f : ld -> str) (f : field)
    (bs : list bind) (j : nat) (i : Z) (b : bind) (d : DataType) (bytes : str) (a : Ps) :
  readable C i b d a -> text_type d = true -> b_buffer b = Some (Bytes bytes) ->
  size bytes = b_buffer_length b ->
  PsResultSet.getString strtonum ld_of_float ld_of_double print_f i a =
    (if b_length b <=? b_buffer_length b then Ok (take (Z.to_nat (b_length b)) bytes) else Undefined,
     set_column i a) /\
  (f_type f = MYSQL_TYPE_VAR_STRING -> f_max_length f = 0 -> fields_of (a.(proxy)) !! j = Some f ->
   bind_fields (fields_of (a.(proxy))) = Ok bs ->
   exists b', bs !! j = Some b' /\ b_buffer_length b' = 1).
Proof.
  intros Hr Ht Hb Hl. split.
  - rewrite (text_read _ _ _ _ _ _ _ _ _ _ Hr Ht), Hb. unfold load_bytes. by rewrite Hl.
  - intros Hf Hm Hj Hbs. destruct (bind_fields_lookup _ _ _ _ Hbs Hj) as (p & b' & Hp & Hb' & ->).
    exists (MkBind (p_type p) None (p_size p) 0 false (has_flag f UNSIGNED_FLAG)). split; [done|].
    unfold allocate_buffer_for_field in Hp. rewrite Hf, Hm in Hp. by apply Ok_inj in Hp as <-.
Qed.

Lemma text_read_past_buffer_witness :
  on_first (fun a =>
    (@PsResultSet.getString _ integer_doubles no_floats no_floats no_floats no_text 3 a).1)
    = Some Undefined.
Proof.
  unfold on_first. destruct ps_first as [a0| | |] eqn:E0; try discriminate E0.
  apply Ok_inj in E0. subst a0. set (a := (PsResultSet.next _).2).
  set (b := MkBind MYSQL_TYPE_VAR_STRING (Some (Bytes "A")) 1 3 false false).
  destruct (text_read_past_buffer (in_memory_stmt ps_fields) integer_doubles no_floats no_floats
    no_floats no_text (simple_field "cust" MYSQL_TYPE_VAR_STRING 0 64) [] 2 3 b VARCHAR "A" a) as [-> _].
  - split; try done; by vm_compute.
  - done.
  - done.
  - done.
  - done.
Defined.

(** a result that is not stored stays on a row at its end: [next] reports that
    there is no row, yet what a getter could read before it can still read. *)
Theorem forward_end_keeps_row (C : CStatement) (a : Ps) (s' : stmt) (i : Z) (b : bind) (d : DataType) :
  resultset_type a = TYPE_FORWARD_ONLY -> 0 <= row_position a < npos ->
  stmt_fetch (proxy a) (rbind a) = (MYSQL_NO_DATA, rbind a, s') -> MYSQL_NO_DATA <> 1 ->
  readable C i b d a ->
  exists a', PsResultSet.next a = (Ok false, a') /\ row_position a' = row_position a + 1 /\
    readable C i b d a'.
Proof.
  intros Ht Hp Hf H1 [].
  exists (set_position (row_position a + 1) (set_rbind (rbind a) (set_proxy s' (set_column NO_COLUMN a)))).
  split; [|split; [done|]].
  - assert (Ev : PsResultSet.checkValid a = (Ok tt, a)).
    { unfold PsResultSet.checkValid, PsResultSet.isClosed, read, mbind, Method_bind. simpl.
      by rewrite rd_valid. }
    assert (Es : PsResultSet.isScrollable a = (Ok false, a)).
    { unfold PsResultSet.isScrollable. rewrite method_read. by rewrite Ht. }
    assert (Ef : PsResultSet.fetch (set_column NO_COLUMN a) =
      (Ok MYSQL_NO_DATA, set_rbind (rbind a) (set_proxy s' (set_column NO_COLUMN a)))).
    { unfold PsResultSet.fetch. rewrite !method_read. simpl. by rewrite Hf. }
    assert (En : forall x : Ps, fetched MYSQL_NO_DATA x = (Ok false, x)).
    { intros x. unfold fetched. by rewrite (proj2 (Z.eqb_neq _ _) H1), Z.eqb_refl. }
    unfold PsResultSet.next. rewrite (method_bind_ok Ev), (method_bind_ok Es), method_update.
    rewrite (method_bind_ok Ef), (method_bind_ok (En _)). unfold step_position.
    replace (row_position a + 1) with (to_size_t (row_position a + 1))
      by (apply to_size_t_small; unfold npos in Hp; lia).
    reflexivity.
  - split; simpl; try done; lia.
Qed.

(** The rows above, fetched one by one: after the second [next] there is no row. *)
Definition at_end {A} (f : @Ps (in_memory_stmt ps_fields) -> A) : option A :=
  match @Ps_new (in_memory_stmt ps_fields) (take 1 ps_rows, 0%nat) 3 TYPE_FORWARD_ONLY with
  | Ok a => Some (f (PsResultSet.next a).2)
  | _ => None
  end.

Lemma forward_end_keeps_row_witness :
  at_end (fun a => ((PsResultSet.next a).1,
    (@PsResultSet.getInt _ integer_doubles no_floats no_floats no_floats no_text 1
      (PsResultSet.next a).2).1)) = Some (Ok false, Ok (-7)).
Proof.
  unfold at_end. destruct (Ps_new _ _ _) as [a0| | |] eqn:E0; try discriminate E0.
  apply Ok_inj in E0. subst a0. set (a := (PsResultSet.next _).2).
  set (b := MkBind MYSQL_TYPE_LONG (Some (Bytes (le_split 4 (-7)))) 4 4 false false).
  destruct (forward_end_keeps_row (in_memory_stmt ps_fields) a (take 1 ps_rows, 1%nat) 1 b INTEGER)
    as (a' & E & _ & Hr).
  - done.
  - by vm_compute.
  - by vm_compute.
  - done.
  - split; try done; by vm_compute.
  - rewrite E. f_equal. f_equal. simpl.
    destruct (integer_read _ integer_doubles no_floats no_floats no_floats no_text 1 b INTEGER 4 (-7) a' Hr)
      as (_ & _ & -> & _); [done| |done].
    split; [done|by exists []|by vm_compute].
Defined.

(** ** Types, names and metadata *)

(** the name printed for the type of a column, in small letters as the server
    stores it, is read as the type of the column, for every [regular] column. *)
Theorem type_names_read (F : FieldFlags) (f : field) (d : DataType) (s : str) :
  mysql_type_to_datatype f = Ok d -> mysql_type_to_string f = Ok s -> regular f = true ->
  mysql_string_type_to_datatype (map ascii_lower s) = d.
Proof. apply type_name_read. Qed.

Lemma type_names_read_witness :
  mysql_string_type_to_datatype "mediumint unsigned" = MEDIUMINT.
Proof.
  apply (type_names_read documented_flags (simple_field "n" MYSQL_TYPE_INT24 32 9) MEDIUMINT
    "MEDIUMINT UNSIGNED"); by vm_compute.
Defined.

(** C39: when the results are bound, the buffer of every integer column gets the
    width of its type and the sign of the column, so that [getInt64] finds a
    width it knows. *)
Theorem integer_buffers (C : CStatement) (s s' : stmt) (bs : list bind) (j : nat) (f : field)
    (d : DataType) (w : nat) :
  bindResult s = Ok (bs, s') -> fields_of s !! j = Some f ->
  mysql_type_to_datatype f = Ok d -> integer_width d = Some w ->
  exists b, bs !! j = Some b /\ b_buffer_length b = Z.of_nat w /\
    b_is_unsigned b = has_flag f UNSIGNED_FLAG /\
    forall bytes, length bytes = w -> exists z,
      integer_of (MkBind (b_type b) (Some (Bytes bytes)) (b_buffer_length b) (b_length b) false
        (b_is_unsigned b)) = Ok z.
Proof.
  intros Hb Hj Hd Hw. unfold bindResult in Hb. destruct (Z.eqb_spec (stmt_field_count s) 0) as [E|E].
  { unfold fields_of in Hj. rewrite E in Hj. done. }
  apply bind_Ok in Hb as (bs' & Hbs & Hb). destruct (stmt_bind_result s bs') as [[] s1]; [done|].
  apply Ok_inj in Hb as [= -> _].
  destruct (bind_fields_lookup _ _ _ _ Hbs Hj) as (p & b & Hp & Hlk & ->).
  destruct (allocated_width f d w Hd Hw) as (p' & Hp' & Hsz). rewrite Hp in Hp'.
  apply Ok_inj in Hp' as <-. eexists. split; [done|]. simpl. split; [done|]. split; [done|].
  intros bytes Hl. rewrite (integer_of_width d w) by done. simpl b_is_unsigned. simpl b_buffer.
  assert (Hu : exists z, load_unsigned w (Some (Bytes bytes)) = Ok z).
  { unfold load_unsigned. rewrite (proj2 (Nat.leb_le _ _)) by lia. by eexists. }
  destruct Hu as [z Hz]. unfold load_signed. rewrite Hz.
  destruct (has_flag f UNSIGNED_FLAG); by eexists.
Qed.

Lemma integer_buffers_witness :
  exists bs b, @bindResult (in_memory_stmt ps_fields) (ps_rows, 0%nat) = Ok (bs, (ps_rows, 0%nat)) /\
    bs !! 0%nat = Some b /\ b_buffer_length b = 4.
Proof.
  eexists. destruct (integer_buffers (in_memory_stmt ps_fields) (ps_rows, 0%nat) (ps_rows, 0%nat) _ 0
    (simple_field "quant" MYSQL_TYPE_LONG 0 11) INTEGER 4 eq_refl eq_refl eq_refl eq_refl)
    as (b & Hb & Hl & _). exists b. by split.
Defined.

(** the metadata of a result describes exactly its columns: outside of them
    every method throws, inside of them every method returns for a column whose
    character set is known, and once the result is gone every method throws. *)
Theorem metadata_of_result (F : FieldFlags) (fields : Z -> field) (n i : Z) :
  0 <= i ->
  let m := Rsm_new (Some (fields, n)) in
  MetaData.getColumnCount m = Ok n /\
  (~ (1 <= i <= n) -> Forall (eq (Throw no_column)) (column_methods m i)) /\
  (1 <= i <= n -> (exists e, find_charset (f_charsetnr (fields (i - 1))) = Ok (Some e)) ->
   Forall (fun o => is_ok o = true) (column_methods m i) /\
   MetaData.isWritable m i = negb <$> MetaData.isReadOnly m i) /\
  Forall (eq (Throw (SqlInvalidArgument "ResultSet is not valid anymore")))
    (column_methods (Rsm_expire m) i).
Proof.
  intros Hi m. pose (L := @Rsm_laws F). assert (Hv : @md_valid _ _ L m) by done.
  split; [exact (@md_columns _ _ L m Hv)|]. split; [exact (@md_out_of_range _ _ L m i Hv Hi)|]. split; [|by apply expired_throws].
  intros Hin [e He]. split; [|exact (@md_writable _ _ L m i Hv Hin)].
  by eapply (RsMetadata.rsm_methods_return i m (fields (i - 1)) e).
Qed.

Lemma metadata_of_result_witness :
  let m := @Rsm_new (Some (fun _ => simple_field "cust" MYSQL_TYPE_LONG 32 11, 1)) in
  Forall (eq (Throw no_column)) (@column_methods _ (@Rsm_methods documented_flags) m 2).
Proof.
  apply (metadata_of_result documented_flags (fun _ => simple_field "cust" MYSQL_TYPE_LONG 32 11) 1 2); lia.
Defined.

(** The message about a character set the server sent and the table does not have. *)
Example unknown_charset_message :
  @known_charset unit 999 tt = Throw (SqlError "999) . Please reportcharsetnr (").
Proof. by vm_compute. Qed.

(** The first of two entries with the number 248 is found. *)
Example charset_248 :
  find_charset 248 = Ok (Some (OUR 248 "utf8mb4" "utf8mb4_vietnamese_ci" 1 4 [])).
Proof. by vm_compute. Qed.
