(* ===== verification/SqlStr.v ===== *)
(** * mysqlconnector cppconn/sqlstring.h: the strings of the connector

    [sql::SQLString] forwards to [std::string]: searching from a position, replacing,
    comparing; and [std::list::sort].  Positions are [size_t] values. *)

From S2P Require Import Prelude Cxx Str Fields.

(** ** Searching and replacing *)

(** [s.find(pat, pos)] *)
Definition find_from (s pat : str) (pos : Z) : Z :=
  if size s <? pos then npos
  else match find_nat pat (drop (Z.to_nat pos) s) with
       | Some i => pos + Z.of_nat i
       | None => npos
       end.

(** [s.replace(pos, n, r)] *)
Definition replace_at (s : str) (pos n : Z) (r : str) : outcome str :=
  if size s <? pos then Throw OutOfRange
  else Ok (take (Z.to_nat pos) s ++ r ++ drop (Z.to_nat (pos + Z.min n (size s - pos))) s).

(** [while (!stop(pos)) ++pos;]: reading past the end is undefined, so that the length of
    the string and 2 bounds the rounds. *)
Fixpoint scan_while (stop : Z -> outcome bool) (fuel : nat) (pos : Z) : outcome Z :=
  match fuel with
  | O => Diverged
  | S fuel' =>
      b ← stop pos;
      if (b : bool) then Ok pos else scan_while stop fuel' (to_size_t (pos + 1))
  end.
Definition scan_to (s : str) (c : ascii) (pos : Z) : outcome Z :=
  scan_while (fun p => x ← str_idx s p; Ok (bool_decide (x = c))) (length s + 2) pos.
Definition skip_spaces (s : str) (pos : Z) : outcome Z :=
  scan_while (fun p => x ← str_idx s p; Ok (bool_decide (x <> " "%char))) (length s + 2) pos.

(** ** Comparing *)

(** The sign of [a.compare(b)]: bytes are compared as unsigned, then the lengths. *)
Fixpoint str_compare (a b : str) : comparison :=
  match a, b with
  | [], [] => Eq
  | [], _ :: _ => Lt
  | _ :: _, [] => Gt
  | x :: a', y :: b' =>
      match Nat.compare (nat_of_ascii x) (nat_of_ascii y) with
      | Eq => str_compare a' b'
      | c => c
      end
  end.
Definition str_ltb (a b : str) : bool := match str_compare a b with Lt => true | _ => false end.

(** [caseCompare] of small letters. *)
Definition caseCompare (a b : str) : comparison :=
  str_compare (map ascii_lower a) (map ascii_lower b).

(** ** std::list::sort *)

(** The sort is stable: an element is put before the first one it is less than. *)
Fixpoint insert_sorted {A} (lt : A -> A -> outcome bool) (x : A) (l : list A) : outcome (list A) :=
  match l with
  | [] => Ok [x]
  | y :: l' =>
      b ← lt x y;
      if (b : bool) then Ok (x :: l) else r ← insert_sorted lt x l'; Ok (y :: r)
  end.
Fixpoint sort_from {A} (lt : A -> A -> outcome bool) (l sorted : list A) : outcome (list A) :=
  match l with
  | [] => Ok sorted
  | x :: l' => r ← insert_sorted lt x sorted; sort_from lt l' r
  end.
Definition list_sort {A} (lt : A -> A -> outcome bool) (l : list A) : outcome (list A) :=
  sort_from lt l [].

(** ** Facts *)

Lemma str_compare_refl a : str_compare a a = Eq.
Proof. induction a as [|x a IH]; simpl; [done|]. by rewrite Nat.compare_refl. Qed.

Lemma str_compare_eq a b : str_compare a b = Eq <-> a = b.
Proof.
  split; [|intros ->; apply str_compare_refl].
  revert b. induction a as [|x a IH]; intros [|y b]; simpl; try done.
  destruct (Nat.compare_spec (nat_of_ascii x) (nat_of_ascii y)) as [E|E|E]; try done.
  intros H. rewrite (IH b H). f_equal.
  rewrite <- (ascii_nat_embedding x), <- (ascii_nat_embedding y). by f_equal.
Qed.

(** An element that is less than none of the list goes to its end. *)
Lemma insert_sorted_last {A} (lt : A -> A -> outcome bool) x l :
  Forall (fun y => lt x y = Ok false) l -> insert_sorted lt x l = Ok (l ++ [x]).
Proof. induction 1 as [|y l Hy _ IH]; simpl; [done|]. by rewrite Hy, IH. Qed.

(** A list in which no element is less than an earlier one is left as it is. *)
Lemma list_sort_ordered {A} (lt : A -> A -> outcome bool) l :
  (forall i j x y, (i < j)%nat -> l !! i = Some x -> l !! j = Some y -> lt y x = Ok false) ->
  list_sort lt l = Ok l.
Proof.
  intros H. unfold list_sort.
  assert (G : forall r done, l = done ++ r -> sort_from lt r done = Ok l); [|by apply G].
  intros r. induction r as [|x r IH]; intros dn E; simpl; [by rewrite E, app_nil_r|].
  rewrite insert_sorted_last.
  - simpl. apply IH. by rewrite E, <- app_assoc.
  - apply Forall_lookup. intros i y Hy.
    pose proof (lookup_lt_Some _ _ _ Hy).
    apply (H i (length dn)); [done| |].
    + rewrite E. by rewrite lookup_app_l.
    + rewrite E. by rewrite list_lookup_middle.
Qed.

Lemma size_replicate n c : size (replicate n c) = Z.of_nat n.
Proof. unfold size. by rewrite length_replicate. Qed.
#[export] Hint Rewrite size_replicate : size.

(** Positions inside a text that is split at the position. *)
Lemma find_from_app a pat b i :
  find_nat pat b = Some i -> find_from (a ++ b) pat (size a) = size a + Z.of_nat i.
Proof.
  intros H. unfold find_from. rewrite size_app.
  rewrite (proj2 (Z.ltb_ge _ _)) by size_lia.
  unfold size. by rewrite Nat2Z.id, drop_app_length, H.
Qed.

Lemma find_from_absent a pat b : find_nat pat b = None -> find_from (a ++ b) pat (size a) = npos.
Proof.
  intros H. unfold find_from. rewrite size_app.
  rewrite (proj2 (Z.ltb_ge _ _)) by size_lia.
  unfold size. by rewrite Nat2Z.id, drop_app_length, H.
Qed.

Lemma scan_while_stops stop fuel pos : stop pos = Ok true -> scan_while stop (S fuel) pos = Ok pos.
Proof. simpl. by intros ->. Qed.

(** The scan passes what is in [mid] and stops before [c]. *)
Lemma scan_while_passes s stop a mid b :
  s = a ++ mid ++ b -> size s < npos ->
  (forall i, (i < length mid)%nat -> stop (size a + Z.of_nat i) = Ok false) ->
  stop (size a + size mid) = Ok true ->
  scan_while stop (length s + 2) (size a) = Ok (size a + size mid).
Proof.
  intros Hs Hn Hm Hb.
  assert (G : forall n k fuel, (n + k = length mid)%nat -> (n < fuel)%nat ->
    scan_while stop fuel (size a + Z.of_nat k) = Ok (size a + size mid)).
  { intros n. induction n as [|n IH]; intros k [|fuel] Hk Hf; [lia| |lia|].
    - simpl in Hk. subst k. apply scan_while_stops. exact Hb.
    - cbn [scan_while]. rewrite Hm by lia. cbn [mbind outcome_bind].
      rewrite to_size_t_small.
      + replace (size a + Z.of_nat k + 1) with (size a + Z.of_nat (S k)) by lia.
        apply IH; lia.
      + rewrite Hs, !size_app in Hn. unfold npos in Hn. unfold size in *. lia. }
  specialize (G (length mid) 0%nat (length s + 2)%nat). rewrite Z.add_0_r in G. apply G; [lia|].
  rewrite Hs, !length_app. lia.
Qed.

Lemma str_idx_app a b i :
  str_idx (a ++ b) (size a + Z.of_nat i) = str_idx b (Z.of_nat i).
Proof.
  unfold str_idx. rewrite size_app.
  destruct (decide (0 <= Z.of_nat i < size b)) as [H|H].
  - rewrite decide_True by size_lia.
    replace (Z.to_nat (size a + Z.of_nat i)) with (length a + i)%nat by (unfold size; lia).
    rewrite lookup_app_r by lia.
    replace (length a + i - length a)%nat with i by lia. by rewrite Nat2Z.id.
  - rewrite decide_False by size_lia.
    destruct (decide (Z.of_nat i = size b)).
    + by rewrite decide_True by lia.
    + by rewrite decide_False by lia.
Qed.

Lemma str_idx_cons c b : str_idx (c :: b) 0 = Ok c.
Proof. unfold str_idx. by rewrite decide_True by size_lia. Qed.

Lemma str_idx_at a c b i : i = size a -> str_idx (a ++ c :: b) i = Ok c.
Proof. intros ->. apply str_idx_mid. Qed.

Lemma notin_at (c : ascii) mid b i : c ∉ mid -> (i < length mid)%nat ->
  exists x, str_idx (mid ++ b) (Z.of_nat i) = Ok x /\ x <> c /\ mid !! i = Some x.
Proof.
  intros Hc Hi. destruct (lookup_lt_is_Some_2 mid i Hi) as [x Hx]. exists x.
  split; [|split; [|done]].
  - unfold str_idx. rewrite size_app. rewrite decide_True by (unfold size; lia).
    by rewrite Nat2Z.id, lookup_app_l, Hx by lia.
  - intros ->. by apply Hc, (list_elem_of_lookup_2 _ i).
Qed.

Lemma scan_to_app s a mid c b :
  s = a ++ mid ++ c :: b -> size s < npos -> c ∉ mid ->
  scan_to s c (size a) = Ok (size a + size mid).
Proof.
  intros Hs Hn Hc. unfold scan_to. apply (scan_while_passes _ _ _ _ (c :: b) Hs Hn); rewrite Hs.
  - intros i Hi. rewrite str_idx_app. destruct (notin_at c mid (c :: b) i Hc Hi) as (x & -> & Hx & _).
    simpl. by rewrite bool_decide_false.
  - change (size mid) with (Z.of_nat (length mid)). rewrite str_idx_app, str_idx_at by done.
    simpl. by rewrite bool_decide_true.
Qed.

Lemma skip_spaces_app s a n x b :
  s = a ++ replicate n " "%char ++ x :: b -> size s < npos -> x <> " "%char ->
  skip_spaces s (size a) = Ok (size a + Z.of_nat n).
Proof.
  intros Hs Hn Hx. unfold skip_spaces.
  replace (Z.of_nat n) with (size (replicate n " "%char)) by (unfold size; by rewrite length_replicate).
  apply (scan_while_passes _ _ _ _ (x :: b) Hs Hn); rewrite Hs.
  - intros i Hi. rewrite str_idx_app. rewrite length_replicate in Hi.
    unfold str_idx. rewrite decide_True by (rewrite size_app; unfold size; rewrite length_replicate; lia).
    rewrite Nat2Z.id, lookup_app_l by by rewrite length_replicate.
    by rewrite lookup_replicate_2.
  - change (size (replicate n " "%char)) with (Z.of_nat (length (replicate n " "%char))).
    rewrite str_idx_app, str_idx_at by done.
    simpl. by rewrite bool_decide_true.
Qed.

(** A piece of a text. *)
Lemma substr_piece a b c pos n :
  pos = size a -> n = size b -> substr (a ++ b ++ c) pos n = Ok b.
Proof. intros -> ->. apply substr_mid. Qed.

(** ** Facts: a pattern and what it cannot span *)

Lemma starts_with_split pat x c r :
  c ∉ pat -> starts_with pat (x ++ c :: r) = starts_with pat x.
Proof.
  revert x. induction pat as [|p pat IH]; intros [|y x] Hc; try done; simpl.
  - apply not_elem_of_cons in Hc as [Hp _]. by rewrite bool_decide_false by congruence.
  - apply not_elem_of_cons in Hc as [_ Hc]. by rewrite IH.
Qed.

(** A character that is not in the pattern separates the places where it can be. *)
Lemma find_nat_split p pat x c r :
  c ∉ p :: pat ->
  find_nat (p :: pat) (x ++ c :: r) =
    match find_nat (p :: pat) x with
    | Some i => Some i
    | None => (fun i => length x + i)%nat <$> find_nat (p :: pat) (c :: r)
    end.
Proof.
  intros Hc. induction x as [|y x IH].
  - change (find_nat (p :: pat) []) with (@None nat). cbn [app length].
    destruct (find_nat _ (c :: r)); done.
  - rewrite find_nat_unfold, (starts_with_split (p :: pat) (y :: x) c r Hc).
    rewrite (find_nat_unfold _ (y :: x)). destruct (starts_with (p :: pat) (y :: x)); [done|].
    cbn [app]. rewrite IH. destruct (find_nat (p :: pat) x); [done|].
    destruct (find_nat (p :: pat) (c :: r)); done.
Qed.

(** A separated text after which the pattern does not occur. *)
Definition apart (pat rest : str) : Prop :=
  find_nat pat rest = None /\ match rest with [] => True | c :: _ => c ∉ pat end.

Lemma find_nat_apart p pat x rest :
  apart (p :: pat) rest -> find_nat (p :: pat) (x ++ rest) = find_nat (p :: pat) x.
Proof.
  intros [Hf Hc]. destruct rest as [|c rest]; [by rewrite app_nil_r|].
  rewrite find_nat_split by done. rewrite Hf. by destruct (find_nat _ x).
Qed.

(** The first occurrence after a separated prefix without one. *)
Lemma find_nat_after p pat x c r i :
  c ∉ p :: pat -> find_nat (p :: pat) x = None -> find_nat (p :: pat) (c :: r) = Some i ->
  find_nat (p :: pat) (x ++ c :: r) = Some (length x + i)%nat.
Proof. intros Hc Hx Hr. rewrite find_nat_split by done. by rewrite Hx, Hr. Qed.

Lemma find_nat_next c p pat r :
  c <> p -> find_nat (p :: pat) (c :: (p :: pat) ++ r) = Some 1%nat.
Proof.
  intros Hc. rewrite find_nat_unfold. cbn [starts_with app].
  rewrite bool_decide_false by congruence. cbn [andb]. rewrite find_nat_unfold.
  change (p :: pat ++ r) with ((p :: pat) ++ r). by rewrite starts_with_app.
Qed.

Lemma find_nat_here pat r : find_nat pat (pat ++ r) = Some 0%nat.
Proof. rewrite find_nat_unfold. by rewrite starts_with_app. Qed.

(** A character is found behind what does not have it, if at all. *)
Lemma find_char_behind c x b i : c ∉ x -> find_nat [c] (x ++ b) = Some i -> (length x <= i)%nat.
Proof.
  revert i. induction x as [|y x IH]; intros i Hc H; [simpl; lia|].
  apply not_elem_of_cons in Hc as [Hy Hx]. rewrite find_nat_unfold in H. simpl in H.
  rewrite bool_decide_false in H by done. simpl in H.
  destruct (find_nat [c] (x ++ b)) as [k|] eqn:E; [|done]. injection H as <-.
  specialize (IH k Hx eq_refl). simpl. lia.
Qed.
