(* ===== verification/ForeignKeys.v ===== *)
(** * mysqlconnector jdbc/driver/mysql_metadata.cpp: foreign keys

    [parseImportedKeys] reads the first constraint of the text that SHOW CREATE TABLE
    gives, with the index arithmetic of the source; positions are [size_t] values.  The
    rows of imported keys and of indexes are sorted with [compareImportedKeys] and
    [compareIndexInfo]. *)

From S2P Require Import Prelude Cxx Str Cursor MyVal Fields SqlStr.

(** ** cppconn/metadata.h *)

Definition importedKeyCascade : Z := 0.
Definition importedKeyInitiallyDeferred : Z := 1.
Definition importedKeyInitiallyImmediate : Z := 2.
Definition importedKeyNoAction : Z := 3.
Definition importedKeyNotDeferrable : Z := 4.
Definition importedKeyRestrict : Z := 5.
Definition importedKeySetDefault : Z := 6.
Definition importedKeySetNull : Z := 7.

(** ** Names and fields *)

(** [while (def[end_pos] != quote && def[end_pos - 1] != '\\') ++end_pos;]: the loop also
    stops after a backslash. *)
Definition name_end (def : str) (quote : ascii) (pos : Z) : outcome Z :=
  scan_while (fun p =>
    x ← str_idx def p;
    if bool_decide (x = quote) then Ok true
    else y ← str_idx def (to_size_t (p - 1)); Ok (bool_decide (y = "\"%char))) (length def + 2) pos.

(** The name after a quote that is at [pos], and the position after its end. *)
Definition quoted_name (def : str) (quote : ascii) (pos : Z) : outcome (str * Z) :=
  let start := to_size_t (pos + 1) in
  end_pos ← name_end def quote start;
  name ← substr def start (to_size_t (end_pos - start));
  Ok (name, to_size_t (end_pos + 1)).

Definition read_constraint_name (def cQuote : str) (pos : Z) : outcome (str * Z) :=
  match cQuote with
  | quote :: _ => pos ← scan_to def quote pos; quoted_name def quote pos
  | [] =>
      pos ← skip_spaces def pos;
      let start := to_size_t (pos + 1) in
      end_pos ← scan_to def " " start;
      name ← substr def start (to_size_t (end_pos - start));
      Ok (name, to_size_t (end_pos + 1))
  end.

(** The [do] loop over the fields; every round passes a comma. *)
Fixpoint read_fields (fuel : nat) (def : str) (quotes end_bracket pos : Z) : outcome (list str) :=
  match fuel with
  | O => Diverged
  | S fuel' =>
      let comma_pos := find_from def "," pos in
      if (end_bracket <=? comma_pos) || (comma_pos =? npos) then
        x ← substr def (to_size_t (pos + quotes)) (to_size_t (end_bracket - pos - quotes * 2));
        Ok [x]
      else
        x ← substr def (to_size_t (pos + quotes)) (to_size_t (comma_pos - pos - quotes * 2));
        pos ← skip_spaces def (to_size_t (comma_pos + 1));
        xs ← read_fields fuel' def quotes end_bracket pos;
        Ok (x :: xs)
  end.

(** The name between a keyword and the bracket, and the position of the bracket. *)
Definition keyword_name (def cQuote : str) (pos : Z) : outcome (str * Z) :=
  match cQuote with
  | quote :: _ =>
      '(name, pos) ← quoted_name def quote pos;
      pos ← scan_to def "(" pos; Ok (name, pos)
  | [] =>
      end_pos ← scan_while (fun p =>
        x ← str_idx def p; Ok (bool_decide (x = " "%char) || bool_decide (x = "("%char)))
        (length def + 2) pos;
      name ← substr def pos (to_size_t (end_pos - pos - 1));
      pos ← scan_to def "(" (to_size_t (end_pos + 1)); Ok (name, pos)
  end.

(** ** Keywords and actions *)

(** What is read is kept in maps by keyword. *)
Record Imported := MkImported {
  constraint_name : str;
  keywords_names : gmap (list ascii) (list ascii);
  referenced_fields : gmap (list ascii) (list (list ascii));
  update_cascade : gmap (list ascii) Z;
}.
Definition add_name (k v : str) (a : Imported) : Imported :=
  MkImported (constraint_name a) (<[k := v]> (keywords_names a)) (referenced_fields a) (update_cascade a).
Definition add_fields (k : str) (v : list str) (a : Imported) : Imported :=
  MkImported (constraint_name a) (keywords_names a)
    (<[k := default [] (referenced_fields a !! k) ++ v]> (referenced_fields a)) (update_cascade a).
Definition add_action (k : str) (v : Z) (a : Imported) : Imported :=
  MkImported (constraint_name a) (keywords_names a) (referenced_fields a) (<[k := v]> (update_cascade a)).

(** The fields in the bracket that is at [pos]. *)
Definition read_bracket (def cQuote keyword : str) (pos : Z) (a : Imported) : outcome (Imported * Z) :=
  let pos := to_size_t (pos + 1) in
  let end_bracket := find_from def ")" pos in
  xs ← read_fields (length def + 2) def (size cQuote) end_bracket pos;
  Ok (add_fields keyword xs a, to_size_t (end_bracket + 1)).

Definition read_keyword (def cQuote keyword : str) (pos : Z) (a : Imported) : outcome (Imported * Z) :=
  pos ← skip_spaces def (to_size_t (find_from def keyword pos + size keyword));
  x ← str_idx def pos;
  '(a, pos) ← (if bool_decide (x <> "("%char) then
                 '(name, pos) ← keyword_name def cQuote pos; Ok (add_name keyword name a, pos)
               else Ok (a, pos));
  read_bracket def cQuote keyword pos a.

(** The action is known by its first letter; the sizes count the terminating NUL. *)
Definition action_at (x : ascii) : option (Z * Z) :=
  if bool_decide (x = "R"%char) then Some (importedKeyRestrict, 9)
  else if bool_decide (x = "C"%char) then Some (importedKeyCascade, 8)
  else if bool_decide (x = "S"%char) then Some (importedKeySetNull, 9)
  else if bool_decide (x = "N"%char) then Some (importedKeyNoAction, 10)
  else None.

Definition read_action (def keyword : str) (pos : Z) (a : Imported) : outcome (Imported * Z) :=
  let idx := find_from def keyword pos in
  if idx =? npos then Ok (add_action keyword importedKeyNoAction a, pos)
  else
    pos ← skip_spaces def (to_size_t (idx + size keyword));
    x ← str_idx def pos;
    match action_at x with
    | Some (action, n) => Ok (add_action keyword action a, to_size_t (pos + n))
    | None => Ok (add_action keyword importedKeyNoAction a, pos)
    end.

(** [parseImportedKeys], first the search for a constraint, then the rest, which needs the
    quotes of identifiers. *)
Definition constraint_pos (def : str) : option Z :=
  let idx := find def "CONSTRAINT" in
  if idx =? npos then None else Some (to_size_t (idx + 10)).
Definition parse_constraint (def cQuote : str) (pos : Z) : outcome Imported :=
  '(name, pos) ← read_constraint_name def cQuote pos;
  let a := MkImported name ∅ ∅ ∅ in
  '(a, pos) ← read_keyword def cQuote "FOREIGN KEY" pos a;
  '(a, pos) ← read_keyword def cQuote "REFERENCES" pos a;
  '(a, pos) ← read_action def "ON DELETE" pos a;
  '(a, _) ← read_action def "ON UPDATE" pos a;
  Ok a.

(** ** Rows *)

Section rows.
Context `{LongDouble}.

(** The rows of [getImportedKeys], one for each pair of fields; [kSequence] is an
    [unsigned int]. *)
Definition imported_row (schema table : str) (k : Imported) (r f : str) (n : Z) : list MyVal :=
  [MyVal_of_chars "def"; typeString schema;
   typeString (default [] (keywords_names k !! lit "REFERENCES"));
   typeString r; MyVal_of_chars ""; typeString schema; typeString table;
   typeString f; typeInt n;
   typeInt (default 0 (update_cascade k !! lit "ON UPDATE"));
   typeInt (default 0 (update_cascade k !! lit "ON DELETE"));
   typeString (constraint_name k); MyVal_of_chars "PRIMARY"; typeInt importedKeyNotDeferrable].
Fixpoint imported_rows (schema table : str) (k : Imported) (references foreign : list str)
    (kSequence : Z) : list (list MyVal) :=
  match references, foreign with
  | r :: references', f :: foreign' =>
      let n := (kSequence + 1) mod 2 ^ 32 in
      imported_row schema table k r f n :: imported_rows schema table k references' foreign' n
  | _, _ => []
  end.
Definition rows_of_key (schema table : str) (k : Imported) : list (list MyVal) :=
  imported_rows schema table k (default [] (referenced_fields k !! lit "REFERENCES"))
    (default [] (referenced_fields k !! lit "FOREIGN KEY")) 0.

(** The text of a column of a row. *)
Definition row_text (r : list MyVal) (i : Z) : outcome str := v ← arr_at r i; MyVal_getString v.
Definition row_bool (r : list MyVal) (i : Z) : outcome bool := v ← arr_at r i; MyVal_getBool v.

(** [compareImportedKeys]: the numbers of the fields are compared as text. *)
Definition compareImportedKeys (first second : list MyVal) : outcome bool :=
  a1 ← row_text first 1; b1 ← row_text second 1;
  match str_compare a1 b1 with
  | Lt => Ok true
  | Gt => Ok false
  | Eq =>
      a2 ← row_text first 2; b2 ← row_text second 2;
      match str_compare a2 b2 with
      | Lt => Ok true
      | Gt => Ok false
      | Eq =>
          a8 ← row_text first 8; b8 ← row_text second 8;
          Ok (bool_decide (caseCompare a8 b8 = Lt))
      end
  end.

(** [compareIndexInfo] *)
Definition compareIndexInfo (first second : list MyVal) : outcome bool :=
  a3 ← row_bool first 3; b3 ← row_bool second 3;
  if negb a3 && b3 then Ok true
  else if negb (Bool.eqb a3 b3) then Ok false
  else
    a6 ← row_text first 6; b6 ← row_text second 6;
    match str_compare a6 b6 with
    | Lt => Ok true
    | Gt => Ok false
    | Eq =>
        a5 ← row_text first 5; b5 ← row_text second 5;
        match caseCompare a5 b5 with
        | Lt => Ok true
        | Gt => Ok false
        | Eq =>
            a7 ← row_text first 7; b7 ← row_text second 7;
            Ok (bool_decide (caseCompare a7 b7 = Lt))
        end
    end.
End rows.

(** ** Facts: reading a constraint that was printed *)

(** A name that can be put into quotes, and one that can be listed. *)
Definition plain_name (quote : ascii) (x : str) : Prop := (quote ∉ x) /\ (("\"%char) ∉ x).
Definition listed_name (quote : ascii) (x : str) : Prop :=
  plain_name quote x /\ ((","%char) ∉ x) /\ ((")"%char) ∉ x).
Definition quote_char (quote : ascii) : Prop :=
  quote <> "\"%char /\ quote <> ","%char /\ quote <> "("%char /\ quote <> ")"%char /\ quote <> " "%char.

Definition quoted (quote : ascii) (x : str) : str := quote :: x ++ [quote].
(** A comma and blanks between the names. *)
Definition listing (quote : ascii) (blanks : nat) (xs : list str) : str :=
  intercalate (","%char :: replicate blanks " "%char) (map (quoted quote) xs).

Lemma quoted_shape quote a x b : a ++ quoted quote x ++ b = (a ++ [quote]) ++ x ++ quote :: b.
Proof. unfold quoted. rewrite <- !app_assoc. cbn [app]. by rewrite <- app_assoc. Qed.

Lemma substr_quoted quote a x b pos n :
  pos = size a + 1 -> n = size x -> substr (a ++ quoted quote x ++ b) pos n = Ok x.
Proof. intros -> ->. rewrite quoted_shape. apply substr_piece; size_lia. Qed.

Section reading.
Context (s : str) (Hs : size s < npos) (quote : ascii) (Hq : quote_char quote).

Lemma quoted_name_ok a x b :
  s = a ++ quoted quote x ++ b -> plain_name quote x ->
  quoted_name s quote (size a) = Ok (x, size (a ++ quoted quote x)).
Proof using Hs Hq.
  intros E [Hx Hb]. unfold quoted_name. destruct Hq as (Hq1 & _).
  assert (E' : s = (a ++ [quote]) ++ x ++ quote :: b).
  { rewrite E. apply quoted_shape. }
  assert (Hsz : size s = (size a + size x + 2 + size b)%Z) by (rewrite E'; size_lia).
  rewrite to_size_t_small by size_lia.
  replace (size a + 1) with (size (a ++ [quote])) by size_lia.
  assert (Hend : name_end s quote (size (a ++ [quote])) = Ok (size (a ++ [quote]) + size x)).
  { apply (scan_while_passes _ _ _ _ _ E' Hs).
    - intros i Hi. assert (Z.of_nat i < size x) by (unfold size; lia). rewrite E', str_idx_app.
      destruct (notin_at quote x (quote :: b) i Hx Hi) as (c & -> & Hc & _). simpl.
      rewrite bool_decide_false by done. rewrite to_size_t_small by size_lia.
      replace (size (a ++ [quote]) + Z.of_nat i - 1) with (size a + Z.of_nat i) by size_lia.
      rewrite <- app_assoc, str_idx_app. change ([quote] ++ x ++ quote :: b) with ((quote :: x) ++ quote :: b).
      destruct (notin_at "\"%char (quote :: x) (quote :: b) i) as (y & -> & Hy & _);
        [by apply not_elem_of_cons|simpl; lia|]. simpl. by rewrite bool_decide_false.
    - change (size x) with (Z.of_nat (length x)). rewrite E', str_idx_app, str_idx_at by done. simpl.
      by rewrite bool_decide_true. }
  rewrite Hend. cbn [mbind outcome_bind].
  rewrite (to_size_t_small (_ - _)) by size_lia.
  rewrite E' at 1. rewrite substr_piece by size_lia. cbn [mbind outcome_bind].
  rewrite to_size_t_small by size_lia. do 2 f_equal. unfold quoted. size_lia.
Qed.

(** Every round of the loop reads a name. *)
Lemma read_fields_ok blanks xs x a b fuel :
  s = a ++ listing quote blanks (x :: xs) ++ ")"%char :: b ->
  Forall (listed_name quote) (x :: xs) -> (length xs < fuel)%nat ->
  read_fields fuel s 1 (size a + size (listing quote blanks (x :: xs))) (size a) = Ok (x :: xs).
Proof using Hs Hq.
  revert x a fuel. induction xs as [|y xs IH]; intros x a [|fuel] E Hall Hf; [lia| |simpl in Hf; lia|];
    apply Forall_cons in Hall as [(Hp & Hc & Hr) Hall]; cbn [read_fields];
    change (lit ",") with [","%char].
  - change (listing quote blanks [x]) with (quoted quote x) in *.
    assert (Hsz : size s = size a + size x + 3 + size b) by (rewrite E; unfold quoted; size_lia).
    replace (size a + size (quoted quote x) <=? find_from s [","%char] (size a)) with true.
    + cbn [orb]. rewrite !to_size_t_small by (unfold quoted; size_lia).
      rewrite E. by rewrite substr_quoted by (unfold quoted; size_lia).
    + symmetry. apply Z.leb_le. rewrite E.
      destruct (find_nat [","%char] (quoted quote x ++ ")"%char :: b)) as [i|] eqn:Ei.
      * rewrite (find_from_app _ _ _ i Ei).
        apply find_char_behind in Ei; [unfold size; lia|]. destruct Hq as (_ & Hq2 & _).
        unfold quoted. rewrite not_elem_of_cons, not_elem_of_app, list_elem_of_singleton. naive_solver.
      * rewrite find_from_absent by done. unfold quoted. size_lia.
  - assert (L : listing quote blanks (x :: y :: xs) =
      quoted quote x ++ (","%char :: replicate blanks " "%char) ++ listing quote blanks (y :: xs))
      by apply intercalate_cons.
    rewrite L in E |- *. rewrite <- !app_assoc in E.
    set (tl := listing quote blanks (y :: xs)) in *.
    assert (Htl : exists t, tl = quote :: t).
    { subst tl. unfold listing. destruct xs as [|z xs']; [by eexists|]. cbn [map].
      rewrite intercalate_cons. by eexists. }
    assert (Hfind : find_from s [","%char] (size a) = size (a ++ quoted quote x)).
    { rewrite E. rewrite (find_from_app _ _ _ (length (quoted quote x))); [by rewrite size_app|].
      apply find_char_app. destruct Hq as (_ & Hq2 & _).
      unfold quoted. rewrite not_elem_of_cons, not_elem_of_app, list_elem_of_singleton. naive_solver. }
    rewrite Hfind.
    assert (Hsz : size s = size a + size x + 3 + Z.of_nat blanks + size tl + 1 + size b).
    { rewrite E. unfold quoted. size_lia. }
    replace (size a + size (quoted quote x ++ (","%char :: replicate blanks " "%char) ++ tl)
             <=? size (a ++ quoted quote x)) with false by (symmetry; apply Z.leb_gt; size_lia).
    replace (size (a ++ quoted quote x) =? npos) with false
      by (symmetry; apply Z.eqb_neq; unfold quoted; size_lia).
    cbn [orb]. rewrite !to_size_t_small by (unfold quoted; size_lia).
    replace (substr s (size a + 1) (size (a ++ quoted quote x) - size a - 1 * 2)) with (Ok x).
    2:{ rewrite E. by rewrite substr_quoted by (unfold quoted; size_lia). }
    cbn [mbind outcome_bind].
    replace (size (a ++ quoted quote x) + 1) with (size (a ++ quoted quote x ++ [","%char])) by size_lia.
    destruct Htl as [t Ht]. destruct Hq as (_ & _ & _ & _ & Hq5).
    rewrite (skip_spaces_app s (a ++ quoted quote x ++ [","%char]) blanks quote (t ++ ")"%char :: b)); [| |done|done].
    2:{ rewrite E, Ht. by rewrite <- ?app_assoc. }
    cbn [mbind outcome_bind].
    assert (Hpos : size (a ++ quoted quote x ++ [","%char]) + Z.of_nat blanks =
      size (a ++ quoted quote x ++ (","%char :: replicate blanks " "%char))).
    { size_lia. }
    rewrite Hpos.
    replace (size a + size (quoted quote x ++ (","%char :: replicate blanks " "%char) ++ tl))
      with (size (a ++ quoted quote x ++ (","%char :: replicate blanks " "%char)) + size tl) by size_lia.
    subst tl. rewrite (IH y); [done| |done|simpl in Hf; lia].
    rewrite E. by rewrite <- !app_assoc.
Qed.

(** The bracket and the names in it. *)
Definition bracket blanks xs : str := "("%char :: listing quote blanks xs ++ [")"%char].

Lemma listing_no_bracket blanks xs : Forall (listed_name quote) xs -> (")"%char) ∉ listing quote blanks xs.
Proof using Hq.
  destruct Hq as (_ & _ & _ & Hq4 & _). intros H. unfold listing.
  induction H as [|x xs (_ & _ & Hx) _ IH]; [apply not_elem_of_nil|].
  assert (Hquoted : (")"%char) ∉ quoted quote x).
  { unfold quoted. rewrite not_elem_of_cons, not_elem_of_app, list_elem_of_singleton. naive_solver. }
  destruct xs as [|y xs]; [done|]. cbn [map]. rewrite intercalate_cons.
  rewrite !not_elem_of_app, not_elem_of_cons. split; [done|]. split; [|done].
  split; [done|]. by intros [? _]%elem_of_replicate.
Qed.

(** The fields of a bracket that is at the position. *)
Lemma read_bracket_ok blanks x xs a b keyword r :
  s = a ++ bracket blanks (x :: xs) ++ b -> Forall (listed_name quote) (x :: xs) ->
  read_bracket s [quote] keyword (size a) r =
    Ok (add_fields keyword (x :: xs) r, size (a ++ bracket blanks (x :: xs))).
Proof using Hs Hq.
  intros E Hall. unfold read_bracket. cbv zeta. change (size [quote]) with 1. change (lit ")") with [")"%char].
  assert (E' : s = (a ++ ["("%char]) ++ listing quote blanks (x :: xs) ++ ")"%char :: b).
  { rewrite E. unfold bracket. cbn [app]. by rewrite <- ?app_assoc. }
  assert (Hsz : size s = size a + size (listing quote blanks (x :: xs)) + 2 + size b).
  { rewrite E'. size_lia. }
  rewrite (to_size_t_small (size a + 1)) by size_lia.
  replace (size a + 1) with (size (a ++ ["("%char])) by size_lia.
  assert (Hend : find_from s [")"%char] (size (a ++ ["("%char])) =
    size (a ++ ["("%char]) + size (listing quote blanks (x :: xs))).
  { rewrite E'. apply find_from_app, find_char_app, listing_no_bracket, Hall. }
  rewrite Hend, (read_fields_ok blanks xs x _ b); [|done|done|].
  - cbn [mbind outcome_bind]. rewrite to_size_t_small by size_lia. do 2 f_equal.
    unfold bracket. size_lia.
  - assert (length xs <= length (listing quote blanks (x :: xs)))%nat.
    { clear. revert x. induction xs as [|y xs IH]; intros x; [simpl; lia|].
      unfold listing in *. cbn [map]. rewrite intercalate_cons, !length_app.
      specialize (IH y). cbn [map] in IH. cbn [length]. lia. }
    unfold size in Hsz. lia.
Qed.

(** A keyword behind [pre], blanks and its bracket. *)
Lemma read_keyword_plain keyword pre blanks x xs a b r :
  s = a ++ pre ++ keyword ++ " "%char :: bracket blanks (x :: xs) ++ b ->
  find_nat keyword (pre ++ keyword ++ " "%char :: bracket blanks (x :: xs) ++ b) = Some (length pre) ->
  Forall (listed_name quote) (x :: xs) ->
  read_keyword s [quote] keyword (size a) r =
    Ok (add_fields keyword (x :: xs) r,
        size (a ++ pre ++ keyword ++ " "%char :: bracket blanks (x :: xs))).
Proof using Hs Hq.
  intros E Hf Hall. unfold read_keyword.
  assert (Hsz : size s = size a + size pre + size keyword + 1 + size (bracket blanks (x :: xs)) + size b).
  { rewrite E. size_lia. }
  rewrite E at 2. rewrite (find_from_app _ _ _ _ Hf).
  change (Z.of_nat (length pre)) with (size pre). rewrite to_size_t_small by size_lia.
  replace (size a + size pre + size keyword) with (size (a ++ pre ++ keyword)) by size_lia.
  rewrite (skip_spaces_app s _ 1 "("%char (listing quote blanks (x :: xs) ++ [")"%char] ++ b));
    [|rewrite E; unfold bracket; cbn [app replicate]; by rewrite <- !app_assoc|done|done].
  cbn [mbind outcome_bind]. change (Z.of_nat 1) with 1.
  assert (E' : s = ((a ++ pre ++ keyword) ++ [" "%char]) ++ bracket blanks (x :: xs) ++ b).
  { rewrite E. cbn [app]. by rewrite <- ?app_assoc. }
  replace (size (a ++ pre ++ keyword) + 1) with (size ((a ++ pre ++ keyword) ++ [" "%char])) by size_lia.
  replace (str_idx s (size ((a ++ pre ++ keyword) ++ [" "%char]))) with (Ok "("%char)
    by (rewrite E'; symmetry; apply str_idx_mid).
  cbn [mbind outcome_bind]. rewrite bool_decide_false by naive_solver. cbn [mbind outcome_bind].
  rewrite (read_bracket_ok blanks x xs _ b _ _ E' Hall). do 2 f_equal. size_lia.
Qed.

(** The same with a quoted name before the bracket. *)
Lemma read_keyword_named keyword pre name mid blanks x xs a b r :
  s = a ++ pre ++ keyword ++ " "%char :: quoted quote name ++ mid ++ bracket blanks (x :: xs) ++ b ->
  find_nat keyword (pre ++ keyword ++
    " "%char :: quoted quote name ++ mid ++ bracket blanks (x :: xs) ++ b) = Some (length pre) ->
  plain_name quote name -> "("%char ∉ mid -> Forall (listed_name quote) (x :: xs) ->
  read_keyword s [quote] keyword (size a) r =
    Ok (add_fields keyword (x :: xs) (add_name keyword name r),
        size (a ++ pre ++ keyword ++ " "%char :: quoted quote name ++ mid ++ bracket blanks (x :: xs))).
Proof using Hs Hq.
  intros E Hf Hn Hm Hall. unfold read_keyword.
  assert (Hsz : size s = size a + size pre + size keyword + 1 + size (quoted quote name) + size mid +
    size (bracket blanks (x :: xs)) + size b) by (rewrite E; size_lia).
  rewrite E at 2. rewrite (find_from_app _ _ _ _ Hf).
  change (Z.of_nat (length pre)) with (size pre). rewrite to_size_t_small by size_lia.
  replace (size a + size pre + size keyword) with (size (a ++ pre ++ keyword)) by size_lia.
  set (a1 := (a ++ pre ++ keyword) ++ [" "%char]).
  assert (E1 : s = a1 ++ quoted quote name ++ mid ++ bracket blanks (x :: xs) ++ b).
  { rewrite E. unfold a1. cbn [app]. by rewrite <- ?app_assoc. }
  set (rest := mid ++ bracket blanks (x :: xs) ++ b) in E1.
  destruct Hq as (_ & _ & Hq3 & _ & Hq5).
  rewrite (skip_spaces_app s _ 1 quote ((name ++ [quote]) ++ rest)); [| |done|done].
  2:{ rewrite E1. unfold a1, quoted. cbn [app replicate]. by rewrite <- ?app_assoc. }
  cbn [mbind outcome_bind]. replace (size (a ++ pre ++ keyword) + Z.of_nat 1) with (size a1)
    by (unfold a1; size_lia).
  replace (str_idx s (size a1)) with (Ok quote) by (rewrite E1; symmetry; apply str_idx_mid).
  cbn [mbind outcome_bind]. rewrite bool_decide_true by done. unfold keyword_name.
  rewrite (quoted_name_ok a1 name rest E1 Hn). cbn [mbind outcome_bind].
  set (a2 := a1 ++ quoted quote name).
  assert (E2 : s = a2 ++ mid ++ bracket blanks (x :: xs) ++ b).
  { rewrite E1. unfold a2, rest. by rewrite <- app_assoc. }
  rewrite (scan_to_app s a2 mid "(" (listing quote blanks (x :: xs) ++ [")"%char] ++ b)); [| |done|done].
  2:{ rewrite E2. unfold bracket. cbn [app]. by rewrite <- app_assoc. }
  cbn [mbind outcome_bind]. rewrite <- size_app.
  assert (E3 : s = (a2 ++ mid) ++ bracket blanks (x :: xs) ++ b) by by rewrite E2, <- app_assoc.
  rewrite (read_bracket_ok blanks x xs _ b _ _ E3 Hall). do 2 f_equal. unfold a2, a1. size_lia.
Qed.
End reading.

(** ** Facts: actions *)

Inductive action := Restrict | Cascade | SetNull | NoAction | SetDefault.
#[export] Instance action_eq_dec : EqDecision action.
Proof. solve_decision. Defined.

Definition action_text (x : action) : str :=
  match x with
  | Restrict => "RESTRICT" | Cascade => "CASCADE" | SetNull => "SET NULL"
  | NoAction => "NO ACTION" | SetDefault => "SET DEFAULT"
  end.
(** What is reported for an action: SET DEFAULT is taken for SET NULL. *)
Definition action_code (x : action) : Z :=
  match x with
  | Restrict => importedKeyRestrict | Cascade => importedKeyCascade | SetNull => importedKeySetNull
  | NoAction => importedKeyNoAction | SetDefault => importedKeySetNull
  end.
Definition no_or {A} (default : Z) (f : A -> Z) (x : option A) : Z :=
  match x with Some y => f y | None => default end.

(** The length the code passes, and the character an action starts with. *)
Definition action_passed (x : action) : Z :=
  match x with Restrict => 9 | Cascade => 8 | SetNull => 9 | NoAction => 10 | SetDefault => 9 end.

Lemma action_at_text x : exists c t, action_text x = c :: t /\ c <> " "%char /\
  action_at c = Some (action_code x, action_passed x).
Proof. destruct x; by eexists _, _. Qed.

Lemma read_action_found s a pre keyword x b r :
  s = a ++ pre ++ keyword ++ " "%char :: action_text x ++ b -> size s < npos - 16 ->
  find_nat keyword (pre ++ keyword ++ " "%char :: action_text x ++ b) = Some (length pre) ->
  read_action s keyword (size a) r =
    Ok (add_action keyword (action_code x) r,
        size (a ++ pre ++ keyword) + 1 + action_passed x).
Proof.
  intros E Hn Hf. unfold read_action.
  assert (Hfind : find_from s keyword (size a) = size a + size pre)
    by (rewrite E; apply (find_from_app _ _ _ _ Hf)).
  rewrite Hfind.
  assert (Hsz : size s = size a + size pre + size keyword + 1 + size (action_text x) + size b)
    by (rewrite E; size_lia).
  destruct (action_at_text x) as (c & t & Ht & Hc & Hx).
  replace (size a + size pre =? npos) with false by (symmetry; apply Z.eqb_neq; size_lia).
  rewrite to_size_t_small by size_lia.
  replace (size a + size pre + size keyword) with (size (a ++ pre ++ keyword)) by size_lia.
  rewrite (skip_spaces_app s _ 1 c (t ++ b)); [| |unfold npos in *; lia|done].
  2:{ rewrite E, Ht. cbn [app replicate]. by rewrite <- ?app_assoc. }
  cbn [mbind outcome_bind]. change (Z.of_nat 1) with 1.
  replace (str_idx s (size (a ++ pre ++ keyword) + 1)) with (Ok c).
  2:{ rewrite E, Ht. replace (size (a ++ pre ++ keyword) + 1) with (size ((a ++ pre ++ keyword) ++ [" "%char]))
        by size_lia.
      replace (a ++ pre ++ keyword ++ " "%char :: (c :: t) ++ b)
        with (((a ++ pre ++ keyword) ++ [" "%char]) ++ c :: t ++ b)
        by (cbn [app]; by rewrite <- !app_assoc).
      symmetry. apply str_idx_mid. }
  cbn [mbind outcome_bind]. rewrite Hx. rewrite to_size_t_small; [done|].
  assert (0 <= action_passed x <= 10) by by destruct x. size_lia.
Qed.

(** Nothing is found: from the position on, or because the position is behind the end. *)
Lemma read_action_absent s keyword pos r :
  find_from s keyword pos = npos ->
  read_action s keyword pos r = Ok (add_action keyword importedKeyNoAction r, pos).
Proof. intros H. unfold read_action. by rewrite H. Qed.

Definition on_text (keyword : str) (x : option action) : str :=
  match x with Some x => " "%char :: keyword ++ " "%char :: action_text x | None => [] end.

Lemma find_nat_tail pat c s : find_nat pat (c :: s) = None -> find_nat pat s = None.
Proof.
  rewrite (find_nat_unfold pat (c :: s)). destruct (starts_with pat (c :: s)); [done|].
  by destruct (find_nat pat s).
Qed.

(** [ON DELETE], where it is printed. *)
Lemma read_delete s a d u rest r :
  s = a ++ on_text "ON DELETE" d ++ on_text "ON UPDATE" u ++ rest ->
  apart "ON DELETE" rest -> size s < npos - 16 ->
  read_action s "ON DELETE" (size a) r =
    Ok (add_action "ON DELETE" (no_or importedKeyNoAction action_code d) r,
        size a + no_or 0 (fun x => 11 + action_passed x) d).
Proof.
  intros E Hr Hn. destruct d as [x|]; cbn [on_text no_or] in *.
  - rewrite (read_action_found s a " " "ON DELETE" x (on_text "ON UPDATE" u ++ rest)); [| |done|].
    + do 2 f_equal. lits. size_lia.
    + rewrite E. lits. cbn [app]. by rewrite <- ?app_assoc.
    + lits. by apply (find_nat_next " "%char).
  - rewrite read_action_absent; [do 2 f_equal; lia|]. rewrite E. cbn [app].
    apply find_from_absent. revert Hr. lits. intros Hr. rewrite find_nat_apart by done.
    by destruct u as [[]|].
Qed.

(** The end of the text after an action was passed. *)
Lemma passed_text s a x tl :
  s = a ++ (" ON DELETE " ++ action_text x) ++ tl -> tl <> [] \/ x = SetDefault ->
  exists a' pre, s = a' ++ pre ++ drop (if bool_decide (x = SetDefault) then 0 else 1) tl /\
    size a' = size a + (11 + action_passed x) /\
    pre = if bool_decide (x = SetDefault) then "LT" : str else [].
Proof.
  intros E Ht. destruct (decide (x = SetDefault)) as [->|Hx].
  { exists (a ++ " ON DELETE SET DEFAU"), "LT". split; [rewrite E; lits; cbn; by rewrite <- ?app_assoc|].
    split; [lits; cbn [action_passed]; size_lia|done]. }
  destruct tl as [|c tl]; [naive_solver|].
  exists (a ++ (" ON DELETE " ++ action_text x) ++ [c]), [].
  destruct x; try done;
    (split; [rewrite E; lits; cbn; by rewrite <- ?app_assoc
            |split; [cbn [action_text action_passed]; lits; size_lia|done]]).
Qed.

(** [ON UPDATE] after [ON DELETE] was passed. *)
Lemma read_update s a d u rest r :
  s = a ++ on_text "ON DELETE" d ++ on_text "ON UPDATE" u ++ rest ->
  apart "ON UPDATE" rest -> size s < npos - 16 ->
  exists pos, read_action s "ON UPDATE" (size a + no_or 0 (fun x => 11 + action_passed x) d) r =
    Ok (add_action "ON UPDATE" (no_or importedKeyNoAction action_code u) r, pos).
Proof.
  intros E Hr Hn. destruct d as [x|]; cbn [on_text no_or] in *.
  - change (" "%char :: lit "ON DELETE" ++ " "%char :: action_text x)
      with (" ON DELETE " ++ action_text x) in E.
    destruct u as [y|]; cbn [on_text no_or] in *.
    + destruct (passed_text s a x _ E) as (a' & pre & E' & Ha & Hp); [by left|].
      rewrite <- Ha. eexists. eapply (read_action_found s a' (pre ++ if bool_decide (x = SetDefault) then " " : str else []) "ON UPDATE" y rest); [|lia|].
      * rewrite E', Hp. by destruct x.
      * rewrite Hp. by destruct x, y.
    + destruct rest as [|c rest].
      * destruct (decide (x = SetDefault)) as [->|Hx].
        -- destruct (passed_text s a SetDefault [] E) as (a' & pre & E' & Ha & ->); [by right|].
           rewrite <- Ha. eexists. apply read_action_absent. rewrite E'. by apply find_from_absent.
        -- eexists. apply read_action_absent. unfold find_from.
           rewrite (proj2 (Z.ltb_lt (size s) _)); [done|]. rewrite E.
           destruct x; try done; cbn [action_text action_passed]; lits; size_lia.
      * destruct (passed_text s a x _ E) as (a' & pre & E' & Ha & Hp); [by left|].
        rewrite <- Ha. eexists. apply read_action_absent. rewrite E'. apply find_from_absent.
        rewrite Hp. destruct (decide (x = SetDefault)) as [->|Hx].
        -- rewrite bool_decide_true by done. cbn [drop]. revert Hr. lits. intros Hr.
           rewrite find_nat_apart by done. done.
        -- rewrite bool_decide_false by done. cbn [drop app]. by eapply find_nat_tail, Hr.
  - rewrite Z.add_0_r. cbn [app] in E. destruct u as [y|]; cbn [on_text no_or] in *.
    + eexists. apply (read_action_found s a " " "ON UPDATE" y rest); [|lia|].
      * rewrite E. lits. cbn [app]. by rewrite <- ?app_assoc.
      * lits. by apply (find_nat_next " "%char).
    + eexists. apply read_action_absent. rewrite E. apply find_from_absent. apply Hr.
Qed.

(** ** Facts: the first constraint of a table *)

(** A foreign key as SHOW CREATE TABLE prints it. *)
Record foreign_key := ForeignKey {
  fk_name : str;
  fk_columns : list str;
  fk_schema : option str;
  fk_table : str;
  fk_references : list str;
  fk_delete : option action;
  fk_update : option action;
}.

Definition key_text (quote : ascii) (blanks : nat) (k : foreign_key) : str :=
  " CONSTRAINT " ++ quoted quote (fk_name k) ++
  " FOREIGN KEY " ++ bracket quote blanks (fk_columns k) ++
  " REFERENCES " ++ match fk_schema k with Some d => quoted quote d ++ "." | None => [] end ++
  quoted quote (fk_table k) ++ " " ++ bracket quote blanks (fk_references k) ++
  on_text "ON DELETE" (fk_delete k) ++ on_text "ON UPDATE" (fk_update k).

Record key_ok (quote : ascii) (k : foreign_key) : Prop := {
  ok_name : plain_name quote (fk_name k);
  ok_columns : Forall (listed_name quote) (fk_columns k) /\ fk_columns k <> [];
  ok_schema : match fk_schema k with Some d => plain_name quote d | None => True end;
  ok_table : plain_name quote (fk_table k) /\ ("("%char ∉ fk_table k);
  ok_references : Forall (listed_name quote) (fk_references k) /\ fk_references k <> [];
}.

(** What is read: the schema of the table takes the place of the table. *)
Definition key_read (k : foreign_key) : Imported :=
  add_action "ON UPDATE" (no_or importedKeyNoAction action_code (fk_update k))
    (add_action "ON DELETE" (no_or importedKeyNoAction action_code (fk_delete k))
      (add_fields "REFERENCES" (fk_references k)
        (add_name "REFERENCES" (default (fk_table k) (fk_schema k))
          (add_fields "FOREIGN KEY" (fk_columns k) (MkImported (fk_name k) ∅ ∅ ∅))))).

Section constraint.
Context (quote : ascii) (Hq : quote_char quote) (blanks : nat) (k : foreign_key) (Hk : key_ok quote k).
Context (def pre rest : str) (Hdef : def = pre ++ key_text quote blanks k ++ rest)
  (Hn : size def < npos - 16).

Lemma constraint_found :
  find_nat "CONSTRAINT" pre = None ->
  constraint_pos def = Some (size (pre ++ " CONSTRAINT")).
Proof using Hdef Hn.
  clear Hq Hk. intros Hp. unfold constraint_pos, find.
  assert (E : exists r, def = pre ++ " "%char :: "CONSTRAINT" ++ r) by (rewrite Hdef; by eexists).
  destruct E as [r E]. assert (Hsz : size def = size pre + 11 + size r) by (rewrite E; lits; size_lia).
  assert (Hf : find_nat "CONSTRAINT" def = Some (length pre + 1)%nat).
  { rewrite E. revert Hp. lits. intros Hp.
    apply find_nat_after; [by vm_compute; set_solver|done|by apply find_nat_next]. }
  rewrite Hf.
  assert (Z.of_nat (length pre + 1) = size pre + 1) by (unfold size; lia).
  replace (_ =? npos) with false by (symmetry; apply Z.eqb_neq; size_lia).
  rewrite to_size_t_small by size_lia. f_equal. lits. size_lia.
Qed.

(** The table that is referenced, and what is behind the first quoted name. *)
Definition target_name : str := default (fk_table k) (fk_schema k).
Definition target_rest : str :=
  match fk_schema k with Some _ => "." ++ quoted quote (fk_table k) ++ " " | None => " " end.

Lemma target_shape r :
  match fk_schema k with Some d => quoted quote d ++ "." | None => [] end ++
  quoted quote (fk_table k) ++ " " ++ r = quoted quote target_name ++ target_rest ++ r.
Proof using.
  unfold target_name, target_rest. destruct (fk_schema k) as [d|]; simpl default; [|done].
  by rewrite <- !app_assoc.
Qed.

Lemma target_rest_no_bracket : "("%char ∉ target_rest.
Proof using Hk Hq.
  clear Hn Hdef. destruct Hk as [_ _ _ [_ Ht] _]. destruct Hq as (_ & _ & Hq3 & _ & _).
  unfold target_rest. lits. destruct (fk_schema k); [|set_solver].
  unfold quoted. set_solver.
Qed.

(** The keywords are read; the actions are searched in what follows the key. *)
Definition keywords_read : Imported :=
  add_fields "REFERENCES" (fk_references k) (add_name "REFERENCES" target_name
    (add_fields "FOREIGN KEY" (fk_columns k) (MkImported (fk_name k) ∅ ∅ ∅))).
Definition actions_text : str :=
  on_text "ON DELETE" (fk_delete k) ++ on_text "ON UPDATE" (fk_update k) ++ rest.

Lemma parse_keywords_ok :
  exists a, def = a ++ actions_text /\
    parse_constraint def [quote] (size (pre ++ " CONSTRAINT")) =
      ('(r, pos) ← read_action def "ON DELETE" (size a) keywords_read;
       '(r, _) ← read_action def "ON UPDATE" pos r; Ok r).
Proof using Hdef Hk Hn Hq.
  destruct Hk as [Hname [Hcol Hcol'] Hsch [Htab Htab'] [Href Href']].
  assert (Hs : size def < npos) by lia.
  unfold keywords_read. set (tail := actions_text).
  destruct (fk_columns k) as [|c cs] eqn:Ec; [done|].
  destruct (fk_references k) as [|f fs] eqn:Ef; [done|].
  set (refs := " "%char :: lit "REFERENCES" ++ " "%char :: quoted quote target_name ++ target_rest ++
    bracket quote blanks (f :: fs) ++ tail).
  set (keys := " "%char :: lit "FOREIGN KEY" ++ " "%char :: bracket quote blanks (c :: cs) ++ refs).
  assert (E0 : def = (pre ++ " CONSTRAINT") ++ " " ++ quoted quote (fk_name k) ++ keys).
  { rewrite Hdef. unfold key_text, keys, refs, tail, actions_text. rewrite Ec, Ef.
    change (lit " CONSTRAINT ") with (lit " CONSTRAINT" ++ lit " ").
    change (lit " FOREIGN KEY ") with (" "%char :: lit "FOREIGN KEY" ++ " ").
    change (lit " REFERENCES ") with (" "%char :: lit "REFERENCES" ++ " ").
    rewrite <- target_shape. by rewrite <- ?app_assoc. }
  unfold parse_constraint, read_constraint_name. destruct Hq as (_ & _ & _ & _ & Hq5).
  rewrite (scan_to_app def _ " " quote ((fk_name k ++ [quote]) ++ keys)); [|exact E0|done|lits; set_solver].
  cbn [mbind outcome_bind]. rewrite <- size_app.
  set (a1 := (pre ++ " CONSTRAINT") ++ " ") in *.
  assert (E1 : def = a1 ++ quoted quote (fk_name k) ++ keys) by (unfold a1; rewrite E0; by rewrite <- !app_assoc).
  rewrite (quoted_name_ok def Hs quote Hq a1 (fk_name k) keys E1 Hname). cbn [mbind outcome_bind].
  set (a2 := a1 ++ quoted quote (fk_name k)).
  assert (E2 : def = a2 ++ " " ++ "FOREIGN KEY" ++ " "%char :: bracket quote blanks (c :: cs) ++ refs)
    by (unfold a2; rewrite E1; by rewrite <- app_assoc).
  rewrite (read_keyword_plain def Hs quote Hq "FOREIGN KEY" " " blanks c cs a2 refs); [|done| |done].
  2:{ lits. by apply (find_nat_next " "%char). }
  cbn [mbind outcome_bind].
  set (a3 := a2 ++ " " ++ "FOREIGN KEY" ++ " "%char :: bracket quote blanks (c :: cs)).
  assert (E3 : def = a3 ++ " " ++ "REFERENCES" ++ " "%char :: quoted quote target_name ++ target_rest ++
    bracket quote blanks (f :: fs) ++ tail).
  { rewrite E2. unfold a3, refs. rewrite <- !app_assoc. cbn [app]. by rewrite <- ?app_assoc. }
  rewrite (read_keyword_named def Hs quote Hq "REFERENCES" " " target_name target_rest blanks f fs a3 tail);
    [|done| | |by apply target_rest_no_bracket|done].
  2:{ lits. by apply (find_nat_next " "%char). }
  2:{ unfold target_name. by destruct (fk_schema k). }
  cbn [mbind outcome_bind].
  set (a4 := a3 ++ _).
  assert (E4 : def = a4 ++ tail).
  { rewrite E3. unfold a4. rewrite <- !app_assoc. cbn [app]. by rewrite <- ?app_assoc. }
  exists a4. split; [exact E4|done].
Qed.

Lemma parse_constraint_ok :
  apart "ON DELETE" rest -> apart "ON UPDATE" rest ->
  parse_constraint def [quote] (size (pre ++ " CONSTRAINT")) = Ok (key_read k).
Proof using Hdef Hk Hn Hq.
  intros Hd Hu. destruct parse_keywords_ok as (a & E & ->).
  rewrite (read_delete def a (fk_delete k) (fk_update k) rest) by done. cbn [mbind outcome_bind].
  destruct (read_update def a (fk_delete k) (fk_update k) rest
    (add_action "ON DELETE" (no_or importedKeyNoAction action_code (fk_delete k)) keywords_read) E Hu Hn)
    as [pos ->]. done.
Qed.

(** Without an ON DELETE the actions of a later key are taken for those of the first one. *)
Lemma later_actions_taken mid x u tl :
  fk_delete k = None ->
  rest = mid ++ ")"%char :: on_text "ON DELETE" (Some x) ++ on_text "ON UPDATE" u ++ tl ->
  find_nat "ON DELETE" (on_text "ON UPDATE" (fk_update k) ++ mid) = None -> apart "ON UPDATE" tl ->
  parse_constraint def [quote] (size (pre ++ " CONSTRAINT")) =
    Ok (add_action "ON UPDATE" (no_or importedKeyNoAction action_code u)
         (add_action "ON DELETE" (action_code x) keywords_read)).
Proof using Hdef Hk Hn Hq.
  intros Hd Hr Hm Ht. destruct parse_keywords_ok as (a & E & ->).
  unfold actions_text in E. rewrite Hd, Hr in E. cbn [on_text app] in E.
  set (pre' := (on_text "ON UPDATE" (fk_update k) ++ mid) ++ [")"%char]).
  set (a' := a ++ pre').
  assert (E1 : def = a' ++ on_text "ON DELETE" (Some x) ++ on_text "ON UPDATE" u ++ tl).
  { rewrite E. unfold a', pre'. cbn [on_text app]. by rewrite <- !app_assoc. }
  rewrite (read_action_found def a (pre' ++ " ") "ON DELETE" x (on_text "ON UPDATE" u ++ tl)); [| |done|].
  - cbn [mbind outcome_bind].
    replace (size (a ++ (pre' ++ " ") ++ "ON DELETE") + 1 + action_passed x)
      with (size a' + no_or 0 (fun x => 11 + action_passed x) (Some x))
      by (unfold a'; cbn [no_or]; lits; size_lia).
    destruct (read_update def a' (Some x) u tl (add_action "ON DELETE" (action_code x) keywords_read)
      E1 Ht Hn) as [pos ->]. done.
  - rewrite E1. unfold a'. cbn [on_text]. change (lit " ") with [" "%char]. by rewrite <- !app_assoc.
  - unfold pre'. rewrite <- !app_assoc. cbn [app]. revert Hm. lits. rewrite app_assoc. intros Hm.
    rewrite (find_nat_after _ _ _ ")"%char _ 2); [|by vm_compute; set_solver|done|].
    + f_equal. rewrite !length_app. simpl. lia.
    + cbn [app]. by rewrite find_nat_unfold.
Qed.
End constraint.

(** ** Facts: the rows of a key *)

Lemma digit_text `{LongDouble} m : (m < 9)%nat ->
  MyVal_getString (typeInt (Z.of_nat m + 1)) = Ok [ascii_of_nat (49 + m)].
Proof. intros Hm. do 9 (destruct m as [|m]; [by vm_compute|]). lia. Qed.

Lemma digits_ordered i j : (i < j)%nat -> (j < 9)%nat ->
  caseCompare [ascii_of_nat (49 + j)] [ascii_of_nat (49 + i)] <> Lt.
Proof.
  intros Hi Hj.
  assert (H : forallb (fun p => negb (p.1 <? p.2)%nat ||
    match caseCompare [ascii_of_nat (49 + p.2)] [ascii_of_nat (49 + p.1)] with Lt => false | _ => true end)
    (list_prod (seq 0 9) (seq 0 9)) = true) by (vm_compute; reflexivity).
  rewrite forallb_forall in H. specialize (H (i, j)). cbn [fst snd] in H.
  rewrite (proj2 (Nat.ltb_lt i j) Hi) in H. intros E. rewrite E in H.
  discriminate H. apply in_prod; apply in_seq; lia.
Qed.

Section key_rows.
Context `{LongDouble} (schema table : str) (k : Imported).

Lemma imported_rows_lookup references foreign start i row :
  imported_rows schema table k references foreign start !! i = Some row ->
  0 <= start -> start + Z.of_nat (length references) < 2 ^ 32 ->
  exists r f, references !! i = Some r /\ foreign !! i = Some f /\
    row = imported_row schema table k r f (start + Z.of_nat i + 1).
Proof using.
  revert foreign start i. induction references as [|r references IH]; intros [|f foreign] start i Hi Hs Hb;
    try done. cbn [imported_rows] in Hi. simpl length in Hb. rewrite Z.mod_small in Hi by lia.
  destruct i as [|i].
  - injection Hi as <-. exists r, f. split; [done|]. split; [done|]. f_equal. lia.
  - destruct (IH foreign (start + 1) i Hi) as (r' & f' & Hr & Hf & ->); [lia|lia|].
    exists r', f'. split; [done|]. split; [done|]. f_equal. lia.
Qed.

Lemma row_text_at row i v : 0 <= i -> row !! Z.to_nat i = Some v -> row_text row i = MyVal_getString v.
Proof using.
  intros Hi Hv. unfold row_text, arr_at. pose proof (lookup_lt_Some _ _ _ Hv).
  rewrite decide_True by lia. by rewrite Hv.
Qed.

Lemma compare_rows r f n r' f' n' t t' :
  MyVal_getString (typeInt n) = Ok t -> MyVal_getString (typeInt n') = Ok t' ->
  compareImportedKeys (imported_row schema table k r f n) (imported_row schema table k r' f' n') =
    Ok (bool_decide (caseCompare t t' = Lt)).
Proof using.
  intros Ht Ht'. unfold compareImportedKeys.
  set (a := imported_row _ _ _ r f n). set (b := imported_row _ _ _ r' f' n').
  rewrite (row_text_at a 1 (typeString schema) ltac:(lia) eq_refl), (row_text_at b 1 (typeString schema) ltac:(lia) eq_refl).
  cbn [MyVal_getString mbind outcome_bind]. rewrite str_compare_refl.
  rewrite (row_text_at a 2 _ ltac:(lia) eq_refl), (row_text_at b 2 _ ltac:(lia) eq_refl).
  cbn [MyVal_getString mbind outcome_bind]. rewrite str_compare_refl.
  rewrite (row_text_at a 8 (typeInt n) ltac:(lia) eq_refl), (row_text_at b 8 (typeInt n') ltac:(lia) eq_refl).
  by rewrite Ht, Ht'.
Qed.

(** Up to nine fields the rows are in the order of the key. *)
Lemma short_rows_sorted references foreign :
  (length references <= 9)%nat ->
  list_sort compareImportedKeys (imported_rows schema table k references foreign 0) =
    Ok (imported_rows schema table k references foreign 0).
Proof using.
  intros Hl. apply list_sort_ordered. intros i j x y Hij Hi Hj.
  apply imported_rows_lookup in Hi as (r & f & Hr & _ & ->); [|lia|lia].
  apply imported_rows_lookup in Hj as (r' & f' & Hr' & _ & ->); [|lia|lia].
  apply lookup_lt_Some in Hr'.
  rewrite (compare_rows _ _ _ _ _ _ [ascii_of_nat (49 + j)] [ascii_of_nat (49 + i)])
    by (rewrite Z.add_0_l; by apply digit_text; lia).
  f_equal. apply bool_decide_false, digits_ordered; lia.
Qed.
End key_rows.
