(* ===== verification/TypeInfo.v ===== *)
(** * mysqlconnector jdbc/driver/mysql_metadata.cpp: the types of the server

    [mysqlc_types], the table behind [getTypeInfo], and [supportsConvert].  The table
    is an array that ends with an entry without a name. *)

From S2P Require Import Prelude Cxx Str Unicode Cursor MyVal ArtResultSet Fields.

(** ** cppconn/metadata.h, cppconn/datatype.h *)

Definition typeNoNulls : Z := 0.
Definition typeNullable : Z := 1.
Definition typeNullableUnknown : Z := 2.
Definition typePredNone : Z := 0.
Definition typePredChar : Z := 1.
Definition typePredBasic : Z := 2.
Definition typeSearchable : Z := 3.

(** The enumerators of [sql::DataType] are numbered from 0. *)
Definition datatype_code (d : DataType) : Z :=
  match d with
  | UNKNOWN => 0 | BIT => 1 | TINYINT => 2 | SMALLINT => 3 | MEDIUMINT => 4 | INTEGER => 5
  | BIGINT => 6 | REAL => 7 | DOUBLE => 8 | DECIMAL => 9 | NUMERIC => 10 | CHAR => 11
  | BINARY => 12 | VARCHAR => 13 | VARBINARY => 14 | LONGVARCHAR => 15 | LONGVARBINARY => 16
  | TIMESTAMP => 17 | DATE => 18 | TIME => 19 | YEAR => 20 | GEOMETRY => 21 | ENUM => 22
  | SET => 23 | SQLNULL => 24 | JSON => 25
  end.

(** ** The table *)

Record TypeInfoDef := TypeInfo {
  typeName : option str;
  dataType : DataType;
  precision : Z;
  literalPrefix : str;
  literalSuffix : str;
  createParams : str;
  nullable : Z;
  caseSensitive : bool;
  searchable : Z;
  isUnsigned : bool;
  fixedPrecScale : bool;
  autoIncrement : bool;
  localTypeName : str;
  minScale : Z;
  maxScale : Z;
  sqlDataType : Z;
  sqlDateTimeSub : Z;
  numPrecRadix : Z;
}.

Definition mysqlc_types_1 : list TypeInfoDef := [
  TypeInfo (Some (lit "BIT")) BIT 1 "" "" "" typeNullable false typeSearchable false false false "BIT" 0 0 0 0 10;
  TypeInfo (Some (lit "TINYINT")) TINYINT 3 "" "" "[(M)] [ZEROFILL]" typeNullable false typeSearchable false false true "TINYINT" 0 0 0 0 10;
  TypeInfo (Some (lit "TINYINT UNSIGNED")) TINYINT 3 "" "" "[(M)] [UNSIGNED] [ZEROFILL]" typeNullable false typeSearchable true false true "TINYINT UNSIGNED" 0 0 0 0 10;
  TypeInfo (Some (lit "TINYINT UNSIGNED ZEROFILL")) TINYINT 3 "" "" "[(M)] [UNSIGNED]" typeNullable false typeSearchable true false true "TINYINT UNSIGNED ZEROFILL" 0 0 0 0 10;
  TypeInfo (Some (lit "BIGINT")) BIGINT 19 "" "" "[(M)] [ZEROFILL]" typeNullable false typeSearchable false false true "BIGINT" 0 0 0 0 10;
  TypeInfo (Some (lit "BIGINT UNSIGNED")) BIGINT 19 "" "" "[(M)] [ZEROFILL]" typeNullable false typeSearchable true false true "BIGINT UNSIGNED" 0 0 0 0 10
].
Definition mysqlc_types_2 : list TypeInfoDef := [
  TypeInfo (Some (lit "BIGINT UNSIGNED ZEROFILL")) BIGINT 19 "" "" "[(M)]" typeNullable false typeSearchable true false true "BIGINT UNSIGNED ZEROFILL" 0 0 0 0 10;
  TypeInfo (Some (lit "LONG VARBINARY")) LONGVARBINARY 16777215 "'" "'" "" typeNullable true typeSearchable false false false "LONG VARBINARY" 0 0 0 0 10;
  TypeInfo (Some (lit "MEDIUMBLOB")) LONGVARBINARY 16777215 "'" "'" "" typeNullable true typeSearchable false false false "MEDIUMBLOB" 0 0 0 0 10;
  TypeInfo (Some (lit "LONGBLOB")) LONGVARBINARY 4294967295 "'" "'" "" typeNullable true typeSearchable false false false "LONGBLOB" 0 0 0 0 10;
  TypeInfo (Some (lit "BLOB")) LONGVARBINARY 65535 "'" "'" "" typeNullable true typeSearchable false false false "BLOB" 0 0 0 0 10;
  TypeInfo (Some (lit "TINYBLOB")) LONGVARBINARY 255 "'" "'" "" typeNullable true typeSearchable false false false "TINYBLOB" 0 0 0 0 10
].
Definition mysqlc_types_3 : list TypeInfoDef := [
  TypeInfo (Some (lit "VARBINARY")) VARBINARY 255 "'" "'" "(M)" typeNullable true typeSearchable false false false "VARBINARY" 0 0 0 0 10;
  TypeInfo (Some (lit "BINARY")) BINARY 255 "'" "'" "(M)" typeNullable true typeSearchable false false false "BINARY" 0 0 0 0 10;
  TypeInfo (Some (lit "LONG VARCHAR")) LONGVARCHAR 16777215 "'" "'" "" typeNullable false typeSearchable false false false "LONG VARCHAR" 0 0 0 0 10;
  TypeInfo (Some (lit "MEDIUMTEXT")) LONGVARCHAR 16777215 "'" "'" "" typeNullable false typeSearchable false false false "MEDIUMTEXT" 0 0 0 0 10;
  TypeInfo (Some (lit "LONGTEXT")) LONGVARCHAR 16777215 "'" "'" "" typeNullable false typeSearchable false false false "LONGTEXT" 0 0 0 0 10;
  TypeInfo (Some (lit "TEXT")) LONGVARCHAR 65535 "'" "'" "" typeNullable false typeSearchable false false false "TEXT" 0 0 0 0 10
].
Definition mysqlc_types_4 : list TypeInfoDef := [
  TypeInfo (Some (lit "TINYTEXT")) LONGVARCHAR 255 "'" "'" "" typeNullable false typeSearchable false false false "TINYTEXT" 0 0 0 0 10;
  TypeInfo (Some (lit "CHAR")) CHAR 255 "'" "'" "(M)" typeNullable false typeSearchable false false false "CHAR" 0 0 0 0 10;
  TypeInfo (Some (lit "NUMERIC")) NUMERIC 64 "" "" "[(M[,D])] [ZEROFILL]" typeNullable false typeSearchable false false true "NUMERIC" (-308) 308 0 0 10;
  TypeInfo (Some (lit "DECIMAL")) DECIMAL 64 "" "" "[(M[,D])] [ZEROFILL] [UNSIGNED]" typeNullable false typeSearchable false false true "DECIMAL" (-308) 308 0 0 10;
  TypeInfo (Some (lit "DECIMAL UNSIGNED")) DECIMAL 64 "" "" "[(M[,D])] [ZEROFILL]" typeNullable false typeSearchable true false true "DECIMAL UNSIGNED" (-308) 308 0 0 10;
  TypeInfo (Some (lit "DECIMAL UNSIGNED ZEROFILL")) DECIMAL 64 "" "" "[(M[,D])]" typeNullable false typeSearchable true false true "DECIMAL UNSIGNED ZEROFILL" (-308) 308 0 0 10
].
Definition mysqlc_types_5 : list TypeInfoDef := [
  TypeInfo (Some (lit "INT")) INTEGER 10 "" "" "[(M)] [UNSIGNED] [ZEROFILL]" typeNullable false typeSearchable false false true "INT" 0 0 0 0 10;
  TypeInfo (Some (lit "INT UNSIGNED")) INTEGER 10 "" "" "[(M)] [ZEROFILL]" typeNullable false typeSearchable false false true "INT UNSIGNED" 0 0 0 0 10;
  TypeInfo (Some (lit "INT UNSIGNED ZEROFILL")) INTEGER 10 "" "" "[(M)]" typeNullable false typeSearchable false false true "INT UNSIGNED ZEROFILL" 0 0 0 0 10;
  TypeInfo (Some (lit "MEDIUMINT")) MEDIUMINT 7 "" "" "[(M)] [UNSIGNED] [ZEROFILL]" typeNullable false typeSearchable false false true "MEDIUMINT" 0 0 0 0 10;
  TypeInfo (Some (lit "MEDIUMINT UNSIGNED")) MEDIUMINT 7 "" "" "[(M)] [ZEROFILL]" typeNullable false typeSearchable true false true "MEDIUMINT UNSIGNED" 0 0 0 0 10;
  TypeInfo (Some (lit "MEDIUMINT UNSIGNED ZEROFILL")) MEDIUMINT 7 "" "" "[(M)]" typeNullable false typeSearchable true false true "MEDIUMINT UNSIGNED ZEROFILL" 0 0 0 0 10;
  TypeInfo (Some (lit "SMALLINT")) SMALLINT 5 "" "" "[(M)] [UNSIGNED] [ZEROFILL]" typeNullable false typeSearchable false false true "SMALLINT" 0 0 0 0 10
].
Definition mysqlc_types_6 : list TypeInfoDef := [
  TypeInfo (Some (lit "SMALLINT UNSIGNED")) SMALLINT 5 "" "" "[(M)] [ZEROFILL]" typeNullable false typeSearchable true false true "SMALLINT UNSIGNED" 0 0 0 0 10;
  TypeInfo (Some (lit "SMALLINT UNSIGNED ZEROFILL")) SMALLINT 5 "" "" "[(M)]" typeNullable false typeSearchable true false true "SMALLINT UNSIGNED ZEROFILL" 0 0 0 0 10;
  TypeInfo (Some (lit "FLOAT")) REAL 10 "" "" "[(M,D)] [ZEROFILL] [UNSIGNED]" typeNullable false typeSearchable false false true "FLOAT" (-38) 38 0 0 10;
  TypeInfo (Some (lit "FLOAT UNSIGNED")) REAL 10 "" "" "[(M,D)] [ZEROFILL]" typeNullable false typeSearchable true false true "FLOAT UNSIGNED" (-38) 38 0 0 10;
  TypeInfo (Some (lit "FLOAT UNSIGNED ZEROFILL")) REAL 10 "" "" "[(M,D)]" typeNullable false typeSearchable true false true "FLOAT UNSIGNED ZEROFILL" (-38) 38 0 0 10;
  TypeInfo (Some (lit "DOUBLE")) DOUBLE 17 "" "" "[(M,D)] [ZEROFILL] [UNSIGNED]" typeNullable false typeSearchable false false true "DOUBLE" (-308) 308 0 0 10;
  TypeInfo (Some (lit "DOUBLE UNSIGNED")) DOUBLE 17 "" "" "[(M,D)] [ZEROFILL]" typeNullable false typeSearchable true false true "DOUBLE UNSIGNED" (-308) 308 0 0 10
].
Definition mysqlc_types_7 : list TypeInfoDef := [
  TypeInfo (Some (lit "DOUBLE UNSIGNED ZEROFILL")) DOUBLE 17 "" "" "[(M,D)]" typeNullable false typeSearchable true false true "DOUBLE UNSIGNED ZEROFILL" (-308) 308 0 0 10;
  TypeInfo (Some (lit "REAL")) DOUBLE 17 "" "" "[(M,D)] [ZEROFILL] [UNSIGNED]" typeNullable false typeSearchable false false true "REAL" (-308) 308 0 0 10;
  TypeInfo (Some (lit "REAL UNSIGNED")) DOUBLE 17 "" "" "[(M,D)] [ZEROFILL]" typeNullable false typeSearchable true false true "REAL UNSIGNED" (-308) 308 0 0 10;
  TypeInfo (Some (lit "VARCHAR")) VARCHAR 255 "'" "'" "(M)" typeNullable false typeSearchable false false false "VARCHAR" 0 0 0 0 10;
  TypeInfo (Some (lit "ENUM")) ENUM 65535 "'" "'" "" typeNullable false typeSearchable false false false "ENUM" 0 0 0 0 10;
  TypeInfo (Some (lit "SET")) SET 64 "'" "'" "" typeNullable false typeSearchable false false false "SET" 0 0 0 0 10
].
Definition mysqlc_types_8 : list TypeInfoDef := [
  TypeInfo (Some (lit "DATE")) DATE 0 "'" "'" "" typeNullable false typeSearchable false false false "DATE" 0 0 0 0 10;
  TypeInfo (Some (lit "TIME")) TIME 0 "" "" "" typeNullable false typeSearchable false false false "TIME" 0 0 0 0 10;
  TypeInfo (Some (lit "DATETIME")) TIMESTAMP 0 "" "" "" typeNullable false typeSearchable false false false "DATETIME" 0 0 0 0 10;
  TypeInfo (Some (lit "TIMESTAMP")) TIMESTAMP 0 "'" "'" "[(M)]" typeNullable false typeSearchable false false false "TIMESTAMP" 0 0 0 0 10;
  TypeInfo (Some (lit "YEAR")) YEAR 0 "'" "'" "" typeNullable false typeSearchable false false false "YEAR" 0 0 0 0 10
].

Definition mysqlc_types_end : TypeInfoDef :=
  TypeInfo None UNKNOWN 0 [] [] [] 0 false 0 false false false [] 0 0 0 0 0.
Definition mysqlc_types : list TypeInfoDef :=
  mysqlc_types_1 ++ mysqlc_types_2 ++ mysqlc_types_3 ++ mysqlc_types_4 ++ mysqlc_types_5 ++
  mysqlc_types_6 ++ mysqlc_types_7 ++ mysqlc_types_8 ++ [mysqlc_types_end].

(** ** getTypeInfo *)

Section typeinfo.
Context `{LongDouble}.

Definition type_info_fields : list str := [
  lit "TYPE_NAME"; lit "DATA_TYPE"; lit "PRECISION"; lit "LITERAL_PREFIX"; lit "LITERAL_SUFFIX";
  lit "CREATE_PARAMS"; lit "NULLABLE"; lit "CASE_SENSITIVE"; lit "SEARCHABLE";
  lit "UNSIGNED_ATTRIBUTE"; lit "FIXED_PREC_SCALE"; lit "AUTO_INCREMENT"; lit "LOCAL_TYPE_NAME";
  lit "MINIMUM_SCALE"; lit "MAXIMUM_SCALE"; lit "SQL_DATA_TYPE"; lit "SQL_DATETIME_SUB";
  lit "NUM_PREC_RADIX"].

(** The casts to [int64_t]. *)
Definition of_bool (b : bool) : MyVal := typeInt (if b then 1 else 0).

Definition type_row (name : str) (curr : TypeInfoDef) : list MyVal := [
  MyVal_of_chars name;
  typeInt (datatype_code (dataType curr));
  typeInt (to_int64 (precision curr));
  MyVal_of_chars (literalPrefix curr);
  MyVal_of_chars (literalSuffix curr);
  MyVal_of_chars (createParams curr);
  typeInt (nullable curr);
  of_bool (caseSensitive curr);
  typeInt (searchable curr);
  of_bool (isUnsigned curr);
  of_bool (fixedPrecScale curr);
  of_bool (autoIncrement curr);
  MyVal_of_chars (localTypeName curr);
  typeInt (minScale curr);
  typeInt (maxScale curr);
  typeInt (sqlDataType curr);
  typeInt (sqlDateTimeSub curr);
  typeInt (numPrecRadix curr)].

(** The loop stops at the entry without a name; past the array it is undefined. *)
Fixpoint type_rows (types : list TypeInfoDef) : outcome (list (list MyVal)) :=
  match types with
  | [] => Undefined
  | curr :: types' =>
      match typeName curr with
      | None => Ok []
      | Some name => rows ← type_rows types'; Ok (type_row name curr :: rows)
      end
  end.

Definition getTypeInfo : outcome Art :=
  rows ← type_rows mysqlc_types; Ok (Art_new type_info_fields rows).
End typeinfo.

(** ** supportsConvert *)

Definition one_of (l : list DataType) (t : Z) : bool := existsb (fun d => datatype_code d =? t) l.

Definition text_types : list DataType :=
  [CHAR; VARCHAR; LONGVARCHAR; BINARY; VARBINARY; LONGVARBINARY].
Definition number_types : list DataType :=
  [DECIMAL; NUMERIC; REAL; TINYINT; SMALLINT; INTEGER; BIGINT; DOUBLE].

(** The [switch] over the types; those without a case are the default. *)
Definition supportsConvert_types (fromType toType : Z) : bool :=
  if one_of text_types fromType then
    one_of (number_types ++ text_types ++ [DATE; TIME; TIMESTAMP]) toType
  else if fromType =? datatype_code BIT then false
  else if one_of number_types fromType then one_of (number_types ++ text_types) toType
  else if fromType =? datatype_code SQLNULL then false
  else if fromType =? datatype_code DATE then one_of text_types toType
  else if fromType =? datatype_code TIME then one_of text_types toType
  else if fromType =? datatype_code TIMESTAMP then one_of (text_types ++ [TIME; DATE]) toType
  else false.
Definition supportsConvert : bool := false.

(** ** Facts *)

(** The entries with a name. *)
Definition named_types : list (str * TypeInfoDef) :=
  omap (fun e => (fun n => (n, e)) <$> typeName e) mysqlc_types.

Lemma type_rows_named `{LongDouble} types :
  Forall (fun e => is_Some (typeName e)) types ->
  type_rows (types ++ [mysqlc_types_end]) =
    Ok (omap (fun e => (fun n => type_row n e) <$> typeName e) types).
Proof.
  induction 1 as [|e types [n Hn] _ IH]; [done|]. simpl. rewrite Hn. simpl. by rewrite IH.
Qed.
