(* ===== verification/DatabaseMetaData.v ===== *)
(** * mysqlconnector jdbc/driver/mysql_metadata.{h,cpp}: the metadata of a database

    [MySQL_ConnectionMetaData] asks the server through the service statement and prepared
    statements of its connection and puts the answers into results in memory.  This file
    has the object, how queries are run and read, keys and indexes; tables, columns,
    procedures and privileges are in MetaTables.v.  Logging is left out.  At the end, what
    the queries give on a server on which every call succeeds. *)

From S2P Require Import Prelude Cxx Str Unicode Cursor MyVal ArtResultSet Fields RsMetadata.
From S2P Require Import ResultSet ResultBind PsResultSet ParamBind Warnings PreparedStatement.
From S2P Require Import Statement ConnectionOptions Uri Connection SqlStr ForeignKeys TypeInfo.

(** ** cppconn/metadata.h *)

Definition bestRowSession : Z := 2.
Definition bestRowNotPseudo : Z := 1.
Definition columnNoNulls : Z := 0.
Definition columnNullable : Z := 1.
Definition columnNullableUnknown : Z := 2.
Definition procedureNoResult : Z := 7.
Definition procedureResultUnknown : Z := 10.
Definition procedureReturnsResult : Z := 11.
Definition tableIndexHashed : Z := 1.
Definition tableIndexOther : Z := 2.

(** [snprintf(buf, buf_size, "%d", a)] *)
Definition my_i_to_a (buf_size a : Z) : outcome str :=
  t ← show_dec a; Ok (take (Z.to_nat (buf_size - 1)) t).

(** [catch (SQLException &)]: the exceptions of the connector. *)
Definition is_sql_exception (e : exn) : bool :=
  match e with
  | SqlError _ | InvalidInstance _ | SqlInvalidArgument _ | MethodNotImplemented _
  | NonScrollable _ | UnsupportedOption _ _ => true
  | _ => false
  end.

(** [try] and a [catch] that drops the exception. *)
Definition try_sql {S A} (m : Method S A) : Method S (option A) := fun a =>
  match m a with
  | (Ok x, a') => (Ok (Some x), a')
  | (Throw e, a') => if is_sql_exception e then (Ok None, a') else (Throw e, a')
  | (Undefined, a') => (Undefined, a')
  | (Diverged, a') => (Diverged, a')
  end.

(** ** Reading results *)

(** A method of an object that is kept next to a state, and of the state. *)
Definition on_object {R S A} (m : Method R A) : Method (R * S) A := fun a =>
  let '(o, r) := m a.1 in (o, (r, a.2)).
Definition on_state {R S A} (m : Method S A) : Method (R * S) A := fun a =>
  let '(o, s) := m a.2 in (o, (a.1, s)).
(** The object lives as long as the method runs. *)
Definition with_object {R S A} (r : R) (m : Method (R * S) A) : Method S A := fun s =>
  let '(o, a) := m (r, s) in (o, a.2).

(** [while (rs->next()) ...]: what the rounds give is collected; [fuel] bounds them. *)
Fixpoint each_row {R S A} (next : Method R bool) (body : Method (R * S) (list A)) (fuel : nat)
    : Method (R * S) (list A) :=
  match fuel with
  | O => pure Diverged
  | S fuel' =>
      b ← on_object next;
      if (b : bool) then x ← body; xs ← each_row next body fuel'; mret (x ++ xs) else mret []
  end.

(** Texts of columns as the values of a row. *)
Fixpoint text_values `{LongDouble} {R} (getString : Z -> Method R str) (columns : list Z)
    : Method R (list MyVal) :=
  match columns with
  | [] => mret []
  | c :: columns' =>
      s ← getString c; vs ← text_values getString columns'; mret (typeString s :: vs)
  end.
(** The columns from 1 to [n]. *)
Definition columns_to (n : nat) : list Z := map Z.of_nat (seq 1 n).

(** ** The object *)

Section metadata.
Context `{CSession} `{CPrepared} `{!CPrepare _ _ _} `{Session} `{LongDouble}.
Context (version : Z).
(** What results of prepared statements use, see PsResultSet.v. *)
Context (strtonum : str -> ld) (ld_of_float ld_of_double : str -> ld) (print_f : ld -> str).
(** Bounds the rows of results and the rounds over texts. *)
Context (fuel : nat).

(** The members, the connection, and the heap of the prepared statements. *)
Record Mcm := MkMcm {
  connection : Cn;
  memory : heap;
  server_version : Z;
  lower_case_table_names : str;
  use_info_schema : bool;
}.
Definition set_connection (x : Cn) (a : Mcm) : Mcm :=
  MkMcm x (memory a) (server_version a) (lower_case_table_names a) (use_info_schema a).
Definition set_memory (x : heap) (a : Mcm) : Mcm :=
  MkMcm (connection a) x (server_version a) (lower_case_table_names a) (use_info_schema a).
Definition set_use_info_schema (x : bool) (a : Mcm) : Mcm :=
  MkMcm (connection a) (memory a) (server_version a) (lower_case_table_names a) x.

Local Abbreviation method := (Method Mcm).

(** A method of the connection, and of the statement [stmt], its service statement. *)
Definition on_connection {A} (m : Method Cn A) : method A := fun a =>
  let '(o, c) := m (connection a) in (o, set_connection c a).
Definition executeQuery (query : str) : method Rs :=
  on_connection (on_service (Statement.executeQuery query)).
(** [try { rs.reset(stmt->executeQuery(query)); } catch (SQLException &) {}] *)
Definition try_query (query : str) : method (option Rs) := try_sql (executeQuery query).

(** [getClientOption] with the address of [use_info_schema]. *)
Definition load_use_info_schema : method unit :=
  o ← on_connection (getClientOption version "metadataUseInfoSchema");
  match o with
  | Some (ArgBool b) => update (set_use_info_schema b)
  | Some _ => pure Undefined
  | None => mret tt
  end.

(** [MySQL_ConnectionMetaData::MySQL_ConnectionMetaData] *)
Definition Mcm_new (c : Cn) (h : heap) : outcome Mcm * Mcm :=
  (_ ← (v ← on_connection (Connection.ask conn_server_version);
        update (fun a => MkMcm (connection a) (memory a) v [] true));
   _ ← (l ← on_connection (getSessionVariable "lower_case_table_names");
        update (fun a => MkMcm (connection a) (memory a) (server_version a) l (use_info_schema a)));
   _ ← load_use_info_schema;
   read (fun a => a)) (MkMcm c h 0 [] true).

(** The rows of a result, and of one that may be missing. *)
Definition each_result_row {A} (rs : Rs) (body : Method (Rs * Mcm) (list A)) : method (list A) :=
  with_object rs (each_row ResultSet.next body fuel).
Definition each_row_if {A} (rs : option Rs) (body : Method (Rs * Mcm) (list A)) : method (list A) :=
  match rs with Some rs => each_result_row rs body | None => mret [] end.
(** The texts of columns 1 to [n] of every row. *)
Definition copy_columns (n : nat) : Method (Rs * Mcm) (list (list MyVal)) :=
  row ← on_object (text_values ResultSet.getString (columns_to n)); mret [row].

(** ** Prepared statements *)

Local Abbreviation ps_getString := (PsResultSet.getString strtonum ld_of_float ld_of_double print_f).
Local Abbreviation ps_getInt64 := (PsResultSet.getInt64 strtonum ld_of_float ld_of_double print_f).

(** [pStmt->setString(1, ...)], [pStmt->setString(2, ...)] ... *)
Fixpoint set_strings (i : Z) (params : list str) : Method Pst unit :=
  match params with
  | [] => mret tt
  | p :: params' => _ ← PreparedStatement.setString i p; set_strings (i + 1) params'
  end.

(** The rows of a result of a prepared statement, which is deleted after they were read:
    it and the statement own the buffers. *)
Definition read_prepared {A} (body : Method Ps (list A)) (rs : Ps) : Method Pst (list A) :=
  let '(rows, (rs, _)) := each_row PsResultSet.next (on_object body) fuel (rs, tt) in
  let '(_, rs) := PsResultSet.closeIntern rs in
  _ ← update (PreparedStatement.set_proxy (Some (PsResultSet.proxy rs)));
  pure rows.
Definition prepared_rows {A} (params : list str) (body : Method Ps (list A)) : Method Pst (list A) :=
  _ ← set_strings 1 params;
  rs ← PreparedStatement.executeQuery fuel 2;
  read_prepared body rs.

(** A statement that is prepared, used and deleted, also when an exception passes. *)
Definition with_prepared {A} (query : str) (m : Method Pst A) : method A := fun a =>
  match prepareStatement query (memory a) (connection a) with
  | (Ok p, c) =>
      let '(o, p) := m p in
      let '(d, p) := Pst_delete p in
      (d ≫= fun _ => o, set_memory (PreparedStatement.memory p) (set_connection c a))
  | (Throw e, c) => (Throw e, set_connection c a)
  | (Undefined, c) => (Undefined, set_connection c a)
  | (Diverged, c) => (Diverged, set_connection c a)
  end.

(** A query on the information schema whose texts are copied. *)
Definition copy_prepared (n : nat) : Method Ps (list (list MyVal)) :=
  row ← text_values ps_getString (columns_to n); mret [row].
Definition info_schema_rows (query : str) (params : list str) (n : nat) : method (list (list MyVal)) :=
  with_prepared query (prepared_rows params (copy_prepared n)).

(** A result in memory. *)
Definition result_of (fields : list str) (rows : method (list (list MyVal))) : method Art :=
  rows ← rows; mret (Art_new fields rows).

(** Names in quotes: [`schema`.`table`]. *)
Definition qualified (schema table : str) : str := "`" ++ schema ++ "`.`" ++ table ++ "`".

(** ** Quotes and imported keys *)

Definition getIdentifierQuoteString : method str :=
  v ← read server_version;
  if 32306 <=? v then
    sql_mode ← on_connection (getSessionVariable "SQL_MODE");
    mret (if negb (find sql_mode "ANSI_QUOTES" =? npos) then "\q" : str else "`")
  else mret (" " : str).

Definition parseImportedKeys (def : str) : method (option Imported) :=
  match constraint_pos def with
  | None => mret None
  | Some pos =>
      cQuote ← getIdentifierQuoteString;
      k ← pure (parse_constraint def cQuote pos); mret (Some k)
  end.

Definition key_fields : list str :=
  [lit "PKTABLE_CAT"; lit "PKTABLE_SCHEM"; lit "PKTABLE_NAME"; lit "PKCOLUMN_NAME";
   lit "FKTABLE_CAT"; lit "FKTABLE_SCHEM"; lit "FKTABLE_NAME"; lit "FKCOLUMN_NAME";
   lit "KEY_SEQ"; lit "UPDATE_RULE"; lit "DELETE_RULE"; lit "FK_NAME"; lit "PK_NAME";
   lit "DEFERRABILITY"].

(** The numbers of the rules in the queries on the information schema. *)
Definition rule_clause (column : str) : outcome str :=
  cascade ← my_i_to_a 9 importedKeyCascade;
  set_null ← my_i_to_a 9 importedKeySetNull;
  set_default ← my_i_to_a 9 importedKeySetDefault;
  restrict ← my_i_to_a 9 importedKeyRestrict;
  no_action ← my_i_to_a 9 importedKeyNoAction;
  Ok ("CASE WHEN R." ++ column ++ "='CASCADE' THEN " ++ cascade ++
      " WHEN R." ++ column ++ "='SET NULL' THEN " ++ set_null ++
      " WHEN R." ++ column ++ "='SET DEFAULT' THEN " ++ set_default ++
      " WHEN R." ++ column ++ "='RESTRICT' THEN " ++ restrict ++
      " WHEN R." ++ column ++ "='NO ACTION' THEN " ++ no_action ++
      " ELSE " ++ no_action ++ " END ").
Definition ref_constraint_join : str :=
  (lit "JOIN INFORMATION_SCHEMA.REFERENTIAL_CONSTRAINTS R ON " ++
     lit "(R.CONSTRAINT_NAME = B.CONSTRAINT_NAME AND R.TABLE_NAME = B.TABLE_NAME AND R.CONSTRAINT_SCHEMA = B.TABLE_SCHEMA) ").

(** The three queries over [KEY_COLUMN_USAGE]; they differ in blanks and conditions. *)
Definition keys_query (select rules names from_where : str) : outcome str :=
  update_rule ← rule_clause "UPDATE_RULE";
  delete_rule ← rule_clause "DELETE_RULE";
  not_deferrable ← my_i_to_a 9 importedKeyNotDeferrable;
  Ok (select ++ update_rule ++ " AS UPDATE_RULE," ++ rules ++ delete_rule ++ names ++ not_deferrable ++
      from_where).

Definition imported_keys_query : outcome str :=
  keys_query
    (lit "SELECT \n" ++
     lit "A.TABLE_CATALOG AS PKTABLE_CAT, A.REFERENCED_TABLE_SCHEMA AS PKTABLE_SCHEM, A.REFERENCED_TABLE_NAME AS PKTABLE_NAME,\n" ++
     lit "A.REFERENCED_COLUMN_NAME AS PKCOLUMN_NAME, A.TABLE_CATALOG AS FKTABLE_CAT, A.TABLE_SCHEMA AS FKTABLE_SCHEM,\n" ++
     lit "A.TABLE_NAME AS FKTABLE_NAME, A.COLUMN_NAME AS FKCOLUMN_NAME, A.ORDINAL_POSITION AS KEY_SEQ,\n")
    "\n"
    (lit " AS DELETE_RULE, A.CONSTRAINT_NAME AS FK_NAME,\n" ++
     lit "(SELECT TC.CONSTRAINT_NAME FROM INFORMATION_SCHEMA.TABLE_CONSTRAINTS AS TC\n" ++
     lit "WHERE TABLE_SCHEMA = A.REFERENCED_TABLE_SCHEMA AND TABLE_NAME = A.REFERENCED_TABLE_NAME \n" ++
     lit "AND CONSTRAINT_TYPE IN ('UNIQUE','PRIMARY KEY') LIMIT 1) AS PK_NAME,\n")
    ((lit " AS DEFERRABILITY FROM " ++
     lit "INFORMATION_SCHEMA.KEY_COLUMN_USAGE A JOIN INFORMATION_SCHEMA.TABLE_CONSTRAINTS B \n" ++
     lit "USING(CONSTRAINT_NAME, TABLE_NAME) \n") ++ ref_constraint_join ++
     (lit "WHERE B.CONSTRAINT_TYPE = 'FOREIGN KEY' AND A.TABLE_SCHEMA LIKE ?  AND A.TABLE_NAME=?  AND A.REFERENCED_TABLE_SCHEMA \n" ++
     lit "IS NOT NULL\nORDER BY A.REFERENCED_TABLE_SCHEMA, A.REFERENCED_TABLE_NAME, A.ORDINAL_POSITION")).
Definition getImportedKeys (schema table : str) : method Art :=
  result_of key_fields (
    _ ← load_use_info_schema;
    info ← read use_info_schema; v ← read server_version;
    if info && (50116 <=? v) then
      query ← pure imported_keys_query; info_schema_rows query [schema; table] 14
    else
      rs ← try_query ("SHOW CREATE TABLE " ++ qualified schema table);
      rows ← match rs with
             | None => mret []
             | Some rs =>
                 with_object rs (
                   b ← on_object ResultSet.next;
                   if (b : bool) then
                     create_query ← on_object (ResultSet.getString 2);
                     k ← on_state (parseImportedKeys create_query);
                     mret (match k with Some k => rows_of_key schema table k | None => [] end)
                   else mret [])
             end;
      pure (list_sort compareImportedKeys rows)).

Definition exported_keys_query : outcome str :=
  keys_query
    (lit "SELECT \n" ++
     lit "A.TABLE_CATALOG AS PKTABLE_CAT, A.REFERENCED_TABLE_SCHEMA AS PKTABLE_SCHEM, A.REFERENCED_TABLE_NAME AS PKTABLE_NAME,\n" ++
     lit "A.REFERENCED_COLUMN_NAME AS PKCOLUMN_NAME, A.TABLE_CATALOG AS FKTABLE_CAT, A.TABLE_SCHEMA AS FKTABLE_SCHEM,\n" ++
     lit "A.TABLE_NAME AS FKTABLE_NAME, A.COLUMN_NAME AS FKCOLUMN_NAME, A.ORDINAL_POSITION AS KEY_SEQ,")
    []
    (lit " AS DELETE_RULE, A.CONSTRAINT_NAME AS FK_NAME," ++
     lit "(SELECT CONSTRAINT_NAME FROM INFORMATION_SCHEMA.TABLE_CONSTRAINTS WHERE TABLE_SCHEMA = REFERENCED_TABLE_SCHEMA AND" ++
     lit " TABLE_NAME = A.REFERENCED_TABLE_NAME AND CONSTRAINT_TYPE IN ('UNIQUE','PRIMARY KEY') LIMIT 1) AS PK_NAME,")
    ((lit " AS DEFERRABILITY \n FROM INFORMATION_SCHEMA.KEY_COLUMN_USAGE A JOIN  INFORMATION_SCHEMA.TABLE_CONSTRAINTS B\n" ++
     lit "USING (TABLE_SCHEMA, TABLE_NAME, CONSTRAINT_NAME)\n") ++ ref_constraint_join ++
     (lit "\nWHERE B.CONSTRAINT_TYPE = 'FOREIGN KEY' AND A.REFERENCED_TABLE_SCHEMA LIKE ? AND A.REFERENCED_TABLE_NAME=?\n" ++
     lit "ORDER BY A.TABLE_SCHEMA, A.TABLE_NAME, A.ORDINAL_POSITION")).
Definition getExportedKeys (schema table : str) : method Art :=
  _ ← load_use_info_schema;
  info ← read use_info_schema; v ← read server_version;
  if info && (50110 <=? v) then
    result_of key_fields (query ← pure exported_keys_query; info_schema_rows query [schema; table] 14)
  else throw (MethodNotImplemented "MySQL_ConnectionMetaData::getExportedKeys").

Definition cross_reference_query : outcome str :=
  keys_query
    (lit "SELECT \n" ++
     lit "A.TABLE_CATALOG AS PKTABLE_CAT, A.REFERENCED_TABLE_SCHEMA AS PKTABLE_SCHEM, A.REFERENCED_TABLE_NAME AS PKTABLE_NAME," ++
     lit "A.REFERENCED_COLUMN_NAME AS PKCOLUMN_NAME, A.TABLE_CATALOG AS FKTABLE_CAT, A.TABLE_SCHEMA AS FKTABLE_SCHEM," ++
     lit "A.TABLE_NAME AS FKTABLE_NAME, A.COLUMN_NAME AS FKCOLUMN_NAME, A.ORDINAL_POSITION AS KEY_SEQ,")
    []
    (lit " AS DELETE_RULE, A.CONSTRAINT_NAME AS FK_NAME," ++
     lit "(SELECT CONSTRAINT_NAME FROM INFORMATION_SCHEMA.TABLE_CONSTRAINTS WHERE TABLE_SCHEMA = REFERENCED_TABLE_SCHEMA AND" ++
     lit " TABLE_NAME = A.REFERENCED_TABLE_NAME AND CONSTRAINT_TYPE IN ('UNIQUE','PRIMARY KEY') LIMIT 1) AS PK_NAME,")
    ((lit " AS DEFERRABILITY  FROM\nINFORMATION_SCHEMA.KEY_COLUMN_USAGE A JOIN INFORMATION_SCHEMA.TABLE_CONSTRAINTS B\n" ++
     lit "USING (TABLE_SCHEMA, TABLE_NAME, CONSTRAINT_NAME)\n") ++ ref_constraint_join ++
     (lit "\nWHERE B.CONSTRAINT_TYPE = 'FOREIGN KEY' AND A.REFERENCED_TABLE_SCHEMA LIKE ? AND A.REFERENCED_TABLE_NAME=?\n" ++
     lit "AND A.TABLE_SCHEMA LIKE ? AND A.TABLE_NAME=?\nORDER BY  A.TABLE_SCHEMA, A.TABLE_NAME, A.ORDINAL_POSITION")).
Definition getCrossReference (primarySchema primaryTable foreignSchema foreignTable : str) : method Art :=
  _ ← load_use_info_schema;
  info ← read use_info_schema; v ← read server_version;
  if info && (50110 <=? v) then
    result_of key_fields (query ← pure cross_reference_query;
      info_schema_rows query [primarySchema; primaryTable; foreignSchema; foreignTable] 14)
  else throw (MethodNotImplemented "MySQL_ConnectionMetaData::getCrossReference").

(** ** Indexes *)

Definition index_fields : list str :=
  [lit "TABLE_CAT"; lit "TABLE_SCHEM"; lit "TABLE_NAME"; lit "NON_UNIQUE";
   lit "INDEX_QUALIFIER"; lit "INDEX_NAME"; lit "TYPE"; lit "ORDINAL_POSITION";
   lit "COLUMN_NAME"; lit "ASC_OR_DESC"; lit "CARDINALITY"; lit "PAGES"; lit "FILTER_CONDITION"].

Definition index_query (indexHash indexOther : str) (unique : bool) : str :=
  (lit "SELECT TABLE_CATALOG AS TABLE_CAT, TABLE_SCHEMA AS TABLE_SCHEM, TABLE_NAME, NON_UNIQUE, " ++
     lit "TABLE_SCHEMA AS INDEX_QUALIFIER, INDEX_NAME, CASE WHEN INDEX_TYPE='HASH' THEN ") ++ indexHash ++ " ELSE " ++ indexOther ++
  (lit " END AS TYPE, SEQ_IN_INDEX AS ORDINAL_POSITION, COLUMN_NAME, COLLATION AS ASC_OR_DESC, CARDINALITY," ++
     lit "NULL AS PAGES, NULL AS FILTER_CONDITION " ++
     lit "FROM INFORMATION_SCHEMA.STATISTICS WHERE TABLE_SCHEMA LIKE ? AND TABLE_NAME LIKE ?\n") ++
  (if unique then " AND NON_UNIQUE=0" : str else []) ++
  (lit " ORDER BY NON_UNIQUE, TYPE, INDEX_NAME, ORDINAL_POSITION").

(** A row of SHOW INDEX: those that are not unique are left out when [unique] is asked
    for. *)
Definition index_row (schema : str) (unique : bool) (indexHash indexOther : str)
    : Method (Rs * Mcm) (list (list MyVal)) :=
  non_unique ← on_object (ResultSet.getString_label "Non_unique");
  if match read_unsigned non_unique with Some n => unique && negb (n =? 0) | None => false end
  then mret []
  else
    table ← on_object (ResultSet.getString_label "Table");
    flag ← on_object (ResultSet.getString_label "Non_unique");
    flag ← pure (atoi (c_str flag));
    key ← on_object (ResultSet.getString_label "Key_name");
    type ← on_object (ResultSet.getString_label "Index_type");
    seq ← on_object (ResultSet.getString_label "Seq_in_index");
    column ← on_object (ResultSet.getString_label "Column_name");
    collation ← on_object (ResultSet.getString_label "Collation");
    cardinality ← on_object (ResultSet.getString_label "Cardinality");
    mret [[MyVal_of_chars "def"; typeString schema; typeString table; typeBool (negb (flag =? 0));
           typeString schema; typeString key;
           MyVal_of_chars (if str_eqb type "HASH" then indexHash else indexOther);
           typeString seq; typeString column; typeString collation; typeString cardinality;
           MyVal_of_chars "0"; MyVal_of_chars ""]].

Definition getIndexInfo (schema table : str) (unique : bool) : method Art :=
  result_of index_fields (
    indexOther ← pure (my_i_to_a 5 tableIndexOther);
    indexHash ← pure (my_i_to_a 5 tableIndexHashed);
    _ ← load_use_info_schema;
    info ← read use_info_schema; v ← read server_version;
    if info && (50020 <? v) then
      info_schema_rows (index_query indexHash indexOther unique) [schema; table] 13
    else
      rs ← try_query ("SHOW INDEX FROM " ++ qualified schema table);
      rows ← each_row_if rs (index_row schema unique indexHash indexOther);
      pure (list_sort compareIndexInfo rows)).

(** ** Keys of a table *)

Definition primary_key_fields : list str :=
  [lit "TABLE_CAT"; lit "TABLE_SCHEM"; lit "TABLE_NAME"; lit "COLUMN_NAME"; lit "KEY_SEQ";
   lit "PK_NAME"].
Definition primary_keys_query : str :=
  (lit "SELECT TABLE_CATALOG AS TABLE_CAT, TABLE_SCHEMA AS TABLE_SCHEM, TABLE_NAME, " ++
     lit "COLUMN_NAME, SEQ_IN_INDEX AS KEY_SEQ, INDEX_NAME AS PK_NAME FROM INFORMATION_SCHEMA.STATISTICS " ++
     lit "WHERE TABLE_SCHEMA LIKE ? AND TABLE_NAME LIKE ? AND INDEX_NAME='PRIMARY' " ++
     lit "ORDER BY TABLE_SCHEMA, TABLE_NAME, INDEX_NAME, SEQ_IN_INDEX").

(** The row of a key of SHOW KEYS. *)
Definition show_key_row (schema key_name : str) : Method (Rs * Mcm) (list (list MyVal)) :=
  table ← on_object (ResultSet.getString 1);
  column ← on_object (ResultSet.getString_label "Column_name");
  seq ← on_object (ResultSet.getString_label "Seq_in_index");
  mret [[MyVal_of_chars "def"; typeString schema; typeString table; typeString column;
         typeString seq; typeString key_name]].

Definition getPrimaryKeys (schema table : str) : method Art :=
  result_of primary_key_fields (
    _ ← load_use_info_schema;
    info ← read use_info_schema; v ← read server_version;
    if info && (49999 <? v) then info_schema_rows primary_keys_query [schema; table] 6
    else
      rs ← try_query ("SHOW KEYS FROM " ++ qualified schema table);
      each_row_if rs (
        key_name ← on_object (ResultSet.getString_label "Key_name");
        if str_eqb key_name "PRIMARY" || str_eqb key_name "PRI" then show_key_row schema key_name
        else mret [])).

Definition unique_keys_query : str :=
  (lit "SELECT TABLE_CATALOG AS TABLE_CAT, TABLE_SCHEMA AS TABLE_SCHEM, TABLE_NAME," ++
     lit "  COLUMN_NAME, SEQ_IN_INDEX AS KEY_SEQ, INDEX_NAME AS PK_NAME " ++
     lit "FROM INFORMATION_SCHEMA.STATISTICS " ++
     lit "WHERE TABLE_SCHEMA LIKE ? AND TABLE_NAME LIKE ? AND INDEX_NAME <> 'PRIMARY'" ++
     lit "  AND NON_UNIQUE = 0 AND NULLABLE <> 'YES'" ++
     lit "ORDER BY TABLE_SCHEMA, TABLE_NAME, INDEX_NAME, SEQ_IN_INDEX").

(** The statement is one of its own. *)
Definition try_statement (query : str) : method (option Rs) :=
  s ← on_connection createStatement;
  try_sql (on_connection (run_statement s (Statement.executeQuery query))).
Definition getUniqueNonNullableKeys (schema table : str) : method Art :=
  result_of primary_key_fields (
    _ ← load_use_info_schema;
    info ← read use_info_schema; v ← read server_version;
    if info && (50002 <? v) then info_schema_rows unique_keys_query [schema; table] 6
    else
      rs ← try_statement ("SHOW KEYS FROM " ++ qualified schema table);
      each_row_if rs (
        non_unique ← on_object (ResultSet.getInt_label "Non_unique");
        nullable ← on_object (ResultSet.getString_label "Null");
        if (non_unique =? 0) && negb (str_eqb nullable "YES") then
          key_name ← on_object (ResultSet.getString_label "Key_name");
          show_key_row schema key_name
        else mret [])).
End metadata.

(** ** Queries of the metadata on a server

    What the queries give on a server on which every call succeeds ([Server]): an answer of
    one text, the variable that tells the quotes of identifiers, and the option that chooses
    between SHOW and the information schema. *)

From S2P Require Import Server OpenConnection.

Section queries.
Context (R : CResult) (SR : StoredResult R) (C : CConnection R) (S : Server R SR C)
  (Q : CSession R C).

(** The answer to a query is one row, with a text in a column. *)
Definition text_answer (q : str) (column : Z) (value : str) : Prop :=
  exists (r : crow) l, answers q = Rows [r] :: l /\ text_of column r = value /\
    1 <= column <= Z.of_nat (length r) /\ text_column R [r] column /\
    (forall s, stored s [r] 0 -> column <= res_num_fields s).

(** The first row of the result of such a query. *)
Lemma one_row_read (r : crow) s p column value :
  stored s [r] 0 -> text_of column r = value -> 1 <= column <= Z.of_nat (length r) ->
  text_column R [r] column -> (forall s, stored s [r] 0 -> column <= res_num_fields s) ->
  exists rs1 rs2, ResultSet.next (Rs_new s p TYPE_SCROLL_INSENSITIVE) = (Ok true, rs1) /\
    ResultSet.getString column rs1 = (Ok value, rs2).
Proof using.
  intros Hs <- Hc Ht Hf.
  pose proof (Rs_new_at R [r] s p Hs ltac:(done)) as H0.
  destruct (next_moves R [r] 0 _ H0) as (rs1 & E1 & S1 & H1).
  destruct (getString_moves R [r] column 0 r rs1 H1 eq_refl) as (rs2 & E2 & _ & _); [|lia|done|].
  { rewrite (same_fields _ _ _ S1). simpl. split; [lia|by apply Hf]. }
  by exists rs1, rs2.
Qed.

(** A connection whose service statement gives results that scroll. *)
Definition serving (a : Cn) (es : list event) : Prop :=
  session_at R SR C S a es /\ Statement.resultset_type (service a) <> TYPE_FORWARD_ONLY.

(** What a query of the service statement leaves as it is. *)
Definition same_options (a b : Cn) : Prop :=
  metadata_use_info_schema a = metadata_use_info_schema b.

Lemma service_query_ok q a es rows l :
  serving a es -> answers q = Rows rows :: l ->
  exists r p a', on_service (Statement.executeQuery q) a =
      (Ok (Rs_new r p TYPE_SCROLL_INSENSITIVE), a') /\
    stored r rows 0 /\ serving a' (es ++ [EQuery q]) /\ same_options a' a.
Proof using S.
  intros [[Hv Hs Ht (c & Hp & He)] Hf] Hq.
  destruct (executeQuery_ok R SR C S q (service a) c rows l Hs Hf Hq)
    as (r & p & s' & c' & E & Hst & _ & He' & Ho & Hr).
  exists r, p, (set_service s' (Connection.set_proxy (Some c') a)).
  rewrite (on_service_ok R C _ a (Ok (Rs_new r p TYPE_SCROLL_INSENSITIVE)) s' (Some c')) by by rewrite Hp.
  split; [done|]. split; [done|]. split; [|done]. split; [|by rewrite <- Hr in Hf].
  split; try done. exists c'. by rewrite He', He.
Qed.

Lemma getSessionVariable_ok name value a es :
  serving a es -> name <> SQL_MODE ->
  text_answer ("SHOW SESSION VARIABLES LIKE '" ++ name ++ "'") 2 value ->
  exists a', getSessionVariable name a = (Ok value, a') /\
    serving a' (es ++ [EQuery ("SHOW SESSION VARIABLES LIKE '" ++ name ++ "'")]) /\ same_options a' a.
Proof using S.
  intros Ha Hn (r & l & Hq & Hv & Hc & Ht & Hf).
  destruct (service_query_ok _ a es [r] l Ha Hq) as (s & p & a' & E & Hst & Ha' & Ho).
  destruct (one_row_read r s p 2 value Hst Hv Hc Ht Hf) as (rs1 & rs2 & E1 & E2).
  exists a'. split; [|done]. unfold getSessionVariable.
  rewrite (method_bind_ok (connection_open R C a (at_valid _ _ _ _ _ _ (proj1 Ha)))), !method_read.
  rewrite (bool_decide_false (name = SQL_MODE)) by done. rewrite andb_false_r. cbv zeta.
  rewrite (method_bind_ok E), E1. rewrite (method_bind_ok (s' := a') (a := true) eq_refl). rewrite E2.
  rewrite andb_false_r. rewrite (method_bind_ok (s' := a') (a := tt) eq_refl).
  unfold run_result, pure. by rewrite E2.
Qed.

(** ** The metadata *)

Context `{!CPrepared C0} `{!CPrepare R C C0} `{!Session} `{!LongDouble} (version : Z).

Definition serving_meta (a : Mcm) (es : list event) : Prop := serving (connection a) es.

(** The members of the metadata that queries do not change. *)
Record same_members (a b : Mcm) : Prop := {
  same_version : server_version a = server_version b;
  same_lower : lower_case_table_names a = lower_case_table_names b;
  same_choice : use_info_schema a = use_info_schema b;
}.
#[global] Instance same_members_preorder : PreOrder same_members.
Proof using. split; [by split|]. intros a b c [] []. split; congruence. Qed.

Lemma on_connection_ok {A} (m : Method Cn A) (a : Mcm) o c :
  m (connection a) = (o, c) -> on_connection m a = (o, DatabaseMetaData.set_connection c a).
Proof using. intros E. unfold on_connection. by rewrite E. Qed.

Lemma meta_query_ok q a es rows l :
  serving_meta a es -> answers q = Rows rows :: l ->
  exists r p a', DatabaseMetaData.executeQuery q a = (Ok (Rs_new r p TYPE_SCROLL_INSENSITIVE), a') /\
    stored r rows 0 /\ serving_meta a' (es ++ [EQuery q]) /\ same_members a' a.
Proof using S.
  intros Ha Hq. destruct (service_query_ok q _ es rows l Ha Hq) as (r & p & c & E & Hst & Hc & _).
  exists r, p, (DatabaseMetaData.set_connection c a). unfold DatabaseMetaData.executeQuery.
  rewrite (on_connection_ok _ a _ _ E). split; [done|]. split; [done|]. by split.
Qed.

(** The character that quotes identifiers. *)
Definition quote_of (sql_mode : str) : ascii :=
  if negb (find sql_mode "ANSI_QUOTES" =? npos) then ascii_of_nat 34 else "`"%char.

Lemma quote_string_ok a es mode :
  serving_meta a es -> 32306 <= server_version a ->
  text_answer "SHOW SESSION VARIABLES LIKE 'SQL_MODE'" 2 mode ->
  exists a', getIdentifierQuoteString a = (Ok [quote_of mode], a') /\
    serving_meta a' (es ++ [EQuery "SHOW SESSION VARIABLES LIKE 'SQL_MODE'"]) /\ same_members a' a.
Proof using S.
  intros Ha Hv Hm.
  destruct (getSessionVariable_ok "SQL_MODE" mode _ es Ha ltac:(done) Hm) as (c & E & Hc & _).
  exists (DatabaseMetaData.set_connection c a). split; [|by split].
  unfold getIdentifierQuoteString. rewrite method_read, (proj2 (Z.leb_le _ _) Hv).
  rewrite (method_bind_ok (on_connection_ok _ a _ _ E)). unfold quote_of.
  by destruct (negb (find mode "ANSI_QUOTES" =? npos)).
Qed.

(** The option is read again before it is used. *)
Lemma load_use_info_schema_ok a :
  load_use_info_schema version a =
    (Ok tt, set_use_info_schema (metadata_use_info_schema (connection a)) a).
Proof using. by destruct a as [[] ? ? ? ?]. Qed.
End queries.
