(* ===== verification/MetaTables.v ===== *)
(** * mysqlconnector jdbc/driver/mysql_metadata.cpp: schemas, tables, columns, privileges

    The methods of [MySQL_ConnectionMetaData] that list what a server has, see
    DatabaseMetaData.v.  Those that read SHOW GRANTS and lists of privileges do so with the
    index arithmetic of the source. *)

From S2P Require Import Prelude Cxx Str Unicode Cursor MyVal ArtResultSet Fields RsMetadata.
From S2P Require Import ResultSet ResultBind PsResultSet ParamBind Warnings PreparedStatement.
From S2P Require Import Statement ConnectionOptions Uri Connection SqlStr ForeignKeys TypeInfo.
From S2P Require Import DatabaseMetaData.

(** ** Lists of privileges *)

(** The token at [pos], and the position after its comma if it has one. *)
Definition next_token (privs : str) (pos : Z) : outcome (str * option Z) :=
  pos ← skip_spaces privs pos;
  let idx := find_from privs "," pos in
  if negb (idx =? npos) then
    privToken ← substr privs pos (to_size_t (idx - pos));
    Ok (privToken, Some (to_size_t (idx + 1)))
  else privToken ← substr privs pos (to_size_t (size privs - pos)); Ok (privToken, None).

(** The [do] loop over the tokens; [body] makes the rows of one. *)
Fixpoint each_token {S A} (body : str -> Method S (list A)) (fuel : nat) (privs : str) (pos : Z)
    : Method S (list A) :=
  match fuel with
  | O => pure Diverged
  | S fuel' =>
      '(privToken, next) ← pure (next_token privs pos);
      rows ← body privToken;
      match next with
      | Some pos => more ← each_token body fuel' privs pos; mret (rows ++ more)
      | None => mret rows
      end
  end.

(** [do pos = s.find(quote, pos); while (pos != npos && s[pos - 1] == '\\')]: after a
    backslash the search starts again where it ended. *)
Fixpoint closing_quote (fuel : nat) (s quote : str) (pos : Z) : outcome Z :=
  match fuel with
  | O => Diverged
  | S fuel' =>
      let pos := find_from s quote pos in
      if pos =? npos then Ok pos
      else
        c ← str_idx s (to_size_t (pos - 1));
        if bool_decide (c = "\"%char) then closing_quote fuel' s quote pos else Ok pos
  end.

(** A name of a grant, a star or in quotes, and the position of its closing quote. *)
Definition grant_name (fuel : nat) (cQuote s : str) : outcome (str * option Z) :=
  c ← str_idx s 0;
  if bool_decide (c <> "*"%char) then
    pos ← closing_quote fuel s cQuote 1;
    name ← substr s 1 (to_size_t (pos - 1)); Ok (name, Some pos)
  else Ok ("*" : str, None).

Definition strAllPrivs : str := "ALTER, DELETE, DROP, INDEX, INSERT, LOCK TABLES, SELECT, UPDATE".

(** A row of SHOW GRANTS: its privileges, schema and table. *)
Definition read_grant (fuel : nat) (cQuote aGrant : str) : outcome (str * str * str) :=
  aGrant ← replace_at aGrant 0 6 [];
  let pos := find aGrant "ALL PRIVILEGES" in
  aGrant ← (if negb (pos =? npos) then replace_at aGrant pos 14 strAllPrivs else Ok aGrant);
  let pos := find aGrant "ON" in
  privileges ← substr aGrant 0 (to_size_t (pos - 1));
  aGrant ← substr aGrant (to_size_t (pos + 3)) npos;
  '(schema, pos) ← grant_name fuel cQuote aGrant;
  aGrant ← replace_at aGrant 0 (match pos with Some pos => to_size_t (pos + 1 + 1) | None => 1 + 1 end) [];
  '(table, _) ← grant_name fuel cQuote aGrant;
  Ok (privileges, schema, table).

Definition matchTable (sPattern tPattern schema table : str) : bool :=
  (str_eqb sPattern "*" || str_eqb sPattern schema) && (str_eqb tPattern "*" || str_eqb tPattern table).

(** ** The methods *)

Section metadata.
Context `{CSession} `{CPrepared} `{!CPrepare _ _ _} `{Session} `{LongDouble}.
Context (version : Z).
Context (strtonum : str -> ld) (ld_of_float ld_of_double : str -> ld) (print_f : ld -> str).
Context (fuel : nat).

Local Abbreviation method := (Method Mcm).
Local Abbreviation load_use_info_schema := (load_use_info_schema version).
Local Abbreviation each_result_row := (each_result_row fuel).
Local Abbreviation each_row_if := (each_row_if fuel).
Local Abbreviation info_schema_rows := (info_schema_rows strtonum ld_of_float ld_of_double print_f fuel).
Local Abbreviation prepared_rows := (prepared_rows fuel).
Local Abbreviation ps_getString := (PsResultSet.getString strtonum ld_of_float ld_of_double print_f).
Local Abbreviation ps_getInt64 := (PsResultSet.getInt64 strtonum ld_of_float ld_of_double print_f).
Local Abbreviation getPrimaryKeys :=
  (getPrimaryKeys version strtonum ld_of_float ld_of_double print_f fuel).
Local Abbreviation getUniqueNonNullableKeys :=
  (getUniqueNonNullableKeys version strtonum ld_of_float ld_of_double print_f fuel).

Definition escape (s : str) : method str := on_connection (escapeString s).
(** A query of a statement that is made for it. *)
Definition own_query (query : str) : method Rs :=
  on_connection (with_statement (Statement.executeQuery query)).

(** ** Schemas *)

Definition getSchemata : method Rs := executeQuery "SHOW DATABASES".

Definition getSchemas : method Art :=
  result_of [lit "TABLE_SCHEM"; lit "TABLE_CATALOG"] (
    _ ← load_use_info_schema;
    info ← read use_info_schema; v ← read server_version;
    rs ← executeQuery (if info && (49999 <? v)
                       then (lit "SELECT SCHEMA_NAME AS TABLE_SCHEM, CATALOG_NAME AS TABLE_CATALOG FROM INFORMATION_SCHEMA.SCHEMATA ORDER BY SCHEMA_NAME") : str
                       else "SHOW DATABASES");
    each_result_row rs (
      schema ← on_object (ResultSet.getString 1);
      catalog ← (if info && (49999 <? v) then c ← on_object (ResultSet.getString 2); mret (typeString c)
                 else mret (MyVal_of_chars ""));
      mret [[typeString schema; catalog]])).

(** The queries that copy what a statement of their own gives. *)
Definition own_rows (query : str) (n : nat) : method (list (list MyVal)) :=
  rs ← own_query query; each_result_row rs (copy_columns n).
Definition getSchemaCollation (schemaPattern : str) : method Art :=
  escaped ← escape schemaPattern;
  result_of [lit "SCHEMA_CAT"; lit "SCHEMA_NAME"; lit "SCHEMA_COLLATION"] (own_rows
    ((lit "SELECT CATALOG_NAME AS SCHEMA_CAT, SCHEMA_NAME, " ++
     lit "DEFAULT_COLLATION_NAME AS SCHEMA_COLLATION FROM INFORMATION_SCHEMA.SCHEMATA " ++
     lit "where SCHEMA_NAME LIKE '") ++ escaped ++ "'") 3).
Definition getSchemaCharset (schemaPattern : str) : method Art :=
  escaped ← escape schemaPattern;
  result_of [lit "SCHEMA_CAT"; lit "SCHEMA_NAME"; lit "SCHEMA_CHARSET"] (own_rows
    ((lit "SELECT CATALOG_NAME AS SCHEMA_CAT, SCHEMA_NAME, " ++
     lit "DEFAULT_CHARACTER_SET_NAME AS SCHEMA_CHARSET FROM INFORMATION_SCHEMA.SCHEMATA " ++
     lit "where SCHEMA_NAME LIKE '") ++ escaped ++ "'") 3).
Definition getTableCollation (schemaPattern tableNamePattern : str) : method Art :=
  escapedSchema ← escape schemaPattern;
  escapedTable ← escape tableNamePattern;
  result_of [lit "TABLE_CAT"; lit "TABLE_SCHEMA"; lit "TABLE_NAME"; lit "TABLE_COLLATION"] (own_rows
    ((lit "SELECT TABLE_CATALOG AS TABLE_CAT, TABLE_SCHEMA AS TABLE_SCHEMA, " ++
     lit "TABLE_NAME, TABLE_COLLATION FROM INFORMATION_SCHEMA.TABLES where TABLE_NAME LIKE '") ++ escapedTable ++ "' " ++ "AND TABLE_SCHEMA LIKE '" ++ escapedSchema ++ "'") 4).
Definition getTableCharset (schemaPattern tableNamePattern : str) : method Art :=
  escapedSchema ← escape schemaPattern;
  escapedTable ← escape tableNamePattern;
  result_of [lit "TABLE_CAT"; lit "TABLE_SCHEMA"; lit "TABLE_NAME"; lit "TABLE_CHARSET"] (own_rows
    ((lit "SELECT t.TABLE_CATALOG AS TABLE_CAT, t.TABLE_SCHEMA AS TABLE_SCHEMA, t.TABLE_NAME, " ++
     lit "c.CHARACTER_SET_NAME AS TABLE_CHARSET FROM INFORMATION_SCHEMA.TABLES t, " ++
     lit "INFORMATION_SCHEMA.COLLATION_CHARACTER_SET_APPLICABILITY c " ++
     lit "WHERE t.TABLE_COLLATION = c.COLLATION_NAME AND t.TABLE_NAME LIKE '") ++ escapedTable ++ "' " ++ "AND t.TABLE_SCHEMA LIKE '" ++ escapedSchema ++ "'") 4).

Definition getUserName : method str :=
  rset ← executeQuery "SELECT USER()";
  with_object rset (
    b ← on_object ResultSet.next;
    if (b : bool) then on_object (ResultSet.getString 1) else mret []).

(** ** Tables *)

Definition table_fields : list str := [lit "TABLE_CAT"; lit "TABLE_SCHEM"; lit "TABLE_NAME"; lit "TABLE_TYPE"; lit "REMARKS"].
Definition tables_query : str :=
  (lit "SELECT TABLE_CATALOG AS TABLE_CAT, TABLE_SCHEMA AS TABLE_SCHEM, TABLE_NAME," ++
     lit "IF(STRCMP(TABLE_TYPE,'BASE TABLE'), " ++
     lit "IF(STRCMP(TABLE_TYPE,'SYSTEM VIEW'), TABLE_TYPE, 'VIEW')," ++
     lit " 'TABLE') AS TABLE_TYPE, TABLE_COMMENT AS REMARKS\n" ++
     lit "FROM INFORMATION_SCHEMA.TABLES\nWHERE TABLE_SCHEMA  LIKE ? AND TABLE_NAME LIKE ?\n" ++
     lit "ORDER BY TABLE_TYPE, TABLE_SCHEMA, TABLE_NAME").

(** The first of the types that is the type of the row. *)
Fixpoint of_type (types : list str) : Method Ps (list (list MyVal)) :=
  match types with
  | [] => mret []
  | t :: types' =>
      s ← ps_getString 4;
      if str_eqb t s then row ← text_values ps_getString (columns_to 5); mret [row]
      else of_type types'
  end.

(** A row of SHOW FULL TABLES. *)
Definition shown_table (schema name type : str) : list MyVal :=
  [MyVal_of_chars "def"; typeString schema; typeString name; MyVal_of_chars type; MyVal_of_chars ""].
Fixpoint shown_of_type (v : Z) (schema : str) (types : list str) : Method Rs (list (list MyVal)) :=
  match types with
  | [] => mret []
  | t :: types' =>
      base ← (if str_eqb t "TABLE" then s ← ResultSet.getString 2; mret (str_eqb s "BASE TABLE")
              else mret false);
      if (base : bool) then
        name ← ResultSet.getString 1; mret [shown_table schema name "TABLE"]
      else
        s ← ResultSet.getString 2;
        if str_eqb t s && (49999 <? v) then
          name ← ResultSet.getString 1; mret [shown_table schema name "VIEW"]
        else shown_of_type v schema types'
  end.

Definition getTables (schemaPattern tableNamePattern : str) (types : list str) : method Art :=
  escapedSchemaPattern ← escape schemaPattern;
  escapedTableNamePattern ← escape tableNamePattern;
  result_of table_fields (
    _ ← load_use_info_schema;
    info ← read use_info_schema; v ← read server_version;
    if info && (49999 <? v) then
      with_prepared tables_query
        (prepared_rows [escapedSchemaPattern; escapedTableNamePattern] (of_type types))
    else
      rs1 ← executeQuery ("SHOW DATABASES LIKE '%" ++ escapedSchemaPattern ++ "'");
      each_result_row rs1 (
        current_schema ← on_object (ResultSet.getString 1);
        on_state (
          rs2 ← executeQuery ("SHOW FULL TABLES FROM `" ++ current_schema ++ "` LIKE '" ++
                              escapedTableNamePattern ++ "'");
          each_result_row rs2 (on_object (shown_of_type v current_schema types))))).

Definition table_types : list (str * Z) :=
  [(lit "TABLE", 32200); (lit "VIEW", 50000); (lit "LOCAL TEMPORARY", 32200)].
Definition getTableTypes : method Art :=
  v ← read server_version;
  mret (Art_new [lit "TABLE_TYPE"]
    (omap (fun t => if snd t <=? v then Some [MyVal_of_chars (fst t)] else None) table_types)).

(** ** Columns *)

Definition column_fields : list str :=
  [lit "TABLE_CAT"; lit "TABLE_SCHEM"; lit "TABLE_NAME"; lit "COLUMN_NAME"; lit "DATA_TYPE";
   lit "TYPE_NAME"; lit "COLUMN_SIZE"; lit "BUFFER_LENGTH"; lit "DECIMAL_DIGITS";
   lit "NUM_PREC_RADIX"; lit "NULLABLE"; lit "REMARKS"; lit "COLUMN_DEF"; lit "SQL_DATA_TYPE";
   lit "SQL_DATETIME_SUB"; lit "CHAR_OCTET_LENGTH"; lit "ORDINAL_POSITION"; lit "IS_NULLABLE";
   lit "SCOPE_CATALOG"; lit "SCOPE_SCHEMA"; lit "SCOPE_TABLE"; lit "SOURCE_DATA_TYPE";
   lit "IS_AUTOINCREMENT"].
Definition columns_query (hasSchema : bool) : outcome str :=
  no_nulls ← my_i_to_a 4 columnNoNulls;
  nullable ← my_i_to_a 4 columnNullable;
  unknown ← my_i_to_a 4 columnNullableUnknown;
  Ok ((lit "SELECT TABLE_CATALOG AS TABLE_CAT, TABLE_SCHEMA AS TABLE_SCHEM, TABLE_NAME, COLUMN_NAME, DATA_TYPE," ++
     lit "CASE " ++
     lit "WHEN LOCATE('unsigned', COLUMN_TYPE) != 0 AND LOCATE('unsigned', DATA_TYPE) = 0 THEN " ++
     lit "  CASE" ++
     lit "    WHEN LOCATE('zerofill', COLUMN_TYPE) != 0 AND LOCATE('zerofill', DATA_TYPE) = 0 THEN CONCAT(UCASE(DATA_TYPE), ' UNSIGNED ZEROFILL')" ++
     lit "    ELSE CONCAT(UCASE(DATA_TYPE), ' UNSIGNED')" ++
     lit "  END " ++
     lit "    ELSE UCASE(DATA_TYPE)" ++
     lit "END AS TYPE_NAME," ++
     lit "CASE " ++
     lit "WHEN LCASE(DATA_TYPE)='year' THEN SUBSTRING(COLUMN_TYPE, 6, 1) -- 'year('=5\n" ++
     lit "WHEN LCASE(DATA_TYPE)='date' THEN 10 " ++
     lit "WHEN LCASE(DATA_TYPE)='time' THEN 8 " ++
     lit "WHEN LCASE(DATA_TYPE)='datetime' THEN 19 " ++
     lit "WHEN LCASE(DATA_TYPE)='timestamp' THEN 19 " ++
     lit "WHEN CHARACTER_MAXIMUM_LENGTH IS NULL THEN NUMERIC_PRECISION " ++
     lit "ELSE CHARACTER_MAXIMUM_LENGTH END AS COLUMN_SIZE, " ++
     lit "'' AS BUFFER_LENGTH," ++
     lit "NUMERIC_SCALE AS DECIMAL_DIGITS," ++
     lit "10 AS NUM_PREC_RADIX," ++
     lit "CASE WHEN IS_NULLABLE='NO' THEN ") ++ no_nulls ++
      (lit " ELSE CASE WHEN IS_NULLABLE='YES' THEN ") ++ nullable ++
      (lit " ELSE ") ++ unknown ++
      (lit " END END AS NULLABLE," ++
     lit "COLUMN_COMMENT AS REMARKS," ++
     lit "COLUMN_DEFAULT AS COLUMN_DEF," ++
     lit "0 AS SQL_DATA_TYPE," ++
     lit "0 AS SQL_DATETIME_SUB," ++
     lit "CHARACTER_OCTET_LENGTH," ++
     lit "ORDINAL_POSITION," ++
     lit "IS_NULLABLE," ++
     lit "NULL AS SCOPE_CATALOG," ++
     lit "NULL AS SCOPE_SCHEMA," ++
     lit "NULL AS SCOPE_TABLE," ++
     lit "NULL AS SOURCE_DATA_TYPE," ++
     lit "IF (EXTRA LIKE '%auto_increment%','YES','NO') AS IS_AUTOINCREMENT " ++
     lit "FROM INFORMATION_SCHEMA.COLUMNS WHERE ") ++
      (if hasSchema then (lit " TABLE_SCHEMA LIKE ? ") : str else (lit " TABLE_SCHEMA = DATABASE() ")) ++
      (lit "AND TABLE_NAME LIKE ? AND COLUMN_NAME LIKE ? " ++
     lit "ORDER BY TABLE_SCHEMA, TABLE_NAME, ORDINAL_POSITION")).

(** A row of the information schema. *)
Definition info_column : Method Ps (list (list MyVal)) :=
  names ← text_values ps_getString [1; 2; 3; 4];
  type ← ps_getString 5;
  type_name ← ps_getString 6;
  column_size ← ps_getInt64 7; buffer_length ← ps_getInt64 8;
  digits ← ps_getInt64 9; radix ← ps_getInt64 10;
  rest ← text_values ps_getString [11; 12; 13; 14; 15; 16; 17; 18; 19; 20; 21; 22; 23];
  mret [names ++ [typeInt (datatype_code (mysql_string_type_to_datatype type)); typeString type_name;
          typeInt column_size; typeInt buffer_length; typeInt digits; typeInt radix] ++ rest].

(** The metadata of a result. *)
Definition rs_metadata (rs : Rs) : Rsm :=
  Rsm_new (match ResultSet.result rs with
           | Some r => Some (res_field r, res_num_fields r)
           | None => None
           end).

(** The columns from [i] on are searched for the one of the row. *)
Definition shown_column (schema table : str) (meta : Rsm) (i : Z) : Method Rs (list MyVal) :=
  name ← ResultSet.getString 1;
  type ← pure (RsMetadata.getColumnType meta i);
  type_name ← pure (RsMetadata.getColumnTypeName meta i);
  column_size ← pure (RsMetadata.getColumnDisplaySize meta i);
  scale ← pure (RsMetadata.getScale meta i);
  nullable ← pure (RsMetadata.isNullable meta i);
  remarks ← ResultSet.getString 9;
  column_default ← ResultSet.getString 6;
  mret [MyVal_of_chars "def"; typeString schema; typeString table; typeString name;
        typeInt (datatype_code type); typeString type_name; typeInt column_size; MyVal_of_chars "";
        typeInt scale; MyVal_of_chars "10"; typeInt nullable; typeString remarks;
        typeString column_default; MyVal_of_chars ""; MyVal_of_chars ""; typeInt column_size;
        typeInt i; MyVal_of_chars (if negb (nullable =? 0) then "YES" else "NO");
        MyVal_of_chars ""; MyVal_of_chars ""; MyVal_of_chars ""; MyVal_of_chars "";
        MyVal_of_chars ""].
Fixpoint find_shown_column (schema table : str) (meta : Rsm) (n : nat) (i : Z)
    : Method Rs (list (list MyVal)) :=
  count ← pure (RsMetadata.getColumnCount meta);
  match n with
  | O => if i <=? count then pure Diverged else mret []
  | S n' =>
      if i <=? count then
        column ← pure (RsMetadata.getColumnName meta i);
        name ← ResultSet.getString 1;
        if str_eqb column name then row ← shown_column schema table meta i; mret [row]
        else find_shown_column schema table meta n' (i + 1)
      else mret []
  end.

(** The columns of a table: a query without rows gives their metadata. *)
Definition shown_columns (schema table escapedColumnNamePattern : str) : method (list (list MyVal)) :=
  rs3 ← executeQuery ("SELECT * FROM " ++ qualified schema table ++ " WHERE 0=1");
  rs4 ← executeQuery ("SHOW FULL COLUMNS FROM " ++ qualified schema table ++ " LIKE '" ++
                      escapedColumnNamePattern ++ "'");
  each_result_row rs4 (on_object (find_shown_column schema table (rs_metadata rs3) fuel 1)).

Definition getColumns (schemaPattern tableNamePattern columnNamePattern : str) : method Art :=
  escapedSchemaPattern ← escape schemaPattern;
  escapedTableNamePattern ← escape tableNamePattern;
  escapedColumnNamePattern ← escape columnNamePattern;
  result_of column_fields (
    _ ← load_use_info_schema;
    info ← read use_info_schema; v ← read server_version;
    if info && (50020 <? v) then
      let hasSchema := negb (size schemaPattern =? 0) in
      query ← pure (columns_query hasSchema);
      with_prepared query (prepared_rows
        ((if hasSchema then [escapedSchemaPattern] else []) ++
         [escapedTableNamePattern; escapedColumnNamePattern]) info_column)
    else
      rs1 ← executeQuery ("SHOW DATABASES LIKE '%" ++ escapedSchemaPattern ++ "'");
      each_result_row rs1 (
        current_schema ← on_object (ResultSet.getString 1);
        on_state (
          rs2 ← executeQuery ("SHOW TABLES FROM `" ++ current_schema ++ "` LIKE '" ++
                              escapedTableNamePattern ++ "'");
          each_result_row rs2 (
            current_table ← on_object (ResultSet.getString 1);
            on_state (shown_columns current_schema current_table escapedColumnNamePattern))))).

(** [getBestRowIdentifier]: the primary key, or else the unique keys without nulls. *)
Definition best_row_fields : list str :=
  [lit "SCOPE"; lit "COLUMN_NAME"; lit "DATA_TYPE"; lit "TYPE_NAME"; lit "COLUMN_SIZE";
   lit "BUFFER_LENGTH"; lit "DECIMAL_DIGITS"; lit "PSEUDO_COLUMN"].
Definition best_row_column (schema table : str) : Method (Art * Mcm) (list (list MyVal)) :=
  columnNamePattern ← on_object (ArtResultSet.getString 4);
  rsCols ← on_state (getColumns schema table columnNamePattern);
  let '(found, rsCols) := ArtResultSet.next rsCols in
  found ← pure found;
  if (found : bool) then
    column ← on_object (ArtResultSet.getString 4);
    values ← pure (text_values ArtResultSet.getString [5; 6; 7; 8; 9] rsCols).1;
    mret [[typeInt bestRowSession; typeString column] ++ values ++ [typeInt bestRowNotPseudo]]
  else mret [].
Definition getBestRowIdentifier (schema table : str) : method Art :=
  result_of best_row_fields (
    rs ← getPrimaryKeys schema table;
    n ← pure (ArtResultSet.rowsCount rs).1;
    rs ← (if n =? 0 then getUniqueNonNullableKeys schema table else mret rs);
    with_object rs (each_row ArtResultSet.next (best_row_column schema table) fuel)).

(** ** Procedures *)

Definition procedure_fields : list str :=
  [lit "PROCEDURE_CAT"; lit "PROCEDURE_SCHEM"; lit "PROCEDURE_NAME"; lit "RESERVERD_1";
   lit "RESERVERD_2"; lit "RESERVERD_3"; lit "REMARKS"; lit "PROCEDURE_TYPE"].
Definition procedures_query (noRes res unknown : str) : str :=
  (lit "SELECT ROUTINE_CATALOG AS PROCEDURE_CAT, ROUTINE_SCHEMA AS PROCEDURE_SCHEM, " ++
     lit "ROUTINE_NAME AS PROCEDURE_NAME, NULL AS RESERVED_1, NULL AS RESERVERD_2, NULL as RESERVED_3," ++
     lit "ROUTINE_COMMENT AS REMARKS, " ++
     lit "CASE WHEN ROUTINE_TYPE = 'PROCEDURE' THEN ") ++ noRes ++ (lit " WHEN ROUTINE_TYPE='FUNCTION' THEN ") ++ res ++ (lit " ELSE ") ++ unknown ++
  (lit " END AS PROCEDURE_TYPE\nFROM INFORMATION_SCHEMA.ROUTINES\n" ++
     lit "WHERE ROUTINE_SCHEMA LIKE ? AND ROUTINE_NAME LIKE ?\n" ++
     lit "ORDER BY ROUTINE_SCHEMA, ROUTINE_NAME").
Definition mysql_proc_query (noRes res unknown : str) : str :=
  (lit "SELECT 'def' AS PROCEDURE_CAT, db as PROCEDURE_SCHEM, " ++
     lit "name AS PROCEDURE_NAME, NULL as RESERVERD_1, NULL as RESERVERD_2, " ++
     lit "NULL AS RESERVERD_3, comment as REMARKS, ") ++ " CASE WHEN TYPE='FUNCTION' THEN " ++ res ++
  " WHEN TYPE='PROCEDURE' THEN " ++ noRes ++ " ELSE " ++ unknown ++
  (lit " END AS PROCEDURE_TYPE FROM mysql.proc WHERE name LIKE ? AND db <=> ? ORDER BY name").

(** A row of SHOW PROCEDURE STATUS. *)
Definition shown_procedure (noRes res : str) : Method (Rs * Mcm) (list (list MyVal)) :=
  schema ← on_object (ResultSet.getString 1);
  name ← on_object (ResultSet.getString 2);
  remarks ← on_object (ResultSet.getString 8);
  type ← on_object (ResultSet.getString 3);
  mret [[MyVal_of_chars "def"; typeString schema; typeString name; MyVal_of_chars "";
         MyVal_of_chars ""; MyVal_of_chars ""; typeString remarks;
         typeString (if str_eqb type "PROCEDURE" then noRes else res)]].

(** What [try] and [catch (SQLException &)] around [executeQuery] of a prepared statement
    leave: [None] when there was an exception. *)
Definition try_prepared {A} (params : list str) (body : Method Ps (list A)) : Method Pst (option (list A)) :=
  _ ← set_strings 1 params;
  rs ← try_sql (PreparedStatement.executeQuery fuel 2);
  match rs with
  | Some rs => rows ← read_prepared fuel body rs; mret (Some rows)
  | None => mret None
  end.

Definition getProcedures (schemaPattern procedureNamePattern : str) : method Art :=
  escapedSchemaPattern ← escape schemaPattern;
  escapedName ← escape procedureNamePattern;
  result_of procedure_fields (
    noRes ← pure (my_i_to_a 4 procedureNoResult);
    res ← pure (my_i_to_a 4 procedureReturnsResult);
    unknown ← pure (my_i_to_a 4 procedureResultUnknown);
    _ ← load_use_info_schema;
    info ← read use_info_schema; v ← read server_version;
    if info && (49999 <? v) then
      info_schema_rows (procedures_query noRes res unknown)
        [escapedSchemaPattern; if size escapedName =? 0 then "%" : str else escapedName] 8
    else if 49999 <? v then
      rows ← with_prepared (mysql_proc_query noRes res unknown)
        (try_prepared [escapedName; escapedSchemaPattern]
          (row ← text_values ps_getString (columns_to 8); mret [row]));
      match rows with
      | Some rows => mret rows
      | None =>
          rs ← executeQuery "SHOW PROCEDURE STATUS"; each_result_row rs (shown_procedure noRes res)
      end
    else mret []).

(** ** Privileges *)

Definition column_privilege_fields : list str :=
  [lit "TABLE_CAT"; lit "TABLE_SCHEM"; lit "TABLE_NAME"; lit "COLUMN_NAME"; lit "GRANTOR";
   lit "GRANTEE"; lit "PRIVILEGE"; lit "IS_GRANTABLE"].
Definition column_privilege (schema table : str) (privToken : str) : Method (Rs * Mcm) (list (list MyVal)) :=
  column ← on_object (ResultSet.getString 1);
  user ← on_state getUserName;
  mret [[MyVal_of_chars "def"; typeString schema; typeString table; typeString column;
         MyVal_of_chars ""; typeString user; typeString privToken; MyVal_of_chars ""]].
Definition getColumnPrivileges (schema table columnNamePattern : str) : method Art :=
  _ ← escape schema;
  _ ← escape table;
  escapedColumnNamePattern ← escape columnNamePattern;
  result_of column_privilege_fields (
    _ ← load_use_info_schema;
    res ← try_query ("SHOW FULL COLUMNS FROM " ++ qualified schema table ++ " LIKE '" ++
                     escapedColumnNamePattern ++ "'");
    each_row_if res (
      privs ← on_object (ResultSet.getString 8);
      each_token (column_privilege schema table) fuel privs 0)).

Definition table_privilege_fields : list str :=
  [lit "TABLE_CAT"; lit "TABLE_SCHEM"; lit "TABLE_NAME"; lit "GRANTOR"; lit "GRANTEE";
   lit "PRIVILEGE"; lit "IS_GRANTABLE"].
Definition table_privilege (schema table : str) (privToken : str) : method (list (list MyVal)) :=
  if find_char privToken "/" =? npos then
    user ← getUserName;
    mret [[MyVal_of_chars "def"; typeString schema; typeString table; MyVal_of_chars "";
           typeString user; typeString privToken; MyVal_of_chars ""]]
  else mret [].
(** The first grant for the table that is not USAGE. *)
Fixpoint granted (grants : list (str * str * str)) (schema table : str) : method (list (list MyVal)) :=
  match grants with
  | [] => mret []
  | (privileges, s, t) :: grants' =>
      if negb (str_eqb privileges "USAGE") && matchTable s t schema table then
        each_token (table_privilege schema table) fuel privileges 0
      else granted grants' schema table
  end.
Definition getTablePrivileges (schemaPattern tableNamePattern : str) : method Art :=
  rs ← executeQuery "SHOW GRANTS";
  cQuote ← getIdentifierQuoteString;
  grants ← each_result_row rs (
    aGrant ← on_object (ResultSet.getString 1);
    g ← pure (read_grant fuel cQuote aGrant); mret [g]);
  tables ← getTables schemaPattern tableNamePattern [lit "TABLE"];
  result_of table_privilege_fields (
    with_object tables (each_row ArtResultSet.next (
      schema ← on_object (ArtResultSet.getString 2);
      table ← on_object (ArtResultSet.getString 3);
      on_state (granted grants schema table)) fuel)).
End metadata.
