(* ===== verification/MetaAnswers.v ===== *)
(** * mysqlconnector jdbc/driver/mysql_metadata.cpp: what does not depend on the data

    The methods of [MySQL_ConnectionMetaData] that answer with a constant, with an empty
    result, by the version of the server or by one of its variables, those that are not
    implemented, and [getSchemaObjects].  Left out are [getDriverVersion] and its parts,
    which the build defines, [getDatabaseProductVersion] and [getConnection]. *)

From S2P Require Import Prelude Cxx Str Unicode Cursor MyVal ArtResultSet Fields RsMetadata.
From S2P Require Import ResultSet ResultBind PsResultSet ParamBind Warnings PreparedStatement.
From S2P Require Import Statement ConnectionOptions Uri Connection SqlStr ForeignKeys TypeInfo.
From S2P Require Import DatabaseMetaData MetaTables.

(** ** Constants *)

Definition HOLD_CURSORS_OVER_COMMIT : Z := 1.
Definition sqlStateSQL99 : Z := 0.

Definition allProceduresAreCallable : bool := false.
Definition allTablesAreSelectable : bool := false.
Definition dataDefinitionCausesTransactionCommit : bool := true.
Definition dataDefinitionIgnoredInTransactions : bool := false.
Definition deletesAreDetected (type_ : Z) : bool := false.
Definition doesMaxRowSizeIncludeBlobs : bool := true.
Definition getCDBCMajorVersion : Z := 3.
Definition getCDBCMinorVersion : Z := 0.
Definition getMaxBinaryLiteralLength : Z := 16777208.
Definition getMaxCatalogNameLength : Z := 32.
Definition getMaxCharLiteralLength : Z := 16777208.
Definition getMaxColumnNameLength : Z := 64.
Definition getMaxColumnsInGroupBy : Z := 64.
Definition getMaxColumnsInIndex : Z := 16.
Definition getMaxColumnsInOrderBy : Z := 64.
Definition getMaxColumnsInSelect : Z := 256.
Definition getMaxColumnsInTable : Z := 512.
Definition getMaxCursorNameLength : Z := 64.
Definition getMaxIndexLength : Z := 256.
Definition getMaxProcedureNameLength : Z := 64.
Definition getMaxSchemaNameLength : Z := 64.
Definition getMaxStatements : Z := 0.
Definition getMaxTableNameLength : Z := 64.
Definition getMaxTablesInSelect : Z := 256.
Definition getMaxUserNameLength : Z := 16.
Definition insertsAreDetected (type_ : Z) : bool := false.
Definition isCatalogAtStart : bool := true.
Definition isReadOnly : bool := false.
Definition nullPlusNonNullIsNull : bool := true.
Definition nullsAreSortedAtEnd : bool := false.
Definition nullsAreSortedHigh : bool := false.
Definition othersDeletesAreVisible (type_ : Z) : bool := false.
Definition othersInsertsAreVisible (type_ : Z) : bool := false.
Definition othersUpdatesAreVisible (type_ : Z) : bool := false.
Definition ownDeletesAreVisible (type_ : Z) : bool := false.
Definition ownInsertsAreVisible (type_ : Z) : bool := false.
Definition ownUpdatesAreVisible (type_ : Z) : bool := false.
Definition storesUpperCaseIdentifiers : bool := false.
Definition storesUpperCaseQuotedIdentifiers : bool := true.
Definition supportsAlterTableWithAddColumn : bool := true.
Definition supportsAlterTableWithDropColumn : bool := true.
Definition supportsANSI92EntryLevelSQL : bool := true.
Definition supportsANSI92FullSQL : bool := false.
Definition supportsANSI92IntermediateSQL : bool := false.
Definition supportsBatchUpdates : bool := true.
Definition supportsCatalogsInDataManipulation : bool := false.
Definition supportsCatalogsInIndexDefinitions : bool := false.
Definition supportsCatalogsInPrivilegeDefinitions : bool := false.
Definition supportsCatalogsInProcedureCalls : bool := false.
Definition supportsCatalogsInTableDefinitions : bool := false.
Definition supportsColumnAliasing : bool := true.
Definition supportsCoreSQLGrammar : bool := true.
Definition supportsDataDefinitionAndDataManipulationTransactions : bool := false.
Definition supportsDataManipulationTransactionsOnly : bool := false.
Definition supportsDifferentTableCorrelationNames : bool := true.
Definition supportsExpressionsInOrderBy : bool := true.
Definition supportsExtendedSQLGrammar : bool := false.
Definition supportsFullOuterJoins : bool := false.
Definition supportsGetGeneratedKeys : bool := true.
Definition supportsGroupBy : bool := true.
Definition supportsGroupByBeyondSelect : bool := true.
Definition supportsGroupByUnrelated : bool := true.
Definition supportsLikeEscapeClause : bool := true.
Definition supportsLimitedOuterJoins : bool := true.
Definition supportsMinimumSQLGrammar : bool := true.
Definition supportsMultipleOpenResults : bool := true.
Definition supportsMultipleResultSets : bool := false.
Definition supportsMultipleTransactions : bool := true.
Definition supportsNamedParameters : bool := false.
Definition supportsNonNullableColumns : bool := true.
Definition supportsOpenCursorsAcrossCommit : bool := false.
Definition supportsOpenCursorsAcrossRollback : bool := false.
Definition supportsOpenStatementsAcrossCommit : bool := false.
Definition supportsOpenStatementsAcrossRollback : bool := false.
Definition supportsOrderByUnrelated : bool := false.
Definition supportsOuterJoins : bool := true.
Definition supportsPositionedDelete : bool := false.
Definition supportsPositionedUpdate : bool := false.
Definition supportsStatementPooling : bool := false.
Definition supportsTableCorrelationNames : bool := true.
Definition supportsTypeConversion : bool := true.
Definition updatesAreDetected (type_ : Z) : bool := false.
Definition usesLocalFilePerTable : bool := false.
Definition usesLocalFiles : bool := false.
(** [2147483647L - 8] *)
Definition getMaxRowSize : Z := INT_MAX - 8.
Definition getResultSetHoldability : Z := HOLD_CURSORS_OVER_COMMIT.
Definition getSQLStateType : Z := sqlStateSQL99.
Definition nullsAreSortedLow : bool := negb nullsAreSortedHigh.
Definition supportsResultSetHoldability (holdability : Z) : bool :=
  holdability =? HOLD_CURSORS_OVER_COMMIT.
Definition supportsResultSetType (type : Z) : bool := type =? TYPE_SCROLL_INSENSITIVE.

(** ** Texts *)

Definition getCatalogSeparator : str := [].
Definition getCatalogTerm : str := "n/a".
Definition getDatabaseProductName : str := "MySQL".
Definition getDriverName : str := "MySQL Connector/C++".
Definition getExtraNameCharacters : str := "#@".
Definition getNumericFunctions : str :=
  (lit "ABS,ACOS,ASIN,ATAN,ATAN2,BIT_COUNT,CEILING,COS," ++
   lit "COT,DEGREES,EXP,FLOOR,LOG,LOG10,MAX,MIN,MOD,PI,POW," ++
   lit "POWER,RADIANS,RAND,ROUND,SIN,SQRT,TAN,TRUNCATE").
Definition getProcedureTerm : str := "procedure".
Definition getSchemaTerm : str := "database".
Definition getSearchStringEscape : str := "\\".
Definition getSQLKeywords : str :=
  (lit "ACCESSIBLE, ADD, ALL," ++
   lit "ALTER, ANALYZE, AND, AS, ASC, ASENSITIVE, BEFORE," ++
   lit "BETWEEN, BIGINT, BINARY, BLOB, BOTH, BY, CALL," ++
   lit "CASCADE, CASE, CHANGE, CHAR, CHARACTER, CHECK," ++
   lit "COLLATE, COLUMN, CONDITION, CONNECTION, CONSTRAINT," ++
   lit "CONTINUE, CONVERT, CREATE, CROSS, CURRENT_DATE," ++
   lit "CURRENT_TIME, CURRENT_TIMESTAMP, CURRENT_USER, CURSOR," ++
   lit "DATABASE, DATABASES, DAY_HOUR, DAY_MICROSECOND," ++
   lit "DAY_MINUTE, DAY_SECOND, DEC, DECIMAL, DECLARE," ++
   lit "DEFAULT, DELAYED, DELETE, DESC, DESCRIBE," ++
   lit "DETERMINISTIC, DISTINCT, DISTINCTROW, DIV, DOUBLE," ++
   lit "DROP, DUAL, EACH, ELSE, ELSEIF, ENCLOSED," ++
   lit "ESCAPED, EXISTS, EXIT, EXPLAIN, FALSE, FETCH," ++
   lit "FLOAT, FLOAT4, FLOAT8, FOR, FORCE, FOREIGN, FROM," ++
   lit "FULLTEXT, GRANT, GROUP, HAVING, HIGH_PRIORITY," ++
   lit "HOUR_MICROSECOND, HOUR_MINUTE, HOUR_SECOND, IF," ++
   lit "IGNORE, IN, INDEX, INFILE, INNER, INOUT," ++
   lit "INSENSITIVE, INSERT, INT, INT1, INT2, INT3, INT4," ++
   lit "INT8, INTEGER, INTERVAL, INTO, IS, ITERATE, JOIN," ++
   lit "KEY, KEYS, KILL, LEADING, LEAVE, LEFT, LIKE," ++
   lit "LOCALTIMESTAMP, LOCK, LONG, LONGBLOB, LONGTEXT," ++
   lit "LOOP, LOW_PRIORITY, MATCH, MEDIUMBLOB, MEDIUMINT," ++
   lit "MEDIUMTEXT, MIDDLEINT, MINUTE_MICROSECOND," ++
   lit "MINUTE_SECOND, MOD, MODIFIES, NATURAL, NOT," ++
   lit "NO_WRITE_TO_BINLOG, NULL, NUMERIC, ON, OPTIMIZE," ++
   lit "OPTION, OPTIONALLY, OR, ORDER, OUT, OUTER," ++
   lit "OUTFILE, PRECISION, PRIMARY, PROCEDURE, PURGE," ++
   lit "RANGE, READ, READS, READ_ONLY, READ_WRITE, REAL," ++
   lit "REFERENCES, REGEXP, RELEASE, RENAME, REPEAT," ++
   lit "REPLACE, REQUIRE, RESTRICT, RETURN, REVOKE, RIGHT," ++
   lit "RLIKE, SCHEMA, SCHEMAS, SECOND_MICROSECOND, SELECT," ++
   lit "SENSITIVE, SEPARATOR, SET, SHOW, SMALLINT, SPATIAL," ++
   lit "SPECIFIC, SQL, SQLEXCEPTION, SQLSTATE, SQLWARNING," ++
   lit "SQL_BIG_RESULT, SQL_CALC_FOUND_ROWS, SQL_SMALL_RESULT," ++
   lit "SSL, STARTING, STRAIGHT_JOIN, TABLE, TERMINATED," ++
   lit "THEN, TINYBLOB, TINYINT, TINYTEXT, TO, TRAILING," ++
   lit "TRIGGER, TRUE, UNDO, UNION, UNIQUE, UNLOCK," ++
   lit "UNSIGNED, UPDATE, USAGE, USE, USING, UTC_DATE," ++
   lit "UTC_TIME, UTC_TIMESTAMP, VALUES, VARBINARY, VARCHAR," ++
   lit "VARCHARACTER, VARYING, WHEN, WHERE, WHILE, WITH," ++
   lit "WRITE, X509, XOR, YEAR_MONTH, ZEROFILL" ++
   lit "GENERAL, IGNORE_SERVER_IDS, MASTER_HEARTBEAT_PERIOD," ++
   lit "MAXVALUE, RESIGNAL, SIGNAL, SLOW").
Definition getStringFunctions : str :=
  (lit "ASCII,BIN,BIT_LENGTH,CHAR,CHARACTER_LENGTH,CHAR_LENGTH,CONCAT," ++
   lit "CONCAT_WS,CONV,ELT,EXPORT_SET,FIELD,FIND_IN_SET,HEX,INSERT," ++
   lit "INSTR,LCASE,LEFT,LENGTH,LOAD_FILE,LOCATE,LOCATE,LOWER,LPAD," ++
   lit "LTRIM,MAKE_SET,MATCH,MID,OCT,OCTET_LENGTH,ORD,POSITION," ++
   lit "QUOTE,REPEAT,REPLACE,REVERSE,RIGHT,RPAD,RTRIM,SOUNDEX," ++
   lit "SPACE,STRCMP,SUBSTRING,SUBSTRING,SUBSTRING,SUBSTRING," ++
   lit "SUBSTRING_INDEX,TRIM,UCASE,UPPER").
Definition getSystemFunctions : str :=
  (lit "DATABASE,USER,SYSTEM_USER," ++
   lit "SESSION_USER,PASSWORD,ENCRYPT,LAST_INSERT_ID,VERSION").
Definition getTimeDateFunctions : str :=
  (lit "DAYOFWEEK,WEEKDAY,DAYOFMONTH,DAYOFYEAR,MONTH,DAYNAME," ++
   lit "MONTHNAME,QUARTER,WEEK,YEAR,HOUR,MINUTE,SECOND,PERIOD_ADD," ++
   lit "PERIOD_DIFF,TO_DAYS,FROM_DAYS,DATE_FORMAT,TIME_FORMAT," ++
   lit "CURDATE,CURRENT_DATE,CURTIME,CURRENT_TIME,NOW,SYSDATE," ++
   lit "CURRENT_TIMESTAMP,UNIX_TIMESTAMP,FROM_UNIXTIME," ++
   lit "SEC_TO_TIME,TIME_TO_SEC").
(** ** Not implemented *)

Definition getProcedureColumns (catalog : str) (schemaPattern : str) (procedureNamePattern : str) (columnNamePattern : str)
    : outcome unit :=
  Throw (MethodNotImplemented "MySQL_ConnectionMetaData::getURL").
Definition getURL : outcome str :=
  Throw (MethodNotImplemented "MySQL_ConnectionMetaData::getURL").
Definition locatorsUpdateCopy : outcome bool :=
  Throw (MethodNotImplemented "MySQL_ConnectionMetaData::locatorsUpdateCopy").
Definition supportsIntegrityEnhancementFacility : outcome bool :=
  Throw (MethodNotImplemented "MySQL_ConnectionMetaData::supportsIntegrityEnhancementFacility").
Definition supportsResultSetConcurrency (type_ : Z) (concurrency : Z) : outcome bool :=
  Throw (MethodNotImplemented "MySQL_ConnectionMetaData::supportsResultSetConcurrency").
(** ** Results that are always the same *)

Section results.
Context `{LongDouble}.
Definition getAttributes : Art :=
  Art_new [lit "TYPE_CAT"; lit "TYPE_SCHEM"; lit "TYPE_NAME"; lit "ATTR_NAME"; lit "DATA_TYPE";
    lit "ATTR_TYPE_NAME"; lit "ATTR_SIZE"; lit "DECIMAL_DIGITS"; lit "NUM_PREC_RADIX";
    lit "NULLABLE"; lit "REMARKS"; lit "ATTR_DEF"; lit "SQL_DATA_TYPE";
    lit "SQL_DATETIME_SUB"; lit "CHAR_OCTET_LENGTH"; lit "ORDINAL_POSITION";
    lit "IS_NULLABLE"; lit "SCOPE_CATALOG"; lit "SCOPE_SCHEMA"; lit "SCOPE_TABLE";
    lit "SOURCE_DATA_TYPE"] [].
Definition getSuperTables : Art :=
  Art_new [lit "TABLE_CAT"; lit "TABLE_SCHEM"; lit "TABLE_NAME"; lit "SUPERTABLE_NAME"] [].
Definition getSuperTypes : Art :=
  Art_new [lit "TYPE_CAT"; lit "TYPE_SCHEM"; lit "TYPE_NAME"; lit "SUPERTYPE_CAT";
    lit "SUPERTYPE_SCHEM"; lit "SUPERTYPE_NAME"] [].
Definition getUDTs : Art :=
  Art_new [lit "TYPE_CAT"; lit "TYPE_SCHEM"; lit "TYPE_NAME"; lit "CLASS_NAME"; lit "DATA_TYPE";
    lit "REMARKS"] [].
Definition getVersionColumns : Art :=
  Art_new [lit "SCOPE"; lit "COLUMN_NAME"; lit "DATA_TYPE"; lit "TYPE_NAME"; lit "COLUMN_SIZE";
    lit "BUFFER_LENGTH"; lit "DECIMAL_DIGITS"; lit "PSEUDO_COLUMN"] [].
Definition getCatalogs : Art := Art_new [lit "TABLE_CAT"] [[MyVal_of_chars "def"]].
Definition getSchemaObjectTypes : Art :=
  Art_new [lit "OBJECT_TYPE"]
    [[MyVal_of_chars "table"]; [MyVal_of_chars "view"]; [MyVal_of_chars "routine"];
     [MyVal_of_chars "trigger"]].
End results.

(** ** The version and the variables of the server *)

Section answers.
Context `{CSession} `{CPrepared} `{!CPrepare _ _ _} `{Session} `{LongDouble}.

Section server.
Context (m : Mcm).
Definition supportsCorrelatedSubqueries : bool := 40100 <=? server_version m.
Definition supportsSchemasInDataManipulation : bool := 32200 <=? server_version m.
Definition supportsSchemasInIndexDefinitions : bool := 32200 <=? server_version m.
Definition supportsSchemasInPrivilegeDefinitions : bool := 32200 <? server_version m.
Definition supportsSchemasInProcedureCalls : bool := 32200 <=? server_version m.
Definition supportsSchemasInTableDefinitions : bool := 32200 <=? server_version m.
Definition supportsSelectForUpdate : bool := 40000 <=? server_version m.
Definition supportsStoredProcedures : bool := 50000 <=? server_version m.
Definition supportsSubqueriesInComparisons : bool := 40100 <=? server_version m.
Definition supportsSubqueriesInExists : bool := 40100 <=? server_version m.
Definition supportsSubqueriesInIns : bool := 40100 <=? server_version m.
Definition supportsSubqueriesInQuantifieds : bool := 40100 <=? server_version m.
Definition supportsTransactionIsolationLevel (level : Z) : bool := 32336 <=? server_version m.
Definition supportsTransactions : bool := 32315 <=? server_version m.
Definition supportsUnion : bool := 40000 <=? server_version m.
Definition supportsUnionAll : bool := 40000 <=? server_version m.
Definition getDatabaseMajorVersion : Z := to_uint (server_version m / 10000).
Definition getDatabaseMinorVersion : Z := to_uint ((server_version m mod 10000) / 100).
Definition getDatabasePatchVersion : Z := to_uint (server_version m mod 100).
Definition getDefaultTransactionIsolation : Z :=
  if 32336 <=? server_version m then TRANSACTION_READ_COMMITTED else TRANSACTION_NONE.
Definition nullsAreSortedAtStart : bool := (40001 <? server_version m) && (server_version m <? 40011).
Definition supportsSavepoints : bool := (40014 <=? server_version m) || (40101 <=? server_version m).

(** [lower_case_table_names.compare(x) == 0] *)
Definition names_are (x : str) : bool := str_eqb (lower_case_table_names m) x.
Definition storesLowerCaseIdentifiers : bool := names_are "1" || names_are "2".
Definition storesLowerCaseQuotedIdentifiers : bool := names_are "1" || names_are "2".
Definition storesMixedCaseIdentifiers : bool := negb (names_are "1" || names_are "2").
Definition storesMixedCaseQuotedIdentifiers : bool := negb (names_are "1" || names_are "2").
(** Without [== 0] the comparisons are true when the texts differ. *)
Definition supportsMixedCaseIdentifiers : bool := negb (negb (names_are "1") || negb (names_are "2")).
Definition supportsMixedCaseQuotedIdentifiers : bool :=
  negb (negb (names_are "1") || negb (names_are "2")).
End server.

Local Abbreviation method := (Method Mcm).

(** [atoi(connection->getSessionVariable(name).c_str())] *)
Definition variable_number (name : str) : method Z :=
  v ← on_connection (getSessionVariable name); pure (atoi v).
Definition getMaxConnections : method Z :=
  n ← variable_number "max_connections"; mret (to_uint n).
Definition getMaxStatementLength : method Z :=
  n ← variable_number "max_allowed_packet";
  if in_int (n - 4) then mret (to_uint (n - 4)) else pure Undefined.
End answers.

(** ** Objects of a schema *)

Section objects.
Context `{CSession} `{CPrepared} `{!CPrepare _ _ _} `{Session} `{LongDouble}.
Context (fuel : nat).
Local Abbreviation method := (Method Mcm).

Definition schemata_select_items : str := (lit "'schema' AS 'OBJECT_TYPE', CATALOG_NAME as 'CATALOG', SCHEMA_NAME as 'SCHEMA', SCHEMA_NAME as 'NAME'").
Definition tables_select_items : str := (lit "'table' AS 'OBJECT_TYPE', TABLE_CATALOG as 'CATALOG', TABLE_SCHEMA as 'SCHEMA', TABLE_NAME as 'NAME'").
Definition views_select_items : str := (lit "'view' AS 'OBJECT_TYPE', TABLE_CATALOG as 'CATALOG', TABLE_SCHEMA as 'SCHEMA', TABLE_NAME as 'NAME'").
Definition routines_select_items : str := (lit "ROUTINE_TYPE AS 'OBJECT_TYPE', ROUTINE_CATALOG as 'CATALOG', ROUTINE_SCHEMA as 'SCHEMA', ROUTINE_NAME as 'NAME'").
Definition triggers_select_items : str := (lit "'trigger' AS 'OBJECT_TYPE', TRIGGER_CATALOG as 'CATALOG', TRIGGER_SCHEMA as 'SCHEMA', TRIGGER_NAME as 'NAME'").

(** The condition of a query: on the schema, the object and the table of a trigger. *)
Definition predicate_mediator (conditions : bool) (name : str) : str :=
  (if conditions then " AND " : str else " WHERE ") ++ "'" ++ name ++ "'=".
Definition where_clause (schema_condition name_column : str) (schema object : str) : str :=
  (if 0 <? size schema then schema_condition ++ schema ++ "' " else []) ++
  (if 0 <? size object then predicate_mediator (0 <? size schema) object ++ name_column else []).
Definition triggers_where_clause (schema object table : str) : str :=
  where_clause " WHERE trigger_schema = '" "TRIGGER_NAME" schema object ++
  (if 0 <? size table then
     predicate_mediator ((0 <? size schema) || (0 <? size object)) table ++ "EVENT_OBJECT_TABLE"
   else []).

Definition objects_query (objectType schema object table : str) : outcome str :=
  let schemata := where_clause " WHERE schema_name = '" "SCHEMA_NAME" schema object in
  let tables := where_clause " WHERE table_type<>'VIEW' AND table_schema = '" "TABLE_NAME" schema object in
  let views := where_clause " WHERE table_schema = '" "TABLE_NAME" schema object in
  let routines := where_clause " WHERE routine_schema = '" "ROUTINE_NAME" schema object in
  let triggers := triggers_where_clause schema object table in
  if size objectType =? 0 then
    Ok ("SELECT " ++ tables_select_items ++ " FROM information_schema.tables " ++ tables ++
        "UNION SELECT " ++ views_select_items ++ " FROM information_schema.views " ++ views ++
        "UNION SELECT " ++ routines_select_items ++ " FROM information_schema.routines " ++ routines ++
        "UNION SELECT " ++ triggers_select_items ++ " FROM information_schema.triggers " ++ triggers)
  else if str_eqb objectType "schema" then
    Ok ("SELECT " ++ schemata_select_items ++ " FROM information_schema.schemata" ++ schemata)
  else if str_eqb objectType "table" then
    Ok ("SELECT " ++ tables_select_items ++ " FROM information_schema.tables" ++ tables)
  else if str_eqb objectType "view" then
    Ok ("SELECT " ++ views_select_items ++ " FROM information_schema.views" ++ views)
  else if str_eqb objectType "routine" then
    Ok ("SELECT " ++ routines_select_items ++ " FROM information_schema.routines" ++ routines)
  else if str_eqb objectType "trigger" then
    Ok ("SELECT " ++ triggers_select_items ++ " FROM information_schema.triggers" ++ triggers)
  else Throw (SqlInvalidArgument "MySQLMetadata::getSchemaObjects: invalid 'objectType'").

(** [quoted_definer]: quotes before and after the first at sign, and around all. *)
Definition quote_definer (definer : str) : str :=
  let i := find definer "@" in
  let quoted :=
    if negb (i =? npos) then
      take (Z.to_nat i) definer ++ "`@`" ++ drop (Z.to_nat (i + 1)) definer
    else definer in
  "`" ++ quoted ++ "`".

(** The statement that creates a trigger. *)
Definition trigger_ddl (definer schema name timing event event_schema event_table statement : str) : str :=
  "CREATE\nDEFINER=" ++ quote_definer definer ++ "\nTRIGGER " ++ qualified schema name ++
  "\n" ++ timing ++ " " ++ event ++ " ON " ++ qualified event_schema event_table ++
  "\nFOR EACH ROW\n" ++ statement ++ "\n".

Definition triggers_query (schema object table : str) : str :=
  "SELECT " ++ triggers_select_items ++
  (lit ", EVENT_MANIPULATION, EVENT_OBJECT_SCHEMA, EVENT_OBJECT_TABLE, ACTION_ORDER, " ++
   lit "\tACTION_CONDITION, ACTION_STATEMENT, ACTION_ORIENTATION, ACTION_TIMING, DEFINER" ++
   lit "\tFROM information_schema.triggers ") ++
  triggers_where_clause schema object table.

(** [trigger_name_map] and [trigger_ddl_map] *)
Definition Triggers : Type := gmap str (str * str).
Definition trigger_rows : Method (Rs * Mcm) (list (str * (str * str))) :=
  let column name := on_object (ResultSet.findColumn name) in
  let text i := on_object (ResultSet.getString i) in
  let named name := on_object (ResultSet.getString_label name) in
  event_manipulation_index ← column "EVENT_MANIPULATION";
  event_object_schema_index ← column "EVENT_OBJECT_SCHEMA";
  event_object_table_index ← column "EVENT_OBJECT_TABLE";
  action_statement_index ← column "ACTION_STATEMENT";
  action_timing_index ← column "ACTION_TIMING";
  definer_index ← column "DEFINER";
  each_row ResultSet.next (
    definer ← text definer_index;
    schema ← named "schema"; name ← named "name";
    timing ← text action_timing_index; event ← text event_manipulation_index;
    event_schema ← text event_object_schema_index; event_table ← text event_object_table_index;
    statement ← text action_statement_index;
    mret [(qualified schema name,
           (event_table ++ "." ++ name,
            trigger_ddl definer schema name timing event event_schema event_table statement))]) fuel.
(** A later row replaces one with the same key. *)
Definition triggers_of (rows : list (str * (str * str))) : Triggers :=
  foldl (fun t row => <[row.1 := row.2]> t) ∅ rows.
Definition load_triggers (schema object table : str) : method Triggers :=
  rs ← executeQuery (triggers_query schema object table);
  rows ← with_object rs trigger_rows;
  mret (triggers_of rows).

(** The column and the query of the statement that creates an object; no query for a
    trigger. *)
Definition ddl_source (obj_type schema name : str) : outcome (str * str) :=
  if str_eqb obj_type "schema" then Ok ("Create Database" : str, "SHOW CREATE SCHEMA `" ++ name ++ "`")
  else if str_eqb obj_type "table" then
    Ok ("Create Table" : str, "SHOW CREATE TABLE " ++ qualified schema name)
  else if str_eqb obj_type "view" then
    Ok ("Create View" : str, "SHOW CREATE VIEW " ++ qualified schema name)
  else if str_eqb obj_type "PROCEDURE" then
    Ok ("Create Procedure" : str, "SHOW CREATE PROCEDURE " ++ qualified schema name)
  else if str_eqb obj_type "FUNCTION" then
    Ok ("Create Function" : str, "SHOW CREATE FUNCTION " ++ qualified schema name)
  else if str_eqb obj_type "trigger" then Ok ([], [])
  else Throw (SqlInvalidArgument
    "MySQL_DatabaseMetaData::getSchemaObjects: invalid OBJECT_TYPE returned from query").

(** The text of the column, which is that of a view for views listed as tables. *)
Definition read_ddl (obj_type ddl_column : str) : Method (Rs * Mcm) str :=
  _ ← on_object ResultSet.next;
  colIdx ← on_object (ResultSet.findColumn ddl_column);
  colIdx ← (if (colIdx =? 0) && str_eqb obj_type "table"
            then on_object (ResultSet.findColumn "Create View") else mret colIdx);
  on_object (ResultSet.getString colIdx).
Definition object_ddl (triggers : Triggers) (obj_type schema name : str) (source : str * str) : method str :=
  o ← try_sql (
    if str_eqb obj_type "trigger" then
      mret (match triggers !! qualified schema name with Some t => t.2 | None => [] end)
    else rs ← executeQuery source.2; with_object rs (read_ddl obj_type source.1));
  mret (default [] o).

Definition object_row (triggers : Triggers) (includingDdl : bool) (type_index catalog_index schema_index name_index : Z)
    : Method (Rs * Mcm) (list (list MyVal)) :=
  obj_type ← on_object (ResultSet.getString type_index);
  schema ← on_object (ResultSet.getString schema_index);
  name ← on_object (ResultSet.getString name_index);
  catalog ← on_object (ResultSet.getString catalog_index);
  source ← pure (ddl_source obj_type schema name);
  ddl ← (if includingDdl then ddl ← on_state (object_ddl triggers obj_type schema name source); mret (typeString ddl)
         else mret (MyVal_of_chars ""));
  mret [[if str_eqb obj_type "PROCEDURE" || str_eqb obj_type "FUNCTION" then MyVal_of_chars "routine"
         else typeString obj_type;
         typeString catalog; typeString schema;
         typeString (if str_eqb obj_type "trigger"
                     then match triggers !! qualified schema name with Some t => t.1 | None => [] end
                     else name);
         ddl]].

Definition getSchemaObjects (schemaName objectType : str) (includingDdl : bool) (objectName contextTableName : str)
    : method Art :=
  schema ← escape schemaName;
  object ← escape objectName;
  table ← escape contextTableName;
  result_of [lit "OBJECT_TYPE"; lit "CATALOG"; lit "SCHEMA"; lit "NAME"; lit "DDL"] (
    query ← pure (objects_query objectType schema object table);
    native_rs ← executeQuery query;
    with_object native_rs (
      type_index ← on_object (ResultSet.findColumn "OBJECT_TYPE");
      catalog_index ← on_object (ResultSet.findColumn "CATALOG");
      schema_index ← on_object (ResultSet.findColumn "SCHEMA");
      name_index ← on_object (ResultSet.findColumn "NAME");
      triggers ← (if str_eqb objectType "trigger" || (size objectType =? 0)
                  then on_state (load_triggers schema object table) else mret ∅);
      each_row ResultSet.next
        (object_row triggers includingDdl type_index catalog_index schema_index name_index) fuel)).
End objects.
