(* ===== verification/Catalog.v ===== *)
(** * The metadata of a database: what is read back

    What [MySQL_ConnectionMetaData] reports of what a server prints: the foreign keys of a
    table, the privileges of a user, the types of columns and the creation of triggers. *)

From S2P Require Import Prelude Cxx Str Cursor MyVal ArtResultSet Fields RsMetadata.
From S2P Require Import ResultSet ResultBind PsResultSet ParamBind Warnings PreparedStatement.
From S2P Require Import Statement ConnectionOptions Uri Connection ConnectionInit Server OpenConnection.
From S2P Require Import SqlStr ForeignKeys TypeInfo DatabaseMetaData MetaTables MetaAnswers.
From S2P Require Import Client Statements Prepared Sessions Connector.

(** ** Imported keys *)

(** The code JDBC gives a rule. *)
Definition rule_code (x : action) : Z :=
  match x with
  | Restrict => importedKeyRestrict
  | Cascade => importedKeyCascade
  | SetNull => importedKeySetNull
  | NoAction => importedKeyNoAction
  | SetDefault => importedKeySetDefault
  end.

(** The row JDBC gives a pair of fields of a foreign key: the schema and the table
    referenced, which is in the schema of the key unless the key names another one. *)
Definition key_row `{LongDouble} (schema table : str) (k : foreign_key) (i : nat) (fields : str * str)
    : list MyVal :=
  [MyVal_of_chars "def"; typeString (default schema (fk_schema k)); typeString (fk_table k);
   typeString fields.1; MyVal_of_chars ""; typeString schema; typeString table;
   typeString fields.2; typeInt (Z.of_nat i + 1);
   typeInt (no_or importedKeyNoAction rule_code (fk_update k));
   typeInt (no_or importedKeyNoAction rule_code (fk_delete k));
   typeString (fk_name k); MyVal_of_chars "PRIMARY"; typeInt importedKeyNotDeferrable].
Definition key_rows `{LongDouble} (schema table : str) (k : foreign_key) : list (list MyVal) :=
  imap (key_row schema table k) (zip (fk_references k) (fk_columns k)).

(** The keys that are reported as they are: the table referenced is in the schema of the
    key, which is not written out, and no rule is SET DEFAULT. *)
Definition reported_key (k : foreign_key) : Prop :=
  fk_schema k = None /\ fk_delete k <> Some SetDefault /\ fk_update k <> Some SetDefault.

Section keys.
Context `{LongDouble} (schema table : str) (k : foreign_key) (Hk : reported_key k).

Lemma rule_code_read d : d <> Some SetDefault ->
  no_or importedKeyNoAction action_code d = no_or importedKeyNoAction rule_code d.
Proof using. by destruct d as [[]|]. Qed.

Lemma read_row r f i : imported_row schema table (key_read k) r f (Z.of_nat i + 1) = key_row schema table k i (r, f).
Proof using Hk.
  destruct Hk as (Es & Ed & Eu).
  unfold imported_row, key_row, key_read, add_action, add_fields, add_name.
  cbn [constraint_name keywords_names referenced_fields update_cascade fst snd].
  rewrite !lookup_insert_eq, lookup_insert_ne, lookup_insert_eq by done.
  by rewrite Es, (rule_code_read _ Ed), (rule_code_read _ Eu).
Qed.

Lemma read_rows rs fs start :
  Z.of_nat start + Z.of_nat (length rs) < 2 ^ 32 ->
  imported_rows schema table (key_read k) rs fs (Z.of_nat start) =
    imap (fun i => key_row schema table k (start + i)) (zip rs fs).
Proof using Hk.
  revert fs start. induction rs as [|r rs IH]; intros [|f fs] start Hl; try done.
  cbn [imported_rows zip zip_with imap length] in *. rewrite Z.mod_small by lia.
  rewrite read_row, Nat.add_0_r. f_equal.
  replace (Z.of_nat start + 1) with (Z.of_nat (Datatypes.S start)) by lia.
  rewrite (IH fs (Datatypes.S start)) by lia. apply imap_ext. intros i x _. simpl. f_equal. lia.
Qed.

Lemma read_references : default [] (referenced_fields (key_read k) !! lit "REFERENCES") = fk_references k.
Proof using.
  unfold key_read, add_action, add_fields, add_name. cbn [referenced_fields].
  by rewrite lookup_insert_eq, lookup_insert_ne, lookup_empty by done.
Qed.
Lemma read_foreign : default [] (referenced_fields (key_read k) !! lit "FOREIGN KEY") = fk_columns k.
Proof using.
  unfold key_read, add_action, add_fields, add_name. cbn [referenced_fields].
  by rewrite lookup_insert_ne, lookup_insert_eq, lookup_empty by done.
Qed.

(** The rows of the key, which sorting leaves in their order. *)
Lemma key_rows_read :
  (length (fk_references k) <= 9)%nat ->
  list_sort compareImportedKeys (rows_of_key schema table (key_read k)) = Ok (key_rows schema table k).
Proof using Hk.
  intros Hl. unfold rows_of_key. rewrite read_references, read_foreign, short_rows_sorted by done.
  f_equal. apply (read_rows _ _ 0). lia.
Qed.
End keys.

Lemma quote_char_of mode : quote_char (quote_of mode).
Proof. unfold quote_of. by destruct (negb _). Qed.


(** A connection to a server in memory that gives texts in two columns. *)
Definition text_pair : list field := [
  simple_field "name" MYSQL_TYPE_VAR_STRING 0 64; simple_field "value" MYSQL_TYPE_VAR_STRING 0 65535].
Definition replies (l : list (str * crow)) (q : str) : list answer :=
  match filter (fun x => q = x.1) l with x :: _ => [Rows [x.2]] | [] => [Count 0] end.
Definition no_statements l : CPrepare _ (server_connection text_pair (replies l)) client_stmt := {|
  conn_stmt_init _ := None; stmt_prepare s _ := (1, s);
|}.
Definition open_catalog l : @Mcm _ (server_connection text_pair (replies l)) :=
  MkMcm (set_info_schema false (set_valid true (Cn_data (fresh text_pair (replies l))))) ∅ 50700 "0" true.

Lemma open_catalog_at l :
  serving_meta _ _ _ (server_answers text_pair (replies l)) (open_catalog l) [].
Proof. split; [|done]. split; try done. by eexists. Qed.

Lemma text_reply l q (r : crow) value :
  replies l q = [Rows [r]] -> text_of 2 r = value -> length r = 2%nat ->
  text_answer _ _ _ (server_answers text_pair (replies l)) q 2 value.
Proof.
  intros Hq Hv Hl. exists r, []. split; [done|]. split; [done|]. split; [rewrite Hl; lia|].
  split; [by vm_compute|]. by intros s _.
Qed.

(** A table of orders, with a key of two fields. *)
Definition mode_query : str := "SHOW SESSION VARIABLES LIKE 'SQL_MODE'".
Definition mode_row : crow := [Some ("sql_mode" : str); Some ("STRICT_TRANS_TABLES" : str)].
Definition shop_key : foreign_key :=
  ForeignKey "of_line" [lit "shop"; lit "line"] None "lines" [lit "shop_id"; lit "no"] (Some Cascade) (Some NoAction).
Definition orders_start : str :=
  "CREATE TABLE `orders` (\n  `shop` int,\n  `line` int,\n  KEY `x` (`shop`,`line`),\n ".
Definition orders_text : str := orders_start ++ key_text "`" 1 shop_key ++ "\n) ENGINE=InnoDB".
Definition orders_replies : list (str * crow) := [
  ("SHOW CREATE TABLE `shop`.`orders`" : str, [Some ("orders" : str); Some orders_text]);
  (mode_query, mode_row)].


(** The key is misreported otherwise: of a table in another schema only the schema is read,
    as if it were the table, and SET DEFAULT is read as SET NULL. *)
Lemma other_schema_misread `{LongDouble} (schema table d : str) (k : foreign_key) r f i :
  fk_schema k = Some d ->
  take 3 (imported_row schema table (key_read k) r f i) =
    [MyVal_of_chars "def"; typeString schema; typeString d].
Proof.
  intros E. unfold imported_row, key_read, add_action, add_fields, add_name.
  cbn [keywords_names take]. by rewrite lookup_insert_eq, E.
Qed.
Lemma set_default_misread : action_code SetDefault = rule_code SetNull.
Proof. done. Qed.

(** ** A table with more keys *)

(** A key with other rules. *)
Definition with_rules (d u : option action) (k : foreign_key) : foreign_key :=
  ForeignKey (fk_name k) (fk_columns k) (fk_schema k) (fk_table k) (fk_references k) d u.

(** The text of a key up to the bracket that closes its references. *)
Lemma key_head_text quote blanks k :
  exists head, key_text quote blanks (with_rules None None k) = head ++ [")"%char] /\
    key_text quote blanks k =
      head ++ ")"%char :: on_text "ON DELETE" (fk_delete k) ++ on_text "ON UPDATE" (fk_update k).
Proof.
  unfold key_text, bracket. cbn [with_rules fk_name fk_columns fk_schema fk_table fk_references fk_delete fk_update on_text].
  set (ls := listing _ _ (fk_references k)). change ("("%char :: ls ++ [")"%char]) with (("("%char :: ls) ++ [")"%char]).
  rewrite !app_nil_r. eexists. split; [by rewrite !app_assoc|]. rewrite <- !app_assoc. done.
Qed.

(** C36: only the first foreign key of a table is read, and its rules are searched to the
    end of the text: when it has no ON DELETE rule and a later key has one, the rules of
    the later key are reported for the first one. *)
Theorem later_rules_reported (quote : ascii) (blanks : nat) (k1 k2 : foreign_key) (pre sep rest : str)
    (x : action) :
  let def := pre ++ key_text quote blanks k1 ++ sep ++ key_text quote blanks k2 ++ rest in
  quote_char quote -> key_ok quote k1 -> fk_delete k1 = None -> fk_delete k2 = Some x ->
  find_nat "ON DELETE" (on_text "ON UPDATE" (fk_update k1) ++ sep ++
    key_text quote blanks (with_rules None None k2)) = None ->
  find_nat "CONSTRAINT" pre = None -> apart "ON UPDATE" rest -> size def < npos - 16 ->
  exists pos, constraint_pos def = Some pos /\
    parse_constraint def [quote] pos = Ok (key_read (with_rules (fk_delete k2) (fk_update k2) k1)).
Proof.
  intros def Hq Hk Hd1 Hd2 Hm Hpre Hr Hn.
  destruct (key_head_text quote blanks k2) as (head & E & E2). rewrite E in Hm.
  set (tail := sep ++ key_text quote blanks k2 ++ rest) in *.
  exists (size (pre ++ " CONSTRAINT")).
  split; [exact (constraint_found quote blanks k1 def pre tail eq_refl Hn Hpre)|].
  rewrite (later_actions_taken quote Hq blanks k1 Hk def pre tail eq_refl Hn (sep ++ head) x (fk_update k2) rest
    Hd1); [by rewrite Hd2| | |done].
  - unfold tail. rewrite E2, Hd2. rewrite <- !app_assoc. cbn [app]. by rewrite <- ?app_assoc.
  - revert Hm. rewrite !app_assoc. lits. rewrite find_nat_split; [|by vm_compute; set_solver].
    by destruct (find_nat _ (_ ++ head)).
Qed.

Definition second_key : foreign_key :=
  ForeignKey "of_customer" [lit "customer"] (Some (lit "crm")) "people" [lit "id"] (Some SetNull) (Some Cascade).
Lemma later_rules_reported_witness :
  exists pos, constraint_pos (orders_start ++ key_text "`" 1 (with_rules None None shop_key) ++ ",\n " ++
      key_text "`" 1 second_key ++ "\n)") = Some pos /\
    parse_constraint (orders_start ++ key_text "`" 1 (with_rules None None shop_key) ++ ",\n " ++
      key_text "`" 1 second_key ++ "\n)") ["`"%char] pos =
      Ok (key_read (with_rules (Some SetNull) (Some Cascade) (with_rules None None shop_key))).
Proof.
  apply (later_rules_reported "`" 1 (with_rules None None shop_key) second_key orders_start ",\n " "\n)" SetNull);
    try done.
  - split; repeat (split || constructor); try done; by vm_compute; set_solver.
  - by vm_compute; set_solver.
Defined.

(** ** Privileges *)

(** A name in SHOW GRANTS: in quotes, or a star for all. *)
Definition granted_name (quote : ascii) (x : option str) : str :=
  match x with Some x => quoted quote x | None => "*" end.
Definition grant_text (quote : ascii) (privs : str) (schema table : option str) (tl : str) : str :=
  "GRANT " ++ privs ++ " ON " ++ granted_name quote schema ++ "." ++ granted_name quote table ++ tl.
Definition plain_or_all (quote : ascii) (x : option str) : Prop :=
  match x with Some x => plain_name quote x | None => True end.

Section grants.
Context (quote : ascii) (Hq : quote_char quote) (Hstar : quote <> "*"%char) (fuel : nat).

Lemma closing_quote_ok x b :
  plain_name quote x -> size (quoted quote x ++ b) < npos ->
  closing_quote (Datatypes.S fuel) (quoted quote x ++ b) [quote] 1 = Ok (1 + size x).
Proof using Hq.
  clear Hstar. intros [Hx Hb] Hn. unfold quoted in *. cbn [closing_quote].
  assert (Hf : find_from ((quote :: x ++ [quote]) ++ b) [quote] 1 = 1 + size x).
  { replace ((quote :: x ++ [quote]) ++ b) with ([quote] ++ x ++ quote :: b)
      by (cbn [app]; by rewrite <- app_assoc).
    change 1 with (size [quote]) at 1. by apply find_from_app, find_char_app. }
  rewrite Hf. replace (1 + size x =? npos) with false by (symmetry; apply Z.eqb_neq; size_lia).
  rewrite to_size_t_small by size_lia.
  destruct Hq as (Hq1 & _). destruct x as [|c x _] using rev_ind.
  - change (1 + size [] - 1) with 0. cbn [app]. rewrite str_idx_cons. simpl. by rewrite bool_decide_false.
  - replace ((quote :: (x ++ [c]) ++ [quote]) ++ b) with ((quote :: x) ++ c :: quote :: b)
      by (cbn [app]; by rewrite <- !app_assoc).
    rewrite str_idx_at by size_lia. cbn [mbind outcome_bind].
    rewrite bool_decide_false; [done|]. intros ->. set_solver.
Qed.

Lemma grant_name_ok x b :
  plain_or_all quote x -> size (granted_name quote x ++ b) < npos ->
  grant_name (Datatypes.S fuel) [quote] (granted_name quote x ++ b) =
    Ok (default ("*" : str) x, (fun y : str => 1 + size y) <$> x).
Proof using Hq Hstar.
  intros Hx Hn. unfold grant_name. destruct x as [x|]; cbn [granted_name] in *.
  - replace (str_idx (quoted quote x ++ b) 0) with (Ok quote) by (symmetry; apply str_idx_cons).
    cbn [mbind outcome_bind]. rewrite bool_decide_true by done.
    rewrite closing_quote_ok by done. cbn [mbind outcome_bind].
    rewrite to_size_t_small by (unfold quoted in Hn; revert Hn; size_lia).
    replace (substr (quoted quote x ++ b) 1 (1 + size x - 1)) with (Ok x); [done|].
    symmetry. apply (substr_quoted quote [] x b); size_lia.
  - change ("*" ++ b) with ("*"%char :: b). by rewrite str_idx_cons.
Qed.

Lemma granted_name_passed x :
  size (granted_name quote x) + 1 =
    match (fun y : str => 1 + size y) <$> x with Some pos => pos + 1 + 1 | None => 1 + 1 end.
Proof using. destruct x; simpl; [unfold quoted; size_lia|done]. Qed.

Lemma replace_front a b n : n = size a -> replace_at (a ++ b) 0 n [] = Ok b.
Proof using.
  intros ->. unfold replace_at. rewrite (proj2 (Z.ltb_ge _ _)) by apply size_nonneg. f_equal.
  cbn [take app]. rewrite Z.min_l by size_lia. unfold size.
  by rewrite Z.add_0_l, Nat2Z.id, drop_app_length.
Qed.

(** The privileges that are known. *)
Definition told (privs : str) : str := if decide (privs = "ALL PRIVILEGES") then strAllPrivs else privs.

Lemma read_told (privs b : str) :
  privs = "ALL PRIVILEGES" \/ find_nat "ALL PRIVILEGES" (privs ++ b) = None ->
  (let pos := find (privs ++ b) "ALL PRIVILEGES" in
   if negb (pos =? npos) then replace_at (privs ++ b) pos 14 strAllPrivs else Ok (privs ++ b)) =
  Ok (told privs ++ b).
Proof using.
  unfold told, find. intros [->|H].
  - rewrite find_nat_here, decide_True by done. cbn [negb Z.of_nat Z.eqb]. unfold replace_at.
    rewrite (proj2 (Z.ltb_ge _ _)) by apply size_nonneg. rewrite Z.min_l; [done|].
    rewrite size_app. change (size "ALL PRIVILEGES") with 14. pose proof (size_nonneg b). lia.
  - rewrite H. rewrite decide_False; [done|]. intros ->. by rewrite find_nat_here in H.
Qed.

(** The privileges and what is behind them. *)
Lemma read_grant_names (privs names : str) n :
  find_nat "ON" privs = None ->
  privs = "ALL PRIVILEGES" \/ find_nat "ALL PRIVILEGES" (privs ++ " ON " ++ names) = None ->
  size ("GRANT " ++ privs ++ " ON " ++ names) < npos - 100 ->
  read_grant n [quote] ("GRANT " ++ privs ++ " ON " ++ names) =
    ('(schema, pos) ← grant_name n [quote] names;
     rest ← replace_at names 0 (match pos with Some pos => to_size_t (pos + 1 + 1) | None => 1 + 1 end) [];
     '(table, _) ← grant_name n [quote] rest;
     Ok (told privs, schema, table)).
Proof using.
  clear Hq Hstar. intros Ho Ha Hn. unfold read_grant.
  rewrite (replace_front "GRANT ") by done. cbn [mbind outcome_bind].
  rewrite read_told by done. cbn [mbind outcome_bind]. cbv zeta.
  assert (Ho' : find_nat "ON" (told privs) = None) by (unfold told; by case_decide).
  assert (Hsz : size (told privs) <= size privs + 60).
  { unfold told. case_decide as E; [subst privs; by vm_compute|lia]. }
  set (p := told privs) in *.
  assert (Hf : find_nat "ON" (p ++ " ON " ++ names) = Some (length p + 1)%nat).
  { revert Ho'. lits. intros Ho'. apply find_nat_after; [by vm_compute; set_solver|done|].
    by apply (find_nat_next " "%char "O"%char ["N"%char] (" "%char :: names)). }
  assert (Hnames : size p + 4 + size names < npos - 40) by (revert Hn; lits; size_lia).
  unfold find. rewrite Hf.
  replace (Z.of_nat (length p + 1)) with (size p + 1) by (unfold size; lia).
  pose proof (size_nonneg names). pose proof (size_nonneg p). rewrite !to_size_t_small by (unfold npos in *; lia).
  rewrite (substr_prefix p _ (size p + 1 - 1)) by lia. cbn [mbind outcome_bind].
  replace (substr (p ++ " ON " ++ names) (size p + 1 + 3) npos) with (Ok names); [done|].
  rewrite app_assoc. replace (size p + 1 + 3) with (size (p ++ " ON ")) by (lits; size_lia).
  symmetry. apply substr_from_app. lia.
Qed.

Lemma read_grant_ok (privs : str) schema table tl :
  plain_or_all quote schema -> plain_or_all quote table -> find_nat "ON" privs = None ->
  privs = "ALL PRIVILEGES" \/
    find_nat "ALL PRIVILEGES" (drop 6 (grant_text quote privs schema table tl)) = None ->
  size (grant_text quote privs schema table tl) < npos - 100 ->
  read_grant (Datatypes.S fuel) [quote] (grant_text quote privs schema table tl) =
    Ok (told privs, default ("*" : str) schema, default ("*" : str) table).
Proof using Hq Hstar.
  intros Hs Ht Ho Ha Hn. unfold grant_text in *. rewrite read_grant_names by done.
  rewrite (grant_name_ok schema) by (done || (revert Hn; lits; size_lia)). cbn [mbind outcome_bind].
  rewrite app_assoc, (replace_front (granted_name quote schema ++ ".")).
  2:{ rewrite size_app. change (size ".") with 1. rewrite granted_name_passed.
      destruct schema as [x|]; simpl; [|done]. apply to_size_t_small.
      revert Hn. unfold granted_name, quoted. lits. size_lia. }
  cbn [mbind outcome_bind]. rewrite (grant_name_ok table); [done|done|].
  revert Hn. lits. size_lia.
Qed.

(** Before a backslash that ends a name the search stays at its closing quote. *)
Lemma closing_quote_stuck s x b n :
  s = x ++ "\"%char :: quote :: b -> size s < npos -> closing_quote n s [quote] (size x + 1) = Diverged.
Proof using.
  clear. intros E Hn. induction n as [|n IH]; [done|]. cbn [closing_quote].
  assert (E' : s = (x ++ ["\"%char]) ++ [quote] ++ b) by by rewrite E, <- app_assoc.
  assert (Hf : find_from s [quote] (size x + 1) = size x + 1).
  { rewrite E'. replace (size x + 1) with (size (x ++ ["\"%char])) by size_lia.
    rewrite (find_from_app _ _ _ 0); [lia|]. apply find_nat_here. }
  rewrite Hf. rewrite E in Hn. rewrite (proj2 (Z.eqb_neq (size x + 1) npos)) by size_lia.
  rewrite to_size_t_small by size_lia. replace (size x + 1 - 1) with (size x) by lia.
  rewrite E at 1. rewrite str_idx_mid. cbn [mbind outcome_bind]. rewrite bool_decide_true by done.
  exact IH.
Qed.

Lemma grant_name_stuck x b n :
  (quote ∉ x) -> size (quoted quote (x ++ ["\"%char]) ++ b) < npos ->
  grant_name n [quote] (quoted quote (x ++ ["\"%char]) ++ b) = Diverged.
Proof using Hq Hstar.
  intros Hx Hn. set (s := quoted quote (x ++ ["\"%char]) ++ b) in *.
  assert (E : s = (quote :: x) ++ "\"%char :: quote :: b)
    by (unfold s, quoted; cbn [app]; by rewrite <- !app_assoc).
  unfold grant_name. replace (str_idx s 0) with (Ok quote) by (symmetry; apply str_idx_cons).
  cbn [mbind outcome_bind]. rewrite bool_decide_true by done.
  destruct n as [|n]; [done|]. cbn [closing_quote].
  assert (Hf : find_from s [quote] 1 = size (quote :: x) + 1).
  { replace s with ([quote] ++ (x ++ ["\"%char]) ++ quote :: b) by (rewrite E; cbn [app]; by rewrite <- app_assoc).
    assert (Hx' : quote ∉ x ++ ["\"%char]) by (destruct Hq as (Hq1 & _); set_solver).
    change 1 with (size [quote]) at 1. rewrite (find_from_app _ _ _ _ (find_char_app _ _ b Hx')).
    rewrite length_app. unfold size. simpl. lia. }
  rewrite Hf. rewrite E in Hn. rewrite (proj2 (Z.eqb_neq (size (quote :: x) + 1) npos)) by size_lia.
  rewrite to_size_t_small by size_lia. replace (size (quote :: x) + 1 - 1) with (size (quote :: x)) by lia.
  rewrite E at 1. rewrite str_idx_mid. cbn [mbind outcome_bind]. rewrite bool_decide_true by done.
  rewrite (closing_quote_stuck s (quote :: x) b n E); [done|]. by rewrite E.
Qed.
End grants.

(** A privilege of a list, and what is done with the privileges one after the other. *)
Definition privilege_name (p : str) : Prop :=
  (","%char ∉ p) /\ match p with c :: _ => c <> " "%char | [] => False end.
Fixpoint in_turn {S A} (body : str -> Method S (list A)) (ps : list str) : Method S (list A) :=
  match ps with
  | [] => mret []
  | p :: ps' => rows ← body p; more ← in_turn body ps'; mret (rows ++ more)
  end.

Lemma next_token_last s pre n p :
  s = pre ++ replicate n " "%char ++ p -> privilege_name p -> size s < npos ->
  next_token s (size pre) = Ok (p, None).
Proof.
  intros E [Hc Hp] Hn. destruct p as [|c p]; [done|]. unfold next_token.
  rewrite (skip_spaces_app s pre n c p E Hn Hp). cbn [mbind outcome_bind]. cbv zeta.
  assert (E' : s = (pre ++ replicate n " "%char) ++ c :: p) by by rewrite <- app_assoc.
  replace (size pre + Z.of_nat n) with (size (pre ++ replicate n " "%char)) by size_lia.
  rewrite E'. rewrite find_from_absent by by apply find_char_None. cbn [Z.eqb negb].
  rewrite (proj2 (Z.eqb_eq npos npos) eq_refl). cbn [negb].
  rewrite to_size_t_small by (rewrite E' in Hn; size_lia).
  rewrite <- (app_nil_r (c :: p)) at 1. rewrite substr_piece by size_lia. done.
Qed.

Lemma next_token_comma s pre n p tl :
  s = pre ++ replicate n " "%char ++ p ++ ","%char :: tl -> privilege_name p -> size s < npos ->
  next_token s (size pre) = Ok (p, Some (size (pre ++ replicate n " "%char ++ p ++ [","%char]))).
Proof.
  intros E [Hc Hp] Hn. destruct p as [|c p]; [done|]. unfold next_token.
  rewrite (skip_spaces_app s pre n c (p ++ ","%char :: tl) E Hn Hp). cbn [mbind outcome_bind]. cbv zeta.
  assert (E' : s = (pre ++ replicate n " "%char) ++ (c :: p) ++ ","%char :: tl) by by rewrite <- app_assoc.
  replace (size pre + Z.of_nat n) with (size (pre ++ replicate n " "%char)) by size_lia.
  rewrite E'. change (lit ",") with [","%char].
  rewrite (find_from_app _ _ _ (length (c :: p))) by by apply find_char_app.
  change (Z.of_nat (length (c :: p))) with (size (c :: p)).
  rewrite E' in Hn. rewrite (proj2 (Z.eqb_neq _ npos)) by size_lia. cbn [negb].
  rewrite !to_size_t_small by size_lia. rewrite substr_piece by size_lia.
  cbn [mbind outcome_bind]. do 3 f_equal. size_lia.
Qed.

(** The loop over the tokens goes through a list. *)
Lemma each_token_ok {S A} (body : str -> Method S (list A)) ps p s pre n fuel a :
  s = pre ++ replicate n " "%char ++ intercalate ", " (p :: ps) -> Forall privilege_name (p :: ps) ->
  size s < npos -> (length ps < fuel)%nat ->
  each_token body fuel s (size pre) a = in_turn body (p :: ps) a.
Proof.
  revert p pre n fuel a. induction ps as [|q ps IH]; intros p pre n fuel a E Hp Hn Hf;
    (destruct fuel as [|fuel]; [simpl in Hf; lia|]); apply Forall_cons in Hp as [Hp Hps]; cbn [each_token in_turn].
  - unfold pure. unfold mbind at 1, Method_bind at 1.
    rewrite (next_token_last s pre n p E Hp Hn). unfold mbind, Method_bind, mret, Method_ret.
    destruct (body p a) as [[rows|e| |] a']; [by rewrite app_nil_r|done..].
  - rewrite intercalate_cons in E.
    change (lit ", ") with [","%char; " "%char] in E. unfold pure. unfold mbind at 1, Method_bind at 1.
    rewrite (next_token_comma s pre n p (" "%char :: intercalate ", " (q :: ps)) E Hp Hn).
    unfold mbind at 1 3, Method_bind at 1 3.
    destruct (body p a) as [[rows|e| |] a']; [|done..].
    unfold mbind at 1 2, Method_bind at 1 2.
    rewrite (IH q (pre ++ replicate n " "%char ++ p ++ [","%char]) 1%nat fuel a'); [done| |done|done|simpl in Hf; lia].
    rewrite E, <- !app_assoc. done.
Qed.

Definition all_privileges : list str :=
  [lit "ALTER"; lit "DELETE"; lit "DROP"; lit "INDEX"; lit "INSERT"; lit "LOCK TABLES"; lit "SELECT"; lit "UPDATE"].
Definition told_list (ps : list str) : list str :=
  if decide (ps = [lit "ALL PRIVILEGES"]) then all_privileges else ps.

Lemma told_intercalate ps b :
  ps = [lit "ALL PRIVILEGES"] \/ find_nat "ALL PRIVILEGES" (intercalate ", " ps ++ b) = None ->
  told (intercalate ", " ps) = intercalate ", " (told_list ps).
Proof.
  unfold told, told_list. intros [->|H].
  - by vm_compute.
  - rewrite decide_False by (intros E; by rewrite E, find_nat_here in H).
    rewrite decide_False; [done|]. intros ->. by vm_compute in H.
Qed.

Lemma told_names ps : Forall privilege_name ps -> Forall privilege_name (told_list ps).
Proof.
  unfold told_list. case_decide; [|done]. intros _. repeat constructor; try done; by vm_compute; set_solver.
Qed.

(** C16: a row of SHOW GRANTS, in the quotes that the server uses, is read back: the
    privileges (the eight known ones for ALL PRIVILEGES), the schema and the table or a
    star for all of them, and the loop over the tokens does its work for every privilege,
    one after the other. The conditions: there is a privilege, and each has no comma (so
    none is granted on a list of columns), does not start with a blank and does not have
    the letters ON, the names of the schema and the table have no quote and no backslash,
    and the text has ALL PRIVILEGES only as the single privilege. *)
Theorem grants_read (S A : Type) (mode : str) (ps : list str) (schema table : option str) (tl : str)
    (body : str -> Method S (list A)) (a : S) (fuel : nat) :
  let quote := quote_of mode in
  let grant := grant_text quote (intercalate ", " ps) schema table tl in
  Forall privilege_name ps -> ps <> [] -> plain_or_all quote schema -> plain_or_all quote table ->
  find_nat "ON" (intercalate ", " ps) = None ->
  ps = [lit "ALL PRIVILEGES"] \/ find_nat "ALL PRIVILEGES" (drop 6 grant) = None ->
  size grant < npos - 100 -> (length (told_list ps) <= fuel)%nat ->
  exists privileges, read_grant fuel [quote] grant = Ok (privileges, default ("*" : str) schema, default ("*" : str) table) /\
    each_token body fuel privileges 0 a = in_turn body (told_list ps) a.
Proof.
  intros quote grant Hp Hne Hs Ht Ho Ha Hn Hf. exists (intercalate ", " (told_list ps)).
  pose proof (told_names ps Hp) as Hall.
  destruct (told_list ps) as [|q qs] eqn:E; [unfold told_list in E; by case_decide; subst|].
  cbn [length] in Hf. destruct fuel as [|fuel]; [lia|]. split.
  - unfold grant. rewrite read_grant_ok; [|apply quote_char_of| |done|done|done| |done].
    + rewrite <- E. by rewrite (told_intercalate ps (" ON " ++ granted_name quote schema ++ "." ++
        granted_name quote table ++ tl)).
    + unfold quote, quote_of. by destruct (negb _).
    + destruct Ha as [->|Ha]; [by left|by right].
  - change 0 with (size []). apply (each_token_ok body qs q _ [] 0); [done|done| |lia].
    rewrite <- E. rewrite <- (told_intercalate ps (" ON " ++ granted_name quote schema ++ "." ++
        granted_name quote table ++ tl)) by done.
    unfold told. unfold grant, grant_text in Hn. revert Hn. case_decide; [intros _; by vm_compute|]. lits. size_lia.
Qed.

Lemma grants_read_witness :
  exists privileges, read_grant 3 ["`"%char] (lit "GRANT SELECT, INSERT, UPDATE ON `shop`.* TO `ada`@`%`") =
      Ok (privileges, lit "shop", lit "*") /\
    each_token (fun p => mret [p]) 3 privileges 0 tt = in_turn (fun p => mret [p]) [lit "SELECT"; lit "INSERT"; lit "UPDATE"] tt.
Proof.
  apply (grants_read unit str "" [lit "SELECT"; lit "INSERT"; lit "UPDATE"] (Some (lit "shop")) None " TO `ada`@`%`"
    (fun p => mret [p]) tt 3).
  - repeat constructor; try done; by vm_compute; set_solver.
  - done.
  - split; by vm_compute; set_solver.
  - done.
  - by vm_compute.
  - right. by vm_compute.
  - by vm_compute.
  - by vm_compute; lia.
Defined.

(** C37: reading a row of SHOW GRANTS never ends, whatever the bound of the rounds, when the
    name of the schema ends with a backslash: the search for its closing quote stays where
    it is. *)
Theorem backslash_never_ends (mode privs x : str) (table : option str) (tl : str) (fuel : nat) :
  let quote := quote_of mode in
  let grant := grant_text quote privs (Some (x ++ ["\"%char])) table tl in
  (quote ∉ x) -> find_nat "ON" privs = None ->
  privs = "ALL PRIVILEGES" \/ find_nat "ALL PRIVILEGES" (drop 6 grant) = None ->
  size grant < npos - 100 ->
  read_grant fuel [quote] grant = Diverged.
Proof.
  intros quote grant Hx Ho Ha Hn. unfold grant, grant_text in *. rewrite read_grant_names by done.
  cbn [granted_name] in *. rewrite grant_name_stuck; [done|apply quote_char_of| |done|].
  - unfold quote, quote_of. by destruct (negb _).
  - revert Hn. lits. size_lia.
Qed.

Lemma backslash_never_ends_witness :
  read_grant 1000 ["`"%char] (lit "GRANT SELECT ON `shop\`.* TO `ada`@`%`") = Diverged.
Proof.
  apply (backslash_never_ends "" "SELECT" "shop" None " TO `ada`@`%`" 1000);
    [by vm_compute; set_solver|done|by right; vm_compute|by vm_compute].
Defined.

(** ** Types *)

(** The listed names that are not known when the type of a column is read. *)
Definition unknown_names : list str :=
  [lit "TINYINT UNSIGNED ZEROFILL"; lit "SMALLINT UNSIGNED ZEROFILL"; lit "MEDIUMINT UNSIGNED ZEROFILL";
   lit "INT UNSIGNED ZEROFILL"; lit "BIGINT UNSIGNED ZEROFILL"; lit "DECIMAL UNSIGNED ZEROFILL";
   lit "FLOAT UNSIGNED ZEROFILL"; lit "DOUBLE UNSIGNED ZEROFILL"; lit "REAL"; lit "REAL UNSIGNED";
   lit "NUMERIC"; lit "LONG VARBINARY"; lit "LONG VARCHAR"].

(** The type that is read from a listed name, given the type that is listed. *)
Definition read_as (name : str) (listed : DataType) : DataType :=
  if decide (name ∈ unknown_names) then UNKNOWN
  else if decide (name = lit "TINYBLOB") then VARBINARY
  else if decide (name = lit "TINYTEXT") then VARCHAR
  else listed.

Lemma all_types_agree :
  forallb (fun p => bool_decide
    (mysql_string_type_to_datatype (map ascii_lower p.1) = read_as p.1 (dataType p.2))) named_types = true.
Proof. by vm_compute. Qed.

(** [getTypeInfo] lists 49 types, and [getColumns] gives a column of one of them, whose
    type is read from its name, the type that is listed; but thirteen names are not known
    there, and TINYBLOB and TINYTEXT are listed as long types and read as short ones. *)
Lemma type_info_agrees (L : LongDouble) :
  exists rows, getTypeInfo = Ok (Art_new type_info_fields rows) /\ length rows = 49%nat /\
    forall i row, rows !! i = Some row ->
      exists name d, row !! 0%nat = Some (MyVal_of_chars name) /\
        row !! 1%nat = Some (typeInt (datatype_code d)) /\
        mysql_string_type_to_datatype (map ascii_lower name) = read_as name d.
Proof.
  exists (map (fun p => type_row p.1 p.2) named_types). split; [by vm_compute|]. split; [by vm_compute|].
  intros i row Hi. rewrite list_lookup_fmap in Hi.
  destruct (named_types !! i) as [p|] eqn:E; [|done]. injection Hi as <-.
  exists p.1, (dataType p.2). split; [done|]. split; [done|].
  pose proof all_types_agree as H. rewrite forallb_forall in H.
  apply list_elem_of_lookup_2, list_elem_of_In in E. specialize (H p E).
  by apply bool_decide_eq_true_1 in H.
Qed.

(** ** Objects of a schema *)

(** Without a type the tables, views, routines and triggers are asked for at once; the
    condition on the name of an object runs into the next word, for every name. *)
Lemma named_objects_query (schema object table : str) :
  object <> [] ->
  exists a b, objects_query [] schema object table = Ok (a ++ "TABLE_NAMEUNION SELECT " ++ b).
Proof.
  intros Ho. unfold objects_query. rewrite (proj2 (Z.eqb_eq (size []) 0) eq_refl). cbv zeta.
  set (views := where_clause _ _ _ _ ++ "UNION SELECT " ++ routines_select_items ++ _).
  unfold where_clause. rewrite (proj2 (Z.ltb_lt 0 (size object))) by (destruct object; [done|size_lia]).
  exists ("SELECT " ++ tables_select_items ++ " FROM information_schema.tables " ++
    (if 0 <? size schema then " WHERE table_type<>'VIEW' AND table_schema = '" ++ schema ++ "' " else []) ++
    predicate_mediator (0 <? size schema) object),
    (views_select_items ++ " FROM information_schema.views " ++ views).
  change (lit "TABLE_NAMEUNION SELECT ") with (lit "TABLE_NAME" ++ lit "UNION SELECT ").
  by rewrite <- !app_assoc.
Qed.

(** The creator of a trigger is quoted when the name of the user has no at sign. *)
Lemma definer_quoted (user host : str) :
  ("@"%char ∉ user) -> size user < npos -> quote_definer (user ++ "@" ++ host) = "`" ++ user ++ "`@`" ++ host ++ "`".
Proof.
  intros Hu Hn. unfold quote_definer, find. change (lit "@") with ["@"%char]. cbn [app].
  rewrite (find_char_app _ user host Hu). rewrite (proj2 (Z.eqb_neq _ npos)) by (unfold size in Hn; lia).
  cbn [negb]. replace (Z.to_nat (Z.of_nat (length user) + 1)) with (length (user ++ ["@"%char]))
    by (rewrite length_app; simpl; lia).
  rewrite Nat2Z.id, take_app_length. change ("@"%char :: host) with (["@"%char] ++ host).
  rewrite (app_assoc user ["@"%char] host), drop_app_length. by rewrite <- !app_assoc.
Qed.
