(* ===== verification/Memory.v ===== *)
(** * The memory of a C program

    A heap of blocks of bytes that may be uninitialised, pointers into them, the
    functions [malloc], [free], [strlen] and [strcpy] of the C library, and the
    [for] loops that copy bytes.  Every access outside a live block, every read
    of a byte that was never written and every wrong [free] is undefined
    behaviour.  [malloc] is a parameter ([Allocator]): it returns the null
    pointer or a block that was not in use. *)

From S2P Require Import Prelude Cxx.

(** ** Heaps and pointers *)

Definition NUL : ascii := "000"%char.

(** [cells] holds the bytes that have been written; [dynamic] is a block that
    [malloc] returned, the only kind [free] accepts. *)
Record block := Block { cells : list (option ascii); dynamic : bool }.
Abbreviation heap := (gmap positive block).

Inductive ptr := Null | Ptr (b : positive) (off : Z).

#[export] Instance ptr_eq_dec : EqDecision ptr.
Proof. solve_decision. Defined.
#[export] Instance block_eq_dec : EqDecision block.
Proof. solve_decision. Defined.

(** The choice of a block of [n] bytes. *)
Class Allocator := {
  allocate : heap -> Z -> option positive;
  allocate_fresh h n b : allocate h n = Some b -> h !! b = None;
}.

(** An allocator with room for every request. *)
Definition roomy `{Allocator} : Prop := forall h n, is_Some (allocate h n).

Definition next_block (h : heap) (n : Z) : option positive := Some (fresh (dom h)).
Lemma next_block_fresh h n b : next_block h n = Some b -> h !! b = None.
Proof. unfold next_block. intros [= <-]. apply not_elem_of_dom, is_fresh. Qed.
Definition next_allocator : Allocator := {| allocate_fresh := next_block_fresh |}.

(** ** Programs over a heap *)

Definition Mem (A : Type) : Type := heap -> outcome (A * heap).

#[export] Instance Mem_ret : MRet Mem := fun A a h => Ok (a, h).
#[export] Instance Mem_bind : MBind Mem := fun A B f m h => '(a, h') ← m h; f a h'.

Definition undefined {A} : Mem A := fun h => Undefined.
Definition diverge {A} : Mem A := fun h => Diverged.

Definition load (p : ptr) (i : Z) : Mem ascii := fun h =>
  match p with
  | Null => Undefined
  | Ptr b off => blk ← deref (h !! b); c ← arr_at (cells blk) (off + i); c ← deref c; Ok (c, h)
  end.

Definition store (p : ptr) (i : Z) (c : ascii) : Mem unit := fun h =>
  match p with
  | Null => Undefined
  | Ptr b off =>
      blk ← deref (h !! b);
      _ ← arr_at (cells blk) (off + i);
      Ok (tt, <[b := Block (<[Z.to_nat (off + i) := Some c]> (cells blk)) (dynamic blk)]> h)
  end.

Definition fresh_block (n : Z) : block := Block (replicate (Z.to_nat n) None) true.

Definition malloc `{Allocator} (n : Z) : Mem ptr := fun h =>
  match allocate h n with
  | Some b => Ok (Ptr b 0, <[b := fresh_block n]> h)
  | None => Ok (Null, h)
  end.

(** [free] accepts the null pointer and the start of a live dynamic block. *)
Definition free (p : ptr) : Mem unit := fun h =>
  match p with
  | Null => Ok (tt, h)
  | Ptr b off =>
      blk ← deref (h !! b);
      if dynamic blk && (off =? 0) then Ok (tt, delete b h) else Undefined
  end.

(** The number of bytes in front of the first NUL. *)
Fixpoint c_len (l : list (option ascii)) : outcome Z :=
  match l with
  | Some c :: l' => if bool_decide (c = NUL) then Ok 0 else n ← c_len l'; Ok (n + 1)
  | _ => Undefined
  end.

Definition strlen (p : ptr) : Mem Z := fun h =>
  match p with
  | Null => Undefined
  | Ptr b off =>
      blk ← deref (h !! b);
      if 0 <=? off then n ← c_len (drop (Z.to_nat off) (cells blk)); Ok (n, h) else Undefined
  end.

(** [for (i = ...; ...; i++) body], [n] times from [i]. *)
Fixpoint for_loop (n : nat) (i : Z) (body : Z -> Mem unit) : Mem unit :=
  match n with
  | O => mret tt
  | S n' => _ ← body i; for_loop n' (i + 1) body
  end.

(** [for (i = ...; ...; i++) if (!body) return FALSE;] and [return TRUE]. *)
Fixpoint for_all (n : nat) (i : Z) (body : Z -> Mem bool) : Mem bool :=
  match n with
  | O => mret true
  | S n' => b ← body i; if (b : bool) then for_all n' (i + 1) body else mret false
  end.

Definition copy_byte (src dst : ptr) (f g : Z -> Z) (i : Z) : Mem unit :=
  c ← load src (f i); store dst (g i) c.

(** [strcpy] to a block that does not overlap the source. *)
Definition strcpy (dst src : ptr) : Mem unit :=
  n ← strlen src; for_loop (Z.to_nat (n + 1)) 0 (copy_byte src dst id id).

(** ** C strings *)

(** The pointer points to the bytes of [s] and a NUL, in a block of less than
    2^63 bytes. *)
Inductive cstr_at (h : heap) : ptr -> str -> Prop :=
| Cstr_at b off blk s rest :
    h !! b = Some blk -> 0 <= off ->
    drop (Z.to_nat off) (cells blk) = map Some s ++ Some NUL :: rest ->
    NUL ∉ s -> Z.of_nat (length (cells blk)) < 2 ^ 63 ->
    cstr_at h (Ptr b off) s.

(** The same, or the null pointer for the empty string. *)
Definition cstr_or_null (h : heap) (p : ptr) (s : str) : Prop :=
  (p = Null /\ s = []) \/ cstr_at h p s.

(** The byte at a position of a C string, its NUL included. *)
Definition c_at (s : str) (i : Z) : ascii := default NUL (s !! Z.to_nat i).

(** What [malloc(size + 1)] filled with a string is. *)
Definition str_block (s : str) : block := Block (map Some (s ++ [NUL])) true.
Definition new_string `{Allocator} (s : str) : Mem ptr := fun h =>
  match allocate h (size s + 1) with
  | Some b => Ok (Ptr b 0, <[b := str_block s]> h)
  | None => Undefined
  end.

(** ** Lemmas: access *)

Lemma Mem_bind_ok {A B} {m : Mem A} {f : A -> Mem B} {h a h'} :
  m h = Ok (a, h') -> (m ≫= f) h = f a h'.
Proof. unfold mbind, Mem_bind. by intros ->. Qed.

Lemma Mem_bind_undefined {A B} {m : Mem A} {f : A -> Mem B} {h} :
  m h = Undefined -> (m ≫= f) h = Undefined.
Proof. unfold mbind, Mem_bind. by intros ->. Qed.

Lemma c_len_spec s rest : NUL ∉ s -> c_len (map Some s ++ Some NUL :: rest) = Ok (size s).
Proof.
  induction s as [|c s IH]; intros H; [done|]. simpl. rewrite bool_decide_false by set_solver.
  rewrite IH by set_solver. simpl. by rewrite size_cons.
Qed.

Lemma c_at_nul s : c_at s (size s) = NUL.
Proof. unfold c_at, size. by rewrite Nat2Z.id, lookup_ge_None_2 by lia. Qed.

Lemma c_at_lookup s i c : s !! i = Some c -> c_at s (Z.of_nat i) = c.
Proof. unfold c_at. by rewrite Nat2Z.id; intros ->. Qed.

(** A live block has a length in [size_t], and so have its strings. *)
Lemma cstr_size {h p s} : cstr_at h p s -> size s < 2 ^ 63 - 1.
Proof.
  intros [b off blk s' rest Hb Hoff Hd Hn Hl]. apply (f_equal (@length _)) in Hd.
  rewrite length_drop, length_app, length_map in Hd. simpl in Hd. unfold size. lia.
Qed.

Lemma cstr_nul {h p s} : cstr_at h p s -> NUL ∉ s.
Proof. by intros []. Qed.

Lemma strlen_cstr {h p s} : cstr_at h p s -> strlen p h = Ok (size s, h).
Proof.
  intros [b off blk s' rest Hb Hoff Hd Hn Hl]. unfold strlen. rewrite Hb. simpl.
  destruct (Z.leb_spec 0 off); [|lia]. by rewrite Hd, c_len_spec.
Qed.

Lemma load_cstr {h p s i} : cstr_at h p s -> 0 <= i <= size s -> load p i h = Ok (c_at s i, h).
Proof.
  intros [b off blk s' rest Hb Hoff Hd Hn Hl] Hi. unfold load. rewrite Hb. simpl.
  assert (E : cells blk !! Z.to_nat (off + i) = Some (Some (c_at s' i))).
  { replace (Z.to_nat (off + i)) with (Z.to_nat off + Z.to_nat i)%nat by lia.
    rewrite <- lookup_drop, Hd. unfold c_at, size in *.
    destruct (decide (i = Z.of_nat (length s'))) as [->|Hne].
    - rewrite Nat2Z.id, (lookup_ge_None_2 s') by lia.
      by rewrite list_lookup_middle by by rewrite length_map.
    - destruct (lookup_lt_is_Some_2 s' (Z.to_nat i)) as [c Hc]; [lia|].
      rewrite lookup_app_l, list_lookup_fmap, Hc; [done|]. rewrite length_map. lia. }
  unfold arr_at. rewrite E. pose proof (lookup_lt_Some _ _ _ E).
  by rewrite decide_True by lia.
Qed.

(** ** Lemmas: blocks that are not involved *)

Definition ptr_block (p : ptr) : option positive :=
  match p with Null => None | Ptr b _ => Some b end.

Lemma cstr_live {h p s} : cstr_at h p s -> exists b, ptr_block p = Some b /\ is_Some (h !! b).
Proof. intros [b off blk ? ? ?]. by eauto. Qed.

Lemma cstr_other {h h' p s} :
  cstr_at h p s -> (forall b, ptr_block p = Some b -> h' !! b = h !! b) -> cstr_at h' p s.
Proof.
  intros [b off blk s' rest Hb] Hh. apply (Cstr_at _ b off blk s' rest); try done.
  by rewrite Hh.
Qed.

Lemma cstr_insert {h p s} b blk : h !! b = None -> cstr_at h p s -> cstr_at (<[b := blk]> h) p s.
Proof.
  intros Hb H. apply (cstr_other H). intros b' Hp. apply lookup_insert_ne.
  destruct (cstr_live H) as (b2 & E2 & [? ?]). congruence.
Qed.

Lemma cstr_delete {h p s} b :
  ptr_block p <> Some b -> cstr_at h p s -> cstr_at (delete b h) p s.
Proof.
  intros Hb H. apply (cstr_other H). intros b' Hp. apply lookup_delete_ne. congruence.
Qed.

Lemma cstr_str_block h b s :
  NUL ∉ s -> size s < 2 ^ 63 - 1 -> cstr_at (<[b := str_block s]> h) (Ptr b 0) s.
Proof.
  intros Hn Hl. apply (Cstr_at _ _ _ (str_block s) _ []); try done.
  - apply lookup_insert_eq.
  - simpl. by rewrite map_app.
  - simpl. rewrite length_map, length_app. unfold size in *. simpl. lia.
Qed.

(** ** Lemmas: filling a fresh block *)

Section filling.
Context (h : heap) (b : positive) (d : bool) (Hb : h !! b = None).

(** The heap with these bytes in the block. *)
Abbreviation filled l := (<[b := Block l d]> h).

Lemma store_filled (pre post : list (option ascii)) x c i :
  i = Z.of_nat (length pre) ->
  store (Ptr b 0) i c (filled (pre ++ x :: post)) = Ok (tt, filled (pre ++ Some c :: post)).
Proof using.
  intros ->. unfold store. rewrite lookup_insert_eq. simpl. unfold arr_at.
  rewrite Z.add_0_l, Nat2Z.id, list_lookup_middle by done.
  rewrite decide_True by (rewrite length_app; simpl; lia). simpl.
  rewrite insert_insert_eq. by rewrite (insert_app_r_alt pre _ (length pre)), Nat.sub_diag by done.
Qed.

Lemma copy_filled (pre mid post : list (option ascii)) cs src s f g i :
  cstr_at h src s -> length mid = length cs ->
  (forall k c, cs !! k = Some c -> 0 <= f (i + Z.of_nat k) <= size s /\ c_at s (f (i + Z.of_nat k)) = c) ->
  (forall k, (k < length cs)%nat -> g (i + Z.of_nat k) = Z.of_nat (length pre + k)) ->
  for_loop (length cs) i (copy_byte src (Ptr b 0) f g) (filled (pre ++ mid ++ post)) =
    Ok (tt, filled (pre ++ map Some cs ++ post)).
Proof using Hb.
  intros Hs. revert pre mid i. induction cs as [|c cs IH]; intros pre mid i Hlen Hf Hg.
  { by destruct mid. }
  destruct mid as [|x mid]; [done|]. injection Hlen as Hlen. cbn [for_loop length].
  destruct (Hf 0%nat c eq_refl) as [Hr Hc]. rewrite Z.add_0_r in Hr, Hc.
  assert (Hload := load_cstr (cstr_insert b (Block (pre ++ (x :: mid) ++ post) d) Hb Hs) Hr).
  rewrite Hc in Hload.
  assert (Hstore := store_filled pre (mid ++ post) x c (g i)).
  rewrite (Mem_bind_ok (a := tt) (h' := filled (pre ++ Some c :: mid ++ post))).
  - replace (pre ++ Some c :: mid ++ post) with ((pre ++ [Some c]) ++ mid ++ post)
      by by rewrite <- app_assoc.
    rewrite (IH (pre ++ [Some c]) mid); [by rewrite <- app_assoc|done| |].
    + intros k c' Hk. replace (i + 1 + Z.of_nat k) with (i + Z.of_nat (S k)) by lia. by apply Hf.
    + intros k Hk. replace (i + 1 + Z.of_nat k) with (i + Z.of_nat (S k)) by lia.
      rewrite Hg by (simpl; lia). rewrite length_app. simpl. lia.
  - unfold copy_byte. rewrite (Mem_bind_ok Hload). apply Hstore.
    specialize (Hg 0%nat). rewrite Z.add_0_r in Hg. rewrite Hg; [lia|simpl; lia].
Qed.
End filling.

(** ** Lemmas: allocation *)

(** Nothing can be written through the null pointer. *)
Lemma copy_null src f g i h : copy_byte src Null f g i h = Undefined.
Proof.
  unfold copy_byte, mbind, Mem_bind, load. destruct src as [|b off]; [done|].
  destruct (h !! b); simpl; [|done]. unfold arr_at.
  destruct (decide _); [|done]. by destruct (_ !! _) as [[?|]|].
Qed.

Lemma loop_null {A} n i src f g (k : unit -> Mem A) h :
  k tt h = Undefined -> (for_loop n i (copy_byte src Null f g) ≫= k) h = Undefined.
Proof.
  intros Hk. destruct n as [|n]; [done|]. by apply Mem_bind_undefined, Mem_bind_undefined, copy_null.
Qed.

Section allocation.
Context `{Allocator}.

(** A function that asks for a block, fills it with a string and goes on. *)
Lemma malloc_filled {A} (s : str) n (k k' : ptr -> Mem A) h :
  n = size s + 1 ->
  (forall b, h !! b = None -> k (Ptr b 0) (<[b := fresh_block n]> h) = k' (Ptr b 0) (<[b := str_block s]> h)) ->
  k Null h = Undefined ->
  (malloc n ≫= k) h = (new_string s ≫= k') h.
Proof using.
  intros -> Hk Hnull. unfold malloc, new_string, mbind, Mem_bind.
  destruct (allocate h (size s + 1)) as [b|] eqn:E; [|done].
  by apply Hk, (allocate_fresh _ _ _ E).
Qed.

Lemma new_string_spec s h q h' :
  new_string s h = Ok (q, h') -> exists b, q = Ptr b 0 /\ h !! b = None /\ h' = <[b := str_block s]> h.
Proof using.
  unfold new_string. destruct (allocate _ _) as [b|] eqn:E; [|done]. intros [= <- <-].
  exists b. split; [done|]. split; [|done]. by apply (allocate_fresh _ _ _ E).
Qed.

Lemma new_string_roomy s h :
  roomy -> exists b, h !! b = None /\ new_string s h = Ok (Ptr b 0, <[b := str_block s]> h).
Proof using.
  intros Hroom. unfold new_string. destruct (Hroom h (size s + 1)) as [b E]. rewrite E.
  exists b. split; [|done]. by apply (allocate_fresh _ _ _ E).
Qed.
End allocation.

Lemma free_new b s h : h !! b = None -> free (Ptr b 0) (<[b := str_block s]> h) = Ok (tt, h).
Proof.
  intros Hb. unfold free. rewrite lookup_insert_eq. simpl. by rewrite delete_insert_id.
Qed.

(** A fresh block for two strings and a NUL. *)
Lemma fresh_block_parts n (s t : str) :
  n = size s + size t + 1 ->
  fresh_block n = Block (replicate (length s) None ++ replicate (length t) None ++ [None]) true.
Proof.
  intros ->. unfold fresh_block, size. f_equal.
  replace (Z.to_nat _) with (length s + (length t + 1))%nat by lia. by rewrite !replicate_add.
Qed.

Lemma fresh_block_string n (s : str) :
  n = size s + 1 -> fresh_block n = Block ([] ++ replicate (length s) None ++ [None]) true.
Proof. intros Hn. rewrite (fresh_block_parts n s []); [done|]. rewrite size_nil. lia. Qed.

Lemma str_block_nul s : str_block s = Block (map Some s ++ [Some NUL]) true.
Proof. unfold str_block. by rewrite map_app. Qed.

(** ** Lemmas: loops over two strings *)

Lemma forallb_seq_S n (p : nat -> bool) :
  forallb p (seq 0 (S n)) = p 0%nat && forallb (fun k => p (S k)) (seq 0 n).
Proof.
  simpl. f_equal. rewrite <- seq_shift. induction (seq 0 n) as [|k l IH]; [done|]. simpl. by rewrite IH.
Qed.

Lemma forallb_same n (p q : nat -> bool) :
  (forall k, p k = q k) -> forallb p (seq 0 n) = forallb q (seq 0 n).
Proof. intros E. induction (seq 0 n) as [|k l IH]; [done|]. simpl. by rewrite E, IH. Qed.

Lemma for_all_spec n i (p : nat -> bool) h body :
  (forall k, (k < n)%nat -> (forall j, (j < k)%nat -> p j = true) ->
     body (i + Z.of_nat k) h = Ok (p k, h)) ->
  for_all n i body h = Ok (forallb p (seq 0 n), h).
Proof.
  revert i p. induction n as [|n IH]; intros i p Hp; [done|]. rewrite forallb_seq_S. cbn [for_all].
  assert (H0 := Hp 0%nat ltac:(lia) ltac:(lia)). rewrite Z.add_0_r in H0.
  rewrite (Mem_bind_ok H0). destruct (p 0%nat) eqn:E0; [|done]. simpl.
  rewrite (IH (i + 1) (fun k => p (S k))); [done|].
  - intros k Hk Hbefore. replace (i + 1 + Z.of_nat k) with (i + Z.of_nat (S k)) by lia.
    apply Hp; [lia|]. intros [|j] Hj; [done|]. apply Hbefore. lia.
Qed.

Lemma c_at_cons c s k : c_at (c :: s) (Z.of_nat (S k)) = c_at s (Z.of_nat k).
Proof. unfold c_at. by rewrite !Nat2Z.id. Qed.

(** Comparing byte by byte, the NUL of the other string included. *)
Lemma starts_with_bytes pat t :
  NUL ∉ pat ->
  starts_with pat t =
    forallb (fun k => bool_decide (c_at pat (Z.of_nat k) = c_at t (Z.of_nat k))) (seq 0 (length pat)).
Proof.
  revert t. induction pat as [|c pat IH]; intros t Hn; [done|].
  cbn [length]. rewrite forallb_seq_S. cbn [starts_with]. destruct t as [|d t].
  - rewrite bool_decide_false; [done|]. unfold c_at. simpl. set_solver.
  - rewrite (IH t) by set_solver. f_equal. apply forallb_same. intros k. by rewrite !c_at_cons.
Qed.

Lemma c_at_drop s i k : 0 <= i -> c_at (drop (Z.to_nat i) s) (Z.of_nat k) = c_at s (i + Z.of_nat k).
Proof.
  intros Hi. unfold c_at. rewrite lookup_drop, Nat2Z.id. do 2 f_equal. lia.
Qed.
