(* ===== verification/CStr.v ===== *)
(** * lib/str.cpp: the functions on C strings

    The [char*] part of the string library, over the heap of [Memory].  Each
    function is shown equal to a short program on strings: a new string made
    from the contents of the arguments, followed by the same calls of [free]. *)

From S2P Require Import Prelude Cxx Str Memory.

(** ** Definitions *)

Definition FALSE : Z := 0.
Definition FIRST : Z := 1.
Definition SECOND : Z := 2.

Definition is_null (p : ptr) : bool := bool_decide (p = Null).

Definition strlength (p : ptr) : Mem Z := if is_null p then mret 0 else strlen p.

Definition lastChar (p : ptr) : Mem ascii := n ← strlen p; load p (to_size_t (n - 1)).

Definition strcompare (str1 str2 : ptr) : Mem bool :=
  l1 ← strlen str1;
  l2 ← strlen str2;
  if negb (l1 =? l2) then mret false
  else for_all (Z.to_nat l1) 0 (fun i =>
    a ← load str1 i; b ← load str2 i; mret (bool_decide (a = b))).

(** The loop runs from [index] to the [size_t] sum [length + index]. *)
Definition strcompsub (str1 str2 : ptr) (index length : Z) : Mem bool :=
  l ← strlen str1;
  if negb (length =? l) then mret false
  else for_all (Z.to_nat (to_size_t (length + index) - index)) index (fun i =>
    a ← load str1 (i - index); b ← load str2 i; mret (bool_decide (a = b))).

Fixpoint strpos_loop (n : nat) (haystack needle : ptr) (nlength i : Z) : Mem Z :=
  match n with
  | O => mret (-1)
  | S n' =>
      a ← load haystack i;
      b ← load needle 0;
      found ← (if bool_decide (a = b) then strcompsub needle haystack i nlength else mret false);
      if (found : bool) then mret (to_int64 i)
      else strpos_loop n' haystack needle nlength (i + 1)
  end.

Definition strpos (haystack needle : ptr) : Mem Z :=
  length ← strlen haystack;
  nlength ← strlen needle;
  if (length =? 0) || (nlength >? length) then mret (-1)
  else strpos_loop (Z.to_nat (length - nlength + 1)) haystack needle nlength 0.

(** [while (src[f(i)] != 0) { out[i] = src[f(i)]; i++; }], the final [i]. *)
Fixpoint copy_until_nul (fuel : nat) (src out : ptr) (f : Z -> Z) (i : Z) : Mem Z :=
  match fuel with
  | O => diverge
  | S fuel' =>
      c ← load src (f i);
      if bool_decide (c = NUL) then mret i
      else _ ← copy_byte src out f id i; copy_until_nul fuel' src out f (i + 1)
  end.

Section with_allocator.
Context `{Allocator}.

Definition str_reverse (p : ptr) : Mem ptr :=
  length ← strlen p;
  out ← malloc (to_size_t (length + 1));
  _ ← for_loop (Z.to_nat length) 0
        (copy_byte p out (fun i => to_size_t (to_size_t (length - 1) - i)) id);
  _ ← store out length NUL;
  _ ← free p;
  mret out.

Definition strappend (s : ascii) (p : ptr) : Mem ptr :=
  length ← strlength p;
  out ← malloc (to_size_t (length + 2));
  _ ← store out 0 s;
  if is_null p then _ ← store out 1 NUL; mret out
  else
    _ ← for_loop (Z.to_nat (length + 1)) 1 (copy_byte p out (fun i => i - 1) id);
    _ ← free p;
    _ ← store out (length + 1) NUL;
    mret out.

Definition stradd (p : ptr) (s : ascii) : Mem ptr :=
  length ← strlength p;
  out ← malloc (to_size_t (length + 2));
  _ ← (if is_null p then mret tt else _ ← strcpy out p; free p);
  _ ← store out (length + 1) NUL;
  _ ← store out length s;
  mret out.

(** [length] is an [int]; the length of the recursive call is narrowed to it. *)
Fixpoint substring (fuel : nat) (subject : ptr) (index length : Z) : Mem ptr :=
  match fuel with
  | O => diverge
  | S fuel' =>
      if length <? 0 then
        n ← strlen subject;
        substring fuel' subject index (to_int (to_size_t (n - to_size_t (index - length))))
      else if negb (in_int (length + 1)) then undefined
      else
        out ← malloc (length + 1);
        _ ← for_loop (Z.to_nat length) 0 (copy_byte subject out (fun i => to_size_t (i + index)) id);
        _ ← store out length NUL;
        mret out
  end.

Definition substring_f (fuel : nat) (subject : ptr) (index length : Z) : Mem ptr :=
  out ← substring fuel subject index (to_int length);
  _ ← free subject;
  mret out.

Definition substr_r (subject : ptr) (index : Z) : Mem ptr :=
  length ← strlen subject;
  let start := to_size_t (length + index) in
  if negb (in_int (index * -1) && in_int (index * -1 + 1)) then undefined
  else
    out ← malloc (to_size_t (index * -1 + 1));
    i ← copy_until_nul (S (Z.to_nat length)) subject out (fun i => to_size_t (i + start)) 0;
    _ ← store out i NUL;
    mret out.

Definition substr (subject : ptr) (index : Z) : Mem ptr :=
  if index <? 0 then substr_r subject index
  else
    length ← strlength subject;
    if negb (in_int (index + 1)) then undefined
    else if length <? index + 1 then mret Null
    else
      out ← malloc (to_size_t (length - index + 1));
      i ← copy_until_nul (S (Z.to_nat length)) subject out (fun i => to_size_t (i + index)) 0;
      _ ← store out i NUL;
      mret out.

(** The [size_t] index is narrowed to the [int] parameter of [substr]. *)
Definition substr_f (subject : ptr) (index : Z) : Mem ptr :=
  out ← substr subject (to_int index);
  _ ← free subject;
  mret out.

(** The bits of [mem] choose the arguments to free, the second one first. *)
Definition concat (s1 s2 : ptr) (mem : Z) : Mem ptr :=
  l1 ← strlength s1;
  l2 ← strlength s2;
  let length := to_size_t (l1 + l2) in
  out ← malloc (to_size_t (length + 1));
  _ ← for_loop (Z.to_nat l1) 0 (copy_byte s1 out id id);
  _ ← for_loop (Z.to_nat l2) 0 (copy_byte s2 out id (fun i => i + l1));
  _ ← (if Z.testbit mem 1 then free s2 else mret tt);
  _ ← (if Z.testbit mem 0 then free s1 else mret tt);
  _ ← store out length NUL;
  mret out.

(** [valist] are the variadic arguments; reading more than were passed is
    undefined. *)
Fixpoint concat_all_loop (n : nat) (i : Z) (valist : list ptr) (output : ptr) : Mem ptr :=
  match n with
  | O => mret output
  | S n' =>
      match valist with
      | [] => undefined
      | arg :: valist' =>
          output ← concat output arg (if i =? 0 then FALSE else FIRST);
          concat_all_loop n' (i + 1) valist' output
      end
  end.

Definition concat_all (args : Z) (valist : list ptr) : Mem ptr :=
  concat_all_loop (Z.to_nat args) 0 valist Null.

(** [fuel] bounds the depth of the recursion on the result. *)
Fixpoint str_replace (fuel : nat) (search replace subject : ptr) : Mem ptr :=
  match fuel with
  | O => diverge
  | S fuel' =>
      start ← strpos subject search;
      if start =? -1 then mret subject
      else
        first_chunk ← substring fuel subject 0 (to_int start);
        ls ← strlen search;
        lj ← strlen subject;
        if to_size_t (start + ls) <? lj then
          rest ← substr subject (to_int (to_size_t (start + ls)));
          tail ← concat replace rest SECOND;
          next ← concat first_chunk tail (Z.lor FIRST SECOND);
          str_replace fuel' search replace next
        else
          next ← concat first_chunk replace FIRST;
          str_replace fuel' search replace next
  end.
End with_allocator.

(** ** Lemmas *)

Lemma is_null_cstr h p s : cstr_at h p s -> is_null p = false.
Proof. by intros []. Qed.

Lemma is_null_null : is_null Null = true.
Proof. done. Qed.

Lemma strlength_spec h p s : cstr_or_null h p s -> strlength p h = Ok (size s, h).
Proof.
  unfold strlength. intros [[-> ->]|H]; [done|].
  rewrite (is_null_cstr _ _ _ H). apply (strlen_cstr H).
Qed.

Lemma cstr_or_null_size h p s : cstr_or_null h p s -> 0 <= size s < 2 ^ 63 - 1.
Proof.
  pose proof (size_nonneg s). intros [[-> ->]|Hp]; [by vm_compute|]. pose proof (cstr_size Hp). lia.
Qed.

(** *** Comparing *)

Lemma load_two h p q s t i j :
  cstr_at h p s -> cstr_at h q t -> 0 <= i <= size s -> 0 <= j <= size t ->
  (a ← load p i; b ← load q j; mret (bool_decide (a = b)))%stdpp h =
    Ok (bool_decide (c_at s i = c_at t j), h).
Proof. intros Hp Hq Hi Hj. by rewrite (Mem_bind_ok (load_cstr Hp Hi)), (Mem_bind_ok (load_cstr Hq Hj)). Qed.

(** A position reached by comparing equal bytes is not behind the NUL. *)
Lemma compared_in_range s t i k :
  NUL ∉ s -> 0 <= i <= size t -> (k < length s)%nat ->
  (forall j, (j < k)%nat -> bool_decide (c_at s (Z.of_nat j) = c_at t (i + Z.of_nat j)) = true) ->
  i + Z.of_nat k <= size t.
Proof.
  intros Hn Hi Hk Hbefore. destruct (decide (i + Z.of_nat k <= size t)) as [|Hgt]; [done|].
  set (j := Z.to_nat (size t - i)). assert (Hj : (j < k)%nat) by lia.
  specialize (Hbefore j Hj). apply bool_decide_eq_true in Hbefore.
  replace (i + Z.of_nat j) with (size t) in Hbefore by lia. rewrite c_at_nul in Hbefore.
  destruct (lookup_lt_is_Some_2 s j) as [c Hc]; [lia|].
  rewrite (c_at_lookup _ _ _ Hc) in Hbefore. subst c. destruct Hn. by eapply list_elem_of_lookup_2.
Qed.

Lemma char_compsub_spec h p q s t index :
  cstr_at h p s -> cstr_at h q t -> 0 <= index <= size t ->
  strcompsub p q index (size s) h = Ok (starts_with s (drop (Z.to_nat index) t), h).
Proof.
  intros Hp Hq Hi. pose proof (cstr_size Hp). pose proof (cstr_size Hq). pose proof (size_nonneg s).
  unfold strcompsub. rewrite (Mem_bind_ok (strlen_cstr Hp)), Z.eqb_refl. simpl.
  rewrite to_size_t_small by lia.
  replace (Z.to_nat (size s + index - index)) with (length s) by (unfold size; lia).
  rewrite (for_all_spec _ _ (fun k => bool_decide (c_at s (Z.of_nat k) = c_at t (index + Z.of_nat k)))).
  - rewrite (starts_with_bytes _ _ (cstr_nul Hp)). do 2 f_equal. apply forallb_same. intros k.
    by rewrite c_at_drop by lia.
  - intros k Hk Hbefore. replace (index + Z.of_nat k - index) with (Z.of_nat k) by lia.
    apply (load_two _ _ _ _ _ _ _ Hp Hq); [unfold size; lia|].
    split; [lia|]. by apply (compared_in_range s); [apply (cstr_nul Hp)| | |].
Qed.

Lemma strcompare_spec h p q s t :
  cstr_at h p s -> cstr_at h q t -> strcompare p q h = Ok (bool_decide (s = t), h).
Proof.
  intros Hp Hq. unfold strcompare.
  rewrite (Mem_bind_ok (strlen_cstr Hp)), (Mem_bind_ok (strlen_cstr Hq)).
  destruct (Z.eqb_spec (size s) (size t)) as [El|Hl]; simpl.
  2: { rewrite bool_decide_false; [done|]. congruence. }
  unfold size in El. replace (Z.to_nat (size s)) with (length s) by (unfold size; lia).
  rewrite (for_all_spec _ _ (fun k => bool_decide (c_at s (Z.of_nat k) = c_at t (Z.of_nat k)))).
  2: { intros k Hk _. rewrite Z.add_0_l. apply (load_two _ _ _ _ _ _ _ Hp Hq); unfold size; lia. }
  rewrite <- (starts_with_bytes _ _ (cstr_nul Hp)). do 2 f_equal. apply eq_bool_prop_intro.
  rewrite bool_decide_spec, Is_true_true, starts_with_spec. split.
  - intros [rest ->]. rewrite length_app in El. destruct rest; [by rewrite app_nil_r|simpl in *; lia].
  - intros ->. exists []. by rewrite app_nil_r.
Qed.

(** *** Copying into a new string *)

Lemma Mem_bind_eq {A B} (m : Mem A) (f : A -> Mem B) h : (m ≫= f) h = ('(a, h') ← m h; f a h').
Proof. done. Qed.

Lemma bind_bind {A B C} (m : Mem A) (f : A -> Mem B) (g : B -> Mem C) h :
  ((m ≫= f) ≫= g) h = (m ≫= (fun a => f a ≫= g)) h.
Proof. unfold mbind, Mem_bind. by destruct (m h) as [[? ?]| | |]. Qed.

Section building.
Context `{Allocator} (h : heap) (b : positive) (Hb : h !! b = None).

(** The first copy into a fresh block. *)
Lemma copy_first cs rest src s f i :
  cstr_at h src s ->
  (forall k c, cs !! k = Some c -> 0 <= f (i + Z.of_nat k) <= size s /\ c_at s (f (i + Z.of_nat k)) = c) ->
  i = 0 ->
  for_loop (length cs) i (copy_byte src (Ptr b 0) f id)
      (<[b := Block (replicate (length cs) None ++ rest) true]> h) =
    Ok (tt, <[b := Block (map Some cs ++ rest) true]> h).
Proof using Hb.
  intros Hs Hf ->. apply (copy_filled h b true Hb [] _ rest cs src s f id 0); try done.
  by rewrite length_replicate.
Qed.

(** A string with its NUL. *)
Lemma bytes_with_nul s k c :
  (s ++ [NUL]) !! k = Some c -> 0 <= Z.of_nat k <= size s /\ c_at s (Z.of_nat k) = c.
Proof using.
  intros Hk. pose proof (lookup_lt_Some _ _ _ Hk) as Hlt. rewrite length_app in Hlt. simpl in Hlt.
  split; [unfold size; lia|]. destruct (decide (k = length s)) as [->|Hne].
  - rewrite list_lookup_middle in Hk by done. injection Hk as <-. apply c_at_nul.
  - rewrite lookup_app_l in Hk by lia. by apply c_at_lookup.
Qed.

(** A whole string, behind what has been written. *)
Lemma copy_string pre post src s g :
  cstr_or_null h src s -> (forall i, g i = i + Z.of_nat (length pre)) ->
  for_loop (Z.to_nat (size s)) 0 (copy_byte src (Ptr b 0) id g)
      (<[b := Block (pre ++ replicate (length s) None ++ post) true]> h) =
    Ok (tt, <[b := Block (pre ++ map Some s ++ post) true]> h).
Proof using Hb.
  intros [[-> ->]|Hs] Hg; [done|]. unfold size. rewrite Nat2Z.id.
  apply (copy_filled h b true Hb pre _ post s src s id g 0 Hs).
  - by rewrite length_replicate.
  - intros k c Hk. pose proof (lookup_lt_Some _ _ _ Hk). rewrite Z.add_0_l. unfold id.
    split; [unfold size; lia|by apply c_at_lookup].
  - intros k Hk. rewrite Hg. lia.
Qed.

(** The NUL at the end of a block that is otherwise written. *)
Lemma store_last s x i :
  i = size s ->
  store (Ptr b 0) i NUL (<[b := Block (map Some s ++ [x]) true]> h) = Ok (tt, <[b := str_block s]> h).
Proof using.
  intros ->. rewrite (store_filled h b true (map Some s) [] x NUL).
  - by rewrite str_block_nul.
  - by rewrite length_map.
Qed.

(** An action that neither needs nor touches the block. *)
Definition apart (m : Mem unit) : Prop := forall h' blk,
  h' !! b = None ->
  m (<[b := blk]> h') = ('(_, h2) ← m h'; Ok (tt, <[b := blk]> h2)) /\
  forall u h2, m h' = Ok (u, h2) -> h2 !! b = None.

Lemma apart_ret : apart (mret tt).
Proof using. intros h' blk Hn. split; [done|]. by intros u h2 [= _ <-]. Qed.

Lemma apart_free p : ptr_block p <> Some b -> apart (free p).
Proof using.
  destruct p as [|b' off]; [intros _; apply apart_ret|]. simpl. intros Hne h' blk Hn. unfold free.
  rewrite lookup_insert_ne by congruence. destruct (h' !! b') as [blk'|]; simpl; [|done].
  destruct (_ && _); [|done]. simpl. split; [by rewrite delete_insert_ne by congruence|].
  intros u h2 [= _ <-]. by apply lookup_delete_None; right.
Qed.

Lemma apart_if (c : bool) m : apart m -> apart (if c then m else mret tt).
Proof using. destruct c; [done|intros _; apply apart_ret]. Qed.

Lemma apart_seq m1 m2 : apart m1 -> apart m2 -> apart (m1 ≫= fun _ => m2).
Proof using.
  intros H1 H2 h' blk Hn. destruct (H1 h' blk Hn) as [E1 N1].
  unfold mbind, Mem_bind. rewrite E1. destruct (m1 h') as [[u1 h1]| | |]; simpl; try done.
  destruct (H2 h1 blk (N1 _ _ eq_refl)) as [E2 N2]. split; [by rewrite E2|]. intros u h2 E. by apply (N2 u).
Qed.

(** The NUL may be stored after such an action. *)
Lemma store_after m s x i :
  apart m -> i = size s ->
  (_ ← m; _ ← store (Ptr b 0) i NUL; mret (Ptr b 0))%stdpp (<[b := Block (map Some s ++ [x]) true]> h) =
    (_ ← m; mret (Ptr b 0))%stdpp (<[b := str_block s]> h).
Proof using Hb.
  intros Hm Hi. rewrite !(Mem_bind_eq m).
  destruct (Hm h (Block (map Some s ++ [x]) true) Hb) as [-> Hn].
  destruct (Hm h (str_block s) Hb) as [-> _].
  destruct (m h) as [[u h2]| | |]; simpl; try done.
  rewrite (fun H2 => Mem_bind_ok (store_filled h2 b true (map Some s) [] x NUL i H2)).
  - by rewrite str_block_nul.
  - by rewrite length_map.
Qed.
End building.
Lemma live_not_fresh h b p s : h !! b = None -> cstr_or_null h p s -> ptr_block p <> Some b.
Proof.
  intros Hb [[-> _]|Hs]; [done|]. destruct (cstr_live Hs) as (b' & -> & [? ?]). congruence.
Qed.

Section functions.
Context `{Allocator}.

Lemma str_reverse_spec h p s :
  cstr_at h p s -> str_reverse p h = (q ← new_string (reverse s); _ ← free p; mret q) h.
Proof using.
  intros Hp. pose proof (cstr_size Hp). pose proof (size_nonneg s).
  assert (Hl : size (reverse s) = size s) by (unfold size; by rewrite length_reverse).
  unfold str_reverse. rewrite (Mem_bind_ok (strlen_cstr Hp)). rewrite (to_size_t_small (_ + 1)) by lia.
  apply malloc_filled; [lia| |by apply loop_null].
  intros b Hb. rewrite (fresh_block_string _ (reverse s)) by lia. simpl.
  replace (Z.to_nat (size s)) with (length (reverse s)) by (unfold size in *; lia).
  rewrite (fun Hf => Mem_bind_ok (copy_first h b Hb (reverse s) [None] p s
    (fun i => to_size_t (to_size_t (size s - 1) - i)) 0 Hp Hf eq_refl)).
  { by rewrite (Mem_bind_ok (store_last h b (reverse s) None (size s) ltac:(lia))). }
  intros k c Hk. pose proof (lookup_lt_Some _ _ _ Hk) as Hlt.
  rewrite length_reverse in Hlt. rewrite reverse_lookup in Hk by done.
  rewrite <- (c_at_lookup _ _ _ Hk). unfold size in *.
  rewrite (to_size_t_small (_ - 1)), to_size_t_small by lia. split; [lia|f_equal; lia].
Qed.

Lemma free_undefined {A} p (k : unit -> Mem A) h :
  (forall h', k tt h' = Undefined) -> (free p ≫= k) h = Undefined.
Proof using.
  intros Hk. rewrite Mem_bind_eq. destruct p as [|b off]; simpl; [done|].
  destruct (h !! b); simpl; [|done]. destruct (_ && _); simpl; [done|done].
Qed.

Lemma free_if_undefined {A} (c : bool) p (k : unit -> Mem A) h :
  (forall h', k tt h' = Undefined) -> ((if c then free p else mret tt) ≫= k) h = Undefined.
Proof using. intros Hk. destruct c; [by apply free_undefined|apply Hk]. Qed.

Lemma concat_spec h p q s t mem :
  cstr_or_null h p s -> cstr_or_null h q t ->
  concat p q mem h =
    (r ← new_string (s ++ t);
     _ ← (if Z.testbit mem 1 then free q else mret tt);
     _ ← (if Z.testbit mem 0 then free p else mret tt); mret r) h.
Proof using.
  intros Hp Hq. pose proof (cstr_or_null_size _ _ _ Hp). pose proof (cstr_or_null_size _ _ _ Hq).
  unfold concat. rewrite (Mem_bind_ok (strlength_spec _ _ _ Hp)), (Mem_bind_ok (strlength_spec _ _ _ Hq)).
  rewrite (to_size_t_small (size s + size t)), to_size_t_small by lia.
  apply malloc_filled; [by rewrite size_app| |].
  2: { apply loop_null, loop_null, free_if_undefined. intros h'. by apply free_if_undefined. }
  intros b Hb. rewrite (fresh_block_parts _ s t) by done.
  pose proof (copy_string h b Hb [] (replicate (length t) None ++ [None]) p s id Hp
    ltac:(intros; unfold id; simpl; lia)) as E1. rewrite (Mem_bind_ok E1). cbn [app].
  rewrite (Mem_bind_ok (copy_string h b Hb (map Some s) [None] q t (fun i => i + size s) Hq
    ltac:(intros; rewrite length_map; unfold size; lia))).
  rewrite app_assoc, <- map_app.
  set (m2 := if Z.testbit mem 1 then _ else _). set (m1 := if Z.testbit mem 0 then _ else _).
  rewrite <- (bind_bind m2 (fun _ => m1)). rewrite <- (bind_bind m2 (fun _ => m1)).
  apply (store_after h b Hb); [|by rewrite size_app].
  apply apart_seq; apply apart_if, apart_free; by eapply live_not_fresh.
Qed.

Lemma strappend_spec h c p s :
  cstr_or_null h p s -> strappend c p h = (q ← new_string (c :: s); _ ← free p; mret q) h.
Proof using.
  intros Hp. pose proof (cstr_or_null_size _ _ _ Hp).
  unfold strappend. rewrite (Mem_bind_ok (strlength_spec _ _ _ Hp)).
  rewrite to_size_t_small by lia. apply malloc_filled; [rewrite size_cons; lia| |done].
  intros b Hb. rewrite (fresh_block_parts _ [c] s) by (rewrite size_cons, size_nil; lia).
  rewrite (fun Hi => Mem_bind_ok (store_filled h b true [] (replicate (length s) None ++ [None]) None c 0 Hi))
    by done.
  destruct Hp as [[-> ->]|Hp].
  { simpl. pose proof (store_last h b [c] None 1 eq_refl) as E. simpl in E. by rewrite (Mem_bind_ok E). }
  rewrite (is_null_cstr _ _ _ Hp).
  replace (Z.to_nat (size s + 1)) with (length (s ++ [NUL])) by (rewrite length_app; unfold size; simpl; lia).
  replace (replicate (length s) None ++ [None]) with (replicate (length (s ++ [NUL])) (@None ascii) ++ [])
    by (rewrite length_app, replicate_add, app_nil_r; done).
  change ([] ++ Some c :: ?l) with ([Some c] ++ l).
  rewrite (fun Hl Hf Hg => Mem_bind_ok (copy_filled h b true Hb [Some c] _ [] (s ++ [NUL]) p s
    (fun i => i - 1) id 1 Hp Hl Hf Hg)).
  - rewrite app_nil_r, map_app. apply (store_after h b Hb _ (c :: s)); [|by rewrite size_cons].
    apply apart_free, (live_not_fresh h b p s); [done|by right].
  - by rewrite length_replicate.
  - intros k d Hk. replace (1 + Z.of_nat k - 1) with (Z.of_nat k) by lia. by apply bytes_with_nul.
  - intros k Hk. unfold id. simpl. lia.
Qed.

(** What [stradd] writes after the call of [free]. *)
Lemma stradd_end h b s x y c m :
  h !! b = None -> apart b m ->
  (_ ← m; _ ← store (Ptr b 0) (size s + 1) NUL; _ ← store (Ptr b 0) (size s) c; mret (Ptr b 0))%stdpp
      (<[b := Block (map Some s ++ [x; y]) true]> h) =
    (_ ← m; mret (Ptr b 0))%stdpp (<[b := str_block (s ++ [c])]> h).
Proof using.
  intros Hb Hm. rewrite !(Mem_bind_eq m).
  destruct (Hm h (Block (map Some s ++ [x; y]) true) Hb) as [-> Hn].
  destruct (Hm h (str_block (s ++ [c])) Hb) as [-> _].
  destruct (m h) as [[u h2]| | |]; simpl; try done.
  replace (map Some s ++ [x; y]) with ((map Some s ++ [x]) ++ [y]) by by rewrite <- app_assoc.
  rewrite (fun Hi => Mem_bind_ok (store_filled h2 b true (map Some s ++ [x]) [] y NUL (size s + 1) Hi))
    by (rewrite length_app, length_map; unfold size; simpl; lia).
  rewrite <- app_assoc.
  rewrite (fun Hi => Mem_bind_ok (store_filled h2 b true (map Some s) [Some NUL] x c (size s) Hi))
    by by rewrite length_map.
  unfold str_block. by rewrite !map_app, <- app_assoc.
Qed.

Lemma stradd_spec h c p s :
  cstr_or_null h p s -> stradd p c h = (q ← new_string (s ++ [c]); _ ← free p; mret q) h.
Proof using.
  intros Hp. pose proof (cstr_or_null_size _ _ _ Hp).
  unfold stradd. rewrite (Mem_bind_ok (strlength_spec _ _ _ Hp)).
  rewrite to_size_t_small by lia. apply malloc_filled; [rewrite size_app, size_cons, size_nil; lia| |].
  2: { destruct Hp as [[-> ->]|Hp]; [done|]. rewrite (is_null_cstr _ _ _ Hp).
       unfold strcpy. rewrite !bind_bind, (Mem_bind_ok (strlen_cstr Hp)).
       apply loop_null. by apply free_undefined. }
  intros b Hb. rewrite (fresh_block_parts _ s [NUL]) by (rewrite size_cons, size_nil; lia).
  destruct Hp as [[-> ->]|Hp].
  { rewrite is_null_null. exact (stradd_end h b [] None None c (mret tt) Hb (apart_ret b)). }
  rewrite (is_null_cstr _ _ _ Hp). unfold strcpy. rewrite !bind_bind.
  rewrite (Mem_bind_ok (strlen_cstr (cstr_insert b _ Hb Hp))).
  replace (Z.to_nat (size s + 1)) with (length (s ++ [NUL])) by (rewrite length_app; unfold size; simpl; lia).
  rewrite app_assoc, <- replicate_add. rewrite <- length_app.
  rewrite (fun Hf => Mem_bind_ok (copy_first h b Hb (s ++ [NUL]) [None] p s id 0 Hp Hf eq_refl))
    by (intros k d Hk; unfold id; rewrite Z.add_0_l; by apply bytes_with_nul).
  rewrite map_app, <- app_assoc. apply (stradd_end h b s (Some NUL) None c (free p)); [done|].
  apply apart_free, (live_not_fresh h b p s); [done|by right].
Qed.

(** *** Substrings *)

Lemma bind_ret {A} (m : Mem A) h : (m ≫= mret) h = m h.
Proof using. rewrite Mem_bind_eq. by destruct (m h) as [[? ?]| | |]. Qed.

Lemma to_int_to_size_t z : INT_MIN <= z <= INT_MAX -> to_int (to_size_t z) = z.
Proof using.
  intros Hz. pose proof Hz as Hz'. unfold INT_MIN, INT_MAX in Hz'.
  destruct (decide (0 <= z)); [by rewrite to_size_t_small, to_int_small by lia|].
  rewrite to_size_t_neg by lia. rewrite <- (to_int_small z) at 2 by done. unfold to_int. f_equal.
  replace (z + 2 ^ 64 + 2 ^ 31) with (z + 2 ^ 31 + 2 ^ 32 * 2 ^ 32) by lia. apply Z_mod_plus_full.
Qed.

Lemma substring_spec fuel h p s index length :
  cstr_at h p s -> 0 <= index -> 0 <= length < INT_MAX -> index + length <= size s ->
  substring (S fuel) p index length h =
    new_string (take (Z.to_nat length) (drop (Z.to_nat index) s)) h.
Proof using.
  intros Hp Hi Hl Hend. pose proof (cstr_size Hp). cbn [substring].
  destruct (Z.ltb_spec length 0); [lia|].
  rewrite (proj2 (in_int_spec _)) by (unfold INT_MIN, INT_MAX in *; lia). cbn [negb].
  set (t := take _ _).
  assert (Ht : List.length t = Z.to_nat length)
    by (unfold t; rewrite length_take, length_drop; unfold size in *; lia).
  rewrite <- (bind_ret (new_string t)). apply malloc_filled; [unfold size; lia| |by apply loop_null].
  intros b Hb. rewrite (fresh_block_string _ t) by (unfold size; lia). simpl. rewrite <- Ht.
  rewrite (fun Hf => Mem_bind_ok (copy_first h b Hb t [None] p s (fun i => to_size_t (i + index)) 0 Hp Hf eq_refl)).
  { by rewrite (Mem_bind_ok (store_last h b t None length ltac:(unfold size; lia))). }
  intros k c Hk. unfold t in Hk. apply lookup_take_Some in Hk as [Hk Hlt]. rewrite lookup_drop in Hk.
  rewrite to_size_t_small by lia. split; [lia|]. rewrite <- (c_at_lookup _ _ _ Hk). f_equal. lia.
Qed.

(** The loop that copies up to the NUL ends at the end of the string. *)
Lemma copy_until_nul_spec fuel h b p s start f done rest :
  h !! b = None -> cstr_at h p s -> drop start s = done ++ rest -> (start <= length s)%nat ->
  (forall k, (k <= length s)%nat -> f (Z.of_nat k) = Z.of_nat (start + k)) ->
  (length rest < fuel)%nat ->
  copy_until_nul fuel p (Ptr b 0) f (size done)
      (<[b := Block (map Some done ++ replicate (length rest) None ++ [None]) true]> h) =
    Ok (size (done ++ rest), <[b := Block (map Some (done ++ rest) ++ [None]) true]> h).
Proof using.
  intros Hb Hp Hs Hst Hf. revert fuel done Hs. induction rest as [|c rest IH]; intros fuel done Hs Hfuel.
  all: destruct fuel as [|fuel]; [simpl in Hfuel; lia|]; cbn [copy_until_nul].
  all: assert (Hlen := f_equal (@length _) Hs); rewrite length_drop, length_app in Hlen; simpl in Hlen.
  all: assert (Ef : f (size done) = Z.of_nat (start + length done)) by (apply Hf; lia).
  - set (h1 := <[b := _]> h). assert (Hp1 : cstr_at h1 p s) by by apply cstr_insert.
    rewrite (Mem_bind_ok (load_cstr Hp1 (i := f (size done)) ltac:(rewrite Ef; unfold size; lia))).
    rewrite Ef. replace (Z.of_nat _) with (size s) by (unfold size; lia). rewrite c_at_nul.
    rewrite bool_decide_true by done. unfold h1. by rewrite app_nil_r.
  - assert (Hc : s !! (start + length done)%nat = Some c)
      by (rewrite <- lookup_drop, Hs; by apply list_lookup_middle).
    set (h1 := <[b := _]> h). assert (Hp1 : cstr_at h1 p s) by by apply cstr_insert.
    assert (Hload := load_cstr Hp1 (i := f (size done)) ltac:(rewrite Ef; unfold size; lia)).
    rewrite Ef, (c_at_lookup _ _ _ Hc) in Hload. rewrite <- Ef in Hload.
    rewrite (Mem_bind_ok Hload).
    rewrite bool_decide_false by (intros ->; destruct (cstr_nul Hp); by eapply list_elem_of_lookup_2).
    unfold copy_byte. rewrite bind_bind, (Mem_bind_ok Hload). unfold h1. cbn [replicate length app].
    rewrite (fun Hi => Mem_bind_ok (store_filled h b true (map Some done) _ None c (id (size done)) Hi))
      by by rewrite length_map.
    replace (done ++ c :: rest) with ((done ++ [c]) ++ rest) by by rewrite <- app_assoc.
    rewrite <- (IH fuel (done ++ [c])); [|by rewrite <- app_assoc|simpl in *; lia].
    rewrite size_app, map_app, <- app_assoc. done.
Qed.

Lemma copy_until_null {A} fuel src f i h (k : Z -> Mem A) s n :
  cstr_at h src s -> f i = n -> 0 <= n <= size s -> (forall j, k j h = Undefined) ->
  (copy_until_nul (S fuel) src Null f i ≫= k) h = Undefined.
Proof using.
  intros Hs <- Hn Hk. cbn [copy_until_nul]. rewrite bind_bind, (Mem_bind_ok (load_cstr Hs Hn)).
  destruct (bool_decide _); [apply Hk|]. rewrite bind_bind. apply Mem_bind_undefined, copy_null.
Qed.

(** The common end of [substr] and [substr_r]. *)
Lemma copy_rest h p s start f n :
  cstr_at h p s -> (start <= length s)%nat -> n = Z.of_nat (length s - start) + 1 ->
  (forall k, (k <= length s)%nat -> f (Z.of_nat k) = Z.of_nat (start + k)) ->
  (out ← malloc n; i ← copy_until_nul (S (Z.to_nat (size s))) p out f 0;
   _ ← store out i NUL; mret out)%stdpp h = new_string (drop start s) h.
Proof using.
  intros Hp Hst -> Hf. rewrite <- (bind_ret (new_string _)).
  assert (Hl : length (drop start s) = (length s - start)%nat) by by rewrite length_drop.
  apply malloc_filled; [unfold size; by rewrite Hl| |].
  - intros b Hb. rewrite (fresh_block_string _ (drop start s)) by (unfold size; by rewrite Hl).
    pose proof (copy_until_nul_spec (S (Z.to_nat (size s))) h b p s start f [] (drop start s) Hb Hp eq_refl
      Hst Hf ltac:(unfold size; lia)) as E. cbn [map app] in *. rewrite size_nil in E.
    rewrite (Mem_bind_ok E). by rewrite (Mem_bind_ok (store_last h b (drop start s) None _ eq_refl)).
  - apply (copy_until_null _ _ _ _ _ _ s (Z.of_nat (start + 0)) Hp); [|unfold size; lia|done].
    apply (Hf 0%nat). lia.
Qed.

Lemma substr_spec h p s index :
  cstr_or_null h p s -> 0 <= index < INT_MAX ->
  substr p index h =
    if index <? size s then new_string (drop (Z.to_nat index) s) h else Ok (Null, h).
Proof using.
  intros Hp Hi. pose proof (cstr_or_null_size _ _ _ Hp). unfold substr.
  destruct (Z.ltb_spec index 0); [lia|]. rewrite (Mem_bind_ok (strlength_spec _ _ _ Hp)).
  rewrite (proj2 (in_int_spec _)) by (unfold INT_MIN, INT_MAX in *; lia). cbn [negb].
  destruct (Z.ltb_spec (size s) (index + 1)); destruct (Z.ltb_spec index (size s)); try lia; [done|].
  destruct Hp as [[-> ->]|Hp]; [rewrite size_nil in *; lia|].
  apply copy_rest; [done|unfold size in *; lia| |].
  - rewrite to_size_t_small by lia. unfold size in *. lia.
  - intros k Hk. unfold size in *. rewrite to_size_t_small by lia. lia.
Qed.

(** [substr_r] and [substr] with a negative index: the last bytes. *)
Lemma substr_r_spec h p s index :
  cstr_at h p s -> INT_MIN + 1 < index < 0 -> - index <= size s ->
  substr p index h = new_string (drop (Z.to_nat (size s + index)) s) h.
Proof using.
  intros Hp Hi Hs. pose proof (cstr_size Hp). unfold substr.
  destruct (Z.ltb_spec index 0); [|lia]. unfold substr_r. rewrite (Mem_bind_ok (strlen_cstr Hp)).
  rewrite !(proj2 (in_int_spec _)) by (unfold INT_MIN, INT_MAX in *; lia). cbn [negb andb].
  unfold INT_MIN, size in *. rewrite (to_size_t_small (_ + index)) by lia.
  apply copy_rest; [done|lia| |].
  - rewrite to_size_t_small by lia. lia.
  - intros k Hk. rewrite to_size_t_small by lia. lia.
Qed.

(** The recursive call of [substring] with a negative length. *)
Lemma substring_step fuel h p s index length :
  cstr_at h p s -> 0 <= index <= size s -> size s <= INT_MAX -> INT_MIN <= length < 0 ->
  substring (S fuel) p index length h = substring fuel p index (size s - index + length) h.
Proof using.
  intros Hp Hi Hs Hl. pose proof (cstr_size Hp). unfold INT_MIN, INT_MAX in *. cbn [substring].
  destruct (Z.ltb_spec length 0); [|lia]. rewrite (Mem_bind_ok (strlen_cstr Hp)).
  rewrite (to_size_t_small (index - length)) by lia.
  rewrite to_int_to_size_t by (unfold INT_MIN, INT_MAX; lia). f_equal. f_equal. lia.
Qed.

(** A negative length counts from the end; one beyond the start of the substring
    is taken modulo what is left of the string. *)
Lemma substring_negative fuel h p s index length :
  cstr_at h p s -> 0 <= index < size s -> size s < INT_MAX -> INT_MIN <= length < 0 ->
  Z.of_nat fuel > - length + 1 ->
  substring fuel p index length h =
    new_string (take (Z.to_nat (length mod (size s - index))) (drop (Z.to_nat index) s)) h.
Proof using.
  intros Hp Hi Hs. revert length. induction fuel as [|fuel IH]; intros length Hl Hfuel; [lia|].
  rewrite (substring_step fuel h p s index length) by (try done; lia).
  set (m := size s - index). assert (Em : length mod m = (m + length) mod m).
  { replace (m + length) with (length + 1 * m) by lia. by rewrite Z_mod_plus_full. }
  rewrite Em. destruct (decide (m + length < 0)).
  - apply IH; unfold m, INT_MIN in *; lia.
  - rewrite Z.mod_small by (unfold m; lia). destruct fuel as [|fuel]; [lia|].
    apply substring_spec; try done; unfold m; lia.
Qed.

(** At the end of the string the recursion never ends. *)
Lemma substring_diverges fuel h p s length :
  cstr_at h p s -> size s <= INT_MAX -> INT_MIN <= length < 0 ->
  substring fuel p (size s) length h = Diverged.
Proof using.
  intros Hp Hs Hl. pose proof (size_nonneg s). induction fuel as [|fuel IH]; [done|].
  rewrite (substring_step fuel h p s (size s) length) by (try done; lia).
  by replace (size s - size s + length) with length by lia.
Qed.
End functions.

(** *** Searching *)

Lemma drop_at (s : str) i c : s !! i = Some c -> drop i s = c :: drop (S i) s.
Proof. intros Hc. by apply drop_S. Qed.

Definition position (o : option nat) (i : nat) : Z :=
  match o with Some k => Z.of_nat (i + k) | None => -1 end.

Lemma find_nat_short (pat s : str) : (length s < length pat)%nat -> find_nat pat s = None.
Proof.
  intros Hl. destruct (find_nat pat s) as [k|] eqn:E; [|done].
  apply find_nat_Some in E as ((r & Hr) & Hk & _). apply (f_equal (@length _)) in Hr.
  rewrite length_drop, length_app in Hr. lia.
Qed.

Section search.
Context (h : heap) (p q : ptr) (s t : str) (Hp : cstr_at h p s) (Hq : cstr_at h q t).

(** One round of the loop. *)
Lemma strpos_round n i :
  (i <= length s)%nat ->
  strpos_loop (S n) p q (size t) (Z.of_nat i) h =
    if bool_decide (c_at s (Z.of_nat i) = c_at t 0) && starts_with t (drop i s)
    then Ok (Z.of_nat i, h) else strpos_loop n p q (size t) (Z.of_nat (S i)) h.
Proof using Hp Hq.
  intros Hi. pose proof (cstr_size Hp). cbn [strpos_loop].
  rewrite (Mem_bind_ok (load_cstr Hp (i := Z.of_nat i) ltac:(unfold size; lia))).
  rewrite (Mem_bind_ok (load_cstr Hq (i := 0) ltac:(pose proof (size_nonneg t); lia))).
  pose proof (char_compsub_spec h q p t s (Z.of_nat i) Hq Hp ltac:(unfold size; lia)) as E.
  rewrite Nat2Z.id in E. replace (Z.of_nat i + 1) with (Z.of_nat (S i)) by lia.
  assert (Hsmall : to_int64 (Z.of_nat i) = Z.of_nat i)
    by (apply to_int64_small; unfold size in *; lia).
  destruct (bool_decide _) eqn:Eb; cbn [andb]; [|done].
  rewrite (Mem_bind_ok E). destruct (starts_with _ _); [by rewrite Hsmall|done].
Qed.

Lemma strpos_loop_spec n i :
  t <> [] -> (i + n = length s - length t + 1)%nat -> (length t <= length s)%nat ->
  strpos_loop n p q (size t) (Z.of_nat i) h = Ok (position (find_nat t (drop i s)) i, h).
Proof using Hp Hq.
  intros Ht. revert i. induction n as [|n IH]; intros i Hi Hl.
  { rewrite find_nat_short; [done|]. rewrite length_drop. destruct t; [done|]. simpl in *. lia. }
  assert (Hlt : (0 < length t)%nat) by (destruct t; [done|simpl; lia]).
  destruct (lookup_lt_is_Some_2 s i) as [c Hc]; [lia|].
  rewrite strpos_round by lia. rewrite find_nat_unfold, (c_at_lookup _ _ _ Hc), (drop_at _ _ _ Hc).
  destruct (starts_with t (c :: drop (S i) s)) eqn:Es.
  - rewrite bool_decide_true; [simpl; by rewrite Nat.add_0_r|].
    apply starts_with_spec in Es as [r Hr]. destruct t as [|d t']; [done|]. by injection Hr as -> _.
  - rewrite andb_false_r. rewrite IH by lia. destruct (find_nat t _); simpl; [|done]. by rewrite Nat.add_succ_r.
Qed.

(** [strpos] is [find] of a string that is not empty. *)
Lemma strpos_spec : t <> [] -> strpos p q h = Ok (position (find_nat t s) 0, h).
Proof using Hp Hq.
  intros Ht. unfold strpos. rewrite (Mem_bind_ok (strlen_cstr Hp)), (Mem_bind_ok (strlen_cstr Hq)).
  assert (Hlt : (0 < length t)%nat) by (destruct t; [done|simpl; lia]).
  rewrite Z.gtb_ltb. destruct (Z.eqb_spec (size s) 0); [|destruct (Z.ltb_spec (size s) (size t))]; simpl.
  1-2: rewrite find_nat_short; [done|unfold size in *; lia].
  apply (strpos_loop_spec _ 0%nat); unfold size in *; [done|lia|lia].
Qed.
End search.

(** An empty needle is found at the end. *)
Lemma strpos_empty h p q s :
  cstr_at h p s -> cstr_at h q [] -> s <> [] -> strpos p q h = Ok (size s, h).
Proof.
  intros Hp Hq Hs. unfold strpos. rewrite (Mem_bind_ok (strlen_cstr Hp)), (Mem_bind_ok (strlen_cstr Hq)).
  destruct (Z.eqb_spec (size s) 0) as [E|_]; [by apply size_zero in E|].
  rewrite Z.gtb_ltb, size_nil. destruct (Z.ltb_spec (size s) 0); [pose proof (size_nonneg s); lia|]. simpl.
  assert (Hloop : forall n i, (i + n = S (length s))%nat -> (0 < n)%nat ->
    strpos_loop n p q (size []) (Z.of_nat i) h = Ok (size s, h)).
  { induction n as [|n IH]; intros i Hi Hn; [lia|]. rewrite (strpos_round h p q s [] Hp Hq) by lia.
    destruct (decide (i = length s)) as [->|Hne].
    - rewrite c_at_nul. done.
    - destruct (lookup_lt_is_Some_2 s i) as [c Hc]; [lia|]. rewrite (c_at_lookup _ _ _ Hc).
      rewrite bool_decide_false; [apply IH; lia|]. cbv. intros ->.
      destruct (cstr_nul Hp). by eapply list_elem_of_lookup_2. }
  rewrite <- (Hloop (S (length s)) 0%nat) by lia. f_equal. unfold size. lia.
Qed.

(** *** Allocation that succeeds: what is left in the heap *)

Section roomy_heap.
Context `{Allocator} (Hroom : roomy).

(** [concat] with room: the new string, beside what the calls of [free] leave. *)
Lemma concat_roomy h p q s t mem :
  cstr_or_null h p s -> cstr_or_null h q t ->
  exists b, h !! b = None /\
    concat p q mem h =
      ('(_, h') ← (_ ← (if Z.testbit mem 1 then free q else mret tt);
                   if Z.testbit mem 0 then free p else mret tt)%stdpp h;
       Ok (Ptr b 0, <[b := str_block (s ++ t)]> h')).
Proof using Hroom.
  intros Hp Hq. rewrite (concat_spec h p q s t mem Hp Hq).
  destruct (new_string_roomy (s ++ t) h Hroom) as (b & Hb & E). exists b. split; [done|].
  rewrite (Mem_bind_ok E). set (m2 := if Z.testbit mem 1 then _ else _).
  set (m1 := if Z.testbit mem 0 then _ else _). rewrite <- (bind_bind m2 (fun _ => m1)).
  assert (Ha : apart b (_ ← m2; m1)%stdpp).
  { apply apart_seq; apply apart_if, apart_free; by eapply live_not_fresh. }
  rewrite Mem_bind_eq. destruct (Ha h (str_block (s ++ t)) Hb) as [-> _].
  by destruct ((_ ← m2; m1)%stdpp h) as [[? ?]| | |].
Qed.

Lemma nul_app s t : NUL ∉ s -> NUL ∉ t -> NUL ∉ s ++ t.
Proof using. rewrite elem_of_app. tauto. Qed.

Lemma cstr_or_null_nul h p s : cstr_or_null h p s -> NUL ∉ s.
Proof using. intros [[-> ->]|Hs]; [apply not_elem_of_nil|apply (cstr_nul Hs)]. Qed.

Lemma cstr_or_null_insert h b blk p s :
  h !! b = None -> cstr_or_null h p s -> cstr_or_null (<[b := blk]> h) p s.
Proof using. intros Hb [?|Hs]; [by left|right; by apply cstr_insert]. Qed.

(** Appending to a temporary string that is freed. *)
Lemma concat_temporary h b p s t :
  h !! b = None -> NUL ∉ s -> cstr_or_null h p t -> size s < 2 ^ 63 - 1 ->
  exists b', h !! b' = None /\
    concat (Ptr b 0) p FIRST (<[b := str_block s]> h) = Ok (Ptr b' 0, <[b' := str_block (s ++ t)]> h).
Proof using Hroom.
  intros Hb Hn Hp Hl. set (h1 := <[b := str_block s]> h).
  assert (Hs : cstr_or_null h1 (Ptr b 0) s) by (right; by apply cstr_str_block).
  destruct (concat_roomy h1 (Ptr b 0) p s t FIRST Hs (cstr_or_null_insert _ _ _ _ _ Hb Hp))
    as (b2 & Hb2 & E).
  apply lookup_insert_None in Hb2 as [Hb2 _]. exists b2. split; [done|]. rewrite E.
  change (Z.testbit FIRST 1) with false. change (Z.testbit FIRST 0) with true. cbv iota.
  rewrite (Mem_bind_ok (m := mret tt) (a := tt) (h' := h1) eq_refl). unfold h1. by rewrite free_new.
Qed.

Lemma concat_all_loop_spec h ps ss acc b i :
  h !! b = None -> Forall2 (cstr_or_null h) ps ss -> NUL ∉ acc -> 0 < i ->
  size (acc ++ mjoin ss) < 2 ^ 63 - 1 ->
  exists b', h !! b' = None /\
    concat_all_loop (length ps) i ps (Ptr b 0) (<[b := str_block acc]> h) =
      Ok (Ptr b' 0, <[b' := str_block (acc ++ mjoin ss)]> h).
Proof using Hroom.
  intros Hb Hps. revert acc b i Hb. induction Hps as [|p t ps ss Hp Hps IH]; intros acc b i Hb Hn Hi Hl.
  { exists b. simpl. by rewrite app_nil_r. }
  change (mjoin (t :: ss)) with (t ++ mjoin ss) in *. rewrite app_assoc in *.
  destruct (concat_temporary h b p acc t Hb Hn Hp ltac:(clear -Hl; size_lia)) as (b2 & Hb2 & E).
  cbn [concat_all_loop length]. destruct (Z.eqb_spec i 0); [lia|]. rewrite (Mem_bind_ok E).
  apply IH; [done| |lia|done]. apply nul_app; [done|]. by eapply cstr_or_null_nul.
Qed.

(** The temporaries of [concat_all] are freed: one block is added to the heap. *)
Lemma concat_all_spec h ps ss :
  ps <> [] -> Forall2 (cstr_or_null h) ps ss -> size (mjoin ss) < 2 ^ 63 - 1 ->
  exists b, h !! b = None /\
    concat_all (Z.of_nat (length ps)) ps h = Ok (Ptr b 0, <[b := str_block (mjoin ss)]> h).
Proof using Hroom.
  intros Hne Hps Hl. unfold concat_all. rewrite Nat2Z.id.
  destruct Hps as [|p t ps ss Hp Hps]; [done|]. change (mjoin (t :: ss)) with (t ++ mjoin ss) in *.
  destruct (concat_roomy h Null p [] t FALSE ltac:(by left) Hp) as (b & Hb & E).
  change (Z.testbit FALSE 1) with false in E. change (Z.testbit FALSE 0) with false in E.
  cbv iota in E. rewrite (Mem_bind_ok (m := mret tt) (a := tt) (h' := h) eq_refl) in E.
  cbn [concat_all_loop length]. rewrite Z.eqb_refl. rewrite (Mem_bind_ok E).
  apply concat_all_loop_spec; [done|done| |lia|done]. by eapply cstr_or_null_nul.
Qed.

(** *** [str_replace] *)

(** One replacement, at the position [find] gives. *)
Definition replaced (search replace s : str) (k : nat) : str :=
  take k s ++ replace ++ drop (k + length search) s.

(** [replaces k s r]: [k] replacements of the first occurrence lead from [s] to
    [r], which has none. *)
Inductive replaces (search replace : str) : nat -> str -> str -> Prop :=
| replaces_done s : find_nat search s = None -> replaces search replace 0 s s
| replaces_more k i s r :
    find_nat search s = Some i -> replaces search replace k (replaced search replace s i) r ->
    replaces search replace (S k) s r.

Lemma replaced_size search replace s k :
  find_nat search s = Some k -> size (replaced search replace s k) = size s - size search + size replace.
Proof using.
  intros E. apply find_nat_Some in E as ((r & Hr) & Hk & _). apply (f_equal (@length _)) in Hr.
  rewrite length_drop, length_app in Hr. unfold replaced, size.
  rewrite !length_app, length_take, length_drop. lia.
Qed.

Lemma found_range search s k :
  find_nat search s = Some k -> (k + length search <= length s)%nat.
Proof using.
  intros E. apply find_nat_Some in E as ((r & Hr) & Hk & _). apply (f_equal (@length _)) in Hr.
  rewrite length_drop, length_app in Hr. lia.
Qed.

(** The replacement of [Str] takes the same step. *)
Lemma string_replace_step fuel search replace s :
  size s < 2 ^ 63 ->
  Str.str_replace (S fuel) search replace s =
    match find_nat search s with
    | None => Ok s
    | Some k => Str.str_replace fuel search replace (replaced search replace s k)
    end.
Proof using.
  intros Hs. cbn [Str.str_replace]. unfold find. destruct (find_nat search s) as [k|] eqn:E; [|done].
  pose proof (found_range _ _ _ E) as Hk. unfold size in Hs.
  destruct (Z.eqb_spec (Z.of_nat k) npos); [unfold npos in *; lia|].
  unfold Cxx.substr at 1. rewrite decide_True by (unfold size; lia). cbn [mbind outcome_bind].
  replace (Z.to_nat (Z.min (Z.of_nat k) (size s - 0))) with k by (unfold size; lia). rewrite drop_0.
  unfold replaced, substr_from, Cxx.substr.
  destruct (Z.ltb_spec (Z.of_nat k + size search) (size s)) as [Hlt|Hge].
  - rewrite decide_True by lia. cbn [mbind outcome_bind]. do 3 f_equal.
    rewrite take_ge; [f_equal; unfold size; lia|]. rewrite length_drop. unfold npos, size in *. lia.
  - rewrite (drop_ge s), app_nil_r by (unfold size in *; lia). done.
Qed.

(** A temporary behind a string, both freed or the temporary alone. *)
Lemma concat_frees_second h b p s t :
  h !! b = None -> NUL ∉ t -> cstr_or_null h p s -> size t < 2 ^ 63 - 1 ->
  exists b', h !! b' = None /\
    concat p (Ptr b 0) SECOND (<[b := str_block t]> h) = Ok (Ptr b' 0, <[b' := str_block (s ++ t)]> h).
Proof using Hroom.
  intros Hb Hn Hp Hl. set (h1 := <[b := str_block t]> h).
  assert (Ht : cstr_or_null h1 (Ptr b 0) t) by (right; by apply cstr_str_block).
  destruct (concat_roomy h1 p (Ptr b 0) s t SECOND (cstr_or_null_insert _ _ _ _ _ Hb Hp) Ht)
    as (b2 & Hb2 & E).
  apply lookup_insert_None in Hb2 as [Hb2 _]. exists b2. split; [done|]. rewrite E.
  change (Z.testbit SECOND 1) with true. change (Z.testbit SECOND 0) with false. cbv iota.
  unfold h1. by rewrite (Mem_bind_ok (free_new b t h Hb)).
Qed.

Lemma concat_frees_both h b1 b2 s t :
  h !! b1 = None -> h !! b2 = None -> b1 <> b2 -> NUL ∉ s -> NUL ∉ t ->
  size s < 2 ^ 63 - 1 -> size t < 2 ^ 63 - 1 ->
  exists b, h !! b = None /\
    concat (Ptr b1 0) (Ptr b2 0) (Z.lor FIRST SECOND) (<[b2 := str_block t]> (<[b1 := str_block s]> h)) =
      Ok (Ptr b 0, <[b := str_block (s ++ t)]> h).
Proof using Hroom.
  intros H1 H2 Hne Hs Ht Hls Hlt. set (h1 := <[b1 := str_block s]> h).
  assert (H12 : h1 !! b2 = None) by (unfold h1; by rewrite lookup_insert_ne).
  assert (C1 : cstr_or_null h1 (Ptr b1 0) s) by (right; by apply cstr_str_block).
  assert (C2 : cstr_or_null (<[b2 := str_block t]> h1) (Ptr b2 0) t) by (right; by apply cstr_str_block).
  destruct (concat_roomy _ _ _ s t (Z.lor FIRST SECOND) (cstr_or_null_insert _ b2 (str_block t) _ _ H12 C1) C2)
    as (b & Hb & E).
  apply lookup_insert_None in Hb as [Hb _]. apply lookup_insert_None in Hb as [Hb _].
  exists b. split; [done|]. rewrite E. change (Z.testbit (Z.lor FIRST SECOND) 1) with true.
  change (Z.testbit (Z.lor FIRST SECOND) 0) with true. cbv iota.
  rewrite (Mem_bind_ok (free_new b2 t h1 H12)). unfold h1. by rewrite (free_new b1 s h H1).
Qed.

Lemma nul_part s u v : NUL ∉ s -> s = u ++ v -> (NUL ∉ u) /\ (NUL ∉ v).
Proof using. intros Hn ->. rewrite elem_of_app in Hn. tauto. Qed.

Lemma replace_step fuel h ps pr pj search replace s k :
  cstr_at h ps search -> cstr_or_null h pr replace -> cstr_at h pj s -> search <> [] ->
  find_nat search s = Some k -> size s < INT_MAX -> size (replaced search replace s k) < 2 ^ 63 - 1 ->
  exists b, h !! b = None /\
    str_replace (S fuel) ps pr pj h =
      str_replace fuel ps pr (Ptr b 0) (<[b := str_block (replaced search replace s k)]> h).
Proof using Hroom.
  intros Hps Hpr Hpj Hne Hk Hs Hr. pose proof (found_range _ _ _ Hk) as Hrange.
  pose proof (cstr_size Hps) as Hls. pose proof (cstr_nul Hpj) as Hn.
  destruct (nul_part s (take k s) (drop k s) Hn (eq_sym (take_drop k s))) as [Hn1 _].
  destruct (nul_part s _ _ Hn (eq_sym (take_drop (k + length search) s))) as [_ Hn2].
  unfold replaced in *. unfold INT_MAX, size in Hs.
  assert (Hl1 : size (take k s) < 2 ^ 63 - 1) by (unfold size; rewrite length_take; lia).
  cbn [str_replace]. rewrite (Mem_bind_ok (strpos_spec h pj ps s search Hpj Hps Hne)), Hk.
  unfold position. simpl (0 + k)%nat. destruct (Z.eqb_spec (Z.of_nat k) (-1)); [lia|].
  rewrite to_int_small by (unfold INT_MIN, INT_MAX; lia).
  destruct (new_string_roomy (take k s) h Hroom) as (b1 & Hb1 & E1).
  pose proof (substring_spec fuel h pj s 0 (Z.of_nat k) Hpj ltac:(lia)
    ltac:(unfold INT_MAX; lia) ltac:(unfold size; lia)) as E.
  rewrite drop_0, Nat2Z.id, E1 in E. rewrite (Mem_bind_ok E). clear E.
  set (h1 := <[b1 := str_block (take k s)]> h).
  rewrite (Mem_bind_ok (strlen_cstr (cstr_insert b1 _ Hb1 Hps : cstr_at h1 ps search))).
  rewrite (Mem_bind_ok (strlen_cstr (cstr_insert b1 _ Hb1 Hpj : cstr_at h1 pj s))).
  rewrite to_size_t_small by (unfold size in *; lia).
  destruct (Z.ltb_spec (Z.of_nat k + size search) (size s)) as [Hlt|Hge].
  - rewrite to_int_small by (unfold INT_MIN, INT_MAX, size in *; lia).
    pose proof (substr_spec h1 pj s (Z.of_nat k + size search) ltac:(right; by apply cstr_insert)
      ltac:(unfold INT_MAX, size in *; lia)) as E.
    destruct (Z.ltb_spec (Z.of_nat k + size search) (size s)); [|lia].
    replace (Z.to_nat _) with (k + length search)%nat in E by (unfold size; lia).
    set (rest := drop (k + length search) s) in *.
    assert (Hl2 : size (replace ++ rest) < 2 ^ 63 - 1) by (clear -Hr; size_lia).
    destruct (new_string_roomy rest h1 Hroom) as (b2 & Hb2 & E2). rewrite E2 in E.
    rewrite (Mem_bind_ok E).
    destruct (concat_frees_second h1 b2 pr replace rest Hb2 Hn2 (cstr_or_null_insert _ _ _ _ _ Hb1 Hpr)
      ltac:(clear -Hl2; size_lia)) as (b3 & Hb3 & E3).
    rewrite (Mem_bind_ok E3).
    assert (Hb31 : h !! b3 = None /\ b1 <> b3)
      by (unfold h1 in Hb3; by apply lookup_insert_None in Hb3).
    destruct (concat_frees_both h b1 b3 (take k s) (replace ++ rest) Hb1 (proj1 Hb31) (proj2 Hb31) Hn1
      (nul_app _ _ (cstr_or_null_nul _ _ _ Hpr) Hn2) Hl1 Hl2) as (b4 & Hb4 & E4).
    exists b4. split; [done|]. by rewrite (Mem_bind_ok E4).
  - destruct (concat_temporary h b1 pr (take k s) replace Hb1 Hn1 Hpr Hl1) as (b2 & Hb2 & E2).
    exists b2. split; [done|]. rewrite (Mem_bind_ok E2).
    by rewrite (drop_ge s), app_nil_r by (unfold size in *; lia).
Qed.

Lemma nul_replaced search replace s k : NUL ∉ s -> NUL ∉ replace -> NUL ∉ replaced search replace s k.
Proof using.
  intros Hs Hr. unfold replaced. rewrite !elem_of_app. intros [Hi|[Hi|Hi]]; [|done|].
  - apply Hs. by apply (subseteq_take k).
  - apply Hs. by apply (subseteq_drop (k + length search)).
Qed.

Lemma replaces_size search replace k s r :
  replaces search replace k s r -> size r = size s + Z.of_nat k * (size replace - size search).
Proof using.
  induction 1 as [s Hnone|k i s r Hi Hrest IH]; [lia|].
  rewrite IH, (replaced_size _ _ _ _ Hi). lia.
Qed.

(** The first string after [s] on the way to [r] is not longer than the longer
    of the two. *)
Lemma replaces_next_size search replace k i s r :
  find_nat search s = Some i -> replaces search replace k (replaced search replace s i) r ->
  size (replaced search replace s i) <= Z.max (size s) (size r).
Proof using.
  intros Hi Hrest. apply replaces_size in Hrest. rewrite (replaced_size _ _ _ _ Hi) in *.
  destruct (decide (size search <= size replace)); nia.
Qed.

Lemma string_replaces fuel search replace k s r :
  replaces search replace k s r -> (k < fuel)%nat -> size s < 2 ^ 63 -> size r < 2 ^ 63 ->
  Str.str_replace fuel search replace s = Ok r.
Proof using.
  intros Hrun. revert fuel. induction Hrun as [s Hnone|k i s r Hi Hrest IH]; intros [|fuel] Hf Hs Hr.
  all: try lia; rewrite string_replace_step by done.
  { by rewrite Hnone. }
  rewrite Hi. apply IH; [lia| |done]. pose proof (replaces_next_size _ _ _ _ _ _ Hi Hrest). lia.
Qed.

Lemma char_replaces fuel h ps pr pj search replace k s r :
  replaces search replace k s r -> (k < fuel)%nat -> search <> [] ->
  cstr_at h ps search -> cstr_or_null h pr replace -> cstr_at h pj s ->
  size s < INT_MAX -> size r < INT_MAX ->
  exists q h', str_replace fuel ps pr pj h = Ok (q, h') /\ cstr_at h' q r /\ h ⊆ h' /\
    base.size h' = (base.size h + k)%nat.
Proof using Hroom.
  intros Hrun. revert fuel h pj. induction Hrun as [s Hnone|k i s r Hi Hrest IH];
    intros [|fuel] h pj Hf Hne Hps Hpr Hpj Hs Hr; try lia.
  { exists pj, h. cbn [str_replace]. rewrite (Mem_bind_ok (strpos_spec h pj ps s search Hpj Hps Hne)), Hnone.
    by rewrite Nat.add_0_r. }
  pose proof (replaces_next_size _ _ _ _ _ _ Hi Hrest) as Hmax. unfold INT_MAX in *.
  destruct (replace_step fuel h ps pr pj search replace s i Hps Hpr Hpj Hne Hi) as (b & Hb & E);
    [done|lia|]. rewrite E.
  assert (Hn : NUL ∉ replaced search replace s i)
    by (apply nul_replaced; [apply (cstr_nul Hpj)|by eapply cstr_or_null_nul]).
  edestruct (IH fuel (<[b := str_block (replaced search replace s i)]> h) (Ptr b 0))
    as (q & h' & Eq & Hq & Hsub & Hsize); [lia|done|by apply cstr_insert|by apply cstr_or_null_insert| | |done|].
  - apply cstr_str_block; [done|lia].
  - lia.
  - exists q, h'. split; [done|]. split; [done|]. split.
    + etrans; [|exact Hsub]. by apply insert_subseteq.
    + rewrite Hsize, map_size_insert_None by done. lia.
Qed.
End roomy_heap.
