(* ===== verification/CStrings.v ===== *)
(** * Properties of the functions on C strings

    What lib/str.cpp promises on [char*]: the results are those of the functions
    on [std::string], every access is inside a live block, and the calls of
    [free] are matched. *)

From S2P Require Import Prelude Cxx Str Memory CStr.

(** A heap with two strings from [malloc] and one literal, for the witnesses. *)
Definition sample_heap : heap :=
  <[1%positive := str_block "a-b-c"]> (<[2%positive := str_block "-"]>
    (<[3%positive := Block (map Some (("+" : str) ++ [NUL])) false]> ∅)).

Lemma sample_dynamic : cstr_at sample_heap (Ptr 1 0) "a-b-c".
Proof.
  apply (Cstr_at _ _ _ (str_block "a-b-c") _ []); try done; try (by vm_compute).
  lits. repeat (apply not_elem_of_cons; split; [done|]). apply not_elem_of_nil.
Qed.

Lemma sample_dash : cstr_at sample_heap (Ptr 2 0) "-".
Proof.
  apply (Cstr_at _ _ _ (str_block "-") _ []); try done; try (by vm_compute).
  lits. repeat (apply not_elem_of_cons; split; [done|]). apply not_elem_of_nil.
Qed.

Lemma sample_literal : cstr_at sample_heap (Ptr 3 0) "+".
Proof.
  apply (Cstr_at _ _ _ (Block (map Some (("+" : str) ++ [NUL])) false) _ []); try done; try (by vm_compute).
  lits. repeat (apply not_elem_of_cons; split; [done|]). apply not_elem_of_nil.
Qed.

Lemma next_allocator_roomy : @roomy next_allocator.
Proof. intros h n. by eexists. Qed.

(** C40: [str_replace] on [char*] computes what [str_replace] on [std::string]
    computes, the string after [k] replacements; no byte outside a live block is
    touched, nothing that was in the heap changes, and [k] strings are left in
    it, of which the caller gets only the last. *)
Theorem char_replace_agrees `{Allocator} (fuel k : nat) h ps pr pj (search rep s r : str) :
  roomy -> replaces search rep k s r -> (k < fuel)%nat -> search <> [] ->
  cstr_at h ps search -> cstr_or_null h pr rep -> cstr_at h pj s ->
  size s < INT_MAX -> size r < INT_MAX ->
  Str.str_replace fuel search rep s = Ok r /\
  exists q h', CStr.str_replace fuel ps pr pj h = Ok (q, h') /\ cstr_at h' q r /\ h ⊆ h' /\
    base.size h' = (base.size h + k)%nat.
Proof.
  intros Hroom Hrun Hk Hne Hps Hpr Hpj Hs Hr. split.
  - apply (string_replaces _ _ _ k); unfold INT_MAX in *; [done..|lia|lia].
  - by apply (char_replaces Hroom fuel h ps pr pj search rep k s r).
Qed.

Lemma char_replace_agrees_witness :
  Str.str_replace 3 "-" "+" "a-b-c" = Ok ("a+b+c" : str) /\
  exists q h', @CStr.str_replace next_allocator 3 (Ptr 2 0) (Ptr 3 0) (Ptr 1 0) sample_heap = Ok (q, h') /\
    cstr_at h' q "a+b+c" /\ sample_heap ⊆ h' /\ base.size h' = (base.size sample_heap + 2)%nat.
Proof.
  apply (@char_replace_agrees next_allocator 3 2 sample_heap (Ptr 2 0) (Ptr 3 0) (Ptr 1 0)
    "-" "+" "a-b-c" "a+b+c" next_allocator_roomy).
  - apply (replaces_more _ _ _ 1%nat); [by vm_compute|]. apply (replaces_more _ _ _ 3%nat); [by vm_compute|].
    by apply replaces_done; vm_compute.
  - lia.
  - by lits.
  - apply sample_dash.
  - right. apply sample_literal.
  - apply sample_dynamic.
  - by vm_compute.
  - by vm_compute.
Defined.

(** [concat] is, on every branch, a new string of both arguments followed by
    the calls of [free] that [mem] asks for: undefined exactly when the memory is
    exhausted or one of the strings to free was not allocated, or both are the
    same. *)
Theorem concat_joins `{Allocator} h p q (s t : str) mem :
  cstr_or_null h p s -> cstr_or_null h q t ->
  concat p q mem h =
    (r ← new_string (s ++ t);
     _ ← (if Z.testbit mem 1 then free q else mret tt);
     _ ← (if Z.testbit mem 0 then free p else mret tt); mret r) h.
Proof. apply concat_spec. Qed.

Lemma concat_joins_witness :
  @concat next_allocator (Ptr 1 0) (Ptr 1 0) 3 sample_heap = Undefined.
Proof.
  rewrite (@concat_joins next_allocator sample_heap (Ptr 1 0) (Ptr 1 0) "a-b-c" "a-b-c" 3
    (or_intror sample_dynamic) (or_intror sample_dynamic)). by vm_compute.
Defined.

(** [concat_all] frees its temporaries: exactly one block is added to the heap,
    with the concatenation of the arguments. *)
Theorem concat_all_frees `{Allocator} h ps ss :
  roomy -> ps <> [] -> Forall2 (cstr_or_null h) ps ss -> size (mjoin ss) < 2 ^ 63 - 1 ->
  exists b, h !! b = None /\
    concat_all (Z.of_nat (length ps)) ps h = Ok (Ptr b 0, <[b := str_block (mjoin ss)]> h).
Proof. intros Hroom. by apply concat_all_spec. Qed.

Lemma concat_all_frees_witness :
  exists b, sample_heap !! b = None /\
    @concat_all next_allocator 3 [Ptr 1 0; Ptr 3 0; Ptr 1 0] sample_heap =
      Ok (Ptr b 0, <[b := str_block "a-b-c+a-b-c"]> sample_heap).
Proof.
  apply (@concat_all_frees next_allocator sample_heap [Ptr 1 0; Ptr 3 0; Ptr 1 0]
    ["a-b-c" : str; "+" : str; "a-b-c" : str] next_allocator_roomy); [done| |by vm_compute].
  constructor; [right; apply sample_dynamic|]. constructor; [right; apply sample_literal|].
  constructor; [right; apply sample_dynamic|constructor].
Defined.

(** [substring] with a negative length ends: it drops that many bytes from the
    end, taken modulo what is left behind the index.  At the end of the string its
    recursion never ends. *)
Theorem negative_length `{Allocator} (fuel : nat) h p s index length :
  cstr_at h p s -> 0 <= index <= size s -> size s < INT_MAX -> INT_MIN <= length < 0 ->
  Z.of_nat fuel > - length + 1 ->
  substring fuel p index length h =
    if index <? size s
    then new_string (take (Z.to_nat (length mod (size s - index))) (drop (Z.to_nat index) s)) h
    else Diverged.
Proof.
  intros Hp Hi Hs Hl Hf. destruct (Z.ltb_spec index (size s)).
  - apply substring_negative; try done; lia.
  - replace index with (size s) by lia. apply substring_diverges; [done|lia|done].
Qed.

Lemma negative_length_witness :
  (q ← @substring next_allocator 6 (Ptr 1 0) 1 (-3); @strlen q)%stdpp sample_heap =
    (q ← @new_string next_allocator "-"; strlen q)%stdpp sample_heap.
Proof.
  rewrite Mem_bind_eq, (@negative_length next_allocator 6 sample_heap (Ptr 1 0) "a-b-c" 1 (-3) sample_dynamic);
    [|by vm_compute..]. by vm_compute.
Defined.

(** Searching and comparing on [char*] agree with [std::string]: [strpos] of a
    needle that is not empty is [find] (-1 for [npos]), and [strcompare] is
    equality. *)
Theorem char_search_agrees h p q s t :
  cstr_at h p s -> cstr_at h q t ->
  (t <> [] -> strpos p q h = Ok (to_int64 (Cxx.find s t), h)) /\
  strcompare p q h = Ok (bool_decide (s = t), h).
Proof.
  intros Hp Hq. split; [|by apply strcompare_spec]. intros Ht. rewrite (strpos_spec h p q s t Hp Hq Ht).
  pose proof (cstr_size Hp). unfold Cxx.find. destruct (find_nat t s) as [k|] eqn:E; simpl.
  - apply found_range in E. rewrite to_int64_small; [done|]. unfold size in *. lia.
  - by rewrite to_int64_npos.
Qed.

Lemma char_search_agrees_witness :
  ((("-" : str) <> []) -> strpos (Ptr 1 0) (Ptr 2 0) sample_heap = Ok (to_int64 (Cxx.find "a-b-c" "-"), sample_heap)) /\
  strcompare (Ptr 1 0) (Ptr 2 0) sample_heap = Ok (bool_decide (("a-b-c" : str) = "-"), sample_heap).
Proof. apply (char_search_agrees _ _ _ _ _ sample_dynamic sample_dash). Defined.

(** [str_reverse] consumes its argument and is its own inverse: after two calls
    the heap has the same string in one new block. *)
Theorem reverse_twice `{Allocator} h b s :
  roomy -> NUL ∉ s -> size s < 2 ^ 63 - 1 -> h !! b = None ->
  exists b', h !! b' = None /\
    (q ← str_reverse (Ptr b 0); str_reverse q)%stdpp (<[b := str_block s]> h) =
      Ok (Ptr b' 0, <[b' := str_block s]> h).
Proof.
  intros Hroom Hn Hl Hb.
  assert (Hone : forall t b0, NUL ∉ t -> size t < 2 ^ 63 - 1 -> h !! b0 = None ->
    exists b', h !! b' = None /\
      str_reverse (Ptr b0 0) (<[b0 := str_block t]> h) = Ok (Ptr b' 0, <[b' := str_block (reverse t)]> h)).
  { intros t b0 Ht Hlt Hb0. set (h1 := <[b0 := str_block t]> h).
    rewrite (str_reverse_spec h1 _ t) by by apply cstr_str_block.
    destruct (new_string_roomy (reverse t) h1 Hroom) as (b1 & Hb1 & E). rewrite (Mem_bind_ok E).
    pose proof Hb1 as Hb2. apply lookup_insert_None in Hb2 as [Hb2 Hne]. exists b1. split; [done|].
    destruct (apart_free b1 (Ptr b0 0) ltac:(simpl; congruence) h1 (str_block (reverse t)) Hb1) as [Ef _].
    unfold h1 in *. rewrite (free_new b0 t h Hb0) in Ef. by rewrite (Mem_bind_ok Ef). }
  destruct (Hone s b Hn Hl Hb) as (b1 & Hb1 & E1). rewrite (Mem_bind_ok E1).
  destruct (Hone (reverse s) b1) as (b2 & Hb2 & E2); [by rewrite elem_of_reverse| |done|].
  - unfold size in *. by rewrite length_reverse.
  - exists b2. by rewrite E2, reverse_involutive.
Qed.

Lemma reverse_twice_witness :
  exists b', (∅ : heap) !! b' = None /\
    (q ← @str_reverse next_allocator (Ptr 7 0); @str_reverse next_allocator q)%stdpp
      (<[7%positive := str_block "abc"]> ∅) = Ok (Ptr b' 0, <[b' := str_block "abc"]> ∅).
Proof.
  apply (@reverse_twice next_allocator ∅ 7%positive "abc" next_allocator_roomy).
  - lits. repeat (apply not_elem_of_cons; split; [done|]). apply not_elem_of_nil.
  - by vm_compute.
  - done.
Defined.
