(* ===== verification/Parsers.v ===== *)
(** * The main theorems about the parsers of the X DevAPI

    What the tokenizer, the JSON parser and the parser of connection strings promise, for
    every input or for every client; a closed instance follows where a theorem has
    hypotheses. *)

From S2P Require Import Prelude Cursor Tokenizer Tokens ParserBase ParserLaws Json.
From S2P Require Import UriParser UriRead UriConnection.

(** ** Tokens *)

(** C22: The tokenizer comes to an end on every input, with a parse error or with a list of
    tokens that covers the input: blanks and tokens follow each other without a gap, every
    token has a type, a text and characters that belong together, and its recorded range
    is where they stand; only a NUL where a token could start ends the input early. *)
Theorem tokens_cover_input (input : wstr) :
  match Tokenizer_new input with
  | Ok toks => lexed 0 input toks
  | Throw (ParseError _ _ _ _) => True
  | _ => False
  end.
Proof. apply Tokenizer_new_lexed. Qed.

(** ** JSON *)

(** C11: A document is reported to every client as it is: for a client that decides by [accept]
    which parts it wants, parsing the text of a document makes the calls of the visit of
    that document, in its order, and nothing else.  Documents are nested lists and objects
    of null, booleans, strings of any characters, integers between -2^63 and 2^64 except
    -2^63 and 2^63 themselves, which another theorem of this file is about, and floating
    numbers with an integer part below 2^64, any fraction and an exponent of up to 64 bits,
    as long as they do not overflow; a floating number is reported as the decimal number
    that is written. *)
Theorem json_reported (ms : list (wstr * json)) (accept : list (call json_call) -> bool) :
  json_ok (JDoc ms) ->
  json_parse (json_text (JDoc ms)) accept = (Ok tt, report_doc accept ms true []).
Proof. apply json_parse_text. Qed.

Lemma json_reported_witness :
  let ms := [(wlit "a", JArr [JInt (-7); JNull; JDoc [(wlit "b", JBool true)]]);
             (wlit "c", JString (wlit "x y")); (wlit "d", JUint 18446744073709551615);
             (wlit "e", JFloat (Float true 12 [0; 5] (Some (-3))))] in
  json_parse (json_text (JDoc ms)) (fun _ => true) =
    (Ok tt, [c_doc_begin; c_key_val (wlit "a"); c_arr; c_list_begin;
             c_list_el; c_scalar; c_base (js_num_int (-7));
             c_list_el; c_scalar; c_base js_null;
             c_list_el; c_doc; c_doc_begin; c_key_val (wlit "b"); c_scalar; c_base (js_yesno true); c_doc_end;
             c_list_end;
             c_key_val (wlit "c"); c_scalar; c_base (js_str (wlit "x y"));
             c_key_val (wlit "d"); c_scalar; c_base (js_num_uint 18446744073709551615);
             c_key_val (wlit "e"); c_scalar; c_base (js_num_double (mk_decimal true 1205 (-5))); c_doc_end]).
Proof.
  intros ms. refine (eq_trans (json_reported ms (fun _ => true) _) _); [|by vm_compute].
  repeat first [lia | done | constructor].
Defined.

(** C13: On every text and for every client the JSON parser comes to an end, and what it throws
    is an error of its own: a parse error, or the conversion error of a floating number.
    It is undefined only on texts with the tokens [-] and an integer of value 2^63 behind
    it, whose negation is computed in a type that cannot hold it. *)
Theorem json_returns (input : wstr) (accept : list (call json_call) -> bool) :
  match (json_parse input accept).1 with
  | Ok _ => True
  | Throw e => parser_exn e
  | Undefined => exists toks, Tokenizer_new input = Ok toks /\ negates_smallest toks
  | Diverged => False
  end.
Proof. apply json_parse_returns. Qed.

(** C21: What a client does not want is still parsed: a text that a client reads which takes
    every part is accepted for every client. *)
Theorem json_parts_skipped (input : wstr) (calls : list (call json_call))
    (accept : list (call json_call) -> bool) :
  json_parse input (fun _ => true) = (Ok tt, calls) -> (json_parse input accept).1 = Ok tt.
Proof. apply json_parse_skips. Qed.

Lemma json_parts_skipped_witness :
  (json_parse (json_text (JDoc [(wlit "a", JArr [JInt 1]); (wlit "b", JNull)])) (fun l => Nat.odd (length l))).1 = Ok tt.
Proof. eapply json_parts_skipped. by vm_compute. Defined.

(** C23: Integers at the bounds of their types: an integer of up to 64 bits is reported as
    signed below 2^63 and as unsigned above, 2^63 itself is refused although larger values
    are not, and the negation of 2^63, the smallest signed integer, is computed in a type
    that cannot hold it. *)
Theorem json_integers (neg : bool) (v : Z) : 0 <= v < 2 ^ 64 ->
  let '(o, calls) := json_parse (number_text neg v) (fun _ => true) in
  number_reported neg v o calls.
Proof. apply json_integer. Qed.

Lemma json_integers_witness :
  let '(o, calls) := json_parse (number_text true 9223372036854775807) (fun _ => true) in
  o = Ok tt /\ c_base (js_num_int (-9223372036854775807)) ∈ calls.
Proof. apply (json_integers true 9223372036854775807). lia. Defined.

(** ** Connection strings *)

(** C12: A connection string is reported as its parts: for every connection - a user and a
    password or none, one host (a name, an IPv4 or IPv6 address, each with or without a
    port, a path or a pipe, in parentheses or not) or a list of hosts with and without
    priorities, a schema or none, a query of keys, values and lists or none - parsing its
    text with the scheme in front makes exactly the calls that describe it, in the order of
    the text; without the scheme [parse_conn_str] does the same if nothing in the text
    looks like a scheme.  Any character can be written as it is, where the grammar allows
    it, or in the form [%XX].  Three forms that the grammar allows are not among these
    connections, and misreported as the lemmas below show or not covered: a name that
    begins with digits and a dot (such a name with a port loses the dot), the priority
    65535 (it is reported as no priority), and a list of hosts whose text cannot be told
    from an IPv6 address. *)
Theorem uri_reported (c : connection) : connection_ok c ->
  parse_uri (lit "mysqlx://" ++ uri_text c) = (Ok tt, connection_calls c) /\
  parse_conn_str (lit "mysqlx://" ++ uri_text c) = (Ok tt, connection_calls c) /\
  (find_scheme (length (uri_text c)) (uri_text c) 0 = None -> take 6 (uri_text c) <> lit "mysqlx" ->
   parse_conn_str (uri_text c) = (Ok tt, connection_calls c)).
Proof.
  intros Hc. destruct (parse_uri_reads c Hc) as [H1 H2]. split; [done|]. split; [done|].
  by apply parse_conn_str_reads.
Qed.

Definition typed (s : str) : list UToken := (fun c => sym c) <$> s.

Ltac tokens :=
  match goal with |- Forall ?P ?l => let l' := eval vm_compute in l in change (Forall P l') end;
  repeat (apply Forall_cons_2; [by vm_compute|]); apply Forall_nil_2.

(** [us%40er:pw@[h1:1,(address=[::1]:33060,priority=99)]/db?k=v&l=[a,b]&x] *)
Definition some_connection : connection :=
  mk_connection
    (Some (mk_userinfo (typed (lit "us") ++ [mk_UToken "@"%char true] ++ typed (lit "er")) (Some (typed (lit "pw")))))
    (H_list [E_host (A_name (typed (lit "h1")) (typed (lit "1")));
             E_priority (typed (lit "address")) (A_ip6 (typed (lit "::1")) (Some (typed (lit "33060"))))
               (typed (lit "Priority")) (typed (lit "99"))])
    (Some (typed (lit "db")))
    (Some [Q_val (typed (lit "k")) (typed (lit "v"));
           Q_list (typed (lit "l")) [typed (lit "a"); typed (lit "b")]; Q_key (typed (lit "x"))]).

Lemma some_connection_ok : connection_ok some_connection.
Proof.
  unfold connection_ok. cbn [c_user c_hosts c_schema c_query some_connection from_option].
  split; [|split; [|split; [|split]]].
  - unfold userinfo_ok. split_and!; [done| |]; unfold all_in; cbn [ui_user ui_password from_option]; tokens.
  - cbn [hosts_ok]. split_and!; [done| |by vm_compute].
    apply Forall_cons_2; [|apply Forall_cons_2; [|apply Forall_nil_2]]; cbn [entry_ok address_ok].
    + split; [split; [unfold all_in; tokens|by split]|split; [unfold are; tokens|by vm_compute]].
    + split_and!; [by repeat constructor|done| |split; [unfold are; tokens|by vm_compute]|by repeat constructor|done|
        split; [unfold are; tokens|by vm_compute]].
      repeat (apply Forall_cons_2; [split; [done|by apply (bool_decide_unpack _)]|]). apply Forall_nil_2.
  - unfold all_in. tokens.
  - split; [done|]. apply Forall_cons_2; [|apply Forall_cons_2; [|apply Forall_cons_2; [|apply Forall_nil_2]]];
      cbn [pair_ok].
    + split_and!; [unfold none_in; tokens..|done].
    + split_and!; [unfold none_in; tokens|done|].
      apply Forall_cons_2; [|apply Forall_cons_2; [|apply Forall_nil_2]]; unfold none_in; tokens.
    + unfold none_in. tokens.
  - apply Forall_forall. intros t Ht.
    assert (H : Forall (fun t => bool_decide (get_type t = T_INVALID) = false) (connection_tokens some_connection))
      by tokens.
    apply (proj1 (Forall_forall _ _) H) in Ht. by apply bool_decide_eq_false in Ht.
Qed.

Lemma uri_reported_witness :
  parse_uri (lit "mysqlx://us%40er:pw@[h1:1,(address=[::1]:33060,Priority=99)]/db?k=v&l=[a,b]&x") =
    (Ok tt, [u_user (lit "us@er"); u_password (lit "pw"); u_host_port 0 (lit "h1") 1;
             u_host_port 100 (lit "::1") 33060; u_schema (lit "db"); u_key_val (lit "k") (lit "v");
             u_key_list (lit "l") [lit "a"; lit "b"]; u_key (lit "x")]).
Proof.
  refine (eq_trans (proj1 (uri_reported some_connection _)) _); [|by vm_compute].
  exact some_connection_ok.
Defined.

(** C14: The parser comes to an end on every string, with or without the requirement of a
    scheme: it makes its calls, or throws one of its own errors or the error of the
    conversion of a message that quotes a key.  It reads no character out of bounds, and
    the states that released guards leave on its stack never make it take a state from an
    empty one.  It is undefined only on strings with an escaped character between 128 and
    254, which [tolower] is not made for. *)
Theorem uri_returns (uri : str) (force : bool) :
  match (URI_process uri force).1 with
  | Ok _ => True
  | Throw e => uri_exn e
  | Undefined => escapes_high uri
  | Diverged => False
  end.
Proof. apply URI_process_returns. Qed.

(** The error of a list that is not closed is another one when the key is no UTF-8. *)
Lemma message_not_converted :
  (parse_conn_str (lit "h?%FF=[a")).1 = Throw (GenericError "string conversion error").
Proof. by vm_compute. Qed.

(** An escaped character above 127 is given to [tolower]. *)
Lemma escaped_undefined : (parse_conn_str (lit "[(%C3%A4)]")).1 = Undefined.
Proof. by vm_compute. Qed.

(** The dot behind the digits a name begins with is lost when a port follows. *)
Lemma first_dot_lost (a h ds : list UToken) :
  a <> [] -> are T_DIGIT a -> host_start h -> port_ok ds ->
  goes parse_host (a ++ [sym "."] ++ h ++ sym ":" :: ds) ends_address
    (mk_Addr_opts true false, chars a ++ chars h, chars ds) [].
Proof. intros. by apply (goes_digits_port a true h ds). Qed.

Lemma first_dot_lost_example :
  parse_conn_str (lit "1.example.org:12") = (Ok tt, [u_host_port 0 (lit "1example.org") 12]).
Proof. by vm_compute. Qed.

(** The highest priority is reported as no priority. *)
Lemma priority_wraps :
  parse_conn_str (lit "[(address=h,priority=65535)]") = (Ok tt, [u_host 0 (lit "h")]).
Proof. by vm_compute. Qed.

(** A word that begins like [address] leaves a state on the stack: the parenthesis before
    it is skipped, the one after it kept. *)
Lemma unbalanced_accepted :
  parse_conn_str (lit "[(address1)]") = (Ok tt, [u_host 0 (lit "address1)")]).
Proof. by vm_compute. Qed.

(** Characters that [strtol] takes are taken for hexadecimal digits. *)
Lemma signs_in_pct :
  parse_conn_str (lit "a%+5b") = (Ok tt, [u_host 0 (lit "a" ++ [ascii_of_nat 5] ++ lit "b")]).
Proof. by vm_compute. Qed.

(** ** Expressions *)

From S2P Require Import ExprBase ExprParser ExprEnds ExprVisit ExprEcho.

(** C5: An expression over the columns of a table is reported as it is: parsing its text, the
    operators with parentheses around them and the names quoted, gives a client that takes
    every part the visit of its tree, and nothing else.  Expressions are built without
    bound from integers (to [2^64], negated to [2^63 - 1]), strings, TRUE, FALSE, NULL,
    parameters, columns with qualifiers and document paths, the unary and binary operators,
    [NOT] LIKE, RLIKE, REGEXP, BETWEEN, IN with a list and IS [NOT] TRUE or NULL, calls of
    functions, casts, arrays and documents; a document keeps the last value of a key.
    Strings in the list after IN are octets, also as the first argument of a function there.
    Left out are functions and qualifying tables called [position], IS FALSE and operators
    without parentheses, for which counterexamples follow. *)
Theorem expression_reported (e : expr) : expr_ok e ->
  Expression_parser TABLE (expr_text e) (fun _ => true) = (Ok tt, visit (tree false e)).
Proof.
  intros Hok. destruct (expression_reports TABLE (expr_text e)) as [Ho Hc].
  pose proof (expression_read e Hok) as Hr. rewrite Hr in Ho.
  etransitivity; [apply surjective_pairing|]. f_equal; [exact Ho | exact (Hc _ Hr)].
Qed.

Lemma some_expression_ok : expr_ok some_expression.
Proof.
  unfold some_expression. cbn [expr_ok all_hold snd].
  unfold plain_word, path_ok, cast_ok. cbn [m_whole_document m_path last].
  repeat match goal with
  | |- _ /\ _ => split
  | |- True => exact I
  | |- Forall _ _ => constructor
  end; try lia; try discriminate; try (vm_compute; lia);
    first [by vm_compute | apply list_elem_of_In; vm_compute; tauto].
Qed.

Lemma expression_reported_witness :
  Expression_parser TABLE (expr_text some_expression) (fun _ => true) =
    (Ok tt, visit (tree false some_expression)).
Proof. exact (expression_reported some_expression some_expression_ok). Defined.

(** C35: On every text, in both modes and for every client, the parsers of expressions, of sort
    orders, of both kinds of projections and of the column of a table come to an end, with a
    result or with a parse error.  They are undefined only on texts that have a token CAST
    (whose type may be no keyword), a token SOUNDS or an identifier without characters. *)
Theorem expressions_end (mode : Parser_mode) (text : wstr) (accept : list (call expr_call) -> bool) :
  ends_well text (Expression_parser mode text accept).1 /\
  ends_well text (Order_parser mode text accept).1 /\
  ends_well text (Projection_parser_table mode text accept).1 /\
  ends_well text (Projection_parser_document mode text accept).1 /\
  ends_well text (Table_field_parser text).
Proof.
  split_and!; [..|apply table_field_ends]; apply run_parser_ends; intros U T HT s Hi.
  - by apply (expression_process_runs U T HT).
  - by apply (order_process_runs U T HT).
  - by apply (tbl_mode_runs U T HT).
  - by apply (doc_mode_runs U T HT).
Qed.

(** On every text the parser that reports while it parses and the one that stores agree: the
    same outcome, and the calls are the visit of what is stored. *)
Theorem reported_as_stored (mode : Parser_mode) (text : wstr) :
  let accept := fun _ => true in
  (Expression_parser mode text accept).1 = (_ ← stored_expression mode text; Ok tt) /\
  forall e, stored_expression mode text = Ok e -> (Expression_parser mode text accept).2 = visit e.
Proof. apply expression_reports. Qed.

(** IS FALSE is reported as IS TRUE. *)
Lemma is_false_is_true :
  stored_expression TABLE (wlit "a IS FALSE") = stored_expression TABLE (wlit "a IS TRUE").
Proof. by vm_compute. Qed.

(** Operators of a level group to the right. *)
Lemma grouped_to_the_right :
  stored_expression TABLE (wlit "1-2-3") =
    Ok (S_op (wlit "-") [S_uint 1; S_op (wlit "-") [S_uint 2; S_uint 3]]).
Proof. by vm_compute. Qed.

(** No binary operator is read behind the operand of [~]. *)
Lemma tilde_ends_expression :
  exists seen ahead pos, stored_expression TABLE (wlit "~a + b") =
    Throw (ParseError seen ahead pos (wlit "Unexpected characters after expression")).
Proof. vm_compute. by eexists _, _, _. Qed.

(** The name of a function is forgotten when its first argument has a column. *)
Lemma position_refused :
  exists seen ahead pos msg, stored_expression TABLE (wlit "position(a IN b)") =
    Throw (ParseError seen ahead pos msg).
Proof. vm_compute. by eexists _, _, _, _. Qed.

(** The least integer is refused. *)
Lemma least_integer_refused :
  exists seen ahead pos msg, stored_expression TABLE (wlit "-9223372036854775808") =
    Throw (ParseError seen ahead pos msg).
Proof. vm_compute. by eexists _, _, _, _. Qed.

(** The exceptions of [expressions_end] occur. *)
Lemma undefined_expressions :
  stored_expression TABLE (wlit "CAST(a AS foo)") = Undefined /\
  stored_expression TABLE (wlit "a SOUNDS b") = Undefined /\
  stored_expression TABLE (wlit "``") = Undefined.
Proof. by vm_compute. Qed.
