(* ===== verification/Correctness.v ===== *)
(** * The main theorems about the query generator

    Each theorem states one promise of the program, from the text functions up
    to the compiled query; a closed instance follows where it has
    hypotheses. *)

From S2P Require Import Prelude Cxx Str Config Column Aggregate Condition.
From S2P Require Import Generators ScanGenerator Average Sql Io Output User Generate.
From S2P Require Import Compile Program Emitted MfQuery Query Scans Having.

(** ** Splitting and trimming text *)

(** [explode] never invents or loses text: on non-empty arguments it either
    throws [std::out_of_range] or returns pieces which, joined by the separator
    with a last piece at least as long as the separator, give back the subject
    (the last piece is dropped when it is blank). *)
Theorem explode_pieces (quan s : str) (w : world) :
  quan <> [] -> s <> [] -> size s < 2 ^ 63 -> size quan < 2 ^ 63 ->
  explode quan s w = (Throw OutOfRange, w) \/
  exists l last, s = join quan l last /\ size quan <= size last /\
    explode quan s w =
      (Ok (Some (if decide (ltrim last = []) then l else l ++ [last])), blank_rest last w).
Proof. apply explode_sound. Qed.

Lemma explode_pieces_witness :
  let w := World [] true [] [] ∅ (fun _ => true) [] in
  (", " : str) <> [] /\
  (explode ", " "a, b, c" w = (Throw OutOfRange, w) \/
   exists l last, ("a, b, c" : str) = join ", " l last /\ size ", " <= size last /\
    explode ", " "a, b, c" w =
      (Ok (Some (if decide (ltrim last = []) then l else l ++ [last])), blank_rest last w)).
Proof.
  intros w. split; [by lits|].
  apply (explode_pieces ", " "a, b, c" w); [by lits|by lits|by vm_compute|by vm_compute].
Defined.

(** A list written with the separator is split back into the list, when no
    element contains the separator's first character and the last one is not
    blank and not shorter than the separator. *)
Theorem explode_roundtrip (c : ascii) (q : str) (l : list str) (w : world) :
  separable (c :: q) c l -> size (intercalate (c :: q) l) < 2 ^ 63 ->
  explode (c :: q) (intercalate (c :: q) l) w = (Ok (Some l), w).
Proof. apply explode_intercalate. Qed.

Lemma separable_names : separable ", " "," ["cust" : str; "prod" : str; "state" : str].
Proof.
  split; [repeat constructor; lits; set_solver|].
  exists "state". split; [done|]. split; [by vm_compute|by vm_compute].
Qed.

Lemma explode_roundtrip_witness :
  let w := World [] true [] [] ∅ (fun _ => true) [] in
  explode ", " (intercalate ", " ["cust" : str; "prod" : str; "state" : str]) w =
    (Ok (Some ["cust" : str; "prod" : str; "state" : str]), w).
Proof.
  intros w. apply (explode_roundtrip "," [" "%char] _ w); [apply separable_names|by vm_compute].
Defined.

(** A last piece shorter than the separator makes [explode] throw
    [std::out_of_range]: the bound of its loop wraps around. *)
Theorem explode_throws_on_short_rest (quan x last : str) (w : world) :
  quan <> [] -> sep_free quan x -> last <> [] -> size last < size quan ->
  size (x ++ quan ++ last) < 2 ^ 63 ->
  explode quan (x ++ quan ++ last) w = (Throw OutOfRange, w).
Proof. apply explode_short_last. Qed.

Lemma explode_throws_on_short_rest_witness :
  let w := World [] true [] [] ∅ (fun _ => true) [] in
  explode ", " ("cust" ++ ", " ++ "x") w = (Throw OutOfRange, w).
Proof.
  intros w. apply (explode_throws_on_short_rest ", " "cust" "x" w);
    [by lits|apply sep_free_head; lits; set_solver|by lits|by vm_compute|by vm_compute].
Defined.

(** [c_explode] throws on the empty string and otherwise returns the pieces
    of the subject between separators, up to a blank last piece. *)
Theorem c_explode_pieces (quan : ascii) (s : str) (w : world) :
  size s < 2 ^ 64 ->
  if decide (s = []) then c_explode quan s w = (Throw OutOfRange, w)
  else exists l last, s = join [quan] l last /\ last <> [] /\
    c_explode quan s w =
      (Ok (if decide (ltrim last = []) then l else l ++ [last]), blank_rest last w).
Proof.
  intros Hs. case_decide as H; [subst; apply c_explode_empty|by apply c_explode_sound].
Qed.

Lemma c_explode_pieces_witness :
  let w := World [] true [] [] ∅ (fun _ => true) [] in
  if decide (("a b" : str) = []) then c_explode " " "a b" w = (Throw OutOfRange, w)
  else exists l last, ("a b" : str) = join [" "%char] l last /\ last <> [] /\
    c_explode " " "a b" w =
      (Ok (if decide (ltrim last = []) then l else l ++ [last]), blank_rest last w).
Proof. intros w. apply (c_explode_pieces " " "a b" w). by vm_compute. Defined.

(** [trim] removes the leading blanks only, and warns on the standard output
    when nothing is left. *)
Theorem trim_leading (s : str) (w : world) :
  trim s w = (Ok (ltrim s), if decide (ltrim s = []) then add_stdout trim_warning w else w).
Proof. apply trim_run. Qed.

(** [itoa] prints every [int] but the least as a decimal text that [atoi] and
    [stoi] read back; on the least one its negation overflows. *)
Theorem itoa_atoi (i : Z) :
  INT_MIN <= i <= INT_MAX ->
  if decide (i = INT_MIN) then itoa i = Undefined
  else exists t, itoa i = Ok t /\ is_number t /\ atoi t = Ok i /\ stoi t = Ok i.
Proof.
  intros Hi. case_decide as E; [subst; apply itoa_INT_MIN|].
  destruct (atoi_itoa i) as (t & H1 & H2 & _ & H3 & H4); [lia|]. by exists t.
Qed.

Lemma itoa_atoi_witness :
  INT_MIN <= -562 <= INT_MAX /\
  if decide (-562 = INT_MIN) then itoa (-562) = Undefined
  else exists t, itoa (-562) = Ok t /\ is_number t /\ atoi t = Ok (-562) /\ stoi t = Ok (-562).
Proof.
  assert (H : INT_MIN <= -562 <= INT_MAX) by (unfold INT_MIN, INT_MAX; lia).
  split; [exact H|]. exact (itoa_atoi (-562) H).
Defined.

(** [count] returns the number of positions at which the needle occurs
    (overlapping occurrences included), and -1 when the haystack is empty or
    shorter than the needle. *)
Theorem count_occurrences (haystack needle : str) :
  needle <> [] ->
  count haystack needle =
    Ok (if (size haystack =? 0) || (size needle >? size haystack) then -1
        else occurrences needle haystack).
Proof. apply count_spec. Qed.

Lemma count_occurrences_witness :
  ("aa" : str) <> [] /\
  count "aaa" "aa" =
    Ok (if (size "aaa" =? 0) || (size "aa" >? size "aaa") then -1
        else occurrences "aa" "aaa").
Proof. split; [by lits|]. apply (count_occurrences "aaa" "aa"). by lits. Defined.

(** [str_replace] with a one-character pattern that the replacement does not
    contain replaces every occurrence, and its recursion ends. *)
Theorem str_replace_all (c : ascii) (r s : str) :
  c ∉ r -> size (replace_char c r s) + size s < npos ->
  str_replace (S (length s)) [c] r s = Ok (replace_char c r s).
Proof.
  intros Hr Hb. apply (str_replace_char _ c r []); [apply not_elem_of_nil|done|size_lia|].
  pose proof (occurrences_le c s). unfold size in *. lia.
Qed.

Lemma str_replace_all_witness :
  ("'"%char ∉ ("\q" : str)) /\
  str_replace (S (length ("state='NY'" : str))) ["'"%char] "\q" "state='NY'" =
    Ok (replace_char "'" "\q" "state='NY'").
Proof.
  assert (H : "'"%char ∉ ("\q" : str)) by (lits; set_solver).
  split; [exact H|]. apply (str_replace_all "'" "\q" "state='NY'" H). by vm_compute.
Defined.

(** [strpos_m] returns the first position at which one of the patterns
    occurs, whichever it is, or -1. *)
Theorem strpos_m_first (haystack : str) (comps : list str) :
  Forall (fun x => x <> []) comps -> size haystack <= INT_MAX ->
  strpos_m haystack comps =
    Ok (match first_match comps haystack with Some i => Z.of_nat i | None => -1 end).
Proof. apply strpos_m_spec. Qed.

Lemma strpos_m_first_witness :
  Forall (fun x => x <> []) ["<=" : str; "=" : str] /\
  strpos_m "quant<=10" ["<=" : str; "=" : str] =
    Ok (match first_match ["<=" : str; "=" : str] "quant<=10" with
        | Some i => Z.of_nat i | None => -1 end).
Proof.
  assert (H : Forall (fun x : str => x <> []) ["<=" : str; "=" : str])
    by (forall_list ltac:(by lits)).
  split; [exact H|]. apply (strpos_m_first "quant<=10" _ H). by vm_compute.
Defined.

(** ** Columns and aggregates *)

(** On the column types the look-up helpers support, the helper, which prints
    the C++ type code of the column, and the structures, which print its SQL
    type, declare the same C++ type. *)
Theorem column_types_agree (t : Z) :
  SQL_CHAR <= t <= SQL_BOOL -> t <> SQL_BOOL -> helper_type (getCppType t) = true ->
  getOutCppType (getCppType t) = getOutCppType t /\ getOutCppType t <> [].
Proof. apply getOutCppType_agree. Qed.

Lemma column_types_agree_witness :
  helper_type (getCppType (getType "int")) = true /\
  getOutCppType (getCppType (getType "int")) = getOutCppType (getType "int") /\
  getOutCppType (getType "int") <> [].
Proof.
  split; [by vm_compute|].
  apply (column_types_agree (getType "int")); [by vm_compute|by vm_compute|by vm_compute].
Defined.

(** Printing an aggregate and reading it back gives the same aggregate, and
    the text is recognised as an aggregate. *)
Theorem aggregate_roundtrip (a : Aggregate) (w : world) :
  wf_aggregate a -> "000"%char ∉ agg_func a -> "000"%char ∉ agg_column a ->
  exists t, toString a = Ok t /\ Aggregate_new t w = (Ok a, w) /\ isAggregate t = Ok true.
Proof.
  intros Hwf Hf Hc. destruct (Aggregate_roundtrip a w Hwf) as (t & Ht & E).
  exists t. split; [done|]. split; [done|]. by apply (isAggregate_toString a).
Qed.

Lemma wf_avg_quant : wf_aggregate (MkAggregate 1 "avg" "quant").
Proof. split; simpl; lits; try done; try set_solver. Qed.

Lemma aggregate_roundtrip_witness :
  let w := World [] true [] [] ∅ (fun _ => true) [] in
  exists t, toString (MkAggregate 1 "avg" "quant") = Ok t /\
    Aggregate_new t w = (Ok (MkAggregate 1 "avg" "quant"), w) /\ isAggregate t = Ok true.
Proof.
  intros w. apply (aggregate_roundtrip (MkAggregate 1 "avg" "quant") w);
    [apply wf_avg_quant|simpl; lits; set_solver|simpl; lits; set_solver].
Defined.

(** Two well-formed aggregates get the same member of [mf_structure] only if
    they are equal: the emitted structure has no colliding members. *)
Theorem abs_var_injective (a b : Aggregate) (t : str) :
  wf_aggregate a -> wf_aggregate b -> toABSVar a = Ok t -> toABSVar b = Ok t -> a = b.
Proof. apply toABSVar_inj. Qed.

Lemma abs_var_injective_witness :
  MkAggregate 1 "avg" "quant" = MkAggregate 1 "avg" "quant".
Proof.
  apply (abs_var_injective _ _ "avg_quant_1"); [apply wf_avg_quant|apply wf_avg_quant|..];
    by vm_compute.
Defined.

(** A column name that contains an underscore is misread: the group becomes
    0, the function the text of the group and the column the function. *)
Theorem aggregate_of_underscored_column (g f c1 c2 : str) (w : world) :
  "_"%char ∉ g -> f <> [] -> "_"%char ∉ f -> c1 <> [] -> "_"%char ∉ c1 ->
  ltrim c2 <> [] -> "_"%char ∉ c2 ->
  size g + size f + size c1 + size c2 < 2 ^ 32 ->
  Aggregate_new (join "_" [g; f; c1] c2) w = (Ok (MkAggregate 0 g f), w).
Proof. apply Aggregate_new_four. Qed.

Lemma aggregate_of_underscored_column_witness :
  let w := World [] true [] [] ∅ (fun _ => true) [] in
  Aggregate_new (join "_" ["1" : str; "sum" : str; "unit" : str] "price") w =
    (Ok (MkAggregate 0 "1" "sum"), w).
Proof.
  intros w. apply (aggregate_of_underscored_column "1" "sum" "unit" "price" w);
    first [by vm_compute | lits; set_solver | by lits].
Defined.

(** ** Conditions *)

(** A such-that clause is read as the comparisons it is made of and the
    operators between them, each comparison with its group, column, operator
    (["<>"] read as ["!="]) and value (single quotes read as double quotes). *)
Theorem clause_parsed (s0 : str) (t0 : comparison_text) (rest : list (str * str))
    (ts : list comparison_text) (w : world) :
  denotes t0 s0 -> word s0 ->
  Forall2 (fun p t => denotes t p.2) rest ts ->
  Forall (fun p => word p.1 /\ word p.2) rest ->
  size (clause_text s0 rest) < 2 ^ 63 ->
  Conditions_new (clause_text s0 rest) w =
    (Ok (MkConditions (map meaning (t0 :: ts)) (map fst rest)), w).
Proof. apply Conditions_new_show. Qed.

Definition state_is_ny : comparison_text :=
  {| ct_group := Some 1; ct_column := "state"; ct_op := "="; ct_value := "'NY'" |}.
Definition quant_above : comparison_text :=
  {| ct_group := Some 1; ct_column := "quant"; ct_op := ">="; ct_value := "avg_quant" |}.

Lemma state_is_ny_denotes : denotes state_is_ny "1.state='NY'".
Proof.
  split; [|by vm_compute]. split; simpl; [unfold INT_MIN, INT_MAX; lia| |left|by lits|by vm_compute].
  lits. repeat constructor; done.
Qed.

Lemma quant_above_denotes : denotes quant_above "1.quant>=avg_quant".
Proof.
  split; [|by vm_compute]. split; simpl; [unfold INT_MIN, INT_MAX; lia| | |by lits|by vm_compute].
  - lits. repeat constructor; done.
  - unfold cmp_ops. set_solver.
Qed.

Lemma word_of (s : str) : forallb (fun c => negb (bool_decide (c = " "%char))) s = true ->
  ltrim s <> [] -> word s.
Proof.
  intros Hs Hl. split; [|done]. intros Hin. rewrite forallb_forall in Hs.
  apply list_elem_of_In, Hs in Hin. done.
Qed.

Lemma clause_parsed_witness :
  let w := World [] true [] [] ∅ (fun _ => true) [] in
  Conditions_new (clause_text "1.state='NY'" [("and" : str, "1.quant>=avg_quant" : str)]) w =
    (Ok (MkConditions (map meaning [state_is_ny; quant_above]) ["and" : str]), w).
Proof.
  intros w. apply (clause_parsed "1.state='NY'" state_is_ny
    [("and" : str, "1.quant>=avg_quant" : str)] [quant_above] w).
  - apply state_is_ny_denotes.
  - apply word_of; by vm_compute.
  - constructor; [apply quant_above_denotes|constructor].
  - forall_list ltac:(split; apply word_of; by vm_compute).
  - by vm_compute.
Defined.

(** ** The scan generator *)

(** The aggregates are distributed over the grouping variables 0 to n without
    losing, duplicating or reordering any; an aggregate of a grouping variable
    that does not exist makes the generator throw [std::out_of_range]. *)
Theorem aggregates_grouped (g : Scan_Generator) :
  0 <= no_grouping_vars g < 2 ^ 31 - 1 ->
  Forall (fun a => INT_MIN <= agg_group a <= INT_MAX) (all_aggregates g) ->
  group_aggregates g =
    if forallb (fun a => (0 <=? agg_group a) && (agg_group a <=? no_grouping_vars g))
         (all_aggregates g)
    then Ok (map (fun i => of_group i (all_aggregates g)) (upto (no_grouping_vars g)))
    else Throw OutOfRange.
Proof.
  intros Hn Ha. destruct (forallb _ _) eqn:E.
  - rewrite forallb_forall in E. apply group_aggregates_spec; [lia|].
    rewrite Forall_forall. intros a Hin%list_elem_of_In%E. apply andb_true_iff in Hin. lia.
  - apply group_aggregates_throws; [done|done|].
    destruct (decide (Exists (fun a => agg_group a < 0 \/ no_grouping_vars g < agg_group a)
      (all_aggregates g))) as [He|He]; [done|].
    apply not_true_iff_false in E. destruct E. apply forallb_forall. intros a Hin.
    apply not_false_iff_true. intros Ea. apply He, Exists_exists. exists a.
    split; [by apply list_elem_of_In|]. apply andb_false_iff in Ea. lia.
Qed.

Lemma aggregates_grouped_witness :
  group_aggregates (sample_generator false) =
    Ok [[MkAggregate 0 "sum" "quant"]; [MkAggregate 1 "min" "quant"]].
Proof.
  rewrite (aggregates_grouped (sample_generator false)); [by vm_compute|by vm_compute|].
  simpl. forall_list ltac:(split; by vm_compute).
Defined.

(** The update emitted for an aggregate is the C++ text of the statement whose
    effect the model runs ([apply_update]), for both kinds of scan. *)
Theorem update_text_is_statement (var : str) (a : Aggregate) :
  INT_MIN < agg_group a <= INT_MAX ->
  update_text var a =
    match update_of a with Some u => print_update var u | None => Ok [] end.
Proof.
  intros H. destruct (itoa_total _ H) as [t Ht]. by eapply update_text_print.
Qed.

Lemma update_text_is_statement_witness :
  update_text "(*it)" (MkAggregate 2 "sum" "quant") =
    Ok ("\t\t\tdata2->at(pos)->sum_quant += (*it)->quant;\n" : str).
Proof.
  rewrite (update_text_is_statement "(*it)" (MkAggregate 2 "sum" "quant"));
    [by vm_compute|simpl; unfold INT_MIN, INT_MAX; lia].
Defined.

(** ** Files, the database and averages *)

(** [write_to_file] replaces the file, and [read_from_file] then returns its
    contents with one more newline. *)
Theorem write_then_read (dir filename data : str) (w : world) :
  w_writable w (c_str (dir ++ filename)) = true ->
  exists w', write_to_file dir filename data w = (Ok tt, w') /\
    w_files w' = <[c_str (dir ++ filename) := data]> (w_files w) /\
    read_from_file dir filename w' = (Ok (data ++ ["010"%char]), w').
Proof.
  intros Hw. eexists. split; [by apply write_to_file_spec|]. split; [done|].
  rewrite read_from_file_spec. simpl. by rewrite lookup_insert_eq.
Qed.

Lemma write_then_read_witness :
  let w := World [] true [] [] ∅ (fun _ => true) [] in
  exists w', write_to_file "./" "result.h" "#endif" w = (Ok tt, w') /\
    w_files w' = <[c_str ("./" ++ "result.h") := ("#endif" : str)]> (w_files w) /\
    read_from_file "./" "result.h" w' = (Ok ("#endif" ++ ["010"%char]), w').
Proof. intros w. by apply (write_then_read "./" "result.h" "#endif" w). Defined.

Section database.
Context `{Connector}.

Lemma fetch_params_calls conn query args w :
  reliable ->
  exists rows past, db_answer past DbExecuteQuery = Ok rows /\
    fetch_params conn (map type_letter args) query args w =
      (Ok rows, add_dbs (DbPrepareStatement query ::
                         bind_calls 1 args ++ [DbExecuteQuery; DbDeleteStatement]) w).
Proof using.
  intros Hr. unfold fetch_params.
  destruct (perform_ok (DbPrepareStatement query) w Hr) as [? E].
  rewrite (M_bind_ok E), (M_bind_ok (bind_params_ok _ _ _ Hr)).
  set (w1 := add_dbs (bind_calls 1 args) _).
  destruct (perform_ok DbExecuteQuery w1 Hr) as [rows E1].
  rewrite (M_bind_ok E1).
  destruct (perform_ok DbDeleteStatement (add_dbs [DbExecuteQuery] w1) Hr) as [? E2].
  exists rows, (w_db w1). split; [unfold perform in E1; by injection E1|].
  rewrite (M_bind_ok E2). unfold w1. rewrite !add_dbs_app. unfold mret, M_ret.
  by rewrite <- ?app_assoc.
Qed.
End database.

(** A parameterised statement whose type letters describe its arguments is
    prepared, bound in order from parameter 1, run once and released, for
    [execute] and for [fetch], which returns the rows of the execution. *)
Theorem statement_calls (C : Connector) (conn : SQLConn) (query : str) (args : list sqlval)
    (w : world) :
  reliable ->
  execute_params conn (map type_letter args) query args w =
    (Ok tt, add_dbs (DbPrepareStatement query ::
                     bind_calls 1 args ++ [DbExecute; DbDeleteStatement]) w) /\
  exists rows past, db_answer past DbExecuteQuery = Ok rows /\
    fetch_params conn (map type_letter args) query args w =
      (Ok rows, add_dbs (DbPrepareStatement query ::
                         bind_calls 1 args ++ [DbExecuteQuery; DbDeleteStatement]) w).
Proof.
  intros Hr. split; [by apply execute_params_calls|by apply fetch_params_calls].
Qed.

(** A connector that answers every call with the columns of a sales table. *)
Definition sales_connector : Connector := {|
  db_row := str * str;
  db_answer _ _ := Ok [("cust" : str, "varchar" : str); ("prod" : str, "varchar" : str);
                       ("state" : str, "varchar" : str); ("quant" : str, "int" : str)];
  db_getString r c := Ok (if str_eqb c "COLUMN_NAME" then r.1 else r.2);
|}.

Lemma sales_reliable : reliable (H := sales_connector).
Proof. intros past c. by eexists. Qed.

Lemma statement_calls_witness :
  let w := World [] true [] [] ∅ (fun _ => true) [] in
  let args := [SqlString "JAMES"; SqlInt 3] in
  let conn := MkSQLConn "CS562" in
  execute_params (H := sales_connector) conn (map type_letter args) insert_stmt args w =
    (Ok tt, add_dbs (DbPrepareStatement insert_stmt ::
                     bind_calls 1 args ++ [DbExecute; DbDeleteStatement]) w) /\
  exists rows past, db_answer (Connector := sales_connector) past DbExecuteQuery = Ok rows /\
    fetch_params (H := sales_connector) conn (map type_letter args) insert_stmt args w =
      (Ok rows, add_dbs (DbPrepareStatement insert_stmt ::
                         bind_calls 1 args ++ [DbExecuteQuery; DbDeleteStatement]) w).
Proof.
  intros w args conn.
  exact (statement_calls sales_connector conn insert_stmt args w sales_reliable).
Defined.

(** Announcing a type that is not the type of the argument is undefined
    behaviour, whatever was bound before. *)
Theorem mistyped_argument (C : Connector) (i : Z) (args : list sqlval) (v v' : sqlval)
    (types : str) (w : world) :
  reliable -> type_letter v <> type_letter v' ->
  (bind_params (map type_letter args ++ type_letter v :: types) i (args ++ [v']) w).1 = Undefined.
Proof. intros Hr. by apply bind_params_mismatch. Qed.

Lemma mistyped_argument_witness :
  let w := World [] true [] [] ∅ (fun _ => true) [] in
  (bind_params (H := sales_connector) (map type_letter [SqlInt 1] ++ "s"%char :: []) 1
     ([SqlInt 1] ++ [SqlInt 2]) w).1 = Undefined.
Proof.
  intros w. apply (mistyped_argument sales_connector 1 [SqlInt 1] (SqlString []) (SqlInt 2) [] w
    sales_reliable). done.
Defined.

(** The table filler inserts the requested number of rows, each by one
    prepared statement with the seven columns, and every drawn value is in its
    range. *)
Theorem generated_rows (C : Connector) (rand : nat -> Z) (conn : SQLConn) (n k : nat)
    (w : world) :
  reliable -> (forall i, 0 <= rand i) ->
  exists es, length es = n /\ Forall entry_ok es /\
    insert_loop rand conn n k w = (Ok tt, add_dbs (concat (map insert_calls es)) w).
Proof. intros Hr. by apply insert_loop_ok. Qed.

Lemma generated_rows_witness :
  let w := World [] true [] [] ∅ (fun _ => true) [] in
  let rand := fun i => Z.of_nat (17 * i) in
  exists es, length es = 2%nat /\ Forall entry_ok es /\
    insert_loop (H := sales_connector) rand (MkSQLConn "CS562") 2 0 w =
      (Ok tt, add_dbs (concat (map insert_calls es)) w).
Proof.
  intros w rand. apply (generated_rows sales_connector rand (MkSQLConn "CS562") 2 0 w
    sales_reliable). intros i. unfold rand. lia.
Defined.

(** [Average<int64_t>] returns the truncated quotient of the sum by the
    number of values, and 0 without values, as long as no partial sum
    overflows. *)
Theorem average_value (vals : list Z) :
  Z.of_nat (length vals) <= INT_MAX -> partial_sums_fit 0 vals = true ->
  (a ← add_all Average_new vals; value a) =
    Ok (if decide (vals = []) then 0 else Z.quot (sum_list vals) (Z.of_nat (length vals))).
Proof. apply average_spec. Qed.

Lemma average_value_witness :
  (a ← add_all Average_new [7; -4; -8]; value a) = Ok (-1).
Proof.
  rewrite (average_value [7; -4; -8]); [done|by vm_compute|by vm_compute].
Defined.

(** ** Query files and the compiler *)

(** C31: A query file whose fields are written in the documented format is read
    back field by field. *)
Theorem query_file_parsed (q : query_file) (n : str) (w : world) :
  wf_query q n ->
  parse_file_text (file_text q n) w =
    (Ok (MkQuery (Some (f_select q)) (f_where q) (f_groups q) (Some (f_grouping q))
           (Some (f_aggregates q)) (Some (f_conditions q)) (f_having q)), w).
Proof. apply parse_file_text_ok. Qed.

Definition sample_query : query_file := {|
  f_select := ["cust" : str; "avg_quant" : str; "1_sum_quant" : str];
  f_where := "year=1997";
  f_groups := 1;
  f_grouping := ["cust" : str; "prod" : str];
  f_aggregates := ["avg_quant" : str; "1_sum_quant" : str];
  f_conditions := ["1.state='NY'" : str];
  f_having := "true\n";
|}.

Definition no_char (c : ascii) (s : str) : bool := forallb (fun d => negb (bool_decide (d = c))) s.

Lemma no_char_spec c s : no_char c s = true -> c ∉ s.
Proof.
  intros H Hin. unfold no_char in H. rewrite forallb_forall in H.
  apply list_elem_of_In, H, negb_true_iff, bool_decide_eq_false in Hin. done.
Qed.

Lemma separable_intro sep c l x :
  forallb (fun y => negb (str_eqb y []) && no_char c y) l = true ->
  last l = Some x -> ltrim x <> [] -> size sep <= size x -> separable sep c l.
Proof.
  intros Hl Hx Hb Hs. split; [|by exists x]. rewrite Forall_forall. intros y Hy.
  rewrite forallb_forall in Hl. apply list_elem_of_In, Hl, andb_true_iff in Hy as [Hy Hc].
  split; [|by apply no_char_spec]. intros ->. done.
Qed.

Lemma plain_list l : forallb (no_char ":") l = true -> Forall plain l.
Proof.
  intros H. rewrite Forall_forall. intros s Hs. rewrite forallb_forall in H.
  by apply list_elem_of_In, H, no_char_spec in Hs.
Qed.

Lemma sample_query_wf : wf_query sample_query "1".
Proof.
  split.
  - by vm_compute.
  - simpl. unfold INT_MAX. lia.
  - split; [|by apply plain_list; vm_compute].
    by apply (separable_intro _ _ _ "1_sum_quant"); vm_compute.
  - by apply no_char_spec; vm_compute.
  - split; [|by apply plain_list; vm_compute].
    by apply (separable_intro _ _ _ "prod"); vm_compute.
  - split; [|by apply plain_list; vm_compute].
    by apply (separable_intro _ _ _ "1_sum_quant"); vm_compute.
  - split; [|by apply plain_list; vm_compute].
    by apply (separable_intro _ _ _ "1.state='NY'"); vm_compute.
  - by vm_compute.
Qed.

Lemma query_file_parsed_witness :
  let w := World [] true [] [] ∅ (fun _ => true) [] in
  wf_query sample_query "1" /\
  parse_file_text (file_text sample_query "1") w = (Ok (query_of sample_query), w).
Proof.
  intros w. split; [apply sample_query_wf|].
  exact (query_file_parsed sample_query "1" w sample_query_wf).
Defined.

(** C1: For a well-formed query file over a table whose columns the connector
    reports, the command line (with or without [-emf]) compiles the query: it
    returns 0 and the only files it changes are result.h and result.cpp.  The
    header holds the structures of the parts that the file writes, with the type
    and name of every member; the program holds the helpers for the typed grouping
    attributes, the query with the where text, the preliminary scan, the printed
    syntax trees of the scans ([scans_of], those that the execution of C7 runs),
    the final loop with the words of the having clause and an assignment per
    selected aggregate, and the printing of the result, in this order. *)
Theorem compiles_query (C : Connector) (q : query_file) (n : str) (cols : list (str * str))
    (args : list str) (file : str) (emf : bool) (content : str) (w : world) :
  reliable -> describes cols -> wf_query q n -> wf_compile q (columns_of cols) ->
  content ++ ["010"%char] = file_text q n -> command_line args = FromFile file emf ->
  w_files w !! c_str file = Some content -> can_write w ->
  exists p scans program w', compiled q (columns_of cols) emf p scans program /\
    main args w = (Ok 0, w') /\
    w_files w' = outputs (header_text q (columns_of cols) p) program w.
Proof. intros. by eapply main_compiles. Qed.

Definition sales_cols : list (str * str) :=
  [("cust" : str, "varchar" : str); ("prod" : str, "varchar" : str);
   ("state" : str, "varchar" : str); ("quant" : str, "int" : str)].

Lemma sales_describes : describes (H := sales_connector) sales_cols.
Proof.
  intros past rows [= <-]. unfold sales_cols. repeat constructor.
Qed.

Lemma token_agg (s : str) (a : Aggregate) :
  wf_aggregate a -> toString a = Ok s -> token_ok s.
Proof. intros H1 H2. right. by exists a. Qed.

Lemma token_plain (s : str) : no_char "_" (c_str s) = true -> token_ok s.
Proof.
  intros H. left. rewrite isAggregate_spec. f_equal. apply bool_decide_eq_false.
  by apply no_char_spec.
Qed.

Lemma wf_avg : wf_aggregate (MkAggregate 0 "avg" "quant").
Proof. split; simpl; lits; try done; try set_solver. Qed.
Lemma wf_sum : wf_aggregate (MkAggregate 1 "sum" "quant").
Proof. split; simpl; lits; try done; try set_solver. Qed.

Definition ny_conditions : Conditions :=
  MkConditions [meaning state_is_ny] [].

(** The pieces of a text without the character are plain tokens. *)
Lemma pieces_plain (sep s : str) l last :
  s = join sep l last -> no_char "_" s = true -> no_char "000" s = true ->
  Forall token_ok (l ++ [last]).
Proof.
  intros -> Hs Hn. apply no_char_spec in Hs, Hn.
  rewrite Forall_forall. intros x Hx. apply token_plain.
  assert (Hsub : forall c, c ∈ x -> c ∈ join sep l last).
  { clear Hs Hn. intros c Hc. induction l as [|y l IH]; simpl in *.
    - apply list_elem_of_singleton in Hx as ->. done.
    - apply elem_of_cons in Hx as [->|Hx]; [|apply IH in Hx]; set_solver. }
  rewrite c_str_no_nul by auto. unfold no_char. apply forallb_forall. intros d Hd.
  apply list_elem_of_In in Hd. apply negb_true_iff, bool_decide_eq_false. intros ->. auto.
Qed.

Lemma sample_query_compile : wf_compile sample_query (columns_of sales_cols).
Proof.
  split.
  - simpl. unfold INT_MAX. lia.
  - unfold sample_query, f_select.
    forall_list ltac:(first [by apply token_plain; vm_compute
      | by apply (token_agg _ (MkAggregate 0 "avg" "quant")); [apply wf_avg|vm_compute]
      | by apply (token_agg _ (MkAggregate 1 "sum" "quant")); [apply wf_sum|vm_compute]]).
  - unfold sample_query, f_grouping.
    forall_list ltac:(eexists; split; [by vm_compute|by vm_compute]).
  - exists [MkAggregate 0 "avg" "quant"; MkAggregate 1 "sum" "quant"].
    split; [|unfold f_groups; simpl; forall_list ltac:(simpl; lia)].
    constructor; [split; [apply wf_avg|by vm_compute]|].
    constructor; [split; [apply wf_sum|by vm_compute]|constructor].
  - exists [ny_conditions]. split; [|split; [simpl; lia|]].
    + constructor; [|constructor].
      apply (ClauseSource _ "1.state='NY'" state_is_ny [] []);
        [by vm_compute|apply state_is_ny_denotes|apply word_of; by vm_compute|constructor|
         constructor|by vm_compute].
    + constructor; [|constructor]. split; [done|]. split; [simpl; lia|].
      split; [simpl; lia|]. constructor; [|constructor]. right.
      apply token_plain. by vm_compute.
  - split; [by vm_compute|]. intros l last E. eapply pieces_plain; [exact E|by vm_compute..].
Qed.

Definition sample_file : str := removelast (file_text sample_query "1").

Definition sample_world : world :=
  World [] true [] [] {[ ("query" : str) := sample_file ]} (fun _ => true) [].

Lemma compiles_query_witness :
  exists p scans program w', compiled sample_query (columns_of sales_cols) true p scans program /\
    main (H := sales_connector) ["query" : str; "-emf" : str] sample_world = (Ok 0, w') /\
    w_files w' = outputs (header_text sample_query (columns_of sales_cols) p) program sample_world.
Proof.
  apply (compiles_query sales_connector sample_query "1" sales_cols
    ["query" : str; "-emf" : str] "query" true sample_file sample_world
    sales_reliable sales_describes sample_query_wf sample_query_compile).
  - by vm_compute.
  - by vm_compute.
  - exact (lookup_singleton_eq (M := gmap str) ("query" : str) sample_file).
  - split; by vm_compute.
Defined.

(** ** What the emitted program computes *)

(** [get_uniques] keeps one row per key: rows of the table, pairwise
    different in the grouping attributes, one for every row of the table. *)
Theorem uniques_are_keys (attrs : list str) (data : list row) :
  distinct_keys attrs (get_uniques attrs data) /\
  (forall x, x ∈ get_uniques attrs data -> x ∈ data) /\
  (forall x, x ∈ data -> exists y, y ∈ get_uniques attrs data /\ same_key attrs x y = true).
Proof. apply get_uniques_spec. Qed.

(** [vfindN] returns the least index whose entry has the key, and -1 when no
    entry has it, among at most [2 ^ 31] entries: the index is narrowed to [int]. *)
Theorem vfind_least (attrs : list str) (data : list group_entry) (key : row) :
  Z.of_nat (length data) <= 2 ^ 31 ->
  (vfind attrs data key = -1 /\
     forall e, e ∈ data -> same_key attrs key (e_cells e) = false) \/
  exists k e, vfind attrs data key = Z.of_nat k /\ data !! k = Some e /\
    same_key attrs key (e_cells e) = true /\
    forall j e', (j < k)%nat -> data !! j = Some e' -> same_key attrs key (e_cells e') = false.
Proof.
  intros Hb. rewrite vfind_narrow by done.
  destruct (vfind_loop_spec attrs data key 0) as [?|(k & e & E & ?)]; [by left|right].
  exists k, e. split; [|done]. by rewrite E, Z.add_0_l.
Qed.

Lemma forall_upto_one (P : Z -> Prop) : P 0 -> P 1 -> forall i, 0 <= i <= 1 -> P i.
Proof. intros H0 H1 i Hi. assert (i = 0 \/ i = 1) as [->| ->] by lia; done. Qed.

(** C2: The emitted program, MF or EMF, without overflow, when each such-that
    condition refers to earlier grouping variables only and the having clause is
    a test: the entries of every variable hold the aggregates of exactly the rows
    its condition selects, read against the results of the earlier variables, and
    the result is the rows of the keys that the clause accepts, in the order of
    their first rows, with the value of every selected aggregate (undefined
    behaviour if the first key is rejected).  The table has at most [2 ^ 31] keys,
    whose positions the helpers return as [int]. *)
Theorem query_answered (g : Scan_Generator) (data : list row) (B : Z) (e : hexpr) :
  grouping_attr g ⊆ sg_select_columns g -> Z.of_nat (length data) < 2 ^ 63 ->
  Z.of_nat (length (get_uniques (grouping_attr g) data)) <= 2 ^ 31 ->
  0 <= no_grouping_vars g < 2 ^ 31 -> refers_back g -> guards_total g data ->
  (forall i, 0 <= i <= no_grouping_vars g -> scan_ok B data (all_aggregates g) i) ->
  Forall (fun a => 0 <= agg_group a <= no_grouping_vars g) (all_aggregates g) ->
  selects_computed g -> having_stmt g = Ok (Some (Test e)) -> having_total g data (clause_holds e) ->
  exists st, (forall i, 0 <= i <= no_grouping_vars g -> group_ok g data st st i) /\
    run_query g data =
      match get_uniques (grouping_attr g) data with
      | u :: _ =>
          if accepted g data (clause_holds e) st u
          then mapM (answer_row g data st)
                 (List.filter (accepted g data (clause_holds e) st) (get_uniques (grouping_attr g) data))
          else Undefined
      | [] => Ok []
      end.
Proof.
  intros Hcols Hdata Hkeys Hn Hback Htotal Hok Hgroups Hsel Hclause Hhaving.
  rewrite (run_query_test g e data Hclause).
  apply (run_generated_answers g data B); try done. by apply refers_looks_back.
Qed.

(** Rows that equal the maximum of their key. *)
Definition top_generator : Scan_Generator :=
  let aggs := [MkAggregate 0 "max" "quant"; MkAggregate 1 "count" "quant"] in
  MkScan_Generator 1 sales_columns ["cust" : str] aggs aggs
    (Some [MkConditions [MkCondition 1 "quant" "=" "max_quant"] []])
    "max_quant > 0 or 1_count_quant > 0" ["cust" : str] false.

(** The expression of its clause. *)
Definition top_clause : hexpr :=
  HBin BOr (HBin BGt (HField 0 "max_quant" false) (HNum 0))
    (HBin BGt (HField 1 "count_quant" false) (HNum 0)).

(** A world without files or statements, to evaluate the functions that read none. *)
Definition no_world : world := World [] true [] [] ∅ (fun _ => true) [].

Lemma in_sales (P : row -> Prop) : Forall P sales -> forall x, x ∈ sales -> P x.
Proof. by rewrite Forall_forall. Qed.

(** A position that [vfind] returns is in range. *)
Lemma vfind_at attrs objs x :
  Z.of_nat (length objs) <= 2 ^ 31 -> (vfind attrs objs x >? 0) = true ->
  is_Some (objs !! Z.to_nat (vfind attrs objs x)) /\ 0 <= vfind attrs objs x < Z.of_nat (length objs).
Proof.
  intros Hl H. rewrite vfind_narrow in * by done.
  destruct (vfind_loop_spec attrs objs x 0) as [[E _]|(k & e & E & Hk & _)]; rewrite E in *; [done|].
  rewrite Z.add_0_l, Nat2Z.id. split; [by exists e|]. apply lookup_lt_Some in Hk. lia.
Qed.

Lemma top_guards : guards_total top_generator sales.
Proof.
  intros i st it x Hi Hst Hit _. simpl in Hi. revert i Hi. apply forall_upto_one; [done|].
  destruct (Hst 0) as (objs & Ho & Hc); [simpl; lia|].
  assert (Hq : exists z, it !! ("quant" : str) = Some (CInt z)).
  { revert it Hit. apply in_sales. forall_list ltac:(eexists; by vm_compute). }
  destruct Hq as [z Hq].
  assert (Hl : Z.of_nat (length objs) <= 2 ^ 31).
  { apply (f_equal (@length _)) in Hc. rewrite !length_map in Hc. rewrite Hc. by vm_compute. }
  set (c := MkCondition 1 "quant" "=" "max_quant").
  change (is_ok (eval_conditions ["cust" : str] sales_columns (MkConditions [c] []) st it None) = true).
  unfold eval_conditions.
  replace (conditions_guard sales_columns (MkConditions [c] []))
    with (Ok (CGuard (CTest "quant" false false "=" (RAggregate 0 "max_quant" false)) [])) by by vm_compute.
  rewrite obind_Ok. unfold eval_guard. simpl.
  unfold eval_test. simpl. rewrite Hq. simpl. rewrite Ho. simpl.
  destruct (vfind _ objs it >? 0) eqn:Ev; [|done].
  destruct (vfind_at _ _ _ Hl Ev) as [[e He] Hr]. unfold vec_at.
  rewrite to_size_t_small by lia. rewrite decide_True, He by lia. simpl.
  by destruct (_ =? _).
Qed.

Lemma query_answered_witness :
  exists st, (forall i, 0 <= i <= 1 -> group_ok top_generator sales st st i) /\
    run_query top_generator sales =
      match get_uniques (grouping_attr top_generator) sales with
      | u :: _ =>
          if accepted top_generator sales (clause_holds top_clause) st u
          then mapM (answer_row top_generator sales st)
                 (List.filter (accepted top_generator sales (clause_holds top_clause) st)
                    (get_uniques (grouping_attr top_generator) sales))
          else Undefined
      | [] => Ok []
      end.
Proof.
  apply (query_answered top_generator sales 100 top_clause).
  - done.
  - by vm_compute.
  - by vm_compute.
  - simpl. lia.
  - intros i l cs c Hl Hi Hcs Hc. injection Hl as <-.
    destruct (Z.to_nat (i - 1)) as [|k] eqn:Ek; [|by destruct k].
    injection Hcs as <-. apply list_elem_of_singleton in Hc as ->. unfold refers_below. simpl.
    replace (isAggregate "max_quant") with (Ok true) by by vm_compute.
    replace (Aggregate_new "max_quant" no_world).1 with (Ok (MkAggregate 0 "max" "quant")) by by vm_compute.
    simpl. lia.
  - apply top_guards.
  - intros i Hi. revert i Hi. apply forall_upto_one.
    + split; [repeat constructor; apply not_elem_of_nil|].
      split; [lia|by vm_compute|by vm_compute|].
      unfold sales. forall_list ltac:(intros u Hu; apply list_elem_of_singleton in Hu as ->;
        eexists; (split; [by vm_compute|by vm_compute])).
    + split; [repeat constructor; apply not_elem_of_nil|].
      split; [lia|by vm_compute|by vm_compute|].
      unfold sales. forall_list ltac:(intros u Hu; apply list_elem_of_singleton in Hu as ->;
        eexists; (split; [by vm_compute|by vm_compute])).
  - simpl. forall_list ltac:(simpl; lia).
  - simpl. unfold selects_computed. simpl.
    forall_list ltac:(split; [set_solver|split; [eexists; by vm_compute|by vm_compute]]).
  - by vm_compute.
  - by apply tests_total; vm_compute.
Defined.

(** C7: The text and the meaning of the scans come from the same syntax trees: the
    generator prints exactly the trees of the query, guards and update statements
    included, and [run_scans] executes them in order. *)
Theorem scans_printed_and_run (g : Scan_Generator) (l : list scan) :
  0 <= no_grouping_vars g < 2 ^ 31 ->
  Forall (fun a => 0 <= agg_group a <= no_grouping_vars g) (all_aggregates g) ->
  scans_of g = Ok l ->
  (forall w, (scan_text g w).1 = append_each (print_scan g) l) /\
  forall uniques data st,
    (groups ← group_aggregates g; run_scans g uniques data 0 groups st) =
      fold_ok (exec_scan (emf g) (grouping_attr g) uniques data) st l.
Proof.
  intros Hn Ha Hl. split; [by apply emits_scans|]. intros uniques data st. by apply exec_scans.
Qed.

Definition top_scans : list scan :=
  [Scan 0 None [KeepMax 0 "max_quant" "quant"];
   Scan 1 (Some (CGuard (CTest "quant" false false "=" (RAggregate 0 "max_quant" false)) []))
     [Increment 1 "count_quant"]].

Lemma scans_printed_and_run_witness :
  (forall w, (scan_text top_generator w).1 = append_each (print_scan top_generator) top_scans) /\
  forall uniques data st,
    (groups ← group_aggregates top_generator; run_scans top_generator uniques data 0 groups st) =
      fold_ok (exec_scan (emf top_generator) (grouping_attr top_generator) uniques data) st top_scans.
Proof.
  apply (scans_printed_and_run top_generator top_scans).
  - simpl. lia.
  - simpl. forall_list ltac:(simpl; lia).
  - by vm_compute.
Defined.

(** C33: A having clause written from an expression, with the parentheses that the
    precedence of C++ asks for: [parse_having] prints every aggregate as the
    member that holds it and copies the other words, and the printed condition
    means that expression. *)
Theorem having_clause_read (g : Scan_Generator) (e : hexpr) (ws : list str) :
  Forall (writable g) (show 0 e) -> mapM written (show 0 e) = Ok ws -> having g = unwords ws ->
  size (having g) < 2 ^ 64 ->
  having_stmt g = Ok (Some (Test e)) /\
  exists xs, mapM emitted (show 0 e) = Ok xs /\ forall w, parse_having g w = (Ok (unwords xs), w).
Proof. apply clause_read. Qed.

(** The clause of a query of the repository (src/test/test). *)
Definition test_clause : hexpr :=
  HBin BOr
    (HBin BGt (HField 1 "sum_quant" false) (HBin BMul (HNum 2) (HField 2 "sum_quant" false)))
    (HBin BGt (HField 1 "avg_quant" true) (HField 3 "avg_quant" true)).

Definition test_generator : Scan_Generator :=
  let aggs := [MkAggregate 1 "sum" "quant"; MkAggregate 1 "avg" "quant"; MkAggregate 2 "sum" "quant";
               MkAggregate 3 "sum" "quant"; MkAggregate 3 "avg" "quant"] in
  MkScan_Generator 3 sales_columns ["cust" : str] aggs aggs None
    "1_sum_quant > 2 * 2_sum_quant or 1_avg_quant > 3_avg_quant" ["cust" : str] false.

Lemma test_writable : Forall (writable test_generator) (show 0 test_clause).
Proof.
  assert (Hop : forall t, (match t with TNum z => 0 <= z < 2 ^ 63 | TField _ _ _ => False | _ => True end) ->
    (forall w, written t = Ok w -> isColumn w sales_columns = false) -> writable test_generator t)
    by (intros []; simpl; tauto).
  assert (Hfield : forall a, a ∈ all_aggregates test_generator -> INT_MIN < agg_group a <= INT_MAX ->
    (agg_func a = "sum" \/ agg_func a = "avg") -> agg_column a = "quant" ->
    writable test_generator (TField (agg_group a) (toVar a) (func_is a "avg" "AVG"))).
  { intros [n f c] Ha Hg Hf Hc. exists (MkAggregate n f c). simpl in *. subst c.
    assert (Hwf : wf_aggregate (MkAggregate n f "quant")).
    { destruct Hf as [-> | ->]; constructor; simpl; lits; try done; set_solver. }
    split_and!; try done; unfold toVar; destruct Hf as [-> | ->]; simpl; lits; set_solver. }
  change (show 0 test_clause) with
    [TField 1 "sum_quant" false; TBin BGt; TNum 2; TBin BMul; TField 2 "sum_quant" false; TBin BOr;
     TField 1 "avg_quant" true; TBin BGt; TField 3 "avg_quant" true].
  repeat (apply Forall_cons_2); [..|by apply Forall_nil_2].
  all: try (apply Hop; [simpl; done || lia|intros w E; vm_compute in E; injection E as <-; by vm_compute]).
  - apply (Hfield (MkAggregate 1 "sum" "quant")); [simpl; set_solver|by vm_compute|by left|done].
  - apply (Hfield (MkAggregate 2 "sum" "quant")); [simpl; set_solver|by vm_compute|by left|done].
  - apply (Hfield (MkAggregate 1 "avg" "quant")); [simpl; set_solver|by vm_compute|by right|done].
  - apply (Hfield (MkAggregate 3 "avg" "quant")); [simpl; set_solver|by vm_compute|by right|done].
Qed.

Lemma having_clause_read_witness :
  having_stmt test_generator = Ok (Some (Test test_clause)) /\
  exists xs, mapM emitted (show 0 test_clause) = Ok xs /\
    forall w, parse_having test_generator w = (Ok (unwords xs), w).
Proof.
  apply (having_clause_read test_generator test_clause
    ["1_sum_quant" : str; ">" : str; "2" : str; "*" : str; "2_sum_quant" : str; "or" : str;
     "1_avg_quant" : str; ">" : str; "3_avg_quant" : str]).
  - apply test_writable.
  - by vm_compute.
  - by vm_compute.
  - by vm_compute.
Defined.

(** A [=] in the having clause is copied into the C++ condition, where it is an
    assignment: the old value of the aggregate on its left has no part in the
    test, and the value of the right side is what is left for the result. *)
Theorem having_equals_assigns (st : store) (pos n : Z) (f : str) (e : hexpr) (v : num) (x : group_entry) :
  0 <= pos < 2 ^ 64 -> eval st pos e = Ok v -> entry_at st pos n = Ok x ->
  exists st' x', run_stmt st pos (Assign n f (Test e)) = Ok (Num true (val v), st') /\
    entry_at st' pos n = Ok x' /\ num_of x' f = val v.
Proof. apply assign_overwrites. Qed.

(** The query of src/test/example5 asks for [2_count_prod = 1_count_prod / 2]. *)
Definition half_generator : Scan_Generator :=
  let aggs := [MkAggregate 2 "count" "prod"; MkAggregate 1 "count" "prod"] in
  MkScan_Generator 2 sales_columns ["cust" : str] [] aggs None
    "2_count_prod = 1_count_prod / 2" ["cust" : str] false.

Lemma having_equals_assigns_witness :
  let e := HBin BDiv (HField 1 "count_prod" false) (HNum 2) in
  let entry k := MkEntry ∅ {[ ("count_prod" : str) := k ]} ∅ in
  having_stmt half_generator = Ok (Some (Assign 2 "count_prod" (Test e))) /\
  exists st' x', run_stmt [[]; [entry 7]; [entry 5]] 0 (Assign 2 "count_prod" (Test e)) = Ok (Num true 3, st') /\
    entry_at st' 0 2 = Ok x' /\ num_of x' "count_prod" = 3.
Proof.
  intros e entry. split; [by vm_compute|].
  apply (having_equals_assigns [[]; [entry 7]; [entry 5]] 0 2 "count_prod" e (Num true 3) (entry 5));
    [lia|by vm_compute|by vm_compute].
Defined.

Lemma sample_room us :
  us = [AddAssign 0 "sum_quant" "quant"] \/ us = [KeepMin 1 "min_quant" "quant"] ->
  room 100 us sales.
Proof.
  intros Hus. split; [lia|destruct Hus; subst; by vm_compute|destruct Hus; subst; by vm_compute|].
  unfold sales. forall_list ltac:(intros u Hu;
    assert (Eu : u = AddAssign 0 "sum_quant" "quant" \/ u = KeepMin 1 "min_quant" "quant")
      by (destruct Hus; subst; apply list_elem_of_singleton in Hu; tauto);
    destruct Eu as [->| ->]; eexists; (split; [by vm_compute|by vm_compute])).
Qed.

(** C6: One scan of an EMF query: the entry of each key takes exactly the rows
    of the whole table that the condition relates to the row of the key. *)
Theorem emf_scan_result (i : nat) (us : list update) (attrs cols : list str) (data : list row)
    (B : Z) (cond : guard) (p : row -> row -> bool) (st : store) :
  Forall (fun u => update_group u = Z.of_nat i) us -> NoDup (map update_field us) ->
  room B us data -> Z.of_nat (length data) < 2 ^ 63 ->
  st !! i = Some (map (new_entry cols) (get_uniques attrs data)) ->
  (forall (st' : store) (u x : row), frame i st st' -> u ∈ get_uniques attrs data ->
     x ∈ data -> cond st' u (Some x) = Ok (p u x)) ->
  exists objs',
    run_emf_scan (get_uniques attrs data) data cond us st = Ok (<[i := objs']> st) /\
    Forall2 (fun u e => holds us (List.filter (p u) data) e) (get_uniques attrs data) objs'.
Proof.
  intros Hus Hf Hr Hd Hst Hcond.
  destruct (emf_scan_holds i us attrs cols data Hus Hf B Hr Hd cond p st Hst Hcond)
    as (objs & E & Ho). exists objs. split; [done|].
  eapply Forall2_impl; [exact Ho|]. by intros u e [_ He].
Qed.

Lemma emf_scan_result_witness :
  let us := [AddAssign 0 "sum_quant" "quant"] in
  let attrs := ["cust" : str] in
  let st := [map (new_entry attrs) (get_uniques attrs sales)] in
  exists objs',
    run_emf_scan (get_uniques attrs sales) sales (guard_of (sample_generator true) 0) us st =
      Ok (<[0%nat := objs']> st) /\
    Forall2 (fun u e => holds us (List.filter (fun _ => true) sales) e)
      (get_uniques attrs sales) objs'.
Proof.
  intros us attrs st. apply (emf_scan_result 0 us attrs attrs sales 100 _ (fun _ _ => true) st).
  - unfold us. forall_list ltac:(done).
  - repeat constructor. apply not_elem_of_nil.
  - apply sample_room. by left.
  - by vm_compute.
  - done.
  - done.
Defined.

(** The final loop keeps the entries the having condition accepts, filled and
    in order, unless it rejects the very first entry: erasing it steps the
    iterator before the beginning of the vector, which is undefined. *)
Theorem result_filtered (attrs : list str) (having : store -> Z -> outcome bool)
    (aggs : list Aggregate) (st : store) (data0 : list group_entry) (mf : list row)
    (h : Z -> bool) (r : row -> row) :
  let keep e := h (vfind attrs data0 e) && negb (vfind attrs data0 e =? -1) in
  st !! 0%nat = Some data0 ->
  Forall (fun e => having st (vfind attrs data0 e) = Ok (h (vfind attrs data0 e)) /\
    (keep e = true -> fill_entry st aggs (vfind attrs data0 e) e = Ok (r e))) mf ->
  run_fill_mfstruct attrs having aggs st mf =
    match mf with
    | e :: _ => if keep e then Ok (map r (List.filter keep mf)) else Undefined
    | [] => Ok []
    end.
Proof.
  intros keep Hst Hmf. unfold run_fill_mfstruct. rewrite Hst. cbn [deref]. rewrite obind_Ok.
  apply (run_fill_spec _ _ keep r). eapply Forall_impl; [exact Hmf|].
  intros e [Hh Hf]. cbv zeta. by rewrite Hh.
Qed.

Lemma result_filtered_witness :
  let mf := [ {[ ("cust" : str) := CStr "Bloom" ]} : row; {[ ("cust" : str) := CStr "Sam" ]} ] in
  let data0 := map (new_entry ["cust" : str]) mf in
  run_fill_mfstruct ["cust" : str] (fun _ pos => Ok (pos =? 0)) [] [data0] mf =
    Ok [ {[ ("cust" : str) := CStr "Bloom" ]} ].
Proof.
  intros mf data0.
  rewrite (result_filtered ["cust" : str] (fun _ pos => Ok (pos =? 0)) [] [data0] data0 mf
    (fun pos => pos =? 0) (fun e => e)).
  - by vm_compute.
  - done.
  - unfold mf. forall_list ltac:(split; [done|by vm_compute]).
Defined.

(** A condition that compares with an aggregate of another grouping variable
    is false on the rows of that variable's first entry, whatever the values:
    the emitted guard asks for a position greater than 0. *)
Theorem first_entry_never_matches (attrs : list str) (columns : list Column) (c : Condition)
    (a : Aggregate) (st : store) (objs : list group_entry) (e : group_entry) (it : row)
    (v : cell) (xt : option row) :
  isColumn (cond_value c) columns = false -> isAggregate (cond_value c) = Ok true ->
  contains (cond_column c) "avg" = false -> it !! cond_column c = Some v ->
  (forall w, Aggregate_new (cond_value c) w = (Ok a, w)) ->
  st !! Z.to_nat (agg_group a) = Some objs -> objs !! 0%nat = Some e ->
  same_key attrs it (e_cells e) = true ->
  eval_condition attrs columns c st it xt = Ok false.
Proof. apply eval_condition_first_group. Qed.

Lemma first_entry_never_matches_witness :
  let it : row := {[ ("cust" : str) := CStr "Bloom"; ("quant" : str) := CInt 10 ]} in
  eval_condition ["cust" : str] sales_columns (MkCondition 1 "quant" ">" "sum_quant")
    [[new_entry ["cust" : str] it]] it None = Ok false.
Proof.
  intros it.
  apply (first_entry_never_matches ["cust" : str] sales_columns
    (MkCondition 1 "quant" ">" "sum_quant") (MkAggregate 0 "sum" "quant")
    [[new_entry ["cust" : str] it]] [new_entry ["cust" : str] it] (new_entry ["cust" : str] it)
    it (CInt 10) None); try by vm_compute.
Defined.

(** In an EMF query a condition on a constant tests the row of the group and
    not the scanned row: it takes all rows of the table or none. *)
Theorem emf_constant_condition (attrs : list str) (columns : list Column) (c : Condition)
    (st st' : store) (it : row) (xt xt' : option row) :
  isColumn (cond_value c) columns = false -> hasColumn (cond_value c) columns = false ->
  isAggregate (cond_value c) = Ok false ->
  eval_condition attrs columns c st it xt = eval_condition attrs columns c st' it xt'.
Proof. apply eval_condition_constant. Qed.

Lemma emf_constant_condition_witness :
  let it : row := {[ ("cust" : str) := CStr "Bloom" ]} in
  let c := MkCondition 1 "cust" "=" "\qSam\q" in
  eval_condition ["cust" : str] sales_columns c [] it (Some ∅) =
  eval_condition ["cust" : str] sales_columns c [] it None.
Proof.
  intros it c. apply (emf_constant_condition ["cust" : str] sales_columns c [] [] it (Some ∅) None);
    by vm_compute.
Defined.

(** Against a quoted value every operator means equality: in particular
    [!=] accepts exactly the rows [=] accepts. *)
Theorem quoted_values_ignore_operator (c : Condition) (op : str) (a b : cell) :
  contains (cond_value c) "\q" = true ->
  eval_comparison (MkCondition (cond_group c) (cond_column c) op (cond_value c)) a b =
  eval_comparison c a b.
Proof. apply eval_comparison_quoted. Qed.

Lemma quoted_values_ignore_operator_witness :
  eval_comparison (MkCondition 1 "cust" "!=" "\qSam\q") (CStr "Sam") (CStr "Sam") = Ok true.
Proof.
  transitivity (eval_comparison (MkCondition 1 "cust" "=" "\qSam\q") (CStr "Sam") (CStr "Sam"));
    [|by vm_compute].
  apply (quoted_values_ignore_operator (MkCondition 1 "cust" "=" "\qSam\q") "!="
    (CStr "Sam") (CStr "Sam")). by vm_compute.
Defined.
